(* ===== verification/_CoqProject ===== *)
-Q . S2P
Prelude.v
Checksum.v
Packet.v
Ethernet.v
Arp.v
Ipv4.v
Icmp.v
Route.v
Udp.v
UdpTable.v
Dhcp.v
TcpSegment.v
TcpConn.v
TcpInvariant.v
TcpStream.v
TcpTable.v
TcpTableInv.v
TcpDispatch.v
Text.v
Fields.v
DnsName.v
DnsWire.v
DnsAnswer.v
DnsCache.v
HttpUrl.v
HttpResponse.v
HttpStream.v
HttpRequest.v
FdTable.v
FdInvariant.v
FdOwnership.v
FdLaunch.v
Concurrent.v
PthreadMutex.v
PthreadRwlock.v
Semaphore.v
PthreadOnce.v
PthreadSpin.v
PthreadBarrier.v
PthreadCond.v
Users.v
Accounts.v
Groups.v
ElfSignature.v
ElfParse.v
ElfLocate.v
ElfVerify.v
ElfManifest.v
ElfTamper.v
ElfSign.v
ElfSigned.v
ElfContract.v
CertDatabase.v
CertCodec.v
CertStorage.v
CertCrash.v
CertFile.v
LaunchImage.v
LaunchParse.v
ImageMapping.v
MappingSafe.v
MappingHistory.v
LaunchContainer.v
LaunchLayout.v
LaunchAccept.v
ProcessImage.v
StartupStack.v
StartupRead.v
StartupMetadata.v
StartupOwner.v
NetWire.v
NetMessages.v
NetPlain.v
NetTls.v
NetHttp.v
NetProtocol.v
Stack.v
