(* ===== verification/Prelude.v ===== *)
(** * Verification library of the mochiOS user-space libraries

    ** The program

    [crates/network-stack] is the [no_std] protocol library of the system's network service.  It
    performs no input or output: the service hands it received bytes, the current time and
    entropy, and sends what it returns.  Its parts, from the wire up, are the
    Ethernet, ARP and IPv4 codecs over one checksum routine, ICMP echo, routing, UDP (datagrams and a table of
    bounded socket queues), DHCP (messages and a lease state machine), TCP (segments, connections, a table of
    connections and listeners, and the routing of received segments) and DNS (names, queries, answers, cache and
    query timer).

    [crates/http-client] is built on top of it: HTTPS URLs and redirects, requests, and responses, either decoded
    from a buffer or streamed to a sink; its host names are what the resolver takes.

    [crates/posix-client] carries the state of POSIX emulation in each process.  Its file-descriptor table
    ([fd.rs]) maps small integers to native handles, which it clones and closes through its caller, reserves
    descriptors for operations that take time, and is handed over to a launched program through keys
    and metadata words of [crates/posix-protocol].  Its synchronisation objects ([pthread_mutex.rs],
    [pthread_rwlock.rs], [pthread_once.rs], [pthread_spin.rs], [pthread_barrier.rs], [pthread_cond.rs], [semaphore.rs]) are
    atomic words in memory that threads, also of different processes, share; [newlib-runtime] calls them with the native wait
    and wake operations.  Its program loader parses ELF images ([elf_launch.rs]) and either installs their segments in
    its own process, as a transaction on memory that it reserves, fills and seals ([elf_mapping.rs]), or packs a program and its
    interpreter into one container that the kernel starts (again [elf_launch.rs]).  The new process begins with a stack that holds
    arguments, environment and auxiliary vector ([process_image.rs]); metadata of the loader that does not fit on it
    goes to a memory object that is mapped beside it ([startup_metadata.rs]).

    [crates/user-database] keeps accounts and groups in text files: records, their validation, and the databases with
    their uniqueness rules; private groups are provisioned from the accounts.

    [crates/elf-signature] decides whether an executable may be trusted to be what was signed: it parses ELF64
    images, finds the note with the signature, checks digest and signature, locates the embedded manifest, and
    on the build side appends the sections and signs.

    [crates/certificate-database] keeps the trust and revocation snapshots of the certificate service: two slots for each kind
    and a record that says which of them is current, through a backend and a validator of its caller or through files.

    [crates/net-device-protocol] is the language between network drivers, the network service and its clients: one header, thirty-eight opcodes, and
    a layout for each message of the device, of name resolution, TCP, TLS and HTTP.

    ** Files

    - [Prelude] : results and panics, machine integers, slices, vectors, tactics, the hint database [rust].
    - [Packet] : [PacketError] of [lib.rs]; the interface [Framing] that link and network codecs promise.
    - [Checksum], [Ethernet], [Arp], [Ipv4], [Icmp], [Route] : the modules of the same names.
    - [Udp], [UdpTable] : [udp.rs], the datagram codec and [UdpSocketTable].
    - [Dhcp] : [dhcp.rs].
    - [TcpSegment] : the codec part of [tcp.rs].  [TcpConn] : [TcpConnection] and the connection
      part of [tcp/passive.rs].  [TcpInvariant], [TcpStream] : theorems on connections.
    - [TcpTable] : [TcpConnectionTable] and listeners.  [TcpTableInv] : its theorems.
    - [TcpDispatch] : [tcp/dispatch.rs].
    - [DnsName] : names and literals of [dns.rs].  [DnsWire] : wire names and queries of
      [dns/records.rs].  [DnsAnswer] : the answer decoder and [dns/negative.rs].
      [DnsCache] : [DnsCache] and [DnsRetry].
    - [Stack] : the codecs on top of each other; the interface [Transport].
    - [Text] : the operations of [str] and of number parsing that the text-based code uses.
    - [HttpUrl], [HttpRequest], [HttpResponse] : [url.rs], [request.rs] and the buffering decoder of [response.rs] in
      [http-client].  [HttpStream] : its streaming decoder.
    - [FdTable] : [FdTable] of [fd.rs].  [FdInvariant], [FdOwnership] : its theorems.  [FdLaunch] : descriptors across a
      program launch; the interface [LaunchContextLaws] that a launch context promises.
    - [Concurrent] : programs of atomic actions, machines that interleave them, a logic of invariants with
      ghost state and its soundness.  [PthreadMutex], [PthreadRwlock], [Semaphore], [PthreadOnce], [PthreadSpin],
      [PthreadBarrier], [PthreadCond] : the synchronisation objects, each in a module of its own.
    - [Users], [Groups] : [lib.rs] and [groups.rs] of [user-database].  [Accounts] : the account database as a finite map.
    - [ElfSignature] : [codec.rs] and [manifest.rs] of [elf-signature].  [ElfParse], [ElfLocate], [ElfVerify], [ElfManifest] :
      what the parser, the search for the note, the verifier and [locate] accept, as relations.  [ElfTamper] : two
      accepted images.  [ElfSign], [ElfSigned] : what signing writes, and that it is accepted.
      [ElfContract] : the theorems that callers rely on.
    - [Fields] : little-endian integers and records of fixed layout.
    - [CertDatabase], [CertStorage] : [lib.rs] and [storage.rs] of [certificate-database].  [CertCodec] : the codec of the
      state record.  [CertCrash] : the interfaces [DiskLaws] and [ValidatorLaws], a weakest precondition for the storage's
      computations, and what torn writes and restarts preserve.  [CertFile] : [std_file.rs], which meets [DiskLaws].
    - [LaunchImage] : [Image] of [elf_launch.rs].  [LaunchParse] : what its parser accepts, and the facts about an accepted image
      on which the other parts rely.
    - [ImageMapping] : [elf_mapping.rs].  [MappingSafe] : the interface [VmLaws] that the memory promises, the memory that each
      phase of an installation stands for, and every operation between phases.  [MappingHistory] : sequences of operations, and
      a memory that meets the interface.
    - [LaunchContainer] : [Launch] of [elf_launch.rs].  [LaunchLayout] : where the segments lie in a container,
      and the bytes that [write] writes.  [LaunchAccept] : what the image parser makes of them.
    - [ProcessImage] : [process_image.rs], and [Layout] of [startup_metadata.rs].  [StartupStack] : what the writing
      steps put on the stack, and the stack as a whole.  [StartupRead] : the kernel's relocation of a stack, a
      program that walks it, and what it finds.  [StartupMetadata] : [Owner] of [startup_metadata.rs].  [StartupOwner] :
      the interface [StoreLaws] that memory objects promise, and the start-up image with its metadata.
    - [NetWire] : header, opcodes and integers of [lib.rs] of [net-device-protocol]; the interface [Codec], what each message
      promises ([exact]), and the tactics that run encoders and decoders.  [NetMessages], [NetTls], [NetHttp] : the messages of
      [lib.rs], [tls.rs] and [http.rs].  [NetPlain] : the codecs of [NetMessages].  [NetProtocol] : all formats together.

    ** How the code is modelled

    A definition has the name of the Rust item it translates; a method of a type that
    others also have carries the type's name ([Ipv4Header_decode]) or a short prefix.  A function that
    mutates [&mut self] takes the old state and returns the new one with its result; a
    function that writes into [&mut [u8]] returns the buffer.  A [Result] is [result]: [Ok], [Err], or
    [Panic] for what would be a panic of the checked build: an index or range out of bounds, a
    [copy_from_slice] of unequal lengths, an overflowing [+], an [unwrap] of nothing.  Theorems that say
    that a function does not panic exclude the last constructor.  Integers are [Z] with the width written out in
    wrapping, saturating and checked operations; bytes are [Z] in [0, 256) ([bytes]), arrays are lists of fixed
    length ([arr]), lengths and offsets of slices are [nat] (a slice has at most [isize::MAX] bytes, so adding
    the small constants of the code to an offset in it does not overflow).  Vectors and queues are lists, the
    front at the head.  [&str] is the list of its UTF-8 bytes.

    The outcome of a fallible allocation ([try_reserve], [try_reserve_exact]) is an argument
    [try_reserve : Z -> bool] of the operation, and theorems hold for every such function (those that
    need that a vector cannot outgrow [isize::MAX] say so with [reserve_ok]).  Infallible allocations are assumed
    to succeed.  The entropy closure of [receive_packet] is the value it would return.

    Long functions are split at their phases, each part mapped to its lines ([decode_dns_answer],
    [on_segment], [poll_transmit], [DhcpClient::tick], [receive_packet], [decode_response], [restore_launch_context]).

    Traits and closures of the caller ([HandleOps], [LaunchContextOps], [StorageBackend], [Backend], [ImageStore], the sink of the streaming decoder) are type
    classes or arguments with a state of their own, and theorems hold for every such argument, or for those with the
    laws that the theorem names.

    The operations on shared words are programs over named cells, one atomic action after another in the order of
    the source.  Threads interleave at every action; memory is sequentially consistent, the [Ordering] arguments are not
    modelled.  The kernel's side of a wait and a wake, which is not part of the repository, is what the comments of
    [synchronization.rs] promise and no more: a wait returns at once if the word differs from the expected
    value, else it sleeps; a wake of one or of all selects sleepers on that word; a wait may also fail or
    return without cause at any time.  Whether a wait can fail after a wake has selected it is a parameter ([lossy]).

    The calls of [std::fs] that the file backend makes act on a map from paths to contents, and a list of verdicts says which
    of them fail; a write or a synchronisation that fails leaves a prefix of the new contents, a truncation nothing.

    ** Fuel

    Loops that are not structural carry fuel, which is the bound the code itself gives (128 options in
    [dhcp_scan], the port range in [allocate_port_loop]) or one that the theorems show to be enough: the length of
    the data for option and label walks, [start + 256] for [record_name_loop] (each label lengthens a name of at most
    255 bytes and each pointer lowers the ceiling below [start]), [DNS_MAX_ALIAS_DEPTH + 1] for [alias_loop].
    The chunked decoder has the length of the payload plus one, as each chunk takes at least one byte; [note_loop] has the
    size of the area plus one, as each note takes twelve; [next_uid_loop] has the number of accounts plus one;
    [write_loop] has the number of bytes to write plus one, as each round writes one at least.
    Running out of fuel is [Panic], so the theorems that exclude [Panic] prove termination too.  Only the loops on shared
    words are different, as other threads can make them spin: their fuel is chosen anew for each call, out of
    fuel the thread stands still, and the theorems, which are about all reachable states, hold for every choice.

    ** What the theorems show

    - Codecs: encoding followed by decoding is the identity and touches only the reported prefix of the buffer;
      decoders never panic on arbitrary bytes, and say exactly what they accept; a corrupted byte is detected
      ([Checksum], [Arp], [Ipv4], [Icmp], [Udp], [TcpSegment], [Dhcp], [DnsWire], [Stack]).
    - Tables and caches: invariants over every sequence of operations, FIFO refinement of UDP sockets, delivery
      to the right socket, capacity, expiry and provenance of cached answers ([Arp], [UdpTable], [TcpTableInv], [DnsCache]).
    - State machines: the DHCP lease is used only while it is acknowledged and valid, and the client gives
      up and restarts; the TCP connection invariant, its state diagram, acknowledgment window, retransmission
      limit ([Dhcp], [TcpInvariant]).
    - End to end: over a network that loses, duplicates and reorders segments, a TCP receiver reads a prefix of
      what the sender queued ([TcpStream]); the dispatcher refuses and resets as it should ([TcpDispatch]); a
      DNS answer is faithful to its message ([DnsAnswer]).
    - Text protocols: the URL parser, the chunked decoder and the request encoder accept exactly their grammars; no
      field of a request can forge a line; a response cut into pieces means what it means in one piece
      ([HttpUrl], [HttpResponse], [HttpStream], [HttpRequest]).
    - Resources: each native handle has one owner over any history of descriptor operations; a reserved descriptor is
      its token's; a launched program gets exactly the descriptors it should ([FdOwnership], [FdInvariant], [FdLaunch]).
    - Databases: reading what was written gives the same accounts and groups, only valid files are read, and every
      history of additions and removals is one of a finite map ([Users], [Accounts], [Groups]).
    - Signed images: the verifier panics on no byte string; it accepts only an image whose one signature note lies apart
      from everything that is loaded or parsed, whose digest is that of the file and whose signature is that of the
      resolved key; two accepted images with one digest are one file or a collision of the hash; what is signed
      or embedded is accepted or found again ([ElfContract]).  [signing_unmaps_segment] is why the program headers must
      not lie in the ELF header.
    - Crash safety: whichever call fails or tears a write, a snapshot that was given out or acknowledged is never replaced by
      an older one, and once calls succeed again a load recovers the database ([CertFile]); the state record has one
      encoding ([CertCodec]).  [etag_lone_quote_panics] is the entity tag on which the code panics.
    - Loading: whichever call on memory fails, an installation never has a byte both writable and executable, a sealed one
      has exactly the bytes and permissions of the image, and what it does not hold is as it was ([MappingHistory]); a launch
      container is an image that carries every segment of the program and of its interpreter to its place ([LaunchAccept]).
    - Starting: wherever the kernel puts the stack of a new process, the program finds on it the arguments, the environment that
      its identity allows and the auxiliary vector, and through the vector each part of the metadata; whichever call on the
      memory object fails, no reference is leaked ([StartupOwner]).
    - Messages: for each message of the network protocol, the encoder writes the bytes of the format, checks the buffer and refuses what
      is not allowed, the decoder accepts these bytes only (but for one flag) and panics on none, and no bytes are a message of
      two opcodes; one entity tag of an HTTP request is the exception ([NetProtocol]).
    - Concurrency: mutual exclusion and ownership, reader-writer exclusion, token conservation, one-time
      initialisation, barrier rounds and broadcasts in every reachable state of any number of threads.  Mutexes lose no
      wake-up if failing waits do not swallow one; [mutex_handoff_lost] is the schedule in which one is lost otherwise.

    ** Not modelled

    [connections_mut] (an iterator of references), [get_mut], plain field accessors, derived traits;
    [read], [write] and [seek] of the descriptor table, which call the caller's [FileOps]; [plan_launch_context], whose
    output format belongs to the kernel; [elf_mapping/native.rs], the system calls behind [Backend]; memory orderings weaker than sequential consistency; the other modules of
    [posix-client] (dynamic linking, signals, thread start-up, and emulation over messages to services) and the other
    crates of the workspace: message layouts of other services, system-call and C bindings, and code over
    third-party libraries.  SHA-256 and Ed25519 are parameters of the signature code.  The [Display] text of [WireError] and
    the status numbers of the network protocol, which no codec looks at. *)

From stdpp Require Export prelude list sorting.
From Stdlib Require Export ZArith Lia.

#[global] Open Scope Z_scope.

(** ** Results, panics and the [?] operator *)

Inductive result (E A : Type) : Type :=
  | Ok (a : A)
  | Err (e : E)
  | Panic.
Arguments Ok {E A} a.
Arguments Err {E A} e.
Arguments Panic {E A}.

Declare Scope rust_scope.
Delimit Scope rust_scope with rust.
#[global] Open Scope rust_scope.

Notation "'let?' x := m 'in' k" :=
  (match m with Ok x => k | Err e => Err e | Panic => Panic end)
  (at level 10, x pattern, m at level 100, k at level 200) : rust_scope.

Definition ok_or {E A} (o : option A) (e : E) : result E A :=
  match o with Some a => Ok a | None => Err e end.

Definition is_panic {E A} (r : result E A) : bool :=
  match r with Panic => true | _ => false end.

(** ** Machine integers *)

Definition U16_MAX : Z := 65535.
Definition U32_MAX : Z := 4294967295.
Definition U64_MAX : Z := 18446744073709551615.
Definition USIZE_MAX : Z := U64_MAX.
Definition ISIZE_MAX : Z := 9223372036854775807.

Definition is_u8 (z : Z) : Prop := 0 <= z < 256.
Definition is_u16 (z : Z) : Prop := 0 <= z < 65536.
Definition is_u32 (z : Z) : Prop := 0 <= z < 4294967296.
Definition is_u64 (z : Z) : Prop := 0 <= z < 18446744073709551616.

#[export] Instance is_u8_dec z : Decision (is_u8 z).
Proof. unfold is_u8. apply _. Defined.

Definition wrap32 (z : Z) : Z := z mod 4294967296.
Definition wrap64 (z : Z) : Z := z mod 18446744073709551616.
Definition wrapping_add32 (a b : Z) : Z := wrap32 (a + b).
Definition wrapping_sub32 (a b : Z) : Z := wrap32 (a - b).
Definition wrapping_add64 (a b : Z) : Z := wrap64 (a + b).
Definition saturating_add32 (a b : Z) : Z := Z.min (a + b) U32_MAX.
Definition saturating_add64 (a b : Z) : Z := Z.min (a + b) U64_MAX.
Definition saturating_sub (a b : Z) : Z := Z.max (a - b) 0.
Definition saturating_mul64 (a b : Z) : Z := Z.min (a * b) U64_MAX.
Definition saturating_add8 (a b : Z) : Z := Z.min (a + b) 255.

(** [a + b] on [u32]: the overflow of the checked build is a panic. *)
Definition add32 {E} (a b : Z) : result E Z :=
  if a + b <=? U32_MAX then Ok (a + b) else Panic.

(** [a + b] and [a - b] on [u64]. *)
Definition add64 {E} (a b : Z) : result E Z := if a + b <=? U64_MAX then Ok (a + b) else Panic.
Definition sub64 {E} (a b : Z) : result E Z := if b <=? a then Ok (a - b) else Panic.

(** [u64::checked_add] and [u64::checked_mul]. *)
Definition checked_add64 (a b : Z) : option Z := if a + b <=? U64_MAX then Some (a + b) else None.
Definition checked_mul64 (a b : Z) : option Z := if a * b <=? U64_MAX then Some (a * b) else None.

Definition not16 (z : Z) : Z := Z.land (Z.lnot z) 65535.

(** [usize::checked_add] on lengths of slices. *)
Definition checked_add (a b : nat) : option nat :=
  if Z.of_nat a + Z.of_nat b <=? USIZE_MAX then Some (a + b)%nat else None.

(** [u16::try_from] of a length. *)
Definition try_u16 (n : nat) : option Z :=
  if Z.of_nat n <=? U16_MAX then Some (Z.of_nat n) else None.

(** ** Byte strings *)

Abbreviation bytes := (Forall is_u8).

Definition arr (n : nat) (l : list Z) : Prop := length l = n /\ bytes l.

Definition u16_to_be (z : Z) : list Z := [z / 256 mod 256; z mod 256].
Definition u32_to_be (z : Z) : list Z :=
  [z / 16777216 mod 256; z / 65536 mod 256; z / 256 mod 256; z mod 256].
Definition u16_from_be (a b : Z) : Z := a * 256 + b.
Definition u32_from_be (a b c d : Z) : Z := a * 16777216 + b * 65536 + c * 256 + d.

(** ** Slices: indexing, ranges, in-place copies; out of range is a panic *)

Definition idx {E} (l : list Z) (i : nat) : result E Z :=
  match l !! i with Some b => Ok b | None => Panic end.

Definition get_range (l : list Z) (a b : nat) : option (list Z) :=
  if (a <=? b)%nat && (b <=? length l)%nat then Some (take (b - a) (drop a l)) else None.

Definition slice {E} (l : list Z) (a b : nat) : result E (list Z) :=
  match get_range l a b with Some s => Ok s | None => Panic end.

Definition copy_into {E} (out : list Z) (a b : nat) (src : list Z) : result E (list Z) :=
  if (a <=? b)%nat && (b <=? length out)%nat && (length src =? b - a)%nat
  then Ok (take a out ++ src ++ drop b out) else Panic.

Definition set_idx {E} (out : list Z) (i : nat) (v : Z) : result E (list Z) :=
  copy_into out i (S i) [v].

Definition fill {E} (out : list Z) (a b : nat) (v : Z) : result E (list Z) :=
  copy_into out a b (replicate (b - a) v).

(** [<[u8; N]>::try_from(slice)]. *)
Definition try_into_array (n : nat) (s : list Z) : option (list Z) :=
  if (length s =? n)%nat then Some s else None.

(** [Vec::swap_remove]: the last element takes the place of the removed one; an
    index out of range is a panic, which callers exclude by construction. *)
Definition swap_remove {A} (i : nat) (l : list A) : list A :=
  match last l with
  | None => []
  | Some z => if decide (S i = length l) then removelast l else <[i := z]> (removelast l)
  end.

(** [slice::sort_by_key]: a stable sort. *)
Section Sort.
Context {A : Type} (key : A -> Z).

Fixpoint sort_insert (x : A) (l : list A) : list A :=
  match l with
  | [] => [x]
  | y :: l => if key x <=? key y then x :: y :: l else y :: sort_insert x l
  end.
Definition sort_by_key (l : list A) : list A := foldr sort_insert [] l.

Definition sorted_by (l : list A) : Prop := StronglySorted (fun x y => key x <= key y) l.

End Sort.

(** ** Shared automation *)

Create HintDb rust.

(** Unfold the width predicates for [lia]. *)
Ltac widths := unfold is_u8, is_u16, is_u32, is_u64, U16_MAX, U32_MAX, USIZE_MAX, U64_MAX, ISIZE_MAX in *.

(** Linear arithmetic with division and remainder by constants. *)
Ltac divlia := widths; Z.div_mod_to_equations; lia.

(** Split the boolean guards that the code tests. *)
Ltac bool_cases :=
  repeat match goal with
  | H : _ && _ = true |- _ => apply andb_true_iff in H as [? ?]
  | H : _ || _ = false |- _ => apply orb_false_iff in H as [? ?]
  | H : negb _ = true |- _ => apply negb_true_iff in H
  | H : negb _ = false |- _ => apply negb_false_iff in H
  | H : (_ =? _)%nat = true |- _ => apply Nat.eqb_eq in H
  | H : (_ =? _)%nat = false |- _ => apply Nat.eqb_neq in H
  | H : (_ <=? _)%nat = true |- _ => apply Nat.leb_le in H
  | H : (_ <=? _)%nat = false |- _ => apply Nat.leb_gt in H
  | H : (_ <? _)%nat = true |- _ => apply Nat.ltb_lt in H
  | H : (_ <? _)%nat = false |- _ => apply Nat.ltb_ge in H
  | H : (_ =? _) = true |- _ => apply Z.eqb_eq in H
  | H : (_ =? _) = false |- _ => apply Z.eqb_neq in H
  | H : (_ <=? _) = true |- _ => apply Z.leb_le in H
  | H : (_ <=? _) = false |- _ => apply Z.leb_gt in H
  | H : (_ <? _) = true |- _ => apply Z.ltb_lt in H
  | H : (_ <? _) = false |- _ => apply Z.ltb_ge in H
  | H : bool_decide _ = true |- _ => apply bool_decide_eq_true in H
  | H : bool_decide _ = false |- _ => apply bool_decide_eq_false in H
  end.

(** Case analysis along the control flow of a definition. *)
Ltac flow := repeat (case_match; simplify_eq/=; bool_cases).

(** ** Absence of panics *)

Create HintDb nopanic.

Lemma ok_or_no_panic {E B} (o : option B) (e : E) : ok_or o e <> Panic.
Proof. by destruct o. Qed.
#[export] Hint Resolve ok_or_no_panic : nopanic.

(** Walk along the control flow of a function that should not panic; what it calls is looked up in [nopanic]. *)
Ltac step_result :=
  match goal with
  | |- (match (if ?b then _ else _) with Ok _ => _ | Err _ => _ | Panic => _ end) <> Panic => destruct b
  | |- (match ?m with Ok _ => _ | Err _ => _ | Panic => _ end) <> Panic =>
      let H := fresh "Hnp" in
      assert (m <> Panic) as H by (first [solve [auto with nopanic] | repeat step_result]);
      destruct m; [clear H | discriminate | by destruct H]
  | |- (let (_, _) := ?p in _) <> Panic => destruct p
  | |- (match ?p with pair _ _ => _ end) <> Panic => destruct p
  | |- (if ?b then _ else _) <> Panic => destruct b; [try discriminate | try discriminate]
  | |- Ok _ <> Panic => discriminate
  | |- Err _ <> Panic => discriminate
  end.

(** ** Integers *)

Lemma u16_be_roundtrip z : is_u16 z -> u16_from_be (z / 256 mod 256) (z mod 256) = z.
Proof. unfold u16_from_be. intros. divlia. Qed.

Lemma u32_be_roundtrip z :
  is_u32 z ->
  u32_from_be (z / 16777216 mod 256) (z / 65536 mod 256) (z / 256 mod 256) (z mod 256) = z.
Proof. unfold u32_from_be. intros. divlia. Qed.

Lemma u16_from_be_range a b : is_u8 a -> is_u8 b -> is_u16 (u16_from_be a b).
Proof. unfold u16_from_be. widths. lia. Qed.

Lemma u32_from_be_range a b c d :
  is_u8 a -> is_u8 b -> is_u8 c -> is_u8 d -> is_u32 (u32_from_be a b c d).
Proof. unfold u32_from_be. widths. lia. Qed.

Lemma bytes_u16_to_be z : bytes (u16_to_be z).
Proof. repeat constructor; divlia. Qed.

Lemma bytes_u32_to_be z : bytes (u32_to_be z).
Proof. repeat constructor; divlia. Qed.

Lemma wrap32_range z : is_u32 (wrap32 z).
Proof. unfold wrap32. divlia. Qed.

Lemma wrap32_small z : is_u32 z -> wrap32 z = z.
Proof. unfold wrap32. divlia. Qed.

Lemma wrapping_add32_range a b : is_u32 (wrapping_add32 a b).
Proof. apply wrap32_range. Qed.

Lemma wrapping_sub32_range a b : is_u32 (wrapping_sub32 a b).
Proof. apply wrap32_range. Qed.

Lemma not16_spec z : is_u16 z -> not16 z = 65535 - z.
Proof.
  intros Hz. unfold not16. change 65535 with (Z.ones 16). rewrite Z.land_ones by lia.
  unfold Z.lnot.
  change (Z.ones 16) with 65535. change (2 ^ 16) with 65536. divlia.
Qed.

Lemma try_u16_Some n z : try_u16 n = Some z <-> z = Z.of_nat n /\ is_u16 z.
Proof.
  unfold try_u16, U16_MAX, is_u16. destruct (Z.leb_spec (Z.of_nat n) 65535); naive_solver lia.
Qed.

Lemma checked_add_small a b :
  Z.of_nat a + Z.of_nat b <= USIZE_MAX -> checked_add a b = Some (a + b)%nat.
Proof. intros. unfold checked_add. by rewrite (proj2 (Z.leb_le _ _)). Qed.

Lemma checked_add_Some a b c : checked_add a b = Some c -> c = (a + b)%nat.
Proof. unfold checked_add. case_match; naive_solver. Qed.

#[export] Hint Resolve u16_from_be_range u32_from_be_range bytes_u16_to_be bytes_u32_to_be
  wrapping_add32_range wrapping_sub32_range wrap32_range : rust.

(** ** Bytes and slices *)

Lemma bytes_lookup l i b : bytes l -> l !! i = Some b -> is_u8 b.
Proof. rewrite Forall_lookup. eauto. Qed.

Lemma bytes_replicate n : bytes (replicate n 0).
Proof. apply Forall_replicate. widths. lia. Qed.

Lemma get_range_Some l a b s :
  get_range l a b = Some s <->
  (a <= b)%nat /\ (b <= length l)%nat /\ s = take (b - a) (drop a l).
Proof. unfold get_range. case_match; bool_cases; [naive_solver |]. split; [done |].
  intros (? & ? & ?). apply andb_false_iff in H as [?|?]; bool_cases; lia. Qed.

Lemma get_range_length l a b s : get_range l a b = Some s -> length s = (b - a)%nat.
Proof. intros (? & ? & ->)%get_range_Some. rewrite length_take, length_drop. lia. Qed.

Lemma get_range_bytes l a b s : bytes l -> get_range l a b = Some s -> bytes s.
Proof. intros ? (? & ? & ->)%get_range_Some. auto using Forall_take, Forall_drop. Qed.

Lemma get_range_in l a b :
  (a <= b <= length l)%nat -> get_range l a b = Some (take (b - a) (drop a l)).
Proof. intros. apply get_range_Some. naive_solver lia. Qed.

Lemma slice_in {E} l a b :
  (a <= b <= length l)%nat -> slice (E := E) l a b = Ok (take (b - a) (drop a l)).
Proof. intros. unfold slice. by rewrite get_range_in. Qed.

Lemma slice_cons {E} x l a b : slice (E := E) (x :: l) (S a) (S b) = slice l a b.
Proof. done. Qed.

Lemma slice_prefix {E} l p : slice (E := E) (l ++ p) 0 (length l) = Ok l.
Proof. rewrite slice_in by (rewrite length_app; lia). by rewrite Nat.sub_0_r, drop_0, take_app_length. Qed.

Lemma slice_all {E} l : slice (E := E) l 0 (length l) = Ok l.
Proof. rewrite <- (app_nil_r l) at 1. apply slice_prefix. Qed.

Lemma slice_middle {E} a s c i j :
  i = length a -> j = (i + length s)%nat -> slice (E := E) (a ++ s ++ c) i j = Ok s.
Proof.
  intros -> ->. rewrite slice_in by (rewrite !length_app; lia).
  by rewrite drop_app_length, Nat.add_sub', take_app_length.
Qed.

Lemma idx_in {E} l i : (i < length l)%nat -> exists b, idx (E := E) l i = Ok b /\ l !! i = Some b.
Proof. intros [b Hb]%lookup_lt_is_Some. exists b. unfold idx. by rewrite Hb. Qed.

Lemma copy_into_in {E} out a b src :
  (a <= b <= length out)%nat -> length src = (b - a)%nat ->
  copy_into (E := E) out a b src = Ok (take a out ++ src ++ drop b out).
Proof.
  intros. unfold copy_into. rewrite (proj2 (Nat.leb_le a b)), (proj2 (Nat.leb_le b _)) by lia.
  by rewrite (proj2 (Nat.eqb_eq _ _)).
Qed.

Lemma copy_into_cons {E} x l a b src :
  copy_into (E := E) (x :: l) (S a) (S b) src = let? r := copy_into l a b src in Ok (x :: r).
Proof. unfold copy_into. cbn. by case_match. Qed.

Lemma copy_into_head {E} out src :
  (length src <= length out)%nat ->
  copy_into (E := E) out 0 (length src) src = Ok (src ++ drop (length src) out).
Proof. intros. by rewrite copy_into_in by lia. Qed.

Lemma split_prefix n (out : list Z) :
  (n <= length out)%nat -> exists pre rest, out = pre ++ rest /\ length pre = n /\ rest = drop n out.
Proof.
  intros. exists (take n out), (drop n out). rewrite take_drop, length_take. split_and!; [done | lia | done].
Qed.

Lemma fill_prefix {E} out n v :
  (n <= length out)%nat -> fill (E := E) out 0 n v = Ok (replicate n v ++ drop n out).
Proof. intros. unfold fill. rewrite copy_into_in; [by rewrite Nat.sub_0_r | lia |].
  by rewrite length_replicate. Qed.

Lemma try_into_array_Some n s t : try_into_array n s = Some t <-> s = t /\ length s = n.
Proof. unfold try_into_array. case_match; bool_cases; naive_solver. Qed.

(** Expose the elements of a fixed-size array. *)
Ltac explode_list l :=
  lazymatch goal with
  | H : length l = 0%nat |- _ => destruct l; [clear H | discriminate H]
  | H : length l = S _ |- _ =>
      let x := fresh "x" in let t := fresh "t" in
      destruct l as [|x t]; [discriminate H | cbn [length] in H; apply Nat.succ_inj in H; explode_list t]
  end.
Ltac explode_arr H :=
  lazymatch type of H with
  | arr _ ?l =>
      let Hl := fresh in let Hb := fresh in
      destruct H as [Hl Hb]; explode_list l;
      repeat match type of Hb with bytes (_ :: _) => 
        let Hh := fresh in apply Forall_cons in Hb as [Hh Hb] end; clear Hb
  end.

Lemma sublist_NoDup_fmap {A B} (f : A -> B) (l k : list A) :
  sublist l k -> NoDup (f <$> k) -> NoDup (f <$> l).
Proof. intros Hs Hn. eapply sublist_NoDup; [exact Hn |]. by apply fmap_sublist. Qed.

(** Expose the first [n] elements of a buffer that is at least that long. *)
Ltac explode_prefix n out :=
  let pre := fresh "pre" in let rest := fresh "rest" in let Hp := fresh in let Hr := fresh in
  destruct (split_prefix n out) as (pre & rest & -> & Hp & Hr);
    [try lia | explode_list pre; clear Hr].

(** Run the in-place writes of an encoder on a buffer whose header is exposed,
    then the copy of its payload. *)
Ltac run_payload_copy :=
  cbn; rewrite ?drop_0, ?copy_into_cons, copy_into_head by (cbn [length app] in *; lia); cbn.

(** Show that a list of bytes built from constants, fields and payloads is one. *)
Ltac solve_bytes :=
  repeat first
    [ assumption
    | lazymatch goal with
      | |- bytes [] => apply Forall_nil_2
      | |- bytes (_ :: _) => apply Forall_cons; split
      | |- bytes (_ ++ _) => apply Forall_app; split
      | |- bytes (u16_to_be _) => apply bytes_u16_to_be
      | |- bytes (u32_to_be _) => apply bytes_u32_to_be
      | |- bytes (replicate _ 0) => apply bytes_replicate
      | |- bytes (take _ _) => apply Forall_take
      | |- bytes (drop _ _) => apply Forall_drop
      end ];
  try divlia.

(** Decide a closed proposition by evaluation. *)
Ltac by_compute := apply (bool_decide_unpack _); vm_compute; exact I.

(** Split a byte-string hypothesis into its elements. *)
Ltac split_bytes :=
  repeat match goal with
  | H : bytes (_ :: _) |- _ => apply Forall_cons in H as [? H]
  | H : bytes (_ ++ _) |- _ => apply Forall_app in H as [? H]
  | H : bytes [] |- _ => clear H
  end.

(** ** Vectors *)

Lemma removelast_snoc {A} (l : list A) x : removelast (l ++ [x]) = l.
Proof. rewrite removelast_app by done. cbn. apply app_nil_r. Qed.

Lemma swap_remove_perm {A} i (l : list A) x :
  l !! i = Some x -> l ≡ₚ x :: swap_remove i l.
Proof.
  intros Hi. unfold swap_remove.
  destruct l as [|z l _] using rev_ind; [done |].
  rewrite last_snoc, removelast_snoc, length_app. cbn.
  case_decide as Hd.
  - assert (i = length l) as -> by lia. rewrite list_lookup_middle in Hi by done. simplify_eq.
    by rewrite Permutation_app_comm.
  - apply lookup_lt_Some in Hi as Hlt. rewrite length_app in Hlt. cbn in Hlt.
    rewrite lookup_app_l in Hi by lia.
    rewrite <- (take_drop_middle l i x) at 1 by done.
    rewrite insert_take_drop by lia.
    rewrite <- !app_assoc. cbn. solve_Permutation.
Qed.

(** [Vec::retain] is [List.filter]. *)
Lemma elem_of_retain {A} (f : A -> bool) l x : x ∈ List.filter f l <-> f x = true /\ x ∈ l.
Proof. rewrite !list_elem_of_In, filter_In. tauto. Qed.

Lemma retain_sublist {A} (f : A -> bool) (l : list A) : sublist (List.filter f l) l.
Proof. induction l as [|x l IH]; cbn; [constructor |]. destruct (f x); by constructor. Qed.

Lemma retain_length {A} (f : A -> bool) (l : list A) : (length (List.filter f l) <= length l)%nat.
Proof. apply sublist_length, retain_sublist. Qed.

Lemma existsb_elem {A} (f : A -> bool) l : existsb f l = true <-> exists x, x ∈ l /\ f x = true.
Proof. rewrite existsb_exists. by setoid_rewrite list_elem_of_In. Qed.

Lemma existsb_none {A} (f : A -> bool) l : existsb f l = false <-> forall x, x ∈ l -> f x = false.
Proof.
  split.
  - intros H x Hx. destruct (f x) eqn:E; [|done]. assert (existsb f l = true) by (apply existsb_elem; eauto). congruence.
  - intros H. destruct (existsb f l) eqn:E; [|done]. apply existsb_elem in E as (x & Hx & Hf). by rewrite H in Hf.
Qed.

(** Two elements of a list with the same value of an injective key are the same. *)
Lemma NoDup_fmap_elem {A B} (f : A -> B) (l : list A) x y :
  NoDup (f <$> l) -> x ∈ l -> y ∈ l -> f x = f y -> x = y.
Proof.
  intros Hn [i Hi]%list_elem_of_lookup [j Hj]%list_elem_of_lookup Hf.
  assert (i = j) as ->; [|congruence].
  eapply (NoDup_lookup _ i j (f x) Hn); rewrite list_lookup_fmap, ?Hi, ?Hj; cbn; congruence.
Qed.

(** Replacing an element. *)
Lemma elem_of_insert {A} (l : list A) i x y z :
  l !! i = Some x -> z ∈ <[i := y]> l -> z = y \/ z ∈ l.
Proof.
  intros Hi [j Hj]%list_elem_of_lookup. destruct (decide (i = j)) as [<-|Hne].
  - rewrite list_lookup_insert_eq in Hj by (by eapply lookup_lt_Some). left. congruence.
  - rewrite list_lookup_insert_ne in Hj by done. right. by eapply list_elem_of_lookup_2.
Qed.

Lemma fmap_insert_same {A B} (f : A -> B) (l : list A) i x y :
  l !! i = Some x -> f y = f x -> f <$> <[i := y]> l = f <$> l.
Proof. intros Hi Hf. rewrite list_fmap_insert, Hf. apply list_insert_id. by rewrite list_lookup_fmap, Hi. Qed.

(** With unique keys the other elements keep their keys. *)
Lemma elem_of_insert_key {A B} (f : A -> B) (l : list A) i x y z :
  NoDup (f <$> l) -> l !! i = Some x -> z ∈ <[i := y]> l -> z = y \/ (z ∈ l /\ f z <> f x).
Proof.
  intros Hn Hi [j Hj]%list_elem_of_lookup. destruct (decide (i = j)) as [<-|Hne].
  - rewrite list_lookup_insert_eq in Hj by (by eapply lookup_lt_Some). left. congruence.
  - rewrite list_lookup_insert_ne in Hj by done. right. split; [by eapply list_elem_of_lookup_2 |].
    intros Heq. apply Hne. eapply (NoDup_lookup _ i j (f x) Hn); rewrite list_lookup_fmap, ?Hi, ?Hj; cbn; congruence.
Qed.

(** ** Sorting *)

Section Sorting.
Context {A : Type} (key : A -> Z).

Lemma sort_insert_perm x l : sort_insert key x l ≡ₚ x :: l.
Proof.
  induction l as [|y l IH]; [done |]. cbn. destruct (_ <=? _); [done |]. rewrite IH. apply Permutation_swap.
Qed.

Lemma sort_by_key_perm l : sort_by_key key l ≡ₚ l.
Proof. induction l as [|x l IH]; [done |]. cbn. rewrite sort_insert_perm. by f_equiv. Qed.

Lemma sort_insert_sorted x l : sorted_by key l -> sorted_by key (sort_insert key x l).
Proof.
  induction 1 as [|y l Hl IH Hy]; cbn; [by repeat constructor |]. destruct (Z.leb_spec (key x) (key y)) as [Hle|Hlt].
  - constructor; [by constructor |]. constructor; [done |]. eapply Forall_impl; [exact Hy |]. cbn. lia.
  - constructor; [done |]. rewrite sort_insert_perm. constructor; [lia | done].
Qed.

Lemma sort_by_key_sorted l : sorted_by key (sort_by_key key l).
Proof. induction l as [|x l IH]; [constructor |]. by apply sort_insert_sorted. Qed.

(** A sorted vector is left as it is. *)
Lemma sort_by_key_id l : sorted_by key l -> sort_by_key key l = l.
Proof.
  induction 1 as [|x l Hl IH Hx]; [done |]. change (sort_insert key x (sort_by_key key l) = x :: l). rewrite IH. destruct Hx as [|y l Hy Hx]; [done |]. cbn.
  by rewrite (proj2 (Z.leb_le _ _)).
Qed.

End Sorting.

(** ** Searching by a key *)

Section FindKey.
Context {A B : Type} (key : A -> B) (p : A -> bool) (b : B) (Hp : forall x, p x = true <-> key x = b).

Lemma find_key_None l : List.find p l = None <-> b ∉ map key l.
Proof using Hp.
  induction l as [|x l IH]; cbn; [split; [intros _; apply not_elem_of_nil | done] |]. rewrite not_elem_of_cons, <- IH.
  specialize (Hp x). destruct (p x); naive_solver.
Qed.

Lemma find_key_Some l x : NoDup (map key l) -> List.find p l = Some x <-> x ∈ l /\ key x = b.
Proof using Hp.
  intros Hnd. split; [intros [H1%list_elem_of_In H2%Hp]%List.find_some; done |]. intros [Hx Hb].
  induction l as [|y l IH]; [by apply not_elem_of_nil in Hx |]. cbn in *. apply NoDup_cons in Hnd as [Hy Hnd].
  apply elem_of_cons in Hx as [->|Hx]; [by rewrite (proj2 (Hp y)) |]. destruct (p y) eqn:E; [|auto].
  apply Hp in E. destruct Hy. rewrite E, <- Hb. by apply list_elem_of_fmap_2.
Qed.

End FindKey.
