(* ===== verification/Checksum.v ===== *)
(** * The Internet checksum ([network-stack/src/checksum.rs])

    [checksum] is the routine the IPv4 and ICMP codecs call.  The summing loop
    over [chunks_exact(2)] is parametrised by the [u32] addition it uses, since
    the UDP and TCP modules carry loops of the same shape with another
    addition (overflow-checked and saturating).  [word_sum] is the reference: the
    unbounded sum of the big-endian 16-bit words.  The theorems relate the code
    to ones' complement arithmetic, i.e. to [word_sum] modulo 65535. *)

From S2P Require Import Prelude.

(** ** The code *)

(** The [for pair in chunks_exact(2)] loop and its remainder. *)
Fixpoint sum_chunks (add : Z -> Z -> Z) (sum : Z) (bs : list Z) : Z :=
  match bs with
  | a :: b :: rest => sum_chunks add (add sum (u16_from_be a b)) rest
  | [last] => add sum (Z.shiftl last 8)
  | [] => sum
  end.

(** [while sum >> 16 != 0 { sum = (sum & 0xffff) + (sum >> 16) }]; [None] when
    the fuel runs out. *)
Fixpoint fold_carries (fuel : nat) (sum : Z) : option Z :=
  if Z.shiftr sum 16 =? 0 then Some sum
  else match fuel with
       | O => None
       | S fuel => fold_carries fuel (Z.land sum 65535 + Z.shiftr sum 16)
       end.

(** [!(sum as u16)] after the carry loop; two rounds always suffice
    ([fold_carries_u32]). *)
Definition finish_sum (sum : Z) : Z :=
  not16 (default 0 (fold_carries 2 sum) mod 65536).

Definition checksum (bytes : list Z) : Z :=
  finish_sum (sum_chunks wrapping_add32 0 bytes).

Definition checksum_valid (bytes : list Z) : bool := checksum bytes =? 0.

(** ** The reference sum *)

Fixpoint word_sum (bs : list Z) : Z :=
  match bs with
  | a :: b :: rest => u16_from_be a b + word_sum rest
  | [last] => last * 256
  | [] => 0
  end.

(** Induction two bytes at a time, the shape of [chunks_exact(2)]. *)
Lemma pair_ind (P : list Z -> Prop) :
  P [] -> (forall a, P [a]) -> (forall a b l, P l -> P (a :: b :: l)) -> forall l, P l.
Proof.
  intros H0 H1 H2. fix IH 1. intros [|a [|b l]]; [done | done |]. apply H2, IH.
Qed.

Lemma word_sum_range bs : bytes bs -> 0 <= word_sum bs <= 65535 * ((Z.of_nat (length bs) + 1) / 2).
Proof.
  induction bs as [|a|a b bs IH] using pair_ind; intros Hb.
  - done.
  - apply Forall_cons in Hb as [? _]. cbn [length word_sum]. widths.
    change (65535 * ((Z.of_nat 1 + 1) / 2)) with 65535. lia.
  - apply Forall_cons in Hb as [Ha [Hb' Hbs]%Forall_cons]. specialize (IH Hbs).
    pose proof (u16_from_be_range a b Ha Hb'). cbn [length word_sum].
    replace ((Z.of_nat (S (S (length bs))) + 1) / 2) with ((Z.of_nat (length bs) + 1) / 2 + 1)
      by divlia. widths. lia.
Qed.

Lemma word_sum_nonneg bs : bytes bs -> 0 <= word_sum bs.
Proof. intros. by apply word_sum_range. Qed.

(** A byte string of at most 131074 bytes cannot overflow a [u32] sum. *)
Lemma word_sum_u32 bs : bytes bs -> Z.of_nat (length bs) <= 131074 -> is_u32 (word_sum bs).
Proof. intros Hb Hl. pose proof (word_sum_range bs Hb). widths. divlia. Qed.

Lemma word_sum_app a b : Nat.Even (length a) -> word_sum (a ++ b) = word_sum a + word_sum b.
Proof.
  induction a as [|x|x y a IH] using pair_ind; intros He; cbn [app word_sum].
  - lia.
  - destruct He as [k Hk]. cbn in Hk. lia.
  - rewrite IH; [lia |]. destruct He as [k Hk]. exists (k - 1)%nat. cbn in Hk. lia.
Qed.

Lemma word_sum_u16_to_be z rest : is_u16 z -> word_sum (u16_to_be z ++ rest) = z + word_sum rest.
Proof. intros. cbn [u16_to_be app word_sum]. by rewrite u16_be_roundtrip. Qed.

(** ** The summing loop *)

(** Any addition that is exact below [bound] computes the reference sum below it. *)
Lemma sum_chunks_exact add bound bs s :
  (forall x y, 0 <= x -> 0 <= y -> x + y < bound -> add x y = x + y) ->
  bytes bs -> 0 <= s -> s + word_sum bs < bound -> sum_chunks add s bs = s + word_sum bs.
Proof.
  intros Hadd. revert s. induction bs as [|a|a b bs IH] using pair_ind; intros s Hb Hs Hlt.
  - cbn in *. lia.
  - cbn [sum_chunks word_sum] in *. apply Forall_cons in Hb as [? _]. rewrite Z.shiftl_mul_pow2 by lia.
    change (2 ^ 8) with 256. apply Hadd; widths; lia.
  - apply Forall_cons in Hb as [Ha [Hb' Hbs]%Forall_cons].
    pose proof (u16_from_be_range a b Ha Hb') as Hw. pose proof (word_sum_nonneg bs Hbs).
    cbn [sum_chunks word_sum] in *. widths.
    rewrite Hadd by lia. rewrite IH by (done || lia). lia.
Qed.

Lemma sum_chunks_wrapping bs :
  bytes bs -> is_u32 (word_sum bs) -> sum_chunks wrapping_add32 0 bs = word_sum bs.
Proof.
  intros Hb Hs. rewrite (sum_chunks_exact _ 4294967296); [lia | | done | lia | widths; lia].
  intros. unfold wrapping_add32. apply wrap32_small. widths. lia.
Qed.

(** ** The carry loop *)

Lemma fold_step_arith s :
  0 <= s -> Z.land s 65535 + Z.shiftr s 16 = s mod 65536 + s / 65536.
Proof.
  intros. change 65535 with (Z.ones 16). rewrite Z.land_ones, Z.shiftr_div_pow2 by lia. done.
Qed.

Lemma shiftr16_eqb s : 0 <= s -> (Z.shiftr s 16 =? 0) = (s <? 65536).
Proof.
  intros. rewrite Z.shiftr_div_pow2 by lia. change (2 ^ 16) with 65536.
  destruct (Z.eqb_spec (s / 65536) 0), (Z.ltb_spec s 65536); try done; divlia.
Qed.

Lemma fold_carries_unfold n s :
  0 <= s ->
  fold_carries n s =
  if s <? 65536 then Some s
  else match n with O => None | S n => fold_carries n (s mod 65536 + s / 65536) end.
Proof. intros. destruct n; cbn [fold_carries]; by rewrite shiftr16_eqb, ?fold_step_arith. Qed.

(** The carry loop of a [u32] ends within two rounds, in a [u16] congruent to the
    sum modulo 65535 that is zero only for the zero sum. *)
Lemma fold_carries_u32 s :
  is_u32 s ->
  exists r, fold_carries 2 s = Some r /\ is_u16 r /\ r mod 65535 = s mod 65535 /\ (r = 0 <-> s = 0).
Proof.
  intros Hs. widths. rewrite fold_carries_unfold by lia.
  destruct (Z.ltb_spec s 65536) as [H0|H0]; [exists s; split_and!; (done || lia) |].
  assert (0 < s mod 65536 + s / 65536 < 131071 /\
    (s mod 65536 + s / 65536) mod 65535 = s mod 65535) as [Ht Hm] by divlia.
  revert Ht Hm. generalize (s mod 65536 + s / 65536). intros t Ht Hm.
  rewrite fold_carries_unfold by lia.
  destruct (Z.ltb_spec t 65536) as [H1|H1]; [exists t; split_and!; (done || lia) |].
  assert (0 < t mod 65536 + t / 65536 < 65536 /\
    (t mod 65536 + t / 65536) mod 65535 = t mod 65535) as [Hu Hm'] by divlia.
  revert Hu Hm'. generalize (t mod 65536 + t / 65536). intros u Hu Hm'.
  rewrite fold_carries_unfold, (proj2 (Z.ltb_lt _ _)) by lia.
  exists u. split_and!; (done || lia).
Qed.

Lemma finish_sum_spec s :
  is_u32 s ->
  exists r, finish_sum s = 65535 - r /\ is_u16 r /\ r mod 65535 = s mod 65535 /\ (r = 0 <-> s = 0).
Proof.
  intros Hs. unfold finish_sum. destruct (fold_carries_u32 s Hs) as (r & -> & Hr).
  exists r. split; [|done]. simpl. rewrite Z.mod_small by (widths; lia). by apply not16_spec; destruct Hr.
Qed.

Lemma finish_sum_u16 s : is_u32 s -> is_u16 (finish_sum s).
Proof. intros Hs. destruct (finish_sum_spec s Hs) as (r & -> & Hr & _). widths. lia. Qed.

Lemma finish_sum_zero s : is_u32 s -> finish_sum s = 0 <-> 0 < s /\ s mod 65535 = 0.
Proof.
  intros Hs. destruct (finish_sum_spec s Hs) as (r & -> & Hr & Hm & Hz). widths.
  split; [intros; assert (r = 65535) as -> by lia | intros [? ?]]; divlia.
Qed.

(** Adding the complement of the folded sum makes the total a positive multiple
    of 65535: the property that makes a written checksum verify. *)
Lemma finish_sum_complement s :
  is_u32 s -> 0 < s + finish_sum s /\ (s + finish_sum s) mod 65535 = 0.
Proof. intros Hs. destruct (finish_sum_spec s Hs) as (r & -> & Hr & Hm & Hz). widths. divlia. Qed.

(** ** The routine *)

Lemma checksum_sum bs :
  bytes bs -> Z.of_nat (length bs) <= 131074 -> checksum bs = finish_sum (word_sum bs).
Proof. intros. unfold checksum. rewrite sum_chunks_wrapping; auto using word_sum_u32. Qed.

Lemma checksum_u16 bs : bytes bs -> Z.of_nat (length bs) <= 131074 -> is_u16 (checksum bs).
Proof. intros. rewrite checksum_sum by done. auto using finish_sum_u16, word_sum_u32. Qed.

Lemma checksum_valid_iff bs :
  bytes bs -> Z.of_nat (length bs) <= 131074 ->
  checksum_valid bs = true <-> 0 < word_sum bs /\ word_sum bs mod 65535 = 0.
Proof.
  intros. unfold checksum_valid. rewrite Z.eqb_eq, checksum_sum by done.
  auto using finish_sum_zero, word_sum_u32.
Qed.

(** The checksum of a header written over its zeroed field verifies. *)
Lemma checksum_written_valid pre post :
  bytes pre -> bytes post -> Nat.Even (length pre) ->
  Z.of_nat (length pre) + 2 + Z.of_nat (length post) <= 131072 ->
  checksum_valid (pre ++ u16_to_be (checksum (pre ++ 0 :: 0 :: post)) ++ post) = true.
Proof.
  intros Hpre Hpost Heven Hlen.
  assert (bytes (pre ++ 0 :: 0 :: post)) as Hb.
  { apply Forall_app. repeat (split || constructor || done); widths; lia. }
  assert (Z.of_nat (length (pre ++ 0 :: 0 :: post)) <= 131074) as Hl
    by (rewrite length_app; cbn [length]; lia).
  pose proof (checksum_u16 _ Hb Hl) as Hc.
  assert (word_sum (pre ++ u16_to_be (checksum (pre ++ 0 :: 0 :: post)) ++ post) =
    word_sum (pre ++ 0 :: 0 :: post) + checksum (pre ++ 0 :: 0 :: post)) as Hw.
  { rewrite (word_sum_app pre (u16_to_be _ ++ post)), (word_sum_app pre (0 :: _)) by done.
    rewrite word_sum_u16_to_be by done. cbn [word_sum]. unfold u16_from_be. lia. }
  apply checksum_valid_iff.
  - apply Forall_app; split; [done |]. apply Forall_app; auto using bytes_u16_to_be.
  - rewrite !length_app. cbn [length u16_to_be]. lia.
  - rewrite Hw, (checksum_sum _ Hb Hl). apply finish_sum_complement. auto using word_sum_u32.
Qed.

(** ** Error detection *)

(** Replacing one byte moves the reference sum by less than one modulus. *)
Lemma word_sum_replace pre x y post :
  word_sum (pre ++ x :: post) - word_sum (pre ++ y :: post) = x - y \/
  word_sum (pre ++ x :: post) - word_sum (pre ++ y :: post) = (x - y) * 256.
Proof.
  induction pre as [|a|a b pre IH] using pair_ind; cbn [app word_sum].
  - right. destruct post as [|p post]; cbn [word_sum]; unfold u16_from_be; lia.
  - left. unfold u16_from_be. lia.
  - destruct IH as [IH|IH]; [left|right]; lia.
Qed.

(** A byte string that verifies no longer verifies once any single byte of it is
    replaced by another value. *)
Lemma checksum_byte_error pre x y post :
  bytes (pre ++ x :: post) -> is_u8 y -> Z.of_nat (length (pre ++ x :: post)) <= 131074 ->
  checksum_valid (pre ++ x :: post) = true -> x <> y ->
  checksum_valid (pre ++ y :: post) = false.
Proof.
  intros Hx Hy Hl Hv Hne. apply not_true_iff_false. intros Hv'.
  assert (bytes (pre ++ y :: post)) as Hb.
  { apply Forall_app in Hx as [? [? ?]%Forall_cons]. apply Forall_app; auto. }
  assert (is_u8 x) as Hx8 by (apply Forall_app in Hx as [? [? ?]%Forall_cons]; done).
  apply checksum_valid_iff in Hv as [_ Hv]; [|done..].
  apply checksum_valid_iff in Hv' as [_ Hv']; [|done | by rewrite length_app in *].
  destruct (word_sum_replace pre x y post) as [H|H]; revert Hv Hv' H;
    generalize (word_sum (pre ++ x :: post)) (word_sum (pre ++ y :: post)); intros; divlia.
Qed.

(** ** The closed form *)

(** The ones' complement sum of a byte string: the representative of [word_sum]
    modulo 65535 in [1..65535], and 0 for the zero sum only. *)
Definition ones_complement_sum (bs : list Z) : Z :=
  if word_sum bs =? 0 then 0 else (word_sum bs - 1) mod 65535 + 1.

(** C37: On every byte string of up to 131074 bytes (so on every packet the stack
    handles) the loop with its wrapping [u32] accumulator and its carry
    folding computes the complement of the ones' complement sum: neither the
    accumulator nor the two folding rounds lose a carry. *)
Theorem checksum_ones_complement bs
    (Hb : bytes bs) (Hl : Z.of_nat (length bs) <= 131074) :
  checksum bs = 65535 - ones_complement_sum bs /\
  fold_carries 2 (sum_chunks wrapping_add32 0 bs) <> None.
Proof.
  pose proof (word_sum_u32 bs Hb Hl) as Hu. split.
  - rewrite checksum_sum by done. unfold ones_complement_sum.
    destruct (finish_sum_spec _ Hu) as (r & -> & Hr & Hm & Hz). revert Hu Hm Hz.
    generalize (word_sum bs). intros s Hu Hm Hz. destruct (Z.eqb_spec s 0); [lia |]. divlia.
  - rewrite sum_chunks_wrapping by done. destruct (fold_carries_u32 _ Hu) as (r & -> & _). done.
Qed.

Lemma checksum_ones_complement_witness :
  checksum [69; 0; 0; 20; 255; 255; 200] = 65535 - ones_complement_sum [69; 0; 0; 20; 255; 255; 200].
Proof. apply checksum_ones_complement; [solve_bytes | done]. Defined.
