(* ===== verification/Packet.v ===== *)
(** * Packet errors ([network-stack/src/lib.rs]) and the codec interface

    [PacketError] is the error type shared by the link, network and transport
    codecs.  A layer that frames a payload (Ethernet, IPv4) promises the layers above it
    what [Framing] states; the proofs about stacked layers use only that. *)

From S2P Require Import Prelude.

Inductive PacketError : Type :=
  | Truncated
  | InvalidHeader
  | InvalidLength
  | InvalidChecksum
  | Unsupported
  | Mismatch
  | Capacity.

#[export] Instance PacketError_eq_dec : EqDecision PacketError.
Proof. solve_decision. Defined.

(** A codec that puts a header in front of a payload.  [fr_ok h p] says when the header
    and the payload are representable; then writing into any buffer that is long
    enough succeeds, touches only the reported prefix, and decodes to the same
    header and payload. *)
Class Framing {H : Type} (overhead : nat)
    (encode : H -> list Z -> list Z -> result PacketError (nat * list Z))
    (decode : list Z -> result PacketError (H * list Z)) := {
  fr_ok : H -> list Z -> Prop;
  fr_wire : H -> list Z -> list Z;
  fr_length : forall h p, fr_ok h p -> length (fr_wire h p) = (overhead + length p)%nat;
  fr_bytes : forall h p, fr_ok h p -> bytes (fr_wire h p);
  fr_encode : forall h p out,
    fr_ok h p -> (overhead + length p <= length out)%nat ->
    encode h p out =
      Ok ((overhead + length p)%nat, fr_wire h p ++ drop (overhead + length p) out);
  fr_decode : forall h p, fr_ok h p -> decode (fr_wire h p) = Ok (h, p);
}.
