(* ===== verification/Ethernet.v ===== *)
(** * Ethernet frames ([network-stack/src/ethernet.rs]) *)

From S2P Require Import Prelude Packet.

(** ** The code *)

Definition ETHERNET_HEADER_LEN : nat := 14.
Definition ETHERTYPE_IPV4 : Z := 2048.
Definition ETHERTYPE_ARP : Z := 2054.
Definition BROADCAST_MAC : list Z := replicate 6 255.

Record EthernetHeader := {
  eth_destination : list Z;
  eth_source : list Z;
  eth_ethertype : Z;
}.

#[export] Instance EthernetHeader_eq_dec : EqDecision EthernetHeader.
Proof. solve_decision. Defined.

Definition valid_unicast_mac (mac : list Z) : result PacketError bool :=
  if bool_decide (mac = replicate 6 0) then Ok false
  else if bool_decide (mac = BROADCAST_MAC) then Ok false
  else let? first := idx mac 0 in Ok (Z.land first 1 =? 0).

Definition EthernetHeader_decode (frame : list Z) : result PacketError (EthernetHeader * list Z) :=
  if (length frame <? ETHERNET_HEADER_LEN)%nat then Err Truncated else
  let? d := slice frame 0 6 in
  let? destination := ok_or (try_into_array 6 d) Truncated in
  let? s := slice frame 6 12 in
  let? source := ok_or (try_into_array 6 s) Truncated in
  let? hi := idx frame 12 in
  let? lo := idx frame 13 in
  let header := {| eth_destination := destination; eth_source := source;
                   eth_ethertype := u16_from_be hi lo |} in
  let? unicast := valid_unicast_mac source in
  if negb unicast then Err InvalidHeader else
  let? payload := slice frame 14 (length frame) in
  Ok (header, payload).

Definition EthernetHeader_encode (self : EthernetHeader) (payload out : list Z)
    : result PacketError (nat * list Z) :=
  let? len := ok_or (checked_add ETHERNET_HEADER_LEN (length payload)) InvalidLength in
  if (length out <? len)%nat then Err Truncated else
  let? out := copy_into out 0 6 (eth_destination self) in
  let? out := copy_into out 6 12 (eth_source self) in
  let? out := copy_into out 12 14 (u16_to_be (eth_ethertype self)) in
  let? out := copy_into out 14 len payload in
  Ok (len, out).

Definition accepted_for (self : EthernetHeader) (mac : list Z) : bool :=
  bool_decide (eth_destination self = mac) || bool_decide (eth_destination self = BROADCAST_MAC).

(** ** Well-formed headers and the wire format *)

(** What the types [[u8; 6]] and [u16] guarantee. *)
Definition eth_wf (h : EthernetHeader) : Prop :=
  arr 6 (eth_destination h) /\ arr 6 (eth_source h) /\ is_u16 (eth_ethertype h).

Definition eth_wire (h : EthernetHeader) (payload : list Z) : list Z :=
  eth_destination h ++ eth_source h ++ u16_to_be (eth_ethertype h) ++ payload.

(** A unicast MAC in the sense of the code. *)
Definition unicast_mac (mac : list Z) : Prop :=
  mac <> replicate 6 0 /\ mac <> BROADCAST_MAC /\ exists b, mac !! 0%nat = Some b /\ b mod 2 = 0.

Lemma land_1_eqb z : (Z.land z 1 =? 0) = (z mod 2 =? 0).
Proof. change 1 with (Z.ones 1). by rewrite Z.land_ones. Qed.

Lemma valid_unicast_mac_spec mac :
  arr 6 mac -> exists b, valid_unicast_mac mac = Ok b /\ (b = true <-> unicast_mac mac).
Proof.
  intros [Hl _]. unfold valid_unicast_mac, unicast_mac.
  destruct (idx_in (E := PacketError) mac 0 ltac:(lia)) as (b & -> & Hb).
  rewrite land_1_eqb, Hb.
  repeat case_bool_decide; eexists; split; [done | naive_solver | done | naive_solver | done |].
  rewrite Z.eqb_eq. naive_solver.
Qed.

Lemma valid_unicast_mac_true mac :
  arr 6 mac -> unicast_mac mac -> valid_unicast_mac mac = Ok true.
Proof. intros Ha Hu. destruct (valid_unicast_mac_spec mac Ha) as (b & -> & Hb). f_equal. tauto. Qed.

(** ** Behaviour of the codec *)

Lemma eth_wire_length h p : eth_wf h -> length (eth_wire h p) = (14 + length p)%nat.
Proof. intros ([Hd _] & [Hs _] & _). unfold eth_wire. rewrite !length_app, Hd, Hs. done. Qed.

Lemma eth_encode_wire h p out :
  eth_wf h -> Z.of_nat (14 + length p) <= USIZE_MAX -> (14 + length p <= length out)%nat ->
  EthernetHeader_encode h p out =
    Ok ((14 + length p)%nat, eth_wire h p ++ drop (14 + length p) out).
Proof.
  intros (Hd & Hs & He) Hu Hl. destruct h as [d s e]. cbn in Hd, Hs, He.
  unfold EthernetHeader_encode, eth_wire, ETHERNET_HEADER_LEN.
  rewrite checked_add_small by lia. cbn [ok_or].
  destruct (Nat.ltb_spec (length out) (14 + length p)); [lia |].
  explode_arr Hd. explode_arr Hs. explode_prefix 14%nat out.
  run_payload_copy. done.
Qed.

Lemma eth_wire_bytes h p : eth_wf h -> bytes p -> bytes (eth_wire h p).
Proof.
  intros ([_ Hd] & [_ Hs] & _) Hp. unfold eth_wire.
  rewrite !Forall_app. auto using bytes_u16_to_be.
Qed.

(** Every long enough frame is the image of a header and a payload. *)
Lemma eth_frame_split frame :
  bytes frame -> (14 <= length frame)%nat ->
  exists h p, eth_wf h /\ bytes p /\ frame = eth_wire h p.
Proof.
  intros Hb Hl. explode_prefix 14%nat frame. cbn in Hb. split_bytes.
  exists {| eth_destination := [x; x0; x1; x2; x3; x4]; eth_source := [x5; x6; x7; x8; x9; x10];
       eth_ethertype := u16_from_be x11 x12 |}, rest.
  split_and!; [|done |].
  - split_and!; cbn; [split; [done | solve_bytes] .. | by apply u16_from_be_range].
  - unfold eth_wire, u16_to_be, u16_from_be. cbn. repeat f_equal; divlia.
Qed.

Lemma eth_decode_wire h p :
  eth_wf h ->
  EthernetHeader_decode (eth_wire h p) =
  let? u := valid_unicast_mac (eth_source h) in if u then Ok (h, p) else Err InvalidHeader.
Proof.
  intros (Hd & Hs & He). destruct h as [d s e]. cbn in Hd, Hs, He.
  unfold EthernetHeader_decode, eth_wire. explode_arr Hd. explode_arr Hs.
  cbn. rewrite u16_be_roundtrip by done. case_match; [|done..].
  destruct a; cbn; [|done].
  by rewrite !slice_cons, slice_all.
Qed.

(** The frame decoder accepts exactly the frames that carry a
    unicast source address behind at least fourteen bytes, and returns precisely the header
    and the payload they are made of; every other frame is rejected with the
    error of the first check that fails, and no frame makes the decoder panic. *)
Theorem EthernetHeader_decode_exact frame (Hb : bytes frame) :
  (forall h p, EthernetHeader_decode frame = Ok (h, p) <->
     eth_wf h /\ bytes p /\ unicast_mac (eth_source h) /\ frame = eth_wire h p) /\
  (EthernetHeader_decode frame = Err Truncated <-> (length frame < 14)%nat) /\
  EthernetHeader_decode frame <> Panic.
Proof.
  destruct (Nat.ltb_spec (length frame) 14) as [Hl|Hl].
  - assert (EthernetHeader_decode frame = Err Truncated) as ->.
    { unfold EthernetHeader_decode. by rewrite (proj2 (Nat.ltb_lt _ _)). }
    split_and!; [|done..]. intros h p. split; [done |].
    intros (Hwf & _ & _ & ->). rewrite eth_wire_length in Hl by done. lia.
  - destruct (eth_frame_split frame Hb Hl) as (h & p & Hwf & Hp & ->).
    rewrite eth_decode_wire by done.
    destruct (valid_unicast_mac_spec (eth_source h)) as (b & -> & Hu); [apply Hwf |].
    split_and!; [| |by destruct b].
    + intros h' p'. split.
      * destruct b; intros [= <- <-]. tauto.
      * intros (Hwf' & Hp' & Hu' & Heq).
        pose proof (eth_decode_wire h p Hwf) as H1. rewrite Heq, eth_decode_wire in H1 by done.
        destruct (valid_unicast_mac_spec (eth_source h)) as (b' & Hb' & Hu2); [apply Hwf |].
        rewrite (valid_unicast_mac_true _ (proj1 (proj2 Hwf')) Hu'), Hb' in H1.
        destruct b'; [|done]. assert (b = true) as -> by tauto. congruence.
    + rewrite eth_wire_length by done. destruct b; split; (done || lia).
Qed.

Lemma EthernetHeader_decode_exact_witness :
  EthernetHeader_decode [1;2;3;4;5;6; 8;8;9;10;11;12; 8;0; 13;14] =
  Ok ({| eth_destination := [1;2;3;4;5;6]; eth_source := [8;8;9;10;11;12]; eth_ethertype := 2048 |},
      [13;14]).
Proof.
  apply (EthernetHeader_decode_exact [1;2;3;4;5;6; 8;8;9;10;11;12; 8;0; 13;14]).
  - solve_bytes.
  - split_and!; [split_and!; cbn; [split; [done | solve_bytes] .. |] | solve_bytes | | done].
    + done.
    + split_and!; [done | done |]. exists 8. done.
Defined.

(** ** What the upper layers may rely on *)

#[export] Program Instance eth_framing : Framing 14 EthernetHeader_encode EthernetHeader_decode := {|
  fr_ok h p := eth_wf h /\ unicast_mac (eth_source h) /\ bytes p /\
               Z.of_nat (14 + length p) <= USIZE_MAX;
  fr_wire := eth_wire;
|}.
Next Obligation. intros h p (? & _). by apply eth_wire_length. Qed.
Next Obligation. intros h p (? & _ & ? & _). by apply eth_wire_bytes. Qed.
Next Obligation. intros h p out (? & _ & _ & ?) ?. by apply eth_encode_wire. Qed.
Next Obligation.
  intros h p (Hwf & Hu & _ & _). rewrite eth_decode_wire by done.
  by rewrite valid_unicast_mac_true by (done || apply Hwf).
Qed.
