(* ===== verification/Arp.v ===== *)
(** * ARP packets and the ARP cache ([network-stack/src/arp.rs]) *)

From S2P Require Import Prelude Packet Ethernet.

(** ** Packets: the code *)

Definition ARP_LEN : nat := 28.
Definition ARP_REQUEST : Z := 1.
Definition ARP_REPLY : Z := 2.

Record ArpPacket := {
  arp_operation : Z;
  arp_sender_mac : list Z;
  arp_sender_ip : list Z;
  arp_target_mac : list Z;
  arp_target_ip : list Z;
}.

Definition ArpPacket_decode (b : list Z) : result PacketError ArpPacket :=
  if (length b <? ARP_LEN)%nat then Err Truncated else
  let? b0 := idx b 0 in let? b1 := idx b 1 in
  let? b2 := idx b 2 in let? b3 := idx b 3 in
  let? b4 := idx b 4 in let? b5 := idx b 5 in
  if negb (u16_from_be b0 b1 =? 1) || negb (u16_from_be b2 b3 =? 2048)
     || negb (b4 =? 6) || negb (b5 =? 4)
  then Err InvalidHeader else
  let? b6 := idx b 6 in let? b7 := idx b 7 in
  let op := u16_from_be b6 b7 in
  if negb (op =? ARP_REQUEST) && negb (op =? ARP_REPLY) then Err Unsupported else
  let? s := slice b 8 14 in
  let? sender_mac := ok_or (try_into_array 6 s) Truncated in
  let? unicast := valid_unicast_mac sender_mac in
  if negb unicast then Err InvalidHeader else
  let? s := slice b 14 18 in
  let? sender_ip := ok_or (try_into_array 4 s) Truncated in
  let? s := slice b 18 24 in
  let? target_mac := ok_or (try_into_array 6 s) Truncated in
  let? s := slice b 24 28 in
  let? target_ip := ok_or (try_into_array 4 s) Truncated in
  Ok {| arp_operation := op; arp_sender_mac := sender_mac; arp_sender_ip := sender_ip;
        arp_target_mac := target_mac; arp_target_ip := target_ip |}.

Definition ArpPacket_encode (self : ArpPacket) (out : list Z) : result PacketError (nat * list Z) :=
  if (length out <? ARP_LEN)%nat then Err Truncated else
  let? bad :=
    (if negb ((arp_operation self =? ARP_REQUEST) || (arp_operation self =? ARP_REPLY))
     then Ok true
     else let? unicast := valid_unicast_mac (arp_sender_mac self) in Ok (negb unicast)) in
  if bad then Err InvalidHeader else
  let? out := fill out 0 ARP_LEN 0 in
  let? out := copy_into out 0 2 (u16_to_be 1) in
  let? out := copy_into out 2 4 (u16_to_be 2048) in
  let? out := set_idx out 4 6 in
  let? out := set_idx out 5 4 in
  let? out := copy_into out 6 8 (u16_to_be (arp_operation self)) in
  let? out := copy_into out 8 14 (arp_sender_mac self) in
  let? out := copy_into out 14 18 (arp_sender_ip self) in
  let? out := copy_into out 18 24 (arp_target_mac self) in
  let? out := copy_into out 24 28 (arp_target_ip self) in
  Ok (ARP_LEN, out).

(** ** The cache: the code *)

Record ArpEntry := {
  ae_ip : list Z;
  ae_mac : list Z;
  ae_expires_at : Z;
}.

Record ArpCache := {
  ac_entries : list ArpEntry;
  ac_capacity : Z;
}.

Definition ArpCache_new (capacity : Z) : ArpCache :=
  {| ac_entries := []; ac_capacity := capacity |}.

(** [while entries.len() >= capacity && entries.pop_front().is_some() {}] *)
Fixpoint arp_evict (capacity : Z) (entries : list ArpEntry) : list ArpEntry :=
  if capacity <=? Z.of_nat (length entries) then
    match entries with
    | [] => []
    | _ :: rest => arp_evict capacity rest
    end
  else entries.

Definition ArpCache_insert (self : ArpCache) (entry : ArpEntry) : ArpCache :=
  let kept := filter (fun e => ae_ip e <> ae_ip entry) (ac_entries self) in
  let room := arp_evict (ac_capacity self) kept in
  {| ac_entries := if ac_capacity self =? 0 then room else room ++ [entry];
     ac_capacity := ac_capacity self |}.

Definition ArpCache_lookup (self : ArpCache) (ip : list Z) (now : Z) : ArpCache * option (list Z) :=
  let live := filter (fun e => now < ae_expires_at e) (ac_entries self) in
  ({| ac_entries := live; ac_capacity := ac_capacity self |},
   (fun e => ae_mac (snd e)) <$> list_find (fun e => ae_ip e = ip) live).

Definition ArpCache_len (self : ArpCache) : Z := Z.of_nat (length (ac_entries self)).
Definition ArpCache_is_empty (self : ArpCache) : bool :=
  match ac_entries self with [] => true | _ => false end.

(** ** Packets: wire format *)

Definition arp_wf (p : ArpPacket) : Prop :=
  is_u16 (arp_operation p) /\ arr 6 (arp_sender_mac p) /\ arr 4 (arp_sender_ip p) /\
  arr 6 (arp_target_mac p) /\ arr 4 (arp_target_ip p).

(** What the protocol allows a packet to say. *)
Definition arp_sendable (p : ArpPacket) : Prop :=
  (arp_operation p = ARP_REQUEST \/ arp_operation p = ARP_REPLY) /\ unicast_mac (arp_sender_mac p).

Definition arp_wire (p : ArpPacket) : list Z :=
  [0; 1; 8; 0; 6; 4] ++ u16_to_be (arp_operation p) ++ arp_sender_mac p ++ arp_sender_ip p
  ++ arp_target_mac p ++ arp_target_ip p.

Lemma arp_wire_length p : arp_wf p -> length (arp_wire p) = 28%nat.
Proof.
  intros (_ & [H1 _] & [H2 _] & [H3 _] & [H4 _]). unfold arp_wire.
  by rewrite !length_app, H1, H2, H3, H4.
Qed.

Lemma arp_encode_wire p out :
  arp_wf p -> arp_sendable p -> (28 <= length out)%nat ->
  ArpPacket_encode p out = Ok (28%nat, arp_wire p ++ drop 28 out).
Proof.
  intros (_ & Hsm & Hsi & Htm & Hti) [Hop Hu] Hl. destruct p as [op sm si tm ti].
  cbn in *. unfold ArpPacket_encode, ARP_LEN, ARP_REQUEST, ARP_REPLY, arp_wire in *.
  cbn [arp_operation arp_sender_mac arp_sender_ip arp_target_mac arp_target_ip].
  rewrite (proj2 (Nat.ltb_ge _ _)) by done.
  rewrite valid_unicast_mac_true by done.
  assert ((op =? 1) || (op =? 2) = true) as -> by (apply orb_true_iff; rewrite !Z.eqb_eq; tauto).
  rewrite fill_prefix by done. clear Hu Hop.
  explode_arr Hsm. explode_arr Hsi. explode_arr Htm. explode_arr Hti. reflexivity.
Qed.

(** Decoding reads the 28 bytes of a packet and ignores the padding behind them. *)
Lemma arp_decode_wire p pad :
  arp_wf p -> arp_sendable p -> ArpPacket_decode (arp_wire p ++ pad) = Ok p.
Proof.
  intros (Hop16 & Hsm & Hsi & Htm & Hti) [Hop Hu]. destruct p as [op sm si tm ti]. cbn in *.
  pose proof (valid_unicast_mac_true _ Hsm Hu) as Hv.
  unfold ArpPacket_decode, arp_wire, ARP_LEN, ARP_REQUEST, ARP_REPLY in *.
  cbn [arp_operation arp_sender_mac arp_sender_ip arp_target_mac arp_target_ip].
  explode_arr Hsm. explode_arr Hsi. explode_arr Htm. explode_arr Hti.
  cbn -[valid_unicast_mac]. rewrite u16_be_roundtrip by done.
  assert (negb (op =? 1) && negb (op =? 2) = false) as ->.
  { destruct Hop as [-> | ->]; done. }
  by rewrite Hv.
Qed.

Lemma arp_decode_sound b p :
  bytes b -> ArpPacket_decode b = Ok p ->
  arp_wf p /\ arp_sendable p /\ exists pad, b = arp_wire p ++ pad.
Proof.
  intros Hb Hd. unfold ArpPacket_decode in Hd.
  destruct (Nat.ltb_spec (length b) ARP_LEN) as [?|Hl]; [done |]. unfold ARP_LEN in Hl.
  explode_prefix 28%nat b. cbn -[valid_unicast_mac] in Hd, Hb. split_bytes.
  destruct (negb (u16_from_be x x0 =? 1) || _ || _ || _) eqn:Hhdr; [done |].
  destruct (negb _ && negb _) eqn:Hop; [done |].
  destruct (valid_unicast_mac_spec [x7; x8; x9; x10; x11; x12]) as (u & Hu & Hu').
  { split; [done | solve_bytes]. }
  rewrite Hu in Hd. destruct u; [|done]. cbn in Hd. injection Hd as <-.
  unfold ARP_REQUEST, ARP_REPLY, u16_from_be in *. bool_cases.
  split_and!.
  - split_and!; cbn; [by apply u16_from_be_range | split; [done | solve_bytes] ..].
  - split; [|tauto]. cbn. unfold ARP_REQUEST, ARP_REPLY, u16_from_be.
    apply andb_false_iff in Hop as [?|?]; bool_cases; auto.
  - exists rest. unfold arp_wire, u16_to_be, u16_from_be. cbn. repeat f_equal; divlia.
Qed.

Lemma arp_decode_no_panic b : bytes b -> ArpPacket_decode b <> Panic.
Proof.
  intros Hb. unfold ArpPacket_decode.
  destruct (Nat.ltb_spec (length b) ARP_LEN) as [?|Hl]; [done |]. unfold ARP_LEN in Hl.
  explode_prefix 28%nat b. cbn -[valid_unicast_mac] in *. split_bytes.
  case_match; [done |]. case_match; [done |].
  destruct (valid_unicast_mac_spec [x7; x8; x9; x10; x11; x12]) as (u & -> & _).
  { split; [done | solve_bytes]. }
  by destruct u.
Qed.

(** The ARP decoder accepts exactly the images of sendable requests and replies followed by
    arbitrary padding, never panics, and inverts the encoder into any buffer of
    at least 28 bytes; the encoder leaves the rest of the buffer alone. *)
Theorem ArpPacket_codec_exact b out p
    (Hb : bytes b) (Hout : bytes out) (Hl : (28 <= length out)%nat) :
  (ArpPacket_decode b = Ok p <->
     arp_wf p /\ arp_sendable p /\ exists pad, b = arp_wire p ++ pad) /\
  ArpPacket_decode b <> Panic /\
  (arp_wf p -> arp_sendable p ->
   exists out', ArpPacket_encode p out = Ok (28%nat, out') /\
     drop 28 out' = drop 28 out /\ ArpPacket_decode out' = Ok p).
Proof.
  split_and!.
  - split; [by apply arp_decode_sound |]. intros (? & ? & pad & ->). by apply arp_decode_wire.
  - by apply arp_decode_no_panic.
  - intros Hwf Hs. rewrite arp_encode_wire by done. eexists. split_and!; [done | |].
    + rewrite drop_app_ge; rewrite arp_wire_length by done; [|done]. by rewrite Nat.sub_diag.
    + by apply arp_decode_wire.
Qed.

Lemma ArpPacket_codec_exact_witness :
  ArpPacket_decode [0;1; 8;0; 6; 4; 0;1; 2;2;2;2;2;2; 10;0;2;15; 0;0;0;0;0;0; 10;0;2;2; 99] =
  Ok {| arp_operation := 1; arp_sender_mac := [2;2;2;2;2;2]; arp_sender_ip := [10;0;2;15];
        arp_target_mac := [0;0;0;0;0;0]; arp_target_ip := [10;0;2;2] |}.
Proof.
  apply (ArpPacket_codec_exact _ (replicate 28 0)).
  - solve_bytes.
  - solve_bytes.
  - vm_compute. lia.
  - split_and!.
    + split_and!; cbn; [done | split; [done | solve_bytes] ..].
    + split; [by left |]. split_and!; [done | done |]. by exists 2.
    + by exists [99].
Defined.

(** ** The cache: traces of operations *)

Inductive arp_op : Type :=
  | AInsert (e : ArpEntry)
  | ALookup (ip : list Z) (now : Z).

Definition arp_step (c : ArpCache) (o : arp_op) : ArpCache :=
  match o with
  | AInsert e => ArpCache_insert c e
  | ALookup ip now => fst (ArpCache_lookup c ip now)
  end.

Definition arp_run (c : ArpCache) (ops : list arp_op) : ArpCache := fold_left arp_step ops c.

(** The last insertion for an address, the reference for what a lookup may return. *)
Fixpoint arp_latest (ops : list arp_op) (ip : list Z) : option ArpEntry :=
  match ops with
  | [] => None
  | o :: ops =>
      match arp_latest ops ip with
      | Some e => Some e
      | None => match o with
                | AInsert e => if bool_decide (ae_ip e = ip) then Some e else None
                | ALookup _ _ => None
                end
      end
  end.

Fixpoint arp_inserted (ops : list arp_op) : list (list Z) :=
  match ops with
  | [] => []
  | AInsert e :: ops => ae_ip e :: arp_inserted ops
  | ALookup _ _ :: ops => arp_inserted ops
  end.

Definition arp_not_expired (e : ArpEntry) (o : arp_op) : Prop :=
  match o with AInsert _ => True | ALookup _ now => now < ae_expires_at e end.

Lemma arp_evict_drop cap l :
  1 <= cap -> arp_evict cap l = drop (length l - Z.to_nat (cap - 1)) l.
Proof.
  intros Hc. induction l as [|e l IH]; [cbn; by case_match |].
  cbn [arp_evict length]. destruct (Z.leb_spec cap (Z.of_nat (S (length l)))).
  - rewrite IH.
    replace (S (length l) - Z.to_nat (cap - 1))%nat with (S (length l - Z.to_nat (cap - 1))) by lia.
    done.
  - by replace (S (length l) - Z.to_nat (cap - 1))%nat with 0%nat by lia.
Qed.

Lemma arp_evict_zero l : arp_evict 0 l = [].
Proof. induction l as [|e l IH]; [done |]. cbn [arp_evict]. by case_match; bool_cases; [|lia]. Qed.

Lemma arp_evict_sublist cap l : sublist (arp_evict cap l) l.
Proof.
  induction l as [|e l IH]; cbn [arp_evict]; case_match; try done.
  by apply sublist_cons.
Qed.

Definition arp_inv (ops : list arp_op) (c : ArpCache) : Prop :=
  Z.of_nat (length (ac_entries c)) <= ac_capacity c /\
  NoDup (ae_ip <$> ac_entries c) /\
  forall e, e ∈ ac_entries c -> arp_latest ops (ae_ip e) = Some e.

Lemma arp_latest_snoc ops o ip :
  arp_latest (ops ++ [o]) ip =
  match o with
  | AInsert e => if bool_decide (ae_ip e = ip) then Some e else arp_latest ops ip
  | ALookup _ _ => arp_latest ops ip
  end.
Proof.
  induction ops as [|o' ops IH]; cbn; [by destruct o; try case_bool_decide |].
  rewrite IH. destruct o; [|done]. by case_bool_decide.
Qed.

Lemma arp_inv_insert ops c e :
  0 <= ac_capacity c -> arp_inv ops c -> arp_inv (ops ++ [AInsert e]) (ArpCache_insert c e).
Proof.
  intros Hcap (Hlen & Hnd & Hlat). unfold ArpCache_insert, arp_inv. cbn [ac_entries ac_capacity].
  set (kept := filter _ _). set (room := arp_evict _ _).
  assert (sublist room kept) as Hs by apply arp_evict_sublist.
  assert (forall e', e' ∈ room -> ae_ip e' <> ae_ip e /\ e' ∈ ac_entries c) as Hin.
  { intros e' He'. apply (sublist_subseteq _ _ Hs) in He'. subst kept.
    by apply list_elem_of_filter in He'. }
  assert (NoDup (ae_ip <$> room)) as Hnd'.
  { eapply sublist_NoDup_fmap; [|done]. etrans; [done |]. apply sublist_filter. }
  assert (forall e', e' ∈ room -> arp_latest (ops ++ [AInsert e]) (ae_ip e') = Some e') as Hl'.
  { intros e' He'. destruct (Hin _ He') as [Hne Hc]. rewrite arp_latest_snoc.
    rewrite bool_decide_false by congruence. auto. }
  destruct (Z.eqb_spec (ac_capacity c) 0) as [H0|H0].
  { subst room. rewrite H0 in *. rewrite arp_evict_zero in *. done. }
  split_and!.
  - rewrite length_app. subst room. rewrite arp_evict_drop, length_drop by lia. cbn. lia.
  - rewrite fmap_app. apply NoDup_app. split_and!; [done | | apply NoDup_singleton].
    intros ip (e' & -> & He')%list_elem_of_fmap. cbn.
    rewrite list_elem_of_singleton. by apply Hin.
  - intros e' [He'| ->%list_elem_of_singleton]%elem_of_app; [auto |].
    rewrite arp_latest_snoc. by rewrite bool_decide_true.
Qed.

Lemma arp_inv_lookup ops c ip now :
  arp_inv ops c -> arp_inv (ops ++ [ALookup ip now]) (fst (ArpCache_lookup c ip now)).
Proof.
  intros (Hlen & Hnd & Hlat). unfold ArpCache_lookup, arp_inv. cbn [fst ac_entries ac_capacity].
  pose proof (sublist_filter (fun e => now < ae_expires_at e) (ac_entries c)) as Hs.
  split_and!.
  - apply sublist_length in Hs. lia.
  - by eapply sublist_NoDup_fmap.
  - intros e He. apply (sublist_subseteq _ _ Hs) in He. rewrite arp_latest_snoc. auto.
Qed.

Lemma arp_step_capacity c o : ac_capacity (arp_step c o) = ac_capacity c.
Proof. by destruct o. Qed.

Lemma arp_run_inv cap ops :
  0 <= cap -> arp_inv ops (arp_run (ArpCache_new cap) ops) /\
  ac_capacity (arp_run (ArpCache_new cap) ops) = cap.
Proof.
  intros Hcap. unfold arp_run. induction ops as [|o ops IH] using rev_ind.
  - split; [|done]. split_and!; [done | apply NoDup_nil_2 | by intros e ?%not_elem_of_nil].
  - rewrite fold_left_app. cbn [fold_left]. destruct IH as [IH Hc]. split.
    + destruct o; [apply arp_inv_insert | apply arp_inv_lookup]; auto; lia.
    + by rewrite arp_step_capacity.
Qed.

(** An entry stays in the cache while it is neither replaced nor expired and
    fewer other addresses than the capacity have arrived since. *)
Definition arp_tail_inv (e : ArpEntry) (seen : list (list Z)) (c : ArpCache) : Prop :=
  exists l1 l2, ac_entries c = l1 ++ e :: l2 /\ (ae_ip <$> l2) ⊆ seen.

Lemma list_find_unique (l1 l2 : list ArpEntry) e :
  NoDup (ae_ip <$> (l1 ++ e :: l2)) ->
  list_find (fun e' => ae_ip e' = ae_ip e) (l1 ++ e :: l2) = Some (length l1, e).
Proof.
  intros Hnd. apply list_find_Some. split_and!; [by apply list_lookup_middle | done |].
  intros j y Hj Hlt Heq. rewrite lookup_app_l in Hj by done.
  rewrite fmap_app in Hnd. apply NoDup_app in Hnd as (_ & Hdis & _).
  apply (Hdis (ae_ip y)); [|rewrite Heq; by left].
  apply list_elem_of_fmap. exists y. split; [done |]. by eapply list_elem_of_lookup_2.
Qed.

Lemma arp_tail_insert e seen c e' cap :
  NoDup (ae_ip <$> ac_entries c) -> ac_capacity c = cap -> ae_ip e' <> ae_ip e ->
  ae_ip e' ∈ seen -> Z.of_nat (length (remove_dups seen)) < cap ->
  arp_tail_inv e seen c -> arp_tail_inv e seen (ArpCache_insert c e').
Proof.
  intros Hnd <- Hne Hseen Hroom (l1 & l2 & He & Hsub). unfold ArpCache_insert, arp_tail_inv.
  cbn [ac_entries]. destruct (Z.eqb_spec (ac_capacity c) 0); [lia |].
  rewrite arp_evict_drop by lia. rewrite He, filter_app, filter_cons_True by congruence.
  set (f1 := filter _ l1). set (f2 := filter _ l2).
  assert (Z.of_nat (length f2) < ac_capacity c - 1) as Hlt.
  { assert (length (ae_ip e' :: (ae_ip <$> f2)) <= length (remove_dups seen))%nat as Hle.
    { apply submseteq_length, NoDup_submseteq.
      - apply NoDup_cons_2.
        + intros (y & Hy & Hin)%list_elem_of_fmap. subst f2. apply list_elem_of_filter in Hin. naive_solver.
        + eapply sublist_NoDup_fmap; [apply sublist_filter |].
          rewrite He, fmap_app, fmap_cons in Hnd.
          apply NoDup_app in Hnd as (_ & _ & [_ Hnd]%NoDup_cons). done.
      - intros ip [->|Hin]%elem_of_cons; rewrite elem_of_remove_dups; [done |].
        apply Hsub. apply list_elem_of_fmap in Hin as (y & -> & Hy).
        apply list_elem_of_fmap_2. subst f2. by apply list_elem_of_filter in Hy as [_ ?]. }
    cbn [length] in Hle. rewrite length_fmap in Hle. lia. }
  exists (drop (length (f1 ++ e :: f2) - Z.to_nat (ac_capacity c - 1)) f1), (f2 ++ [e']). split.
  - rewrite drop_app_le by (rewrite length_app; cbn [length]; lia). by rewrite <- !app_assoc.
  - rewrite fmap_app. intros ip [Hin|Hin]%elem_of_app.
    + apply Hsub. apply list_elem_of_fmap in Hin as (y & -> & Hy).
      apply list_elem_of_fmap_2. subst f2. by apply list_elem_of_filter in Hy as [_ ?].
    + by apply list_elem_of_singleton in Hin as ->.
Qed.

Lemma arp_tail_lookup e seen c ip now :
  now < ae_expires_at e -> arp_tail_inv e seen c ->
  arp_tail_inv e seen (fst (ArpCache_lookup c ip now)).
Proof.
  intros Hnow (l1 & l2 & He & Hsub). unfold ArpCache_lookup, arp_tail_inv. cbn [fst ac_entries].
  rewrite He, filter_app, filter_cons_True by done. eexists _, _. split; [done |].
  intros ip' (y & -> & [_ Hy]%list_elem_of_filter)%list_elem_of_fmap. apply Hsub.
  by apply list_elem_of_fmap_2.
Qed.

Lemma arp_tail_run e seen cap ops1 ops :
  0 <= cap -> Z.of_nat (length (remove_dups seen)) < cap ->
  arp_inserted ops ⊆ seen -> ae_ip e ∉ arp_inserted ops -> Forall (arp_not_expired e) ops ->
  arp_tail_inv e seen (arp_run (ArpCache_new cap) ops1) ->
  arp_tail_inv e seen (arp_run (ArpCache_new cap) (ops1 ++ ops)).
Proof.
  intros Hcap Hroom. revert ops1. induction ops as [|o ops IH]; intros ops1 Hsub Hne Hexp Hinv.
  { by rewrite app_nil_r. }
  apply Forall_cons in Hexp as [Ho Hexp].
  replace (ops1 ++ o :: ops) with ((ops1 ++ [o]) ++ ops) by (by rewrite <- app_assoc).
  destruct (arp_run_inv cap ops1 Hcap) as [(_ & Hnd & _) Hc].
  assert (arp_run (ArpCache_new cap) (ops1 ++ [o]) = arp_step (arp_run (ArpCache_new cap) ops1) o) as Hr.
  { unfold arp_run. by rewrite fold_left_app. }
  destruct o as [e'|ip now]; cbn [arp_inserted] in Hsub, Hne; apply IH; rewrite ?Hr; auto.
  - set_solver.
  - set_solver.
  - eapply arp_tail_insert; eauto; set_solver.
  - by apply arp_tail_lookup.
Qed.

(** Over any sequence of insertions and lookups, starting from an empty cache of
    capacity [cap]: the cache never holds more than [cap] entries, nor two for one
    address; a lookup only ever answers with the latest inserted MAC for the
    address, and only before its expiry; and it does answer with it as
    long as the entry has not expired and fewer than [cap] distinct other addresses
    were inserted after it. *)
Theorem ArpCache_trace cap ops (Hcap : 0 <= cap) :
  let c := arp_run (ArpCache_new cap) ops in
  ArpCache_len c <= cap /\
  NoDup (ae_ip <$> ac_entries c) /\
  (forall ip now mac, snd (ArpCache_lookup c ip now) = Some mac ->
     exists e, arp_latest ops ip = Some e /\ ae_mac e = mac /\ now < ae_expires_at e) /\
  (forall ops1 e ops2 now, ops = ops1 ++ AInsert e :: ops2 ->
     ae_ip e ∉ arp_inserted ops2 -> Forall (arp_not_expired e) ops2 -> now < ae_expires_at e ->
     Z.of_nat (length (remove_dups (arp_inserted ops2))) < cap ->
     snd (ArpCache_lookup c (ae_ip e) now) = Some (ae_mac e)).
Proof.
  intros c. destruct (arp_run_inv cap ops Hcap) as [(Hlen & Hnd & Hlat) Hc]. fold c in Hlen, Hnd, Hlat, Hc.
  split_and!; [by unfold ArpCache_len; lia | done | |].
  - intros ip now mac. unfold ArpCache_lookup. cbn [snd].
    destruct (list_find _ _) as [[i e]|] eqn:Hf; [|done]. intros [= <-].
    apply list_find_Some in Hf as (Hi & <- & _). apply list_elem_of_lookup_2 in Hi.
    apply list_elem_of_filter in Hi as [? ?]. eauto.
  - intros ops1 e ops2 now Heq Hne Hexp Hnow Hroom.
    assert (arp_tail_inv e (arp_inserted ops2) c) as (l1 & l2 & He & _).
    { subst c ops. replace (ops1 ++ AInsert e :: ops2) with ((ops1 ++ [AInsert e]) ++ ops2)
        by (by rewrite <- app_assoc).
      apply arp_tail_run; auto. unfold arp_run. rewrite fold_left_app. cbn [fold_left arp_step].
      unfold ArpCache_insert, arp_tail_inv. cbn [ac_entries].
      destruct (arp_run_inv cap ops1 Hcap) as [_ Hc1]. unfold arp_run in Hc1. rewrite Hc1.
      destruct (Z.eqb_spec cap 0); [lia |]. eexists _, []. split; [done | set_solver]. }
    unfold ArpCache_lookup. cbn [snd]. rewrite He in Hnd |- *.
    rewrite filter_app, filter_cons_True by done. rewrite list_find_unique; [done |].
    eapply sublist_NoDup_fmap; [|done]. apply sublist_app; [apply sublist_filter |].
    apply sublist_skip, sublist_filter.
Qed.

Lemma ArpCache_trace_witness :
  let e i x := {| ae_ip := [i]; ae_mac := [x]; ae_expires_at := 10 |} in
  let ops := [AInsert (e 1 5); AInsert (e 2 6); ALookup [1] 4; AInsert (e 1 7); AInsert (e 3 8)] in
  snd (ArpCache_lookup (arp_run (ArpCache_new 2) ops) [1] 9) = Some [7].
Proof.
  intros e ops. destruct (ArpCache_trace 2 ops ltac:(lia)) as (_ & _ & _ & H).
  apply (H [AInsert (e 1 5); AInsert (e 2 6); ALookup [1] 4] (e 1 7) [AInsert (e 3 8)]).
  - reflexivity.
  - cbn. set_solver.
  - repeat constructor.
  - cbn. lia.
  - vm_compute. reflexivity.
Defined.
