(* ===== verification/Ipv4.v ===== *)
(** * IPv4 headers ([network-stack/src/ipv4.rs]) *)

From S2P Require Import Prelude Packet Checksum.

(** ** The code *)

Definition IPV4_HEADER_LEN : nat := 20.

Record Ipv4Header := {
  ip_source : list Z;
  ip_destination : list Z;
  ip_protocol : Z;
  ip_ttl : Z;
  ip_identification : Z;
}.

Definition Ipv4Header_decode (packet : list Z) : result PacketError (Ipv4Header * list Z) :=
  if (length packet <? IPV4_HEADER_LEN)%nat then Err Truncated else
  let? b0 := idx packet 0 in
  if negb (b0 =? 69) then Err InvalidHeader else
  let? b2 := idx packet 2 in let? b3 := idx packet 3 in
  let total := Z.to_nat (u16_from_be b2 b3) in
  if (total <? IPV4_HEADER_LEN)%nat || (length packet <? total)%nat then Err InvalidLength else
  let? b6 := idx packet 6 in let? b7 := idx packet 7 in
  let frag := u16_from_be b6 b7 in
  if negb (Z.land frag 16383 =? 0) then Err Unsupported else
  let? b8 := idx packet 8 in
  if b8 =? 0 then Err InvalidHeader else
  let? head := slice packet 0 IPV4_HEADER_LEN in
  if negb (checksum_valid head) then Err InvalidChecksum else
  let? s := slice packet 12 16 in
  let? source := ok_or (try_into_array 4 s) Truncated in
  let? s := slice packet 16 20 in
  let? destination := ok_or (try_into_array 4 s) Truncated in
  let? protocol := idx packet 9 in
  let? ttl := idx packet 8 in
  let? b4 := idx packet 4 in let? b5 := idx packet 5 in
  let? payload := slice packet 20 total in
  Ok ({| ip_source := source; ip_destination := destination; ip_protocol := protocol;
         ip_ttl := ttl; ip_identification := u16_from_be b4 b5 |}, payload).

Definition Ipv4Header_encode (self : Ipv4Header) (payload out : list Z)
    : result PacketError (nat * list Z) :=
  let? len := ok_or (checked_add IPV4_HEADER_LEN (length payload)) InvalidLength in
  let? total := ok_or (try_u16 len) InvalidLength in
  if (length out <? len)%nat then Err Truncated else
  let? out := fill out 0 20 0 in
  let? out := set_idx out 0 69 in
  let? out := copy_into out 2 4 (u16_to_be total) in
  let? out := copy_into out 4 6 (u16_to_be (ip_identification self)) in
  let? out := copy_into out 6 8 (u16_to_be 16384) in
  let? out := set_idx out 8 (ip_ttl self) in
  let? out := set_idx out 9 (ip_protocol self) in
  let? out := copy_into out 12 16 (ip_source self) in
  let? out := copy_into out 16 20 (ip_destination self) in
  let? head := slice out 0 20 in
  let sum := checksum head in
  let? out := copy_into out 10 12 (u16_to_be sum) in
  let? out := copy_into out 20 len payload in
  Ok (len, out).

(** ** Wire format *)

Definition ip_wf (h : Ipv4Header) : Prop :=
  arr 4 (ip_source h) /\ arr 4 (ip_destination h) /\ is_u8 (ip_protocol h) /\
  is_u8 (ip_ttl h) /\ is_u16 (ip_identification h).

(** The bytes before and after the checksum field. *)
Definition ip_pre (h : Ipv4Header) (n : nat) : list Z :=
  [69; 0] ++ u16_to_be (Z.of_nat n) ++ u16_to_be (ip_identification h) ++ [64; 0; ip_ttl h; ip_protocol h].
Definition ip_post (h : Ipv4Header) : list Z := ip_source h ++ ip_destination h.

Definition ip_header_wire (h : Ipv4Header) (n : nat) : list Z :=
  ip_pre h n ++ u16_to_be (checksum (ip_pre h n ++ 0 :: 0 :: ip_post h)) ++ ip_post h.

Definition ip_wire (h : Ipv4Header) (payload : list Z) : list Z :=
  ip_header_wire h (20 + length payload) ++ payload.

Lemma ip_pre_bytes h n : ip_wf h -> bytes (ip_pre h n).
Proof. intros (? & ? & ? & ? & ?). unfold ip_pre. solve_bytes. Qed.

Lemma ip_post_arr h : ip_wf h -> arr 8 (ip_post h).
Proof.
  intros ([Hs ?] & [Hd ?] & _). unfold ip_post, arr. rewrite length_app, Hs, Hd. split; [done |].
  solve_bytes.
Qed.

Lemma ip_header_wire_length h n : ip_wf h -> length (ip_header_wire h n) = 20%nat.
Proof.
  intros Hwf. unfold ip_header_wire. rewrite !length_app, (proj1 (ip_post_arr h Hwf)). done.
Qed.

Lemma ip_wire_length h p : ip_wf h -> length (ip_wire h p) = (20 + length p)%nat.
Proof. intros. unfold ip_wire. by rewrite length_app, ip_header_wire_length. Qed.

Lemma ip_header_wire_bytes h n : ip_wf h -> bytes (ip_header_wire h n).
Proof.
  intros Hwf. pose proof (ip_pre_bytes h n Hwf). pose proof (proj2 (ip_post_arr h Hwf)).
  unfold ip_header_wire. solve_bytes.
Qed.

Lemma ip_header_valid h n : ip_wf h -> checksum_valid (ip_header_wire h n) = true.
Proof.
  intros Hwf. destruct (ip_post_arr h Hwf) as [Hl Hb].
  apply checksum_written_valid; [by apply ip_pre_bytes | done | by exists 5%nat |].
  rewrite Hl. cbn. lia.
Qed.

Lemma ip_encode_wire h p out :
  ip_wf h -> is_u16 (20 + Z.of_nat (length p)) -> (20 + length p <= length out)%nat ->
  Ipv4Header_encode h p out = Ok ((20 + length p)%nat, ip_wire h p ++ drop (20 + length p) out).
Proof.
  intros Hwf Hu Hl. destruct Hwf as (Hs & Hd & _).
  unfold Ipv4Header_encode, ip_wire, ip_header_wire, ip_pre, ip_post, IPV4_HEADER_LEN.
  rewrite checked_add_small by (widths; lia). cbn [ok_or].
  rewrite (proj2 (try_u16_Some _ (Z.of_nat (20 + length p)))) by (widths; split; lia). cbn [ok_or].
  rewrite (proj2 (Nat.ltb_ge _ _)) by done. rewrite fill_prefix, <- (drop_drop out (length p) 20) by lia.
  assert (length p <= length (drop 20 out))%nat as Hr by (rewrite length_drop; lia).
  revert Hr. generalize (drop 20 out). intros rest Hr.
  destruct h as [s d pr ttl id]. cbn [ip_source ip_destination ip_protocol ip_ttl ip_identification] in *.
  explode_arr Hs. explode_arr Hd.
  cbn -[checksum Z.of_nat].
  rewrite ?copy_into_cons, copy_into_head by done. done.
Qed.

Lemma ip_decode_wire h p pad :
  ip_wf h -> ip_ttl h <> 0 -> is_u16 (20 + Z.of_nat (length p)) ->
  Ipv4Header_decode (ip_wire h p ++ pad) = Ok (h, p).
Proof.
  intros Hwf Ht Hu. unfold ip_wire. remember (20 + length p)%nat as n eqn:Hn.
  pose proof (ip_header_valid h n Hwf) as Hv.
  pose proof (ip_header_wire_length h n Hwf) as Hwl.
  unfold Ipv4Header_decode, IPV4_HEADER_LEN.
  rewrite (proj2 (Nat.ltb_ge _ _)) by (rewrite !length_app, Hwl; lia).
  destruct Hwf as (Hs & Hd & Hp & Htt & Hid). clear Hwl.
  unfold ip_header_wire, ip_pre, ip_post in *.
  destruct h as [s d pr ttl id]. cbn [ip_source ip_destination ip_protocol ip_ttl ip_identification] in *.
  explode_arr Hs. explode_arr Hd. set (c := checksum _) in *. clearbody c.
  cbn -[checksum_valid Nat.ltb] in *. rewrite ?take_0.
  rewrite !u16_be_roundtrip, Nat2Z.id by (widths; lia).
  rewrite !(proj2 (Nat.ltb_ge _ _)) by (cbn; rewrite ?length_app; lia).
  change (Z.land (u16_from_be 64 0) 16383 =? 0) with true.
  rewrite (proj2 (Z.eqb_neq ttl 0)) by done. cbn -[checksum_valid]. rewrite ?take_0, Hv.
  subst n. cbn.
  by rewrite !slice_cons, slice_prefix.
Qed.

(** What an accepted packet looks like. *)
Definition ip_accepts (packet : list Z) (h : Ipv4Header) (p : list Z) : Prop :=
  exists total : nat,
    (20 <= total <= length packet)%nat /\
    packet !! 0%nat = Some 69 /\
    take 2 (drop 2 packet) = u16_to_be (Z.of_nat total) /\
    (exists f, take 2 (drop 6 packet) = u16_to_be f /\ Z.land f 16383 = 0) /\
    checksum_valid (take 20 packet) = true /\
    take 4 (drop 12 packet) = ip_source h /\ take 4 (drop 16 packet) = ip_destination h /\
    packet !! 9%nat = Some (ip_protocol h) /\ packet !! 8%nat = Some (ip_ttl h) /\ ip_ttl h <> 0 /\
    take 2 (drop 4 packet) = u16_to_be (ip_identification h) /\
    p = take (total - 20) (drop 20 packet).

Lemma u16_to_from a b : is_u8 a -> is_u8 b -> u16_to_be (u16_from_be a b) = [a; b].
Proof. intros. unfold u16_to_be, u16_from_be. repeat f_equal; divlia. Qed.

Lemma ip_decode_cases packet :
  bytes packet ->
  match Ipv4Header_decode packet with
  | Ok (h, p) => ip_wf h /\ ip_accepts packet h p
  | Err _ => True
  | Panic => False
  end.
Proof.
  intros Hb. unfold Ipv4Header_decode, IPV4_HEADER_LEN.
  destruct (Nat.ltb_spec (length packet) 20) as [?|Hl]; [done |].
  explode_prefix 20%nat packet. cbn in Hb. split_bytes.
  cbn -[checksum_valid Nat.ltb length].
  destruct (Z.eqb_spec x 69) as [->|]; [|done]. cbn -[checksum_valid Nat.ltb length].
  assert (is_u16 (u16_from_be x1 x2)) as Ht by (by apply u16_from_be_range).
  destruct (Nat.ltb_spec (Z.to_nat (u16_from_be x1 x2)) 20) as [|Hmin]; [done |].
  destruct (_ <? Z.to_nat (u16_from_be x1 x2))%nat eqn:Hmax; [done |]. apply Nat.ltb_ge in Hmax.
  cbn -[checksum_valid Nat.ltb length].
  destruct (Z.eqb_spec (Z.land (u16_from_be x5 x6) 16383) 0) as [Hfrag|]; [|done].
  cbn -[checksum_valid Nat.ltb length].
  destruct (Z.eqb_spec x7 0) as [|Httl]; [done |]. cbn -[checksum_valid slice].
  rewrite !slice_in by (cbn [length] in *; lia). cbn -[checksum_valid].
  destruct (checksum_valid _) eqn:Hc; [|done].
  cbn -[checksum_valid].
  split; [split_and!; cbn; [split; [done | solve_bytes] .. | | |]; auto using u16_from_be_range |].
  exists (Z.to_nat (u16_from_be x1 x2)). cbn.
  rewrite Z2Nat.id by (destruct Ht; done). rewrite !u16_to_from by done.
  split_and!; try done. exists (u16_from_be x5 x6). by rewrite u16_to_from.
Qed.

(** A header and payload written into any large enough buffer are decoded back from the
    written prefix, also when link padding follows it; the rest of the buffer is
    unchanged. *)
Theorem Ipv4Header_roundtrip h p out pad
    (Hwf : ip_wf h) (Httl : ip_ttl h <> 0) (Hlen : is_u16 (20 + Z.of_nat (length p)))
    (Hout : (20 + length p <= length out)%nat) :
  exists out', Ipv4Header_encode h p out = Ok ((20 + length p)%nat, out') /\
    drop (20 + length p) out' = drop (20 + length p) out /\
    Ipv4Header_decode (take (20 + length p) out' ++ pad) = Ok (h, p).
Proof.
  rewrite ip_encode_wire by done. eexists. split_and!; [done | |].
  - rewrite drop_app_ge; rewrite ip_wire_length by done; [|done]. by rewrite Nat.sub_diag.
  - rewrite take_app_le, take_ge by (by rewrite ip_wire_length). by apply ip_decode_wire.
Qed.

Lemma Ipv4Header_roundtrip_witness :
  let h := {| ip_source := [10;0;2;15]; ip_destination := [10;0;2;2]; ip_protocol := 1;
              ip_ttl := 64; ip_identification := 7 |} in
  exists out', Ipv4Header_encode h [1;2;3;4] (replicate 30 9) = Ok (24%nat, out') /\
    drop 24 out' = drop 24 (replicate 30 9) /\
    Ipv4Header_decode (take 24 out' ++ [0;0]) = Ok (h, [1;2;3;4]).
Proof.
  intros h. apply (Ipv4Header_roundtrip h [1;2;3;4] (replicate 30 9) [0;0]).
  - split_and!; cbn; try (split; [done | solve_bytes]); done.
  - done.
  - done.
  - cbn. lia.
Defined.

(** The decoder never panics; what it accepts is an unfragmented version-4
    packet with a valid header checksum and a live TTL, its payload being exactly
    the bytes up to the total length; and no single corrupted byte in a header that
    verified gets a packet accepted. *)
Theorem Ipv4Header_decode_safe packet (Hb : bytes packet) :
  Ipv4Header_decode packet <> Panic /\
  (forall h p, Ipv4Header_decode packet = Ok (h, p) -> ip_wf h /\ ip_accepts packet h p) /\
  (forall pre x y post rest, packet = pre ++ y :: post ++ rest ->
     length (pre ++ x :: post) = 20%nat -> is_u8 x -> x <> y ->
     checksum_valid (pre ++ x :: post) = true -> forall r, Ipv4Header_decode packet <> Ok r).
Proof.
  pose proof (ip_decode_cases packet Hb) as Hc. split_and!.
  - intros Hp. by rewrite Hp in Hc.
  - intros h p Hd. by rewrite Hd in Hc.
  - intros pre x y post rest -> Hl Hx Hne Hv [h p] Hd. rewrite Hd in Hc.
    destruct Hc as (_ & total & _ & _ & _ & _ & Hcv & _).
    rewrite app_comm_cons, (app_assoc pre) in Hcv, Hb.
    rewrite take_app_le, take_ge in Hcv by (rewrite length_app in *; cbn [length] in *; lia).
    apply Forall_app in Hb as [Hb _]. apply Forall_app in Hb as [Hpre [Hy Hpost]%Forall_cons].
    rewrite (checksum_byte_error pre x y post) in Hcv; try done.
    + solve_bytes.
    + rewrite Hl. done.
Qed.

Lemma Ipv4Header_decode_safe_witness :
  let wire := [69;0;0;24; 0;7; 64;0; 64;1; 34;206; 10;0;2;15; 10;0;2;2; 1;2;3;4] in
  ip_accepts wire {| ip_source := [10;0;2;15]; ip_destination := [10;0;2;2]; ip_protocol := 1;
                     ip_ttl := 64; ip_identification := 7 |} [1;2;3;4].
Proof. intros wire. apply (Ipv4Header_decode_safe wire); [subst wire; solve_bytes | vm_compute; reflexivity]. Defined.

#[export] Program Instance ip_framing : Framing 20 Ipv4Header_encode Ipv4Header_decode := {|
  fr_ok h p := ip_wf h /\ ip_ttl h <> 0 /\ bytes p /\ is_u16 (20 + Z.of_nat (length p));
  fr_wire := ip_wire;
|}.
Next Obligation. intros h p (? & _). by apply ip_wire_length. Qed.
Next Obligation.
  intros h p (? & _ & ? & _). apply Forall_app. auto using ip_header_wire_bytes.
Qed.
Next Obligation. intros h p out (? & _ & _ & ?) ?. by apply ip_encode_wire. Qed.
Next Obligation.
  intros h p (? & ? & _ & ?). rewrite <- (app_nil_r (ip_wire h p)). by apply ip_decode_wire.
Qed.
