(* ===== verification/Icmp.v ===== *)
(** * ICMP echo packets ([network-stack/src/icmp.rs]) *)

From S2P Require Import Prelude Packet Checksum.

(** ** The code *)

Record EchoPacket := {
  echo_reply : bool;
  echo_identifier : Z;
  echo_sequence : Z;
  echo_payload : list Z;
}.

Definition EchoPacket_decode (b : list Z) : result PacketError EchoPacket :=
  if (length b <? 8)%nat then Err Truncated else
  let? b0 := idx b 0 in let? b1 := idx b 1 in
  if negb (b0 =? 0) && negb (b0 =? 8) || negb (b1 =? 0) then Err Unsupported else
  if negb (checksum_valid b) then Err InvalidChecksum else
  let? b4 := idx b 4 in let? b5 := idx b 5 in
  let? b6 := idx b 6 in let? b7 := idx b 7 in
  let? payload := slice b 8 (length b) in
  Ok {| echo_reply := b0 =? 0; echo_identifier := u16_from_be b4 b5;
        echo_sequence := u16_from_be b6 b7; echo_payload := payload |}.

Definition EchoPacket_encode (self : EchoPacket) (out : list Z) : result PacketError (nat * list Z) :=
  let? len := ok_or (checked_add 8 (length (echo_payload self))) InvalidLength in
  if (length out <? len)%nat then Err Truncated else
  let? out := fill out 0 8 0 in
  let? out := set_idx out 0 (if echo_reply self then 0 else 8) in
  let? out := copy_into out 4 6 (u16_to_be (echo_identifier self)) in
  let? out := copy_into out 6 8 (u16_to_be (echo_sequence self)) in
  let? out := copy_into out 8 len (echo_payload self) in
  let? written := slice out 0 len in
  let c := checksum written in
  let? out := copy_into out 2 4 (u16_to_be c) in
  Ok (len, out).

(** ** Wire format *)

Definition echo_wf (p : EchoPacket) : Prop :=
  is_u16 (echo_identifier p) /\ is_u16 (echo_sequence p) /\ bytes (echo_payload p).

Definition echo_type (p : EchoPacket) : Z := if echo_reply p then 0 else 8.

Definition echo_post (p : EchoPacket) : list Z :=
  u16_to_be (echo_identifier p) ++ u16_to_be (echo_sequence p) ++ echo_payload p.

Definition echo_wire (p : EchoPacket) : list Z :=
  [echo_type p; 0] ++ u16_to_be (checksum ([echo_type p; 0] ++ 0 :: 0 :: echo_post p)) ++ echo_post p.

(** Up to this length the [u32] accumulator of [checksum] cannot wrap. *)
Definition echo_small (p : EchoPacket) : Prop := Z.of_nat (length (echo_payload p)) <= 131064.

Lemma echo_wire_length p : length (echo_wire p) = (8 + length (echo_payload p))%nat.
Proof. unfold echo_wire, echo_post. by rewrite !length_app. Qed.

Lemma echo_wire_bytes p : echo_wf p -> bytes (echo_wire p).
Proof.
  intros (? & ? & ?). unfold echo_wire, echo_post, echo_type. solve_bytes.
  destruct (echo_reply p); widths; lia.
Qed.

Lemma echo_wire_valid p : echo_wf p -> echo_small p -> checksum_valid (echo_wire p) = true.
Proof.
  intros (? & ? & ?) Hs. unfold echo_small in Hs. apply checksum_written_valid.
  - unfold echo_type. solve_bytes. destruct (echo_reply p); widths; lia.
  - unfold echo_post. solve_bytes.
  - by exists 1%nat.
  - unfold echo_post. rewrite !length_app. cbn [length u16_to_be]. lia.
Qed.

Lemma echo_encode_wire p out :
  Z.of_nat (8 + length (echo_payload p)) <= USIZE_MAX -> (8 + length (echo_payload p) <= length out)%nat ->
  EchoPacket_encode p out =
    Ok ((8 + length (echo_payload p))%nat, echo_wire p ++ drop (8 + length (echo_payload p)) out).
Proof.
  intros Hu Hl. destruct p as [r i s pl]. cbn [echo_payload] in *.
  unfold EchoPacket_encode, echo_wire, echo_post, echo_type.
  cbn [echo_reply echo_identifier echo_sequence echo_payload].
  rewrite checked_add_small by lia. cbn [ok_or].
  rewrite (proj2 (Nat.ltb_ge _ _)) by done. rewrite fill_prefix, <- (drop_drop out (length pl) 8) by lia.
  assert (length pl <= length (drop 8 out))%nat as Hr by (rewrite length_drop; lia).
  revert Hr. generalize (drop 8 out). intros rest Hr. clear Hl Hu out.
  cbn -[checksum]. rewrite ?copy_into_cons, copy_into_head by done. cbn -[checksum slice].
  assert (forall t, slice (E := PacketError)
    (t :: 0 :: 0 :: 0 :: (i / 256) mod 256 :: i mod 256 :: (s / 256) mod 256 :: s mod 256
       :: pl ++ drop (length pl) rest) 0 (S (S (S (S (S (S (S (S (length pl)))))))))
    = Ok (t :: 0 :: 0 :: 0 :: (i / 256) mod 256 :: i mod 256 :: (s / 256) mod 256 :: s mod 256 :: pl)) as ->.
  { intros t. exact (slice_prefix (t :: 0 :: 0 :: 0 :: (i / 256) mod 256 :: i mod 256
      :: (s / 256) mod 256 :: s mod 256 :: pl) (drop (length pl) rest)). }
  done.
Qed.

Lemma echo_decode_wire p : echo_wf p -> echo_small p -> EchoPacket_decode (echo_wire p) = Ok p.
Proof.
  intros Hwf Hs. pose proof (echo_wire_valid p Hwf Hs) as Hv. destruct Hwf as (Hi & Hsq & _).
  destruct p as [r i s pl]. cbn in Hi, Hsq. clear Hs.
  unfold EchoPacket_decode, echo_wire, echo_post, echo_type in *.
  cbn [echo_reply echo_identifier echo_sequence echo_payload] in *.
  set (c := checksum _) in *. clearbody c.
  destruct r; cbn -[checksum_valid slice] in *; rewrite Hv, !u16_be_roundtrip by done;
    by rewrite !slice_cons, slice_all.
Qed.

Lemma echo_decode_cases b :
  bytes b ->
  match EchoPacket_decode b with
  | Ok p => echo_wf p /\ checksum_valid b = true /\
            exists c, is_u16 c /\ b = [echo_type p; 0] ++ u16_to_be c ++ echo_post p
  | Err _ => True
  | Panic => False
  end.
Proof.
  intros Hb. unfold EchoPacket_decode.
  destruct (Nat.ltb_spec (length b) 8) as [?|Hl]; [done |].
  explode_prefix 8%nat b. cbn in Hb. split_bytes. cbn -[checksum_valid slice].
  destruct (negb (x =? 0) && negb (x =? 8) || negb (x0 =? 0)) eqn:Ht; [done |].
  destruct (checksum_valid _) eqn:Hc; [|done]. cbn -[slice]. rewrite !slice_cons, slice_all.
  split_and!; [|done |].
  - split_and!; cbn; auto using u16_from_be_range.
  - exists (u16_from_be x1 x2). split; [by apply u16_from_be_range |].
    unfold echo_type, echo_post. cbn.
    assert ((if x =? 0 then 0 else 8) = x /\ x0 = 0) as [-> ->].
    { bool_cases. apply andb_false_iff in H7 as [?|?]; bool_cases; subst; [done |].
      by destruct (Z.eqb_spec 8 0). }
    unfold u16_from_be. repeat f_equal; divlia.
Qed.

(** An echo packet written into any large enough buffer is decoded back from the
    written prefix; a decoder run never panics; it accepts only byte strings that
    are the header layout of the packet it returns with a verifying checksum; and a
    single corrupted byte anywhere in an encoded packet, payload included, is never accepted. *)
Theorem EchoPacket_codec p out
    (Hwf : echo_wf p) (Hs : echo_small p) (Hout : (8 + length (echo_payload p) <= length out)%nat) :
  (exists out', EchoPacket_encode p out = Ok ((8 + length (echo_payload p))%nat, out') /\
     drop (8 + length (echo_payload p)) out' = drop (8 + length (echo_payload p)) out /\
     EchoPacket_decode (take (8 + length (echo_payload p)) out') = Ok p) /\
  (forall b, bytes b -> EchoPacket_decode b <> Panic) /\
  (forall pre x y post, echo_wire p = pre ++ x :: post -> is_u8 y -> x <> y ->
     forall r, EchoPacket_decode (pre ++ y :: post) <> Ok r).
Proof.
  pose proof Hs as Hs'. unfold echo_small in Hs'. split_and!.
  - rewrite echo_encode_wire by (widths; lia || done). eexists. split_and!; [done | |].
    + rewrite drop_app_ge; rewrite echo_wire_length; [|done]. by rewrite Nat.sub_diag.
    + rewrite take_app_le, take_ge by (by rewrite echo_wire_length). by apply echo_decode_wire.
  - intros b Hb Hp. pose proof (echo_decode_cases b Hb) as Hc. by rewrite Hp in Hc.
  - intros pre x y post Heq Hy Hne r Hd.
    pose proof (echo_wire_bytes p Hwf) as Hb. pose proof (echo_wire_valid p Hwf Hs) as Hv.
    pose proof (echo_wire_length p) as Hl. rewrite Heq in Hb, Hv, Hl.
    assert (bytes (pre ++ y :: post)) as Hb'.
    { apply Forall_app in Hb as [? [? ?]%Forall_cons]. solve_bytes. }
    pose proof (echo_decode_cases _ Hb') as Hc. rewrite Hd in Hc. destruct Hc as (_ & Hc & _).
    rewrite (checksum_byte_error pre x y post) in Hc; try done. lia.
Qed.

Lemma EchoPacket_codec_witness :
  let p := {| echo_reply := false; echo_identifier := 2; echo_sequence := 3;
              echo_payload := [112; 105; 110; 103] |} in
  exists out', EchoPacket_encode p (replicate 12 7) = Ok (12%nat, out') /\
    drop 12 out' = drop 12 (replicate 12 7) /\ EchoPacket_decode (take 12 out') = Ok p.
Proof.
  intros p. apply (EchoPacket_codec p (replicate 12 7)).
  - split_and!; cbn; [done | done | solve_bytes].
  - done.
  - cbn. lia.
Defined.
