(* ===== verification/Route.v ===== *)
(** * Next-hop selection ([network-stack/src/route.rs]) *)

From S2P Require Import Prelude.

(** ** The code *)

Record Ipv4Config := {
  cfg_address : list Z;
  cfg_subnet_mask : list Z;
  cfg_gateway : list Z;
  cfg_dns : list Z;
}.

(** [u32::from_be_bytes] of a [[u8; 4]]. *)
Definition u32_of_array (a : list Z) : Z :=
  match a with [b0; b1; b2; b3] => u32_from_be b0 b1 b2 b3 | _ => 0 end.

Definition next_hop (config : Ipv4Config) (destination : list Z) : option (list Z) :=
  if bool_decide (cfg_subnet_mask config = replicate 4 0) || bool_decide (cfg_address config = replicate 4 0)
  then None else
  let local := u32_of_array (cfg_address config) in
  let dest := u32_of_array destination in
  let mask := u32_of_array (cfg_subnet_mask config) in
  if Z.land local mask =? Z.land dest mask then Some destination
  else if bool_decide (cfg_gateway config <> replicate 4 0) then Some (cfg_gateway config)
  else None.

(** ** Reference: prefixes as networks *)

(** Two addresses agree on every bit that the mask sets. *)
Definition same_network (mask a b : Z) : Prop :=
  forall i, 0 <= i -> Z.testbit mask i = true -> Z.testbit a i = Z.testbit b i.

Lemma land_same_network mask a b : Z.land a mask = Z.land b mask <-> same_network mask a b.
Proof.
  split.
  - intros Heq i Hi Hm. apply (f_equal (fun z => Z.testbit z i)) in Heq.
    by rewrite !Z.land_spec, Hm, !andb_true_r in Heq.
  - intros Hs. apply Z.bits_inj'. intros i Hi. rewrite !Z.land_spec.
    destruct (Z.testbit mask i) eqn:Hm; [by rewrite Hs | by rewrite !andb_false_r].
Qed.

(** A configured interface sends to the destination itself exactly when the two share
    the network prefix selected by the mask, otherwise to the gateway when one is set; an
    unconfigured interface routes nothing.  Consequently a next hop is always the
    destination or the gateway, and choosing it again for the hop changes nothing
    when the gateway is on the link. *)
Theorem next_hop_spec c d
    (Hmask : cfg_subnet_mask c <> replicate 4 0) (Haddr : cfg_address c <> replicate 4 0) :
  let on_link x := same_network (u32_of_array (cfg_subnet_mask c)) (u32_of_array (cfg_address c))
                     (u32_of_array x) in
  (on_link d -> next_hop c d = Some d) /\
  (~ on_link d -> cfg_gateway c <> replicate 4 0 -> next_hop c d = Some (cfg_gateway c)) /\
  (~ on_link d -> cfg_gateway c = replicate 4 0 -> next_hop c d = None) /\
  (forall h, on_link (cfg_gateway c) -> next_hop c d = Some h -> next_hop c h = Some h).
Proof.
  intros on_link.
  assert (forall x, next_hop c x =
    if Z.land (u32_of_array (cfg_address c)) (u32_of_array (cfg_subnet_mask c))
       =? Z.land (u32_of_array x) (u32_of_array (cfg_subnet_mask c))
    then Some x else if bool_decide (cfg_gateway c <> replicate 4 0) then Some (cfg_gateway c) else None)
    as Hn.
  { intros x. unfold next_hop. by rewrite !bool_decide_false by done. }
  assert (forall x, on_link x <->
    Z.land (u32_of_array (cfg_address c)) (u32_of_array (cfg_subnet_mask c))
    = Z.land (u32_of_array x) (u32_of_array (cfg_subnet_mask c))) as Hon.
  { intros x. by rewrite land_same_network. }
  split_and!; intros; rewrite !Hn in *; rewrite ?Hon in *.
  - by rewrite (proj2 (Z.eqb_eq _ _)).
  - rewrite (proj2 (Z.eqb_neq _ _)) by done. by rewrite bool_decide_true.
  - rewrite (proj2 (Z.eqb_neq _ _)) by done. rewrite bool_decide_false; naive_solver.
  - destruct (Z.eqb_spec (Z.land (u32_of_array (cfg_address c)) (u32_of_array (cfg_subnet_mask c)))
        (Z.land (u32_of_array d) (u32_of_array (cfg_subnet_mask c)))) as [He|He].
    + simplify_eq. by rewrite (proj2 (Z.eqb_eq _ _)).
    + case_bool_decide; simplify_eq. by rewrite (proj2 (Z.eqb_eq _ _)).
Qed.

Lemma next_hop_spec_witness :
  let c := {| cfg_address := [10;0;2;15]; cfg_subnet_mask := [255;255;255;0];
              cfg_gateway := [10;0;2;2]; cfg_dns := [10;0;2;3] |} in
  next_hop c [8;8;8;8] = Some [10;0;2;2].
Proof.
  intros c. apply (next_hop_spec c [8;8;8;8]); [done | done | | done].
  intros H. specialize (H 9 ltac:(lia) eq_refl). vm_compute in H. discriminate.
Defined.
