(* ===== verification/Udp.v ===== *)
(** * UDP datagrams ([network-stack/src/udp.rs], codec part)

    The checksum loop of this module adds with plain [+]; its overflow is a panic
    of the checked build, and the theorems show that it cannot happen. *)

From S2P Require Import Prelude Packet Checksum.

(** ** The code *)

Record UdpDatagram := {
  dg_source_port : Z;
  dg_destination_port : Z;
  dg_payload : list Z;
}.

Fixpoint partial_loop (sum : Z) (b : list Z) : result PacketError Z :=
  match b with
  | x :: y :: rest => let? sum := add32 sum (u16_from_be x y) in partial_loop sum rest
  | [x] => add32 sum (Z.shiftl x 8)
  | [] => Ok sum
  end.

Definition partial (b : list Z) : result PacketError Z := partial_loop 0 b.

Definition checksum_parts_valid (a b : list Z) : result PacketError bool :=
  let? pa := partial a in
  let? pb := partial b in
  let? sum := add32 pa pb in
  Ok (finish_sum sum =? 0).

(** The twelve bytes of [pseudo], filled by [decode] and [encode] alike. *)
Definition udp_pseudo (source destination : list Z) (len16 : Z) : result PacketError (list Z) :=
  let pseudo := replicate 12 0 in
  let? pseudo := copy_into pseudo 0 4 source in
  let? pseudo := copy_into pseudo 4 8 destination in
  let? pseudo := set_idx pseudo 9 17 in
  copy_into pseudo 10 12 (u16_to_be len16).

Definition UdpDatagram_decode (source destination b : list Z) : result PacketError UdpDatagram :=
  if (length b <? 8)%nat then Err Truncated else
  let? b4 := idx b 4 in let? b5 := idx b 5 in
  let len := Z.to_nat (u16_from_be b4 b5) in
  if (len <? 8)%nat || (length b <? len)%nat then Err InvalidLength else
  let? b6 := idx b 6 in let? b7 := idx b 7 in
  let received := u16_from_be b6 b7 in
  let? _ :=
    (if negb (received =? 0) then
       let? pseudo := udp_pseudo source destination (Z.of_nat len) in
       let? s := slice b 0 len in
       let? valid := checksum_parts_valid pseudo s in
       if negb valid then Err InvalidChecksum else Ok tt
     else Ok tt) in
  let? b0 := idx b 0 in let? b1 := idx b 1 in
  let? b2 := idx b 2 in let? b3 := idx b 3 in
  let? payload := slice b 8 len in
  Ok {| dg_source_port := u16_from_be b0 b1; dg_destination_port := u16_from_be b2 b3;
        dg_payload := payload |}.

Definition UdpDatagram_encode (self : UdpDatagram) (source destination out : list Z)
    : result PacketError (nat * list Z) :=
  let? len := ok_or (checked_add 8 (length (dg_payload self))) InvalidLength in
  let? len16 := ok_or (try_u16 len) InvalidLength in
  if (length out <? len)%nat then Err Truncated else
  let? out := fill out 0 8 0 in
  let? out := copy_into out 0 2 (u16_to_be (dg_source_port self)) in
  let? out := copy_into out 2 4 (u16_to_be (dg_destination_port self)) in
  let? out := copy_into out 4 6 (u16_to_be len16) in
  let? out := copy_into out 8 len (dg_payload self) in
  let? pseudo := udp_pseudo source destination len16 in
  let? pa := partial pseudo in
  let? s := slice out 0 len in
  let? pb := partial s in
  let? sum := add32 pa pb in
  let c := finish_sum sum in
  let c := if c =? 0 then 65535 else c in
  let? out := copy_into out 6 8 (u16_to_be c) in
  Ok (len, out).

(** ** The summing loop *)

Lemma partial_loop_sum s b :
  bytes b -> 0 <= s -> s + word_sum b <= U32_MAX -> partial_loop s b = Ok (s + word_sum b).
Proof.
  revert s. induction b as [|x|x y b IH] using pair_ind; intros s Hb Hs Hlt.
  - cbn. f_equal. lia.
  - apply Forall_cons in Hb as [Hx _]. cbn [partial_loop word_sum] in *. unfold add32.
    rewrite Z.shiftl_mul_pow2 by lia. change (2 ^ 8) with 256. by rewrite (proj2 (Z.leb_le _ _)).
  - apply Forall_cons in Hb as [Hx [Hy Hb]%Forall_cons].
    pose proof (u16_from_be_range x y Hx Hy). pose proof (word_sum_nonneg b Hb).
    cbn [partial_loop word_sum] in *. unfold add32.
    rewrite (proj2 (Z.leb_le _ _)) by lia. rewrite IH by (done || widths; lia). f_equal. lia.
Qed.

Lemma partial_sum b :
  bytes b -> Z.of_nat (length b) <= 131074 -> partial b = Ok (word_sum b).
Proof.
  intros Hb Hl. unfold partial. rewrite partial_loop_sum; [done | done | lia |].
  pose proof (word_sum_u32 b Hb Hl). widths. lia.
Qed.

(** Two parts that together stay short of the [u32] bound, summed as the code does. *)
Lemma partial_parts a b :
  bytes a -> bytes b -> Z.of_nat (length a) + Z.of_nat (length b) <= 131072 ->
  partial a = Ok (word_sum a) /\ partial b = Ok (word_sum b) /\
  add32 (E := PacketError) (word_sum a) (word_sum b) = Ok (word_sum a + word_sum b) /\
  is_u32 (word_sum a + word_sum b).
Proof.
  intros Ha Hb Hl. pose proof (word_sum_range a Ha). pose proof (word_sum_range b Hb).
  rewrite !partial_sum by (done || lia).
  assert (is_u32 (word_sum a + word_sum b)) as Hu by divlia.
  split_and!; try done. unfold add32. by rewrite (proj2 (Z.leb_le _ _)) by (widths; lia).
Qed.

Lemma checksum_parts_valid_spec a b :
  bytes a -> bytes b -> Z.of_nat (length a) + Z.of_nat (length b) <= 131072 ->
  checksum_parts_valid a b =
  Ok (bool_decide (0 < word_sum a + word_sum b /\ (word_sum a + word_sum b) mod 65535 = 0)).
Proof.
  intros Ha Hb Hl. destruct (partial_parts a b Ha Hb Hl) as (H1 & H2 & H3 & H4).
  unfold checksum_parts_valid. rewrite H1, H2, H3. f_equal.
  apply eq_true_iff_eq. rewrite Z.eqb_eq, bool_decide_eq_true. by apply finish_sum_zero.
Qed.

(** ** Wire format *)

Definition dg_wf (d : UdpDatagram) : Prop :=
  is_u16 (dg_source_port d) /\ is_u16 (dg_destination_port d) /\ bytes (dg_payload d).

Definition udp_pseudo_wire (source destination : list Z) (n : nat) : list Z :=
  source ++ destination ++ [0; 17] ++ u16_to_be (Z.of_nat n).

Definition udp_len (d : UdpDatagram) : nat := (8 + length (dg_payload d))%nat.

Definition udp_pre (d : UdpDatagram) : list Z :=
  u16_to_be (dg_source_port d) ++ u16_to_be (dg_destination_port d) ++ u16_to_be (Z.of_nat (udp_len d)).

(** The checksum the encoder writes: zero is sent as all ones. *)
Definition udp_sum (source destination : list Z) (d : UdpDatagram) : Z :=
  let c := finish_sum (word_sum (udp_pseudo_wire source destination (udp_len d))
                       + word_sum (udp_pre d ++ 0 :: 0 :: dg_payload d)) in
  if c =? 0 then 65535 else c.

Definition udp_wire (source destination : list Z) (d : UdpDatagram) : list Z :=
  udp_pre d ++ u16_to_be (udp_sum source destination d) ++ dg_payload d.

Section Addresses.
Context (source destination : list Z) (Hs : arr 4 source) (Hd : arr 4 destination).

Lemma udp_pseudo_ok n : udp_pseudo source destination (Z.of_nat n) = Ok (udp_pseudo_wire source destination n).
Proof using Hs Hd.
  unfold udp_pseudo, udp_pseudo_wire. explode_arr Hs. explode_arr Hd. done.
Qed.

Lemma udp_pseudo_wire_arr n : arr 12 (udp_pseudo_wire source destination n).
Proof using Hs Hd.
  destruct Hs as [Hs1 Hs2], Hd as [Hd1 Hd2]. unfold udp_pseudo_wire, arr.
  rewrite !length_app, Hs1, Hd1. split; [done | solve_bytes].
Qed.

Lemma udp_wire_length d : length (udp_wire source destination d) = udp_len d.
Proof. unfold udp_wire, udp_pre, udp_len. by rewrite !length_app. Qed.

Lemma udp_sum_u16 d :
  dg_wf d -> is_u16 (Z.of_nat (udp_len d)) -> is_u16 (udp_sum source destination d) /\ udp_sum source destination d <> 0.
Proof using Hs Hd.
  intros (_ & _ & Hp) Hl. unfold udp_sum. destruct (udp_pseudo_wire_arr (udp_len d)) as [Hpl Hpb].
  destruct (partial_parts (udp_pseudo_wire source destination (udp_len d))
              (udp_pre d ++ 0 :: 0 :: dg_payload d)) as (_ & _ & _ & Hu); [done | | |].
  - unfold udp_pre. solve_bytes.
  - rewrite Hpl, length_app. unfold udp_len, udp_pre in *. cbn [length app u16_to_be] in *. widths. lia.
  - pose proof (finish_sum_u16 _ Hu) as Hf. destruct (finish_sum _ =? 0) eqn:?; bool_cases; [|done].
    widths. lia.
Qed.

(** The written datagram verifies against its pseudo header. *)
Lemma udp_wire_valid d :
  dg_wf d -> is_u16 (Z.of_nat (udp_len d)) ->
  checksum_parts_valid (udp_pseudo_wire source destination (udp_len d)) (udp_wire source destination d)
  = Ok true.
Proof using Hs Hd.
  intros Hwf Hl. destruct (udp_sum_u16 d Hwf Hl) as [Hsu Hs0]. destruct Hwf as (_ & _ & Hp).
  destruct (udp_pseudo_wire_arr (udp_len d)) as [Hpl Hpb].
  assert (bytes (udp_wire source destination d)) by (unfold udp_wire, udp_pre; solve_bytes).
  rewrite checksum_parts_valid_spec by (done || rewrite Hpl, udp_wire_length; widths; lia).
  rewrite bool_decide_true; [done |].
  assert (Nat.Even (length (udp_pre d))) as He by (by exists 3%nat).
  assert (word_sum (udp_wire source destination d) =
    word_sum (udp_pre d ++ 0 :: 0 :: dg_payload d) + udp_sum source destination d) as ->.
  { unfold udp_wire. rewrite (word_sum_app _ (_ ++ _) He), (word_sum_app _ (_ :: _) He).
    rewrite word_sum_u16_to_be by done. cbn [word_sum]. unfold u16_from_be. lia. }
  destruct (partial_parts (udp_pseudo_wire source destination (udp_len d))
              (udp_pre d ++ 0 :: 0 :: dg_payload d)) as (_ & _ & _ & Hu); [done | | |].
  { unfold udp_pre. solve_bytes. }
  { rewrite Hpl, length_app. unfold udp_len, udp_pre in *. cbn [length app u16_to_be] in *. widths. lia. }
  destruct (finish_sum_complement _ Hu) as [Hc1 Hc2]. pose proof (finish_sum_u16 _ Hu) as Hf.
  rewrite Z.add_assoc. unfold udp_sum in *. revert Hc1 Hc2 Hs0 Hf Hu.
  generalize (word_sum (udp_pseudo_wire source destination (udp_len d))
              + word_sum (udp_pre d ++ 0 :: 0 :: dg_payload d)).
  intros t. generalize (finish_sum t). intros f. destruct (Z.eqb_spec f 0) as [->|]; intros; divlia.
Qed.

End Addresses.

(** ** Behaviour of the codec *)

Lemma udp_encode_wire d source destination out :
  arr 4 source -> arr 4 destination -> dg_wf d -> is_u16 (Z.of_nat (udp_len d)) ->
  (udp_len d <= length out)%nat ->
  UdpDatagram_encode d source destination out =
    Ok (udp_len d, udp_wire source destination d ++ drop (udp_len d) out).
Proof.
  intros Hs Hd Hwf Hu Hl. destruct (udp_pseudo_wire_arr source destination Hs Hd (udp_len d)) as [Hpl Hpb].
  destruct (partial_parts (udp_pseudo_wire source destination (udp_len d))
              (udp_pre d ++ 0 :: 0 :: dg_payload d)) as (H1 & H2 & H3 & _); [done | | |].
  { destruct Hwf as (_ & _ & Hp). unfold udp_pre. solve_bytes. }
  { rewrite Hpl, length_app. unfold udp_len, udp_pre in *. cbn [length app u16_to_be] in *. widths. lia. }
  unfold UdpDatagram_encode, udp_wire, udp_sum.
  rewrite checked_add_small by (unfold udp_len in *; widths; lia). cbn [ok_or].
  fold (udp_len d). rewrite (proj2 (try_u16_Some _ (Z.of_nat (udp_len d)))) by done. cbn [ok_or].
  rewrite (proj2 (Nat.ltb_ge _ _)) by done. rewrite udp_pseudo_ok by done.
  rewrite H1. clear Hpl Hpb H1. revert H2 H3.
  generalize (word_sum (udp_pseudo_wire source destination (udp_len d))). intros ps H2 H3.
  rewrite fill_prefix by (unfold udp_len in *; lia).
  unfold udp_len in Hl |- *. rewrite <- (drop_drop out (length (dg_payload d)) 8).
  assert (length (dg_payload d) <= length (drop 8 out))%nat as Hr by (rewrite length_drop; lia).
  revert Hr. generalize (drop 8 out). intros rest Hr. clear Hl out.
  destruct d as [sp dp pl]. unfold udp_pre, udp_len in *.
  cbn [dg_source_port dg_destination_port dg_payload] in *.
  revert H2 H3. generalize (Z.of_nat (8 + length pl)). intros L H2 H3.
  cbn -[partial finish_sum slice word_sum]. rewrite ?copy_into_cons, copy_into_head by done.
  cbn -[partial finish_sum slice word_sum].
  assert (slice (E := PacketError)
    (sp / 256 mod 256 :: sp mod 256 :: dp / 256 mod 256 :: dp mod 256 :: L / 256 mod 256 :: L mod 256
       :: 0 :: 0 :: pl ++ drop (length pl) rest) 0 (8 + length pl)
    = Ok (u16_to_be sp ++ u16_to_be dp ++ u16_to_be L ++ 0 :: 0 :: pl)) as Hslice
    by apply (slice_prefix (u16_to_be sp ++ u16_to_be dp ++ u16_to_be L ++ 0 :: 0 :: pl)).
  cbn -[slice] in Hslice. rewrite Hslice. cbn -[partial word_sum] in H2, H3.
  rewrite H2, H3. done.
Qed.

Lemma udp_decode_wire d source destination pad :
  arr 4 source -> arr 4 destination -> dg_wf d -> is_u16 (Z.of_nat (udp_len d)) ->
  UdpDatagram_decode source destination (udp_wire source destination d ++ pad) = Ok d.
Proof.
  intros Hs Hd Hwf Hu. pose proof (udp_wire_valid _ _ Hs Hd d Hwf Hu) as Hv.
  destruct (udp_sum_u16 _ _ Hs Hd d Hwf Hu) as [Hc Hc0].
  pose proof (udp_wire_length source destination d) as Hl.
  pose proof (udp_pseudo_ok _ _ Hs Hd (udp_len d)) as Hps.
  pose proof (slice_prefix (E := PacketError) (udp_wire source destination d) pad) as Hsl.
  unfold UdpDatagram_decode. rewrite (proj2 (Nat.ltb_ge _ _)) by (rewrite length_app, Hl; unfold udp_len; lia).
  assert ((length (udp_wire source destination d ++ pad) <? udp_len d)%nat = false) as Hge
    by (apply Nat.ltb_ge; rewrite length_app; lia).
  rewrite Hl in Hsl. clear Hl. revert Hv Hge Hps Hsl Hc Hc0. unfold udp_wire.
  generalize (udp_sum source destination d) (udp_pseudo_wire source destination (udp_len d)).
  intros c ps Hv Hge Hps Hsl Hc Hc0.
  destruct Hwf as (Hsp & Hdp & _). destruct d as [sp dp pl]. cbn [dg_source_port dg_destination_port dg_payload] in *.
  unfold udp_pre in *. cbn [dg_source_port dg_destination_port dg_payload] in *.
  assert (8 <= udp_len {| dg_source_port := sp; dg_destination_port := dp; dg_payload := pl |})%nat as H8
    by (unfold udp_len; lia).
  assert (udp_len {| dg_source_port := sp; dg_destination_port := dp; dg_payload := pl |} = 8 + length pl)%nat
    as Hn by done.
  revert Hu Hv Hge Hps Hsl H8 Hn. generalize (udp_len {| dg_source_port := sp; dg_destination_port := dp; dg_payload := pl |}).
  intros n Hu Hv Hge Hps Hsl H8 Hn.
  cbn -[checksum_parts_valid slice Nat.ltb] in *. rewrite !u16_be_roundtrip, Nat2Z.id by done.
  rewrite (proj2 (Nat.ltb_ge n 8)), Hge by done. cbn -[checksum_parts_valid slice Nat.ltb].
  rewrite (proj2 (Z.eqb_neq c 0)), Hps, Hsl, Hv by done. cbn -[slice]. subst n.
  cbn -[slice]. by rewrite !slice_cons, slice_prefix.
Qed.

(** No input makes the decoder panic; in particular the [u32] sums of the
    checksum never overflow, whatever length field the packet carries. *)
Lemma udp_decode_no_panic source destination b :
  arr 4 source -> arr 4 destination -> bytes b -> UdpDatagram_decode source destination b <> Panic.
Proof.
  intros Hs Hd Hb. unfold UdpDatagram_decode.
  destruct (Nat.ltb_spec (length b) 8) as [?|Hl]; [done |].
  destruct (idx_in (E := PacketError) b 4 ltac:(lia)) as (b4 & -> & H4).
  destruct (idx_in (E := PacketError) b 5 ltac:(lia)) as (b5 & -> & H5).
  destruct (idx_in (E := PacketError) b 6 ltac:(lia)) as (b6 & -> & _).
  destruct (idx_in (E := PacketError) b 7 ltac:(lia)) as (b7 & -> & _).
  destruct (_ || _) eqn:Hc; [done |]. bool_cases.
  pose proof (u16_from_be_range b4 b5 (bytes_lookup _ _ _ Hb H4) (bytes_lookup _ _ _ Hb H5)) as Hu.
  revert Hu H H0. generalize (u16_from_be b4 b5). intros len Hu Hmin Hmax.
  destruct (idx_in (E := PacketError) b 0 ltac:(lia)) as (b0 & -> & _).
  destruct (idx_in (E := PacketError) b 1 ltac:(lia)) as (b1 & -> & _).
  destruct (idx_in (E := PacketError) b 2 ltac:(lia)) as (b2 & -> & _).
  destruct (idx_in (E := PacketError) b 3 ltac:(lia)) as (b3 & -> & _).
  rewrite udp_pseudo_ok, !slice_in by (done || lia).
  destruct (udp_pseudo_wire_arr _ _ Hs Hd (Z.to_nat len)) as [Hpl Hpb].
  rewrite checksum_parts_valid_spec; [by repeat case_match | done | solve_bytes |].
  rewrite Hpl, length_take. widths. lia.
Qed.

(** A datagram survives the trip through any large enough buffer, with the
    checksum over the pseudo header written and verified (a zero sum is sent as all ones,
    so verification is never skipped) and trailing padding ignored; bytes behind
    the datagram are unchanged.  The decoder is total on arbitrary bytes. *)
Theorem UdpDatagram_roundtrip d source destination out pad
    (Hs : arr 4 source) (Hd : arr 4 destination) (Hwf : dg_wf d)
    (Hu : is_u16 (Z.of_nat (udp_len d))) (Hout : (udp_len d <= length out)%nat) :
  (exists out', UdpDatagram_encode d source destination out = Ok (udp_len d, out') /\
     drop (udp_len d) out' = drop (udp_len d) out /\
     take 2 (drop 6 out') <> [0; 0] /\
     UdpDatagram_decode source destination (take (udp_len d) out' ++ pad) = Ok d) /\
  (forall b, bytes b -> UdpDatagram_decode source destination b <> Panic).
Proof.
  split; [|intros; by apply udp_decode_no_panic].
  rewrite udp_encode_wire by done. eexists. split_and!; [done | | |].
  - rewrite drop_app_ge; rewrite udp_wire_length; [|done]. by rewrite Nat.sub_diag.
  - destruct (udp_sum_u16 _ _ Hs Hd d Hwf Hu) as [Hc Hc0]. cbn. intros [= H1 H2]. revert H1 H2.
    divlia.
  - rewrite take_app_le, take_ge by (by rewrite udp_wire_length). by apply udp_decode_wire.
Qed.

Lemma UdpDatagram_roundtrip_witness :
  let d := {| dg_source_port := 68; dg_destination_port := 67; dg_payload := [1; 2; 3] |} in
  exists out', UdpDatagram_encode d [10;0;2;15] [255;255;255;255] (replicate 16 7) = Ok (11%nat, out') /\
    drop 11 out' = drop 11 (replicate 16 7) /\ take 2 (drop 6 out') <> [0; 0] /\
    UdpDatagram_decode [10;0;2;15] [255;255;255;255] (take 11 out' ++ [9]) = Ok d.
Proof.
  intros d. apply (UdpDatagram_roundtrip d [10;0;2;15] [255;255;255;255] (replicate 16 7) [9]).
  - split; [done | solve_bytes].
  - split; [done | solve_bytes].
  - split_and!; cbn; [done | done | solve_bytes].
  - done.
  - cbn. lia.
Defined.
