(* ===== verification/UdpTable.v ===== *)
(** * The UDP socket table ([network-stack/src/udp.rs], table part)

    The table is modelled with its vector of bindings in the order the code keeps
    it ([swap_remove] included).  Allocation outcomes are a parameter: every theorem
    holds whether or not a reservation succeeds.  The abstract view is a finite
    map from socket identities to bindings. *)

From Stdlib Require Import Sorted.
From stdpp Require Import gmap.
From S2P Require Import Prelude Packet Udp.

(** ** The code *)

Definition EPHEMERAL_PORT_START : Z := 49152.
Definition EPHEMERAL_PORT_END : Z := 65535.

Record UdpPacket := {
  up_source_address : list Z;
  up_destination_address : list Z;
  up_source_port : Z;
  up_destination_port : Z;
  up_payload : list Z;
}.

Record UdpEndpoint := {
  ep_address : list Z;
  ep_port : Z;
}.

#[export] Instance UdpEndpoint_eq_dec : EqDecision UdpEndpoint.
Proof. solve_decision. Defined.

Definition UNSPECIFIED : list Z := replicate 4 0.

Definition overlaps (self other : UdpEndpoint) : bool :=
  (ep_port self =? ep_port other)
  && (bool_decide (ep_address self = UNSPECIFIED) || bool_decide (ep_address other = UNSPECIFIED)
      || bool_decide (ep_address self = ep_address other)).

Record UdpBinding := {
  ub_id : Z;
  ub_local : UdpEndpoint;
  ub_peer : option UdpEndpoint;
  ub_received : list UdpPacket;
}.

Record UdpSocketTable := {
  ut_bindings : list UdpBinding;
  ut_socket_limit : Z;
  ut_queue_limit : Z;
  ut_payload_limit : Z;
  ut_next_ephemeral : Z;
  ut_next_id : Z;
}.

Definition UdpSocketTable_new (socket_limit queue_limit payload_limit : Z) : UdpSocketTable :=
  {| ut_bindings := []; ut_socket_limit := socket_limit; ut_queue_limit := queue_limit;
     ut_payload_limit := payload_limit; ut_next_ephemeral := EPHEMERAL_PORT_START; ut_next_id := 1 |}.

Definition with_bindings (t : UdpSocketTable) (bs : list UdpBinding) : UdpSocketTable :=
  {| ut_bindings := bs; ut_socket_limit := ut_socket_limit t; ut_queue_limit := ut_queue_limit t;
     ut_payload_limit := ut_payload_limit t; ut_next_ephemeral := ut_next_ephemeral t;
     ut_next_id := ut_next_id t |}.

Definition with_next_ephemeral (t : UdpSocketTable) (p : Z) : UdpSocketTable :=
  {| ut_bindings := ut_bindings t; ut_socket_limit := ut_socket_limit t;
     ut_queue_limit := ut_queue_limit t; ut_payload_limit := ut_payload_limit t;
     ut_next_ephemeral := p; ut_next_id := ut_next_id t |}.

Definition with_next_id (t : UdpSocketTable) (i : Z) : UdpSocketTable :=
  {| ut_bindings := ut_bindings t; ut_socket_limit := ut_socket_limit t;
     ut_queue_limit := ut_queue_limit t; ut_payload_limit := ut_payload_limit t;
     ut_next_ephemeral := ut_next_ephemeral t; ut_next_id := i |}.

Definition conflicts (self : UdpSocketTable) (local : UdpEndpoint) : bool :=
  existsb (fun binding => overlaps (ub_local binding) local) (ut_bindings self).

(** The [for _ in 0..count] loop of [allocate_ephemeral]. *)
Fixpoint ephemeral_loop (count : nat) (self : UdpSocketTable) (address : list Z)
    : UdpSocketTable * option Z :=
  match count with
  | O => (self, None)
  | S count =>
      let candidate := ut_next_ephemeral self in
      let self := with_next_ephemeral self
        (if candidate =? EPHEMERAL_PORT_END then EPHEMERAL_PORT_START else candidate + 1) in
      if negb (conflicts self {| ep_address := address; ep_port := candidate |})
      then (self, Some candidate)
      else ephemeral_loop count self address
  end.

Definition EPHEMERAL_COUNT : nat := Z.to_nat (EPHEMERAL_PORT_END - EPHEMERAL_PORT_START + 1).

Definition allocate_ephemeral (self : UdpSocketTable) (address : list Z) : UdpSocketTable * option Z :=
  ephemeral_loop EPHEMERAL_COUNT self address.

Section Allocator.
(** Whether a reservation for so many further elements succeeds. *)
Variable try_reserve : Z -> bool.

Definition bind_endpoint (self : UdpSocketTable) (address : list Z) (requested_port : Z)
    : UdpSocketTable * result PacketError Z :=
  if (ut_socket_limit self <=? Z.of_nat (length (ut_bindings self)))
     || (ut_next_id self =? U64_MAX)
  then (self, Err Capacity) else
  let '(self, port) :=
    (if requested_port =? 0 then
       let '(self, p) := allocate_ephemeral self address in (self, ok_or p Capacity)
     else if conflicts self {| ep_address := address; ep_port := requested_port |}
          then (self, Err Mismatch)
          else (self, Ok requested_port)) in
  match port with
  | Err e => (self, Err e)
  | Panic => (self, Panic)
  | Ok port =>
      if negb (try_reserve 1) then (self, Err Capacity) else
      if negb (try_reserve (ut_queue_limit self)) then (self, Err Capacity) else
      let id := ut_next_id self in
      let binding := {| ub_id := id; ub_local := {| ep_address := address; ep_port := port |};
                        ub_peer := None; ub_received := [] |} in
      (with_next_id (with_bindings self (ut_bindings self ++ [binding])) (ut_next_id self + 1), Ok id)
  end.

Definition find_binding (self : UdpSocketTable) (id : Z) : option (nat * UdpBinding) :=
  list_find (fun b => ub_id b = id) (ut_bindings self).

Definition binding (self : UdpSocketTable) (id : Z) : result PacketError UdpBinding :=
  ok_or (snd <$> find_binding self id) Mismatch.

Definition local_endpoint (self : UdpSocketTable) (id : Z) : result PacketError UdpEndpoint :=
  let? b := binding self id in Ok (ub_local b).

Definition peer (self : UdpSocketTable) (id : Z) : result PacketError (option UdpEndpoint) :=
  let? b := binding self id in Ok (ub_peer b).

Definition udp_bind (self : UdpSocketTable) (requested_port : Z)
    : UdpSocketTable * result PacketError Z :=
  let '(self, r) := bind_endpoint self UNSPECIFIED requested_port in
  (self, let? id := r in let? l := local_endpoint self id in Ok (ep_port l)).

Definition set_peer (self : UdpSocketTable) (id : Z) (p : option UdpEndpoint)
    : UdpSocketTable * result PacketError unit :=
  match find_binding self id with
  | None => (self, Err Mismatch)
  | Some (i, b) =>
      (with_bindings self
         (<[i := {| ub_id := ub_id b; ub_local := ub_local b; ub_peer := p;
                    ub_received := ub_received b |}]> (ut_bindings self)), Ok tt)
  end.

Definition unbind_endpoint (self : UdpSocketTable) (id : Z) : UdpSocketTable * bool :=
  match find_binding self id with
  | None => (self, false)
  | Some (index, _) => (with_bindings self (swap_remove index (ut_bindings self)), true)
  end.

Definition wildcard_id (self : UdpSocketTable) (port : Z) : option Z :=
  (fun ib => ub_id (snd ib)) <$>
    list_find (fun b => ub_local b = {| ep_address := UNSPECIFIED; ep_port := port |}) (ut_bindings self).

Definition unbind (self : UdpSocketTable) (port : Z) : UdpSocketTable * bool :=
  match wildcard_id self port with
  | Some id => unbind_endpoint self id
  | None => (self, false)
  end.

(** The binding a datagram is addressed to. *)
Definition addressed (destination_address : list Z) (port : Z) (b : UdpBinding) : Prop :=
  ep_port (ub_local b) = port /\
  (ep_address (ub_local b) = UNSPECIFIED \/ ep_address (ub_local b) = destination_address).

#[export] Instance addressed_dec a p b : Decision (addressed a p b).
Proof. unfold addressed. apply _. Defined.

Definition enqueue (self : UdpSocketTable) (source_address destination_address : list Z)
    (datagram : UdpDatagram) : UdpSocketTable * result PacketError unit :=
  if ut_payload_limit self <? Z.of_nat (length (dg_payload datagram)) then (self, Err Capacity) else
  match list_find (addressed destination_address (dg_destination_port datagram)) (ut_bindings self) with
  | None => (self, Err Mismatch)
  | Some (i, b) =>
      if match ub_peer b with
         | Some peer => bool_decide (ep_address peer <> source_address)
                        || negb (ep_port peer =? dg_source_port datagram)
         | None => false
         end
      then (self, Err Mismatch) else
      if ut_queue_limit self <=? Z.of_nat (length (ub_received b)) then (self, Err Capacity) else
      if negb (try_reserve (Z.of_nat (length (dg_payload datagram)))) then (self, Err Capacity) else
      let packet := {| up_source_address := source_address;
                       up_destination_address := destination_address;
                       up_source_port := dg_source_port datagram;
                       up_destination_port := dg_destination_port datagram;
                       up_payload := dg_payload datagram |} in
      (with_bindings self
         (<[i := {| ub_id := ub_id b; ub_local := ub_local b; ub_peer := ub_peer b;
                    ub_received := ub_received b ++ [packet] |}]> (ut_bindings self)), Ok tt)
  end.

Definition receive_for (self : UdpSocketTable) (id : Z)
    : UdpSocketTable * result PacketError (option UdpPacket) :=
  match find_binding self id with
  | None => (self, Err Mismatch)
  | Some (i, b) =>
      (with_bindings self
         (<[i := {| ub_id := ub_id b; ub_local := ub_local b; ub_peer := ub_peer b;
                    ub_received := tail (ub_received b) |}]> (ut_bindings self)),
       Ok (head (ub_received b)))
  end.

Definition peek_for (self : UdpSocketTable) (id : Z) : result PacketError (option UdpPacket) :=
  let? b := binding self id in Ok (head (ub_received b)).

Definition queued_for (self : UdpSocketTable) (id : Z) : result PacketError Z :=
  let? b := binding self id in Ok (Z.of_nat (length (ub_received b))).

Definition udp_receive (self : UdpSocketTable) (port : Z) : UdpSocketTable * option UdpPacket :=
  match wildcard_id self port with
  | None => (self, None)
  | Some id =>
      let '(self, r) := receive_for self id in
      (self, match r with Ok (Some p) => Some p | _ => None end)
  end.

Definition queued (self : UdpSocketTable) (port : Z) : Z :=
  match wildcard_id self port with
  | None => 0
  | Some id => match queued_for self id with Ok n => n | _ => 0 end
  end.

End Allocator.

(** ** Invariant *)

Definition binding_ok (t : UdpSocketTable) (b : UdpBinding) : Prop :=
  1 <= ub_id b < ut_next_id t /\
  1 <= ep_port (ub_local b) <= 65535 /\
  Z.of_nat (length (ub_received b)) <= ut_queue_limit t /\
  forall p, p ∈ ub_received b ->
    Z.of_nat (length (up_payload p)) <= ut_payload_limit t /\
    addressed (up_destination_address p) (up_destination_port p) b.

Definition udp_inv (t : UdpSocketTable) : Prop :=
  Z.of_nat (length (ut_bindings t)) <= ut_socket_limit t /\
  1 <= ut_next_id t <= U64_MAX /\
  EPHEMERAL_PORT_START <= ut_next_ephemeral t <= EPHEMERAL_PORT_END /\
  0 <= ut_queue_limit t /\
  NoDup (ub_id <$> ut_bindings t) /\
  (forall b, b ∈ ut_bindings t -> binding_ok t b) /\
  (forall b1 b2, b1 ∈ ut_bindings t -> b2 ∈ ut_bindings t -> ub_id b1 <> ub_id b2 ->
     overlaps (ub_local b1) (ub_local b2) = false).

(** The abstract view: which sockets exist, with what endpoints and queues. *)
Definition udp_abs (t : UdpSocketTable) : gmap Z UdpBinding :=
  list_to_map ((fun b => (ub_id b, b)) <$> ut_bindings t).

(** ** Lookup *)

Lemma find_binding_Some t id i b :
  find_binding t id = Some (i, b) -> ut_bindings t !! i = Some b /\ ub_id b = id.
Proof. unfold find_binding. by intros (? & ? & _)%list_find_Some. Qed.

Lemma udp_abs_lookup t id b :
  udp_inv t -> udp_abs t !! id = Some b <-> b ∈ ut_bindings t /\ ub_id b = id.
Proof.
  intros (_ & _ & _ & _ & Hnd & _). unfold udp_abs. rewrite <- elem_of_list_to_map.
  - rewrite list_elem_of_fmap. naive_solver.
  - rewrite <- list_fmap_compose. done.
Qed.

Lemma find_binding_abs t id :
  udp_inv t -> snd <$> find_binding t id = udp_abs t !! id.
Proof.
  intros Hinv. destruct (find_binding t id) as [[i b]|] eqn:Hf; cbn; symmetry.
  - apply find_binding_Some in Hf as [Hi Hid]. apply udp_abs_lookup; [done |].
    split; [|done]. by eapply list_elem_of_lookup_2.
  - apply list_find_None in Hf. destruct (udp_abs t !! id) as [b|] eqn:Ha; [|done].
    apply udp_abs_lookup in Ha as [Hb Hid]; [|done]. rewrite Forall_forall in Hf.
    by destruct (Hf b Hb).
Qed.

(** ** Preservation by the three shapes of update *)

Ltac udp_proj :=
  cbn [with_bindings with_next_id with_next_ephemeral ut_bindings ut_socket_limit ut_queue_limit
       ut_payload_limit ut_next_ephemeral ut_next_id].

Lemma udp_update t i b b' :
  udp_inv t -> ut_bindings t !! i = Some b -> ub_id b' = ub_id b -> ub_local b' = ub_local b ->
  binding_ok t b' ->
  udp_inv (with_bindings t (<[i := b']> (ut_bindings t))) /\
  udp_abs (with_bindings t (<[i := b']> (ut_bindings t))) = <[ub_id b := b']> (udp_abs t).
Proof.
  intros Hinv Hi Hid Hloc Hok. pose proof Hinv as (Hlen & Hnext & Heph & Hq & Hnd & Hbs & Hov).
  assert (ub_id <$> <[i := b']> (ut_bindings t) = ub_id <$> ut_bindings t) as Hids.
  { rewrite list_fmap_insert, Hid. apply list_insert_id. by rewrite list_lookup_fmap, Hi. }
  assert (forall x, x ∈ <[i := b']> (ut_bindings t) ->
    x = b' \/ (x ∈ ut_bindings t /\ ub_id x <> ub_id b)) as Hin.
  { intros x [j Hj]%list_elem_of_lookup. destruct (decide (i = j)) as [<-|Hne].
    - rewrite list_lookup_insert_eq in Hj by (by eapply lookup_lt_Some). naive_solver.
    - rewrite list_lookup_insert_ne in Hj by done. right. split; [by eapply list_elem_of_lookup_2 |].
      intros Heq. apply Hne. eapply (NoDup_lookup _ i j (ub_id b) Hnd).
      + by rewrite list_lookup_fmap, Hi.
      + rewrite list_lookup_fmap, Hj. cbn. by rewrite Heq. }
  assert (b ∈ ut_bindings t) as Hb by (by eapply list_elem_of_lookup_2).
  split.
  - split_and!; udp_proj; try (done || lia).
    + by rewrite length_insert.
    + by rewrite Hids.
    + intros x [->|[Hx _]]%Hin; [done |]. by apply Hbs.
    + intros x y [->|[Hx Hxne]]%Hin [->|[Hy Hyne]]%Hin Hne; try done.
      * rewrite Hloc. apply Hov; [done..|]. congruence.
      * rewrite Hloc. apply Hov; [done..|]. congruence.
      * by apply Hov.
  - unfold udp_abs. udp_proj. apply map_eq. intros k.
    assert (NoDup (((fun b => (ub_id b, b)) <$> <[i := b']> (ut_bindings t)).*1)) as Hnd'.
    { rewrite <- list_fmap_compose. change (fst ∘ _) with ub_id. by rewrite Hids. }
    assert (NoDup (((fun b => (ub_id b, b)) <$> ut_bindings t).*1)) as Hnd0.
    { rewrite <- list_fmap_compose. done. }
    apply option_eq. intros x. rewrite <- elem_of_list_to_map by done.
    rewrite list_elem_of_fmap, lookup_insert_Some, <- elem_of_list_to_map by done.
    rewrite list_elem_of_fmap. split.
    + intros (y & [= -> ->] & [->|[Hy Hyne]]%Hin); [left; done | right].
      split; [congruence |]. by exists y.
    + intros [[<- <-] | [Hne (y & [= -> ->] & Hy)]].
      * exists b'. split; [by rewrite Hid |]. apply list_elem_of_lookup. exists i.
        by rewrite list_lookup_insert_eq by (by eapply lookup_lt_Some).
      * exists y. split; [done |]. apply list_elem_of_lookup in Hy as [j Hj].
        apply list_elem_of_lookup. exists j. rewrite list_lookup_insert_ne; [done |].
        intros <-. apply Hne. by simplify_eq.
Qed.

Lemma udp_remove t i b :
  udp_inv t -> ut_bindings t !! i = Some b ->
  udp_inv (with_bindings t (swap_remove i (ut_bindings t))) /\
  udp_abs (with_bindings t (swap_remove i (ut_bindings t))) = delete (ub_id b) (udp_abs t).
Proof.
  intros Hinv Hi. pose proof Hinv as (Hlen & Hnext & Heph & Hq & Hnd & Hbs & Hov).
  pose proof (swap_remove_perm i _ b Hi) as Hp.
  assert (NoDup (ub_id <$> b :: swap_remove i (ut_bindings t))) as Hnd'.
  { by rewrite <- Hp. }
  rewrite fmap_cons in Hnd'. apply NoDup_cons in Hnd' as [Hfresh Hnd'].
  assert (forall x, x ∈ swap_remove i (ut_bindings t) -> x ∈ ut_bindings t) as Hsub.
  { intros x Hx. rewrite Hp. by right. }
  split.
  - split_and!; udp_proj; try (done || lia).
    + apply Permutation_length in Hp. cbn in Hp. lia.
    + intros x Hx. apply Hbs, Hsub, Hx.
    + intros x y Hx Hy. apply Hov; by apply Hsub.
  - unfold udp_abs. udp_proj.
    rewrite (list_to_map_proper ((fun b => (ub_id b, b)) <$> ut_bindings t)
      ((fun b => (ub_id b, b)) <$> (b :: swap_remove i (ut_bindings t)))).
    + cbn. rewrite delete_insert_id; [done |]. apply not_elem_of_list_to_map.
      by rewrite <- list_fmap_compose.
    + by rewrite <- list_fmap_compose.
    + by apply fmap_Permutation.
Qed.

Lemma overlaps_sym a b : overlaps a b = overlaps b a.
Proof.
  unfold overlaps. rewrite Z.eqb_sym. f_equal.
  rewrite (orb_comm (bool_decide _) (bool_decide (ep_address b = _))). f_equal.
  apply bool_decide_ext. naive_solver.
Qed.

Lemma udp_push t local :
  udp_inv t -> Z.of_nat (length (ut_bindings t)) < ut_socket_limit t -> ut_next_id t < U64_MAX ->
  1 <= ep_port local <= 65535 -> conflicts t local = false ->
  let b := {| ub_id := ut_next_id t; ub_local := local; ub_peer := None; ub_received := [] |} in
  let t' := with_next_id (with_bindings t (ut_bindings t ++ [b])) (ut_next_id t + 1) in
  udp_inv t' /\ udp_abs t' = <[ut_next_id t := b]> (udp_abs t) /\ udp_abs t !! ut_next_id t = None.
Proof.
  intros Hinv Hlt Hid Hport Hc b t'. pose proof Hinv as (Hlen & Hnext & Heph & Hq & Hnd & Hbs & Hov).
  assert (ut_next_id t ∉ ub_id <$> ut_bindings t) as Hfresh.
  { intros (x & Hx & Hin)%list_elem_of_fmap. destruct (Hbs x Hin) as [? _]. lia. }
  assert (udp_abs t !! ut_next_id t = None) as Hnone.
  { unfold udp_abs. apply not_elem_of_list_to_map. by rewrite <- list_fmap_compose. }
  unfold conflicts in Hc. rewrite existsb_none in Hc.
  subst t'. unfold udp_inv. split_and!; udp_proj; try (done || lia).
  - rewrite length_app. cbn. lia.
  - rewrite fmap_app. apply NoDup_app. split_and!; [done | | apply NoDup_singleton].
    intros x Hx Hx'%list_elem_of_singleton. cbn in Hx'. congruence.
  - intros x [Hx| ->%list_elem_of_singleton]%elem_of_app.
    + destruct (Hbs x Hx) as (? & ? & ? & ?). split_and!; cbn; try (done || lia).
    + split_and!; cbn; try (done || lia). intros p Hp%not_elem_of_nil. done.
  - intros x y [Hx| ->%list_elem_of_singleton]%elem_of_app [Hy| ->%list_elem_of_singleton]%elem_of_app Hne.
    + by apply Hov.
    + by apply Hc.
    + rewrite overlaps_sym. by apply Hc.
    + done.
  - unfold udp_abs. udp_proj. rewrite (list_to_map_proper _
      ((fun b => (ub_id b, b)) <$> (b :: ut_bindings t))); [done | |].
    + rewrite <- list_fmap_compose. change (fst ∘ _) with ub_id. rewrite fmap_app. apply NoDup_app.
      split_and!; [done | | apply NoDup_singleton].
      intros x Hx Hx'%list_elem_of_singleton. cbn in Hx'. congruence.
    + apply fmap_Permutation. by rewrite Permutation_app_comm.
Qed.

(** ** Ephemeral ports *)

(** The [k]-th port that the scan visits, starting from [start]. *)
Definition scan_port (start : Z) (k : Z) : Z :=
  EPHEMERAL_PORT_START + (start - EPHEMERAL_PORT_START + k) mod 16384.

Lemma scan_port_next start k :
  (if scan_port start k =? EPHEMERAL_PORT_END then EPHEMERAL_PORT_START else scan_port start k + 1)
  = scan_port start (k + 1).
Proof.
  unfold scan_port, EPHEMERAL_PORT_END, EPHEMERAL_PORT_START.
  destruct (Z.eqb_spec (49152 + (start - 49152 + k) mod 16384) 65535); divlia.
Qed.

Lemma scan_port_surjective start p :
  EPHEMERAL_PORT_START <= p <= EPHEMERAL_PORT_END -> EPHEMERAL_PORT_START <= start ->
  exists k, 0 <= k < 16384 /\ scan_port start k = p.
Proof.
  unfold scan_port, EPHEMERAL_PORT_END, EPHEMERAL_PORT_START. intros.
  exists ((p - start) mod 16384). divlia.
Qed.

Lemma with_next_ephemeral_twice t p q :
  with_next_ephemeral (with_next_ephemeral t p) q = with_next_ephemeral t q.
Proof. done. Qed.

Lemma ephemeral_loop_spec t address start n k :
  let '(t', r) := ephemeral_loop n (with_next_ephemeral t (scan_port start k)) address in
  exists k', t' = with_next_ephemeral t (scan_port start k') /\
  match r with
  | Some p => (exists j, p = scan_port start j) /\
              conflicts t {| ep_address := address; ep_port := p |} = false
  | None => forall j, k <= j < k + Z.of_nat n ->
              conflicts t {| ep_address := address; ep_port := scan_port start j |} = true
  end.
Proof.
  revert k. induction n as [|n IH]; intros k; cbn [ephemeral_loop].
  { exists k. split; [done |]. intros. lia. }
  udp_proj. rewrite with_next_ephemeral_twice, scan_port_next.
  change (conflicts (with_next_ephemeral t _) ?x) with (conflicts t x).
  destruct (conflicts t _) eqn:Hc; cbn [negb]; [|by eauto].
  specialize (IH (k + 1)). destruct (ephemeral_loop _ _ _) as [t' [p|]];
    destruct IH as (k' & -> & IH); exists k'; (split; [done |]); [done |].
  intros j Hj. destruct (decide (j = k)) as [->|]; [done |]. apply IH. lia.
Qed.

Lemma with_next_ephemeral_self t : with_next_ephemeral t (ut_next_ephemeral t) = t.
Proof. by destruct t. Qed.

Lemma allocate_ephemeral_spec t address :
  EPHEMERAL_PORT_START <= ut_next_ephemeral t <= EPHEMERAL_PORT_END ->
  let '(t', r) := allocate_ephemeral t address in
  (exists p, EPHEMERAL_PORT_START <= p <= EPHEMERAL_PORT_END /\ t' = with_next_ephemeral t p) /\
  match r with
  | Some p => EPHEMERAL_PORT_START <= p <= EPHEMERAL_PORT_END /\
              conflicts t {| ep_address := address; ep_port := p |} = false
  | None => forall p, EPHEMERAL_PORT_START <= p <= EPHEMERAL_PORT_END ->
              conflicts t {| ep_address := address; ep_port := p |} = true
  end.
Proof.
  intros Hr. unfold allocate_ephemeral.
  pose proof (ephemeral_loop_spec t address (ut_next_ephemeral t) EPHEMERAL_COUNT 0) as H.
  assert (scan_port (ut_next_ephemeral t) 0 = ut_next_ephemeral t) as Hs.
  { unfold scan_port, EPHEMERAL_PORT_END, EPHEMERAL_PORT_START in *. divlia. }
  rewrite Hs, with_next_ephemeral_self in H.
  assert (forall j, EPHEMERAL_PORT_START <= scan_port (ut_next_ephemeral t) j <= EPHEMERAL_PORT_END) as Hj.
  { intros j. unfold scan_port, EPHEMERAL_PORT_END, EPHEMERAL_PORT_START. divlia. }
  destruct (ephemeral_loop _ _ _) as [t' r]. destruct H as (k' & -> & H). split; [by eauto |].
  destruct r as [p|].
  - destruct H as [[j ->] Hc]. eauto.
  - intros p Hp. destruct (scan_port_surjective (ut_next_ephemeral t) p) as (k & Hk & <-); [done | lia |].
    apply H. unfold EPHEMERAL_COUNT, EPHEMERAL_PORT_END, EPHEMERAL_PORT_START. lia.
Qed.

Lemma udp_inv_ephemeral t p :
  EPHEMERAL_PORT_START <= p <= EPHEMERAL_PORT_END -> udp_inv t -> udp_inv (with_next_ephemeral t p).
Proof. intros Hp (? & ? & ? & ? & ? & ? & ?). unfold udp_inv. split_and!; udp_proj; try (done || lia). Qed.

(** ** Binding *)

(** Binding succeeds exactly when there is room for a socket, an identity left, the
    reservations succeed and the requested port (any free ephemeral port when
    zero) does not collide; then a socket with a fresh identity, the requested address,
    that port, no peer and an empty queue is added and nothing else changes.  On failure no
    socket is touched.  The scan for an ephemeral port fails only when all 16384 of
    them collide. *)
Lemma bind_endpoint_cases reserve t address port :
  udp_inv t -> 0 <= port <= 65535 ->
  let '(t', r) := bind_endpoint reserve t address port in
  udp_inv t' /\
  match r with
  | Ok id =>
      id = ut_next_id t /\ ut_next_id t' = id + 1 /\ udp_abs t !! id = None /\
      exists p, (port <> 0 -> p = port) /\
        (port = 0 -> EPHEMERAL_PORT_START <= p <= EPHEMERAL_PORT_END) /\
        conflicts t {| ep_address := address; ep_port := p |} = false /\
        udp_abs t' = <[id := {| ub_id := id; ub_local := {| ep_address := address; ep_port := p |};
                                ub_peer := None; ub_received := [] |}]> (udp_abs t)
  | Err e =>
      ut_next_id t' = ut_next_id t /\ ut_bindings t' = ut_bindings t /\
      (e = Mismatch -> port <> 0 /\ conflicts t {| ep_address := address; ep_port := port |} = true) /\
      (e = Capacity -> ut_socket_limit t <= Z.of_nat (length (ut_bindings t)) \/
         ut_next_id t = U64_MAX \/ reserve 1 = false \/ reserve (ut_queue_limit t) = false \/
         (port = 0 /\ forall p, EPHEMERAL_PORT_START <= p <= EPHEMERAL_PORT_END ->
            conflicts t {| ep_address := address; ep_port := p |} = true)) /\
      (e = Mismatch \/ e = Capacity)
  | Panic => False
  end.
Proof.
  intros Hinv Hport. unfold bind_endpoint.
  destruct (_ || _) eqn:Hroom.
  { split; [done |]. split_and!; try done; [|by right]. intros _.
    apply orb_true_iff in Hroom as [?|?]; bool_cases; auto. }
  bool_cases. assert (ut_next_id t < U64_MAX) by (destruct Hinv as (_ & ? & _); lia).
  destruct (Z.eqb_spec port 0) as [->|Hp0].
  - pose proof Hinv as (_ & _ & Heph & _).
    pose proof (allocate_ephemeral_spec t address Heph) as Ha.
    destruct (allocate_ephemeral t address) as [t1 [p|]]; destruct Ha as [(q & Hq & ->) Ha]; cbn [ok_or].
    + assert (udp_inv (with_next_ephemeral t q)) as Hinv1 by (by apply udp_inv_ephemeral).
      udp_proj. destruct (reserve 1) eqn:Hr1; cbn [negb]; [|split; [done |]; split_and!; auto; done].
      destruct (reserve (ut_queue_limit t)) eqn:Hr2; cbn [negb]; [|split; [done |]; split_and!; auto; done].
      destruct (udp_push _ {| ep_address := address; ep_port := p |} Hinv1) as (Hi & Hab & Hn);
        [done | done | cbn; unfold EPHEMERAL_PORT_START, EPHEMERAL_PORT_END in *; lia | by apply Ha |].
      split; [done |]. split_and!; [done | done | done |]. exists p. split_and!; (done || lia || apply Ha || done).
    + split; [by apply udp_inv_ephemeral |]. split_and!; auto; [done |]. intros _. do 4 right. done.
  - destruct (conflicts t _) eqn:Hc.
    { split; [done |]. split_and!; auto. done. }
    destruct (reserve 1) eqn:Hr1; cbn [negb]; [|split; [done |]; split_and!; auto; done].
    destruct (reserve (ut_queue_limit t)) eqn:Hr2; cbn [negb]; [|split; [done |]; split_and!; auto; done].
    destruct (udp_push t {| ep_address := address; ep_port := port |} Hinv) as (Hi & Hab & Hn);
      [done | done | cbn; lia | done |].
    split; [done |]. split_and!; [done | done | done |]. exists port. split_and!; done.
Qed.

(** ** Delivery *)

(** Two sockets never both claim a datagram: the choice of the first match is no choice. *)
Lemma addressed_unique t dst port b1 b2 :
  udp_inv t -> b1 ∈ ut_bindings t -> b2 ∈ ut_bindings t ->
  addressed dst port b1 -> addressed dst port b2 -> b1 = b2.
Proof.
  intros (_ & _ & _ & _ & Hnd & _ & Hov) H1 H2 [Hp1 Ha1] [Hp2 Ha2].
  destruct (decide (ub_id b1 = ub_id b2)) as [Heq|Hne].
  - apply list_elem_of_lookup in H1 as [i Hi], H2 as [j Hj].
    assert (i = j) as ->.
    { eapply (NoDup_lookup _ i j (ub_id b1) Hnd); rewrite list_lookup_fmap, ?Hi, ?Hj; cbn; congruence. }
    congruence.
  - specialize (Hov b1 b2 H1 H2 Hne). unfold overlaps in Hov. exfalso.
    rewrite Hp1, Hp2, Z.eqb_refl in Hov. cbn in Hov.
    repeat case_bool_decide; try done. naive_solver congruence.
Qed.

(** Whether the peer filter of a socket admits a source. *)
Definition admits (b : UdpBinding) (source_address : list Z) (source_port : Z) : Prop :=
  match ub_peer b with
  | Some peer => ep_address peer = source_address /\ ep_port peer = source_port
  | None => True
  end.

Definition packet_of (source destination : list Z) (d : UdpDatagram) : UdpPacket :=
  {| up_source_address := source; up_destination_address := destination;
     up_source_port := dg_source_port d; up_destination_port := dg_destination_port d;
     up_payload := dg_payload d |}.

Definition push_packet (b : UdpBinding) (p : UdpPacket) : UdpBinding :=
  {| ub_id := ub_id b; ub_local := ub_local b; ub_peer := ub_peer b; ub_received := ub_received b ++ [p] |}.
Definition pop_packet (b : UdpBinding) : UdpBinding :=
  {| ub_id := ub_id b; ub_local := ub_local b; ub_peer := ub_peer b; ub_received := tail (ub_received b) |}.

(** Room for one more datagram in the queue of a socket. *)
Definition enqueue_room (reserve : Z -> bool) (t : UdpSocketTable) (b : UdpBinding) (d : UdpDatagram) : Prop :=
  Z.of_nat (length (dg_payload d)) <= ut_payload_limit t /\
  Z.of_nat (length (ub_received b)) < ut_queue_limit t /\
  reserve (Z.of_nat (length (dg_payload d))) = true.

Lemma enqueue_cases reserve t src dst d :
  udp_inv t ->
  let '(t', r) := enqueue reserve t src dst d in
  udp_inv t' /\ ut_next_id t' = ut_next_id t /\
  match r with
  | Ok _ => exists b, udp_abs t !! ub_id b = Some b /\ addressed dst (dg_destination_port d) b /\
      admits b src (dg_source_port d) /\ enqueue_room reserve t b d /\
      udp_abs t' = <[ub_id b := push_packet b (packet_of src dst d)]> (udp_abs t)
  | Err e => t' = t /\
      ((e = Mismatch /\ forall id b, udp_abs t !! id = Some b -> addressed dst (dg_destination_port d) b ->
          ~ admits b src (dg_source_port d)) \/
       (e = Capacity /\
         (ut_payload_limit t < Z.of_nat (length (dg_payload d)) \/
          reserve (Z.of_nat (length (dg_payload d))) = false \/
          exists id b, udp_abs t !! id = Some b /\ addressed dst (dg_destination_port d) b /\
            ut_queue_limit t <= Z.of_nat (length (ub_received b)))))
  | Panic => False
  end.
Proof.
  intros Hinv. unfold enqueue.
  destruct (Z.ltb_spec (ut_payload_limit t) (Z.of_nat (length (dg_payload d)))) as [Hpl|Hpl].
  { split_and!; auto. }
  destruct (list_find _ _) as [[i b]|] eqn:Hf.
  2: { split_and!; auto. left. split; [done |]. intros id b [Hb _]%udp_abs_lookup Ha; [|done].
       apply list_find_None in Hf. rewrite Forall_forall in Hf. by destruct (Hf b Hb). }
  apply list_find_Some in Hf as (Hi & Ha & _).
  assert (b ∈ ut_bindings t) as Hb by (by eapply list_elem_of_lookup_2).
  assert (udp_abs t !! ub_id b = Some b) as Hab by (by apply udp_abs_lookup).
  assert (match ub_peer b with
    | Some peer => bool_decide (ep_address peer <> src) || negb (ep_port peer =? dg_source_port d)
    | None => false end = false <-> admits b src (dg_source_port d)) as Hadm.
  { unfold admits. destruct (ub_peer b) as [p|]; [|done].
    rewrite orb_false_iff, bool_decide_eq_false, negb_false_iff, Z.eqb_eq.
    destruct (decide (ep_address p = src)); naive_solver. }
  destruct (match ub_peer b with Some _ => _ | None => _ end) eqn:Hpeer.
  { split_and!; auto. left. split; [done |]. intros id b' [Hb' _]%udp_abs_lookup Ha' Hadm'; [|done].
    rewrite (addressed_unique t dst (dg_destination_port d) b' b) in Hadm' by done.
    by apply Hadm in Hadm'. }
  destruct (Z.leb_spec (ut_queue_limit t) (Z.of_nat (length (ub_received b)))).
  { split_and!; auto. right. split; [done |]. right. right. by exists (ub_id b), b. }
  destruct (reserve _) eqn:Hr; cbn [negb]; [|split_and!; auto].
  destruct (udp_update t i b (push_packet b (packet_of src dst d)) Hinv Hi) as [Hinv' Habs]; [done | done | |].
  { destruct Hinv as (_ & _ & _ & _ & _ & Hbs & _). destruct (Hbs b Hb) as (? & ? & ? & Hq).
    unfold binding_ok, push_packet. cbn [ub_id ub_local ub_received]. split_and!; try lia.
    - rewrite length_app. cbn. lia.
    - intros p [Hp| ->%list_elem_of_singleton]%elem_of_app; [by apply Hq |]. done. }
  split_and!; [done | done |]. exists b. split_and!; [done | done | by apply Hadm | done | done].
Qed.

Lemma receive_for_cases t id :
  udp_inv t ->
  let '(t', r) := receive_for t id in
  udp_inv t' /\ ut_next_id t' = ut_next_id t /\
  match udp_abs t !! id with
  | Some b => r = Ok (head (ub_received b)) /\ udp_abs t' = <[id := pop_packet b]> (udp_abs t)
  | None => r = Err Mismatch /\ t' = t
  end.
Proof.
  intros Hinv. unfold receive_for. rewrite <- (find_binding_abs t id Hinv).
  destruct (find_binding t id) as [[i b]|] eqn:Hf; cbn; [|done].
  apply find_binding_Some in Hf as [Hi <-].
  assert (b ∈ ut_bindings t) as Hb by (by eapply list_elem_of_lookup_2).
  destruct (udp_update t i b (pop_packet b) Hinv Hi) as [Hinv' Habs]; [done | done | |done].
  destruct Hinv as (_ & _ & _ & _ & _ & Hbs & _). destruct (Hbs b Hb) as (? & ? & ? & Hq).
  unfold binding_ok, pop_packet. cbn [ub_id ub_local ub_received].
  split_and!; try lia.
  - destruct (ub_received b); cbn in *; lia.
  - intros p Hp. apply Hq. destruct (ub_received b); [done | by right].
Qed.

Lemma set_peer_cases t id p :
  udp_inv t ->
  let '(t', r) := set_peer t id p in
  udp_inv t' /\ ut_next_id t' = ut_next_id t /\
  match udp_abs t !! id with
  | Some b => r = Ok tt /\
      udp_abs t' = <[id := {| ub_id := ub_id b; ub_local := ub_local b; ub_peer := p;
                              ub_received := ub_received b |}]> (udp_abs t)
  | None => r = Err Mismatch /\ t' = t
  end.
Proof.
  intros Hinv. unfold set_peer. rewrite <- (find_binding_abs t id Hinv).
  destruct (find_binding t id) as [[i b]|] eqn:Hf; cbn; [|done].
  apply find_binding_Some in Hf as [Hi <-].
  assert (b ∈ ut_bindings t) as Hb by (by eapply list_elem_of_lookup_2).
  destruct (udp_update t i b {| ub_id := ub_id b; ub_local := ub_local b; ub_peer := p;
    ub_received := ub_received b |} Hinv Hi) as [Hinv' Habs]; [done | done | |done].
  destruct Hinv as (_ & _ & _ & _ & _ & Hbs & _). exact (Hbs b Hb).
Qed.

Lemma unbind_endpoint_cases t id :
  udp_inv t ->
  let '(t', r) := unbind_endpoint t id in
  udp_inv t' /\ ut_next_id t' = ut_next_id t /\ udp_abs t' = delete id (udp_abs t) /\
  r = bool_decide (is_Some (udp_abs t !! id)).
Proof.
  intros Hinv. unfold unbind_endpoint. rewrite <- (find_binding_abs t id Hinv).
  destruct (find_binding t id) as [[i b]|] eqn:Hf; cbn.
  - apply find_binding_Some in Hf as [Hi <-]. destruct (udp_remove t i b Hinv Hi). done.
  - split_and!; try done. rewrite delete_id; [done |]. by rewrite <- (find_binding_abs t id Hinv), Hf.
Qed.

Lemma wildcard_id_abs t port id :
  udp_inv t -> wildcard_id t port = Some id ->
  exists b, udp_abs t !! id = Some b /\ ub_local b = {| ep_address := UNSPECIFIED; ep_port := port |}.
Proof.
  intros Hinv. unfold wildcard_id. destruct (list_find _ _) as [[i b]|] eqn:Hf; [|done].
  intros [= <-]. apply list_find_Some in Hf as (Hi & Hl & _). exists b. split; [|done].
  apply udp_abs_lookup; [done |]. split; [|done]. by eapply list_elem_of_lookup_2.
Qed.

(** ** Traces of table operations *)

Inductive udp_op : Type :=
  | UBind (reserve : Z -> bool) (address : list Z) (port : Z)
  | UBindPort (reserve : Z -> bool) (port : Z)
  | USetPeer (id : Z) (p : option UdpEndpoint)
  | UUnbindEndpoint (id : Z)
  | UUnbind (port : Z)
  | UEnqueue (reserve : Z -> bool) (src dst : list Z) (d : UdpDatagram)
  | UReceiveFor (id : Z)
  | UReceive (port : Z).

(** What an observer of the table sees of an operation. *)
Inductive udp_event : Type :=
  | EvBound (id : Z)
  | EvAccepted (id : Z) (p : UdpPacket)
  | EvReceived (id : Z) (p : UdpPacket)
  | EvNone.

Definition received_event (id : Z) (r : result PacketError (option UdpPacket)) : udp_event :=
  match r with Ok (Some p) => EvReceived id p | _ => EvNone end.

Definition udp_step (t : UdpSocketTable) (o : udp_op) : UdpSocketTable * udp_event :=
  match o with
  | UBind reserve address port =>
      let '(t', r) := bind_endpoint reserve t address port in
      (t', match r with Ok id => EvBound id | _ => EvNone end)
  | UBindPort reserve port =>
      (fst (udp_bind reserve t port),
       match snd (bind_endpoint reserve t UNSPECIFIED port) with Ok id => EvBound id | _ => EvNone end)
  | USetPeer id p => (fst (set_peer t id p), EvNone)
  | UUnbindEndpoint id => (fst (unbind_endpoint t id), EvNone)
  | UUnbind port => (fst (unbind t port), EvNone)
  | UEnqueue reserve src dst d =>
      let '(t', r) := enqueue reserve t src dst d in
      (t', match r, list_find (addressed dst (dg_destination_port d)) (ut_bindings t) with
           | Ok _, Some (_, b) => EvAccepted (ub_id b) (packet_of src dst d)
           | _, _ => EvNone
           end)
  | UReceiveFor id => let '(t', r) := receive_for t id in (t', received_event id r)
  | UReceive port =>
      (fst (udp_receive t port),
       match wildcard_id t port with
       | Some id => received_event id (snd (receive_for t id))
       | None => EvNone
       end)
  end.

Fixpoint udp_run (t : UdpSocketTable) (ops : list udp_op) : UdpSocketTable * list udp_event :=
  match ops with
  | [] => (t, [])
  | o :: ops => let '(t, e) := udp_step t o in let '(t, es) := udp_run t ops in (t, e :: es)
  end.

(** Requested ports are [u16]. *)
Definition udp_op_ok (o : udp_op) : Prop :=
  match o with UBind _ _ port | UBindPort _ port => 0 <= port <= 65535 | _ => True end.

(** The state of one socket after an event. *)
Definition queue_of (t : UdpSocketTable) (id : Z) : option (list UdpPacket) :=
  ub_received <$> udp_abs t !! id.

Definition accepted_by (id : Z) (e : udp_event) : list UdpPacket :=
  match e with EvAccepted i p => if i =? id then [p] else [] | _ => [] end.
Definition received_by (id : Z) (e : udp_event) : list UdpPacket :=
  match e with EvReceived i p => if i =? id then [p] else [] | _ => [] end.
Definition bound_id (e : udp_event) : list Z := match e with EvBound i => [i] | _ => [] end.

(** One step keeps the invariant, moves the identity counter exactly with new
    sockets, never revives an identity, and changes the queue of a socket
    that stays bound by what is received at the front and accepted at the back. *)
Definition udp_step_ok (t t' : UdpSocketTable) (e : udp_event) : Prop :=
  udp_inv t' /\
  (bound_id e = [] /\ ut_next_id t' = ut_next_id t \/
   bound_id e = [ut_next_id t] /\ ut_next_id t' = ut_next_id t + 1) /\
  (forall id, queue_of t id = None \/ is_Some (queue_of t' id) ->
    received_by id e ++ default [] (queue_of t' id) = default [] (queue_of t id) ++ accepted_by id e) /\
  (forall id, id < ut_next_id t -> queue_of t id = None -> queue_of t' id = None).

Lemma udp_step_quiet t t' :
  udp_inv t' -> ut_next_id t' = ut_next_id t ->
  (forall id, queue_of t' id = queue_of t id \/ is_Some (queue_of t id) /\ queue_of t' id = None) ->
  udp_step_ok t t' EvNone.
Proof.
  intros Hi Hn Hq. split_and!; [done | by left | |].
  - intros id Hid. cbn. rewrite app_nil_r. destruct (Hq id) as [->|[[q Hs] Hnone]]; [done |].
    rewrite Hnone, Hs in Hid. destruct Hid as [?|[? ?]]; done.
  - intros id _ Hnone. destruct (Hq id) as [->|[_ ?]]; done.
Qed.

Lemma bind_step_ok reserve t a port :
  udp_inv t -> 0 <= port <= 65535 ->
  udp_step_ok t (fst (bind_endpoint reserve t a port))
    (match snd (bind_endpoint reserve t a port) with Ok id => EvBound id | _ => EvNone end).
Proof.
  intros Hinv Hok. pose proof (bind_endpoint_cases reserve t a port Hinv Hok) as Hb.
  destruct (bind_endpoint reserve t a port) as [t' [i|er|]]; destruct Hb as [Hinv' Hb]; [| |done]; cbn.
  - destruct Hb as (-> & Hn & Hfresh & p & _ & _ & _ & Habs). unfold udp_step_ok, queue_of.
    split_and!; [done | by right | |]; intros id; rewrite Habs, lookup_insert; case_decide as Hd; cbn.
    + subst id. by rewrite Hfresh.
    + by rewrite app_nil_r.
    + lia.
    + done.
  - destruct Hb as (Hn & Hbs & _). apply udp_step_quiet; [done | done |].
    intros id. left. unfold queue_of, udp_abs. by rewrite Hbs.
Qed.

Lemma set_peer_step_ok t id p : udp_inv t -> udp_step_ok t (fst (set_peer t id p)) EvNone.
Proof.
  intros Hinv. pose proof (set_peer_cases t id p Hinv) as Hs. destruct (set_peer t id p) as [t' r].
  destruct Hs as (Hinv' & Hn & Hs). apply udp_step_quiet; [done | done |].
  unfold queue_of. intros id'. cbn. left.
  destruct (udp_abs t !! id) as [b|] eqn:Hb; destruct Hs as [_ Hs]; [|by subst].
  rewrite Hs, lookup_insert. case_decide as Hd; [subst id'; rewrite Hb |]; done.
Qed.

Lemma unbind_step_ok t id : udp_inv t -> udp_step_ok t (fst (unbind_endpoint t id)) EvNone.
Proof.
  intros Hinv. pose proof (unbind_endpoint_cases t id Hinv) as Hu.
  destruct (unbind_endpoint t id) as [t' r]. destruct Hu as (Hinv' & Hn & Hu & _).
  apply udp_step_quiet; [done | done |]. unfold queue_of. intros id'. cbn.
  rewrite Hu, lookup_delete. case_decide as Hd; [|by left]. subst id'.
  destruct (udp_abs t !! id); [right | left]; cbn; eauto.
Qed.

Lemma receive_step_ok t id :
  udp_inv t -> udp_step_ok t (fst (receive_for t id)) (received_event id (snd (receive_for t id))).
Proof.
  intros Hinv. pose proof (receive_for_cases t id Hinv) as Hr.
  destruct (receive_for t id) as [t' r]. destruct Hr as (Hinv' & Hn & Hr). cbn.
  destruct (udp_abs t !! id) as [b|] eqn:Hb; destruct Hr as [-> Hr]; cbn.
  2: { subst t'. apply udp_step_quiet; [done | done |]. by left. }
  unfold udp_step_ok, queue_of.
  split_and!; [done | left; split; [by destruct (head _) | done] | |];
    intros id'; rewrite Hr, lookup_insert; case_decide as Hd; try subst id'; rewrite ?Hb; [| |done..].
  - intros _. unfold pop_packet. cbn. destruct (ub_received b) as [|x l]; cbn; rewrite ?Z.eqb_refl; cbn;
      by rewrite ?app_nil_r.
  - intros _. destruct (head _); cbn; rewrite ?(proj2 (Z.eqb_neq _ _)) by done; cbn; by rewrite app_nil_r.
Qed.

Lemma enqueue_step_ok reserve t src dst d :
  udp_inv t -> let '(t', e) := udp_step t (UEnqueue reserve src dst d) in udp_step_ok t t' e.
Proof.
  intros Hinv. cbn. pose proof (enqueue_cases reserve t src dst d Hinv) as He.
  destruct (enqueue reserve t src dst d) as [t' [u|er|]]; destruct He as (Hinv' & Hn & He); [| |done].
  2: { destruct He as [-> _]. apply udp_step_quiet; [done | done |]. by left. }
  destruct He as (b & Hb & Ha & _ & _ & Habs). destruct (list_find _ _) as [[j b']|] eqn:Hf.
  2: { exfalso. apply list_find_None in Hf. rewrite Forall_forall in Hf.
       apply udp_abs_lookup in Hb as [Hb _]; [|done]. by destruct (Hf b Hb). }
  apply list_find_Some in Hf as (Hj & Ha' & _). apply list_elem_of_lookup_2 in Hj.
  pose proof Hb as [Hb0 _]%udp_abs_lookup; [|done].
  rewrite (addressed_unique t dst (dg_destination_port d) b' b) by done.
  unfold udp_step_ok, queue_of.
  split_and!; [done | by left | |]; intros id; rewrite Habs, lookup_insert; cbn;
    case_decide as Hd; try subst id; rewrite ?Hb, ?Z.eqb_refl; [done | | done..].
  rewrite (proj2 (Z.eqb_neq _ _)) by done. by rewrite app_nil_r.
Qed.

Lemma udp_step_spec t o :
  udp_inv t -> udp_op_ok o -> let '(t', e) := udp_step t o in udp_step_ok t t' e.
Proof.
  intros Hinv Hok.
  destruct o as [rs a port|rs port|id p|id|port|rs src dst d|id|port].
  - pose proof (bind_step_ok rs t a port Hinv Hok). cbn. by destruct (bind_endpoint rs t a port).
  - pose proof (bind_step_ok rs t UNSPECIFIED port Hinv Hok) as H.
    unfold udp_step, udp_bind. revert H. by destruct (bind_endpoint rs t UNSPECIFIED port).
  - by apply set_peer_step_ok.
  - by apply unbind_step_ok.
  - cbn. unfold unbind. destruct (wildcard_id t port) as [id|]; [by apply unbind_step_ok |].
    apply udp_step_quiet; [done | done |]. by left.
  - by apply enqueue_step_ok.
  - pose proof (receive_step_ok t id Hinv). cbn. by destruct (receive_for t id).
  - cbn. unfold udp_receive. destruct (wildcard_id t port) as [id|].
    + pose proof (receive_step_ok t id Hinv) as H. revert H. by destruct (receive_for t id).
    + apply udp_step_quiet; [done | done |]. by left.
Qed.

Lemma udp_new_inv sl ql pl : 0 <= sl -> 0 <= ql -> udp_inv (UdpSocketTable_new sl ql pl).
Proof.
  intros. unfold udp_inv, UdpSocketTable_new. udp_proj. split_and!; try (done || lia).
  - apply NoDup_nil_2.
  - by intros b ?%not_elem_of_nil.
  - by intros b1 b2 ?%not_elem_of_nil.
Qed.

(** Runs keep the invariant and hand out identities in increasing order. *)
Lemma udp_run_spec ops : forall t t' es,
  udp_inv t -> Forall udp_op_ok ops -> udp_run t ops = (t', es) ->
  udp_inv t' /\ ut_next_id t <= ut_next_id t' /\
  StronglySorted Z.lt (es ≫= bound_id) /\ Forall (fun i => ut_next_id t <= i < ut_next_id t') (es ≫= bound_id).
Proof.
  induction ops as [|o ops IH]; intros t t' es Hinv Hok Hr; cbn in Hr.
  { simplify_eq. split_and!; [done | lia | constructor | constructor]. }
  apply Forall_cons in Hok as [Ho Hok].
  pose proof (udp_step_spec t o Hinv Ho) as Hs. destruct (udp_step t o) as [t1 e].
  destruct Hs as (Hinv1 & Hb & _). destruct (udp_run t1 ops) as [t2 es'] eqn:Hr'. simplify_eq.
  destruct (IH t1 t' es' Hinv1 Hok Hr') as (Hinv' & Hle & Hs & Hall).
  rewrite bind_cons. destruct Hb as [[-> Hn]|[-> Hn]]; rewrite Hn in *.
  - done.
  - cbn. split_and!; [done | lia | |].
    + constructor; [done |]. eapply Forall_impl; [done |]. cbn. lia.
    + constructor; [lia |]. eapply Forall_impl; [done |]. cbn. lia.
Qed.

Lemma queue_of_inv t id q : udp_inv t -> queue_of t id = Some q -> id < ut_next_id t.
Proof.
  unfold queue_of. intros Hinv (b & [Hb <-]%udp_abs_lookup & _)%fmap_Some; [|done].
  destruct Hinv as (_ & _ & _ & _ & _ & Hbs & _). by apply Hbs.
Qed.

Lemma udp_run_revive ops : forall t t' es id,
  udp_inv t -> Forall udp_op_ok ops -> udp_run t ops = (t', es) ->
  id < ut_next_id t -> queue_of t id = None -> queue_of t' id = None.
Proof.
  induction ops as [|o ops IH]; intros t t' es id Hinv Hok Hr Hid Hq; cbn in Hr; [by simplify_eq |].
  apply Forall_cons in Hok as [Ho Hok].
  pose proof (udp_step_spec t o Hinv Ho) as Hs. destruct (udp_step t o) as [t1 e].
  destruct Hs as (Hinv1 & Hb & _ & Hn). destruct (udp_run t1 ops) as [t2 es'] eqn:Hr'. simplify_eq.
  eapply IH; [done.. | | by apply Hn]. destruct Hb as [[_ ->]|[_ ->]]; lia.
Qed.

Lemma udp_run_fifo ops : forall t t' es id q,
  udp_inv t -> Forall udp_op_ok ops -> udp_run t ops = (t', es) -> queue_of t' id = Some q ->
  (es ≫= received_by id) ++ q = default [] (queue_of t id) ++ (es ≫= accepted_by id).
Proof.
  induction ops as [|o ops IH]; intros t t' es id q Hinv Hok Hr Hq; cbn in Hr.
  { simplify_eq. rewrite Hq. cbn. by rewrite app_nil_r. }
  apply Forall_cons in Hok as [Ho Hok].
  pose proof (udp_step_spec t o Hinv Ho) as Hs. destruct (udp_step t o) as [t1 e].
  destruct Hs as (Hinv1 & Hb & Hstep & Hn). destruct (udp_run t1 ops) as [t2 es'] eqn:Hr'. simplify_eq.
  rewrite !bind_cons, <- app_assoc, (IH t1 t' es' id q Hinv1 Hok Hr' Hq), !app_assoc, Hstep; [done |].
  destruct (queue_of t id) as [q0|] eqn:Hq0; [right | by left].
  destruct (queue_of t1 id) as [q1|] eqn:Hq1; [done |].
  apply queue_of_inv in Hq0; [|done].
  rewrite (udp_run_revive ops t1 t' es' id) in Hq; try done. destruct Hb as [[_ ->]|[_ ->]]; lia.
Qed.

(** ** Claims *)

(** After any sequence of operations on a new table, with any allocator behaviour: the socket and
    queue limits hold, identities are unique, no two sockets have overlapping
    endpoints and every queued packet is addressed to the socket that holds it; and
    the identities handed out over the whole run are strictly increasing, so none is ever
    reused, not even after its port is rebound. *)
Theorem udp_table_invariant sl ql pl ops (Hsl : 0 <= sl) (Hql : 0 <= ql) (Hok : Forall udp_op_ok ops) :
  let '(t, es) := udp_run (UdpSocketTable_new sl ql pl) ops in
  udp_inv t /\ StronglySorted Z.lt (es ≫= bound_id).
Proof.
  destruct (udp_run _ _) as [t es] eqn:Hr.
  by destruct (udp_run_spec ops _ _ _ (udp_new_inv sl ql pl Hsl Hql) Hok Hr) as (Hinv & _ & Hs & _).
Qed.

Definition demo_datagram : UdpDatagram :=
  {| dg_source_port := 53; dg_destination_port := 49152; dg_payload := [1; 2; 3] |}.

Definition demo_ops : list udp_op :=
  [UBind (fun _ => true) UNSPECIFIED 0; UEnqueue (fun _ => true) [10; 0; 0; 2] [10; 0; 0; 1] demo_datagram;
   UUnbindEndpoint 1; UBindPort (fun _ => true) 49152].

Lemma udp_table_invariant_witness :
  Forall udp_op_ok demo_ops /\
  let '(t, es) := udp_run (UdpSocketTable_new 4 2 64) demo_ops in
  udp_inv t /\ StronglySorted Z.lt (es ≫= bound_id).
Proof.
  assert (Forall udp_op_ok demo_ops) as H by (repeat constructor; cbn; lia).
  split; [exact H | apply (udp_table_invariant 4 2 64 demo_ops); [lia | lia | exact H]].
Defined.

(** C31: Every socket is a first-in first-out queue: for any history of a table
    and any socket that is bound at its end, the packets handed to its reader followed by those still
    queued are exactly the packets accepted for it, in the order they were accepted; none
    is lost, duplicated, reordered or delivered to another socket. *)
Theorem udp_socket_fifo sl ql pl ops t es id q
    (Hsl : 0 <= sl) (Hql : 0 <= ql) (Hok : Forall udp_op_ok ops)
    (Hrun : udp_run (UdpSocketTable_new sl ql pl) ops = (t, es))
    (Hbound : queue_of t id = Some q) :
  (es ≫= received_by id) ++ q = es ≫= accepted_by id.
Proof. exact (udp_run_fifo ops _ t es id q (udp_new_inv sl ql pl Hsl Hql) Hok Hrun Hbound). Qed.

Definition fifo_ops : list udp_op :=
  [UBind (fun _ => true) UNSPECIFIED 49152;
   UEnqueue (fun _ => true) [10; 0; 0; 2] [10; 0; 0; 1] demo_datagram;
   UEnqueue (fun _ => true) [10; 0; 0; 3] [10; 0; 0; 1] demo_datagram;
   UReceiveFor 1].

Lemma udp_socket_fifo_witness :
  let '(t, es) := udp_run (UdpSocketTable_new 4 2 64) fifo_ops in
  exists p1 p2, p1 <> p2 /\ es ≫= received_by 1 = [p1] /\ queue_of t 1 = Some [p2] /\
    (es ≫= received_by 1) ++ [p2] = es ≫= accepted_by 1.
Proof.
  destruct (udp_run _ _) as [t es] eqn:Hr.
  pose (p1 := packet_of [10; 0; 0; 2] [10; 0; 0; 1] demo_datagram).
  pose (p2 := packet_of [10; 0; 0; 3] [10; 0; 0; 1] demo_datagram).
  assert (queue_of t 1 = Some [p2]) as Hq.
  { assert (t = fst (udp_run (UdpSocketTable_new 4 2 64) fifo_ops)) as -> by (by rewrite Hr).
    vm_compute. reflexivity. }
  exists p1, p2. split_and!; [discriminate | | exact Hq |].
  - assert (es = snd (udp_run (UdpSocketTable_new 4 2 64) fifo_ops)) as -> by (by rewrite Hr).
    vm_compute. reflexivity.
  - apply (udp_socket_fifo 4 2 64 fifo_ops t es 1 [p2]); try assumption; try lia.
    repeat constructor; cbn; lia.
Defined.

(** A datagram is queued exactly when some bound socket is addressed by its destination, admits its
    source and has room for it; then it is appended to that socket's queue and to no other, and
    there is only one such socket.  Otherwise nothing changes: the error is
    [Mismatch] when no socket is addressed that admits the source, and [Capacity] when a limit or the
    allocator stands in the way. *)
Theorem udp_enqueue_delivery reserve t src dst d (Hinv : udp_inv t) :
  let '(t', r) := enqueue reserve t src dst d in
  (forall b, udp_abs t !! ub_id b = Some b -> addressed dst (dg_destination_port d) b ->
     (r = Ok tt <-> admits b src (dg_source_port d) /\ enqueue_room reserve t b d) /\
     (r = Ok tt -> udp_abs t' = <[ub_id b := push_packet b (packet_of src dst d)]> (udp_abs t))) /\
  (r = Ok tt -> exists b, udp_abs t !! ub_id b = Some b /\ addressed dst (dg_destination_port d) b) /\
  (r <> Ok tt -> t' = t /\ (r = Err Mismatch \/ r = Err Capacity)) /\ udp_inv t'.
Proof.
  pose proof (enqueue_cases reserve t src dst d Hinv) as He.
  destruct (enqueue reserve t src dst d) as [t' [[]|e|]]; destruct He as (Hinv' & _ & He); [| |done].
  - destruct He as (b & Hb & Ha & Hadm & Hroom & Habs). split_and!; [|by eauto | done | done].
    intros b' Hb' Ha'. pose proof Hb as [Hb0 _]%udp_abs_lookup; [|done].
    pose proof Hb' as [Hb1 _]%udp_abs_lookup; [|done].
    by rewrite (addressed_unique t dst (dg_destination_port d) b' b).
  - destruct He as [-> He]. split_and!; [| done | by intros _; split; [done | naive_solver] | done].
    intros b Hb Ha. split; [|done]. split; [done |]. intros [Hadm (Hpl & Hql & Hres)]. exfalso.
    destruct He as [[_ He]|[_ [He|[He|(id & b' & Hb' & Ha' & He)]]]];
      [by eapply He | lia | congruence |].
    pose proof Hb as [Hb0 _]%udp_abs_lookup; [|done].
    pose proof Hb' as [Hb1 _]%udp_abs_lookup; [|done].
    rewrite (addressed_unique t dst (dg_destination_port d) b' b) in He by done. lia.
Qed.

Definition demo_table : UdpSocketTable :=
  fst (bind_endpoint (fun _ => true) (UdpSocketTable_new 4 2 64) UNSPECIFIED 49152).

Lemma demo_table_inv : udp_inv demo_table.
Proof.
  pose proof (bind_endpoint_cases (fun _ => true) (UdpSocketTable_new 4 2 64) UNSPECIFIED 49152
    (udp_new_inv 4 2 64 ltac:(lia) ltac:(lia)) ltac:(lia)) as H.
  unfold demo_table. destruct (bind_endpoint _ _ _ _). by destruct H.
Qed.

Lemma udp_enqueue_delivery_witness :
  let '(t', r) := enqueue (fun _ => true) demo_table [10; 0; 0; 2] [10; 0; 0; 1] demo_datagram in
  r = Ok tt /\ queue_of t' 1 = Some [packet_of [10; 0; 0; 2] [10; 0; 0; 1] demo_datagram] /\ udp_inv t'.
Proof.
  pose proof (udp_enqueue_delivery (fun _ => true) demo_table [10; 0; 0; 2] [10; 0; 0; 1] demo_datagram
    demo_table_inv) as H.
  destruct (enqueue _ _ _ _ _) as [t' r] eqn:He.
  assert (r = Ok tt /\ queue_of t' 1 = Some [packet_of [10; 0; 0; 2] [10; 0; 0; 1] demo_datagram]) as [Hr Hq].
  { apply (f_equal (fun p => (snd p, queue_of (fst p) 1))) in He. cbn [fst snd] in He.
    vm_compute in He. split; [|vm_compute]; congruence. }
  split_and!; [exact Hr | exact Hq | apply H].
Defined.

(** Binding succeeds only with a fresh identity and an endpoint that collides with no bound one; it
    takes the requested port, or with port zero an ephemeral one, and adds a socket with an empty queue and no
    peer, leaving the others alone.  It fails with [Mismatch] only on a collision with a requested
    port and with [Capacity] only when the table, the identities or the memory are
    exhausted or every one of the 16384 ephemeral ports collides; a failure changes no socket. *)
Theorem udp_bind_contract reserve t address port (Hinv : udp_inv t) (Hport : 0 <= port <= 65535) :
  let '(t', r) := bind_endpoint reserve t address port in
  udp_inv t' /\
  match r with
  | Ok id =>
      id = ut_next_id t /\ ut_next_id t' = id + 1 /\ udp_abs t !! id = None /\
      exists p, (port <> 0 -> p = port) /\
        (port = 0 -> EPHEMERAL_PORT_START <= p <= EPHEMERAL_PORT_END) /\
        conflicts t {| ep_address := address; ep_port := p |} = false /\
        udp_abs t' = <[id := {| ub_id := id; ub_local := {| ep_address := address; ep_port := p |};
                                ub_peer := None; ub_received := [] |}]> (udp_abs t)
  | Err e =>
      ut_next_id t' = ut_next_id t /\ ut_bindings t' = ut_bindings t /\
      (e = Mismatch -> port <> 0 /\ conflicts t {| ep_address := address; ep_port := port |} = true) /\
      (e = Capacity -> ut_socket_limit t <= Z.of_nat (length (ut_bindings t)) \/
         ut_next_id t = U64_MAX \/ reserve 1 = false \/ reserve (ut_queue_limit t) = false \/
         (port = 0 /\ forall p, EPHEMERAL_PORT_START <= p <= EPHEMERAL_PORT_END ->
            conflicts t {| ep_address := address; ep_port := p |} = true)) /\
      (e = Mismatch \/ e = Capacity)
  | Panic => False
  end.
Proof. exact (bind_endpoint_cases reserve t address port Hinv Hport). Qed.

Lemma udp_bind_contract_witness :
  snd (bind_endpoint (fun _ => true) demo_table UNSPECIFIED 49152) = Err Mismatch /\
  49152 <> 0 /\ conflicts demo_table {| ep_address := UNSPECIFIED; ep_port := 49152 |} = true.
Proof.
  pose proof (udp_bind_contract (fun _ => true) demo_table UNSPECIFIED 49152 demo_table_inv
    ltac:(lia)) as H.
  destruct (bind_endpoint _ _ _ _) as [t' r] eqn:Hb.
  assert (r = Err Mismatch) as -> by (apply (f_equal snd) in Hb; vm_compute in Hb; congruence).
  destruct H as (_ & _ & _ & H & _). split; [reflexivity | exact (H eq_refl)].
Defined.
