(* ===== verification/Dhcp.v ===== *)
(** * DHCP messages and client ([network-stack/src/dhcp.rs])

    The encoder of requests, the decoder of replies with its bounded scan over
    options, and the client's state machine with its lease timers.  The
    scan is bounded by the 128 iterations the code allows, which is the fuel of the model. *)

From S2P Require Import Prelude Packet.

(** ** The code *)

Definition DHCP_CLIENT_PORT : Z := 68.
Definition DHCP_SERVER_PORT : Z := 67.
Definition DHCP_FIXED_LEN : nat := 240.
Definition RETRY_BASE_MS : Z := 1000.
Definition FAILURE_RETRY_MS : Z := 30000.
Definition MAX_RETRIES : Z := 8.

Inductive DhcpState : Type :=
  | Init | Selecting | Requesting | Bound | Renewing | Rebinding | Failed.
#[export] Instance DhcpState_eq_dec : EqDecision DhcpState.
Proof. solve_decision. Defined.

Inductive DhcpMessageType : Type := Discover | Offer | Request | Ack | Nak.
#[export] Instance DhcpMessageType_eq_dec : EqDecision DhcpMessageType.
Proof. solve_decision. Defined.

Definition message_type_u8 (k : DhcpMessageType) : Z :=
  match k with Discover => 1 | Offer => 2 | Request => 3 | Ack => 5 | Nak => 6 end.

Record DhcpOffer := {
  of_address : list Z;
  of_subnet_mask : list Z;
  of_gateway : list Z;
  of_dns : list Z;
  of_lease_seconds : Z;
  of_server : list Z;
}.

Record DhcpMessage := {
  dm_message_type : DhcpMessageType;
  dm_offer : DhcpOffer;
}.

Definition DHCP_COOKIE : list Z := [99; 130; 83; 99].

(** One [requested]/[server] option of [encode_request]. *)
Definition put_address_option (code : Z) (ip : option (list Z)) (i : nat) (out : list Z)
    : result PacketError (nat * list Z) :=
  match ip with
  | Some ip =>
      let? out := set_idx out i code in
      let? out := set_idx out (i + 1) 4 in
      let? out := copy_into out (i + 2) (i + 6) ip in
      Ok ((i + 6)%nat, out)
  | None => Ok (i, out)
  end.

Definition encode_request (kind : DhcpMessageType) (xid : Z) (mac : list Z)
    (requested server : option (list Z)) (out : list Z) : result PacketError (nat * list Z) :=
  if negb (bool_decide (kind = Discover)) && negb (bool_decide (kind = Request))
  then Err Unsupported else
  if (length out <? 300)%nat then Err Truncated else
  let? out := fill out 0 300 0 in
  let? out := set_idx out 0 1 in
  let? out := set_idx out 1 1 in
  let? out := set_idx out 2 6 in
  let? out := copy_into out 4 8 (u32_to_be xid) in
  let? out := copy_into out 10 12 (u16_to_be 32768) in
  let? out := copy_into out 28 34 mac in
  let? out := copy_into out 236 240 DHCP_COOKIE in
  let? out := copy_into out 240 243 [53; 1; message_type_u8 kind] in
  let? (i, out) := put_address_option 50 requested 243 out in
  let? (i, out) := put_address_option 54 server i out in
  let? out := copy_into out i (i + 8) [55; 6; 1; 3; 6; 51; 54; 58] in
  let i := (i + 8)%nat in
  let? out := set_idx out i 255 in
  Ok ((i + 1)%nat, out).

(** The variables the option scan of [decode_reply] assigns. *)
Record DhcpFields := {
  df_ty : option DhcpMessageType;
  df_mask : list Z;
  df_gateway : list Z;
  df_dns : list Z;
  df_lease : Z;
  df_server : list Z;
}.

Definition fields_init : DhcpFields :=
  {| df_ty := None; df_mask := replicate 4 0; df_gateway := replicate 4 0; df_dns := replicate 4 0;
     df_lease := 0; df_server := replicate 4 0 |}.

(** [dst.copy_from_slice(src)] into an array of four bytes. *)
Definition array4 (src : list Z) : result PacketError (list Z) :=
  match try_into_array 4 src with Some a => Ok a | None => Panic end.

(** The [match (code, len)] of the scan. *)
Definition dhcp_option (f : DhcpFields) (code len : Z) (value : list Z) : result PacketError DhcpFields :=
  if (code =? 53) && (len =? 1) then
    let? v := idx value 0 in
    let? ty := (if v =? 2 then Ok Offer else if v =? 5 then Ok Ack else if v =? 6 then Ok Nak
                else Err Unsupported) in
    Ok {| df_ty := Some ty; df_mask := df_mask f; df_gateway := df_gateway f; df_dns := df_dns f;
          df_lease := df_lease f; df_server := df_server f |}
  else if (code =? 1) && (len =? 4) then
    let? a := array4 value in
    Ok {| df_ty := df_ty f; df_mask := a; df_gateway := df_gateway f; df_dns := df_dns f;
          df_lease := df_lease f; df_server := df_server f |}
  else if (code =? 3) && (4 <=? len) then
    let? s := slice value 0 4 in let? a := array4 s in
    Ok {| df_ty := df_ty f; df_mask := df_mask f; df_gateway := a; df_dns := df_dns f;
          df_lease := df_lease f; df_server := df_server f |}
  else if (code =? 6) && (4 <=? len) then
    let? s := slice value 0 4 in let? a := array4 s in
    Ok {| df_ty := df_ty f; df_mask := df_mask f; df_gateway := df_gateway f; df_dns := a;
          df_lease := df_lease f; df_server := df_server f |}
  else if (code =? 51) && (len =? 4) then
    let? a := ok_or (try_into_array 4 value) InvalidLength in
    let? a0 := idx a 0 in let? a1 := idx a 1 in let? a2 := idx a 2 in let? a3 := idx a 3 in
    Ok {| df_ty := df_ty f; df_mask := df_mask f; df_gateway := df_gateway f; df_dns := df_dns f;
          df_lease := u32_from_be a0 a1 a2 a3; df_server := df_server f |}
  else if (code =? 54) && (len =? 4) then
    let? a := array4 value in
    Ok {| df_ty := df_ty f; df_mask := df_mask f; df_gateway := df_gateway f; df_dns := df_dns f;
          df_lease := df_lease f; df_server := a |}
  else Ok f.

(** [while i < b.len() && count < 128]; [fuel] is [128 - count]. *)
Fixpoint dhcp_scan (fuel : nat) (b : list Z) (i : nat) (f : DhcpFields) : result PacketError DhcpFields :=
  match fuel with
  | O => Ok f
  | S fuel =>
      if (i <? length b)%nat then
        let? code := idx b i in
        let i := S i in
        if code =? 255 then Ok f else
        if code =? 0 then dhcp_scan fuel b i f else
        match b !! i with
        | None => Err InvalidLength
        | Some len =>
            let i := S i in
            let? e := ok_or (checked_add i (Z.to_nat len)) InvalidLength in
            let? value := ok_or (get_range b i e) InvalidLength in
            let? f := dhcp_option f code len value in
            dhcp_scan fuel b e f
        end
      else Ok f
  end.

Definition decode_reply (b : list Z) (xid : Z) (mac : list Z) : result PacketError DhcpMessage :=
  if (length b <? DHCP_FIXED_LEN)%nat then Err Truncated else
  let? b0 := idx b 0 in let? b1 := idx b 1 in let? b2 := idx b 2 in
  if negb (b0 =? 2) || negb (b1 =? 1) || negb (b2 =? 6) then Err InvalidHeader else
  let? b4 := idx b 4 in let? b5 := idx b 5 in let? b6 := idx b 6 in let? b7 := idx b 7 in
  let? chaddr := slice b 28 34 in
  if negb (u32_from_be b4 b5 b6 b7 =? xid) || bool_decide (chaddr <> mac) then Err Mismatch else
  let? cookie := slice b 236 240 in
  if bool_decide (cookie <> DHCP_COOKIE) then Err InvalidHeader else
  let? a0 := idx b 16 in let? a1 := idx b 17 in let? a2 := idx b 18 in let? a3 := idx b 19 in
  let address := [a0; a1; a2; a3] in
  let? f := dhcp_scan 128 b 240 fields_init in
  let? message_type := ok_or (df_ty f) InvalidHeader in
  if bool_decide (df_server f = replicate 4 0)
     || (bool_decide (message_type <> Nak) && bool_decide (address = replicate 4 0))
  then Err InvalidHeader else
  Ok {| dm_message_type := message_type;
        dm_offer := {| of_address := address; of_subnet_mask := df_mask f; of_gateway := df_gateway f;
                       of_dns := df_dns f; of_lease_seconds := df_lease f; of_server := df_server f |} |}.

Record DhcpClient := {
  dc_state : DhcpState;
  dc_xid : Z;
  dc_mac : list Z;
  dc_offer : option DhcpOffer;
  dc_retries : Z;
  dc_next_retry : Z;
  dc_renew_at : Z;
  dc_rebind_at : Z;
  dc_lease_deadline : Z;
}.

Definition DhcpClient_new (xid : Z) (mac : list Z) : DhcpClient :=
  {| dc_state := Init; dc_xid := xid; dc_mac := mac; dc_offer := None; dc_retries := 0;
     dc_next_retry := 0; dc_renew_at := 0; dc_rebind_at := 0; dc_lease_deadline := 0 |}.

(** The fields that change together: state, offer, retry counter and retry time. *)
Definition dc_set (c : DhcpClient) (s : DhcpState) (o : option DhcpOffer) (retries next : Z) : DhcpClient :=
  {| dc_state := s; dc_xid := dc_xid c; dc_mac := dc_mac c; dc_offer := o; dc_retries := retries;
     dc_next_retry := next; dc_renew_at := dc_renew_at c; dc_rebind_at := dc_rebind_at c;
     dc_lease_deadline := dc_lease_deadline c |}.

Definition DhcpClient_begin (self : DhcpClient) (now : Z) : DhcpClient :=
  dc_set self Selecting (dc_offer self) 0 (saturating_add64 now RETRY_BASE_MS).

(** The guard of the acknowledgement arm. *)
Definition ack_matches (self : DhcpClient) (msg : DhcpMessage) : bool :=
  match dc_offer self with
  | Some offer => bool_decide (of_address offer = of_address (dm_offer msg))
                  && bool_decide (of_server offer = of_server (dm_offer msg))
  | None => false
  end.

Definition DhcpClient_accept (self : DhcpClient) (msg : DhcpMessage) (now : Z)
    : DhcpClient * result PacketError unit :=
  let bound :=
    let lease_ms := saturating_mul64 (of_lease_seconds (dm_offer msg)) 1000 in
    ({| dc_state := Bound; dc_xid := dc_xid self; dc_mac := dc_mac self; dc_offer := Some (dm_offer msg);
        dc_retries := 0; dc_next_retry := dc_next_retry self;
        dc_renew_at := saturating_add64 now (lease_ms / 2);
        dc_rebind_at := saturating_add64 now (saturating_mul64 lease_ms 7 / 8);
        dc_lease_deadline := saturating_add64 now lease_ms |}, Ok tt) in
  match dc_state self, dm_message_type msg with
  | Selecting, Offer =>
      (dc_set self Requesting (Some (dm_offer msg)) (dc_retries self) (saturating_add64 now RETRY_BASE_MS), Ok tt)
  | (Requesting | Renewing | Rebinding), Ack =>
      if ack_matches self msg then bound else (self, Err Mismatch)
  | _, Nak =>
      (dc_set self Failed None (dc_retries self) (saturating_add64 now FAILURE_RETRY_MS), Ok tt)
  | _, _ => (self, Err Mismatch)
  end.

Definition matches_state (s : DhcpState) (l : list DhcpState) : bool := bool_decide (s ∈ l).

(** [RETRY_BASE_MS << self.retries.min(5)]. *)
Definition retry_delay (retries : Z) : Z := Z.shiftl RETRY_BASE_MS (Z.min retries 5).

(** The five conditional blocks of [tick], in the order of the code. *)
Definition tick_renew (self : DhcpClient) (now : Z) : DhcpClient :=
  if matches_state (dc_state self) [Bound] && (dc_renew_at self <=? now)
  then dc_set self Renewing (dc_offer self) 0 now else self.
Definition tick_rebind (self : DhcpClient) (now : Z) : DhcpClient :=
  if matches_state (dc_state self) [Renewing] && (dc_rebind_at self <=? now)
  then dc_set self Rebinding (dc_offer self) 0 now else self.
Definition tick_expire (self : DhcpClient) (now : Z) : DhcpClient :=
  if matches_state (dc_state self) [Renewing; Rebinding] && (dc_lease_deadline self <=? now)
  then dc_set self Failed None (dc_retries self) (saturating_add64 now FAILURE_RETRY_MS) else self.
Definition tick_restart (self : DhcpClient) (now : Z) : DhcpClient :=
  if matches_state (dc_state self) [Failed] && (dc_next_retry self <=? now)
  then DhcpClient_begin self now else self.
Definition tick_retry (self : DhcpClient) (now : Z) : DhcpClient :=
  if matches_state (dc_state self) [Selecting; Requesting; Renewing; Rebinding]
     && (dc_next_retry self <=? now)
  then
    let retries := saturating_add8 (dc_retries self) 1 in
    let self := dc_set self (dc_state self) (dc_offer self) retries
                  (saturating_add64 now (retry_delay retries)) in
    if MAX_RETRIES <=? retries
    then dc_set self Failed None retries (saturating_add64 now FAILURE_RETRY_MS)
    else self
  else self.

Definition DhcpClient_tick (self : DhcpClient) (now : Z) : DhcpClient :=
  tick_retry (tick_restart (tick_expire (tick_rebind (tick_renew self now) now) now) now) now.

(** ** Requests on the wire *)

(** Options are a code, a length and so many bytes. *)
Definition options_wire (opts : list (Z * list Z)) : list Z :=
  opts ≫= fun '(c, v) => c :: Z.of_nat (length v) :: v.

Definition request_options (kind : DhcpMessageType) (requested server : option (list Z)) : list (Z * list Z) :=
  [(53, [message_type_u8 kind])] ++ ((fun ip => (50, ip)) <$> option_list requested)
  ++ ((fun ip => (54, ip)) <$> option_list server) ++ [(55, [1; 3; 6; 51; 54; 58])].

(** The fixed part of a request: boot request, Ethernet, broadcast flag. *)
Definition request_header (xid : Z) (mac : list Z) : list Z :=
  [1; 1; 6; 0] ++ u32_to_be xid ++ [0; 0; 128; 0] ++ replicate 16 0 ++ mac ++ replicate 202 0 ++ DHCP_COOKIE.

Definition request_wire (kind : DhcpMessageType) (xid : Z) (mac : list Z)
    (requested server : option (list Z)) : list Z :=
  request_header xid mac ++ options_wire (request_options kind requested server) ++ [255].

Lemma encode_request_wire kind xid mac requested server out :
  kind = Discover \/ kind = Request -> (300 <= length out)%nat -> arr 6 mac ->
  from_option (arr 4) True requested -> from_option (arr 4) True server ->
  let w := request_wire kind xid mac requested server in
  encode_request kind xid mac requested server out =
    Ok (length w, w ++ replicate (300 - length w) 0 ++ drop 300 out).
Proof.
  intros Hk Hl Hm Hr Hs. cbv zeta. unfold encode_request.
  assert (negb (bool_decide (kind = Discover)) && negb (bool_decide (kind = Request)) = false) as ->
    by (destruct Hk as [-> | ->]; done).
  destruct (Nat.ltb_spec (length out) 300); [lia |].
  rewrite fill_prefix by done. generalize (drop 300 out). intros rest.
  unfold request_wire, request_header, request_options. generalize (message_type_u8 kind). intros k.
  assert (arr 4 (u32_to_be xid)) as Hx by (split; [done | apply bytes_u32_to_be]).
  revert Hx. generalize (u32_to_be xid). intros x Hx.
  explode_arr Hm. explode_arr Hx.
  destruct requested as [r|], server as [s|]; cbn [from_option] in Hr, Hs;
    try explode_arr Hr; try explode_arr Hs; vm_compute; reflexivity.
Qed.

(** ** Replies *)

(** The values of the options with a given code whose length satisfies [ok]. *)
Definition option_values (c : Z) (ok : nat -> bool) (opts : list (Z * list Z)) : list (list Z) :=
  snd <$> List.filter (fun o => (fst o =? c) && ok (length (snd o))) opts.

Definition reply_type (v : list Z) : option DhcpMessageType :=
  match v with [2] => Some Offer | [5] => Some Ack | [6] => Some Nak | _ => None end.

Definition be32 (v : list Z) : Z :=
  match v with [a; b; c; d] => u32_from_be a b c d | _ => 0 end.

(** What a list of options says: of each kind the last one of a fitting length
    counts, the others keep what [f] has. *)
Definition override (f : DhcpFields) (opts : list (Z * list Z)) : DhcpFields :=
  let four := fun n => (n =? 4)%nat in let more := fun n => (4 <=? n)%nat in
  {| df_ty := match last (option_values 53 (fun n => n =? 1)%nat opts) with
              | Some v => reply_type v | None => df_ty f end;
     df_mask := default (df_mask f) (last (option_values 1 four opts));
     df_gateway := default (df_gateway f) (take 4 <$> last (option_values 3 more opts));
     df_dns := default (df_dns f) (take 4 <$> last (option_values 6 more opts));
     df_lease := default (df_lease f) (be32 <$> last (option_values 51 four opts));
     df_server := default (df_server f) (last (option_values 54 four opts)) |}.

Definition option_ok (o : Z * list Z) : Prop :=
  fst o <> 0 /\ fst o <> 255 /\ (length (snd o) <= 255)%nat /\ bytes (snd o) /\
  (fst o = 53 -> length (snd o) = 1%nat -> reply_type (snd o) <> None).

Lemma option_values_cons c ok o opts :
  option_values c ok (o :: opts) =
  if (fst o =? c) && ok (length (snd o)) then snd o :: option_values c ok opts
  else option_values c ok opts.
Proof. unfold option_values. cbn [List.filter]. by case_match. Qed.

Lemma last_default {A B} (g : A -> B) (d : B) x l :
  default d (g <$> last (x :: l)) = default (g x) (g <$> last l).
Proof. rewrite last_cons. by destruct (last l). Qed.

Lemma last_default_id {A} (d : A) x l : default d (last (x :: l)) = default x (last l).
Proof. rewrite last_cons. by destruct (last l). Qed.

Lemma reply_type_value v :
  (if v =? 2 then Ok Offer else if v =? 5 then Ok Ack else if v =? 6 then Ok Nak else Err Unsupported)
  = ok_or (reply_type [v]) Unsupported.
Proof.
  unfold reply_type. destruct (Z.eqb_spec v 2) as [->|]; [done |].
  destruct (Z.eqb_spec v 5) as [->|]; [done |]. destruct (Z.eqb_spec v 6) as [->|]; [done |].
  destruct v as [|p|p]; try done. do 3 (destruct p as [p|p|]; try done).
Qed.

Lemma dhcp_option_step f c v opts :
  option_ok (c, v) ->
  exists f', dhcp_option f c (Z.of_nat (length v)) v = Ok f' /\ override f' opts = override f ((c, v) :: opts).
Proof.
  intros (_ & _ & Hlen & Hb & Hty). cbn [fst snd] in *. unfold override.
  assert (Hz : forall n : nat, (Z.of_nat (length v) =? Z.of_nat n) = (length v =? n)%nat).
  { intros n. destruct (Z.eqb_spec (Z.of_nat (length v)) (Z.of_nat n)),
      (Nat.eqb_spec (length v) n); lia. }
  assert (Hle : (4 <=? Z.of_nat (length v)) = (4 <=? length v)%nat).
  { destruct (Z.leb_spec 4 (Z.of_nat (length v))), (Nat.leb_spec 4 (length v)); lia. }
  rewrite !option_values_cons. cbn [fst snd]. unfold dhcp_option.
  change 1 with (Z.of_nat 1). change 4 with (Z.of_nat 4). rewrite !Hz.
  change (Z.of_nat 1) with 1. change (Z.of_nat 4) with 4. rewrite Hle.
  assert (H4 : length v = 4%nat -> exists x0 x1 x2 x3, v = [x0; x1; x2; x3]).
  { intros H. do 5 (destruct v as [|? v]; try done). eauto. }
  assert (H5 : (4 <= length v)%nat -> slice (E := PacketError) v 0 4 = Ok (take 4 v) /\ array4 (take 4 v) = Ok (take 4 v)).
  { intros H. rewrite slice_in by lia. split; [done |]. unfold array4, try_into_array.
    by rewrite length_take_le by lia. }
  destruct (Z.eqb_spec c 53) as [->|]; cbn - [Nat.leb last reply_type].
  { destruct (Nat.eqb_spec (length v) 1) as [Hv|]; [|by eexists].
    destruct v as [|x [|]]; try done. cbn [idx lookup list_lookup]. rewrite reply_type_value.
    destruct (reply_type [x]) as [ty|] eqn:Ht; [|by destruct (Hty eq_refl eq_refl)].
    eexists. split; [done |]. cbn - [last reply_type]. rewrite last_cons. destruct (last _); [done |]. by rewrite Ht. }
  destruct (Z.eqb_spec c 1) as [->|]; cbn - [Nat.leb last reply_type].
  { destruct (Nat.eqb_spec (length v) 4) as [Hv|]; [|by eexists].
    destruct (H4 Hv) as (x0 & x1 & x2 & x3 & ->). eexists. split; [done |]. cbn - [last]. by rewrite last_default_id. }
  destruct (Z.eqb_spec c 3) as [->|]; cbn - [Nat.leb last reply_type].
  { destruct (Nat.leb_spec 4 (length v)) as [Hv|]; [|by eexists].
    destruct (H5 Hv) as [-> ->]. eexists. split; [done |]. cbn - [last take]. by rewrite last_default. }
  destruct (Z.eqb_spec c 6) as [->|]; cbn - [Nat.leb last reply_type].
  { destruct (Nat.leb_spec 4 (length v)) as [Hv|]; [|by eexists].
    destruct (H5 Hv) as [-> ->]. eexists. split; [done |]. cbn - [last take]. by rewrite last_default. }
  destruct (Z.eqb_spec c 51) as [->|]; cbn - [Nat.leb last reply_type].
  { destruct (Nat.eqb_spec (length v) 4) as [Hv|]; [|by eexists].
    destruct (H4 Hv) as (x0 & x1 & x2 & x3 & ->). eexists. split; [done |]. cbn - [last u32_from_be]. by rewrite last_default. }
  destruct (Z.eqb_spec c 54) as [->|]; cbn - [Nat.leb last reply_type].
  { destruct (Nat.eqb_spec (length v) 4) as [Hv|]; [|by eexists].
    destruct (H4 Hv) as (x0 & x1 & x2 & x3 & ->). eexists. split; [done |]. cbn - [last]. by rewrite last_default_id. }
  by eexists.
Qed.

Lemma override_nil f : override f [] = f.
Proof. by destruct f. Qed.

(** The scan reads a well-formed list of options off the wire, up to the end marker. *)
Lemma dhcp_scan_options junk opts : forall fuel pre f,
  Forall option_ok opts -> (length opts < fuel)%nat ->
  Z.of_nat (length pre + length (options_wire opts)) <= USIZE_MAX ->
  dhcp_scan fuel (pre ++ options_wire opts ++ 255 :: junk) (length pre) f = Ok (override f opts).
Proof.
  induction opts as [|[c v] opts IH]; intros [|fuel] pre f Hok Hfuel Hmax; try (cbn in Hfuel; lia).
  - change (options_wire []) with (@nil Z). cbn [dhcp_scan app].
    rewrite (proj2 (Nat.ltb_lt _ _)) by (rewrite length_app; cbn; lia).
    unfold idx. rewrite list_lookup_middle by done. by rewrite override_nil.
  - apply Forall_cons in Hok as [Ho Hok]. unfold options_wire in *. rewrite bind_cons in *.
    fold (options_wire opts) in *. rewrite <- app_assoc. cbn [app] in *. cbn [dhcp_scan].
    assert (length (c :: Z.of_nat (length v) :: v ++ options_wire opts) =
            (2 + length v + length (options_wire opts))%nat) as Hl by (cbn; rewrite length_app; lia).
    rewrite Hl in Hmax.
    rewrite (proj2 (Nat.ltb_lt _ _)) by (rewrite !length_app; cbn; lia).
    unfold idx at 1. rewrite list_lookup_middle by done.
    pose proof Ho as (H0 & H255 & Hv & _). cbn [fst snd] in *.
    rewrite (proj2 (Z.eqb_neq c 255)), (proj2 (Z.eqb_neq c 0)) by done.
    rewrite (lookup_app_r pre) by lia.
    replace (S (length pre) - length pre)%nat with 1%nat by lia. cbn [lookup list_lookup].
    rewrite Nat2Z.id, checked_add_small by lia. cbn [ok_or].
    rewrite get_range_in by (rewrite length_app; cbn; rewrite length_app; lia). cbn [ok_or].
    replace (S (S (length pre)) + length v - S (S (length pre)))%nat with (length v) by lia.
    replace (S (S (length pre))) with (length (pre ++ [c; Z.of_nat (length v)])) by (rewrite length_app; cbn; lia).
    replace (pre ++ c :: Z.of_nat (length v) :: v ++ options_wire opts ++ 255 :: junk)
      with ((pre ++ [c; Z.of_nat (length v)]) ++ v ++ options_wire opts ++ 255 :: junk)
      by (by rewrite <- app_assoc).
    rewrite drop_app_length, take_app_length.
    destruct (dhcp_option_step f c v opts Ho) as (f' & -> & <-).
    rewrite app_assoc. rewrite <- length_app. apply IH; [done | cbn in Hfuel; lia |].
    rewrite !length_app. cbn. lia.
Qed.

(** The fixed part of a reply; [pad1], [pad2] and [pad3] are the fields the client ignores. *)
Definition reply_header (hops xid : Z) (pad1 address pad2 mac pad3 : list Z) : list Z :=
  [2; 1; 6; hops] ++ u32_to_be xid ++ pad1 ++ address ++ pad2 ++ mac ++ pad3 ++ DHCP_COOKIE.

(** What the fields of a reply amount to. *)
Definition reply_result (address : list Z) (f : DhcpFields) : result PacketError DhcpMessage :=
  match df_ty f with
  | None => Err InvalidHeader
  | Some ty =>
      if bool_decide (df_server f = replicate 4 0 \/ ty <> Nak /\ address = replicate 4 0)
      then Err InvalidHeader
      else Ok {| dm_message_type := ty;
                 dm_offer := {| of_address := address; of_subnet_mask := df_mask f;
                                of_gateway := df_gateway f; of_dns := df_dns f;
                                of_lease_seconds := df_lease f; of_server := df_server f |} |}
  end.

Lemma reply_header_length hops xid pad1 address pad2 mac pad3 :
  length pad1 = 8%nat -> length address = 4%nat -> length pad2 = 8%nat -> length mac = 6%nat ->
  length pad3 = 202%nat -> length (reply_header hops xid pad1 address pad2 mac pad3) = 240%nat.
Proof. intros. unfold reply_header. rewrite !length_app. cbn. lia. Qed.

Lemma decode_reply_header hops xid pad1 address pad2 mac pad3 tail :
  is_u32 xid -> length pad1 = 8%nat -> length address = 4%nat -> length pad2 = 8%nat ->
  length mac = 6%nat -> length pad3 = 202%nat ->
  let b := reply_header hops xid pad1 address pad2 mac pad3 ++ tail in
  decode_reply b xid mac = let? f := dhcp_scan 128 b 240 fields_init in reply_result address f.
Proof.
  intros Hx H1 Ha H2 Hm H3 b. unfold decode_reply.
  assert (length b = (240 + length tail)%nat) as Hlen
    by (subst b; by rewrite length_app, reply_header_length).
  rewrite Hlen. unfold DHCP_FIXED_LEN. rewrite (proj2 (Nat.ltb_ge _ _)) by lia.
  assert (slice (E := PacketError) b 236 240 = Ok DHCP_COOKIE) as ->.
  { subst b. unfold reply_header. rewrite !app_assoc.
    rewrite <- (app_assoc _ DHCP_COOKIE tail). apply slice_middle; [|done].
    rewrite !length_app. cbn. lia. }
  assert (slice (E := PacketError) b 28 34 = Ok mac) as ->.
  { replace b with (([2; 1; 6; hops] ++ u32_to_be xid ++ pad1 ++ address ++ pad2) ++ mac ++
      (pad3 ++ DHCP_COOKIE ++ tail)) by (subst b; unfold reply_header; by rewrite <- !app_assoc).
    apply slice_middle; [|lia]. rewrite !length_app. cbn. lia. }
  generalize (dhcp_scan 128 b 240 fields_init). intros scan. subst b. unfold reply_header, u32_to_be.
  explode_list pad1. explode_list address. cbn - [u32_from_be replicate].
  rewrite u32_be_roundtrip, Z.eqb_refl by done. rewrite bool_decide_eq_false_2 by naive_solver. cbn - [replicate].
  destruct scan as [f| |]; cbn; [|done..]. unfold reply_result.
  destruct (df_ty f) as [ty|]; cbn; [|done].
  rewrite bool_decide_or, bool_decide_and. done.
Qed.

Definition fields_wf (f : DhcpFields) : Prop :=
  df_ty f <> Some Discover /\ df_ty f <> Some Request /\
  arr 4 (df_mask f) /\ arr 4 (df_gateway f) /\ arr 4 (df_dns f) /\ arr 4 (df_server f) /\ is_u32 (df_lease f).

Lemma array4_arr v : length v = 4%nat -> array4 v = Ok v.
Proof. intros H. unfold array4, try_into_array. by rewrite H. Qed.

Lemma slice4_arr v :
  bytes v -> (4 <= length v)%nat -> slice (E := PacketError) v 0 4 = Ok (take 4 v) /\ arr 4 (take 4 v).
Proof.
  intros Hb Hl. rewrite slice_in by lia. split; [done |]. split; [rewrite length_take; lia |].
  by apply Forall_take.
Qed.

Lemma dhcp_option_wf f code len value :
  fields_wf f -> bytes value -> is_u8 len -> length value = Z.to_nat len ->
  match dhcp_option f code len value with Ok f' => fields_wf f' | Err _ => True | Panic => False end.
Proof.
  intros (Ht1 & Ht2 & Hm & Hg & Hd & Hs & Hl) Hb Hu Hlen. unfold dhcp_option.
  assert (forall k, (len =? Z.of_nat k) = true -> length value = k) as Hk.
  { intros k ?%Z.eqb_eq. lia. }
  assert ((4 <=? len) = true -> (4 <= length value)%nat) as Hmore by (intros ?%Z.leb_le; lia).
  destruct ((code =? 53) && _) eqn:E1.
  { apply andb_true_iff in E1 as [_ E1]. apply (Hk 1%nat) in E1.
    destruct value as [|x [|]]; try done. cbn [idx lookup list_lookup].
    repeat case_match; simplify_eq; try done; unfold fields_wf; cbn; naive_solver. }
  destruct ((code =? 1) && _) eqn:E2.
  { apply andb_true_iff in E2 as [_ E2]. apply (Hk 4%nat) in E2. rewrite array4_arr by done.
    unfold fields_wf; cbn. split_and!; done. }
  destruct ((code =? 3) && _) eqn:E3.
  { apply andb_true_iff in E3 as [_ E3]. destruct (slice4_arr value Hb (Hmore E3)) as [-> Ha].
    rewrite array4_arr by apply Ha. unfold fields_wf; cbn - [take]. split_and!; try done; apply Ha. }
  destruct ((code =? 6) && _) eqn:E4.
  { apply andb_true_iff in E4 as [_ E4]. destruct (slice4_arr value Hb (Hmore E4)) as [-> Ha].
    rewrite array4_arr by apply Ha. unfold fields_wf; cbn - [take]. split_and!; try done; apply Ha. }
  destruct ((code =? 51) && _) eqn:E5.
  { apply andb_true_iff in E5 as [_ E5]. apply (Hk 4%nat) in E5. assert (arr 4 value) as Hv by done.
    explode_arr Hv. cbn - [u32_from_be]. unfold fields_wf; cbn - [u32_from_be].
    split_and!; try done. by apply u32_from_be_range. }
  destruct ((code =? 54) && _) eqn:E6; [|done].
  apply andb_true_iff in E6 as [_ E6]. apply (Hk 4%nat) in E6. rewrite array4_arr by done.
  unfold fields_wf; cbn. split_and!; done.
Qed.

Lemma dhcp_scan_wf b : bytes b -> forall fuel i f, fields_wf f ->
  match dhcp_scan fuel b i f with Ok f' => fields_wf f' | Err _ => True | Panic => False end.
Proof.
  intros Hb. induction fuel as [|fuel IH]; intros i f Hf; [done |]. cbn [dhcp_scan].
  destruct (Nat.ltb_spec i (length b)) as [Hi|]; [|done].
  destruct (idx_in (E := PacketError) b i Hi) as (code & -> & Hc).
  destruct (code =? 255); [done |]. destruct (code =? 0); [by apply IH |].
  destruct (b !! S i) as [len|] eqn:Hlen; [|done].
  pose proof (bytes_lookup _ _ _ Hb Hlen) as Hu.
  destruct (checked_add _ _) as [e|] eqn:He; cbn [ok_or]; [|done]. apply checked_add_Some in He.
  destruct (get_range b (S (S i)) e) as [value|] eqn:Hv; cbn [ok_or]; [|done].
  pose proof (dhcp_option_wf f code len value Hf (get_range_bytes _ _ _ _ Hb Hv) Hu) as Ho.
  apply get_range_length in Hv. specialize (Ho ltac:(lia)).
  destruct (dhcp_option f code len value); [by apply IH | done | done].
Qed.

Lemma fields_init_wf : fields_wf fields_init.
Proof. unfold fields_wf, fields_init, arr; cbn. split_and!; try done; solve_bytes. Qed.

(** Every long enough reply with the right fixed part is a header and a tail. *)
Lemma decode_reply_split b xid mac :
  bytes b -> is_u32 xid -> (240 <= length b)%nat ->
  (exists e, decode_reply b xid mac = Err e /\ e <> Truncated) \/
  exists hops pad1 address pad2 pad3 tail,
    length pad1 = 8%nat /\ arr 4 address /\ length pad2 = 8%nat /\ arr 6 mac /\ length pad3 = 202%nat /\
    b = reply_header hops xid pad1 address pad2 mac pad3 ++ tail.
Proof.
  intros Hb Hx Hl. unfold decode_reply, DHCP_FIXED_LEN. rewrite (proj2 (Nat.ltb_ge _ _)) by lia.
  rewrite !slice_in by lia. generalize (dhcp_scan 128 b 240 fields_init). intros scan.
  explode_prefix 34%nat b. cbn [idx lookup list_lookup app] in *.
  assert (206 <= length rest)%nat by (cbn in Hl; lia). clear Hl. split_bytes.
  destruct (_ || _ || _) eqn:Hop; [left; by eexists |]. bool_cases. subst.
  destruct (_ || _) eqn:Hid; [left; by eexists |]. apply orb_false_iff in Hid as [Hid Hm]. bool_cases. subst.
  case_bool_decide as Hck; [left; by eexists |]. right. apply dec_stable in Hm.
  exists x2, [x7; x8; x9; x10; x11; x12; x13; x14], [x15; x16; x17; x18],
    [x19; x20; x21; x22; x23; x24; x25; x26], (take 202 rest), (drop 206 rest).
  change (take _ (drop 28 _)) with [x27; x28; x29; x30; x31; x32] in Hm.
  change (drop 236 _) with (drop 202 rest) in Hck.
  subst mac. split_and!; try done; try (split; [done | solve_bytes]).
  - rewrite length_take. lia.
  - unfold reply_header. rewrite <- Hck, <- !app_assoc. change (240 - 236)%nat with 4%nat.
    rewrite (app_assoc (take 202 rest)), take_take_drop. change (202 + 4)%nat with 206%nat.
    rewrite take_drop. unfold u32_to_be, u32_from_be. cbn - [Z.mul Z.add]. repeat f_equal; divlia.
Qed.

Lemma reply_result_Ok address f m :
  reply_result address f = Ok m ->
  df_ty f = Some (dm_message_type m) /\ df_server f <> replicate 4 0 /\
  (dm_message_type m = Nak \/ address <> replicate 4 0) /\
  dm_offer m = {| of_address := address; of_subnet_mask := df_mask f; of_gateway := df_gateway f;
                  of_dns := df_dns f; of_lease_seconds := df_lease f; of_server := df_server f |}.
Proof.
  unfold reply_result. destruct (df_ty f) as [ty|]; [|done]. case_bool_decide as Hd; [done |].
  intros [= <-]. cbn [dm_message_type dm_offer]. split_and!; [done | naive_solver | | done].
  destruct (decide (ty = Nak)); naive_solver.
Qed.

Lemma options_wire_length opts :
  Forall option_ok opts -> (length (options_wire opts) <= 257 * length opts)%nat.
Proof.
  induction 1 as [|[c v] opts (_ & _ & Hv & _) _ IH]; [done |]. unfold options_wire in *.
  rewrite bind_cons. cbn [app length fst snd] in *. rewrite length_app. lia.
Qed.

(** What the types of the fields guarantee. *)
Definition offer_wf (o : DhcpOffer) : Prop :=
  arr 4 (of_address o) /\ arr 4 (of_subnet_mask o) /\ arr 4 (of_gateway o) /\ arr 4 (of_dns o) /\
  arr 4 (of_server o) /\ is_u32 (of_lease_seconds o).

(** ** Claims on messages *)

(** A discover or request is laid out exactly as the wire format says, for any content the
    buffer had: fixed header with transaction and hardware address, the options in order, the end marker,
    zero padding to 300 bytes; bytes beyond stay, and the length returned ends at
    the end marker.  Other kinds and short buffers are refused. *)
Theorem encode_request_layout kind xid mac requested server out
    (Hmac : arr 6 mac) (Hr : from_option (arr 4) True requested) (Hs : from_option (arr 4) True server) :
  encode_request kind xid mac requested server out =
  if decide (kind = Discover \/ kind = Request) then
    if decide (300 <= length out)%nat then
      let w := request_wire kind xid mac requested server in
      Ok (length w, w ++ replicate (300 - length w) 0 ++ drop 300 out)
    else Err Truncated
  else Err Unsupported.
Proof.
  destruct (decide (kind = Discover \/ kind = Request)) as [Hk|Hk].
  - destruct (decide (300 <= length out)%nat) as [Hl|Hl]; [by apply encode_request_wire |].
    unfold encode_request. rewrite (proj2 (Nat.ltb_lt _ _)) by lia. by destruct Hk as [-> | ->].
  - unfold encode_request. by rewrite !bool_decide_eq_false_2 by naive_solver.
Qed.

Lemma encode_request_layout_witness :
  exists out, encode_request Request 7 [2; 0; 0; 0; 0; 1] (Some [10; 0; 2; 15]) None (replicate 301 9)
    = Ok (258%nat, out) /\ length out = 301%nat.
Proof.
  eexists. split.
  - rewrite encode_request_layout; [vm_compute; reflexivity | | |];
      (exact I || (split; [reflexivity | solve_bytes])).
  - reflexivity.
Defined.

(** Whatever bytes arrive, the reply decoder returns without a panic, and it accepts only
    replies for the given transaction and hardware address that carry the magic cookie, a reply message
    type, a server and (unless negative) an address; every field of an accepted message has
    its declared width. *)
Theorem decode_reply_safe b xid mac (Hb : bytes b) (Hx : is_u32 xid) :
  decode_reply b xid mac <> Panic /\
  forall m, decode_reply b xid mac = Ok m ->
    offer_wf (dm_offer m) /\ dm_message_type m <> Discover /\ dm_message_type m <> Request /\
    of_server (dm_offer m) <> replicate 4 0 /\
    (dm_message_type m = Nak \/ of_address (dm_offer m) <> replicate 4 0) /\
    exists hops pad1 pad2 pad3 tail,
      length pad1 = 8%nat /\ length pad2 = 8%nat /\ length pad3 = 202%nat /\
      b = reply_header hops xid pad1 (of_address (dm_offer m)) pad2 mac pad3 ++ tail.
Proof.
  destruct (Nat.ltb_spec (length b) 240) as [Hl|Hl].
  { assert (decode_reply b xid mac = Err Truncated) as ->; [|done].
    unfold decode_reply, DHCP_FIXED_LEN. by rewrite (proj2 (Nat.ltb_lt _ _)). }
  destruct (decode_reply_split b xid mac Hb Hx Hl) as [(e & -> & _)|Hsplit]; [done |].
  destruct Hsplit as (hops & pad1 & address & pad2 & pad3 & tail & H1 & Ha & H2 & Hm & H3 & Hbe).
  pose proof (dhcp_scan_wf b Hb 128 240 fields_init fields_init_wf) as Hwf.
  rewrite Hbe in *. rewrite decode_reply_header by (done || apply Ha || apply Hm).
  destruct (dhcp_scan _ _ _ _) as [f|e|]; [|done..]. split; [unfold reply_result; repeat case_match; done |].
  intros m Hok. destruct (reply_result_Ok address f m Hok) as (Hty & Hsrv & Haddr & Ho).
  destruct Hwf as (Ht1 & Ht2 & Hmask & Hg & Hd & Hs & Hlease). rewrite Ho. unfold offer_wf.
  cbn [of_address of_subnet_mask of_gateway of_dns of_server of_lease_seconds].
  split_and!; try done; try congruence. by eauto 10.
Qed.

Definition demo_reply : list Z :=
  reply_header 0 7 (replicate 8 0) [10; 0; 2; 15] (replicate 8 0) [2; 0; 0; 0; 0; 1] (replicate 202 0)
  ++ options_wire [(53, [2]); (54, [10; 0; 2; 2]); (51, [0; 0; 14; 16])] ++ [255].

Lemma decode_reply_safe_witness :
  bytes demo_reply /\ is_u32 7 /\ is_panic (decode_reply demo_reply 7 [2; 0; 0; 0; 0; 1]) = false.
Proof.
  assert (bytes demo_reply) as Hb by by_compute.
  split_and!; [exact Hb | widths; lia |].
  destruct (decode_reply_safe demo_reply 7 [2; 0; 0; 0; 0; 1] Hb ltac:(widths; lia)) as [H _].
  destruct (decode_reply demo_reply 7 [2; 0; 0; 0; 0; 1]); [reflexivity | reflexivity | destruct (H eq_refl)].
Defined.

(** The decoder reads what a server wrote: for a reply with the client's transaction and hardware address
    that carries any list of at most 127 well-formed options before the end marker, the result
    is the message in which each field is the last option of its kind with a fitting length;
    whatever follows the end marker is ignored. *)
Theorem decode_reply_reads_options hops xid pad1 address pad2 mac pad3 opts junk
    (Hx : is_u32 xid) (H1 : length pad1 = 8%nat) (Ha : length address = 4%nat)
    (H2 : length pad2 = 8%nat) (Hm : length mac = 6%nat) (H3 : length pad3 = 202%nat)
    (Hopts : Forall option_ok opts) (Hcount : (length opts <= 127)%nat) :
  decode_reply (reply_header hops xid pad1 address pad2 mac pad3 ++ options_wire opts ++ 255 :: junk) xid mac
  = reply_result address (override fields_init opts).
Proof.
  rewrite decode_reply_header by done.
  rewrite <- (reply_header_length hops xid pad1 address pad2 mac pad3) by done.
  rewrite dhcp_scan_options; [done | done | lia |].
  rewrite reply_header_length by done. pose proof (options_wire_length opts Hopts). widths. lia.
Qed.

Lemma decode_reply_reads_options_witness :
  exists m, decode_reply demo_reply 7 [2; 0; 0; 0; 0; 1] = Ok m /\ dm_message_type m = Offer /\
    of_address (dm_offer m) = [10; 0; 2; 15] /\ of_server (dm_offer m) = [10; 0; 2; 2] /\
    of_lease_seconds (dm_offer m) = 3600.
Proof.
  eexists. split.
  - unfold demo_reply.
    rewrite decode_reply_reads_options; [vm_compute; reflexivity | try reflexivity ..].
    + widths; lia.
    + repeat (apply Forall_cons; split); try apply Forall_nil_2;
        unfold option_ok; cbn [fst snd]; split_and!; try done; try (cbn; lia); solve_bytes.
    + cbn. lia.
  - vm_compute. split_and!; reflexivity.
Defined.

(** ** The client: histories, provenance of the lease, retries *)

Inductive dhcp_op : Type :=
  | CBegin (now : Z)
  | CAccept (msg : DhcpMessage) (now : Z)
  | CTick (now : Z).

Definition dhcp_step (c : DhcpClient) (o : dhcp_op) : DhcpClient :=
  match o with
  | CBegin now => DhcpClient_begin c now
  | CAccept msg now => fst (DhcpClient_accept c msg now)
  | CTick now => DhcpClient_tick c now
  end.

Definition dhcp_run (c : DhcpClient) (ops : list dhcp_op) : DhcpClient := foldl dhcp_step c ops.

(** Times are [u64], lease times [u32]. *)
Definition dhcp_op_ok (o : dhcp_op) : Prop :=
  match o with
  | CBegin now | CTick now => is_u64 now
  | CAccept msg now => is_u64 now /\ is_u32 (of_lease_seconds (dm_offer msg))
  end.

(** The states in which the client uses its address. *)
Definition holding (s : DhcpState) : Prop := s = Bound \/ s = Renewing \/ s = Rebinding.

#[export] Instance holding_dec s : Decision (holding s).
Proof. unfold holding. apply _. Defined.

(** The history contains a message of this type from the offer's server for its address. *)
Definition heard (h : list dhcp_op) (ty : DhcpMessageType) (o : DhcpOffer) : Prop :=
  exists msg now, CAccept msg now ∈ h /\ dm_message_type msg = ty /\
    of_address (dm_offer msg) = of_address o /\ of_server (dm_offer msg) = of_server o.

(** The lease in force is the one of an acknowledgement in the history. *)
Definition leased (h : list dhcp_op) (c : DhcpClient) : Prop :=
  exists msg t0, CAccept msg t0 ∈ h /\ is_u64 t0 /\ dm_message_type msg = Ack /\
    dc_offer c = Some (dm_offer msg) /\
    dc_renew_at c = Z.min (t0 + 500 * of_lease_seconds (dm_offer msg)) U64_MAX /\
    dc_rebind_at c = Z.min (t0 + 875 * of_lease_seconds (dm_offer msg)) U64_MAX /\
    dc_lease_deadline c = Z.min (t0 + 1000 * of_lease_seconds (dm_offer msg)) U64_MAX /\
    is_u32 (of_lease_seconds (dm_offer msg)).

Definition dhcp_inv (h : list dhcp_op) (c : DhcpClient) : Prop :=
  (dc_state c = Requesting \/ holding (dc_state c) ->
     exists o, dc_offer c = Some o /\ heard h Offer o) /\
  (holding (dc_state c) -> leased h c) /\
  (dc_state c = Init \/ dc_state c = Failed -> dc_offer c = None).

Lemma dhcp_inv_history h x c : dhcp_inv h c -> dhcp_inv (h ++ [x]) c.
Proof.
  intros (H1 & H2 & H3). split_and!; [| |done].
  - intros (o & Ho & msg & now & Hin & H)%H1. exists o. split; [done |]. exists msg, now.
    rewrite elem_of_app. tauto.
  - intros (msg & t0 & Hin & H)%H2. exists msg, t0. rewrite elem_of_app. tauto.
Qed.

Lemma dhcp_inv_failed h c : dc_state c = Failed -> dc_offer c = None -> dhcp_inv h c.
Proof. intros Hs Ho. unfold dhcp_inv, holding. rewrite Hs. naive_solver. Qed.

Lemma matches_state_true s l : matches_state s l = true <-> s ∈ l.
Proof. apply bool_decide_eq_true. Qed.

(** A change of state that keeps the offer and the lease times keeps the invariant. *)
Lemma dhcp_inv_same h c s retries next :
  dhcp_inv h c -> (s = dc_state c \/ holding (dc_state c) /\ holding s \/ s = Selecting) ->
  dhcp_inv h (dc_set c s (dc_offer c) retries next).
Proof.
  intros (H1 & H2 & H3) Hs. unfold dhcp_inv, leased, dc_set in *.
  cbn [dc_state dc_offer dc_renew_at dc_rebind_at dc_lease_deadline].
  unfold holding in *. naive_solver.
Qed.

Lemma tick_inv h c now : dhcp_inv h c -> dhcp_inv h (DhcpClient_tick c now).
Proof.
  intros H0. unfold DhcpClient_tick.
  assert (dhcp_inv h (tick_renew c now)) as H1.
  { unfold tick_renew. case_match eqn:E; [|done].
    apply andb_true_iff in E as [E%matches_state_true%list_elem_of_singleton _].
    apply dhcp_inv_same; [done |]. unfold holding. rewrite E. naive_solver. }
  revert H1. generalize (tick_renew c now). clear c H0. intros c H0.
  assert (dhcp_inv h (tick_rebind c now)) as H1.
  { unfold tick_rebind. case_match eqn:E; [|done].
    apply andb_true_iff in E as [E%matches_state_true%list_elem_of_singleton _].
    apply dhcp_inv_same; [done |]. unfold holding. rewrite E. naive_solver. }
  revert H1. generalize (tick_rebind c now). clear c H0. intros c H0.
  assert (dhcp_inv h (tick_expire c now)) as H1.
  { unfold tick_expire. case_match; [|done]. by apply dhcp_inv_failed. }
  revert H1. generalize (tick_expire c now). clear c H0. intros c H0.
  assert (dhcp_inv h (tick_restart c now)) as H1.
  { unfold tick_restart. case_match; [|done]. apply dhcp_inv_same; [done |]. auto. }
  revert H1. generalize (tick_restart c now). clear c H0. intros c H0.
  unfold tick_retry. case_match; [|done]. cbv zeta. case_match.
  - by apply dhcp_inv_failed.
  - apply dhcp_inv_same; [done |]. auto.
Qed.

Lemma lease_times l :
  is_u32 l -> saturating_mul64 l 1000 = 1000 * l /\ 1000 * l / 2 = 500 * l /\
  saturating_mul64 (1000 * l) 7 / 8 = 875 * l.
Proof.
  intros Hl. unfold saturating_mul64. widths. rewrite !Z.min_l by lia. split_and!; [lia | |].
  - replace (1000 * l) with (500 * l * 2) by lia. by apply Z.div_mul.
  - replace (1000 * l * 7) with (875 * l * 8) by lia. by apply Z.div_mul.
Qed.

(** An acknowledgement that matches the offer binds the client, for the lease it carries. *)
Lemma ack_inv h c msg now :
  dhcp_inv h c -> is_u64 now -> is_u32 (of_lease_seconds (dm_offer msg)) ->
  dc_state c = Requesting \/ dc_state c = Renewing \/ dc_state c = Rebinding ->
  dm_message_type msg = Ack -> CAccept msg now ∈ h -> dhcp_inv h (fst (DhcpClient_accept c msg now)).
Proof.
  intros H0 Hnow Hl Hs Hty Hin. destruct (lease_times _ Hl) as (H1 & H2 & H3).
  assert (dhcp_inv h (fst (if ack_matches c msg
    then ({| dc_state := Bound; dc_xid := dc_xid c; dc_mac := dc_mac c; dc_offer := Some (dm_offer msg);
             dc_retries := 0; dc_next_retry := dc_next_retry c;
             dc_renew_at := saturating_add64 now (500 * of_lease_seconds (dm_offer msg));
             dc_rebind_at := saturating_add64 now (875 * of_lease_seconds (dm_offer msg));
             dc_lease_deadline := saturating_add64 now (1000 * of_lease_seconds (dm_offer msg)) |}, Ok tt)
    else (c, Err Mismatch (A := unit))))) as Hgoal.
  { destruct (ack_matches c msg) eqn:Hm; [|done]. unfold ack_matches in Hm.
    destruct (dc_offer c) as [o|] eqn:Ho; [|done]. bool_cases.
    split_and!; cbn [fst dc_state dc_offer].
    - intros _. exists (dm_offer msg). split; [done |].
      destruct H0 as (Hoff & _). rewrite Ho in Hoff. destruct Hoff as (o' & [= <-] & m & t & Hm).
      { unfold holding. naive_solver. }
      exists m, t. naive_solver congruence.
    - intros _. exists msg, now. cbn. done.
    - naive_solver. }
  unfold DhcpClient_accept. rewrite Hty. cbv zeta. rewrite H1, H2, H3.
  destruct Hs as [->|[->| ->]]; exact Hgoal.
Qed.

Lemma accept_inv h c msg now :
  dhcp_inv h c -> dhcp_op_ok (CAccept msg now) -> CAccept msg now ∈ h ->
  dhcp_inv h (fst (DhcpClient_accept c msg now)).
Proof.
  intros H0 [Hnow Hl] Hin.
  destruct (decide (dm_message_type msg = Ack)) as [Ha|Ha].
  { destruct (dc_state c) eqn:Hs; try (apply ack_inv; auto; fail);
      unfold DhcpClient_accept; rewrite Hs, Ha; exact H0. }
  destruct (decide (dm_message_type msg = Nak)) as [Hn|Hn].
  { unfold DhcpClient_accept. rewrite Hn. destruct (dc_state c); by apply dhcp_inv_failed. }
  destruct (decide (dc_state c = Selecting /\ dm_message_type msg = Offer)) as [[Hs Ho]|Hno].
  - unfold DhcpClient_accept. rewrite Hs, Ho. cbn [fst]. unfold dhcp_inv, dc_set, holding.
    cbn [dc_state dc_offer]. split_and!; [|naive_solver..]. intros _. exists (dm_offer msg).
    split; [done |]. by exists msg, now.
  - assert (DhcpClient_accept c msg now = (c, Err Mismatch)) as ->; [|done].
    unfold DhcpClient_accept. destruct (dc_state c), (dm_message_type msg); naive_solver.
Qed.

Lemma dhcp_run_inv ops : forall h c,
  dhcp_inv h c -> Forall dhcp_op_ok ops -> dhcp_inv (h ++ ops) (dhcp_run c ops).
Proof.
  induction ops as [|o ops IH]; intros h c H0 Hok; [by rewrite app_nil_r |].
  apply Forall_cons in Hok as [Ho Hok]. cbn [dhcp_run foldl].
  rewrite cons_middle, app_assoc. apply IH; [|done].
  apply (dhcp_inv_history _ o) in H0. destruct o as [now|msg now|now]; cbn [dhcp_step].
  - apply dhcp_inv_same; [done |]. auto.
  - apply accept_inv; [done | done | set_solver].
  - by apply tick_inv.
Qed.

Lemma dhcp_new_inv xid mac : dhcp_inv [] (DhcpClient_new xid mac).
Proof. unfold dhcp_inv, holding. cbn. naive_solver. Qed.

(** ** Timers *)

Definition lease_of (c : DhcpClient) : Z * Z * Z := (dc_renew_at c, dc_rebind_at c, dc_lease_deadline c).

(** No block of a tick moves the times of the lease. *)
Lemma tick_times c now : lease_of (DhcpClient_tick c now) = lease_of c.
Proof.
  assert (forall c, lease_of (tick_retry c now) = lease_of c) as H1.
  { intros ?. unfold tick_retry. destruct (_ && _); [|reflexivity]. cbv zeta. destruct (_ <=? _); reflexivity. }
  assert (forall c, lease_of (tick_restart c now) = lease_of c) as H2.
  { intros ?. unfold tick_restart. destruct (_ && _); [|reflexivity]. reflexivity. }
  assert (forall c, lease_of (tick_expire c now) = lease_of c) as H3.
  { intros ?. unfold tick_expire. destruct (_ && _); [|reflexivity]. reflexivity. }
  assert (forall c, lease_of (tick_rebind c now) = lease_of c) as H4.
  { intros ?. unfold tick_rebind. destruct (_ && _); [|reflexivity]. reflexivity. }
  assert (forall c, lease_of (tick_renew c now) = lease_of c) as H5.
  { intros ?. unfold tick_renew. destruct (_ && _); [|reflexivity]. reflexivity. }
  unfold DhcpClient_tick. by rewrite H1, H2, H3, H4, H5.
Qed.

Lemma matches_state_false s l : matches_state s l = false <-> s ∉ l.
Proof. apply bool_decide_eq_false. Qed.

(** The later blocks of a tick never put the client back into a lease. *)
Lemma tick_tail_state c now :
  let c' := tick_retry (tick_restart c now) now in
  holding (dc_state c') -> dc_state c' = dc_state c.
Proof.
  cbv zeta. unfold tick_retry, tick_restart. unfold holding.
  destruct (matches_state (dc_state c) [Failed] && _) eqn:E; cbn.
  - repeat case_match; cbn; naive_solver.
  - repeat case_match; cbn; naive_solver.
Qed.

Lemma matches_guard s l (b : bool) :
  (matches_state s l && b = true <-> s ∈ l /\ b = true) /\
  (matches_state s l && b = false <-> (s ∈ l -> b = false)).
Proof.
  unfold matches_state. case_bool_decide; destruct b; cbn; naive_solver.
Qed.

(** What each of the first three blocks leaves behind. *)
Lemma tick_renew_bound c now : dc_state (tick_renew c now) = Bound -> now < dc_renew_at c.
Proof.
  unfold tick_renew. destruct (_ && _) eqn:E; [done |]. intros Hs.
  apply (proj2 (matches_guard _ _ _)) in E; [by apply Z.leb_gt | rewrite Hs; set_solver].
Qed.

Lemma tick_rebind_renewing c now :
  (dc_state (tick_rebind c now) = Renewing -> now < dc_rebind_at c) /\
  (dc_state (tick_rebind c now) = Bound -> dc_state c = Bound).
Proof.
  unfold tick_rebind. destruct (_ && _) eqn:E; [done |]. split; [|done]. intros Hs.
  apply (proj2 (matches_guard _ _ _)) in E; [by apply Z.leb_gt | rewrite Hs; set_solver].
Qed.

Lemma tick_expire_live c now :
  dc_state (tick_expire c now) <> Failed ->
  dc_state (tick_expire c now) = dc_state c /\
  (dc_state c = Renewing \/ dc_state c = Rebinding -> now < dc_lease_deadline c).
Proof.
  unfold tick_expire. destruct (_ && _) eqn:E; [done |]. intros _. split; [done |]. intros Hs.
  apply (proj2 (matches_guard _ _ _)) in E; [by apply Z.leb_gt | set_solver].
Qed.

Lemma tick_lease c now :
  let c' := DhcpClient_tick c now in
  (dc_state c' = Bound -> now < dc_renew_at c') /\
  (dc_state c' = Renewing -> now < dc_rebind_at c' /\ now < dc_lease_deadline c') /\
  (dc_state c' = Rebinding -> now < dc_lease_deadline c').
Proof.
  cbv zeta. pose proof (tick_times c now) as Ht0. apply pair_equal_spec in Ht0 as [[-> ->]%pair_equal_spec ->].
  assert (forall s, holding s -> dc_state (DhcpClient_tick c now) = s ->
    dc_state (tick_expire (tick_rebind (tick_renew c now) now) now) = s) as Hs.
  { intros s Hh. unfold DhcpClient_tick. generalize (tick_expire (tick_rebind (tick_renew c now) now) now).
    intros c3 Heq. rewrite <- Heq. symmetry. apply (tick_tail_state c3 now). by rewrite Heq. }
  unfold holding in Hs.
  assert (forall c', lease_of (tick_rebind c' now) = lease_of c') as H1.
  { intros c'. unfold tick_rebind. destruct (_ && _); reflexivity. }
  assert (forall c', lease_of (tick_renew c' now) = lease_of c') as H2.
  { intros c'. unfold tick_renew. destruct (_ && _); reflexivity. }
  destruct (tick_rebind_renewing (tick_renew c now) now) as [Hrb Hbb].
  pose proof (tick_renew_bound c now) as Hb.
  pose proof (tick_expire_live (tick_rebind (tick_renew c now) now) now) as He.
  specialize (H1 (tick_renew c now)). rewrite H2 in H1. specialize (H2 c).
  apply pair_equal_spec in H1 as [_ H1], H2 as [[_ H2]%pair_equal_spec _]. rewrite H1 in He. rewrite H2 in Hrb.
  revert He Hrb Hbb Hb Hs. generalize (tick_renew c now). intros c1.
  generalize (tick_rebind c1 now). intros c2. generalize (tick_expire c2 now). intros c3.
  generalize (DhcpClient_tick c now). intros c4 He Hrb Hbb Hb Hs.
  split_and!; intros Hst; apply Hs in Hst; auto; rewrite Hst in He; destruct (He ltac:(done)) as [He1 He2].
  - by apply Hb, Hbb.
  - split; [by apply Hrb | apply He2; by left].
  - apply He2. by right.
Qed.

(** A client that waits for a reply does nothing before its retry time. *)
Definition waiting (s : DhcpState) : Prop := s = Selecting \/ s = Requesting.

Lemma tick_waiting c now :
  waiting (dc_state c) ->
  DhcpClient_tick c now =
  if dc_next_retry c <=? now then
    let retries := saturating_add8 (dc_retries c) 1 in
    if MAX_RETRIES <=? retries
    then dc_set c Failed None retries (saturating_add64 now FAILURE_RETRY_MS)
    else dc_set c (dc_state c) (dc_offer c) retries (saturating_add64 now (retry_delay retries))
  else c.
Proof.
  intros Hs. unfold DhcpClient_tick.
  assert (tick_renew c now = c) as ->.
  { unfold tick_renew. by destruct Hs as [-> | ->]. }
  assert (tick_rebind c now = c) as ->.
  { unfold tick_rebind. by destruct Hs as [-> | ->]. }
  assert (tick_expire c now = c) as ->.
  { unfold tick_expire. by destruct Hs as [-> | ->]. }
  assert (tick_restart c now = c) as ->.
  { unfold tick_restart. by destruct Hs as [-> | ->]. }
  unfold tick_retry. assert (matches_state (dc_state c) [Selecting; Requesting; Renewing; Rebinding] = true) as ->.
  { by destruct Hs as [-> | ->]. }
  cbn [andb]. repeat case_match; done.
Qed.

Lemma retry_delay_bound r : 0 <= r -> 1000 <= retry_delay r <= 32000.
Proof.
  intros. unfold retry_delay, RETRY_BASE_MS. rewrite Z.shiftl_mul_pow2 by lia.
  assert (2 ^ 0 <= 2 ^ Z.min r 5 <= 2 ^ 5) by (split; apply Z.pow_le_mono_r; lia).
  change (2 ^ 0) with 1 in *. change (2 ^ 5) with 32 in *. lia.
Qed.

(** Polling times, the first not before [n0], then at least the longest delay apart. *)
Fixpoint spaced (n0 : Z) (ts : list Z) : Prop :=
  match ts with [] => True | t :: ts => n0 <= t /\ spaced (t + 32000) ts end.

Lemma spaced_weaken n0 n1 ts : n1 <= n0 -> spaced n0 ts -> spaced n1 ts.
Proof. destruct ts; cbn; [done |]. intros ? [? ?]. split; [lia | done]. Qed.

Lemma unanswered_run ts : forall c,
  waiting (dc_state c) -> 0 <= dc_retries c < 8 -> Z.of_nat (length ts) = 8 - dc_retries c ->
  spaced (dc_next_retry c) ts ->
  let c' := dhcp_run c (CTick <$> ts) in
  dc_state c' = Failed /\ dc_offer c' = None /\
  dc_next_retry c' = saturating_add64 (default 0 (last ts)) FAILURE_RETRY_MS.
Proof.
  induction ts as [|t ts IH]; intros c Hw Hr Hl Hsp; cbv zeta; [cbn in Hl; lia |].
  cbn [length] in Hl. destruct Hsp as [Ht Hsp].
  unfold dhcp_run. cbn [fmap list_fmap foldl dhcp_step]. rewrite tick_waiting by done.
  rewrite (proj2 (Z.leb_le _ _)) by done. cbv zeta. unfold MAX_RETRIES, saturating_add8.
  rewrite Z.min_l by lia. destruct (Z.leb_spec 8 (dc_retries c + 1)) as [H8|H8].
  - destruct ts; [|cbn in Hl; lia]. done.
  - assert (default 0 (last (t :: ts)) = default 0 (last ts)) as ->.
    { rewrite last_cons. destruct (last ts) eqn:Hlast; [done |].
      apply last_None in Hlast. subst ts. cbn in Hl. lia. }
    apply IH; cbn [dc_set dc_state dc_retries dc_next_retry]; [done | lia | lia |].
    eapply spaced_weaken; [|exact Hsp]. unfold saturating_add64.
    pose proof (retry_delay_bound (dc_retries c + 1) ltac:(lia)). lia.
Qed.

Lemma tick_failed c now :
  dc_state c = Failed -> dc_next_retry c <= now -> is_u64 now -> dc_state (DhcpClient_tick c now) = Selecting.
Proof.
  intros Hs Hn Hu. unfold DhcpClient_tick.
  assert (tick_renew c now = c) as -> by (unfold tick_renew; by rewrite Hs).
  assert (tick_rebind c now = c) as -> by (unfold tick_rebind; by rewrite Hs).
  assert (tick_expire c now = c) as -> by (unfold tick_expire; by rewrite Hs).
  unfold tick_restart. rewrite Hs, (proj2 (Z.leb_le _ _)) by done. cbn.
  unfold tick_retry. cbn. by case_match.
Qed.

(** ** Claims on the client *)

(** C32: The client never uses an address beyond its lease, and never one it was not offered: after
    any history of begins, messages and ticks, if a poll at [now] leaves the
    client bound, renewing or rebinding, then its configuration is that of an acknowledgement it received at
    some [t0], which matched an offer it received, and [now] is before [t0] plus half, seven eighths or
    all of the lease, according to its state. *)
Theorem dhcp_lease_safety xid mac ops now (Hok : Forall dhcp_op_ok ops) (Hnow : is_u64 now) :
  let c := dhcp_run (DhcpClient_new xid mac) (ops ++ [CTick now]) in
  holding (dc_state c) ->
  exists msg t0, CAccept msg t0 ∈ ops /\ dm_message_type msg = Ack /\
    dc_offer c = Some (dm_offer msg) /\ heard ops Offer (dm_offer msg) /\
    let lease := of_lease_seconds (dm_offer msg) in
    now < t0 + 1000 * lease /\
    (dc_state c = Bound -> now < t0 + 500 * lease) /\
    (dc_state c = Renewing -> now < t0 + 875 * lease).
Proof.
  cbv zeta. intros Hh.
  assert (dhcp_run (DhcpClient_new xid mac) (ops ++ [CTick now]) =
          DhcpClient_tick (dhcp_run (DhcpClient_new xid mac) ops) now) as Hrun.
  { unfold dhcp_run. by rewrite foldl_app. }
  rewrite Hrun in *. set (c0 := dhcp_run _ ops) in *.
  pose proof (tick_inv ops c0 now (dhcp_run_inv ops [] _ (dhcp_new_inv xid mac) Hok)) as (H1 & H2 & _).
  destruct (tick_lease c0 now) as (Hb & Hr & Hrb).
  destruct (H2 Hh) as (msg & t0 & Hin & Ht0 & Hty & Ho & Hre & Hrbd & Hd & Hl).
  destruct (H1 (or_intror Hh)) as (o & Ho' & Hheard). exists msg, t0.
  rewrite Hre, Hrbd, Hd in *. assert (o = dm_offer msg) as -> by congruence.
  widths. unfold holding in Hh. split_and!; [done | done | done | done | | |].
  - destruct Hh as [Hs|[Hs|Hs]]; [specialize (Hb Hs) | specialize (Hr Hs) | specialize (Hrb Hs)]; lia.
  - intros Hs. specialize (Hb Hs). lia.
  - intros Hs. specialize (Hr Hs). lia.
Qed.

Definition demo_offer : DhcpOffer :=
  {| of_address := [10; 0; 2; 15]; of_subnet_mask := [255; 255; 255; 0]; of_gateway := [10; 0; 2; 2];
     of_dns := [10; 0; 2; 3]; of_lease_seconds := 8; of_server := [10; 0; 2; 2] |}.

Definition demo_history : list dhcp_op :=
  [CBegin 1000; CAccept {| dm_message_type := Offer; dm_offer := demo_offer |} 1100;
   CAccept {| dm_message_type := Ack; dm_offer := demo_offer |} 2000; CTick 5999].

Lemma dhcp_lease_safety_witness :
  exists msg t0, CAccept msg t0 ∈ demo_history /\ 6000 < t0 + 1000 * of_lease_seconds (dm_offer msg).
Proof.
  destruct (dhcp_lease_safety 7 [1; 2; 3; 4; 5; 6] demo_history 6000) as (msg & t0 & H1 & _ & _ & _ & H2 & _).
  - repeat constructor; cbn; lia.
  - widths. lia.
  - right. left. vm_compute. reflexivity.
  - exists msg, t0. split; [exact H1 | exact H2].
Defined.

(** The retry timer terminates: a client that waits for a reply and is polled at due times, however
    late each poll is, gives up after exactly eight attempts, drops its offer,
    and starts over at the first poll thirty seconds later. *)
Theorem dhcp_gives_up_and_restarts c ts now (Hw : waiting (dc_state c)) (Hr : dc_retries c = 0)
    (Hl : length ts = 8%nat) (Hsp : spaced (dc_next_retry c) ts)
    (Hnow : is_u64 now) (Hlate : default 0 (last ts) + 30000 <= now) :
  let c' := dhcp_run c (CTick <$> ts) in
  dc_state c' = Failed /\ dc_offer c' = None /\ dc_state (DhcpClient_tick c' now) = Selecting.
Proof.
  cbv zeta. destruct (unanswered_run ts c) as (Hs & Ho & Hn); [done | lia | lia | done |].
  split_and!; [done | done |]. apply tick_failed; [done | | done].
  rewrite Hn. unfold saturating_add64, FAILURE_RETRY_MS. lia.
Qed.

Lemma dhcp_gives_up_and_restarts_witness :
  let c := DhcpClient_begin (DhcpClient_new 7 [1; 2; 3; 4; 5; 6]) 0 in
  let ts := [1000; 40000; 80000; 120000; 160000; 200000; 240000; 280000] in
  dc_state (dhcp_run c (CTick <$> ts)) = Failed /\
  dc_state (DhcpClient_tick (dhcp_run c (CTick <$> ts)) 310000) = Selecting.
Proof.
  destruct (dhcp_gives_up_and_restarts (DhcpClient_begin (DhcpClient_new 7 [1; 2; 3; 4; 5; 6]) 0)
    [1000; 40000; 80000; 120000; 160000; 200000; 240000; 280000] 310000) as (H1 & _ & H2).
  - left. reflexivity.
  - reflexivity.
  - reflexivity.
  - vm_compute. split_and!; try exact I; discriminate.
  - widths. lia.
  - cbn. lia.
  - split; [exact H1 | exact H2].
Defined.
