(* ===== verification/TcpSegment.v ===== *)
(** * TCP segments ([network-stack/src/tcp.rs], codec part)

    Header, maximum-segment-size option and payload with the checksum over
    the pseudo header.  The loop over options advances by at least one byte per round, so
    the length of the options bounds it ([parse_options_total]). *)

From S2P Require Import Prelude Packet Checksum.

(** ** The code *)

Definition TCP_PROTOCOL : Z := 6.
Definition TCP_HEADER_LEN : nat := 20.
Definition TCP_FLAG_FIN : Z := 1.
Definition TCP_FLAG_SYN : Z := 2.
Definition TCP_FLAG_RST : Z := 4.
Definition TCP_FLAG_PSH : Z := 8.
Definition TCP_FLAG_ACK : Z := 16.
Definition TCP_FLAG_URG : Z := 32.
Definition TCP_SUPPORTED_FLAGS : Z :=
  Z.lor (Z.lor (Z.lor (Z.lor TCP_FLAG_FIN TCP_FLAG_SYN) TCP_FLAG_RST) TCP_FLAG_PSH) TCP_FLAG_ACK.

Record TcpOptions := { maximum_segment_size : option Z }.
Definition TcpOptions_default : TcpOptions := {| maximum_segment_size := None |}.

#[export] Instance TcpOptions_eq_dec : EqDecision TcpOptions.
Proof. solve_decision. Defined.

Record TcpSegment := {
  sg_source_port : Z;
  sg_destination_port : Z;
  sg_sequence : Z;
  sg_acknowledgment : Z;
  sg_flags : Z;
  sg_window : Z;
  sg_urgent_pointer : Z;
  sg_options : TcpOptions;
  sg_payload : list Z;
}.

Definition partial_checksum (bytes : list Z) : Z := sum_chunks saturating_add32 0 bytes.

Definition tcp_checksum (source destination : list Z) (tcp_length : Z) (packet : list Z)
    : result PacketError Z :=
  let pseudo := replicate 12 0 in
  let? pseudo := copy_into pseudo 0 4 source in
  let? pseudo := copy_into pseudo 4 8 destination in
  let? pseudo := set_idx pseudo 9 TCP_PROTOCOL in
  let? pseudo := copy_into pseudo 10 12 (u16_to_be tcp_length) in
  let? sum := add32 (partial_checksum pseudo) (partial_checksum packet) in
  Ok (finish_sum sum).

Definition read_u16 (packet : list Z) (offset : nat) : result PacketError Z :=
  let? a := idx packet offset in let? b := idx packet (offset + 1) in Ok (u16_from_be a b).

Definition read_u32 (packet : list Z) (offset : nat) : result PacketError Z :=
  let? a := idx packet offset in let? b := idx packet (offset + 1) in
  let? c := idx packet (offset + 2) in let? d := idx packet (offset + 3) in
  Ok (u32_from_be a b c d).

(** The [while offset < options.len()] loop; running out of fuel would be a panic of
    the model, which [parse_options_total] excludes. *)
Fixpoint parse_options_loop (fuel : nat) (options : list Z) (offset : nat) (parsed : TcpOptions)
    : result PacketError TcpOptions :=
  if (offset <? length options)%nat then
    match fuel with
    | O => Panic
    | S fuel =>
        let? kind := idx options offset in
        if kind =? 0 then Ok parsed
        else if kind =? 1 then parse_options_loop fuel options (offset + 1) parsed
        else
          let? length8 := ok_or (options !! (offset + 1)%nat) InvalidHeader in
          let len := Z.to_nat length8 in
          if (len <? 2)%nat then Err InvalidHeader else
          let? e := ok_or (checked_add offset len) InvalidLength in
          let? body := ok_or (get_range options (offset + 2) e) InvalidHeader in
          let? parsed :=
            (if kind =? 2 then
               if negb (len =? 4)%nat then Err InvalidHeader else
               let? b0 := idx body 0 in let? b1 := idx body 1 in
               Ok {| maximum_segment_size := Some (u16_from_be b0 b1) |}
             else Ok parsed) in
          parse_options_loop fuel options e parsed
    end
  else Ok parsed.

Definition parse_options (options : list Z) : result PacketError TcpOptions :=
  parse_options_loop (length options) options 0 TcpOptions_default.

Definition unsupported_flags (flags : Z) : bool := negb (Z.land flags (not16 TCP_SUPPORTED_FLAGS) =? 0).

Definition TcpSegment_encode (self : TcpSegment) (source_address destination_address out : list Z)
    : result PacketError (nat * list Z) :=
  if unsupported_flags (sg_flags self) || negb (sg_urgent_pointer self =? 0) then Err Unsupported else
  let option_length := (match maximum_segment_size (sg_options self) with Some _ => 4 | None => 0 end)%nat in
  let header_length := (TCP_HEADER_LEN + option_length)%nat in
  let? total := ok_or (checked_add header_length (length (sg_payload self))) InvalidLength in
  let? total_u16 := ok_or (try_u16 total) InvalidLength in
  if (length out <? total)%nat then Err Truncated else
  let? out := fill out 0 header_length 0 in
  let? out := copy_into out 0 2 (u16_to_be (sg_source_port self)) in
  let? out := copy_into out 2 4 (u16_to_be (sg_destination_port self)) in
  let? out := copy_into out 4 8 (u32_to_be (sg_sequence self)) in
  let? out := copy_into out 8 12 (u32_to_be (sg_acknowledgment self)) in
  let? out := set_idx out 12 (Z.shiftl (Z.of_nat (header_length / 4)) 4) in
  let? out := set_idx out 13 (Z.land (sg_flags self) 255) in
  let? out := (if negb (Z.land (sg_flags self) 256 =? 0)
               then let? b := idx out 12 in set_idx out 12 (Z.lor b 1) else Ok out) in
  let? out := copy_into out 14 16 (u16_to_be (sg_window self)) in
  let? out := copy_into out 18 20 (u16_to_be (sg_urgent_pointer self)) in
  let? out := match maximum_segment_size (sg_options self) with
              | Some mss =>
                  let? out := set_idx out 20 2 in
                  let? out := set_idx out 21 4 in
                  copy_into out 22 24 (u16_to_be mss)
              | None => Ok out
              end in
  let? out := copy_into out header_length total (sg_payload self) in
  let? s := slice out 0 total in
  let? checksum := tcp_checksum source_address destination_address total_u16 s in
  let? out := copy_into out 16 18 (u16_to_be checksum) in
  Ok (total, out).

Definition TcpSegment_decode (source_address destination_address packet : list Z)
    : result PacketError TcpSegment :=
  if (length packet <? TCP_HEADER_LEN)%nat then Err Truncated else
  let? b12 := idx packet 12 in
  let data_offset := Z.to_nat (Z.shiftr b12 4) in
  if negb ((5 <=? data_offset)%nat && (data_offset <=? 15)%nat) then Err InvalidHeader else
  let header_length := (data_offset * 4)%nat in
  if (length packet <? header_length)%nat then Err Truncated else
  let? len := ok_or (try_u16 (length packet)) InvalidLength in
  let? sum := tcp_checksum source_address destination_address len packet in
  if negb (sum =? 0) then Err InvalidChecksum else
  let? b13 := idx packet 13 in
  let flags := Z.lor b13 (Z.shiftl (Z.land b12 1) 8) in
  let? urgent_pointer := read_u16 packet 18 in
  if unsupported_flags flags || negb (urgent_pointer =? 0) then Err Unsupported else
  let? source_port := read_u16 packet 0 in
  let? destination_port := read_u16 packet 2 in
  let? sequence := read_u32 packet 4 in
  let? acknowledgment := read_u32 packet 8 in
  let? window := read_u16 packet 14 in
  let? opts := slice packet TCP_HEADER_LEN header_length in
  let? options := parse_options opts in
  let? payload := slice packet header_length (length packet) in
  Ok {| sg_source_port := source_port; sg_destination_port := destination_port;
        sg_sequence := sequence; sg_acknowledgment := acknowledgment; sg_flags := flags;
        sg_window := window; sg_urgent_pointer := urgent_pointer; sg_options := options;
        sg_payload := payload |}.

(** ** Checksums *)

Lemma partial_checksum_sum b : bytes b -> is_u32 (word_sum b) -> partial_checksum b = word_sum b.
Proof.
  intros Hb Hu. unfold partial_checksum.
  rewrite (sum_chunks_exact _ 4294967296); [lia | | done | lia | widths; lia].
  intros. unfold saturating_add32. widths. lia.
Qed.

Definition tcp_pseudo (source destination : list Z) (len : Z) : list Z :=
  source ++ destination ++ [0; TCP_PROTOCOL] ++ u16_to_be len.

Lemma tcp_pseudo_arr source destination len :
  arr 4 source -> arr 4 destination -> arr 12 (tcp_pseudo source destination len).
Proof.
  intros [Hs1 Hs2] [Hd1 Hd2]. unfold tcp_pseudo, arr. rewrite !length_app, Hs1, Hd1.
  split; [done |]. unfold TCP_PROTOCOL. solve_bytes.
Qed.

(** For a packet of at most 65535 bytes the two saturating sums and their plain
    addition are exact. *)
Lemma tcp_checksum_spec source destination len packet :
  arr 4 source -> arr 4 destination -> bytes packet -> Z.of_nat (length packet) <= 65535 ->
  let t := word_sum (tcp_pseudo source destination len) + word_sum packet in
  is_u32 t /\ tcp_checksum source destination len packet = Ok (finish_sum t).
Proof.
  intros Hs Hd Hb Hl. cbv zeta. destruct (tcp_pseudo_arr source destination len Hs Hd) as [Hpl Hpb].
  pose proof (word_sum_range _ Hpb) as H1. rewrite Hpl in H1. change ((Z.of_nat 12 + 1) / 2) with 6 in H1.
  pose proof (word_sum_range _ Hb) as H2.
  assert (word_sum packet <= 65535 * 32768) by divlia.
  split; [widths; lia |]. unfold tcp_checksum.
  assert (forall k : list Z -> result PacketError Z,
    (let? pseudo := copy_into (replicate 12 0) 0 4 source in
     let? pseudo := copy_into pseudo 4 8 destination in
     let? pseudo := set_idx pseudo 9 TCP_PROTOCOL in
     let? pseudo := copy_into pseudo 10 12 (u16_to_be len) in k pseudo)
    = k (tcp_pseudo source destination len)) as Hk.
  { intros k. unfold tcp_pseudo. explode_arr Hs. explode_arr Hd. reflexivity. }
  rewrite (Hk (fun p => let? sum := add32 (partial_checksum p) (partial_checksum packet) in Ok (finish_sum sum))).
  rewrite !partial_checksum_sum by (done || widths; lia).
  unfold add32. by rewrite (proj2 (Z.leb_le _ _)) by (widths; lia).
Qed.

(** ** Options *)

Lemma parse_options_total options : bytes options -> Z.of_nat (length options) <= 65535 ->
  forall fuel offset parsed,
  (length options <= offset + fuel)%nat -> (offset <= length options)%nat ->
  from_option is_u16 True (maximum_segment_size parsed) ->
  match parse_options_loop fuel options offset parsed with
  | Ok p => from_option is_u16 True (maximum_segment_size p)
  | Err _ => True
  | Panic => False
  end.
Proof.
  intros Hb Hmax. induction fuel as [|fuel IH]; intros offset parsed Hf Ho Hp; cbn [parse_options_loop].
  { by rewrite (proj2 (Nat.ltb_ge _ _)) by lia. }
  destruct (Nat.ltb_spec offset (length options)) as [Hlt|]; [|done].
  destruct (idx_in (E := PacketError) options offset Hlt) as (kind & -> & _).
  destruct (kind =? 0); [done |]. destruct (kind =? 1); [apply IH; (done || lia) |].
  destruct (options !! (offset + 1)%nat) as [length8|] eqn:Hl8; cbn [ok_or]; [|done].
  pose proof (bytes_lookup _ _ _ Hb Hl8) as Hu8.
  destruct (Nat.ltb_spec (Z.to_nat length8) 2); [done |].
  rewrite checked_add_small by (widths; lia). cbn [ok_or].
  destruct (get_range _ _ _) as [body|] eqn:Hg; cbn [ok_or]; [|done].
  pose proof (get_range_bytes _ _ _ _ Hb Hg) as Hbb. pose proof (get_range_length _ _ _ _ Hg) as Hgl.
  apply get_range_Some in Hg as (_ & Hend & _).
  destruct (kind =? 2).
  - destruct (Nat.eqb_spec (Z.to_nat length8) 4); cbn [negb]; [|done].
    destruct (idx_in (E := PacketError) body 0 ltac:(lia)) as (b0 & -> & H0).
    destruct (idx_in (E := PacketError) body 1 ltac:(lia)) as (b1 & -> & H1).
    apply IH; [lia | lia |]. cbn. apply u16_from_be_range; by eapply bytes_lookup.
  - apply IH; (done || lia).
Qed.

(** ** Flags *)

Lemma land_small_high f m : 0 <= f < 32 -> m mod 32 = 0 -> Z.land f m = 0.
Proof.
  intros Hf Hm. rewrite <- (Z.mod_small f 32) by lia. change 32 with (2 ^ 5) in *.
  rewrite <- Z.land_ones, <- Z.land_assoc, (Z.land_comm (Z.ones 5)), Z.land_ones, Hm by lia. apply Z.land_0_r.
Qed.

Lemma unsupported_flags_spec f : is_u16 f -> unsupported_flags f = false <-> f < 32.
Proof.
  intros Hf. unfold unsupported_flags. change (not16 TCP_SUPPORTED_FLAGS) with 65504.
  rewrite negb_false_iff, Z.eqb_eq. split; intros H.
  - apply (f_equal (fun z => Z.shiftr z 5)) in H. rewrite Z.shiftr_land in H.
    change (Z.shiftr 65504 5) with (Z.ones 11) in H. rewrite Z.land_ones, !Z.shiftr_div_pow2 in H by lia.
    change (2 ^ 5) with 32 in H. change (2 ^ 11) with 2048 in H. change (0 / 32) with 0 in H. divlia.
  - apply land_small_high; [widths; lia | done].
Qed.

(** ** Wire format *)

Definition sg_wf (s : TcpSegment) : Prop :=
  is_u16 (sg_source_port s) /\ is_u16 (sg_destination_port s) /\ is_u32 (sg_sequence s) /\
  is_u32 (sg_acknowledgment s) /\ is_u16 (sg_flags s) /\ is_u16 (sg_window s) /\
  is_u16 (sg_urgent_pointer s) /\ from_option is_u16 True (maximum_segment_size (sg_options s)) /\
  bytes (sg_payload s).

Definition mss_wire (o : TcpOptions) : list Z :=
  match maximum_segment_size o with Some mss => [2; 4] ++ u16_to_be mss | None => [] end.

Definition tcp_len (s : TcpSegment) : nat := (20 + length (mss_wire (sg_options s)) + length (sg_payload s))%nat.

(** The sixteen bytes before the checksum, and what follows it. *)
Definition tcp_head (s : TcpSegment) : list Z :=
  u16_to_be (sg_source_port s) ++ u16_to_be (sg_destination_port s) ++ u32_to_be (sg_sequence s)
  ++ u32_to_be (sg_acknowledgment s)
  ++ [match maximum_segment_size (sg_options s) with Some _ => 96 | None => 80 end; sg_flags s]
  ++ u16_to_be (sg_window s).
Definition tcp_rest (s : TcpSegment) : list Z := [0; 0] ++ mss_wire (sg_options s) ++ sg_payload s.

Definition tcp_total (source destination : list Z) (s : TcpSegment) : Z :=
  word_sum (tcp_pseudo source destination (Z.of_nat (tcp_len s))) + word_sum (tcp_head s ++ 0 :: 0 :: tcp_rest s).

Definition tcp_wire (source destination : list Z) (s : TcpSegment) : list Z :=
  tcp_head s ++ u16_to_be (finish_sum (tcp_total source destination s)) ++ tcp_rest s.

(** What the codec can carry. *)
Definition sg_encodable (s : TcpSegment) : Prop :=
  sg_wf s /\ sg_flags s < 32 /\ sg_urgent_pointer s = 0 /\ is_u16 (Z.of_nat (tcp_len s)).

Lemma tcp_wire_length source destination s : length (tcp_wire source destination s) = tcp_len s.
Proof. unfold tcp_wire, tcp_head, tcp_rest, tcp_len. rewrite !length_app. cbn. lia. Qed.

Lemma tcp_parts_bytes s : sg_encodable s -> bytes (tcp_head s) /\ bytes (tcp_rest s).
Proof.
  intros ((? & ? & ? & ? & ? & ? & ? & Hm & ?) & Hf & _). unfold tcp_head, tcp_rest, mss_wire.
  destruct (maximum_segment_size (sg_options s)); cbn [from_option] in Hm; split; solve_bytes.
Qed.

Section Addresses.
Context (source destination : list Z) (Hs : arr 4 source) (Hd : arr 4 destination).

Lemma tcp_zeroed_checksum s :
  sg_encodable s ->
  is_u32 (tcp_total source destination s) /\
  tcp_checksum source destination (Z.of_nat (tcp_len s)) (tcp_head s ++ 0 :: 0 :: tcp_rest s)
  = Ok (finish_sum (tcp_total source destination s)).
Proof using Hs Hd.
  intros Hok. destruct (tcp_parts_bytes s Hok) as [Hh Hr]. destruct Hok as (_ & _ & _ & Hl).
  apply tcp_checksum_spec; [done | done | solve_bytes |].
  pose proof (tcp_wire_length source destination s) as Hw. unfold tcp_wire in Hw.
  rewrite !length_app in *. cbn [length u16_to_be] in *. widths. lia.
Qed.

(** A written segment verifies. *)
Lemma tcp_wire_valid s :
  sg_encodable s ->
  tcp_checksum source destination (Z.of_nat (tcp_len s)) (tcp_wire source destination s) = Ok 0.
Proof using Hs Hd.
  intros Hok. destruct (tcp_parts_bytes s Hok) as [Hh Hr].
  destruct (tcp_zeroed_checksum s Hok) as [Hu _]. pose proof (finish_sum_u16 _ Hu) as Hc.
  destruct (finish_sum_complement _ Hu) as [Hc1 Hc2].
  assert (bytes (tcp_wire source destination s)) as Hb by (unfold tcp_wire; solve_bytes).
  destruct (tcp_checksum_spec source destination (Z.of_nat (tcp_len s)) (tcp_wire source destination s))
    as [Hu' ->]; [done | done | done | |].
  { rewrite tcp_wire_length. destruct Hok as (_ & _ & _ & ?). widths. lia. }
  f_equal. apply finish_sum_zero; [done |].
  assert (Nat.Even (length (tcp_head s))) as He by (by exists 8%nat).
  assert (word_sum (tcp_wire source destination s) =
    word_sum (tcp_head s ++ 0 :: 0 :: tcp_rest s) + finish_sum (tcp_total source destination s)) as ->.
  { unfold tcp_wire. rewrite (word_sum_app _ (_ ++ _) He), (word_sum_app _ (_ :: _) He).
    rewrite word_sum_u16_to_be by done. cbn [word_sum]. unfold u16_from_be. lia. }
  rewrite Z.add_assoc. done.
Qed.

End Addresses.

(** ** Behaviour of the codec *)

Lemma tcp_encode_wire s source destination out :
  arr 4 source -> arr 4 destination -> sg_encodable s -> (tcp_len s <= length out)%nat ->
  TcpSegment_encode s source destination out =
    Ok (tcp_len s, tcp_wire source destination s ++ drop (tcp_len s) out).
Proof.
  intros Hs Hd Hok Hl. destruct (tcp_zeroed_checksum source destination Hs Hd s Hok) as [_ Hck].
  destruct Hok as ((_ & _ & _ & _ & Hfl & _) & Hf & Hup & Hu). unfold TcpSegment_encode, tcp_wire.
  rewrite (proj2 (unsupported_flags_spec _ Hfl)), Hup by done. cbn [orb negb Z.eqb].
  replace (Z.land (sg_flags s) 255) with (sg_flags s)
    by (change 255 with (Z.ones 8); rewrite Z.land_ones, Z.mod_small; widths; lia).
  rewrite (land_small_high (sg_flags s) 256) by (done || widths; lia). cbn [negb Z.eqb].
  revert Hck. generalize (tcp_total source destination s). intros t Hck.
  assert (exists ol, length (mss_wire (sg_options s)) = ol /\
    (match maximum_segment_size (sg_options s) with Some _ => 4 | None => 0 end)%nat = ol) as (ol & Hol & Hol').
  { unfold mss_wire. destruct (maximum_segment_size _); by eexists. }
  rewrite Hol'. assert (tcp_len s = 20 + ol + length (sg_payload s))%nat as Hlen by (unfold tcp_len; lia).
  rewrite checked_add_small by (unfold TCP_HEADER_LEN; widths; lia). cbn [ok_or].
  change (TCP_HEADER_LEN + ol + length (sg_payload s))%nat with (20 + ol + length (sg_payload s))%nat.
  rewrite <- Hlen, (proj2 (try_u16_Some _ (Z.of_nat (tcp_len s)))) by done. cbn [ok_or].
  rewrite (proj2 (Nat.ltb_ge _ _)) by done. rewrite fill_prefix by (unfold TCP_HEADER_LEN; lia).
  assert (drop (tcp_len s) out = drop (length (sg_payload s)) (drop (20 + ol) out)) as Hdrop
    by (rewrite drop_drop; f_equal; lia).
  change (TCP_HEADER_LEN + ol)%nat with (20 + ol)%nat. rewrite Hdrop.
  assert (length (sg_payload s) <= length (drop (20 + ol) out))%nat as Hr by (rewrite length_drop; lia).
  revert Hr. generalize (drop (20 + ol) out). intros rest Hr. clear Hl Hdrop out.
  assert (forall o', slice (E := PacketError) ((tcp_head s ++ 0 :: 0 :: tcp_rest s) ++ o') 0 (tcp_len s)
    = Ok (tcp_head s ++ 0 :: 0 :: tcp_rest s)) as Hsl.
  { intros o'. rewrite <- (tcp_wire_length source destination s).
    replace (length (tcp_wire source destination s)) with (length (tcp_head s ++ 0 :: 0 :: tcp_rest s))
      by (unfold tcp_wire; rewrite !length_app; done). apply slice_prefix. }
  specialize (Hsl (drop (length (sg_payload s)) rest)).
  revert Hsl Hck Hlen. unfold tcp_head, tcp_rest, mss_wire in *. generalize (tcp_len s). intros n Hsl Hck Hlen.
  revert Hck. generalize (finish_sum t) (Z.of_nat n). intros c L Hck. subst n.
  destruct s as [sp dp sq ak fl wi up [[mss|]] pl]; cbn [sg_options maximum_segment_size sg_source_port
    sg_destination_port sg_sequence sg_acknowledgment sg_flags sg_window sg_urgent_pointer sg_payload] in *;
    subst ol; change (u16_to_be 0) with [0; 0];
    cbn -[slice tcp_checksum] in Hsl, Hck;
    cbn -[slice tcp_checksum]; rewrite ?drop_0, ?copy_into_cons, copy_into_head by done;
    cbn -[slice tcp_checksum]; change (Z.shiftl (Z.of_nat 5) 4) with 80; change (Z.shiftl (Z.of_nat 6) 4) with 96;
    rewrite Hsl, Hck; cbn; by rewrite <- ?app_assoc.
Qed.

Lemma parse_mss o : from_option is_u16 True (maximum_segment_size o) -> parse_options (mss_wire o) = Ok o.
Proof.
  unfold mss_wire. destruct o as [[mss|]]; cbn [maximum_segment_size from_option]; [|done].
  intros Hm.
  assert (forall a b, parse_options [2; 4; a; b] = Ok {| maximum_segment_size := Some (u16_from_be a b) |}) as H
    by (intros; vm_compute; reflexivity).
  unfold u16_to_be. cbn [app]. by rewrite H, u16_be_roundtrip.
Qed.

Lemma tcp_decode_wire s source destination :
  arr 4 source -> arr 4 destination -> sg_encodable s ->
  TcpSegment_decode source destination (tcp_wire source destination s) = Ok s.
Proof.
  intros Hs Hd Hok. pose proof (tcp_wire_valid _ _ Hs Hd s Hok) as Hv.
  pose proof (tcp_wire_length source destination s) as Hl.
  destruct (tcp_zeroed_checksum source destination Hs Hd s Hok) as [Hu32 _].
  pose proof (finish_sum_u16 _ Hu32) as Hc.
  destruct Hok as ((H1 & H2 & H3 & H4 & H5 & H6 & H7 & H8 & H9) & Hf & Hup & Hu).
  pose proof (parse_mss _ H8) as Hp.
  assert (slice (E := PacketError) (tcp_wire source destination s) (20 + length (mss_wire (sg_options s))) (tcp_len s)
    = Ok (sg_payload s)) as Hpay.
  { unfold tcp_wire, tcp_rest. rewrite !app_assoc. rewrite <- (app_nil_r (sg_payload s)) at 1.
    apply slice_middle; [|done]. rewrite !length_app. cbn. lia. }
  assert (slice (E := PacketError) (tcp_wire source destination s) TCP_HEADER_LEN (20 + length (mss_wire (sg_options s)))
    = Ok (mss_wire (sg_options s))) as Hopt.
  { replace (tcp_wire source destination s) with
      ((tcp_head s ++ u16_to_be (finish_sum (tcp_total source destination s)) ++ [0; 0]) ++
        mss_wire (sg_options s) ++ sg_payload s)
      by (unfold tcp_wire, tcp_rest; by rewrite <- !app_assoc).
    apply slice_middle; done. }
  assert (exists off, off = (20 + length (mss_wire (sg_options s)))%nat /\
    let b := match maximum_segment_size (sg_options s) with Some _ => 96 | None => 80 end in
    (Z.to_nat (Z.shiftr b 4) * 4 = off)%nat /\ (5 <= Z.to_nat (Z.shiftr b 4) <= 15)%nat /\ Z.land b 1 = 0)
    as (off & Hoff & Ho1 & Ho2 & Ho3).
  { unfold mss_wire. destruct (maximum_segment_size (sg_options s)); eexists; (split; [done |]);
      vm_compute; split_and!; lia || done. }
  rewrite <- Hoff in *. assert (off <= tcp_len s)%nat as Hle by (unfold tcp_len; lia).
  assert (20 <= tcp_len s)%nat as H20 by (unfold tcp_len; lia).
  unfold TcpSegment_decode. rewrite Hl. revert Hv Hpay Hopt Hl.
  assert (exists tl, tcp_wire source destination s = tcp_head s ++
    u16_to_be (finish_sum (tcp_total source destination s)) ++ [0; 0] ++ tl) as [tl Htl] by (by eexists).
  rewrite Htl. clear Htl. revert Hc Ho1 Ho2 Ho3. unfold tcp_head.
  generalize (finish_sum (tcp_total source destination s)).
  generalize (match maximum_segment_size (sg_options s) with Some _ => 96 | None => 80 end).
  revert Hu Hle H20. generalize (tcp_len s). intros n Hu Hle H20 b12 c Hc Ho1 Ho2 Ho3 Hv Hpay Hopt Hl.
  rewrite (proj2 (Nat.ltb_ge _ _)), (proj2 (try_u16_Some n (Z.of_nat n))) by done.
  destruct s as [sp dp sq ak fl wi up op pl]; cbn [sg_options maximum_segment_size sg_source_port
    sg_destination_port sg_sequence sg_acknowledgment sg_flags sg_window sg_urgent_pointer sg_payload] in *.
  cbn [u16_to_be u32_to_be app] in *. cbn [idx lookup list_lookup ok_or].
  rewrite Ho1, (proj2 (Nat.leb_le _ _)), (proj2 (Nat.leb_le _ 15)) by lia. cbn [andb negb].
  rewrite (proj2 (Nat.ltb_ge _ _)), Hv by done. cbn [Z.eqb negb]. rewrite Ho3, Hpay, Hopt, Hp.
  cbn [read_u16 read_u32 idx lookup list_lookup Nat.add Z.shiftl]. rewrite Z.lor_0_r.
  rewrite (proj2 (unsupported_flags_spec fl H5)) by done. cbn -[u16_from_be u32_from_be].
  rewrite !u16_be_roundtrip, !u32_be_roundtrip by done. by subst up.
Qed.

Lemma read_u16_in packet o :
  bytes packet -> (o + 2 <= length packet)%nat -> exists v, read_u16 packet o = Ok v /\ is_u16 v.
Proof.
  intros Hb Hl. unfold read_u16.
  destruct (idx_in (E := PacketError) packet o ltac:(lia)) as (a & -> & Ha).
  destruct (idx_in (E := PacketError) packet (o + 1) ltac:(lia)) as (b & -> & Hb').
  eexists. split; [done |]. apply u16_from_be_range; by eapply bytes_lookup.
Qed.

Lemma read_u32_in packet o :
  bytes packet -> (o + 4 <= length packet)%nat -> exists v, read_u32 packet o = Ok v /\ is_u32 v.
Proof.
  intros Hb Hl. unfold read_u32.
  destruct (idx_in (E := PacketError) packet o ltac:(lia)) as (a & -> & Ha).
  destruct (idx_in (E := PacketError) packet (o + 1) ltac:(lia)) as (b & -> & Hb').
  destruct (idx_in (E := PacketError) packet (o + 2) ltac:(lia)) as (c & -> & Hc).
  destruct (idx_in (E := PacketError) packet (o + 3) ltac:(lia)) as (d & -> & Hd).
  eexists. split; [done |]. apply u32_from_be_range; by eapply bytes_lookup.
Qed.

(** Whether the sum over pseudo header and packet is a positive multiple of 65535. *)
Definition tcp_verifies (source destination packet : list Z) : Prop :=
  let t := word_sum (tcp_pseudo source destination (Z.of_nat (length packet))) + word_sum packet in
  0 < t /\ t mod 65535 = 0.

Lemma lor_u16 a b : is_u16 a -> is_u16 b -> is_u16 (Z.lor a b).
Proof.
  intros Ha Hb. assert (forall z, is_u16 z -> Z.log2 z < 16) as Hlog.
  { intros z Hz. destruct (decide (z = 0)) as [->|]; [cbn; lia |].
    apply Z.log2_lt_pow2; [widths; lia |]. change (2 ^ 16) with 65536. widths. lia. }
  pose proof (Hlog a Ha). pose proof (Hlog b Hb).
  assert (0 <= Z.lor a b) as Hnn by (apply Z.lor_nonneg; widths; lia).
  split; [done |]. change 65536 with (2 ^ 16).
  destruct (decide (Z.lor a b = 0)) as [->|]; [cbn; lia |].
  apply Z.log2_lt_pow2; [lia |]. rewrite Z.log2_lor by (widths; lia). lia.
Qed.

Lemma flags_u16 b13 b12 : is_u8 b13 -> is_u8 b12 -> is_u16 (Z.lor b13 (Z.shiftl (Z.land b12 1) 8)).
Proof.
  intros H1 H2. apply lor_u16; [widths; lia |]. rewrite Z.shiftl_mul_pow2 by lia. change (2 ^ 8) with 256.
  change 1 with (Z.ones 1). rewrite Z.land_ones by lia. change (2 ^ 1) with 2. divlia.
Qed.

(** What the decoder does with arbitrary bytes. *)
Lemma tcp_decode_cases source destination packet :
  arr 4 source -> arr 4 destination -> bytes packet ->
  match TcpSegment_decode source destination packet with
  | Ok s => sg_wf s /\ sg_flags s < 32 /\ sg_urgent_pointer s = 0 /\
            tcp_verifies source destination packet /\ Z.of_nat (length packet) <= 65535
  | Err _ => True
  | Panic => False
  end.
Proof.
  intros Hs Hd Hb. unfold TcpSegment_decode, TCP_HEADER_LEN.
  destruct (Nat.ltb_spec (length packet) 20) as [|Hl]; [done |].
  destruct (idx_in (E := PacketError) packet 12 ltac:(lia)) as (b12 & -> & H12).
  destruct (negb _) eqn:Hoff; [done |]. bool_cases.
  destruct (Nat.ltb_spec (length packet) (Z.to_nat (Z.shiftr b12 4) * 4)); [done |].
  destruct (try_u16 (length packet)) as [len|] eqn:Htry; cbn [ok_or]; [|done].
  apply try_u16_Some in Htry as [-> Hu].
  destruct (tcp_checksum_spec source destination (Z.of_nat (length packet)) packet) as [Hu32 ->];
    [done | done | done | widths; lia |].
  destruct (Z.eqb_spec (finish_sum (word_sum (tcp_pseudo source destination (Z.of_nat (length packet)))
    + word_sum packet)) 0) as [Hz|]; cbn [negb]; [|done].
  destruct (idx_in (E := PacketError) packet 13 ltac:(lia)) as (b13 & -> & H13).
  destruct (read_u16_in packet 18 Hb ltac:(lia)) as (up & -> & Hup).
  pose proof (flags_u16 b13 b12 (bytes_lookup _ _ _ Hb H13) (bytes_lookup _ _ _ Hb H12)) as Hfl.
  destruct (_ || _) eqn:Hsup; [done |]. apply orb_false_iff in Hsup as [Hsup Hup0].
  apply (unsupported_flags_spec _ Hfl) in Hsup. bool_cases.
  destruct (read_u16_in packet 0 Hb ltac:(lia)) as (sp & -> & Hsp).
  destruct (read_u16_in packet 2 Hb ltac:(lia)) as (dp & -> & Hdp).
  destruct (read_u32_in packet 4 Hb ltac:(lia)) as (sq & -> & Hsq).
  destruct (read_u32_in packet 8 Hb ltac:(lia)) as (ak & -> & Hak).
  destruct (read_u16_in packet 14 Hb ltac:(lia)) as (wi & -> & Hwi).
  rewrite !slice_in by lia.
  pose proof (parse_options_total (take (Z.to_nat (Z.shiftr b12 4) * 4 - 20) (drop 20 packet))
    ltac:(solve_bytes) ltac:(rewrite length_take, length_drop; clear - Hu; widths; lia)
    (length (take (Z.to_nat (Z.shiftr b12 4) * 4 - 20) (drop 20 packet))) 0 TcpOptions_default
    ltac:(lia) ltac:(lia) I) as Hopt.
  unfold parse_options. destruct (parse_options_loop _ _ _ _) as [op| |]; [|done..].
  split_and!; [|done | done | by apply finish_sum_zero | widths; lia].
  unfold sg_wf. cbn. split_and!; try done. solve_bytes.
Qed.

(** ** Claims *)

(** A segment with any supported flags, with or without the maximum-segment-size option, survives the trip
    through any large enough buffer: its length is reported, the checksum over the
    pseudo header verifies, bytes behind it stay, and decoding gives the
    segment back.  The saturating and plain [u32] sums are exact on the way. *)
Theorem TcpSegment_roundtrip s source destination out
    (Hs : arr 4 source) (Hd : arr 4 destination) (Hok : sg_encodable s)
    (Hout : (tcp_len s <= length out)%nat) :
  exists out', TcpSegment_encode s source destination out = Ok (tcp_len s, out') /\
    drop (tcp_len s) out' = drop (tcp_len s) out /\
    TcpSegment_decode source destination (take (tcp_len s) out') = Ok s.
Proof.
  rewrite tcp_encode_wire by done. eexists. split_and!; [done | |].
  - rewrite drop_app_ge; rewrite tcp_wire_length; [|done]. by rewrite Nat.sub_diag.
  - rewrite take_app_le, take_ge by (by rewrite tcp_wire_length). by apply tcp_decode_wire.
Qed.

Definition demo_segment : TcpSegment :=
  {| sg_source_port := 49152; sg_destination_port := 80; sg_sequence := 4294967295;
     sg_acknowledgment := 7; sg_flags := 18; sg_window := 4096; sg_urgent_pointer := 0;
     sg_options := {| maximum_segment_size := Some 1460 |}; sg_payload := [1; 2; 3] |}.

Lemma demo_segment_ok : sg_encodable demo_segment.
Proof. unfold sg_encodable, sg_wf. cbn. split_and!; try (widths; lia); solve_bytes. Qed.

Lemma TcpSegment_roundtrip_witness :
  exists out', TcpSegment_encode demo_segment [10; 0; 2; 15] [10; 0; 2; 2] (replicate 30 9) = Ok (27%nat, out') /\
    drop 27 out' = drop 27 (replicate 30 9) /\
    TcpSegment_decode [10; 0; 2; 15] [10; 0; 2; 2] (take 27 out') = Ok demo_segment.
Proof.
  apply (TcpSegment_roundtrip demo_segment [10; 0; 2; 15] [10; 0; 2; 2] (replicate 30 9)).
  - split; [reflexivity | solve_bytes].
  - split; [reflexivity | solve_bytes].
  - exact demo_segment_ok.
  - cbn. lia.
Defined.

(** On arbitrary bytes the segment decoder returns without a panic (its option loop ends, its
    sums do not overflow), yields only segments with fields of their widths, supported flags, no urgent
    data and a checksum that verifies; and a packet it accepts is no longer
    accepted once any single byte of it is changed. *)
Theorem TcpSegment_decode_safe source destination packet
    (Hs : arr 4 source) (Hd : arr 4 destination) (Hb : bytes packet) :
  TcpSegment_decode source destination packet <> Panic /\
  forall s, TcpSegment_decode source destination packet = Ok s ->
    sg_wf s /\ sg_flags s < 32 /\ sg_urgent_pointer s = 0 /\ tcp_verifies source destination packet /\
    forall pre x post y s', packet = pre ++ x :: post -> is_u8 y -> x <> y ->
      TcpSegment_decode source destination (pre ++ y :: post) <> Ok s'.
Proof.
  pose proof (tcp_decode_cases source destination packet Hs Hd Hb) as Hc.
  split; [by destruct (TcpSegment_decode _ _ _) |]. intros s Hok. rewrite Hok in Hc.
  destruct Hc as (H1 & H2 & H3 & H4 & H5). split_and!; [done..|].
  intros pre x post y s' -> Hy Hne Hok'.
  assert (bytes (pre ++ y :: post)) as Hb' by (split_bytes; solve_bytes).
  pose proof (tcp_decode_cases source destination (pre ++ y :: post) Hs Hd Hb') as Hc'.
  rewrite Hok' in Hc'. destruct Hc' as (_ & _ & _ & [_ Hv'] & _). destruct H4 as [_ Hv].
  assert (length (pre ++ y :: post) = length (pre ++ x :: post)) as Hlen by (rewrite !length_app; done).
  rewrite Hlen in Hv'. assert (is_u8 x) by (split_bytes; done). widths.
  destruct (word_sum_replace pre x y post) as [Hr|Hr]; revert Hv Hv' Hr;
    generalize (word_sum (pre ++ x :: post)) (word_sum (pre ++ y :: post))
      (word_sum (tcp_pseudo source destination (Z.of_nat (length (pre ++ x :: post))))); intros; divlia.
Qed.

Lemma TcpSegment_decode_safe_witness :
  TcpSegment_decode [10; 0; 2; 15] [10; 0; 2; 2] (tcp_wire [10; 0; 2; 15] [10; 0; 2; 2] demo_segment) <> Panic.
Proof.
  apply (TcpSegment_decode_safe [10; 0; 2; 15] [10; 0; 2; 2]);
    [split; [reflexivity | solve_bytes] .. | by_compute].
Defined.
