(* ===== verification/TcpConn.v ===== *)
(** * TCP connections ([network-stack/src/tcp.rs], connection part, and the
    connection part of [network-stack/src/tcp/passive.rs])

    [VecDeque]s are lists with the front first.  An operation that takes
    [&mut self] returns the new connection with its result, also when the result is an
    error: errors after a partial update leave that update in place, as in the
    code.  [try_reserve] is the outcome of a reservation of so many elements. *)

From S2P Require Import Prelude Packet TcpSegment.

(** ** The code *)

Inductive TcpState : Type :=
  | Closed | SynSent | SynReceived | Established | FinWait1 | FinWait2 | CloseWait | LastAck
  | TimeWait | Reset.

#[export] Instance TcpState_eq_dec : EqDecision TcpState.
Proof. solve_decision. Defined.

Record TcpTuple := {
  tt_local_address : list Z;
  tt_local_port : Z;
  tt_remote_address : list Z;
  tt_remote_port : Z;
}.

#[export] Instance TcpTuple_eq_dec : EqDecision TcpTuple.
Proof. solve_decision. Defined.

Record TcpTransmit := {
  tx_sequence : Z;
  tx_acknowledgment : Z;
  tx_flags : Z;
  tx_window : Z;
  tx_options : TcpOptions;
  tx_payload : list Z;
  tx_retransmission : bool;
}.

Inductive TcpReceiveResult : Type :=
  | RAccepted | RAcknowledge | RDuplicateAck | RDuplicateSegment | ROutOfOrder | RReset | RClosed.

#[export] Instance TcpReceiveResult_eq_dec : EqDecision TcpReceiveResult.
Proof. solve_decision. Defined.

Inductive TcpConnectionError : Type :=
  | InvalidState | InvalidAcknowledgment | SendBufferFull | ReceiveBufferFull | Timeout | RetryLimit
  | ConnectionReset | TcpCapacity | PortUnavailable | EntropyUnavailable | Ownership | NotFound.

#[export] Instance TcpConnectionError_eq_dec : EqDecision TcpConnectionError.
Proof. solve_decision. Defined.

Record OutstandingSegment := {
  os_sequence : Z;
  os_acknowledgment : Z;
  os_flags : Z;
  os_options : TcpOptions;
  os_payload : list Z;
  os_sent_at : option Z;
  os_retries : Z;
}.

(** [flags & f != 0]. *)
Definition has_flag (flags f : Z) : bool := negb (Z.land flags f =? 0).

(** [x.len() as u32]. *)
Definition len32 (l : list Z) : Z := wrap32 (Z.of_nat (length l)).

Definition sequence_end (self : OutstandingSegment) : Z :=
  wrapping_add32
    (wrapping_add32
      (wrapping_add32 (os_sequence self) (len32 (os_payload self)))
      (Z.b2z (has_flag (os_flags self) TCP_FLAG_SYN)))
    (Z.b2z (has_flag (os_flags self) TCP_FLAG_FIN)).

Record TcpConnection := {
  tc_handle : Z;
  tc_owner : Z;
  tc_tuple : TcpTuple;
  tc_state : TcpState;
  tc_send_unacknowledged : Z;
  tc_send_next : Z;
  tc_receive_next : Z;
  tc_peer_window : Z;
  tc_peer_mss : Z;
  tc_local_mss : Z;
  tc_send_capacity : Z;
  tc_receive_capacity : Z;
  tc_send_buffer : list Z;
  tc_receive_buffer : list Z;
  tc_outstanding : list OutstandingSegment;
  tc_close_requested : bool;
  tc_retransmit_timeout : Z;
  tc_retry_limit : Z;
  tc_time_wait_until : option Z;
}.

Definition set_state (c : TcpConnection) (v : TcpState) : TcpConnection :=
  {| tc_handle := tc_handle c; tc_owner := tc_owner c; tc_tuple := tc_tuple c; tc_state := v;
     tc_send_unacknowledged := tc_send_unacknowledged c; tc_send_next := tc_send_next c;
     tc_receive_next := tc_receive_next c; tc_peer_window := tc_peer_window c;
     tc_peer_mss := tc_peer_mss c; tc_local_mss := tc_local_mss c; tc_send_capacity := tc_send_capacity c;
     tc_receive_capacity := tc_receive_capacity c; tc_send_buffer := tc_send_buffer c;
     tc_receive_buffer := tc_receive_buffer c; tc_outstanding := tc_outstanding c;
     tc_close_requested := tc_close_requested c; tc_retransmit_timeout := tc_retransmit_timeout c;
     tc_retry_limit := tc_retry_limit c; tc_time_wait_until := tc_time_wait_until c |}.

Definition set_send_unacknowledged (c : TcpConnection) (v : Z) : TcpConnection :=
  {| tc_handle := tc_handle c; tc_owner := tc_owner c; tc_tuple := tc_tuple c; tc_state := tc_state c;
     tc_send_unacknowledged := v; tc_send_next := tc_send_next c; tc_receive_next := tc_receive_next c;
     tc_peer_window := tc_peer_window c; tc_peer_mss := tc_peer_mss c; tc_local_mss := tc_local_mss c;
     tc_send_capacity := tc_send_capacity c; tc_receive_capacity := tc_receive_capacity c;
     tc_send_buffer := tc_send_buffer c; tc_receive_buffer := tc_receive_buffer c;
     tc_outstanding := tc_outstanding c; tc_close_requested := tc_close_requested c;
     tc_retransmit_timeout := tc_retransmit_timeout c; tc_retry_limit := tc_retry_limit c;
     tc_time_wait_until := tc_time_wait_until c |}.

Definition set_send_next (c : TcpConnection) (v : Z) : TcpConnection :=
  {| tc_handle := tc_handle c; tc_owner := tc_owner c; tc_tuple := tc_tuple c; tc_state := tc_state c;
     tc_send_unacknowledged := tc_send_unacknowledged c; tc_send_next := v;
     tc_receive_next := tc_receive_next c; tc_peer_window := tc_peer_window c;
     tc_peer_mss := tc_peer_mss c; tc_local_mss := tc_local_mss c; tc_send_capacity := tc_send_capacity c;
     tc_receive_capacity := tc_receive_capacity c; tc_send_buffer := tc_send_buffer c;
     tc_receive_buffer := tc_receive_buffer c; tc_outstanding := tc_outstanding c;
     tc_close_requested := tc_close_requested c; tc_retransmit_timeout := tc_retransmit_timeout c;
     tc_retry_limit := tc_retry_limit c; tc_time_wait_until := tc_time_wait_until c |}.

Definition set_receive_next (c : TcpConnection) (v : Z) : TcpConnection :=
  {| tc_handle := tc_handle c; tc_owner := tc_owner c; tc_tuple := tc_tuple c; tc_state := tc_state c;
     tc_send_unacknowledged := tc_send_unacknowledged c; tc_send_next := tc_send_next c;
     tc_receive_next := v; tc_peer_window := tc_peer_window c; tc_peer_mss := tc_peer_mss c;
     tc_local_mss := tc_local_mss c; tc_send_capacity := tc_send_capacity c;
     tc_receive_capacity := tc_receive_capacity c; tc_send_buffer := tc_send_buffer c;
     tc_receive_buffer := tc_receive_buffer c; tc_outstanding := tc_outstanding c;
     tc_close_requested := tc_close_requested c; tc_retransmit_timeout := tc_retransmit_timeout c;
     tc_retry_limit := tc_retry_limit c; tc_time_wait_until := tc_time_wait_until c |}.

Definition set_peer_window (c : TcpConnection) (v : Z) : TcpConnection :=
  {| tc_handle := tc_handle c; tc_owner := tc_owner c; tc_tuple := tc_tuple c; tc_state := tc_state c;
     tc_send_unacknowledged := tc_send_unacknowledged c; tc_send_next := tc_send_next c;
     tc_receive_next := tc_receive_next c; tc_peer_window := v; tc_peer_mss := tc_peer_mss c;
     tc_local_mss := tc_local_mss c; tc_send_capacity := tc_send_capacity c;
     tc_receive_capacity := tc_receive_capacity c; tc_send_buffer := tc_send_buffer c;
     tc_receive_buffer := tc_receive_buffer c; tc_outstanding := tc_outstanding c;
     tc_close_requested := tc_close_requested c; tc_retransmit_timeout := tc_retransmit_timeout c;
     tc_retry_limit := tc_retry_limit c; tc_time_wait_until := tc_time_wait_until c |}.

Definition set_peer_mss (c : TcpConnection) (v : Z) : TcpConnection :=
  {| tc_handle := tc_handle c; tc_owner := tc_owner c; tc_tuple := tc_tuple c; tc_state := tc_state c;
     tc_send_unacknowledged := tc_send_unacknowledged c; tc_send_next := tc_send_next c;
     tc_receive_next := tc_receive_next c; tc_peer_window := tc_peer_window c; tc_peer_mss := v;
     tc_local_mss := tc_local_mss c; tc_send_capacity := tc_send_capacity c;
     tc_receive_capacity := tc_receive_capacity c; tc_send_buffer := tc_send_buffer c;
     tc_receive_buffer := tc_receive_buffer c; tc_outstanding := tc_outstanding c;
     tc_close_requested := tc_close_requested c; tc_retransmit_timeout := tc_retransmit_timeout c;
     tc_retry_limit := tc_retry_limit c; tc_time_wait_until := tc_time_wait_until c |}.

Definition set_send_buffer (c : TcpConnection) (v : list Z) : TcpConnection :=
  {| tc_handle := tc_handle c; tc_owner := tc_owner c; tc_tuple := tc_tuple c; tc_state := tc_state c;
     tc_send_unacknowledged := tc_send_unacknowledged c; tc_send_next := tc_send_next c;
     tc_receive_next := tc_receive_next c; tc_peer_window := tc_peer_window c;
     tc_peer_mss := tc_peer_mss c; tc_local_mss := tc_local_mss c; tc_send_capacity := tc_send_capacity c;
     tc_receive_capacity := tc_receive_capacity c; tc_send_buffer := v;
     tc_receive_buffer := tc_receive_buffer c; tc_outstanding := tc_outstanding c;
     tc_close_requested := tc_close_requested c; tc_retransmit_timeout := tc_retransmit_timeout c;
     tc_retry_limit := tc_retry_limit c; tc_time_wait_until := tc_time_wait_until c |}.

Definition set_receive_buffer (c : TcpConnection) (v : list Z) : TcpConnection :=
  {| tc_handle := tc_handle c; tc_owner := tc_owner c; tc_tuple := tc_tuple c; tc_state := tc_state c;
     tc_send_unacknowledged := tc_send_unacknowledged c; tc_send_next := tc_send_next c;
     tc_receive_next := tc_receive_next c; tc_peer_window := tc_peer_window c;
     tc_peer_mss := tc_peer_mss c; tc_local_mss := tc_local_mss c; tc_send_capacity := tc_send_capacity c;
     tc_receive_capacity := tc_receive_capacity c; tc_send_buffer := tc_send_buffer c;
     tc_receive_buffer := v; tc_outstanding := tc_outstanding c;
     tc_close_requested := tc_close_requested c; tc_retransmit_timeout := tc_retransmit_timeout c;
     tc_retry_limit := tc_retry_limit c; tc_time_wait_until := tc_time_wait_until c |}.

Definition set_outstanding (c : TcpConnection) (v : list OutstandingSegment) : TcpConnection :=
  {| tc_handle := tc_handle c; tc_owner := tc_owner c; tc_tuple := tc_tuple c; tc_state := tc_state c;
     tc_send_unacknowledged := tc_send_unacknowledged c; tc_send_next := tc_send_next c;
     tc_receive_next := tc_receive_next c; tc_peer_window := tc_peer_window c;
     tc_peer_mss := tc_peer_mss c; tc_local_mss := tc_local_mss c; tc_send_capacity := tc_send_capacity c;
     tc_receive_capacity := tc_receive_capacity c; tc_send_buffer := tc_send_buffer c;
     tc_receive_buffer := tc_receive_buffer c; tc_outstanding := v;
     tc_close_requested := tc_close_requested c; tc_retransmit_timeout := tc_retransmit_timeout c;
     tc_retry_limit := tc_retry_limit c; tc_time_wait_until := tc_time_wait_until c |}.

Definition set_close_requested (c : TcpConnection) (v : bool) : TcpConnection :=
  {| tc_handle := tc_handle c; tc_owner := tc_owner c; tc_tuple := tc_tuple c; tc_state := tc_state c;
     tc_send_unacknowledged := tc_send_unacknowledged c; tc_send_next := tc_send_next c;
     tc_receive_next := tc_receive_next c; tc_peer_window := tc_peer_window c;
     tc_peer_mss := tc_peer_mss c; tc_local_mss := tc_local_mss c; tc_send_capacity := tc_send_capacity c;
     tc_receive_capacity := tc_receive_capacity c; tc_send_buffer := tc_send_buffer c;
     tc_receive_buffer := tc_receive_buffer c; tc_outstanding := tc_outstanding c; tc_close_requested := v;
     tc_retransmit_timeout := tc_retransmit_timeout c; tc_retry_limit := tc_retry_limit c;
     tc_time_wait_until := tc_time_wait_until c |}.

Definition set_time_wait_until (c : TcpConnection) (v : option Z) : TcpConnection :=
  {| tc_handle := tc_handle c; tc_owner := tc_owner c; tc_tuple := tc_tuple c; tc_state := tc_state c;
     tc_send_unacknowledged := tc_send_unacknowledged c; tc_send_next := tc_send_next c;
     tc_receive_next := tc_receive_next c; tc_peer_window := tc_peer_window c;
     tc_peer_mss := tc_peer_mss c; tc_local_mss := tc_local_mss c; tc_send_capacity := tc_send_capacity c;
     tc_receive_capacity := tc_receive_capacity c; tc_send_buffer := tc_send_buffer c;
     tc_receive_buffer := tc_receive_buffer c; tc_outstanding := tc_outstanding c;
     tc_close_requested := tc_close_requested c; tc_retransmit_timeout := tc_retransmit_timeout c;
     tc_retry_limit := tc_retry_limit c; tc_time_wait_until := v |}.

(** [(left.wrapping_sub(right) as i32) < 0]. *)
Definition sequence_before (left right : Z) : bool := 2147483648 <=? wrapping_sub32 left right.
Definition sequence_after (left right : Z) : bool := sequence_before right left.

Definition transmit_from (segment : OutstandingSegment) (window : Z) (retransmission : bool) : TcpTransmit :=
  {| tx_sequence := os_sequence segment; tx_acknowledgment := os_acknowledgment segment;
     tx_flags := os_flags segment; tx_window := window; tx_options := os_options segment;
     tx_payload := os_payload segment; tx_retransmission := retransmission |}.

Definition state_in (s : TcpState) (l : list TcpState) : bool := existsb (fun x => bool_decide (s = x)) l.

Section Allocator.
Variable try_reserve : Z -> bool.

Definition try_connect (handle owner : Z) (tuple : TcpTuple) (initial_sequence local_mss : Z)
    (send_capacity receive_capacity retransmit_timeout retry_limit : Z)
    : result TcpConnectionError TcpConnection :=
  if (handle =? 0) || (tt_local_port tuple =? 0) || (tt_remote_port tuple =? 0) || (local_mss =? 0)
  then Err InvalidState else
  if negb (try_reserve send_capacity) then Err TcpCapacity else
  if negb (try_reserve receive_capacity) then Err TcpCapacity else
  let syn := {| os_sequence := initial_sequence; os_acknowledgment := 0; os_flags := TCP_FLAG_SYN;
                os_options := {| maximum_segment_size := Some local_mss |}; os_payload := [];
                os_sent_at := None; os_retries := 0 |} in
  if negb (try_reserve 1) then Err TcpCapacity else
  Ok {| tc_handle := handle; tc_owner := owner; tc_tuple := tuple; tc_state := SynSent;
        tc_send_unacknowledged := initial_sequence; tc_send_next := wrapping_add32 initial_sequence 1;
        tc_receive_next := 0; tc_peer_window := 0; tc_peer_mss := local_mss; tc_local_mss := local_mss;
        tc_send_capacity := send_capacity; tc_receive_capacity := receive_capacity;
        tc_send_buffer := []; tc_receive_buffer := []; tc_outstanding := [syn];
        tc_close_requested := false; tc_retransmit_timeout := retransmit_timeout;
        tc_retry_limit := retry_limit; tc_time_wait_until := None |}.

(** [connect] is [try_connect(..).expect(..)]. *)
Definition connect (handle owner : Z) (tuple : TcpTuple) (initial_sequence local_mss : Z)
    (send_capacity receive_capacity retransmit_timeout retry_limit : Z)
    : result TcpConnectionError TcpConnection :=
  match try_connect handle owner tuple initial_sequence local_mss send_capacity receive_capacity
          retransmit_timeout retry_limit with
  | Ok c => Ok c
  | _ => Panic
  end.
End Allocator.

(** The [fold] over the outstanding payloads, on [usize]. *)
Definition in_flight (self : TcpConnection) : Z :=
  foldl (fun total s => saturating_add64 total (Z.of_nat (length (os_payload s)))) 0 (tc_outstanding self).

Definition queue_send (self : TcpConnection) (bytes : list Z)
    : TcpConnection * result TcpConnectionError unit :=
  if negb (state_in (tc_state self) [Established; CloseWait]) then (self, Err InvalidState) else
  if tc_send_capacity self <?
       saturating_add64 (saturating_add64 (in_flight self) (Z.of_nat (length (tc_send_buffer self))))
         (Z.of_nat (length bytes))
  then (self, Err SendBufferFull)
  else (set_send_buffer self (tc_send_buffer self ++ bytes), Ok tt).

Definition request_close (self : TcpConnection) : TcpConnection * result TcpConnectionError unit :=
  if negb (state_in (tc_state self) [Established; CloseWait]) then (self, Err InvalidState)
  else (set_close_requested self true, Ok tt).

Definition local_window (self : TcpConnection) : Z :=
  let free := saturating_sub (tc_receive_capacity self) (Z.of_nat (length (tc_receive_buffer self))) in
  if free <=? U16_MAX then free else U16_MAX.

Definition passive_syn_ack (self : TcpConnection) : TcpTransmit :=
  {| tx_sequence := tc_send_unacknowledged self; tx_acknowledgment := tc_receive_next self;
     tx_flags := Z.lor TCP_FLAG_SYN TCP_FLAG_ACK; tx_window := local_window self;
     tx_options := {| maximum_segment_size := Some (tc_local_mss self) |}; tx_payload := [];
     tx_retransmission := true |}.

Definition acknowledgment (self : TcpConnection) : TcpTransmit :=
  if bool_decide (tc_state self = SynReceived) then passive_syn_ack self else
  {| tx_sequence := tc_send_next self; tx_acknowledgment := tc_receive_next self;
     tx_flags := TCP_FLAG_ACK; tx_window := local_window self; tx_options := TcpOptions_default;
     tx_payload := []; tx_retransmission := false |}.

Definition abort (self : TcpConnection) : TcpConnection :=
  set_receive_buffer (set_send_buffer (set_outstanding (set_state self Reset) []) []) [].

(** [for _ in 0..n { if let Some(byte) = q.pop_front() { .. } }]. *)
Fixpoint pop_front_n (n : nat) (q : list Z) : list Z * list Z :=
  match n, q with
  | O, _ => ([], q)
  | S _, [] => ([], [])
  | S n, x :: q => let '(popped, q) := pop_front_n n q in (x :: popped, q)
  end.

Definition retransmit_delay (self : TcpConnection) (retries : Z) : Z :=
  saturating_mul64 (tc_retransmit_timeout self) (Z.shiftl 1 (Z.min retries 20)).

(** The three parts of [poll_transmit]: the outstanding segment, then data, then the
    end of the stream. *)
Definition poll_outstanding (self : TcpConnection) (segment : OutstandingSegment)
    (others : list OutstandingSegment) (now : Z)
    : TcpConnection * result TcpConnectionError (option TcpTransmit) :=
  let window := local_window self in
  let resend retries :=
    {| os_sequence := os_sequence segment; os_acknowledgment := os_acknowledgment segment;
       os_flags := os_flags segment; os_options := os_options segment;
       os_payload := os_payload segment; os_sent_at := Some now; os_retries := retries |} in
  match os_sent_at segment with
  | Some sent_at =>
      if saturating_sub now sent_at <? retransmit_delay self (os_retries segment) then (self, Ok None) else
      if tc_retry_limit self <=? os_retries segment then
        let self := if bool_decide (tc_state self = SynReceived) then set_receive_buffer self [] else self in
        (set_state self Reset, Err RetryLimit)
      else
        let segment := resend (saturating_add8 (os_retries segment) 1) in
        (set_outstanding self (segment :: others), Ok (Some (transmit_from segment window true)))
  | None =>
      let segment := resend (os_retries segment) in
      (set_outstanding self (segment :: others), Ok (Some (transmit_from segment window false)))
  end.

Definition poll_data (self : TcpConnection) (now : Z)
    : TcpConnection * result TcpConnectionError (option TcpTransmit) :=
  if tc_peer_window self =? 0 then (self, Ok None) else
  let maximum := Z.min (Z.min (tc_local_mss self) (tc_peer_mss self)) (tc_peer_window self) in
  if maximum =? 0 then (self, Ok None) else
  let len := Nat.min (Z.to_nat maximum) (length (tc_send_buffer self)) in
  let '(payload, rest) := pop_front_n len (tc_send_buffer self) in
  let segment := {| os_sequence := tc_send_next self; os_acknowledgment := tc_receive_next self;
                    os_flags := Z.lor TCP_FLAG_ACK TCP_FLAG_PSH; os_options := TcpOptions_default;
                    os_payload := payload; os_sent_at := Some now; os_retries := 0 |} in
  let self := set_send_next (set_send_buffer self rest) (sequence_end segment) in
  (set_outstanding self (tc_outstanding self ++ [segment]),
   Ok (Some (transmit_from segment (local_window self) false))).

Definition poll_fin (self : TcpConnection) (now : Z)
    : TcpConnection * result TcpConnectionError (option TcpTransmit) :=
  let segment := {| os_sequence := tc_send_next self; os_acknowledgment := tc_receive_next self;
                    os_flags := Z.lor TCP_FLAG_FIN TCP_FLAG_ACK; os_options := TcpOptions_default;
                    os_payload := []; os_sent_at := Some now; os_retries := 0 |} in
  let self := set_send_next self (wrapping_add32 (tc_send_next self) 1) in
  let self := set_state self (if bool_decide (tc_state self = CloseWait) then LastAck else FinWait1) in
  (set_outstanding self (tc_outstanding self ++ [segment]),
   Ok (Some (transmit_from segment (local_window self) false))).

Definition poll_transmit (self : TcpConnection) (now : Z)
    : TcpConnection * result TcpConnectionError (option TcpTransmit) :=
  match tc_outstanding self with
  | segment :: others => poll_outstanding self segment others now
  | [] =>
      if state_in (tc_state self) [Established; CloseWait]
         && negb (bool_decide (tc_send_buffer self = []))
      then poll_data self now
      else if tc_close_requested self && bool_decide (tc_send_buffer self = [])
              && bool_decide (tc_outstanding self = [])
              && state_in (tc_state self) [Established; CloseWait]
      then poll_fin self now
      else (self, Ok None)
  end.

(** [while outstanding.front().is_some_and(..) { outstanding.pop_front() }]. *)
Fixpoint drop_acknowledged (acknowledgment : Z) (q : list OutstandingSegment) : list OutstandingSegment :=
  match q with
  | segment :: rest =>
      if negb (sequence_after (sequence_end segment) acknowledgment)
      then drop_acknowledged acknowledgment rest else q
  | [] => []
  end.

Definition acknowledge (self : TcpConnection) (acknowledgment : Z)
    : TcpConnection * result TcpConnectionError unit :=
  if sequence_before acknowledgment (tc_send_unacknowledged self)
     || sequence_after acknowledgment (tc_send_next self)
  then (self, Err InvalidAcknowledgment)
  else
    let self := set_send_unacknowledged self acknowledgment in
    (set_outstanding self (drop_acknowledged acknowledgment (tc_outstanding self)), Ok tt).

(** The acknowledgement block of [on_segment]: an early return, or the result so far. *)
Definition on_ack (self : TcpConnection) (segment : TcpSegment)
    : TcpConnection * result TcpConnectionError (TcpReceiveResult + TcpReceiveResult) :=
  if negb (has_flag (sg_flags segment) TCP_FLAG_ACK) then (self, Ok (inr RAccepted)) else
  if sg_acknowledgment segment =? tc_send_unacknowledged self
  then (set_peer_window self (sg_window segment), Ok (inr RDuplicateAck))
  else
    match acknowledge self (sg_acknowledgment segment) with
    | (self, Ok _) =>
        if bool_decide (tc_state self = FinWait1) && (sg_acknowledgment segment =? tc_send_next self)
        then (set_peer_window (set_state self FinWait2) (sg_window segment), Ok (inr RAccepted))
        else if bool_decide (tc_state self = LastAck) && (sg_acknowledgment segment =? tc_send_next self)
        then (set_state self Closed, Ok (inl RClosed))
        else (set_peer_window self (sg_window segment), Ok (inr RAccepted))
    | (self, Err e) => (self, Err e)
    | (self, Panic) => (self, Panic)
    end.

(** The payload block. *)
Definition on_payload (self : TcpConnection) (segment : TcpSegment) (res : TcpReceiveResult)
    : TcpConnection * result TcpConnectionError TcpReceiveResult :=
  if bool_decide (sg_payload segment = []) then (self, Ok res) else
  if sg_sequence segment =? tc_receive_next self then
    if tc_receive_capacity self <?
         saturating_add64 (Z.of_nat (length (tc_receive_buffer self))) (Z.of_nat (length (sg_payload segment)))
    then (self, Err ReceiveBufferFull)
    else
      let self := set_receive_buffer self (tc_receive_buffer self ++ sg_payload segment) in
      (set_receive_next self (wrapping_add32 (tc_receive_next self) (len32 (sg_payload segment))),
       Ok RAcknowledge)
  else if sequence_before (sg_sequence segment) (tc_receive_next self)
  then (self, Ok RDuplicateSegment)
  else (self, Ok ROutOfOrder).

(** The end-of-stream block. *)
Definition on_fin (self : TcpConnection) (segment : TcpSegment) (now : Z) (res : TcpReceiveResult)
    : TcpConnection * result TcpConnectionError TcpReceiveResult :=
  if negb (has_flag (sg_flags segment) TCP_FLAG_FIN) then (self, Ok res) else
  if negb (wrapping_add32 (sg_sequence segment) (len32 (sg_payload segment)) =? tc_receive_next self)
  then (self, Ok ROutOfOrder)
  else
    let self := set_receive_next self (wrapping_add32 (tc_receive_next self) 1) in
    let self :=
      if state_in (tc_state self) [FinWait1; FinWait2]
      then set_time_wait_until (set_state self TimeWait) (Some (saturating_add64 now 30000))
      else if bool_decide (tc_state self = Established) then set_state self CloseWait
      else self in
    (self, Ok RAcknowledge).

Definition SYN_ACK : Z := Z.lor TCP_FLAG_SYN TCP_FLAG_ACK.

(** A repeated SYN/ACK of an established active open. *)
Definition is_duplicate_syn_ack (self : TcpConnection) (segment : TcpSegment) : bool :=
  bool_decide (tc_state self = Established) && (sg_flags segment =? SYN_ACK)
  && (wrapping_add32 (sg_sequence segment) 1 =? tc_receive_next self)
  && (sg_acknowledgment segment =? tc_send_unacknowledged self)
  && bool_decide (sg_payload segment = []).

(** A synchronised connection: the part of [on_segment] after the [SynSent] block. *)
Definition on_segment_synchronized (self : TcpConnection) (segment : TcpSegment) (now : Z)
    : TcpConnection * result TcpConnectionError TcpReceiveResult :=
  if negb (state_in (tc_state self) [Established; FinWait1; FinWait2; CloseWait; LastAck; TimeWait])
  then (self, Err InvalidState) else
  if has_flag (sg_flags segment) TCP_FLAG_SYN then
    if is_duplicate_syn_ack self segment then (self, Ok RAcknowledge) else (self, Err InvalidState)
  else
  if negb (has_flag (sg_flags segment) TCP_FLAG_ACK) then (self, Err InvalidAcknowledgment) else
  if bool_decide (sg_payload segment = []) && negb (has_flag (sg_flags segment) TCP_FLAG_FIN)
     && negb (sg_sequence segment =? tc_receive_next self)
  then (self, Ok (if sequence_before (sg_sequence segment) (tc_receive_next self)
                  then RDuplicateSegment else ROutOfOrder))
  else
  match on_ack self segment with
  | (self, Ok (inl early)) => (self, Ok early)
  | (self, Ok (inr res)) =>
      match on_payload self segment res with
      | (self, Ok res) => on_fin self segment now res
      | (self, Err e) => (self, Err e)
      | (self, Panic) => (self, Panic)
      end
  | (self, Err e) => (self, Err e)
  | (self, Panic) => (self, Panic)
  end.

(** The part of [on_segment] after its first test. *)
Definition on_segment_open (self : TcpConnection) (segment : TcpSegment) (now : Z)
    : TcpConnection * result TcpConnectionError TcpReceiveResult :=
  if has_flag (sg_flags segment) TCP_FLAG_RST then
    if (bool_decide (tc_state self = SynSent)
          && (negb (has_flag (sg_flags segment) TCP_FLAG_ACK)
              || negb (sg_acknowledgment segment =? tc_send_next self)))
       || (negb (bool_decide (tc_state self = SynSent))
           && negb (sg_sequence segment =? tc_receive_next self))
    then (self, Err InvalidAcknowledgment)
    else (abort self, Ok RReset)
  else
  if bool_decide (tc_state self = SynSent) then
    if negb (Z.land (sg_flags segment) SYN_ACK =? SYN_ACK)
       || negb (sg_acknowledgment segment =? tc_send_next self)
    then (self, Err InvalidAcknowledgment)
    else
      match acknowledge self (sg_acknowledgment segment) with
      | (self, Ok _) =>
          let self := set_receive_next self (wrapping_add32 (sg_sequence segment) 1) in
          let self := set_peer_window self (sg_window segment) in
          let self := match maximum_segment_size (sg_options segment) with
                      | Some mss => set_peer_mss self (Z.max mss 1)
                      | None => self
                      end in
          (set_state self Established, Ok RAcknowledge)
      | (self, Err e) => (self, Err e)
      | (self, Panic) => (self, Panic)
      end
  else on_segment_synchronized self segment now.

(** ** Passive opens *)

Record TcpListenConfig := {
  lc_backlog : Z;
  lc_local_mss : Z;
  lc_send_capacity : Z;
  lc_receive_capacity : Z;
  lc_retransmit_timeout : Z;
  lc_retry_limit : Z;
}.

Definition validate_segment (tuple : TcpTuple) (segment : TcpSegment) : result TcpConnectionError unit :=
  let header := (TCP_HEADER_LEN + match maximum_segment_size (sg_options segment) with
                                  | Some _ => 4 | None => 0 end)%nat in
  if (tt_local_port tuple =? 0) || (tt_remote_port tuple =? 0)
     || negb (sg_source_port segment =? tt_remote_port tuple)
     || negb (sg_destination_port segment =? tt_local_port tuple)
     || unsupported_flags (sg_flags segment)
     || (U16_MAX - Z.of_nat header <? Z.of_nat (length (sg_payload segment)))
     || negb (sg_urgent_pointer segment =? 0)
  then Err InvalidState else Ok tt.

Definition is_syn (flags : Z) : bool := Z.land flags (not16 TCP_FLAG_PSH) =? TCP_FLAG_SYN.

Definition validate_syn (tuple : TcpTuple) (segment : TcpSegment) : result TcpConnectionError unit :=
  let? _ := validate_segment tuple segment in
  if negb (is_syn (sg_flags segment)) then Err InvalidState else Ok tt.

Definition accept_syn (try_reserve : Z -> bool) (handle owner : Z) (tuple : TcpTuple)
    (initial_sequence : Z) (config : TcpListenConfig) (segment : TcpSegment)
    : result TcpConnectionError TcpConnection :=
  let? _ := validate_syn tuple segment in
  if (handle =? 0) || (lc_local_mss config =? 0) then Err InvalidState else
  if lc_receive_capacity config <? Z.of_nat (length (sg_payload segment)) then Err ReceiveBufferFull else
  if negb (try_reserve (lc_send_capacity config)) then Err TcpCapacity else
  if negb (try_reserve (lc_receive_capacity config)) then Err TcpCapacity else
  if negb (try_reserve 1) then Err TcpCapacity else
  let receive_next :=
    wrapping_add32 (wrapping_add32 (sg_sequence segment) 1) (len32 (sg_payload segment)) in
  let syn_ack := {| os_sequence := initial_sequence; os_acknowledgment := receive_next;
                    os_flags := SYN_ACK;
                    os_options := {| maximum_segment_size := Some (lc_local_mss config) |};
                    os_payload := []; os_sent_at := None; os_retries := 0 |} in
  Ok {| tc_handle := handle; tc_owner := owner; tc_tuple := tuple; tc_state := SynReceived;
        tc_send_unacknowledged := initial_sequence; tc_send_next := wrapping_add32 initial_sequence 1;
        tc_receive_next := receive_next; tc_peer_window := sg_window segment;
        tc_peer_mss := Z.max (default 536 (maximum_segment_size (sg_options segment))) 1;
        tc_local_mss := lc_local_mss config; tc_send_capacity := lc_send_capacity config;
        tc_receive_capacity := lc_receive_capacity config; tc_send_buffer := [];
        tc_receive_buffer := sg_payload segment; tc_outstanding := [syn_ack];
        tc_close_requested := false; tc_retransmit_timeout := lc_retransmit_timeout config;
        tc_retry_limit := lc_retry_limit config; tc_time_wait_until := None |}.

Definition acceptable_sequence (next window : Z) (segment : TcpSegment) : bool :=
  let fin := Z.b2z (has_flag (sg_flags segment) TCP_FLAG_FIN) in
  if U32_MAX <? Z.of_nat (length (sg_payload segment)) + fin then false else
  let length := Z.of_nat (length (sg_payload segment)) + fin in
  if window =? 0 then (length =? 0) && (sg_sequence segment =? next) else
  let inside sequence := wrapping_sub32 sequence next <? window in
  inside (sg_sequence segment)
  || negb (length =? 0) && inside (wrapping_add32 (sg_sequence segment) (length - 1)).

(** Drop what the segment repeats of the data received with the SYN. *)
Definition trim_segment (receive_next : Z) (segment : TcpSegment) : TcpSegment :=
  if sequence_before (sg_sequence segment) receive_next then
    let overlap := wrapping_sub32 receive_next (sg_sequence segment) in
    let trim := Nat.min (Z.to_nat overlap) (length (sg_payload segment)) in
    {| sg_source_port := sg_source_port segment; sg_destination_port := sg_destination_port segment;
       sg_sequence := wrapping_add32 (sg_sequence segment) (wrap32 (Z.of_nat trim));
       sg_acknowledgment := sg_acknowledgment segment; sg_flags := sg_flags segment;
       sg_window := sg_window segment; sg_urgent_pointer := sg_urgent_pointer segment;
       sg_options := sg_options segment; sg_payload := drop trim (sg_payload segment) |}
  else segment.

(** [receive_passive] calls [on_segment] back on a connection it has just made
    [Established]; the model calls the part of [on_segment] that such a connection runs. *)
Definition receive_passive (self : TcpConnection) (segment : TcpSegment) (now : Z)
    : TcpConnection * result TcpConnectionError TcpReceiveResult :=
  match validate_segment (tc_tuple self) segment with
  | Err e => (self, Err e)
  | Panic => (self, Panic)
  | Ok _ =>
  if has_flag (sg_flags segment) TCP_FLAG_RST then
    if negb (sg_sequence segment =? tc_receive_next self) then (self, Err InvalidAcknowledgment)
    else (abort self, Ok RReset)
  else
  if has_flag (sg_flags segment) TCP_FLAG_SYN then
    (self, let? _ := validate_syn (tc_tuple self) segment in
           if wrapping_add32 (wrapping_add32 (sg_sequence segment) 1) (len32 (tc_receive_buffer self))
              =? tc_receive_next self
           then Ok RDuplicateSegment else Err InvalidState)
  else
  if negb (acceptable_sequence (tc_receive_next self) (local_window self) segment)
  then (self, Ok ROutOfOrder) else
  if negb (has_flag (sg_flags segment) TCP_FLAG_ACK)
     || negb (sg_acknowledgment segment =? tc_send_next self)
  then (self, Err InvalidAcknowledgment) else
  match acknowledge self (sg_acknowledgment segment) with
  | (self, Ok _) =>
      let self := set_peer_window (set_state self Established) (sg_window segment) in
      let queued := length (tc_receive_buffer self) in
      let '(self, r) := on_segment_open self (trim_segment (tc_receive_next self) segment) now in
      (self, let? res := r in Ok (if (queued =? 0)%nat then res else RAcknowledge))
  | (self, Err e) => (self, Err e)
  | (self, Panic) => (self, Panic)
  end
  end.

Definition on_segment (self : TcpConnection) (segment : TcpSegment) (now : Z)
    : TcpConnection * result TcpConnectionError TcpReceiveResult :=
  if bool_decide (tc_state self = SynReceived) then receive_passive self segment now
  else on_segment_open self segment now.

(** ** Reading and timers *)

(** [for byte in out.iter_mut().take(n) { if let Some(v) = q.pop_front() { *byte = v } }]. *)
Definition receive (self : TcpConnection) (out : list Z) : TcpConnection * (nat * list Z) :=
  if bool_decide (tc_state self = SynReceived) then (self, (0%nat, out)) else
  let len := Nat.min (length out) (length (tc_receive_buffer self)) in
  let '(popped, rest) := pop_front_n len (tc_receive_buffer self) in
  (set_receive_buffer self rest, (len, popped ++ drop (length popped) out)).

Definition received_len (self : TcpConnection) : nat :=
  if bool_decide (tc_state self = SynReceived) then 0%nat else length (tc_receive_buffer self).

Definition queued_send_len (self : TcpConnection) : nat := length (tc_send_buffer self).

Definition send_available (self : TcpConnection) : Z :=
  saturating_sub (tc_send_capacity self)
    (saturating_add64 (in_flight self) (Z.of_nat (length (tc_send_buffer self)))).

Definition peek (self : TcpConnection) (out : list Z) : nat * list Z :=
  if bool_decide (tc_state self = SynReceived) then (0%nat, out) else
  let n := Nat.min (length out) (length (tc_receive_buffer self)) in
  (n, take n (tc_receive_buffer self) ++ drop n out).

Definition discard_received (self : TcpConnection) : TcpConnection := set_receive_buffer self [].

Definition has_unacknowledged (self : TcpConnection) : bool := negb (bool_decide (tc_outstanding self = [])).

Definition tick (self : TcpConnection) (now : Z) : TcpConnection * TcpReceiveResult :=
  if bool_decide (tc_state self = TimeWait)
     && match tc_time_wait_until self with Some until => until <=? now | None => false end
  then (set_state self Closed, RClosed)
  else (self, RAccepted).
