(* ===== verification/TcpInvariant.v ===== *)
(** * Invariant of TCP connections

    At most one segment is outstanding, acknowledgements lie between the oldest
    unacknowledged number and the next one, buffers stay within their capacities and
    the closing states have nothing left to send; every operation of
    [TcpConn] keeps this and none of them panics. *)

From S2P Require Import Prelude Packet TcpSegment TcpConn.

(** ** Automation: projections of updated connections *)

Ltac tc_simpl :=
  cbn [abort set_state set_send_unacknowledged set_send_next set_receive_next set_peer_window set_peer_mss
       set_send_buffer set_receive_buffer set_outstanding set_close_requested set_time_wait_until
       tc_handle tc_owner tc_tuple tc_state tc_send_unacknowledged tc_send_next tc_receive_next
       tc_peer_window tc_peer_mss tc_local_mss tc_send_capacity tc_receive_capacity tc_send_buffer
       tc_receive_buffer tc_outstanding tc_close_requested tc_retransmit_timeout tc_retry_limit
       tc_time_wait_until os_sequence os_acknowledgment os_flags os_options os_payload os_sent_at os_retries
       fst snd] in *.

Lemma state_in_spec s l : state_in s l = true <-> s ∈ l.
Proof.
  unfold state_in. rewrite existsb_exists. setoid_rewrite bool_decide_eq_true.
  setoid_rewrite <- list_elem_of_In. naive_solver.
Qed.

Lemma state_in_false s l : state_in s l = false <-> s ∉ l.
Proof. rewrite <- state_in_spec. by destruct (state_in s l). Qed.

(** Case analysis on membership in a list of states. *)
Ltac in_states H :=
  repeat (apply elem_of_cons in H as [H|H]); [.. | exfalso; exact (not_elem_of_nil _ H)].
Ltac no_state := exfalso; repeat match goal with H : _ ∈ _ :: _ |- _ => in_states H end; congruence.

Lemma pop_front_n_spec n q : pop_front_n n q = (take n q, drop n q).
Proof. revert q. induction n as [|n IH]; intros [|x q]; cbn; [done..|]. by rewrite IH. Qed.

(** ** Sequence numbers *)

Ltac seqlia := unfold sequence_after, sequence_before, wrapping_add32, wrapping_sub32, wrap32 in *; divlia.

Lemma wrap32_add_l a b : wrap32 (wrap32 a + b) = wrap32 (a + b).
Proof. unfold wrap32. by rewrite Zplus_mod_idemp_l. Qed.

Lemma wrapping_add32_assoc a b c : wrapping_add32 (wrapping_add32 a b) c = wrap32 (a + b + c).
Proof. unfold wrapping_add32. by rewrite wrap32_add_l. Qed.

(** Sequence space taken by a segment. *)
Definition seq_len (s : OutstandingSegment) : Z :=
  Z.of_nat (length (os_payload s)) + Z.b2z (has_flag (os_flags s) TCP_FLAG_SYN)
  + Z.b2z (has_flag (os_flags s) TCP_FLAG_FIN).

Lemma sequence_end_spec s : sequence_end s = wrap32 (os_sequence s + seq_len s).
Proof.
  unfold sequence_end, seq_len, len32. generalize (Z.of_nat (length (os_payload s))),
    (Z.b2z (has_flag (os_flags s) TCP_FLAG_SYN)), (Z.b2z (has_flag (os_flags s) TCP_FLAG_FIN)).
  intros. seqlia.
Qed.

(** ** Invariant *)

(** The one outstanding segment: it ends where the next byte will be sent, and
    acknowledgements have reached some point strictly inside it. *)
Definition os_ok (c : TcpConnection) (s : OutstandingSegment) : Prop :=
  is_u32 (os_sequence s) /\ 1 <= seq_len s <= 65537 /\ 0 <= os_retries s <= 255 /\
  tc_send_next c = wrap32 (os_sequence s + seq_len s) /\
  exists k, 0 <= k < seq_len s /\ tc_send_unacknowledged c = wrap32 (os_sequence s + k).

Definition outstanding_ok (c : TcpConnection) : Prop :=
  match tc_outstanding c with
  | [] => tc_state c = Reset \/
          tc_send_unacknowledged c = tc_send_next c /\ tc_state c <> SynSent /\ tc_state c <> SynReceived
  | [s] => os_ok c s
  | _ => False
  end.

Definition payload_len (l : list OutstandingSegment) : Z :=
  match l with s :: _ => Z.of_nat (length (os_payload s)) | [] => 0 end.

Definition tcp_inv (c : TcpConnection) : Prop :=
  is_u32 (tc_send_unacknowledged c) /\ is_u32 (tc_send_next c) /\ is_u32 (tc_receive_next c) /\
  is_u16 (tc_peer_window c) /\ 1 <= tc_peer_mss c <= 65535 /\ 1 <= tc_local_mss c <= 65535 /\
  0 <= tc_send_capacity c <= ISIZE_MAX /\ 0 <= tc_receive_capacity c <= ISIZE_MAX /\
  Z.of_nat (length (tc_receive_buffer c)) <= tc_receive_capacity c /\
  payload_len (tc_outstanding c) + Z.of_nat (length (tc_send_buffer c)) <= tc_send_capacity c /\
  outstanding_ok c /\
  (tc_state c ∈ [SynSent; SynReceived] ->
     tc_send_buffer c = [] /\ tc_send_next c = wrap32 (tc_send_unacknowledged c + 1) /\
     exists s, tc_outstanding c = [s] /\ os_payload s = [] /\ os_sequence s = tc_send_unacknowledged c) /\
  (tc_state c ∈ [FinWait1; FinWait2; LastAck; TimeWait; Closed] -> tc_send_buffer c = []).

Lemma in_flight_spec c : tcp_inv c -> in_flight c = payload_len (tc_outstanding c).
Proof.
  intros (_ & _ & _ & _ & _ & _ & Hc & _ & _ & Hp & Ho & _). unfold in_flight, outstanding_ok, saturating_add64 in *.
  destruct (tc_outstanding c) as [|s [|]]; cbn in *; [done | | done]. widths. lia.
Qed.

(** Acknowledgements: accepted exactly in the window from the oldest unacknowledged to
    the next number; the outstanding segment goes when it is covered. *)
Lemma acknowledge_spec c ack :
  tcp_inv c -> tc_state c <> Reset -> is_u32 ack ->
  if wrapping_sub32 ack (tc_send_unacknowledged c) <=?
     wrapping_sub32 (tc_send_next c) (tc_send_unacknowledged c)
  then acknowledge c ack =
       (set_outstanding (set_send_unacknowledged c ack)
          (if ack =? tc_send_next c then [] else tc_outstanding c), Ok tt)
  else acknowledge c ack = (c, Err InvalidAcknowledgment).
Proof.
  intros (Hu & Hn & _ & _ & _ & _ & _ & _ & _ & _ & Ho & _) Hs Ha. unfold acknowledge, outstanding_ok in *.
  destruct (tc_outstanding c) as [|s [|]] eqn:Hout; [| |done]; tc_simpl.
  - destruct Ho as [?|[-> _]]; [done |]. unfold sequence_after, sequence_before.
    assert (wrapping_sub32 (tc_send_next c) (tc_send_next c) = 0) as -> by seqlia.
    destruct (Z.leb_spec (wrapping_sub32 ack (tc_send_next c)) 0) as [H|H].
    + assert (ack = tc_send_next c) as -> by seqlia. rewrite Hout.
      assert (wrapping_sub32 (tc_send_next c) (tc_send_next c) = 0) as -> by seqlia.
      cbn. by rewrite Z.eqb_refl.
    + destruct (_ || _) eqn:E; [done |]. bool_cases. exfalso. seqlia.
  - destruct Ho as (Hq & Hl & _ & Hn' & k & Hk & Hu'). rewrite Hout. cbn [drop_acknowledged].
    rewrite sequence_end_spec, <- Hn'.
    assert (wrapping_sub32 (tc_send_next c) (tc_send_unacknowledged c) = seq_len s - k) as Hd.
    { rewrite Hn', Hu'. clear - Hl Hk Hq. seqlia. }
    rewrite Hd. remember (wrapping_sub32 ack (tc_send_unacknowledged c)) as d eqn:Hdef.
    assert (0 <= d < 4294967296 /\ ack = wrap32 (os_sequence s + k + d)) as [Hdr Hack].
    { subst d. rewrite Hu'. clear - Ha Hq. seqlia. }
    assert (sequence_before ack (tc_send_unacknowledged c) = (2147483648 <=? d)) as ->.
    { unfold sequence_before. by rewrite <- Hdef. }
    assert (sequence_after ack (tc_send_next c) = (2147483648 <=? wrap32 (seq_len s - k - d))) as ->.
    { unfold sequence_after, sequence_before. f_equal. rewrite Hack, Hn'. clear. seqlia. }
    assert (sequence_after (tc_send_next c) ack = (2147483648 <=? wrap32 (k + d - seq_len s))) as ->.
    { unfold sequence_after, sequence_before. f_equal. rewrite Hack, Hn'. clear. seqlia. }
    destruct (Z.leb_spec d (seq_len s - k)) as [H|H].
    + rewrite (proj2 (Z.leb_gt _ d)), (proj2 (Z.leb_gt _ (wrap32 (seq_len s - k - d)))) by seqlia. cbn [orb].
      f_equal. f_equal. destruct (Z.eqb_spec ack (tc_send_next c)) as [He|He].
      * assert (d = seq_len s - k) as -> by (rewrite Hack, Hn' in He; clear - He Hl Hk Hq H Hdr; seqlia).
        by rewrite (proj2 (Z.leb_gt _ _)) by seqlia.
      * assert (d <> seq_len s - k) by (intros ->; apply He; rewrite Hack, Hn'; f_equal; lia).
        by rewrite (proj2 (Z.leb_le _ _)) by seqlia.
    + destruct (Z.leb_spec 2147483648 d); [done |].
      by rewrite (proj2 (Z.leb_le _ (wrap32 (seq_len s - k - d)))) by seqlia.
Qed.

(** ** Preservation *)

(** Fields that the invariant does not tie to others. *)
Lemma tcp_inv_peer_window c w : is_u16 w -> tcp_inv c -> tcp_inv (set_peer_window c w).
Proof. intros Hw Hi. unfold tcp_inv, outstanding_ok, os_ok in *. tc_simpl. naive_solver. Qed.

Lemma tcp_inv_peer_mss c m : 1 <= m <= 65535 -> tcp_inv c -> tcp_inv (set_peer_mss c m).
Proof. intros Hm Hi. unfold tcp_inv, outstanding_ok, os_ok in *. tc_simpl. naive_solver. Qed.

Lemma tcp_inv_receive_next c n : is_u32 n -> tcp_inv c -> tcp_inv (set_receive_next c n).
Proof. intros Hn Hi. unfold tcp_inv, outstanding_ok, os_ok in *. tc_simpl. naive_solver. Qed.

Lemma tcp_inv_receive_buffer c b :
  Z.of_nat (length b) <= tc_receive_capacity c -> tcp_inv c -> tcp_inv (set_receive_buffer c b).
Proof. intros Hb Hi. unfold tcp_inv, outstanding_ok, os_ok in *. tc_simpl. naive_solver. Qed.

Lemma tcp_inv_time_wait c t : tcp_inv c -> tcp_inv (set_time_wait_until c t).
Proof. intros Hi. unfold tcp_inv, outstanding_ok, os_ok in *. tc_simpl. naive_solver. Qed.

Lemma tcp_inv_close_requested c b : tcp_inv c -> tcp_inv (set_close_requested c b).
Proof. intros Hi. unfold tcp_inv, outstanding_ok, os_ok in *. tc_simpl. naive_solver. Qed.

Lemma set_state_id c : set_state c (tc_state c) = c.
Proof. by destruct c. Qed.

(** The states past the handshake, and those in which everything has been sent. *)
Abbreviation synchronized := [Established; FinWait1; FinWait2; CloseWait; LastAck; TimeWait; Closed].
Abbreviation drained := [FinWait1; FinWait2; LastAck; TimeWait; Closed].

Lemma tcp_inv_set_state c s :
  tcp_inv c -> tc_state c ∈ synchronized -> s ∈ synchronized ->
  (s ∈ drained -> tc_send_buffer c = []) -> tcp_inv (set_state c s).
Proof.
  intros Hi Hc Hs Hd. unfold tcp_inv, outstanding_ok, os_ok in *. tc_simpl.
  destruct Hi as (? & ? & ? & ? & ? & ? & ? & ? & ? & ? & Ho & _ & _).
  split_and!; try (done || lia).
  - destruct (tc_outstanding c) as [|x [|]]; try done. right. destruct Ho as [Hr|(? & _)].
    { rewrite Hr in Hc. set_solver. }
    split_and!; [done | intros ->; set_solver ..].
  - intros Hss. set_solver.
Qed.

Lemma tcp_inv_reset c b :
  Z.of_nat (length b) <= tc_receive_capacity c -> tcp_inv c ->
  tcp_inv (set_state (set_receive_buffer c b) Reset).
Proof.
  intros Hb Hi. unfold tcp_inv, outstanding_ok, os_ok in *. tc_simpl.
  destruct Hi as (? & ? & ? & ? & ? & ? & ? & ? & ? & ? & Ho & _ & _). split_and!; try (done || lia).
  - destruct (tc_outstanding c) as [|x [|]]; try done. by left.
  - set_solver.
  - set_solver.
Qed.

Lemma abort_inv c : tcp_inv c -> tcp_inv (abort c).
Proof.
  intros Hi. unfold tcp_inv, outstanding_ok, os_ok in *. tc_simpl.
  destruct Hi as (? & ? & ? & ? & ? & ? & ? & ? & ? & ? & Ho & _ & _).
  split_and!; try (done || lia); cbn; try lia; [by left | set_solver..].
Qed.

Lemma acknowledge_inv c ack s :
  tcp_inv c -> tc_state c <> Reset -> is_u32 ack -> s ∈ synchronized ->
  (s ∈ drained -> tc_send_buffer c = []) ->
  (tc_state c ∈ [SynSent; SynReceived] -> ack = tc_send_next c) ->
  match acknowledge c ack with
  | (c', Ok _) => tcp_inv (set_state c' s)
  | (c', Err e) => c' = c /\ e = InvalidAcknowledgment
  | (_, Panic) => False
  end.
Proof.
  intros Hi Hr Ha Hs Hd Hsyn. pose proof (acknowledge_spec c ack Hi Hr Ha) as Hk.
  destruct (Z.leb_spec (wrapping_sub32 ack (tc_send_unacknowledged c))
    (wrapping_sub32 (tc_send_next c) (tc_send_unacknowledged c))) as [Hw|]; rewrite Hk; [|done].
  unfold tcp_inv, outstanding_ok, os_ok in *. tc_simpl.
  destruct Hi as (? & ? & ? & ? & ? & ? & ? & ? & ? & Hcap & Ho & Hopen & _).
  assert (payload_len (if ack =? tc_send_next c then [] else tc_outstanding c) <= payload_len (tc_outstanding c)).
  { destruct (ack =? _); [|lia]. unfold payload_len. destruct (tc_outstanding c); lia. }
  split_and!; try (done || lia).
  - destruct (Z.eqb_spec ack (tc_send_next c)) as [He|He].
    + right. split_and!; [done | intros ->; set_solver ..].
    + destruct (tc_outstanding c) as [|x [|]]; try done.
      * destruct Ho as [?|[Hu _]]; [done |]. exfalso. apply He. rewrite Hu in Hw. clear - Hw H0 Ha. seqlia.
      * destruct Ho as (Hq & Hl & Hrt & Hn & k & Hkk & Hu). split_and!; try (done || lia).
        exists (k + wrapping_sub32 ack (tc_send_unacknowledged c)).
        assert (wrapping_sub32 (tc_send_next c) (tc_send_unacknowledged c) = seq_len x - k) as Hd'.
        { rewrite Hn, Hu. clear - Hl Hkk Hq. seqlia. }
        rewrite Hd' in Hw. assert (wrapping_sub32 ack (tc_send_unacknowledged c) <> seq_len x - k) as Hne.
        { intros Heq. apply He. rewrite Hn. clear - Heq Hu Ha Hq Hkk. rewrite Hu in Heq. seqlia. }
        split; [pose proof (wrapping_sub32_range ack (tc_send_unacknowledged c)); widths; lia |].
        rewrite Hu. clear - Ha Hq Hkk. seqlia.
  - intros Hss. set_solver.
Qed.

Lemma wf_segment_u32 s : sg_wf s -> is_u32 (sg_acknowledgment s) /\ is_u32 (sg_sequence s) /\ is_u16 (sg_window s).
Proof. intros (? & ? & ? & ? & ? & ? & ?). done. Qed.

Lemma on_ack_inv c seg :
  tcp_inv c -> tc_state c ∈ synchronized -> sg_wf seg -> tcp_inv (fst (on_ack c seg)) /\ snd (on_ack c seg) <> Panic.
Proof.
  intros Hi Hs Hwf. destruct (wf_segment_u32 seg Hwf) as (Ha & _ & Hw). unfold on_ack.
  destruct (negb _); [done |]. destruct (_ =? tc_send_unacknowledged c).
  { split; [by apply tcp_inv_peer_window | done]. }
  assert (tc_state c <> Reset) as Hnr by (intros Hr; rewrite Hr in Hs; set_solver).
  assert (tc_state c ∈ [SynSent; SynReceived] -> sg_acknowledgment seg = tc_send_next c) as Hsyn.
  { intros Hx. no_state. }
  assert (tc_state c ∈ drained -> tc_send_buffer c = []) as Hdr by apply Hi.
  pose proof (acknowledge_inv c _ (tc_state c) Hi Hnr Ha Hs Hdr Hsyn) as H1.
  pose proof (fun s Hs Hd => acknowledge_inv c _ s Hi Hnr Ha Hs Hd Hsyn) as H2.
  assert (forall r, acknowledge c (sg_acknowledgment seg) = (fst r, snd r) ->
    tc_state (fst r) = tc_state c /\ tc_send_buffer (fst r) = tc_send_buffer c) as H3.
  { intros r Hr. unfold acknowledge in Hr. destruct (_ || _); apply pair_eq in Hr as [<- _]; done. }
  destruct (acknowledge c (sg_acknowledgment seg)) as [c' [u|e|]]; [| |done].
  - destruct (H3 (c', Ok u) eq_refl) as [Hst Hbuf]. cbn [fst] in *.
    rewrite <- Hst, set_state_id in H1.
    destruct (bool_decide (tc_state c' = FinWait1) && _) eqn:E1; bool_cases.
    { split; [|done]. apply tcp_inv_peer_window; [done |]. apply H2; [set_solver |]. intros _.
      apply Hdr. rewrite <- Hst, H. set_solver. }
    destruct (bool_decide (tc_state c' = LastAck) && _) eqn:E2; bool_cases.
    { split; [|done]. apply H2; [set_solver |]. intros _. apply Hdr. rewrite <- Hst, H. set_solver. }
    split; [|done]. by apply tcp_inv_peer_window.
  - destruct H1 as [-> _]. done.
Qed.

Lemma on_payload_inv c seg res :
  tcp_inv c -> tcp_inv (fst (on_payload c seg res)) /\ snd (on_payload c seg res) <> Panic /\
  tc_state (fst (on_payload c seg res)) = tc_state c.
Proof.
  intros Hi. unfold on_payload. destruct (bool_decide _); [done |].
  destruct (_ =? _); [|by destruct (sequence_before _ _)].
  destruct (Z.ltb_spec (tc_receive_capacity c) (saturating_add64 (Z.of_nat (length (tc_receive_buffer c)))
    (Z.of_nat (length (sg_payload seg))))) as [|Hcap]; [done |].
  cbn [fst snd]. split_and!; [|done | reflexivity].
  apply tcp_inv_receive_next; [apply wrapping_add32_range |]. apply tcp_inv_receive_buffer; [|done].
  destruct Hi as (_ & _ & _ & _ & _ & _ & _ & Hc & _). rewrite length_app.
  revert Hcap Hc. unfold saturating_add64. clear. widths. lia.
Qed.

Lemma on_fin_inv c seg now res :
  tcp_inv c -> tc_state c ∈ synchronized ->
  tcp_inv (fst (on_fin c seg now res)) /\ snd (on_fin c seg now res) <> Panic.
Proof.
  intros Hi Hs. unfold on_fin. destruct (negb _); [done |]. destruct (negb _); [done |]. cbn [fst snd].
  split; [|done].
  assert (tcp_inv (set_receive_next c (wrapping_add32 (tc_receive_next c) 1))) as Hi'
    by (apply tcp_inv_receive_next; auto with rust).
  destruct (state_in _ _) eqn:E1.
  - apply state_in_spec in E1. tc_simpl. apply tcp_inv_time_wait, tcp_inv_set_state; [done | done | set_solver |].
    intros _. apply Hi. tc_simpl. in_states E1; rewrite E1; set_solver.
  - case_bool_decide as E2; [|done]. apply tcp_inv_set_state; [done | done | set_solver |].
    intros Hx. no_state.
Qed.

Lemma acknowledge_fields c ack :
  let c' := fst (acknowledge c ack) in
  tc_state c' = tc_state c /\ tc_send_buffer c' = tc_send_buffer c /\ tc_receive_next c' = tc_receive_next c /\
  tc_receive_buffer c' = tc_receive_buffer c /\ tc_send_next c' = tc_send_next c.
Proof. unfold acknowledge. by destruct (_ || _). Qed.

Lemma on_ack_state c seg :
  tc_state (fst (on_ack c seg)) = tc_state c \/
  (tc_state (fst (on_ack c seg)) = FinWait2 \/ tc_state (fst (on_ack c seg)) = Closed).
Proof.
  unfold on_ack. destruct (negb _); [by left |]. destruct (_ =? _); [by left |].
  pose proof (acknowledge_fields c (sg_acknowledgment seg)) as (H & _).
  destruct (acknowledge _ _) as [c1 [u|e|]]; cbn [fst] in H; [|by left..].
  destruct (_ && _); [by right; left |]. destruct (_ && _); [by right; right |]. by left.
Qed.

Lemma on_segment_synchronized_inv c seg now :
  tcp_inv c -> sg_wf seg ->
  tcp_inv (fst (on_segment_synchronized c seg now)) /\ snd (on_segment_synchronized c seg now) <> Panic.
Proof.
  intros Hi Hwf. unfold on_segment_synchronized.
  destruct (negb (state_in _ _)) eqn:Hst; [done |]. apply negb_false_iff, state_in_spec in Hst.
  destruct (has_flag _ TCP_FLAG_SYN); [by case_match |].
  destruct (negb _); [done |]. destruct (_ && _); [done |].
  assert (tc_state c ∈ synchronized) as Hsy by (in_states Hst; rewrite Hst; set_solver).
  destruct (on_ack_inv c seg Hi Hsy Hwf) as [H1 H2].
  pose proof (on_ack_state c seg) as Hos.
  destruct (on_ack c seg) as [c1 [[early|res]|e|]]; cbn [fst snd] in *; [done | | done | done].
  destruct (on_payload_inv c1 seg res H1) as (H3 & H4 & H5).
  destruct (on_payload c1 seg res) as [c2 [res2|e|]]; cbn [fst snd] in *; [|done|done].
  apply on_fin_inv; [done |]. rewrite H5. destruct Hos as [->|[->| ->]]; [done | set_solver..].
Qed.

Lemma on_segment_open_inv c seg now :
  tcp_inv c -> sg_wf seg -> tc_state c <> SynReceived ->
  tcp_inv (fst (on_segment_open c seg now)) /\ snd (on_segment_open c seg now) <> Panic.
Proof.
  intros Hi Hwf Hnr. destruct (wf_segment_u32 seg Hwf) as (Ha & Hq & Hw). unfold on_segment_open.
  destruct (has_flag _ TCP_FLAG_RST).
  { destruct (_ || _); [done |]. split; [by apply abort_inv | done]. }
  case_bool_decide as Hss; [|by apply on_segment_synchronized_inv].
  destruct (_ || _) eqn:Hck; [done |]. apply orb_false_iff in Hck as [_ Hack]. bool_cases.
  pose proof (acknowledge_inv c (sg_acknowledgment seg) Established Hi ltac:(congruence) Ha
    ltac:(set_solver) ltac:(intros ?; no_state) ltac:(done)) as Hk.
  destruct (acknowledge c (sg_acknowledgment seg)) as [c1 [u|e|]]; [| by destruct Hk as [-> _] | done].
  cbn [fst snd]. split; [|done].
  apply (tcp_inv_receive_next _ (wrapping_add32 (sg_sequence seg) 1)) in Hk; [|auto with rust].
  apply (tcp_inv_peer_window _ (sg_window seg)) in Hk; [|done].
  destruct Hwf as (_ & _ & _ & _ & _ & _ & _ & Hm & _).
  destruct (maximum_segment_size (sg_options seg)) as [mss|]; [|exact Hk].
  cbn in Hm. apply (tcp_inv_peer_mss _ (Z.max mss 1)) in Hk; [exact Hk | widths; lia].
Qed.

Lemma trim_segment_wf n seg : sg_wf seg -> sg_wf (trim_segment n seg).
Proof.
  intros (? & ? & ? & ? & ? & ? & ? & ? & ?). unfold trim_segment. destruct (sequence_before _ _); [|done].
  unfold sg_wf. cbn - [drop]. split_and!; try done; [apply wrapping_add32_range .. |]. by apply Forall_drop.
Qed.

Lemma receive_passive_inv c seg now :
  tcp_inv c -> sg_wf seg -> tc_state c = SynReceived ->
  tcp_inv (fst (receive_passive c seg now)) /\ snd (receive_passive c seg now) <> Panic.
Proof.
  intros Hi Hwf Hs. destruct (wf_segment_u32 seg Hwf) as (Ha & Hq & Hw). unfold receive_passive.
  assert (validate_segment (tc_tuple c) seg <> Panic) as Hv by (unfold validate_segment; by destruct (_ || _)).
  destruct (validate_segment (tc_tuple c) seg) as [u|e|] eqn:Hval; [|done|done].
  destruct (has_flag _ TCP_FLAG_RST).
  { destruct (negb _); [done |]. split; [by apply abort_inv | done]. }
  destruct (has_flag _ TCP_FLAG_SYN).
  { split; [done |]. unfold validate_syn. rewrite Hval. cbn [snd]. destruct (negb _); [done |].
    by destruct (_ =? _). }
  destruct (negb (acceptable_sequence _ _ _)); [done |].
  destruct (_ || _) eqn:Hck; [done |]. apply orb_false_iff in Hck as [_ Hack]. bool_cases.
  pose proof (acknowledge_inv c (sg_acknowledgment seg) Established Hi ltac:(congruence) Ha
    ltac:(set_solver) ltac:(intros ?; no_state) ltac:(done)) as Hk.
  destruct (acknowledge c (sg_acknowledgment seg)) as [c1 [u'|e|]]; [| by destruct Hk as [-> _] | done].
  apply (tcp_inv_peer_window _ (sg_window seg)) in Hk; [|done]. revert Hk.
  set (c2 := set_peer_window (set_state c1 Established) (sg_window seg)). intros Hk.
  destruct (on_segment_open_inv c2 (trim_segment (tc_receive_next c2) seg) now Hk) as [H1 H2];
    [by apply trim_segment_wf | done |].
  destruct (on_segment_open _ _ _) as [c3 [res|e|]]; cbn [fst snd] in *; done.
Qed.

Lemma on_segment_inv c seg now :
  tcp_inv c -> sg_wf seg -> tcp_inv (fst (on_segment c seg now)) /\ snd (on_segment c seg now) <> Panic.
Proof.
  intros Hi Hwf. unfold on_segment. case_bool_decide.
  - by apply receive_passive_inv.
  - by apply on_segment_open_inv.
Qed.

Lemma poll_outstanding_inv c s now :
  tcp_inv c -> tc_outstanding c = [s] -> tcp_inv (fst (poll_outstanding c s [] now)).
Proof.
  intros Hi Ho.
  assert (forall s', os_sequence s' = os_sequence s -> os_payload s' = os_payload s ->
    os_flags s' = os_flags s -> 0 <= os_retries s' <= 255 -> tcp_inv (set_outstanding c [s'])) as Hset.
  { intros s' H1 H2 H3 H4. unfold tcp_inv, outstanding_ok, os_ok, payload_len, seq_len in *. rewrite Ho in Hi.
    tc_simpl. rewrite H1, H2, H3.
    destruct Hi as (? & ? & ? & ? & ? & ? & ? & ? & ? & ? & Hos & Hop & ?). split_and!; try (done || lia || apply Hos).
    intros (Hb & Hn & x & [= <-] & Hx & Hy)%Hop. split_and!; [done | done |]. exists s'. by rewrite H1, H2. }
  unfold poll_outstanding. destruct (os_sent_at s).
  - destruct (_ <? _); [done |]. destruct (_ <=? _); cbn [fst].
    + case_bool_decide as Hsr.
      * apply (tcp_inv_reset c []); [|done]. cbn. apply Hi.
      * assert (set_state c Reset = set_state (set_receive_buffer c (tc_receive_buffer c)) Reset) as -> by done.
        apply tcp_inv_reset; [apply Hi | done].
    + apply Hset; try done. unfold saturating_add8. cbn. destruct Hi as (_ & _ & _ & _ & _ & _ & _ & _ & _ & _ & Hos & _).
      unfold outstanding_ok in Hos. rewrite Ho in Hos. destruct Hos as (_ & _ & Hr & _). lia.
  - cbn [fst]. apply Hset; try done. cbn. destruct Hi as (_ & _ & _ & _ & _ & _ & _ & _ & _ & _ & Hos & _).
    unfold outstanding_ok in Hos. rewrite Ho in Hos. destruct Hos as (_ & _ & Hr & _). lia.
Qed.

Lemma poll_new_inv c s state n rest :
  tcp_inv c -> tc_outstanding c = [] -> tc_state c ∈ [Established; CloseWait] ->
  os_sequence s = tc_send_next c -> 1 <= seq_len s <= 65537 -> os_retries s = 0 ->
  n = wrap32 (tc_send_next c + seq_len s) ->
  Z.of_nat (length (os_payload s)) + Z.of_nat (length rest) <= tc_send_capacity c ->
  state ∈ synchronized -> (state ∈ drained -> rest = []) ->
  tcp_inv (set_outstanding (set_state (set_send_next (set_send_buffer c rest) n) state) [s]).
Proof.
  intros Hi Ho Hs Hq Hl Hr Hn Hcap Hst Hd. unfold tcp_inv, outstanding_ok, os_ok, payload_len in *.
  rewrite Ho in Hi. tc_simpl. destruct Hi as (? & Hnx & ? & ? & ? & ? & ? & ? & ? & ? & Hos & ? & ?).
  destruct Hos as [Hre|(Hun & _)]; [rewrite Hre in Hs; no_state |].
  subst n. rewrite Hq, Hr. split_and!; try (done || lia); try apply wrap32_range.
  - exists 0. split; [lia |]. rewrite Z.add_0_r, wrap32_small by done. done.
  - intros Hx. no_state.
Qed.

Lemma poll_transmit_inv c now : tcp_inv c -> tcp_inv (fst (poll_transmit c now)).
Proof.
  intros Hi. unfold poll_transmit. destruct (tc_outstanding c) as [|s others] eqn:Ho.
  - pose proof Hi as (_ & _ & _ & Hpw & Hpm & Hlm & Hsc & _ & _ & Hcap & _). rewrite Ho in Hcap. cbn in Hcap.
    destruct (_ && negb _) eqn:E1.
    + apply andb_true_iff in E1 as [Est%state_in_spec Ebuf]. bool_cases. unfold poll_data.
      destruct (Z.eqb_spec (tc_peer_window c) 0); [done |].
      destruct (Z.eqb_spec (Z.min (Z.min (tc_local_mss c) (tc_peer_mss c)) (tc_peer_window c)) 0); [done |].
      rewrite pop_front_n_spec. cbn [fst].
      assert (forall c', set_state c' (tc_state c') = c') as Hid by apply set_state_id.
      set (m := Nat.min _ _).
      assert (1 <= Z.of_nat m <= 65535) as Hn.
      { subst m. destruct (tc_send_buffer c); [done |]. cbn [length]. widths. lia. }
      assert (m <= length (tc_send_buffer c))%nat as Hnl by (subst m; lia). clearbody m.
      match goal with |- tcp_inv (set_outstanding ?c1 _) =>
        rewrite <- (Hid c1) end. tc_simpl. rewrite Ho. cbn [app]. apply poll_new_inv; try done; unfold seq_len; cbn.
      * change (Z.b2z (has_flag (Z.lor TCP_FLAG_ACK TCP_FLAG_PSH) TCP_FLAG_SYN)) with 0.
        change (Z.b2z (has_flag (Z.lor TCP_FLAG_ACK TCP_FLAG_PSH) TCP_FLAG_FIN)) with 0. rewrite length_take. lia.
      * by rewrite sequence_end_spec.
      * rewrite length_take, length_drop. lia.
      * in_states Est; rewrite Est; set_solver.
      * intros Hx. no_state.
    + match goal with |- context [if ?b then poll_fin _ _ else _] => destruct b eqn:E2 end; [|done].
      apply andb_true_iff in E2 as [E2 Est%state_in_spec]. bool_cases. unfold poll_fin. cbn [fst].
      tc_simpl. rewrite Ho. cbn [app].
      assert (set_send_next c (wrapping_add32 (tc_send_next c) 1) =
        set_send_next (set_send_buffer c []) (wrapping_add32 (tc_send_next c) 1)) as ->.
      { destruct c. cbn in *. by subst. }
      apply poll_new_inv; try done; cbn; try lia.
      destruct (bool_decide (tc_state c = CloseWait)); set_solver.
  - destruct others as [|? ?].
    + by apply poll_outstanding_inv.
    + destruct Hi as (_ & _ & _ & _ & _ & _ & _ & _ & _ & _ & Hos & _). unfold outstanding_ok in Hos.
      by rewrite Ho in Hos.
Qed.

Lemma queue_send_inv c b : tcp_inv c -> tcp_inv (fst (queue_send c b)).
Proof.
  intros Hi. unfold queue_send. destruct (negb (state_in _ _)) eqn:Hst; [done |].
  apply negb_false_iff, state_in_spec in Hst. rewrite in_flight_spec by done.
  destruct (Z.ltb_spec (tc_send_capacity c) (saturating_add64 (saturating_add64 (payload_len (tc_outstanding c))
    (Z.of_nat (length (tc_send_buffer c)))) (Z.of_nat (length b)))) as [|Hcap]; [done |]. cbn [fst].
  unfold tcp_inv, outstanding_ok, os_ok in *. tc_simpl.
  destruct Hi as (? & ? & ? & ? & ? & ? & Hsc & ? & ? & Hp & ? & ? & ?). split_and!; try (done || lia).
  - rewrite length_app. revert Hcap Hsc Hp. unfold saturating_add64. clear. widths. lia.
  - intros Hx. no_state.
  - intros Hx. no_state.
Qed.

Lemma request_close_inv c : tcp_inv c -> tcp_inv (fst (request_close c)).
Proof. intros Hi. unfold request_close. destruct (negb _); [done |]. by apply tcp_inv_close_requested. Qed.

Lemma receive_inv c out : tcp_inv c -> tcp_inv (fst (receive c out)).
Proof.
  intros Hi. unfold receive. case_bool_decide; [done |]. rewrite pop_front_n_spec. cbn [fst].
  apply tcp_inv_receive_buffer; [|done]. rewrite length_drop.
  destruct Hi as (_ & _ & _ & _ & _ & _ & _ & _ & H1 & _). lia.
Qed.

Lemma discard_inv c : tcp_inv c -> tcp_inv (discard_received c).
Proof.
  intros Hi. apply tcp_inv_receive_buffer; [|done]. destruct Hi as (_ & _ & _ & _ & _ & _ & _ & H1 & _). cbn. lia.
Qed.

Lemma tcp_tick_inv c now : tcp_inv c -> tcp_inv (fst (tick c now)).
Proof.
  intros Hi. unfold tick. destruct (_ && _) eqn:E; [|done]. apply andb_true_iff in E as [E _]. bool_cases.
  cbn [fst]. apply tcp_inv_set_state; [done | rewrite E; set_solver | set_solver |].
  intros _. apply Hi. rewrite E. set_solver.
Qed.

(** Operations on one connection. *)
Inductive tcp_op : Type :=
  | OQueue (b : list Z) | OClose | OPoll (now : Z) | OSegment (seg : TcpSegment) (now : Z)
  | OReceive (out : list Z) | OTick (now : Z) | OAbort | ODiscard.

Definition tcp_step (c : TcpConnection) (o : tcp_op) : TcpConnection :=
  match o with
  | OQueue b => fst (queue_send c b)
  | OClose => fst (request_close c)
  | OPoll now => fst (poll_transmit c now)
  | OSegment seg now => fst (on_segment c seg now)
  | OReceive out => fst (receive c out)
  | OTick now => fst (tick c now)
  | OAbort => abort c
  | ODiscard => discard_received c
  end.

Definition tcp_op_ok (o : tcp_op) : Prop := match o with OSegment seg _ => sg_wf seg | _ => True end.

Lemma tcp_step_inv c o : tcp_inv c -> tcp_op_ok o -> tcp_inv (tcp_step c o).
Proof.
  intros Hi Ho. destruct o; cbn [tcp_step].
  - by apply queue_send_inv.
  - by apply request_close_inv.
  - by apply poll_transmit_inv.
  - by apply on_segment_inv.
  - by apply receive_inv.
  - by apply tcp_tick_inv.
  - by apply abort_inv.
  - by apply discard_inv.
Qed.

(** ** New connections *)

(** What a new connection of either kind looks like, with initial sequence [iss]: nothing to send
    but the SYN. *)
Definition fresh (iss : Z) (c : TcpConnection) : Prop :=
  tc_state c ∈ [SynSent; SynReceived] /\ tc_send_unacknowledged c = iss /\
  tc_send_next c = wrap32 (iss + 1) /\ tc_send_buffer c = [] /\
  (exists s, tc_outstanding c = [s] /\ os_sequence s = iss /\ os_payload s = [] /\
     has_flag (os_flags s) TCP_FLAG_SYN = true /\ has_flag (os_flags s) TCP_FLAG_FIN = false /\ os_retries s = 0) /\
  Z.of_nat (length (tc_receive_buffer c)) <= tc_receive_capacity c /\
  (tc_state c = SynSent -> tc_receive_buffer c = []).

(** The arguments of [try_connect] at their widths; reservations beyond [isize::MAX] fail. *)
Definition reserve_ok (reserve : Z -> bool) : Prop := forall n, reserve n = true -> n <= ISIZE_MAX.

Lemma fresh_inv iss c :
  fresh iss c -> is_u32 iss -> is_u32 (tc_receive_next c) -> is_u16 (tc_peer_window c) ->
  1 <= tc_peer_mss c <= 65535 -> 1 <= tc_local_mss c <= 65535 ->
  0 <= tc_send_capacity c <= ISIZE_MAX -> 0 <= tc_receive_capacity c <= ISIZE_MAX -> tcp_inv c.
Proof.
  intros (Hst & Hu & Hn & Hb & (s & Ho & Hs & Hp & Hsyn & Hfin & Hr) & Hrb & _) Hi Hrn Hpw Hpm Hlm Hsc Hrc.
  assert (seq_len s = 1) as Hlen by (unfold seq_len; rewrite Hp, Hsyn, Hfin; done).
  unfold tcp_inv, outstanding_ok, os_ok. rewrite Ho, Hu, Hn, Hb, Hlen, Hs, Hr. cbn [payload_len length]. rewrite Hp.
  split_and!; try (done || lia); try apply wrap32_range.
  - cbn. lia.
  - exists 0. rewrite Z.add_0_r, wrap32_small by done. split; [lia | done].
  - intros _. split_and!; [done | done |]. by exists s.
Qed.

Lemma try_connect_fresh reserve h o t iss mss sc rc rto rl c :
  reserve_ok reserve -> is_u32 iss -> is_u16 mss -> 0 <= sc -> 0 <= rc ->
  try_connect reserve h o t iss mss sc rc rto rl = Ok c -> fresh iss c /\ tcp_inv c /\ tc_state c = SynSent.
Proof.
  intros Hres Hi Hm Hsc Hrc. unfold try_connect. destruct (_ || _) eqn:Hg; [done |]. bool_cases.
  destruct (reserve sc) eqn:Er1; [|done]. destruct (reserve rc) eqn:Er2; [|done].
  destruct (reserve 1); [|done]. cbn [negb]. intros [= <-].
  match goal with |- fresh _ ?c /\ _ => assert (fresh iss c) as Hf end.
  { unfold fresh. tc_simpl. split_and!; try done; [set_solver | by eexists]. }
  split; [done |]. split; [|done]. eapply fresh_inv; try done; tc_simpl.
  - widths. lia.
  - widths. lia.
  - split; [done | by apply Hres].
  - split; [done | by apply Hres].
Qed.

Definition config_ok (cfg : TcpListenConfig) : Prop :=
  is_u16 (lc_local_mss cfg) /\ 0 <= lc_send_capacity cfg /\ 0 <= lc_receive_capacity cfg.

Lemma accept_syn_fresh reserve h o t iss cfg seg c :
  reserve_ok reserve -> is_u32 iss -> config_ok cfg -> sg_wf seg ->
  accept_syn reserve h o t iss cfg seg = Ok c ->
  fresh iss c /\ tcp_inv c /\ tc_state c = SynReceived /\ tc_handle c = h /\ tc_tuple c = t /\ tc_owner c = o /\
  tc_receive_buffer c = sg_payload seg /\
  tc_receive_next c = wrap32 (sg_sequence seg + 1 + Z.of_nat (length (sg_payload seg))) /\
  has_flag (sg_flags seg) TCP_FLAG_SYN = true.
Proof.
  intros Hres Hi (Hm & Hsc & Hrc) Hwf. unfold accept_syn.
  destruct (validate_syn t seg) as [u| |] eqn:Hv; [|done..].
  destruct (_ || _) eqn:Hg; [done |]. bool_cases.
  destruct (Z.ltb_spec (lc_receive_capacity cfg) (Z.of_nat (length (sg_payload seg)))); [done |].
  destruct (reserve (lc_send_capacity cfg)) eqn:Er1; [|done].
  destruct (reserve (lc_receive_capacity cfg)) eqn:Er2; [|done].
  destruct (reserve 1); [|done]. cbn [negb]. intros [= <-].
  match goal with |- fresh _ ?c /\ _ => assert (fresh iss c) as Hf end.
  { unfold fresh. tc_simpl. split_and!; try done; [set_solver | by eexists]. }
  assert (is_syn (sg_flags seg) = true) as Hsyn.
  { unfold validate_syn in Hv. destruct (validate_segment t seg); [|done..]. by destruct (is_syn _). }
  split_and!; try done.
  - destruct (wf_segment_u32 seg Hwf) as (_ & _ & Hw). destruct Hwf as (_ & _ & _ & _ & _ & _ & _ & Hmss & _).
    eapply fresh_inv; try done; tc_simpl.
    + apply wrapping_add32_range.
    + destruct (maximum_segment_size (sg_options seg)); cbn in *; widths; lia.
    + widths. lia.
    + split; [done | by apply Hres].
    + split; [done | by apply Hres].
  - tc_simpl. unfold len32. clear. seqlia.
  - unfold is_syn in Hsyn. bool_cases. unfold has_flag.
    destruct (Z.eqb_spec (Z.land (sg_flags seg) TCP_FLAG_SYN) 0) as [Hz|]; [|done]. exfalso.
    apply (f_equal (fun z => Z.land z TCP_FLAG_SYN)) in Hsyn.
    rewrite <- Z.land_assoc in Hsyn. change (Z.land (not16 TCP_FLAG_PSH) TCP_FLAG_SYN) with TCP_FLAG_SYN in Hsyn.
    by rewrite Hz in Hsyn.
Qed.

Lemma tcp_run_inv ops : forall c, tcp_inv c -> Forall tcp_op_ok ops -> tcp_inv (foldl tcp_step c ops).
Proof.
  induction ops as [|o ops IH]; intros c Hi Hok; [done |]. apply Forall_cons in Hok as [Ho Hok].
  cbn. apply IH; [|done]. by apply tcp_step_inv.
Qed.

(** ** The state machine *)

(** The transitions of RFC 793 that the code implements; every state can be reset. *)
Inductive tcp_edge : TcpState -> TcpState -> Prop :=
  | E_active_open : tcp_edge SynSent Established
  | E_passive_open : tcp_edge SynReceived Established
  | E_close : tcp_edge Established FinWait1
  | E_fin_acked : tcp_edge FinWait1 FinWait2
  | E_fin_both : tcp_edge FinWait1 TimeWait
  | E_fin_received : tcp_edge FinWait2 TimeWait
  | E_peer_close : tcp_edge Established CloseWait
  | E_close_after_peer : tcp_edge CloseWait LastAck
  | E_last_acked : tcp_edge LastAck Closed
  | E_time_wait_over : tcp_edge TimeWait Closed
  | E_reset s : tcp_edge s Reset.

#[local] Hint Constructors tcp_edge : core.

Lemma on_ack_edge c seg : rtc tcp_edge (tc_state c) (tc_state (fst (on_ack c seg))).
Proof.
  unfold on_ack. destruct (negb _); [done |]. destruct (_ =? _); [done |].
  pose proof (acknowledge_fields c (sg_acknowledgment seg)) as (H & _).
  destruct (acknowledge _ _) as [c1 [u|e|]]; cbn [fst] in H; [|by rewrite <- H..].
  destruct (_ && _) eqn:E1.
  { bool_cases. tc_simpl. rewrite <- H, H0. by apply rtc_once. }
  destruct (bool_decide (tc_state c1 = LastAck) && _) eqn:E2.
  { bool_cases. tc_simpl. rewrite <- H, H0. by apply rtc_once. }
  tc_simpl. by rewrite H.
Qed.

Lemma on_fin_edge c seg now res : rtc tcp_edge (tc_state c) (tc_state (fst (on_fin c seg now res))).
Proof.
  unfold on_fin. destruct (negb _); [done |]. destruct (negb _); [done |].
  destruct (state_in _ _) eqn:E; tc_simpl.
  { apply state_in_spec in E. in_states E; rewrite E; by apply rtc_once. }
  case_bool_decide as H; tc_simpl; [rewrite H; by apply rtc_once | done].
Qed.

Lemma on_segment_synchronized_edge c seg now :
  rtc tcp_edge (tc_state c) (tc_state (fst (on_segment_synchronized c seg now))).
Proof.
  unfold on_segment_synchronized.
  destruct (negb _); [done |]. destruct (has_flag _ TCP_FLAG_SYN); [by destruct (is_duplicate_syn_ack _ _) |].
  destruct (negb _); [done |]. destruct (_ && _); [done |].
  pose proof (on_ack_edge c seg) as H1.
  destruct (on_ack c seg) as [c1 [[early|res]|e|]]; try done. cbn [fst] in H1.
  assert (tc_state (fst (on_payload c1 seg res)) = tc_state c1) as H2.
  { unfold on_payload. destruct (bool_decide _); [done |]. destruct (_ =? _); [by destruct (_ <? _) |].
    by destruct (sequence_before _ _). }
  destruct (on_payload c1 seg res) as [c2 [res2|e|]]; cbn [fst] in *; [|by rewrite H2..].
  etrans; [exact H1 |]. rewrite <- H2. apply on_fin_edge.
Qed.

Lemma on_segment_open_edge c seg now :
  rtc tcp_edge (tc_state c) (tc_state (fst (on_segment_open c seg now))).
Proof.
  unfold on_segment_open. destruct (has_flag _ TCP_FLAG_RST).
  { destruct (_ || _); [done |]. tc_simpl. by apply rtc_once. }
  case_bool_decide as Hs; [|by apply on_segment_synchronized_edge].
  destruct (_ || _); [done |].
  pose proof (acknowledge_fields c (sg_acknowledgment seg)) as (H & _).
  destruct (acknowledge _ _) as [c1 [u|e|]]; cbn [fst] in *; [|by rewrite H..].
  tc_simpl. rewrite Hs. by apply rtc_once.
Qed.

Lemma on_segment_edge c seg now : rtc tcp_edge (tc_state c) (tc_state (fst (on_segment c seg now))).
Proof.
  unfold on_segment. case_bool_decide as Hs; [|by apply on_segment_open_edge]. unfold receive_passive.
  destruct (validate_segment _ _); [|done..]. destruct (has_flag _ TCP_FLAG_RST).
  { destruct (negb _); [done |]. tc_simpl. by apply rtc_once. }
  destruct (has_flag _ TCP_FLAG_SYN); [done |]. destruct (negb _); [done |]. destruct (_ || _); [done |].
  pose proof (acknowledge_fields c (sg_acknowledgment seg)) as (H & _).
  destruct (acknowledge _ _) as [c1 [u|e|]]; cbn [fst] in *; [|by rewrite H..].
  pose proof (on_segment_open_edge (set_peer_window (set_state c1 Established) (sg_window seg))
    (trim_segment (tc_receive_next (set_peer_window (set_state c1 Established) (sg_window seg))) seg) now) as H2.
  destruct (on_segment_open _ _ _) as [c3 r]. cbn [fst] in *. tc_simpl.
  rewrite Hs. eapply rtc_l; [|exact H2]. done.
Qed.

Lemma poll_transmit_edge c now : rtc tcp_edge (tc_state c) (tc_state (fst (poll_transmit c now))).
Proof.
  unfold poll_transmit. destruct (tc_outstanding c) as [|s others].
  - destruct (_ && negb _).
    { unfold poll_data. destruct (_ =? 0); [done |]. destruct (_ =? 0); [done |].
      rewrite pop_front_n_spec. done. }
    match goal with |- context [if ?b then poll_fin _ _ else _] => destruct b eqn:E2 end; [|done].
    apply andb_true_iff in E2 as [_ E2%state_in_spec]. unfold poll_fin. tc_simpl.
    in_states E2; rewrite E2; apply rtc_once; constructor.
  - unfold poll_outstanding. destruct (os_sent_at s); [|done]. destruct (_ <? _); [done |].
    destruct (_ <=? _); [|done]. tc_simpl. by apply rtc_once.
Qed.

Lemma tcp_step_edge c o : rtc tcp_edge (tc_state c) (tc_state (tcp_step c o)).
Proof.
  destruct o as [b| |now|seg now|out|now| |]; cbn [tcp_step].
  - unfold queue_send. destruct (negb _); [done |]. by destruct (_ <? _).
  - unfold request_close. by destruct (negb _).
  - apply poll_transmit_edge.
  - apply on_segment_edge.
  - unfold receive. case_bool_decide; [done |]. by rewrite pop_front_n_spec.
  - unfold tick. destruct (_ && _) eqn:E; [|done]. bool_cases. tc_simpl. rewrite H. by apply rtc_once.
  - tc_simpl. by apply rtc_once.
  - done.
Qed.

Lemma tcp_run_edge ops : forall c, rtc tcp_edge (tc_state c) (tc_state (foldl tcp_step c ops)).
Proof.
  induction ops as [|o ops IH]; intros c; [done |]. cbn. etrans; [apply tcp_step_edge | apply IH].
Qed.

(** ** Retransmission *)

Fixpoint poll_run (c : TcpConnection) (ts : list Z)
    : TcpConnection * list (result TcpConnectionError (option TcpTransmit)) :=
  match ts with
  | [] => (c, [])
  | t :: ts => let '(c, r) := poll_transmit c t in let '(c, rs) := poll_run c ts in (c, r :: rs)
  end.

(** Polling times, the first not before [t0 + gap], then at least [gap] apart. *)
Fixpoint apart (gap t0 : Z) (ts : list Z) : Prop :=
  match ts with [] => True | t :: ts => t0 + gap <= t /\ apart gap t ts end.

(** The longest delay between two transmissions of a segment. *)
Definition longest_delay (c : TcpConnection) : Z := saturating_mul64 (tc_retransmit_timeout c) 1048576.

Lemma retransmit_delay_le c r :
  0 <= tc_retransmit_timeout c -> 0 <= r -> 0 <= retransmit_delay c r <= longest_delay c.
Proof.
  intros Ht Hr. unfold retransmit_delay, longest_delay, saturating_mul64. rewrite Z.shiftl_mul_pow2 by lia.
  assert (0 < 2 ^ Z.min r 20 <= 2 ^ 20) as H by (split; [apply Z.pow_pos_nonneg; lia | apply Z.pow_le_mono_r; lia]).
  change (2 ^ 20) with 1048576 in H. widths. nia.
Qed.

Lemma poll_due c s t0 t :
  tc_outstanding c = [s] -> os_sent_at s = Some t0 -> retransmit_delay c (os_retries s) <= t - t0 ->
  poll_transmit c t =
  if tc_retry_limit c <=? os_retries s then
    (set_state (if bool_decide (tc_state c = SynReceived) then set_receive_buffer c [] else c) Reset, Err RetryLimit)
  else
    (set_outstanding c [{| os_sequence := os_sequence s; os_acknowledgment := os_acknowledgment s;
       os_flags := os_flags s; os_options := os_options s; os_payload := os_payload s;
       os_sent_at := Some t; os_retries := saturating_add8 (os_retries s) 1 |}],
     Ok (Some (transmit_from s (local_window c) true))).
Proof.
  intros Ho Hs Hd. unfold poll_transmit. rewrite Ho. unfold poll_outstanding. rewrite Hs.
  rewrite (proj2 (Z.ltb_ge _ _)) by (unfold saturating_sub; lia). by destruct (_ <=? _).
Qed.

Lemma poll_run_gives_up n : forall c s t0 ts,
  0 <= tc_retransmit_timeout c -> tc_outstanding c = [s] -> os_sent_at s = Some t0 ->
  0 <= os_retries s -> tc_retry_limit c <= 255 -> os_retries s + Z.of_nat n = tc_retry_limit c ->
  length ts = S n -> apart (longest_delay c) t0 ts ->
  let '(c', rs) := poll_run c ts in
  rs = replicate n (Ok (Some (transmit_from s (local_window c) true))) ++ [Err RetryLimit] /\ tc_state c' = Reset.
Proof.
  induction n as [|n IH]; intros c s t0 ts Ht Ho Hs Hr0 Hlim Hr Hl Hap;
    (destruct ts as [|t ts]; [done |]); destruct Hap as [Hap1 Hap2];
    pose proof (retransmit_delay_le c (os_retries s) Ht Hr0) as Hd;
    cbn [poll_run]; rewrite (poll_due c s t0 t) by (done || lia).
  - destruct ts; [|done]. rewrite (proj2 (Z.leb_le _ _)) by lia. done.
  - rewrite (proj2 (Z.leb_gt _ _)) by lia. match goal with |- context [set_outstanding c [?s']] => set (s1 := s') end.
    specialize (IH (set_outstanding c [s1]) s1 t ts). cbn [length] in Hl.
    destruct (poll_run (set_outstanding c [s1]) ts) as [c' rs].
    destruct IH as [-> Hst]; subst s1; tc_simpl; try done; unfold saturating_add8; try lia.
Qed.

(** ** Claims *)

(** A connection as the code creates it, actively or from a received SYN, with
    arguments of the declared widths. *)
Definition new_connection (iss : Z) (c : TcpConnection) : Prop :=
  is_u32 iss /\
  ((exists reserve h o t mss sc rc rto rl, reserve_ok reserve /\ is_u16 mss /\ 0 <= sc /\ 0 <= rc /\
      try_connect reserve h o t iss mss sc rc rto rl = Ok c) \/
   (exists reserve h o t cfg seg, reserve_ok reserve /\ config_ok cfg /\ sg_wf seg /\
      accept_syn reserve h o t iss cfg seg = Ok c)).

Lemma new_connection_inv iss c : new_connection iss c -> fresh iss c /\ tcp_inv c.
Proof.
  intros [Hi [(rs & h & o & t & mss & sc & rc & rto & rl & H1 & H2 & H3 & H4 & H5)
             |(rs & h & o & t & cfg & seg & H1 & H2 & H3 & H4)]].
  - by destruct (try_connect_fresh rs h o t iss mss sc rc rto rl c) as (? & ? & _).
  - by destruct (accept_syn_fresh rs h o t iss cfg seg c) as (? & ? & _).
Qed.

(** C13: After any operations on a new connection, with any well-formed segments from the
    network: at most one segment is outstanding and it spans exactly the numbers
    from before the oldest unacknowledged one to the next one, queued and in-flight data together
    stay within the send capacity, received data within the receive capacity, both segment-size limits stay
    positive, the closing states hold no unsent data; and no segment makes the connection panic. *)
Theorem tcp_connection_invariant iss c ops (Hnew : new_connection iss c) (Hok : Forall tcp_op_ok ops) :
  let c' := foldl tcp_step c ops in
  tcp_inv c' /\ forall seg now, sg_wf seg -> snd (on_segment c' seg now) <> Panic.
Proof.
  cbv zeta. destruct (new_connection_inv iss c Hnew) as [_ Hi].
  pose proof (tcp_run_inv ops c Hi Hok) as Hi'. split; [done |]. intros seg now Hwf. by apply on_segment_inv.
Qed.

Definition demo_tuple : TcpTuple :=
  {| tt_local_address := [10; 0; 2; 15]; tt_local_port := 49152;
     tt_remote_address := [10; 0; 2; 2]; tt_remote_port := 80 |}.

(** An active connection near the wrap-around of the sequence space. *)
Definition demo_connection : TcpConnection :=
  {| tc_handle := 1; tc_owner := 7; tc_tuple := demo_tuple; tc_state := SynSent;
     tc_send_unacknowledged := 4294967295; tc_send_next := 0; tc_receive_next := 0; tc_peer_window := 0;
     tc_peer_mss := 4; tc_local_mss := 4; tc_send_capacity := 16; tc_receive_capacity := 16;
     tc_send_buffer := []; tc_receive_buffer := [];
     tc_outstanding := [{| os_sequence := 4294967295; os_acknowledgment := 0; os_flags := TCP_FLAG_SYN;
       os_options := {| maximum_segment_size := Some 4 |}; os_payload := []; os_sent_at := None; os_retries := 0 |}];
     tc_close_requested := false; tc_retransmit_timeout := 100; tc_retry_limit := 2;
     tc_time_wait_until := None |}.

Lemma demo_connection_new : new_connection 4294967295 demo_connection.
Proof.
  split; [widths; lia |]. left. exists (fun n => n <=? 4096), 1, 7, demo_tuple, 4, 16, 16, 100, 2.
  split_and!; try (widths; lia); [|reflexivity]. intros n Hn. bool_cases. widths. lia.
Qed.

Definition demo_syn_ack : TcpSegment :=
  {| sg_source_port := 80; sg_destination_port := 49152; sg_sequence := 1000; sg_acknowledgment := 0;
     sg_flags := 18; sg_window := 64; sg_urgent_pointer := 0; sg_options := TcpOptions_default; sg_payload := [] |}.

Lemma demo_syn_ack_wf : sg_wf demo_syn_ack.
Proof. unfold sg_wf. cbn. split_and!; try (widths; lia); done. Qed.

Definition demo_tcp_ops : list tcp_op := [OPoll 0; OSegment demo_syn_ack 5; OQueue [1; 2; 3; 4; 5]; OPoll 6].

Lemma tcp_connection_invariant_witness :
  let c' := foldl tcp_step demo_connection demo_tcp_ops in
  tcp_inv c' /\ tc_state c' = Established /\ tc_send_buffer c' = [5].
Proof.
  destruct (tcp_connection_invariant 4294967295 demo_connection demo_tcp_ops demo_connection_new) as [H _].
  - unfold demo_tcp_ops. repeat (apply Forall_cons; split); try exact I; [exact demo_syn_ack_wf | apply Forall_nil_2].
  - split; [exact H | vm_compute; split; reflexivity].
Defined.


(** An acknowledgement is accepted exactly when it lies in the window from the oldest
    unacknowledged number to the next one to send, modulo 2^32 and across the
    wrap-around; then it becomes the oldest unacknowledged number and the outstanding segment is dropped exactly when
    all of it is covered.  Otherwise the connection is unchanged. *)
Theorem tcp_acknowledge_window c ack (Hi : tcp_inv c) (Hs : tc_state c <> Reset) (Ha : is_u32 ack) :
  acknowledge c ack =
  if wrapping_sub32 ack (tc_send_unacknowledged c) <=?
     wrapping_sub32 (tc_send_next c) (tc_send_unacknowledged c)
  then (set_outstanding (set_send_unacknowledged c ack)
          (if ack =? tc_send_next c then [] else tc_outstanding c), Ok tt)
  else (c, Err InvalidAcknowledgment).
Proof. pose proof (acknowledge_spec c ack Hi Hs Ha). by destruct (_ <=? _). Qed.

Lemma tcp_acknowledge_window_witness :
  acknowledge demo_connection 0 =
    (set_outstanding (set_send_unacknowledged demo_connection 0) [], Ok tt) /\
  acknowledge demo_connection 1 = (demo_connection, Err InvalidAcknowledgment).
Proof.
  destruct (new_connection_inv _ _ demo_connection_new) as [_ Hi].
  split; (rewrite tcp_acknowledge_window; [vm_compute; reflexivity | exact Hi | discriminate | widths; lia]).
Defined.


