(* ===== verification/TcpStream.v ===== *)
(** * End-to-end delivery of a TCP stream

    A sending connection, a network that may lose, duplicate, delay and reorder
    what was sent, and a receiving connection, all running the code of
    [TcpConn].  The theorem: what the receiver's application reads is always a prefix of
    what the sender's application queued, and the end of the stream is
    reported only when all of it has arrived.  The stream must stay below 2^32 bytes: the
    code has no protection against wrapped sequence numbers. *)

From S2P Require Import Prelude Packet TcpSegment TcpConn TcpInvariant.

(** ** What segments carry *)

Abbreviation syn_states := [SynSent; SynReceived].
Abbreviation open_states := [SynSent; SynReceived; Established; CloseWait].

(** Once a connection has left these states it queues nothing more. *)
Definition is_closed (c : TcpConnection) : bool := negb (state_in (tc_state c) open_states).

(** A segment of the stream [stream] of a connection with initial sequence [iss]. *)
Inductive carried (iss : Z) (stream : list Z) (closed : bool) (seq flags : Z) (payload : list Z) : Prop :=
  | C_syn : has_flag flags TCP_FLAG_SYN = true -> has_flag flags TCP_FLAG_FIN = false ->
      seq = iss -> payload = [] -> carried iss stream closed seq flags payload
  | C_empty : has_flag flags TCP_FLAG_SYN = false -> has_flag flags TCP_FLAG_FIN = false ->
      is_u32 seq -> payload = [] -> carried iss stream closed seq flags payload
  | C_data o : has_flag flags TCP_FLAG_SYN = false -> has_flag flags TCP_FLAG_FIN = false ->
      seq = wrap32 (iss + 1 + Z.of_nat o) -> (o + length payload <= length stream)%nat ->
      payload = take (length payload) (drop o stream) -> carried iss stream closed seq flags payload
  | C_fin : has_flag flags TCP_FLAG_SYN = false -> has_flag flags TCP_FLAG_FIN = true ->
      seq = wrap32 (iss + 1 + Z.of_nat (length stream)) -> payload = [] -> closed = true ->
      carried iss stream closed seq flags payload.

Lemma carried_grow iss stream b seq flags payload :
  carried iss stream false seq flags payload -> carried iss (stream ++ b) false seq flags payload.
Proof.
  intros [? ? ? ?|? ? ? ?|o ? ? ? Hl Hp|]; [by apply C_syn | by apply C_empty | | done].
  apply (C_data _ _ _ _ _ _ o); [done | done | done | rewrite length_app; lia |].
  rewrite drop_app_le, take_app_le by (rewrite ?length_drop; lia). done.
Qed.

Lemma carried_close iss stream closed seq flags payload :
  carried iss stream closed seq flags payload -> carried iss stream true seq flags payload.
Proof.
  intros [? ? ? ?|? ? ? ?|o ? ? ? Hl Hp|]; [by apply C_syn | by apply C_empty | by eapply C_data | by apply C_fin].
Qed.

(** ** The sender *)

Definition tx_inv (iss : Z) (stream : list Z) (c : TcpConnection) : Prop :=
  is_u32 iss /\
  (forall s, s ∈ tc_outstanding c ->
     carried iss stream (is_closed c) (os_sequence s) (os_flags s) (os_payload s)) /\
  (tc_state c ∈ syn_states ->
     stream = [] /\ tc_send_buffer c = [] /\ tc_send_next c = wrap32 (iss + 1) /\ tc_send_unacknowledged c = iss) /\
  (tc_state c ∈ [Established; CloseWait] ->
     exists off, (off <= length stream)%nat /\ tc_send_next c = wrap32 (iss + 1 + Z.of_nat off) /\
       tc_send_buffer c = drop off stream) /\
  is_u32 (tc_send_next c).

Lemma tx_fresh iss c : is_u32 iss -> fresh iss c -> tx_inv iss [] c.
Proof.
  intros Hi (Hst & Hu & Hn & Hb & (s & Ho & Hs & Hp & Hsyn & Hfin & _) & _). unfold tx_inv.
  split_and!; [done | | done | | rewrite Hn; apply wrap32_range].
  - rewrite Ho. intros x ->%list_elem_of_singleton. rewrite Hs. by apply C_syn.
  - intros Hx. no_state.
Qed.

(** Once closed, always closed. *)
Lemma closed_edge s s' :
  rtc tcp_edge s s' -> state_in s open_states = false -> state_in s' open_states = false.
Proof.
  induction 1 as [|s1 s2 s3 He _ IH]; [done |]. intros H. apply IH. by destruct He.
Qed.

Lemma closed_mono c c' :
  rtc tcp_edge (tc_state c) (tc_state c') -> is_closed c = true -> is_closed c' = true.
Proof. unfold is_closed. rewrite !negb_true_iff. apply closed_edge. Qed.

Lemma opened_edge s s' :
  rtc tcp_edge s s' -> s' ∈ [Established; CloseWait] -> s ∈ open_states.
Proof.
  intros H Hs'. apply state_in_spec. destruct (state_in s open_states) eqn:E; [done |].
  pose proof (closed_edge s s' H E) as Hc. in_states Hs'; by subst s'.
Qed.

(** A step that keeps the send side, or drops acknowledged segments, keeps the sender invariant. *)
Lemma tx_keep iss stream c c' :
  tx_inv iss stream c -> rtc tcp_edge (tc_state c) (tc_state c') ->
  tc_state c' ∉ syn_states ->
  tc_send_next c' = tc_send_next c -> tc_send_buffer c' = tc_send_buffer c ->
  (forall s, s ∈ tc_outstanding c' -> s ∈ tc_outstanding c) -> tx_inv iss stream c'.
Proof.
  intros (Hi & Ho & Hsyn & Hest & Hn) He Hs Hnx Hb Hsub. unfold tx_inv. rewrite Hnx, Hb.
  split_and!; [done | | done | | done].
  - intros s Hin. specialize (Ho s (Hsub s Hin)). destruct (is_closed c) eqn:Hc.
    + by rewrite (closed_mono c c' He Hc).
    + destruct (is_closed c'); [by eapply carried_close | done].
  - intros Hx. apply (opened_edge _ _ He) in Hx.
    destruct (decide (tc_state c ∈ [Established; CloseWait])) as [Hc|Hc]; [by apply Hest |].
    destruct Hsyn as (-> & -> & -> & _); [in_states Hx; rewrite Hx in *; set_solver |].
    exists 0%nat. rewrite Z.add_0_r. done.
Qed.

Lemma tx_reset iss stream c c' :
  tx_inv iss stream c -> tc_state c' = Reset ->
  (forall s, s ∈ tc_outstanding c' -> s ∈ tc_outstanding c) -> is_u32 (tc_send_next c') -> tx_inv iss stream c'.
Proof.
  intros (Hi & Ho & _) Hr Hsub Hn. unfold tx_inv. rewrite Hr. split_and!; try done.
  - intros s Hin. specialize (Ho s (Hsub s Hin)). unfold is_closed. rewrite Hr.
    by eapply carried_close.
  - set_solver.
  - set_solver.
Qed.

Lemma drop_acknowledged_sub ack q s : s ∈ drop_acknowledged ack q -> s ∈ q.
Proof. induction q as [|x q IH]; cbn; [done |]. destruct (negb _); [right; auto | done]. Qed.

(** What a received segment does to the send side. *)
Definition send_side_kept (c c' : TcpConnection) : Prop :=
  c' = c \/ (tc_state c' = Reset /\ tc_outstanding c' = [] /\ tc_send_next c' = tc_send_next c) \/
  ((tc_state c' ∉ syn_states) /\ tc_send_next c' = tc_send_next c /\ tc_send_buffer c' = tc_send_buffer c /\
   forall s, s ∈ tc_outstanding c' -> s ∈ tc_outstanding c).

Lemma acknowledge_send_side c ack :
  let c' := fst (acknowledge c ack) in
  forall s, s ∈ tc_outstanding c' -> s ∈ tc_outstanding c.
Proof. cbv zeta. unfold acknowledge. destruct (_ || _); [done |]. tc_simpl. intros s. apply drop_acknowledged_sub. Qed.

Lemma synchronized_send_side c seg now :
  let c' := fst (on_segment_synchronized c seg now) in
  c' = c \/ ((tc_state c' ∉ syn_states) /\ tc_send_next c' = tc_send_next c /\
    tc_send_buffer c' = tc_send_buffer c /\ forall s, s ∈ tc_outstanding c' -> s ∈ tc_outstanding c).
Proof.
  cbv zeta. unfold on_segment_synchronized.
  destruct (negb (state_in _ _)) eqn:Hst; [by left |]. apply negb_false_iff, state_in_spec in Hst.
  destruct (has_flag _ TCP_FLAG_SYN); [left; by destruct (is_duplicate_syn_ack _ _) |].
  destruct (negb _); [by left |]. destruct (_ && _); [by left |]. right.
  assert (tc_state c ∉ syn_states) as Hns by (intros Hx; no_state).
  assert (let c1 := fst (on_ack c seg) in (tc_state c1 ∉ syn_states) /\ tc_send_next c1 = tc_send_next c /\
    tc_send_buffer c1 = tc_send_buffer c /\ forall s, s ∈ tc_outstanding c1 -> s ∈ tc_outstanding c) as H1.
  { cbv zeta. unfold on_ack. destruct (negb _); [done |]. destruct (_ =? _); [done |].
    pose proof (acknowledge_fields c (sg_acknowledgment seg)) as (Hs & Hb & _ & _ & Hn).
    pose proof (acknowledge_send_side c (sg_acknowledgment seg)) as Ho.
    destruct (acknowledge _ _) as [c1 [u|e|]]; cbn [fst] in *; [|by rewrite Hs, Hb, Hn..].
    destruct (_ && _); [tc_simpl; rewrite Hn, Hb; split_and!; [set_solver | done..] |].
    destruct (_ && _); tc_simpl; rewrite Hn, Hb; split_and!; try done; [set_solver | by rewrite Hs]. }
  destruct (on_ack c seg) as [c1 [[early|res]|e|]]; try done. cbn [fst] in H1.
  assert (let c2 := fst (on_payload c1 seg res) in tc_state c2 = tc_state c1 /\ tc_send_next c2 = tc_send_next c1 /\
    tc_send_buffer c2 = tc_send_buffer c1 /\ tc_outstanding c2 = tc_outstanding c1) as H2.
  { cbv zeta. unfold on_payload. destruct (bool_decide _); [done |].
    destruct (_ =? _); [by destruct (_ <? _) |]. by destruct (sequence_before _ _). }
  destruct (on_payload c1 seg res) as [c2 r2]. cbn [fst] in H2. destruct H2 as (H2s & H2n & H2b & H2o).
  destruct H1 as (H1s & H1n & H1b & H1o).
  destruct r2 as [res2|e|]; cbn [fst]; [| by rewrite H2s, H2n, H2b, H2o ..].
  unfold on_fin. destruct (negb _); [cbn; by rewrite H2s, H2n, H2b, H2o |].
  destruct (negb _); [cbn; by rewrite H2s, H2n, H2b, H2o |].
  destruct (state_in _ _); [tc_simpl; rewrite H2n, H2b, H2o; split_and!; [set_solver | done..] |].
  case_bool_decide; tc_simpl; rewrite H2n, H2b, H2o; split_and!; try done; [set_solver | by rewrite H2s].
Qed.

Lemma on_segment_open_send_side c seg now : send_side_kept c (fst (on_segment_open c seg now)).
Proof.
  unfold on_segment_open. destruct (has_flag _ TCP_FLAG_RST).
  { destruct (_ || _); [by left | by right; left]. }
  case_bool_decide as Hs.
  2: { destruct (synchronized_send_side c seg now) as [H|H]; [by left | by right; right]. }
  destruct (_ || _); [by left |].
  pose proof (acknowledge_fields c (sg_acknowledgment seg)) as (_ & Hb & _ & _ & Hn).
  pose proof (acknowledge_send_side c (sg_acknowledgment seg)) as Ho.
  assert (forall e, snd (acknowledge c (sg_acknowledgment seg)) = Err e -> fst (acknowledge c (sg_acknowledgment seg)) = c) as He.
  { intros e. unfold acknowledge. by destruct (_ || _). }
  assert (snd (acknowledge c (sg_acknowledgment seg)) <> Panic) as Hp.
  { unfold acknowledge. by destruct (_ || _). }
  destruct (acknowledge _ _) as [c1 [u|e|]]; cbn [fst snd] in *; [|left; by eapply He | done].
  right. right. destruct (maximum_segment_size _); tc_simpl; split_and!; try done; set_solver.
Qed.

Lemma on_segment_send_side c seg now : send_side_kept c (fst (on_segment c seg now)).
Proof.
  unfold on_segment. case_bool_decide as Hs; [|apply on_segment_open_send_side]. unfold receive_passive.
  destruct (validate_segment _ _); [|by left..]. destruct (has_flag _ TCP_FLAG_RST).
  { destruct (negb _); [by left | by right; left]. }
  destruct (has_flag _ TCP_FLAG_SYN); [by left |]. destruct (negb _); [by left |]. destruct (_ || _); [by left |].
  pose proof (acknowledge_fields c (sg_acknowledgment seg)) as (_ & Hb & _ & _ & Hn).
  pose proof (acknowledge_send_side c (sg_acknowledgment seg)) as Ho.
  assert (acknowledge c (sg_acknowledgment seg) = (c, Err InvalidAcknowledgment) \/
    exists c1, acknowledge c (sg_acknowledgment seg) = (c1, Ok tt)) as [->|(c1 & Hk)].
  { unfold acknowledge. destruct (_ || _); [by left |]. right. by eexists. }
  { by left. }
  rewrite Hk in *. cbn [fst] in *.
  pose proof (on_segment_open_send_side (set_peer_window (set_state c1 Established) (sg_window seg))
    (trim_segment (tc_receive_next (set_peer_window (set_state c1 Established) (sg_window seg))) seg) now) as H2.
  destruct (on_segment_open _ _ _) as [c3 r]. cbn [fst] in *. right.
  destruct H2 as [->|[(H3 & H4 & H5)|(H3 & H4 & H5 & H6)]]; tc_simpl.
  - right. split_and!; [set_solver | done..].
  - left. by rewrite H5.
  - right. rewrite H4, H5. split_and!; try done. intros s Hs'. by apply Ho, H6.
Qed.

Lemma tx_segment iss stream c seg now : tx_inv iss stream c -> tx_inv iss stream (fst (on_segment c seg now)).
Proof.
  intros Hi. destruct (on_segment_send_side c seg now) as [->|[(H1 & H2 & H3)|(H1 & H2 & H3 & H4)]].
  - done.
  - apply (tx_reset _ _ c); [done | done | rewrite H2; set_solver | rewrite H3; apply Hi].
  - apply (tx_keep _ _ c); try done. apply on_segment_edge.
Qed.

Lemma tx_queue iss stream c b :
  tx_inv iss stream c -> snd (queue_send c b) = Ok tt -> tx_inv iss (stream ++ b) (fst (queue_send c b)).
Proof.
  intros (Hi & Ho & Hsyn & Hest & Hn). unfold queue_send.
  destruct (negb (state_in _ _)) eqn:Hst; [done |]. apply negb_false_iff, state_in_spec in Hst.
  destruct (_ <? _); [done |]. intros _. unfold tx_inv. tc_simpl.
  assert (is_closed c = false) as Hc by (unfold is_closed; in_states Hst; by rewrite Hst).
  split_and!; [done | | | |done].
  - intros s Hin. change (is_closed (set_send_buffer c _)) with (is_closed c). rewrite Hc.
    apply carried_grow. rewrite <- Hc. by apply Ho.
  - intros Hx. no_state.
  - intros Hx. destruct (Hest Hx) as (off & H1 & H2 & ->). exists off.
    rewrite length_app. split_and!; [lia | done |]. by rewrite drop_app_le.
Qed.

(** What a poll sends is a segment of the stream. *)
Lemma tx_poll iss stream c now :
  tcp_inv c -> tx_inv iss stream c ->
  let '(c', r) := poll_transmit c now in
  tx_inv iss stream c' /\
  forall t, r = Ok (Some t) -> carried iss stream (is_closed c') (tx_sequence t) (tx_flags t) (tx_payload t).
Proof.
  intros Hinv Htx. pose proof Htx as (Hi & Ho & Hsyn & Hest & Hn).
  pose proof (poll_transmit_edge c now) as Hed. unfold poll_transmit in *.
  destruct (tc_outstanding c) as [|s others] eqn:Hout.
  - destruct (_ && negb _) eqn:E1.
    + apply andb_true_iff in E1 as [Est%state_in_spec _]. destruct (Hest Est) as (off & Hoff & Hnx & Hbuf).
      unfold poll_data. destruct (_ =? 0); [split; [done | intros t [=]] |].
      destruct (_ =? 0); [split; [done | intros t [=]] |]. rewrite pop_front_n_spec.
      set (m := Nat.min _ _). assert (m <= length (tc_send_buffer c))%nat as Hm by (subst m; lia). clearbody m.
      assert (is_closed c = false) as Hc by (unfold is_closed; in_states Est; by rewrite Est).
      assert (carried iss stream (is_closed c) (tc_send_next c) (Z.lor TCP_FLAG_ACK TCP_FLAG_PSH)
        (take m (tc_send_buffer c))) as Hcar.
      { rewrite Hnx, Hbuf in *. rewrite length_drop in Hm. apply (C_data _ _ _ _ _ _ off); [done | done | done | |].
        - rewrite length_take, length_drop. lia.
        - rewrite length_take, length_drop, Nat.min_l by lia. done. }
      split.
      * unfold tx_inv. tc_simpl. rewrite Hout. cbn [app]. split_and!; [done | | | |].
        -- intros s ->%list_elem_of_singleton. exact Hcar.
        -- intros Hx. no_state.
        -- intros _. exists (off + m)%nat. rewrite Hbuf in *. rewrite length_drop in Hm. split_and!; [lia | |].
           ++ rewrite sequence_end_spec. unfold seq_len. tc_simpl.
              change (Z.b2z (has_flag (Z.lor TCP_FLAG_ACK TCP_FLAG_PSH) TCP_FLAG_SYN)) with 0.
              change (Z.b2z (has_flag (Z.lor TCP_FLAG_ACK TCP_FLAG_PSH) TCP_FLAG_FIN)) with 0.
              rewrite length_take, length_drop, Nat.min_l, Hnx, wrap32_add_l by lia. f_equal. lia.
           ++ by rewrite drop_drop.
        -- rewrite sequence_end_spec. apply wrap32_range.
      * intros t [= <-]. exact Hcar.
    + match goal with |- context [if ?b then poll_fin _ _ else _] => destruct b eqn:E2 end;
        [|split; [done | intros t [=]]].
      apply andb_true_iff in E2 as [E2 Est%state_in_spec]. bool_cases.
      destruct (Hest Est) as (off & Hoff & Hnx & Hbuf). unfold poll_fin.
      assert (off = length stream) as ->.
      { match goal with H : tc_send_buffer c = [] |- _ => rewrite H in Hbuf end. symmetry in Hbuf. apply (f_equal length) in Hbuf. rewrite length_drop in Hbuf. cbn in Hbuf. lia. }
      match goal with |- context [set_outstanding ?x _] => set (c1 := x) end.
      assert (is_closed c1 = true) as Hcl by (subst c1; unfold is_closed; tc_simpl;
        destruct (bool_decide (tc_state c = CloseWait)); reflexivity).
      assert (carried iss stream true (tc_send_next c) (Z.lor TCP_FLAG_FIN TCP_FLAG_ACK) []) as Hcar by (by apply C_fin).
      split.
      * unfold tx_inv. change (is_closed (set_outstanding c1 _)) with (is_closed c1). rewrite Hcl.
        subst c1. tc_simpl. rewrite Hout. cbn [app]. split_and!; [done | | | | apply wrap32_range].
        -- intros s ->%list_elem_of_singleton. exact Hcar.
        -- intros Hx. clear Est. destruct (bool_decide (tc_state c = CloseWait)); no_state.
        -- intros Hx. clear Est. destruct (bool_decide (tc_state c = CloseWait)); no_state.
      * intros t [= <-]. change (is_closed (set_outstanding c1 _)) with (is_closed c1). by rewrite Hcl.
  - assert (others = []) as ->.
    { destruct Hinv as (_ & _ & _ & _ & _ & _ & _ & _ & _ & _ & Hos & _). unfold outstanding_ok in Hos.
      rewrite Hout in Hos. by destruct others. }
    assert (forall s', os_sequence s' = os_sequence s -> os_flags s' = os_flags s -> os_payload s' = os_payload s ->
      tx_inv iss stream (set_outstanding c [s'])) as Hset.
    { intros s' E1 E2 E3. unfold tx_inv. tc_simpl. split_and!; try done.
      intros x ->%list_elem_of_singleton. rewrite E1, E2, E3. apply Ho. set_solver. }
    assert (carried iss stream (is_closed c) (os_sequence s) (os_flags s) (os_payload s)) as Hcar by (apply Ho; set_solver).
    unfold poll_outstanding. destruct (os_sent_at s).
    + destruct (_ <? _); [split; [done | intros t [=]] |]. destruct (_ <=? _).
      * split; [|intros t [=]]. apply (tx_reset _ _ c); [done | done | | by case_bool_decide].
        intros x. by case_bool_decide.
      * split; [by apply Hset |]. intros t [= <-]. exact Hcar.
    + split; [by apply Hset |]. intros t [= <-]. exact Hcar.
Qed.

Lemma acknowledgment_carried iss stream c :
  tx_inv iss stream c ->
  carried iss stream (is_closed c) (tx_sequence (acknowledgment c)) (tx_flags (acknowledgment c))
    (tx_payload (acknowledgment c)).
Proof.
  intros (Hi & _ & Hsyn & _ & Hn). unfold acknowledgment. case_bool_decide as Hs.
  - destruct Hsyn as (_ & _ & _ & Hu); [rewrite Hs; set_solver |]. by apply C_syn.
  - by apply C_empty.
Qed.

Lemma tx_same iss stream c c' :
  tx_inv iss stream c -> tc_state c' = tc_state c -> tc_outstanding c' = tc_outstanding c ->
  tc_send_buffer c' = tc_send_buffer c -> tc_send_next c' = tc_send_next c ->
  tc_send_unacknowledged c' = tc_send_unacknowledged c -> tx_inv iss stream c'.
Proof. unfold tx_inv, is_closed. intros Hi -> -> -> -> ->. exact Hi. Qed.

(** ** The receiver *)

(** [d] is what the application has read.  Together with the buffer it is a prefix of the stream, and the next
    expected number is the one behind it (behind the end of the stream after a FIN). *)
Definition rx_inv (iss : Z) (stream : list Z) (closed : bool) (d : list Z) (c : TcpConnection) : Prop :=
  let got := d ++ tc_receive_buffer c in
  (exists n, (n <= length stream)%nat /\ got = take n stream) /\
  (tc_state c = SynSent -> got = []) /\
  (tc_state c ∈ [SynReceived; Established; FinWait1; FinWait2] ->
     tc_receive_next c = wrap32 (iss + 1 + Z.of_nat (length got))) /\
  (tc_state c ∈ [CloseWait; LastAck; TimeWait] ->
     tc_receive_next c = wrap32 (iss + 2 + Z.of_nat (length stream)) /\ got = stream /\ closed = true).

Lemma rx_same iss stream closed d c c' :
  rx_inv iss stream closed d c -> tc_receive_buffer c' = tc_receive_buffer c ->
  tc_receive_next c' = tc_receive_next c ->
  (tc_state c' = tc_state c \/ tc_state c' ∈ [Closed; Reset] \/
   (tc_state c ∈ [Established; FinWait1; FinWait2] /\ tc_state c' ∈ [Established; FinWait1; FinWait2]) \/
   (tc_state c = CloseWait /\ tc_state c' = LastAck)) ->
  rx_inv iss stream closed d c'.
Proof.
  intros (H1 & H2 & H3 & H4) Hb Hn Hs. unfold rx_inv. rewrite Hb, Hn.
  destruct Hs as [Hs|[Hs|[[Hs Hs']|[Hs Hs']]]].
  - rewrite Hs. done.
  - split_and!; [done | intros Hx; no_state | intros Hx; no_state | intros Hx; no_state].
  - split_and!; [done | intros Hx; no_state | | intros Hx; no_state]. intros _. apply H3.
    in_states Hs; rewrite Hs; set_solver.
  - split_and!; [done | intros Hx; no_state | intros Hx; no_state |]. intros _. apply H4. rewrite Hs. set_solver.
Qed.

(** Losing the buffer with the connection loses no byte out of order. *)
Lemma rx_reset iss stream closed d c c' :
  rx_inv iss stream closed d c -> tc_state c' = Reset ->
  (exists k, tc_receive_buffer c' = take k (tc_receive_buffer c)) -> rx_inv iss stream closed d c'.
Proof.
  intros ((n & Hn & Hgot) & _) Hs [k Hk]. unfold rx_inv. rewrite Hs, Hk.
  split_and!; [|done | intros Hx; no_state | intros Hx; no_state].
  exists (Nat.min (length d + k) n). split; [lia |].
  rewrite <- take_take, <- Hgot, take_app_ge by lia. do 2 f_equal. lia.
Qed.

Lemma rx_grow iss stream d c b :
  rx_inv iss stream false d c -> rx_inv iss (stream ++ b) false d c.
Proof.
  intros ((n & Hn & Hgot) & H2 & H3 & H4). unfold rx_inv. split_and!; [|done | done |].
  - exists n. rewrite length_app. split; [lia |]. by rewrite take_app_le.
  - intros Hx. by destruct (H4 Hx) as (_ & _ & [=]).
Qed.

Lemma rx_close iss stream closed closed' d c :
  (closed = true -> closed' = true) -> rx_inv iss stream closed d c -> rx_inv iss stream closed' d c.
Proof. intros Hc (H1 & H2 & H3 & H4). unfold rx_inv. split_and!; [done.. |]. intros (? & ? & ?)%H4. auto. Qed.

(** Below 2^32 bytes a sequence number determines the position in the stream. *)
Lemma seq_position iss x y :
  0 <= x < 4294967296 -> 0 <= y < 4294967296 -> wrap32 (iss + x) = wrap32 (iss + y) -> x = y.
Proof. intros. seqlia. Qed.

Section Receiver.
Context (iss : Z) (stream : list Z) (closed : bool) (d : list Z).
Context (Hiss : is_u32 iss) (Hbound : Z.of_nat (length stream) <= 4294967293).

Lemma rx_payload c seg res :
  rx_inv iss stream closed d c -> tc_state c ∈ [Established; FinWait1; FinWait2; CloseWait; LastAck; TimeWait] ->
  carried iss stream closed (sg_sequence seg) (sg_flags seg) (sg_payload seg) ->
  rx_inv iss stream closed d (fst (on_payload c seg res)).
Proof using Hiss Hbound.
  intros Hrx Hst Hcar. unfold on_payload. case_bool_decide as Hp; [done |].
  destruct (Z.eqb_spec (sg_sequence seg) (tc_receive_next c)) as [Hq|]; [|by destruct (sequence_before _ _)].
  destruct (_ <? _); [done |]. cbn [fst].
  destruct Hcar as [? ? ? ?|? ? ? ?|o _ _ Hseq Hl Hpay|]; try done.
  pose proof Hrx as ((n & Hn & Hgot) & _ & H3 & H4). rewrite Hseq in Hq.
  assert (0 < length (sg_payload seg))%nat as Hpos by (destruct (sg_payload seg); [done | cbn; lia]).
  destruct (decide (tc_state c ∈ [CloseWait; LastAck; TimeWait])) as [Hc|Hc].
  { destruct (H4 Hc) as (Hr & _). rewrite Hr in Hq. exfalso.
    rewrite <- !Z.add_assoc in Hq. apply seq_position in Hq; lia. }
  assert (tc_state c ∈ [SynReceived; Established; FinWait1; FinWait2]) as Hs.
  { in_states Hst; rewrite Hst in *; set_solver. }
  specialize (H3 Hs). rewrite H3, <- !Z.add_assoc in Hq.
  assert (length (d ++ tc_receive_buffer c) = n) as Hlen by (rewrite Hgot, length_take; lia).
  rewrite Hlen in *. apply seq_position in Hq; [|lia..]. assert (o = n) as -> by lia.
  unfold rx_inv. tc_simpl. rewrite app_assoc, Hgot.
  assert (take n stream ++ sg_payload seg = take (n + length (sg_payload seg)) stream) as Happ.
  { rewrite Hpay at 1. by rewrite take_take_drop. }
  rewrite Happ. split_and!.
  - by exists (n + length (sg_payload seg))%nat.
  - intros Hx. no_state.
  - intros _. rewrite H3, length_take, Nat.min_l by lia. unfold len32. clear. seqlia.
  - intros Hx. by destruct (Hc Hx).
Qed.

Lemma rx_fin c seg now res :
  rx_inv iss stream closed d c -> tc_state c ∈ [Established; FinWait1; FinWait2; CloseWait; LastAck; TimeWait] ->
  carried iss stream closed (sg_sequence seg) (sg_flags seg) (sg_payload seg) ->
  rx_inv iss stream closed d (fst (on_fin c seg now res)).
Proof using Hiss Hbound.
  intros Hrx Hst Hcar. unfold on_fin. destruct (has_flag _ TCP_FLAG_FIN) eqn:Hf; cbn [negb]; [|done].
  destruct Hcar as [|?|?|_ _ Hseq Hp Hcl]; try congruence.
  destruct (Z.eqb_spec (wrapping_add32 (sg_sequence seg) (len32 (sg_payload seg))) (tc_receive_next c)) as [Hq|];
    cbn [negb]; [|done].
  assert (wrap32 (iss + 1 + Z.of_nat (length stream)) = tc_receive_next c) as Hq'.
  { rewrite <- Hq, Hseq, Hp. change (len32 []) with 0. clear. seqlia. }
  pose proof Hrx as ((n & Hn & Hgot) & _ & H3 & H4).
  destruct (decide (tc_state c ∈ [CloseWait; LastAck; TimeWait])) as [Hc|Hc].
  { destruct (H4 Hc) as (Hr & _). rewrite Hr in Hq'. exfalso.
    rewrite <- !Z.add_assoc in Hq'. apply seq_position in Hq'; lia. }
  assert (tc_state c ∈ [SynReceived; Established; FinWait1; FinWait2]) as Hs.
  { in_states Hst; rewrite Hst in *; set_solver. }
  specialize (H3 Hs). rewrite H3, <- !Z.add_assoc in Hq'.
  assert (length (d ++ tc_receive_buffer c) = n) as Hlen by (rewrite Hgot, length_take; lia).
  rewrite Hlen in *. apply seq_position in Hq'; [|lia..]. assert (n = length stream) as -> by lia.
  rewrite take_ge in Hgot by lia.
  assert (forall c', tc_receive_buffer c' = tc_receive_buffer c ->
    tc_receive_next c' = wrapping_add32 (tc_receive_next c) 1 -> tc_state c' ∈ [CloseWait; LastAck; TimeWait] ->
    rx_inv iss stream closed d c') as Hfin.
  { intros c' Hb Hr Hs'. unfold rx_inv. rewrite Hb, Hr, Hgot, H3. split_and!.
    - exists (length stream). by rewrite take_ge.
    - intros Hx. no_state.
    - intros Hx. no_state.
    - intros _. split_and!; [|done | done]. clear. seqlia. }
  destruct (state_in _ _) eqn:E1; [apply Hfin; [done | done | set_solver] |]. apply state_in_false in E1.
  case_bool_decide as E2; [apply Hfin; [done | done | set_solver] |]. exfalso. tc_simpl.
  in_states Hst; rewrite Hst in *; set_solver.
Qed.

Lemma rx_ack c seg :
  rx_inv iss stream closed d c -> tc_state c ∈ [Established; FinWait1; FinWait2; CloseWait; LastAck; TimeWait] ->
  rx_inv iss stream closed d (fst (on_ack c seg)) /\
  (forall res, snd (on_ack c seg) = Ok (inr res) ->
     tc_state (fst (on_ack c seg)) ∈ [Established; FinWait1; FinWait2; CloseWait; LastAck; TimeWait]).
Proof.
  intros Hrx Hst. unfold on_ack. destruct (negb _); [done |].
  destruct (_ =? _); [split; [|done]; by apply (rx_same _ _ _ _ c); auto |].
  pose proof (acknowledge_fields c (sg_acknowledgment seg)) as (Hs & _ & Hn & Hb & _).
  destruct (acknowledge _ _) as [c1 [u|e|]]; cbn [fst snd] in *.
  - destruct (bool_decide (tc_state c1 = FinWait1) && _) eqn:E1; bool_cases; tc_simpl.
    { split; [|intros; set_solver]. apply (rx_same _ _ _ _ c); try done.
      right. right. left. split; [rewrite <- Hs, H; set_solver | tc_simpl; set_solver]. }
    destruct (bool_decide (tc_state c1 = LastAck) && _) eqn:E2; bool_cases; tc_simpl.
    { split; [|done]. apply (rx_same _ _ _ _ c); try done. right. left. tc_simpl. set_solver. }
    split; [|intros; by rewrite Hs]. apply (rx_same _ _ _ _ c); try done. by left.
  - split; [|done]. apply (rx_same _ _ _ _ c); try done. by left.
  - split; [|done]. apply (rx_same _ _ _ _ c); try done. by left.
Qed.

Lemma rx_synchronized c seg now :
  rx_inv iss stream closed d c ->
  carried iss stream closed (sg_sequence seg) (sg_flags seg) (sg_payload seg) ->
  rx_inv iss stream closed d (fst (on_segment_synchronized c seg now)).
Proof using Hiss Hbound.
  intros Hrx Hcar. unfold on_segment_synchronized.
  destruct (negb (state_in _ _)) eqn:Hst; [done |]. apply negb_false_iff, state_in_spec in Hst.
  destruct (has_flag _ TCP_FLAG_SYN); [by destruct (is_duplicate_syn_ack _ _) |].
  destruct (negb _); [done |]. destruct (_ && _); [done |].
  destruct (rx_ack c seg Hrx Hst) as [H1 H2].
  destruct (on_ack c seg) as [c1 [[early|res]|e|]]; cbn [fst snd] in *; try done.
  specialize (H2 res eq_refl). pose proof (rx_payload c1 seg res H1 H2 Hcar) as H3.
  assert (tc_state (fst (on_payload c1 seg res)) = tc_state c1) as H4.
  { unfold on_payload. destruct (bool_decide _); [done |]. destruct (_ =? _); [by destruct (_ <? _) |].
    by destruct (sequence_before _ _). }
  destruct (on_payload c1 seg res) as [c2 [res2|e|]]; cbn [fst snd] in *; try done.
  apply rx_fin; [done | by rewrite H4 | done].
Qed.

Lemma rx_open c seg now :
  rx_inv iss stream closed d c -> tc_state c <> SynReceived ->
  carried iss stream closed (sg_sequence seg) (sg_flags seg) (sg_payload seg) ->
  rx_inv iss stream closed d (fst (on_segment_open c seg now)).
Proof using Hiss Hbound.
  intros Hrx Hns Hcar. unfold on_segment_open. destruct (has_flag _ TCP_FLAG_RST).
  { destruct (_ || _); [done |]. apply (rx_reset _ _ _ _ c); [done | done |]. by exists 0%nat. }
  case_bool_decide as Hs; [|by apply rx_synchronized].
  destruct (_ || _) eqn:Hg; [done |]. apply orb_false_iff in Hg as [Hfl _]. bool_cases.
  pose proof (acknowledge_fields c (sg_acknowledgment seg)) as (Hst & _ & Hn & Hb & _).
  destruct (acknowledge _ _) as [c1 [u|e|]]; cbn [fst snd] in *;
    [| apply (rx_same _ _ _ _ c); auto ..].
  assert (sg_sequence seg = iss) as Hseq.
  { destruct Hcar as [|? ? ? ?|? ? ? ? ? ?|? ? ? ? ?]; [done | exfalso ..];
      unfold has_flag in *; bool_cases;
      apply (f_equal (fun z => Z.land z TCP_FLAG_SYN)) in Hfl; rewrite <- Z.land_assoc in Hfl;
      change (Z.land SYN_ACK TCP_FLAG_SYN) with TCP_FLAG_SYN in Hfl;
      rewrite H in Hfl; discriminate Hfl. }
  destruct Hrx as (_ & H2 & _). specialize (H2 Hs).
  unfold rx_inv. destruct (maximum_segment_size _); tc_simpl; rewrite Hb, H2;
    (split_and!; [by exists 0%nat; split; [lia |] | done | | intros Hx; no_state]);
    intros _; cbn [length]; rewrite Hseq; unfold wrapping_add32; f_equal; lia.
Qed.

Lemma trim_carried n seg :
  carried iss stream closed (sg_sequence seg) (sg_flags seg) (sg_payload seg) ->
  has_flag (sg_flags seg) TCP_FLAG_SYN = false ->
  carried iss stream closed (sg_sequence (trim_segment n seg)) (sg_flags (trim_segment n seg))
    (sg_payload (trim_segment n seg)).
Proof using Hbound.
  intros Hcar Hsyn. unfold trim_segment. destruct (sequence_before _ _); [|done].
  cbn [sg_sequence sg_flags sg_payload]. set (k := Nat.min _ _).
  assert (k <= length (sg_payload seg))%nat as Hk by (subst k; lia). clearbody k.
  destruct Hcar as [?|? ? ? Hp|o ? ? Hseq Hl Hp|? ? Hseq Hp Hc]; [congruence | | |].
  - rewrite Hp, drop_nil. apply C_empty; try done. apply wrapping_add32_range.
  - apply (C_data _ _ _ _ _ _ (o + k)); [done | done | | |].
    + rewrite Hseq. rewrite (wrap32_small (Z.of_nat k)) by (widths; lia). clear. seqlia.
    + rewrite length_drop. lia.
    + rewrite length_drop. rewrite Hp at 1. by rewrite skipn_firstn_comm, drop_drop.
  - rewrite Hp in *. cbn in Hk. assert (k = 0%nat) as -> by lia. rewrite drop_nil.
    apply C_fin; try done. rewrite Hseq. clear. seqlia.
Qed.

Lemma rx_segment c seg now :
  rx_inv iss stream closed d c ->
  carried iss stream closed (sg_sequence seg) (sg_flags seg) (sg_payload seg) ->
  rx_inv iss stream closed d (fst (on_segment c seg now)).
Proof using Hiss Hbound.
  intros Hrx Hcar. unfold on_segment. case_bool_decide as Hs; [|by apply rx_open]. unfold receive_passive.
  destruct (validate_segment _ _); [|done..]. destruct (has_flag _ TCP_FLAG_RST).
  { destruct (negb _); [done |]. apply (rx_reset _ _ _ _ c); [done | done |]. by exists 0%nat. }
  destruct (has_flag _ TCP_FLAG_SYN) eqn:Hsyn; [done |]. destruct (negb _); [done |]. destruct (_ || _); [done |].
  pose proof (acknowledge_fields c (sg_acknowledgment seg)) as (Hst & _ & Hn & Hb & _).
  destruct (acknowledge _ _) as [c1 [u|e|]]; cbn [fst snd] in *; [| apply (rx_same _ _ _ _ c); auto ..].
  set (c2 := set_peer_window (set_state c1 Established) (sg_window seg)).
  assert (rx_inv iss stream closed d c2) as H2.
  { destruct Hrx as (R1 & R2 & R3 & R4). unfold rx_inv. subst c2. tc_simpl. rewrite Hb, Hn.
    split_and!; [done | done | | intros Hx; no_state]. intros _. apply R3. rewrite Hs. set_solver. }
  pose proof (rx_open c2 (trim_segment (tc_receive_next c2) seg) now H2 ltac:(done)
    (trim_carried _ _ Hcar Hsyn)) as H3.
  destruct (on_segment_open _ _ _) as [c3 r]. exact H3.
Qed.
End Receiver.

(** ** The system *)

(** What travels: a transmission with the ports the sender's driver puts on it. *)
Definition segment_of (source_port destination_port : Z) (t : TcpTransmit) : TcpSegment :=
  {| sg_source_port := source_port; sg_destination_port := destination_port; sg_sequence := tx_sequence t;
     sg_acknowledgment := tx_acknowledgment t; sg_flags := tx_flags t; sg_window := tx_window t;
     sg_urgent_pointer := 0; sg_options := tx_options t; sg_payload := tx_payload t |}.

Record system := {
  sy_sender : TcpConnection;
  sy_queued : list Z;             (** everything the sending application queued *)
  sy_sent : list TcpTransmit;     (** everything ever put on the network *)
  sy_receiver : option TcpConnection;
  sy_read : list Z;               (** everything the receiving application read *)
}.

(** Other operations of a connection, which send nothing and accept no data to send. *)
Definition other_op (o : tcp_op) : Prop :=
  match o with OClose | OTick _ | OAbort => True | _ => False end.

Inductive sys_step : system -> system -> Prop :=
  | S_queue s b : snd (queue_send (sy_sender s) b) = Ok tt ->
      sys_step s {| sy_sender := fst (queue_send (sy_sender s) b); sy_queued := sy_queued s ++ b;
                    sy_sent := sy_sent s; sy_receiver := sy_receiver s; sy_read := sy_read s |}
  | S_poll s now :
      sys_step s {| sy_sender := fst (poll_transmit (sy_sender s) now); sy_queued := sy_queued s;
                    sy_sent := match snd (poll_transmit (sy_sender s) now) with
                               | Ok (Some t) => t :: sy_sent s | _ => sy_sent s end;
                    sy_receiver := sy_receiver s; sy_read := sy_read s |}
  | S_ack s :
      sys_step s {| sy_sender := sy_sender s; sy_queued := sy_queued s;
                    sy_sent := acknowledgment (sy_sender s) :: sy_sent s;
                    sy_receiver := sy_receiver s; sy_read := sy_read s |}
  | S_sender_segment s seg now : sg_wf seg ->
      sys_step s {| sy_sender := fst (on_segment (sy_sender s) seg now); sy_queued := sy_queued s;
                    sy_sent := sy_sent s; sy_receiver := sy_receiver s; sy_read := sy_read s |}
  | S_sender_read s out :
      sys_step s {| sy_sender := fst (receive (sy_sender s) out); sy_queued := sy_queued s;
                    sy_sent := sy_sent s; sy_receiver := sy_receiver s; sy_read := sy_read s |}
  | S_sender_other s o : other_op o ->
      sys_step s {| sy_sender := tcp_step (sy_sender s) o; sy_queued := sy_queued s;
                    sy_sent := sy_sent s; sy_receiver := sy_receiver s; sy_read := sy_read s |}
  | S_connect s reserve h o t iss mss sc rc rto rl b : sy_receiver s = None ->
      try_connect reserve h o t iss mss sc rc rto rl = Ok b ->
      sys_step s {| sy_sender := sy_sender s; sy_queued := sy_queued s; sy_sent := sy_sent s;
                    sy_receiver := Some b; sy_read := sy_read s |}
  | S_accept s reserve h o t iss cfg sp dp tx b : sy_receiver s = None -> tx ∈ sy_sent s ->
      accept_syn reserve h o t iss cfg (segment_of sp dp tx) = Ok b ->
      sys_step s {| sy_sender := sy_sender s; sy_queued := sy_queued s; sy_sent := sy_sent s;
                    sy_receiver := Some b; sy_read := sy_read s |}
  | S_deliver s b sp dp tx now : sy_receiver s = Some b -> tx ∈ sy_sent s ->
      sys_step s {| sy_sender := sy_sender s; sy_queued := sy_queued s; sy_sent := sy_sent s;
                    sy_receiver := Some (fst (on_segment b (segment_of sp dp tx) now)); sy_read := sy_read s |}
  | S_read s b out : sy_receiver s = Some b ->
      sys_step s {| sy_sender := sy_sender s; sy_queued := sy_queued s; sy_sent := sy_sent s;
                    sy_receiver := Some (fst (receive b out));
                    sy_read := sy_read s ++ take (fst (snd (receive b out))) (snd (snd (receive b out))) |}
  | S_receiver_queue s b data : sy_receiver s = Some b ->
      sys_step s {| sy_sender := sy_sender s; sy_queued := sy_queued s; sy_sent := sy_sent s;
                    sy_receiver := Some (fst (queue_send b data)); sy_read := sy_read s |}
  | S_receiver_poll s b now : sy_receiver s = Some b ->
      sys_step s {| sy_sender := sy_sender s; sy_queued := sy_queued s; sy_sent := sy_sent s;
                    sy_receiver := Some (fst (poll_transmit b now)); sy_read := sy_read s |}
  | S_receiver_other s b o : sy_receiver s = Some b -> other_op o ->
      sys_step s {| sy_sender := sy_sender s; sy_queued := sy_queued s; sy_sent := sy_sent s;
                    sy_receiver := Some (tcp_step b o); sy_read := sy_read s |}.

Definition sys_init (a : TcpConnection) : system :=
  {| sy_sender := a; sy_queued := []; sy_sent := []; sy_receiver := None; sy_read := [] |}.

Definition sys_inv (iss : Z) (s : system) : Prop :=
  tcp_inv (sy_sender s) /\ tx_inv iss (sy_queued s) (sy_sender s) /\
  (forall t, t ∈ sy_sent s ->
     carried iss (sy_queued s) (is_closed (sy_sender s)) (tx_sequence t) (tx_flags t) (tx_payload t)) /\
  match sy_receiver s with
  | Some b => rx_inv iss (sy_queued s) (is_closed (sy_sender s)) (sy_read s) b
  | None => sy_read s = []
  end.

(** ** Other operations of the two sides *)

Lemma tx_other iss stream c o : tx_inv iss stream c -> other_op o -> tx_inv iss stream (tcp_step c o).
Proof.
  intros Hi Ho. destruct o as [| | | | |now| |]; try done; cbn [tcp_step].
  - unfold request_close. destruct (negb _); [done |]. by apply (tx_same _ _ c).
  - unfold tick. destruct (_ && _) eqn:E; [|done]. apply andb_true_iff in E as [E _]. bool_cases.
    apply (tx_keep _ _ c); try done; [|cbn; set_solver]. tc_simpl. rewrite E. by apply rtc_once, E_time_wait_over.
  - apply (tx_reset _ _ c); [done | done | cbn; set_solver | apply Hi].
Qed.

Lemma rx_other iss stream closed d c o :
  rx_inv iss stream closed d c -> other_op o -> rx_inv iss stream closed d (tcp_step c o).
Proof.
  intros Hi Ho. destruct o as [| | | | |now| |]; try done; cbn [tcp_step].
  - unfold request_close. destruct (negb _); [done |]. apply (rx_same _ _ _ _ c); auto.
  - unfold tick. destruct (_ && _); [|done]. apply (rx_same _ _ _ _ c); try done. right. left. cbn. set_solver.
  - apply (rx_reset _ _ _ _ c); [done | done |]. by exists 0%nat.
Qed.

Lemma rx_poll iss stream closed d c now :
  rx_inv iss stream closed d c -> rx_inv iss stream closed d (fst (poll_transmit c now)).
Proof.
  intros Hi. unfold poll_transmit. destruct (tc_outstanding c) as [|s others].
  - destruct (_ && negb _).
    { unfold poll_data. destruct (_ =? 0); [done |]. destruct (_ =? 0); [done |].
      rewrite pop_front_n_spec. apply (rx_same _ _ _ _ c); auto. }
    match goal with |- context [if ?b then poll_fin _ _ else _] => destruct b eqn:E2 end; [|done].
    apply andb_true_iff in E2 as [_ E2%state_in_spec]. unfold poll_fin.
    apply (rx_same _ _ _ _ c); try done. tc_simpl.
    in_states E2; rewrite E2; [right; right; left | right; right; right; done].
    split; [set_solver | cbn; set_solver].
  - unfold poll_outstanding. destruct (os_sent_at s).
    + destruct (_ <? _); [done |]. destruct (_ <=? _); [|apply (rx_same _ _ _ _ c); auto].
      apply (rx_reset _ _ _ _ c); [done | done |]. case_bool_decide; tc_simpl; [by exists 0%nat |].
      exists (length (tc_receive_buffer c)). by rewrite take_ge.
    + apply (rx_same _ _ _ _ c); auto.
Qed.

Lemma rx_read iss stream closed d c out :
  rx_inv iss stream closed d c ->
  rx_inv iss stream closed (d ++ take (fst (snd (receive c out))) (snd (snd (receive c out)))) (fst (receive c out)).
Proof.
  intros Hi. unfold receive. case_bool_decide; [cbn; by rewrite app_nil_r |].
  rewrite pop_front_n_spec. cbn [fst snd]. set (k := Nat.min _ _).
  assert (k <= length (tc_receive_buffer c))%nat as Hk by (subst k; lia). clearbody k.
  rewrite take_app_le, take_take, Nat.min_id by (rewrite length_take; lia).
  unfold rx_inv in *. tc_simpl. by rewrite <- app_assoc, take_drop.
Qed.

Lemma carried_mono iss stream closed closed' seq flags payload :
  (closed = true -> closed' = true) ->
  carried iss stream closed seq flags payload -> carried iss stream closed' seq flags payload.
Proof.
  intros Hc [? ? ? ?|? ? ? ?|o ? ? ? Hl Hp|]; [by apply C_syn | by apply C_empty | by eapply C_data | apply C_fin; auto].
Qed.

(** A step of the sender that queues nothing: the rest of the system only learns whether it closed. *)
Lemma sys_sender_step iss s a sent :
  sys_inv iss s -> tcp_inv a -> tx_inv iss (sy_queued s) a ->
  rtc tcp_edge (tc_state (sy_sender s)) (tc_state a) ->
  (forall t, t ∈ sent -> t ∈ sy_sent s \/
     carried iss (sy_queued s) (is_closed a) (tx_sequence t) (tx_flags t) (tx_payload t)) ->
  sys_inv iss {| sy_sender := a; sy_queued := sy_queued s; sy_sent := sent;
                 sy_receiver := sy_receiver s; sy_read := sy_read s |}.
Proof.
  intros (_ & _ & Hsent & Hrx) Ha Htx He Hnew. pose proof (closed_mono _ _ He) as Hc.
  split_and!; cbn; [done | done | |].
  - intros t Ht. destruct (Hnew t Ht) as [Hold|Hn]; [|done]. by eapply carried_mono, Hsent.
  - destruct (sy_receiver s); [|done]. by eapply rx_close.
Qed.

Lemma sys_receiver_step iss s b d :
  sys_inv iss s -> rx_inv iss (sy_queued s) (is_closed (sy_sender s)) d b ->
  sys_inv iss {| sy_sender := sy_sender s; sy_queued := sy_queued s; sy_sent := sy_sent s;
                 sy_receiver := Some b; sy_read := d |}.
Proof. intros (? & ? & ? & _) Hrx. done. Qed.

Lemma rx_new iss stream closed b :
  tc_receive_buffer b = [] -> tc_state b ∈ syn_states ->
  (tc_state b = SynReceived -> tc_receive_next b = wrap32 (iss + 1)) -> rx_inv iss stream closed [] b.
Proof.
  intros Hb Hs Hr. unfold rx_inv. rewrite Hb. cbn [app length]. split_and!.
  - exists 0%nat. split; [lia | done].
  - done.
  - intros Hx. rewrite Z.add_0_r. apply Hr. in_states Hx; try done; no_state.
  - intros Hx. no_state.
Qed.

Lemma accept_syn_receiver reserve h o t iss cfg seg b :
  accept_syn reserve h o t iss cfg seg = Ok b ->
  is_syn (sg_flags seg) = true /\ tc_state b = SynReceived /\ tc_receive_buffer b = sg_payload seg /\
  tc_receive_next b = wrap32 (sg_sequence seg + 1 + Z.of_nat (length (sg_payload seg))).
Proof.
  unfold accept_syn, validate_syn. destruct (validate_segment t seg); [|done..].
  destruct (is_syn (sg_flags seg)); cbn [negb]; [|done].
  destruct (_ || _); [done |]. destruct (_ <? _); [done |]. destruct (negb _); [done |].
  destruct (negb _); [done |]. destruct (negb _); [done |]. intros [= <-]. tc_simpl. split_and!; try done.
  unfold len32. seqlia.
Qed.

Lemma is_syn_flag flags : is_syn flags = true -> has_flag flags TCP_FLAG_SYN = true.
Proof.
  unfold is_syn, has_flag. intros H. bool_cases.
  destruct (Z.eqb_spec (Z.land flags TCP_FLAG_SYN) 0) as [Hz|]; [|done]. exfalso.
  apply (f_equal (fun z => Z.land z TCP_FLAG_SYN)) in H. rewrite <- Z.land_assoc in H.
  change (Z.land (not16 TCP_FLAG_PSH) TCP_FLAG_SYN) with TCP_FLAG_SYN in H. by rewrite Hz in H.
Qed.

Lemma sys_step_inv iss s s' :
  sys_step s s' -> Z.of_nat (length (sy_queued s)) <= 4294967293 -> sys_inv iss s -> sys_inv iss s'.
Proof.
  intros Hstep Hb Hinv. pose proof Hinv as (Ha & Htx & Hsent & Hrx).
  destruct Hstep as [s b Hq|s now|s|s seg now Hwf|s out|s o Ho
    |s rs h o t i mss sc rc rto rl b Hn Hc|s rs h o t i cfg sp dp tx b Hn Hin Hc|s b sp dp tx now Hs Hin
    |s b out Hs|s b data Hs|s b now Hs|s b o Hs Ho].
  - pose proof (tx_queue iss (sy_queued s) (sy_sender s) b Htx Hq) as Htx'.
    assert (is_closed (sy_sender s) = false /\ is_closed (fst (queue_send (sy_sender s) b)) = false) as [Hc Hc'].
    { unfold queue_send in *. destruct (negb (state_in _ _)) eqn:Hst; [done |]. destruct (_ <? _); [done |].
      apply negb_false_iff, state_in_spec in Hst. unfold is_closed. tc_simpl. in_states Hst; by rewrite Hst. }
    rewrite Hc in *. split_and!; cbn [sy_sender sy_queued sy_sent sy_receiver sy_read].
    + by apply queue_send_inv.
    + done.
    + intros t Ht. rewrite Hc'. by apply carried_grow, Hsent.
    + rewrite Hc'. destruct (sy_receiver s); [by apply rx_grow | done].
  - pose proof (tx_poll iss (sy_queued s) (sy_sender s) now Ha Htx) as Hp.
    pose proof (poll_transmit_inv (sy_sender s) now Ha) as Hi.
    pose proof (poll_transmit_edge (sy_sender s) now) as He.
    destruct (poll_transmit (sy_sender s) now) as [a r]. destruct Hp as [Htx' Hp]. cbn [fst snd] in *.
    apply sys_sender_step; try done. intros t Ht. destruct r as [[t'|]| |]; auto.
    apply elem_of_cons in Ht as [->|Ht]; auto.
  - apply sys_sender_step; try done. intros t [->|Ht]%elem_of_cons; auto. right. by apply acknowledgment_carried.
  - apply sys_sender_step; auto; [by apply on_segment_inv | by apply tx_segment | apply on_segment_edge].
  - apply sys_sender_step; auto; [by apply receive_inv | | apply (tcp_step_edge (sy_sender s) (OReceive out))].
    unfold receive. case_bool_decide; [done |]. rewrite pop_front_n_spec. by apply (tx_same _ _ (sy_sender s)).
  - apply sys_sender_step; auto; [apply tcp_step_inv; [done |]; by destruct o | by apply tx_other | apply tcp_step_edge].
  - apply sys_receiver_step; [done |]. rewrite Hn in Hrx. rewrite Hrx. unfold try_connect in Hc.
    repeat (case_match; try done). simplify_eq. apply rx_new; tc_simpl; [done | set_solver | done].
  - apply sys_receiver_step; [done |]. rewrite Hn in Hrx. rewrite Hrx.
    destruct (accept_syn_receiver _ _ _ _ _ _ _ _ Hc) as (Hsyn & Hst & Hbuf & Hrn).
    apply is_syn_flag in Hsyn. cbn in Hsyn, Hbuf, Hrn.
    destruct (Hsent tx Hin) as [? ? Hseq Hp|?|?|?]; try congruence.
    rewrite Hp in *. cbn in Hrn. apply rx_new; [done | rewrite Hst; set_solver |].
    intros _. rewrite Hrn, Hseq. f_equal. lia.
  - apply sys_receiver_step; [done |]. rewrite Hs in Hrx. apply rx_segment; try done; [apply Htx | by apply Hsent].
  - apply sys_receiver_step; [done |]. rewrite Hs in Hrx. by apply rx_read.
  - apply sys_receiver_step; [done |]. rewrite Hs in Hrx. unfold queue_send.
    destruct (negb _); [done |]. destruct (_ <? _); [done |]. apply (rx_same _ _ _ _ b); auto.
  - apply sys_receiver_step; [done |]. rewrite Hs in Hrx. by apply rx_poll.
  - apply sys_receiver_step; [done |]. rewrite Hs in Hrx. by apply rx_other.
Qed.

Lemma sys_step_queued s s' : sys_step s s' -> (length (sy_queued s) <= length (sy_queued s'))%nat.
Proof. destruct 1; cbn; rewrite ?length_app; lia. Qed.

Lemma sys_reachable_inv iss a s :
  new_connection iss a -> rtc sys_step (sys_init a) s ->
  Z.of_nat (length (sy_queued s)) <= 4294967293 -> sys_inv iss s.
Proof.
  intros Hnew. destruct (new_connection_inv iss a Hnew) as [Hf Hi]. revert s.
  apply (rtc_ind_r (fun s => Z.of_nat (length (sy_queued s)) <= 4294967293 -> sys_inv iss s)).
  - intros _. unfold sys_inv, sys_init. cbn. split_and!; [done | apply tx_fresh; [apply Hnew | done] | | done].
    by intros t ?%not_elem_of_nil.
  - intros s s' _ Hstep IH Hb. pose proof (sys_step_queued s s' Hstep).
    apply (sys_step_inv iss s s' Hstep); [lia |]. apply IH. lia.
Qed.

(** ** Claim *)

(** C1: Whatever the network loses, duplicates, delays or reorders, and whatever the two sides do: the bytes
    that the receiving application has read, followed by those waiting in its connection, are
    a prefix of the bytes that the sending application queued, as long as these
    are fewer than 2^32 - 2; and once the receiver has seen the end of the stream they are all of
    them. *)
Theorem tcp_stream_delivery iss a s b
    (Hnew : new_connection iss a) (Hreach : rtc sys_step (sys_init a) s)
    (Hb : sy_receiver s = Some b) (Hbound : Z.of_nat (length (sy_queued s)) <= 4294967293) :
  sy_read s ++ tc_receive_buffer b `prefix_of` sy_queued s /\
  (tc_state b ∈ [CloseWait; LastAck; TimeWait] -> sy_read s ++ tc_receive_buffer b = sy_queued s).
Proof.
  destruct (sys_reachable_inv iss a s Hnew Hreach Hbound) as (_ & _ & _ & Hrx). rewrite Hb in Hrx.
  destruct Hrx as ((n & Hn & Hgot) & _ & _ & H4). split.
  - rewrite Hgot. exists (drop n (sy_queued s)). by rewrite take_drop.
  - by intros (_ & ? & _)%H4.
Qed.

Lemma head_elem {A} (l : list A) x : head l = Some x -> x ∈ l.
Proof. destruct l; [done |]. intros [= ->]. apply list_elem_of_here. Qed.

Definition demo_config : TcpListenConfig :=
  {| lc_backlog := 1; lc_local_mss := 1460; lc_send_capacity := 64; lc_receive_capacity := 64;
     lc_retransmit_timeout := 100; lc_retry_limit := 3 |}.

Definition peer_tuple : TcpTuple :=
  {| tt_local_address := [10; 0; 2; 2]; tt_local_port := 80;
     tt_remote_address := [10; 0; 2; 15]; tt_remote_port := 49152 |}.

(** A run, state by state: the SYN is sent and accepted, the answer arrives, data is queued, sent, delivered and
    partly read. *)
Definition run_sender (s : system) (a : TcpConnection) (queued : list Z) (sent : list TcpTransmit) : system :=
  {| sy_sender := a; sy_queued := queued; sy_sent := sent; sy_receiver := sy_receiver s; sy_read := sy_read s |}.
Definition run_poll (s : system) (now : Z) : system :=
  run_sender s (fst (poll_transmit (sy_sender s) now)) (sy_queued s)
    (match snd (poll_transmit (sy_sender s) now) with Ok (Some t) => t :: sy_sent s | _ => sy_sent s end).
Definition run_receiver (s : system) (b : option TcpConnection) (d : list Z) : system :=
  {| sy_sender := sy_sender s; sy_queued := sy_queued s; sy_sent := sy_sent s; sy_receiver := b; sy_read := d |}.
Definition last_sent (s : system) : TcpTransmit := default (acknowledgment (sy_sender s)) (head (sy_sent s)).

Definition run1 : system := Eval vm_compute in run_poll (sys_init demo_connection) 0.
Definition accepted : TcpConnection := Eval vm_compute in
  match accept_syn (fun n => n <=? 4096) 9 8 peer_tuple 1000 demo_config (segment_of 49152 80 (last_sent run1)) with
  | Ok b => b | _ => demo_connection end.
Definition run2 : system := Eval vm_compute in run_receiver run1 (Some accepted) [].
Definition run3 : system := Eval vm_compute in
  run_sender run2 (fst (on_segment (sy_sender run2) demo_syn_ack 5)) [] (sy_sent run2).
Definition run4 : system := Eval vm_compute in
  run_sender run3 (fst (queue_send (sy_sender run3) [1; 2; 3; 4; 5])) [1; 2; 3; 4; 5] (sy_sent run3).
Definition run5 : system := Eval vm_compute in run_poll run4 6.
Definition delivered : TcpConnection := Eval vm_compute in
  fst (on_segment accepted (segment_of 49152 80 (last_sent run5)) 7).
Definition run6 : system := Eval vm_compute in run_receiver run5 (Some delivered) [].
Definition reader : TcpConnection := Eval vm_compute in fst (receive delivered [0; 0]).
Definition run7 : system := Eval vm_compute in run_receiver run6 (Some reader) [1; 2].

Lemma run_reachable : rtc sys_step (sys_init demo_connection) run7.
Proof.
  apply (rtc_l _ _ run1). { exact (S_poll (sys_init demo_connection) 0). }
  apply (rtc_l _ _ run2).
  { apply (S_accept run1 (fun n => n <=? 4096) 9 8 peer_tuple 1000 demo_config 49152 80 (last_sent run1) accepted);
      [reflexivity | apply head_elem; reflexivity | vm_compute; reflexivity]. }
  apply (rtc_l _ _ run3). { exact (S_sender_segment run2 demo_syn_ack 5 demo_syn_ack_wf). }
  apply (rtc_l _ _ run4).
  { assert (snd (queue_send (sy_sender run3) [1; 2; 3; 4; 5]) = Ok tt) as H by (vm_compute; reflexivity).
    exact (S_queue run3 [1; 2; 3; 4; 5] H). }
  apply (rtc_l _ _ run5). { exact (S_poll run4 6). }
  apply (rtc_l _ _ run6).
  { assert (last_sent run5 ∈ sy_sent run5) as H by (apply head_elem; reflexivity).
    exact (S_deliver run5 accepted 49152 80 (last_sent run5) 7 eq_refl H). }
  apply (rtc_l _ _ run7). { exact (S_read run6 delivered [0; 0] eq_refl). }
  apply rtc_refl.
Qed.

Lemma tcp_stream_delivery_witness :
  sy_queued run7 = [1; 2; 3; 4; 5] /\ sy_read run7 = [1; 2] /\ tc_receive_buffer reader = [3; 4] /\
  sy_read run7 ++ tc_receive_buffer reader `prefix_of` sy_queued run7.
Proof.
  split; [reflexivity |]. split; [reflexivity |]. split; [reflexivity |].
  apply (tcp_stream_delivery 4294967295 demo_connection run7 reader demo_connection_new run_reachable);
    [reflexivity | cbn; lia].
Defined.
