(* ===== verification/TcpTable.v ===== *)
(** * The TCP connection table ([network-stack/src/tcp.rs], table part, and the table part
    of [network-stack/src/tcp/passive.rs])

    Connections and listeners are kept in the order of the vectors.  [get_mut]
    and [find_tuple_mut], which hand out a reference, return the position and the connection found
    there; the caller writes back with [put_connection].  The two [unwrap]s of the code are
    panics of the model. *)

From S2P Require Import Prelude Packet TcpSegment TcpConn.

(** ** The code *)

Definition TCP_EPHEMERAL_START : Z := 49152.
Definition TCP_EPHEMERAL_END : Z := 65535.

Record Listener := {
  ls_handle : Z;
  ls_owner : Z;
  ls_address : list Z;
  ls_port : Z;
  ls_config : TcpListenConfig;
  ls_pending : list Z;
  ls_ready : list Z;
}.

Definition set_pending (l : Listener) (pending ready : list Z) : Listener :=
  {| ls_handle := ls_handle l; ls_owner := ls_owner l; ls_address := ls_address l; ls_port := ls_port l;
     ls_config := ls_config l; ls_pending := pending; ls_ready := ready |}.

Record TcpConnectionTable := {
  tb_connections : list TcpConnection;
  tb_listeners : list Listener;
  tb_capacity : Z;
}.

Definition TcpConnectionTable_new (capacity : Z) : TcpConnectionTable :=
  {| tb_connections := []; tb_listeners := []; tb_capacity := capacity |}.

Definition with_connections (t : TcpConnectionTable) (cs : list TcpConnection) : TcpConnectionTable :=
  {| tb_connections := cs; tb_listeners := tb_listeners t; tb_capacity := tb_capacity t |}.
Definition with_listeners (t : TcpConnectionTable) (ls : list Listener) : TcpConnectionTable :=
  {| tb_connections := tb_connections t; tb_listeners := ls; tb_capacity := tb_capacity t |}.
Definition put_connection (t : TcpConnectionTable) (i : nat) (c : TcpConnection) : TcpConnectionTable :=
  with_connections t (<[i := c]> (tb_connections t)).

(** [matches!(state, Closed | Reset)]. *)
Definition is_dead (c : TcpConnection) : bool := state_in (tc_state c) [Closed; Reset].

Definition TCP_PORT_RANGE : Z := TCP_EPHEMERAL_END - TCP_EPHEMERAL_START + 1.

Definition port_free (self : TcpConnectionTable) (port : Z) : bool :=
  negb (existsb (fun l => ls_port l =? port) (tb_listeners self))
  && negb (existsb (fun c => (tt_local_port (tc_tuple c) =? port) && negb (bool_decide (tc_state c = Closed)))
             (tb_connections self)).

(** [for offset in 0..range]. *)
Fixpoint allocate_port_loop (self : TcpConnectionTable) (first : Z) (offset : Z) (count : nat)
    : result TcpConnectionError Z :=
  match count with
  | O => Err PortUnavailable
  | S count =>
      let port := TCP_EPHEMERAL_START + (first - TCP_EPHEMERAL_START + offset) mod TCP_PORT_RANGE in
      if port_free self port then Ok port else allocate_port_loop self first (offset + 1) count
  end.

Definition allocate_port (self : TcpConnectionTable) (seed : Z) : result TcpConnectionError Z :=
  let first := TCP_EPHEMERAL_START + seed mod TCP_PORT_RANGE in
  allocate_port_loop self first 0 (Z.to_nat TCP_PORT_RANGE).

Definition row_count (self : TcpConnectionTable) : Z :=
  Z.of_nat (length (tb_connections self) + length (tb_listeners self)).

Definition tcp_insert (self : TcpConnectionTable) (connection : TcpConnection)
    : TcpConnectionTable * result TcpConnectionError unit :=
  if tb_capacity self <=? row_count self then (self, Err TcpCapacity) else
  if existsb (fun l => ls_handle l =? tc_handle connection) (tb_listeners self)
     || existsb (fun e => (tc_handle e =? tc_handle connection)
                          || (bool_decide (tc_tuple e = tc_tuple connection) && negb (is_dead e)))
          (tb_connections self)
  then (self, Err TcpCapacity)
  else (with_connections self (tb_connections self ++ [connection]), Ok tt).

Definition get_mut (self : TcpConnectionTable) (handle owner : Z)
    : result TcpConnectionError (nat * TcpConnection) :=
  let? (i, c) := ok_or (list_find (fun c => tc_handle c = handle) (tb_connections self)) NotFound in
  if negb (tc_owner c =? owner) then Err Ownership else Ok (i, c).

Definition live_with (tuple : TcpTuple) (c : TcpConnection) : Prop := tc_tuple c = tuple /\ is_dead c = false.

#[export] Instance live_with_dec tuple c : Decision (live_with tuple c).
Proof. unfold live_with. apply _. Defined.

Definition find_tuple_mut (self : TcpConnectionTable) (tuple : TcpTuple) : option (nat * TcpConnection) :=
  list_find (live_with tuple) (tb_connections self).

(** [u64::rotate_left]. *)
Definition rotate_left64 (z : Z) (n : Z) : Z :=
  Z.lor (wrap64 (Z.shiftl z n)) (Z.shiftr z (64 - n)).

Definition handle_used (self : TcpConnectionTable) (candidate : Z) : bool :=
  existsb (fun l => ls_handle l =? candidate) (tb_listeners self)
  || existsb (fun c => tc_handle c =? candidate) (tb_connections self).

Fixpoint allocate_handle_loop (self : TcpConnectionTable) (candidate : Z) (count : nat)
    : result TcpConnectionError Z :=
  match count with
  | O => Err TcpCapacity
  | S count =>
      if negb (handle_used self candidate) then Ok candidate
      else allocate_handle_loop self
             (Z.max (wrapping_add64 (rotate_left64 candidate 17) 11400714819323198485) 1) count
  end.

(** [for _ in 0..=self.capacity]. *)
Definition allocate_handle (self : TcpConnectionTable) (seed : Z) : result TcpConnectionError Z :=
  allocate_handle_loop self (Z.max seed 1) (S (Z.to_nat (tb_capacity self))).

Definition keys (self : TcpConnectionTable) : list (Z * Z) :=
  (fun c => (tc_handle c, tc_owner c)) <$> tb_connections self.

Definition abort_all (self : TcpConnectionTable) : TcpConnectionTable :=
  with_connections self (abort <$> tb_connections self).

Definition clear (self : TcpConnectionTable) : TcpConnectionTable :=
  {| tb_connections := []; tb_listeners := []; tb_capacity := tb_capacity self |}.

(** [slice.contains(&handle)]. *)
Definition contains (l : list Z) (h : Z) : bool := bool_decide (h ∈ l).

Definition prune_pending (self : TcpConnectionTable) : TcpConnectionTable :=
  let connections :=
    List.filter (fun c => negb (is_dead c)
                  || negb (existsb (fun l => contains (ls_pending l) (tc_handle c)) (tb_listeners self)))
      (tb_connections self) in
  let listeners :=
    (fun l =>
       let pending := List.filter (fun h => existsb (fun c => (tc_handle c =? h) && negb (is_dead c)) connections)
                        (ls_pending l) in
       set_pending l pending (List.filter (contains pending) (ls_ready l))) <$> tb_listeners self in
  {| tb_connections := connections; tb_listeners := listeners; tb_capacity := tb_capacity self |}.

Definition remove (self : TcpConnectionTable) (handle owner : Z) : TcpConnectionTable :=
  prune_pending (with_connections self
    (List.filter (fun c => negb (tc_handle c =? handle) || negb (tc_owner c =? owner)) (tb_connections self))).

Definition remove_closed_if (self : TcpConnectionTable) (owner : Z -> bool) : TcpConnectionTable :=
  prune_pending (with_connections self
    (List.filter (fun c => negb (is_dead c) || negb (owner (tc_owner c))) (tb_connections self))).

Definition remove_closed (self : TcpConnectionTable) : TcpConnectionTable := remove_closed_if self (fun _ => true).

Definition ANY : list Z := replicate 4 0.

Definition addresses_overlap (address other : list Z) : bool :=
  bool_decide (address = ANY) || bool_decide (other = ANY) || bool_decide (address = other).

Definition local_port_in_use (self : TcpConnectionTable) (address : list Z) (port : Z) : bool :=
  existsb (fun l => (ls_port l =? port) && addresses_overlap address (ls_address l)) (tb_listeners self)
  || existsb (fun c => (tt_local_port (tc_tuple c) =? port) && negb (is_dead c)
                       && addresses_overlap address (tt_local_address (tc_tuple c))) (tb_connections self).

Definition table_len (self : TcpConnectionTable) : nat := length (tb_connections self).
Definition table_is_empty (self : TcpConnectionTable) : bool := bool_decide (tb_connections self = []).

(** ** Listeners *)

Definition listens_for (tuple : TcpTuple) (l : Listener) : Prop :=
  ls_port l = tt_local_port tuple /\ (ls_address l = tt_local_address tuple \/ ls_address l = ANY).

#[export] Instance listens_for_dec tuple l : Decision (listens_for tuple l).
Proof. unfold listens_for. apply _. Defined.

Definition matching_listener (self : TcpConnectionTable) (tuple : TcpTuple) : option (nat * Listener) :=
  list_find (listens_for tuple) (tb_listeners self).

Definition admit_syn (self : TcpConnectionTable) (tuple : TcpTuple) (payload_length : Z)
    : TcpConnectionTable * result TcpConnectionError unit :=
  let self := prune_pending self in
  (self,
   let? (_, listener) := ok_or (matching_listener self tuple) NotFound in
   if (lc_backlog (ls_config listener) <=? Z.of_nat (length (ls_pending listener)))
      || (tb_capacity self <=? row_count self)
   then Err TcpCapacity else
   if lc_receive_capacity (ls_config listener) <? payload_length then Err ReceiveBufferFull else Ok tt).

Definition find_listener (self : TcpConnectionTable) (handle : Z) : option (nat * Listener) :=
  list_find (fun l => ls_handle l = handle) (tb_listeners self).

Section Allocator.
Variable try_reserve : Z -> bool.

Definition listen (self : TcpConnectionTable) (handle owner : Z) (address : list Z) (port : Z)
    (config : TcpListenConfig) : TcpConnectionTable * result TcpConnectionError unit :=
  if (port =? 0) || (handle =? 0) || (lc_backlog config =? 0) || (lc_local_mss config =? 0)
  then (self, Err InvalidState) else
  if (tb_capacity self <=? row_count self)
     || existsb (fun c => tc_handle c =? handle) (tb_connections self)
     || existsb (fun l => ls_handle l =? handle) (tb_listeners self)
  then (self, Err TcpCapacity) else
  if existsb (fun l => (ls_port l =? port)
                && (bool_decide (ls_address l = address) || bool_decide (ls_address l = ANY)
                    || bool_decide (address = ANY))) (tb_listeners self)
  then (self, Err PortUnavailable) else
  if negb (try_reserve 1) then (self, Err TcpCapacity) else
  (with_listeners self (tb_listeners self ++
     [{| ls_handle := handle; ls_owner := owner; ls_address := address; ls_port := port;
         ls_config := config; ls_pending := []; ls_ready := [] |}]), Ok tt).

(** The tail of [receive_syn], on the table that [admit_syn] pruned. *)
Definition receive_new_syn (self : TcpConnectionTable) (handle : Z) (tuple : TcpTuple)
    (segment : TcpSegment) (initial_sequence : Z) : TcpConnectionTable * result TcpConnectionError Z :=
  match matching_listener self tuple with
  | None => (self, Err NotFound)
  | Some (_, listener) =>
      if negb (try_reserve 1) then (self, Err TcpCapacity) else
      match accept_syn try_reserve handle (ls_owner listener) tuple initial_sequence (ls_config listener) segment with
      | Err e => (self, Err e)
      | Panic => (self, Panic)
      | Ok connection =>
          match tcp_insert self connection with
          | (self, Ok _) =>
              match find_listener self (ls_handle listener) with
              | None => (self, Panic)
              | Some (i, l) =>
                  (with_listeners self
                     (<[i := set_pending l (ls_pending l ++ [handle]) (ls_ready l)]> (tb_listeners self)), Ok handle)
              end
          | (self, Err e) => (self, Err e)
          | (self, Panic) => (self, Panic)
          end
      end
  end.

Definition receive_syn (self : TcpConnectionTable) (handle : Z) (tuple : TcpTuple) (segment : TcpSegment)
    (initial_sequence : Z) : TcpConnectionTable * result TcpConnectionError Z :=
  match validate_syn tuple segment with
  | Err e => (self, Err e)
  | Panic => (self, Panic)
  | Ok _ =>
      match find_tuple_mut self tuple with
      | Some (i, connection) =>
          let '(connection, r) := on_segment connection segment 0 in
          (put_connection self i connection, let? _ := r in Ok (tc_handle connection))
      | None =>
          match admit_syn self tuple (Z.of_nat (length (sg_payload segment))) with
          | (self, Ok _) => receive_new_syn self handle tuple segment initial_sequence
          | (self, Err e) => (self, Err e)
          | (self, Panic) => (self, Panic)
          end
      end
  end.

Definition waits_in (handle : Z) (l : Listener) : Prop := handle ∈ ls_pending l /\ handle ∉ ls_ready l.

#[export] Instance waits_in_dec h l : Decision (waits_in h l).
Proof. unfold waits_in. apply _. Defined.

Definition receive_segment (self : TcpConnectionTable) (tuple : TcpTuple) (segment : TcpSegment) (now : Z)
    : TcpConnectionTable * result TcpConnectionError TcpReceiveResult :=
  match validate_segment tuple segment with
  | Err e => (self, Err e)
  | Panic => (self, Panic)
  | Ok _ =>
      match find_tuple_mut self tuple with
      | None => (self, Err NotFound)
      | Some (index, connection) =>
          let handle := tc_handle connection in
          let listener := list_find (waits_in handle) (tb_listeners self) in
          if match listener with Some _ => negb (try_reserve 1) | None => false end
          then (self, Err TcpCapacity) else
          let '(connection, res) := on_segment connection segment now in
          let self := put_connection self index connection in
          let self :=
            if state_in (tc_state connection) [Established; CloseWait] then
              match listener with
              | Some (j, l) =>
                  with_listeners self
                    (<[j := set_pending l (ls_pending l) (ls_ready l ++ [handle])]> (tb_listeners self))
              | None => self
              end
            else self in
          (self, res)
      end
  end.
End Allocator.

(** [accept], [listener_ready], [set_backlog] and [close_listener] start with the same lookup. *)
Definition owned_listener (self : TcpConnectionTable) (handle owner : Z)
    : result TcpConnectionError (nat * Listener) :=
  let? (i, l) := ok_or (find_listener self handle) NotFound in
  if negb (ls_owner l =? owner) then Err Ownership else Ok (i, l).

Definition accept (self : TcpConnectionTable) (listener owner : Z)
    : TcpConnectionTable * result TcpConnectionError (option (Z * TcpTuple)) :=
  match owned_listener self listener owner with
  | Err e => (self, Err e)
  | Panic => (self, Panic)
  | Ok (index, _) =>
      let self := prune_pending self in
      match tb_listeners self !! index with
      | None => (self, Panic)
      | Some l =>
          match ls_ready l with
          | [] => (self, Ok None)
          | handle :: ready =>
              match list_find (fun c => tc_handle c = handle) (tb_connections self) with
              | None => (self, Panic)
              | Some (_, connection) =>
                  (with_listeners self
                     (<[index := set_pending l (List.filter (fun id => negb (id =? handle)) (ls_pending l)) ready]>
                        (tb_listeners self)),
                   Ok (Some (handle, tc_tuple connection)))
              end
          end
      end
  end.

Definition listener_ready (self : TcpConnectionTable) (handle owner : Z)
    : TcpConnectionTable * result TcpConnectionError bool :=
  match owned_listener self handle owner with
  | Err e => (self, Err e)
  | Panic => (self, Panic)
  | Ok (index, _) =>
      let self := prune_pending self in
      match tb_listeners self !! index with
      | None => (self, Panic)
      | Some l => (self, Ok (negb (bool_decide (ls_ready l = []))))
      end
  end.

Definition set_backlog (self : TcpConnectionTable) (handle owner backlog : Z)
    : TcpConnectionTable * result TcpConnectionError unit :=
  match owned_listener self handle owner with
  | Err e => (self, Err e)
  | Panic => (self, Panic)
  | Ok (i, l) =>
      if backlog =? 0 then (self, Err InvalidState) else
      let cfg := ls_config l in
      (with_listeners self
         (<[i := {| ls_handle := ls_handle l; ls_owner := ls_owner l; ls_address := ls_address l;
                    ls_port := ls_port l;
                    ls_config := {| lc_backlog := backlog; lc_local_mss := lc_local_mss cfg;
                                    lc_send_capacity := lc_send_capacity cfg;
                                    lc_receive_capacity := lc_receive_capacity cfg;
                                    lc_retransmit_timeout := lc_retransmit_timeout cfg;
                                    lc_retry_limit := lc_retry_limit cfg |};
                    ls_pending := ls_pending l; ls_ready := ls_ready l |}]> (tb_listeners self)), Ok tt)
  end.

Definition close_listener (self : TcpConnectionTable) (handle owner : Z)
    : TcpConnectionTable * result TcpConnectionError unit :=
  match owned_listener self handle owner with
  | Err e => (self, Err e)
  | Panic => (self, Panic)
  | Ok (index, listener) =>
      let self := with_listeners self (swap_remove index (tb_listeners self)) in
      (with_connections self
         (List.filter (fun c => negb (contains (ls_pending listener) (tc_handle c))) (tb_connections self)), Ok tt)
  end.

Definition listener_count (self : TcpConnectionTable) : nat := length (tb_listeners self).
