(* ===== verification/TcpTableInv.v ===== *)
(** * Invariant of the TCP connection table

    Handles are unique over connections and listeners, live connections have
    distinct four-tuples, the number of rows stays within the capacity, and the two queues of a listener refer to
    connections of the table; hence the [unwrap]s of the code cannot fail. *)

From S2P Require Import Prelude Packet TcpSegment TcpConn TcpInvariant TcpTable.

Definition listener_ok (l : Listener) : Prop :=
  NoDup (ls_pending l) /\ NoDup (ls_ready l) /\ (forall h, h ∈ ls_ready l -> h ∈ ls_pending l) /\
  config_ok (ls_config l).

(** The part of the invariant that holds also between a removal and the pruning after it. *)
Definition table_weak (t : TcpConnectionTable) : Prop :=
  row_count t <= tb_capacity t /\
  NoDup ((tc_handle <$> tb_connections t) ++ (ls_handle <$> tb_listeners t)) /\
  (forall c1 c2, c1 ∈ tb_connections t -> c2 ∈ tb_connections t -> is_dead c1 = false -> is_dead c2 = false ->
     tc_tuple c1 = tc_tuple c2 -> tc_handle c1 = tc_handle c2) /\
  (forall l, l ∈ tb_listeners t -> listener_ok l) /\
  (forall l1 l2 h, l1 ∈ tb_listeners t -> l2 ∈ tb_listeners t -> h ∈ ls_pending l1 -> h ∈ ls_pending l2 ->
     ls_handle l1 = ls_handle l2) /\
  (forall l1 l2, l1 ∈ tb_listeners t -> l2 ∈ tb_listeners t -> ls_port l1 = ls_port l2 ->
     addresses_overlap (ls_address l1) (ls_address l2) = true -> ls_handle l1 = ls_handle l2) /\
  (forall c, c ∈ tb_connections t -> tcp_inv c).

Definition table_inv (t : TcpConnectionTable) : Prop :=
  table_weak t /\
  forall l h, l ∈ tb_listeners t -> h ∈ ls_pending l -> exists c, c ∈ tb_connections t /\ tc_handle c = h.

Ltac tb_simpl := cbn [with_connections with_listeners put_connection tb_connections tb_listeners tb_capacity
  set_pending ls_handle ls_owner ls_address ls_port ls_config ls_pending ls_ready] in *.

Lemma table_handles t :
  table_weak t -> NoDup (tc_handle <$> tb_connections t) /\ NoDup (ls_handle <$> tb_listeners t) /\
  forall c l, c ∈ tb_connections t -> l ∈ tb_listeners t -> tc_handle c <> ls_handle l.
Proof.
  intros (_ & Hn & _). apply NoDup_app in Hn as (H1 & H2 & H3). split_and!; [done | done |].
  intros c l Hc Hl Heq. apply (H2 (tc_handle c)); [by apply list_elem_of_fmap_2 |].
  rewrite Heq. by apply list_elem_of_fmap_2.
Qed.

(** ** Identity of a connection *)

Definition same_identity (c c' : TcpConnection) : Prop :=
  tc_handle c' = tc_handle c /\ tc_tuple c' = tc_tuple c /\ tc_owner c' = tc_owner c.

Lemma acknowledge_identity c ack : same_identity c (fst (acknowledge c ack)).
Proof. unfold acknowledge. by destruct (_ || _). Qed.

Lemma same_identity_trans a b c : same_identity a b -> same_identity b c -> same_identity a c.
Proof. unfold same_identity. intros (? & ? & ?) (? & ? & ?). split_and!; congruence. Qed.

Lemma on_segment_open_identity c seg now : same_identity c (fst (on_segment_open c seg now)).
Proof.
  unfold on_segment_open, on_segment_synchronized.
  destruct (has_flag _ TCP_FLAG_RST); [by destruct (_ || _) |]. case_bool_decide.
  - destruct (_ || _); [done |]. pose proof (acknowledge_identity c (sg_acknowledgment seg)) as H1.
    destruct (acknowledge _ _) as [c1 [u|e|]]; cbn [fst] in *; [|done..]. by destruct (maximum_segment_size _).
  - destruct (negb _); [done |].
    destruct (has_flag _ TCP_FLAG_SYN); [by destruct (is_duplicate_syn_ack _ _) |].
    destruct (negb _); [done |]. destruct (_ && _); [done |].
    assert (same_identity c (fst (on_ack c seg))) as H1.
    { unfold on_ack. destruct (negb _); [done |]. destruct (_ =? _); [done |].
      pose proof (acknowledge_identity c (sg_acknowledgment seg)) as H1.
      destruct (acknowledge _ _) as [c1 [u|e|]]; cbn [fst] in *; [|done..].
      destruct (_ && _); [done |]. by destruct (_ && _). }
    destruct (on_ack c seg) as [c1 [[early|res]|e|]]; cbn [fst] in *; try done.
    eapply same_identity_trans; [exact H1 |].
    assert (same_identity c1 (fst (on_payload c1 seg res))) as H2.
    { unfold on_payload. destruct (bool_decide _); [done |]. destruct (_ =? _); [by destruct (_ <? _) |].
      by destruct (sequence_before _ _). }
    destruct (on_payload c1 seg res) as [c2 [res2|e|]]; cbn [fst] in *; try done.
    eapply same_identity_trans; [exact H2 |]. unfold on_fin. destruct (negb _); [done |]. destruct (negb _); [done |].
    destruct (state_in _ _); [done |]. by destruct (bool_decide _).
Qed.

Lemma on_segment_identity c seg now : same_identity c (fst (on_segment c seg now)).
Proof.
  unfold on_segment. case_bool_decide; [|apply on_segment_open_identity]. unfold receive_passive.
  destruct (validate_segment _ _); [|done..]. destruct (has_flag _ TCP_FLAG_RST); [by destruct (negb _) |].
  destruct (has_flag _ TCP_FLAG_SYN); [done |]. destruct (negb _); [done |]. destruct (_ || _); [done |].
  pose proof (acknowledge_identity c (sg_acknowledgment seg)) as H1.
  destruct (acknowledge _ _) as [c1 [u|e|]]; cbn [fst] in *; [|done..].
  set (c2 := set_peer_window (set_state c1 Established) (sg_window seg)).
  pose proof (on_segment_open_identity c2 (trim_segment (tc_receive_next c2) seg) now) as H2.
  destruct (on_segment_open _ _ _) as [c3 r]. cbn [fst] in *.
  eapply same_identity_trans; [exact H1 |]. exact H2.
Qed.

Lemma tcp_step_identity c o : same_identity c (tcp_step c o).
Proof.
  destruct o as [b| |now|seg now|out|now| |]; cbn [tcp_step]; try done.
  - unfold queue_send. destruct (negb _); [done |]. by destruct (_ <? _).
  - unfold request_close. by destruct (negb _).
  - unfold poll_transmit. destruct (tc_outstanding c) as [|s others].
    + destruct (_ && negb _).
      { unfold poll_data. destruct (_ =? 0); [done |]. destruct (_ =? 0); [done |]. by rewrite pop_front_n_spec. }
      match goal with |- context [if ?b then poll_fin _ _ else _] => destruct b end; done.
    + unfold poll_outstanding. destruct (os_sent_at s); [|done]. destruct (_ <? _); [done |].
      destruct (_ <=? _); [|done]. cbn [fst]. by case_bool_decide.
  - apply on_segment_identity.
  - unfold receive. case_bool_decide; [done |]. by rewrite pop_front_n_spec.
  - unfold tick. by destruct (_ && _).
Qed.

(** The dead stay dead. *)
Lemma dead_edge c c' : rtc tcp_edge (tc_state c) (tc_state c') -> is_dead c = true -> is_dead c' = true.
Proof.
  unfold is_dead. generalize (tc_state c) (tc_state c'). intros s s' H.
  induction H as [|s1 s2 s3 He _ IH]; [done |]. intros Hd. apply IH. by destruct He.
Qed.

(** ** Preservation *)

Lemma put_connection_inv t i c c' :
  table_inv t -> tb_connections t !! i = Some c -> same_identity c c' ->
  (is_dead c = true -> is_dead c' = true) -> tcp_inv c' -> table_inv (put_connection t i c').
Proof.
  intros [Hw He] Hi (Hh & Ht & _) Hd Hinv. pose proof (table_handles t Hw) as (Hnd & _).
  pose proof Hw as (Hrow & Hn & Hlive & Hl & Hp & Hend & Hti).
  assert (forall x, x ∈ <[i := c']> (tb_connections t) -> x = c' \/ (x ∈ tb_connections t /\ tc_handle x <> tc_handle c)) as Hin.
  { intros x. by apply elem_of_insert_key. }
  assert (c ∈ tb_connections t) as Hc by (by eapply list_elem_of_lookup_2).
  split.
  - unfold table_weak, row_count. tb_simpl. rewrite length_insert, (fmap_insert_same tc_handle _ i c) by done.
    split_and!; try done.
    + intros c1 c2 [->|[H1 _]]%Hin [->|[H2 _]]%Hin Hd1 Hd2 Heq; try done.
      * rewrite Hh. apply (Hlive c c2); try done; [|congruence]. by destruct (is_dead c) eqn:E; [rewrite Hd in Hd1 |].
      * rewrite Hh. apply (Hlive c1 c); try done; [|congruence]. by destruct (is_dead c) eqn:E; [rewrite Hd in Hd2 |].
      * by apply (Hlive c1 c2).
    + intros x [->|[Hx _]]%Hin; [done | by apply Hti].
  - tb_simpl. intros l h Hll Hhh. destruct (He l h Hll Hhh) as (x & Hx & <-).
    apply list_elem_of_lookup in Hx as [j Hj]. destruct (decide (i = j)) as [->|Hne].
    + exists c'. split; [|congruence]. apply list_elem_of_lookup. exists j.
      by rewrite list_lookup_insert_eq by (by eapply lookup_lt_Some).
    + exists x. split; [|done]. apply list_elem_of_lookup. exists j. by rewrite list_lookup_insert_ne.
Qed.

Lemma tcp_step_table t i c o :
  table_inv t -> tb_connections t !! i = Some c -> tcp_op_ok o -> table_inv (put_connection t i (tcp_step c o)).
Proof.
  intros Hi Hc Ho. apply (put_connection_inv t i c); [done | done | apply tcp_step_identity | |].
  - apply dead_edge, tcp_step_edge.
  - apply tcp_step_inv; [|done]. destruct Hi as [(_ & _ & _ & _ & _ & _ & Hti) _]. apply Hti.
    by eapply list_elem_of_lookup_2.
Qed.

(** Keeping some of the connections. *)
Lemma retain_weak t f : table_weak t -> table_weak (with_connections t (List.filter f (tb_connections t))).
Proof.
  intros (Hrow & Hn & Hlive & Hl & Hp & Hend & Hti). unfold table_weak, row_count in *. tb_simpl.
  split_and!; try done.
  - pose proof (retain_length f (tb_connections t)). lia.
  - eapply sublist_NoDup; [exact Hn |]. apply sublist_app; [|done]. by apply fmap_sublist, retain_sublist.
  - intros c1 c2 [_ H1]%elem_of_retain [_ H2]%elem_of_retain. by apply Hlive.
  - intros c [_ Hc]%elem_of_retain. by apply Hti.
Qed.

Lemma retain_NoDup {A} (f : A -> bool) l : NoDup l -> NoDup (List.filter f l).
Proof. intros H. eapply sublist_NoDup; [exact H | apply retain_sublist]. Qed.

(** Pruning restores the links between queues and connections, to live ones at that. *)
Lemma prune_pending_spec t :
  table_weak t ->
  table_inv (prune_pending t) /\
  (forall l h, l ∈ tb_listeners (prune_pending t) -> h ∈ ls_pending l ->
     exists c, c ∈ tb_connections (prune_pending t) /\ tc_handle c = h /\ is_dead c = false) /\
  (ls_handle <$> tb_listeners (prune_pending t) = ls_handle <$> tb_listeners t) /\
  (forall c, c ∈ tb_connections (prune_pending t) -> c ∈ tb_connections t) /\
  (forall c, c ∈ tb_connections t -> is_dead c = false -> c ∈ tb_connections (prune_pending t)).
Proof.
  intros Hw. unfold prune_pending.
  set (cs := List.filter _ (tb_connections t)).
  set (prune := fun l : Listener => _).
  pose proof (retain_weak t (fun c => negb (is_dead c)
    || negb (existsb (fun l => contains (ls_pending l) (tc_handle c)) (tb_listeners t))) Hw) as Hw'.
  fold cs in Hw'. destruct Hw' as (Hrow & Hn & Hlive & Hl & Hp & Hend & Hti). unfold row_count in *. tb_simpl.
  assert (forall l', l' ∈ prune <$> tb_listeners t -> exists l, l ∈ tb_listeners t /\ l' = prune l) as Hmap.
  { intros l' (l & -> & Hin)%list_elem_of_fmap. eauto. }
  assert (forall l h, h ∈ ls_pending (prune l) ->
    h ∈ ls_pending l /\ exists c, c ∈ cs /\ tc_handle c = h /\ is_dead c = false) as Hpend.
  { intros l h [Hex Hin]%elem_of_retain. split; [done |].
    apply existsb_elem in Hex as (c & Hc & Hb). bool_cases. eauto. }
  assert (forall l, ls_handle (prune l) = ls_handle l) as Hhan by done.
  assert (ls_handle <$> (prune <$> tb_listeners t) = ls_handle <$> tb_listeners t) as Hhs.
  { rewrite <- list_fmap_compose. by apply list_fmap_ext. }
  split_and!.
  - split.
    + unfold table_weak, row_count. tb_simpl. rewrite length_fmap, Hhs. split_and!; try done.
      * intros l' (l & Hin & ->)%Hmap. destruct (Hl l Hin) as (N1 & N2 & Hsub & Hc). unfold listener_ok.
        split_and!; [by apply retain_NoDup | by apply retain_NoDup | | done].
        intros h [Hcon _]%elem_of_retain. unfold contains in Hcon. by bool_cases.
      * intros l1 l2 h (l1' & H1 & ->)%Hmap (l2' & H2 & ->)%Hmap [Hh1 _]%Hpend [Hh2 _]%Hpend.
        rewrite !Hhan. by apply (Hp l1' l2' h).
      * intros l1 l2 (l1' & H1 & ->)%Hmap (l2' & H2 & ->)%Hmap. cbn. by apply Hend.
    + tb_simpl. intros l' h (l & Hin & ->)%Hmap [_ (c & ? & ? & _)]%Hpend. eauto.
  - tb_simpl. by intros l' h (l & Hin & ->)%Hmap [_ Hc]%Hpend.
  - done.
  - tb_simpl. by intros c [_ Hc]%elem_of_retain.
  - tb_simpl. intros c Hc Hd. apply elem_of_retain. by rewrite Hd.
Qed.

Lemma insert_table t c :
  table_inv t -> tcp_inv c -> table_inv (fst (tcp_insert t c)) /\
  match snd (tcp_insert t c) with
  | Ok _ => fst (tcp_insert t c) = with_connections t (tb_connections t ++ [c]) /\
      (forall x, x ∈ tb_connections t -> tc_handle x <> tc_handle c)
  | Err _ => fst (tcp_insert t c) = t
  | Panic => False
  end.
Proof.
  intros Hi Hc. unfold tcp_insert. destruct (Z.leb_spec (tb_capacity t) (row_count t)); [done |].
  destruct (_ || _) eqn:E; [done |]. apply orb_false_iff in E as [E1 E2].
  rewrite existsb_none in E1. rewrite existsb_none in E2. pose proof Hi as [Hw He].
  assert (forall x, x ∈ tb_connections t -> tc_handle x <> tc_handle c) as Hfresh.
  { intros x Hx. specialize (E2 x Hx). bool_cases. done. }
  split; [|done]. cbn [fst]. destruct Hw as (Hrow & Hn & Hlive & Hl & Hp & Hend & Hti). split.
  - unfold table_weak, row_count in *. tb_simpl. split_and!; try done.
    + rewrite length_app. cbn. lia.
    + rewrite fmap_app, <- app_assoc. apply NoDup_app in Hn as (N1 & N2 & N3). apply NoDup_app. split_and!; [done | |].
      * intros h Hh. cbn. intros [->|Hh']%elem_of_cons; [|by apply (N2 h)].
        apply list_elem_of_fmap in Hh as (x & Hx & Hx'). by apply (Hfresh x).
      * cbn. apply NoDup_cons. split; [|done]. intros (l & Hl1 & Hl2)%list_elem_of_fmap.
        specialize (E1 l Hl2). bool_cases. congruence.
    + assert (forall x, x ∈ tb_connections t -> is_dead x = false -> tc_tuple x <> tc_tuple c) as Htup.
      { intros x Hx Hd Heq. specialize (E2 x Hx). bool_cases. apply andb_false_iff in H1 as [H1|H1]; bool_cases; congruence. }
      intros c1 c2 [H1| ->%list_elem_of_singleton]%elem_of_app [H2| ->%list_elem_of_singleton]%elem_of_app Hd1 Hd2 Heq;
        [by apply Hlive | by destruct (Htup c1) | by destruct (Htup c2) | done].
    + intros x [Hx| ->%list_elem_of_singleton]%elem_of_app; [by apply Hti | done].
  - tb_simpl. intros l h Hll Hh. destruct (He l h Hll Hh) as (x & Hx & Hxh). exists x. set_solver.
Qed.

(** Changing the queues or the configuration of one listener. *)
Lemma listener_update t i l l' :
  table_inv t -> tb_listeners t !! i = Some l ->
  ls_handle l' = ls_handle l -> ls_port l' = ls_port l -> ls_address l' = ls_address l -> listener_ok l' ->
  (forall h, h ∈ ls_pending l' -> h ∈ ls_pending l \/
     ((exists c, c ∈ tb_connections t /\ tc_handle c = h) /\
      forall l2, l2 ∈ tb_listeners t -> h ∉ ls_pending l2)) ->
  table_inv (with_listeners t (<[i := l']> (tb_listeners t))).
Proof.
  intros [Hw He] Hi Hh Hport Haddr Hok Hpend. pose proof (table_handles t Hw) as (_ & Hnd & _).
  pose proof Hw as (Hrow & Hn & Hlive & Hl & Hp & Hend & Hti).
  assert (l ∈ tb_listeners t) as Hin by (by eapply list_elem_of_lookup_2).
  assert (forall x, x ∈ <[i := l']> (tb_listeners t) -> x = l' \/ (x ∈ tb_listeners t /\ ls_handle x <> ls_handle l)) as Hel.
  { intros x. by apply elem_of_insert_key. }
  split.
  - unfold table_weak, row_count in *. tb_simpl. rewrite length_insert, (fmap_insert_same ls_handle _ i l) by done.
    split_and!; try done.
    + intros x [->|[Hx _]]%Hel; [done | by apply Hl].
    + intros l1 l2 h [->|[H1 N1]]%Hel [->|[H2 N2]]%Hel Hh1 Hh2; try done.
      * destruct (Hpend h Hh1) as [Hold|[_ Hnew]]; [rewrite Hh; by apply (Hp l l2 h) | by destruct (Hnew l2 H2)].
      * destruct (Hpend h Hh2) as [Hold|[_ Hnew]]; [rewrite Hh; by apply (Hp l1 l h) | by destruct (Hnew l1 H1)].
      * by apply (Hp l1 l2 h).
    + intros l1 l2 [->|[H1 N1]]%Hel [->|[H2 N2]]%Hel; rewrite ?Hh, ?Hport, ?Haddr; try done.
      * by apply (Hend l l2).
      * by apply (Hend l1 l).
      * by apply (Hend l1 l2).
  - tb_simpl. intros x h [->|[Hx _]]%Hel Hhx; [|by apply (He x h)].
    destruct (Hpend h Hhx) as [Hold|[Hc _]]; [by apply (He l h) | done].
Qed.

Lemma addresses_overlap_sym a b : addresses_overlap a b = addresses_overlap b a.
Proof.
  unfold addresses_overlap. rewrite (orb_comm (bool_decide (a = ANY))). f_equal. apply bool_decide_ext. naive_solver.
Qed.

Lemma listen_table reserve t h o a p cfg :
  table_inv t -> config_ok cfg -> table_inv (fst (listen reserve t h o a p cfg)).
Proof.
  intros Hi Hcfg. pose proof Hi as [Hw He]. unfold listen. destruct (_ || _ || _ || _); [done |].
  destruct (_ || _ || _) eqn:E1; [done |]. 
  match goal with |- context [if existsb ?f ?l then _ else _] => destruct (existsb f l) eqn:E2 end; [done |].
  destruct (negb _); [done |]. cbn [fst].
  apply orb_false_iff in E1 as [E1 Elh]. apply orb_false_iff in E1 as [Ecap Ech]. bool_cases.
  rewrite existsb_none in Elh. rewrite existsb_none in Ech. rewrite existsb_none in E2. destruct Hw as (Hrow & Hn & Hlive & Hl & Hp & Hend & Hti).
  set (l0 := {| ls_handle := h; ls_owner := o; ls_address := a; ls_port := p; ls_config := cfg;
                ls_pending := []; ls_ready := [] |}).
  assert (forall x, x ∈ tb_listeners t -> ls_port x = p -> addresses_overlap (ls_address x) a = false) as Hno.
  { intros x Hx Hpx. specialize (E2 x Hx). rewrite Hpx, Z.eqb_refl in E2. cbn [andb] in E2. unfold addresses_overlap.
    apply orb_false_iff in E2 as [E2 ->]. apply orb_false_iff in E2 as [-> ->]. done. }
  split.
  - unfold table_weak, row_count in *. tb_simpl. split_and!; try done.
    + rewrite length_app. cbn. lia.
    + rewrite fmap_app, app_assoc. apply NoDup_app. split_and!; [done | | apply NoDup_singleton].
      intros x Hx ->%list_elem_of_singleton. cbn in Hx. apply elem_of_app in Hx as [Hx|Hx];
        apply list_elem_of_fmap in Hx as (y & Hy & Hin).
      * specialize (Ech y Hin). bool_cases. congruence.
      * specialize (Elh y Hin). bool_cases. congruence.
    + intros x [Hx| ->%list_elem_of_singleton]%elem_of_app; [by apply Hl |].
      unfold listener_ok. cbn. split_and!; try apply NoDup_nil_2; try apply Hcfg. set_solver.
    + intros l1 l2 y [H1| ->%list_elem_of_singleton]%elem_of_app [H2| ->%list_elem_of_singleton]%elem_of_app Y1 Y2;
        try done; [by apply (Hp l1 l2 y) | by apply not_elem_of_nil in Y2 | by apply not_elem_of_nil in Y1].
    + intros l1 l2 [H1| ->%list_elem_of_singleton]%elem_of_app [H2| ->%list_elem_of_singleton]%elem_of_app Hpp Hov;
        try done.
      * by apply Hend.
      * cbn in Hpp, Hov. by rewrite Hno in Hov.
      * cbn in Hpp, Hov. rewrite addresses_overlap_sym, Hno in Hov; done.
  - tb_simpl. intros l y [Hx| ->%list_elem_of_singleton]%elem_of_app Hy; [by apply (He l y) | by apply not_elem_of_nil in Hy].
Qed.

Lemma admit_syn_table t tuple n :
  table_inv t -> fst (admit_syn t tuple n) = prune_pending t /\ table_inv (prune_pending t) /\
  snd (admit_syn t tuple n) <> Panic.
Proof.
  intros [Hw _]. destruct (prune_pending_spec t Hw) as (H & _). unfold admit_syn. split_and!; [done | done |].
  cbn [snd]. destruct (matching_listener _ _) as [[i l]|]; cbn; [|done]. destruct (_ || _); [done |]. by destruct (_ <? _).
Qed.

Lemma find_listener_at t i l : table_inv t -> tb_listeners t !! i = Some l -> find_listener t (ls_handle l) = Some (i, l).
Proof.
  intros [Hw _] Hi. pose proof (table_handles t Hw) as (_ & Hnd & _). unfold find_listener. apply list_find_Some.
  split_and!; [done | done |]. intros j y Hj Hlt Heq. assert (j = i); [|lia].
  eapply (NoDup_lookup _ j i (ls_handle l) Hnd); rewrite list_lookup_fmap, ?Hi, ?Hj; cbn; congruence.
Qed.

Section Syn.
Context (reserve : Z -> bool) (Hres : reserve_ok reserve).

(** What admitting a new SYN does: one embryonic connection, queued at its listener. *)
Lemma receive_new_syn_spec t h tuple seg iss :
  table_inv t -> is_u32 iss -> sg_wf seg ->
  let '(t', r) := receive_new_syn reserve t h tuple seg iss in
  table_inv t' /\
  match r with
  | Ok h' => h' = h /\ exists i l c,
      tb_listeners t !! i = Some l /\ listens_for tuple l /\
      accept_syn reserve h (ls_owner l) tuple iss (ls_config l) seg = Ok c /\
      tb_connections t' = tb_connections t ++ [c] /\
      tb_listeners t' = <[i := set_pending l (ls_pending l ++ [h]) (ls_ready l)]> (tb_listeners t)
  | Err _ => t' = t
  | Panic => False
  end.
Proof using Hres.
  intros Hi Hiss Hwf. unfold receive_new_syn. destruct (matching_listener t tuple) as [[i l]|] eqn:Hm; [|done].
  apply list_find_Some in Hm as (Hil & Hlis & _). destruct (negb _); [done |].
  assert (l ∈ tb_listeners t) as Hin by (by eapply list_elem_of_lookup_2).
  assert (listener_ok l) as (Nd1 & Nd2 & Hsub & Hcfg) by (destruct Hi as [(_ & _ & _ & Hl & _) _]; by apply Hl).
  assert (accept_syn reserve h (ls_owner l) tuple iss (ls_config l) seg <> Panic) as Hnp.
  { unfold accept_syn, validate_syn, validate_segment. destruct (_ || _); [done |]. destruct (negb _); [done |].
    destruct (_ || _); [done |]. destruct (_ <? _); [done |]. destruct (negb _); [done |]. destruct (negb _); [done |].
    by destruct (negb _). }
  destruct (accept_syn _ _ _ _ _ _ _) as [c|e|] eqn:Hacc; [|done|done].
  destruct (accept_syn_fresh reserve h (ls_owner l) tuple iss (ls_config l) seg c) as (_ & Hc & _ & Hch & _); try done.
  destruct (insert_table t c Hi Hc) as [Hi' Hins].
  destruct (tcp_insert t c) as [t1 [u|e|]]; cbn [fst snd] in *; [|by subst|done]. destruct Hins as [-> Hfresh].
  rewrite (find_listener_at _ i l Hi' Hil). tb_simpl. split.
  - apply (listener_update _ i l _ Hi'); try done; tb_simpl.
    + unfold listener_ok. tb_simpl. split_and!; try done.
      * apply NoDup_app. split_and!; [done | | apply NoDup_singleton]. intros x Hx ->%list_elem_of_singleton.
        destruct Hi as [_ He]. destruct (He l h Hin Hx) as (y & Hy & Hyh). apply (Hfresh y Hy). congruence.
      * set_solver.
    + intros x [Hx| ->%list_elem_of_singleton]%elem_of_app; [by left | right]. split.
      * exists c. split; [set_solver | done].
      * intros l2 Hl2 Hx. destruct Hi as [_ He]. destruct (He l2 h Hl2 Hx) as (y & Hy & Hyh). apply (Hfresh y Hy). congruence.
  - split; [done |]. exists i, l, c. split_and!; try done; apply Hlis.
Qed.
End Syn.

Lemma on_segment_table t i c seg now :
  table_inv t -> tb_connections t !! i = Some c -> sg_wf seg ->
  table_inv (put_connection t i (fst (on_segment c seg now))) /\ snd (on_segment c seg now) <> Panic.
Proof.
  intros Hi Hc Hwf. split; [exact (tcp_step_table t i c (OSegment seg now) Hi Hc Hwf) |].
  apply on_segment_inv; [|done]. destruct Hi as [(_ & _ & _ & _ & _ & _ & Hti) _]. apply Hti.
  by eapply list_elem_of_lookup_2.
Qed.

Lemma receive_syn_table reserve t h tuple seg iss :
  reserve_ok reserve -> table_inv t -> is_u32 iss -> sg_wf seg ->
  table_inv (fst (receive_syn reserve t h tuple seg iss)) /\ snd (receive_syn reserve t h tuple seg iss) <> Panic.
Proof.
  intros Hres Hi Hiss Hwf. unfold receive_syn.
  assert (validate_syn tuple seg <> Panic) as Hv.
  { unfold validate_syn, validate_segment. destruct (_ || _); [done |]. by destruct (negb _). }
  destruct (validate_syn tuple seg); [|done..].
  destruct (find_tuple_mut t tuple) as [[i c]|] eqn:Hf.
  - apply list_find_Some in Hf as (Hic & _ & _). destruct (on_segment_table t i c seg 0 Hi Hic Hwf) as [H1 H2].
    destruct (on_segment c seg 0) as [c' [r|e|]]; cbn [fst snd] in *; done.
  - destruct (admit_syn_table t tuple (Z.of_nat (length (sg_payload seg))) Hi) as (H1 & H2 & H3).
    destruct (admit_syn t tuple _) as [t1 [u|e|]]; cbn [fst snd] in *; subst t1; [|done|done].
    pose proof (receive_new_syn_spec reserve Hres (prune_pending t) h tuple seg iss H2 Hiss Hwf) as H4.
    destruct (receive_new_syn _ _ _ _ _ _) as [t2 [h'|e|]]; destruct H4 as [H4 H5]; [done | done | done].
Qed.

Lemma receive_segment_table reserve t tuple seg now :
  table_inv t -> sg_wf seg ->
  table_inv (fst (receive_segment reserve t tuple seg now)) /\ snd (receive_segment reserve t tuple seg now) <> Panic.
Proof.
  intros Hi Hwf. unfold receive_segment.
  assert (validate_segment tuple seg <> Panic) as Hv by (unfold validate_segment; by destruct (_ || _)).
  destruct (validate_segment tuple seg); [|done..].
  destruct (find_tuple_mut t tuple) as [[i c]|] eqn:Hf; [|done].
  apply list_find_Some in Hf as (Hic & _ & _). destruct (on_segment_table t i c seg now Hi Hic Hwf) as [H1 H2].
  destruct (list_find (waits_in (tc_handle c)) (tb_listeners t)) as [[j l]|] eqn:Hl.
  - destruct (negb _); [done |]. destruct (on_segment c seg now) as [c' r]; cbn [fst snd] in *.
    split; [|done]. destruct (state_in _ _); [|done].
    apply list_find_Some in Hl as (Hjl & [Hp Hnr] & _).
    assert (listener_ok l) as (Nd1 & Nd2 & Hsub & Hcfg).
    { destruct Hi as [(_ & _ & _ & Hlo & _) _]. apply Hlo. by eapply list_elem_of_lookup_2. }
    apply (listener_update _ j l _ H1); try done; tb_simpl; [|by intros x Hx; left].
    unfold listener_ok. tb_simpl. split_and!; try done.
    + apply NoDup_app. split_and!; [done | | apply NoDup_singleton]. by intros x Hx ->%list_elem_of_singleton.
    + intros x [Hx| ->%list_elem_of_singleton]%elem_of_app; [by apply Hsub | done].
  - destruct (on_segment c seg now) as [c' r]; cbn [fst snd] in *. split; [|done]. by destruct (state_in _ _).
Qed.

Lemma owned_listener_spec t h o :
  match owned_listener t h o with
  | Ok (i, l) => tb_listeners t !! i = Some l /\ ls_handle l = h /\ ls_owner l = o
  | Err e => e = NotFound \/ e = Ownership
  | Panic => False
  end.
Proof.
  unfold owned_listener. destruct (find_listener t h) as [[i l]|] eqn:Hf; cbn; [|by left].
  apply list_find_Some in Hf as (Hi & Hh & _). destruct (Z.eqb_spec (ls_owner l) o); cbn; [done | by right].
Qed.

(** Accepting takes the connection whose handshake completed first, and finds it. *)
Lemma accept_table t h o :
  table_inv t ->
  let '(t', r) := accept t h o in
  table_inv t' /\
  match r with
  | Ok (Some (handle, tuple)) => exists c, c ∈ tb_connections t' /\ tc_handle c = handle /\ tc_tuple c = tuple /\
      is_dead c = false
  | Panic => False
  | _ => True
  end.
Proof.
  intros Hi. unfold accept. pose proof (owned_listener_spec t h o) as Ho.
  destruct (owned_listener t h o) as [[i l0]|e|]; [|done|done]. destruct Ho as (Hil & _ & _).
  pose proof Hi as [Hw _]. destruct (prune_pending_spec t Hw) as (Hi' & Hlive & Hhs & _).
  assert (is_Some (tb_listeners (prune_pending t) !! i)) as [l Hl].
  { apply lookup_lt_is_Some. apply (f_equal length) in Hhs. rewrite !length_fmap in Hhs. rewrite Hhs.
    by eapply lookup_lt_Some. }
  rewrite Hl. destruct (ls_ready l) as [|handle ready] eqn:Hr; [done |].
  assert (l ∈ tb_listeners (prune_pending t)) as Hin by (by eapply list_elem_of_lookup_2).
  assert (listener_ok l) as (Nd1 & Nd2 & Hsub & Hcfg) by (destruct Hi' as [(_ & _ & _ & Hlo & _) _]; by apply Hlo).
  rewrite Hr in *. destruct (Hlive l handle Hin) as (c & Hc & Hch & Hd); [apply Hsub; left |].
  destruct (list_find _ (tb_connections (prune_pending t))) as [[j c']|] eqn:Hf.
  2: { apply list_find_None in Hf. rewrite Forall_forall in Hf. by destruct (Hf c Hc). }
  apply list_find_Some in Hf as (Hjc & Hjh & _).
  assert (c' = c) as ->.
  { pose proof (table_handles _ (proj1 Hi')) as (Hnd & _).
    eapply (NoDup_fmap_elem tc_handle); [exact Hnd | by eapply list_elem_of_lookup_2 | done | congruence]. }
  apply NoDup_cons in Nd2 as [Hnr Nd2]. split; [|by exists c].
  apply (listener_update _ i l _ Hi'); try done; tb_simpl.
  - unfold listener_ok. tb_simpl. split_and!; try done; [by apply retain_NoDup |].
    intros x Hx. apply elem_of_retain. split; [|apply Hsub; by right].
    apply negb_true_iff, Z.eqb_neq. by intros ->.
  - intros x [_ Hx]%elem_of_retain. by left.
Qed.

Lemma listener_ready_table t h o :
  table_inv t -> table_inv (fst (listener_ready t h o)) /\ snd (listener_ready t h o) <> Panic.
Proof.
  intros Hi. unfold listener_ready. pose proof (owned_listener_spec t h o) as Ho.
  destruct (owned_listener t h o) as [[i l0]|e|]; [|done|done]. destruct Ho as (Hil & _ & _).
  pose proof Hi as [Hw _]. destruct (prune_pending_spec t Hw) as (Hi' & _ & Hhs & _).
  assert (is_Some (tb_listeners (prune_pending t) !! i)) as [l Hl].
  { apply lookup_lt_is_Some. apply (f_equal length) in Hhs. rewrite !length_fmap in Hhs. rewrite Hhs.
    by eapply lookup_lt_Some. }
  by rewrite Hl.
Qed.

Lemma set_backlog_table t h o b : table_inv t -> table_inv (fst (set_backlog t h o b)).
Proof.
  intros Hi. unfold set_backlog. pose proof (owned_listener_spec t h o) as Ho.
  destruct (owned_listener t h o) as [[i l]|e|]; [|done|done]. destruct Ho as (Hil & _ & _).
  destruct (b =? 0); [done |]. cbn [fst]. apply (listener_update t i l); try done; tb_simpl.
  - assert (listener_ok l) as (? & ? & ? & Hcfg).
    { destruct Hi as [(_ & _ & _ & Hlo & _) _]. apply Hlo. by eapply list_elem_of_lookup_2. }
    unfold listener_ok. tb_simpl. done.
  - intros x Hx. by left.
Qed.

Lemma close_listener_table t h o : table_inv t -> table_inv (fst (close_listener t h o)).
Proof.
  intros Hi. unfold close_listener. pose proof (owned_listener_spec t h o) as Ho.
  destruct (owned_listener t h o) as [[i l]|e|]; [|done|done]. destruct Ho as (Hil & _ & _). cbn [fst].
  pose proof (swap_remove_perm i _ l Hil) as Hperm. destruct Hi as [Hw He].
  pose proof Hw as (Hrow & Hn & Hlive & Hl & Hp & Hend & Hti).
  assert (forall x, x ∈ swap_remove i (tb_listeners t) -> x ∈ tb_listeners t) as Hsub.
  { intros x Hx. rewrite Hperm. by right. }
  assert (l ∈ tb_listeners t) as Hin by (by eapply list_elem_of_lookup_2).
  assert (NoDup (ls_handle <$> l :: swap_remove i (tb_listeners t))) as Hnd.
  { rewrite <- Hperm. by apply NoDup_app in Hn as (_ & _ & ?). }
  apply NoDup_cons in Hnd as [Hnl Hnd].
  assert (table_weak (with_listeners t (swap_remove i (tb_listeners t)))) as Hw'.
  { unfold table_weak, row_count in *. tb_simpl. apply Permutation_length in Hperm as Hlen. cbn in Hlen.
    split_and!; try done.
    - lia.
    - apply NoDup_app in Hn as (N1 & N2 & _). apply NoDup_app. split_and!; [done | | done].
      intros x Hx (y & -> & Hy)%list_elem_of_fmap. apply (N2 _ Hx). by apply list_elem_of_fmap_2, Hsub.
    - intros x Hx. by apply Hl, Hsub.
    - intros l1 l2 x H1 H2. apply Hp; by apply Hsub.
    - intros l1 l2 H1 H2. apply Hend; by apply Hsub. }
  split; [exact (retain_weak _ _ Hw') |]. tb_simpl. intros l2 x Hl2 Hx.
  destruct (He l2 x (Hsub _ Hl2) Hx) as (c & Hc & <-). exists c. split; [|done].
  apply elem_of_retain. split; [|done]. unfold contains. apply negb_true_iff, bool_decide_eq_false. intros Hlp.
  apply Hnl. rewrite (Hp l l2 (tc_handle c)) by (done || by apply Hsub). by apply list_elem_of_fmap_2.
Qed.

Lemma remove_table t h o : table_inv t -> table_inv (remove t h o).
Proof. intros [Hw _]. apply prune_pending_spec. by apply retain_weak. Qed.

Lemma remove_closed_if_table t f : table_inv t -> table_inv (remove_closed_if t f).
Proof. intros [Hw _]. apply prune_pending_spec. by apply retain_weak. Qed.

Lemma abort_all_table t : table_inv t -> table_inv (abort_all t).
Proof.
  intros [(Hrow & Hn & Hlive & Hl & Hp & Hend & Hti) He]. unfold abort_all, table_inv, table_weak, row_count in *. tb_simpl.
  rewrite length_fmap.
  assert (tc_handle <$> (abort <$> tb_connections t) = tc_handle <$> tb_connections t) as ->.
  { rewrite <- list_fmap_compose. by apply list_fmap_ext. }
  split_and!; try done.
  - intros c1 c2 (c1' & -> & H1)%list_elem_of_fmap (c2' & -> & H2)%list_elem_of_fmap. done.
  - intros c (c' & -> & Hc)%list_elem_of_fmap. by apply abort_inv, Hti.
  - intros l h Hll Hh. destruct (He l h Hll Hh) as (c & Hc & <-). exists (abort c). split; [|done].
    by apply list_elem_of_fmap_2.
Qed.

Lemma empty_table ls cap : ls = [] -> 0 <= cap ->
  table_inv {| tb_connections := []; tb_listeners := ls; tb_capacity := cap |}.
Proof.
  intros -> Hc. split; [|set_solver]. unfold table_weak, row_count. tb_simpl. cbn.
  split_and!; try lia; try set_solver. apply NoDup_nil_2.
Qed.

(** ** Histories *)

Inductive table_op : Type :=
  | TInsert (c : TcpConnection)
  | TConnection (i : nat) (o : tcp_op)
  | TListen (reserve : Z -> bool) (handle owner : Z) (address : list Z) (port : Z) (cfg : TcpListenConfig)
  | TSyn (reserve : Z -> bool) (handle : Z) (tuple : TcpTuple) (seg : TcpSegment) (iss : Z)
  | TSegment (reserve : Z -> bool) (tuple : TcpTuple) (seg : TcpSegment) (now : Z)
  | TAccept (listener owner : Z)
  | TReady (listener owner : Z)
  | TBacklog (listener owner backlog : Z)
  | TCloseListener (listener owner : Z)
  | TRemove (handle owner : Z)
  | TRemoveClosed (owner : Z -> bool)
  | TAbortAll
  | TClear.

(** Whether a call panicked, next to the new table. *)
Definition table_step (t : TcpConnectionTable) (o : table_op) : TcpConnectionTable * bool :=
  match o with
  | TInsert c => let '(t, r) := tcp_insert t c in (t, is_panic r)
  | TConnection i o =>
      match tb_connections t !! i with
      | Some c => (put_connection t i (tcp_step c o), false)
      | None => (t, false)
      end
  | TListen reserve h o a p cfg => let '(t, r) := listen reserve t h o a p cfg in (t, is_panic r)
  | TSyn reserve h tuple seg iss => let '(t, r) := receive_syn reserve t h tuple seg iss in (t, is_panic r)
  | TSegment reserve tuple seg now => let '(t, r) := receive_segment reserve t tuple seg now in (t, is_panic r)
  | TAccept l o => let '(t, r) := accept t l o in (t, is_panic r)
  | TReady l o => let '(t, r) := listener_ready t l o in (t, is_panic r)
  | TBacklog l o b => let '(t, r) := set_backlog t l o b in (t, is_panic r)
  | TCloseListener l o => let '(t, r) := close_listener t l o in (t, is_panic r)
  | TRemove h o => (remove t h o, false)
  | TRemoveClosed f => (remove_closed_if t f, false)
  | TAbortAll => (abort_all t, false)
  | TClear => (clear t, false)
  end.

(** Arguments at their widths; reservations beyond [isize::MAX] fail. *)
Definition table_op_ok (o : table_op) : Prop :=
  match o with
  | TInsert c => tcp_inv c
  | TConnection _ o => tcp_op_ok o
  | TListen _ _ _ _ _ cfg => config_ok cfg
  | TSyn reserve _ _ seg iss => reserve_ok reserve /\ sg_wf seg /\ is_u32 iss
  | TSegment _ _ seg _ => sg_wf seg
  | _ => True
  end.

Fixpoint table_run (t : TcpConnectionTable) (ops : list table_op) : TcpConnectionTable * bool :=
  match ops with
  | [] => (t, false)
  | o :: ops => let '(t, p) := table_step t o in let '(t, q) := table_run t ops in (t, p || q)
  end.

Lemma is_panic_false {E A} (r : result E A) : r <> Panic -> is_panic r = false.
Proof. by destruct r. Qed.

Lemma table_step_inv t o :
  table_inv t -> 0 <= tb_capacity t -> table_op_ok o ->
  table_inv (fst (table_step t o)) /\ snd (table_step t o) = false.
Proof.
  intros Hi Hcap Hok. destruct o as [c|i o|rs h o a p cfg|rs h tuple seg iss|rs tuple seg now|l o|l o|l o b|l o|h o|f| |];
    cbn [table_step table_op_ok] in *.
  - destruct (insert_table t c Hi Hok) as [H1 H2].
    destruct (tcp_insert t c) as [t' [u|e|]]; cbn [fst snd is_panic] in *; done.
  - destruct (tb_connections t !! i) as [c|] eqn:Hc; [|done]. split; [|done]. by apply tcp_step_table.
  - pose proof (listen_table rs t h o a p cfg Hi Hok) as H.
    assert (snd (listen rs t h o a p cfg) <> Panic) as Hp.
    { unfold listen. destruct (_ || _ || _ || _); [done |]. destruct (_ || _ || _); [done |].
      match goal with |- context [if existsb ?f ?l then _ else _] => destruct (existsb f l) end; [done |].
      by destruct (negb _). }
    destruct (listen _ _ _ _ _ _ _). cbn [fst snd] in *. split; [done | by apply is_panic_false].
  - destruct Hok as (H1 & H2 & H3). destruct (receive_syn_table rs t h tuple seg iss H1 Hi H3 H2) as [H4 H5].
    destruct (receive_syn _ _ _ _ _ _). split; [done | by apply is_panic_false].
  - destruct (receive_segment_table rs t tuple seg now Hi Hok) as [H4 H5].
    destruct (receive_segment _ _ _ _ _). split; [done | by apply is_panic_false].
  - pose proof (accept_table t l o Hi) as H. destruct (accept t l o) as [t' [[[h tu]|]|e|]]; destruct H; done.
  - destruct (listener_ready_table t l o Hi) as [H4 H5]. destruct (listener_ready t l o).
    split; [done | by apply is_panic_false].
  - pose proof (set_backlog_table t l o b Hi) as H. pose proof (owned_listener_spec t l o) as Ho. unfold set_backlog in *.
    destruct (owned_listener t l o) as [[i ls]|e|]; [|done|done]. by destruct (b =? 0).
  - pose proof (close_listener_table t l o Hi) as H. pose proof (owned_listener_spec t l o) as Ho. unfold close_listener in *.
    by destruct (owned_listener t l o) as [[i ls]|e|].
  - split; [by apply remove_table | done].
  - split; [by apply remove_closed_if_table | done].
  - split; [by apply abort_all_table | done].
  - split; [|done]. by apply empty_table.
Qed.

Lemma table_inv_capacity t : table_inv t -> 0 <= tb_capacity t.
Proof. intros [(Hrow & _) _]. unfold row_count in Hrow. lia. Qed.

Lemma table_run_inv ops : forall t,
  table_inv t -> Forall table_op_ok ops -> table_inv (fst (table_run t ops)) /\ snd (table_run t ops) = false.
Proof.
  induction ops as [|o ops IH]; intros t Hi Hok; [done |]. apply Forall_cons in Hok as [Ho Hok]. cbn [table_run].
  destruct (table_step_inv t o Hi (table_inv_capacity t Hi) Ho) as [H1 H2].
  destruct (table_step t o) as [t1 p]. cbn [fst snd] in *. destruct (IH t1 H1 Hok) as [H3 H4].
  destruct (table_run t1 ops) as [t2 q]. cbn [fst snd] in *. by subst.
Qed.

(** ** Ports *)

Lemma allocate_port_loop_spec t first n : forall k,
  match allocate_port_loop t first k n with
  | Ok p => exists j, k <= j < k + Z.of_nat n /\
      p = TCP_EPHEMERAL_START + (first - TCP_EPHEMERAL_START + j) mod TCP_PORT_RANGE /\ port_free t p = true
  | Err e => e = PortUnavailable /\ forall j, k <= j < k + Z.of_nat n ->
      port_free t (TCP_EPHEMERAL_START + (first - TCP_EPHEMERAL_START + j) mod TCP_PORT_RANGE) = false
  | Panic => False
  end.
Proof.
  induction n as [|n IH]; intros k; cbn [allocate_port_loop]; [split; [done | lia] |].
  destruct (port_free t _) eqn:E; [exists k; split_and!; (done || lia) |].
  specialize (IH (k + 1)). destruct (allocate_port_loop t first (k + 1) n) as [p|e|]; [| |done].
  - destruct IH as (j & Hj & Hp). exists j. split; [lia | done].
  - destruct IH as [-> IH]. split; [done |]. intros j Hj. destruct (decide (j = k)) as [->|]; [done |]. apply IH. lia.
Qed.

(** ** Claims *)

(** C14: Whatever sequence of calls a table has seen, whatever segments and allocation outcomes it met:
    handles of connections and listeners are unique, no two live connections share a four-tuple, listeners do not overlap,
    the capacity holds, the pending and ready queues have no duplicates and refer to connections of the
    table, every connection satisfies its own invariant; and no call panicked, the
    [unwrap]s included. *)
Theorem tcp_table_invariant capacity ops (Hcap : 0 <= capacity) (Hok : Forall table_op_ok ops) :
  let '(t, panicked) := table_run (TcpConnectionTable_new capacity) ops in
  table_inv t /\ panicked = false.
Proof.
  pose proof (table_run_inv ops (TcpConnectionTable_new capacity) (empty_table [] capacity eq_refl Hcap) Hok) as H.
  by destruct (table_run _ _).
Qed.

Definition demo_listen : TcpListenConfig :=
  {| lc_backlog := 2; lc_local_mss := 1460; lc_send_capacity := 64; lc_receive_capacity := 64;
     lc_retransmit_timeout := 100; lc_retry_limit := 3 |}.

Definition demo_peer : TcpTuple :=
  {| tt_local_address := [10; 0; 2; 2]; tt_local_port := 80;
     tt_remote_address := [10; 0; 2; 15]; tt_remote_port := 49152 |}.

Definition client_segment (flags seq ack : Z) : TcpSegment :=
  {| sg_source_port := 49152; sg_destination_port := 80; sg_sequence := seq; sg_acknowledgment := ack;
     sg_flags := flags; sg_window := 100; sg_urgent_pointer := 0; sg_options := TcpOptions_default; sg_payload := [] |}.

Definition small_reserve (n : Z) : bool := n <=? 4096.

Lemma small_reserve_ok : reserve_ok small_reserve.
Proof. intros n Hn. unfold small_reserve in Hn. bool_cases. widths. lia. Qed.

Lemma client_segment_wf flags seq ack : is_u16 flags -> is_u32 seq -> is_u32 ack -> sg_wf (client_segment flags seq ack).
Proof. intros. unfold sg_wf. cbn. split_and!; try done; widths; lia. Qed.

Definition demo_table_ops : list table_op :=
  [TListen small_reserve 5 1 ANY 80 demo_listen; TSyn small_reserve 9 demo_peer (client_segment 2 100 0) 7000;
   TSegment small_reserve demo_peer (client_segment 16 101 7001) 3].

Lemma demo_table_ops_ok : Forall table_op_ok demo_table_ops.
Proof.
  unfold demo_table_ops. repeat (apply Forall_cons; split); try apply Forall_nil_2; cbn [table_op_ok].
  - unfold config_ok. cbn. widths. lia.
  - split_and!; [exact small_reserve_ok | apply client_segment_wf; widths; lia | widths; lia].
  - apply client_segment_wf; widths; lia.
Qed.

Lemma tcp_table_invariant_witness :
  let '(t, panicked) := table_run (TcpConnectionTable_new 4) demo_table_ops in
  table_inv t /\ panicked = false.
Proof. apply (tcp_table_invariant 4 demo_table_ops); [lia | exact demo_table_ops_ok]. Defined.

(** The port allocator returns an ephemeral port that no listener and no connection that is not closed
    uses, and fails only when there is none: every seed makes it look at all 16384 of them. *)
Theorem tcp_allocate_port_complete t seed (Hseed : 0 <= seed) :
  match allocate_port t seed with
  | Ok p => TCP_EPHEMERAL_START <= p <= TCP_EPHEMERAL_END /\ port_free t p = true
  | Err e => e = PortUnavailable /\
      forall p, TCP_EPHEMERAL_START <= p <= TCP_EPHEMERAL_END -> port_free t p = false
  | Panic => False
  end.
Proof.
  unfold allocate_port. pose proof (allocate_port_loop_spec t (TCP_EPHEMERAL_START + seed mod TCP_PORT_RANGE)
    (Z.to_nat TCP_PORT_RANGE) 0) as H.
  change (Z.of_nat (Z.to_nat TCP_PORT_RANGE)) with 16384 in H. change TCP_PORT_RANGE with 16384 in *.
  unfold TCP_EPHEMERAL_START, TCP_EPHEMERAL_END in *.
  destruct (allocate_port_loop _ _ _ _) as [p|e|]; [| |done].
  - destruct H as (j & Hj & Hp & Hf). split; [|done]. subst p. divlia.
  - destruct H as [-> H]. split; [done |]. intros p Hp.
    specialize (H ((p - 49152 - seed mod 16384) mod 16384)). rewrite <- H by divlia. f_equal. divlia.
Qed.

Lemma tcp_allocate_port_complete_witness : 0 <= 7 /\ allocate_port (TcpConnectionTable_new 4) 7 = Ok 49159 /\
  port_free (TcpConnectionTable_new 4) 49159 = true.
Proof.
  pose proof (tcp_allocate_port_complete (TcpConnectionTable_new 4) 7 ltac:(lia)) as H.
  assert (allocate_port (TcpConnectionTable_new 4) 7 = Ok 49159) as E by reflexivity.
  rewrite E in H. split_and!; [lia | exact E | apply H].
Defined.

(** A SYN for a tuple without a live connection is admitted only at a matching listener with room in its
    backlog and in the table; then exactly one embryonic connection is added, with the given handle
    and initial sequence, the listener's owner and configuration and the peer's data acknowledged, and it is queued at
    that listener.  A refused SYN leaves at most the dead unaccepted connections
    removed, and no outcome is a panic. *)
Theorem tcp_syn_admission reserve t h tuple seg iss
    (Hres : reserve_ok reserve) (Hi : table_inv t) (Hiss : is_u32 iss) (Hwf : sg_wf seg)
    (Hnew : find_tuple_mut t tuple = None) :
  let '(t', r) := receive_syn reserve t h tuple seg iss in
  table_inv t' /\
  match r with
  | Ok h' => h' = h /\ exists i l c,
      tb_listeners (prune_pending t) !! i = Some l /\ listens_for tuple l /\
      Z.of_nat (length (ls_pending l)) < lc_backlog (ls_config l) /\
      row_count (prune_pending t) < tb_capacity t /\
      tc_state c = SynReceived /\ tc_handle c = h /\ tc_owner c = ls_owner l /\ tc_tuple c = tuple /\
      tc_send_unacknowledged c = iss /\
      tc_receive_next c = wrap32 (sg_sequence seg + 1 + Z.of_nat (length (sg_payload seg))) /\
      tb_connections t' = tb_connections (prune_pending t) ++ [c] /\
      tb_listeners t' = <[i := set_pending l (ls_pending l ++ [h]) (ls_ready l)]> (tb_listeners (prune_pending t))
  | Err _ => t' = t \/ t' = prune_pending t
  | Panic => False
  end.
Proof.
  destruct (receive_syn_table reserve t h tuple seg iss Hres Hi Hiss Hwf) as [Hti Hnp].
  revert Hti Hnp. unfold receive_syn. rewrite Hnew.
  destruct (validate_syn tuple seg); [| cbn; by auto | cbn; by auto].
  destruct (admit_syn_table t tuple (Z.of_nat (length (sg_payload seg))) Hi) as (H1 & H2 & _).
  destruct (admit_syn t tuple _) as [t1 [u|e|]] eqn:Hadm; cbn [fst snd] in *; subst t1; [| by auto | done].
  unfold admit_syn in Hadm. apply pair_eq in Hadm as [_ Hadm].
  pose proof (receive_new_syn_spec reserve Hres (prune_pending t) h tuple seg iss H2 Hiss Hwf) as H4.
  destruct (receive_new_syn _ _ _ _ _ _) as [t2 [h'|e|]]; destruct H4 as [H4 H5]; intros _ _; [| by subst; auto | done].
  split; [done |]. destruct H5 as (-> & i & l & c & Hil & Hlis & Hacc & Hcs & Hls). split; [done |]. exists i, l, c.
  destruct (matching_listener (prune_pending t) tuple) as [[i' l']|] eqn:Hm; cbn in Hadm; [|done].
  assert (l' = l) as ->.
  { apply list_find_Some in Hm as (Hi' & [Hp' Ha'] & _). destruct Hlis as [Hp Ha].
    pose proof (table_handles _ (proj1 H2)) as (_ & Hnd & _).
    eapply (NoDup_fmap_elem ls_handle); [exact Hnd | by eapply list_elem_of_lookup_2 | by eapply list_elem_of_lookup_2 |].
    destruct H2 as [(_ & _ & _ & _ & _ & Hend & _) _]. apply Hend; try (by eapply list_elem_of_lookup_2).
    - congruence.
    - unfold addresses_overlap. repeat case_bool_decide; try done. naive_solver congruence. }
  destruct (_ || _) eqn:Hcap; [done |]. bool_cases.
  assert (config_ok (ls_config l)) as Hcfg.
  { destruct H2 as [(_ & _ & _ & Hlo & _) _]. eapply Hlo, list_elem_of_lookup_2, Hil. }
  destruct (accept_syn_fresh reserve h (ls_owner l) tuple iss (ls_config l) seg c)
    as ((_ & Hun & _) & _ & Hst & Hch & Hct & Hco & _ & Hrn & _); try done.
Qed.

Lemma tcp_syn_admission_witness :
  let t := fst (table_run (TcpConnectionTable_new 4) [TListen small_reserve 5 1 ANY 80 demo_listen]) in
  exists t', receive_syn small_reserve t 9 demo_peer (client_segment 2 100 0) 7000 = (t', Ok 9) /\
    table_inv t' /\ length (tb_connections t') = 1%nat.
Proof.
  cbv zeta. set (t := fst (table_run _ _)).
  assert (table_inv t) as Hi.
  { apply table_run_inv; [by apply empty_table |]. apply Forall_cons; split; [|apply Forall_nil_2].
    unfold table_op_ok, config_ok. cbn. widths. lia. }
  pose proof (tcp_syn_admission small_reserve t 9 demo_peer (client_segment 2 100 0) 7000 small_reserve_ok Hi
    ltac:(widths; lia) (client_segment_wf 2 100 0 ltac:(widths; lia) ltac:(widths; lia) ltac:(widths; lia)) eq_refl) as H.
  destruct (receive_syn small_reserve t 9 demo_peer (client_segment 2 100 0) 7000) as [t' r] eqn:E.
  assert (r = Ok 9) as -> by (apply (f_equal snd) in E; vm_compute in E; by symmetry).
  exists t'. split; [reflexivity |]. split; [apply H |].
  apply (f_equal (fun p => length (tb_connections (fst p)))) in E. vm_compute in E. by symmetry.
Defined.
