(* ===== verification/TcpDispatch.v ===== *)
(** * Routing of received TCP segments ([network-stack/src/tcp/dispatch.rs])

    [entropy] is what the caller's entropy source would answer; the theorems show
    when the answer is looked at. *)

From S2P Require Import Prelude Packet TcpSegment TcpConn TcpInvariant TcpTable TcpTableInv.

(** ** The code *)

Record TcpDispatch := {
  td_connection : option Z;
  td_event : option TcpReceiveResult;
  td_reply : option TcpTransmit;
}.

Definition silent (connection : option Z) : TcpDispatch :=
  {| td_connection := connection; td_event := None; td_reply := None |}.
Definition with_reply (d : TcpDispatch) (r : option TcpTransmit) : TcpDispatch :=
  {| td_connection := td_connection d; td_event := td_event d; td_reply := r |}.
Definition with_event (d : TcpDispatch) (e : option TcpReceiveResult) : TcpDispatch :=
  {| td_connection := td_connection d; td_event := e; td_reply := td_reply d |}.

Definition plain_ack (connection : TcpConnection) : TcpTransmit :=
  {| tx_sequence := tc_send_next connection; tx_acknowledgment := tc_receive_next connection;
     tx_flags := TCP_FLAG_ACK; tx_window := local_window connection; tx_options := TcpOptions_default;
     tx_payload := []; tx_retransmission := false |}.

Definition reset (segment : TcpSegment) : TcpTransmit :=
  let ack := has_flag (sg_flags segment) TCP_FLAG_ACK in
  {| tx_sequence := if ack then sg_acknowledgment segment else 0;
     tx_acknowledgment :=
       if ack then 0
       else wrapping_add32
              (wrapping_add32
                (wrapping_add32 (sg_sequence segment) (len32 (sg_payload segment)))
                (Z.b2z (has_flag (sg_flags segment) TCP_FLAG_SYN)))
              (Z.b2z (has_flag (sg_flags segment) TCP_FLAG_FIN));
     tx_flags := Z.lor TCP_FLAG_RST (if ack then 0 else TCP_FLAG_ACK);
     tx_window := 0; tx_options := TcpOptions_default; tx_payload := []; tx_retransmission := false |}.

(** [address[0] == 0 || address[0] >= 224]. *)
Definition unanswerable (address : list Z) : result TcpConnectionError bool :=
  let? a := idx address 0 in Ok ((a =? 0) || (224 <=? a)).

(** The two tests for repeated opening segments. *)
Definition duplicate_syn (connection : TcpConnection) (segment : TcpSegment) : bool :=
  bool_decide (tc_state connection = SynReceived) && is_syn (sg_flags segment)
  && (wrapping_add32 (wrapping_add32 (sg_sequence segment) 1) (len32 (tc_receive_buffer connection))
      =? tc_receive_next connection).

(** The checks before the segment reaches its connection: an immediate answer, or none. *)
Definition precheck (connection : TcpConnection) (segment : TcpSegment) : option TcpDispatch :=
  let dispatch := silent (Some (tc_handle connection)) in
  let rst := has_flag (sg_flags segment) TCP_FLAG_RST in
  let syn := has_flag (sg_flags segment) TCP_FLAG_SYN in
  let ack := has_flag (sg_flags segment) TCP_FLAG_ACK in
  if bool_decide (tc_state connection = SynSent) then
    if ack && negb (sg_acknowledgment segment =? tc_send_next connection)
    then Some (with_reply dispatch (if negb rst then Some (reset segment) else None))
    else if negb rst && negb syn then Some dispatch
    else None
  else
    if rst && negb (sg_sequence segment =? tc_receive_next connection) then
      Some (if wrapping_sub32 (sg_sequence segment) (tc_receive_next connection) <? local_window connection
            then with_reply dispatch (Some (plain_ack connection)) else dispatch)
    else if negb rst then
      if (syn && negb (duplicate_syn connection segment) && negb (is_duplicate_syn_ack connection segment))
         || (negb syn && negb (acceptable_sequence (tc_receive_next connection) (local_window connection) segment))
      then Some (with_event (with_reply dispatch (Some (plain_ack connection))) (Some ROutOfOrder))
      else if negb syn && negb ack then Some dispatch
      else None
    else None.

(** The answer to what [receive_segment] reported; [state] is the one before the segment. *)
Definition answer (state : TcpState) (connection : TcpConnection) (segment : TcpSegment)
    (received : result TcpConnectionError TcpReceiveResult) : result TcpConnectionError TcpDispatch :=
  let dispatch := silent (Some (tc_handle connection)) in
  let rst := has_flag (sg_flags segment) TCP_FLAG_RST in
  let syn := has_flag (sg_flags segment) TCP_FLAG_SYN in
  let ack := has_flag (sg_flags segment) TCP_FLAG_ACK in
  match received with
  | Ok event =>
      let dispatch := with_event dispatch (Some event) in
      Ok (if bool_decide (event ∈ [RAcknowledge; RDuplicateSegment; ROutOfOrder])
          then with_reply dispatch
                 (Some (if bool_decide (state = SynReceived) && syn then passive_syn_ack connection
                        else plain_ack connection))
          else dispatch)
  | Err InvalidAcknowledgment =>
      Ok (with_reply dispatch
            (if rst then None
             else if state_in state [SynSent; SynReceived] then if ack then Some (reset segment) else None
             else Some (plain_ack connection)))
  | Err e => Err e
  | Panic => Panic
  end.

Section Packet.
Variable try_reserve : Z -> bool.

(** The branch for an existing connection. *)
Definition dispatch_existing (self : TcpConnectionTable) (connection : TcpConnection) (tuple : TcpTuple)
    (segment : TcpSegment) (now : Z) : TcpConnectionTable * result TcpConnectionError TcpDispatch :=
  match precheck connection segment with
  | Some dispatch => (self, Ok dispatch)
  | None =>
      let handle := tc_handle connection in
      let state := tc_state connection in
      let '(self, received) := receive_segment try_reserve self tuple segment now in
      match list_find (fun c => tc_handle c = handle) (tb_connections self) with
      | None => (self, Err NotFound)
      | Some (_, connection) => (self, answer state connection segment received)
      end
  end.

(** The branch for a new connection at a listener. *)
Definition dispatch_open (self : TcpConnectionTable) (tuple : TcpTuple) (segment : TcpSegment) (now : Z)
    (entropy : option Z) : TcpConnectionTable * result TcpConnectionError TcpDispatch :=
  match admit_syn self tuple (Z.of_nat (length (sg_payload segment))) with
  | (self, Err e) => (self, Err e)
  | (self, Panic) => (self, Panic)
  | (self, Ok _) =>
      match entropy with
      | None => (self, Err EntropyUnavailable)
      | Some random =>
          match allocate_handle self (rotate_left64 random 17) with
          | Err e => (self, Err e)
          | Panic => (self, Panic)
          | Ok handle =>
              match receive_syn try_reserve self handle tuple segment (wrap32 (Z.shiftr random 32)) with
              | (self, Err e) => (self, Err e)
              | (self, Panic) => (self, Panic)
              | (self, Ok _) =>
                  match find_tuple_mut self tuple with
                  | None => (self, Err NotFound)
                  | Some (i, connection) =>
                      let '(connection, r) := poll_transmit connection now in
                      (put_connection self i connection,
                       let? reply := r in
                       Ok {| td_connection := Some handle; td_event := Some RAcknowledge; td_reply := reply |})
                  end
              end
          end
      end
  end.

Definition receive_packet (self : TcpConnectionTable) (tuple : TcpTuple) (segment : TcpSegment) (now : Z)
    (entropy : option Z) : TcpConnectionTable * result TcpConnectionError TcpDispatch :=
  match validate_segment tuple segment with
  | Err e => (self, Err e)
  | Panic => (self, Panic)
  | Ok _ =>
  match (let? a := unanswerable (tt_local_address tuple) in
         let? b := unanswerable (tt_remote_address tuple) in Ok (a || b)) with
  | Err e => (self, Err e)
  | Panic => (self, Panic)
  | Ok true => (self, Err InvalidState)
  | Ok false =>
  match find_tuple_mut self tuple with
  | Some (_, connection) => dispatch_existing self connection tuple segment now
  | None =>
      if has_flag (sg_flags segment) TCP_FLAG_RST then (self, Ok (silent None)) else
      if negb (bool_decide (is_Some (matching_listener self tuple))) || has_flag (sg_flags segment) TCP_FLAG_ACK
      then (self, Ok (with_reply (silent None) (Some (reset segment)))) else
      if negb (is_syn (sg_flags segment)) then (self, Ok (silent None)) else
      dispatch_open self tuple segment now entropy
  end
  end
  end.
End Packet.

(** ** Invariant *)

Definition tuple_wf (t : TcpTuple) : Prop := arr 4 (tt_local_address t) /\ arr 4 (tt_remote_address t).

Lemma unanswerable_ok a : arr 4 a -> exists b, unanswerable a = Ok b.
Proof.
  intros [Hl _]. unfold unanswerable. destruct (idx_in (E := TcpConnectionError) a 0 ltac:(lia)) as (x & -> & _). eauto.
Qed.

Lemma answer_no_panic s c seg r : r <> Panic -> answer s c seg r <> Panic.
Proof. destruct r as [e|e|]; cbn; [done | by destruct e | done]. Qed.

Lemma allocate_handle_no_panic t seed : allocate_handle t seed <> Panic.
Proof.
  unfold allocate_handle. generalize (Z.max seed 1), (S (Z.to_nat (tb_capacity t))). intros c n.
  revert c. induction n as [|n IH]; intros c; cbn; [done |]. destruct (negb _); [done | apply IH].
Qed.

Lemma poll_transmit_no_panic c now : snd (poll_transmit c now) <> Panic.
Proof.
  unfold poll_transmit. destruct (tc_outstanding c) as [|s others].
  - destruct (_ && negb _).
    { unfold poll_data. destruct (_ =? 0); [done |]. destruct (_ =? 0); [done |]. by rewrite pop_front_n_spec. }
    match goal with |- context [if ?b then poll_fin _ _ else _] => by destruct b end.
  - unfold poll_outstanding. destruct (os_sent_at s); [|done]. destruct (_ <? _); [done |]. by destruct (_ <=? _).
Qed.

Lemma dispatch_existing_table reserve t c tuple seg now :
  table_inv t -> sg_wf seg ->
  table_inv (fst (dispatch_existing reserve t c tuple seg now)) /\
  snd (dispatch_existing reserve t c tuple seg now) <> Panic.
Proof.
  intros Hi Hwf. unfold dispatch_existing. destruct (precheck c seg); [done |].
  destruct (receive_segment_table reserve t tuple seg now Hi Hwf) as [H1 H2].
  destruct (receive_segment reserve t tuple seg now) as [t' r]. cbn [fst snd] in *.
  destruct (list_find _ _) as [[i c']|]; [|done]. split; [done | by apply answer_no_panic].
Qed.

Lemma dispatch_open_table reserve t tuple seg now entropy :
  reserve_ok reserve -> table_inv t -> sg_wf seg ->
  table_inv (fst (dispatch_open reserve t tuple seg now entropy)) /\
  snd (dispatch_open reserve t tuple seg now entropy) <> Panic.
Proof.
  intros Hres Hi Hwf. unfold dispatch_open.
  destruct (admit_syn_table t tuple (Z.of_nat (length (sg_payload seg))) Hi) as (H1 & H2 & H3).
  destruct (admit_syn t tuple _) as [t1 [u|e|]]; cbn [fst snd] in *; subst t1; [|done|done].
  destruct entropy as [random|]; [|done].
  pose proof (allocate_handle_no_panic (prune_pending t) (rotate_left64 random 17)) as H4.
  destruct (allocate_handle _ _) as [h|e|]; [|done|done].
  destruct (receive_syn_table reserve (prune_pending t) h tuple seg (wrap32 (Z.shiftr random 32)) Hres H2
    (wrap32_range _) Hwf) as [H5 H6].
  destruct (receive_syn _ _ _ _ _ _) as [t2 [h'|e|]]; cbn [fst snd] in *; [|done|done].
  destruct (find_tuple_mut t2 tuple) as [[i c]|] eqn:Hf; [|done]. apply list_find_Some in Hf as (Hic & _ & _).
  pose proof (tcp_step_table t2 i c (OPoll now) H5 Hic I) as H7. cbn [tcp_step] in H7.
  pose proof (poll_transmit_no_panic c now) as H8.
  destruct (poll_transmit c now) as [c' [r|e|]]; cbn [fst snd] in *; done.
Qed.

Lemma receive_packet_table reserve t tuple seg now entropy :
  reserve_ok reserve -> table_inv t -> sg_wf seg -> tuple_wf tuple ->
  table_inv (fst (receive_packet reserve t tuple seg now entropy)) /\
  snd (receive_packet reserve t tuple seg now entropy) <> Panic.
Proof.
  intros Hres Hi Hwf [Ha Hb]. unfold receive_packet.
  assert (validate_segment tuple seg <> Panic) as Hv by (unfold validate_segment; by destruct (_ || _)).
  destruct (validate_segment tuple seg); [|done..].
  destruct (unanswerable_ok _ Ha) as [x ->]. destruct (unanswerable_ok _ Hb) as [y ->].
  destruct (x || y); [done |]. destruct (find_tuple_mut t tuple) as [[i c]|]; [by apply dispatch_existing_table |].
  destruct (has_flag _ TCP_FLAG_RST); [done |]. destruct (_ || _); [done |].
  destruct (negb _); [done |]. by apply dispatch_open_table.
Qed.

(** ** Replies *)

Definition replies_reset (r : result TcpConnectionError TcpDispatch) : bool :=
  match r with
  | Ok d => match td_reply d with Some t => has_flag (tx_flags t) TCP_FLAG_RST | None => false end
  | _ => false
  end.

Lemma receive_packet_existing reserve t tuple seg now entropy i c :
  find_tuple_mut t tuple = Some (i, c) ->
  receive_packet reserve t tuple seg now entropy = (t, Err InvalidState) \/
  receive_packet reserve t tuple seg now entropy = (t, Panic) \/
  receive_packet reserve t tuple seg now entropy = dispatch_existing reserve t c tuple seg now.
Proof.
  intros Hf. unfold receive_packet. rewrite Hf.
  unfold validate_segment. destruct (_ || _); [by left |].
  unfold unanswerable, idx. destruct (tt_local_address tuple !! 0%nat); [|by right; left].
  destruct (tt_remote_address tuple !! 0%nat); [|by right; left]. destruct (_ || _); [by left | by right; right].
Qed.

Lemma existing_no_reset reserve t c tuple seg now :
  has_flag (sg_flags seg) TCP_FLAG_RST = true ->
  replies_reset (snd (dispatch_existing reserve t c tuple seg now)) = false.
Proof.
  intros Hrst. unfold dispatch_existing.
  destruct (precheck c seg) as [d|] eqn:Hp.
  - unfold precheck in Hp. rewrite Hrst in Hp. cbn [negb andb] in Hp.
    destruct (bool_decide _).
    + destruct (_ && _); [|done]. by simplify_eq.
    + destruct (negb _); [|done]. destruct (_ <? _); by simplify_eq.
  - destruct (receive_segment reserve t tuple seg now) as [t' r].
    destruct (list_find _ _) as [[i c']|]; [|done]. cbn [snd]. unfold answer. rewrite Hrst.
    destruct r as [e|e|]; [| by destruct e | done]. destruct (bool_decide _); [|done]. by destruct (_ && _).
Qed.

(** ** Claims *)

(** Routing any well-formed segment, with any outcome of allocation and entropy, keeps the table invariant
    and never panics. *)
Theorem tcp_dispatch_invariant reserve t tuple seg now entropy
    (Hres : reserve_ok reserve) (Hi : table_inv t) (Hwf : sg_wf seg) (Ht : tuple_wf tuple) :
  let '(t', r) := receive_packet reserve t tuple seg now entropy in table_inv t' /\ r <> Panic.
Proof.
  pose proof (receive_packet_table reserve t tuple seg now entropy Hres Hi Hwf Ht) as H.
  by destruct (receive_packet _ _ _ _ _ _).
Qed.

Definition listening_table : TcpConnectionTable :=
  fst (table_run (TcpConnectionTable_new 4) [TListen small_reserve 5 1 ANY 80 demo_listen]).

Lemma listening_table_inv : table_inv listening_table.
Proof.
  apply table_run_inv; [by apply empty_table |]. apply Forall_cons; split; [|apply Forall_nil_2].
  unfold table_op_ok, config_ok. cbn. widths. lia.
Qed.

Lemma demo_peer_wf : tuple_wf demo_peer.
Proof. split; (split; [reflexivity | cbn; solve_bytes]). Qed.

Lemma tcp_dispatch_invariant_witness :
  let '(t', r) := receive_packet small_reserve listening_table demo_peer (client_segment 2 100 0) 3 (Some 12345678901)
  in table_inv t' /\ r <> Panic.
Proof.
  apply (tcp_dispatch_invariant small_reserve listening_table demo_peer (client_segment 2 100 0) 3 (Some 12345678901)
    small_reserve_ok listening_table_inv); [apply client_segment_wf; widths; lia | exact demo_peer_wf].
Defined.

(** A reset is never answered with a reset, whatever connection or listener it meets, so two stacks
    cannot keep resetting each other. *)
Theorem tcp_no_reset_for_reset reserve t tuple seg now entropy
    (Hrst : has_flag (sg_flags seg) TCP_FLAG_RST = true) :
  replies_reset (snd (receive_packet reserve t tuple seg now entropy)) = false.
Proof.
  destruct (find_tuple_mut t tuple) as [[i c]|] eqn:Hf.
  - destruct (receive_packet_existing reserve t tuple seg now entropy i c Hf) as [->|[->| ->]]; [done | done |].
    by apply existing_no_reset.
  - unfold receive_packet. rewrite Hf. destruct (validate_segment tuple seg); [|done..].
    destruct (unanswerable (tt_local_address tuple)) as [x| |]; [|done..].
    destruct (unanswerable (tt_remote_address tuple)) as [y| |]; [|done..].
    destruct (x || y); [done |]. by rewrite Hrst.
Qed.

Lemma tcp_no_reset_for_reset_witness :
  has_flag (sg_flags (client_segment 4 100 0)) TCP_FLAG_RST = true /\
  replies_reset (snd (receive_packet small_reserve listening_table demo_peer (client_segment 4 100 0) 3 None)) = false.
Proof.
  split; [reflexivity |].
  apply (tcp_no_reset_for_reset small_reserve listening_table demo_peer (client_segment 4 100 0) 3 None); reflexivity.
Defined.

(** The entropy source matters only for an admissible new SYN: no live connection for the tuple, a
    matching listener with room, and a bare SYN.  For every other segment the outcome is the same
    whatever it would answer; and when it fails, no connection is created and the listeners only
    lose their dead entries. *)
Theorem tcp_entropy_only_for_new_syn reserve t tuple seg now :
  (forall e1 e2, receive_packet reserve t tuple seg now e1 <> receive_packet reserve t tuple seg now e2 ->
     find_tuple_mut t tuple = None /\ is_Some (matching_listener t tuple) /\ is_syn (sg_flags seg) = true /\
     has_flag (sg_flags seg) TCP_FLAG_RST = false /\ has_flag (sg_flags seg) TCP_FLAG_ACK = false /\
     snd (admit_syn t tuple (Z.of_nat (length (sg_payload seg)))) = Ok tt) /\
  (snd (receive_packet reserve t tuple seg now None) = Err EntropyUnavailable ->
   find_tuple_mut t tuple = None -> fst (receive_packet reserve t tuple seg now None) = prune_pending t).
Proof.
  assert (forall r : TcpConnectionTable * result TcpConnectionError TcpDispatch,
    snd r <> Err EntropyUnavailable -> forall P Q : Prop,
    (forall e1 e2 : option Z, r <> r -> P) /\ (snd r = Err EntropyUnavailable -> Q)) as Hskip
    by (intros r Hr P Q; split; [intros _ _ [] |]; done).
  unfold receive_packet. destruct (validate_segment tuple seg) as [u|e|] eqn:Hv; [| |by apply Hskip].
  2: { apply Hskip. unfold validate_segment in Hv. destruct (_ || _); by simplify_eq/=. }
  destruct (unanswerable (tt_local_address tuple)) as [x|e|] eqn:Hua; cbn iota; [| |by apply Hskip].
  2: { unfold unanswerable, idx in Hua. by destruct (_ !! _). }
  destruct (unanswerable (tt_remote_address tuple)) as [y|e|] eqn:Hub; cbn iota; [| |by apply Hskip].
  2: { unfold unanswerable, idx in Hub. by destruct (_ !! _). }
  destruct (x || y); [by apply Hskip |].
  destruct (find_tuple_mut t tuple) as [[i c]|]; [by split; [intros ? ? [] |] |].
  destruct (has_flag _ TCP_FLAG_RST) eqn:Hrst; [by apply Hskip |].
  destruct (negb _ || _) eqn:Hack; [by apply Hskip |]. apply orb_false_iff in Hack as [Hl Hack]. bool_cases.
  destruct (is_syn _) eqn:Hsyn; cbn [negb]; [|by apply Hskip]. unfold dispatch_open.
  destruct (admit_syn t tuple _) as [t1 [[]|e|]] eqn:Hadm; [| |by apply Hskip].
  - split; [done |]. intros _ _. unfold admit_syn in Hadm. by apply pair_eq in Hadm as [<- _].
  - split; [by intros ? ? [] |]. intros _ _. unfold admit_syn in Hadm. by apply pair_eq in Hadm as [<- _].
Qed.

Definition answerable (tuple : TcpTuple) : Prop :=
  exists a b, tt_local_address tuple !! 0%nat = Some a /\ tt_remote_address tuple !! 0%nat = Some b /\
    0 < a < 224 /\ 0 < b < 224.

Lemma answerable_ok tuple :
  answerable tuple ->
  unanswerable (tt_local_address tuple) = Ok false /\ unanswerable (tt_remote_address tuple) = Ok false.
Proof.
  intros (a & b & Ha & Hb & ? & ?). unfold unanswerable, idx. cbn [Z.ltb Z.to_nat Z.compare]. rewrite Ha, Hb.
  split; f_equal; apply orb_false_iff; split; lia.
Qed.

Lemma receive_packet_unclaimed reserve t tuple seg now entropy :
  validate_segment tuple seg = Ok tt -> answerable tuple ->
  has_flag (sg_flags seg) TCP_FLAG_RST = false ->
  find_tuple_mut t tuple = None -> matching_listener t tuple = None ->
  receive_packet reserve t tuple seg now entropy = (t, Ok (with_reply (silent None) (Some (reset seg)))).
Proof.
  intros Hv Ha Hr Hf Hl. destruct (answerable_ok _ Ha) as [Ha1 Ha2]. unfold receive_packet.
  by rewrite Hv, Ha1, Ha2, Hf, Hr, Hl.
Qed.

(** The segment that carries [x] for the connection [p], seen from its own side. *)
Definition on_wire (p : TcpTuple) (x : TcpTransmit) : TcpSegment :=
  {| sg_source_port := tt_local_port p; sg_destination_port := tt_remote_port p;
     sg_sequence := tx_sequence x; sg_acknowledgment := tx_acknowledgment x; sg_flags := tx_flags x;
     sg_window := tx_window x; sg_urgent_pointer := 0; sg_options := tx_options x; sg_payload := tx_payload x |}.

Lemma on_segment_connect_reset c seg now :
  tc_state c = SynSent -> has_flag (sg_flags seg) TCP_FLAG_RST = true -> has_flag (sg_flags seg) TCP_FLAG_ACK = true ->
  sg_acknowledgment seg = tc_send_next c -> on_segment c seg now = (abort c, Ok RReset).
Proof.
  intros Hs Hr Ha Hn. unfold on_segment, on_segment_open. rewrite Hs, Hr, Ha, Hn, Z.eqb_refl. reflexivity.
Qed.

(** A connection attempt to a port nobody listens on is refused at once: the first segment of a new active
    connection is answered with a reset, and that reset, delivered back, closes the attempt. *)
Theorem tcp_connection_refused reserve t reserve' h o ct iss mss sc rc rto rl c now tuple entropy
    (Hc : try_connect reserve' h o ct iss mss sc rc rto rl = Ok c)
    (Hports : tt_local_port tuple = tt_remote_port ct /\ tt_remote_port tuple = tt_local_port ct)
    (Haddr : answerable tuple) (Hno : find_tuple_mut t tuple = None) (Hnl : matching_listener t tuple = None) :
  exists c1 syn rst, poll_transmit c now = (c1, Ok (Some syn)) /\
    receive_packet reserve t tuple (on_wire ct syn) now entropy =
      (t, Ok (with_reply (silent None) (Some rst))) /\
    on_segment c1 (on_wire tuple rst) now = (abort c1, Ok RReset).
Proof.
  unfold try_connect in Hc. destruct (_ || _) eqn:Hg; [done |]. destruct (negb _); [done |].
  destruct (negb _); [done |]. destruct (negb _); [done |]. bool_cases. simplify_eq.
  destruct Hports as [Hp1 Hp2]. do 3 eexists. split; [reflexivity |]. split.
  - apply receive_packet_unclaimed; [|done|reflexivity|done|done].
    unfold validate_segment, on_wire. cbn [sg_source_port sg_destination_port].
    rewrite Hp1, Hp2, !Z.eqb_refl, !(proj2 (Z.eqb_neq _ _)) by done. reflexivity.
  - apply on_segment_connect_reset; [reflexivity.. |]. cbn -[wrapping_add32 wrap32 Z.add].
    change (has_flag TCP_FLAG_SYN TCP_FLAG_ACK) with false. cbn iota.
    unfold wrapping_add32. change (len32 []) with 0.
    change (Z.b2z (has_flag TCP_FLAG_SYN TCP_FLAG_SYN)) with 1. change (Z.b2z (has_flag TCP_FLAG_SYN TCP_FLAG_FIN)) with 0.
    rewrite !Z.add_0_r. unfold wrap32. by rewrite Zmod_mod, Zplus_mod_idemp_l.
Qed.

Definition refused_tuple : TcpTuple :=
  {| tt_local_address := [10; 0; 0; 1]; tt_local_port := 40000;
     tt_remote_address := [10; 0; 0; 2]; tt_remote_port := 81 |}.

Lemma tcp_connection_refused_witness :
  exists c c1 syn rst,
    try_connect small_reserve 9 1 refused_tuple 4294967295 1460 100 100 10 3 = Ok c /\
    poll_transmit c 5 = (c1, Ok (Some syn)) /\
    receive_packet small_reserve listening_table
      {| tt_local_address := [10; 0; 0; 2]; tt_local_port := 81;
         tt_remote_address := [10; 0; 0; 1]; tt_remote_port := 40000 |} (on_wire refused_tuple syn) 5 None =
      (listening_table, Ok (with_reply (silent None) (Some rst))) /\
    on_segment c1 (on_wire {| tt_local_address := [10; 0; 0; 2]; tt_local_port := 81;
         tt_remote_address := [10; 0; 0; 1]; tt_remote_port := 40000 |} rst) 5 = (abort c1, Ok RReset).
Proof.
  eexists.
  destruct (tcp_connection_refused small_reserve listening_table small_reserve 9 1 refused_tuple 4294967295 1460 100 100
    10 3 _ 5 {| tt_local_address := [10; 0; 0; 2]; tt_local_port := 81;
         tt_remote_address := [10; 0; 0; 1]; tt_remote_port := 40000 |} None ltac:(reflexivity)
    ltac:(split; reflexivity) ltac:(do 2 eexists; split_and!; [reflexivity | reflexivity | lia..])
    ltac:(reflexivity) ltac:(reflexivity)) as (c1 & syn & rst & H1 & H2 & H3).
  exists c1, syn, rst. split; [reflexivity |]. exact (conj H1 (conj H2 H3)).
Defined.
