(* ===== verification/Text.v ===== *)
(** * Text: the functions of [str], [u8] and the integer parsers that the crates use

    A [&str] is the list of its UTF-8 bytes.  All separators the code searches for are
    ASCII characters, which occur in no multi-byte character, so searching bytes is searching characters. *)

From Stdlib Require Import Ascii String.
From S2P Require Import Prelude.

Definition DOT : Z := 46.

(** The bytes of a string literal. *)
Definition text (s : string) : list Z := map (fun c => Z.of_N (N_of_ascii c)) (list_ascii_of_string s).

(** [str::len]. *)
Definition len (s : list Z) : Z := Z.of_nat (List.length s).

Definition is_ascii (b : Z) : bool := b <? 128.
Definition is_ascii_control (b : Z) : bool := (b <? 32) || (b =? 127).
Definition is_ascii_digit (b : Z) : bool := (48 <=? b) && (b <=? 57).
Definition is_ascii_uppercase (b : Z) : bool := (65 <=? b) && (b <=? 90).
Definition is_ascii_lowercase (b : Z) : bool := (97 <=? b) && (b <=? 122).
Definition is_ascii_alphanumeric (b : Z) : bool :=
  is_ascii_digit b || is_ascii_uppercase b || is_ascii_lowercase b.
Definition to_ascii_lowercase (b : Z) : Z := if is_ascii_uppercase b then b + 32 else b.

(** [str::split] with a character. *)
Fixpoint split_char (sep : Z) (s : list Z) : list (list Z) :=
  match s with
  | [] => [[]]
  | c :: s =>
      if c =? sep then [] :: split_char sep s
      else match split_char sep s with
           | l :: ls => (c :: l) :: ls
           | [] => [[c]]
           end
  end.
Abbreviation split_dot := (split_char DOT).

Definition CR : Z := 13.
Definition LF : Z := 10.
Definition CRLF : list Z := [CR; LF].

(** [str::split("\r\n")]. *)
Fixpoint split_crlf (s : list Z) : list (list Z) :=
  match s with
  | [] => [[]]
  | c :: s' =>
      let other := match split_crlf s' with l :: ls => (c :: l) :: ls | [] => [[c]] end in
      match s' with
      | d :: s'' => if (c =? CR) && (d =? LF) then [] :: split_crlf s'' else other
      | [] => other
      end
  end.

(** [str::lines]: a line ends with a line feed, alone or after a carriage return; the last line may have no
    ending, and then keeps its carriage return. *)
Definition strip_cr (l : list Z) : list Z := match last l with Some c => if c =? CR then removelast l else l | None => l end.
Fixpoint lines_of (parts : list (list Z)) : list (list Z) :=
  match parts with
  | [] => []
  | [l] => if bool_decide (l = []) then [] else [l]
  | l :: parts => strip_cr l :: lines_of parts
  end.
Definition lines (s : list Z) : list (list Z) := lines_of (split_char LF s).

(** [chars().any(char::is_control)]: U+0000 to U+001F and U+007F to U+009F; the last 32 are encoded as 0xC2 and the
    code point, and 0xC2 occurs only as the first byte of a character. *)
Fixpoint contains_control (s : list Z) : bool :=
  match s with
  | [] => false
  | b :: s =>
      (b <? 32) || (b =? 127) || ((b =? 194) && match s with c :: _ => c <=? 159 | [] => false end) || contains_control s
  end.

(** [str::find] with a set of characters. *)
Fixpoint find_char (p : Z -> bool) (s : list Z) : option nat :=
  match s with
  | [] => None
  | c :: s => if p c then Some 0%nat else S <$> find_char p s
  end.

Definition contains_char (c : Z) (s : list Z) : bool := existsb (Z.eqb c) s.

(** [str::split_once] and [str::rsplit_once] with a character. *)
Fixpoint split_once (c : Z) (s : list Z) : option (list Z * list Z) :=
  match s with
  | [] => None
  | x :: s =>
      if x =? c then Some ([], s)
      else match split_once c s with Some (a, b) => Some (x :: a, b) | None => None end
  end.

Fixpoint rsplit_once (c : Z) (s : list Z) : option (list Z * list Z) :=
  match s with
  | [] => None
  | x :: s =>
      match rsplit_once c s with
      | Some (a, b) => Some (x :: a, b)
      | None => if x =? c then Some ([], s) else None
      end
  end.

(** [str::splitn] with a character. *)
Fixpoint splitn (n : nat) (c : Z) (s : list Z) : list (list Z) :=
  match n with
  | O => []
  | S O => [s]
  | S n => match split_once c s with Some (a, b) => a :: splitn n c b | None => [s] end
  end.

(** [str::split(c).next()], which always is something. *)
Definition before_first (c : Z) (s : list Z) : list Z :=
  match split_once c s with Some (a, _) => a | None => s end.

Definition starts_with (p s : list Z) : bool := bool_decide (take (length p) s = p).

Definition strip_prefix (p s : list Z) : option (list Z) :=
  if starts_with p s then Some (drop (length p) s) else None.

Definition ends_with (p s : list Z) : bool :=
  (length p <=? length s)%nat && bool_decide (drop (length s - length p) s = p).

Definition strip_suffix (p s : list Z) : option (list Z) :=
  if ends_with p s then Some (take (length s - length p) s) else None.

(** [str::trim_matches] with a set of characters. *)
Fixpoint trim_start (p : Z -> bool) (s : list Z) : list Z :=
  match s with
  | [] => []
  | c :: s' => if p c then trim_start p s' else s
  end.
Definition trim_matches (p : Z -> bool) (s : list Z) : list Z := rev (trim_start p (rev (trim_start p s))).

Definition lowercase (s : list Z) : list Z := map to_ascii_lowercase s.
Definition eq_ignore_ascii_case (a b : list Z) : bool := bool_decide (lowercase a = lowercase b).

(** [char::to_digit]. *)
Definition to_digit (radix c : Z) : option Z :=
  let d := if is_ascii_digit c then c - 48
           else if is_ascii_uppercase c then c - 55
           else if is_ascii_lowercase c then c - 87 else radix in
  if d <? radix then Some d else None.

(** The digits of an unsigned integer of at most [max]: [checked_mul] and [checked_add]. *)
Fixpoint parse_digits (radix max acc : Z) (s : list Z) : option Z :=
  match s with
  | [] => Some acc
  | c :: s =>
      match to_digit radix c with
      | Some d => if acc * radix + d <=? max then parse_digits radix max (acc * radix + d) s else None
      | None => None
      end
  end.

Definition PLUS : Z := 43.
Definition MINUS : Z := 45.

(** [from_str_radix] of an unsigned type whose largest value is [max]; [None] stands for
    every [ParseIntError].  One leading plus sign is part of the grammar. *)
Definition from_str_radix (radix max : Z) (s : list Z) : option Z :=
  match s with
  | [] => None
  | c :: rest =>
      if c =? PLUS then if bool_decide (rest = []) then None else parse_digits radix max 0 rest
      else parse_digits radix max 0 s
  end.

Definition parse_u32 : list Z -> option Z := from_str_radix 10 U32_MAX.
Definition parse_u16 : list Z -> option Z := from_str_radix 10 U16_MAX.
Definition parse_u64 : list Z -> option Z := from_str_radix 10 U64_MAX.
Definition parse_usize : list Z -> option Z := from_str_radix 10 USIZE_MAX.

(** The decimal text of an unsigned integer of up to 64 bits ([format!("{}", n)]). *)
Fixpoint digits_of (fuel : nat) (z : Z) : list Z :=
  match fuel with
  | O => []
  | S f => if z <? 10 then [48 + z] else digits_of f (z / 10) ++ [48 + z mod 10]
  end.
Definition to_string (z : Z) : list Z := digits_of 20 z.

(** Is a byte a UTF-8 continuation byte within these bounds? *)
Definition cont (lo hi b : Z) : bool := (lo <=? b) && (b <=? hi).

(** [core::str::from_utf8]: the bytes are well-formed UTF-8. *)
Fixpoint from_utf8 (s : list Z) : bool :=
  match s with
  | [] => true
  | b :: s =>
      if b <? 128 then from_utf8 s else
      match s with
      | [] => false
      | c :: s =>
          if cont 194 223 b then cont 128 191 c && from_utf8 s else
          match s with
          | [] => false
          | d :: s =>
              if cont 224 239 b then
                cont (if b =? 224 then 160 else 128) (if b =? 237 then 159 else 191) c
                && cont 128 191 d && from_utf8 s
              else
              match s with
              | [] => false
              | e :: s =>
                  cont 240 244 b && cont (if b =? 240 then 144 else 128) (if b =? 244 then 143 else 191) c
                  && cont 128 191 d && cont 128 191 e && from_utf8 s
              end
          end
      end
  end.

(** [<core::net::Ipv4Addr as FromStr>]: four decimal numbers of at most three digits without a
    leading zero, at most 255, separated by dots. *)
Definition ipv4_octet (s : list Z) : bool :=
  negb (bool_decide (s = [])) && (length s <=? 3)%nat && forallb is_ascii_digit s
  && (bool_decide (length s = 1%nat) || negb (bool_decide (head s = Some 48)))
  && match parse_digits 10 255 0 s with Some _ => true | None => false end.
Definition is_ipv4_addr (s : list Z) : bool :=
  let parts := split_dot s in (length parts =? 4)%nat && forallb ipv4_octet parts.

(** ** Splitting and joining *)

Fixpoint join_char (sep : Z) (ls : list (list Z)) : list Z :=
  match ls with
  | [] => []
  | [l] => l
  | l :: ls => l ++ sep :: join_char sep ls
  end.
Abbreviation join_dot := (join_char DOT).

Definition no_char (sep : Z) (l : list Z) : Prop := Forall (fun b => b <> sep) l.
Abbreviation no_dot := (no_char DOT).

Section Split.
Context {sep : Z}.

Lemma split_char_nonempty s : split_char sep s <> [].
Proof. destruct s as [|c s]; cbn; [done |]. destruct (c =? sep); [done |]. by destruct (split_char sep s). Qed.

Lemma join_cons l ls : ls <> [] -> join_char sep (l :: ls) = l ++ sep :: join_char sep ls.
Proof. by destruct ls. Qed.

Lemma join_split s : join_char sep (split_char sep s) = s.
Proof.
  induction s as [|c s IH]; [done |]. cbn. pose proof (split_char_nonempty s) as Hne.
  destruct (Z.eqb_spec c sep) as [->|].
  - rewrite join_cons by done. by rewrite IH.
  - destruct (split_char sep s) as [|l [|l' ls]]; [done | cbn in *; by subst |].
    rewrite join_cons in IH |- * by done. by rewrite <- IH.
Qed.

Lemma split_no_char s : Forall (no_char sep) (split_char sep s).
Proof.
  induction s as [|c s IH]; cbn; [by repeat constructor |].
  destruct (Z.eqb_spec c sep); [constructor; [constructor | done] |].
  destruct (split_char sep s) as [|l ls]; [by repeat constructor |].
  apply Forall_cons in IH as [? ?]. by repeat constructor.
Qed.

Lemma split_char_app l s : no_char sep l -> split_char sep (l ++ sep :: s) = l :: split_char sep s.
Proof.
  induction 1 as [|c l Hc _ IH]; [cbn; by rewrite Z.eqb_refl |]. cbn. rewrite (proj2 (Z.eqb_neq _ _)) by done. by rewrite IH.
Qed.

Lemma split_char_single l : no_char sep l -> split_char sep l = [l].
Proof.
  induction 1 as [|c l Hc _ IH]; [done |]. cbn. rewrite (proj2 (Z.eqb_neq _ _)) by done. by rewrite IH.
Qed.

Lemma split_join ls : ls <> [] -> Forall (no_char sep) ls -> split_char sep (join_char sep ls) = ls.
Proof.
  intros Hne Hls. induction Hls as [|l ls Hl Hls IH]; [done |].
  destruct ls as [|l' ls]; [by apply split_char_single |].
  rewrite join_cons by done. rewrite split_char_app by done. f_equal. by apply IH.
Qed.

Lemma split_char_map f s :
  (forall b, f b = sep <-> b = sep) -> split_char sep (map f s) = map (map f) (split_char sep s).
Proof.
  intros Hf. induction s as [|c s IH]; [done |]. cbn.
  destruct (Z.eqb_spec c sep) as [->|Hc].
  - rewrite (proj2 (Hf sep) eq_refl), Z.eqb_refl. by rewrite IH.
  - rewrite (proj2 (Z.eqb_neq _ _)) by (rewrite Hf; done). rewrite IH. by destruct (split_char sep s).
Qed.

End Split.

(** ** Case and digits *)

Lemma lowercase_cases b :
  (is_ascii_uppercase b = true /\ to_ascii_lowercase b = b + 32 /\ 65 <= b <= 90) \/
  (is_ascii_uppercase b = false /\ to_ascii_lowercase b = b).
Proof.
  unfold to_ascii_lowercase. destruct (is_ascii_uppercase b) eqn:E; [left | by right].
  unfold is_ascii_uppercase in E. bool_cases. split_and!; (done || lia).
Qed.

Lemma lowercase_is_not_upper b : is_ascii_uppercase (to_ascii_lowercase b) = false.
Proof.
  destruct (lowercase_cases b) as [(_ & -> & ?)|[? ->]]; [|done].
  unfold is_ascii_uppercase. apply andb_false_iff. lia.
Qed.

Lemma lowercase_fixed b : is_ascii_uppercase b = false -> to_ascii_lowercase b = b.
Proof. intros H. unfold to_ascii_lowercase. by rewrite H. Qed.

Lemma lowercase_char b c : c < 65 -> to_ascii_lowercase b = c <-> b = c.
Proof. intros Hc. destruct (lowercase_cases b) as [(_ & -> & ?)|[? ->]]; lia. Qed.

Lemma map_lowercase_fixed l : Forall (fun b => is_ascii_uppercase b = false) l -> map to_ascii_lowercase l = l.
Proof. induction 1; cbn; [done |]. by rewrite lowercase_fixed, IHForall. Qed.

Lemma map_lowercase_lower l : Forall (fun b => is_ascii_uppercase b = false) (map to_ascii_lowercase l).
Proof. apply Forall_map, Forall_true. intros b. apply lowercase_is_not_upper. Qed.

Lemma last_map {A B} (f : A -> B) l : last (map f l) = f <$> last l.
Proof. induction l as [|x [|y l] IH]; [done | done |]. exact IH. Qed.

Lemma bytes_by_cases (P : Z -> bool) :
  forallb P (map Z.of_nat (List.seq 0 256)) = true -> forall b, is_u8 b -> P b = true.
Proof.
  intros H b Hb. rewrite forallb_forall in H. apply H, in_map_iff. exists (Z.to_nat b). widths.
  rewrite in_seq. lia.
Qed.

Lemma digits_no_dot l : forallb is_ascii_digit l = true -> no_dot l.
Proof.
  intros H. apply Forall_forall. intros b Hb. rewrite forallb_forall in H.
  specialize (H b (proj1 (list_elem_of_In _ _) Hb)). unfold is_ascii_digit in H. bool_cases. unfold DOT. lia.
Qed.

(** ** Searching and splitting *)

Lemma Forall_name_neq (c : Z) (s : list Z) : Forall (fun b => b <> c) s <-> c ∉ s.
Proof.
  rewrite Forall_forall. split; [intros H Hc; by apply (H c Hc) |]. intros H b Hb ->. done.
Qed.

Lemma contains_char_true c s : contains_char c s = true <-> c ∈ s.
Proof.
  unfold contains_char. rewrite existsb_elem. split; [intros (x & Hx & H); bool_cases; by subst |].
  intros H. exists c. split; [done | apply Z.eqb_refl].
Qed.

Lemma contains_char_false c s : contains_char c s = false <-> c ∉ s.
Proof. rewrite <- contains_char_true. by destruct (contains_char c s). Qed.

Lemma split_once_Some c s a b : split_once c s = Some (a, b) <-> s = a ++ c :: b /\ c ∉ a.
Proof.
  revert a. induction s as [|x s IH]; intros a; cbn.
  { split; [done |]. intros [H _]. by destruct a. }
  destruct (Z.eqb_spec x c) as [->|Hx].
  - split; [intros [= <- <-]; split; [done | apply not_elem_of_nil] |].
    intros [H Hc]. destruct a as [|y a]; cbn in H; simplify_eq; [done |]. set_solver.
  - split.
    + destruct (split_once c s) as [[a' b']|]; [|done]. intros [= <- <-].
      destruct (proj1 (IH a') eq_refl) as [-> ?]. split; [done |]. set_solver.
    + intros [H Hc]. destruct a as [|y a]; cbn in H; simplify_eq.
      rewrite (proj2 (IH a)); [done |]. split; [done | set_solver].
Qed.

Lemma split_once_None c s : split_once c s = None <-> c ∉ s.
Proof.
  induction s as [|x s IH]; cbn; [split; [intros _; apply not_elem_of_nil | done] |].
  destruct (Z.eqb_spec x c) as [->|Hx]; [split; [done | set_solver] |].
  destruct (split_once c s) as [[]|]; rewrite not_elem_of_cons; [split; [done | naive_solver] |].
  split; [|done]. intros _. split; [congruence | by apply IH].
Qed.

Lemma rsplit_once_None c s : rsplit_once c s = None <-> c ∉ s.
Proof.
  induction s as [|x s IH]; cbn; [split; [intros _; apply not_elem_of_nil | done] |].
  destruct (rsplit_once c s) as [[]|]; rewrite not_elem_of_cons; [split; [done | naive_solver] |].
  destruct (Z.eqb_spec x c) as [->|Hx]; [naive_solver |]. split; [|done]. intros _. split; [congruence | by apply IH].
Qed.

Lemma rsplit_once_Some c s a b : rsplit_once c s = Some (a, b) <-> s = a ++ c :: b /\ c ∉ b.
Proof.
  revert a b. induction s as [|x s IH]; intros a b; cbn.
  { split; [done |]. intros [H _]. by destruct a. }
  pose proof (rsplit_once_None c s) as HN. destruct (rsplit_once c s) as [[a' b']|]; split.
  - intros [= <- <-]. destruct (proj1 (IH a' b') eq_refl) as [-> Hb]. done.
  - intros [H Hc]. destruct a as [|y a]; cbn in H; simplify_eq; [by apply HN in Hc |].
    by injection (proj2 (IH a b) (conj eq_refl Hc)) as -> ->.
  - destruct (Z.eqb_spec x c) as [->|]; [|done]. intros [= <- <-]. naive_solver.
  - intros [H Hc]. destruct a as [|y a]; cbn in H; simplify_eq; [by rewrite Z.eqb_refl |].
    assert (c ∉ a ++ c :: b) by (by apply HN). set_solver.
Qed.

(** The position a search stops at, or the end of the text. *)
Abbreviation find_or_end p s := (default (List.length s) (find_char p s)).

Lemma find_or_end_split p s :
  (find_or_end p s <= List.length s)%nat /\
  Forall (fun c => p c = false) (take (find_or_end p s) s) /\
  (drop (find_or_end p s) s = [] \/ exists c t, drop (find_or_end p s) s = c :: t /\ p c = true).
Proof.
  induction s as [|c s (IHl & IHa & IHb)]; cbn; [split_and!; auto |].
  destruct (p c) eqn:Hp; cbn; [split_and!; eauto using Nat.le_0_l |].
  destruct (find_char p s) as [i|]; cbn in *; (split_and!; [lia | by constructor | done]).
Qed.

Lemma find_or_end_app p a t :
  Forall (fun c => p c = false) a -> (t = [] \/ exists c t', t = c :: t' /\ p c = true) ->
  find_or_end p (a ++ t) = List.length a.
Proof.
  intros Ha Ht. induction Ha as [|c a Hc Ha IH]; cbn.
  - destruct Ht as [->|(c & t' & -> & Hc)]; [done |]. cbn. by rewrite Hc.
  - rewrite Hc. destruct (find_char p (a ++ t)); cbn in *; lia.
Qed.

Lemma starts_with_spec p s : starts_with p s = true <-> exists t, s = p ++ t.
Proof.
  unfold starts_with. rewrite bool_decide_eq_true. split.
  - intros H. exists (drop (List.length p) s). rewrite <- H at 1. by rewrite take_drop.
  - intros [t ->]. by rewrite take_app_length.
Qed.

Lemma starts_with_false_nil p s : starts_with p s = false -> forall t, s <> p ++ t.
Proof. intros H t ->. assert (starts_with p (p ++ t) = true) by (apply starts_with_spec; eauto). congruence. Qed.

Lemma strip_prefix_Some p s t : strip_prefix p s = Some t <-> s = p ++ t.
Proof.
  unfold strip_prefix. destruct (starts_with p s) eqn:E.
  - apply starts_with_spec in E as [t' ->]. rewrite drop_app_length. split; [by intros [= ->] |].
    intros H. f_equal. by apply app_inv_head in H.
  - split; [done |]. intros H. by apply (starts_with_false_nil _ _ E) in H.
Qed.

Lemma ends_with_spec p s : ends_with p s = true <-> exists t, s = t ++ p.
Proof.
  unfold ends_with. rewrite andb_true_iff, bool_decide_eq_true, Nat.leb_le. split.
  - intros [Hl H]. exists (take (List.length s - List.length p) s). rewrite <- H at 2. by rewrite take_drop.
  - intros [t ->]. rewrite length_app. split; [lia |]. by rewrite Nat.add_sub, drop_app_length.
Qed.

Lemma strip_suffix_Some p s t : strip_suffix p s = Some t <-> s = t ++ p.
Proof.
  unfold strip_suffix. destruct (ends_with p s) eqn:E.
  - apply ends_with_spec in E as [t' ->]. rewrite length_app, Nat.add_sub, take_app_length.
    split; [by intros [= ->] |]. intros H. f_equal. by apply app_inv_tail in H.
  - split; [done |]. intros ->. assert (ends_with p (t ++ p) = true) by (apply ends_with_spec; eauto). congruence.
Qed.

(** ** Lines *)

Fixpoint join_crlf (ls : list (list Z)) : list Z :=
  match ls with
  | [] => []
  | [l] => l
  | l :: ls => l ++ CRLF ++ join_crlf ls
  end.

Lemma join_crlf_cons l ls : ls <> [] -> join_crlf (l :: ls) = l ++ CRLF ++ join_crlf ls.
Proof. by destruct ls. Qed.

(** No line ending occurs in the text. *)
Definition no_crlf (l : list Z) : Prop := forall a b, l <> a ++ CRLF ++ b.

Lemma no_crlf_nil : no_crlf [].
Proof. intros a b. by destruct a. Qed.

Lemma no_crlf_cons c l :
  no_crlf (c :: l) <-> no_crlf l /\ (c = CR -> head l <> Some LF).
Proof.
  split.
  - intros H. split; [intros a b ->; by apply (H (c :: a) b) |]. intros -> Hh.
    destruct l as [|d l]; [done |]. injection Hh as ->. by apply (H [] l).
  - intros [H Hc] a b Heq. destruct a as [|x a]; cbn in Heq; simplify_eq; [by apply Hc |]. by apply (H a b).
Qed.

Lemma no_cr_no_crlf l : CR ∉ l -> no_crlf l.
Proof. intros H a b ->. apply H. unfold CRLF. set_solver. Qed.

Lemma split_crlf_nonempty s : split_crlf s <> [].
Proof.
  destruct s as [|c [|d s]]; cbn; [done | done |]. destruct (_ && _); [done |].
  by case_match.
Qed.

Lemma split_crlf_cons_other c s :
  ~ (c = CR /\ head s = Some LF) ->
  exists l ls, split_crlf s = l :: ls /\ split_crlf (c :: s) = (c :: l) :: ls.
Proof.
  intros H. destruct (split_crlf s) as [|l ls] eqn:E; [by apply split_crlf_nonempty in E |].
  exists l, ls. split; [done |]. cbn [split_crlf]. rewrite E. destruct s as [|d s]; [done |].
  destruct (Z.eqb_spec c CR) as [->|]; [|done]. destruct (Z.eqb_spec d LF) as [->|]; [|done].
  exfalso. by apply H.
Qed.

Lemma split_crlf_crlf s : split_crlf (CRLF ++ s) = [] :: split_crlf s.
Proof. done. Qed.

Lemma split_crlf_single l : no_crlf l -> split_crlf l = [l].
Proof.
  induction l as [|c l IH]; [done |]. intros [Hl Hc]%no_crlf_cons.
  destruct (split_crlf_cons_other c l) as (l' & ls & H1 & H2); [naive_solver |].
  rewrite (IH Hl) in H1. simplify_eq. done.
Qed.

(** A line, a line ending and the rest; a carriage return at the end of the line would be ambiguous only
    together with a line feed, which [no_crlf (l ++ [CR])] cannot hide. *)
Lemma split_crlf_app l s : no_crlf (l ++ [CR]) -> split_crlf (l ++ CRLF ++ s) = l :: split_crlf s.
Proof.
  induction l as [|c l IH]; [done |]. rewrite <- app_comm_cons. intros [Hl Hc]%no_crlf_cons.
  rewrite <- app_comm_cons.
  destruct (split_crlf_cons_other c (l ++ CRLF ++ s)) as (l' & ls & H1 & H2).
  { intros [-> Hh]. apply (Hc eq_refl). destruct l; [done |]. done. }
  rewrite IH in H1 by done. simplify_eq. done.
Qed.

Lemma join_split_crlf s : join_crlf (split_crlf s) = s.
Proof.
  induction s as [s IH] using (induction_ltof1 _ (@List.length Z)). unfold ltof in IH.
  destruct s as [|c s]; [done |].
  destruct (decide (c = CR /\ head s = Some LF)) as [[-> Hh]|H].
  - destruct s as [|d s]; [done |]. injection Hh as ->. change (CR :: LF :: s) with (CRLF ++ s).
    rewrite split_crlf_crlf, join_crlf_cons by apply split_crlf_nonempty. by rewrite IH by (cbn; lia).
  - destruct (split_crlf_cons_other c s H) as (l & ls & H1 & H2). rewrite H2.
    specialize (IH s ltac:(cbn; lia)). rewrite H1 in IH. destruct ls; cbn in *; by rewrite IH.
Qed.

Lemma split_crlf_join ls : ls <> [] -> Forall (fun l => CR ∉ l) ls -> split_crlf (join_crlf ls) = ls.
Proof.
  intros Hne H. induction H as [|l ls Hl H IH]; [done |].
  destruct ls as [|l' ls]; [by apply split_crlf_single, no_cr_no_crlf |].
  rewrite join_crlf_cons by done. rewrite split_crlf_app; [by rewrite IH |].
  intros a b Heq. assert (CR ∉ l) as Hn by done.
  destruct b as [|x b _] using rev_ind.
  - rewrite app_nil_r in Heq. change CRLF with ([CR] ++ [LF]) in Heq. rewrite app_assoc in Heq.
    apply app_inj_tail in Heq as [_ Heq]. done.
  - change CRLF with ([CR; LF]) in Heq. rewrite app_assoc, app_assoc in Heq. apply app_inj_tail in Heq as [-> _].
    apply Hn. set_solver.
Qed.

(** ** Numbers *)

Lemma to_digit_10 c d : to_digit 10 c = Some d <-> is_ascii_digit c = true /\ d = c - 48.
Proof.
  unfold to_digit, is_ascii_digit, is_ascii_uppercase, is_ascii_lowercase.
  destruct (Z.leb_spec 48 c), (Z.leb_spec c 57), (Z.leb_spec 65 c), (Z.leb_spec c 90),
    (Z.leb_spec 97 c), (Z.leb_spec c 122); cbn; try lia; try case_match; bool_cases; naive_solver lia.
Qed.

Lemma to_digit_range r c d : to_digit r c = Some d -> 0 <= d < r.
Proof.
  unfold to_digit, is_ascii_digit, is_ascii_uppercase, is_ascii_lowercase.
  destruct (Z.leb_spec 48 c), (Z.leb_spec c 57), (Z.leb_spec 65 c), (Z.leb_spec c 90),
    (Z.leb_spec 97 c), (Z.leb_spec c 122); cbn; case_match; bool_cases; intros [= <-]; lia.
Qed.

Lemma parse_digits_app r m acc s t :
  parse_digits r m acc (s ++ t) = parse_digits r m acc s ≫= fun v => parse_digits r m v t.
Proof.
  revert acc. induction s as [|c s IH]; intros acc; cbn; [done |].
  destruct (to_digit r c); [|done]. by destruct (_ <=? _).
Qed.

Lemma parse_digits_range r m acc s v :
  0 <= r -> 0 <= acc <= m -> parse_digits r m acc s = Some v -> 0 <= v <= m.
Proof.
  intros Hr. revert acc. induction s as [|c s IH]; intros acc Ha; cbn; [by intros [= <-] |].
  destruct (to_digit r c) as [d|] eqn:E; [|done]. apply to_digit_range in E.
  destruct (Z.leb_spec (acc * r + d) m); [|done]. apply IH. nia.
Qed.

Lemma parse_digits_decimal m acc s v :
  parse_digits 10 m acc s = Some v -> Forall (fun c => is_ascii_digit c = true) s.
Proof.
  revert acc. induction s as [|c s IH]; intros acc; cbn; [by constructor |].
  destruct (to_digit 10 c) as [d|] eqn:E; [|done]. apply to_digit_10 in E as [? _].
  destruct (_ <=? _); [|done]. constructor; [done |]. by eapply IH.
Qed.

Lemma from_str_radix_range r m s v : 0 <= r -> 0 <= m -> from_str_radix r m s = Some v -> 0 <= v <= m.
Proof.
  intros Hr Hm. unfold from_str_radix. destruct s as [|c s]; [done |].
  destruct (c =? PLUS); [case_bool_decide; [done |]|]; apply parse_digits_range; lia.
Qed.

(** The characters that a decimal number consists of. *)
Definition number_char (c : Z) : Prop := is_ascii_digit c = true \/ c = PLUS.

Lemma from_str_radix_chars m s v :
  from_str_radix 10 m s = Some v ->
  s <> [] /\ Forall number_char s /\ exists c, last s = Some c /\ is_ascii_digit c = true.
Proof.
  unfold from_str_radix, number_char. destruct s as [|c s]; [done |]. intros H. split; [done |].
  assert (exists p t, c :: s = p ++ t /\ (p = [] \/ p = [PLUS]) /\ t <> [] /\ Forall (fun c => is_ascii_digit c = true) t)
    as (p & t & -> & Hp & Ht & Hd).
  { destruct (Z.eqb_spec c PLUS) as [->|].
    - case_bool_decide; [done |]. exists [PLUS], s. split_and!; eauto using parse_digits_decimal.
    - exists [], (c :: s). split_and!; eauto using parse_digits_decimal. }
  split.
  - apply Forall_app. split; [destruct Hp as [-> | ->]; [constructor | apply Forall_singleton; by right] |].
    eapply Forall_impl; [exact Hd |]. auto.
  - destruct t as [|x t _] using rev_ind; [done |]. rewrite app_assoc, last_snoc. exists x. split; [done |].
    apply Forall_app in Hd as [_ Hd]. exact (Forall_inv Hd).
Qed.

Lemma digits_of_ok f z m :
  (0 < f)%nat -> 0 <= z < 10 ^ Z.of_nat f -> z <= m ->
  digits_of f z <> [] /\ Forall (fun c => is_ascii_digit c = true) (digits_of f z) /\
  parse_digits 10 m 0 (digits_of f z) = Some z.
Proof.
  revert z. induction f as [|f IH]; intros z Hf Hz Hm; [lia |].
  assert (forall d, 0 <= d < 10 -> is_ascii_digit (48 + d) = true /\ to_digit 10 (48 + d) = Some d) as Hd.
  { intros d Hd. assert (is_ascii_digit (48 + d) = true) by (unfold is_ascii_digit; lia).
    split; [done |]. apply to_digit_10. split; [done | lia]. }
  cbn [digits_of]. destruct (Z.ltb_spec z 10).
  - destruct (Hd z) as [H1 H2]; [lia |]. split_and!; [done | by repeat constructor |].
    cbn. rewrite H2. cbn. by rewrite (proj2 (Z.leb_le _ _)) by lia.
  - rewrite Nat2Z.inj_succ, Z.pow_succ_r in Hz by lia.
    destruct (IH (z / 10)) as (H1 & H2 & H3); [destruct f; [cbn in Hz; lia | lia] | divlia | divlia |].
    destruct (Hd (z mod 10)) as [H4 H5]; [divlia |]. split_and!.
    + by destruct (digits_of f (z / 10)).
    + apply Forall_app. by repeat constructor.
    + rewrite parse_digits_app, H3. cbn. rewrite H5. rewrite (proj2 (Z.leb_le _ _)) by divlia. f_equal. divlia.
Qed.

Lemma digit_not_plus c : is_ascii_digit c = true -> (c =? PLUS) = false.
Proof. unfold is_ascii_digit, PLUS. intros. bool_cases. lia. Qed.

(** Printing a number and reading it back. *)
Lemma to_string_parse z m :
  0 <= z <= U64_MAX -> z <= m ->
  to_string z <> [] /\ Forall (fun c => is_ascii_digit c = true) (to_string z) /\
  from_str_radix 10 m (to_string z) = Some z.
Proof.
  intros Hz Hm. destruct (digits_of_ok 20 z m) as (H1 & H2 & H3);
    [lia | change (10 ^ Z.of_nat 20) with 100000000000000000000; unfold U64_MAX in Hz; lia | done |].
  fold (to_string z) in *. split_and!; [done | done |].
  unfold from_str_radix. destruct (to_string z) as [|c s]; [done |].
  apply Forall_cons in H2 as [Hc _]. by rewrite digit_not_plus.
Qed.

Lemma eq_ignore_ascii_case_refl s : eq_ignore_ascii_case s s = true.
Proof. apply bool_decide_eq_true_2. done. Qed.

Lemma from_utf8_ascii s : Forall (fun b => b < 128) s -> from_utf8 s = true.
Proof. induction 1 as [|b s Hb Hs IH]; [done |]. cbn. by rewrite (proj2 (Z.ltb_lt _ _)). Qed.

(** Lines that were written with a line feed each are read back. *)
Lemma lines_unlines ls :
  Forall (fun l => no_char LF l /\ CR ∉ l) ls -> lines (concat (map (fun l => l ++ [LF]) ls)) = ls.
Proof.
  unfold lines. induction 1 as [|l ls [Hl Hc] Hls IH]; [done |]. cbn [map concat]. rewrite <- app_assoc. cbn [app].
  rewrite split_char_app by done. pose proof (split_char_nonempty (sep := LF) (concat (map (fun l => l ++ [LF]) ls))) as Hne.
  destruct (split_char LF _) as [|p ps]; [done |]. cbn [lines_of]. f_equal; [|exact IH].
  unfold strip_cr. destruct (last l) as [c|] eqn:E; [|done]. destruct (Z.eqb_spec c CR) as [->|]; [|done].
  exfalso. by apply Hc, last_Some_elem_of.
Qed.
