(* ===== verification/Fields.v ===== *)
(** * Fixed layouts: little-endian numbers and records of fields at fixed offsets *)

From S2P Require Import Prelude Text.

(** ** Little-endian numbers *)

Fixpoint from_le (s : list Z) : Z := match s with [] => 0 | b :: s => b + 256 * from_le s end.
Fixpoint to_le (n : nat) (z : Z) : list Z := match n with O => [] | S n => z mod 256 :: to_le n (z / 256) end.

Definition zeros (n : nat) : list Z := replicate n 0.

Lemma zeros_u8 n : Forall is_u8 (zeros n).
Proof. apply Forall_replicate. unfold is_u8. lia. Qed.

Lemma to_le_length n v : List.length (to_le n v) = n.
Proof. revert v. induction n as [|n IH]; intros v; cbn; [done |]. by rewrite IH. Qed.

Lemma to_le_bytes n v : Forall is_u8 (to_le n v).
Proof. revert v. induction n as [|n IH]; intros v; cbn; constructor; [|apply IH]. unfold is_u8. pose proof (Z.mod_pos_bound v 256). lia. Qed.

Lemma from_to_le n v : 0 <= v < 256 ^ Z.of_nat n -> from_le (to_le n v) = v.
Proof.
  revert v. induction n as [|n IH]; intros v Hv; cbn [from_le to_le].
  - change (256 ^ Z.of_nat 0) with 1 in Hv. lia.
  - rewrite Nat2Z.inj_succ, Z.pow_succ_r in Hv by lia. rewrite IH; divlia.
Qed.

Lemma from_le_range s : Forall is_u8 s -> 0 <= from_le s < 256 ^ len s.
Proof.
  induction 1 as [|b s Hb _ IH]; [done |]. unfold len in *. cbn [from_le length]. rewrite Nat2Z.inj_succ, Z.pow_succ_r by lia.
  unfold is_u8 in Hb. nia.
Qed.

Lemma to_from_le s : Forall is_u8 s -> to_le (List.length s) (from_le s) = s.
Proof.
  induction 1 as [|b s Hb _ IH]; [done |]. cbn [from_le to_le length]. unfold is_u8 in Hb.
  replace ((b + 256 * from_le s) mod 256) with b by divlia. replace ((b + 256 * from_le s) / 256) with (from_le s) by divlia. by rewrite IH.
Qed.

(** ** Records of fields

    A buffer with a fixed layout is the concatenation of its fields; [ns] are their lengths. *)

Definition layout (ns : list nat) (ps : list (list Z)) : Prop := List.length <$> ps = ns.
Definition offset (ns : list nat) (k : nat) : nat := sum_list (take k ns).

Lemma layout_exists ns : forall l, List.length l = sum_list ns -> exists ps, l = concat ps /\ layout ns ps.
Proof.
  induction ns as [|n ns IH]; intros l Hl; cbn in Hl; [exists []; by apply nil_length_inv in Hl as -> |].
  destruct (IH (drop n l)) as (ps & E & Hps); [rewrite length_drop; lia |]. exists (take n l :: ps). cbn. rewrite <- E, take_drop. split; [done |].
  unfold layout in *. cbn. rewrite Hps, length_take. f_equal. lia.
Qed.

Lemma layout_length ns ps : layout ns ps -> List.length (concat ps) = sum_list ns.
Proof. intros <-. induction ps as [|p ps IH]; [done |]. cbn. by rewrite length_app, IH. Qed.

Lemma concat_split (ps : list (list Z)) k p : ps !! k = Some p -> concat ps = concat (take k ps) ++ p ++ concat (drop (S k) ps).
Proof. intros H. rewrite <- (take_drop_middle _ _ _ H) at 1. by rewrite concat_app. Qed.

Lemma concat_take_length ns ps k : layout ns ps -> List.length (concat (take k ps)) = offset ns k.
Proof. intros <-. unfold offset. rewrite <- fmap_take. by apply layout_length. Qed.

Lemma offset_S ns k n : ns !! k = Some n -> offset ns (S k) = (offset ns k + n)%nat.
Proof. intros H. unfold offset. rewrite (take_S_r _ _ _ H), sum_list_with_app. cbn. lia. Qed.

Section Layout.
Context (ns : list nat) (ps : list (list Z)) (Hns : layout ns ps).

Lemma field_length k p : ps !! k = Some p -> ns !! k = Some (List.length p).
Proof using Hns. intros H. by rewrite <- Hns, list_lookup_fmap, H. Qed.

Lemma slice_field {E} k p a b : ps !! k = Some p -> a = offset ns k -> b = offset ns (S k) -> slice (E := E) (concat ps) a b = Ok p.
Proof using Hns.
  intros H -> ->. rewrite (concat_split _ _ _ H). pose proof (concat_take_length _ _ k Hns) as Hl.
  apply slice_middle; [done |]. by apply offset_S, field_length.
Qed.

Lemma slice_fields {E} k b : b = offset ns k -> slice (E := E) (concat ps) 0 b = Ok (concat (take k ps)).
Proof using Hns.
  intros ->. rewrite <- (take_drop k ps) at 1. rewrite concat_app, <- (concat_take_length _ _ k Hns). apply slice_prefix.
Qed.

Lemma idx_field {E} k v a : ps !! k = Some [v] -> a = offset ns k -> idx (E := E) (concat ps) a = Ok v.
Proof using Hns.
  intros H ->. rewrite (concat_split _ _ _ H), <- (concat_take_length _ _ k Hns). unfold idx. by rewrite lookup_app_r, Nat.sub_diag.
Qed.

(** A field, or the beginning of one, is overwritten. *)
Lemma copy_prefix_into {E} k p src a b : ps !! k = Some p -> (List.length src <= List.length p)%nat -> a = offset ns k -> b = (a + List.length src)%nat ->
  copy_into (E := E) (concat ps) a b src = Ok (concat (<[k := src ++ drop (List.length src) p]> ps)).
Proof using Hns.
  intros H Hl -> ->. pose proof (concat_take_length _ _ k Hns) as Ho.
  rewrite (concat_split _ _ _ H). unfold copy_into. rewrite !length_app, Ho.
  rewrite (proj2 (Nat.leb_le _ _)) by lia. rewrite (proj2 (Nat.leb_le _ _)) by lia. rewrite (proj2 (Nat.eqb_eq _ _)) by lia. cbn [andb]. f_equal.
  rewrite <- Ho, take_app_length, <- drop_drop, drop_app_length, drop_app_le by lia.
  apply lookup_lt_Some in H as Hk. rewrite (concat_split (<[k := src ++ drop (List.length src) p]> ps) k (src ++ drop (List.length src) p)) by (by apply list_lookup_insert_eq).
  rewrite take_insert_ge by lia. rewrite drop_insert_lt by lia. by rewrite <- app_assoc.
Qed.

Lemma copy_field_into {E} k p src a b : ps !! k = Some p -> List.length src = List.length p -> a = offset ns k -> b = (a + List.length src)%nat ->
  copy_into (E := E) (concat ps) a b src = Ok (concat (<[k := src]> ps)).
Proof using Hns. intros H Hl Ha Hb. rewrite (copy_prefix_into k p) by (done || lia). by rewrite drop_ge, app_nil_r by lia. Qed.

Lemma layout_insert k p src : ps !! k = Some p -> List.length src = List.length p -> layout ns (<[k := src]> ps).
Proof using Hns. intros H Hl. unfold layout. rewrite list_fmap_insert, Hl, Hns. by apply list_insert_id, field_length. Qed.
End Layout.

Lemma zeros_concat ns : zeros (sum_list ns) = concat (zeros <$> ns) /\ layout ns (zeros <$> ns).
Proof.
  split.
  - induction ns as [|n ns IH]; [done |]. cbn. rewrite <- IH. unfold zeros. by rewrite <- replicate_add.
  - unfold layout, zeros. induction ns as [|n ns IH]; [done |]. cbn. by rewrite length_replicate, IH.
Qed.

Lemma all_zero s : forallb (Z.eqb 0) s = true <-> s = zeros (List.length s).
Proof.
  unfold zeros. induction s as [|b s IH]; [done |]. cbn [forallb length replicate]. rewrite andb_true_iff, Z.eqb_eq, IH.
  split; [intros [<- ->]; by rewrite length_replicate | intros [= -> E]; by rewrite <- E].
Qed.

Lemma layout_inj ns : forall ps qs, layout ns ps -> layout ns qs -> concat ps = concat qs -> ps = qs.
Proof.
  unfold layout. induction ns as [|n ns IH]; intros [|p ps] [|q qs] Hp Hq E; cbn in *; try done.
  injection Hp as Hp Hps. injection Hq as Hq Hqs. apply app_inj_1 in E as [-> E]; [|congruence]. f_equal. by apply IH.
Qed.

Lemma concat_bytes ps : Forall is_u8 (concat ps) <-> Forall (Forall is_u8) ps.
Proof. induction ps as [|p ps IH]; cbn; [split; constructor |]. by rewrite Forall_app, Forall_cons, IH. Qed.

Lemma from_le_inj s v : Forall is_u8 s -> 0 <= v < 256 ^ len s -> from_le s = v <-> s = to_le (List.length s) v.
Proof.
  intros Hs Hv. unfold len in Hv. split.
  - intros <-. by rewrite to_from_le.
  - intros E. rewrite E. by apply from_to_le.
Qed.
