(* ===== verification/DnsName.v ===== *)
(** * Host names and address literals ([network-stack/src/dns.rs])

    A [&str] is the list of its UTF-8 bytes; ['.'] is the byte 46, which occurs in no multi-byte
    character.  [DnsName] is the normalized text that [parse] produces. *)

From S2P Require Import Prelude Text.

(** ** The code *)

Definition DNS_PORT : Z := 53.
Definition DNS_MAX_MESSAGE_LEN : nat := 512.
Definition DNS_MAX_NAME_LEN : nat := 253.
Definition DNS_MAX_LABEL_LEN : nat := 63.
Definition DNS_HEADER_LEN : nat := 12.

Inductive DnsResponseCode : Type :=
  | NoError | FormatError | ServerFailure | NameError | NotImplemented | Refused.
#[export] Instance DnsResponseCode_eq_dec : EqDecision DnsResponseCode.
Proof. solve_decision. Defined.

Inductive DnsError : Type :=
  | EmptyName | NameTooLong | LabelTooLong | EmptyLabel | InvalidCharacter | InvalidHyphen
  | BufferTooSmall | MessageTooLarge | Truncated | InvalidHeader | TransactionMismatch
  | QuestionMismatch | Response (code : DnsResponseCode) | UnsupportedResponseCode (code : Z)
  | UnsupportedExtendedResponseCode (code : Z) | UnsupportedRecord | InvalidRecordLength
  | PointerOutOfBounds | PointerLoop | InvalidPointer | TruncatedResponse | AliasLoop | AliasDepth
  | ConflictingAlias | NoData | CacheCapacity | Timeout | RetryLimit.
#[export] Instance DnsError_eq_dec : EqDecision DnsError.
Proof. solve_decision. Defined.

Definition HYPHEN : Z := 45.

(** [input.strip_suffix('.').unwrap_or(input)]. *)
Definition strip_dot (s : list Z) : list Z :=
  match last s with
  | Some c => if c =? DOT then removelast s else s
  | None => s
  end.

Definition DnsName : Type := list Z.

(** The loop of [DnsName::parse] over [input.split('.').enumerate()]. *)
Fixpoint parse_labels (index : nat) (labels : list (list Z)) (normalized : list Z)
    : result DnsError DnsName :=
  match labels with
  | [] => Ok normalized
  | label :: labels =>
      if bool_decide (label = []) then Err EmptyLabel else
      if (DNS_MAX_LABEL_LEN <? length label)%nat then Err LabelTooLong else
      if bool_decide (head label = Some HYPHEN) || bool_decide (last label = Some HYPHEN)
      then Err InvalidHyphen else
      if existsb (fun byte => negb (is_ascii_alphanumeric byte) && negb (byte =? HYPHEN)) label
      then Err InvalidCharacter else
      let normalized := if negb (index =? 0)%nat then normalized ++ [DOT] else normalized in
      parse_labels (S index) labels (normalized ++ map to_ascii_lowercase label)
  end.

Definition DnsName_parse (input : list Z) : result DnsError DnsName :=
  let input := strip_dot input in
  if bool_decide (input = []) then Err EmptyName else
  if (DNS_MAX_NAME_LEN <? length input)%nat then Err NameTooLong else
  if negb (forallb is_ascii input) then Err InvalidCharacter else
  parse_labels 0 (split_dot input) [].

(** [u8::try_from] of a length. *)
Definition try_u8 (n : nat) : option Z := if Z.of_nat n <=? 255 then Some (Z.of_nat n) else None.

(** The loop of [DnsName::encode]. *)
Fixpoint encode_labels (labels : list (list Z)) (offset : nat) (out : list Z)
    : result DnsError (nat * list Z) :=
  match labels with
  | [] => Ok (offset, out)
  | label :: labels =>
      let? len := ok_or (try_u8 (length label)) LabelTooLong in
      let? out := set_idx out offset len in
      let offset := (offset + 1)%nat in
      let? out := copy_into out offset (offset + length label) label in
      encode_labels labels (offset + length label) out
  end.

Definition DnsName_encode (self : DnsName) (out : list Z) : result DnsError (nat * list Z) :=
  let? required := ok_or (checked_add (length self) 2) NameTooLong in
  if (length out <? required)%nat then Err BufferTooSmall else
  let? (offset, out) := encode_labels (split_dot self) 0 out in
  let? out := set_idx out offset 0 in
  Ok ((offset + 1)%nat, out).

(** The digits of one part: [value.checked_mul(10)?.checked_add(digit)?], at most 255. *)
Fixpoint parse_octet (value : Z) (part : list Z) : option Z :=
  match part with
  | [] => Some value
  | byte :: part =>
      if value * 10 <=? U16_MAX then
        if value * 10 + (byte - 48) <=? U16_MAX then
          let value := value * 10 + (byte - 48) in
          if 255 <? value then None else parse_octet value part
        else None
      else None
  end.

(** The loop of [parse_ipv4_literal]; [address] holds the parts read so far. *)
Fixpoint parse_parts (parts : list (list Z)) (address : list Z) : option (list Z) :=
  match parts with
  | [] => if (length address =? 4)%nat then Some address else None
  | part :: parts =>
      if (4 <=? length address)%nat || bool_decide (part = []) || negb (forallb is_ascii_digit part)
      then None
      else match parse_octet 0 part with
           | Some value => parse_parts parts (address ++ [value])
           | None => None
           end
  end.

Definition parse_ipv4_literal (input : list Z) : option (list Z) := parse_parts (split_dot input) [].

Definition decode_response_code (code : Z) : result DnsError DnsResponseCode :=
  if code =? 0 then Ok NoError else
  if code =? 1 then Ok FormatError else
  if code =? 2 then Ok ServerFailure else
  if code =? 3 then Ok NameError else
  if code =? 4 then Ok NotImplemented else
  if code =? 5 then Ok Refused else Err (UnsupportedResponseCode code).

Definition dns_read_u16 (packet : list Z) (offset : nat) : result DnsError Z :=
  let? b := ok_or (get_range packet offset (offset + 2)) Truncated in
  let? b0 := idx b 0 in let? b1 := idx b 1 in
  Ok (u16_from_be b0 b1).

Definition dns_read_u32 (packet : list Z) (offset : nat) : result DnsError Z :=
  let? b := ok_or (get_range packet offset (offset + 4)) Truncated in
  let? b0 := idx b 0 in let? b1 := idx b 1 in let? b2 := idx b 2 in let? b3 := idx b 3 in
  Ok (u32_from_be b0 b1 b2 b3).

(** ** Parsing *)

Definition name_char (b : Z) : Prop := is_ascii_alphanumeric b = true \/ b = HYPHEN.

(** A label of a host name, in either case. *)
Definition label_ok (l : list Z) : Prop :=
  l <> [] /\ (length l <= DNS_MAX_LABEL_LEN)%nat /\ head l <> Some HYPHEN /\ last l <> Some HYPHEN /\
  Forall name_char l.

(** A host name in the normal form that [parse] produces. *)
Definition hostname_wf (s : DnsName) : Prop :=
  (length s <= DNS_MAX_NAME_LEN)%nat /\ Forall label_ok (split_dot s) /\ Forall (fun b => is_ascii_uppercase b = false) s.

Lemma lowercase_name_char b : name_char b -> name_char (to_ascii_lowercase b).
Proof.
  unfold name_char. intros [H| ->]; [left | by right]. destruct (lowercase_cases b) as [(_ & -> & ?)|[? ->]]; [|done].
  unfold is_ascii_alphanumeric, is_ascii_lowercase. apply orb_true_iff. right. lia.
Qed.

Lemma label_ok_lower l : label_ok l -> label_ok (map to_ascii_lowercase l).
Proof.
  intros (Hne & Hlen & Hh & Hl & Hc). unfold label_ok. rewrite length_map, last_map. split_and!.
  - by destruct l.
  - done.
  - destruct l as [|x l]; [done |]. cbn. intros [= H]. apply Hh. cbn. f_equal. by apply (lowercase_char x HYPHEN) in H.
  - destruct (last l) as [x|]; [|done]. cbn. intros [= H]. apply Hl. f_equal. by apply (lowercase_char x HYPHEN) in H.
  - apply Forall_map. eapply Forall_impl; [exact Hc |]. apply lowercase_name_char.
Qed.

Lemma name_char_ascii b : name_char b -> is_ascii b = true /\ b <> DOT.
Proof.
  unfold name_char, is_ascii_alphanumeric, is_ascii_digit, is_ascii_uppercase, is_ascii_lowercase, is_ascii.
  intros [H| ->]; [|done]. repeat (apply orb_true_iff in H as [H|H]); bool_cases; unfold DOT; split; lia.
Qed.

Lemma existsb_name_char l :
  existsb (fun byte => negb (is_ascii_alphanumeric byte) && negb (byte =? HYPHEN)) l = false <-> Forall name_char l.
Proof.
  rewrite existsb_none, Forall_forall. unfold name_char. split; intros H b Hb; specialize (H b Hb).
  - apply andb_false_iff in H as [H|H]; bool_cases; auto.
  - apply andb_false_iff. destruct H as [-> | ->]; [by left | by right].
Qed.

Lemma parse_labels_ok ls : forall i acc s,
  parse_labels i ls acc = Ok s <->
  Forall label_ok ls /\
  s = acc ++ match i with
             | O => join_dot (map (map to_ascii_lowercase) ls)
             | S _ => concat (map (fun l => DOT :: map to_ascii_lowercase l) ls)
             end.
Proof.
  assert (forall l ls, join_dot (l :: map (map to_ascii_lowercase) ls) =
    l ++ concat (map (fun l => DOT :: map to_ascii_lowercase l) ls)) as Hjoin.
  { intros l ls'. revert l. induction ls' as [|l' ls' IH]; intros l; [by cbn; rewrite app_nil_r |].
    cbn [map]. rewrite join_cons, IH by done. done. }
  induction ls as [|l ls IH]; intros i acc s; cbn [parse_labels].
  - split; [intros [= <-] | intros [_ ->]]; [split; [done |]|]; destruct i; cbn; by rewrite app_nil_r.
  - rewrite Forall_cons. unfold label_ok at 1. rewrite <- existsb_name_char.
    case_bool_decide; [naive_solver |]. destruct (Nat.ltb_spec DNS_MAX_LABEL_LEN (length l)); [naive_solver lia |].
    case_bool_decide; [naive_solver |]. case_bool_decide; [naive_solver |].
    destruct (existsb _ l); [naive_solver |]. cbn [orb]. rewrite IH.
    destruct i; cbn [Nat.eqb negb map].
    + rewrite Hjoin, app_assoc. naive_solver.
    + cbn [concat]. rewrite <- !app_assoc. cbn. naive_solver.
Qed.

Lemma strip_dot_nodot s : last s <> Some DOT -> strip_dot s = s.
Proof.
  intros H. unfold strip_dot. destruct (last s) as [c|]; [|done].
  rewrite (proj2 (Z.eqb_neq _ _)); congruence.
Qed.

Lemma labels_ascii s : Forall label_ok (split_dot s) -> forallb is_ascii s = true.
Proof.
  intros H. apply forallb_forall. intros b Hb. apply list_elem_of_In in Hb.
  rewrite <- (@join_split DOT s) in Hb. revert Hb. induction H as [|l ls Hl Hls IH]; [by intros ?%not_elem_of_nil |].
  destruct Hl as (_ & _ & _ & _ & Hc). rewrite Forall_forall in Hc.
  assert (b ∈ l -> is_ascii b = true) as Hin by (intros Hb; by apply name_char_ascii, Hc).
  destruct ls as [|l' ls]; [done |]. rewrite join_cons by done.
  intros [Hb|[->|Hb]%elem_of_cons]%elem_of_app; [by apply Hin | done | by apply IH].
Qed.

Lemma parse_exact input s :
  DnsName_parse input = Ok s <->
  (length (strip_dot input) <= DNS_MAX_NAME_LEN)%nat /\ Forall label_ok (split_dot (strip_dot input)) /\
  s = map to_ascii_lowercase (strip_dot input).
Proof.
  unfold DnsName_parse. set (i := strip_dot input). clearbody i.
  case_bool_decide as Hi.
  { subst i. cbn. split; [done |]. intros (_ & Hl%Forall_cons & _). by destruct Hl as [(? & _) _]. }
  destruct (Nat.ltb_spec DNS_MAX_NAME_LEN (length i)); [naive_solver lia |].
  assert (join_dot (map (map to_ascii_lowercase) (split_dot i)) = map to_ascii_lowercase i) as Hj.
  { rewrite <- split_char_map by (intros b; by apply lowercase_char). apply join_split. }
  destruct (forallb is_ascii i) eqn:Ha; cbn [negb].
  - rewrite parse_labels_ok, Hj. cbn. naive_solver.
  - split; [done |]. intros (_ & Hl & _). apply labels_ascii in Hl. congruence.
Qed.

Lemma labels_last s : Forall label_ok (split_dot s) -> last s <> Some DOT /\ s <> [].
Proof.
  intros H. split.
  - destruct s as [|c s _] using rev_ind; [done |]. rewrite last_snoc. intros [= ->].
    rewrite <- (@join_split DOT s) in H.
    assert (split_dot (join_dot (split_dot s) ++ [DOT]) = split_dot s ++ [[]]) as Hs.
    { clear H. pose proof (@split_no_char DOT s) as Hn. pose proof (@split_char_nonempty DOT s) as Hne.
      induction Hn as [|l ls Hl Hls IH]; [done |]. destruct ls as [|l' ls].
      - cbn. by rewrite split_char_app.
      - rewrite join_cons, <- app_assoc, <- app_comm_cons, split_char_app by done. rewrite IH by done. done. }
    rewrite Hs in H. apply Forall_app in H as [_ H%Forall_cons]. by destruct H as [(? & _) _].
  - intros ->. apply Forall_cons in H as [(? & _) _]. done.
Qed.

Lemma parse_wf input s : DnsName_parse input = Ok s -> hostname_wf s.
Proof.
  intros (Hlen & Hl & ->)%parse_exact. unfold hostname_wf. rewrite length_map. split_and!; [done | |].
  - rewrite split_char_map by (intros b; by apply lowercase_char).
    apply Forall_map. eapply Forall_impl; [exact Hl |]. apply label_ok_lower.
  - apply map_lowercase_lower.
Qed.

Lemma parse_hostname s : hostname_wf s -> DnsName_parse s = Ok s.
Proof.
  intros (Hlen & Hl & Hu). apply parse_exact. rewrite strip_dot_nodot by (by apply labels_last).
  by rewrite map_lowercase_fixed.
Qed.

Lemma parse_labels_no_panic ls : forall i acc, parse_labels i ls acc <> Panic.
Proof.
  induction ls as [|l ls IH]; intros i acc; cbn [parse_labels]; [done |].
  case_bool_decide; [done |]. destruct (_ <? _)%nat; [done |]. destruct (_ || _); [done |].
  destruct (existsb _ l); [done |]. apply IH.
Qed.

Lemma parse_no_panic input : DnsName_parse input <> Panic.
Proof.
  unfold DnsName_parse. case_bool_decide; [done |]. destruct (_ <? _)%nat; [done |].
  destruct (negb _); [done |]. apply parse_labels_no_panic.
Qed.

(** ** Wire form *)

(** The labels of a name with their length octets, and the whole name with its root. *)
Definition wire_labels (ls : list (list Z)) : list Z := concat (map (fun l => Z.of_nat (length l) :: l) ls).
Definition wire_of (ls : list (list Z)) : list Z := wire_labels ls ++ [0].

Lemma wire_labels_cons l ls : wire_labels (l :: ls) = Z.of_nat (length l) :: l ++ wire_labels ls.
Proof. done. Qed.

Lemma length_wire_join ls : ls <> [] -> length (wire_labels ls) = S (length (join_dot ls)).
Proof.
  induction ls as [|l ls IH]; [done |]. intros _. rewrite wire_labels_cons. cbn [length]. rewrite length_app.
  destruct ls as [|l' ls]; [cbn; lia |]. rewrite IH, (join_cons l), length_app by done. cbn. lia.
Qed.

Lemma length_wire_split s : length (wire_labels (split_dot s)) = S (length s).
Proof. rewrite length_wire_join by apply split_char_nonempty. by rewrite join_split. Qed.

Lemma take_app_drop_take {A} (out s : list A) k :
  (k + length s <= length out)%nat ->
  take (k + length s) (take k out ++ s ++ drop (k + length s) out) = take k out ++ s.
Proof. intros. rewrite app_assoc. apply take_app_length'. rewrite length_app, length_take. lia. Qed.

(** Writing [t] behind [s] in a buffer is writing [s ++ t]. *)
Lemma copy_into_snoc {E} out k s t :
  (k + length s + length t <= length out)%nat ->
  copy_into (E := E) (take k out ++ s ++ drop (k + length s) out) (k + length s) (k + length s + length t) t =
  Ok (take k out ++ (s ++ t) ++ drop (k + length (s ++ t)) out).
Proof.
  intros H. rewrite copy_into_in; [| rewrite !length_app, length_take, length_drop; lia | lia].
  rewrite take_app_drop_take by lia. rewrite <- !app_assoc. do 3 f_equal.
  rewrite app_assoc. rewrite drop_app_ge; rewrite length_app, length_take, Nat.min_l by lia; [|lia].
  rewrite drop_drop, length_app. do 2 f_equal. lia.
Qed.

Lemma encode_labels_spec ls : forall out k s,
  Forall (fun l => (length l <= DNS_MAX_LABEL_LEN)%nat) ls ->
  (k + length s + length (wire_labels ls) <= length out)%nat ->
  encode_labels ls (k + length s) (take k out ++ s ++ drop (k + length s) out) =
  Ok ((k + length (s ++ wire_labels ls))%nat,
      take k out ++ (s ++ wire_labels ls) ++ drop (k + length (s ++ wire_labels ls)) out).
Proof.
  induction ls as [|l ls IH]; intros out k s Hls Hlen; [cbn; by rewrite app_nil_r |].
  apply Forall_cons in Hls as [Hl Hls]. rewrite wire_labels_cons in *. cbn [length encode_labels] in *.
  rewrite length_app in Hlen. unfold DNS_MAX_LABEL_LEN in Hl.
  unfold try_u8. rewrite (proj2 (Z.leb_le _ _)) by lia. cbn [ok_or]. unfold set_idx.
  pose proof (copy_into_snoc (E := DnsError) out k s [Z.of_nat (length l)] ltac:(cbn; lia)) as H1. cbn [length] in H1.
  rewrite Nat.add_1_r in H1 |- *. rewrite H1.
  pose proof (copy_into_snoc (E := DnsError) out k (s ++ [Z.of_nat (length l)]) l
    ltac:(rewrite length_app; cbn; lia)) as H2.
  replace (k + length (s ++ [Z.of_nat (length l)]))%nat with (S (k + length s)) in H2
    by (rewrite length_app; cbn; lia).
  replace (k + length (s ++ [Z.of_nat (length l)]))%nat with (S (k + length s))
    by (rewrite length_app; cbn; lia).
  rewrite H2. pose proof (IH out k ((s ++ [Z.of_nat (length l)]) ++ l) Hls) as H3.
  replace (k + length ((s ++ [Z.of_nat (length l)]) ++ l))%nat with (S (k + length s) + length l)%nat in H3
    by (rewrite !length_app; cbn; lia).
  replace (k + length ((s ++ [Z.of_nat (length l)]) ++ l))%nat with (S (k + length s) + length l)%nat
    by (rewrite !length_app; cbn; lia).
  rewrite H3 by lia. rewrite <- !app_assoc. cbn [app]. by rewrite <- !app_assoc.
Qed.

Lemma encode_spec s out :
  hostname_wf s -> (length s + 2 <= length out)%nat ->
  DnsName_encode s out =
    Ok ((length s + 2)%nat, wire_of (split_dot s) ++ drop (length s + 2) out).
Proof.
  intros (Hlen & Hl & _) Hout. unfold DnsName_encode, DNS_MAX_NAME_LEN in *.
  rewrite checked_add_small by (widths; lia). cbn [ok_or]. rewrite (proj2 (Nat.ltb_ge _ _)) by lia.
  pose proof (length_wire_split s) as Hw.
  pose proof (encode_labels_spec (split_dot s) out 0 [] ltac:(eapply Forall_impl; [exact Hl |]; intros ? H; apply H))
    as H1. cbn [length app Nat.add] in H1. rewrite take_0, drop_0, Hw in H1. cbn [app] in H1. rewrite H1 by lia.
  unfold set_idx.
  pose proof (copy_into_snoc (E := DnsError) out 0 (wire_labels (split_dot s)) [0] ltac:(cbn; lia)) as H2.
  cbn [Nat.add length] in H2. rewrite take_0, length_app, Hw in H2. cbn [app] in H2. cbn [length] in H2.
  rewrite Nat.add_1_r in H2. rewrite H2. unfold wire_of. f_equal. f_equal; [lia |]. do 2 f_equal. lia.
Qed.

(** ** Claims *)

(** [DnsName::parse] accepts exactly the texts that, after one optional final dot, have at most 253
    bytes and consist of labels of one to 63 letters, digits and inner hyphens; it returns the text in
    lower case, and parsing that again changes nothing. *)
Theorem DnsName_parse_exact input s :
  (DnsName_parse input = Ok s <->
   (length (strip_dot input) <= DNS_MAX_NAME_LEN)%nat /\ Forall label_ok (split_dot (strip_dot input)) /\
   s = map to_ascii_lowercase (strip_dot input)) /\
  (DnsName_parse input = Ok s -> DnsName_parse s = Ok s) /\
  DnsName_parse input <> Panic.
Proof.
  split_and!; [apply parse_exact | intros H; by eapply parse_hostname, parse_wf | apply parse_no_panic].
Qed.

(** ** Decimal octets *)

(** The decimal text of a byte. *)
Definition decimal (b : Z) : list Z :=
  (if 100 <=? b then [48 + b / 100] else []) ++ (if 10 <=? b then [48 + b / 10 mod 10] else []) ++ [48 + b mod 10].

Definition dotted (address : list Z) : list Z := join_dot (map decimal address).

Definition decimal_check (b : Z) : bool :=
  (0 <? length (decimal b))%nat && forallb is_ascii_digit (decimal b)
  && match parse_octet 0 (decimal b) with Some v => v =? b | None => false end.

Lemma decimal_ok b :
  is_u8 b ->
  decimal b <> [] /\ forallb is_ascii_digit (decimal b) = true /\ parse_octet 0 (decimal b) = Some b.
Proof.
  intros Hb. pose proof (bytes_by_cases decimal_check ltac:(vm_compute; reflexivity) b Hb) as H.
  unfold decimal_check in H. bool_cases. split_and!; [by destruct (decimal b); cbn in *; [lia |] | done |].
  destruct (parse_octet 0 (decimal b)); [|done]. bool_cases. by subst.
Qed.

Lemma parse_parts_decimal l : forall acc,
  bytes l -> (length acc + length l = 4)%nat -> parse_parts (map decimal l) acc = Some (acc ++ l).
Proof.
  induction l as [|b l IH]; intros acc Hb Hlen; cbn [map parse_parts].
  - rewrite app_nil_r. cbn in Hlen. by rewrite (proj2 (Nat.eqb_eq _ _)) by lia.
  - apply Forall_cons in Hb as [Hb Hl]. destruct (decimal_ok b Hb) as (H1 & H2 & H3). cbn [length] in Hlen.
    rewrite (proj2 (Nat.leb_gt _ _)) by lia. rewrite bool_decide_eq_false_2 by done. rewrite H2, H3. cbn.
    rewrite IH by (rewrite ?length_app; cbn; first [done | lia]). by rewrite <- app_assoc.
Qed.

Lemma parse_octet_range part : forall v r, 0 <= v < 256 -> forallb is_ascii_digit part = true ->
  parse_octet v part = Some r -> is_u8 r.
Proof.
  induction part as [|d part IH]; intros v r Hv Hd; cbn; [intros [= <-]; done |].
  cbn in Hd. unfold is_ascii_digit in Hd at 1. apply andb_true_iff in Hd as [Hd1 Hd2]. bool_cases.
  intros Hr. flow. eapply IH; [|done|done]. lia.
Qed.

Lemma parse_parts_arr ls : forall acc r, bytes acc -> parse_parts ls acc = Some r -> arr 4 r.
Proof.
  induction ls as [|l ls IH]; intros acc r Ha Hr; cbn [parse_parts] in Hr.
  - destruct (Nat.eqb_spec (length acc) 4); by simplify_eq.
  - destruct (_ || _) eqn:Hg; [done |]. bool_cases. destruct (parse_octet 0 l) as [v|] eqn:Hv; [|done].
    eapply IH; [|exact Hr]. apply Forall_app. split; [done |]. apply Forall_singleton.
    eapply parse_octet_range; [|done|done]. lia.
Qed.

(** [parse_ipv4_literal] reads back the dotted decimal text of every address, and whatever it accepts
    is a four-byte address. *)
Theorem parse_ipv4_literal_roundtrip address (Ha : arr 4 address) :
  parse_ipv4_literal (dotted address) = Some address /\
  (forall input a, parse_ipv4_literal input = Some a -> arr 4 a).
Proof.
  destruct Ha as [Hl Hb]. split.
  - unfold parse_ipv4_literal, dotted. rewrite split_join; [by apply parse_parts_decimal | by destruct address |].
    apply Forall_map. eapply Forall_impl; [exact Hb |]. intros b Hb'. by apply digits_no_dot, decimal_ok.
  - intros input a. apply parse_parts_arr. constructor.
Qed.

Lemma parse_ipv4_literal_roundtrip_witness : parse_ipv4_literal (dotted [10; 0; 2; 255]) = Some [10; 0; 2; 255].
Proof.
  apply (parse_ipv4_literal_roundtrip [10; 0; 2; 255]). split; [reflexivity | solve_bytes].
Defined.
