(* ===== verification/DnsWire.v ===== *)
(** * Wire names and queries ([network-stack/src/dns/records.rs], names and encoder)

    Offsets are [nat]: every slice is at most [isize::MAX] bytes long, so the additions of small
    constants to offsets inside it cannot overflow [usize].  The loops carry fuel; a
    loop that ran out of it would answer [Panic], and the theorems exclude [Panic]. *)

From S2P Require Import Prelude Text DnsName.

(** ** The code *)

Definition DNS_MAX_WIRE_MESSAGE_LEN : Z := U16_MAX.
Definition DNS_MAX_ALIAS_DEPTH : nat := 16.
Definition MAX_NAME_WIRE_LEN : nat := 255.

(** The bytes of an uncompressed absolute name. *)
Definition DnsRecordName : Type := list Z.

(** The loop of [from_wire]; every turn but the last consumes at least two bytes of [wire]. *)
Fixpoint from_wire_loop (fuel : nat) (wire : list Z) (offset : nat) (normalized : list Z)
    : result DnsError DnsRecordName :=
  match fuel with
  | O => Panic
  | S fuel =>
      let? len := ok_or (wire !! offset) Truncated in
      if Z.of_nat DNS_MAX_LABEL_LEN <? len then Err LabelTooLong else
      let normalized := normalized ++ [len] in
      let offset := (offset + 1)%nat in
      if len =? 0 then
        if negb (offset =? length wire)%nat then Err InvalidHeader else Ok normalized
      else
        let end_ := (offset + Z.to_nat len)%nat in
        let? label := ok_or (get_range wire offset end_) Truncated in
        from_wire_loop fuel wire end_ (normalized ++ map to_ascii_lowercase label)
  end.

Definition from_wire (wire : list Z) : result DnsError DnsRecordName :=
  if (MAX_NAME_WIRE_LEN <? length wire)%nat then Err NameTooLong else
  from_wire_loop (S (length wire)) wire 0 [].

(** The loop of [hostname]. *)
Fixpoint hostname_loop (fuel : nat) (self : DnsRecordName) (offset : nat) (text : list Z)
    : result DnsError (list Z) :=
  match fuel with
  | O => Panic
  | S fuel =>
      let? len := idx self offset in
      if negb (len =? 0) then
        let offset := (offset + 1)%nat in
        let text := if negb (bool_decide (text = [])) then text ++ [DOT] else text in
        let? label := slice self offset (offset + Z.to_nat len) in
        if existsb (fun byte => negb (is_ascii byte) || (byte =? DOT)) label then Err InvalidCharacter else
        hostname_loop fuel self (offset + Z.to_nat len) (text ++ label)
      else Ok text
  end.

Definition hostname (self : DnsRecordName) : result DnsError DnsName :=
  let? text := hostname_loop (S (length self)) self 0 [] in
  DnsName_parse text.

(** The three digits of one byte in [reverse_ipv4]. *)
Definition reverse_octet (byte : Z) : list Z :=
  let digits := [48 + byte / 100; 48 + (byte / 10) mod 10; 48 + byte mod 10] in
  let start := if 100 <=? byte then 0%nat else if 10 <=? byte then 1%nat else 2%nat in
  Z.of_nat (3 - start) :: drop start digits.

Definition IN_ADDR_ARPA : list Z := [7; 105; 110; 45; 97; 100; 100; 114; 4; 97; 114; 112; 97; 0].
Definition IP6_ARPA : list Z := [3; 105; 112; 54; 4; 97; 114; 112; 97; 0].

Definition reverse_ipv4 (address : list Z) : DnsRecordName :=
  concat (map reverse_octet (rev address)) ++ IN_ADDR_ARPA.

Definition HEX : list Z := [48; 49; 50; 51; 52; 53; 54; 55; 56; 57; 97; 98; 99; 100; 101; 102].

(** The loop of [reverse_ipv6]; the index into [HEX] is a nibble. *)
Fixpoint reverse_nibbles (bytes : list Z) (wire : list Z) : result DnsError (list Z) :=
  match bytes with
  | [] => Ok wire
  | byte :: bytes =>
      let? low := idx HEX (Z.to_nat (Z.land byte 15)) in
      let? high := idx HEX (Z.to_nat (Z.shiftr byte 4)) in
      reverse_nibbles bytes (wire ++ [1; low; 1; high])
  end.

Definition reverse_ipv6 (address : list Z) : result DnsError DnsRecordName :=
  let? wire := reverse_nibbles (rev address) [] in
  Ok (wire ++ IP6_ARPA).

(** [From<&DnsName>]; [len() as u8] keeps the low byte. *)
Definition DnsRecordName_from (name : DnsName) : DnsRecordName :=
  concat (map (fun label => Z.of_nat (length label) mod 256 :: label) (split_dot name)) ++ [0].

Inductive DnsRecordType : Type := A | Ns | Soa | Ptr | Mx | Txt | Aaaa | Srv.
#[export] Instance DnsRecordType_eq_dec : EqDecision DnsRecordType.
Proof. solve_decision. Defined.

Definition record_type_u16 (kind : DnsRecordType) : Z :=
  match kind with
  | A => 1 | Ns => 2 | Soa => 6 | Ptr => 12 | Mx => 15 | Txt => 16 | Aaaa => 28 | Srv => 33
  end.

Definition encode_dns_record_query (transaction_id : Z) (name : DnsRecordName) (kind : DnsRecordType)
    (out : list Z) : result DnsError (nat * list Z) :=
  let len := (DNS_HEADER_LEN + length name + 4)%nat in
  let? message := ok_or (get_range out 0 len) BufferTooSmall in
  let? message := fill message 0 DNS_HEADER_LEN 0 in
  let? message := copy_into message 0 2 (u16_to_be transaction_id) in
  let? message := copy_into message 2 4 (u16_to_be 256) in
  let? message := copy_into message 4 6 (u16_to_be 1) in
  let question_end := (DNS_HEADER_LEN + length name)%nat in
  let? message := copy_into message DNS_HEADER_LEN question_end name in
  let? message := copy_into message question_end (question_end + 2) (u16_to_be (record_type_u16 kind)) in
  let? message := copy_into message (question_end + 2) len (u16_to_be 1) in
  Ok (len, message ++ drop len out).

Definition encode_dns_query (transaction_id : Z) (name : DnsName) (out : list Z)
    : result DnsError (nat * list Z) :=
  encode_dns_record_query transaction_id (DnsRecordName_from name) A out.

(** The loop of [decode_record_name].  A label lengthens [wire], which is bounded, and a pointer
    lowers [pointer_ceiling]; so [start] and 256 more turns are enough. *)
Fixpoint record_name_loop (fuel : nat) (packet : list Z) (limit : nat) (wire : list Z) (offset : nat)
    (next : option nat) (pointer_ceiling : nat) : result DnsError (DnsRecordName * nat) :=
  match fuel with
  | O => Panic
  | S fuel =>
      let boundary := if bool_decide (next = None) then limit else length packet in
      if (boundary <=? offset)%nat then Err Truncated else
      let? len := ok_or (packet !! offset) Truncated in
      if Z.land len 192 =? 192 then
        if (boundary <? offset + 2)%nat then Err Truncated else
        let? low := ok_or (packet !! (offset + 1)%nat) Truncated in
        let target := Z.to_nat (Z.lor (Z.shiftl (Z.land len 63) 8) low) in
        if (length packet <=? target)%nat then Err PointerOutOfBounds else
        if (target =? offset)%nat then Err PointerLoop else
        if (target <? DNS_HEADER_LEN)%nat || (offset <? target)%nat then Err InvalidPointer else
        if (pointer_ceiling <=? target)%nat then Err PointerLoop else
        let next := match next with Some n => Some n | None => Some (offset + 2)%nat end in
        record_name_loop fuel packet limit wire target next target
      else
      if negb (Z.land len 192 =? 0) then Err InvalidHeader else
      let end_ := (offset + 1 + Z.to_nat len)%nat in
      if (boundary <? end_)%nat then Err Truncated else
      let? label := ok_or (get_range packet (offset + 1) end_) Truncated in
      if (MAX_NAME_WIRE_LEN <? length wire + 1 + length label)%nat then Err NameTooLong else
      let wire := wire ++ len :: map to_ascii_lowercase label in
      let offset := end_ in
      if len =? 0 then Ok (wire, match next with Some n => n | None => offset end)
      else record_name_loop fuel packet limit wire offset next pointer_ceiling
  end.

Definition decode_record_name (packet : list Z) (start limit : nat) : result DnsError (DnsRecordName * nat) :=
  record_name_loop (start + 256) packet limit [] start None start.

(** ** Well-formed wire names *)

(** A label as it is kept: any bytes but upper-case letters. *)
Definition wire_label (l : list Z) : Prop :=
  (1 <= length l <= DNS_MAX_LABEL_LEN)%nat /\ bytes l /\ Forall (fun b => is_ascii_uppercase b = false) l.

Definition wire_name (w : DnsRecordName) : Prop :=
  exists ls, Forall wire_label ls /\ w = wire_of ls /\ (length w <= MAX_NAME_WIRE_LEN)%nat.

Lemma wire_of_cons l ls : wire_of (l :: ls) = Z.of_nat (length l) :: l ++ wire_of ls.
Proof. unfold wire_of. rewrite wire_labels_cons. cbn. by rewrite <- app_assoc. Qed.

Lemma wire_of_bytes ls : Forall wire_label ls -> bytes (wire_of ls).
Proof.
  unfold wire_of. intros H. apply Forall_app. split; [|solve_bytes]. induction H as [|l ls (Hl & Hb & _) _ IH]; [constructor |].
  rewrite wire_labels_cons. unfold DNS_MAX_LABEL_LEN in Hl. apply Forall_cons. split; [widths; lia |].
  by apply Forall_app.
Qed.

Lemma wire_labels_snoc ls l : wire_labels (ls ++ [l]) = wire_labels ls ++ Z.of_nat (length l) :: l.
Proof. unfold wire_labels. rewrite map_app, concat_app. cbn. by rewrite app_nil_r. Qed.

Lemma wire_label_lower l :
  (1 <= length l <= DNS_MAX_LABEL_LEN)%nat -> bytes l -> wire_label (map to_ascii_lowercase l).
Proof.
  intros Hl Hb. unfold wire_label. rewrite length_map. split_and!; [lia | lia | | apply map_lowercase_lower].
  apply Forall_map. eapply Forall_impl; [exact Hb |]. intros b Hb'.
  destruct (lowercase_cases b) as [(_ & -> & ?)|[_ ->]]; widths; lia.
Qed.

Lemma wire_name_first w : wire_name w -> exists b rest, w = b :: rest.
Proof. intros (ls & _ & -> & _). destruct ls; cbn; eauto. Qed.

(** ** [from_wire] *)

Lemma lookup_pre {B} (pre : list B) x rest : (pre ++ x :: rest) !! length pre = Some x.
Proof. by rewrite list_lookup_middle. Qed.

Lemma get_range_middle pre s post :
  get_range (pre ++ s ++ post) (length pre) (length pre + length s) = Some s.
Proof.
  rewrite get_range_in by (rewrite !length_app; lia).
  by rewrite drop_app_length, Nat.add_sub', take_app_length.
Qed.

(** The position after a length octet: [pre] grows by it. *)
Lemma range_after_length pre n l post :
  get_range (pre ++ n :: l ++ post) (length pre + 1) (length pre + 1 + length l) = Some l.
Proof.
  replace (pre ++ n :: l ++ post) with ((pre ++ [n]) ++ l ++ post) by (by rewrite <- app_assoc).
  replace (length pre + 1)%nat with (length (pre ++ [n])) by (rewrite length_app; cbn; lia).
  apply get_range_middle.
Qed.

Lemma from_wire_loop_complete ls : forall fuel pre acc,
  Forall (fun l => (1 <= length l <= DNS_MAX_LABEL_LEN)%nat) ls -> (length ls < fuel)%nat ->
  from_wire_loop fuel (pre ++ wire_of ls) (length pre) acc = Ok (acc ++ wire_of (map (map to_ascii_lowercase) ls)).
Proof.
  induction ls as [|l ls IH]; intros [|fuel] pre acc Hls Hf; [lia | | cbn in Hf; lia |]; cbn [from_wire_loop].
  - unfold wire_of, wire_labels. cbn [map concat app]. rewrite lookup_pre. cbn -[length].
    rewrite length_app. cbn [length]. by rewrite Nat.eqb_refl.
  - apply Forall_cons in Hls as [Hl Hls]. rewrite wire_of_cons, lookup_pre. cbn [ok_or].
    unfold DNS_MAX_LABEL_LEN in *. rewrite (proj2 (Z.ltb_ge _ _)) by lia.
    rewrite (proj2 (Z.eqb_neq _ _)) by lia. rewrite Nat2Z.id, range_after_length. cbn [ok_or map].
    replace (pre ++ Z.of_nat (length l) :: l ++ wire_of ls) with ((pre ++ Z.of_nat (length l) :: l) ++ wire_of ls)
      by (by rewrite <- app_assoc).
    replace (length pre + 1 + length l)%nat with (length (pre ++ Z.of_nat (length l) :: l))
      by (rewrite length_app; cbn; lia).
    cbn [length] in Hf. rewrite IH by first [done | lia]. rewrite wire_of_cons, length_map, <- !app_assoc. done.
Qed.

Lemma drop_lookup (l : list Z) o x : l !! o = Some x -> drop o l = x :: drop (S o) l.
Proof. intros H. by apply drop_S. Qed.

Lemma get_range_drop l a b s : get_range l a b = Some s -> drop a l = s ++ drop b l.
Proof.
  intros (? & ? & ->)%get_range_Some. rewrite <- (take_drop (b - a) (drop a l)) at 1. f_equal.
  rewrite drop_drop. f_equal. lia.
Qed.

Lemma from_wire_loop_sound fuel : forall wire offset acc,
  bytes wire -> (offset <= length wire < offset + fuel)%nat ->
  from_wire_loop fuel wire offset acc <> Panic /\
  forall n, from_wire_loop fuel wire offset acc = Ok n ->
    exists ls, Forall (fun l => (1 <= length l <= DNS_MAX_LABEL_LEN)%nat) ls /\ drop offset wire = wire_of ls /\
      n = acc ++ wire_of (map (map to_ascii_lowercase) ls).
Proof.
  induction fuel as [|fuel IH]; intros wire offset acc Hb Hf; [lia |]. cbn [from_wire_loop].
  destruct (wire !! offset) as [len|] eqn:Hlen; cbn [ok_or]; [|done].
  pose proof (bytes_lookup _ _ _ Hb Hlen) as Hu. apply drop_lookup in Hlen as Hd.
  destruct (Z.ltb_spec (Z.of_nat DNS_MAX_LABEL_LEN) len) as [|Hmax]; [done |].
  destruct (Z.eqb_spec len 0) as [->|Hnz].
  - destruct (Nat.eqb_spec (offset + 1) (length wire)) as [He|]; [|done]. cbn [negb]. split; [done |].
    intros n [= <-]. exists []. split_and!; [constructor | | done].
    rewrite Hd, drop_ge by lia. done.
  - destruct (get_range wire (offset + 1) _) as [label|] eqn:Hl; cbn [ok_or]; [|done].
    apply get_range_drop in Hl as Hdl. apply get_range_length in Hl as Hll. apply get_range_Some in Hl as (_ & Hle & _).
    destruct (IH wire (offset + 1 + Z.to_nat len)%nat ((acc ++ [len]) ++ map to_ascii_lowercase label) Hb
      ltac:(widths; lia)) as [IH1 IH2].
    split; [done |]. intros n Hn. destruct (IH2 n Hn) as (ls & Hls & Hds & ->).
    exists (label :: ls). unfold DNS_MAX_LABEL_LEN in *. widths. split_and!.
    + apply Forall_cons. split; [lia | done].
    + rewrite Hd, wire_of_cons, <- Hds, <- Hdl, Hll. f_equal; [lia |]. f_equal. lia.
    + cbn [map]. rewrite wire_of_cons, length_map, <- !app_assoc. cbn. do 2 f_equal. lia.
Qed.

Lemma from_wire_exact_lemma wire n :
  bytes wire ->
  from_wire wire <> Panic /\
  (from_wire wire = Ok n <->
   exists ls, Forall (fun l => (1 <= length l <= DNS_MAX_LABEL_LEN)%nat) ls /\ wire = wire_of ls /\
     (length wire <= MAX_NAME_WIRE_LEN)%nat /\ n = wire_of (map (map to_ascii_lowercase) ls)).
Proof.
  intros Hb. unfold from_wire. destruct (Nat.ltb_spec MAX_NAME_WIRE_LEN (length wire)) as [Hlt|Hle].
  - split; [done |]. split; [done |]. intros (ls & _ & _ & ? & _). lia.
  - destruct (from_wire_loop_sound (S (length wire)) wire 0 [] Hb ltac:(lia)) as [H1 H2]. split; [done |]. split.
    + intros Hn. destruct (H2 n Hn) as (ls & ? & ? & ->). exists ls. by rewrite drop_0 in *.
    + intros (ls & Hls & -> & _ & ->). rewrite (from_wire_loop_complete ls _ [] []); [done | done |].
      clear -Hls. induction Hls as [|l ls [? _] _ IH]; [cbn; lia |]. rewrite wire_of_cons. cbn.
      rewrite length_app. lia.
Qed.

(** ** [hostname] and [From<&DnsName>] *)

Definition plain_label (l : list Z) : bool := negb (existsb (fun byte => negb (is_ascii byte) || (byte =? DOT)) l).

Definition joined (text : list Z) (ls : list (list Z)) : list Z :=
  if bool_decide (text = []) then join_dot ls else text ++ concat (map (cons DOT) ls).

Lemma joined_cons text l ls :
  l <> [] -> joined text (l :: ls) = joined ((if negb (bool_decide (text = [])) then text ++ [DOT] else text) ++ l) ls.
Proof.
  intros Hl. unfold joined at 2. rewrite bool_decide_eq_false_2 by (destruct l; [done |]; by intros [_ ?]%app_eq_nil).
  unfold joined. case_bool_decide as Ht; cbn [negb].
  - subst text. cbn [app]. clear Hl. revert l. induction ls as [|l' ls IH]; intros l; [cbn; by rewrite app_nil_r |].
    rewrite join_cons by done. rewrite IH. done.
  - cbn. by rewrite <- !app_assoc.
Qed.

Lemma hostname_loop_spec ls : forall fuel pre text,
  Forall wire_label ls -> (length ls < fuel)%nat ->
  hostname_loop fuel (pre ++ wire_of ls) (length pre) text =
    if forallb plain_label ls then Ok (joined text ls) else Err InvalidCharacter.
Proof.
  induction ls as [|l ls IH]; intros [|fuel] pre text Hls Hf; [lia | | cbn in Hf; lia |]; cbn [hostname_loop].
  - unfold idx, wire_of, wire_labels. cbn [map concat app]. rewrite lookup_pre. cbn. unfold joined.
    case_bool_decide; [by subst | by cbn; rewrite app_nil_r].
  - apply Forall_cons in Hls as [(Hl & Hb & Hu) Hls]. unfold DNS_MAX_LABEL_LEN in Hl.
    rewrite wire_of_cons. unfold idx, slice. rewrite lookup_pre.
    rewrite (proj2 (Z.eqb_neq _ _)) by lia. cbn [negb]. rewrite Nat2Z.id, range_after_length.
    cbn [forallb]. unfold plain_label at 1. destruct (existsb _ l); [done |]. cbn [negb andb].
    replace (pre ++ Z.of_nat (length l) :: l ++ wire_of ls) with ((pre ++ Z.of_nat (length l) :: l) ++ wire_of ls)
      by (by rewrite <- app_assoc).
    replace (length pre + 1 + length l)%nat with (length (pre ++ Z.of_nat (length l) :: l))
      by (rewrite length_app; cbn; lia).
    cbn [length] in Hf. rewrite IH by first [done | lia]. rewrite joined_cons; [done |]. by destruct l; [cbn in Hl; lia |].
Qed.

Lemma length_wire_of_ge ls : (length ls < length (wire_of ls))%nat.
Proof. induction ls as [|l ls IH]; [cbn; lia |]. rewrite wire_of_cons. cbn. rewrite length_app. lia. Qed.

Lemma hostname_spec ls :
  Forall wire_label ls ->
  hostname (wire_of ls) = if forallb plain_label ls then DnsName_parse (join_dot ls) else Err InvalidCharacter.
Proof.
  intros Hls. unfold hostname. pose proof (length_wire_of_ge ls).
  rewrite (hostname_loop_spec ls _ [] []) by first [done | lia]. by destruct (forallb plain_label ls).
Qed.

Lemma plain_no_dot l : plain_label l = true -> no_dot l.
Proof.
  unfold plain_label. intros H. apply negb_true_iff in H. rewrite existsb_none in H. apply Forall_forall. intros b Hb.
  specialize (H b Hb). bool_cases. done.
Qed.

Lemma label_ok_plain l : label_ok l -> plain_label l = true.
Proof.
  intros (_ & _ & _ & _ & Hc). unfold plain_label. apply negb_true_iff, existsb_none. intros b Hb.
  rewrite Forall_forall in Hc. destruct (name_char_ascii b (Hc b Hb)) as [-> ?]. cbn. by apply Z.eqb_neq.
Qed.

Lemma elem_of_join b l ls : b ∈ l -> l ∈ ls -> b ∈ join_dot ls.
Proof.
  intros Hb Hl. induction ls as [|l' ls IH]; [by apply not_elem_of_nil in Hl |].
  destruct ls as [|l'' ls]; [by apply list_elem_of_singleton in Hl as -> |].
  rewrite join_cons, elem_of_app, elem_of_cons by done. apply elem_of_cons in Hl as [->|Hl]; auto.
Qed.

Lemma hostname_wf_labels s : hostname_wf s -> Forall wire_label (split_dot s).
Proof.
  intros (_ & Hl & Hu). apply Forall_forall. intros l Hin. rewrite Forall_forall in Hl. rewrite Forall_forall in Hu.
  destruct (Hl l Hin) as (Hne & Hlen & _ & _ & Hc). unfold wire_label. split_and!.
  - by destruct l; [|cbn; lia].
  - done.
  - eapply Forall_impl; [exact Hc |]. intros b [Hb| ->]; [|by_compute].
    unfold is_ascii_alphanumeric, is_ascii_digit, is_ascii_uppercase, is_ascii_lowercase in Hb.
    repeat (apply orb_true_iff in Hb as [Hb|Hb]); bool_cases; widths; lia.
  - apply Forall_forall. intros b Hb. apply Hu. rewrite <- (@join_split DOT s). by eapply elem_of_join.
Qed.

Lemma from_is_wire s : hostname_wf s -> DnsRecordName_from s = wire_of (split_dot s).
Proof.
  intros Hs%hostname_wf_labels. unfold DnsRecordName_from, wire_of, wire_labels. f_equal. f_equal.
  apply map_ext_in. intros l Hl%list_elem_of_In. rewrite Forall_forall in Hs. destruct (Hs l Hl) as (Hlen & _).
  unfold DNS_MAX_LABEL_LEN in Hlen. f_equal. apply Z.mod_small. lia.
Qed.

Lemma from_wire_name s : hostname_wf s -> wire_name (DnsRecordName_from s) /\ length (DnsRecordName_from s) = (length s + 2)%nat.
Proof.
  intros Hs. rewrite from_is_wire by done.
  assert (length (wire_of (split_dot s)) = (length s + 2)%nat) as Hlen.
  { unfold wire_of. rewrite length_app, length_wire_split. cbn. lia. }
  split; [|done]. exists (split_dot s). split_and!; [by apply hostname_wf_labels | done |].
  rewrite Hlen. destruct Hs as [? _]. unfold DNS_MAX_NAME_LEN, MAX_NAME_WIRE_LEN in *. lia.
Qed.

Lemma joined_last ls : ls <> [] -> Forall no_dot ls -> Forall (fun l => l <> []) ls -> last (join_dot ls) <> Some DOT.
Proof.
  intros Hne Hd Hn. induction ls as [|l ls IH]; [done |]. apply Forall_cons in Hd as [Hl Hd]. apply Forall_cons in Hn as [Hn1 Hn].
  destruct ls as [|l' ls].
  - cbn. intros Hlast. apply last_Some_elem_of in Hlast. unfold no_char in Hl. rewrite Forall_forall in Hl. by apply (Hl DOT).
  - rewrite join_cons by done. rewrite last_app, last_cons. specialize (IH ltac:(done) Hd Hn).
    destruct (last (join_dot (l' :: ls))) eqn:E; [done |]. apply last_None in E.
    apply Forall_cons in Hn as [Hn2 _]. destruct l' as [|b l']; [done |]. by destruct ls.
Qed.

Lemma wire_of_inj ls : forall ls', Forall wire_label ls -> Forall wire_label ls' -> wire_of ls = wire_of ls' -> ls = ls'.
Proof.
  induction ls as [|l ls IH]; intros [|l' ls'] H H' He; [done | | |].
  - rewrite wire_of_cons in He. apply Forall_cons in H' as [[H' _] _]. injection He as He _. lia.
  - rewrite wire_of_cons in He. apply Forall_cons in H as [[H _] _]. injection He as He _. lia.
  - rewrite !wire_of_cons in He. injection He as He1 He2. apply app_inj_1 in He2 as [-> He2]; [|lia].
    apply Forall_cons in H as [_ H], H' as [_ H']. f_equal. by apply IH.
Qed.

Lemma hostname_exact_lemma w s :
  wire_name w -> hostname w <> Panic /\ (hostname w = Ok s <-> hostname_wf s /\ w = DnsRecordName_from s).
Proof.
  intros (ls & Hls & -> & Hlen). rewrite hostname_spec by done. split.
  { destruct (forallb plain_label ls); [apply parse_no_panic | done]. }
  split.
  - destruct (forallb plain_label ls) eqn:Hp; [|done]. intros Hs. rewrite forallb_forall in Hp.
    assert (Forall no_dot ls) as Hd by (apply Forall_forall; intros l Hl; by apply plain_no_dot, Hp, list_elem_of_In).
    assert (Forall (fun l => l <> []) ls) as Hn.
    { eapply Forall_impl; [exact Hls |]. intros l [Hl _] ->. cbn in Hl. lia. }
    assert (ls <> []) as Hne by (by intros ->).
    apply parse_wf in Hs as Hwf. apply parse_exact in Hs as (_ & _ & ->).
    rewrite strip_dot_nodot in * by (by apply joined_last).
    assert (map to_ascii_lowercase (join_dot ls) = join_dot ls) as Hlow.
    { apply map_lowercase_fixed, Forall_forall. intros b Hb. rewrite Forall_forall in Hls. clear -Hb Hls Hne.
      induction ls as [|l ls IH]; [done |]. destruct ls as [|l' ls].
      - destruct (Hls l ltac:(left)) as (_ & _ & Hu). rewrite Forall_forall in Hu. by apply Hu.
      - rewrite join_cons in Hb by done. apply elem_of_app in Hb as [Hb|[->|Hb]%elem_of_cons]; [|done|].
        + destruct (Hls l ltac:(left)) as (_ & _ & Hu). rewrite Forall_forall in Hu. by apply Hu.
        + apply IH; [intros k Hk; apply Hls; by right | done | done]. }
    rewrite Hlow in *. split; [done |]. rewrite from_is_wire by done. by rewrite split_join.
  - intros [Hs Hw]. rewrite from_is_wire in Hw by done. assert (ls = split_dot s) as -> by (apply wire_of_inj; [done | by apply hostname_wf_labels | done]).
    rewrite join_split. destruct (forallb _ _) eqn:Hp; [by apply parse_hostname |].
    exfalso. revert Hp. apply not_false_iff_true, forallb_forall. intros l Hl%list_elem_of_In.
    destruct Hs as (_ & Hl' & _). rewrite Forall_forall in Hl'. by apply label_ok_plain, Hl'.
Qed.

(** ** Compressed names

    The name that starts at an offset of a message, as RFC 1035 (4.1.4) defines it: labels, and pointers to where the
    rest of the name is. *)
Inductive name_at (packet : list Z) : nat -> list (list Z) -> Prop :=
  | NameRoot o : packet !! o = Some 0 -> name_at packet o []
  | NameLabel o n l ls :
      packet !! o = Some n -> 1 <= n <= Z.of_nat DNS_MAX_LABEL_LEN ->
      get_range packet (o + 1) (o + 1 + Z.to_nat n) = Some l ->
      name_at packet (o + 1 + Z.to_nat n) ls -> name_at packet o (map to_ascii_lowercase l :: ls)
  | NamePointer o hi lo ls :
      packet !! o = Some hi -> packet !! (o + 1)%nat = Some lo -> 192 <= hi ->
      name_at packet (Z.to_nat ((hi - 192) * 256 + lo)) ls -> name_at packet o ls.

Definition length_octet_check (b : Z) : bool :=
  if Z.land b 192 =? 192 then
    (192 <=? b) && forallb (fun lo => Z.lor (Z.shiftl (Z.land b 63) 8) lo =? (b - 192) * 256 + lo)
                     (map Z.of_nat (List.seq 0 256))
  else true.

Definition length_octet_small (b : Z) : bool := if Z.land b 192 =? 0 then b <=? 63 else 64 <=? b.

Lemma pointer_octet b lo :
  is_u8 b -> is_u8 lo -> Z.land b 192 = 192 ->
  192 <= b /\ Z.lor (Z.shiftl (Z.land b 63) 8) lo = (b - 192) * 256 + lo.
Proof.
  intros Hb Hlo Hp. pose proof (bytes_by_cases length_octet_check ltac:(vm_compute; reflexivity) b Hb) as H.
  unfold length_octet_check in H. rewrite (proj2 (Z.eqb_eq _ _) Hp) in H. apply andb_true_iff in H as [H1 H2].
  split; [by apply Z.leb_le |]. apply Z.eqb_eq. exact (bytes_by_cases _ H2 lo Hlo).
Qed.

Lemma label_octet b : is_u8 b -> Z.land b 192 = 0 <-> b <= 63.
Proof.
  intros Hb. pose proof (bytes_by_cases length_octet_small ltac:(vm_compute; reflexivity) b Hb) as H.
  unfold length_octet_small in H. destruct (Z.eqb_spec (Z.land b 192) 0); bool_cases; lia.
Qed.

Definition next_ok (next : option nat) (offset limit next' : nat) : Prop :=
  match next with Some n => next' = n | None => (offset < next' <= limit)%nat end.

Lemma record_name_loop_sound fuel : forall packet limit wire offset next ceiling,
  bytes packet -> (length wire <= MAX_NAME_WIRE_LEN)%nat -> (256 - length wire + ceiling <= fuel)%nat ->
  record_name_loop fuel packet limit wire offset next ceiling <> Panic /\
  forall w n, record_name_loop fuel packet limit wire offset next ceiling = Ok (w, n) ->
    exists ls, name_at packet offset ls /\ Forall wire_label ls /\ w = wire ++ wire_of ls /\
      (length w <= MAX_NAME_WIRE_LEN)%nat /\ next_ok next offset limit n.
Proof.
  unfold MAX_NAME_WIRE_LEN.
  induction fuel as [|fuel IH]; intros packet limit wire offset next ceiling Hb Hw Hf; [lia |]. cbn [record_name_loop].
  destruct (Nat.leb_spec (if bool_decide (next = None) then limit else length packet) offset) as [|Hbound]; [done |].
  destruct (packet !! offset) as [len|] eqn:Hlen; cbn [ok_or]; [|done].
  pose proof (bytes_lookup _ _ _ Hb Hlen) as Hu.
  destruct (Z.eqb_spec (Z.land len 192) 192) as [Hp|Hnp].
  - destruct (Nat.ltb_spec (if bool_decide (next = None) then limit else length packet) (offset + 2)) as [|Hb2]; [done |].
    destruct (packet !! (offset + 1)%nat) as [low|] eqn:Hlow; cbn [ok_or]; [|done].
    destruct (pointer_octet len low Hu (bytes_lookup _ _ _ Hb Hlow) Hp) as [H192 ->].
    set (target := Z.to_nat ((len - 192) * 256 + low)). cbv zeta.
    destruct (_ <=? target)%nat eqn:Hpl; [done |]. destruct (target =? offset)%nat; [done |].
    destruct (_ || _); [done |]. destruct (Nat.leb_spec ceiling target) as [|Hc]; [done |].
    match goal with |- context [record_name_loop fuel packet limit wire target ?nx target] =>
      destruct (IH packet limit wire target nx target Hb Hw ltac:(lia)) as [IH1 IH2] end.
    split; [done |]. intros w n Hn. destruct (IH2 w n Hn) as (ls & H1 & H2 & H3 & H4 & H5). exists ls.
    split_and!; [by eapply NamePointer | done | done | done |].
    destruct next as [m|]; cbn in H5 |- *; [done |]. subst n. rewrite bool_decide_eq_true_2 in Hb2 by done. lia.
  - destruct (Z.eqb_spec (Z.land len 192) 0) as [Hz|]; [|done]. cbn [negb]. apply label_octet in Hz; [|done].
    destruct (Nat.ltb_spec (if bool_decide (next = None) then limit else length packet) (offset + 1 + Z.to_nat len))
      as [|Hb2]; [done |].
    destruct (get_range packet _ _) as [label|] eqn:Hl; cbn [ok_or]; [|done].
    apply get_range_length in Hl as Hll.
    destruct (Nat.ltb_spec MAX_NAME_WIRE_LEN (length wire + 1 + length label)) as [|H255]; [done |]. unfold MAX_NAME_WIRE_LEN in H255.
    destruct (Z.eqb_spec len 0) as [->|Hnz].
    + split; [done |]. intros w n [= <- <-]. exists []. destruct label; [|cbn in Hll; lia]. cbn [map].
      split_and!; [by constructor | constructor | done | rewrite length_app; cbn in *; lia |].
      destruct next; cbn; [done |]. rewrite bool_decide_eq_true_2 in Hb2 by done. lia.
    + assert (length (wire ++ len :: map to_ascii_lowercase label) = length wire + 1 + length label)%nat as Hlw
        by (rewrite length_app; cbn; rewrite length_map; lia).
      destruct (IH packet limit (wire ++ len :: map to_ascii_lowercase label) (offset + 1 + Z.to_nat len)%nat next ceiling
        Hb ltac:(lia) ltac:(widths; lia)) as [IH1 IH2].
      split; [done |]. intros w n Hn. destruct (IH2 w n Hn) as (ls & H1 & H2 & H3 & H4 & H5).
      exists (map to_ascii_lowercase label :: ls). unfold DNS_MAX_LABEL_LEN. widths. split_and!.
      * eapply NameLabel; [done | unfold DNS_MAX_LABEL_LEN; lia | done | done].
      * apply Forall_cons. split; [|done]. apply wire_label_lower; [unfold DNS_MAX_LABEL_LEN; lia |].
        by eapply get_range_bytes.
      * rewrite H3, wire_of_cons, length_map, <- app_assoc. cbn. do 2 f_equal. lia.
      * done.
      * destruct next; cbn in H5 |- *; [done | lia].
Qed.

Lemma decode_record_name_spec packet start limit :
  bytes packet ->
  decode_record_name packet start limit <> Panic /\
  forall w n, decode_record_name packet start limit = Ok (w, n) ->
    wire_name w /\ (start < n <= limit)%nat /\ exists ls, name_at packet start ls /\ w = wire_of ls.
Proof.
  intros Hb. destruct (record_name_loop_sound (start + 256) packet limit [] start None start Hb
    ltac:(cbn; lia) ltac:(cbn; lia)) as [H1 H2].
  split; [exact H1 |]. intros w n Hn. destruct (H2 w n Hn) as (ls & Hat & Hls & -> & Hlen & Hnext).
  split_and!; [by exists ls | by apply Hnext | by apply Hnext |]. exists ls. done.
Qed.

(** ** Names that the decoder accepts *)

Lemma loop_labels ls : forall fuel pre post limit wire next ceiling,
  Forall (fun l => (1 <= length l <= DNS_MAX_LABEL_LEN)%nat) ls ->
  (length pre + length (wire_labels ls) <=
     if bool_decide (next = None) then limit else length (pre ++ wire_labels ls ++ post))%nat ->
  (length wire + length (wire_labels ls) <= MAX_NAME_WIRE_LEN)%nat ->
  record_name_loop (length ls + fuel) (pre ++ wire_labels ls ++ post) limit wire (length pre) next ceiling =
  record_name_loop fuel (pre ++ wire_labels ls ++ post) limit (wire ++ wire_labels (map (map to_ascii_lowercase) ls))
    (length pre + length (wire_labels ls)) next ceiling.
Proof.
  induction ls as [|l ls IH]; intros fuel pre post limit wire next ceiling Hls Hb Hw.
  { cbn. by rewrite app_nil_r, Nat.add_0_r. }
  apply Forall_cons in Hls as [Hl Hls]. rewrite wire_labels_cons in *.
  cbn [length Nat.add record_name_loop app map] in *. rewrite <- app_assoc in *. rewrite length_app in Hb, Hw.
  unfold DNS_MAX_LABEL_LEN in Hl.
  rewrite (proj2 (Nat.leb_gt _ _)) by lia. rewrite lookup_pre. cbn [ok_or].
  assert (Z.land (Z.of_nat (length l)) 192 = 0) as Hz by (apply label_octet; widths; lia).
  rewrite Hz. cbn [Z.eqb negb]. rewrite Nat2Z.id.
  rewrite (proj2 (Nat.ltb_ge _ _)) by lia. rewrite range_after_length. cbn [ok_or].
  rewrite (proj2 (Nat.ltb_ge _ _)) by lia. rewrite (proj2 (Z.eqb_neq _ _)) by lia.
  replace (pre ++ Z.of_nat (length l) :: l ++ wire_labels ls ++ post)
    with ((pre ++ Z.of_nat (length l) :: l) ++ wire_labels ls ++ post) in * by (by rewrite <- app_assoc).
  replace (length pre + 1 + length l)%nat with (length (pre ++ Z.of_nat (length l) :: l))
    by (rewrite length_app; cbn; lia).
  rewrite IH; [|done| |].
  - rewrite wire_labels_cons, length_map. rewrite <- !app_assoc. cbn [app]. f_equal.
    rewrite ?length_app. cbn. rewrite ?length_app. lia.
  - rewrite length_app. cbn. destruct (bool_decide _); lia.
  - rewrite length_app. cbn. rewrite length_map. lia.
Qed.

Lemma loop_root fuel packet limit wire o next ceiling :
  packet !! o = Some 0 -> (o < if bool_decide (next = None) then limit else length packet)%nat ->
  (length wire < MAX_NAME_WIRE_LEN)%nat ->
  record_name_loop (S fuel) packet limit wire o next ceiling =
    Ok (wire ++ [0], match next with Some n => n | None => (o + 1)%nat end).
Proof.
  intros Ho Hb Hw. cbn [record_name_loop]. rewrite (proj2 (Nat.leb_gt _ _)) by lia. rewrite Ho.
  cbn [ok_or]. change (Z.land 0 192 =? 192) with false. change (Z.land 0 192 =? 0) with true. change (Z.to_nat 0) with 0%nat. cbn [negb Z.eqb].
  rewrite (proj2 (Nat.ltb_ge _ _)) by lia.
  apply lookup_lt_Some in Ho. rewrite get_range_in by lia. cbn [ok_or].
  replace (o + 1 + 0 - (o + 1))%nat with 0%nat by lia. rewrite take_0. cbn [length map].
  rewrite (proj2 (Nat.ltb_ge _ _)) by lia. destruct next; [done |]. do 2 f_equal. lia.
Qed.

Lemma loop_pointer fuel packet limit wire o ceiling t :
  packet !! o = Some (192 + t / 256) -> packet !! (o + 1)%nat = Some (t mod 256) ->
  (o + 2 <= limit)%nat -> 12 <= t < 16384 -> (Z.to_nat t < length packet)%nat ->
  (Z.to_nat t < ceiling)%nat -> (ceiling <= o)%nat ->
  record_name_loop (S fuel) packet limit wire o None ceiling =
  record_name_loop fuel packet limit wire (Z.to_nat t) (Some (o + 2)%nat) (Z.to_nat t).
Proof.
  intros Ho Ho1 Hlim Ht Hlen Hc Hco. cbn [record_name_loop]. rewrite bool_decide_eq_true_2 by done.
  rewrite (proj2 (Nat.leb_gt _ _)) by lia. rewrite Ho. cbn [ok_or].
  assert (is_u8 (192 + t / 256)) as Hu1 by divlia. assert (is_u8 (t mod 256)) as Hu2 by divlia.
  assert (Z.land (192 + t / 256) 192 = 192) as Hp.
  { pose proof (bytes_by_cases (fun b => (Z.land b 192 =? 192) || (b <? 192)) ltac:(vm_compute; reflexivity) _ Hu1) as H.
    cbn beta in H. apply orb_true_iff in H as [H|H]; bool_cases; [done |]. divlia. }
  rewrite Hp. cbn [Z.eqb Pos.eqb]. rewrite (proj2 (Nat.ltb_ge _ _)) by lia. rewrite Ho1. cbn [ok_or].
  destruct (pointer_octet _ _ Hu1 Hu2 Hp) as [_ ->].
  replace ((192 + t / 256 - 192) * 256 + t mod 256) with t by divlia.
  rewrite (proj2 (Nat.leb_gt _ _)) by lia. rewrite (proj2 (Nat.eqb_neq _ _)) by lia.
  unfold DNS_HEADER_LEN. rewrite (proj2 (Nat.ltb_ge _ 12)) by lia. rewrite (proj2 (Nat.ltb_ge o _)) by lia.
  cbn [orb]. by rewrite (proj2 (Nat.leb_gt _ _)) by lia.
Qed.

Lemma length_labels_lower ls :
  length (wire_labels (map (map to_ascii_lowercase) ls)) = length (wire_labels ls).
Proof.
  induction ls as [|l ls IH]; [done |]. cbn [map]. rewrite !wire_labels_cons. cbn. rewrite !length_app, IH, length_map. done.
Qed.

Lemma labels_count ls :
  Forall (fun l => (1 <= length l <= DNS_MAX_LABEL_LEN)%nat) ls -> (2 * length ls <= length (wire_labels ls))%nat.
Proof. induction 1 as [|l ls Hl _ IH]; [cbn; lia |]. rewrite wire_labels_cons. cbn. rewrite length_app. lia. Qed.

Lemma decode_uncompressed pre ls post limit :
  Forall (fun l => (1 <= length l <= DNS_MAX_LABEL_LEN)%nat) ls -> (length (wire_of ls) <= MAX_NAME_WIRE_LEN)%nat ->
  (length pre + length (wire_of ls) <= limit)%nat ->
  decode_record_name (pre ++ wire_of ls ++ post) (length pre) limit =
    Ok (wire_of (map (map to_ascii_lowercase) ls), (length pre + length (wire_of ls))%nat).
Proof.
  intros Hls Hlen Hlim. unfold decode_record_name, wire_of in *. rewrite length_app in Hlen, Hlim. cbn [length] in Hlen, Hlim.
  pose proof (labels_count ls Hls) as Hc. unfold MAX_NAME_WIRE_LEN in Hlen.
  replace (length pre + 256)%nat with (length ls + S (length pre + 255 - length ls))%nat by lia.
  rewrite <- app_assoc. rewrite loop_labels; [|done| |cbn; unfold MAX_NAME_WIRE_LEN; lia].
  2: { rewrite bool_decide_eq_true_2 by done. lia. }
  rewrite loop_root.
  - rewrite length_app. cbn. by rewrite Nat.add_assoc.
  - rewrite app_assoc, <- length_app. apply lookup_pre.
  - rewrite bool_decide_eq_true_2 by done. lia.
  - cbn [app]. rewrite length_labels_lower. unfold MAX_NAME_WIRE_LEN. lia.
Qed.

Lemma decode_compressed p1 tail p2 ls post limit (t := length p1)
    (packet := p1 ++ wire_of tail ++ p2 ++ wire_labels ls ++
       [192 + Z.of_nat (length p1) / 256; Z.of_nat (length p1) mod 256] ++ post)
    (start := length (p1 ++ wire_of tail ++ p2)) :
  Forall (fun l => (1 <= length l <= DNS_MAX_LABEL_LEN)%nat) (ls ++ tail) ->
  (length (wire_of (ls ++ tail)) <= MAX_NAME_WIRE_LEN)%nat -> (12 <= t < 2 ^ 14)%nat ->
  (start + length (wire_labels ls) + 2 <= limit)%nat ->
  decode_record_name packet start limit =
    Ok (wire_of (map (map to_ascii_lowercase) (ls ++ tail)), (start + length (wire_labels ls) + 2)%nat).
Proof.
  intros [Hls Htl]%Forall_app Hlen Ht Hlim. unfold decode_record_name.
  pose proof (labels_count ls Hls) as Hc1. pose proof (labels_count tail Htl) as Hc2.
  assert (length (wire_labels ls) + length (wire_labels tail) <= 254)%nat as Hlen'.
  { unfold wire_of, wire_labels, MAX_NAME_WIRE_LEN in *. rewrite map_app, concat_app, !length_app in Hlen. cbn in Hlen. lia. }
  assert (start = length p1 + length (wire_labels tail) + 1 + length p2)%nat as Hst.
  { unfold start, wire_of. rewrite !length_app. cbn. lia. }
  replace (start + 256)%nat with (length ls + S (length tail + S (start + 254 - length ls - length tail)))%nat by lia.
  assert (packet = (p1 ++ wire_of tail ++ p2) ++ wire_labels ls ++
    [192 + Z.of_nat (length p1) / 256; Z.of_nat (length p1) mod 256] ++ post) as Hpk
    by (unfold packet; by rewrite <- !app_assoc).
  rewrite Hpk. unfold start at 2. rewrite loop_labels; [|done| |cbn; unfold MAX_NAME_WIRE_LEN; lia].
  2: { rewrite bool_decide_eq_true_2 by done. fold start. lia. }
  rewrite <- Hpk. fold start. change (2 ^ 14)%nat with (Z.to_nat 16384) in Ht.
  rewrite (loop_pointer _ _ _ _ _ _ (Z.of_nat (length p1))); try lia.
  - rewrite Nat2Z.id. unfold packet.
    replace (p1 ++ wire_of tail ++ p2 ++ wire_labels ls ++
      [192 + Z.of_nat (length p1) / 256; Z.of_nat (length p1) mod 256] ++ post)
      with (p1 ++ wire_labels tail ++ 0 :: p2 ++ wire_labels ls ++
      [192 + Z.of_nat (length p1) / 256; Z.of_nat (length p1) mod 256] ++ post)
      by (unfold wire_of; by rewrite <- !app_assoc).
    rewrite loop_labels; [|done| |].
    + rewrite loop_root.
      * unfold wire_of, wire_labels. rewrite !map_app, concat_app. cbn [app]. rewrite <- !app_assoc. do 2 f_equal.
      * rewrite app_assoc, <- length_app. apply lookup_pre.
      * rewrite bool_decide_eq_false_2 by done. rewrite !length_app. cbn. lia.
      * rewrite length_app, !length_labels_lower. cbn. rewrite ?length_labels_lower. unfold MAX_NAME_WIRE_LEN. lia.
    + rewrite bool_decide_eq_false_2 by done. rewrite !length_app. lia.
    + cbn [app]. rewrite length_labels_lower. unfold MAX_NAME_WIRE_LEN. lia.
  - rewrite Hpk, app_assoc. unfold start. rewrite <- length_app. apply lookup_pre.
  - rewrite Hpk, app_assoc. unfold start. rewrite <- length_app.
    rewrite lookup_app_r by lia. by rewrite Nat.add_sub'.
  - unfold packet. rewrite !length_app. cbn. lia.
Qed.

(** ** Queries *)

Definition query_wire (transaction_id : Z) (name : DnsRecordName) (kind : DnsRecordType) : list Z :=
  u16_to_be transaction_id ++ [1; 0; 0; 1; 0; 0; 0; 0; 0; 0] ++ name ++ u16_to_be (record_type_u16 kind) ++ [0; 1].

Lemma encode_query_spec id name kind out :
  (length name + 16 <= length out)%nat ->
  encode_dns_record_query id name kind out =
    Ok ((length name + 16)%nat, query_wire id name kind ++ drop (length name + 16) out).
Proof.
  intros Hlen. unfold encode_dns_record_query, DNS_HEADER_LEN.
  replace (12 + length name + 4)%nat with (length name + 16)%nat by lia.
  rewrite get_range_in by lia. rewrite drop_0, Nat.sub_0_r. cbn [ok_or].
  assert (length (take (length name + 16) out) = length name + 16)%nat as Hm by (rewrite length_take; lia).
  generalize dependent (take (length name + 16) out). intros m Hm.
  rewrite fill_prefix by lia. assert (length (drop 12 m) = length name + 4)%nat as Hr by (rewrite length_drop; lia).
  revert Hr. generalize (drop 12 m). clear m Hm. intros m Hm. set (hdr := u16_to_be id ++ [1; 0; 0; 1; 0; 0; 0; 0; 0; 0]).
  assert (copy_into (E := DnsError) (replicate 12 0 ++ m) 0 2 (u16_to_be id) = Ok (u16_to_be id ++ replicate 10 0 ++ m))
    as -> by reflexivity.
  assert (copy_into (E := DnsError) (u16_to_be id ++ replicate 10 0 ++ m) 2 4 (u16_to_be 256) =
    Ok (u16_to_be id ++ 1 :: 0 :: replicate 8 0 ++ m)) as -> by reflexivity.
  assert (copy_into (E := DnsError) (u16_to_be id ++ 1 :: 0 :: replicate 8 0 ++ m) 4 6 (u16_to_be 1) = Ok (hdr ++ m))
    as -> by reflexivity.
  assert (length hdr = 12%nat) as Hh by reflexivity.
  pose proof (copy_into_snoc (E := DnsError) (hdr ++ m) 12 [] name) as H1.
  cbn [length app] in H1. rewrite Nat.add_0_r, take_drop in H1. rewrite length_app, Hh in H1. rewrite H1 by lia. clear H1.
  pose proof (copy_into_snoc (E := DnsError) (hdr ++ m) 12 name (u16_to_be (record_type_u16 kind))) as H1.
  rewrite (length_app hdr), Hh in H1. change (length (u16_to_be (record_type_u16 kind))) with 2%nat in H1.
  rewrite H1 by lia. clear H1.
  pose proof (copy_into_snoc (E := DnsError) (hdr ++ m) 12 (name ++ u16_to_be (record_type_u16 kind)) (u16_to_be 1)) as H1.
  rewrite (length_app hdr), (length_app name), Hh in H1. change (length (u16_to_be _)) with 2%nat in H1.
  replace (12 + (length name + 2))%nat with (12 + length name + 2)%nat in H1 by lia.
  rewrite (length_app name). change (length (u16_to_be (record_type_u16 kind))) with 2%nat.
  replace (12 + (length name + 2))%nat with (12 + length name + 2)%nat by lia.
  replace (12 + length name + 2 + 2)%nat with (length name + 16)%nat in H1 by lia.
  rewrite H1 by lia. rewrite (drop_ge (hdr ++ m)) by (rewrite !length_app, Hh; cbn; lia).
  rewrite take_app_length' by done. unfold query_wire, hdr. rewrite app_nil_r, <- !app_assoc. reflexivity.
Qed.

(** ** Reverse zones *)

Definition label_check (l : list Z) : bool :=
  negb (bool_decide (l = [])) && (length l <=? DNS_MAX_LABEL_LEN)%nat && negb (bool_decide (head l = Some HYPHEN))
  && negb (bool_decide (last l = Some HYPHEN)) && forallb (fun b => is_ascii_alphanumeric b || (b =? HYPHEN)) l
  && forallb (fun b => negb (is_ascii_uppercase b)) l && negb (existsb (fun b => b =? DOT) l).

Lemma label_check_sound l :
  label_check l = true -> label_ok l /\ no_dot l /\ Forall (fun b => is_ascii_uppercase b = false) l.
Proof.
  unfold label_check. intros H. bool_cases. split_and!; [unfold label_ok; split_and!; try done | |]; apply Forall_forall; intros b Hb.
  - match goal with H : forallb (fun b => _ || _) l = true |- _ => rewrite forallb_forall in H;
      specialize (H b (proj1 (list_elem_of_In _ _) Hb)); apply orb_true_iff in H as [H|H] end; unfold name_char; bool_cases; auto.
  - match goal with H : existsb _ l = false |- _ => rewrite existsb_none in H; specialize (H b Hb) end. by bool_cases.
  - match goal with H : forallb (fun b => negb _) l = true |- _ => rewrite forallb_forall in H;
      specialize (H b (proj1 (list_elem_of_In _ _) Hb)) end. by bool_cases.
Qed.

(** A name assembled from good labels is a host name, and the text of its wire form. *)
Lemma hostname_of_labels ls :
  ls <> [] -> forallb label_check ls = true -> (length (join_dot ls) <= DNS_MAX_NAME_LEN)%nat ->
  hostname (wire_of ls) = Ok (join_dot ls) /\ wire_name (wire_of ls).
Proof.
  intros Hne Hc Hlen. rewrite forallb_forall in Hc.
  assert (forall l, l ∈ ls -> label_ok l /\ no_dot l /\ Forall (fun b => is_ascii_uppercase b = false) l) as Hl
    by (intros l Hin; by apply label_check_sound, Hc, list_elem_of_In).
  assert (split_dot (join_dot ls) = ls) as Hs.
  { apply split_join; [done |]. apply Forall_forall. intros l Hin. by apply Hl. }
  assert (hostname_wf (join_dot ls)) as Hwf.
  { split; [done |]. rewrite Hs. split; [apply Forall_forall; intros l Hin; by apply Hl |].
    clear Hs Hlen Hc. induction ls as [|l ls IH]; [done |]. destruct (Hl l ltac:(left)) as (_ & _ & Hu).
    destruct ls as [|l' ls]; [done |]. rewrite join_cons by done. apply Forall_app. split; [done |].
    apply Forall_cons. split; [done |]. apply IH; [done |]. intros k Hk. apply Hl. by right. }
  pose proof (from_is_wire _ Hwf) as Hf. rewrite Hs in Hf. rewrite <- Hf.
  destruct (from_wire_name _ Hwf) as [Hn _]. split; [|done]. by apply hostname_exact_lemma.
Qed.

Definition IN_ADDR : list Z := [105; 110; 45; 97; 100; 100; 114].
Definition IP6 : list Z := [105; 112; 54].
Definition ARPA : list Z := [97; 114; 112; 97].

Definition octet_label_check (b : Z) : bool :=
  label_check (decimal b) && (length (decimal b) <=? 3)%nat
  && bool_decide (reverse_octet b = Z.of_nat (length (decimal b)) :: decimal b).

Lemma octet_label b :
  is_u8 b -> label_check (decimal b) = true /\ (length (decimal b) <= 3)%nat /\
    reverse_octet b = Z.of_nat (length (decimal b)) :: decimal b.
Proof.
  intros Hb. pose proof (bytes_by_cases octet_label_check ltac:(vm_compute; reflexivity) b Hb) as H.
  unfold octet_label_check in H. bool_cases. done.
Qed.

Lemma reverse_ipv4_spec address :
  arr 4 address ->
  hostname (reverse_ipv4 address) = Ok (dotted (rev address) ++ DOT :: IN_ADDR ++ DOT :: ARPA) /\
  wire_name (reverse_ipv4 address).
Proof.
  intros Ha. explode_arr Ha. repeat match goal with H : is_u8 _ |- _ => apply octet_label in H as (? & ? & ?) end.
  unfold reverse_ipv4. cbn [rev app map concat].
  repeat match goal with H : reverse_octet _ = _ |- _ => rewrite H; clear H end.
  destruct (hostname_of_labels [decimal x2; decimal x1; decimal x0; decimal x; IN_ADDR; ARPA]) as [HN HW].
  - done.
  - cbn [forallb]. repeat match goal with H : label_check _ = true |- _ => rewrite H; clear H end. reflexivity.
  - repeat (rewrite join_cons by done; rewrite length_app; cbn [length]). cbn [join_char length ARPA IN_ADDR].
    unfold DNS_MAX_NAME_LEN. lia.
  - match type of HN with hostname ?w = _ => assert (w =
      (((Z.of_nat (length (decimal x2)) :: decimal x2) ++ (Z.of_nat (length (decimal x1)) :: decimal x1) ++
       (Z.of_nat (length (decimal x0)) :: decimal x0) ++ (Z.of_nat (length (decimal x)) :: decimal x) ++ []) ++
       IN_ADDR_ARPA)) as Hw end.
    { rewrite !wire_of_cons. cbn [app]. rewrite app_nil_r, <- !app_assoc. cbn [app]. rewrite <- !app_assoc. cbn [app].
      rewrite <- !app_assoc. reflexivity. }
    rewrite Hw in HN, HW. split; [|exact HW]. unfold dotted. rewrite HN. cbn [rev app map].
    repeat (rewrite join_cons by done). cbn [join_char]. rewrite <- !app_assoc. cbn [app]. rewrite <- !app_assoc. cbn [app].
    rewrite <- !app_assoc. reflexivity.
Qed.

(** The labels of the reverse IPv6 name, the low nibble of each byte first. *)
Definition nibbles (b : Z) : list Z := [b mod 16; b / 16].
Definition hex_digit (n : Z) : Z := if n <? 10 then 48 + n else 87 + n.

Definition nibble_check (b : Z) : bool :=
  bool_decide (HEX !! Z.to_nat (Z.land b 15) = Some (hex_digit (b mod 16)))
  && bool_decide (HEX !! Z.to_nat (Z.shiftr b 4) = Some (hex_digit (b / 16)))
  && label_check [hex_digit (b mod 16)] && label_check [hex_digit (b / 16)].

Lemma nibble_ok b : is_u8 b -> nibble_check b = true.
Proof. apply bytes_by_cases. vm_compute. reflexivity. Qed.

Definition nibble_labels (l : list Z) : list (list Z) := map (fun n => [hex_digit n]) (concat (map nibbles l)).

Lemma reverse_nibbles_spec l : forall wire,
  bytes l -> reverse_nibbles l wire = Ok (wire ++ wire_labels (nibble_labels l)) /\
    forallb label_check (nibble_labels l) = true.
Proof.
  induction l as [|b l IH]; intros wire Hb; [by cbn; rewrite app_nil_r |].
  apply Forall_cons in Hb as [Hb Hl]. pose proof (nibble_ok b Hb) as H. unfold nibble_check in H. bool_cases.
  cbn [reverse_nibbles]. unfold idx.
  match goal with H : HEX !! Z.to_nat (Z.land b 15) = _ |- _ => rewrite H end.
  match goal with H : HEX !! Z.to_nat (Z.shiftr b 4) = _ |- _ => rewrite H end.
  destruct (IH (wire ++ [1; hex_digit (b mod 16); 1; hex_digit (b / 16)]) Hl) as [-> Hc].
  split.
  - rewrite <- app_assoc. reflexivity.
  - unfold nibble_labels in *. cbn [map concat nibbles app forallb].
    repeat match goal with H : label_check _ = true |- _ => rewrite H; clear H end. exact Hc.
Qed.

Lemma reverse_ipv6_spec address :
  arr 16 address ->
  reverse_ipv6 address = Ok (wire_of (nibble_labels (rev address) ++ [IP6; ARPA])) /\
  hostname (wire_of (nibble_labels (rev address) ++ [IP6; ARPA])) =
    Ok (join_dot (nibble_labels (rev address) ++ [IP6; ARPA])) /\
  wire_name (wire_of (nibble_labels (rev address) ++ [IP6; ARPA])).
Proof.
  intros [Hlen Hb]. unfold reverse_ipv6.
  destruct (reverse_nibbles_spec (rev address) [] ltac:(by apply Forall_rev)) as [-> Hc]. cbn [app].
  split.
  - unfold wire_of, wire_labels. rewrite map_app, concat_app, <- !app_assoc. reflexivity.
  - apply hostname_of_labels.
    + by destruct (nibble_labels (rev address)).
    + rewrite forallb_app, Hc. reflexivity.
    + rewrite <- length_rev in Hlen. explode_list (rev address). cbn. unfold DNS_MAX_NAME_LEN. lia.
Qed.

(** ** Claims *)

(** A parsed host name survives its wire form: [encode] and [From<&DnsName>] produce the same bytes,
    [from_wire] and the message decoder read them back unchanged, [hostname] returns the text, and no
    other wire name has that text. *)
Theorem dns_name_roundtrip input s out
    (Hp : DnsName_parse input = Ok s) (Hout : (length s + 2 <= length out)%nat) :
  let w := DnsRecordName_from s in
  DnsName_encode s out = Ok (length w, w ++ drop (length w) out) /\
  from_wire w = Ok w /\ hostname w = Ok s /\
  decode_record_name w 0 (length w) = Ok (w, length w) /\
  (forall w', wire_name w' -> hostname w' = Ok s -> w' = w).
Proof.
  apply parse_wf in Hp. pose proof (hostname_wf_labels s Hp) as Hls. cbv zeta.
  destruct (from_wire_name s Hp) as [Hn Hlen]. rewrite Hlen. rewrite from_is_wire in * by done.
  assert (map (map to_ascii_lowercase) (split_dot s) = split_dot s) as Hlow.
  { clear -Hls. induction Hls as [|l ls (_ & _ & Hu) _ IH]; cbn; [done |]. by rewrite IH, map_lowercase_fixed. }
  assert (Forall (fun l => (1 <= length l <= DNS_MAX_LABEL_LEN)%nat) (split_dot s)) as Hl
    by (eapply Forall_impl; [exact Hls |]; by intros l [? _]).
  assert (length (wire_of (split_dot s)) <= MAX_NAME_WIRE_LEN)%nat as Hmax by (by destruct Hn as (? & _ & _ & ?)).
  split_and!.
  - by apply encode_spec.
  - apply from_wire_exact_lemma; [by apply wire_of_bytes |]. exists (split_dot s). by rewrite Hlow.
  - apply hostname_exact_lemma; [done |]. by rewrite from_is_wire.
  - pose proof (decode_uncompressed [] (split_dot s) [] (length s + 2) Hl Hmax) as H. cbn [app length Nat.add] in H.
    rewrite app_nil_r, Hlow, Hlen in H. by apply H.
  - intros w' Hw' Hh. apply hostname_exact_lemma in Hh as [_ ->]; [|done]. by apply from_is_wire.
Qed.

Definition EXAMPLE_COM : list Z := [69; 120; 97; 109; 112; 108; 101; 46; 67; 79; 77; 46].

Lemma dns_name_roundtrip_witness :
  exists s, DnsName_parse EXAMPLE_COM = Ok s /\
  let w := DnsRecordName_from s in
  DnsName_encode s (replicate 20 9) = Ok (length w, w ++ drop (length w) (replicate 20 9)) /\
  from_wire w = Ok w /\ hostname w = Ok s /\ decode_record_name w 0 (length w) = Ok (w, length w) /\
  (forall w', wire_name w' -> hostname w' = Ok s -> w' = w).
Proof.
  exists [101; 120; 97; 109; 112; 108; 101; 46; 99; 111; 109]. split; [reflexivity |].
  apply (dns_name_roundtrip EXAMPLE_COM); [reflexivity | cbn; lia].
Defined.

(** On any message, decoding a name terminates without a panic, whatever pointers the message holds;
    what it returns is the name that RFC 1035 says starts there, in lower case, well formed and at most 255
    bytes long, and the reported end lies behind the start and within the given limit. *)
Theorem decode_record_name_safe packet start limit (Hb : bytes packet) :
  decode_record_name packet start limit <> Panic /\
  forall w next, decode_record_name packet start limit = Ok (w, next) ->
    wire_name w /\ (start < next <= limit)%nat /\ exists ls, name_at packet start ls /\ w = wire_of ls.
Proof. by apply decode_record_name_spec. Qed.

(** A message whose names point at each other. *)
Definition pointer_cycle : list Z := replicate 12 0 ++ [192; 14; 192; 12].

Lemma decode_record_name_safe_witness :
  decode_record_name pointer_cycle 14 16 <> Panic /\ decode_record_name pointer_cycle 14 16 = Err InvalidPointer.
Proof.
  split; [|reflexivity].
  apply (decode_record_name_safe pointer_cycle 14 16). by_compute.
Defined.

(** The decoder accepts what a compressing encoder writes: labels followed by a pointer to an
    earlier name are the labels joined to that name. *)
Theorem decode_record_name_compressed p1 tail p2 ls post limit
    (Hls : Forall (fun l => (1 <= length l <= DNS_MAX_LABEL_LEN)%nat) (ls ++ tail))
    (Hlen : (length (wire_of (ls ++ tail)) <= MAX_NAME_WIRE_LEN)%nat)
    (Ht : (DNS_HEADER_LEN <= length p1 < 2 ^ 14)%nat)
    (Hlim : (length (p1 ++ wire_of tail ++ p2) + length (wire_labels ls) + 2 <= limit)%nat) :
  decode_record_name
    (p1 ++ wire_of tail ++ p2 ++ wire_labels ls ++
       [192 + Z.of_nat (length p1) / 256; Z.of_nat (length p1) mod 256] ++ post)
    (length (p1 ++ wire_of tail ++ p2)) limit =
  Ok (wire_of (map (map to_ascii_lowercase) (ls ++ tail)),
      (length (p1 ++ wire_of tail ++ p2) + length (wire_labels ls) + 2)%nat).
Proof. by apply decode_compressed. Qed.

Lemma decode_record_name_compressed_witness :
  decode_record_name
    (replicate 12 0 ++ wire_of [[99; 111; 109]] ++ [7] ++ wire_labels [[65]] ++ [192; 12] ++ [8; 8])
    18 24 = Ok ([1; 97; 3; 99; 111; 109; 0], 22%nat).
Proof.
  apply (decode_record_name_compressed (replicate 12 0) [[99; 111; 109]] [7] [[65]] [8; 8] 24).
  - repeat (apply Forall_cons; split; [cbn; unfold DNS_MAX_LABEL_LEN; lia |]). constructor.
  - cbn. unfold MAX_NAME_WIRE_LEN. lia.
  - change (2 ^ 14)%nat with (Z.to_nat 16384). rewrite length_replicate. unfold DNS_HEADER_LEN. lia.
  - vm_compute. lia.
Defined.

(** A query is the standard recursive question: identifier, flags 0x0100, one question, the name, the type
    and class IN, exactly [16 + length name] bytes, with the rest of the buffer untouched; a decoder that reads the
    question finds the name that was asked for. *)
Theorem encode_dns_record_query_layout id name kind out
    (Hn : wire_name name) (Hout : (length name + 16 <= length out)%nat) :
  encode_dns_record_query id name kind out =
    Ok ((length name + 16)%nat, query_wire id name kind ++ drop (length name + 16) out) /\
  decode_record_name (query_wire id name kind) DNS_HEADER_LEN (length name + 16) =
    Ok (name, (DNS_HEADER_LEN + length name)%nat).
Proof.
  split; [by apply encode_query_spec |]. destruct Hn as (ls & Hls & -> & Hlen).
  pose proof (decode_uncompressed (u16_to_be id ++ [1; 0; 0; 1; 0; 0; 0; 0; 0; 0]) ls
    (u16_to_be (record_type_u16 kind) ++ [0; 1]) (length (wire_of ls) + 16)) as H.
  replace (map (map to_ascii_lowercase) ls) with ls in H.
  2: { clear -Hls. symmetry. induction Hls as [|l ls (_ & _ & Hu) _ IH]; cbn; [done |]. by rewrite IH, map_lowercase_fixed. }
  apply H; [eapply Forall_impl; [exact Hls |]; by intros l [? _] | done | cbn; lia].
Qed.

Lemma encode_dns_record_query_layout_witness :
  encode_dns_record_query 4660 [1; 97; 0] A (replicate 20 7) =
    Ok (19%nat, query_wire 4660 [1; 97; 0] A ++ [7]) /\
  decode_record_name (query_wire 4660 [1; 97; 0] A) 12 19 = Ok ([1; 97; 0], 15%nat).
Proof.
  apply (encode_dns_record_query_layout 4660 [1; 97; 0] A (replicate 20 7)); [|cbn; lia].
  exists [[97]]. split_and!; [|reflexivity | vm_compute; lia].
  apply Forall_cons. split; [|constructor]. split_and!; [cbn; lia | cbn; unfold DNS_MAX_LABEL_LEN; lia | solve_bytes |].
  by repeat constructor.
Defined.

(** The reverse name of an IPv4 address is the text of its bytes in reverse order under
    [in-addr.arpa], and the reverse name of an IPv6 address the 32 nibbles, lowest first, under [ip6.arpa];
    both are valid host names. *)
Theorem reverse_names address4 address6 (H4 : arr 4 address4) (H6 : arr 16 address6) :
  hostname (reverse_ipv4 address4) = Ok (dotted (rev address4) ++ DOT :: IN_ADDR ++ DOT :: ARPA) /\
  exists w6, reverse_ipv6 address6 = Ok w6 /\ wire_name w6 /\
    hostname w6 = Ok (join_dot (nibble_labels (rev address6) ++ [IP6; ARPA])).
Proof.
  split; [by apply reverse_ipv4_spec |]. destruct (reverse_ipv6_spec _ H6) as (? & ? & ?). eauto.
Qed.

Lemma reverse_names_witness :
  hostname (reverse_ipv4 [10; 0; 2; 15]) = Ok (dotted [15; 2; 0; 10] ++ DOT :: IN_ADDR ++ DOT :: ARPA).
Proof.
  apply (reverse_names [10; 0; 2; 15] (replicate 16 254)); (split; [reflexivity |]); by_compute.
Defined.
