(* ===== verification/DnsAnswer.v ===== *)
(** * DNS answers ([network-stack/src/dns/records.rs], [decode_dns_answer], and [dns/negative.rs])

    The decoder is split at its phases: header and question, the resource records one by one, the alias
    chain, the terminal values, and the negative proof.  The loops carry fuel; running out of it would
    be [Panic], which the theorems exclude. *)

From S2P Require Import Prelude Text DnsName DnsWire.

(** ** The code *)

Inductive DnsNegativeKind : Type := NegNameError | NegNoData.
#[export] Instance DnsNegativeKind_eq_dec : EqDecision DnsNegativeKind.
Proof. solve_decision. Defined.

Record DnsSoa := {
  soa_owner : DnsRecordName;
  soa_primary : DnsRecordName;
  soa_mailbox : DnsRecordName;
  soa_serial : Z;
  soa_refresh : Z;
  soa_retry : Z;
  soa_expire : Z;
  soa_minimum : Z;
  soa_ttl : Z;
}.
#[export] Instance DnsSoa_eq_dec : EqDecision DnsSoa.
Proof. unfold DnsRecordName in *. solve_decision. Defined.

Definition normalize_ttl (ttl : Z) : Z := if negb (Z.land ttl 2147483648 =? 0) then 0 else ttl.

Definition DnsSoa_decode (packet : list Z) (owner : DnsRecordName) (ttl : Z) (start end_ : nat)
    : result DnsError DnsSoa :=
  let? (primary, next) := decode_record_name packet start end_ in
  let? (mailbox, next) := decode_record_name packet next end_ in
  if negb (bool_decide (checked_add next 20 = Some end_)) then Err InvalidRecordLength else
  let? minimum := dns_read_u32 packet (next + 16) in
  let? serial := dns_read_u32 packet (next + 0) in
  let? refresh := dns_read_u32 packet (next + 4) in
  let? retry := dns_read_u32 packet (next + 8) in
  let? expire := dns_read_u32 packet (next + 12) in
  Ok {| soa_owner := owner; soa_primary := primary; soa_mailbox := mailbox; soa_serial := serial;
        soa_refresh := refresh; soa_retry := retry; soa_expire := expire; soa_minimum := minimum;
        soa_ttl := Z.min ttl (normalize_ttl minimum) |}.

Definition soa_with_ttl (s : DnsSoa) (ttl : Z) : DnsSoa :=
  {| soa_owner := soa_owner s; soa_primary := soa_primary s; soa_mailbox := soa_mailbox s;
     soa_serial := soa_serial s; soa_refresh := soa_refresh s; soa_retry := soa_retry s;
     soa_expire := soa_expire s; soa_minimum := soa_minimum s; soa_ttl := ttl |}.

Record DnsNegative := {
  neg_kind : DnsNegativeKind;
  neg_soa : option DnsSoa;
}.
#[export] Instance DnsNegative_eq_dec : EqDecision DnsNegative.
Proof. solve_decision. Defined.

Definition DnsNegative_error (self : DnsNegative) : DnsError :=
  match neg_kind self with NegNameError => Response NameError | NegNoData => NoData end.

(** The loop of [covers]: [offset] moves from label to label of [name]. *)
Fixpoint covers_loop (fuel : nat) (zone name : DnsRecordName) (offset : nat) : result DnsError bool :=
  match fuel with
  | O => Panic
  | S fuel =>
      let? suffix := slice name offset (length name) in
      if bool_decide (suffix = zone) then Ok true else
      let? len := idx name offset in
      if len =? 0 then Ok false else
      covers_loop fuel zone name (offset + (1 + Z.to_nat len))
  end.

Definition covers (zone name : DnsRecordName) : result DnsError bool :=
  covers_loop (S (length name)) zone name 0.

Fixpoint covering (soas : list DnsSoa) (name : DnsRecordName) : result DnsError (list DnsSoa) :=
  match soas with
  | [] => Ok []
  | soa :: soas =>
      let? c := covers (soa_owner soa) name in
      let? rest := covering soas name in
      Ok (if c then soa :: rest else rest)
  end.

(** [max_by_key]: the last of the longest. *)
Definition longest_owner (soas : list DnsSoa) : option DnsSoa :=
  fold_left (fun best soa =>
    match best with
    | None => Some soa
    | Some b => if (length (soa_owner b) <=? length (soa_owner soa))%nat then Some soa else Some b
    end) soas None.

(** The loop of [closest] over the SOAs of the chosen zone. *)
Fixpoint merge_soas (found : DnsSoa) (soas : list DnsSoa) : result DnsError DnsSoa :=
  match soas with
  | [] => Ok found
  | soa :: soas =>
      let ttl := Z.min (soa_ttl found) (soa_ttl soa) in
      let found := soa_with_ttl found (soa_ttl soa) in
      if negb (bool_decide (found = soa)) then Err InvalidHeader else
      merge_soas (soa_with_ttl found ttl) soas
  end.

Definition closest (soas : list DnsSoa) (name : DnsRecordName) : result DnsError (option DnsSoa) :=
  let? cs := covering soas name in
  match longest_owner cs with
  | None => Ok None
  | Some found =>
      let? found := merge_soas found (List.filter (fun s => bool_decide (soa_owner s = soa_owner found)) soas) in
      Ok (Some found)
  end.

Inductive DnsRecordValue : Type :=
  | Ipv4 (address : list Z)
  | Ipv6 (address : list Z)
  | Name (name : DnsRecordName)
  | Rdata (data : list Z).
#[export] Instance DnsRecordValue_eq_dec : EqDecision DnsRecordValue.
Proof. unfold DnsRecordName in *. solve_decision. Defined.

Record DnsRecordSet := {
  rs_question : DnsRecordName;
  rs_kind : DnsRecordType;
  rs_canonical_name : DnsRecordName;
  rs_values : list DnsRecordValue;
  rs_aliases : list DnsRecordName;
  rs_ttl_seconds : Z;
  rs_negative : option DnsNegative;
}.

(** [DnsRecordSet::ipv4]. *)
Definition DnsRecordSet_ipv4 (name : DnsName) (address : list Z) (ttl : Z) : DnsRecordSet :=
  let question := DnsRecordName_from name in
  {| rs_question := question; rs_kind := A; rs_canonical_name := question; rs_values := [Ipv4 address];
     rs_aliases := []; rs_ttl_seconds := normalize_ttl ttl; rs_negative := None |}.

(** The loop of [follow_answer] over the aliases of the next answer. *)
Fixpoint join_aliases (aliases names : list DnsRecordName) : result DnsError (list DnsRecordName) :=
  match names with
  | [] => Ok aliases
  | name :: names =>
      if bool_decide (name ∈ aliases) then Err AliasLoop else join_aliases (aliases ++ [name]) names
  end.

Definition follow_answer (self answer : DnsRecordSet) (elapsed_ms : Z) : result DnsError DnsRecordSet :=
  if negb (bool_decide (rs_values self = [])) || negb (bool_decide (rs_negative self = None))
     || bool_decide (rs_canonical_name self = rs_question self)
     || negb (bool_decide (rs_canonical_name self = rs_question answer))
     || negb (bool_decide (rs_kind self = rs_kind answer))
  then Err QuestionMismatch else
  let? aliases := join_aliases (rs_aliases self) (rs_aliases answer) in
  if bool_decide (rs_canonical_name answer ∈ aliases) then Err AliasLoop else
  if (DNS_MAX_ALIAS_DEPTH <? length aliases)%nat then Err AliasDepth else
  let remaining := saturating_sub (rs_ttl_seconds self * 1000) elapsed_ms / 1000 in
  Ok {| rs_question := rs_question self; rs_kind := rs_kind answer;
        rs_canonical_name := rs_canonical_name answer; rs_values := rs_values answer; rs_aliases := aliases;
        rs_ttl_seconds := Z.min (rs_ttl_seconds answer) (wrap32 remaining); rs_negative := rs_negative answer |}.

Inductive RecordData : Type :=
  | Value (kind : DnsRecordType) (value : DnsRecordValue)
  | Alias (target : DnsRecordName)
  | Other (record_type : Z).

Record DnsRecord := {
  rec_owner : DnsRecordName;
  rec_data : RecordData;
  rec_ttl : Z;
}.

(** The question: the name read, the offset behind it and the flags. *)
Definition decode_question (packet : list Z) (transaction_id : Z) (expected_name : DnsRecordName)
    (kind : DnsRecordType) : result DnsError (DnsRecordName * nat * Z) :=
  if DNS_MAX_WIRE_MESSAGE_LEN <? Z.of_nat (length packet) then Err MessageTooLarge else
  if (length packet <? DNS_HEADER_LEN)%nat then Err Truncated else
  let? id := dns_read_u16 packet 0 in
  if negb (id =? transaction_id) then Err TransactionMismatch else
  let? flags := dns_read_u16 packet 2 in
  if (Z.land flags 32768 =? 0) || negb (Z.land flags 30784 =? 0) then Err InvalidHeader else
  let? questions := dns_read_u16 packet 4 in
  if negb (questions =? 1) then Err QuestionMismatch else
  let? (question, offset) := decode_record_name packet DNS_HEADER_LEN (length packet) in
  if negb (bool_decide (question = expected_name)) then Err QuestionMismatch else
  let? type := dns_read_u16 packet offset in
  if negb (type =? record_type_u16 kind) then Err QuestionMismatch else
  let? class := dns_read_u16 packet (offset + 2) in
  if negb (class =? 1) then Err QuestionMismatch else
  Ok (question, (offset + 4)%nat, flags).

(** [while option < data.len()]. *)
Fixpoint option_loop (fuel : nat) (data : list Z) (option : nat) : result DnsError unit :=
  match fuel with
  | O => Panic
  | S fuel =>
      if (option <? length data)%nat then
        let? len := dns_read_u16 data (option + 2) in
        match (match checked_add option 4 with Some n => checked_add n (Z.to_nat len) | None => None end) with
        | Some n => if (n <=? length data)%nat then option_loop fuel data n else Err InvalidRecordLength
        | None => Err InvalidRecordLength
        end
      else Ok tt
  end.

(** The OPT record: the new [opt_seen]. *)
Definition decode_opt (opt_seen : bool) (index authority_end : nat) (owner : DnsRecordName)
    (raw_ttl flags : Z) (data : list Z) : result DnsError bool :=
  if opt_seen || (index <? authority_end)%nat || negb (bool_decide (owner = [0])) then Err InvalidHeader else
  let code := Z.lor (Z.shiftl (Z.shiftr raw_ttl 24) 4) (Z.land flags 15) in
  if 15 <? code then Err (UnsupportedExtendedResponseCode code) else
  let? _ := option_loop (S (length data)) data 0 in
  Ok true.

(** The character strings of a TXT record. *)
Fixpoint txt_loop (fuel : nat) (data : list Z) (next : nat) : result DnsError unit :=
  match fuel with
  | O => Panic
  | S fuel =>
      if (next <? length data)%nat then
        let? len := idx data next in
        let next := (next + (1 + Z.to_nat len))%nat in
        if (length data <? next)%nat then Err InvalidRecordLength else txt_loop fuel data next
      else Ok tt
  end.

Definition soa_rdata (soa : DnsSoa) : list Z :=
  soa_primary soa ++ soa_mailbox soa ++
  concat (map u32_to_be [soa_serial soa; soa_refresh soa; soa_retry soa; soa_expire soa; soa_minimum soa]).

(** The arms that read a target name: NS, CNAME and PTR. *)
Definition decode_name_data (packet : list Z) (record_type : Z) (start end_ : nat) : result DnsError RecordData :=
  let? (target, consumed) := decode_record_name packet start end_ in
  if negb (consumed =? end_)%nat then Err InvalidRecordLength else
  if record_type =? 5 then Ok (Alias target)
  else Ok (Value (if record_type =? 2 then Ns else Ptr) (Name target)).

(** MX and SRV: fixed fields followed by a name. *)
Definition decode_prefixed_data (packet : list Z) (record_type : Z) (start end_ : nat) (data : list Z)
    : result DnsError RecordData :=
  let prefix := if record_type =? 15 then 2%nat else 6%nat in
  if (length data <? prefix + 1)%nat then Err InvalidRecordLength else
  let? (target, consumed) := decode_record_name packet (start + prefix) end_ in
  if negb (consumed =? end_)%nat then Err InvalidRecordLength else
  let? fixed := slice data 0 prefix in
  Ok (Value (if record_type =? 15 then Mx else Srv) (Rdata (fixed ++ target))).

Definition decode_txt_data (data : list Z) : result DnsError RecordData :=
  if bool_decide (data = []) then Err InvalidRecordLength else
  let? _ := txt_loop (S (length data)) data 0 in
  Ok (Value Txt (Rdata data)).

(** [match record_type] of an IN record: the data, and the SOA when there is one. *)
Definition decode_rdata (packet : list Z) (record_type : Z) (owner : DnsRecordName) (ttl : Z) (start end_ : nat)
    (data : list Z) : result DnsError (RecordData * option DnsSoa) :=
  if record_type =? 6 then
    let? soa := DnsSoa_decode packet owner ttl start end_ in
    Ok (Value Soa (Rdata (soa_rdata soa)), Some soa)
  else if record_type =? 1 then
    let? a := ok_or (try_into_array 4 data) InvalidRecordLength in Ok (Value A (Ipv4 a), None)
  else if record_type =? 28 then
    let? a := ok_or (try_into_array 16 data) InvalidRecordLength in Ok (Value Aaaa (Ipv6 a), None)
  else if (record_type =? 2) || (record_type =? 5) || (record_type =? 12) then
    let? d := decode_name_data packet record_type start end_ in Ok (d, None)
  else if (record_type =? 15) || (record_type =? 33) then
    let? d := decode_prefixed_data packet record_type start end_ data in Ok (d, None)
  else if record_type =? 16 then
    let? d := decode_txt_data data in Ok (d, None)
  else Ok (Other record_type, None).

(** The variables of the record loop. *)
Record DnsScan := {
  sc_offset : nat;
  sc_records : list DnsRecord;
  sc_soas : list DnsSoa;
  sc_opt_seen : bool;
}.

(** One turn of the record loop. *)
Definition decode_rr (packet : list Z) (flags : Z) (answers authority_end index : nat) (s : DnsScan)
    : result DnsError DnsScan :=
  let? (owner, next) := decode_record_name packet (sc_offset s) (length packet) in
  let? record_type := dns_read_u16 packet next in
  let? class := dns_read_u16 packet (next + 2) in
  let? raw_ttl := dns_read_u32 packet (next + 4) in
  let ttl := normalize_ttl raw_ttl in
  let? len := dns_read_u16 packet (next + 8) in
  let start := (next + 10)%nat in
  let? end_ := ok_or (checked_add start (Z.to_nat len)) Truncated in
  let? data := ok_or (get_range packet start end_) Truncated in
  let? opt_seen := (if record_type =? 41
                    then decode_opt (sc_opt_seen s) index authority_end owner raw_ttl flags data
                    else Ok (sc_opt_seen s)) in
  let? (decoded, soa) := (if negb (class =? 1) then Ok (Other record_type, None)
                          else decode_rdata packet record_type owner ttl start end_ data) in
  Ok {| sc_offset := end_;
        sc_records := if (index <? answers)%nat && (class =? 1)
                      then sc_records s ++ [{| rec_owner := owner; rec_data := decoded; rec_ttl := ttl |}]
                      else sc_records s;
        sc_soas := match soa with
                   | Some soa => if (answers <=? index)%nat && (index <? authority_end)%nat
                                 then sc_soas s ++ [soa] else sc_soas s
                   | None => sc_soas s
                   end;
        sc_opt_seen := opt_seen |}.

(** [for index in 0..count]; [todo] turns are left. *)
Fixpoint decode_rrs (todo : nat) (packet : list Z) (flags : Z) (answers authority_end index : nat) (s : DnsScan)
    : result DnsError DnsScan :=
  match todo with
  | O => Ok s
  | S todo =>
      let? s := decode_rr packet flags answers authority_end index s in
      decode_rrs todo packet flags answers authority_end (S index) s
  end.

Definition companion_type (t : Z) : bool :=
  (t =? 24) || (t =? 25) || (t =? 30) || (t =? 46) || (t =? 47).

Definition min_ttl (ttl : option Z) (t : Z) : option Z :=
  Some (match ttl with None => t | Some old => Z.min old t end).

(** The inner loop over the records of [canonical]: the alias target and the lowered [ttl]. *)
Fixpoint alias_target (records : list DnsRecord) (canonical : DnsRecordName) (target : option DnsRecordName)
    (ttl : option Z) : result DnsError (option DnsRecordName * option Z) :=
  match records with
  | [] => Ok (target, ttl)
  | r :: records =>
      if bool_decide (rec_owner r = canonical) then
        match rec_data r with
        | Alias name =>
            if match target with Some previous => negb (bool_decide (previous = name)) | None => false end
            then Err ConflictingAlias
            else alias_target records canonical (Some name) (min_ttl ttl (rec_ttl r))
        | _ => alias_target records canonical target ttl
        end
      else alias_target records canonical target ttl
  end.

Definition beside_alias (d : RecordData) : bool :=
  match d with Alias _ => false | Other t => negb (companion_type t) | Value _ _ => true end.

(** The loop over the alias chain; each turn lengthens [visited], which is bounded. *)
Fixpoint alias_loop (fuel : nat) (records : list DnsRecord) (canonical : DnsRecordName)
    (visited : list DnsRecordName) (ttl : option Z)
    : result DnsError (DnsRecordName * list DnsRecordName * option Z) :=
  match fuel with
  | O => Panic
  | S fuel =>
      if bool_decide (canonical ∈ visited) then Err AliasLoop else
      let visited := visited ++ [canonical] in
      let? (target, ttl) := alias_target records canonical None ttl in
      match target with
      | Some target =>
          if existsb (fun r => bool_decide (rec_owner r = canonical) && beside_alias (rec_data r)) records
          then Err ConflictingAlias else
          if (DNS_MAX_ALIAS_DEPTH <? length visited)%nat then Err AliasDepth else
          alias_loop fuel records target visited ttl
      | None => Ok (canonical, visited, ttl)
      end
  end.

(** The terminal values of the asked kind, without duplicates. *)
Fixpoint terminal_values (records : list DnsRecord) (canonical : DnsRecordName) (kind : DnsRecordType)
    (values : list DnsRecordValue) (ttl : option Z) : list DnsRecordValue * option Z :=
  match records with
  | [] => (values, ttl)
  | r :: records =>
      if bool_decide (rec_owner r = canonical) then
        match rec_data r with
        | Value record_kind value =>
            if bool_decide (record_kind = kind) then
              terminal_values records canonical kind
                (if negb (bool_decide (value ∈ values)) then values ++ [value] else values) (min_ttl ttl (rec_ttl r))
            else terminal_values records canonical kind values ttl
        | _ => terminal_values records canonical kind values ttl
        end
      else terminal_values records canonical kind values ttl
  end.

Definition terminal_data (d : RecordData) : bool :=
  match d with Other t => negb (companion_type t) | _ => true end.

(** The negative classification of the answer. *)
Definition decode_negative (response_code : DnsResponseCode) (records : list DnsRecord)
    (canonical : DnsRecordName) (values : list DnsRecordValue) (aliases : list DnsRecordName)
    (soa : option DnsSoa) : result DnsError (option DnsNegative) :=
  if bool_decide (response_code = NameError) then
    if existsb (fun r => bool_decide (rec_owner r = canonical) && terminal_data (rec_data r)) records
    then Err InvalidHeader
    else Ok (Some {| neg_kind := NegNameError; neg_soa := soa |})
  else if bool_decide (values = []) && (bool_decide (is_Some soa) || bool_decide (aliases = []))
  then Ok (Some {| neg_kind := NegNoData; neg_soa := soa |})
  else Ok None.

(** From the records to the record set. *)
Definition assemble (question : DnsRecordName) (kind : DnsRecordType) (expected_name : DnsRecordName)
    (response_code : DnsResponseCode) (records : list DnsRecord) (soas : list DnsSoa)
    : result DnsError DnsRecordSet :=
  let? (canonical, visited, ttl) := alias_loop (DNS_MAX_ALIAS_DEPTH + 1) records expected_name [] None in
  let '(values, ttl) := terminal_values records canonical kind [] ttl in
  let visited := removelast visited in
  let? soa := closest soas canonical in
  let? negative := decode_negative response_code records canonical values visited soa in
  let ttl := match negative with
             | Some n => min_ttl ttl (match neg_soa n with Some soa => soa_ttl soa | None => 0 end)
             | None => ttl
             end in
  Ok {| rs_question := question; rs_kind := kind; rs_canonical_name := canonical; rs_values := values;
        rs_aliases := visited; rs_ttl_seconds := match ttl with Some t => t | None => 0 end;
        rs_negative := negative |}.

Definition decode_dns_answer (packet : list Z) (transaction_id : Z) (expected_name : DnsRecordName)
    (kind : DnsRecordType) : result DnsError DnsRecordSet :=
  let? (question, offset, flags) := decode_question packet transaction_id expected_name kind in
  if negb (Z.land flags 512 =? 0) then Err TruncatedResponse else
  let? response_code := decode_response_code (Z.land flags 15) in
  let? answers := dns_read_u16 packet 6 in
  let? authority := dns_read_u16 packet 8 in
  let? additional := dns_read_u16 packet 10 in
  let answers := Z.to_nat answers in
  let authority_end := (answers + Z.to_nat authority)%nat in
  let count := (authority_end + Z.to_nat additional)%nat in
  if ((length packet - offset) / 11 <? count)%nat then Err Truncated else
  let? s := decode_rrs count packet flags answers authority_end 0
              {| sc_offset := offset; sc_records := []; sc_soas := []; sc_opt_seen := false |} in
  if negb (sc_offset s =? length packet)%nat then Err InvalidHeader else
  if negb (bool_decide (response_code = NoError)) && negb (bool_decide (response_code = NameError))
  then Err (Response response_code) else
  assemble question kind expected_name response_code (sc_records s) (sc_soas s).

Definition decode_dns_records (packet : list Z) (transaction_id : Z) (expected_name : DnsRecordName)
    (kind : DnsRecordType) : result DnsError DnsRecordSet :=
  let? answer := decode_dns_answer packet transaction_id expected_name kind in
  if match rs_negative answer with Some n => bool_decide (neg_kind n = NegNameError) | None => false end
  then Err (Response NameError) else Ok answer.

(** [DnsAnswer] and [decode_dns_response] of [dns.rs]. *)
Record DnsAnswer := {
  an_address : list Z;
  an_ttl_seconds : Z;
}.

Definition decode_dns_response (packet : list Z) (transaction_id : Z) (expected_name : DnsName)
    : result DnsError DnsAnswer :=
  if (DNS_MAX_MESSAGE_LEN <? length packet)%nat then Err MessageTooLarge else
  let? records := decode_dns_records packet transaction_id (DnsRecordName_from expected_name) A in
  match head (rs_values records) with
  | Some (Ipv4 address) => Ok {| an_address := address; an_ttl_seconds := rs_ttl_seconds records |}
  | _ => Err UnsupportedRecord
  end.

(** ** Reads never panic *)

Lemma dns_read_u16_no_panic packet o : dns_read_u16 packet o <> Panic.
Proof.
  unfold dns_read_u16. destruct (get_range packet o (o + 2)) as [s|] eqn:H; cbn [ok_or]; [|done].
  apply get_range_length in H. replace (o + 2 - o)%nat with 2%nat in H by lia. by explode_list s.
Qed.

Lemma dns_read_u32_no_panic packet o : dns_read_u32 packet o <> Panic.
Proof.
  unfold dns_read_u32. destruct (get_range packet o (o + 4)) as [s|] eqn:H; cbn [ok_or]; [|done].
  apply get_range_length in H. replace (o + 4 - o)%nat with 4%nat in H by lia. by explode_list s.
Qed.

Lemma decode_record_name_no_panic packet start limit : bytes packet -> decode_record_name packet start limit <> Panic.
Proof. intros H. by apply decode_record_name_spec. Qed.

(** Walk through a chain of fallible steps whose panics are excluded by lemmas. *)
#[export] Hint Resolve dns_read_u16_no_panic dns_read_u32_no_panic decode_record_name_no_panic : nopanic.

Lemma option_loop_no_panic fuel : forall data o,
  (o <= length data < o + fuel)%nat -> option_loop fuel data o <> Panic.
Proof.
  induction fuel as [|fuel IH]; intros data o Hf; cbn [option_loop].
  - lia.
  - destruct (_ <? _)%nat; [|done]. step_result.
    destruct (checked_add o 4) as [n|] eqn:H4; [|done]. apply checked_add_Some in H4 as ->.
    destruct (checked_add (o + 4) _) as [m|] eqn:Hm; [|done]. apply checked_add_Some in Hm as ->.
    destruct (Nat.leb_spec (o + 4 + Z.to_nat a) (length data)); [|done]. apply IH. lia.
Qed.

Lemma txt_loop_no_panic fuel : forall data o, (o <= length data < o + fuel)%nat -> txt_loop fuel data o <> Panic.
Proof.
  induction fuel as [|fuel IH]; intros data o Hf; cbn [txt_loop].
  - lia.
  - destruct (Nat.ltb_spec o (length data)) as [Ho|]; [|done].
    destruct (idx_in (E := DnsError) data o Ho) as (b & -> & _). destruct (Nat.ltb_spec (length data) (o + (1 + Z.to_nat b))); [done |]. apply IH. lia.
Qed.

Lemma decode_opt_no_panic seen i ae owner ttl flags data : decode_opt seen i ae owner ttl flags data <> Panic.
Proof.
  unfold decode_opt. destruct (_ || _); [done |]. destruct (_ <? _); [done |].
  pose proof (option_loop_no_panic (S (length data)) data 0 ltac:(lia)) as H.
  by destruct (option_loop _ _ _).
Qed.

Lemma DnsSoa_decode_no_panic packet owner ttl start end_ :
  bytes packet -> DnsSoa_decode packet owner ttl start end_ <> Panic.
Proof. intros Hb. unfold DnsSoa_decode. repeat step_result. Qed.

#[export] Hint Resolve decode_opt_no_panic DnsSoa_decode_no_panic : nopanic.

Lemma decode_name_data_no_panic packet t start end_ : bytes packet -> decode_name_data packet t start end_ <> Panic.
Proof. intros Hb. unfold decode_name_data. repeat step_result. Qed.

Lemma decode_prefixed_data_no_panic packet t start end_ data :
  bytes packet -> decode_prefixed_data packet t start end_ data <> Panic.
Proof.
  intros Hb. unfold decode_prefixed_data. set (prefix := if t =? 15 then 2%nat else 6%nat). cbv zeta.
  destruct (Nat.ltb_spec (length data) (prefix + 1)) as [|Hlen]; [done |]. step_result. step_result. step_result.
  by rewrite slice_in by lia.
Qed.

Lemma decode_txt_data_no_panic data : decode_txt_data data <> Panic.
Proof.
  unfold decode_txt_data. case_bool_decide; [done |].
  pose proof (txt_loop_no_panic (S (length data)) data 0 ltac:(lia)) as Hnp. by destruct (txt_loop _ _ _).
Qed.

#[export] Hint Resolve decode_name_data_no_panic decode_prefixed_data_no_panic decode_txt_data_no_panic : nopanic.

Lemma decode_rdata_no_panic packet t owner ttl start end_ data :
  bytes packet -> decode_rdata packet t owner ttl start end_ data <> Panic.
Proof. intros Hb. unfold decode_rdata. repeat step_result. Qed.

#[export] Hint Resolve decode_rdata_no_panic : nopanic.

(** ** The records of a message *)

(** One resource record as it lies in the message. *)
Record RawRR := {
  rr_offset : nat;
  rr_owner : DnsRecordName;
  rr_type : Z;
  rr_class : Z;
  rr_ttl : Z;
  rr_start : nat;
  rr_end : nat;
}.

Definition raw_rr_at (packet : list Z) (rr : RawRR) : Prop :=
  exists next len,
    decode_record_name packet (rr_offset rr) (length packet) = Ok (rr_owner rr, next) /\
    dns_read_u16 packet next = Ok (rr_type rr) /\ dns_read_u16 packet (next + 2) = Ok (rr_class rr) /\
    dns_read_u32 packet (next + 4) = Ok (rr_ttl rr) /\ dns_read_u16 packet (next + 8) = Ok len /\
    rr_start rr = (next + 10)%nat /\ rr_end rr = (rr_start rr + Z.to_nat len)%nat /\ (rr_end rr <= length packet)%nat.

(** Consecutive records that fill the bytes from [o] to [e]. *)
Inductive rr_chain (packet : list Z) : nat -> list RawRR -> nat -> Prop :=
  | ChainEnd o : rr_chain packet o [] o
  | ChainNext rr rrs e :
      raw_rr_at packet rr -> rr_chain packet (rr_end rr) rrs e -> rr_chain packet (rr_offset rr) (rr :: rrs) e.

Definition rr_bytes (packet : list Z) (rr : RawRR) : list Z :=
  take (rr_end rr - rr_start rr) (drop (rr_start rr) packet).

Definition rr_data (packet : list Z) (rr : RawRR) : result DnsError (RecordData * option DnsSoa) :=
  decode_rdata packet (rr_type rr) (rr_owner rr) (normalize_ttl (rr_ttl rr)) (rr_start rr) (rr_end rr) (rr_bytes packet rr).

(** What one record of class IN contributes to the answers, and to the authority section. *)
Definition rr_records (packet : list Z) (rr : RawRR) : list DnsRecord :=
  if rr_class rr =? 1 then
    match rr_data packet rr with
    | Ok (d, _) => [{| rec_owner := rr_owner rr; rec_data := d; rec_ttl := normalize_ttl (rr_ttl rr) |}]
    | _ => []
    end
  else [].

Definition rr_soas (packet : list Z) (rr : RawRR) : list DnsSoa :=
  if rr_class rr =? 1 then
    match rr_data packet rr with Ok (_, Some soa) => [soa] | _ => [] end
  else [].

(** The records whose position is in a range. *)
Fixpoint between (lo hi index : nat) (rrs : list RawRR) : list RawRR :=
  match rrs with
  | [] => []
  | rr :: rrs => (if (lo <=? index)%nat && (index <? hi)%nat then [rr] else []) ++ between lo hi (S index) rrs
  end.

Lemma between_spec lo hi rrs : forall i,
  between lo hi i rrs = take (hi - Nat.max lo i) (drop (lo - i) rrs).
Proof.
  induction rrs as [|rr rrs IH]; intros i; cbn [between]; [by rewrite drop_nil, take_nil |].
  rewrite IH. destruct (Nat.leb_spec lo i), (Nat.ltb_spec i hi); cbn [andb app].
  - replace (lo - i)%nat with 0%nat by lia. replace (lo - S i)%nat with 0%nat by lia.
    replace (hi - Nat.max lo i)%nat with (S (hi - Nat.max lo (S i))) by lia. by rewrite !drop_0.
  - replace (hi - Nat.max lo i)%nat with 0%nat by lia. replace (hi - Nat.max lo (S i))%nat with 0%nat by lia.
    by rewrite !take_0.
  - replace (lo - i)%nat with (S (lo - S i)) by lia. cbn [drop]. f_equal. lia.
  - replace (hi - Nat.max lo i)%nat with 0%nat by lia. replace (hi - Nat.max lo (S i))%nat with 0%nat by lia.
    by rewrite !take_0.
Qed.

Lemma decode_rr_no_panic packet flags answers ae index s :
  bytes packet -> decode_rr packet flags answers ae index s <> Panic.
Proof.
  intros Hb. unfold decode_rr. repeat step_result.
Qed.

Lemma ok_or_Ok {E B} (o : option B) (e : E) x : ok_or o e = Ok x -> o = Some x.
Proof. destruct o; cbn; congruence. Qed.

Lemma decode_rr_spec packet flags answers ae index s s' :
  decode_rr packet flags answers ae index s = Ok s' ->
  exists rr, rr_offset rr = sc_offset s /\ raw_rr_at packet rr /\ sc_offset s' = rr_end rr /\
    sc_records s' = sc_records s ++ (if (index <? answers)%nat then rr_records packet rr else []) /\
    sc_soas s' = sc_soas s ++ (if (answers <=? index)%nat && (index <? ae)%nat then rr_soas packet rr else []).
Proof.
  unfold decode_rr. destruct (decode_record_name _ _ _) as [[owner next]| |] eqn:Hn; [|done..].
  destruct (dns_read_u16 packet next) as [ty| |] eqn:Ht; [|done..].
  destruct (dns_read_u16 packet (next + 2)) as [cl| |] eqn:Hc; [|done..].
  destruct (dns_read_u32 packet (next + 4)) as [rt| |] eqn:Hr; [|done..].
  destruct (dns_read_u16 packet (next + 8)) as [len| |] eqn:Hl; [|done..].
  destruct (ok_or (checked_add _ _) _) as [e| |] eqn:He; [|done..]. apply ok_or_Ok, checked_add_Some in He as ->.
  destruct (ok_or (get_range _ _ _) _) as [data| |] eqn:Hd; [|done..].
  apply ok_or_Ok, get_range_Some in Hd as (_ & Hle & ->).
  match goal with |- (match ?m with Ok _ => _ | Err _ => _ | Panic => _ end) = _ -> _ => destruct m as [seen| |] end;
    [|done..].
  set (rr := {| rr_offset := sc_offset s; rr_owner := owner; rr_type := ty; rr_class := cl; rr_ttl := rt;
    rr_start := (next + 10)%nat; rr_end := (next + 10 + Z.to_nat len)%nat |}).
  intros Hs. exists rr. split; [done |]. split; [by exists next, len |].
  unfold rr_records, rr_soas, rr_data, rr_bytes. cbn [rr rr_owner rr_type rr_class rr_ttl rr_start rr_end].
  destruct (Z.eqb_spec cl 1) as [->|Hcl]; cbn [negb] in Hs.
  - destruct (decode_rdata _ _ _ _ _ _ _) as [[d soa]| |]; [|done..]. simplify_eq/=. split_and!; [done | |].
    + destruct (_ <? _)%nat; cbn; by rewrite ?app_nil_r.
    + destruct soa; [|by destruct (_ && _); rewrite app_nil_r]. destruct (_ && _); by rewrite ?app_nil_r.
  - simplify_eq/=. rewrite andb_false_r. split_and!; [done | |]; match goal with |- context [if ?b then _ else _] => destruct b end;
      by rewrite app_nil_r.
Qed.

Lemma decode_rrs_no_panic todo : forall packet flags answers ae index s,
  bytes packet -> decode_rrs todo packet flags answers ae index s <> Panic.
Proof.
  induction todo as [|todo IH]; intros packet flags answers ae index s Hb; cbn; [done |].
  pose proof (decode_rr_no_panic packet flags answers ae index s Hb) as H.
  destruct (decode_rr _ _ _ _ _ _); [by apply IH | done | done].
Qed.

Lemma decode_rrs_spec todo : forall packet flags answers ae index s s',
  decode_rrs todo packet flags answers ae index s = Ok s' ->
  exists rrs, length rrs = todo /\ rr_chain packet (sc_offset s) rrs (sc_offset s') /\
    sc_records s' = sc_records s ++ concat (map (rr_records packet) (between 0 answers index rrs)) /\
    sc_soas s' = sc_soas s ++ concat (map (rr_soas packet) (between answers ae index rrs)).
Proof.
  induction todo as [|todo IH]; intros packet flags answers ae index s s' H; cbn [decode_rrs] in H.
  { simplify_eq. exists []. cbn. rewrite !app_nil_r. split_and!; [done | constructor | done | done]. }
  destruct (decode_rr packet flags answers ae index s) as [s1| |] eqn:H1; [|done..].
  apply decode_rr_spec in H1 as (rr & Ho & Hrr & He & Hr & Hs). apply IH in H as (rrs & Hlen & Hch & Hr' & Hs').
  exists (rr :: rrs). cbn [length between]. rewrite Hr', Hs', Hr, Hs, <- Ho. split_and!.
  - lia.
  - constructor; [done |]. by rewrite <- He.
  - cbn [Nat.leb andb]. destruct (_ <? _)%nat; cbn; by rewrite <- !app_assoc.
  - destruct (_ && _); cbn; by rewrite <- !app_assoc.
Qed.

(** ** Zones *)

(** [zone] consists of the last labels of the name with labels [ls]. *)
Definition zone_of (zone : DnsRecordName) (ls : list (list Z)) : Prop :=
  exists ls1 ls2, ls = ls1 ++ ls2 /\ zone = wire_of ls2.

Definition in_zone (zone name : DnsRecordName) : Prop :=
  exists ls, name = wire_of ls /\ Forall wire_label ls /\ zone_of zone ls.

Lemma slice_tail {E} pre w : slice (E := E) (pre ++ w) (length pre) (length (pre ++ w)) = Ok w.
Proof. rewrite slice_in by (rewrite length_app; lia). rewrite drop_app_length, take_ge; [done |]. rewrite length_app. lia. Qed.

Lemma covers_loop_spec zone ls : forall fuel pre,
  Forall wire_label ls -> (length ls < fuel)%nat ->
  exists b, covers_loop fuel zone (pre ++ wire_of ls) (length pre) = Ok b /\ (b = true <-> zone_of zone ls).
Proof.
  induction ls as [|l ls IH]; intros [|fuel] pre Hls Hf; [lia | | cbn in Hf; lia |]; cbn [covers_loop].
  - rewrite slice_tail. case_bool_decide as Hz.
    + exists true. split; [done |]. split; [|done]. intros _. exists [], []. done.
    + unfold idx, wire_of, wire_labels. cbn [map concat app]. rewrite lookup_pre. exists false. split; [done |].
      split; [done |]. intros (ls1 & ls2 & Heq & ->). symmetry in Heq. apply app_eq_nil in Heq as [-> ->]. done.
  - apply Forall_cons in Hls as [(Hl & _) Hls]. rewrite slice_tail. case_bool_decide as Hz.
    + exists true. split; [done |]. split; [|done]. intros _. exists [], (l :: ls). done.
    + rewrite wire_of_cons. unfold idx. rewrite lookup_pre. rewrite (proj2 (Z.eqb_neq _ _)) by lia. rewrite Nat2Z.id.
      replace (pre ++ Z.of_nat (length l) :: l ++ wire_of ls) with ((pre ++ Z.of_nat (length l) :: l) ++ wire_of ls)
        by (by rewrite <- app_assoc).
      replace (length pre + (1 + length l))%nat with (length (pre ++ Z.of_nat (length l) :: l))
        by (rewrite length_app; cbn; lia).
      cbn [length] in Hf. destruct (IH fuel (pre ++ Z.of_nat (length l) :: l) Hls ltac:(lia)) as (b & Hb & Hiff).
      exists b. split; [done |]. rewrite Hiff. split; intros (ls1 & ls2 & Heq & ->).
      * exists (l :: ls1), ls2. by rewrite Heq.
      * destruct ls1 as [|l1 ls1]; cbn in Heq; [by subst ls2 |]. simplify_eq. by exists ls1, ls2.
Qed.

Lemma covers_spec zone name :
  wire_name name -> exists b, covers zone name = Ok b /\ (b = true <-> in_zone zone name).
Proof.
  intros (ls & Hls & -> & _). unfold covers. pose proof (length_wire_of_ge ls).
  destruct (covers_loop_spec zone ls (S (length (wire_of ls))) [] Hls ltac:(lia)) as (b & Hb & Hiff).
  exists b. split; [done |]. rewrite Hiff. split.
  - intros Hz. by exists ls.
  - intros (ls' & He & Hls' & Hz). apply wire_of_inj in He as ->; done.
Qed.

Lemma covering_spec soas name :
  wire_name name ->
  exists cs, covering soas name = Ok cs /\ forall s, s ∈ cs <-> s ∈ soas /\ in_zone (soa_owner s) name.
Proof.
  intros Hn. induction soas as [|s soas IH]; cbn [covering].
  - exists []. split; [done |]. intros s. rewrite elem_of_nil. tauto.
  - destruct (covers_spec (soa_owner s) name Hn) as (b & -> & Hb). destruct IH as (cs & -> & Hcs).
    eexists. split; [done |]. intros s'. destruct b; rewrite ?elem_of_cons, Hcs; naive_solver.
Qed.

Lemma longest_owner_spec soas : forall best,
  let step := fun best soa => match best with
    | None => Some soa
    | Some b => if (length (soa_owner b) <=? length (soa_owner soa))%nat then Some soa else Some b
    end in
  match fold_left step soas best with
  | None => best = None /\ soas = []
  | Some r => (best = Some r \/ r ∈ soas) /\
      (forall b, best = Some b -> (length (soa_owner b) <= length (soa_owner r))%nat) /\
      forall s, s ∈ soas -> (length (soa_owner s) <= length (soa_owner r))%nat
  end.
Proof.
  induction soas as [|s soas IH]; intros best step; cbn [fold_left].
  - destruct best as [b|]; [|done]. split_and!; [by left | by intros ? [= ->] | by intros ? ?%not_elem_of_nil].
  - specialize (IH (step best s)). cbv zeta in IH. fold step in IH.
    destruct (fold_left step soas (step best s)) as [r|].
    2: { destruct IH as [IH _]. unfold step in IH. destruct best; [|done]. by destruct (_ <=? _)%nat in IH. }
    destruct IH as (H1 & H2 & H3). unfold step in *.
    destruct best as [b|].
    + destruct (Nat.leb_spec (length (soa_owner b)) (length (soa_owner s))) as [Hle|Hlt].
      * specialize (H2 s eq_refl). split_and!.
        -- right. rewrite elem_of_cons. destruct H1 as [[= ->]|H1]; auto.
        -- intros ? [= <-]. lia.
        -- intros x [->|Hx]%elem_of_cons; [done | by apply H3].
      * specialize (H2 b eq_refl). split_and!.
        -- rewrite elem_of_cons. destruct H1 as [?|H1]; auto.
        -- by intros ? [= <-].
        -- intros x [->|Hx]%elem_of_cons; [lia | by apply H3].
    + specialize (H2 s eq_refl). split_and!.
      * right. rewrite elem_of_cons. destruct H1 as [[= ->]|H1]; auto.
      * done.
      * intros x [->|Hx]%elem_of_cons; [done | by apply H3].
Qed.

Lemma soa_with_ttl_twice s a b : soa_with_ttl (soa_with_ttl s a) b = soa_with_ttl s b.
Proof. done. Qed.

Lemma soa_with_ttl_same s : soa_with_ttl s (soa_ttl s) = s.
Proof. by destruct s. Qed.

Lemma merge_soas_spec soas : forall found,
  merge_soas found soas <> Panic /\
  forall r, merge_soas found soas = Ok r ->
    exists t, r = soa_with_ttl found t /\ t <= soa_ttl found /\
      forall s, s ∈ soas -> t <= soa_ttl s /\ soa_with_ttl s t = r.
Proof.
  induction soas as [|s soas IH]; intros found; cbn [merge_soas].
  - split; [done |]. intros r [= <-]. exists (soa_ttl found). rewrite soa_with_ttl_same.
    split_and!; [done | lia | by intros ? ?%not_elem_of_nil].
  - case_bool_decide as He; cbn [negb]; [|done]. rewrite soa_with_ttl_twice.
    destruct (IH (soa_with_ttl found (Z.min (soa_ttl found) (soa_ttl s)))) as [H1 H2]. split; [done |].
    intros r Hr. destruct (H2 r Hr) as (t & -> & Ht & Hs). cbn in Ht. exists t. rewrite soa_with_ttl_twice in *.
    split_and!; [done | lia |]. intros x [->|Hx]%elem_of_cons; [|by apply Hs]. split; [lia |]. by rewrite <- He.
Qed.

Lemma closest_spec soas name :
  wire_name name ->
  closest soas name <> Panic /\
  (closest soas name = Ok None <-> forall s, s ∈ soas -> ~ in_zone (soa_owner s) name) /\
  forall r, closest soas name = Ok (Some r) ->
    in_zone (soa_owner r) name /\
    (exists s, s ∈ soas /\ r = soa_with_ttl s (soa_ttl r)) /\
    (forall s, s ∈ soas -> soa_owner s = soa_owner r -> soa_ttl r <= soa_ttl s) /\
    (forall s, s ∈ soas -> in_zone (soa_owner s) name -> (length (soa_owner s) <= length (soa_owner r))%nat).
Proof.
  intros Hn. unfold closest. destruct (covering_spec soas name Hn) as (cs & -> & Hcs).
  pose proof (longest_owner_spec cs None) as Hl. cbv zeta in Hl. unfold longest_owner.
  destruct (fold_left _ cs None) as [found|].
  - destruct Hl as ([?|Hin] & _ & Hmax); [done |]. apply Hcs in Hin as [Hin Hz].
    destruct (merge_soas_spec (List.filter (fun s => bool_decide (soa_owner s = soa_owner found)) soas) found) as [H1 H2].
    destruct (merge_soas _ _) as [r| |]; [| split_and!; [done | | done] |done].
    + split; [done |]. split.
      { split; [done |]. intros Hno. by destruct (Hno found Hin). }
      intros r' [= <-]. destruct (H2 r eq_refl) as (t & -> & Ht & Hs). cbn.
      split_and!; [done | by exists found | |].
      * intros s Hs' Ho. apply Hs. apply elem_of_retain. by rewrite bool_decide_eq_true_2.
      * intros s Hs' Hz'. apply Hmax, Hcs. done.
    + split; [done |]. intros Hno. by destruct (Hno found Hin).
  - destruct Hl as [_ ->]. split_and!; [done | | done]. split; [|done]. intros _ s Hs Hz.
    assert (s ∈ @nil DnsSoa) as ?%not_elem_of_nil by (by apply Hcs). done.
Qed.

(** ** The alias chain and the values *)

Definition alias_edge (records : list DnsRecord) (a b : DnsRecordName) : Prop :=
  exists r, r ∈ records /\ rec_owner r = a /\ rec_data r = Alias b.

(** [lowered new old]: the lifetime only went down. *)
Definition lowered (new old : option Z) : Prop :=
  match old with None => True | Some x => exists y, new = Some y /\ y <= x end.

Definition at_most (ttl : option Z) (t : Z) : Prop := exists y, ttl = Some y /\ y <= t.

Lemma lowered_refl t : lowered t t.
Proof. destruct t; cbn; [|done]. eexists. split; [done | lia]. Qed.

Lemma lowered_trans a b c : lowered a b -> lowered b c -> lowered a c.
Proof. destruct c; cbn; [|done]. intros H (y & -> & ?). cbn in H. destruct H as (w & -> & ?). exists w. split; [done | lia]. Qed.

Lemma lowered_at_most a b t : lowered a b -> at_most b t -> at_most a t.
Proof. intros H (y & -> & ?). cbn in H. destruct H as (w & -> & ?). exists w. split; [done | lia]. Qed.

Lemma min_ttl_spec ttl t : lowered (min_ttl ttl t) ttl /\ at_most (min_ttl ttl t) t.
Proof. unfold min_ttl, at_most. destruct ttl; cbn; split; try done; eexists; (split; [done | lia]). Qed.

Lemma alias_target_spec records canonical : forall target ttl,
  alias_target records canonical target ttl <> Panic /\
  forall tg ttl', alias_target records canonical target ttl = Ok (tg, ttl') ->
    lowered ttl' ttl /\
    (forall t, target = Some t -> tg = Some t) /\
    (forall t, tg = Some t -> target = Some t \/ alias_edge records canonical t) /\
    (forall r t, r ∈ records -> rec_owner r = canonical -> rec_data r = Alias t -> tg = Some t /\ at_most ttl' (rec_ttl r)).
Proof.
  induction records as [|r records IH]; intros target ttl; cbn [alias_target].
  { split; [done |]. intros tg ttl' [= <- <-]. split_and!; [apply lowered_refl | done | by left |].
    by intros ? ? ?%not_elem_of_nil. }
  assert (forall t, alias_edge records canonical t -> alias_edge (r :: records) canonical t) as Hmono.
  { intros t (r' & ? & ? & ?). exists r'. split; [by right | done]. }
  case_bool_decide as Ho.
  2: { destruct (IH target ttl) as [H1 H2]. split; [done |]. intros tg ttl' Hr.
       destruct (H2 tg ttl' Hr) as (H3 & H4 & H5 & H6). split_and!; [done | done | |].
       - intros t Ht. destruct (H5 t Ht); auto.
       - intros r' t [->|Hr']%elem_of_cons Ho' Hd; [done | by apply H6]. }
  destruct (rec_data r) as [k v|name|ty] eqn:Hd.
  1, 3: destruct (IH target ttl) as [H1 H2]; split; [done |]; intros tg ttl' Hr;
    destruct (H2 tg ttl' Hr) as (H3 & H4 & H5 & H6); split_and!; [done | done | |];
    [intros t Ht; destruct (H5 t Ht); auto |
     intros r' t [->|Hr']%elem_of_cons Ho' Hd'; [congruence | by apply H6]].
  destruct (match target with Some previous => _ | None => _ end) eqn:Hc; [done |].
  destruct (IH (Some name) (min_ttl ttl (rec_ttl r))) as [H1 H2]. split; [done |]. intros tg ttl' Hr.
  destruct (H2 tg ttl' Hr) as (H3 & H4 & H5 & H6). specialize (H4 name eq_refl) as Hname.
  destruct (min_ttl_spec ttl (rec_ttl r)) as [Hm1 Hm2]. split_and!.
  - by eapply lowered_trans.
  - intros t ->. bool_cases. by subst name.
  - intros t ->. simplify_eq. right. exists r. split; [by left | done].
  - intros r' t [->|Hr']%elem_of_cons Ho' Hd'; [|by apply H6].
    split; [congruence |]. by eapply lowered_at_most.
Qed.

(** The chain from the first element of [path] to [last], along alias records whose lifetimes bound [ttl]. *)
Definition alias_path (records : list DnsRecord) (path : list DnsRecordName) (ttl : option Z) : Prop :=
  forall i a b, path !! i = Some a -> path !! S i = Some b ->
    alias_edge records a b /\ forall r, r ∈ records -> rec_owner r = a -> rec_data r = Alias b -> at_most ttl (rec_ttl r).

Lemma alias_loop_spec fuel : forall records canonical visited ttl,
  (length visited + fuel = DNS_MAX_ALIAS_DEPTH + 1)%nat -> (0 < fuel)%nat -> NoDup visited ->
  alias_loop fuel records canonical visited ttl <> Panic /\
  forall c vs ttl', alias_loop fuel records canonical visited ttl = Ok (c, vs, ttl') ->
    lowered ttl' ttl /\
    exists path, vs = visited ++ path ++ [c] /\ head (path ++ [c]) = Some canonical /\ NoDup vs /\
      (length vs <= DNS_MAX_ALIAS_DEPTH + 1)%nat /\ alias_path records (path ++ [c]) ttl' /\
      forall t, ~ alias_edge records c t.
Proof.
  induction fuel as [|fuel IH]; intros records canonical visited ttl Hlen Hf Hnd; [lia |]. cbn [alias_loop].
  case_bool_decide as Hin; [done |].
  destruct (alias_target_spec records canonical None ttl) as [H1 H2].
  destruct (alias_target records canonical None ttl) as [[tg ttl1]| |]; [|done..].
  destruct (H2 tg ttl1 eq_refl) as (Hlow & _ & Hedge & Hall).
  assert (NoDup (visited ++ [canonical])) as Hnd'.
  { apply NoDup_app. split_and!; [done | | apply NoDup_singleton]. by intros x Hx ->%list_elem_of_singleton. }
  destruct tg as [t|].
  - destruct (existsb _ records); [done |].
    destruct (Nat.ltb_spec DNS_MAX_ALIAS_DEPTH (length (visited ++ [canonical]))) as [|Hd]; [done |].
    rewrite length_app in Hd. unfold DNS_MAX_ALIAS_DEPTH in *. cbn in Hd.
    destruct (IH records t (visited ++ [canonical]) ttl1) as [H3 H4]; [rewrite length_app; cbn; lia | lia | done |].
    split; [done |]. intros c vs ttl' Hr. destruct (H4 c vs ttl' Hr) as (Hlow' & path & -> & Hhd & Hn & Hl & Hp & Ht).
    split; [by eapply lowered_trans |]. exists (canonical :: path). cbn [app head].
    split_and!; [by rewrite <- app_assoc | done | done | done | | done].
    intros [|i] a b Ha Hb; [|by eapply Hp]. cbn in Ha, Hb. simplify_eq.
    assert (b = t) as -> by (destruct path; cbn in *; congruence).
    destruct (Hedge t eq_refl) as [?|He]; [done |]. split; [done |]. intros r Hr' Ho Hdt.
    eapply lowered_at_most; [exact Hlow' |]. by apply (Hall r t).
  - split; [done |]. intros c vs ttl' [= <- <- <-]. split; [done |]. exists []. cbn.
    split_and!; [done | done | done | rewrite length_app; unfold DNS_MAX_ALIAS_DEPTH in *; cbn; lia | |].
    + intros i a b Ha Hb. by destruct i.
    + intros t (r & Hr & Ho & Hd). by destruct (Hall r t Hr Ho Hd).
Qed.

Lemma terminal_values_spec records canonical kind : forall values ttl,
  NoDup values ->
  let '(values', ttl') := terminal_values records canonical kind values ttl in
  NoDup values' /\ lowered ttl' ttl /\
  (forall v, v ∈ values' <-> v ∈ values \/ exists r, r ∈ records /\ rec_owner r = canonical /\ rec_data r = Value kind v) /\
  (forall r v, r ∈ records -> rec_owner r = canonical -> rec_data r = Value kind v -> at_most ttl' (rec_ttl r)).
Proof.
  induction records as [|r records IH]; intros values ttl Hnd; cbn [terminal_values].
  { split_and!; [done | apply lowered_refl | | by intros ? ? ?%not_elem_of_nil]. intros v. split; [by left |].
    by intros [?|(r & ?%not_elem_of_nil & _)]. }
  assert (forall v, (rec_owner r = canonical -> rec_data r <> Value kind v) ->
    (exists r', r' ∈ r :: records /\ rec_owner r' = canonical /\ rec_data r' = Value kind v) <->
    (exists r', r' ∈ records /\ rec_owner r' = canonical /\ rec_data r' = Value kind v)) as Hskip.
  { intros v Hne. split; intros (r' & Hin & Ho & Hd).
    - apply elem_of_cons in Hin as [->|Hin]; [by destruct (Hne Ho) | eauto].
    - exists r'. split; [by right | done]. }
  assert ((forall v, rec_owner r = canonical -> rec_data r <> Value kind v) ->
    let '(values', ttl') := terminal_values records canonical kind values ttl in
    NoDup values' /\ lowered ttl' ttl /\
    (forall v, v ∈ values' <-> v ∈ values \/ exists r', r' ∈ r :: records /\ rec_owner r' = canonical /\ rec_data r' = Value kind v) /\
    (forall r' v, r' ∈ r :: records -> rec_owner r' = canonical -> rec_data r' = Value kind v -> at_most ttl' (rec_ttl r')))
    as Hother.
  { intros Hne. specialize (IH values ttl Hnd). destruct (terminal_values _ _ _ _ _) as [vs t'].
    destruct IH as (H1 & H2 & H3 & H4). split_and!; [done | done | |].
    - intros v. rewrite H3, Hskip; [done |]. apply Hne.
    - intros r' v [->|Hin]%elem_of_cons Ho Hd; [by destruct (Hne v Ho) | by eapply H4]. }
  case_bool_decide as Ho; [|apply Hother; done].
  destruct (rec_data r) as [k v| |] eqn:Hd; [|apply Hother; intros; congruence..].
  case_bool_decide as Hk; [subst k | apply Hother; intros; congruence].
  set (values1 := if negb (bool_decide (v ∈ values)) then values ++ [v] else values).
  assert (NoDup values1 /\ forall x, x ∈ values1 <-> x ∈ values \/ x = v) as [Hnd1 Hin1].
  { unfold values1. case_bool_decide; cbn [negb].
    - split; [done |]. intros x. split; [by left |]. by intros [?| ->].
    - split; [|intros x; by rewrite elem_of_app, list_elem_of_singleton].
      apply NoDup_app. split_and!; [done | | apply NoDup_singleton]. by intros x Hx ->%list_elem_of_singleton. }
  specialize (IH values1 (min_ttl ttl (rec_ttl r)) Hnd1). destruct (terminal_values _ _ _ _ _) as [vs t'].
  destruct IH as (H1 & H2 & H3 & H4). destruct (min_ttl_spec ttl (rec_ttl r)) as [Hm1 Hm2]. split_and!.
  - done.
  - by eapply lowered_trans.
  - intros x. rewrite H3, Hin1. split.
    + intros [[?| ->]|(r' & ? & ? & ?)]; [by left | |].
      * right. exists r. split; [by left | done].
      * right. exists r'. split; [by right | done].
    + intros [?|(r' & [->|?]%elem_of_cons & ? & ?)]; [by left; left | left; right; congruence |].
      right. by exists r'.
  - intros r' x [->|Hin]%elem_of_cons Ho' Hd'; [by eapply lowered_at_most | by eapply H4].
Qed.

(** ** The assembled answer *)

(** What the record set promises about the answer records and the authority SOAs it was made from. *)
Record answer_of (records : list DnsRecord) (soas : list DnsSoa) (code : DnsResponseCode)
    (name : DnsRecordName) (kind : DnsRecordType) (rs : DnsRecordSet) : Prop := {
  ao_question : rs_question rs = name /\ rs_kind rs = kind;
  (** the aliases lead from the question to the canonical name, without repetition, in at most 16 steps *)
  ao_chain :
    head (rs_aliases rs ++ [rs_canonical_name rs]) = Some name /\
    NoDup (rs_aliases rs ++ [rs_canonical_name rs]) /\ (length (rs_aliases rs) <= DNS_MAX_ALIAS_DEPTH)%nat /\
    alias_path records (rs_aliases rs ++ [rs_canonical_name rs]) (Some (rs_ttl_seconds rs)) /\
    forall t, ~ alias_edge records (rs_canonical_name rs) t;
  (** the values are exactly those of the asked kind at the canonical name, and live no longer than their records *)
  ao_values : NoDup (rs_values rs) /\
    (forall v, v ∈ rs_values rs <->
       exists r, r ∈ records /\ rec_owner r = rs_canonical_name rs /\ rec_data r = Value kind v) /\
    (forall r v, r ∈ records -> rec_owner r = rs_canonical_name rs -> rec_data r = Value kind v ->
       rs_ttl_seconds rs <= rec_ttl r);
  (** a negative answer has no values; its proof is an SOA of a zone that holds the canonical name *)
  ao_negative : forall n, rs_negative rs = Some n ->
    rs_values rs = [] /\
    (neg_kind n = NegNameError <-> code = NameError) /\
    match neg_soa n with
    | Some soa => in_zone (soa_owner soa) (rs_canonical_name rs) /\
        (exists s, s ∈ soas /\ soa = soa_with_ttl s (soa_ttl soa)) /\ rs_ttl_seconds rs <= soa_ttl soa
    | None => rs_ttl_seconds rs <= 0
    end;
  (** a positive answer has values, or is an alias that has to be followed *)
  ao_positive : rs_negative rs = None -> code <> NameError /\ (rs_values rs <> [] \/ rs_aliases rs <> []);
}.

Lemma name_at_alias packet t o e d :
  bytes packet -> decode_name_data packet t o e = Ok d -> forall n, d = Alias n -> wire_name n.
Proof.
  unfold decode_name_data. intros Hb H n ->. destruct (decode_record_name packet o e) as [[target c]| |] eqn:Hd; [|done..].
  apply decode_record_name_spec in Hd as (Hw & _); [|done]. destruct (negb _); [done |].
  destruct (t =? 5); by simplify_eq.
Qed.

Lemma rr_alias_wire_name packet rr n s : bytes packet -> rr_data packet rr = Ok (Alias n, s) -> wire_name n.
Proof.
  unfold rr_data, decode_rdata. intros Hb H. generalize dependent (rr_bytes packet rr). intros data H.
  destruct (_ =? 6). { destruct (DnsSoa_decode _ _ _ _ _); by simplify_eq. }
  destruct (_ =? 1). { destruct (ok_or _ _); by simplify_eq. }
  destruct (_ =? 28). { destruct (ok_or _ _); by simplify_eq. }
  destruct (_ || _).
  { destruct (decode_name_data _ _ _ _) eqn:Hd; [|done..]. simplify_eq. by eapply name_at_alias. }
  destruct (_ || _).
  { destruct (decode_prefixed_data _ _ _ _ _) as [d| |] eqn:Hd; [|done..]. simplify_eq.
    unfold decode_prefixed_data in Hd. destruct (_ <? _)%nat; [done |].
    destruct (decode_record_name _ _ _) as [[? ?]| |]; [|done..]. destruct (negb _); [done |].
    by destruct (slice _ _ _). }
  destruct (_ =? 16); [|done].
  destruct (decode_txt_data _) as [d| |] eqn:Hd; [|done..]. simplify_eq. unfold decode_txt_data in Hd.
  destruct (bool_decide _); [done |]. by destruct (txt_loop _ _ _).
Qed.

Lemma path_last_wire_name records ttl path : forall c first,
  (forall a b, alias_edge records a b -> wire_name b) -> wire_name first ->
  head (path ++ [c]) = Some first -> alias_path records (path ++ [c]) ttl -> wire_name c.
Proof.
  intros c first He Hf Hh Hp. destruct path as [|a path _] using rev_ind; [by cbn in Hh; simplify_eq |].
  destruct (Hp (length path) a c) as [Hedge _].
  - rewrite <- app_assoc. by rewrite lookup_app_r, Nat.sub_diag by lia.
  - rewrite lookup_app_r by (rewrite length_app; cbn; lia). rewrite length_app. cbn.
    by replace (S (length path) - (length path + 1))%nat with 0%nat by lia.
  - by eapply He.
Qed.

Lemma assemble_spec records soas code name kind :
  wire_name name -> (forall a b, alias_edge records a b -> wire_name b) ->
  code = NoError \/ code = NameError ->
  assemble name kind name code records soas <> Panic /\
  forall rs, assemble name kind name code records soas = Ok rs -> answer_of records soas code name kind rs.
Proof.
  intros Hn He Hcode. unfold assemble.
  destruct (alias_loop_spec (DNS_MAX_ALIAS_DEPTH + 1) records name [] None ltac:(done) ltac:(cbn; lia) ltac:(constructor)) as [H1 H2].
  destruct (alias_loop _ _ _ _ _) as [[[c vs] ttl1]| |]; [|done..].
  destruct (H2 c vs ttl1 eq_refl) as (_ & path & -> & Hhd & Hnd & Hlen & Hpath & Hend). cbn [app] in *.
  pose proof (path_last_wire_name records ttl1 path c name He Hn Hhd Hpath) as Hc.
  pose proof (terminal_values_spec records c kind [] ttl1 ltac:(constructor)) as Hv.
  destruct (terminal_values _ _ _ _ _) as [values ttl2]. destruct Hv as (Hnv & Hlow2 & Hval & Hvt).
  rewrite removelast_snoc. destruct (closest_spec soas c Hc) as (Hs1 & Hs2 & Hs3).
  destruct (closest soas c) as [soa| |]; [|done..].
  assert (decode_negative code records c values path soa <> Panic /\
    forall n, decode_negative code records c values path soa = Ok n ->
      match n with
      | Some n => values = [] /\ (neg_kind n = NegNameError <-> code = NameError) /\ neg_soa n = soa
      | None => code <> NameError /\ (values <> [] \/ path <> [])
      end) as [Hng1 Hng2].
  { unfold decode_negative. case_bool_decide as Hne.
    - match goal with |- context [if existsb ?f ?l then _ else _] => destruct (existsb f l) eqn:Hex end; [done |].
      split; [done |]. intros n [= <-]. cbn. split_and!; [|done | done].
      rewrite existsb_none in Hex. destruct values as [|v values]; [done |].
      destruct (proj1 (Hval v) ltac:(left)) as [?%not_elem_of_nil|(r & Hr & Ho & Hd)]; [done |].
      specialize (Hex r Hr). by rewrite bool_decide_eq_true_2, Hd in Hex.
    - destruct (bool_decide (values = [])) eqn:Hve; cbn [andb]; bool_cases.
      + destruct (_ || _) eqn:Hor; (split; [done |]); intros n [= <-]; cbn.
        * split_and!; [done | | done]. by split.
        * bool_cases. split; [done |]. by right.
      + split; [done |]. intros n [= <-]. split; [done | by left]. }
  destruct (decode_negative _ _ _ _ _ _) as [neg| |]; [|done..]. split; [done |]. intros rs [= <-].
  specialize (Hng2 neg eq_refl).
  set (ttl3 := match neg with Some n => min_ttl ttl2 _ | None => ttl2 end).
  assert (lowered ttl3 ttl2) as Hlow3 by (unfold ttl3; destruct neg; [apply min_ttl_spec | apply lowered_refl]).
  assert (forall t, at_most ttl3 t -> match ttl3 with Some t => t | None => 0 end <= t) as Hat
    by (intros t (y & -> & ?); done).
  split; cbn [rs_question rs_kind rs_canonical_name rs_values rs_aliases rs_ttl_seconds rs_negative].
  - done.
  - rewrite length_app in Hlen. cbn in Hlen. split_and!; [done | done | unfold DNS_MAX_ALIAS_DEPTH in *; lia | | done].
    intros i a b Ha Hb. destruct (Hpath i a b Ha Hb) as [Hedge Hr]. split; [done |]. intros r Hin Ho Hd.
    destruct (lowered_at_most _ _ _ Hlow3 (lowered_at_most _ _ _ Hlow2 (Hr r Hin Ho Hd))) as (y & -> & ?).
    exists y. done.
  - split_and!; [done | |].
    + intros v. rewrite Hval, elem_of_nil. tauto.
    + intros r v Hr Ho Hd. apply Hat. eapply lowered_at_most; [exact Hlow3 |]. by eapply Hvt.
  - intros n ->. destruct Hng2 as (Hv0 & Hk & Hsoa). split; [done |]. split; [done |].
    destruct (min_ttl_spec ttl2 (match neg_soa n with Some soa => soa_ttl soa | None => 0 end)) as [_ Hm].
    fold ttl3 in Hm. apply Hat in Hm. destruct (neg_soa n) as [s|]; [|done]. subst soa.
    destruct (Hs3 s eq_refl) as (? & ? & _). done.
  - intros ->. done.
Qed.

(** ** Whole messages *)

#[local] Opaque decode_record_name.

Lemma decode_question_no_panic packet id name kind : bytes packet -> decode_question packet id name kind <> Panic.
Proof. intros Hb. unfold decode_question. repeat step_result. Qed.

(** The header and question of an acceptable response. *)
Record question_of (packet : list Z) (id : Z) (name : DnsRecordName) (kind : DnsRecordType) (flags : Z) (off : nat) : Prop := {
  qo_id : dns_read_u16 packet 0 = Ok id;
  qo_flags : dns_read_u16 packet 2 = Ok flags;
  qo_response : Z.land flags 32768 <> 0 /\ Z.land flags 30784 = 0;
  qo_single : dns_read_u16 packet 4 = Ok 1;
  qo_name : exists next, off = (next + 4)%nat /\ decode_record_name packet DNS_HEADER_LEN (length packet) = Ok (name, next) /\
    dns_read_u16 packet next = Ok (record_type_u16 kind) /\ dns_read_u16 packet (next + 2) = Ok 1;
}.

Lemma decode_question_spec packet id name kind q off flags :
  decode_question packet id name kind = Ok (q, off, flags) -> q = name /\ question_of packet id name kind flags off.
Proof.
  unfold decode_question. intros H. destruct (_ <? _); [done |]. destruct (_ <? _)%nat; [done |].
  destruct (dns_read_u16 packet 0) as [i| |] eqn:Hi; [|done..]. destruct (Z.eqb_spec i id) as [->|]; [|done]. cbn [negb] in H.
  destruct (dns_read_u16 packet 2) as [f| |] eqn:Hf; [|done..]. destruct (_ || _) eqn:Hg; [done |]. bool_cases.
  destruct (dns_read_u16 packet 4) as [n| |] eqn:Hn; [|done..]. destruct (Z.eqb_spec n 1) as [->|]; [|done]. cbn [negb] in H.
  destruct (decode_record_name _ _ _) as [[nm next]| |] eqn:Hd; [|done..]. case_bool_decide; [|done]. cbn [negb] in H. subst nm.
  destruct (dns_read_u16 packet next) as [ty| |] eqn:Ht; [|done..].
  destruct (Z.eqb_spec ty (record_type_u16 kind)) as [->|]; [|done]. cbn [negb] in H.
  destruct (dns_read_u16 packet (next + 2)) as [cl| |] eqn:Hc; [|done..]. destruct (Z.eqb_spec cl 1) as [->|]; [|done].
  cbn [negb] in H. injection H as <- <- <-. split; [reflexivity |].
  split; [exact Hi | exact Hf | by split | exact Hn | exists next; by split_and!].
Qed.

Lemma decode_response_code_no_panic c : decode_response_code c <> Panic.
Proof. unfold decode_response_code. repeat step_result. Qed.

#[export] Hint Resolve decode_question_no_panic decode_rrs_no_panic decode_response_code_no_panic : nopanic.

Definition answer_records (packet : list Z) (rrs : list RawRR) (answers : nat) : list DnsRecord :=
  concat (map (rr_records packet) (take answers rrs)).
Definition authority_soas (packet : list Z) (rrs : list RawRR) (answers authority : nat) : list DnsSoa :=
  concat (map (rr_soas packet) (take authority (drop answers rrs))).

Lemma elem_of_answer_records packet rrs answers r :
  r ∈ answer_records packet rrs answers <-> exists rr, rr ∈ take answers rrs /\ r ∈ rr_records packet rr.
Proof.
  unfold answer_records. rewrite list_elem_of_In, in_concat. split.
  - intros (l & (rr & <- & Hr)%in_map_iff & Hin). exists rr. by rewrite !list_elem_of_In.
  - intros (rr & Hr%list_elem_of_In & Hin%list_elem_of_In). exists (rr_records packet rr). split; [by apply in_map | done].
Qed.

Lemma answer_records_alias packet rrs answers a b :
  bytes packet -> alias_edge (answer_records packet rrs answers) a b -> wire_name b.
Proof.
  intros Hb (r & Hr & _ & Hd). apply elem_of_answer_records in Hr as (rr & _ & Hr). unfold rr_records in Hr.
  destruct (_ =? 1); [|by apply not_elem_of_nil in Hr].
  destruct (rr_data packet rr) as [[d s]| |] eqn:Hrr; [|by apply not_elem_of_nil in Hr..].
  apply list_elem_of_singleton in Hr as ->. cbn in Hd. subst d. by eapply rr_alias_wire_name.
Qed.

(** Everything the decoder checked before it assembled the answer. *)
Definition message_of (packet : list Z) (id : Z) (name : DnsRecordName) (kind : DnsRecordType)
    (rrs : list RawRR) (answers authority : nat) (code : DnsResponseCode) : Prop :=
  exists flags off,
    question_of packet id name kind flags off /\ Z.land flags 512 = 0 /\ decode_response_code (Z.land flags 15) = Ok code /\
    (code = NoError \/ code = NameError) /\
    dns_read_u16 packet 6 = Ok (Z.of_nat answers) /\ dns_read_u16 packet 8 = Ok (Z.of_nat authority) /\
    rr_chain packet off rrs (length packet).

Lemma dns_read_u16_range packet o z : bytes packet -> dns_read_u16 packet o = Ok z -> is_u16 z.
Proof.
  unfold dns_read_u16. intros Hb H. destruct (get_range packet o (o + 2)) as [s|] eqn:Hs; cbn [ok_or] in H; [|done].
  apply get_range_length in Hs as Hl. apply get_range_bytes in Hs; [|done].
  replace (o + 2 - o)%nat with 2%nat in Hl by lia. explode_list s. cbn in H. simplify_eq. split_bytes.
  by apply u16_from_be_range.
Qed.

Lemma decode_dns_answer_spec packet id name kind :
  bytes packet -> wire_name name ->
  decode_dns_answer packet id name kind <> Panic /\
  forall rs, decode_dns_answer packet id name kind = Ok rs ->
    exists rrs answers authority code,
      message_of packet id name kind rrs answers authority code /\
      answer_of (answer_records packet rrs answers) (authority_soas packet rrs answers authority) code name kind rs.
Proof.
  intros Hb Hn. unfold decode_dns_answer.
  pose proof (decode_question_no_panic packet id name kind Hb).
  destruct (decode_question packet id name kind) as [[[q off] flags]| |] eqn:Hq; [|done..].
  apply decode_question_spec in Hq as [-> Hq].
  destruct (Z.eqb_spec (Z.land flags 512) 0) as [Htc|]; [|done]. cbn [negb].
  pose proof (decode_response_code_no_panic (Z.land flags 15)).
  destruct (decode_response_code _) as [code| |] eqn:Hcode; [|done..].
  pose proof (dns_read_u16_no_panic packet 6). destruct (dns_read_u16 packet 6) as [an| |] eqn:Han; [|done..].
  pose proof (dns_read_u16_no_panic packet 8). destruct (dns_read_u16 packet 8) as [au| |] eqn:Hau; [|done..].
  pose proof (dns_read_u16_no_panic packet 10). destruct (dns_read_u16 packet 10) as [ad| |]; [|done..].
  destruct (_ <? _)%nat; [done |].
  match goal with |- context [decode_rrs ?t ?p ?f ?a ?ae 0 ?s] =>
    pose proof (decode_rrs_no_panic t p f a ae 0 s Hb); destruct (decode_rrs t p f a ae 0 s) as [sc| |] eqn:Hrr; [|done..] end.
  apply decode_rrs_spec in Hrr as (rrs & Hlen & Hch & Hr & Hs). cbn [sc_offset sc_records sc_soas app] in *.
  rewrite between_spec in Hr, Hs. cbn [Nat.max Nat.sub] in Hr, Hs. rewrite drop_0, Nat.sub_0_r in Hr.
  rewrite Nat.max_0_r, Nat.sub_0_r, Nat.add_sub' in Hs.
  destruct (Nat.eqb_spec (sc_offset sc) (length packet)) as [Hend|]; [|done]. cbn [negb].
  destruct (negb _ && negb _) eqn:Hc; [done |].
  assert (code = NoError \/ code = NameError) as Hcd.
  { apply andb_false_iff in Hc as [Hc|Hc]; bool_cases; auto. }
  destruct (assemble_spec (sc_records sc) (sc_soas sc) code name kind Hn) as [Has1 Has2]; [|done|].
  { intros a b. rewrite Hr. by apply answer_records_alias. }
  split; [done |]. intros rs Hrs. exists rrs, (Z.to_nat an), (Z.to_nat au), code. split.
  - exists flags, off. rewrite Han, Hau. apply dns_read_u16_range in Han, Hau; [|done..]. widths.
    split_and!; [done | done | done | done | f_equal; lia | f_equal; lia |]. by rewrite Hend in Hch.
  - specialize (Has2 rs Hrs). by rewrite Hr, Hs in Has2.
Qed.

Lemma rr_records_value packet rr r kind v :
  r ∈ rr_records packet rr -> rec_data r = Value kind v ->
  rr_class rr = 1 /\ rec_owner r = rr_owner rr /\ rec_ttl r = normalize_ttl (rr_ttl rr) /\
  exists s, rr_data packet rr = Ok (Value kind v, s).
Proof.
  intros Hr Hd. unfold rr_records in Hr. destruct (Z.eqb_spec (rr_class rr) 1) as [Hc|]; [|by apply not_elem_of_nil in Hr].
  destruct (rr_data packet rr) as [[d s]| |]; [|by apply not_elem_of_nil in Hr..].
  apply list_elem_of_singleton in Hr as ->. cbn in *. subst d. eauto.
Qed.

(** An IPv4 value is the RDATA of an A record. *)
Lemma rr_data_ipv4 packet rr kind a s :
  rr_data packet rr = Ok (Value kind (Ipv4 a), s) -> rr_type rr = 1 /\ a = rr_bytes packet rr /\ length a = 4%nat.
Proof.
  unfold rr_data, decode_rdata. generalize (rr_bytes packet rr). intros data H.
  destruct (_ =? 6). { destruct (DnsSoa_decode _ _ _ _ _); by simplify_eq. }
  destruct (Z.eqb_spec (rr_type rr) 1).
  { unfold try_into_array in H. destruct (Nat.eqb_spec (length data) 4); cbn [ok_or] in H; by simplify_eq. }
  destruct (_ =? 28). { destruct (ok_or _ _); by simplify_eq. }
  destruct (_ || _).
  { unfold decode_name_data in H. destruct (decode_record_name _ _ _) as [[? ?]| |]; [|done..]. destruct (negb _); [done |].
    destruct (_ =? 5); by simplify_eq. }
  destruct (_ || _).
  { unfold decode_prefixed_data in H. destruct (_ <? _)%nat; [done |].
    destruct (decode_record_name _ _ _) as [[? ?]| |]; [|done..]. destruct (negb _); [done |].
    destruct (slice _ _ _); by simplify_eq. }
  destruct (_ =? 16); [|by simplify_eq]. unfold decode_txt_data in H. destruct (bool_decide _); [done |].
  destruct (txt_loop _ _ _); by simplify_eq.
Qed.

(** ** Claims *)

(** C34: Decoding a response terminates without a panic on every byte string, whatever names, pointers, options,
    counts and alias chains it holds. *)
Theorem dns_decoder_total packet id name kind hostname_
    (Hb : bytes packet) (Hn : wire_name name) (Hh : hostname_wf hostname_) :
  decode_dns_answer packet id name kind <> Panic /\ decode_dns_records packet id name kind <> Panic /\
  decode_dns_response packet id hostname_ <> Panic.
Proof.
  assert (forall name kind, wire_name name -> decode_dns_records packet id name kind <> Panic) as Hr.
  { intros nm k Hnm. unfold decode_dns_records. pose proof (proj1 (decode_dns_answer_spec packet id nm k Hb Hnm)) as H.
    destruct (decode_dns_answer _ _ _ _); [|done..].
    match goal with |- (if ?b then _ else _) <> Panic => by destruct b end. }
  split_and!; [by apply decode_dns_answer_spec | by apply Hr |].
  unfold decode_dns_response. destruct (_ <? _)%nat; [done |].
  pose proof (Hr (DnsRecordName_from hostname_) A ltac:(by apply from_wire_name)) as H.
  destruct (decode_dns_records _ _ _ _) as [rs| |]; [|done..]. by destruct (head (rs_values rs)) as [[]|].
Qed.

(** C17: A decoded answer is faithful to its message: the message is an untruncated response to exactly this
    question under this identifier, its records fill it to the last byte, and the record set is determined by the
    answer section alone (with the zone proofs of the authority section): the aliases form a chain without
    repetition from the question to the canonical name, the values are exactly those of the asked
    kind at the canonical name, no lifetime exceeds that of a record it rests on, and a negative answer has no values. *)
Theorem dns_answer_sound packet id name kind rs
    (Hb : bytes packet) (Hn : wire_name name) (Hrs : decode_dns_answer packet id name kind = Ok rs) :
  exists rrs answers authority code,
    message_of packet id name kind rrs answers authority code /\
    answer_of (answer_records packet rrs answers) (authority_soas packet rrs answers authority) code name kind rs.
Proof. by apply decode_dns_answer_spec. Qed.

(** The address that [decode_dns_response] reports is the RDATA of an A record of class IN in the answer section,
    at the end of the alias chain of the question, and its lifetime is at most that record's. *)
Theorem dns_response_address packet id name a
    (Hb : bytes packet) (Hn : hostname_wf name) (Ha : decode_dns_response packet id name = Ok a) :
  exists rrs answers authority code rr rs,
    message_of packet id (DnsRecordName_from name) A rrs answers authority code /\
    decode_dns_answer packet id (DnsRecordName_from name) A = Ok rs /\
    rr ∈ take answers rrs /\ rr_class rr = 1 /\ rr_type rr = 1 /\ rr_owner rr = rs_canonical_name rs /\
    an_address a = rr_bytes packet rr /\ length (an_address a) = 4%nat /\
    an_ttl_seconds a <= normalize_ttl (rr_ttl rr).
Proof.
  unfold decode_dns_response, decode_dns_records in Ha. destruct (_ <? _)%nat; [done |].
  destruct (decode_dns_answer_spec packet id (DnsRecordName_from name) A Hb ltac:(by apply from_wire_name)) as [_ Hs].
  destruct (decode_dns_answer _ _ _ _) as [rs| |] eqn:Hrs; [|done..].
  match goal with H : context [if ?b then Err (Response NameError) else _] |- _ => destruct b; [done |] end.
  destruct (Hs rs eq_refl) as (rrs & answers & authority & code & Hm & Hao).
  destruct (rs_values rs) as [|[a4| | |] vs] eqn:Hv; cbn in Ha; [done | | done..]. injection Ha as <-.
  destruct (ao_values _ _ _ _ _ _ Hao) as (_ & Hval & Httl).
  destruct (proj1 (Hval (Ipv4 a4)) ltac:(rewrite Hv; left)) as (r & Hr & Ho & Hd).
  pose proof (Httl r _ Hr Ho Hd) as Ht. apply elem_of_answer_records in Hr as (rr & Hrr & Hr).
  destruct (rr_records_value _ _ _ _ _ Hr Hd) as (Hc & Ho' & Ht' & s & Hdata).
  destruct (rr_data_ipv4 _ _ _ _ _ Hdata) as (Hty & Hbytes & Hlen).
  exists rrs, answers, authority, code, rr, rs. cbn. rewrite <- Ht'. split_and!; try done. congruence.
Qed.

Lemma join_aliases_spec names : forall aliases r,
  join_aliases aliases names = Ok r -> NoDup aliases -> r = aliases ++ names /\ NoDup r.
Proof.
  induction names as [|n names IH]; intros aliases r H Hnd; cbn in H.
  - simplify_eq. by rewrite app_nil_r.
  - case_bool_decide as Hin; [done |]. apply IH in H as [-> Hn]; [by rewrite <- app_assoc in * |].
    apply NoDup_app. split_and!; [done | | apply NoDup_singleton]. by intros x Hx ->%list_elem_of_singleton.
Qed.

(** Following a CNAME-only answer joins the two alias chains: the result answers the first question, its
    chain is the concatenation, still without repetition and of at most 16 aliases, and its lifetime is neither above
    that of the second answer nor above what was left of the first when the second arrived. *)
Theorem follow_answer_joins self answer elapsed_ms r
    (Hself : NoDup (rs_aliases self)) (Httl : is_u32 (rs_ttl_seconds self)) (He : 0 <= elapsed_ms)
    (Hr : follow_answer self answer elapsed_ms = Ok r) :
  rs_question r = rs_question self /\ rs_kind r = rs_kind self /\ rs_question answer = rs_canonical_name self /\
  rs_canonical_name r = rs_canonical_name answer /\ rs_values r = rs_values answer /\
  rs_aliases r = rs_aliases self ++ rs_aliases answer /\
  NoDup (rs_aliases r ++ [rs_canonical_name r]) /\ (length (rs_aliases r) <= DNS_MAX_ALIAS_DEPTH)%nat /\
  rs_ttl_seconds r <= rs_ttl_seconds answer /\
  (0 < rs_ttl_seconds r -> rs_ttl_seconds r * 1000 + elapsed_ms <= rs_ttl_seconds self * 1000).
Proof.
  unfold follow_answer in Hr. destruct (_ || _) eqn:Hg; [done |]. bool_cases.
  destruct (join_aliases _ _) as [aliases| |] eqn:Hj; [|done..].
  apply join_aliases_spec in Hj as [-> Hnd]; [|done]. case_bool_decide as Hin; [done |].
  destruct (Nat.ltb_spec DNS_MAX_ALIAS_DEPTH (length (rs_aliases self ++ rs_aliases answer))) as [|Hlen]; [done |].
  injection Hr as <-. cbn [rs_question rs_kind rs_canonical_name rs_values rs_aliases rs_ttl_seconds rs_negative].
  split_and!; try done.
  - apply NoDup_app. split_and!; [done | | apply NoDup_singleton]. by intros x Hx ->%list_elem_of_singleton.
  - lia.
  - unfold saturating_sub. widths. rewrite wrap32_small by divlia. divlia.
Qed.

(** The reply of a name server for [example.com], with a compressed owner, as in the unit tests. *)
Definition EXAMPLE : DnsName := [101; 120; 97; 109; 112; 108; 101; 46; 99; 111; 109].
Definition example_reply : list Z :=
  [0; 7; 129; 128; 0; 1; 0; 1; 0; 0; 0; 0] ++ DnsRecordName_from EXAMPLE ++ [0; 1; 0; 1] ++
  [192; 12; 0; 1; 0; 1; 0; 0; 0; 60; 0; 4; 93; 184; 216; 34].

Lemma EXAMPLE_wf : hostname_wf EXAMPLE.
Proof. apply (parse_wf EXAMPLE). reflexivity. Qed.

Lemma example_reply_bytes : bytes example_reply.
Proof. by_compute. Qed.

Lemma dns_decoder_total_witness :
  decode_dns_answer example_reply 7 (DnsRecordName_from EXAMPLE) Mx <> Panic /\
  decode_dns_records example_reply 7 (DnsRecordName_from EXAMPLE) Mx <> Panic /\
  decode_dns_response example_reply 7 EXAMPLE <> Panic.
Proof.
  apply (dns_decoder_total example_reply 7 (DnsRecordName_from EXAMPLE) Mx EXAMPLE);
    [exact example_reply_bytes | apply from_wire_name, EXAMPLE_wf | exact EXAMPLE_wf].
Defined.

Definition example_answer : DnsRecordSet :=
  {| rs_question := DnsRecordName_from EXAMPLE; rs_kind := A; rs_canonical_name := DnsRecordName_from EXAMPLE;
     rs_values := [Ipv4 [93; 184; 216; 34]]; rs_aliases := []; rs_ttl_seconds := 60; rs_negative := None |}.

Lemma dns_answer_sound_witness :
  exists rrs answers authority code,
    message_of example_reply 7 (DnsRecordName_from EXAMPLE) A rrs answers authority code /\
    answer_of (answer_records example_reply rrs answers) (authority_soas example_reply rrs answers authority) code
      (DnsRecordName_from EXAMPLE) A example_answer.
Proof.
  apply (dns_answer_sound example_reply 7 (DnsRecordName_from EXAMPLE) A example_answer);
    [exact example_reply_bytes | apply from_wire_name, EXAMPLE_wf | vm_compute; reflexivity].
Defined.

Lemma dns_response_address_witness :
  exists rrs answers authority code rr rs,
    message_of example_reply 7 (DnsRecordName_from EXAMPLE) A rrs answers authority code /\
    decode_dns_answer example_reply 7 (DnsRecordName_from EXAMPLE) A = Ok rs /\
    rr ∈ take answers rrs /\ rr_class rr = 1 /\ rr_type rr = 1 /\ rr_owner rr = rs_canonical_name rs /\
    [93; 184; 216; 34] = rr_bytes example_reply rr /\ length [93; 184; 216; 34] = 4%nat /\ 60 <= normalize_ttl (rr_ttl rr).
Proof.
  apply (dns_response_address example_reply 7 EXAMPLE {| an_address := [93; 184; 216; 34]; an_ttl_seconds := 60 |});
    [exact example_reply_bytes | exact EXAMPLE_wf | vm_compute; reflexivity].
Defined.

(** An alias of [example.com] that still has to be looked up. *)
Definition alias_only : DnsRecordSet :=
  {| rs_question := [1; 97; 0]; rs_kind := A; rs_canonical_name := DnsRecordName_from EXAMPLE; rs_values := [];
     rs_aliases := [[1; 97; 0]]; rs_ttl_seconds := 30; rs_negative := None |}.

Lemma follow_answer_joins_witness :
  exists r, follow_answer alias_only example_answer 1500 = Ok r /\ rs_ttl_seconds r = 28 /\
    rs_aliases r = rs_aliases alias_only ++ rs_aliases example_answer /\
    (0 < rs_ttl_seconds r -> rs_ttl_seconds r * 1000 + 1500 <= rs_ttl_seconds alias_only * 1000).
Proof.
  eexists. split; [vm_compute; reflexivity |]. split; [reflexivity |].
  split; apply (follow_answer_joins alias_only example_answer 1500);
    first [apply NoDup_singleton | cbn; widths; lia | lia | vm_compute; reflexivity].
Defined.
