(* ===== verification/DnsCache.v ===== *)
(** * The DNS cache ([network-stack/src/dns/records.rs], [DnsCache]) and the query timer ([dns.rs], [DnsRetry])

    The [VecDeque] of entries is a list whose head is the front.  Times are [u64] milliseconds. *)

From S2P Require Import Prelude Text DnsName DnsWire DnsAnswer.

(** ** The code *)

Record CacheEntry := {
  ce_records : DnsRecordSet;
  ce_expires_at : Z;
  ce_soa_expires_at : option Z;
}.

Record DnsCache := {
  dc_entries : list CacheEntry;
  dc_capacity : nat;
}.

Definition DnsCache_new (capacity : nat) : DnsCache := {| dc_entries := []; dc_capacity := capacity |}.

Definition with_entries (self : DnsCache) (entries : list CacheEntry) : DnsCache :=
  {| dc_entries := entries; dc_capacity := dc_capacity self |}.

(** [records.negative.as_ref().and_then(|n| n.soa.as_ref())]. *)
Definition negative_soa (records : DnsRecordSet) : option DnsSoa :=
  match rs_negative records with Some n => neg_soa n | None => None end.

Definition name_error (records : DnsRecordSet) : bool :=
  bool_decide (rs_aliases records = [])
  && match rs_negative records with Some n => bool_decide (neg_kind n = NegNameError) | None => false end.

(** The copy of an entry that a lookup hands out, with its lifetimes aged; [negative] carries the aged SOA. *)
Definition aged (records : DnsRecordSet) (kind : DnsRecordType) (ttl : Z) (negative : option DnsNegative) : DnsRecordSet :=
  {| rs_question := rs_question records; rs_kind := kind; rs_canonical_name := rs_canonical_name records;
     rs_values := rs_values records; rs_aliases := rs_aliases records; rs_ttl_seconds := ttl; rs_negative := negative |}.

Definition lookup_records (self : DnsCache) (name : DnsRecordName) (kind : DnsRecordType) (now : Z)
    : DnsCache * option DnsRecordSet :=
  let self := with_entries self (List.filter (fun e => now <? ce_expires_at e) (dc_entries self)) in
  (self,
   match List.find (fun e => bool_decide (rs_question (ce_records e) = name)
                        && (bool_decide (rs_kind (ce_records e) = kind) || name_error (ce_records e)))
           (dc_entries self) with
   | None => None
   | Some entry =>
       let records := ce_records entry in
       let ttl := Z.min ((ce_expires_at entry - now) / 1000) U32_MAX in
       match rs_negative records with
       | Some n =>
           match neg_soa n with
           | Some soa =>
               match ce_soa_expires_at entry with
               | None => None
               | Some soa_expires_at =>
                   let soa_ttl := Z.min (saturating_sub soa_expires_at now / 1000) U32_MAX in
                   Some (aged records kind ttl
                           (Some {| neg_kind := neg_kind n; neg_soa := Some (soa_with_ttl soa soa_ttl) |}))
               end
           | None => Some (aged records kind ttl (rs_negative records))
           end
       | None => Some (aged records kind ttl (rs_negative records))
       end
   end).

(** The test of [insert_one] for entries that the new records replace. *)
Definition conflict (records old : DnsRecordSet) : bool :=
  let same := bool_decide (rs_question old = rs_question records) in
  let terminal_negative := bool_decide (is_Some (rs_negative records))
                           && bool_decide (rs_question records = rs_canonical_name records) in
  (same && (bool_decide (rs_kind old = rs_kind records) || name_error old || name_error records))
  || (terminal_negative && bool_decide (rs_canonical_name old = rs_question records)
      && (bool_decide (rs_kind old = rs_kind records) || name_error records))
  || (name_error old && bool_decide (rs_question old = rs_canonical_name records)
      && match rs_negative records with None => true | Some n => bool_decide (neg_kind n = NegNoData) end).

(** [while self.entries.len() >= self.capacity { self.entries.pop_front() }]; the caller has
    excluded capacity zero, for which the loop would not end. *)
Fixpoint pop_until (capacity : nat) (entries : list CacheEntry) : list CacheEntry :=
  match entries with
  | [] => []
  | _ :: rest => if (capacity <=? length entries)%nat then pop_until capacity rest else entries
  end.

Definition insert_one (self : DnsCache) (records : DnsRecordSet) (now : Z) : DnsCache * result DnsError unit :=
  let self := with_entries self
    (List.filter (fun e => (now <? ce_expires_at e) && negb (conflict records (ce_records e))) (dc_entries self)) in
  let expires_at := saturating_add64 now (rs_ttl_seconds records * 1000) in
  let soa_expires_at := match negative_soa records with
                        | Some soa => Some (saturating_add64 now (soa_ttl soa * 1000))
                        | None => None
                        end in
  if (rs_ttl_seconds records =? 0)
     || (bool_decide (rs_values records = []) && bool_decide (soa_expires_at = None))
     || (expires_at <=? now)
  then (self, Ok tt) else
  if (dc_capacity self =? 0)%nat then (self, Err CacheCapacity) else
  (with_entries self (pop_until (dc_capacity self) (dc_entries self)
     ++ [{| ce_records := records; ce_expires_at := expires_at; ce_soa_expires_at := soa_expires_at |}]), Ok tt).

(** [terminal] of [insert_records]: the negative answer for the canonical name itself. *)
Definition terminal_of (records : DnsRecordSet) (soa : DnsSoa) : DnsRecordSet :=
  {| rs_question := rs_canonical_name records; rs_kind := rs_kind records;
     rs_canonical_name := rs_canonical_name records; rs_values := rs_values records; rs_aliases := [];
     rs_ttl_seconds := soa_ttl soa; rs_negative := rs_negative records |}.

Definition insert_records (self : DnsCache) (records : DnsRecordSet) (now : Z) : DnsCache * result DnsError unit :=
  match negative_soa records with
  | Some soa =>
      if negb (bool_decide (rs_canonical_name records = rs_question records)) then
        match insert_one self (terminal_of records soa) now with
        | (self, Ok _) => if (dc_capacity self =? 1)%nat then (self, Ok tt) else insert_one self records now
        | (self, r) => (self, r)
        end
      else insert_one self records now
  | None => insert_one self records now
  end.

Definition DnsCache_lookup (self : DnsCache) (name : DnsName) (now : Z) : DnsCache * option (list Z) :=
  let '(self, found) := lookup_records self (DnsRecordName_from name) A now in
  (self, match found with
         | None => None
         | Some records => match head (rs_values records) with Some (Ipv4 address) => Some address | _ => None end
         end).

Definition DnsCache_insert (self : DnsCache) (name : DnsName) (address : list Z) (ttl_seconds now : Z)
    : DnsCache * result DnsError unit :=
  insert_records self (DnsRecordSet_ipv4 name address ttl_seconds) now.

Definition DnsCache_len (self : DnsCache) : nat := length (dc_entries self).
Definition DnsCache_clear (self : DnsCache) : DnsCache := with_entries self [].
Definition DnsCache_is_empty (self : DnsCache) : bool := bool_decide (dc_entries self = []).

Inductive DnsErrorKind : Type := RetryTimeout | RetryLimitReached.
Inductive DnsRetryAction : Type := RetryWait | RetrySend | RetryFailed (kind : DnsErrorKind).

Record DnsRetry := {
  dr_deadline : Z;
  dr_next_send : Z;
  dr_base_delay : Z;
  dr_attempts : Z;
  dr_maximum_attempts : Z;
}.

Definition DnsRetry_new (now timeout base_delay maximum_attempts : Z) : DnsRetry :=
  {| dr_deadline := saturating_add64 now timeout; dr_next_send := now; dr_base_delay := base_delay;
     dr_attempts := 0; dr_maximum_attempts := maximum_attempts |}.

Definition DnsRetry_poll (self : DnsRetry) (now : Z) : DnsRetry * DnsRetryAction :=
  if dr_deadline self <=? now then (self, RetryFailed RetryTimeout) else
  if now <? dr_next_send self then (self, RetryWait) else
  if dr_maximum_attempts self <=? dr_attempts self then (self, RetryFailed RetryLimitReached) else
  let shift := Z.min (dr_attempts self) 20 in
  let delay := saturating_mul64 (dr_base_delay self) (Z.shiftl 1 shift) in
  ({| dr_deadline := dr_deadline self; dr_next_send := saturating_add64 now delay;
      dr_base_delay := dr_base_delay self; dr_attempts := saturating_add8 (dr_attempts self) 1;
      dr_maximum_attempts := dr_maximum_attempts self |}, RetrySend).

(** ** Operations and traces *)

Inductive CacheOp : Type :=
  | CInsert (records : DnsRecordSet) (now : Z)
  | CLookup (name : DnsRecordName) (kind : DnsRecordType) (now : Z)
  | CClear.

Definition cache_step (c : DnsCache) (op : CacheOp) : DnsCache :=
  match op with
  | CInsert records now => fst (insert_records c records now)
  | CLookup name kind now => fst (lookup_records c name kind now)
  | CClear => DnsCache_clear c
  end.

Definition cache_run (c : DnsCache) (ops : list CacheOp) : DnsCache := fold_left cache_step ops c.

(** ** Invariant *)

(** Two entries that one lookup could not both answer. *)
Definition distinct_keys (a b : CacheEntry) : Prop :=
  rs_question (ce_records a) = rs_question (ce_records b) ->
  rs_kind (ce_records a) <> rs_kind (ce_records b) /\ name_error (ce_records a) = false /\ name_error (ce_records b) = false.

Definition entry_ok (e : CacheEntry) : Prop :=
  (is_Some (ce_soa_expires_at e) <-> is_Some (negative_soa (ce_records e))) /\
  (rs_values (ce_records e) <> [] \/ is_Some (negative_soa (ce_records e))).

Definition cache_inv (c : DnsCache) : Prop :=
  (length (dc_entries c) <= dc_capacity c)%nat /\ ForallOrdPairs distinct_keys (dc_entries c) /\
  Forall entry_ok (dc_entries c).

Lemma ordpairs_sublist {B} (R : B -> B -> Prop) l k : sublist l k -> ForallOrdPairs R k -> ForallOrdPairs R l.
Proof.
  induction 1 as [|x l k Hs IH|x l k Hs IH]; intros H; [done | | apply IH; by inversion H].
  inversion H as [|? ? H1 H2]; subst. constructor; [|by apply IH].
  apply Forall_forall. intros y Hy. rewrite Forall_forall in H1. apply H1. by eapply elem_of_sublist.
Qed.

Lemma ordpairs_snoc {B} (R : B -> B -> Prop) l x : ForallOrdPairs R l -> Forall (fun y => R y x) l -> ForallOrdPairs R (l ++ [x]).
Proof.
  induction 1 as [|y l H1 H2 IH]; intros H; cbn; [by repeat constructor |].
  apply Forall_cons in H as [? ?]. constructor; [|by apply IH]. apply Forall_app. by split; [|repeat constructor].
Qed.

Lemma pop_until_sublist cap l : sublist (pop_until cap l) l.
Proof. induction l as [|e l IH]; cbn [pop_until]; [done |]. destruct (_ <=? _)%nat; [by constructor | done]. Qed.

Lemma pop_until_length cap l : (0 < cap)%nat -> (length (pop_until cap l) < cap)%nat.
Proof.
  intros Hc. induction l as [|e l IH]; [done |]. cbn [pop_until].
  destruct (Nat.leb_spec cap (length (e :: l))); [done | lia].
Qed.

Lemma inv_sublist c l : cache_inv c -> sublist l (dc_entries c) -> cache_inv (with_entries c l).
Proof.
  intros (H1 & H2 & H3) Hs. split_and!; cbn; [|by eapply ordpairs_sublist|].
  - apply sublist_length in Hs. lia.
  - apply Forall_forall. intros e He. rewrite Forall_forall in H3. apply H3. by eapply elem_of_sublist.
Qed.

(** The entry that [insert_one] stores. *)
Definition new_entry (records : DnsRecordSet) (now : Z) : CacheEntry :=
  {| ce_records := records; ce_expires_at := saturating_add64 now (rs_ttl_seconds records * 1000);
     ce_soa_expires_at := match negative_soa records with
                          | Some soa => Some (saturating_add64 now (soa_ttl soa * 1000))
                          | None => None
                          end |}.

Definition kept (c : DnsCache) (records : DnsRecordSet) (now : Z) : list CacheEntry :=
  List.filter (fun e => (now <? ce_expires_at e) && negb (conflict records (ce_records e))) (dc_entries c).

Definition cacheable (records : DnsRecordSet) (now : Z) : Prop :=
  rs_ttl_seconds records <> 0 /\ (rs_values records <> [] \/ is_Some (negative_soa records)) /\
  now < ce_expires_at (new_entry records now).

Lemma insert_one_cases c records now :
  (~ cacheable records now /\ insert_one c records now = (with_entries c (kept c records now), Ok tt)) \/
  (cacheable records now /\ dc_capacity c = 0%nat /\
   insert_one c records now = (with_entries c (kept c records now), Err CacheCapacity)) \/
  (cacheable records now /\ (0 < dc_capacity c)%nat /\
   insert_one c records now =
     (with_entries c (pop_until (dc_capacity c) (kept c records now) ++ [new_entry records now]), Ok tt)).
Proof.
  unfold insert_one. fold (kept c records now). change (dc_capacity (with_entries c _)) with (dc_capacity c).
  unfold cacheable, new_entry. cbn [ce_expires_at ce_soa_expires_at dc_entries with_entries].
  destruct (Z.eqb_spec (rs_ttl_seconds records) 0) as [H0|H0]; cbn [orb]; [left; split; [tauto | done] |].
  destruct (bool_decide (rs_values records = []) && _) eqn:Hv; cbn [orb].
  { left. split; [|done]. bool_cases. destruct (negative_soa records); [done |]. intros (_ & [?|[? ?]] & _); done. }
  destruct (Z.leb_spec (saturating_add64 now (rs_ttl_seconds records * 1000)) now) as [Hle|Hlt].
  { left. split; [lia | done]. }
  assert (rs_values records <> [] \/ is_Some (negative_soa records)) as Hc.
  { apply andb_false_iff in Hv as [Hv|Hv]; bool_cases; [by left |]. right. by destruct (negative_soa records). }
  destruct (Nat.eqb_spec (dc_capacity c) 0) as [Hz|Hz]; [right; left | right; right]; split_and!; (done || lia).
Qed.

Lemma kept_sublist c records now : sublist (kept c records now) (dc_entries c).
Proof. apply retain_sublist. Qed.

Lemma elem_of_kept c records now e :
  e ∈ kept c records now <-> e ∈ dc_entries c /\ now < ce_expires_at e /\ conflict records (ce_records e) = false.
Proof.
  unfold kept. rewrite elem_of_retain. rewrite andb_true_iff, negb_true_iff, Z.ltb_lt. tauto.
Qed.

Lemma no_conflict_distinct records now e : conflict records (ce_records e) = false -> distinct_keys e (new_entry records now).
Proof.
  unfold conflict, distinct_keys. cbn [ce_records new_entry]. intros H Hq. rewrite (bool_decide_eq_true_2 _ Hq) in H.
  bool_cases. cbn [andb] in *. bool_cases. done.
Qed.

Lemma new_entry_ok records now : cacheable records now -> entry_ok (new_entry records now).
Proof. intros (_ & H & _). unfold entry_ok, new_entry. cbn. split; [|done]. destruct (negative_soa records); naive_solver. Qed.

Lemma insert_one_inv c records now : cache_inv c -> cache_inv (fst (insert_one c records now)).
Proof.
  intros Hi. destruct (insert_one_cases c records now) as [[_ ->]|[(_ & _ & ->)|(Hc & Hcap & ->)]]; cbn [fst].
  1, 2: apply inv_sublist; [done | apply kept_sublist].
  set (l := pop_until (dc_capacity c) (kept c records now)).
  assert (sublist l (kept c records now)) as Hs by apply pop_until_sublist.
  pose proof (inv_sublist c l Hi ltac:(etransitivity; [exact Hs | apply kept_sublist])) as (_ & H2 & H3). cbn in H2, H3.
  split_and!; cbn [dc_entries dc_capacity with_entries].
  - rewrite length_app. cbn. pose proof (pop_until_length (dc_capacity c) (kept c records now) Hcap). fold l in H. lia.
  - apply ordpairs_snoc; [done |]. apply Forall_forall. intros e He. apply no_conflict_distinct.
    eapply elem_of_sublist in He; [|exact Hs]. by apply elem_of_kept in He as (_ & _ & ?).
  - apply Forall_app. split; [done |]. apply Forall_singleton. by apply new_entry_ok.
Qed.

Lemma insert_one_elem c records now e :
  e ∈ dc_entries (fst (insert_one c records now)) ->
  (e ∈ dc_entries c /\ conflict records (ce_records e) = false) \/ e = new_entry records now.
Proof.
  assert (forall l, sublist l (kept c records now) -> e ∈ l -> e ∈ dc_entries c /\ conflict records (ce_records e) = false) as Hk.
  { intros l Hs He. eapply elem_of_sublist in He; [|exact Hs]. by apply elem_of_kept in He as (? & _ & ?). }
  destruct (insert_one_cases c records now) as [[_ ->]|[(_ & _ & ->)|(Hc & Hcap & ->)]]; cbn [fst dc_entries with_entries].
  1, 2: intros He; left; by apply (Hk (kept c records now)).
  intros [He|He%list_elem_of_singleton]%elem_of_app; [left; eapply Hk; [apply pop_until_sublist | done] | by right].
Qed.

(** What [insert_records] stores for [records]: the records, and the negative answer of their canonical name. *)
Definition stored_as (records stored : DnsRecordSet) : Prop :=
  stored = records \/ exists soa, negative_soa records = Some soa /\ stored = terminal_of records soa.

Lemma insert_records_elem c records now e :
  e ∈ dc_entries (fst (insert_records c records now)) ->
  e ∈ dc_entries c \/ exists stored, stored_as records stored /\ e = new_entry stored now.
Proof.
  assert (forall c', e ∈ dc_entries (fst (insert_one c' records now)) ->
    e ∈ dc_entries c' \/ exists stored, stored_as records stored /\ e = new_entry stored now) as Hone.
  { intros c' [[? _]| ->]%insert_one_elem; [by left |]. right. exists records. split; [by left | done]. }
  unfold insert_records. destruct (negative_soa records) as [soa|] eqn:Hs; [|apply Hone].
  destruct (negb _); [|apply Hone].
  pose proof (insert_one_elem c (terminal_of records soa) now e) as Ht.
  assert (e ∈ dc_entries (fst (insert_one c (terminal_of records soa) now)) ->
    e ∈ dc_entries c \/ exists stored, stored_as records stored /\ e = new_entry stored now) as Hterm.
  { intros [[? _]| ->]%Ht; [by left |]. right. exists (terminal_of records soa). split; [|done]. right. eauto. }
  destruct (insert_one c (terminal_of records soa) now) as [c1 [u|x|]]; [|done..].
  destruct (_ =? 1)%nat; [done |]. intros [He|He]%Hone; auto.
Qed.

Lemma insert_records_inv c records now : cache_inv c -> cache_inv (fst (insert_records c records now)).
Proof.
  intros Hi. unfold insert_records. destruct (negative_soa records) as [soa|]; [|by apply insert_one_inv].
  destruct (negb _); [|by apply insert_one_inv].
  pose proof (insert_one_inv c (terminal_of records soa) now Hi) as H1.
  destruct (insert_one _ _ _) as [c1 [u|x|]]; [|done..]. destruct (_ =? 1)%nat; [done | by apply insert_one_inv].
Qed.

Lemma lookup_records_sublist c name kind now :
  exists l, fst (lookup_records c name kind now) = with_entries c l /\ sublist l (dc_entries c).
Proof. eexists. split; [done |]. apply retain_sublist. Qed.

Lemma cache_step_inv c op : cache_inv c -> cache_inv (cache_step c op).
Proof.
  intros Hi. destruct op as [records now|name kind now|]; cbn [cache_step].
  - by apply insert_records_inv.
  - destruct (lookup_records_sublist c name kind now) as (l & -> & Hs). by apply inv_sublist.
  - apply inv_sublist; [done | apply sublist_nil_l].
Qed.

Lemma cache_run_inv ops : forall c, cache_inv c -> cache_inv (cache_run c ops).
Proof. induction ops as [|op ops IH]; intros c Hi; [done |]. apply IH. by apply cache_step_inv. Qed.

Lemma cache_new_inv cap : cache_inv (DnsCache_new cap).
Proof. split_and!; cbn; [lia | constructor | constructor]. Qed.

Lemma cache_capacity_step c op : dc_capacity (cache_step c op) = dc_capacity c.
Proof.
  assert (forall c r n, dc_capacity (fst (insert_one c r n)) = dc_capacity c) as Hone.
  { intros c' r n. by destruct (insert_one_cases c' r n) as [[_ ->]|[(_ & _ & ->)|(_ & _ & ->)]]. }
  destruct op as [records now|name kind now|]; cbn [cache_step]; [|done..].
  unfold insert_records. destruct (negative_soa records) as [soa|]; [|apply Hone]. destruct (negb _); [|apply Hone].
  pose proof (Hone c (terminal_of records soa) now) as H1. destruct (insert_one _ _ _) as [c1 [u|x|]]; cbn in *; [|done..].
  destruct (_ =? 1)%nat; [done |]. by rewrite Hone.
Qed.

(** ** Provenance *)

Definition entry_from (ops : list CacheOp) (e : CacheEntry) : Prop :=
  exists records t stored, CInsert records t ∈ ops /\ stored_as records stored /\ e = new_entry stored t.

Lemma entry_from_mono ops op e : entry_from ops e -> entry_from (op :: ops) e.
Proof. intros (r & t & s & ? & ? & ?). exists r, t, s. split; [by right | done]. Qed.

Lemma cache_step_elem c op e :
  e ∈ dc_entries (cache_step c op) -> e ∈ dc_entries c \/ entry_from [op] e.
Proof.
  destruct op as [records now|name kind now|]; cbn [cache_step].
  - intros [?|(s & ? & ->)]%insert_records_elem; [by left |]. right. exists records, now, s. split; [by left | done].
  - destruct (lookup_records_sublist c name kind now) as (l & -> & Hs). intros He. left. by eapply elem_of_sublist.
  - by intros ?%not_elem_of_nil.
Qed.

Lemma cache_run_elem ops : forall c e, e ∈ dc_entries (cache_run c ops) -> e ∈ dc_entries c \/ entry_from ops e.
Proof.
  induction ops as [|op ops IH]; intros c e He; [by left |]. cbn in He.
  apply IH in He as [He|He]; [|right; by apply entry_from_mono].
  apply cache_step_elem in He as [?|(r & t & s & Hop%list_elem_of_singleton & ? & ->)]; [by left |].
  right. exists r, t, s. subst op. split; [by left | done].
Qed.

(** What a lookup hands out for the entry it found. *)
Lemma lookup_records_found c name kind now r :
  snd (lookup_records c name kind now) = Some r ->
  exists e, e ∈ dc_entries c /\ now < ce_expires_at e /\ rs_question (ce_records e) = name /\
    (rs_kind (ce_records e) = kind \/ name_error (ce_records e) = true) /\
    exists neg, r = aged (ce_records e) kind (Z.min ((ce_expires_at e - now) / 1000) U32_MAX) neg /\
      (neg_kind <$> neg) = (neg_kind <$> rs_negative (ce_records e)).
Proof.
  unfold lookup_records. cbn [snd dc_entries with_entries].
  destruct (List.find _ _) as [e|] eqn:Hf; [|done]. apply List.find_some in Hf as [Hin Hm].
  apply list_elem_of_In, elem_of_retain in Hin as [Hlt Hin]. bool_cases. apply orb_true_iff in H0.
  intros Hr. exists e. split_and!; [done | done | done | by destruct H0; bool_cases; auto |].
  destruct (rs_negative (ce_records e)) as [n|] eqn:Hn.
  - destruct (neg_soa n) as [soa|]; [|simplify_eq; eexists; split; [done | by rewrite Hn || done]].
    destruct (ce_soa_expires_at e); simplify_eq. eexists. split; [done | done].
  - simplify_eq. eexists. split; [done | done].
Qed.

(** ** Claims *)

(** After any sequence of insertions, lookups and clears, with any clock, the cache holds at most its
    capacity of entries and no two entries that could both answer one lookup: at most one per question and
    type, and none beside a NXDOMAIN of the same question. *)
Theorem dns_cache_invariant cap ops :
  let c := cache_run (DnsCache_new cap) ops in
  cache_inv c /\ dc_capacity c = cap.
Proof.
  cbv zeta. split; [apply cache_run_inv, cache_new_inv |].
  assert (forall c, dc_capacity (cache_run c ops) = dc_capacity c) as H; [|by rewrite H].
  induction ops as [|op ops IH]; intros c; [done |]. cbn. fold (cache_run (cache_step c op) ops).
  by rewrite IH, cache_capacity_step.
Qed.

(** C33: A lookup only hands out what was inserted for that question, and never longer than it may live:
    whatever the history, an answer at [now] comes from an insertion at some [t] of records for this question
    and type (or of its NXDOMAIN), with the same values, aliases and canonical name, before the lifetime
    of those records has passed since [t], and with a remaining lifetime that does not outlast it. *)
Theorem dns_cache_sound cap ops name kind now r
    (Hr : snd (lookup_records (cache_run (DnsCache_new cap) ops) name kind now) = Some r) :
  exists records t stored,
    CInsert records t ∈ ops /\ stored_as records stored /\ rs_question stored = name /\
    (rs_kind stored = kind \/ name_error stored = true) /\
    rs_question r = name /\ rs_kind r = kind /\ rs_values r = rs_values stored /\ rs_aliases r = rs_aliases stored /\
    rs_canonical_name r = rs_canonical_name stored /\ (neg_kind <$> rs_negative r) = (neg_kind <$> rs_negative stored) /\
    now < t + rs_ttl_seconds stored * 1000 /\
    rs_ttl_seconds r * 1000 + now <= t + rs_ttl_seconds stored * 1000.
Proof.
  apply lookup_records_found in Hr as (e & He & Hlt & Hq & Hk & neg & -> & Hneg).
  apply cache_run_elem in He as [He|(records & t & stored & Hop & Hst & ->)]; [by apply not_elem_of_nil in He |].
  exists records, t, stored. cbn [ce_records new_entry ce_expires_at] in *.
  cbn [aged rs_question rs_kind rs_values rs_aliases rs_canonical_name rs_negative rs_ttl_seconds].
  unfold saturating_add64 in *. split_and!; try done; [lia |]. divlia.
Qed.

Lemma find_last {B} (f : B -> bool) l x : (forall y, y ∈ l -> f y = false) -> f x = true -> List.find f (l ++ [x]) = Some x.
Proof.
  intros Hl Hx. induction l as [|y l IH]; cbn; [by rewrite Hx |]. rewrite Hl by left. apply IH. intros z Hz. apply Hl. by right.
Qed.

Lemma retain_app {B} (f : B -> bool) (l k : list B) : List.filter f (l ++ k) = List.filter f l ++ List.filter f k.
Proof. apply List.filter_app. Qed.

(** The negative part of an answer, with its SOA aged to [now]. *)
Definition aged_negative (records : DnsRecordSet) (t now : Z) : option DnsNegative :=
  match rs_negative records with
  | Some n => Some {| neg_kind := neg_kind n;
      neg_soa := match neg_soa n with
                 | Some soa => Some (soa_with_ttl soa
                     (Z.min (saturating_sub (saturating_add64 t (soa_ttl soa * 1000)) now / 1000) U32_MAX))
                 | None => None
                 end |}
  | None => None
  end.

Lemma insert_one_hit c records t kind now :
  (0 < dc_capacity c)%nat -> cacheable records t -> now < ce_expires_at (new_entry records t) ->
  rs_kind records = kind \/ name_error records = true ->
  snd (insert_one c records t) = Ok tt /\
  snd (lookup_records (fst (insert_one c records t)) (rs_question records) kind now) =
    Some (aged records kind (Z.min ((ce_expires_at (new_entry records t) - now) / 1000) U32_MAX)
            (aged_negative records t now)).
Proof.
  intros Hcap Hc Hlt Hk. destruct (insert_one_cases c records t) as [[? _]|[(_ & ? & _)|(_ & _ & ->)]]; [done | lia |].
  split; [done |]. cbn [fst]. unfold lookup_records. cbn [snd dc_entries with_entries]. rewrite retain_app.
  cbn [List.filter]. rewrite (proj2 (Z.ltb_lt _ _)) by done. rewrite find_last.
  - cbn [ce_records new_entry ce_soa_expires_at]. unfold aged_negative, negative_soa.
    destruct (rs_negative records) as [[nk [soa|]]|]; done.
  - intros e [_ He]%elem_of_retain. eapply elem_of_sublist in He; [|apply pop_until_sublist].
    apply elem_of_kept in He as (_ & _ & Hnc). apply (no_conflict_distinct records t) in Hnc.
    case_bool_decide as Hq; [|done]. destruct (Hnc Hq) as (Hkd & Hne & Hne'). cbn [ce_records new_entry] in *.
    rewrite Hne, orb_false_r. destruct Hk as [<-|Hk]; [by apply bool_decide_eq_false_2 | congruence].
  - cbn [ce_records new_entry]. rewrite bool_decide_eq_true_2 by done. cbn [andb]. destruct Hk as [->| ->].
    + by rewrite bool_decide_eq_true_2.
    + by rewrite orb_true_r.
Qed.

(** What was inserted is found again: with a positive capacity, inserting records that have a lifetime
    succeeds, whatever the cache held, and until they expire a lookup of their question and type (of any type
    for a NXDOMAIN) returns them with the lifetimes aged. *)
Theorem dns_cache_hit c records t kind now
    (Hcap : (0 < dc_capacity c)%nat) (Hc : cacheable records t)
    (Hdirect : negative_soa records = None \/ rs_canonical_name records = rs_question records)
    (Hnow : now < saturating_add64 t (rs_ttl_seconds records * 1000))
    (Hk : rs_kind records = kind \/ name_error records = true) :
  snd (insert_records c records t) = Ok tt /\
  snd (lookup_records (fst (insert_records c records t)) (rs_question records) kind now) =
    Some (aged records kind
            (Z.min ((saturating_add64 t (rs_ttl_seconds records * 1000) - now) / 1000) U32_MAX)
            (aged_negative records t now)).
Proof.
  assert (insert_records c records t = insert_one c records t) as ->.
  { unfold insert_records. destruct (negative_soa records); [|done]. destruct Hdirect as [?|Hd]; [done |].
    by rewrite bool_decide_eq_true_2. }
  by apply insert_one_hit.
Qed.

Definition example_cached : DnsCache := fst (insert_records (DnsCache_new 2) example_answer 1000).

Lemma dns_cache_sound_witness :
  exists r records t stored,
    snd (lookup_records (cache_run (DnsCache_new 2) [CInsert example_answer 1000]) (rs_question example_answer) A 20000) = Some r /\
    CInsert records t ∈ [CInsert example_answer 1000] /\ stored_as records stored /\
    rs_ttl_seconds r * 1000 + 20000 <= t + rs_ttl_seconds stored * 1000.
Proof.
  eexists.
  destruct (dns_cache_sound 2 [CInsert example_answer 1000] (rs_question example_answer) A 20000 _ ltac:(vm_compute; reflexivity))
    as (records & t & stored & H1 & H2 & _ & _ & _ & _ & _ & _ & _ & _ & _ & H3).
  exists records, t, stored. split; [vm_compute; reflexivity |]. exact (conj H1 (conj H2 H3)).
Defined.

Lemma dns_cache_hit_witness :
  snd (insert_records example_cached example_answer 5000) = Ok tt /\
  snd (lookup_records (fst (insert_records example_cached example_answer 5000)) (rs_question example_answer) A 7000) =
    Some (aged example_answer A 58 None).
Proof.
  apply (dns_cache_hit example_cached example_answer 5000 A 7000).
  - vm_compute. lia.
  - split_and!; [done | by left | vm_compute; reflexivity].
  - by left.
  - vm_compute. reflexivity.
  - by left.
Defined.

(** ** Query retransmission *)

(** The actions of a timer polled at the given times, with the time of each. *)
Fixpoint retry_run (self : DnsRetry) (times : list Z) : list (Z * DnsRetryAction) :=
  match times with
  | [] => []
  | now :: times => let '(self, action) := DnsRetry_poll self now in (now, action) :: retry_run self times
  end.

Definition is_send (a : Z * DnsRetryAction) : bool := match snd a with RetrySend => true | _ => false end.

Definition send_times (self : DnsRetry) (times : list Z) : list Z := map fst (List.filter is_send (retry_run self times)).

Lemma poll_cases self now :
  (snd (DnsRetry_poll self now) <> RetrySend /\ fst (DnsRetry_poll self now) = self) \/
  (snd (DnsRetry_poll self now) = RetrySend /\ now < dr_deadline self /\ dr_next_send self <= now /\
   dr_attempts self < dr_maximum_attempts self /\
   fst (DnsRetry_poll self now) =
     {| dr_deadline := dr_deadline self;
        dr_next_send := saturating_add64 now (saturating_mul64 (dr_base_delay self) (2 ^ Z.min (dr_attempts self) 20));
        dr_base_delay := dr_base_delay self; dr_attempts := saturating_add8 (dr_attempts self) 1;
        dr_maximum_attempts := dr_maximum_attempts self |}).
Proof.
  unfold DnsRetry_poll. destruct (Z.leb_spec (dr_deadline self) now); [by left |].
  destruct (Z.ltb_spec now (dr_next_send self)); [by left |].
  destruct (Z.leb_spec (dr_maximum_attempts self) (dr_attempts self)); [by left |].
  right. cbn [fst snd]. by rewrite Z.shiftl_1_l.
Qed.

(** The gaps between consecutive sends from attempt [k] on: at least the doubled base delay each time. *)
Fixpoint backed_off (base k : Z) (times : list Z) : Prop :=
  match times with
  | a :: (b :: _) as rest => saturating_add64 a (saturating_mul64 base (2 ^ Z.min k 20)) <= b /\ backed_off base (k + 1) rest
  | _ => True
  end.

Lemma send_times_spec times : forall self,
  0 <= dr_attempts self -> dr_maximum_attempts self <= 255 ->
  Z.of_nat (length (send_times self times)) <= Z.max 0 (dr_maximum_attempts self - dr_attempts self) /\
  Forall (fun t => t < dr_deadline self) (send_times self times) /\
  backed_off (dr_base_delay self) (dr_attempts self) (send_times self times) /\
  match send_times self times with [] => True | t :: _ => dr_next_send self <= t end.
Proof.
  induction times as [|now times IH]; intros self Ha Hm; [cbn; split_and!; (done || lia) |].
  unfold send_times. cbn [retry_run].
  destruct (poll_cases self now) as [[Hs Hf]|(Hs & Hd & Hn & Hatt & Hf)]; destruct (DnsRetry_poll self now) as [self' action];
    cbn [fst snd] in Hs, Hf; subst self'; cbn [List.filter].
  - assert (is_send (now, action) = false) as -> by (unfold is_send; by destruct action). by apply IH.
  - subst action. cbn [is_send snd map fst]. fold (send_times
      {| dr_deadline := dr_deadline self;
        dr_next_send := saturating_add64 now (saturating_mul64 (dr_base_delay self) (2 ^ Z.min (dr_attempts self) 20));
        dr_base_delay := dr_base_delay self; dr_attempts := saturating_add8 (dr_attempts self) 1;
        dr_maximum_attempts := dr_maximum_attempts self |} times).
    assert (saturating_add8 (dr_attempts self) 1 = dr_attempts self + 1) as Hsat by (unfold saturating_add8; lia).
    rewrite Hsat. match goal with |- context [send_times ?s times] =>
      destruct (IH s) as (H1 & H2 & H3 & H4); [cbn; lia | done |]; set (rest := send_times s times) in * end.
    cbn [dr_deadline dr_base_delay dr_attempts dr_maximum_attempts dr_next_send] in *. split_and!.
    + cbn [length]. lia.
    + by apply Forall_cons.
    + destruct rest; [done |]. by split.
    + done.
Qed.

(** However it is polled, a query timer sends at most its number of attempts, never at or after its deadline,
    waits at least the base delay doubled for every earlier attempt between two sends, and from the deadline
    on reports the timeout. *)
Theorem dns_retry_bounded now timeout base_delay maximum times
    (Hmax : is_u8 maximum) :
  let self := DnsRetry_new now timeout base_delay maximum in
  Z.of_nat (length (send_times self times)) <= maximum /\
  Forall (fun t => now <= t < saturating_add64 now timeout) (take 1 (send_times self times)) /\
  Forall (fun t => t < saturating_add64 now timeout) (send_times self times) /\
  backed_off base_delay 0 (send_times self times) /\
  (forall t, saturating_add64 now timeout <= t -> DnsRetry_poll self t = (self, RetryFailed RetryTimeout)).
Proof.
  cbv zeta. set (self := DnsRetry_new now timeout base_delay maximum).
  destruct (send_times_spec times self) as (H1 & H2 & H3 & H4);
    [cbn [dr_attempts self DnsRetry_new]; lia | cbn [dr_maximum_attempts self DnsRetry_new]; widths; lia |].
  cbn [dr_attempts dr_maximum_attempts dr_deadline dr_next_send dr_base_delay self DnsRetry_new] in H1, H2, H3, H4.
  split_and!; [widths; lia | | exact H2 | exact H3 |].
  - destruct (send_times self times) as [|t ts]; [constructor |]. apply Forall_cons in H2 as [H2 _].
    cbn [take]. apply Forall_singleton. by split.
  - intros t Ht. unfold DnsRetry_poll. cbn [dr_deadline self DnsRetry_new]. by rewrite (proj2 (Z.leb_le _ _)).
Qed.

Lemma dns_retry_bounded_witness :
  Z.of_nat (length (send_times (DnsRetry_new 0 10000 100 2) [0; 50; 100; 300; 400])) <= 2 /\
  send_times (DnsRetry_new 0 10000 100 2) [0; 50; 100; 300; 400] = [0; 100].
Proof.
  split; [|vm_compute; reflexivity].
  refine (proj1 (dns_retry_bounded 0 10000 100 2 [0; 50; 100; 300; 400] _)). widths. lia.
Defined.
