(* ===== verification/HttpUrl.v ===== *)
(** * URLs and redirects ([http-client/src/url.rs], limits and errors of [http-client/src/lib.rs])

    Text is a list of bytes; [len] is its length as the [usize] that the limits are compared with. *)

From Stdlib Require Import String.
From S2P Require Import Prelude Text DnsName.

(** ** The code *)

Definition MAX_URL_LEN : Z := 2048.
Definition MAX_HOSTNAME_LEN : Z := 253.
Definition MAX_PATH_LEN : Z := 1536.
Definition MAX_STATUS_LINE_LEN : Z := 1024.
Definition MAX_HEADER_LINE_LEN : Z := 4096.
Definition MAX_HEADER_COUNT : Z := 64.
Definition MAX_HEADER_BYTES : Z := 16 * 1024.
Definition MAX_TRAILER_BYTES : Z := 8 * 1024.
Definition MAX_BODY_BYTES : Z := 4 * 1024 * 1024.
Definition MAX_CHUNK_BYTES : Z := 256 * 1024.
Definition MAX_REDIRECTS : nat := 3.

Inductive HttpError : Type :=
  | InvalidUrl | UnsupportedScheme | UserInfoForbidden | FragmentForbidden | InvalidHostname | InvalidPort
  | InvalidPath | UrlTooLong | InvalidMethod | InvalidHeaderName | InvalidHeaderValue | HostnameMismatch
  | ContentLengthMismatch | HeadersTooLarge | TooManyHeaders | InvalidStatusLine | UnsupportedHttpVersion
  | InvalidStatusCode | InvalidResponseHeader | ConflictingContentLength | ConflictingFraming
  | UnsupportedTransferEncoding | UnsupportedContentEncoding | UnexpectedStatus | StreamPoisoned
  | InvalidChunkSize | ChunkTooLarge | InvalidChunkTerminator | TrailersTooLarge | BodyTooLarge
  | UnexpectedEnd | TrailingData | Incomplete | RedirectUnsupported | RedirectLoop | RedirectLimit
  | RedirectDowngrade.
#[export] Instance HttpError_eq_dec : EqDecision HttpError.
Proof. solve_decision. Defined.

Record HttpsUrl : Type := {
  hu_original : list Z;
  hu_hostname : list Z;
  hu_port : Z;
  hu_path : list Z }.
#[export] Instance HttpsUrl_eq_dec : EqDecision HttpsUrl.
Proof. solve_decision. Defined.

Definition SLASH : Z := 47.
Definition QUESTION : Z := 63.
Definition COLON : Z := 58.
Definition AT : Z := 64.
Definition HASH : Z := 35.
Definition STAR : Z := 42.
Definition BRACKET : Z := 91.
Definition SPACE : Z := 32.

(** The closure of [labels.any]. *)
Definition bad_label (label : list Z) : bool :=
  bool_decide (label = []) || (63 <? len label)
  || bool_decide (head label = Some HYPHEN) || bool_decide (last label = Some HYPHEN)
  || negb (forallb (fun byte => is_ascii_alphanumeric byte || (byte =? HYPHEN)) label).

Definition validate_hostname (hostname : list Z) : result HttpError unit :=
  if (MAX_HOSTNAME_LEN <? len hostname) || is_ipv4_addr hostname || contains_char STAR hostname
  then Err InvalidHostname else
  if existsb bad_label (split_dot hostname) then Err InvalidHostname else Ok tt.

(** The match on [authority.rsplit_once(':')]. *)
Definition host_and_port (authority : list Z) : result HttpError (list Z * Z) :=
  match rsplit_once COLON authority with
  | Some (host, raw_port) =>
      if contains_char COLON host || bool_decide (raw_port = []) then Err InvalidPort else
      let? port := ok_or (parse_u16 raw_port) InvalidPort in
      if port =? 0 then Err InvalidPort else Ok (host, port)
  | None => Ok (authority, 443)
  end.

Definition parse_authority (authority : list Z) : result HttpError (list Z * Z) :=
  if bool_decide (authority = []) || bool_decide (head authority = Some BRACKET)
     || bool_decide (last authority = Some DOT)
  then Err InvalidHostname else
  let? (hostname, port) := host_and_port authority in
  let? _ := validate_hostname hostname in
  Ok (lowercase hostname, port).

Definition build (input hostname : list Z) (port : Z) (path : list Z) : result HttpError HttpsUrl :=
  if (MAX_PATH_LEN <? len path) || negb (starts_with [SLASH] path) then Err InvalidPath
  else Ok {| hu_original := input; hu_hostname := hostname; hu_port := port; hu_path := path |}.

Definition HttpsUrl_parse (input : list Z) : result HttpError HttpsUrl :=
  if MAX_URL_LEN <? len input then Err UrlTooLong else
  if existsb (fun byte => is_ascii_control byte || (byte =? SPACE)) input then Err InvalidUrl else
  if contains_char HASH input then Err FragmentForbidden else
  let? authority_and_path := ok_or (strip_prefix (text "https://") input) UnsupportedScheme in
  let split := find_or_end (fun c => (c =? SLASH) || (c =? QUESTION)) authority_and_path in
  let? authority := slice authority_and_path 0 split in
  if contains_char AT authority then Err UserInfoForbidden else
  let? (hostname, port) := parse_authority authority in
  match get_range authority_and_path split (length authority_and_path) with
  | None => build input hostname port (text "/")
  | Some value =>
      if bool_decide (value = []) then build input hostname port (text "/")
      else if starts_with [QUESTION] value then build input hostname port (text "/" ++ value)
      else build input hostname port value
  end.

Definition host_header (self : HttpsUrl) : list Z :=
  if hu_port self =? 443 then hu_hostname self else hu_hostname self ++ [COLON] ++ to_string (hu_port self).

(** [RedirectTracker] is its list of visited URLs. *)
Definition RedirectTracker : Type := list (list Z).
Definition RedirectTracker_new : RedirectTracker := [].

(** The URL a [Location] header names. *)
Definition redirect_target (url : HttpsUrl) (location : list Z) : result HttpError HttpsUrl :=
  if starts_with (text "http://") location then Err RedirectDowngrade else
  if starts_with (text "https://") location then HttpsUrl_parse location
  else if starts_with [SLASH] location then
    HttpsUrl_parse (text "https://" ++ host_header url ++ location)
  else Err RedirectUnsupported.

Definition follow (self : RedirectTracker) (url : HttpsUrl) (location : list Z)
    : RedirectTracker * result HttpError HttpsUrl :=
  match redirect_target url location with
  | Ok next =>
      if (MAX_REDIRECTS <=? length self)%nat then (self, Err RedirectLimit) else
      if existsb (fun value => bool_decide (value = hu_original next)) self then (self, Err RedirectLoop)
      else (self ++ [hu_original next], Ok next)
  | Err e => (self, Err e)
  | Panic => (self, Panic)
  end.

(** ** Host names *)

(** A host name that [validate_hostname] accepts. *)
Definition host_ok (h : list Z) : Prop :=
  (length h <= 253)%nat /\ is_ipv4_addr h = false /\ Forall label_ok (split_dot h).

Lemma bad_label_ok l : bad_label l = false <-> label_ok l.
Proof.
  assert (forallb (fun byte => is_ascii_alphanumeric byte || (byte =? HYPHEN)) l = true <-> Forall name_char l) as Hc.
  { rewrite forallb_forall, Forall_forall. unfold name_char.
    split; intros H b Hb%list_elem_of_In; specialize (H b Hb); [apply orb_true_iff in H | apply orb_true_iff];
      by rewrite Z.eqb_eq in *. }
  unfold bad_label, label_ok, len, DNS_MAX_LABEL_LEN.
  rewrite !orb_false_iff, !bool_decide_eq_false, negb_false_iff, Hc, Z.ltb_ge.
  split; [intros ((((? & ?) & ?) & ?) & ?) | intros (? & ? & ? & ? & ?)]; split_and!; (done || lia).
Qed.

Lemma labels_chars s : Forall label_ok (split_dot s) -> Forall (fun b => name_char b \/ b = DOT) s.
Proof.
  intros H. rewrite <- (@join_split DOT s). induction H as [|l ls (_ & _ & _ & _ & Hl) H IH]; [constructor |].
  assert (Forall (fun b => name_char b \/ b = DOT) l) by (eapply Forall_impl; [exact Hl | auto]).
  destruct ls as [|l' ls]; [done |]. rewrite join_cons by done. apply Forall_app. split; [done |].
  constructor; [by right | done].
Qed.

Lemma name_char_not c : name_char c \/ c = DOT -> c <> STAR /\ c <> COLON /\ c <> AT /\ c <> BRACKET /\ c <> SLASH /\
  c <> QUESTION /\ c <> HASH /\ c <> SPACE /\ is_ascii_control c = false.
Proof.
  intros H. split_and!; try (intros ->; destruct H as [[H|H]|H]; discriminate).
  unfold is_ascii_control. apply orb_false_iff. rewrite Z.ltb_ge, Z.eqb_neq.
  destruct H as [[H| ->]| ->]; [|done..].
  unfold is_ascii_alphanumeric, is_ascii_digit, is_ascii_uppercase, is_ascii_lowercase in H.
  repeat (apply orb_true_iff in H as [H|H]); bool_cases; lia.
Qed.

(** The characters of a host name, and what they are not. *)
Lemma host_chars h :
  Forall label_ok (split_dot h) ->
  Forall (fun c => c <> STAR /\ c <> COLON /\ c <> AT /\ c <> BRACKET /\ c <> SLASH /\ c <> QUESTION /\ c <> HASH /\
    c <> SPACE /\ is_ascii_control c = false) h.
Proof. intros H. eapply Forall_impl; [by apply labels_chars |]. apply name_char_not. Qed.

Lemma Forall_not_elem {A} (P : A -> Prop) (l : list A) c : Forall P l -> ~ P c -> c ∉ l.
Proof. rewrite Forall_forall. intros H Hc Hin. by apply Hc, H. Qed.

Lemma validate_hostname_ok h : validate_hostname h = Ok tt <-> host_ok h.
Proof.
  unfold validate_hostname, host_ok, len, MAX_HOSTNAME_LEN.
  assert (existsb bad_label (split_dot h) = false <-> Forall label_ok (split_dot h)) as Hb.
  { rewrite existsb_none, Forall_forall. setoid_rewrite bad_label_ok. done. }
  destruct (existsb bad_label (split_dot h)).
  { assert (~ Forall label_ok (split_dot h)) by naive_solver. case_match; naive_solver. }
  assert (contains_char STAR h = false) as ->.
  { apply contains_char_false. eapply Forall_not_elem; [by apply host_chars, Hb |]. naive_solver. }
  rewrite orb_false_r. destruct (Z.ltb_spec 253 (Z.of_nat (length h))), (is_ipv4_addr h); cbn; naive_solver lia.
Qed.

Lemma host_ok_lower h : host_ok h -> (length (lowercase h) <= 253)%nat /\ Forall label_ok (split_dot (lowercase h)).
Proof.
  intros (Hl & _ & Hf). unfold lowercase. rewrite length_map. split; [done |].
  rewrite split_char_map by (intros b; by apply lowercase_char). apply Forall_map.
  eapply Forall_impl; [exact Hf |]. apply label_ok_lower.
Qed.

(** ** What [parse] accepts *)

(** A port: the default, or a colon and a number from 1 to 65535. *)
Definition port_text (t : list Z) (port : Z) : Prop :=
  (t = [] /\ port = 443) \/ exists digits, t = COLON :: digits /\ parse_u16 digits = Some port /\ port <> 0.

(** The path of a URL by what follows the authority. *)
Definition path_text (t path : list Z) : Prop :=
  (t = [] /\ path = [SLASH]) \/ (head t = Some QUESTION /\ path = SLASH :: t) \/ (head t = Some SLASH /\ path = t).

(** No control character, no space and no fragment. *)
Definition url_char (c : Z) : Prop := is_ascii_control c = false /\ c <> SPACE /\ c <> HASH.

(** The grammar of the URLs that the client follows, with the parts of the result. *)
Definition url_grammar (input : list Z) (u : HttpsUrl) : Prop :=
  exists host port tail,
    input = text "https://" ++ (host ++ port) ++ tail /\
    Forall url_char input /\ len input <= MAX_URL_LEN /\
    host_ok host /\ port_text port (hu_port u) /\ path_text tail (hu_path u) /\ len (hu_path u) <= MAX_PATH_LEN /\
    hu_hostname u = lowercase host /\ hu_original u = input.

Lemma number_char_not c : number_char c -> c <> COLON /\ c <> AT /\ c <> SLASH /\ c <> QUESTION.
Proof. intros H. split_and!; intros ->; destruct H as [H|H]; discriminate. Qed.

Lemma port_text_chars t port :
  port_text t port -> Forall (fun c => c <> AT /\ c <> SLASH /\ c <> QUESTION) t /\ 0 < port <= 65535.
Proof.
  intros [[-> ->]|(d & -> & Hd & Hp)]; [split; [constructor | done] |]. split.
  - constructor; [done |]. apply from_str_radix_chars in Hd as (_ & Hd & _).
    eapply Forall_impl; [exact Hd |]. intros c Hc%number_char_not. naive_solver.
  - apply from_str_radix_range in Hd; unfold U16_MAX in *; lia.
Qed.

Lemma host_and_port_ok authority h p :
  Forall (fun c => c <> COLON) h ->
  host_and_port authority = Ok (h, p) <-> exists t, authority = h ++ t /\ port_text t p.
Proof.
  intros Hh. assert (COLON ∉ h) as Hn by (by apply Forall_name_neq).
  unfold host_and_port, port_text. destruct (rsplit_once COLON authority) as [[host raw]|] eqn:E.
  - apply rsplit_once_Some in E as [-> Hraw]. split.
    + intros H. destruct (contains_char COLON host || bool_decide (raw = [])); [done |].
      destruct (parse_u16 raw) as [q|] eqn:Hq; cbn in H; [|done]. destruct (Z.eqb_spec q 0); [done |]. simplify_eq.
      exists (COLON :: raw). split; [done |]. right. eauto.
    + intros (t & Ht & [[-> _]|(d & -> & Hd & Hp)]).
      { rewrite app_nil_r in Ht. subst h. set_solver. }
      assert (rsplit_once COLON (host ++ COLON :: raw) = Some (h, d)) as H1.
      { apply rsplit_once_Some. split; [done |]. apply from_str_radix_chars in Hd as (_ & Hd & _).
        eapply Forall_not_elem; [exact Hd |]. intros Hc%number_char_not. naive_solver. }
      assert (rsplit_once COLON (host ++ COLON :: raw) = Some (host, raw)) as H2 by (by apply rsplit_once_Some).
      simplify_eq. rewrite (proj2 (contains_char_false _ _)) by done. rewrite Hd.
      rewrite bool_decide_eq_false_2 by (intros ->; done). cbn. by rewrite (proj2 (Z.eqb_neq _ _)).
  - apply rsplit_once_None in E. split.
    + intros [= <- <-]. exists []. rewrite app_nil_r. auto.
    + intros (t & -> & [[-> ->]|(d & -> & _)]); [by rewrite app_nil_r |]. set_solver.
Qed.

Lemma host_and_port_host authority h p : host_and_port authority = Ok (h, p) -> COLON ∉ h.
Proof.
  unfold host_and_port. destruct (rsplit_once COLON authority) as [[host raw]|] eqn:E.
  - destruct (contains_char COLON host) eqn:Hc; [done |]. cbn. apply contains_char_false in Hc.
    case_bool_decide; [done |]. destruct (parse_u16 raw) as [q|]; cbn; [|done].
    destruct (q =? 0); [done |]. by intros [= <- <-].
  - intros [= <- <-]. by apply rsplit_once_None.
Qed.

Lemma host_nonempty h : Forall label_ok (split_dot h) -> h <> [] /\ head h <> Some BRACKET /\ last h <> Some DOT.
Proof.
  intros H. destruct (labels_last _ H) as [H1 H2]. split_and!; [done | | done].
  apply host_chars in H. destruct h as [|c h]; [done |]. cbn. intros [= ->]. apply Forall_cons in H as [H _]. naive_solver.
Qed.

Lemma parse_authority_ok authority h p :
  parse_authority authority = Ok (h, p) <->
  exists host t, authority = host ++ t /\ host_ok host /\ port_text t p /\ h = lowercase host.
Proof.
  unfold parse_authority. split.
  - destruct (_ || _); [done |]. destruct (host_and_port authority) as [[host q]| |] eqn:E; [|done..].
    destruct (validate_hostname host) as [[]| |] eqn:V; [|done..]. intros [= <- <-].
    apply validate_hostname_ok in V. pose proof (host_and_port_host _ _ _ E) as Hn%Forall_name_neq.
    apply (host_and_port_ok _ _ _ Hn) in E as (t & -> & Ht). by exists host, t.
  - intros (host & t & -> & Hh & Ht & ->). destruct (Hh) as (_ & _ & Hl).
    destruct (host_nonempty _ Hl) as (H1 & H2 & H3).
    assert (Forall (fun c => c <> COLON) host) as Hn by (eapply Forall_impl; [by apply host_chars |]; naive_solver).
    rewrite !bool_decide_eq_false_2; cbn [orb].
    + rewrite (proj2 (host_and_port_ok _ host p Hn)) by eauto.
      by rewrite (proj2 (validate_hostname_ok host)).
    + destruct Ht as [[-> _]|(d & -> & Hd & _)]; [by rewrite app_nil_r |].
      apply from_str_radix_chars in Hd as (_ & _ & c & Hc & Hd).
      change (COLON :: d) with ([COLON] ++ d). rewrite app_assoc, last_app, Hc. intros [= ->]. done.
    + by destruct host.
    + by destruct host.
Qed.

Lemma url_chars_ok input :
  existsb (fun byte => is_ascii_control byte || (byte =? SPACE)) input = false /\ contains_char HASH input = false <->
  Forall url_char input.
Proof.
  rewrite existsb_none, contains_char_false, <- Forall_name_neq, !Forall_forall. unfold url_char. split.
  - intros [H1 H2] b Hb. specialize (H1 b Hb). apply orb_false_iff in H1 as [? ?]. bool_cases. auto.
  - intros H. split; intros b Hb; destruct (H b Hb) as (H1 & H2 & H3); [|done].
    apply orb_false_iff. by rewrite Z.eqb_neq.
Qed.

Lemma build_ok input h p path u :
  build input h p path = Ok u <->
  len path <= MAX_PATH_LEN /\ head path = Some SLASH /\
  u = {| hu_original := input; hu_hostname := h; hu_port := p; hu_path := path |}.
Proof.
  unfold build, starts_with. destruct (Z.ltb_spec MAX_PATH_LEN (len path)); cbn; [naive_solver lia |].
  case_bool_decide as Hs; cbn.
  - assert (head path = Some SLASH) by (destruct path; cbn in *; by simplify_eq). naive_solver.
  - split; [done |]. intros (_ & Hh & _). destruct path; cbn in *; simplify_eq.
Qed.

Lemma text_slash : text "/" = [SLASH].
Proof. reflexivity. Qed.

(** The last match of [parse]. *)
Lemma path_cases input h p tail u :
  (tail = [] \/ exists c t, tail = c :: t /\ (c =? SLASH) || (c =? QUESTION) = true) ->
  (if bool_decide (tail = []) then build input h p (text "/")
   else if starts_with [QUESTION] tail then build input h p (text "/" ++ tail)
   else build input h p tail) = Ok u <->
  path_text tail (hu_path u) /\ len (hu_path u) <= MAX_PATH_LEN /\ hu_original u = input /\ hu_hostname u = h /\ hu_port u = p.
Proof.
  unfold path_text. rewrite text_slash. intros [->|(c & t & -> & Hc)].
  - rewrite bool_decide_eq_true_2, build_ok by done. destruct u; cbn; naive_solver.
  - rewrite bool_decide_eq_false_2 by done. unfold starts_with. cbn [length take].
    rewrite orb_true_iff, !Z.eqb_eq in Hc. case_bool_decide as Hq; rewrite build_ok; destruct u; cbn.
    + simplify_eq. unfold QUESTION, SLASH in *. naive_solver.
    + assert (c = SLASH) as -> by (destruct Hc; [done | by subst]). unfold QUESTION, SLASH in *. naive_solver.
Qed.

Lemma parse_grammar input u : HttpsUrl_parse input = Ok u <-> url_grammar input u.
Proof.
  unfold HttpsUrl_parse. set (p := fun c => (c =? SLASH) || (c =? QUESTION)). split.
  - destruct (Z.ltb_spec MAX_URL_LEN (len input)); [done |].
    destruct (existsb _ input) eqn:He; [done |]. destruct (contains_char HASH input) eqn:Hh; [done |].
    destruct (strip_prefix _ input) as [ap|] eqn:Hs; cbn [ok_or]; [|done]. apply strip_prefix_Some in Hs.
    destruct (find_or_end_split p ap) as (Hle & Ha & Ht). rewrite slice_in, get_range_in by lia.
    rewrite Nat.sub_0_r, drop_0. rewrite (take_ge _ (length ap - _)) by (rewrite length_drop; lia).
    destruct (contains_char AT _); [done |]. destruct (parse_authority _) as [[h port]| |] eqn:Hp; [|done..].
    intros (H1 & H2 & H3 & H4 & H5)%path_cases; [|done].
    apply parse_authority_ok in Hp as (host & t & Heq & Hhost & Hport & ->).
    exists host, t, (drop (find_or_end p ap) ap). rewrite <- Heq, take_drop.
    split_and!; try done; [by apply url_chars_ok | by rewrite H5].
  - intros (host & t & tail & Heq & Hc & Hlen & Hhost & Hport & Hpath & Hpl & Hhn & Ho).
    apply url_chars_ok in Hc as [-> ->]. rewrite (proj2 (Z.ltb_ge _ _)) by done.
    rewrite (proj2 (strip_prefix_Some _ _ ((host ++ t) ++ tail)) Heq). cbn [ok_or].
    assert (tail = [] \/ exists c t', tail = c :: t' /\ p c = true) as Htail.
    { destruct Hpath as [[-> _]|[[Hh _]|[Hh _]]]; [by left | |]; (destruct tail; [done |]; right);
        injection Hh as ->; eauto. }
    destruct (port_text_chars _ _ Hport) as [Hpc _]. destruct (Hhost) as (_ & _ & Hl). apply host_chars in Hl.
    assert (find_or_end p ((host ++ t) ++ tail) = length (host ++ t)) as ->.
    { apply find_or_end_app; [|done]. unfold p. apply Forall_app. split; (eapply Forall_impl; [eassumption |]);
        intros c Hc; apply orb_false_iff; rewrite !Z.eqb_neq; naive_solver. }
    rewrite slice_prefix. rewrite get_range_in by (rewrite !length_app; lia).
    rewrite drop_app_length, take_ge by (rewrite !length_app; lia).
    rewrite (proj2 (contains_char_false _ _)).
    2: { apply not_elem_of_app. split; (eapply Forall_not_elem; [eassumption |]); naive_solver. }
    rewrite (proj2 (parse_authority_ok _ (lowercase host) (hu_port u))) by eauto 10.
    apply path_cases; [done |]. done.
Qed.

Lemma host_and_port_no_panic a : host_and_port a <> Panic.
Proof.
  unfold host_and_port. destruct (rsplit_once COLON a) as [[h r]|]; [|done]. destruct (_ || _); [done |].
  destruct (parse_u16 r) as [q|]; cbn; [|done]. by destruct (q =? 0).
Qed.

Lemma build_no_panic i h p path : build i h p path <> Panic.
Proof. unfold build. by destruct (_ || _). Qed.

Lemma HttpsUrl_parse_no_panic input : HttpsUrl_parse input <> Panic.
Proof.
  unfold HttpsUrl_parse. set (p := fun c => (c =? SLASH) || (c =? QUESTION)).
  destruct (_ <? _); [done |]. destruct (existsb _ input); [done |]. destruct (contains_char HASH input); [done |].
  destruct (strip_prefix _ input) as [ap|]; cbn [ok_or]; [|done].
  destruct (find_or_end_split p ap) as (Hle & _). rewrite slice_in by lia. destruct (contains_char AT _); [done |].
  unfold parse_authority. destruct (_ || _); [done |].
  pose proof (host_and_port_no_panic (take (find_or_end p ap - 0) (drop 0 ap))).
  destruct (host_and_port _) as [[h q]| |]; [|done|done].
  unfold validate_hostname. destruct (_ || _); [done |]. destruct (existsb _ _); [done |].
  repeat case_match; try done; by apply build_no_panic.
Qed.

(** A URL value of the client. *)
Record url_wf (u : HttpsUrl) : Prop := {
  uw_host : hostname_wf (hu_hostname u);
  uw_port : 0 < hu_port u <= 65535;
  uw_path : head (hu_path u) = Some SLASH /\ Forall url_char (hu_path u) /\ len (hu_path u) <= MAX_PATH_LEN }.

Lemma url_char_slash : url_char SLASH.
Proof. done. Qed.

Lemma url_grammar_wf input u : url_grammar input u -> url_wf u.
Proof.
  intros (host & t & tail & -> & Hc & Hlen & Hhost & Hport & Hpath & Hpl & Hhn & Ho). split.
  - rewrite Hhn. destruct (host_ok_lower _ Hhost) as [H1 H2]. split_and!; [done | done | apply map_lowercase_lower].
  - exact (proj2 (port_text_chars _ _ Hport)).
  - rewrite !Forall_app in Hc. destruct Hc as (_ & _ & Hc).
    destruct Hpath as [[_ Hp]|[[_ Hp]|[? Hp]]]; rewrite Hp in *; split_and!; try done;
      repeat constructor; auto using url_char_slash.
Qed.

(** The authority and the rest of a URL are determined by its text. *)
Lemma authority_unique h1 t1 p1 r1 q1 h2 t2 p2 r2 q2 :
  Forall label_ok (split_dot h1) -> port_text t1 p1 -> path_text r1 q1 ->
  Forall label_ok (split_dot h2) -> port_text t2 p2 -> path_text r2 q2 ->
  (h1 ++ t1) ++ r1 = (h2 ++ t2) ++ r2 -> h1 = h2 /\ p1 = p2 /\ r1 = r2.
Proof.
  assert (forall h t p r q, Forall label_ok (split_dot h) -> port_text t p -> path_text r q ->
    find_or_end (fun c => (c =? SLASH) || (c =? QUESTION)) ((h ++ t) ++ r) = length (h ++ t)) as Hf.
  { intros h t p r q Hl%host_chars [Ht _]%port_text_chars Hr. apply find_or_end_app.
    - apply Forall_app. split; (eapply Forall_impl; [eassumption |]); intros c Hc;
        apply orb_false_iff; rewrite !Z.eqb_neq; naive_solver.
    - destruct Hr as [[-> _]|[[Hh _]|[Hh _]]]; [by left | |]; (destruct r; [done |]; right);
        injection Hh as ->; eauto. }
  intros Hl1 Ht1 Hr1 Hl2 Ht2 Hr2 Heq.
  pose proof (Hf _ _ _ _ _ Hl1 Ht1 Hr1) as H1. rewrite Heq, (Hf _ _ _ _ _ Hl2 Ht2 Hr2) in H1.
  apply app_inj_1 in Heq as [Ha ->]; [|done].
  assert (forall h, Forall label_ok (split_dot h) -> Forall (fun c => c <> COLON) h) as Hcol.
  { intros h Hl%host_chars. eapply Forall_impl; [exact Hl |]. naive_solver. }
  pose proof (proj2 (host_and_port_ok (h1 ++ t1) h1 p1 (Hcol _ Hl1)) ltac:(eauto)) as E1.
  rewrite Ha, (proj2 (host_and_port_ok (h2 ++ t2) h2 p2 (Hcol _ Hl2)) ltac:(eauto)) in E1. by simplify_eq.
Qed.

Lemma host_header_port u :
  url_wf u -> exists t, host_header u = hu_hostname u ++ t /\ port_text t (hu_port u).
Proof.
  intros [_ Hp _]. unfold host_header, port_text. destruct (Z.eqb_spec (hu_port u) 443) as [->|].
  - exists []. rewrite app_nil_r. auto.
  - exists (COLON :: to_string (hu_port u)). split; [done |]. right. eexists. split_and!; [done | | lia].
    apply to_string_parse; unfold U64_MAX, U16_MAX; lia.
Qed.

(** ** Redirects *)

Fixpoint follow_all (t : RedirectTracker) (calls : list (HttpsUrl * list Z))
    : RedirectTracker * list (result HttpError HttpsUrl) :=
  match calls with
  | [] => (t, [])
  | (url, location) :: calls =>
      let (t, r) := follow t url location in
      let (t, rs) := follow_all t calls in (t, r :: rs)
  end.

(** The URLs that were accepted, in order. *)
Definition accepted (rs : list (result HttpError HttpsUrl)) : list HttpsUrl :=
  omap (fun r => match r with Ok u => Some u | _ => None end) rs.

Lemma redirect_target_parse url location u :
  redirect_target url location = Ok u -> exists input, HttpsUrl_parse input = Ok u.
Proof. unfold redirect_target. intros H. flow; eauto. Qed.

Lemma follow_step t url location t' r :
  follow t url location = (t', r) ->
  r <> Panic /\
  match r with
  | Ok u => t' = t ++ [hu_original u] /\ (hu_original u ∉ t) /\ (length t < MAX_REDIRECTS)%nat /\
            (exists input, HttpsUrl_parse input = Ok u) /\ redirect_target url location = Ok u
  | _ => t' = t
  end.
Proof.
  unfold follow. destruct (redirect_target url location) as [u|e|] eqn:E.
  - destruct (Nat.leb_spec MAX_REDIRECTS (length t)); [by intros [= <- <-] |].
    destruct (existsb _ t) eqn:He; intros [= <- <-]; [done |]. split; [done |]. rewrite existsb_none in He.
    split_and!; eauto using redirect_target_parse. intros Hin. specialize (He _ Hin). by rewrite bool_decide_eq_true_2 in He.
  - by intros [= <- <-].
  - exfalso. unfold redirect_target in E. flow; by eapply HttpsUrl_parse_no_panic.
Qed.

Lemma follow_all_spec calls : forall t t' rs,
  NoDup t -> (length t <= MAX_REDIRECTS)%nat -> follow_all t calls = (t', rs) ->
  NoDup t' /\ (length t' <= MAX_REDIRECTS)%nat /\ t' = t ++ map hu_original (accepted rs) /\
  Forall url_wf (accepted rs) /\ Forall (fun r => r <> Panic) rs.
Proof.
  induction calls as [|[url location] calls IH]; intros t t' rs Hn Hl; cbn.
  { intros [= <- <-]. cbn. rewrite app_nil_r. auto. }
  destruct (follow t url location) as [t1 r] eqn:E. destruct (follow_all t1 calls) as [t2 rs2] eqn:E2.
  intros [= <- <-]. apply follow_step in E as [Hp E].
  assert (NoDup t1 /\ (length t1 <= MAX_REDIRECTS)%nat) as [Hn1 Hl1].
  { destruct r as [u|e|]; [|by subst..]. destruct E as (-> & Hni & Hlt & _). rewrite length_app. cbn. split; [|lia].
    apply NoDup_app. split_and!; [done | set_solver | apply NoDup_singleton]. }
  destruct (IH _ _ _ Hn1 Hl1 E2) as (H1 & H2 & H3 & H4 & H5). split_and!; try done; [| | by constructor].
  - destruct r as [u|e|]; cbn; [|by subst..]. destruct E as (-> & _). by rewrite <- app_assoc in H3.
  - destruct r as [u|e|]; cbn; [|done..]. constructor; [|done].
    destruct E as (_ & _ & _ & (input & Hi) & _). apply parse_grammar in Hi. by eapply url_grammar_wf.
Qed.

Lemma relative_redirect url location u :
  url_wf url -> head location = Some SLASH -> redirect_target url location = Ok u ->
  hu_hostname u = hu_hostname url /\ hu_port u = hu_port url /\ hu_path u = location.
Proof.
  intros Hw Hh. destruct location as [|c l]; [done |]. injection Hh as ->.
  unfold redirect_target. change (starts_with [SLASH] (SLASH :: l)) with true.
  assert (forall p, head p = Some 104 -> starts_with p (SLASH :: l) = false) as Hno.
  { intros [|x p] [= ->]. unfold starts_with. by apply bool_decide_eq_false_2. }
  rewrite !Hno by done.
  intros (host & t & tail & Heq & _ & _ & Hhost & Hport & Hpath & _ & Hhn & _)%parse_grammar.
  destruct (host_header_port _ Hw) as (t' & Ht & Hport'). rewrite Ht in Heq.
  apply app_inv_head in Heq. destruct Hhost as (_ & _ & Hl).
  destruct (authority_unique (hu_hostname url) t' (hu_port url) (SLASH :: l) (SLASH :: l) host t (hu_port u) tail (hu_path u))
    as (H1 & H2 & <-); try done; [apply Hw | right; by right |].
  split_and!; [| done |].
  - rewrite Hhn, <- H1. apply map_lowercase_fixed. apply (uw_host _ Hw).
  - by destruct Hpath as [[? _]|[[? _]|[_ ?]]].
Qed.

(** ** Theorems *)



(** C39: Redirects are bounded, never repeat and never leave HTTPS: over any sequence of [follow] calls at most
    three are accepted, to pairwise different URLs, each well formed; a location on plain
    HTTP is always refused as a downgrade; and a location that is a path stays on the host and port it came from. *)
Theorem redirect_policy :
  (forall calls t rs, follow_all RedirectTracker_new calls = (t, rs) ->
     t = map hu_original (accepted rs) /\ NoDup t /\ (length t <= 3)%nat /\
     Forall url_wf (accepted rs) /\ Forall (fun r => r <> Panic) rs) /\
  (forall t url rest, follow t url (text "http://" ++ rest) = (t, Err RedirectDowngrade)) /\
  (forall t t' url location u, url_wf url -> head location = Some SLASH ->
     follow t url location = (t', Ok u) ->
     hu_hostname u = hu_hostname url /\ hu_port u = hu_port url /\ hu_path u = location).
Proof.
  split_and!.
  - intros calls t rs H. apply follow_all_spec in H as (H1 & H2 & H3 & H4 & H5); [done | constructor | cbn; lia].
  - intros t url rest. unfold follow, redirect_target.
    by rewrite (proj2 (starts_with_spec (text "http://") _)) by eauto.
  - intros t t' url location u Hw Hh H%follow_step. destruct H as (_ & _ & _ & _ & _ & H). by apply relative_redirect.
Qed.

Lemma redirect_policy_witness :
  exists url t u, HttpsUrl_parse (text "https://example.com:8443/a") = Ok url /\
    follow RedirectTracker_new url (text "/b?c") = (t, Ok u) /\
    hu_hostname u = hu_hostname url /\ hu_port u = hu_port url /\ hu_path u = text "/b?c".
Proof.
  eexists _, _, _. split; [vm_compute; reflexivity |]. split; [vm_compute; reflexivity |].
  eapply (proj2 (proj2 redirect_policy) RedirectTracker_new); [| reflexivity | vm_compute; reflexivity].
  eapply url_grammar_wf, (proj1 (parse_grammar (text "https://example.com:8443/a") _)). vm_compute. reflexivity.
Defined.

(** The number parser of the standard library takes a leading plus sign, and so does the port of a URL. *)
Lemma url_port_plus_sign :
  exists u, HttpsUrl_parse (text "https://example.com:+8443/") = Ok u /\ hu_port u = 8443.
Proof. eexists. split; [vm_compute; reflexivity | reflexivity]. Qed.
