(* ===== verification/HttpResponse.v ===== *)
(** * Response decoding ([http-client/src/response.rs])

    [ResponseDecoder] collects a response and decodes it from the start at each call;
    [StreamingResponseDecoder] hands the body on as it arrives.  The sink of the latter is a
    function on a state of the caller's, which returns [None] for [Ok(())]. *)

From Stdlib Require Import String.
From S2P Require Import Prelude Text HttpUrl.

(** ** The code: lines *)

Record HttpResponse : Type := {
  hr_status_code : Z;
  hr_reason : list Z;
  hr_headers : list (list Z * list Z);
  hr_body : list Z }.

(** [HttpResponse::header] and [StreamHead::header]. *)
Definition find_header (headers : list (list Z * list Z)) (name : list Z) : option (list Z) :=
  snd <$> List.find (fun h => eq_ignore_ascii_case (fst h) name) headers.
Definition HttpResponse_header (self : HttpResponse) (name : list Z) : option (list Z) :=
  find_header (hr_headers self) name.

Definition CRLFCRLF : list Z := CRLF ++ CRLF.

(** [windows(needle.len()).position(..)]; every needle of the code is a non-empty constant. *)
Fixpoint find_sequence (haystack needle : list Z) : option nat :=
  match haystack with
  | [] => None
  | _ :: rest => if starts_with needle haystack then Some 0%nat else S <$> find_sequence rest needle
  end.

Definition response_has_no_body (status : Z) : bool :=
  ((100 <=? status) && (status <? 200)) || (status =? 204) || (status =? 304).

(** The bytes of a header name. *)
Definition token_char (byte : Z) : bool :=
  is_ascii_alphanumeric byte || contains_char byte (text "!#$%&'*+-.^_`|~").

Definition parse_header (line : list Z) : result HttpError (list Z * list Z) :=
  let? (name, value) := ok_or (split_once COLON line) InvalidResponseHeader in
  if bool_decide (name = []) || negb (forallb token_char name) then Err InvalidResponseHeader else
  let value := trim_matches (fun c => (c =? SPACE) || (c =? 9)) value in
  if existsb (fun byte => ((byte <? 32) && negb (byte =? 9)) || (byte =? 127)) value
  then Err InvalidResponseHeader else Ok (name, value).

Definition parse_status_line (line : list Z) : result HttpError (Z * list Z) :=
  if MAX_STATUS_LINE_LEN <? len line then Err InvalidStatusLine else
  let parts := splitn 3 SPACE line in
  if negb (bool_decide (parts !! 0%nat = Some (text "HTTP/1.1"))) then Err UnsupportedHttpVersion else
  let? raw_status := ok_or (parts !! 1%nat) InvalidStatusLine in
  if negb (len raw_status =? 3) || negb (forallb is_ascii_digit raw_status) then Err InvalidStatusCode else
  let? status := ok_or (parse_u16 raw_status) InvalidStatusCode in
  if negb ((100 <=? status) && (status <=? 599)) then Err InvalidStatusCode else
  let reason := default [] (parts !! 2%nat) in
  if existsb (fun byte => (byte <? 32) || (byte =? 127)) reason then Err InvalidStatusLine else
  Ok (status, reason).

(** ** The code: chunked bodies *)

Definition short (end_of_stream : bool) : HttpError := if end_of_stream then UnexpectedEnd else Incomplete.

(** The loop of [validate_trailers]. *)
Fixpoint trailer_lines (count : Z) (lines : list (list Z)) : result HttpError unit :=
  match lines with
  | [] => Ok tt
  | line :: lines =>
      if (MAX_HEADER_COUNT <? count + 1) || (MAX_HEADER_LINE_LEN <? len line) then Err TrailersTooLarge else
      let? _ := parse_header line in
      trailer_lines (count + 1) lines
  end.

Definition validate_trailers (bytes : list Z) : result HttpError unit :=
  if bool_decide (bytes = CRLF) then Ok tt else
  let? content := ok_or (strip_suffix CRLFCRLF bytes) InvalidResponseHeader in
  if negb (from_utf8 content) then Err InvalidResponseHeader else
  trailer_lines 0 (split_crlf content).

(** The size line of a chunk at [cursor]: the size and the cursor behind the line. *)
Definition chunk_size (payload : list Z) (end_of_stream : bool) (cursor : nat) : result HttpError (Z * nat) :=
  let? rest := slice payload cursor (length payload) in
  let? line_end := ok_or (find_sequence rest CRLF) (short end_of_stream) in
  if MAX_HEADER_LINE_LEN <? Z.of_nat line_end then Err InvalidChunkSize else
  let? line := slice payload cursor (cursor + line_end) in
  if negb (from_utf8 line) then Err InvalidChunkSize else
  let size_text := before_first 59 line in
  if bool_decide (size_text = []) || (16 <? len size_text) then Err InvalidChunkSize else
  let? size := ok_or (from_str_radix 16 USIZE_MAX size_text) InvalidChunkSize in
  if MAX_CHUNK_BYTES <? size then Err ChunkTooLarge else
  let? cursor := ok_or (checked_add cursor (line_end + 2)) InvalidChunkSize in
  Ok (size, cursor).

(** The last chunk: trailers up to the end of the payload. *)
Definition last_chunk (payload : list Z) (end_of_stream : bool) (cursor : nat) (body : list Z)
    : result HttpError (list Z) :=
  let? rest := slice payload cursor (length payload) in
  let? trailer_end := ok_or (match find_sequence rest CRLFCRLF with
                             | Some offset => Some (offset + 4)%nat
                             | None => if starts_with CRLF rest then Some 2%nat else None
                             end) (short end_of_stream) in
  if MAX_TRAILER_BYTES <? Z.of_nat trailer_end then Err TrailersTooLarge else
  let? trailers := slice payload cursor (cursor + trailer_end) in
  let? _ := validate_trailers trailers in
  if negb (cursor + trailer_end =? length payload)%nat then Err TrailingData else Ok body.

(** The data of a chunk: the body so far and the cursor behind the chunk. *)
Definition chunk_data (payload : list Z) (end_of_stream : bool) (cursor : nat) (size : Z) (body : list Z)
    : result HttpError (nat * list Z) :=
  let? data_end := ok_or (checked_add cursor (Z.to_nat size)) BodyTooLarge in
  let? terminator_end := ok_or (checked_add data_end 2) BodyTooLarge in
  if (length payload <? terminator_end)%nat then Err (short end_of_stream) else
  let? terminator := slice payload data_end terminator_end in
  if negb (bool_decide (terminator = CRLF)) then Err InvalidChunkTerminator else
  if MAX_BODY_BYTES <? saturating_add64 (len body) size then Err BodyTooLarge else
  let? data := slice payload cursor data_end in
  Ok (terminator_end, body ++ data).

Fixpoint chunked_loop (fuel : nat) (payload : list Z) (end_of_stream : bool) (cursor : nat) (body : list Z)
    : result HttpError (list Z) :=
  match fuel with
  | O => Panic
  | S fuel =>
      let? (size, cursor) := chunk_size payload end_of_stream cursor in
      if size =? 0 then last_chunk payload end_of_stream cursor body
      else
        let? (cursor, body) := chunk_data payload end_of_stream cursor size body in
        chunked_loop fuel payload end_of_stream cursor body
  end.

Definition decode_chunked (payload : list Z) (end_of_stream : bool) : result HttpError (list Z) :=
  chunked_loop (S (length payload)) payload end_of_stream 0 [].

(** ** The code: whole responses *)

(** The variables of the header loop of [decode_response]. *)
Record HeadScan : Type := {
  sc_headers : list (list Z * list Z);
  sc_content_length : option Z;
  sc_chunked : bool }.

Definition header_line (s : HeadScan) (line : list Z) : result HttpError HeadScan :=
  if MAX_HEADER_LINE_LEN <? len line then Err HeadersTooLarge else
  if MAX_HEADER_COUNT <=? Z.of_nat (length (sc_headers s)) then Err TooManyHeaders else
  let? (name, value) := parse_header line in
  let? content_length :=
    (if eq_ignore_ascii_case name (text "content-length") then
       let? parsed := ok_or (parse_usize value) ConflictingContentLength in
       if MAX_BODY_BYTES <? parsed then Err BodyTooLarge else
       if match sc_content_length s with Some previous => negb (previous =? parsed) | None => false end
       then Err ConflictingContentLength else Ok (Some parsed)
     else Ok (sc_content_length s)) in
  let? chunked :=
    (if eq_ignore_ascii_case name (text "transfer-encoding") then
       if negb (eq_ignore_ascii_case value (text "chunked")) || sc_chunked s
       then Err UnsupportedTransferEncoding else Ok true
     else Ok (sc_chunked s)) in
  Ok {| sc_headers := sc_headers s ++ [(lowercase name, value)];
        sc_content_length := content_length; sc_chunked := chunked |}.

Fixpoint header_lines (s : HeadScan) (lines : list (list Z)) : result HttpError HeadScan :=
  match lines with
  | [] => Ok s
  | line :: lines => let? s := header_line s line in header_lines s lines
  end.

(** The head of a response: status, reason and the scanned headers. *)
Definition decode_head (head : list Z) : result HttpError (Z * list Z * HeadScan) :=
  if negb (from_utf8 head) then Err InvalidResponseHeader else
  match split_crlf head with
  | [] => Err InvalidStatusLine
  | status_line :: lines =>
      let? (status_code, reason) := parse_status_line status_line in
      let? s := header_lines {| sc_headers := []; sc_content_length := None; sc_chunked := false |} lines in
      if sc_chunked s && negb (bool_decide (sc_content_length s = None)) then Err ConflictingFraming else
      Ok (status_code, reason, s)
  end.

(** The body by the framing of the head. *)
Definition decode_body (status_code : Z) (s : HeadScan) (payload : list Z) (end_of_stream : bool)
    : result HttpError (list Z) :=
  if response_has_no_body status_code then
    if negb (bool_decide (payload = [])) then Err TrailingData else Ok []
  else if sc_chunked s then decode_chunked payload end_of_stream
  else match sc_content_length s with
  | Some length =>
      if len payload <? length then Err (short end_of_stream) else
      if negb (len payload =? length) then Err TrailingData else Ok payload
  | None =>
      if negb end_of_stream then Err Incomplete else
      if MAX_BODY_BYTES <? len payload then Err BodyTooLarge else Ok payload
  end.

Definition decode_response (bytes : list Z) (end_of_stream : bool) : result HttpError HttpResponse :=
  let? header_end := ok_or (find_sequence bytes CRLFCRLF)
    (if MAX_HEADER_BYTES <? len bytes then HeadersTooLarge else short end_of_stream) in
  let header_bytes := (header_end + 4)%nat in
  if MAX_HEADER_BYTES <? Z.of_nat header_bytes then Err HeadersTooLarge else
  let? head := slice bytes 0 header_end in
  let? (status_code, reason, s) := decode_head head in
  let? payload := slice bytes header_bytes (length bytes) in
  let? body := decode_body status_code s payload end_of_stream in
  Ok {| hr_status_code := status_code; hr_reason := reason; hr_headers := sc_headers s; hr_body := body |}.

(** [ResponseDecoder] is the bytes received so far. *)
Definition ResponseDecoder : Type := list Z.
Definition ResponseDecoder_new : ResponseDecoder := [].

Definition ResponseDecoder_feed (self : ResponseDecoder) (bytes : list Z) : ResponseDecoder * result HttpError unit :=
  if MAX_HEADER_BYTES + MAX_BODY_BYTES + MAX_TRAILER_BYTES <? saturating_add64 (len self) (len bytes)
  then (self, Err BodyTooLarge) else (self ++ bytes, Ok tt).

Definition ResponseDecoder_decode (self : ResponseDecoder) (end_of_stream : bool) : result HttpError HttpResponse :=
  decode_response self end_of_stream.

(** ** Searching for a sequence *)

Lemma starts_with_long n h m : (length n <= length h)%nat -> starts_with n (h ++ m) = starts_with n h.
Proof. intros H. unfold starts_with. by rewrite take_app_le. Qed.

Lemma find_sequence_Some h n i :
  find_sequence h n = Some i -> exists a b, h = a ++ n ++ b /\ length a = i.
Proof.
  revert i. induction h as [|x h IH]; intros i; cbn; [done |]. destruct (starts_with n (x :: h)) eqn:E.
  - intros [= <-]. apply starts_with_spec in E as [t ->]. by exists [], t.
  - destruct (find_sequence h n) as [j|]; [|done]. intros [= <-].
    destruct (IH j eq_refl) as (a & b & -> & Ha). exists (x :: a), b. cbn. auto.
Qed.

Lemma find_sequence_length h n i : find_sequence h n = Some i -> (i + length n <= length h)%nat.
Proof. intros (a & b & -> & <-)%find_sequence_Some. rewrite !length_app. lia. Qed.

Lemma find_sequence_app h n i m : find_sequence h n = Some i -> find_sequence (h ++ m) n = Some i.
Proof.
  revert i. induction h as [|x h IH]; intros i; cbn [find_sequence app]; [done |].
  destruct (starts_with n (x :: h)) eqn:E.
  - intros [= <-]. apply starts_with_spec in E as [t E]. rewrite app_comm_cons, E, <- app_assoc.
    by rewrite (proj2 (starts_with_spec _ _)) by eauto.
  - destruct (find_sequence h n) as [j|] eqn:F; [|done]. intros [= <-].
    apply find_sequence_length in F as Hl. rewrite app_comm_cons, starts_with_long, E by (cbn; lia).
    by rewrite (IH j).
Qed.

Lemma find_sequence_late h n m i :
  n <> [] -> find_sequence h n = None -> find_sequence (h ++ m) n = Some i -> (length h < i + length n)%nat.
Proof.
  intros Hn. revert i. induction h as [|x h IH]; intros i; cbn [find_sequence app].
  { intros _ _. destruct n; [done | cbn; lia]. }
  destruct (starts_with n (x :: h)) eqn:E; [done |]. destruct (find_sequence h n) eqn:F; [done |]. intros _.
  destruct (starts_with n (x :: h ++ m)) eqn:E'.
  - intros [= <-]. destruct (Nat.lt_ge_cases (length (x :: h)) (length n)); [lia |].
    rewrite app_comm_cons, starts_with_long in E' by done. congruence.
  - destruct (find_sequence (h ++ m) n) as [j|] eqn:G; [|done]. intros [= <-]. specialize (IH j eq_refl eq_refl). cbn. lia.
Qed.

(** The text before the first line ending. *)
Lemma find_crlf_line l r : no_crlf (l ++ [CR]) -> find_sequence (l ++ CRLF ++ r) CRLF = Some (length l).
Proof.
  induction l as [|c l IH]; intros H; cbn [app].
  { by destruct r. }
  rewrite <- app_comm_cons in H. apply no_crlf_cons in H as [Hl Hc]. cbn [find_sequence].
  destruct (starts_with CRLF (c :: l ++ CRLF ++ r)) eqn:E.
  - apply starts_with_spec in E as [t E]. injection E as -> E. exfalso. apply (Hc eq_refl).
    destruct l as [|d l]; [done |]. by injection E as ->.
  - cbn [app] in IH. by rewrite IH.
Qed.

Lemma find_crlf_Some h i :
  find_sequence h CRLF = Some i ->
  exists l r, h = l ++ CRLF ++ r /\ length l = i /\ no_crlf (l ++ [CR]).
Proof.
  revert i. induction h as [|x h IH]; intros i; cbn [find_sequence]; [done |]. destruct (starts_with CRLF (x :: h)) eqn:E.
  - intros [= <-]. apply starts_with_spec in E as [t ->]. exists [], t. split_and!; [done | done |].
    apply no_crlf_cons. split; [apply no_crlf_nil | done].
  - destruct (find_sequence h CRLF) as [j|]; [|done]. intros [= <-].
    destruct (IH j eq_refl) as (l & r & -> & Hl & Hn). exists (x :: l), r. cbn [app length]. split_and!; [done | lia |].
    apply no_crlf_cons. split; [done |]. intros -> Hh. apply (starts_with_false_nil _ _ E (tail (l ++ CRLF ++ r))).
    destruct l as [|d l]; cbn in Hh |- *; [done |]. by simplify_eq.
Qed.

(** ** Chunks at the front of the payload *)

(** A Rust slice has at most [isize::MAX] bytes. *)
Definition slice_len_ok (l : list Z) : Prop := len l <= ISIZE_MAX.

Lemma slice_rest {E} l c : (c <= length l)%nat -> slice (E := E) l c (length l) = Ok (drop c l).
Proof. intros. rewrite slice_in by lia. by rewrite take_ge by (rewrite length_drop; lia). Qed.

Lemma slice_shift {E} l c k : (c <= length l)%nat -> slice (E := E) l c (c + k) = slice (drop c l) 0 k.
Proof.
  intros H. unfold slice, get_range. rewrite length_drop, drop_0, Nat.sub_0_r, Nat.add_sub'.
  rewrite (proj2 (Nat.leb_le c (c + k))) by lia. cbn [andb Nat.leb].
  destruct (Nat.leb_spec (c + k) (length l)), (Nat.leb_spec k (length l - c)); (done || lia).
Qed.

Lemma slice_shift2 {E} l c a b :
  (c <= length l)%nat -> (a <= b)%nat -> slice (E := E) l (c + a) (c + b) = slice (drop c l) a b.
Proof.
  intros H Hab. unfold slice, get_range. rewrite length_drop, drop_drop.
  rewrite (proj2 (Nat.leb_le (c + a) (c + b))), (proj2 (Nat.leb_le a b)) by lia. cbn [andb].
  replace (c + b - (c + a))%nat with (b - a)%nat by lia.
  destruct (Nat.leb_spec (c + b) (length l)), (Nat.leb_spec b (length l - c)); (done || lia).
Qed.

(** The size that a size line announces. *)
Definition size_of_line (line : list Z) : result HttpError Z :=
  if MAX_HEADER_LINE_LEN <? len line then Err InvalidChunkSize else
  if negb (from_utf8 line) then Err InvalidChunkSize else
  if bool_decide (before_first 59 line = []) || (16 <? len (before_first 59 line)) then Err InvalidChunkSize else
  let? size := ok_or (from_str_radix 16 USIZE_MAX (before_first 59 line)) InvalidChunkSize in
  if MAX_CHUNK_BYTES <? size then Err ChunkTooLarge else Ok size.

Lemma checked_add_in c k n : Z.of_nat n <= ISIZE_MAX -> (c + k <= n)%nat -> checked_add c k = Some (c + k)%nat.
Proof. intros. apply checked_add_small. widths. lia. Qed.

Lemma chunk_size_front payload eos c :
  slice_len_ok payload -> (c <= length payload)%nat ->
  chunk_size payload eos c =
  match find_sequence (drop c payload) CRLF with
  | None => Err (short eos)
  | Some k => let? size := size_of_line (take k (drop c payload)) in Ok (size, (c + (k + 2))%nat)
  end.
Proof.
  intros Hl Hc. unfold chunk_size, size_of_line. rewrite slice_rest by done.
  destruct (find_sequence (drop c payload) CRLF) as [k|] eqn:F; cbn [ok_or]; [|done].
  apply find_sequence_length in F. rewrite length_drop in F. cbn in F.
  assert (len (take k (drop c payload)) = Z.of_nat k) as ->.
  { unfold len. rewrite length_take, length_drop. lia. }
  destruct (_ <? Z.of_nat k); [done |]. rewrite slice_shift by done.
  rewrite slice_in by (rewrite length_drop; lia). rewrite Nat.sub_0_r, drop_0.
  destruct (negb _); [done |]. destruct (_ || _); [done |].
  destruct (from_str_radix _ _ _) as [size|]; cbn [ok_or]; [|done]. destruct (_ <? size); [done |].
  by rewrite (checked_add_in _ _ (length payload)) by (done || lia).
Qed.

Lemma last_chunk_front payload eos c body :
  (c <= length payload)%nat -> last_chunk payload eos c body = last_chunk (drop c payload) eos 0 body.
Proof.
  intros Hc. unfold last_chunk. rewrite slice_rest by done. rewrite (slice_rest (drop c payload)) by lia. rewrite drop_0.
  destruct (ok_or _ (short eos)) as [t| |]; [|done..]. destruct (_ <? Z.of_nat t); [done |].
  rewrite slice_shift by done. cbn [Nat.add]. destruct (slice (drop c payload) 0 t) as [tr| |]; [|done..].
  destruct (validate_trailers tr); [|done..]. rewrite length_drop.
  by replace (c + t =? length payload)%nat with (t =? length payload - c)%nat
    by (destruct (Nat.eqb_spec (c + t) (length payload)), (Nat.eqb_spec t (length payload - c)); (done || lia)).
Qed.

(** A chunk of [n] bytes at the front of [pl]. *)
Lemma chunk_data_front payload eos c size body :
  slice_len_ok payload -> (c <= length payload)%nat -> 0 <= size <= MAX_CHUNK_BYTES -> len body <= MAX_BODY_BYTES ->
  let pl := drop c payload in let n := Z.to_nat size in
  chunk_data payload eos c size body =
  if (length pl <? n + 2)%nat then Err (short eos) else
  if negb (bool_decide (take 2 (drop n pl) = CRLF)) then Err InvalidChunkTerminator else
  if MAX_BODY_BYTES <? len body + size then Err BodyTooLarge else
  Ok ((c + (n + 2))%nat, body ++ take n pl).
Proof.
  intros Hl Hc Hs Hb. cbv zeta. unfold chunk_data, slice_len_ok, len, MAX_CHUNK_BYTES, MAX_BODY_BYTES, ISIZE_MAX in *.
  rewrite !checked_add_small by (widths; lia). cbn [ok_or].
  rewrite checked_add_small by (widths; lia). cbn [ok_or]. rewrite length_drop.
  destruct (Nat.ltb_spec (length payload) (c + Z.to_nat size + 2)), (Nat.ltb_spec (length payload - c) (Z.to_nat size + 2)); try lia; [done |].
  rewrite slice_in by lia. rewrite drop_drop. replace (c + Z.to_nat size + 2 - (c + Z.to_nat size))%nat with 2%nat by lia.
  destruct (negb _); [done |]. unfold saturating_add64. rewrite Z.min_l by (widths; lia).
  destruct (_ <? _); [done |]. rewrite slice_in by lia. rewrite Nat.add_sub'. do 2 f_equal. lia.
Qed.

(** ** No panic below the loop *)

Lemma parse_header_no_panic l : parse_header l <> Panic.
Proof. unfold parse_header. repeat step_result. Qed.

Lemma parse_status_line_no_panic l : parse_status_line l <> Panic.
Proof. unfold parse_status_line. repeat step_result. Qed.

Lemma size_of_line_no_panic l : size_of_line l <> Panic.
Proof. unfold size_of_line. repeat step_result. Qed.
#[export] Hint Resolve parse_header_no_panic parse_status_line_no_panic size_of_line_no_panic : nopanic.

Lemma trailer_lines_no_panic ls c : trailer_lines c ls <> Panic.
Proof. revert c. induction ls as [|l ls IH]; intros c; cbn [trailer_lines]; repeat step_result. apply IH. Qed.

Lemma validate_trailers_no_panic b : validate_trailers b <> Panic.
Proof. unfold validate_trailers. repeat step_result. apply trailer_lines_no_panic. Qed.

Lemma header_line_no_panic s l : header_line s l <> Panic.
Proof. unfold header_line. repeat step_result. Qed.
#[export] Hint Resolve validate_trailers_no_panic header_line_no_panic : nopanic.

Lemma header_lines_no_panic ls s : header_lines s ls <> Panic.
Proof. revert s. induction ls as [|l ls IH]; intros s; cbn [header_lines]; repeat step_result. apply IH. Qed.
#[export] Hint Resolve header_lines_no_panic : nopanic.

Lemma decode_head_no_panic h : decode_head h <> Panic.
Proof. unfold decode_head. step_result. destruct (split_crlf h); repeat step_result. Qed.

(** ** The chunk loop, one chunk at a time *)

Lemma size_of_line_range l size : size_of_line l = Ok size -> 0 <= size <= MAX_CHUNK_BYTES.
Proof.
  unfold size_of_line. destruct (_ <? _); [done |]. destruct (negb _); [done |]. destruct (_ || _); [done |].
  destruct (from_str_radix 16 USIZE_MAX _) as [z|] eqn:E; cbn [ok_or]; [|done].
  apply from_str_radix_range in E; [|done|done]. destruct (Z.ltb_spec MAX_CHUNK_BYTES z); [done |].
  intros [= <-]. lia.
Qed.

(** The length of the trailer section at the front of the payload. *)
Definition trailer_len (rest : list Z) : option nat :=
  match find_sequence rest CRLFCRLF with
  | Some offset => Some (offset + 4)%nat
  | None => if starts_with CRLF rest then Some 2%nat else None
  end.

Lemma trailer_len_le rest t : trailer_len rest = Some t -> (2 <= t <= length rest)%nat.
Proof.
  unfold trailer_len. destruct (find_sequence rest CRLFCRLF) as [o|] eqn:F.
  - intros [= <-]. apply find_sequence_length in F. cbn in F. lia.
  - destruct (starts_with CRLF rest) eqn:E; [|done]. intros [= <-]. apply starts_with_spec in E as [r ->]. cbn. lia.
Qed.

Lemma last_chunk_0 rest eos body :
  last_chunk rest eos 0 body =
  match trailer_len rest with
  | None => Err (short eos)
  | Some t =>
      if MAX_TRAILER_BYTES <? Z.of_nat t then Err TrailersTooLarge else
      let? _ := validate_trailers (take t rest) in
      if negb (t =? length rest)%nat then Err TrailingData else Ok body
  end.
Proof.
  unfold last_chunk. rewrite slice_rest, drop_0 by lia. fold (trailer_len rest).
  destruct (trailer_len rest) as [t|] eqn:E; cbn [ok_or]; [|done]. apply trailer_len_le in E.
  destruct (_ <? Z.of_nat t); [done |]. rewrite slice_in by lia. by rewrite Nat.add_0_l, Nat.sub_0_r, drop_0.
Qed.

Lemma slice_len_ok_drop n l : slice_len_ok l -> slice_len_ok (drop n l).
Proof. unfold slice_len_ok, len. rewrite length_drop. lia. Qed.

Lemma chunked_loop_front fuel : forall payload eos c body,
  slice_len_ok payload -> (c <= length payload)%nat -> len body <= MAX_BODY_BYTES ->
  chunked_loop fuel payload eos c body = chunked_loop fuel (drop c payload) eos 0 body.
Proof.
  induction fuel as [|fuel IH]; intros payload eos c body Hl Hc Hb; [done |]. cbn [chunked_loop].
  rewrite !chunk_size_front by (try done; try lia; by apply slice_len_ok_drop). rewrite drop_0.
  destruct (find_sequence (drop c payload) CRLF) as [k|] eqn:F; [|done].
  apply find_sequence_length in F. rewrite length_drop in F. cbn in F.
  destruct (size_of_line (take k (drop c payload))) as [size| |] eqn:S; [|done|done]. apply size_of_line_range in S as Hs.
  destruct (size =? 0).
  { rewrite (last_chunk_front payload) by lia. rewrite (last_chunk_front (drop c payload)) by (rewrite length_drop; lia).
    by rewrite drop_drop. }
  rewrite !chunk_data_front; try done; try lia; try (by apply slice_len_ok_drop); try (rewrite length_drop; lia).
  cbn [Nat.add]. rewrite !(drop_drop payload), !length_drop.
  destruct (Nat.ltb_spec (length payload - (c + (k + 2))) (Z.to_nat size + 2)); [done |].
  destruct (negb _); [done |]. destruct (Z.ltb_spec MAX_BODY_BYTES (len body + size)); [done |].
  assert (len (body ++ take (Z.to_nat size) (drop (c + (k + 2)) payload)) <= MAX_BODY_BYTES).
  { unfold len in *. rewrite length_app, length_take. lia. }
  rewrite (IH payload) by (done || lia).
  rewrite (IH (drop c payload)); [|by apply slice_len_ok_drop | rewrite length_drop; lia | done].
  rewrite drop_drop. do 2 f_equal. lia.
Qed.

Lemma chunked_loop_unfold fuel pl eos body :
  slice_len_ok pl -> len body <= MAX_BODY_BYTES ->
  chunked_loop (S fuel) pl eos 0 body =
  match find_sequence pl CRLF with
  | None => Err (short eos)
  | Some k =>
      let? size := size_of_line (take k pl) in
      let rest := drop (k + 2) pl in
      let n := Z.to_nat size in
      if size =? 0 then last_chunk rest eos 0 body else
      if (length rest <? n + 2)%nat then Err (short eos) else
      if negb (bool_decide (take 2 (drop n rest) = CRLF)) then Err InvalidChunkTerminator else
      if MAX_BODY_BYTES <? len body + size then Err BodyTooLarge else
      chunked_loop fuel (drop (n + 2) rest) eos 0 (body ++ take n rest)
  end.
Proof.
  intros Hl Hb. cbn [chunked_loop]. rewrite chunk_size_front by (done || lia). rewrite drop_0.
  destruct (find_sequence pl CRLF) as [k|] eqn:F; [|done].
  apply find_sequence_length in F. cbn in F.
  destruct (size_of_line _) as [size| |] eqn:S; [|done|done]. apply size_of_line_range in S as Hs. cbv zeta.
  destruct (size =? 0); [by rewrite last_chunk_front by lia |].
  rewrite chunk_data_front by (done || lia). cbn [Nat.add]. rewrite length_drop.
  destruct (Nat.ltb_spec (length pl - (k + 2)) (Z.to_nat size + 2)); [done |].
  destruct (negb _); [done |]. destruct (Z.ltb_spec MAX_BODY_BYTES (len body + size)); [done |].
  rewrite chunked_loop_front; [by rewrite drop_drop | done | lia |].
  unfold len in *. rewrite length_app, length_take. lia.
Qed.

Lemma last_chunk_no_panic rest eos body : last_chunk rest eos 0 body <> Panic.
Proof. rewrite last_chunk_0. destruct (trailer_len rest); [repeat step_result | done]. Qed.

(** The body grows only within its limit. *)
Lemma len_append body n pl :
  len body + Z.of_nat n <= MAX_BODY_BYTES -> len (body ++ take n pl) <= MAX_BODY_BYTES.
Proof. unfold len. rewrite length_app, length_take. lia. Qed.

Ltac open_chunk :=
  rewrite chunked_loop_unfold by done;
  match goal with |- context [find_sequence ?pl CRLF] => destruct (find_sequence pl CRLF) as [k|] eqn:Hfind end.

Lemma chunked_loop_no_panic fuel : forall pl eos body,
  slice_len_ok pl -> len body <= MAX_BODY_BYTES -> (length pl < fuel)%nat ->
  chunked_loop fuel pl eos 0 body <> Panic.
Proof.
  induction fuel as [|fuel IH]; intros pl eos body Hl Hb Hf; [lia |].
  open_chunk; [|done]. apply find_sequence_length in Hfind. cbn in Hfind.
  pose proof (size_of_line_no_panic (take k pl)). destruct (size_of_line (take k pl)) as [size| |] eqn:Hs; [|done|done].
  apply size_of_line_range in Hs. cbv zeta. destruct (size =? 0); [apply last_chunk_no_panic |].
  destruct (_ <? _)%nat; [done |]. destruct (negb _); [done |]. destruct (Z.ltb_spec MAX_BODY_BYTES (len body + size)); [done |].
  apply IH; [by repeat apply slice_len_ok_drop | apply len_append; lia | rewrite !length_drop; lia].
Qed.

(** ** The grammar of chunked bodies *)

Lemma drop_line line rest : drop (length line + 2) (line ++ CRLF ++ rest) = rest.
Proof. by rewrite <- drop_drop, drop_app_length. Qed.

(** A size line: the text before the first semicolon is the size in hexadecimal. *)
Definition size_line (line : list Z) (size : Z) : Prop := no_crlf (line ++ [CR]) /\ size_of_line line = Ok size.

(** A trailer section: one line ending, or header lines up to the first empty line. *)
Definition trailer_ok (t : list Z) : Prop :=
  trailer_len t = Some (length t) /\ len t <= MAX_TRAILER_BYTES /\ validate_trailers t = Ok tt.

Inductive chunked : list Z -> list Z -> Prop :=
  | chunked_last line trailer :
      size_line line 0 -> trailer_ok trailer -> chunked (line ++ CRLF ++ trailer) []
  | chunked_data line data rest body :
      size_line line (len data) -> data <> [] -> chunked rest body ->
      chunked (line ++ CRLF ++ data ++ CRLF ++ rest) (data ++ body).

Lemma last_chunk_ok rest eos body r : last_chunk rest eos 0 body = Ok r <-> r = body /\ trailer_ok rest.
Proof.
  rewrite last_chunk_0. unfold trailer_ok. destruct (trailer_len rest) as [t|] eqn:E.
  - apply trailer_len_le in E. destruct (Z.ltb_spec MAX_TRAILER_BYTES (Z.of_nat t)).
    { unfold len. split; [done |]. intros (_ & [= ->] & ? & _). lia. }
    destruct (Nat.eqb_spec t (length rest)) as [->|Hne]; cbn [negb].
    + rewrite take_ge by lia. unfold len. destruct (validate_trailers rest) as [[]| |]; naive_solver.
    + split; [|naive_solver]. by destruct (validate_trailers (take t rest)).
  - split; [done |]. by intros (_ & ? & _).
Qed.

Lemma chunked_loop_sound fuel : forall pl eos acc r,
  slice_len_ok pl -> len acc <= MAX_BODY_BYTES ->
  chunked_loop fuel pl eos 0 acc = Ok r ->
  exists body, r = acc ++ body /\ chunked pl body /\ len r <= MAX_BODY_BYTES.
Proof.
  induction fuel as [|fuel IH]; intros pl eos acc r Hl Hb; [done |].
  open_chunk; [|done]. apply find_crlf_Some in Hfind as (line & rest & -> & <- & Hn).
  rewrite take_app_length. destruct (size_of_line line) as [size| |] eqn:Hs; [|done|done].
  apply size_of_line_range in Hs as Hr. cbv zeta.
  rewrite drop_line.
  assert (slice_len_ok rest) as Hlr. { unfold slice_len_ok, len in *. rewrite !length_app in Hl. lia. }
  destruct (Z.eqb_spec size 0) as [->|Hz].
  { intros [-> Ht]%last_chunk_ok. exists []. rewrite app_nil_r. split_and!; [done | by constructor | done]. }
  destruct (Nat.ltb_spec (length rest) (Z.to_nat size + 2)); [done |].
  case_bool_decide as Hterm; [|done]. cbn [negb]. destruct (Z.ltb_spec MAX_BODY_BYTES (len acc + size)); [done |].
  intros (body & -> & Hc & Hlen)%IH; [| by repeat apply slice_len_ok_drop | apply len_append; lia].
  exists (take (Z.to_nat size) rest ++ body). rewrite <- app_assoc in *. split_and!; [done | | done].
  rewrite <- (take_drop (Z.to_nat size) rest) at 1. rewrite <- (take_drop 2 (drop (Z.to_nat size) rest)), Hterm, drop_drop.
  constructor; [| | done].
  - split; [done |]. rewrite Hs. f_equal. unfold len. rewrite length_take. lia.
  - intros Hnil. apply (f_equal length) in Hnil. rewrite length_take in Hnil. cbn in Hnil. lia.
Qed.

Lemma chunked_loop_complete pl body : chunked pl body -> forall fuel eos acc,
  slice_len_ok pl -> len (acc ++ body) <= MAX_BODY_BYTES -> (length pl < fuel)%nat ->
  chunked_loop fuel pl eos 0 acc = Ok (acc ++ body).
Proof.
  induction 1 as [line trailer [Hn Hs] Ht | line data rest body [Hn Hs] Hd Hc IH];
    intros fuel eos acc Hl Hb Hf; (destruct fuel as [|fuel]; [lia |]);
    rewrite chunked_loop_unfold by (try done; unfold len in *; rewrite length_app in Hb; lia);
    rewrite find_crlf_line, take_app_length, Hs by done; cbv zeta;
    rewrite drop_line.
  - rewrite Z.eqb_refl. apply last_chunk_ok. by rewrite app_nil_r.
  - assert (len data <> 0) as Hz by (unfold len; destruct data; cbn; [done | lia]).
    rewrite (proj2 (Z.eqb_neq _ _)) by done. replace (Z.to_nat (len data)) with (length data) by (unfold len; lia).
    rewrite (proj2 (Nat.ltb_ge _ _)) by (rewrite !length_app; cbn; lia).
    rewrite drop_app_length. change (take 2 (CRLF ++ rest)) with CRLF. rewrite bool_decide_eq_true_2 by done. cbn [negb].
    unfold len in Hb |- *. rewrite !length_app in Hb.
    rewrite (proj2 (Z.ltb_ge _ _)) by lia.
    rewrite drop_line, take_app_length, app_assoc. apply IH.
    + unfold slice_len_ok, len in *. rewrite !length_app in Hl. lia.
    + unfold len. rewrite !length_app. lia.
    + rewrite !length_app in Hf. cbn in Hf. lia.
Qed.

(** ** More input *)

Lemma parse_header_nil : parse_header [] = Err InvalidResponseHeader.
Proof. reflexivity. Qed.

(** An accepted trailer section has no proper prefix that looks finished. *)
Lemma trailer_extend rest more : more <> [] -> trailer_ok (rest ++ more) -> trailer_len rest = None.
Proof.
  intros Hm (Ht & _ & Hv). assert (0 < length more)%nat by (destruct more; [done | cbn; lia]).
  unfold trailer_len in *. destruct (find_sequence rest CRLFCRLF) as [o|] eqn:F.
  { pose proof (find_sequence_length _ _ _ F) as Hl. rewrite (find_sequence_app _ _ _ more F) in Ht.
    injection Ht as Ht. rewrite length_app in Ht. cbn in Hl. lia. }
  destruct (starts_with CRLF rest) eqn:E; [|done]. exfalso. apply starts_with_spec in E as [r ->].
  unfold validate_trailers in Hv. rewrite bool_decide_eq_false_2 in Hv.
  2: { intros Heq. apply (f_equal length) in Heq. rewrite !length_app in Heq. cbn in Heq. lia. }
  destruct (strip_suffix CRLFCRLF _) as [content|] eqn:Hs; cbn [ok_or] in Hv; [|done].
  apply strip_suffix_Some in Hs. destruct (negb (from_utf8 content)); [done |].
  destruct content as [|a [|b content]]; cbn in Hs; simplify_eq.
Qed.

Lemma find_line_prefix line rest pl more k :
  no_crlf (line ++ [CR]) -> line ++ CRLF ++ rest = pl ++ more -> find_sequence pl CRLF = Some k ->
  k = length line /\ exists pl', pl = line ++ CRLF ++ pl' /\ rest = pl' ++ more.
Proof.
  intros Hn Heq Hf. pose proof (find_sequence_app _ _ _ more Hf) as Hf'.
  rewrite <- Heq, find_crlf_line in Hf' by done. injection Hf' as <-. split; [done |].
  apply find_sequence_length in Hf. cbn in Hf. exists (drop (length line + 2) pl).
  assert (take (length line + 2) pl = line ++ CRLF) as Ht.
  { rewrite <- (take_app_le pl more) by lia. rewrite <- Heq, app_assoc. apply take_app_length'. rewrite length_app. done. }
  split.
  - rewrite <- (take_drop (length line + 2) pl) at 1. by rewrite Ht, <- app_assoc.
  - rewrite <- (drop_app_le pl more) by lia. by rewrite <- Heq, drop_line.
Qed.

Lemma chunked_prefix whole body : chunked whole body -> forall pl more fuel acc,
  whole = pl ++ more -> more <> [] -> slice_len_ok pl -> len (acc ++ body) <= MAX_BODY_BYTES -> (length pl < fuel)%nat ->
  chunked_loop fuel pl false 0 acc = Err Incomplete.
Proof.
  induction 1 as [line trailer [Hn Hs] Ht | line data rest body [Hn Hs] Hd Hc IH];
    intros pl more fuel acc Heq Hm Hl Hb Hf; (destruct fuel as [|fuel]; [lia |]);
    rewrite chunked_loop_unfold by (try done; unfold len in *; rewrite length_app in Hb; lia);
    (destruct (find_sequence pl CRLF) as [k|] eqn:Hk; [|done]);
    destruct (find_line_prefix _ _ _ _ _ Hn Heq Hk) as (-> & pl' & -> & Hrest);
    rewrite take_app_length, Hs, drop_line; cbv zeta.
  - rewrite Z.eqb_refl. subst trailer. rewrite last_chunk_0. by rewrite (trailer_extend pl' more).
  - assert (len data <> 0) as Hz by (unfold len; destruct data; cbn; [done | lia]).
    rewrite (proj2 (Z.eqb_neq _ _)) by done. replace (Z.to_nat (len data)) with (length data) by (unfold len; lia).
    destruct (Nat.ltb_spec (length pl') (length data + 2)) as [|Hlen]; [done |].
    assert (take (length data + 2) pl' = data ++ CRLF) as Htk.
    { rewrite <- (take_app_le pl' more) by lia. rewrite <- Hrest, app_assoc. apply take_app_length'. rewrite length_app. done. }
    assert (pl' = data ++ CRLF ++ drop (length data + 2) pl') as Hpl.
    { rewrite <- (take_drop (length data + 2) pl') at 1. by rewrite Htk, <- app_assoc. }
    set (pl2 := drop (length data + 2) pl') in *. clearbody pl2. subst pl'.
    rewrite drop_app_length. change (take 2 (CRLF ++ pl2)) with CRLF. rewrite bool_decide_eq_true_2 by done. cbn [negb].
    unfold len in Hb |- *. rewrite !length_app in Hb. rewrite (proj2 (Z.ltb_ge _ _)) by lia.
    rewrite take_app_length. rewrite <- !app_assoc in Hrest. apply app_inv_head in Hrest.
    apply (IH pl2 more); [by apply app_inv_head in Hrest | done | | unfold len; rewrite !length_app; lia |].
    + unfold slice_len_ok, len in *. rewrite !length_app in Hl. lia.
    + rewrite !length_app in Hf. cbn in Hf. lia.
Qed.

(** The end of the stream matters only for what is incomplete without it. *)
Lemma chunked_loop_eos fuel : forall pl eos body,
  slice_len_ok pl -> len body <= MAX_BODY_BYTES ->
  chunked_loop fuel pl false 0 body <> Err Incomplete ->
  chunked_loop fuel pl eos 0 body = chunked_loop fuel pl false 0 body.
Proof.
  induction fuel as [|fuel IH]; intros pl eos body Hl Hb; [done |]. rewrite !chunked_loop_unfold by done.
  destruct (find_sequence pl CRLF) as [k|]; [|done]. destruct (size_of_line (take k pl)) as [size| |] eqn:Hs; [|done|done].
  apply size_of_line_range in Hs. cbv zeta. destruct (size =? 0).
  { rewrite !last_chunk_0. by destruct (trailer_len _). }
  destruct (_ <? _)%nat; [done |]. destruct (negb _); [done |]. destruct (Z.ltb_spec MAX_BODY_BYTES (len body + size)); [done |].
  apply IH; [by repeat apply slice_len_ok_drop | apply len_append; lia].
Qed.

Lemma decode_chunked_ok payload eos body :
  slice_len_ok payload ->
  decode_chunked payload eos = Ok body <-> chunked payload body /\ len body <= MAX_BODY_BYTES.
Proof.
  intros Hl. unfold decode_chunked. split.
  - intros (b & -> & H)%chunked_loop_sound; [by rewrite app_nil_l in * | done | done].
  - intros [Hc Hb]. apply (chunked_loop_complete _ _ Hc _ _ []); [done | done | lia].
Qed.

Lemma decode_body_prefix status s p more eos body :
  slice_len_ok (p ++ more) -> more <> [] -> decode_body status s (p ++ more) eos = Ok body ->
  decode_body status s p false = Err Incomplete.
Proof.
  intros Hl Hm. assert (0 < length more)%nat by (destruct more; [done | cbn; lia]).
  assert (slice_len_ok p) as Hlp by (unfold slice_len_ok, len in *; rewrite length_app in Hl; lia).
  unfold decode_body. destruct (response_has_no_body status).
  { rewrite bool_decide_eq_false_2; [done |]. by destruct p, more. }
  destruct (sc_chunked s).
  { intros [Hc Hb]%decode_chunked_ok; [|done]. unfold decode_chunked. eapply chunked_prefix; eauto. }
  destruct (sc_content_length s) as [n|]; [|done].
  destruct (Z.ltb_spec (len (p ++ more)) n); [done |]. destruct (Z.eqb_spec (len (p ++ more)) n) as [<-|]; [|done]. intros _.
  unfold len. rewrite length_app. by rewrite (proj2 (Z.ltb_lt _ _)) by lia.
Qed.

Lemma decode_body_eos status s p eos :
  slice_len_ok p -> decode_body status s p false <> Err Incomplete ->
  decode_body status s p eos = decode_body status s p false.
Proof.
  intros Hl. unfold decode_body. destruct (response_has_no_body status); [done |].
  destruct (sc_chunked s); [by apply chunked_loop_eos |]. destruct (sc_content_length s) as [n|]; [|done].
  by destruct (_ <? n).
Qed.

(** Where the head of a response ends. *)
Lemma decode_response_head bytes eos :
  decode_response bytes eos =
  match find_sequence bytes CRLFCRLF with
  | None => Err (if MAX_HEADER_BYTES <? len bytes then HeadersTooLarge else short eos)
  | Some i =>
      if MAX_HEADER_BYTES <? Z.of_nat (i + 4) then Err HeadersTooLarge else
      let? (status_code, reason, s) := decode_head (take i bytes) in
      let? body := decode_body status_code s (drop (i + 4) bytes) eos in
      Ok {| hr_status_code := status_code; hr_reason := reason; hr_headers := sc_headers s; hr_body := body |}
  end.
Proof.
  unfold decode_response. destruct (find_sequence bytes CRLFCRLF) as [i|] eqn:F; cbn [ok_or]; [|done].
  apply find_sequence_length in F. cbn in F. destruct (_ <? _); [done |].
  rewrite slice_in by lia. rewrite Nat.sub_0_r, drop_0. destruct (decode_head _) as [[[c r] s]| |]; [|done|done].
  by rewrite slice_rest by lia.
Qed.

Lemma decode_body_no_panic status s p eos : slice_len_ok p -> decode_body status s p eos <> Panic.
Proof.
  intros Hl. unfold decode_body. destruct (response_has_no_body status); [by destruct (negb _) |].
  destruct (sc_chunked s); [by apply chunked_loop_no_panic; [| | lia] |].
  destruct (sc_content_length s) as [n|]; repeat step_result.
Qed.

Lemma decode_response_no_panic bytes eos : slice_len_ok bytes -> decode_response bytes eos <> Panic.
Proof.
  intros Hl. rewrite decode_response_head. destruct (find_sequence bytes CRLFCRLF) as [i|]; [|done].
  destruct (_ <? _); [done |]. pose proof (decode_head_no_panic (take i bytes)).
  destruct (decode_head _) as [[[c r] s]| |]; [|done|done].
  pose proof (decode_body_no_panic c s (drop (i + 4) bytes) eos (slice_len_ok_drop _ _ Hl)).
  by destruct (decode_body _ _ _ _).
Qed.

(** ** What a head says *)

(** A header as it is stored: a lower-case token and a value without control characters. *)
Definition header_wf (h : list Z * list Z) : Prop :=
  fst h <> [] /\ Forall (fun c => token_char c = true) (fst h) /\ lowercase (fst h) = fst h /\
  Forall (fun c => (32 <= c \/ c = 9) /\ c <> 127) (snd h).

(** The framing headers of a response agree with what was scanned: all [content-length] values are the
    same number within the body limit, and there is at most one transfer encoding, [chunked]. *)
Record scan_ok (s : HeadScan) : Prop := {
  so_count : Z.of_nat (length (sc_headers s)) <= MAX_HEADER_COUNT;
  so_wf : Forall header_wf (sc_headers s);
  so_length : forall v, (text "content-length", v) ∈ sc_headers s ->
    exists n, parse_usize v = Some n /\ sc_content_length s = Some n;
  so_length_range : forall n, sc_content_length s = Some n ->
    0 <= n <= MAX_BODY_BYTES /\ exists v, (text "content-length", v) ∈ sc_headers s;
  so_chunked : sc_chunked s = true <-> exists v, (text "transfer-encoding", v) ∈ sc_headers s;
  so_encoding : forall v, (text "transfer-encoding", v) ∈ sc_headers s -> lowercase v = text "chunked" }.

Lemma token_lowercase_check :
  forallb (fun c => implb (token_char c) (token_char (to_ascii_lowercase c))) (map Z.of_nat (List.seq 0 256)) = true.
Proof. vm_compute. reflexivity. Qed.

Lemma token_char_ascii c : token_char c = true -> 0 <= c < 256.
Proof.
  unfold token_char. intros [H|H]%orb_true_iff.
  - unfold is_ascii_alphanumeric, is_ascii_digit, is_ascii_uppercase, is_ascii_lowercase in H.
    repeat (apply orb_true_iff in H as [H|H]); bool_cases; lia.
  - apply contains_char_true in H. revert c H. apply Forall_forall. unfold text. cbn. repeat constructor; lia.
Qed.

Lemma token_char_lower c : token_char c = true -> token_char (to_ascii_lowercase c) = true.
Proof.
  intros H. pose proof (bytes_by_cases _ token_lowercase_check c (token_char_ascii _ H)) as Hc.
  cbv beta in Hc. by rewrite H in Hc.
Qed.

Lemma lowercase_idem s : lowercase (lowercase s) = lowercase s.
Proof. apply map_lowercase_fixed, map_lowercase_lower. Qed.

Lemma parse_header_ok line name value :
  parse_header line = Ok (name, value) -> header_wf (lowercase name, value).
Proof.
  unfold parse_header. destruct (split_once COLON line) as [[n v]|]; cbn [ok_or]; [|done].
  destruct (bool_decide_reflect (n = [])) as [|Hn]; [done |]. cbn [orb].
  destruct (forallb token_char n) eqn:Ht; [|done]. cbn [negb]. cbv zeta.
  destruct (existsb _ (trim_matches _ v)) eqn:He; [done |]. intros [= <- <-].
  split_and!; cbn.
  - by destruct n.
  - apply Forall_map. rewrite forallb_forall in Ht. apply Forall_forall. intros c Hc%list_elem_of_In.
    by apply token_char_lower, Ht.
  - apply lowercase_idem.
  - apply Forall_forall. intros c Hc. rewrite existsb_none in He. specialize (He c Hc).
    apply orb_false_iff in He as [He ?]. apply andb_false_iff in He as [?|?]; bool_cases; split; auto.
Qed.

Lemma eq_ignore_lower name k :
  lowercase k = k -> eq_ignore_ascii_case name k = true <-> lowercase name = k.
Proof. intros Hk. unfold eq_ignore_ascii_case. by rewrite bool_decide_eq_true, Hk. Qed.

Lemma eq_ignore_lower_false name k :
  lowercase k = k -> eq_ignore_ascii_case name k = false -> lowercase name <> k.
Proof. intros Hk H Heq. apply (eq_ignore_lower _ _ Hk) in Heq. congruence. Qed.

Lemma header_line_scan_ok s line s' : scan_ok s -> header_line s line = Ok s' -> scan_ok s'.
Proof.
  intros Hok. unfold header_line. destruct (_ <? _); [done |].
  destruct (Z.leb_spec MAX_HEADER_COUNT (Z.of_nat (length (sc_headers s)))); [done |].
  destruct (parse_header line) as [[name value]| |] eqn:Hp; [|done|done]. apply parse_header_ok in Hp.
  assert (lowercase (text "content-length") = text "content-length") as Hcl by reflexivity.
  assert (lowercase (text "transfer-encoding") = text "transfer-encoding") as Hte by reflexivity.
  assert (text "content-length" <> text "transfer-encoding") as Hne by done.
  destruct (if eq_ignore_ascii_case name (text "content-length") then _ else _) as [cl| |] eqn:E1; [|done|done].
  destruct (if eq_ignore_ascii_case name (text "transfer-encoding") then _ else _) as [te| |] eqn:E2; [|done|done].
  intros [= <-]. destruct Hok as [H1 H2 H3 H4 H5 H6].
  assert ((lowercase name = text "content-length" /\ exists n, parse_usize value = Some n /\ cl = Some n /\
             0 <= n <= MAX_BODY_BYTES /\ (forall m, sc_content_length s = Some m -> m = n)) \/
          (lowercase name <> text "content-length" /\ cl = sc_content_length s)) as HC.
  { destruct (eq_ignore_ascii_case name _) eqn:E; [left | right; split; [by eapply eq_ignore_lower_false | congruence]].
    split; [by apply eq_ignore_lower |]. destruct (parse_usize value) as [n|] eqn:Hn; cbn [ok_or] in E1; [|done].
    destruct (Z.ltb_spec MAX_BODY_BYTES n); [done |]. apply from_str_radix_range in Hn as Hr; [|done|done].
    exists n. destruct (sc_content_length s) as [m|].
    - destruct (Z.eqb_spec m n) as [->|]; cbn in E1; [|done]. simplify_eq. split_and!; (done || lia || naive_solver).
    - simplify_eq. split_and!; (done || lia || naive_solver). }
  assert ((lowercase name = text "transfer-encoding" /\ te = true /\ lowercase value = text "chunked") \/
          (lowercase name <> text "transfer-encoding" /\ te = sc_chunked s)) as HT.
  { destruct (eq_ignore_ascii_case name (text "transfer-encoding")) eqn:E; [left | right; split; [by eapply eq_ignore_lower_false | congruence]].
    split; [by apply eq_ignore_lower |]. destruct (eq_ignore_ascii_case value (text "chunked")) eqn:Ev; cbn in E2; [|done].
    destruct (sc_chunked s); [done |]. simplify_eq. split; [done |]. by apply eq_ignore_lower in Ev. }
  clear E1 E2. split; cbn [sc_headers sc_content_length sc_chunked].
  - rewrite length_app. cbn. lia.
  - apply Forall_app. split; [done | by apply Forall_singleton].
  - intros v [Hv|Hv%list_elem_of_singleton]%elem_of_app.
    + destruct (H3 v Hv) as (n & Hn & Hs). destruct HC as [(_ & m & _ & -> & _ & Hm)|[_ ->]]; [|eauto].
      exists n. split; [done |]. f_equal. symmetry. by apply Hm.
    + injection Hv as Hv ->. destruct HC as [(_ & m & Hm & -> & _)|[Hno _]]; [eauto | by rewrite <- Hv in Hno].
  - intros n ->. destruct HC as [(Hn & m & _ & [= <-] & Hr & _)|[_ Hs]].
    + split; [done |]. exists value. rewrite Hn. set_solver.
    + symmetry in Hs. destruct (H4 n Hs) as (? & v & ?). split; [done |]. exists v. set_solver.
  - destruct HT as [(Hn & -> & _)|[Hn ->]].
    + split; [|done]. intros _. exists value. rewrite Hn. set_solver.
    + rewrite H5. split; intros [v Hv]; exists v; [set_solver |].
      apply elem_of_app in Hv as [?|Hv%list_elem_of_singleton]; [done | by simplify_eq].
  - intros v [Hv|Hv%list_elem_of_singleton]%elem_of_app; [by apply H6 |]. injection Hv as Hv ->.
    destruct HT as [(_ & _ & ?)|[Hn _]]; [done | by rewrite <- Hv in Hn].
Qed.

Lemma header_lines_scan_ok ls : forall s s', scan_ok s -> header_lines s ls = Ok s' -> scan_ok s'.
Proof.
  induction ls as [|l ls IH]; intros s s' Hs; cbn [header_lines]; [by intros [= <-] |].
  destruct (header_line s l) as [s1| |] eqn:E; [|done|done]. apply IH. by eapply header_line_scan_ok.
Qed.

Lemma scan_ok_start : scan_ok {| sc_headers := []; sc_content_length := None; sc_chunked := false |}.
Proof. split; cbn; [done | constructor | set_solver | done | | set_solver]. split; [done |]. intros [v ?]. set_solver. Qed.

Lemma parse_status_line_ok line c r : parse_status_line line = Ok (c, r) -> 100 <= c <= 599.
Proof.
  unfold parse_status_line. destruct (_ <? _); [done |]. cbv zeta. destruct (negb _); [done |].
  destruct (_ !! 1%nat) as [w|]; cbn [ok_or]; [|done]. destruct (_ || _); [done |].
  destruct (parse_u16 w) as [v|]; cbn [ok_or]; [|done]. destruct (negb _) eqn:E; [done |].
  destruct (existsb _ _); [done |]. intros [= <- <-]. bool_cases. lia.
Qed.

Lemma decode_head_ok h c r s :
  decode_head h = Ok (c, r, s) ->
  100 <= c <= 599 /\ scan_ok s /\ (sc_chunked s = true -> sc_content_length s = None).
Proof.
  unfold decode_head. destruct (negb _); [done |]. destruct (split_crlf h) as [|l ls]; [done |].
  destruct (parse_status_line l) as [[c' r']| |] eqn:E; [|done|done]. apply parse_status_line_ok in E.
  destruct (header_lines _ ls) as [s'| |] eqn:Eh; [|done|done]. apply header_lines_scan_ok in Eh; [|apply scan_ok_start].
  destruct (sc_chunked s' && _) eqn:Ef; [done |]. intros [= <- <- <-]. split_and!; try done; try lia.
  intros Hc. rewrite Hc in Ef. cbn in Ef. bool_cases. done.
Qed.

(** How the body of a response is delimited. *)
Inductive framed (status : Z) (s : HeadScan) (end_of_stream : bool) (payload : list Z) : list Z -> Prop :=
  | framed_none : response_has_no_body status = true -> payload = [] -> framed status s end_of_stream payload []
  | framed_chunked body : response_has_no_body status = false -> sc_chunked s = true -> chunked payload body ->
      framed status s end_of_stream payload body
  | framed_length : response_has_no_body status = false -> sc_chunked s = false ->
      sc_content_length s = Some (len payload) -> framed status s end_of_stream payload payload
  | framed_close : response_has_no_body status = false -> sc_chunked s = false -> sc_content_length s = None ->
      end_of_stream = true -> framed status s end_of_stream payload payload.

Lemma decode_body_ok status s p eos body :
  scan_ok s -> slice_len_ok p ->
  decode_body status s p eos = Ok body <-> framed status s eos p body /\ len body <= MAX_BODY_BYTES.
Proof.
  intros Hs Hl. unfold decode_body. destruct (response_has_no_body status) eqn:En.
  { case_bool_decide as Hp; cbn [negb].
    - split; [intros [= <-]; split; [by constructor | done] |]. intros [H _]. by inversion H; simplify_eq; congruence.
    - split; [done |]. intros [H _]. by inversion H; congruence. }
  destruct (sc_chunked s) eqn:Ec.
  { rewrite decode_chunked_ok by done. split; intros [H ?]; (split; [|done]); [by constructor |].
    inversion H; congruence. }
  destruct (sc_content_length s) as [n|] eqn:El.
  - destruct (so_length_range _ Hs n El) as [Hn _]. destruct (Z.ltb_spec (len p) n).
    { split; [done |]. intros [H' _]. inversion H'; simplify_eq; try congruence. lia. }
    destruct (Z.eqb_spec (len p) n) as [<-|Hne]; cbn [negb].
    + split; [intros [= <-]; split; [by constructor | lia] |]. intros [H' _]. inversion H'; congruence.
    + split; [done |]. intros [H' _]. inversion H'; simplify_eq; congruence.
  - destruct eos; cbn [negb].
    + destruct (Z.ltb_spec MAX_BODY_BYTES (len p)).
      * split; [done |]. intros [H' ?]. inversion H'; simplify_eq; try congruence; lia.
      * split; [intros [= <-]; split; [by constructor | done] |]. intros [H' _]. inversion H'; congruence.
    + split; [done |]. intros [H' _]. inversion H'; congruence.
Qed.

(** ** Theorems *)



(** A response can be decoded while it arrives: no prefix of an accepted response is accepted or
    rejected, it is [Incomplete]; and any other answer than [Incomplete] does not depend on whether the stream has
    ended. *)
Theorem response_incremental bytes more end_of_stream (Hlen : slice_len_ok (bytes ++ more)) :
  (forall r, more <> [] -> decode_response (bytes ++ more) end_of_stream = Ok r ->
     decode_response bytes false = Err Incomplete) /\
  (decode_response bytes false <> Err Incomplete ->
     decode_response bytes end_of_stream = decode_response bytes false).
Proof.
  assert (slice_len_ok bytes) as Hl by (unfold slice_len_ok, len in *; rewrite length_app in Hlen; lia).
  split.
  - intros r Hm. rewrite !decode_response_head. destruct (find_sequence bytes CRLFCRLF) as [i|] eqn:F.
    + apply find_sequence_length in F as Hle. cbn in Hle. rewrite (find_sequence_app _ _ _ more F).
      destruct (_ <? _); [done |]. rewrite take_app_le, drop_app_le by lia.
      destruct (decode_head (take i bytes)) as [[[c rs] s]| |]; [|done|done].
      destruct (decode_body c s _ end_of_stream) as [b| |] eqn:E; [|done|done]. intros _.
      apply decode_body_prefix in E; [by rewrite E | | done].
      rewrite <- drop_app_le by lia. by apply slice_len_ok_drop.
    + destruct (find_sequence (bytes ++ more) CRLFCRLF) as [i|] eqn:G; [|done].
      apply find_sequence_late in G; [|done|done]. cbn in G.
      destruct (Z.ltb_spec MAX_HEADER_BYTES (Z.of_nat (i + 4))); [done |]. intros _.
      unfold len. by rewrite (proj2 (Z.ltb_ge _ _)) by lia.
  - rewrite !decode_response_head. destruct (find_sequence bytes CRLFCRLF) as [i|].
    + destruct (_ <? _); [done |]. destruct (decode_head _) as [[[c rs] s]| |]; [|done|done]. intros H.
      rewrite (decode_body_eos c s (drop (i + 4) bytes) end_of_stream); [done | by apply slice_len_ok_drop |].
      intros E. by rewrite E in H.
    + by destruct (_ <? _).
Qed.

Lemma response_incremental_witness :
  decode_response (text "HTTP/1.1 200 OK" ++ CRLF ++ text "Content-Length: 2" ++ CRLFCRLF ++ text "o") false = Err Incomplete.
Proof.
  eapply (proj1 (response_incremental
    (text "HTTP/1.1 200 OK" ++ CRLF ++ text "Content-Length: 2" ++ CRLFCRLF ++ text "o") (text "k") false
    ltac:(unfold slice_len_ok; vm_compute; discriminate))); [discriminate | vm_compute; reflexivity].
Defined.

(** Decoding a response never panics.  What it accepts is a head of at most 16 KiB up to the first empty line, with a
    status from 100 to 599 and at most 64 well-formed headers, in which all content lengths agree and exclude
    chunked coding; and the body is the one its framing delimits, within 4 MiB. *)
Theorem http_response_sound bytes end_of_stream (Hlen : slice_len_ok bytes) :
  decode_response bytes end_of_stream <> Panic /\
  forall r, decode_response bytes end_of_stream = Ok r ->
  exists head payload s,
    bytes = head ++ CRLFCRLF ++ payload /\ len head + 4 <= MAX_HEADER_BYTES /\
    decode_head head = Ok (hr_status_code r, hr_reason r, s) /\ hr_headers r = sc_headers s /\
    100 <= hr_status_code r <= 599 /\ scan_ok s /\ (sc_chunked s = true -> sc_content_length s = None) /\
    framed (hr_status_code r) s end_of_stream payload (hr_body r) /\ len (hr_body r) <= MAX_BODY_BYTES.
Proof.
  split; [by apply decode_response_no_panic |]. intros r. rewrite decode_response_head.
  destruct (find_sequence bytes CRLFCRLF) as [i|] eqn:F; [|done].
  destruct (Z.ltb_spec MAX_HEADER_BYTES (Z.of_nat (i + 4))); [done |].
  apply find_sequence_Some in F as (head & payload & -> & <-). rewrite take_app_length.
  rewrite <- drop_drop, drop_app_length. change (drop 4 (CRLFCRLF ++ payload)) with payload.
  destruct (decode_head head) as [[[c rs] s]| |] eqn:Eh; [|done|done]. apply decode_head_ok in Eh as Hh.
  destruct Hh as (Hc & Hs & Hx). destruct (decode_body c s payload end_of_stream) as [body| |] eqn:Eb; [|done|done].
  intros [= <-]. cbn. apply decode_body_ok in Eb as [Hf Hb]; [|done|].
  - exists head, payload, s. split_and!; try done; unfold len; lia.
  - unfold slice_len_ok, len in *. rewrite !length_app in Hlen. lia.
Qed.

Lemma http_response_sound_witness :
  exists r, decode_response (text "HTTP/1.1 200 OK" ++ CRLF ++ text "Content-Length: 2" ++ CRLFCRLF ++ text "ok") true = Ok r /\
  100 <= hr_status_code r <= 599.
Proof.
  eexists. split; [vm_compute; reflexivity |].
  destruct (proj2 (http_response_sound
    (text "HTTP/1.1 200 OK" ++ CRLF ++ text "Content-Length: 2" ++ CRLFCRLF ++ text "ok") true
    ltac:(unfold slice_len_ok; vm_compute; discriminate)) _ ltac:(vm_compute; reflexivity)) as (h & p & s & _ & _ & _ & _ & H & _).
  exact H.
Defined.

(** The integer parsers accept a sign, so sizes and lengths may carry one. *)
Lemma chunk_size_plus_sign :
  decode_chunked (text "+2" ++ CRLF ++ text "ok" ++ CRLF ++ text "+0" ++ CRLFCRLF) true = Ok (text "ok").
Proof. vm_compute. reflexivity. Qed.
