(* ===== verification/HttpStream.v ===== *)
(** * Streaming responses ([StreamingResponseDecoder] of [http-client/src/response.rs])

    The sink is a function on a state [S] of the caller's; [None] is its [Ok(())]. *)

From Stdlib Require Import String.
From S2P Require Import Prelude Text HttpUrl HttpResponse.

(** ** The code *)

Record StreamHead : Type := {
  sh_status_code : Z;
  sh_headers : list (list Z * list Z);
  sh_content_length : Z }.

Definition StreamHead_header (self : StreamHead) (name : list Z) : option (list Z) := find_header (sh_headers self) name.

Inductive StreamError (E : Type) : Type :=
  | Protocol (e : HttpError)
  | Sink (e : E).
Arguments Protocol {E} e.
Arguments Sink {E} e.

Record StreamingResponseDecoder : Type := {
  sd_header_bytes : list Z;
  sd_head : option StreamHead;
  sd_remaining : Z;
  sd_failed : bool }.

Definition StreamingResponseDecoder_new : StreamingResponseDecoder :=
  {| sd_header_bytes := []; sd_head := None; sd_remaining := 0; sd_failed := false |}.

Definition is_complete (self : StreamingResponseDecoder) : bool :=
  negb (sd_failed self) && negb (match sd_head self with Some _ => false | None => true end) && (sd_remaining self =? 0).

(** The body of the loop of [parse_stream_head]. *)
Definition stream_line (headers : list (list Z * list Z)) (content_length : option Z) (line : list Z)
    : result HttpError (list (list Z * list Z) * option Z) :=
  if MAX_HEADER_LINE_LEN <? len line then Err HeadersTooLarge else
  if MAX_HEADER_COUNT <=? Z.of_nat (length headers) then Err TooManyHeaders else
  let? (name, value) := parse_header line in
  if eq_ignore_ascii_case name (text "transfer-encoding") then Err UnsupportedTransferEncoding else
  if eq_ignore_ascii_case name (text "content-encoding") && negb (eq_ignore_ascii_case value (text "identity"))
  then Err UnsupportedContentEncoding else
  let? content_length :=
    (if eq_ignore_ascii_case name (text "content-length") then
       let? length := ok_or (parse_u64 value) ConflictingContentLength in
       if match content_length with Some previous => negb (previous =? length) | None => false end
       then Err ConflictingContentLength else Ok (Some length)
     else Ok content_length) in
  Ok (headers ++ [(lowercase name, value)], content_length).

Fixpoint stream_lines (headers : list (list Z * list Z)) (content_length : option Z) (lines : list (list Z))
    : result HttpError (list (list Z * list Z) * option Z) :=
  match lines with
  | [] => Ok (headers, content_length)
  | line :: lines =>
      let? (headers, content_length) := stream_line headers content_length line in
      stream_lines headers content_length lines
  end.

Definition is_redirect (status_code : Z) : bool :=
  existsb (Z.eqb status_code) [301; 302; 303; 307; 308].

Definition parse_stream_head (bytes : list Z) : result HttpError StreamHead :=
  let? head := ok_or (strip_suffix CRLFCRLF bytes) Incomplete in
  if negb (from_utf8 head) then Err InvalidResponseHeader else
  match split_crlf head with
  | [] => Err InvalidStatusLine
  | status_line :: lines =>
      let? (status_code, _) := parse_status_line status_line in
      if is_redirect status_code then Err RedirectUnsupported else
      if negb (status_code =? 200) then Err UnexpectedStatus else
      let? (headers, content_length) := stream_lines [] None lines in
      let? content_length :=
        (if response_has_no_body status_code then
           if match content_length with Some length => negb (length =? 0) | None => false end
           then Err ConflictingContentLength else Ok 0
         else ok_or content_length ConflictingContentLength) in
      Ok {| sh_status_code := status_code; sh_headers := headers; sh_content_length := content_length |}
  end.

Definition set_header_bytes (self : StreamingResponseDecoder) (bytes : list Z) : StreamingResponseDecoder :=
  {| sd_header_bytes := bytes; sd_head := sd_head self; sd_remaining := sd_remaining self; sd_failed := sd_failed self |}.
Definition set_remaining (self : StreamingResponseDecoder) (remaining : Z) : StreamingResponseDecoder :=
  {| sd_header_bytes := sd_header_bytes self; sd_head := sd_head self; sd_remaining := remaining; sd_failed := sd_failed self |}.
Definition set_failed (self : StreamingResponseDecoder) : StreamingResponseDecoder :=
  {| sd_header_bytes := sd_header_bytes self; sd_head := sd_head self; sd_remaining := sd_remaining self; sd_failed := true |}.

(** The loop of [feed_inner] over the bytes of the head; the result is what is left of the input. *)
Fixpoint read_head (self : StreamingResponseDecoder) (bytes : list Z)
    : StreamingResponseDecoder * result HttpError (list Z) :=
  match bytes with
  | [] => (self, Ok [])
  | byte :: rest =>
      if len (sd_header_bytes self) =? MAX_HEADER_BYTES then (self, Err HeadersTooLarge) else
      let self := set_header_bytes self (sd_header_bytes self ++ [byte]) in
      if ends_with CRLFCRLF (sd_header_bytes self) then
        match parse_stream_head (sd_header_bytes self) with
        | Ok head =>
            ({| sd_header_bytes := []; sd_head := Some head; sd_remaining := sh_content_length head;
                sd_failed := sd_failed self |}, Ok rest)
        | Err e => (self, Err e)
        | Panic => (self, Panic)
        end
      else read_head self rest
  end.

Section Feed.
Context {S E : Type} (sink : S -> list Z -> S * option E).

Definition deliver (self : StreamingResponseDecoder) (bytes : list Z) (s : S)
    : StreamingResponseDecoder * S * result (StreamError E) unit :=
  match sd_head self with
  | None => (self, s, Ok tt)
  | Some _ =>
      if bool_decide (bytes = []) then (self, s, Ok tt) else
      if sd_remaining self <? len bytes then (self, s, Err (Protocol TrailingData)) else
      match sink s bytes with
      | (s, None) => (set_remaining self (sd_remaining self - len bytes), s, Ok tt)
      | (s, Some e) => (self, s, Err (Sink e))
      end
  end.

Definition feed_inner (self : StreamingResponseDecoder) (bytes : list Z) (s : S)
    : StreamingResponseDecoder * S * result (StreamError E) unit :=
  match sd_head self with
  | Some _ => deliver self bytes s
  | None =>
      match read_head self bytes with
      | (self, Ok bytes) => deliver self bytes s
      | (self, Err e) => (self, s, Err (Protocol e))
      | (self, Panic) => (self, s, Panic)
      end
  end.

Definition feed (self : StreamingResponseDecoder) (bytes : list Z) (s : S)
    : StreamingResponseDecoder * S * result (StreamError E) unit :=
  if sd_failed self then (self, s, Err (Protocol StreamPoisoned)) else
  match feed_inner self bytes s with
  | (self, s, Err e) => (set_failed self, s, Err e)
  | r => r
  end.

(** Feeding a sequence of pieces, whatever each call answers. *)
Fixpoint feed_all (self : StreamingResponseDecoder) (s : S) (pieces : list (list Z))
    : StreamingResponseDecoder * S * list (result (StreamError E) unit) :=
  match pieces with
  | [] => (self, s, [])
  | p :: pieces =>
      let '(self, s, r) := feed self p s in
      let '(self, s, rs) := feed_all self s pieces in (self, s, r :: rs)
  end.

End Feed.

Definition finish (self : StreamingResponseDecoder) : StreamingResponseDecoder * result HttpError unit :=
  if sd_failed self then (self, Err StreamPoisoned)
  else if is_complete self then (self, Ok tt)
  else (set_failed self, Err UnexpectedEnd).

(** ** The reference: what the whole input means *)

Definition stream_spec (input : list Z) : result HttpError (option StreamHead * list Z) :=
  match find_sequence input CRLFCRLF with
  | None => if MAX_HEADER_BYTES <? len input then Err HeadersTooLarge else Ok (None, [])
  | Some i =>
      if MAX_HEADER_BYTES <? Z.of_nat (i + 4) then Err HeadersTooLarge else
      let? head := parse_stream_head (take (i + 4) input) in
      let data := drop (i + 4) input in
      if sh_content_length head <? len data then Err TrailingData else Ok (Some head, data)
  end.

Lemma stream_line_no_panic h c l : stream_line h c l <> Panic.
Proof. unfold stream_line. repeat step_result. Qed.
#[export] Hint Resolve stream_line_no_panic : nopanic.

Lemma stream_lines_no_panic ls h c : stream_lines h c ls <> Panic.
Proof. revert h c. induction ls as [|l ls IH]; intros h c; cbn [stream_lines]; repeat step_result. apply IH. Qed.
#[export] Hint Resolve stream_lines_no_panic : nopanic.

Lemma parse_stream_head_no_panic b : parse_stream_head b <> Panic.
Proof. unfold parse_stream_head. repeat step_result. destruct (split_crlf _); repeat step_result. Qed.
#[export] Hint Resolve parse_stream_head_no_panic : nopanic.

Lemma stream_line_range h c l h' c' :
  (forall n, c = Some n -> 0 <= n) -> stream_line h c l = Ok (h', c') -> forall n, c' = Some n -> 0 <= n.
Proof.
  intros Hc. unfold stream_line. destruct (_ <? _); [done |]. destruct (_ <=? _); [done |].
  destruct (parse_header l) as [[name value]| |]; [|done|done]. destruct (eq_ignore_ascii_case name _); [done |].
  destruct (_ && _); [done |]. destruct (eq_ignore_ascii_case name _).
  - destruct (parse_u64 value) as [z|] eqn:Ez; cbn [ok_or]; [|done]. apply from_str_radix_range in Ez; [|done|done].
    destruct (match c with Some _ => _ | None => _ end); [done |]. intros [= _ <-] n [= <-]. lia.
  - intros [= _ <-]. done.
Qed.

Lemma stream_lines_range ls : forall h c h' c',
  (forall n, c = Some n -> 0 <= n) -> stream_lines h c ls = Ok (h', c') -> forall n, c' = Some n -> 0 <= n.
Proof.
  induction ls as [|l ls IH]; intros h c h' c' Hc; cbn [stream_lines]; [by intros [= _ <-] |].
  destruct (stream_line h c l) as [[h1 c1]| |] eqn:E; [|done|done]. apply IH. by eapply stream_line_range.
Qed.

Lemma parse_stream_head_ok b h :
  parse_stream_head b = Ok h -> sh_status_code h = 200 /\ 0 <= sh_content_length h.
Proof.
  unfold parse_stream_head. destruct (strip_suffix _ _) as [hb|]; cbn [ok_or]; [|done]. destruct (negb _); [done |].
  destruct (split_crlf _) as [|l ls]; [done |]. destruct (parse_status_line l) as [[c r]| |]; [|done|done].
  destruct (is_redirect c); [done |]. destruct (Z.eqb_spec c 200) as [->|]; cbn [negb]; [|done].
  destruct (stream_lines [] None ls) as [[hs cl]| |] eqn:E; [|done|done].
  assert (forall n, cl = Some n -> 0 <= n) as Hr by (eapply stream_lines_range; [|exact E]; done).
  change (response_has_no_body 200) with false. cbv iota.
  destruct cl as [n|]; cbn [ok_or]; [|done]. intros [= <-]. cbn. auto.
Qed.

(** ** One byte more *)

Lemma find_sequence_exists a n b : n <> [] -> find_sequence (a ++ n ++ b) n <> None.
Proof.
  intros Hn. induction a as [|x a IH]; cbn [app].
  - destruct n as [|y n]; [done |]. cbn [app find_sequence].
    by rewrite (proj2 (starts_with_spec (y :: n) (y :: n ++ b)) ltac:(by exists b)).
  - cbn [find_sequence]. destruct (starts_with n _); [done |]. by destruct (find_sequence (a ++ n ++ b) n).
Qed.

Lemma find_sequence_snoc x n c :
  n <> [] -> find_sequence x n = None ->
  find_sequence (x ++ [c]) n =
  if ends_with n (x ++ [c]) then Some (length (x ++ [c]) - length n)%nat else None.
Proof.
  intros Hn Hx. destruct (find_sequence (x ++ [c]) n) as [j|] eqn:E.
  - pose proof (find_sequence_late _ _ _ _ Hn Hx E) as Hj. pose proof (find_sequence_length _ _ _ E) as Hl.
    apply find_sequence_Some in E as (a & b & E & <-). rewrite E in Hl |- *.
    rewrite length_app in *. apply (f_equal length) in E as El. rewrite !length_app in *. cbn in El.
    assert (b = []) as ->. { destruct b; [done | cbn in *; lia]. }
    rewrite app_nil_r in *. rewrite (proj2 (ends_with_spec _ _)) by eauto. cbn in *. f_equal. lia.
  - destruct (ends_with n (x ++ [c])) eqn:Ee; [|done]. apply ends_with_spec in Ee as [t Ht]. rewrite Ht in E.
    rewrite <- (app_nil_r n) in E at 1. by apply find_sequence_exists in E.
Qed.

(** ** Simulation *)

Lemma stream_spec_mono x y e : stream_spec x = Err e -> stream_spec (x ++ y) = Err e.
Proof.
  unfold stream_spec. destruct (find_sequence x CRLFCRLF) as [i|] eqn:F.
  - apply find_sequence_length in F as Hl. cbn in Hl. rewrite (find_sequence_app _ _ _ y F).
    destruct (_ <? _); [done |]. rewrite take_app_le, drop_app_le by lia.
    destruct (parse_stream_head _) as [h| |]; [|done|done].
    destruct (Z.ltb_spec (sh_content_length h) (len (drop (i + 4) x))); [|done]. intros [= <-].
    unfold len in *. rewrite length_app. by rewrite (proj2 (Z.ltb_lt _ _)) by lia.
  - destruct (Z.ltb_spec MAX_HEADER_BYTES (len x)) as [Hx|]; [|done]. intros [= <-].
    destruct (find_sequence (x ++ y) CRLFCRLF) as [i|] eqn:G.
    + apply find_sequence_late in G; [|done|done]. cbn in G. unfold len in Hx. by rewrite (proj2 (Z.ltb_lt _ _)) by lia.
    + unfold len in *. rewrite length_app. by rewrite (proj2 (Z.ltb_lt _ _)) by lia.
Qed.

(** What [read_head] does with [b] when it has seen [x]. *)
Definition head_read (x b : list Z) (d : StreamingResponseDecoder) (out : StreamingResponseDecoder * result HttpError (list Z)) : Prop :=
  match out with
  | (d', Ok rest) =>
      (find_sequence (x ++ b) CRLFCRLF = None /\ len (x ++ b) <= MAX_HEADER_BYTES /\
       d' = set_header_bytes d (x ++ b) /\ rest = []) \/
      (exists i h, find_sequence (x ++ b) CRLFCRLF = Some i /\ Z.of_nat (i + 4) <= MAX_HEADER_BYTES /\
       parse_stream_head (take (i + 4) (x ++ b)) = Ok h /\ rest = drop (i + 4) (x ++ b) /\
       d' = {| sd_header_bytes := []; sd_head := Some h; sd_remaining := sh_content_length h; sd_failed := sd_failed d |})
  | (d', Err e) => stream_spec (x ++ b) = Err e
  | (_, Panic) => False
  end.

Lemma read_head_spec b : forall x d,
  sd_header_bytes d = x -> find_sequence x CRLFCRLF = None -> len x <= MAX_HEADER_BYTES ->
  head_read x b d (read_head d b).
Proof.
  induction b as [|c b IH]; intros x d Hx Hf Hl; cbn [read_head].
  { left. rewrite app_nil_r. split_and!; [done | done | by destruct d; cbn in *; subst | done]. }
  rewrite Hx. unfold head_read. replace (x ++ c :: b) with ((x ++ [c]) ++ b) by (by rewrite <- app_assoc).
  pose proof (find_sequence_snoc x CRLFCRLF c ltac:(done) Hf) as Hs.
  destruct (Z.eqb_spec (len x) MAX_HEADER_BYTES) as [Heq|Hne].
  { apply stream_spec_mono. unfold stream_spec. rewrite Hs. unfold len in Heq. destruct (ends_with _ _) eqn:Ee.
    - apply ends_with_spec in Ee as [t Et]. apply (f_equal length) in Et. rewrite !length_app in Et |- *. cbn in Et |- *.
      by rewrite (proj2 (Z.ltb_lt _ _)) by lia.
    - unfold len. rewrite length_app. cbn. by rewrite (proj2 (Z.ltb_lt _ _)) by lia. }
  cbv zeta. cbn [sd_header_bytes set_header_bytes].
  destruct (ends_with CRLFCRLF (x ++ [c])) eqn:Ee.
  - assert (length (x ++ [c]) - 4 + 4 = length (x ++ [c]))%nat as Hlen.
    { apply ends_with_spec in Ee as [t ->]. rewrite !length_app. cbn. lia. }
    assert (Z.of_nat (length (x ++ [c])) <= MAX_HEADER_BYTES) as Hmax by (rewrite length_app; unfold len in *; cbn; lia).
    change (length CRLFCRLF) with 4%nat in Hs. destruct (parse_stream_head (x ++ [c])) as [h|e|] eqn:Ep.
    + right. exists (length (x ++ [c]) - 4)%nat, h. rewrite Hlen, take_app_length, drop_app_length.
      rewrite (find_sequence_app _ _ _ _ Hs). split_and!; done.
    + apply stream_spec_mono. unfold stream_spec. rewrite Hs, Hlen, take_ge, Ep by lia.
      by rewrite (proj2 (Z.ltb_ge _ _)) by lia.
    + by apply (parse_stream_head_no_panic (x ++ [c])).
  - specialize (IH (x ++ [c]) (set_header_bytes d (x ++ [c])) eq_refl Hs).
    unfold head_read in IH. apply IH. unfold len in *. rewrite length_app. cbn. lia.
Qed.

(** A sink that keeps what it is given and may refuse. *)
Definition recording {E} (fails : list Z -> list Z -> option E) (log bytes : list Z) : list Z * option E :=
  (log ++ bytes, fails log bytes).

(** The decoder has taken in [x] without an error. *)
Definition decoder_at (d : StreamingResponseDecoder) (log x : list Z) : Prop :=
  sd_failed d = false /\ stream_spec x = Ok (sd_head d, log) /\
  match sd_head d with
  | None => sd_header_bytes d = x /\ sd_remaining d = 0
  | Some h => sd_remaining d = sh_content_length h - len log
  end.

Definition fed {E} (fails : list Z -> list Z -> option E) (log x b : list Z)
    (out : StreamingResponseDecoder * list Z * result (StreamError E) unit) : Prop :=
  let '(d', log', r) := out in
  match r with
  | Ok _ => decoder_at d' log' (x ++ b)
  | Err (Protocol e) => stream_spec (x ++ b) = Err e /\ log' = log
  | Err (Sink e) => exists data h, log' = log ++ data /\ fails log data = Some e /\ stream_spec (x ++ b) = Ok (h, log')
  | Panic => False
  end.

Lemma deliver_spec {E} (fails : list Z -> list Z -> option E) d log x b rest h :
  sd_failed d = false -> sd_head d = Some h -> sd_remaining d = sh_content_length h - len log ->
  len log <= sh_content_length h ->
  stream_spec (x ++ b) =
    (if sh_content_length h <? len (log ++ rest) then Err TrailingData else Ok (Some h, log ++ rest)) ->
  fed fails log x b (deliver (recording fails) d rest log).
Proof.
  intros Hf Hh Hr Hl Hs. unfold deliver. rewrite Hh. case_bool_decide as Hn; cbn.
  - subst rest. rewrite app_nil_r in Hs. rewrite (proj2 (Z.ltb_ge _ _)) in Hs by done.
    unfold decoder_at. by rewrite Hh, Hs, Hf, Hr.
  - unfold len in *. rewrite length_app, Nat2Z.inj_add in Hs.
    destruct (Z.ltb_spec (sd_remaining d) (Z.of_nat (length rest))) as [Hlt|Hge]; cbn.
    { rewrite (proj2 (Z.ltb_lt _ _)) in Hs by lia. done. }
    rewrite (proj2 (Z.ltb_ge _ _)) in Hs by lia. destruct (fails log rest) as [e|] eqn:Hfl; cbn.
    + eauto.
    + unfold decoder_at, set_remaining. cbn. rewrite Hf, Hh, Hs. unfold len. rewrite length_app. split_and!; [done | done | lia].
Qed.

Lemma feed_spec {E} (fails : list Z -> list Z -> option E) d log x b :
  decoder_at d log x -> fed fails log x b (feed_inner (recording fails) d b log).
Proof.
  intros (Hf & Hs & Hm). unfold feed_inner. destruct (sd_head d) as [h|] eqn:Hh.
  - unfold stream_spec in Hs. destruct (find_sequence x CRLFCRLF) as [i|] eqn:F; [|by destruct (_ <? _)].
    apply find_sequence_length in F as Hl. cbn in Hl.
    destruct (_ <? Z.of_nat (i + 4)) eqn:Hmax; [done |].
    destruct (parse_stream_head (take (i + 4) x)) as [h'| |] eqn:Ep; [|done|done].
    destruct (Z.ltb_spec (sh_content_length h') (len (drop (i + 4) x))); [done |]. injection Hs as -> <-.
    eapply deliver_spec; try eassumption; try lia.
    unfold stream_spec. rewrite (find_sequence_app _ _ _ b F), Hmax, take_app_le, drop_app_le by lia. by rewrite Ep.
  - destruct Hm as [Hx Hr]. unfold stream_spec in Hs. destruct (find_sequence x CRLFCRLF) as [i|] eqn:F.
    { destruct (_ <? _); [done |]. destruct (parse_stream_head _); [|done|done]. by destruct (_ <? _). }
    destruct (Z.ltb_spec MAX_HEADER_BYTES (len x)); [done |]. injection Hs as <-.
    pose proof (read_head_spec b x d Hx F ltac:(lia)) as Hread. unfold head_read in Hread.
    destruct (read_head d b) as [d' [rest|e|]]; [|by split|done].
    destruct Hread as [(Hn & Hle & -> & ->)|(i & h & Hi & Hle & Hp & -> & ->)].
    + unfold deliver, set_header_bytes. cbn [sd_head]. rewrite Hh. unfold fed, decoder_at.
      cbn [sd_head sd_failed sd_header_bytes sd_remaining]. rewrite Hf, Hr. unfold stream_spec. rewrite Hn.
      by rewrite (proj2 (Z.ltb_ge _ _)) by done.
    + apply parse_stream_head_ok in Hp as Hr'. eapply (deliver_spec fails _ []); try done; unfold len at 1; cbn; [lia | lia |].
      unfold stream_spec. rewrite Hi, Hp. rewrite (proj2 (Z.ltb_ge _ _)) by done. done.
Qed.

Lemma feed_all_failed {E S} (sink : S -> list Z -> S * option E) pieces : forall d s,
  sd_failed d = true ->
  feed_all sink d s pieces = (d, s, map (fun _ => Err (Protocol StreamPoisoned)) pieces).
Proof.
  induction pieces as [|p pieces IH]; intros d s Hd; cbn; [done |]. unfold feed. rewrite Hd. by rewrite IH.
Qed.

(** How feeding a sequence of pieces can end. *)
Inductive fed_all {E} (fails : list Z -> list Z -> option E) (input : list Z) (d : StreamingResponseDecoder) (log : list Z)
    (rs : list (result (StreamError E) unit)) : Prop :=
  | fed_ok : Forall (fun r => r = Ok tt) rs -> decoder_at d log input -> fed_all fails input d log rs
  | fed_protocol oks e later a b h :
      rs = oks ++ Err (Protocol e) :: later -> Forall (fun r => r = Ok tt) oks ->
      Forall (fun r => r = Err (Protocol StreamPoisoned)) later -> sd_failed d = true ->
      stream_spec input = Err e -> input = a ++ b -> stream_spec a = Ok (h, log) -> fed_all fails input d log rs
  | fed_sink oks e later a b h before data :
      rs = oks ++ Err (Sink e) :: later -> Forall (fun r => r = Ok tt) oks ->
      Forall (fun r => r = Err (Protocol StreamPoisoned)) later -> sd_failed d = true ->
      log = before ++ data -> fails before data = Some e ->
      input = a ++ b -> stream_spec a = Ok (h, log) -> fed_all fails input d log rs.

Lemma Forall_poisoned {E} (pieces : list (list Z)) :
  Forall (fun r : result (StreamError E) unit => r = Err (Protocol StreamPoisoned))
    (map (fun _ => Err (Protocol StreamPoisoned)) pieces).
Proof. apply Forall_map, Forall_true. done. Qed.

Lemma feed_all_spec {E} (fails : list Z -> list Z -> option E) pieces : forall d log x,
  decoder_at d log x ->
  let '(d', log', rs) := feed_all (recording fails) d log pieces in
  fed_all fails (x ++ concat pieces) d' log' rs.
Proof.
  induction pieces as [|p pieces IH]; intros d log x Hd; cbn [feed_all concat].
  { rewrite app_nil_r. by apply fed_ok. }
  pose proof (feed_spec fails d log x p Hd) as Hp. destruct (Hd) as (Hf & Hs & _). unfold feed. rewrite Hf.
  destruct (feed_inner (recording fails) d p log) as [[d1 log1] [[]|[e|e]|]]; cbn in Hp; [| | |done].
  - specialize (IH d1 log1 (x ++ p) Hp). destruct (feed_all _ d1 log1 pieces) as [[d' log'] rs].
    rewrite <- app_assoc in IH. destruct IH as [H1 H2 | oks e later a b h -> H2 | oks e later a b h bf dt -> H2].
    + apply fed_ok; [by constructor | done].
    + eapply (fed_protocol _ _ _ _ _ (Ok tt :: oks)); try done. by constructor.
    + eapply (fed_sink _ _ _ _ _ (Ok tt :: oks)); try done. by constructor.
  - destruct Hp as [Hp ->]. rewrite feed_all_failed by done.
    apply (fed_protocol _ _ _ _ _ [] e _ x (p ++ concat pieces) (sd_head d) eq_refl); try done; [apply Forall_poisoned |].
    rewrite app_assoc. by apply stream_spec_mono.
  - destruct Hp as (data & h & -> & Hfl & Hp). rewrite feed_all_failed by done.
    apply (fed_sink _ _ _ _ _ [] e _ (x ++ p) (concat pieces) h log data eq_refl); try done; [apply Forall_poisoned |].
    apply app_assoc.
Qed.

Lemma decoder_at_new : decoder_at StreamingResponseDecoder_new [] [].
Proof. done. Qed.

Lemma finish_at d log x :
  decoder_at d log x ->
  (snd (finish d) = Ok tt <-> exists h, stream_spec x = Ok (Some h, log) /\ len log = sh_content_length h).
Proof.
  intros (Hf & Hs & Hm). unfold finish, is_complete. rewrite Hf, Hs. cbn [negb andb].
  destruct (sd_head d) as [h|]; cbn [negb andb].
  - destruct (Z.eqb_spec (sd_remaining d) 0); cbn; split; try done.
    + intros _. exists h. split; [done | lia].
    + intros (h' & [= <-] & Hl). lia.
  - cbn. split; [done |]. by intros (h & ? & _).
Qed.

(** ** Theorem *)

(** C12: However the bytes of a response are cut into pieces, the streaming decoder computes the meaning of their
    concatenation.  Either every call succeeds and the sink has received exactly the body bytes that arrived; or one call
    reports the error the whole input has, or that of the sink, and every later call is refused as
    poisoned, the sink having received only bytes of the body, never more than announced.  With a
    sink that accepts everything, success depends on the bytes alone; and [finish] succeeds exactly when the
    whole announced body was delivered. *)
Theorem stream_decoder_refines {E} (fails : list Z -> list Z -> option E) pieces d log rs
    (Hrun : feed_all (recording fails) StreamingResponseDecoder_new [] pieces = (d, log, rs)) :
  fed_all fails (concat pieces) d log rs /\
  ((forall a b, fails a b = None) ->
     (Forall (fun r => r = Ok tt) rs <-> exists o, stream_spec (concat pieces) = Ok o)) /\
  (snd (finish d) = Ok tt <->
     Forall (fun r => r = Ok tt) rs /\
     exists h, stream_spec (concat pieces) = Ok (Some h, log) /\ len log = sh_content_length h).
Proof.
  pose proof (feed_all_spec fails pieces _ _ _ decoder_at_new) as H. rewrite Hrun in H. cbn [app] in H.
  assert (forall oks (e : StreamError E) later, ~ Forall (fun r => r = Ok tt) (oks ++ Err e :: later)) as Hno.
  { intros oks e later [_ [? _]%Forall_cons]%Forall_app. done. }
  split; [done |]. split.
  - intros Hfl. destruct H as [H1 (_ & Hs & _) | oks e later a b h -> _ _ _ Hs | oks e later a b h bf dt -> _ _ _ _ He].
    + split; [intros _; eauto | done].
    + split; [by intros ?%Hno |]. intros [o Ho]. congruence.
    + by rewrite Hfl in He.
  - destruct H as [H1 H2 | oks e later a b h -> _ _ Hd _ | oks e later a b h bf dt -> _ _ Hd _ _].
    + rewrite (finish_at _ _ _ H2). naive_solver.
    + unfold finish. rewrite Hd. split; [done |]. by intros [?%Hno _].
    + unfold finish. rewrite Hd. split; [done |]. by intros [?%Hno _].
Qed.

Definition sample_pieces : list (list Z) :=
  [text "HTTP/1.1 200 OK" ++ [CR]; [LF] ++ text "Content-Length: 5" ++ CRLF ++ [CR]; [LF] ++ text "he"; text "llo"].

Lemma stream_decoder_refines_witness :
  exists d, feed_all (recording (fun _ _ => @None unit)) StreamingResponseDecoder_new [] sample_pieces =
    (d, text "hello", [Ok tt; Ok tt; Ok tt; Ok tt]) /\ snd (finish d) = Ok tt.
Proof.
  eexists. split; [vm_compute; reflexivity |].
  apply (proj2 (proj2 (stream_decoder_refines (fun _ _ => @None unit) sample_pieces _ (text "hello")
    [Ok tt; Ok tt; Ok tt; Ok tt] ltac:(vm_compute; reflexivity)))).
  split; [by repeat constructor |]. eexists. split; [vm_compute; reflexivity | reflexivity].
Defined.
