(* ===== verification/HttpRequest.v ===== *)
(** * Request encoding ([http-client/src/request.rs]) *)

From Stdlib Require Import String.
From S2P Require Import Prelude Text DnsName HttpUrl HttpResponse.

(** ** The code *)

Inductive Method : Type := Get | Post.
#[export] Instance Method_eq_dec : EqDecision Method.
Proof. solve_decision. Defined.

Definition wire (self : Method) : list Z := match self with Get => text "GET" | Post => text "POST" end.

Record Header : Type := { hd_name : list Z; hd_value : list Z }.

Definition push_line (destination line : list Z) : result HttpError (list Z) :=
  let destination := destination ++ line ++ CRLF in
  if MAX_HEADER_BYTES <? len destination then Err HeadersTooLarge else Ok destination.

Definition validate_header (header : Header) : result HttpError unit :=
  if bool_decide (hd_name header = []) || negb (forallb token_char (hd_name header)) then Err InvalidHeaderName else
  if existsb (fun byte => (byte =? CR) || (byte =? LF) || ((byte <? 32) && negb (byte =? 9)) || (byte =? 127))
       (hd_value header)
  then Err InvalidHeaderValue else Ok tt.

Definition is_managed (name : list Z) : bool :=
  eq_ignore_ascii_case name (text "host")
  || eq_ignore_ascii_case name (text "content-length")
  || eq_ignore_ascii_case name (text "connection")
  || eq_ignore_ascii_case name (text "user-agent")
  || eq_ignore_ascii_case name (text "accept").

(** The body of the first loop over the headers; the result is the content type seen so far. *)
Definition check_header (url : HttpsUrl) (body : list Z) (content_type : option (list Z)) (header : Header)
    : result HttpError (option (list Z)) :=
  let? _ := validate_header header in
  if eq_ignore_ascii_case (hd_name header) (text "host") then
    if negb (eq_ignore_ascii_case (hd_value header) (host_header url)) then Err HostnameMismatch else Ok content_type
  else if eq_ignore_ascii_case (hd_name header) (text "content-length") then
    let? declared := ok_or (parse_usize (hd_value header)) ContentLengthMismatch in
    if negb (declared =? len body) then Err ContentLengthMismatch else Ok content_type
  else if eq_ignore_ascii_case (hd_name header) (text "connection") then
    if negb (eq_ignore_ascii_case (hd_value header) (text "close")) then Err InvalidHeaderValue else Ok content_type
  else if eq_ignore_ascii_case (hd_name header) (text "content-type") then Ok (Some (hd_value header))
  else Ok content_type.

Fixpoint check_headers (url : HttpsUrl) (body : list Z) (content_type : option (list Z)) (headers : list Header)
    : result HttpError (option (list Z)) :=
  match headers with
  | [] => Ok content_type
  | header :: headers =>
      let? content_type := check_header url body content_type header in
      check_headers url body content_type headers
  end.

(** The second loop over the headers. *)
Fixpoint push_headers (request : list Z) (headers : list Header) : result HttpError (list Z) :=
  match headers with
  | [] => Ok request
  | header :: headers =>
      if is_managed (hd_name header) then push_headers request headers
      else
        let? request := push_line request (hd_name header ++ text ": " ++ hd_value header) in
        push_headers request headers
  end.

Definition encode_request (method : Method) (url : HttpsUrl) (headers : list Header) (body : list Z)
    : result HttpError (list Z) :=
  if (MAX_BODY_BYTES <? len body) || (bool_decide (method = Get) && negb (bool_decide (body = [])))
  then Err BodyTooLarge else
  if MAX_HEADER_COUNT <? Z.of_nat (length headers) then Err TooManyHeaders else
  let? content_type := check_headers url body None headers in
  let? request := push_line [] (wire method ++ text " " ++ hu_path url ++ text " HTTP/1.1") in
  let? request := push_line request (text "Host: " ++ host_header url) in
  let? request := push_line request (text "User-Agent: mochiOS/0.1") in
  let? request := push_line request (text "Accept: */*") in
  let? request := push_line request (text "Connection: close") in
  let? request := push_headers request headers in
  let? request :=
    (if bool_decide (method = Post) then
       let? request :=
         (if bool_decide (content_type = None) then push_line request (text "Content-Type: application/octet-stream")
          else Ok request) in
       push_line request (text "Content-Length: " ++ to_string (len body))
     else Ok request) in
  let request := request ++ CRLF in
  if MAX_HEADER_BYTES <? len request then Err HeadersTooLarge else
  Ok (request ++ body).

(** ** The request as lines *)

(** A header of the caller that does not contradict what the client sends itself. *)
Definition header_allowed (url : HttpsUrl) (body : list Z) (h : Header) : Prop :=
  validate_header h = Ok tt /\
  (lowercase (hd_name h) = text "host" -> eq_ignore_ascii_case (hd_value h) (host_header url) = true) /\
  (lowercase (hd_name h) = text "content-length" -> parse_usize (hd_value h) = Some (len body)) /\
  (lowercase (hd_name h) = text "connection" -> lowercase (hd_value h) = text "close").

Definition names_content_type (h : Header) : bool := bool_decide (lowercase (hd_name h) = text "content-type").

Definition request_lines (method : Method) (url : HttpsUrl) (headers : list Header) (body : list Z) : list (list Z) :=
  [wire method ++ text " " ++ hu_path url ++ text " HTTP/1.1"; text "Host: " ++ host_header url;
   text "User-Agent: mochiOS/0.1"; text "Accept: */*"; text "Connection: close"]
  ++ map (fun h => hd_name h ++ text ": " ++ hd_value h) (List.filter (fun h => negb (is_managed (hd_name h))) headers)
  ++ match method with
     | Get => []
     | Post => (if existsb names_content_type headers then [] else [text "Content-Type: application/octet-stream"])
               ++ [text "Content-Length: " ++ to_string (len body)]
     end.

Definition head_text (lines : list (list Z)) : list Z := concat (map (fun l => l ++ CRLF) lines).

Lemma head_text_app a b : head_text (a ++ b) = head_text a ++ head_text b.
Proof. unfold head_text. by rewrite map_app, concat_app. Qed.

Lemma head_text_join lines : lines <> [] -> head_text lines = join_crlf lines ++ CRLF.
Proof.
  induction lines as [|l lines IH]; [done |]. intros _. unfold head_text in *. cbn [map concat].
  destruct lines as [|l' lines]; [by rewrite app_nil_r |]. rewrite IH by done.
  rewrite (join_crlf_cons l) by done. by rewrite <- !app_assoc.
Qed.

(** Pushing a sequence of lines. *)
Fixpoint push_all (request : list Z) (lines : list (list Z)) : result HttpError (list Z) :=
  match lines with
  | [] => Ok request
  | line :: lines => let? request := push_line request line in push_all request lines
  end.

Lemma push_all_app r a b : push_all r (a ++ b) = let? r := push_all r a in push_all r b.
Proof. revert r. induction a as [|l a IH]; intros r; cbn; [done |]. destruct (push_line r l); [apply IH | done | done]. Qed.

Lemma push_all_text r lines : len r <= MAX_HEADER_BYTES ->
  push_all r lines =
  if MAX_HEADER_BYTES <? len (r ++ head_text lines) then Err HeadersTooLarge else Ok (r ++ head_text lines).
Proof.
  revert r. induction lines as [|l lines IH]; intros r Hr; cbn [push_all].
  - change (head_text []) with (@nil Z). rewrite app_nil_r. by rewrite (proj2 (Z.ltb_ge _ _)).
  - unfold push_line. cbv zeta. change (head_text (l :: lines)) with ((l ++ CRLF) ++ head_text lines).
    rewrite (app_assoc r (l ++ CRLF)).
    destruct (Z.ltb_spec MAX_HEADER_BYTES (len (r ++ l ++ CRLF))) as [Hlt|Hge]; [|by apply IH].
    rewrite (proj2 (Z.ltb_lt _ _)); [done |]. unfold len in *. rewrite (length_app (r ++ l ++ CRLF)). lia.
Qed.

Lemma push_headers_all r hs :
  push_headers r hs =
  push_all r (map (fun h => hd_name h ++ text ": " ++ hd_value h) (List.filter (fun h => negb (is_managed (hd_name h))) hs)).
Proof.
  revert r. induction hs as [|h hs IH]; intros r; cbn [push_headers List.filter map]; [done |].
  destruct (is_managed (hd_name h)); cbn [negb map push_all]; [apply IH |].
  destruct (push_line _ _); [apply IH | done | done].
Qed.

(** ** The header checks *)

Lemma eq_ignore_known name k : lowercase k = k -> eq_ignore_ascii_case name k = bool_decide (lowercase name = k).
Proof. intros Hk. unfold eq_ignore_ascii_case. by rewrite Hk. Qed.

Lemma check_header_ok url body ct h ct' :
  check_header url body ct h = Ok ct' <->
  header_allowed url body h /\ ct' = if names_content_type h then Some (hd_value h) else ct.
Proof.
  unfold check_header, header_allowed, names_content_type. rewrite !(eq_ignore_known (hd_name h)) by reflexivity.
  rewrite (eq_ignore_known (hd_value h) (text "close")) by reflexivity.
  destruct (validate_header h) as [[]| |]; [|naive_solver..].
  case_bool_decide as H1; [rewrite H1 | case_bool_decide as H2; [rewrite H2 | case_bool_decide as H3; [rewrite H3 |]]].
  - destruct (eq_ignore_ascii_case (hd_value h) (host_header url)); naive_solver.
  - destruct (parse_usize (hd_value h)) as [n|]; cbn [ok_or]; [|naive_solver].
    destruct (Z.eqb_spec n (len body)) as [->|]; cbn [negb]; naive_solver.
  - case_bool_decide; cbn [negb]; naive_solver.
  - case_bool_decide; naive_solver.
Qed.

Lemma check_headers_ok url body hs : forall ct,
  (exists ct', check_headers url body ct hs = Ok ct') <-> Forall (header_allowed url body) hs.
Proof.
  induction hs as [|h hs IH]; intros ct; cbn [check_headers]; [naive_solver |]. rewrite Forall_cons.
  destruct (check_header url body ct h) as [c| |] eqn:E.
  - apply check_header_ok in E as [Hh _]. rewrite IH. naive_solver.
  - split; [by intros [? ?] |]. intros [Hh _]. by rewrite (proj2 (check_header_ok url body ct h _) (conj Hh eq_refl)) in E.
  - split; [by intros [? ?] |]. intros [Hh _]. by rewrite (proj2 (check_header_ok url body ct h _) (conj Hh eq_refl)) in E.
Qed.

Lemma check_headers_type url body hs : forall ct ct',
  check_headers url body ct hs = Ok ct' -> ct' = None <-> ct = None /\ existsb names_content_type hs = false.
Proof.
  induction hs as [|h hs IH]; intros ct ct'; cbn [check_headers existsb]; [naive_solver |].
  destruct (check_header url body ct h) as [c| |] eqn:E; [|done|done]. apply check_header_ok in E as [_ ->].
  intros ->%IH. destruct (names_content_type h); cbn; naive_solver.
Qed.

Lemma check_headers_no_panic url body hs : forall ct, check_headers url body ct hs <> Panic.
Proof.
  induction hs as [|h hs IH]; intros ct; cbn [check_headers]; [done |].
  assert (check_header url body ct h <> Panic) as H by (unfold check_header, validate_header; repeat step_result).
  destruct (check_header url body ct h); [apply IH | done | done].
Qed.

(** The encoder as a function of the lines it writes. *)
Lemma encode_request_lines method url hs body :
  encode_request method url hs body =
  if (MAX_BODY_BYTES <? len body) || (bool_decide (method = Get) && negb (bool_decide (body = [])))
  then Err BodyTooLarge else
  if MAX_HEADER_COUNT <? Z.of_nat (length hs) then Err TooManyHeaders else
  let? _ := check_headers url body None hs in
  if MAX_HEADER_BYTES <? len (head_text (request_lines method url hs body) ++ CRLF) then Err HeadersTooLarge
  else Ok (head_text (request_lines method url hs body) ++ CRLF ++ body).
Proof.
  unfold encode_request. destruct (_ || _); [done |]. destruct (_ <? Z.of_nat _); [done |].
  destruct (check_headers url body None hs) as [ct| |] eqn:E; [|done|done]. apply check_headers_type in E.
  transitivity (let? request := push_all [] (request_lines method url hs body) in
    if MAX_HEADER_BYTES <? len (request ++ CRLF) then Err HeadersTooLarge else Ok ((request ++ CRLF) ++ body)).
  - unfold request_lines. rewrite push_all_app. cbn [push_all].
    repeat (destruct (push_line _ _) as [?| |]; [|done|done]). rewrite push_headers_all, push_all_app.
    destruct (push_all _ (map _ _)) as [r| |]; [|done|done].
    destruct method; [done |]. rewrite bool_decide_eq_true_2 by done. rewrite push_all_app.
    destruct (existsb names_content_type hs).
    + rewrite bool_decide_eq_false_2 by naive_solver. cbn [push_all]. by destruct (push_line r _).
    + rewrite bool_decide_eq_true_2 by naive_solver. cbn [push_all]. destruct (push_line r _) as [r'| |]; [|done|done].
      by destruct (push_line r' _).
  - rewrite push_all_text by done. cbn [app]. set (t := head_text _).
    destruct (Z.ltb_spec MAX_HEADER_BYTES (len t)); [|by rewrite <- app_assoc]. unfold len in *. rewrite length_app.
    by rewrite (proj2 (Z.ltb_lt _ _)) by lia.
Qed.

(** ** No line can be forged *)

Lemma url_chars_no_cr p : Forall url_char p -> CR ∉ p.
Proof. intros H. eapply Forall_not_elem; [exact H |]. by intros [? _]. Qed.

Lemma hostname_no_cr h : hostname_wf h -> CR ∉ h.
Proof. intros (_ & H & _). eapply Forall_not_elem; [by apply host_chars |]. naive_solver. Qed.

Lemma digits_no_cr z : 0 <= z <= U64_MAX -> CR ∉ to_string z.
Proof.
  intros Hz. destruct (to_string_parse z z Hz ltac:(lia)) as (_ & H & _). by eapply Forall_not_elem; [exact H |].
Qed.

Lemma validate_header_no_cr h : validate_header h = Ok tt -> (CR ∉ hd_name h) /\ hd_name h <> [] /\ (CR ∉ hd_value h).
Proof.
  unfold validate_header. case_bool_decide as Hn; [done |]. cbn [orb].
  destruct (forallb token_char (hd_name h)) eqn:Ht; [|done]. cbn [negb].
  destruct (existsb _ (hd_value h)) eqn:He; [done |]. intros _. split_and!; [| done |].
  - intros Hc. rewrite forallb_forall in Ht. apply list_elem_of_In, Ht in Hc. done.
  - intros Hc. rewrite existsb_none in He. specialize (He _ Hc). done.
Qed.

Lemma host_header_no_cr u : url_wf u -> CR ∉ host_header u.
Proof.
  intros [Hh Hp _]. unfold host_header. destruct (_ =? 443); [by apply hostname_no_cr |].
  apply not_elem_of_app. split; [by apply hostname_no_cr |]. apply not_elem_of_cons. split; [done |].
  apply digits_no_cr. unfold U64_MAX. lia.
Qed.

Lemma request_lines_ok method url hs body :
  url_wf url -> len body <= MAX_BODY_BYTES -> Forall (header_allowed url body) hs ->
  Forall (fun l => l <> [] /\ CR ∉ l) (request_lines method url hs body).
Proof.
  intros Hu Hb Hh. unfold request_lines. rewrite !Forall_app.
  assert (forall s, CR ∉ text s -> forall l, CR ∉ l -> CR ∉ text s ++ l) as Ht.
  { intros s Hs l Hl. apply not_elem_of_app. auto. }
  assert (CR ∉ to_string (len body)) as Hd.
  { apply digits_no_cr. unfold len, MAX_BODY_BYTES, U64_MAX in *. lia. }
  assert (forall s, bool_decide (CR ∈ text s) = false -> CR ∉ text s) as Hc by (intros s H; by apply bool_decide_eq_false in H).
  split_and!.
  - repeat apply Forall_cons_2; try apply Forall_nil_2; (split; [by destruct method |]);
      try (by apply Hc; vm_compute).
    + apply not_elem_of_app. split; [by destruct method; apply Hc; vm_compute |]. apply Ht; [by apply Hc; vm_compute |].
      apply not_elem_of_app. split; [by apply url_chars_no_cr, Hu | by apply Hc; vm_compute].
    + apply Ht; [by apply Hc; vm_compute |]. by apply host_header_no_cr.
  - apply Forall_map, Forall_forall. intros h [_ Hin]%elem_of_retain. rewrite Forall_forall in Hh.
    destruct (Hh h Hin) as [Hv _]. apply validate_header_no_cr in Hv as (H1 & H2 & H3). split; [by destruct (hd_name h) |].
    apply not_elem_of_app. split; [done |]. apply Ht; [by apply Hc; vm_compute | done].
  - destruct method; [constructor |]. apply Forall_app. split.
    + destruct (existsb _ _); [constructor |]. apply Forall_singleton. split; [done | by apply Hc; vm_compute].
    + apply Forall_singleton. split; [done |]. apply Ht; [by apply Hc; vm_compute | done].
Qed.

Lemma find_skip_line l rest :
  CR ∉ l -> find_sequence (l ++ rest) CRLFCRLF = (fun k => (length l + k)%nat) <$> find_sequence rest CRLFCRLF.
Proof.
  induction l as [|c l IH]; intros Hl; cbn [app length].
  { by destruct (find_sequence rest CRLFCRLF). }
  apply not_elem_of_cons in Hl as [Hc Hl]. cbn [find_sequence].
  destruct (starts_with CRLFCRLF (c :: l ++ rest)) eqn:E.
  - apply starts_with_spec in E as [t E]. injection E as -> _. done.
  - rewrite IH by done. by destruct (find_sequence rest CRLFCRLF).
Qed.

Lemma find_sequence_cons a l n :
  find_sequence (a :: l) n = if starts_with n (a :: l) then Some 0%nat else S <$> find_sequence l n.
Proof. done. Qed.

Lemma find_skip_crlf x t :
  x <> CR ->
  find_sequence (CRLF ++ x :: t) CRLFCRLF = (fun k => (2 + k)%nat) <$> find_sequence (x :: t) CRLFCRLF.
Proof.
  intros Hx. change (CRLF ++ x :: t) with (CR :: LF :: x :: t). rewrite (find_sequence_cons CR), (find_sequence_cons LF).
  unfold starts_with at 1 2. cbn [length CRLFCRLF CRLF app take].
  rewrite !bool_decide_eq_false_2 by (by intros [=]). by destruct (find_sequence (x :: t) _).
Qed.

(** The first empty line is where the lines end. *)
Lemma find_head_end lines body :
  lines <> [] -> Forall (fun l => l <> [] /\ CR ∉ l) lines ->
  find_sequence (join_crlf lines ++ CRLFCRLF ++ body) CRLFCRLF = Some (length (join_crlf lines)).
Proof.
  intros Hne H. induction H as [|l lines [Hl Hc] H IH]; [done |].
  destruct lines as [|l' lines].
  - cbn [join_crlf]. rewrite find_skip_line by done.
    change (find_sequence (CRLFCRLF ++ body) CRLFCRLF) with (Some 0%nat). cbn. f_equal. lia.
  - rewrite join_crlf_cons by done. rewrite <- !app_assoc, find_skip_line by done. specialize (IH ltac:(done)).
    apply Forall_cons in H as [[Hl' Hc'] _].
    assert (exists x t, join_crlf (l' :: lines) = x :: t /\ x <> CR) as (x & t & Heq & Hx).
    { destruct l' as [|x l']; [done |]. apply not_elem_of_cons in Hc' as [? _]. destruct lines; cbn; eauto. }
    rewrite Heq in *. rewrite <- app_comm_cons in *. rewrite find_skip_crlf, IH by done.
    cbn. f_equal. rewrite !length_app. cbn. lia.
Qed.

(** ** Theorem *)

(** C19: A request is encoded exactly when the method, the body, the number and size of the headers allow it and no header
    contradicts what the client sends itself; it is then the expected lines, an empty line and the
    body.  No field can forge a line: the first empty line of the output ends the head, what
    follows is the body, and cutting the head at its line endings gives back exactly those lines. *)
Theorem encode_request_exact method url headers body (Hurl : url_wf url) :
  let lines := request_lines method url headers body in
  encode_request method url headers body <> Panic /\
  forall out,
  (encode_request method url headers body = Ok out <->
     len body <= MAX_BODY_BYTES /\ (method = Get -> body = []) /\ Z.of_nat (length headers) <= MAX_HEADER_COUNT /\
     Forall (header_allowed url body) headers /\ len (head_text lines ++ CRLF) <= MAX_HEADER_BYTES /\
     out = head_text lines ++ CRLF ++ body) /\
  (encode_request method url headers body = Ok out ->
     exists i, find_sequence out CRLFCRLF = Some i /\ split_crlf (take i out) = lines /\ drop (i + 4) out = body).
Proof.
  cbv zeta. rewrite encode_request_lines. set (lines := request_lines method url headers body).
  pose proof (check_headers_no_panic url body headers None) as Hnp.
  pose proof (check_headers_ok url body headers None) as Hok.
  assert ((MAX_BODY_BYTES <? len body) || (bool_decide (method = Get) && negb (bool_decide (body = []))) = false <->
    len body <= MAX_BODY_BYTES /\ (method = Get -> body = [])) as Hg.
  { rewrite orb_false_iff, Z.ltb_ge, andb_false_iff, bool_decide_eq_false, negb_false_iff, bool_decide_eq_true.
    destruct (decide (body = [])), (decide (method = Get)); naive_solver. }
  split.
  { destruct (_ || _); [done |]. destruct (_ <? Z.of_nat _); [done |].
    destruct (check_headers url body None headers); [|done|done]. by destruct (_ <? _). }
  intros out. destruct (_ || _); [split; [naive_solver | done] |]. destruct (proj1 Hg eq_refl) as [Hb Hm].
  destruct (Z.ltb_spec MAX_HEADER_COUNT (Z.of_nat (length headers))) as [|Hc]; [split; [naive_solver lia | done] |].
  destruct (check_headers url body None headers) as [ct| |]; [|split; [naive_solver | done]|done].
  pose proof (proj1 Hok ltac:(eauto)) as Ha. pose proof (request_lines_ok method url headers body Hurl Hb Ha) as Hl.
  destruct (Z.ltb_spec MAX_HEADER_BYTES (len (head_text lines ++ CRLF))) as [|Hmax]; [split; [naive_solver lia | done] |].
  split; [naive_solver |]. intros Hout.
  assert (out = join_crlf lines ++ CRLFCRLF ++ body) as ->.
  { rewrite head_text_join, <- app_assoc in Hout by done. by injection Hout as <-. }
  exists (length (join_crlf lines)).
  rewrite find_head_end, take_app_length by done. rewrite <- drop_drop, drop_app_length. split_and!; [done | | done].
  apply split_crlf_join; [done |]. eapply Forall_impl; [exact Hl |]. by intros l [_ ?].
Qed.

Definition sample_url : HttpsUrl :=
  {| hu_original := text "https://example.com/api"; hu_hostname := text "example.com"; hu_port := 443; hu_path := text "/api" |}.

Lemma encode_request_exact_witness :
  exists out, encode_request Post sample_url [{| hd_name := text "X-Id"; hd_value := text "7" |}] (text "{}") = Ok out /\
  exists i, find_sequence out CRLFCRLF = Some i /\ drop (i + 4) out = text "{}".
Proof.
  eexists. split; [vm_compute; reflexivity |].
  destruct (proj2 (proj2 (encode_request_exact Post sample_url [{| hd_name := text "X-Id"; hd_value := text "7" |}] (text "{}")
    ltac:(apply (url_grammar_wf (text "https://example.com/api")), parse_grammar; vm_compute; reflexivity)) _)
    ltac:(vm_compute; reflexivity)) as (i & H1 & _ & H2). eauto.
Defined.
