(* ===== verification/FdTable.v ===== *)
(** * The file-descriptor table ([posix-client/src/fd.rs])

    The table has one slot per descriptor: an entry, if it is open, and the generation of a pending reservation, or
    zero.  [H] is the type of native handles.  Cloning and closing handles is done by the caller's
    [HandleOps], a class here as it is a trait there, with the state [O] that [&mut self] stands for. *)

From S2P Require Import Prelude.

(** ** The code *)

Definition FD_CLOEXEC : Z := 1.
Definition DEFAULT_FD_LIMIT : nat := 256.

Definition access_allows_read (open_flags : Z) : bool :=
  (Z.land open_flags 3 =? 0) || (Z.land open_flags 3 =? 2).
Definition access_allows_write (open_flags : Z) : bool :=
  (Z.land open_flags 3 =? 1) || (Z.land open_flags 3 =? 2).

Definition positioned_offset (offset length : Z) : option Z :=
  if (offset <? 0) || (ISIZE_MAX <? length) then None else Some offset.

Record Entry (H : Type) : Type := {
  en_handle : H;
  en_rights : Z;
  en_descriptor_flags : Z }.
Arguments en_handle {H} _.
Arguments en_rights {H} _.
Arguments en_descriptor_flags {H} _.
Arguments Build_Entry {H} _ _ _.

(** [clone_handle] is [inl] of the new reference or [inr] of the error. *)
Class HandleOps (H O Er : Type) : Type := {
  clone_handle : O -> H -> Z -> O * (H + Er);
  close_handle : O -> H -> O }.

Inductive FdError (Er : Type) : Type :=
  | BadDescriptor
  | InvalidDescriptor
  | BusyDescriptor
  | HandleError (e : Er).
Arguments BadDescriptor {Er}.
Arguments InvalidDescriptor {Er}.
Arguments BusyDescriptor {Er}.
Arguments HandleError {Er} e.

Record FdReservation : Type := { rv_index : nat; rv_generation : Z }.
Record FdReplacement : Type := { rp_index : nat; rp_generation : Z }.

(** [rg_indices] is the used prefix [indices[..count]] of the array. *)
Record FdReservations : Type := { rg_indices : list nat; rg_generation : Z }.

Record FdTable (H : Type) : Type := {
  ft_entries : list (option (Entry H));
  ft_reservations : list Z;
  ft_next_reservation : Z }.
Arguments ft_entries {H} _.
Arguments ft_reservations {H} _.
Arguments ft_next_reservation {H} _.
Arguments Build_FdTable {H} _ _ _.

(** [usize::try_from(fd)]. *)
Definition fd_index (fd : Z) : option nat := if fd <? 0 then None else Some (Z.to_nat fd).

Definition FdReservation_descriptor (self : FdReservation) : Z := Z.of_nat (rv_index self).
Definition FdReservations_descriptor (self : FdReservations) (index : nat) : option Z :=
  Z.of_nat <$> rg_indices self !! index.

(** [checked_add] on the generation counter. *)
Definition next_generation (n step : Z) : option Z := if n + step <=? U64_MAX then Some (n + step) else None.

Section Table.
Context {H : Type}.
Implicit Types t : FdTable H.

Definition FdTable_new : FdTable H :=
  {| ft_entries := replicate DEFAULT_FD_LIMIT None; ft_reservations := replicate DEFAULT_FD_LIMIT 0;
     ft_next_reservation := 0 |}.

(** [Clone]: the reservations are not inherited. *)
Definition FdTable_clone t : FdTable H :=
  {| ft_entries := ft_entries t; ft_reservations := replicate DEFAULT_FD_LIMIT 0;
     ft_next_reservation := ft_next_reservation t |}.

Definition set_entry t (i : nat) (e : option (Entry H)) : FdTable H :=
  {| ft_entries := <[i := e]> (ft_entries t); ft_reservations := ft_reservations t;
     ft_next_reservation := ft_next_reservation t |}.
Definition set_reservation t (i : nat) (g : Z) : FdTable H :=
  {| ft_entries := ft_entries t; ft_reservations := <[i := g]> (ft_reservations t);
     ft_next_reservation := ft_next_reservation t |}.
Definition set_next t (n : Z) : FdTable H :=
  {| ft_entries := ft_entries t; ft_reservations := ft_reservations t; ft_next_reservation := n |}.

(** Callers search below [limit <= DEFAULT_FD_LIMIT], where both arrays have the index. *)
Definition is_free t (index : nat) : bool :=
  match ft_entries t !! index, ft_reservations t !! index with
  | Some None, Some g => g =? 0
  | _, _ => false
  end.

Definition is_reserved t (fd : Z) : bool :=
  match fd_index fd with
  | Some index => match ft_reservations t !! index with Some g => negb (g =? 0) | None => false end
  | None => false
  end.

(** The first free slot of the range, and all of them. *)
Definition find_free t (minimum limit : Z) : option nat :=
  List.find (is_free t) (List.seq (Z.to_nat minimum) (Z.to_nat limit - Z.to_nat minimum)).
Definition free_slots t (minimum limit : Z) : list nat :=
  List.filter (is_free t) (List.seq (Z.to_nat minimum) (Z.to_nat limit - Z.to_nat minimum)).

Definition bad_range (minimum limit : Z) : bool :=
  (minimum <? 0) || (limit <=? minimum) || (Z.of_nat DEFAULT_FD_LIMIT <? limit).

Definition get t (fd : Z) : option (Entry H) :=
  match fd_index fd with
  | Some index => match ft_entries t !! index with Some e => e | None => None end
  | None => None
  end.

(** Is the open descriptor pinned by a replacement? *)
Definition pinned t (fd : Z) (index : nat) : bool :=
  match get t fd with
  | Some _ => match ft_reservations t !! index with Some g => negb (g =? 0) | None => false end
  | None => false
  end.

Definition reserve_replacement t (fd : Z)
    : FdTable H * result (FdError Empty_set) (FdReplacement * option (Entry H)) :=
  match fd_index fd with
  | None => (t, Err InvalidDescriptor)
  | Some index =>
      if (DEFAULT_FD_LIMIT <=? index)%nat then (t, Err InvalidDescriptor) else
      match ft_reservations t !! index, ft_entries t !! index with
      | Some g, Some e =>
          if negb (g =? 0) then (t, Err BusyDescriptor) else
          match next_generation (ft_next_reservation t) 1 with
          | None => (t, Err InvalidDescriptor)
          | Some generation =>
              (set_reservation (set_next t generation) index generation,
               Ok ({| rp_index := index; rp_generation := generation |}, e))
          end
      | _, _ => (t, Panic)
      end
  end.

Definition commit_replacement t (replacement : FdReplacement) (entry : Entry H)
    : FdTable H * result (FdError Empty_set) (option (Entry H)) :=
  match ft_reservations t !! rp_index replacement, ft_entries t !! rp_index replacement with
  | Some g, Some e =>
      if negb (g =? rp_generation replacement) then (t, Err InvalidDescriptor) else
      (set_entry (set_reservation t (rp_index replacement) 0) (rp_index replacement) (Some entry), Ok e)
  | _, _ => (t, Panic)
  end.

Definition cancel_replacement t (replacement : FdReplacement) : FdTable H * result (FdError Empty_set) bool :=
  match ft_reservations t !! rp_index replacement with
  | Some g => if negb (g =? rp_generation replacement) then (t, Ok false)
              else (set_reservation t (rp_index replacement) 0, Ok true)
  | None => (t, Panic)
  end.

Definition reserve_from t (minimum limit : Z) : FdTable H * result (FdError Empty_set) FdReservation :=
  if bad_range minimum limit then (t, Err InvalidDescriptor) else
  match find_free t minimum limit with
  | None => (t, Err InvalidDescriptor)
  | Some index =>
      match next_generation (ft_next_reservation t) 1 with
      | None => (t, Err InvalidDescriptor)
      | Some generation =>
          (set_reservation (set_next t generation) index generation,
           Ok {| rv_index := index; rv_generation := generation |})
      end
  end.

(** Does the token hold its slot, with nothing published there? *)
Definition token_valid t (index : nat) (generation : Z) : result (FdError Empty_set) bool :=
  match ft_reservations t !! index, ft_entries t !! index with
  | Some g, Some e => Ok ((g =? generation) && negb (match e with Some _ => true | None => false end))
  | _, _ => Panic
  end.

Definition cancel_reservation t (reservation : FdReservation) : FdTable H * result (FdError Empty_set) bool :=
  match token_valid t (rv_index reservation) (rv_generation reservation) with
  | Ok true => (set_reservation t (rv_index reservation) 0, Ok true)
  | Ok false => (t, Ok false)
  | _ => (t, Panic)
  end.

Definition commit_reservation t (reservation : FdReservation) (entry : Entry H)
    : FdTable H * result (FdError Empty_set) Z :=
  match cancel_reservation t reservation with
  | (t, Ok true) => (set_entry t (rv_index reservation) (Some entry), Ok (Z.of_nat (rv_index reservation)))
  | (t, Ok false) => (t, Err InvalidDescriptor)
  | (t, _) => (t, Panic)
  end.

Definition reserve_pair_from t (minimum limit : Z)
    : FdTable H * result (FdError Empty_set) (FdReservation * FdReservation) :=
  if bad_range minimum limit then (t, Err InvalidDescriptor) else
  match free_slots t minimum limit with
  | first :: second :: _ =>
      match next_generation (ft_next_reservation t) 2 with
      | None => (t, Err InvalidDescriptor)
      | Some generation =>
          (set_next (set_reservation (set_reservation t first (generation - 1)) second generation) generation,
           Ok ({| rv_index := first; rv_generation := generation - 1 |},
               {| rv_index := second; rv_generation := generation |}))
      end
  | _ => (t, Err InvalidDescriptor)
  end.

Definition publish t (index : nat) (entry : Entry H) : FdTable H :=
  set_entry (set_reservation t index 0) index (Some entry).

Definition commit_pair t (r0 r1 : FdReservation) (e0 e1 : Entry H)
    : FdTable H * result (FdError Empty_set) (Z * Z) :=
  if (rv_index r0 =? rv_index r1)%nat then (t, Err InvalidDescriptor) else
  match token_valid t (rv_index r0) (rv_generation r0) with
  | Ok false => (t, Err InvalidDescriptor)
  | Ok true =>
      match token_valid t (rv_index r1) (rv_generation r1) with
      | Ok false => (t, Err InvalidDescriptor)
      | Ok true =>
          (publish (publish t (rv_index r0) e0) (rv_index r1) e1,
           Ok (Z.of_nat (rv_index r0), Z.of_nat (rv_index r1)))
      | _ => (t, Panic)
      end
  | _ => (t, Panic)
  end.

Definition reserve_up_to t (minimum limit : Z) (maximum : nat)
    : FdTable H * result (FdError Empty_set) FdReservations :=
  if (minimum <? 0) || (limit <? minimum) || (Z.of_nat DEFAULT_FD_LIMIT <? limit)
     || (DEFAULT_FD_LIMIT <? maximum)%nat
  then (t, Err InvalidDescriptor) else
  let indices := take maximum (free_slots t minimum limit) in
  if bool_decide (indices = []) then (t, Ok {| rg_indices := []; rg_generation := 0 |}) else
  match next_generation (ft_next_reservation t) 1 with
  | None => (t, Err InvalidDescriptor)
  | Some generation =>
      (foldl (fun t index => set_reservation t index generation) (set_next t generation) indices,
       Ok {| rg_indices := indices; rg_generation := generation |})
  end.

(** [group.indices[..count].iter().any(..)] is evaluated left to right, so a stale slot hides a later panic. *)
Fixpoint group_valid t (indices : list nat) (generation : Z) : result (FdError Empty_set) bool :=
  match indices with
  | [] => Ok true
  | index :: indices =>
      let? v := token_valid t index generation in
      if v then group_valid t indices generation else Ok false
  end.

(** The loop of [commit_group] from position [position] on. *)
Fixpoint commit_slots t (indices : list nat) (entries : list (Entry H)) (position : nat) (output : list Z)
    : FdTable H * list Z :=
  match indices with
  | [] => (t, output)
  | index :: indices =>
      let t := set_reservation t index 0 in
      match entries with
      | entry :: entries =>
          commit_slots (set_entry t index (Some entry)) indices entries (S position)
            (<[position := Z.of_nat index]> output)
      | [] => commit_slots t indices [] (S position) output
      end
  end.

Definition commit_group t (group : FdReservations) (entries : list (Entry H)) (output : list Z)
    : FdTable H * list Z * result (FdError Empty_set) unit :=
  if (length (rg_indices group) <? length entries)%nat || (length output <? length entries)%nat
  then (t, output, Err InvalidDescriptor) else
  match group_valid t (rg_indices group) (rg_generation group) with
  | Ok true => let (t, output) := commit_slots t (rg_indices group) entries 0 output in (t, output, Ok tt)
  | Ok false => (t, output, Err InvalidDescriptor)
  | _ => (t, output, Panic)
  end.

Fixpoint cancel_slots t (indices : list nat) (generation : Z) (released : nat)
    : FdTable H * result (FdError Empty_set) nat :=
  match indices with
  | [] => (t, Ok released)
  | index :: indices =>
      match token_valid t index generation with
      | Ok true => cancel_slots (set_reservation t index 0) indices generation (S released)
      | Ok false => cancel_slots t indices generation released
      | _ => (t, Panic)
      end
  end.

Definition cancel_group t (group : FdReservations) : FdTable H * result (FdError Empty_set) nat :=
  cancel_slots t (rg_indices group) (rg_generation group) 0.

Definition clear_reservations t : FdTable H :=
  {| ft_entries := ft_entries t; ft_reservations := replicate DEFAULT_FD_LIMIT 0;
     ft_next_reservation := ft_next_reservation t |}.

Definition install_from t (minimum limit : Z) (entry : Entry H) : FdTable H * result (FdError Empty_set) Z :=
  match fd_index minimum, fd_index limit with
  | Some _, Some _ =>
      if (limit <=? minimum) || (Z.of_nat DEFAULT_FD_LIMIT <? limit) || (2147483647 <? limit)
      then (t, Err InvalidDescriptor) else
      match find_free t minimum limit with
      | Some index => (set_entry t index (Some entry), Ok (Z.of_nat index))
      | None => (t, Err InvalidDescriptor)
      end
  | _, _ => (t, Err InvalidDescriptor)
  end.

Definition install t (entry : Entry H) : FdTable H * result (FdError Empty_set) Z :=
  install_from t 0 (Z.of_nat DEFAULT_FD_LIMIT) entry.

Definition set_descriptor_flags t (fd flags : Z) : FdTable H * result (FdError unit) unit :=
  match fd_index fd with
  | None => (t, Err BadDescriptor)
  | Some index =>
      match ft_entries t !! index with
      | Some (Some e) =>
          (set_entry t index (Some {| en_handle := en_handle e; en_rights := en_rights e; en_descriptor_flags := flags |}), Ok tt)
      | _ => (t, Err BadDescriptor)
      end
  end.

Definition take_entry t (fd : Z) : FdTable H * result (FdError unit) (Entry H) :=
  match fd_index fd with
  | None => (t, Err BadDescriptor)
  | Some index =>
      if pinned t fd index then (t, Err BusyDescriptor) else
      match ft_entries t !! index with
      | Some (Some e) => (set_entry t index None, Ok e)
      | _ => (t, Err BadDescriptor)
      end
  end.

(** The descriptors that a child process keeps, in order. *)
Definition inherited t : list (Z * Entry H) :=
  omap (fun '(index, e) =>
      match e with
      | Some e => if Z.land (en_descriptor_flags e) FD_CLOEXEC =? 0 then Some (Z.of_nat index, e) else None
      | None => None
      end) (imap (fun i e => (i, e)) (ft_entries t)).

Section Handles.
Context {O Er : Type} `{HandleOps H O Er}.
Implicit Types o : O.

Definition install_at t o (fd : Z) (entry : Entry H) : FdTable H * O * result (FdError Er) unit :=
  match fd_index fd with
  | None => (t, o, Err InvalidDescriptor)
  | Some index =>
      if (DEFAULT_FD_LIMIT <=? index)%nat then (t, o, Err InvalidDescriptor) else
      match ft_reservations t !! index, ft_entries t !! index with
      | Some g, Some e =>
          if negb (g =? 0) then (t, o, Err BusyDescriptor) else
          (set_entry t index (Some entry),
           match e with Some replaced => close_handle o (en_handle replaced) | None => o end, Ok tt)
      | _, _ => (t, o, Panic)
      end
  end.

Definition close t o (fd : Z) : FdTable H * O * result (FdError Er) unit :=
  match fd_index fd with
  | None => (t, o, Err BadDescriptor)
  | Some index =>
      if pinned t fd index then (t, o, Err BusyDescriptor) else
      match ft_entries t !! index with
      | Some (Some e) => (set_entry t index None, close_handle o (en_handle e), Ok tt)
      | _ => (t, o, Err BadDescriptor)
      end
  end.

Definition duplicate_from t o (fd minimum limit : Z) (close_on_exec : bool)
    : FdTable H * O * result (FdError Er) Z :=
  match get t fd with
  | None => (t, o, Err BadDescriptor)
  | Some source =>
      if bad_range minimum limit then (t, o, Err InvalidDescriptor) else
      match find_free t minimum limit with
      | None => (t, o, Err InvalidDescriptor)
      | Some index =>
          match clone_handle o (en_handle source) (en_rights source) with
          | (o, inr e) => (t, o, Err (HandleError e))
          | (o, inl handle) =>
              (set_entry t index (Some {| en_handle := handle; en_rights := en_rights source;
                                          en_descriptor_flags := if close_on_exec then FD_CLOEXEC else 0 |}),
               o, Ok (Z.of_nat index))
          end
      end
  end.

Definition duplicate t o (fd : Z) : FdTable H * O * result (FdError Er) Z :=
  duplicate_from t o fd 0 (Z.of_nat DEFAULT_FD_LIMIT) false.

(** [flags & !FD_CLOEXEC] on [u32]. *)
Definition without_cloexec (flags : Z) : Z := Z.land flags (Z.lxor U32_MAX FD_CLOEXEC).

Definition duplicate_to t o (source_fd target_fd : Z) : FdTable H * O * result (FdError Er) Z :=
  if (target_fd <? 0) || (Z.of_nat DEFAULT_FD_LIMIT <=? target_fd) then (t, o, Err InvalidDescriptor) else
  if source_fd =? target_fd then
    match get t source_fd with
    | Some _ => (t, o, Ok target_fd)
    | None => (t, o, Err BadDescriptor)
    end
  else
  match get t source_fd with
  | None => (t, o, Err BadDescriptor)
  | Some source =>
      match reserve_replacement t target_fd with
      | (t, Err BusyDescriptor) => (t, o, Err BusyDescriptor)
      | (t, Err _) => (t, o, Err InvalidDescriptor)
      | (t, Panic) => (t, o, Panic)
      | (t, Ok (replacement, _)) =>
          match clone_handle o (en_handle source) (en_rights source) with
          | (o, inr e) => (fst (cancel_replacement t replacement), o, Err (HandleError e))
          | (o, inl handle) =>
              match commit_replacement t replacement
                      {| en_handle := handle; en_rights := en_rights source;
                         en_descriptor_flags := without_cloexec (en_descriptor_flags source) |} with
              | (t, Ok displaced) =>
                  (t, match displaced with Some replaced => close_handle o (en_handle replaced) | None => o end,
                   Ok target_fd)
              | (t, Err _) => (t, close_handle o handle, Err InvalidDescriptor)
              | (t, Panic) => (t, o, Panic)
              end
          end
      end
  end.

Definition close_for_spawn t o (fd : Z) : FdTable H * O :=
  match get t fd with
  | Some _ => fst (close t o fd)
  | None => (t, o)
  end.

Definition duplicate_for_spawn t o (source_fd target_fd : Z) : FdTable H * O * result (FdError Er) Z :=
  match duplicate_to t o source_fd target_fd with
  | (t, o, Ok target_fd) =>
      match fd_index target_fd with
      | Some index =>
          match ft_entries t !! index with
          | Some (Some e) =>
              (set_entry t index (Some {| en_handle := en_handle e; en_rights := en_rights e;
                                          en_descriptor_flags := without_cloexec (en_descriptor_flags e) |}),
               o, Ok target_fd)
          | _ => (t, o, Err InvalidDescriptor)
          end
      | None => (t, o, Err InvalidDescriptor)
      end
  | r => r
  end.

(** The loop of [close_on_exec]: the entries that stay, and the handles closed on the way. *)
Fixpoint close_on_exec_slots o (entries : list (option (Entry H))) (reservations : list Z)
    : list (option (Entry H)) * O :=
  match entries, reservations with
  | slot :: entries, g :: reservations =>
      let '(slot, o) :=
        match slot with
        | Some entry =>
            if (g =? 0) && negb (Z.land (en_descriptor_flags entry) FD_CLOEXEC =? 0)
            then (None, close_handle o (en_handle entry)) else (slot, o)
        | None => (slot, o)
        end in
      let (rest, o) := close_on_exec_slots o entries reservations in (slot :: rest, o)
  | _, _ => (entries, o)
  end.

Definition close_on_exec t o : FdTable H * O :=
  let (entries, o) := close_on_exec_slots o (ft_entries t) (ft_reservations t) in
  ({| ft_entries := entries; ft_reservations := ft_reservations t;
      ft_next_reservation := ft_next_reservation t |}, o).

End Handles.
End Table.
