(* ===== verification/FdInvariant.v ===== *)
(** * Reservations and descriptors: the theorems on [FdTable]

    Every operation of the table ix a sequence of the elementary steps of [micro], so what holds of these holds of
    any history.  [fd_op] lists the operations; [fd_exec] runs one. *)

From stdpp Require Import relations.
From S2P Require Import Prelude FdTable.

Section Invariant.
Context {H : Type}.
Implicit Types t : FdTable H.

(** Both arrays have their fixed size and every generation was issued. *)
Record fd_wf t : Prop := {
  fw_entries : length (ft_entries t) = DEFAULT_FD_LIMIT;
  fw_reservations : length (ft_reservations t) = DEFAULT_FD_LIMIT;
  fw_issued : Forall (fun g => 0 <= g <= ft_next_reservation t) (ft_reservations t);
  fw_next : 0 <= ft_next_reservation t <= U64_MAX }.

Definition with_entries' t (es : list (option (Entry H))) : FdTable H :=
  {| ft_entries := es; ft_reservations := ft_reservations t; ft_next_reservation := ft_next_reservation t |}.

Definition reserve_all t (ix : list nat) (g : Z) : FdTable H :=
  foldl (fun t i => set_reservation t i g) (set_next t g) ix.

(** The elementary steps; [U] is the set of reservation tokens (slot and generation) that may be used. *)
Inductive micro (U : nat -> Z -> Prop) t : FdTable H -> Prop :=
  | m_entries es :
      length es = length (ft_entries t) ->
      (forall i, ft_reservations t !! i <> Some 0 -> es !! i = ft_entries t !! i) ->
      micro U t (with_entries' t es)
  | m_flags i e f :
      ft_entries t !! i = Some (Some e) ->
      micro U t (set_entry t i (Some {| en_handle := en_handle e; en_rights := en_rights e; en_descriptor_flags := f |}))
  | m_reserve ix g :
      Forall (fun i => ft_reservations t !! i = Some 0) ix -> ft_next_reservation t < g <= U64_MAX ->
      micro U t (reserve_all t ix g)
  | m_release i g : ft_reservations t !! i = Some g -> U i g -> micro U t (set_reservation t i 0)
  | m_clear : (forall i g, U i g) -> micro U t (clear_reservations t).

Abbreviation steps U := (rtc (micro U)).

(** ** Elementary steps keep the invariant, leave other tokens alone and revive none *)

Lemma foldl_reservation_spec (ix : list nat) (g : Z) : forall t,
  ft_entries (foldl (fun t i => set_reservation t i g) t ix) = ft_entries t /\
  ft_next_reservation (foldl (fun t i => set_reservation t i g) t ix) = ft_next_reservation t /\
  length (ft_reservations (foldl (fun t i => set_reservation t i g) t ix)) = length (ft_reservations t) /\
  forall j, ft_reservations (foldl (fun t i => set_reservation t i g) t ix) !! j =
    if decide (j ∈ ix /\ (j < length (ft_reservations t))%nat) then Some g else ft_reservations t !! j.
Proof.
  induction ix as [|i ix IH]; intros t; cbn [foldl].
  - split_and!; [done..|]. intros j. rewrite decide_False; [done |]. set_solver.
  - destruct (IH (set_reservation t i g)) as (H1 & H2 & H3 & H4). rewrite H1, H2, H3. cbn. rewrite length_insert.
    split_and!; [done..|]. intros j. rewrite H4. cbn. rewrite length_insert.
    destruct (decide (j ∈ ix /\ _)) as [[Hin Hlt]|Hn].
    + rewrite decide_True; [done |]. split; [by right | done].
    + destruct (decide (j = i)) as [->|Hji].
      * destruct (decide (i < length (ft_reservations t))%nat) as [Hlt|Hge].
        -- rewrite decide_True by (split; [by left | done]). by rewrite list_lookup_insert_eq.
        -- rewrite decide_False by (by intros [_ ?]). by rewrite list_insert_ge by lia.
      * rewrite list_lookup_insert_ne by done. rewrite decide_False; [done |].
        intros [[->|?]%elem_of_cons ?]; [done |]. by apply Hn.
Qed.

Lemma reserve_all_lookup t ix g j :
  ft_reservations (reserve_all t ix g) !! j =
  if decide (j ∈ ix /\ (j < length (ft_reservations t))%nat) then Some g else ft_reservations t !! j.
Proof. unfold reserve_all. by rewrite (proj2 (proj2 (proj2 (foldl_reservation_spec ix g (set_next t g))))). Qed.

Lemma micro_wf U t t' : micro U t t' -> fd_wf t -> fd_wf t'.
Proof.
  intros Hm [H1 H2 H3 H4]. destruct Hm as [es Hl Hes | i e f He | ix g Hz Hg | i g Hi HU | HU].
  - split; cbn; (done || congruence).
  - split; cbn; rewrite ?length_insert; done.
  - destruct (foldl_reservation_spec ix g (set_next t g)) as (E1 & E2 & E3 & E4).
    unfold reserve_all. split; rewrite ?E1, ?E2, ?E3; cbn; [done | done | | lia].
    apply Forall_lookup. intros j x Hx. rewrite E4 in Hx. cbn in Hx.
    destruct (decide _); [simplify_eq; lia |]. rewrite Forall_lookup in H3. specialize (H3 _ _ Hx). lia.
  - split; cbn; rewrite ?length_insert; try done. apply Forall_insert; [done | lia].
  - split; cbn [clear_reservations ft_entries ft_reservations ft_next_reservation]; try done.
    apply Forall_replicate. lia.
Qed.

(** The same open file, whatever its descriptor flags. *)
Definition same_file (a b : option (option (Entry H))) : Prop :=
  match a, b with
  | Some (Some a), Some (Some b) => en_handle a = en_handle b /\ en_rights a = en_rights b
  | _, _ => a = b
  end.

Lemma same_file_refl a : same_file a a.
Proof. by destruct a as [[]|]. Qed.

Lemma same_file_trans a b c : same_file a b -> same_file b c -> same_file a c.
Proof. destruct a as [[]|], b as [[]|], c as [[]|]; cbn; naive_solver congruence. Qed.

Lemma micro_isolated U t t' i g :
  micro U t t' -> g <> 0 -> ft_reservations t !! i = Some g -> ~ U i g ->
  ft_reservations t' !! i = Some g /\ same_file (ft_entries t !! i) (ft_entries t' !! i).
Proof.
  intros Hm Hg Hi HU. destruct Hm as [es Hl Hes | j e f He | ix g' Hz Hg' | j g' Hj HU' | HU'].
  - cbn. rewrite Hes by congruence. auto using same_file_refl.
  - cbn. split; [done |]. destruct (decide (i = j)) as [->|].
    + rewrite list_lookup_insert_eq by (by eapply lookup_lt_Some). by rewrite He.
    + rewrite list_lookup_insert_ne by done. apply same_file_refl.
  - destruct (foldl_reservation_spec ix g' (set_next t g')) as (E1 & _). fold (reserve_all t ix g') in E1.
    rewrite E1, reserve_all_lookup. split; [|apply same_file_refl]. rewrite decide_False; [done |].
    intros [Hin _]. rewrite Forall_forall in Hz. specialize (Hz _ Hin). congruence.
  - cbn. split; [|apply same_file_refl]. rewrite list_lookup_insert_ne; [done |]. intros ->. congruence.
  - by destruct HU.
Qed.

Lemma micro_stale U t t' i g :
  micro U t t' -> 0 < g <= ft_next_reservation t -> ft_reservations t !! i <> Some g ->
  ft_reservations t' !! i <> Some g /\ ft_next_reservation t <= ft_next_reservation t'.
Proof.
  intros Hm Hg Hi. destruct Hm as [es Hl Hes | j e f He | ix g' Hz Hg' | j g' Hj HU' | HU'];
    cbn [set_entry set_reservation with_entries' clear_reservations ft_entries ft_reservations ft_next_reservation].
  - split; [done | lia].
  - split; [done | lia].
  - rewrite reserve_all_lookup. destruct (foldl_reservation_spec ix g' (set_next t g')) as (_ & E2 & _).
    fold (reserve_all t ix g') in E2. rewrite E2. cbn. split; [|lia]. destruct (decide _); [intros [=]; lia | done].
  - split; [|lia]. destruct (decide (i = j)) as [->|].
    + rewrite list_lookup_insert_eq by (by eapply lookup_lt_Some). intros [=]. lia.
    + by rewrite list_lookup_insert_ne.
  - split; [|lia]. intros Hr. apply lookup_replicate in Hr as [Hr _]. lia.
Qed.

Lemma steps_wf U t t' : steps U t t' -> fd_wf t -> fd_wf t'.
Proof. induction 1; eauto using micro_wf. Qed.

Lemma steps_isolated U t t' i g :
  steps U t t' -> g <> 0 -> ft_reservations t !! i = Some g -> ~ U i g ->
  ft_reservations t' !! i = Some g /\ same_file (ft_entries t !! i) (ft_entries t' !! i).
Proof.
  intros Hs Hg Hi HU. induction Hs as [t|t1 t2 t3 H1 Hs IH]; [auto using same_file_refl |].
  destruct (micro_isolated _ _ _ _ _ H1 Hg Hi HU) as [Hi2 Hf]. destruct (IH Hi2) as [Hi3 Hf2].
  eauto using same_file_trans.
Qed.

Lemma steps_stale U t t' i g :
  steps U t t' -> 0 < g <= ft_next_reservation t -> ft_reservations t !! i <> Some g ->
  ft_reservations t' !! i <> Some g /\ ft_next_reservation t <= ft_next_reservation t'.
Proof.
  intros Hs Hg Hi. induction Hs as [t|t1 t2 t3 H1 Hs IH]; [split; [done | lia] |].
  destruct (micro_stale _ _ _ _ _ H1 Hg Hi) as [Hi2 Hn]. destruct (IH ltac:(lia) Hi2). split; [done | lia].
Qed.

(** ** Free slots *)

Lemma is_free_spec t i : is_free t i = true <-> ft_entries t !! i = Some None /\ ft_reservations t !! i = Some 0.
Proof.
  unfold is_free. destruct (ft_entries t !! i) as [[e|]|], (ft_reservations t !! i) as [g|]; try naive_solver.
  rewrite Z.eqb_eq. naive_solver.
Qed.

Lemma elem_of_range (a b : Z) i :
  i ∈ List.seq (Z.to_nat a) (Z.to_nat b - Z.to_nat a) <-> (Z.to_nat a <= i < Z.to_nat b)%nat.
Proof. rewrite list_elem_of_In, in_seq. lia. Qed.

Lemma find_seq_Some (p : nat -> bool) n : forall a i, List.find p (List.seq a n) = Some i ->
  (a <= i < a + n)%nat /\ p i = true /\ forall j, (a <= j < i)%nat -> p j = false.
Proof.
  induction n as [|n IH]; intros a i; cbn; [done |]. destruct (p a) eqn:Hp.
  - intros [= <-]. split_and!; [lia | lia | done | lia].
  - intros (H1 & H2 & H3)%IH. split_and!; [lia | lia | done |]. intros j Hj.
    destruct (decide (j = a)) as [->|]; [done |]. apply H3. lia.
Qed.

Lemma find_free_Some t a b i :
  find_free t a b = Some i ->
  (Z.to_nat a <= i < Z.to_nat b)%nat /\ is_free t i = true /\
  forall j, (Z.to_nat a <= j < i)%nat -> is_free t j = false.
Proof. intros (H1 & H2 & H3)%find_seq_Some. split_and!; try done; lia. Qed.

Lemma find_free_None t a b j :
  find_free t a b = None -> (Z.to_nat a <= j < Z.to_nat b)%nat -> is_free t j = false.
Proof. intros Hf Hj. eapply find_none; [exact Hf |]. apply list_elem_of_In, elem_of_range. done. Qed.

Lemma free_slots_free t a b : Forall (fun i => is_free t i = true) (free_slots t a b).
Proof. apply Forall_forall. by intros i [? _]%elem_of_retain. Qed.

Lemma free_slots_NoDup t a b : NoDup (free_slots t a b).
Proof. eapply sublist_NoDup; [|apply retain_sublist]. apply NoDup_ListNoDup, seq_NoDup. Qed.

Lemma next_generation_Some n k g : next_generation n k = Some g -> g = n + k /\ g <= U64_MAX.
Proof. unfold next_generation. destruct (Z.leb_spec (n + k) U64_MAX); [|done]. intros [= <-]. lia. Qed.

(** ** Operations as elementary steps *)

Lemma set_entry_step U t i e : ft_reservations t !! i = Some 0 -> micro U t (set_entry t i e).
Proof.
  intros Hi. apply (m_entries U t (<[i := e]> (ft_entries t))); [apply length_insert |].
  intros j Hj. apply list_lookup_insert_ne. intros ->. congruence.
Qed.

Lemma reserve_one_step U t i g :
  ft_reservations t !! i = Some 0 -> ft_next_reservation t < g <= U64_MAX ->
  micro U t (set_reservation (set_next t g) i g).
Proof. intros Hi Hg. apply (m_reserve U t [i] g); [by constructor | done]. Qed.

Lemma steps_1 U t t' : micro U t t' -> steps U t t'.
Proof. apply rtc_once. Qed.

Lemma publish_steps (U : nat -> Z -> Prop) t i g e :
  ft_reservations t !! i = Some g -> U i g -> steps U t (publish t i e).
Proof.
  intros Hi HU. eapply rtc_l; [by eapply (m_release U t i g) |]. apply steps_1, set_entry_step. cbn.
  apply list_lookup_insert_eq. by eapply lookup_lt_Some.
Qed.

Lemma token_valid_true t i g : token_valid t i g = Ok true -> ft_reservations t !! i = Some g /\ ft_entries t !! i = Some None.
Proof.
  unfold token_valid. destruct (ft_reservations t !! i), (ft_entries t !! i) as [[|]|]; try done;
    intros [= Hv]; bool_cases; subst; try done.
Qed.

Lemma steps_mono (U V : nat -> Z -> Prop) t t' : (forall i g, U i g -> V i g) -> steps U t t' -> steps V t t'.
Proof.
  intros HUV. induction 1 as [|t1 t2 t3 H1 _ IH]; [done |]. eapply rtc_l; [|exact IH].
  destruct H1; [by apply m_entries | by apply m_flags | by apply m_reserve | eapply m_release; eauto | apply m_clear; auto].
Qed.

(** Dropping a reservation that is the token's or already gone. *)
Lemma zero_steps (U : nat -> Z -> Prop) t i g :
  U i g -> ft_reservations t !! i = Some g \/ ft_reservations t !! i = Some 0 -> steps U t (set_reservation t i 0).
Proof.
  intros HU [Hi|Hi]; [apply steps_1; by eapply m_release |].
  replace (set_reservation t i 0) with t; [done |]. unfold set_reservation. rewrite list_insert_id by done. by destruct t.
Qed.

Lemma commit_slots_steps (U : nat -> Z -> Prop) g indices : (forall i, i ∈ indices -> U i g) -> forall t entries p out,
  Forall (fun i => ft_reservations t !! i = Some g \/ ft_reservations t !! i = Some 0) indices ->
  steps U t (fst (commit_slots t indices entries p out)).
Proof.
  induction indices as [|i indices IH]; intros HU t entries p out Hf; cbn [commit_slots fst]; [done |].
  apply Forall_cons in Hf as [Hi Hf].
  assert (Forall (fun j => ft_reservations (set_reservation t i 0) !! j = Some g \/
                           ft_reservations (set_reservation t i 0) !! j = Some 0) indices) as Hf'.
  { eapply Forall_impl; [exact Hf |]. intros j Hj. cbn. destruct (decide (i = j)) as [->|]; [|by rewrite list_lookup_insert_ne].
    right. apply list_lookup_insert_eq. destruct Hj; by eapply lookup_lt_Some. }
  etrans; [eapply zero_steps; [apply HU; by left | done] |]. cbv zeta. destruct entries as [|e entries].
  - apply IH; [|done]. intros j Hj. apply HU. by right.
  - eapply rtc_l; [eapply (set_entry_step U _ i (Some e)) |].
    + cbn. apply list_lookup_insert_eq. destruct Hi; by eapply lookup_lt_Some.
    + apply IH; [|done]. intros j Hj. apply HU. by right.
Qed.

Lemma group_valid_true t indices g :
  group_valid t indices g = Ok true -> Forall (fun i => ft_reservations t !! i = Some g) indices.
Proof.
  induction indices as [|i indices IH]; cbn [group_valid]; [by constructor |].
  destruct (token_valid t i g) as [[]| |] eqn:E; [|done..]. intros Hv. apply token_valid_true in E as [? _].
  constructor; auto.
Qed.

Lemma cancel_slots_steps (U : nat -> Z -> Prop) g indices : (forall i, i ∈ indices -> U i g) -> forall t n,
  steps U t (fst (cancel_slots t indices g n)).
Proof.
  induction indices as [|i indices IH]; intros HU t n; cbn [cancel_slots]; [done |].
  assert (forall j, j ∈ indices -> U j g) by (intros j Hj; apply HU; by right).
  destruct (token_valid t i g) as [[]| |] eqn:E; [|by apply IH|done|done].
  apply token_valid_true in E as [Hi _]. eapply rtc_l; [|by apply IH]. eapply m_release; [done |]. apply HU. by left.
Qed.

Lemma reserve_replacement_steps U t fd : steps U t (fst (reserve_replacement t fd)).
Proof.
  unfold reserve_replacement. destruct (fd_index fd) as [i|]; [|done]. destruct (_ <=? _)%nat; [done |].
  destruct (ft_reservations t !! i) as [g|] eqn:Hg; [|done]. destruct (ft_entries t !! i) as [e|]; [|done].
  destruct (Z.eqb_spec g 0) as [->|]; [|done]. cbn [negb].
  destruct (next_generation _ 1) as [n|] eqn:Hn; [|done]. apply next_generation_Some in Hn as [-> Hn].
  apply steps_1, reserve_one_step; [done | lia].
Qed.

Lemma commit_replacement_steps (U : nat -> Z -> Prop) t r e :
  U (rp_index r) (rp_generation r) -> steps U t (fst (commit_replacement t r e)).
Proof.
  intros HU. unfold commit_replacement. destruct (ft_reservations t !! rp_index r) as [g|] eqn:Hg; [|done].
  destruct (ft_entries t !! rp_index r); [|done]. destruct (Z.eqb_spec g (rp_generation r)) as [->|]; [|done]. cbn [negb fst].
  by eapply publish_steps.
Qed.

Lemma cancel_replacement_steps (U : nat -> Z -> Prop) t r :
  U (rp_index r) (rp_generation r) -> steps U t (fst (cancel_replacement t r)).
Proof.
  intros HU. unfold cancel_replacement. destruct (ft_reservations t !! rp_index r) as [g|] eqn:Hg; [|done].
  destruct (Z.eqb_spec g (rp_generation r)) as [->|]; [|done]. cbn [negb fst]. apply steps_1. by eapply m_release.
Qed.

Lemma cancel_reservation_steps (U : nat -> Z -> Prop) t r :
  U (rv_index r) (rv_generation r) -> steps U t (fst (cancel_reservation t r)).
Proof.
  intros HU. unfold cancel_reservation. destruct (token_valid _ _ _) as [[]| |] eqn:E; [|done..].
  apply token_valid_true in E as [Hi _]. apply steps_1. by eapply m_release.
Qed.

Lemma commit_reservation_steps (U : nat -> Z -> Prop) t r e :
  U (rv_index r) (rv_generation r) -> steps U t (fst (commit_reservation t r e)).
Proof.
  intros HU. unfold commit_reservation, cancel_reservation. destruct (token_valid _ _ _) as [[]| |] eqn:E; [|done..].
  apply token_valid_true in E as [Hi _]. cbn [fst]. by eapply publish_steps.
Qed.

Lemma find_free_steps U t a b i e : find_free t a b = Some i -> steps U t (set_entry t i (Some e)).
Proof. intros (_ & [_ Hi]%is_free_spec & _)%find_free_Some. by apply steps_1, set_entry_step. Qed.

Lemma reserve_from_steps U t a b : steps U t (fst (reserve_from t a b)).
Proof.
  unfold reserve_from. destruct (bad_range a b); [done |]. destruct (find_free t a b) as [i|] eqn:Hf; [|done].
  apply find_free_Some in Hf as (_ & [_ Hi]%is_free_spec & _).
  destruct (next_generation _ 1) as [n|] eqn:Hn; [|done]. apply next_generation_Some in Hn as [-> Hn].
  apply steps_1, reserve_one_step; [done | lia].
Qed.

Lemma reserve_pair_steps U t a b : steps U t (fst (reserve_pair_from t a b)).
Proof.
  unfold reserve_pair_from. destruct (bad_range a b); [done |].
  pose proof (free_slots_free t a b) as Hf. pose proof (free_slots_NoDup t a b) as Hn.
  destruct (free_slots t a b) as [|i [|j l]]; [done..|]. rewrite !Forall_cons, !is_free_spec in Hf.
  destruct Hf as ([_ Hi] & [_ Hj] & _). apply NoDup_cons in Hn as [Hij _].
  destruct (next_generation _ 2) as [g|] eqn:Hg; [|done]. apply next_generation_Some in Hg as [-> Hg]. cbn [fst].
  set (n := ft_next_reservation t) in *. replace (n + 2 - 1) with (n + 1) by lia.
  eapply rtc_l; [apply (reserve_one_step U t i (n + 1)); [done | lia] |].
  apply steps_1. apply (reserve_one_step U (set_reservation (set_next t (n + 1)) i (n + 1)) j (n + 2)); cbn; [|lia].
  rewrite list_lookup_insert_ne; [done |]. intros ->. set_solver.
Qed.

Lemma commit_pair_steps (U : nat -> Z -> Prop) t r0 r1 e0 e1 :
  U (rv_index r0) (rv_generation r0) -> U (rv_index r1) (rv_generation r1) -> steps U t (fst (commit_pair t r0 r1 e0 e1)).
Proof.
  intros H0 H1. unfold commit_pair. destruct (Nat.eqb_spec (rv_index r0) (rv_index r1)) as [|Hne]; [done |].
  destruct (token_valid t (rv_index r0) _) as [[]| |] eqn:E0; [|done..].
  destruct (token_valid t (rv_index r1) _) as [[]| |] eqn:E1; [|done..].
  apply token_valid_true in E0 as [E0 _], E1 as [E1 _]. cbn [fst].
  etrans; [by eapply (publish_steps U t (rv_index r0)) |]. eapply publish_steps; [|exact H1]. cbn.
  by rewrite list_lookup_insert_ne.
Qed.

Lemma reserve_up_to_steps U t a b n : steps U t (fst (reserve_up_to t a b n)).
Proof.
  unfold reserve_up_to. destruct (_ || _); [done |]. case_bool_decide; [done |].
  destruct (next_generation _ 1) as [g|] eqn:Hg; [|done]. apply next_generation_Some in Hg as [-> Hg]. cbn [fst].
  apply steps_1, (m_reserve U t); [|lia]. apply Forall_take. eapply Forall_impl; [apply free_slots_free |].
  by intros i [_ ?]%is_free_spec.
Qed.

Lemma flags_steps U t fd f : steps U t (fst (set_descriptor_flags t fd f)).
Proof.
  unfold set_descriptor_flags. destruct (fd_index fd) as [i|]; [|done]. destruct (ft_entries t !! i) as [[e|]|] eqn:E; [|done..].
  apply steps_1. by apply m_flags.
Qed.

(** An open descriptor that no replacement pins can be emptied. *)
Lemma unpinned_step U t fd i e :
  fd_wf t -> fd_index fd = Some i -> pinned t fd i = false -> ft_entries t !! i = Some (Some e) ->
  micro U t (set_entry t i None).
Proof.
  intros Hw Hi Hp He. apply set_entry_step. unfold pinned, get in Hp. rewrite Hi, He in Hp.
  destruct (ft_reservations t !! i) as [g|] eqn:Hg; [by bool_cases; subst |]. exfalso.
  apply lookup_lt_Some in He. apply lookup_ge_None in Hg. rewrite (fw_entries _ Hw) in He. rewrite (fw_reservations _ Hw) in Hg. lia.
Qed.
End Invariant.

(** ** Histories *)

Inductive fd_op (H : Type) : Type :=
  | OpReserveReplacement (fd : Z)
  | OpCommitReplacement (r : FdReplacement) (e : Entry H)
  | OpCancelReplacement (r : FdReplacement)
  | OpReserve (minimum limit : Z)
  | OpCommit (r : FdReservation) (e : Entry H)
  | OpCancel (r : FdReservation)
  | OpReservePair (minimum limit : Z)
  | OpCommitPair (r0 r1 : FdReservation) (e0 e1 : Entry H)
  | OpReserveUpTo (minimum limit : Z) (maximum : nat)
  | OpCommitGroup (g : FdReservations) (es : list (Entry H)) (output : list Z)
  | OpCancelGroup (g : FdReservations)
  | OpClear
  | OpInstall (minimum limit : Z) (e : Entry H)
  | OpInstallAt (fd : Z) (e : Entry H)
  | OpSetFlags (fd flags : Z)
  | OpTake (fd : Z)
  | OpClose (fd : Z)
  | OpDuplicate (fd minimum limit : Z) (close_on_exec : bool)
  | OpDuplicateTo (source target : Z)
  | OpCloseForSpawn (fd : Z)
  | OpDuplicateForSpawn (source target : Z)
  | OpCloseOnExec.
Arguments OpReserveReplacement {H}.
Arguments OpCommitReplacement {H}.
Arguments OpCancelReplacement {H}.
Arguments OpReserve {H}.
Arguments OpCommit {H}.
Arguments OpCancel {H}.
Arguments OpReservePair {H}.
Arguments OpCommitPair {H}.
Arguments OpReserveUpTo {H}.
Arguments OpCommitGroup {H}.
Arguments OpCancelGroup {H}.
Arguments OpClear {H}.
Arguments OpInstall {H}.
Arguments OpInstallAt {H}.
Arguments OpSetFlags {H}.
Arguments OpTake {H}.
Arguments OpClose {H}.
Arguments OpDuplicate {H}.
Arguments OpDuplicateTo {H}.
Arguments OpCloseForSpawn {H}.
Arguments OpDuplicateForSpawn {H}.
Arguments OpCloseOnExec {H}.

(** The reservation tokens that an operation is given. *)
Definition op_uses {H} (op : fd_op H) (i : nat) (g : Z) : Prop :=
  match op with
  | OpCommitReplacement r _ | OpCancelReplacement r => rp_index r = i /\ rp_generation r = g
  | OpCommit r _ | OpCancel r => rv_index r = i /\ rv_generation r = g
  | OpCommitPair r0 r1 _ _ => (rv_index r0 = i /\ rv_generation r0 = g) \/ (rv_index r1 = i /\ rv_generation r1 = g)
  | OpCommitGroup gr _ _ | OpCancelGroup gr => i ∈ rg_indices gr /\ rg_generation gr = g
  | OpClear => True
  | _ => False
  end.

Section Exec.
Context {H O Er : Type} `{HandleOps H O Er}.

Definition fd_exec (op : fd_op H) (t : FdTable H) (o : O) : FdTable H * O :=
  match op with
  | OpReserveReplacement fd => (fst (reserve_replacement t fd), o)
  | OpCommitReplacement r e => (fst (commit_replacement t r e), o)
  | OpCancelReplacement r => (fst (cancel_replacement t r), o)
  | OpReserve a b => (fst (reserve_from t a b), o)
  | OpCommit r e => (fst (commit_reservation t r e), o)
  | OpCancel r => (fst (cancel_reservation t r), o)
  | OpReservePair a b => (fst (reserve_pair_from t a b), o)
  | OpCommitPair r0 r1 e0 e1 => (fst (commit_pair t r0 r1 e0 e1), o)
  | OpReserveUpTo a b n => (fst (reserve_up_to t a b n), o)
  | OpCommitGroup g es out => (fst (fst (commit_group t g es out)), o)
  | OpCancelGroup g => (fst (cancel_group t g), o)
  | OpClear => (clear_reservations t, o)
  | OpInstall a b e => (fst (install_from t a b e), o)
  | OpInstallAt fd e => fst (install_at t o fd e)
  | OpSetFlags fd f => (fst (set_descriptor_flags t fd f), o)
  | OpTake fd => (fst (take_entry t fd), o)
  | OpClose fd => fst (close t o fd)
  | OpDuplicate fd a b c => fst (duplicate_from t o fd a b c)
  | OpDuplicateTo s d => fst (duplicate_to t o s d)
  | OpCloseForSpawn fd => close_for_spawn t o fd
  | OpDuplicateForSpawn s d => fst (duplicate_for_spawn t o s d)
  | OpCloseOnExec => close_on_exec t o
  end.

Fixpoint fd_run (ops : list (fd_op H)) (t : FdTable H) (o : O) : FdTable H * O :=
  match ops with
  | [] => (t, o)
  | op :: ops => let (t, o) := fd_exec op t o in fd_run ops t o
  end.
End Exec.

Section ExecFacts.
Context {H O Er : Type} `{HandleOps H O Er}.
Implicit Types (t : FdTable H) (o : O) (U : nat -> Z -> Prop).
Abbreviation steps U := (rtc (micro U)).

Lemma install_at_steps U t o fd e : steps U t (fst (fst (install_at t o fd e))).
Proof.
  unfold install_at. destruct (fd_index fd) as [i|]; [|done]. destruct (_ <=? _)%nat; [done |].
  destruct (ft_reservations t !! i) as [g|] eqn:Hg; [|done]. destruct (ft_entries t !! i); [|done].
  destruct (Z.eqb_spec g 0) as [->|]; [|done]. by apply steps_1, set_entry_step.
Qed.

Lemma close_steps U t o fd : fd_wf t -> steps U t (fst (fst (close t o fd))).
Proof.
  intros Hw. unfold close. destruct (fd_index fd) as [i|] eqn:Hi; [|done]. destruct (pinned t fd i) eqn:Hp; [done |].
  destruct (ft_entries t !! i) as [[e|]|] eqn:He; [|done..]. apply steps_1. by eapply unpinned_step.
Qed.

Lemma duplicate_from_steps U t o fd a b c : steps U t (fst (fst (duplicate_from t o fd a b c))).
Proof.
  unfold duplicate_from. destruct (get t fd); [|done]. destruct (bad_range a b); [done |].
  destruct (find_free t a b) eqn:Hf; [|done]. destruct (clone_handle _ _ _) as [o' [h|]]; [|done]. by eapply find_free_steps.
Qed.

Lemma reserve_replacement_Ok t fd t' r e :
  reserve_replacement t fd = (t', Ok (r, e)) ->
  fd_index fd = Some (rp_index r) /\ rp_generation r = ft_next_reservation t + 1 /\
  ft_reservations t !! rp_index r = Some 0 /\ ft_entries t !! rp_index r = Some e /\
  ft_next_reservation t + 1 <= U64_MAX /\
  t' = set_reservation (set_next t (rp_generation r)) (rp_index r) (rp_generation r).
Proof.
  unfold reserve_replacement. destruct (fd_index fd) as [i|]; [|done]. destruct (_ <=? _)%nat; [done |].
  destruct (ft_reservations t !! i) as [g|] eqn:Hg; [|done]. destruct (ft_entries t !! i) as [e'|] eqn:He; [|done].
  destruct (Z.eqb_spec g 0) as [->|]; [|done]. cbn [negb].
  destruct (next_generation _ 1) as [n|] eqn:Hn; [|done]. apply next_generation_Some in Hn as [-> Hn].
  intros [= <- <- <-]. cbn. split_and!; (done || lia).
Qed.

Lemma reserve_replacement_err t fd t' x : reserve_replacement t fd = (t', Err x) -> t' = t.
Proof.
  unfold reserve_replacement. destruct (fd_index fd) as [i|]; [|by intros [= <-]].
  destruct (_ <=? _)%nat; [by intros [= <-] |]. destruct (ft_reservations t !! i) as [g|]; [|done].
  destruct (ft_entries t !! i); [|done]. destruct (negb _); [by intros [= <-] |].
  destruct (next_generation _ 1); [done | by intros [= <-]].
Qed.

Lemma duplicate_to_steps U t o s d :
  (forall i g, ft_next_reservation t < g -> U i g) -> steps U t (fst (fst (duplicate_to t o s d))).
Proof.
  intros HU. unfold duplicate_to. destruct (_ || _); [done |]. destruct (s =? d); [by destruct (get t s) |].
  destruct (get t s) as [src|]; [|done]. pose proof (reserve_replacement_steps U t d) as Hs.
  destruct (reserve_replacement t d) as [t1 [[r e]|x|]] eqn:Hr; cbn [fst] in Hs; [|by destruct x|done].
  apply reserve_replacement_Ok in Hr as (_ & Hg & _).
  assert (U (rp_index r) (rp_generation r)) as HUr by (apply HU; lia).
  destruct (clone_handle _ _ _) as [o' [h|er]]; cbn [fst].
  - pose proof (commit_replacement_steps U t1 r {| en_handle := h; en_rights := en_rights src;
      en_descriptor_flags := without_cloexec (en_descriptor_flags src) |} HUr) as Hc.
    destruct (commit_replacement t1 r _) as [t2 [dis|x|]]; cbn [fst] in *; by etrans.
  - etrans; [exact Hs |]. by apply cancel_replacement_steps.
Qed.

Lemma duplicate_for_spawn_steps U t o s d :
  (forall i g, ft_next_reservation t < g -> U i g) -> steps U t (fst (fst (duplicate_for_spawn t o s d))).
Proof.
  intros HU. unfold duplicate_for_spawn. pose proof (duplicate_to_steps U t o s d HU) as Hs.
  destruct (duplicate_to t o s d) as [[t1 o1] [fd|x|]]; cbn [fst] in *; [|done..].
  destruct (fd_index fd) as [i|]; [|done]. destruct (ft_entries t1 !! i) as [[e|]|] eqn:He; [|done..].
  eapply rtc_r; [exact Hs |]. by apply m_flags.
Qed.

Lemma close_on_exec_slots_spec es : forall o rs,
  length (fst (close_on_exec_slots o es rs)) = length es /\
  forall i, rs !! i <> Some 0 -> fst (close_on_exec_slots o es rs) !! i = es !! i.
Proof.
  induction es as [|slot es IH]; intros o rs; cbn [close_on_exec_slots]; [by destruct rs |].
  destruct rs as [|g rs]; [done |].
  destruct (match slot with Some _ => _ | None => _ end) as [slot' o'] eqn:Hs.
  destruct (close_on_exec_slots o' es rs) as [rest o''] eqn:Hr. cbn [fst length].
  specialize (IH o' rs). rewrite Hr in IH. cbn [fst] in IH. destruct IH as [IH1 IH2]. split; [by rewrite IH1 |].
  intros [|i] Hi; cbn in *; [|by apply IH2]. destruct slot as [e|]; [|by simplify_eq].
  destruct (Z.eqb_spec g 0) as [->|]; [done |]. cbn in Hs. by simplify_eq.
Qed.

Lemma close_on_exec_steps U t o : steps U t (fst (close_on_exec t o)).
Proof.
  unfold close_on_exec. destruct (close_on_exec_slots_spec (ft_entries t) o (ft_reservations t)) as [H1 H2].
  destruct (close_on_exec_slots _ _ _) as [es o']. cbn in *. apply steps_1. by apply m_entries.
Qed.

(** Every operation is a sequence of elementary steps that use its own tokens or ones it issued itself. *)
Lemma fd_exec_steps op t o :
  fd_wf t -> steps (fun i g => op_uses op i g \/ ft_next_reservation t < g) t (fst (fd_exec op t o)).
Proof.
  intros Hw. destruct op; cbn [fd_exec fst op_uses].
  - apply reserve_replacement_steps.
  - apply commit_replacement_steps. by left.
  - apply cancel_replacement_steps. by left.
  - apply reserve_from_steps.
  - apply commit_reservation_steps. by left.
  - apply cancel_reservation_steps. by left.
  - apply reserve_pair_steps.
  - apply commit_pair_steps; left; [by left | by right].
  - apply reserve_up_to_steps.
  - unfold commit_group. destruct (_ || _); [done |].
    destruct (group_valid t _ _) as [[]| |] eqn:Hv; [|done..]. apply group_valid_true in Hv.
    pose proof (commit_slots_steps (fun i g0 => (i ∈ rg_indices g /\ rg_generation g = g0) \/ ft_next_reservation t < g0)
      (rg_generation g) (rg_indices g) 
      ltac:(intros i Hi; by left) t es 0 output) as Hs.
    destruct (commit_slots _ _ _ _ _). apply Hs. eapply Forall_impl; [exact Hv | auto].
  - apply cancel_slots_steps. auto.
  - apply steps_1, m_clear. auto.
  - unfold install_from. destruct (fd_index minimum), (fd_index limit); try done. destruct (_ || _); [done |].
    destruct (find_free t minimum limit) eqn:Hf; [|done]. by eapply find_free_steps.
  - apply install_at_steps.
  - apply flags_steps.
  - unfold take_entry. destruct (fd_index fd) as [i|] eqn:Hi; [|done]. destruct (pinned t fd i) eqn:Hp; [done |].
    destruct (ft_entries t !! i) as [[e|]|] eqn:He; [|done..]. apply steps_1. by eapply unpinned_step.
  - by apply close_steps.
  - apply duplicate_from_steps.
  - apply duplicate_to_steps. auto.
  - unfold close_for_spawn. destruct (get t fd); [|done]. by apply close_steps.
  - apply duplicate_for_spawn_steps. auto.
  - apply close_on_exec_steps.
Qed.

Lemma fd_exec_wf op t o : fd_wf t -> fd_wf (fst (fd_exec op t o)).
Proof. intros Hw. eapply steps_wf; [by apply fd_exec_steps | done]. Qed.

Lemma live_token_issued t i g : fd_wf t -> ft_reservations t !! i = Some g -> g <= ft_next_reservation t.
Proof. intros Hw Hi. pose proof (fw_issued _ Hw) as Hf. rewrite Forall_lookup in Hf. apply Hf in Hi. lia. Qed.

(** A pending token survives whatever others do. *)
Lemma fd_run_isolated ops i g : forall t o,
  fd_wf t -> g <> 0 -> ft_reservations t !! i = Some g -> Forall (fun op => ~ op_uses op i g) ops ->
  let t' := fst (fd_run ops t o) in
  fd_wf t' /\ ft_reservations t' !! i = Some g /\ same_file (ft_entries t !! i) (ft_entries t' !! i).
Proof.
  induction ops as [|op ops IH]; intros t o Hw Hg Hi Hf; cbn [fd_run].
  { auto using same_file_refl. }
  apply Forall_cons in Hf as [Hop Hf]. pose proof (fd_exec_steps op t o Hw) as Hs. pose proof (live_token_issued _ _ _ Hw Hi).
  destruct (steps_isolated _ _ _ i g Hs Hg Hi) as [Hi1 Hf1]; [naive_solver lia |].
  pose proof (fd_exec_wf op t o Hw) as Hw1. destruct (fd_exec op t o) as [t1 o1]. cbn [fst] in *.
  destruct (IH t1 o1 Hw1 Hg Hi1 Hf) as (Ha & Hb & Hc). eauto using same_file_trans.
Qed.

(** A token that was used or dropped stays dead. *)
Lemma fd_run_stale ops i g : forall t o,
  fd_wf t -> 0 < g <= ft_next_reservation t -> ft_reservations t !! i <> Some g ->
  let t' := fst (fd_run ops t o) in fd_wf t' /\ ft_reservations t' !! i <> Some g.
Proof.
  induction ops as [|op ops IH]; intros t o Hw Hg Hi; cbn [fd_run]; [done |].
  pose proof (fd_exec_steps op t o Hw) as Hs. destruct (steps_stale _ _ _ i g Hs Hg Hi) as [Hi1 Hn].
  pose proof (fd_exec_wf op t o Hw) as Hw1. destruct (fd_exec op t o) as [t1 o1]. cbn [fst] in *.
  apply IH; [done | lia | done].
Qed.
End ExecFacts.

(** ** Theorems *)

Section Theorems.
Context {H O Er : Type} `{HandleOps H O Er}.

Lemma commit_reservation_live (t : FdTable H) r e :
  ft_reservations t !! rv_index r = Some (rv_generation r) -> ft_entries t !! rv_index r = Some None ->
  commit_reservation t r e = (publish t (rv_index r) e, Ok (Z.of_nat (rv_index r))).
Proof.
  intros Hr He. unfold commit_reservation, cancel_reservation, token_valid. by rewrite Hr, He, Z.eqb_refl.
Qed.

Lemma commit_reservation_dead (t : FdTable H) r e :
  fd_wf t -> (rv_index r < DEFAULT_FD_LIMIT)%nat -> ft_reservations t !! rv_index r <> Some (rv_generation r) ->
  commit_reservation t r e = (t, Err InvalidDescriptor).
Proof.
  intros Hw Hi Hr. unfold commit_reservation, cancel_reservation, token_valid.
  destruct (ft_reservations t !! rv_index r) as [g|] eqn:Hg.
  - destruct (ft_entries t !! rv_index r) as [x|] eqn:He.
    + rewrite (proj2 (Z.eqb_neq g _)) by congruence. done.
    + apply lookup_ge_None in He. rewrite (fw_entries _ Hw) in He. lia.
  - apply lookup_ge_None in Hg. rewrite (fw_reservations _ Hw) in Hg. lia.
Qed.

Lemma reserve_from_Ok (t : FdTable H) a b t1 r :
  reserve_from t a b = (t1, Ok r) ->
  (rv_index r < Z.to_nat b)%nat /\ is_free t (rv_index r) = true /\ rv_generation r = ft_next_reservation t + 1 /\
  rv_generation r <= U64_MAX /\ t1 = set_reservation (set_next t (rv_generation r)) (rv_index r) (rv_generation r).
Proof.
  unfold reserve_from. destruct (bad_range a b); [done |]. destruct (find_free t a b) as [i|] eqn:Hf; [|done].
  apply find_free_Some in Hf as (Hr & Hi & _). destruct (next_generation _ 1) as [n|] eqn:Hn; [|done].
  apply next_generation_Some in Hn as [-> Hn]. intros [= <- <-]. cbn. split_and!; (done || lia).
Qed.

(** The slot of a reservation is empty as long as the token is live, whoever else holds it. *)
Definition pending (i : nat) (g : Z) (t : FdTable H) : Prop :=
  0 < g <= ft_next_reservation t /\ (ft_reservations t !! i = Some g -> ft_entries t !! i = Some None).

Lemma micro_pending U (t t' : FdTable H) i g : micro U t t' -> pending i g t -> pending i g t'.
Proof.
  intros Hm [Hg Hp]. destruct Hm as [es Hl Hes | j e f He | ix g' Hz Hg' | j g' Hj HU' | HU'].
  - split; [done |]. cbn. intros Hi. rewrite Hes; [by apply Hp |]. rewrite Hi. intros [=]. lia.
  - split; [done |]. cbn. intros Hi. specialize (Hp Hi). rewrite list_lookup_insert_ne; [done |]. intros ->. congruence.
  - destruct (foldl_reservation_spec ix g' (set_next t g')) as (E1 & E2 & _). fold (reserve_all t ix g') in E1, E2.
    unfold pending. rewrite E1, E2, reserve_all_lookup. cbn. split; [lia |]. destruct (decide _); [intros [=]; lia | done].
  - split; [done |]. cbn. intros Hi. apply Hp. destruct (decide (i = j)) as [->|]; [|by rewrite list_lookup_insert_ne in Hi].
    rewrite list_lookup_insert_eq in Hi by (by eapply lookup_lt_Some). simplify_eq. lia.
  - split; [done |]. cbn [clear_reservations ft_reservations]. intros Hi. apply lookup_replicate in Hi as [Hi _]. lia.
Qed.

Lemma fd_run_pending ops i g : forall (t : FdTable H) o,
  fd_wf t -> pending i g t -> fd_wf (fst (fd_run ops t o)) /\ pending i g (fst (fd_run ops t o)).
Proof.
  induction ops as [|op ops IH]; intros t o Hw Hp; cbn [fd_run]; [done |].
  pose proof (fd_exec_wf op t o Hw) as Hw1. pose proof (fd_exec_steps op t o Hw) as Hs.
  destruct (fd_exec op t o) as [t1 o1]. cbn [fst] in *. apply IH; [done |]. clear IH Hw Hw1.
  revert Hs. generalize (fun i g => op_uses op i g \/ ft_next_reservation t < g). intros U Hs.
  induction Hs; eauto using micro_pending.
Qed.

(** After its commit or cancellation a token is gone. *)
Lemma token_spent (t t' : FdTable H) r e :
  fd_wf t -> (rv_index r < DEFAULT_FD_LIMIT)%nat -> pending (rv_index r) (rv_generation r) t ->
  t' = fst (commit_reservation t r e) \/ t' = fst (cancel_reservation t r) ->
  ft_reservations t' !! rv_index r <> Some (rv_generation r) /\ ft_next_reservation t' = ft_next_reservation t.
Proof.
  intros Hw Hi [Hg Hp] Ht. destruct (decide (ft_reservations t !! rv_index r = Some (rv_generation r))) as [Hr|Hr].
  - rewrite commit_reservation_live in Ht by auto. unfold cancel_reservation, token_valid in Ht.
    rewrite Hr, (Hp Hr), Z.eqb_refl in Ht. cbn in Ht.
    assert (<[rv_index r := 0]> (ft_reservations t) !! rv_index r <> Some (rv_generation r)).
    { rewrite list_lookup_insert_eq by (by eapply lookup_lt_Some). intros [=]. lia. }
    destruct Ht as [-> | ->]; done.
  - rewrite commit_reservation_dead in Ht by done. unfold cancel_reservation, token_valid in Ht.
    assert (t' = t) as ->; [|done]. destruct Ht as [->|Ht]; [done |].
    destruct (ft_reservations t !! rv_index r) as [g|]; [|done]. destruct (ft_entries t !! rv_index r); [|done].
    by rewrite (proj2 (Z.eqb_neq g _)) in Ht by congruence.
Qed.

(** C18: A descriptor reserved for an open belongs to its token.  Whatever other operations run meanwhile (opens,
    closes, duplications, replacements, groups, close-on-exec), as long as none is given the token and
    no fork clears the table, the slot stays empty and the commit publishes the entry at that
    descriptor.  Once it was committed or cancelled the token is dead: no later history makes
    a commit with it succeed or change the table. *)
Theorem fd_reservation_exclusive (t : FdTable H) o minimum limit t1 r e
    (Hw : fd_wf t) (Hr : reserve_from t minimum limit = (t1, Ok r)) :
  (forall ops, Forall (fun op => ~ op_uses op (rv_index r) (rv_generation r)) ops ->
     let t2 := fst (fd_run ops t1 o) in
     get t2 (FdReservation_descriptor r) = None /\
     exists t3, commit_reservation t2 r e = (t3, Ok (FdReservation_descriptor r)) /\
       get t3 (FdReservation_descriptor r) = Some e) /\
  (forall ops t3 o' ops', t3 = fst (commit_reservation (fst (fd_run ops t1 o)) r e) \/
                       t3 = fst (cancel_reservation (fst (fd_run ops t1 o)) r) ->
     let t4 := fst (fd_run ops' t3 o') in
     commit_reservation t4 r e = (t4, Err InvalidDescriptor)).
Proof.
  pose proof (fd_exec_wf (OpReserve minimum limit) t o Hw) as Hw1. cbn [fd_exec fst] in Hw1. rewrite Hr in Hw1. cbn [fst] in Hw1.
  apply reserve_from_Ok in Hr as (Hi & [He Hz]%is_free_spec & Hg & Hmax & ->).
  set (t1 := set_reservation _ _ _) in *. pose proof (fw_next _ Hw) as Hn.
  assert (ft_reservations t1 !! rv_index r = Some (rv_generation r)) as Hr1.
  { apply list_lookup_insert_eq. by eapply lookup_lt_Some. }
  assert (rv_index r < DEFAULT_FD_LIMIT)%nat as Hlt.
  { rewrite <- (fw_entries _ Hw). by eapply lookup_lt_Some. }
  assert (fd_index (FdReservation_descriptor r) = Some (rv_index r)) as Hfd.
  { unfold fd_index, FdReservation_descriptor. rewrite (proj2 (Z.ltb_ge _ _)) by lia. by rewrite Nat2Z.id. }
  split.
  - intros ops Hops. destruct (fd_run_isolated ops (rv_index r) (rv_generation r) t1 o Hw1 ltac:(lia) Hr1 Hops)
      as (Hw2 & Hr2 & Hf2). cbv zeta in *. set (t2 := fst (fd_run ops t1 o)) in *.
    change (ft_entries t1) with (ft_entries t) in Hf2. rewrite He in Hf2.
    assert (ft_entries t2 !! rv_index r = Some None) as He2 by (destruct (ft_entries t2 !! rv_index r) as [[]|]; by simplify_eq/=).
    split; [unfold get; by rewrite Hfd, He2 |]. rewrite commit_reservation_live by done. eexists. split; [done |].
    unfold get, publish. rewrite Hfd. cbn. by rewrite list_lookup_insert_eq by (by eapply lookup_lt_Some).
  - intros ops t3 o' ops' Ht3. cbv zeta.
    destruct (fd_run_pending ops (rv_index r) (rv_generation r) t1 o Hw1) as [Hw2 Hp2].
    { split; [cbn; lia | done]. }
    set (t2 := fst (fd_run ops t1 o)) in *.
    destruct (token_spent t2 t3 r e Hw2 Hlt Hp2 Ht3) as [Hr3 Hn3]. destruct Hp2 as [Hg2 _].
    assert (fd_wf t3) as Hw3.
    { destruct Ht3 as [-> | ->]; [apply (fd_exec_wf (OpCommit r e) t2 o Hw2) | apply (fd_exec_wf (OpCancel r) t2 o Hw2)]. }
    destruct (fd_run_stale ops' (rv_index r) (rv_generation r) t3 o' Hw3 ltac:(lia) Hr3) as [Hw4 Hr4].
    by apply commit_reservation_dead.
Qed.

(** The lowest descriptor of the range that is neither open nor reserved. *)
Definition lowest_free (t : FdTable H) (minimum limit fd : Z) : Prop :=
  minimum <= fd < limit /\ get t fd = None /\ is_reserved t fd = false /\
  forall j, minimum <= j < fd -> get t j <> None \/ is_reserved t j = true.

Definition none_free (t : FdTable H) (minimum limit : Z) : Prop :=
  forall j, minimum <= j < limit -> get t j <> None \/ is_reserved t j = true.

Lemma is_free_get (t : FdTable H) j :
  fd_wf t -> 0 <= j < 256 -> is_free t (Z.to_nat j) = true <-> get t j = None /\ is_reserved t j = false.
Proof.
  intros Hw Hj. rewrite is_free_spec. unfold get, is_reserved, fd_index. rewrite (proj2 (Z.ltb_ge _ _)) by lia.
  destruct (ft_entries t !! Z.to_nat j) as [e|] eqn:He.
  - destruct (ft_reservations t !! Z.to_nat j) as [g|] eqn:Hg.
    + rewrite negb_false_iff, Z.eqb_eq. naive_solver.
    + apply lookup_ge_None in Hg. rewrite (fw_reservations _ Hw) in Hg. unfold DEFAULT_FD_LIMIT in Hg. lia.
  - apply lookup_ge_None in He. rewrite (fw_entries _ Hw) in He. unfold DEFAULT_FD_LIMIT in He. lia.
Qed.

Lemma find_free_lowest (t : FdTable H) a b :
  fd_wf t -> 0 <= a -> b <= 256 ->
  match find_free t a b with
  | Some i => lowest_free t a b (Z.of_nat i)
  | None => none_free t a b
  end.
Proof.
  intros Hw Ha Hb.
  assert (forall j, 0 <= j < 256 -> is_free t (Z.to_nat j) = false -> get t j <> None \/ is_reserved t j = true) as Hocc.
  { intros j Hj Hf. pose proof (is_free_get t j Hw Hj) as Hi. rewrite Hf in Hi.
    destruct (get t j); [by left |]. destruct (is_reserved t j); [by right | naive_solver]. }
  destruct (find_free t a b) as [i|] eqn:Hf.
  - apply find_free_Some in Hf as (Hr & Hi & Hlow). rewrite <- (Nat2Z.id i), is_free_get in Hi by (done || lia).
    destruct Hi as [Hi1 Hi2]. split_and!; [lia | lia | done | done |]. intros j Hj. apply Hocc; [lia |]. apply Hlow. lia.
  - intros j Hj. apply Hocc; [lia |]. eapply find_free_None; [exact Hf |]. lia.
Qed.

Lemma get_set_entry (t : FdTable H) i e j :
  (i < length (ft_entries t))%nat -> get (set_entry t i e) j = if decide (j = Z.of_nat i) then e else get t j.
Proof.
  intros Hi. unfold get, fd_index. destruct (Z.ltb_spec j 0).
  - by rewrite decide_False by lia.
  - cbn [set_entry ft_entries]. destruct (decide (j = Z.of_nat i)) as [->|].
    + by rewrite Nat2Z.id, list_lookup_insert_eq.
    + rewrite list_lookup_insert_ne by lia. done.
Qed.

Lemma lowest_free_lt (t : FdTable H) a b i : find_free t a b = Some i -> (i < length (ft_entries t))%nat.
Proof. intros (_ & [He _]%is_free_spec & _)%find_free_Some. by eapply lookup_lt_Some. Qed.

(** Opening and duplicating use the lowest descriptor of the given range that is neither open nor reserved, as
    POSIX requires, and change nothing else; without one they fail and change nothing, and in
    particular no handle is cloned. *)
Theorem fd_lowest_descriptor (t : FdTable H) o minimum limit (Hw : fd_wf t) :
  (forall e t' r, install_from t minimum limit e = (t', r) ->
     match r with
     | Ok fd => lowest_free t minimum limit fd /\ (forall j, get t' j = if decide (j = fd) then Some e else get t j)
     | Err x => x = InvalidDescriptor /\ t' = t /\ (bad_range minimum limit = true \/ none_free t minimum limit)
     | Panic => False
     end) /\
  (forall fd cloexec t' o' r, duplicate_from t o fd minimum limit cloexec = (t', o', r) ->
     match r with
     | Ok fd' => lowest_free t minimum limit fd' /\
         exists source h, get t fd = Some source /\ clone_handle o (en_handle source) (en_rights source) = (o', inl h) /\
         forall j, get t' j = if decide (j = fd')
           then Some {| en_handle := h; en_rights := en_rights source; en_descriptor_flags := if cloexec then FD_CLOEXEC else 0 |}
           else get t j
     | Err (HandleError x) => t' = t /\ exists source,
         get t fd = Some source /\ clone_handle o (en_handle source) (en_rights source) = (o', inr x)
     | Err _ => t' = t /\ o' = o /\ (get t fd = None \/ bad_range minimum limit = true \/ none_free t minimum limit)
     | Panic => False
     end).
Proof.
  split.
  - intros e t' r. unfold install_from, fd_index, bad_range, DEFAULT_FD_LIMIT.
    destruct (Z.ltb_spec minimum 0); [by intros [= <- <-]; auto |].
    destruct (Z.ltb_spec limit 0).
    { intros [= <- <-]. split_and!; [done | done |]. right. intros j Hj. lia. }
    destruct (Z.leb_spec limit minimum); [by intros [= <- <-]; auto |].
    destruct (Z.ltb_spec (Z.of_nat 256) limit); [by intros [= <- <-]; auto |].
    destruct (Z.ltb_spec 2147483647 limit); [lia |]. cbn [orb].
    pose proof (find_free_lowest t minimum limit Hw ltac:(lia) ltac:(lia)) as Hf.
    destruct (find_free t minimum limit) as [i|] eqn:Hi; intros [= <- <-]; [|auto]. split; [done |].
    intros j. apply get_set_entry. by eapply lowest_free_lt.
  - intros fd cloexec t' o' r. unfold duplicate_from. destruct (get t fd) as [src|] eqn:Hs; [|by intros [= <- <- <-]; auto].
    destruct (bad_range minimum limit) eqn:Hb; [by intros [= <- <- <-]; auto |].
    unfold bad_range, DEFAULT_FD_LIMIT in Hb. bool_cases.
    pose proof (find_free_lowest t minimum limit Hw ltac:(lia) ltac:(lia)) as Hf.
    destruct (find_free t minimum limit) as [i|] eqn:Hi; [|by intros [= <- <- <-]; auto].
    destruct (clone_handle o _ _) as [o1 [h|er]] eqn:Hc; intros [= <- <- <-]; [|eauto].
    split; [done |]. exists src, h. split_and!; [done | done |]. intros j. apply get_set_entry. by eapply lowest_free_lt.
Qed.
End Theorems.

Lemma fd_wf_new {H} : fd_wf (@FdTable_new H).
Proof.
  split; cbn [FdTable_new ft_entries ft_reservations ft_next_reservation]; rewrite ?length_replicate; try done.
  apply Forall_replicate. lia.
Qed.

(** Handles that are numbers and operations that always succeed, for the witnesses. *)
#[local] Instance plain_ops : HandleOps Z unit unit := {| clone_handle o h _ := (o, inl (h + 1)); close_handle o _ := o |}.

Lemma fd_reservation_exclusive_witness :
  exists (t1 : FdTable Z) r, reserve_from FdTable_new 0 256 = (t1, Ok r) /\
  let t2 := fst (fd_run [OpInstall 0 256 {| en_handle := 7; en_rights := 1; en_descriptor_flags := 0 |}; OpClose 0] t1 tt) in
  get t2 (FdReservation_descriptor r) = None.
Proof.
  eexists _, _. split; [vm_compute; reflexivity |].
  refine (proj1 (proj1 (fd_reservation_exclusive (Er := unit) FdTable_new tt 0 256 _ {| rv_index := 0; rv_generation := 1 |}
    {| en_handle := 7; en_rights := 1; en_descriptor_flags := 0 |} fd_wf_new ltac:(vm_compute; reflexivity)) _ _)).
  repeat constructor; intros [].
Defined.

Lemma fd_lowest_descriptor_witness :
  exists t', install_from (H := Z) FdTable_new 3 256 {| en_handle := 7; en_rights := 1; en_descriptor_flags := 0 |} = (t', Ok 3) /\
  lowest_free (H := Z) FdTable_new 3 256 3.
Proof.
  eexists. split; [vm_compute; reflexivity |].
  refine (proj1 (proj1 (fd_lowest_descriptor (Er := unit) FdTable_new tt 3 256 fd_wf_new)
    {| en_handle := 7; en_rights := 1; en_descriptor_flags := 0 |} _ (Ok 3) ltac:(vm_compute; reflexivity))).
Defined.
