(* ===== verification/FdOwnership.v ===== *)
(** * Handles are owned once: the ledger theorem on [FdTable]

    A ledger of live native references is an instance of [HandleOps]: cloning adds a fresh reference or is denied,
    closing takes one away, and closing a reference that is not live counts as an error. *)

From stdpp Require Import gmultiset.
From S2P Require Import Prelude FdTable FdInvariant.

Record Ledger : Type := {
  lg_live : gmultiset Z;
  lg_next : Z;
  lg_deny : list bool;
  lg_errors : nat }.

Definition ledger_clone (o : Ledger) (h rights : Z) : Ledger * (Z + unit) :=
  match lg_deny o with
  | true :: deny => ({| lg_live := lg_live o; lg_next := lg_next o; lg_deny := deny; lg_errors := lg_errors o |}, inr tt)
  | _ => ({| lg_live := lg_live o ⊎ {[+ lg_next o +]}; lg_next := lg_next o + 1; lg_deny := tail (lg_deny o);
             lg_errors := lg_errors o |}, inl (lg_next o))
  end.

Definition ledger_close (o : Ledger) (h : Z) : Ledger :=
  if decide (h ∈ lg_live o)
  then {| lg_live := lg_live o ∖ {[+ h +]}; lg_next := lg_next o; lg_deny := lg_deny o; lg_errors := lg_errors o |}
  else {| lg_live := lg_live o; lg_next := lg_next o; lg_deny := lg_deny o; lg_errors := S (lg_errors o) |}.

#[export] Instance ledger_ops : HandleOps Z Ledger unit := {| clone_handle := ledger_clone; close_handle := ledger_close |}.

Abbreviation table := (FdTable Z).

(** The handle of a slot and the handles of a table. *)
Definition slot_handle (e : option (Entry Z)) : gmultiset Z :=
  match e with Some e => {[+ en_handle e +]} | None => ∅ end.
Definition slots_handles (es : list (option (Entry Z))) : gmultiset Z := foldr (fun e m => slot_handle e ⊎ m) ∅ es.
Definition handles (t : table) : gmultiset Z := slots_handles (ft_entries t).
Definition entries_handles (es : list (Entry Z)) : gmultiset Z := foldr (fun e m => {[+ en_handle e +]} ⊎ m) ∅ es.

(** What an operation takes over from its caller, and what it hands back. *)
Definition taken (op : fd_op Z) (t : table) (o : Ledger) : gmultiset Z :=
  match op with
  | OpCommitReplacement r e => match snd (commit_replacement t r e) with Ok _ => {[+ en_handle e +]} | _ => ∅ end
  | OpCommit r e => match snd (commit_reservation t r e) with Ok _ => {[+ en_handle e +]} | _ => ∅ end
  | OpCommitPair r0 r1 e0 e1 =>
      match snd (commit_pair t r0 r1 e0 e1) with Ok _ => {[+ en_handle e0 +]} ⊎ {[+ en_handle e1 +]} | _ => ∅ end
  | OpCommitGroup g es out => match snd (commit_group t g es out) with Ok _ => entries_handles es | _ => ∅ end
  | OpInstall a b e => match snd (install_from t a b e) with Ok _ => {[+ en_handle e +]} | _ => ∅ end
  | OpInstallAt fd e => match snd (install_at t o fd e) with Ok _ => {[+ en_handle e +]} | _ => ∅ end
  | _ => ∅
  end.

Definition returned (op : fd_op Z) (t : table) : gmultiset Z :=
  match op with
  | OpCommitReplacement r e => match snd (commit_replacement t r e) with Ok displaced => slot_handle displaced | _ => ∅ end
  | OpTake fd => match snd (take_entry t fd) with Ok e => {[+ en_handle e +]} | _ => ∅ end
  | _ => ∅
  end.

(** A group token lists different slots. *)
Definition op_ok (op : fd_op Z) : Prop :=
  match op with OpCommitGroup g _ _ => NoDup (rg_indices g) | _ => True end.

(** ** Slots *)

(** Equations between sums of multisets, by counting. *)
Ltac balance :=
  apply gmultiset_eq; let x := fresh "x" in intros x;
  repeat match goal with Hh : @eq (gmultiset Z) _ _ |- _ => apply (f_equal (multiplicity x)) in Hh end;
  rewrite ?multiplicity_disj_union, ?multiplicity_empty in *; lia.

Lemma slots_insert es i old new :
  es !! i = Some old -> slots_handles (<[i := new]> es) ⊎ slot_handle old = slots_handles es ⊎ slot_handle new.
Proof.
  revert i. induction es as [|e es IH]; intros [|i] Hi; cbn in Hi; simplify_eq; cbn [slots_handles foldr insert list_insert].
  - balance.
  - specialize (IH i Hi). change (foldr _ _ (<[i := new]> es)) with (slots_handles (<[i := new]> es)).
    change (foldr _ _ es) with (slots_handles es). balance.
Qed.

Lemma handles_set_entry (t : table) i old new :
  ft_entries t !! i = Some old -> handles (set_entry t i new) ⊎ slot_handle old = handles t ⊎ slot_handle new.
Proof. apply slots_insert. Qed.

Lemma handles_slot (t : table) i e : ft_entries t !! i = Some (Some e) -> {[+ en_handle e +]} ⊆ handles t.
Proof.
  intros Hi. pose proof (handles_set_entry t i (Some e) None Hi) as Hs. cbn [slot_handle] in Hs.
  rewrite gmultiset_disj_union_right_id in Hs. rewrite <- Hs. apply gmultiset_disj_union_subseteq_r.
Qed.

(** Closing a live handle takes it off the ledger. *)
Lemma ledger_close_live o h :
  {[+ h +]} ⊆ lg_live o ->
  lg_live (ledger_close o h) ⊎ {[+ h +]} = lg_live o /\ lg_errors (ledger_close o h) = lg_errors o.
Proof.
  intros Hh. unfold ledger_close. rewrite decide_True by (by apply gmultiset_singleton_subseteq_l). cbn. split; [|done].
  rewrite (comm_L (⊎)). symmetry. by apply gmultiset_disj_union_difference.
Qed.

(** The books balance: live references, those in the table before and those taken over are the live references before,
    those in the table after and those handed back. *)
Definition balanced (t t' : table) (o o' : Ledger) (tk rt : gmultiset Z) : Prop :=
  lg_live o' ⊎ handles t ⊎ tk = lg_live o ⊎ handles t' ⊎ rt /\ lg_errors o' = lg_errors o.

Lemma balanced_refl t t' o : handles t' = handles t -> balanced t t' o o ∅ ∅.
Proof. intros Hh. split; [|done]. by rewrite Hh. Qed.

(** An entry is put into an empty slot, or taken out of a slot. *)
Lemma balanced_put t i e o : ft_entries t !! i = Some None -> balanced t (set_entry t i (Some e)) o o {[+ en_handle e +]} ∅.
Proof.
  intros Hi. split; [|done]. pose proof (handles_set_entry t i None (Some e) Hi) as Hs. cbn [slot_handle] in Hs. balance.
Qed.

Lemma balanced_close t i e o :
  handles t ⊆ lg_live o -> ft_entries t !! i = Some (Some e) ->
  balanced t (set_entry t i None) o (ledger_close o (en_handle e)) ∅ ∅.
Proof.
  intros Hl Hi. destruct (ledger_close_live o (en_handle e)) as [H1 H2]; [etrans; [by eapply handles_slot | done] |].
  split; [|done]. pose proof (handles_set_entry t i (Some e) None Hi) as Hs. cbn [slot_handle] in Hs. balance.
Qed.

(** An entry replaces what a slot held, which is closed. *)
Lemma balanced_replace t i old e o :
  handles t ⊆ lg_live o -> ft_entries t !! i = Some old ->
  balanced t (set_entry t i (Some e)) o
    (match old with Some replaced => ledger_close o (en_handle replaced) | None => o end) {[+ en_handle e +]} ∅.
Proof.
  intros Hl Hi. destruct old as [x|]; [|by apply balanced_put].
  destruct (ledger_close_live o (en_handle x)) as [H1 H2]; [etrans; [by eapply handles_slot | done] |].
  split; [|done]. pose proof (handles_set_entry t i (Some x) (Some e) Hi) as Hs. cbn [slot_handle] in Hs. balance.
Qed.

(** Cloning gives a fresh live reference or leaves the live ones alone. *)
Lemma ledger_clone_spec o h r :
  match ledger_clone o h r with
  | (o', inl h') => lg_live o' = lg_live o ⊎ {[+ h' +]} /\ lg_errors o' = lg_errors o
  | (o', inr _) => lg_live o' = lg_live o /\ lg_errors o' = lg_errors o
  end.
Proof. unfold ledger_clone. by destruct (lg_deny o) as [|[]]. Qed.

(** ** Operations *)

Lemma handles_reservation (t : table) i g : handles (set_reservation t i g) = handles t.
Proof. done. Qed.

Lemma handles_flags (t : table) i e f :
  ft_entries t !! i = Some (Some e) ->
  handles (set_entry t i (Some {| en_handle := en_handle e; en_rights := en_rights e; en_descriptor_flags := f |})) = handles t.
Proof.
  intros Hi. pose proof (handles_set_entry t i (Some e)
    (Some {| en_handle := en_handle e; en_rights := en_rights e; en_descriptor_flags := f |}) Hi) as Hs. cbn [slot_handle en_handle] in Hs.
  balance.
Qed.

Lemma find_free_empty (t : table) a b i : find_free t a b = Some i -> ft_entries t !! i = Some None.
Proof. intros (_ & [He _]%is_free_spec & _)%find_free_Some. done. Qed.

Lemma publish_balanced t i e o :
  ft_entries t !! i = Some None -> balanced t (publish t i e) o o {[+ en_handle e +]} ∅.
Proof. intros Hi. apply (balanced_put (set_reservation t i 0)). exact Hi. Qed.

Lemma commit_slots_handles indices : NoDup indices -> forall (t : table) es p out,
  Forall (fun i => ft_entries t !! i = Some None) indices -> (length es <= length indices)%nat ->
  handles (fst (commit_slots t indices es p out)) = handles t ⊎ entries_handles es.
Proof.
  induction 1 as [|i indices Hi Hn IH]; intros t es p out Hf Hl; cbn [commit_slots fst].
  { destruct es; [|cbn in Hl; lia]. cbn. balance. }
  apply Forall_cons in Hf as [He Hf]. destruct es as [|e es]; cbn [length] in Hl.
  - rewrite IH; [done | exact Hf | cbn; lia].
  - rewrite IH; [| |lia].
    + pose proof (handles_set_entry (set_reservation t i 0) i None (Some e) He) as Hs. cbn [slot_handle] in Hs.
      change (handles (set_reservation t i 0)) with (handles t) in Hs. cbn [entries_handles foldr].
      fold (entries_handles es). balance.
    + rewrite Forall_forall in Hf |- *. intros j Hj. cbn. rewrite list_lookup_insert_ne; [by apply Hf |].
      intros ->. done.
Qed.

Lemma cancel_slots_entries indices g : forall (t : table) n, ft_entries (fst (cancel_slots t indices g n)) = ft_entries t.
Proof.
  induction indices as [|i indices IH]; intros t n; cbn [cancel_slots]; [done |].
  destruct (token_valid t i g) as [[]| |]; [|by rewrite IH|done|done]. by rewrite IH.
Qed.

Lemma group_valid_empty (t : table) indices g :
  group_valid t indices g = Ok true -> Forall (fun i => ft_entries t !! i = Some None) indices.
Proof.
  induction indices as [|i indices IH]; cbn [group_valid]; [by constructor |].
  destruct (token_valid t i g) as [[]| |] eqn:E; [|done..]. intros Hv. apply token_valid_true in E as [_ ?].
  constructor; auto.
Qed.

Lemma close_on_exec_balanced es : forall o rs,
  slots_handles es ⊆ lg_live o ->
  lg_live (snd (close_on_exec_slots o es rs)) ⊎ slots_handles es =
    lg_live o ⊎ slots_handles (fst (close_on_exec_slots o es rs)) /\
  lg_errors (snd (close_on_exec_slots o es rs)) = lg_errors o.
Proof.
  induction es as [|e es IH]; intros o rs Hl; [by destruct rs |]. destruct rs as [|g rs]; [done |].
  cbn [close_on_exec_slots]. change (slots_handles (e :: es)) with (slot_handle e ⊎ slots_handles es) in *.
  assert (slots_handles es ⊆ lg_live o) as Hl' by (etrans; [apply gmultiset_disj_union_subseteq_r | exact Hl]).
  destruct e as [e|].
  - destruct ((g =? 0) && negb (Z.land (en_descriptor_flags e) FD_CLOEXEC =? 0)).
    + assert ({[+ en_handle e +]} ⊆ lg_live o) as Hh by (etrans; [apply gmultiset_disj_union_subseteq_l | exact Hl]).
      destruct (ledger_close_live o (en_handle e) Hh) as [H1 H2].
      assert (slots_handles es ⊆ lg_live (ledger_close o (en_handle e))) as Hl2.
      { intros x. specialize (Hl x). apply (f_equal (multiplicity x)) in H1. cbn [slot_handle] in Hl.
        rewrite multiplicity_disj_union in H1, Hl. lia. }
      destruct (IH (ledger_close o (en_handle e)) rs Hl2) as [H3 H4].
      change (close_handle o (en_handle e)) with (ledger_close o (en_handle e)).
      destruct (close_on_exec_slots (ledger_close o (en_handle e)) es rs) as [rest o']. cbn [fst snd slot_handle] in *.
      change (slots_handles (None :: rest)) with (∅ ⊎ slots_handles rest). split; [balance | congruence].
    + destruct (IH o rs Hl') as [H3 H4]. destruct (close_on_exec_slots o es rs) as [rest o']. cbn [fst snd] in *.
      change (slots_handles (Some e :: rest)) with (slot_handle (Some e) ⊎ slots_handles rest). split; [balance | done].
  - destruct (IH o rs Hl') as [H3 H4]. destruct (close_on_exec_slots o es rs) as [rest o']. cbn [fst snd] in *.
    change (slots_handles (None :: rest)) with (slot_handle None ⊎ slots_handles rest). split; [balance | done].
Qed.

Lemma duplicate_to_balanced (t : table) o s d :
  fd_wf t -> handles t ⊆ lg_live o ->
  balanced t (fst (fst (duplicate_to t o s d))) o (snd (fst (duplicate_to t o s d))) ∅ ∅.
Proof.
  intros Hw Hl. unfold duplicate_to. destruct (_ || _); [by apply balanced_refl |].
  destruct (s =? d); [by destruct (get t s); apply balanced_refl |].
  destruct (get t s) as [src|]; [|by apply balanced_refl].
  destruct (reserve_replacement t d) as [t1 [[r e]|x|]] eqn:Hr.
  - apply reserve_replacement_Ok in Hr as (_ & Hg & Hz & He & _ & ->).
    set (t1 := set_reservation _ _ _). assert (ft_reservations t1 !! rp_index r = Some (rp_generation r)) as Hr1.
    { apply list_lookup_insert_eq. by eapply lookup_lt_Some. }
    change (clone_handle o (en_handle src) (en_rights src)) with (ledger_clone o (en_handle src) (en_rights src)).
    pose proof (ledger_clone_spec o (en_handle src) (en_rights src)) as Hc.
    destruct (ledger_clone o _ _) as [o1 [h|er]]; destruct Hc as [Hlive Herr].
    + unfold commit_replacement. change (ft_entries t1) with (ft_entries t). rewrite Hr1, He, Z.eqb_refl. cbn [negb fst snd].
      set (entry := {| en_handle := h; en_rights := _; en_descriptor_flags := _ |}).
      destruct (balanced_replace t (rp_index r) e entry o1) as [Hb1 Hb2]; [|done|].
      { rewrite Hlive. etrans; [exact Hl | apply gmultiset_disj_union_subseteq_l]. }
      split; [|by rewrite <- Herr].
      change (handles (set_entry (set_reservation t1 (rp_index r) 0) (rp_index r) (Some entry)))
        with (handles (set_entry t (rp_index r) (Some entry))).
      change (en_handle entry) with h in Hb1.
      change (@close_handle Z Ledger unit ledger_ops) with ledger_close. balance.
    + unfold cancel_replacement. rewrite Hr1, Z.eqb_refl. cbn [negb fst snd].
      split; [|done]. change (handles (set_reservation t1 (rp_index r) 0)) with (handles t). balance.
  - apply reserve_replacement_err in Hr as ->. by destruct x; apply balanced_refl.
  - exfalso. unfold reserve_replacement in Hr. destruct (fd_index d) as [i|]; [|done].
    destruct (Nat.leb_spec DEFAULT_FD_LIMIT i); [done |].
    destruct (lookup_lt_is_Some_2 (ft_reservations t) i) as [g Hg]; [rewrite (fw_reservations _ Hw); lia |].
    destruct (lookup_lt_is_Some_2 (ft_entries t) i) as [e He]; [rewrite (fw_entries _ Hw); lia |].
    rewrite Hg, He in Hr. destruct (negb _); [done |]. by destruct (next_generation _ 1).
Qed.

Lemma duplicate_for_spawn_balanced (t : table) o s d :
  fd_wf t -> handles t ⊆ lg_live o ->
  balanced t (fst (fst (duplicate_for_spawn t o s d))) o (snd (fst (duplicate_for_spawn t o s d))) ∅ ∅.
Proof.
  intros Hw Hl. pose proof (duplicate_to_balanced t o s d Hw Hl) as [H1 H2]. unfold duplicate_for_spawn.
  destruct (duplicate_to t o s d) as [[t1 o1] [fd|x|]]; cbn [fst snd] in *; [|done..].
  destruct (fd_index fd) as [i|]; [|done]. destruct (ft_entries t1 !! i) as [[e|]|] eqn:He; [|done..].
  cbn [fst snd]. split; [|done]. by rewrite handles_flags.
Qed.

Lemma close_balanced (t : table) o fd :
  handles t ⊆ lg_live o -> balanced t (fst (fst (close t o fd))) o (snd (fst (close t o fd))) ∅ ∅.
Proof.
  intros Hl. unfold close. destruct (fd_index fd) as [i|]; [|by apply balanced_refl].
  destruct (pinned t fd i); [by apply balanced_refl |].
  destruct (ft_entries t !! i) as [[e|]|] eqn:He; [|by apply balanced_refl..]. by apply balanced_close.
Qed.

Lemma fd_exec_balanced op (t : table) o :
  op_ok op -> fd_wf t -> handles t ⊆ lg_live o ->
  balanced t (fst (fd_exec op t o)) o (snd (fd_exec op t o)) (taken op t o) (returned op t).
Proof.
  intros Hop Hw Hl. destruct op; cbn [fd_exec taken returned fst snd].
  - apply balanced_refl. unfold reserve_replacement. repeat (case_match; try done).
  - unfold commit_replacement. destruct (ft_reservations t !! rp_index r); [|by apply balanced_refl].
    destruct (ft_entries t !! rp_index r) as [old|] eqn:He; [|by apply balanced_refl].
    destruct (negb _); [by apply balanced_refl |]. cbn [fst snd]. split; [|done].
    pose proof (handles_set_entry (set_reservation t (rp_index r) 0) (rp_index r) old (Some e) He) as Hs.
    change (handles (set_reservation t (rp_index r) 0)) with (handles t) in Hs. cbn [slot_handle] in Hs.
    destruct old; cbn [slot_handle] in Hs |- *; balance.
  - apply balanced_refl. unfold cancel_replacement. by repeat (case_match; try done).
  - apply balanced_refl. unfold reserve_from. by repeat (case_match; try done).
  - unfold commit_reservation, cancel_reservation. destruct (token_valid _ _ _) as [[]| |] eqn:Ev; [|by apply balanced_refl..].
    apply token_valid_true in Ev as [_ He]. by apply publish_balanced.
  - apply balanced_refl. unfold cancel_reservation. by repeat (case_match; try done).
  - apply balanced_refl. unfold reserve_pair_from. by repeat (case_match; try done).
  - unfold commit_pair. destruct (Nat.eqb_spec (rv_index r0) (rv_index r1)) as [|Hne]; [by apply balanced_refl |].
    destruct (token_valid t (rv_index r0) _) as [[]| |] eqn:E0; [|by apply balanced_refl..].
    destruct (token_valid t (rv_index r1) _) as [[]| |] eqn:E1; [|by apply balanced_refl..].
    apply token_valid_true in E0 as [_ E0], E1 as [_ E1]. cbn [fst snd].
    destruct (publish_balanced t (rv_index r0) e0 o E0) as [Hb0 _].
    destruct (publish_balanced (publish t (rv_index r0) e0) (rv_index r1) e1 o) as [Hb1 _];
      [cbn; by rewrite list_lookup_insert_ne |]. split; [balance | done].
  - apply balanced_refl. unfold reserve_up_to. destruct (_ || _); [done |]. case_bool_decide; [done |].
    destruct (next_generation _ 1); [|done]. cbn [fst]. unfold handles.
    by rewrite (proj1 (foldl_reservation_spec _ _ (set_next t z))).
  - unfold commit_group. destruct (_ || _) eqn:Hlen; [by apply balanced_refl |]. bool_cases.
    destruct (group_valid t _ _) as [[]| |] eqn:Hv; [|by apply balanced_refl..]. apply group_valid_empty in Hv.
    pose proof (commit_slots_handles (rg_indices g) Hop t es 0 output Hv ltac:(lia)) as Hs.
    destruct (commit_slots _ _ _ _ _) as [t1 out]. cbn [fst snd] in *. split; [balance | done].
  - apply balanced_refl. unfold handles, cancel_group. by rewrite cancel_slots_entries.
  - by apply balanced_refl.
  - unfold install_from. destruct (fd_index minimum), (fd_index limit); try (by apply balanced_refl).
    destruct (_ || _); [by apply balanced_refl |]. destruct (find_free t minimum limit) eqn:Hf; [|by apply balanced_refl].
    by eapply balanced_put, find_free_empty.
  - unfold install_at. destruct (fd_index fd) as [i|]; [|by apply balanced_refl]. destruct (_ <=? _)%nat; [by apply balanced_refl |].
    destruct (ft_reservations t !! i); [|by apply balanced_refl].
    destruct (ft_entries t !! i) as [old|] eqn:He; [|by apply balanced_refl].
    destruct (negb _); [by apply balanced_refl |]. by apply balanced_replace.
  - apply balanced_refl. unfold set_descriptor_flags. destruct (fd_index fd) as [i|]; [|done].
    destruct (ft_entries t !! i) as [[e|]|] eqn:He; [|done..]. by apply handles_flags.
  - unfold take_entry. destruct (fd_index fd) as [i|]; [|by apply balanced_refl]. destruct (pinned t fd i); [by apply balanced_refl |].
    destruct (ft_entries t !! i) as [[e|]|] eqn:He; [|by apply balanced_refl..]. cbn [fst snd]. split; [|done].
    pose proof (handles_set_entry t i (Some e) None He) as Hs. cbn [slot_handle] in Hs. balance.
  - by apply close_balanced.
  - unfold duplicate_from. destruct (get t fd) as [src|]; [|by apply balanced_refl]. destruct (bad_range minimum limit); [by apply balanced_refl |].
    destruct (find_free t minimum limit) as [i|] eqn:Hf; [|by apply balanced_refl]. apply find_free_empty in Hf.
    change (clone_handle o (en_handle src) (en_rights src)) with (ledger_clone o (en_handle src) (en_rights src)).
    pose proof (ledger_clone_spec o (en_handle src) (en_rights src)) as Hc.
    destruct (ledger_clone o _ _) as [o1 [h|er]]; destruct Hc as [Hlive Herr]; cbn [fst snd].
    + set (entry := {| en_handle := h; en_rights := _; en_descriptor_flags := _ |}).
      destruct (balanced_put t i entry o1 Hf) as [Hb _]. change (en_handle entry) with h in Hb. split; [balance | done].
    + split; [balance | done].
  - by apply duplicate_to_balanced.
  - unfold close_for_spawn. destruct (get t fd); [|by apply balanced_refl]. by apply close_balanced.
  - by apply duplicate_for_spawn_balanced.
  - unfold close_on_exec. destruct (close_on_exec_balanced (ft_entries t) o (ft_reservations t) Hl) as [H1 H2].
    destruct (close_on_exec_slots o _ _) as [es o']. cbn [fst snd] in *. split; [|done]. unfold handles. cbn [ft_entries]. balance.
Qed.

(** ** Histories *)

(** A history of operations by callers that pass only references they own; [caller] are the references outside
    the table. *)
Inductive owned_run : table -> Ledger -> gmultiset Z -> table -> Ledger -> gmultiset Z -> Prop :=
  | owned_done t o caller : owned_run t o caller t o caller
  | owned_step op t o caller t' o' caller' :
      op_ok op -> taken op t o ⊆ caller ->
      owned_run (fst (fd_exec op t o)) (snd (fd_exec op t o)) (caller ∖ taken op t o ⊎ returned op t) t' o' caller' ->
      owned_run t o caller t' o' caller'.

(** C11: Native references are owned once.  If every live reference is in the table or with the callers, this remains so over
    any history of table operations, duplications that fail included: none is leaked, none is closed twice, and none
    that a caller holds is closed behind its back. *)
Theorem fd_handles_owned_once t o caller t' o' caller'
    (Hw : fd_wf t) (Howned : lg_live o = handles t ⊎ caller) (Hrun : owned_run t o caller t' o' caller') :
  fd_wf t' /\ lg_live o' = handles t' ⊎ caller' /\ lg_errors o' = lg_errors o.
Proof.
  induction Hrun as [|op t o caller t' o' caller' Hop Htk Hrun IH]; [done |].
  assert (handles t ⊆ lg_live o) as Hl by (rewrite Howned; apply gmultiset_disj_union_subseteq_l).
  destruct (fd_exec_balanced op t o Hop Hw Hl) as [Hb He].
  destruct IH as (H1 & H2 & H3); [by apply fd_exec_wf | | split_and!; [done | done | congruence]].
  apply gmultiset_disj_union_difference in Htk. balance.
Qed.

Definition sample_entry : Entry Z := {| en_handle := 7; en_rights := 3; en_descriptor_flags := 0 |}.

Definition sample_ledger : Ledger := {| lg_live := {[+ 7 +]}; lg_next := 100; lg_deny := [true]; lg_errors := 0 |}.
Definition sample_open : fd_op Z := OpInstall 0 256 sample_entry.
Definition sample_table : table := fst (fd_exec sample_open FdTable_new sample_ledger).

Lemma sample_run :
  owned_run FdTable_new sample_ledger {[+ 7 +]} sample_table sample_ledger
    ({[+ 7 +]} ∖ taken sample_open FdTable_new sample_ledger ⊎ ∅).
Proof. eapply (owned_step sample_open); [exact I | by_compute | apply owned_done]. Qed.

Lemma sample_owned : lg_live sample_ledger = handles FdTable_new ⊎ {[+ 7 +]}.
Proof. by_compute. Qed.

Lemma fd_handles_owned_once_witness :
  lg_live sample_ledger = handles sample_table ⊎ ({[+ 7 +]} ∖ taken sample_open FdTable_new sample_ledger ⊎ ∅).
Proof.
  apply (fd_handles_owned_once FdTable_new sample_ledger {[+ 7 +]} sample_table sample_ledger _ fd_wf_new
    sample_owned sample_run).
Defined.
