(* ===== verification/FdLaunch.v ===== *)
(** * Descriptors across a program launch ([posix-client/src/fd.rs], [posix-protocol/src/lib.rs])

    The parent writes, for each descriptor, a metadata word and possibly a handle into the launch context of the child
    ([stage_launch_context]); the child rebuilds its table from it ([restore_launch_context]).  The context is the
    caller's [LaunchContextOps], with state [C]; each of its operations answers [inl] or an error [inr].
    The closure [restore], which creates the local object, threads a state [S] of the caller's. *)

From stdpp Require Import gmap.
From S2P Require Import Prelude FdTable FdInvariant.

(** ** The code: keys and metadata words *)

Definition FD_TABLE_KEY : Z := 0x4254444658534f50.
Definition FD_TABLE_VERSION : Z := 1.
Definition FD_HANDLE_KEY_PREFIX : Z := 0x504f534800000000.
Definition FD_METADATA_KEY_PREFIX : Z := 0x504f534600000000.
Definition FD_KEY_INDEX_MASK : Z := U32_MAX.
Definition FD_METADATA_TAG : Z := 0x5046.
Definition INHERITED_FD_DESCRIPTOR_CLOEXEC : Z := 1.

Record InheritedFdMetadata : Type := { im_kind : Z; im_open_flags : Z; im_descriptor_flags : Z }.

Definition fd_handle_key (fd : Z) : option Z := if fd <? 0 then None else Some (Z.lor FD_HANDLE_KEY_PREFIX (wrap32 fd)).
Definition fd_metadata_key (fd : Z) : option Z := if fd <? 0 then None else Some (Z.lor FD_METADATA_KEY_PREFIX (wrap32 fd)).

Definition INHERITED_FD_KIND_STDIN : Z := 1.
Definition INHERITED_FD_KIND_STDOUT : Z := 2.
Definition INHERITED_FD_KIND_STDERR : Z := 3.
Definition INHERITED_FD_KIND_FILE : Z := 5.
Definition INHERITED_FD_KIND_DIRECTORY : Z := 6.
Definition INHERITED_FD_KIND_STREAM_READ : Z := 7.
Definition INHERITED_FD_KIND_STREAM_WRITE : Z := 8.
Definition INHERITED_FD_KIND_PTY : Z := 9.
Definition INHERITED_FD_KIND_SHARED_MEMORY : Z := 10.
Definition INHERITED_FD_KIND_SOCKET : Z := 11.
Definition INHERITED_FD_KIND_DATAGRAM : Z := 12.
Definition INHERITED_FD_KIND_SPECIAL : Z := 13.
Definition INHERITED_FD_KIND_TERMINAL_FILE : Z := 14.
Definition INHERITED_FD_KIND_FIFO : Z := 15.
Definition INHERITED_FD_KIND_SEQPACKET : Z := 16.

(** [matches!(kind, ..)]. *)
Definition kind_requires_handle (kind : Z) : bool :=
  existsb (Z.eqb kind)
    [INHERITED_FD_KIND_FILE; INHERITED_FD_KIND_DIRECTORY; INHERITED_FD_KIND_STREAM_READ;
     INHERITED_FD_KIND_STREAM_WRITE; INHERITED_FD_KIND_PTY; INHERITED_FD_KIND_SHARED_MEMORY;
     INHERITED_FD_KIND_SOCKET; INHERITED_FD_KIND_DATAGRAM; INHERITED_FD_KIND_SEQPACKET;
     INHERITED_FD_KIND_SPECIAL; INHERITED_FD_KIND_TERMINAL_FILE; INHERITED_FD_KIND_FIFO].
Definition valid_inherited_fd_kind (kind : Z) : bool :=
  existsb (Z.eqb kind)
    [INHERITED_FD_KIND_STDIN; INHERITED_FD_KIND_STDOUT; INHERITED_FD_KIND_STDERR;
     INHERITED_FD_KIND_FILE; INHERITED_FD_KIND_DIRECTORY; INHERITED_FD_KIND_STREAM_READ;
     INHERITED_FD_KIND_STREAM_WRITE; INHERITED_FD_KIND_PTY; INHERITED_FD_KIND_SHARED_MEMORY;
     INHERITED_FD_KIND_SOCKET; INHERITED_FD_KIND_DATAGRAM; INHERITED_FD_KIND_SEQPACKET;
     INHERITED_FD_KIND_SPECIAL; INHERITED_FD_KIND_TERMINAL_FILE; INHERITED_FD_KIND_FIFO].
Definition inherited_fd_kind_requires_handle (kind : Z) : option bool :=
  if negb (valid_inherited_fd_kind kind) then None else Some (kind_requires_handle kind).

(** [flags & !INHERITED_FD_DESCRIPTOR_CLOEXEC != 0] on [u8]. *)
Definition unknown_flags (flags : Z) : bool := negb (Z.land flags (Z.lxor 255 INHERITED_FD_DESCRIPTOR_CLOEXEC) =? 0).

Definition encode_inherited_fd_metadata (metadata : InheritedFdMetadata) : option Z :=
  if negb (valid_inherited_fd_kind (im_kind metadata)) || unknown_flags (im_descriptor_flags metadata) then None
  else Some (Z.lor (Z.lor (Z.lor (im_open_flags metadata) (Z.shiftl (im_descriptor_flags metadata) 32))
                     (Z.shiftl (im_kind metadata) 40)) (Z.shiftl FD_METADATA_TAG 48)).

Definition decode_inherited_fd_metadata (value : Z) : option InheritedFdMetadata :=
  if negb (Z.land (Z.shiftr value 48) 65535 =? FD_METADATA_TAG) then None else
  let metadata := {| im_kind := Z.land (Z.shiftr value 40) 255; im_open_flags := Z.land value U32_MAX;
                     im_descriptor_flags := Z.land (Z.shiftr value 32) 255 |} in
  if negb (valid_inherited_fd_kind (im_kind metadata)) || unknown_flags (im_descriptor_flags metadata) then None
  else Some metadata.

Definition inherited_fd_from_key (key : Z) : option Z :=
  let prefix := Z.land key (Z.lxor U64_MAX FD_KEY_INDEX_MASK) in
  if negb (prefix =? FD_HANDLE_KEY_PREFIX) && negb (prefix =? FD_METADATA_KEY_PREFIX) then None else
  let index := Z.land key FD_KEY_INDEX_MASK in
  if 2147483647 <? index then None else Some index.

(** ** The code: staging and restoring *)

Record LaunchFdDescription : Type := { ld_kind : Z; ld_open_flags : Z; ld_has_handle : bool }.

Class LaunchContextOps (H C Er : Type) : Type := {
  get_value : C -> Z -> C * (option Z + Er);
  get_handle : C -> Z -> C * (option H + Er);
  get_handle_rights : C -> H -> C * (Z + Er);
  set_value : C -> Z -> Z -> C * (unit + Er);
  remove_value : C -> Z -> C * (unit + Er);
  set_handle : C -> Z -> H -> C * (unit + Er);
  remove_handle : C -> Z -> C * (unit + Er) }.

Inductive LaunchFdError (Er : Type) : Type :=
  | Context (e : Er)
  | LaunchInvalidDescriptor
  | InvalidMetadata
  | MissingHandle
  | UnexpectedHandle.
Arguments Context {Er} e.
Arguments LaunchInvalidDescriptor {Er}.
Arguments InvalidMetadata {Er}.
Arguments MissingHandle {Er}.
Arguments UnexpectedHandle {Er}.

(** [context.operation(..).map_err(LaunchFdError::Context)?]. *)
Notation "'ctx?' x , c := m 'in' k" :=
  (match m with (c, inl x) => k | (c, inr e) => (c, Err (Context e)) end)
  (at level 10, x name, c name, m at level 100, k at level 200).

Section Launch.
Context {H : Type}.

Definition launch_entry_metadata {Er} (describe : H -> option LaunchFdDescription) (entry : Entry H)
    : result (LaunchFdError Er) (LaunchFdDescription * Z) :=
  let? description := ok_or (describe (en_handle entry)) InvalidMetadata in
  let? requires := ok_or (inherited_fd_kind_requires_handle (ld_kind description)) InvalidMetadata in
  if negb (bool_decide (requires = ld_has_handle description)) then Err InvalidMetadata else
  let? flags := ok_or (if en_descriptor_flags entry <=? 255 then Some (en_descriptor_flags entry) else None) InvalidMetadata in
  let? metadata := ok_or (encode_inherited_fd_metadata
    {| im_kind := ld_kind description; im_open_flags := ld_open_flags description; im_descriptor_flags := flags |})
    InvalidMetadata in
  Ok (description, metadata).

(** An open descriptor that the child keeps. *)
Definition kept (t : FdTable H) (fd : Z) : option (Entry H) :=
  match get t fd with
  | Some entry => if Z.land (en_descriptor_flags entry) FD_CLOEXEC =? 0 then Some entry else None
  | None => None
  end.

Section Context_.
Context {C Er : Type} `{LaunchContextOps H C Er}.

(** The body of the loop of [stage_launch_context]. *)
Definition stage_slot (t : FdTable H) (describe : H -> option LaunchFdDescription) (c : C) (index : nat)
    : C * result (LaunchFdError Er) unit :=
  let fd := Z.of_nat index in
  match fd_handle_key fd, fd_metadata_key fd with
  | Some handle_key, Some metadata_key =>
      match kept t fd with
      | None =>
          ctx? u, c := remove_value c metadata_key in
          ctx? u, c := remove_handle c handle_key in (c, Ok tt)
      | Some entry =>
          match launch_entry_metadata describe entry with
          | Ok (description, metadata) =>
              ctx? u, c := (if ld_has_handle description then set_handle c handle_key (en_handle entry)
                            else remove_handle c handle_key) in
              ctx? u, c := set_value c metadata_key metadata in (c, Ok tt)
          | Err e => (c, Err e)
          | Panic => (c, Panic)
          end
      end
  | _, _ => (c, Err LaunchInvalidDescriptor)
  end.

(** [for index in ..]; [todo] indices are left. *)
Fixpoint stage_loop (t : FdTable H) (describe : H -> option LaunchFdDescription) (c : C) (index todo : nat)
    : C * result (LaunchFdError Er) unit :=
  match todo with
  | O => (c, Ok tt)
  | S todo =>
      match stage_slot t describe c index with
      | (c, Ok _) => stage_loop t describe c (S index) todo
      | r => r
      end
  end.

Definition stage_launch_context (t : FdTable H) (descriptor_limit : nat) (c : C)
    (describe : H -> option LaunchFdDescription) : C * result (LaunchFdError Er) unit :=
  if (DEFAULT_FD_LIMIT <? descriptor_limit)%nat || (2147483647 <? Z.of_nat descriptor_limit)
  then (c, Err LaunchInvalidDescriptor) else
  match stage_loop t describe c 0 descriptor_limit with
  | (c, Ok _) => ctx? u, c := set_value c FD_TABLE_KEY FD_TABLE_VERSION in (c, Ok tt)
  | r => r
  end.

Context {O HEr S_ : Type} `{HandleOps H O HEr}.
Variable restore : S_ -> InheritedFdMetadata -> option (H * Z) -> S_ * option H.

(** The variables of [restore_launch_context]. *)
Record Restore : Type := { rs_table : FdTable H; rs_context : C; rs_ops : O; rs_state : S_; rs_restored : bool }.

(** The handle that the metadata calls for, with its rights. *)
Definition attachment (c : C) (requires_handle : bool) (handle : option H)
    : C * result (LaunchFdError Er) (option (H * Z)) :=
  match requires_handle, handle with
  | true, Some handle => ctx? rights, c := get_handle_rights c handle in (c, Ok (Some (handle, rights)))
  | true, None => (c, Err MissingHandle)
  | false, Some _ => (c, Err UnexpectedHandle)
  | false, None => (c, Ok None)
  end.

(** The body of the loop. *)
Definition restore_slot (r : Restore) (index : nat) : Restore * result (LaunchFdError Er) unit :=
  let fd := Z.of_nat index in
  let with_context c := {| rs_table := rs_table r; rs_context := c; rs_ops := rs_ops r; rs_state := rs_state r;
                           rs_restored := rs_restored r |} in
  match fd_metadata_key fd, fd_handle_key fd with
  | Some metadata_key, Some handle_key =>
      match get_value (rs_context r) metadata_key with
      | (c, inr e) => (with_context c, Err (Context e))
      | (c, inl None) => (with_context c, Ok tt)
      | (c, inl (Some encoded)) =>
          match decode_inherited_fd_metadata encoded with
          | None => (with_context c, Err InvalidMetadata)
          | Some metadata =>
              if negb (Z.land (im_descriptor_flags metadata) INHERITED_FD_DESCRIPTOR_CLOEXEC =? 0)
              then (with_context c, Err InvalidMetadata) else
              match get_handle c handle_key with
              | (c, inr e) => (with_context c, Err (Context e))
              | (c, inl handle) =>
                  match inherited_fd_kind_requires_handle (im_kind metadata) with
                  | None => (with_context c, Err InvalidMetadata)
                  | Some requires_handle =>
                      match attachment c requires_handle handle with
                      | (c, Ok att) =>
                          let rights := match att with Some (_, rights) => rights | None => 0 end in
                          match restore (rs_state r) metadata att with
                          | (s, None) =>
                              ({| rs_table := rs_table r; rs_context := c; rs_ops := rs_ops r; rs_state := s;
                                  rs_restored := rs_restored r |}, Err InvalidMetadata)
                          | (s, Some handle) =>
                              let '(t, o, res) := install_at (rs_table r) (rs_ops r) fd
                                {| en_handle := handle; en_rights := rights;
                                   en_descriptor_flags := im_descriptor_flags metadata |} in
                              ({| rs_table := t; rs_context := c; rs_ops := o; rs_state := s;
                                  rs_restored := match res with Ok _ => true | _ => rs_restored r end |},
                               match res with Ok _ => Ok tt | Err _ => Err LaunchInvalidDescriptor | Panic => Panic end)
                          end
                      | (c, Err e) => (with_context c, Err e)
                      | (c, Panic) => (with_context c, Panic)
                      end
                  end
              end
          end
      end
  | _, _ => (r, Err LaunchInvalidDescriptor)
  end.

Fixpoint restore_loop (r : Restore) (index todo : nat) : Restore * result (LaunchFdError Er) bool :=
  match todo with
  | 0%nat => (r, Ok (rs_restored r))
  | S todo =>
      match restore_slot r index with
      | (r, Ok _) => restore_loop r (S index) todo
      | (r, Err e) => (r, Err e)
      | (r, Panic) => (r, Panic)
      end
  end.

Definition restore_launch_context (t : FdTable H) (descriptor_limit : nat) (c : C) (o : O) (s : S_)
    : Restore * result (LaunchFdError Er) bool :=
  let start t c restored := {| rs_table := t; rs_context := c; rs_ops := o; rs_state := s; rs_restored := restored |} in
  if (DEFAULT_FD_LIMIT <? descriptor_limit)%nat || (2147483647 <? Z.of_nat descriptor_limit)
  then (start t c false, Err LaunchInvalidDescriptor) else
  match get_value c FD_TABLE_KEY with
  | (c, inr e) => (start t c false, Err (Context e))
  | (c, inl None) => restore_loop (start FdTable_new c false) 0 descriptor_limit
  | (c, inl (Some version)) =>
      if version =? FD_TABLE_VERSION then restore_loop (start FdTable_new c true) 0 descriptor_limit
      else (start t c false, Err InvalidMetadata)
  end.

End Context_.
End Launch.

(** ** Keys and metadata words *)

(** Fields that do not overlap: [|] of a shifted field is a sum. *)
Lemma lor_shiftl_add a b n : 0 <= n -> 0 <= a < 2 ^ n -> Z.lor a (Z.shiftl b n) = a + b * 2 ^ n.
Proof.
  intros Hn Ha. rewrite <- Z.shiftl_mul_pow2 by done.
  assert (Z.land a (Z.shiftl b n) = 0) as H0.
  { apply Z.bits_inj'. intros k Hk. rewrite Z.land_spec, Z.bits_0. destruct (Z.ltb_spec k n).
    - rewrite Z.shiftl_spec_low by done. apply andb_false_r.
    - rewrite <- (Z.mod_small a (2 ^ n)) by done. by rewrite Z.mod_pow2_bits_high by lia. }
  rewrite Z.add_nocarry_lxor by done. by rewrite Z.lxor_lor.
Qed.

(** A key is its prefix and the descriptor. *)
Lemma key_sum p fd : 0 <= fd <= 2147483647 -> Z.lor (Z.shiftl p 32) (wrap32 fd) = p * 4294967296 + fd.
Proof.
  intros Hf. rewrite wrap32_small by (widths; lia). rewrite Z.lor_comm, lor_shiftl_add by lia. lia.
Qed.

Lemma fd_handle_key_eq fd : 0 <= fd <= 2147483647 -> fd_handle_key fd = Some (0x504f5348 * 4294967296 + fd).
Proof.
  intros Hf. unfold fd_handle_key. rewrite (proj2 (Z.ltb_ge _ _)) by lia. f_equal. by apply (key_sum 0x504f5348).
Qed.

Lemma fd_metadata_key_eq fd : 0 <= fd <= 2147483647 -> fd_metadata_key fd = Some (0x504f5346 * 4294967296 + fd).
Proof.
  intros Hf. unfold fd_metadata_key. rewrite (proj2 (Z.ltb_ge _ _)) by lia. f_equal. by apply (key_sum 0x504f5346).
Qed.

(** [key & !FD_KEY_INDEX_MASK] drops the low half. *)
Lemma key_prefix k : is_u64 k -> Z.land k (Z.lxor U64_MAX FD_KEY_INDEX_MASK) = k / 4294967296 * 4294967296.
Proof.
  intros Hk. change (Z.lxor U64_MAX FD_KEY_INDEX_MASK) with (Z.shiftl (Z.ones 32) 32).
  change 4294967296 with (2 ^ 32). rewrite <- Z.shiftr_div_pow2, <- Z.shiftl_mul_pow2 by lia.
  apply Z.bits_inj'. intros n Hn. rewrite Z.land_spec. destruct (Z.ltb_spec n 32).
  - rewrite !(Z.shiftl_spec_low _ _ n) by lia. apply andb_false_r.
  - rewrite !Z.shiftl_spec, Z.shiftr_spec by lia. replace (n - 32 + 32) with n by lia. destruct (Z.ltb_spec n 64).
    + rewrite Z.ones_spec_low by lia. apply andb_true_r.
    + rewrite Z.ones_spec_high by lia. rewrite andb_false_r. symmetry.
      rewrite <- (Z.mod_small k (2 ^ 64)) by (widths; lia). by rewrite Z.mod_pow2_bits_high by lia.
Qed.

(** The keys of descriptors, and no other words, are recognised, with their descriptor. *)
Lemma inherited_fd_from_key_exact k fd : is_u64 k -> 0 <= fd <= 2147483647 ->
  inherited_fd_from_key k = Some fd <-> fd_handle_key fd = Some k \/ fd_metadata_key fd = Some k.
Proof.
  intros Hk Hf. rewrite fd_handle_key_eq, fd_metadata_key_eq by done. unfold inherited_fd_from_key.
  rewrite key_prefix by done. change FD_KEY_INDEX_MASK with (Z.ones 32). rewrite Z.land_ones by lia.
  change (2 ^ 32) with 4294967296. unfold FD_HANDLE_KEY_PREFIX, FD_METADATA_KEY_PREFIX. widths.
  split.
  - destruct (_ && _) eqn:Hp; [done |]. destruct (Z.ltb_spec 2147483647 (k mod 4294967296)); [done |]. intros [= <-].
    apply andb_false_iff in Hp as [Hp|Hp]; apply negb_false_iff, Z.eqb_eq in Hp; [left | right]; f_equal;
      Z.div_mod_to_equations; lia.
  - intros [E|E]; injection E as <-; rewrite Z.div_add_l, Z.div_small, Z.add_0_r by lia;
      rewrite (Z.add_comm _ fd), Z.mod_add, Z.mod_small by lia; cbn; by rewrite (proj2 (Z.ltb_ge _ _)) by lia.
Qed.

Definition metadata_wf (m : InheritedFdMetadata) : Prop :=
  is_u8 (im_kind m) /\ is_u32 (im_open_flags m) /\ is_u8 (im_descriptor_flags m).

Definition metadata_word (m : InheritedFdMetadata) : Z :=
  im_open_flags m + im_descriptor_flags m * 4294967296 + im_kind m * 1099511627776 + FD_METADATA_TAG * 281474976710656.

Lemma encode_word m : metadata_wf m ->
  encode_inherited_fd_metadata m =
    if negb (valid_inherited_fd_kind (im_kind m)) || unknown_flags (im_descriptor_flags m) then None
    else Some (metadata_word m).
Proof.
  intros (Hk & Ho & Hd). unfold encode_inherited_fd_metadata. destruct (_ || _); [done |]. f_equal. widths.
  rewrite (lor_shiftl_add _ (im_descriptor_flags m)), (lor_shiftl_add _ (im_kind m)), lor_shiftl_add by lia.
  unfold metadata_word. lia.
Qed.

Lemma decode_word v : 0 <= v ->
  decode_inherited_fd_metadata v =
    if negb (v / 281474976710656 mod 65536 =? FD_METADATA_TAG) then None else
    let m := {| im_kind := v / 1099511627776 mod 256; im_open_flags := v mod 4294967296;
                im_descriptor_flags := v / 4294967296 mod 256 |} in
    if negb (valid_inherited_fd_kind (im_kind m)) || unknown_flags (im_descriptor_flags m) then None else Some m.
Proof.
  intros Hv. unfold decode_inherited_fd_metadata.
  change 65535 with (Z.ones 16). change 255 with (Z.ones 8). change U32_MAX with (Z.ones 32).
  rewrite !Z.land_ones, !Z.shiftr_div_pow2 by lia. done.
Qed.

Lemma metadata_word_fields m : metadata_wf m ->
  let v := metadata_word m in
  is_u64 v /\ v / 281474976710656 mod 65536 = FD_METADATA_TAG /\ v / 1099511627776 mod 256 = im_kind m /\
  v mod 4294967296 = im_open_flags m /\ v / 4294967296 mod 256 = im_descriptor_flags m.
Proof.
  intros (Hk & Ho & Hd) v. subst v. unfold metadata_word, FD_METADATA_TAG. widths.
  split; [lia |]. repeat split; Z.div_mod_to_equations; lia.
Qed.

Lemma decode_encode m v : metadata_wf m -> encode_inherited_fd_metadata m = Some v ->
  is_u64 v /\ decode_inherited_fd_metadata v = Some m.
Proof.
  intros Hm He. rewrite encode_word in He by done. destruct (_ || _) eqn:Hv; [done |]. injection He as <-.
  destruct (metadata_word_fields m Hm) as (Hw & Ht & Hk & Ho & Hd). split; [done |].
  rewrite decode_word by (widths; lia). rewrite Ht, Hk, Ho, Hd, Z.eqb_refl. cbn [negb im_kind im_descriptor_flags]. cbn zeta. rewrite Hv. by destruct m.
Qed.

Lemma encode_decode v m : is_u64 v -> decode_inherited_fd_metadata v = Some m ->
  metadata_wf m /\ encode_inherited_fd_metadata m = Some v.
Proof.
  intros Hv Hd. rewrite decode_word in Hd by (widths; lia).
  destruct (_ =? FD_METADATA_TAG) eqn:Ht; [|done]. apply Z.eqb_eq in Ht. cbn [negb] in Hd. cbn zeta in Hd.
  destruct (_ || _) eqn:Hg; [done |]. injection Hd as <-.
  assert (metadata_wf {| im_kind := v / 1099511627776 mod 256; im_open_flags := v mod 4294967296;
                         im_descriptor_flags := v / 4294967296 mod 256 |}) as Hm.
  { split_and!; cbn; widths; apply Z.mod_pos_bound; lia. }
  split; [done |]. rewrite encode_word by done. rewrite Hg. f_equal. unfold metadata_word. cbn.
  unfold FD_METADATA_TAG in *. widths. Z.div_mod_to_equations. lia.
Qed.

(** ** What the context of a launch promises, and the round trip *)

(** What a context holds: values and handles by key. *)
Record LaunchView (H : Type) : Type := { lv_values : gmap Z Z; lv_handles : gmap Z H }.
Arguments lv_values {H} _.
Arguments lv_handles {H} _.
Arguments Build_LaunchView {H} _ _.

(** Reads find what the last successful write stored; a write may fail.  A handle [h] arrives as [transfer h], whose
    rights are [rights_of]. *)
Class LaunchContextLaws {H C Er} (ops : LaunchContextOps H C Er) (view : C -> LaunchView H) (transfer : H -> H)
    (rights_of : H -> Z) : Prop := {
  law_get_value c k : exists c', get_value c k = (c', inl (lv_values (view c) !! k)) /\ view c' = view c;
  law_get_handle c k : exists c', get_handle c k = (c', inl (lv_handles (view c) !! k)) /\ view c' = view c;
  law_get_rights c h : exists c', get_handle_rights c h = (c', inl (rights_of h)) /\ view c' = view c;
  law_set_value c k v c' : set_value c k v = (c', inl tt) ->
    view c' = {| lv_values := <[k := v]> (lv_values (view c)); lv_handles := lv_handles (view c) |};
  law_remove_value c k c' : remove_value c k = (c', inl tt) ->
    view c' = {| lv_values := delete k (lv_values (view c)); lv_handles := lv_handles (view c) |};
  law_set_handle c k h c' : set_handle c k h = (c', inl tt) ->
    view c' = {| lv_values := lv_values (view c); lv_handles := <[k := transfer h]> (lv_handles (view c)) |};
  law_remove_handle c k c' : remove_handle c k = (c', inl tt) ->
    view c' = {| lv_values := lv_values (view c); lv_handles := delete k (lv_handles (view c)) |} }.

Section RoundTrip.
Context {H C Er : Type} (ops : LaunchContextOps H C Er) (view : C -> LaunchView H) (transfer : H -> H)
  (rights_of : H -> Z) {laws : LaunchContextLaws ops view transfer rights_of}.
Variable t : FdTable H.
Variable describe : H -> option LaunchFdDescription.

(** The Rust types: [kind : u8], [open_flags : u32], [descriptor_flags : u32]. *)
Definition described : Prop :=
  forall h d, describe h = Some d -> is_u8 (ld_kind d) /\ is_u32 (ld_open_flags d).
Definition flags_u32 : Prop := forall fd e, get t fd = Some e -> is_u32 (en_descriptor_flags e).

Definition entry_metadata (d : LaunchFdDescription) (e : Entry H) : InheritedFdMetadata :=
  {| im_kind := ld_kind d; im_open_flags := ld_open_flags d; im_descriptor_flags := en_descriptor_flags e |}.
Definition entry_attachment (d : LaunchFdDescription) (e : Entry H) : option (H * Z) :=
  if ld_has_handle d then Some (transfer (en_handle e), rights_of (transfer (en_handle e))) else None.

Definition mkey (i : nat) : Z := 0x504f5346 * 4294967296 + Z.of_nat i.
Definition hkey (i : nat) : Z := 0x504f5348 * 4294967296 + Z.of_nat i.

(** The context tells the child about descriptor [i] what the table says. *)
Definition staged_at (v : LaunchView H) (i : nat) : Prop :=
  match kept t (Z.of_nat i) with
  | None => lv_values v !! mkey i = None /\ lv_handles v !! hkey i = None
  | Some e => exists d w,
      describe (en_handle e) = Some d /\ inherited_fd_kind_requires_handle (ld_kind d) = Some (ld_has_handle d) /\
      metadata_wf (entry_metadata d e) /\ encode_inherited_fd_metadata (entry_metadata d e) = Some w /\
      lv_values v !! mkey i = Some w /\
      lv_handles v !! hkey i = if ld_has_handle d then Some (transfer (en_handle e)) else None
  end.

Lemma launch_entry_metadata_Ok e d w :
  described -> is_u32 (en_descriptor_flags e) -> launch_entry_metadata (Er := Er) describe e = Ok (d, w) ->
  describe (en_handle e) = Some d /\ inherited_fd_kind_requires_handle (ld_kind d) = Some (ld_has_handle d) /\
  metadata_wf (entry_metadata d e) /\ encode_inherited_fd_metadata (entry_metadata d e) = Some w.
Proof.
  intros Hd Hf. unfold launch_entry_metadata. destruct (describe _) as [d'|] eqn:Ed; [|done]. cbn [ok_or].
  destruct (inherited_fd_kind_requires_handle _) as [q|] eqn:Eq; [|done]. cbn [ok_or].
  case_bool_decide as Hq; [|done]. cbn [negb]. destruct (Z.leb_spec (en_descriptor_flags e) 255); [|done]. cbn [ok_or].
  destruct (encode_inherited_fd_metadata _) eqn:Ee; [|done]. cbn [ok_or]. intros ?. simplify_eq.
  destruct (Hd _ _ Ed). split_and!; try done. split_and!; cbn; try done. widths. lia.
Qed.

Lemma staged_frame v v' i j : i <> j ->
  (forall k, k <> mkey j -> lv_values v' !! k = lv_values v !! k) ->
  (forall k, k <> hkey j -> lv_handles v' !! k = lv_handles v !! k) -> staged_at v i -> staged_at v' i.
Proof.
  intros Hij Hv Hh. unfold staged_at. rewrite Hv, Hh; [done | unfold hkey; lia | unfold mkey; lia].
Qed.

Lemma stage_slot_staged c i c' : (i < DEFAULT_FD_LIMIT)%nat -> described -> flags_u32 ->
  stage_slot t describe c i = (c', Ok tt) ->
  staged_at (view c') i /\ (forall j, j <> i -> staged_at (view c) j -> staged_at (view c') j).
Proof.
  intros Hi Hd Hf. unfold DEFAULT_FD_LIMIT in Hi. unfold stage_slot.
  rewrite fd_handle_key_eq, fd_metadata_key_eq by lia. fold (hkey i) (mkey i).
  destruct (kept t (Z.of_nat i)) as [e|] eqn:Ek.
  - destruct (launch_entry_metadata describe e) as [[d w]| |] eqn:Em; [|done..].
    assert (is_u32 (en_descriptor_flags e)) as Hfl.
    { unfold kept in Ek. destruct (get t _) eqn:Eg; [|done]. destruct (_ =? 0); simplify_eq.
      by apply (Hf _ _ Eg). }
    destruct (launch_entry_metadata_Ok e d w Hd Hfl Em) as (E1 & E2 & E3 & E4).
    destruct (if ld_has_handle d then _ else _) as [c1 [[]|]] eqn:E5; [|done].
    destruct (set_value c1 _ _) as [c2 [[]|]] eqn:E6; [|done]. intros [= <-].
    apply law_set_value in E6.
    assert (view c1 = {| lv_values := lv_values (view c);
              lv_handles := if ld_has_handle d then <[hkey i := transfer (en_handle e)]> (lv_handles (view c))
                            else delete (hkey i) (lv_handles (view c)) |}) as E7.
    { destruct (ld_has_handle d); [by apply law_set_handle | by apply law_remove_handle]. }
    rewrite E7 in E6. rewrite E6. split.
    + unfold staged_at. rewrite Ek. exists d, w. cbn. rewrite lookup_insert_eq. split_and!; try done.
      destruct (ld_has_handle d); [by rewrite lookup_insert_eq | by rewrite lookup_delete_eq].
    + intros j Hj. apply (staged_frame _ _ j i Hj); cbn; intros k Hk; [by rewrite lookup_insert_ne |].
      destruct (ld_has_handle d); [by rewrite lookup_insert_ne | by rewrite lookup_delete_ne].
  - destruct (remove_value c _) as [c1 [[]|]] eqn:E5; [|done]. destruct (remove_handle c1 _) as [c2 [[]|]] eqn:E6; [|done].
    intros [= <-]. apply law_remove_value in E5. apply law_remove_handle in E6. rewrite E5 in E6. rewrite E6. split.
    + unfold staged_at. rewrite Ek. cbn. by rewrite !lookup_delete_eq.
    + intros j Hj. apply (staged_frame _ _ j i Hj); cbn; intros k Hk; by rewrite lookup_delete_ne.
Qed.

Lemma stage_loop_staged n : forall c i c', (i + n <= DEFAULT_FD_LIMIT)%nat -> described -> flags_u32 ->
  stage_loop t describe c i n = (c', Ok tt) ->
  (forall j, (j < i)%nat -> staged_at (view c) j) -> forall j, (j < i + n)%nat -> staged_at (view c') j.
Proof.
  induction n as [|n IH]; intros c i c' Hin Hd Hf Hs Hc j Hj; cbn in Hs.
  - simplify_eq. apply Hc. lia.
  - destruct (stage_slot t describe c i) as [c1 [[]| |]] eqn:E; [|done..].
    destruct (stage_slot_staged c i c1) as [S1 S2]; [lia | done..|].
    apply (IH c1 (S i) c'); [lia | done | done | done | | lia].
    intros k Hk. destruct (decide (k = i)) as [->|]; [done |]. apply S2; [done |]. apply Hc. lia.
Qed.

Lemma stage_context_staged limit c c' : described -> flags_u32 ->
  stage_launch_context t limit c describe = (c', Ok tt) ->
  (limit <= DEFAULT_FD_LIMIT)%nat /\ lv_values (view c') !! FD_TABLE_KEY = Some FD_TABLE_VERSION /\
  forall j, (j < limit)%nat -> staged_at (view c') j.
Proof.
  intros Hd Hf. unfold stage_launch_context. destruct (_ || _) eqn:Hl; [done |].
  apply orb_false_iff in Hl as [Hl _]. apply Nat.ltb_ge in Hl.
  destruct (stage_loop t describe c 0 limit) as [c1 [[]| |]] eqn:E; [|done..].
  destruct (set_value c1 _ _) as [c2 [[]|]] eqn:E2; [|done]. intros [= <-]. apply law_set_value in E2. rewrite E2. cbn.
  split; [done |]. split; [by rewrite lookup_insert_eq |]. intros j Hj.
  assert (staged_at (view c1) j) as Hs by (apply (stage_loop_staged limit c 0); [lia | done..| intros; lia | lia]).
  revert Hs. unfold staged_at. cbn. rewrite lookup_insert_ne; [done |].
  unfold FD_TABLE_KEY, mkey, DEFAULT_FD_LIMIT in *. lia.
Qed.

Context {O HEr S_ : Type} `{HandleOps H O HEr}.
Variable restore : S_ -> InheritedFdMetadata -> option (H * Z) -> S_ * option H.
Variable rebuild : H -> H.

(** The child's closure can rebuild every object that the parent describes. *)
Definition restores : Prop := forall fd e d s,
  kept t fd = Some e -> describe (en_handle e) = Some d ->
  snd (restore s (entry_metadata d e) (entry_attachment d e)) = Some (rebuild (en_handle e)).

(** The child's entry for a descriptor of the parent's. *)
Definition child_entry (e : Entry H) : option (Entry H) :=
  d ← describe (en_handle e);
  Some {| en_handle := rebuild (en_handle e);
          en_rights := if ld_has_handle d then rights_of (transfer (en_handle e)) else 0;
          en_descriptor_flags := en_descriptor_flags e |}.

Definition child_get (limit : nat) (fd : Z) : option (Entry H) :=
  if (0 <=? fd) && (fd <? Z.of_nat limit) then kept t fd ≫= child_entry else None.

Abbreviation Restoring := (@Restore H C O S_).

(** The state of the loop before slot [i]. *)
Record restoring (o : O) (v : LaunchView H) (i : nat) (r : Restoring) : Prop := {
  rg_view : view (rs_context r) = v;
  rg_ops : rs_ops r = o;
  rg_flag : rs_restored r = true;
  rg_length : length (ft_entries (rs_table r)) = DEFAULT_FD_LIMIT;
  rg_free : ft_reservations (rs_table r) = replicate DEFAULT_FD_LIMIT 0;
  rg_todo : forall j, (i <= j < DEFAULT_FD_LIMIT)%nat -> ft_entries (rs_table r) !! j = Some None;
  rg_done : forall j, (j < i)%nat -> ft_entries (rs_table r) !! j = Some (child_get DEFAULT_FD_LIMIT (Z.of_nat j)) }.

Lemma restoring_next o v i r t' c s :
  restoring o v i r -> (i < DEFAULT_FD_LIMIT)%nat -> view c = v ->
  t' = rs_table r /\ child_get DEFAULT_FD_LIMIT (Z.of_nat i) = None \/
  t' = set_entry (rs_table r) i (child_get DEFAULT_FD_LIMIT (Z.of_nat i)) ->
  restoring o v (S i) {| rs_table := t'; rs_context := c; rs_ops := o; rs_state := s; rs_restored := true |}.
Proof.
  intros [R1 R2 R3 R4 R5 R6 R7] Hi Hc Ht. destruct Ht as [[-> He]| ->]; split; cbn; try done.
  - intros j Hj. apply R6. lia.
  - intros j Hj. destruct (decide (j = i)) as [->|]; [|apply R7; lia]. rewrite He. apply R6. lia.
  - by rewrite length_insert.
  - intros j Hj. rewrite list_lookup_insert_ne by lia. apply R6. lia.
  - intros j Hj. destruct (decide (j = i)) as [->|]; [rewrite list_lookup_insert_eq by lia; done |].
    rewrite list_lookup_insert_ne by lia. apply R7. lia.
Qed.

Lemma install_at_free tb o i e :
  (i < DEFAULT_FD_LIMIT)%nat -> ft_reservations tb = replicate DEFAULT_FD_LIMIT 0 -> ft_entries tb !! i = Some None ->
  install_at tb o (Z.of_nat i) e = (set_entry tb i (Some e), o, Ok tt).
Proof.
  intros Hi Hr He. unfold install_at, fd_index. rewrite (proj2 (Z.ltb_ge _ _)) by lia. rewrite Nat2Z.id.
  rewrite (proj2 (Nat.leb_gt _ _)) by done. rewrite Hr, lookup_replicate_2, He by done. done.
Qed.

Lemma attachment_staged c d e :
  exists c', attachment c (ld_has_handle d) (if ld_has_handle d then Some (transfer (en_handle e)) else None)
    = (c', Ok (entry_attachment d e)) /\ view c' = view c.
Proof.
  unfold attachment, entry_attachment. destruct (ld_has_handle d); [|by exists c].
  destruct (law_get_rights c (transfer (en_handle e))) as (c' & -> & Hv). by exists c'.
Qed.

Lemma kept_cloexec fd e : kept t fd = Some e -> (Z.land (en_descriptor_flags e) FD_CLOEXEC =? 0) = true.
Proof. unfold kept. destruct (get t fd); [|done]. destruct (_ =? 0) eqn:E; [|done]. by intros [= ->]. Qed.

Lemma child_get_slot i : (i < DEFAULT_FD_LIMIT)%nat ->
  child_get DEFAULT_FD_LIMIT (Z.of_nat i) = kept t (Z.of_nat i) ≫= child_entry.
Proof.
  intros Hi. unfold child_get. by rewrite (proj2 (Z.leb_le _ _)), (proj2 (Z.ltb_lt _ _)) by lia.
Qed.

Lemma restore_slot_staged o v i r :
  restores -> (i < DEFAULT_FD_LIMIT)%nat -> staged_at v i -> restoring o v i r ->
  exists r', restore_slot restore r i = (r', Ok tt) /\ restoring o v (S i) r'.
Proof.
  intros Hre Hi Hst Hr. assert (i < 256)%nat as Hi' by done. pose proof Hr as [R1 R2 R3 R4 R5 R6 R7].
  unfold restore_slot. rewrite fd_handle_key_eq, fd_metadata_key_eq by lia. fold (hkey i) (mkey i).
  destruct (law_get_value (rs_context r) (mkey i)) as (c1 & -> & V1). rewrite R1 in V1 |- *.
  revert Hst. unfold staged_at. pose proof (child_get_slot i Hi) as Hcg. rewrite R2, R3.
  destruct (kept t (Z.of_nat i)) as [e|] eqn:Ek.
  - intros (d & w & E1 & E2 & E3 & E4 & E5 & E6). rewrite E5. cbn [option_bind mbind] in Hcg.
    destruct (decode_encode _ _ E3 E4) as [_ ->]. cbn [im_descriptor_flags entry_metadata im_kind].
    unfold INHERITED_FD_DESCRIPTOR_CLOEXEC. fold FD_CLOEXEC. rewrite (kept_cloexec _ _ Ek). cbn [negb].
    destruct (law_get_handle c1 (hkey i)) as (c2 & -> & V2). rewrite V1 in V2 |- *. rewrite E6.
    replace (inherited_fd_kind_requires_handle _) with (Some (ld_has_handle d)).
    destruct (attachment_staged c2 d e) as (c3 & -> & V3). fold (entry_metadata d e).
    pose proof (Hre _ _ _ (rs_state r) Ek E1) as Hs. destruct (restore (rs_state r) _ _) as [s [h|]]; [|done].
    cbn in Hs. injection Hs as ->.
    rewrite install_at_free; [|done|done|apply R6; lia]. eexists. split; [done |].
    apply (restoring_next o v i r); [done | done | congruence |]. right. rewrite Hcg. unfold child_entry. rewrite E1. cbn.
    unfold entry_attachment. by destruct (ld_has_handle d).
  - intros [-> _]. eexists. split; [done |]. apply (restoring_next o v i r); try done. left. by rewrite Hcg.
Qed.

Lemma restore_loop_staged o v n : forall i r,
  restores -> (i + n <= DEFAULT_FD_LIMIT)%nat -> (forall j, (j < i + n)%nat -> staged_at v j) -> restoring o v i r ->
  exists r', restore_loop restore r i n = (r', Ok true) /\ restoring o v (i + n) r'.
Proof.
  induction n as [|n IH]; intros i r Hre Hin Hst Hr; cbn.
  - exists r. rewrite (rg_flag _ _ _ _ Hr), Nat.add_0_r. done.
  - destruct (restore_slot_staged o v i r) as (r1 & -> & Hr1); [done | lia | apply Hst; lia | done |].
    destruct (IH (S i) r1) as (r2 & -> & Hr2); [done | lia | intros; apply Hst; lia | done |].
    exists r2. split; [done |]. by rewrite Nat.add_succ_r.
Qed.

Lemma restoring_start o c s : restoring o (view c) 0
  {| rs_table := FdTable_new; rs_context := c; rs_ops := o; rs_state := s; rs_restored := true |}.
Proof.
  split; try done; unfold FdTable_new; cbn [rs_table ft_entries ft_reservations].
  - intros j Hj. apply lookup_replicate_2. lia.
  - intros; lia.
Qed.

Lemma restoring_get o v limit r fd : (limit <= DEFAULT_FD_LIMIT)%nat -> restoring o v limit r ->
  get (rs_table r) fd = child_get limit fd.
Proof.
  intros Hl [R1 R2 R3 R4 R5 R6 R7]. unfold get, fd_index, child_get.
  destruct (Z.ltb_spec fd 0); [by rewrite (proj2 (Z.leb_gt _ _)) by lia |].
  rewrite (proj2 (Z.leb_le _ _)) by lia. cbn [andb]. destruct (Z.ltb_spec fd (Z.of_nat limit)).
  - rewrite R7 by lia. rewrite child_get_slot by lia. by rewrite Z2Nat.id by lia.
  - destruct (decide (Z.to_nat fd < DEFAULT_FD_LIMIT)%nat); [by rewrite R6 by lia |].
    by rewrite lookup_ge_None_2 by lia.
Qed.

(** C21: A program launch hands over exactly the descriptors without the close-on-exec flag: whenever the parent's
    [stage_launch_context] succeeds, whatever the context held before, the child's [restore_launch_context] succeeds
    with [true], closes no handle, and its table has below the limit, for each descriptor that the parent keeps, the
    rebuilt object with the rights of the transferred handle and the same flags, and nothing else. *)
Theorem launch_roundtrip t0 limit c c' o s
    (Hd : described) (Hf : flags_u32) (Hre : restores)
    (Hs : stage_launch_context t limit c describe = (c', Ok tt)) :
  exists r, restore_launch_context restore t0 limit c' o s = (r, Ok true) /\ rs_ops r = o /\
    forall fd, get (rs_table r) fd = child_get limit fd.
Proof.
  destruct (stage_context_staged limit c c' Hd Hf Hs) as (Hl & Hv & Hst).
  unfold restore_launch_context. rewrite (proj2 (Nat.ltb_ge _ _)) by done.
  rewrite (proj2 (Z.ltb_ge _ _)) by (unfold DEFAULT_FD_LIMIT in Hl; lia). cbn [orb].
  destruct (law_get_value c' FD_TABLE_KEY) as (c1 & -> & V1). rewrite Hv, Z.eqb_refl.
  destruct (restore_loop_staged o (view c1) limit 0
    {| rs_table := FdTable_new; rs_context := c1; rs_ops := o; rs_state := s; rs_restored := true |} Hre Hl)
    as (r & -> & Hr); [by rewrite V1 | apply restoring_start |].
  exists r. split_and!; [done | apply Hr |]. intros fd. by apply (restoring_get o (view c1)).
Qed.

End RoundTrip.

(** ** An instance of the interface: a context in memory *)

Record MemoryContext : Type := { mc_values : gmap Z Z; mc_handles : gmap Z Z }.

#[export] Instance memory_context : LaunchContextOps Z MemoryContext unit := {|
  get_value c k := (c, inl (mc_values c !! k));
  get_handle c k := (c, inl (mc_handles c !! k));
  get_handle_rights c h := (c, inl (h mod 8));
  set_value c k v := ({| mc_values := <[k := v]> (mc_values c); mc_handles := mc_handles c |}, inl tt);
  remove_value c k := ({| mc_values := delete k (mc_values c); mc_handles := mc_handles c |}, inl tt);
  set_handle c k h := ({| mc_values := mc_values c; mc_handles := <[k := h + 1000]> (mc_handles c) |}, inl tt);
  remove_handle c k := ({| mc_values := mc_values c; mc_handles := delete k (mc_handles c) |}, inl tt) |}.

Definition memory_view (c : MemoryContext) : LaunchView Z :=
  {| lv_values := mc_values c; lv_handles := mc_handles c |}.

#[export] Instance memory_laws : LaunchContextLaws memory_context memory_view (fun h => h + 1000) (fun h => h mod 8).
Proof. split; cbn; intros; simplify_eq; eauto. Qed.

#[export] Instance counting_handles : HandleOps Z Z unit := {|
  clone_handle o h _ := (o, inl h);
  close_handle o _ := o + 1 |}.

(** Descriptor 0 is a terminal, 3 a file with handle 7, 4 a file that is closed at the launch. *)
Definition launch_table : FdTable Z :=
  fold_right (fun '(i, e) t => set_entry t i (Some e)) FdTable_new
    [(0%nat, {| en_handle := 0; en_rights := 0; en_descriptor_flags := 0 |});
     (3%nat, {| en_handle := 7; en_rights := 3; en_descriptor_flags := 0 |});
     (4%nat, {| en_handle := 8; en_rights := 3; en_descriptor_flags := FD_CLOEXEC |})].

Definition launch_describe (h : Z) : option LaunchFdDescription :=
  if h =? 0 then Some {| ld_kind := 1; ld_open_flags := 0; ld_has_handle := false |}
  else Some {| ld_kind := 5; ld_open_flags := 2; ld_has_handle := true |}.

(** A child that keeps the transferred handle, and 1 for the terminal. *)
Definition launch_restore (s : unit) (m : InheritedFdMetadata) (a : option (Z * Z)) : unit * option Z :=
  (s, Some (match a with Some (h, _) => h | None => 1 end)).
Definition launch_rebuild (h : Z) : Z := if h =? 0 then 1 else h + 1000.

(** A context with leftovers of another launch. *)
Definition used_context : MemoryContext :=
  {| mc_values := <[mkey 4 := 5]> ∅; mc_handles := <[hkey 0 := 9]> ∅ |}.

Definition staged_context : MemoryContext := fst (stage_launch_context launch_table 8 used_context launch_describe).

Lemma launch_table_slots fd e : get launch_table fd = Some e ->
  (en_handle e = 0 \/ en_handle e = 7 \/ en_handle e = 8) /\ 0 <= en_descriptor_flags e <= 1.
Proof.
  unfold get, fd_index. destruct (fd <? 0); [done |]. unfold launch_table. cbn [fold_right set_entry ft_entries].
  intros E. assert (Forall (fun s : option (Entry Z) => match s with Some e =>
    (en_handle e = 0 \/ en_handle e = 7 \/ en_handle e = 8) /\ 0 <= en_descriptor_flags e <= 1 | None => True end)
    (ft_entries launch_table)) as Hf.
  { unfold launch_table. cbn [fold_right set_entry ft_entries]. unfold FD_CLOEXEC.
    repeat apply Forall_insert; try (cbn; lia). by apply Forall_replicate. }
  rewrite Forall_lookup in Hf. unfold launch_table in Hf. cbn [fold_right set_entry ft_entries] in Hf.
  destruct (_ !! Z.to_nat fd) as [[e'|]|] eqn:El; simplify_eq. exact (Hf _ _ El).
Qed.

Lemma launch_roundtrip_witness :
  described launch_describe /\ flags_u32 launch_table /\
  stage_launch_context launch_table 8 used_context launch_describe = (staged_context, Ok tt) /\
  exists r, restore_launch_context launch_restore launch_table 8 staged_context 0 tt = (r, Ok true) /\
    get (rs_table r) 0 = Some {| en_handle := 1; en_rights := 0; en_descriptor_flags := 0 |} /\
    get (rs_table r) 3 = Some {| en_handle := 1007; en_rights := 7; en_descriptor_flags := 0 |} /\
    get (rs_table r) 4 = None /\ rs_ops r = 0.
Proof.
  assert (described launch_describe) as Hd.
  { intros h d. unfold launch_describe. destruct (h =? 0); intros [= <-]; cbn; widths; lia. }
  assert (flags_u32 launch_table) as Hf.
  { intros fd e E. destruct (launch_table_slots fd e E) as [_ ?]. widths. lia. }
  assert (restores (fun h => h + 1000) (fun h => h mod 8) launch_table launch_describe launch_restore launch_rebuild) as Hr.
  { intros fd e d s Hk. unfold launch_describe, launch_rebuild, launch_restore, entry_attachment.
    destruct (en_handle e =? 0); by intros [= <-]. }
  assert (stage_launch_context launch_table 8 used_context launch_describe = (staged_context, Ok tt)) as Hs
    by (vm_compute; reflexivity).
  split_and!; [done..|].
  destruct (launch_roundtrip memory_context memory_view (fun h => h + 1000) (fun h => h mod 8) launch_table
    launch_describe launch_restore launch_rebuild launch_table 8 used_context staged_context 0 tt Hd Hf Hr Hs)
    as (r & E1 & E2 & E3).
  exists r. rewrite !E3. split_and!; [exact E1 | vm_compute; reflexivity.. | exact E2].
Defined.
