(* ===== verification/Concurrent.v ===== *)
(** * Threads that share atomic words

    The synchronisation objects of [posix-client] are words in shared memory, changed by atomic operations, and the
    native calls that wait on a word and wake its waiters ([WaitOnAddress], [WakeAddress]).  An operation is a [prog]:
    a tree of atomic actions, written below in the order of the Rust code.  A [machine] interleaves the actions of any
    number of threads (sequentially consistent: the [Ordering] arguments are not modelled), each calling one
    operation after another.  The kernel's part is [step]: a wait returns at once when the word has another value, and
    otherwise sleeps until a wake selects the thread, it fails, or it returns spuriously.

    [ok] is a logic of invariants with ghost state per thread, and [reach_ok] its soundness: what the invariant says
    holds in every reachable state.  Loops take fuel, chosen anew at each call; out of fuel the thread takes no further
    step, so every finite execution of the loop is one of the model. *)

From stdpp Require Import gmap.
From S2P Require Import Prelude.

(** ** Programs *)

Inductive wait_result : Type := WaitOk | WaitErr (e : Z).

Section Prog.
Context {L : Type}.

(** [ACas weak l old new] is [compare_exchange] ([weak]: [compare_exchange_weak]); [AFetchAdd l d n] adds modulo [n]. *)
Inductive act : Type :=
  | ALoad (l : L)
  | AStore (l : L) (v : Z)
  | ASwap (l : L) (v : Z)
  | ACas (weak : bool) (l : L) (old new : Z)
  | AFetchAdd (l : L) (d modulus : Z).

(** The answer of an action: success, and the value that was there. *)
Inductive prog (A : Type) : Type :=
  | Ret (a : A)
  | Diverge
  | Do (a : act) (k : bool * Z -> prog A)
  | Wait (l : L) (expected : Z) (k : wait_result -> prog A)
  | Wake (l : L) (all : bool) (k : prog A).

End Prog.
Arguments act L : clear implicits.
Arguments prog L A : clear implicits.
Arguments Ret {L A} a.
Arguments Diverge {L A}.
Arguments Do {L A} a k.
Arguments Wait {L A} l expected k.
Arguments Wake {L A} l all k.

Fixpoint prog_bind {L A B} (p : prog L A) (f : A -> prog L B) : prog L B :=
  match p with
  | Ret a => f a
  | Diverge => Diverge
  | Do a k => Do a (fun r => prog_bind (k r) f)
  | Wait l v k => Wait l v (fun r => prog_bind (k r) f)
  | Wake l all k => Wake l all (prog_bind k f)
  end.

Notation "'let!' x := p 'in' q" := (prog_bind p (fun x => q)) (at level 10, x name, p at level 100, q at level 200).
Notation "p ;! q" := (prog_bind p (fun _ => q)) (at level 100, q at level 200, right associativity).

Definition load {L} (l : L) : prog L Z := Do (ALoad l) (fun r => Ret (snd r)).
Definition store {L} (l : L) (v : Z) : prog L unit := Do (AStore l v) (fun _ => Ret tt).
Definition swap {L} (l : L) (v : Z) : prog L Z := Do (ASwap l v) (fun r => Ret (snd r)).
(** [inl] of the old value, or [inr] of the value that was found instead. *)
Definition compare_exchange {L} (weak : bool) (l : L) (old new : Z) : prog L (Z + Z) :=
  Do (ACas weak l old new) (fun r => Ret (if fst r then inl (snd r) else inr (snd r))).
Definition fetch_add {L} (modulus : Z) (l : L) (d : Z) : prog L Z := Do (AFetchAdd l d modulus) (fun r => Ret (snd r)).
Definition wait_on {L} (l : L) (expected : Z) : prog L wait_result := Wait l expected Ret.
Definition wake_on {L} (l : L) (all : bool) : prog L unit := Wake l all (Ret tt).

(** [let Ok(x) = m else return Err(..)] in a [prog]: the operator [?]. *)
Definition try_bind {L E A B} (p : prog L (result E A)) (f : A -> prog L (result E B)) : prog L (result E B) :=
  let! r := p in
  match r with Ok a => f a | Err e => Ret (Err e) | Panic => Ret Panic end.
Notation "'try!' x := p 'in' q" := (try_bind p (fun x => q)) (at level 10, x name, p at level 100, q at level 200).

(** ** Machines *)

Section Machine.
Context {L : Type} `{EqDecision L}.
Implicit Types m : L -> Z.

Definition mem_set m (l : L) (v : Z) : L -> Z := fun l' => if decide (l' = l) then v else m l'.

(** [spurious] is the failure without cause of a weak exchange. *)
Definition act_apply m (a : act L) (spurious : bool) : (L -> Z) * (bool * Z) :=
  match a with
  | ALoad l => (m, (true, m l))
  | AStore l v => (mem_set m l v, (true, m l))
  | ASwap l v => (mem_set m l v, (true, m l))
  | ACas weak l old new =>
      if (m l =? old) && negb (weak && spurious) then (mem_set m l new, (true, m l)) else (m, (false, m l))
  | AFetchAdd l d modulus => (mem_set m l ((m l + d) mod modulus), (true, m l))
  end.

Context {Op R : Type}.

Inductive run : Type :=
  | Idle
  | Running (op : Op) (p : prog L R)
  | Asleep (op : Op) (l : L) (k : wait_result -> prog L R)
  | Woken (op : Op) (l : L) (k : wait_result -> prog L R).

(** A thread, and the calls it has completed with their answers, the last first. *)
Record thread : Type := { th_run : run; th_log : list (Op * R) }.
Record machine : Type := { mc_mem : L -> Z; mc_threads : gmap Z thread }.

Definition asleep_on (l : L) (th : thread) : Prop :=
  match th_run th with Asleep _ l' _ => l' = l | _ => False end.
#[export] Instance asleep_on_dec l th : Decision (asleep_on l th).
Proof. unfold asleep_on. destruct (th_run th); apply _. Defined.

Definition sleepers (threads : gmap Z thread) (l : L) : gset Z := dom (filter (fun x => asleep_on l (snd x)) threads).

Definition rouse_thread (th : thread) : thread :=
  {| th_run := match th_run th with Asleep op l k => Woken op l k | r => r end; th_log := th_log th |}.

(** The threads of [V] wake. *)
Definition rouse (V : gset Z) (threads : gmap Z thread) : gmap Z thread :=
  map_imap (fun t th => Some (if decide (t ∈ V) then rouse_thread th else th)) threads.

(** A wake of all takes every sleeper; a wake of one takes one if there is one. *)
Definition victims_ok (threads : gmap Z thread) (l : L) (all : bool) (V : gset Z) : Prop :=
  if all then V = sleepers threads l
  else V ⊆ sleepers threads l /\ (size V <= 1)%nat /\ (V = ∅ -> sleepers threads l = ∅).
#[export] Instance victims_ok_dec threads l all V : Decision (victims_ok threads l all V).
Proof. unfold victims_ok. destruct all; apply _. Defined.

(** What the scheduler chooses: who moves, and what is not determined by the code. *)
Inductive choice : Type :=
  | Start (op : Op) (fuel : nat)
  | Act (spurious : bool)
  | Finish
  | WaitFail (e : Z)
  | WaitSpurious
  | WakeOnly (V : gset Z).

Definition set_thread (s : machine) (t : Z) (m : L -> Z) (r : run) (log : list (Op * R)) : machine :=
  {| mc_mem := m; mc_threads := <[t := {| th_run := r; th_log := log |}]> (mc_threads s) |}.

(** [allowed log op]: the contract lets a thread with these answers call [op]. *)
Context (body : Z -> Op -> nat -> prog L R) (allowed : list (Op * R) -> Op -> bool) (lossy : bool).

(** One step of thread [t].  With [lossy], a wait may fail although a wake had selected the thread. *)
Definition step (s : machine) (t : Z) (c : choice) : option machine :=
  match mc_threads s !! t with
  | None => None
  | Some th =>
      let keep r := set_thread s t (mc_mem s) r (th_log th) in
      match th_run th, c with
      | Idle, Start op fuel => if allowed (th_log th) op then Some (keep (Running op (body t op fuel))) else None
      | Running op (Ret r), Finish => Some (set_thread s t (mc_mem s) Idle ((op, r) :: th_log th))
      | Running op (Do a k), Act spurious =>
          let (m, r) := act_apply (mc_mem s) a spurious in
          Some (set_thread s t m (Running op (k r)) (th_log th))
      | Running op (Wait l expected k), Act _ =>
          Some (keep (if mc_mem s l =? expected then Asleep op l k else Running op (k WaitOk)))
      | Running op (Wait l expected k), WaitFail e => Some (keep (Running op (k (WaitErr e))))
      | Running op (Wake l all k), WakeOnly V =>
          if decide (victims_ok (mc_threads s) l all V)
          then Some {| mc_mem := mc_mem s;
                       mc_threads := <[t := {| th_run := Running op k; th_log := th_log th |}]>
                                       (rouse V (mc_threads s)) |}
          else None
      | Asleep op l k, WaitSpurious => Some (keep (Running op (k WaitOk)))
      | Asleep op l k, WaitFail e => Some (keep (Running op (k (WaitErr e))))
      | Woken op l k, Act _ => Some (keep (Running op (k WaitOk)))
      | Woken op l k, WaitFail e => if lossy then Some (keep (Running op (k (WaitErr e)))) else None
      | _, _ => None
      end
  end.

(** A schedule, run to its end. *)
Fixpoint run_schedule (s : machine) (schedule : list (Z * choice)) : option machine :=
  match schedule with
  | [] => Some s
  | (t, c) :: schedule => match step s t c with Some s => run_schedule s schedule | None => None end
  end.

Definition start (m : L -> Z) (threads : gset Z) : machine :=
  {| mc_mem := m; mc_threads := gset_to_gmap {| th_run := Idle; th_log := [] |} threads |}.

Definition reachable (m : L -> Z) (threads : gset Z) (s : machine) : Prop :=
  exists schedule, run_schedule (start m threads) schedule = Some s.

(** The end of a schedule that can be run. *)
Definition outcome (m : L -> Z) (threads : gset Z) (schedule : list (Z * choice)) : machine :=
  match run_schedule (start m threads) schedule with Some s => s | None => start m ∅ end.

Lemma outcome_reachable m threads schedule :
  bool_decide (is_Some (run_schedule (start m threads) schedule)) = true -> reachable m threads (outcome m threads schedule).
Proof.
  intros Hs. apply bool_decide_eq_true in Hs as [s Hs]. exists schedule. unfold outcome. by rewrite Hs.
Qed.

(** The call that the thread is in. *)
Definition in_call (th : thread) : option Op :=
  match th_run th with Idle => None | Running op _ | Asleep op _ _ | Woken op _ _ => Some op end.

(** An operation run alone, with no wait: the answer and the memory it leaves. *)
Fixpoint alone (p : prog L R) m : option ((L -> Z) * R) :=
  match p with
  | Ret r => Some (m, r)
  | Do a k => let (m, r) := act_apply m a false in alone (k r) m
  | Wake _ _ k => alone k m
  | Diverge | Wait _ _ _ => None
  end.

End Machine.
Arguments thread L Op R : clear implicits.
Arguments machine L Op R : clear implicits.
Arguments run L Op R : clear implicits.

(** ** A logic of invariants *)

Inductive nap (L : Type) : Type := Up | Down (l : L) | Roused (l : L).
Arguments Up {L}.
Arguments Down {L} l.
Arguments Roused {L} l.

Abbreviation ghosts L G := (gmap Z (G * nap L)).

Section Ghosts.
Context {L : Type} `{EqDecision L} {G : Type}.
Implicit Types γ : ghosts L G.

Definition put γ (t : Z) (g : G) (n : nap L) : ghosts L G := <[t := (g, n)]> γ.

Definition ghost_rouse (V : gset Z) γ : ghosts L G :=
  map_imap (fun t x =>
    Some (if decide (t ∈ V) then (fst x, match snd x with Down l => Roused l | n => n end) else x)) γ.

(** What a wake of one ([all = false]) or of all threads asleep on [l] may do. *)
Definition ghost_victims γ (l : L) (all : bool) (V : gset Z) : Prop :=
  (forall t, t ∈ V -> exists g, γ !! t = Some (g, Down l)) /\
  (if all then forall t g, γ !! t = Some (g, Down l) -> t ∈ V
   else (size V <= 1)%nat /\ (V = ∅ -> forall t g, γ !! t <> Some (g, Down l))).

Lemma ghost_rouse_lookup V γ t :
  ghost_rouse V γ !! t =
  (fun x => if decide (t ∈ V) then (fst x, match snd x with Down l => Roused l | n => n end) else x) <$> γ !! t.
Proof. unfold ghost_rouse. rewrite map_lookup_imap. by destruct (γ !! t). Qed.

Lemma put_lookup γ t g n u g' n' : put γ t g n !! u = Some (g', n') ->
  u = t /\ g' = g /\ n' = n \/ u <> t /\ γ !! u = Some (g', n').
Proof. unfold put. intros [[-> [= <- <-]]|[? ?]]%lookup_insert_Some; auto. Qed.

Lemma rouse_up V γ t g : γ !! t = Some (g, Up) -> ghost_rouse V γ !! t = Some (g, Up).
Proof. intros Ht. rewrite ghost_rouse_lookup, Ht. cbn. by destruct (decide _). Qed.

End Ghosts.

(** ** Sums over the threads *)

Section Total.
Context {L : Type} `{EqDecision L} {G : Type} (h : G -> Z).
Implicit Types γ : ghosts L G.

Definition total γ : Z := map_fold (fun _ x acc => h (fst x) + acc) 0 γ.

Lemma total_insert γ t x : γ !! t = None -> total (<[t := x]> γ) = h (fst x) + total γ.
Proof. intros Ht. unfold total. rewrite map_fold_insert_L; [done | intros; lia | done]. Qed.

Lemma total_put γ t g n g' n' : γ !! t = Some (g, n) -> total (put γ t g' n') = total γ - h g + h g'.
Proof.
  intros Ht. rewrite <- (insert_delete_id γ t (g, n) Ht) at 2. unfold put.
  rewrite <- insert_delete_eq. rewrite !total_insert by (by rewrite lookup_delete_eq). cbn. lia.
Qed.

Lemma total_nonneg γ : (forall g, 0 <= h g) -> 0 <= total γ.
Proof.
  intros Hh. induction γ as [|t x γ Ht IH] using map_ind; [done |]. rewrite total_insert by done.
  specialize (Hh (fst x)). lia.
Qed.

Lemma total_one γ t g n : (forall g, 0 <= h g) -> γ !! t = Some (g, n) -> h g <= total γ.
Proof.
  intros Hh Ht. rewrite <- (insert_delete_id γ t _ Ht), total_insert by (by rewrite lookup_delete_eq). cbn.
  pose proof (total_nonneg (delete t γ) Hh). lia.
Qed.

Lemma total_two γ t u g n g' n' :
  (forall g, 0 <= h g) -> t <> u -> γ !! t = Some (g, n) -> γ !! u = Some (g', n') -> h g + h g' <= total γ.
Proof.
  intros Hh Htu Ht Hu. rewrite <- (insert_delete_id γ t _ Ht), total_insert by (by rewrite lookup_delete_eq). cbn.
  assert (delete t γ !! u = Some (g', n')) as Hd by (by rewrite lookup_delete_ne). pose proof (total_one _ _ _ _ Hh Hd). lia.
Qed.

Lemma total_zero γ : (forall t g n, γ !! t = Some (g, n) -> h g = 0) -> total γ = 0.
Proof.
  induction γ as [|t x γ Ht IH] using map_ind; intros Hz; [done |]. rewrite total_insert by done. destruct x as [g n]. cbn [fst].
  rewrite IH, (Hz t g n); [done | by rewrite lookup_insert_eq |]. intros u g' n' Hu. apply (Hz u g' n').
  rewrite lookup_insert_ne; [done |]. intros <-. congruence.
Qed.

Lemma total_pos γ : (forall g, 0 <= h g) -> 0 < total γ -> exists t g n, γ !! t = Some (g, n) /\ 0 < h g.
Proof.
  intros Hh. induction γ as [|t [g n] γ Ht IH] using map_ind; [done |]. rewrite total_insert by done. cbn. intros Hp.
  destruct (decide (0 < h g)) as [Hg|Hg].
  - exists t, g, n. by rewrite lookup_insert_eq.
  - destruct IH as (u & g' & n' & Hu & Hg'); [specialize (Hh g); lia |]. exists u, g', n'.
    rewrite lookup_insert_ne; [done |]. intros <-. congruence.
Qed.

Lemma total_rouse V γ : total (ghost_rouse V γ) = total γ.
Proof.
  induction γ as [|t x γ Ht IH] using map_ind; [unfold ghost_rouse; by rewrite map_imap_empty |].
  assert (ghost_rouse V (<[t := x]> γ) =
    <[t := if decide (t ∈ V) then (fst x, match snd x with Down l => Roused l | n => n end) else x]> (ghost_rouse V γ))
    as ->.
  { apply map_eq. intros u. rewrite ghost_rouse_lookup. destruct (decide (u = t)) as [->|Hu].
    - by rewrite !lookup_insert_eq.
    - by rewrite !lookup_insert_ne, ghost_rouse_lookup by done. }
  rewrite !total_insert, IH; [by destruct (decide _) | done |]. by rewrite ghost_rouse_lookup, Ht.
Qed.

Lemma total_start g0 (T : gset Z) : h g0 = 0 -> total (gset_to_gmap (g0, Up) T) = 0.
Proof. intros Hz. apply total_zero. intros t g n [_ [= <- _]]%lookup_gset_to_gmap_Some. done. Qed.

End Total.

(** The sum of what the threads have, when it is what their ghost states say. *)
Definition sum_threads {A} (f : A -> Z) (threads : gmap Z A) : Z := map_fold (fun _ x acc => f x + acc) 0 threads.

Lemma sum_threads_total {L A G} `{EqDecision L} (h : G -> Z) (f : A -> Z) (γ : ghosts L G) (threads : gmap Z A) :
  (forall t, (fun x => h (fst x)) <$> γ !! t = f <$> threads !! t) -> total h γ = sum_threads f threads.
Proof.
  intros Hp. assert ((fun x => h (fst x)) <$> γ = f <$> threads) as E.
  { apply map_eq. intros t. by rewrite !lookup_fmap. }
  unfold total, sum_threads. pose proof (f_equal (map_fold (fun _ x acc => x + acc) 0) E) as F.
  by rewrite !map_fold_fmap in F.
Qed.

Section Logic.
Context {L : Type} `{EqDecision L} {Op R G : Type} (body : Z -> Op -> nat -> prog L R)
  (allowed : list (Op * R) -> Op -> bool) (lossy : bool).
Implicit Types (m : L -> Z) (γ : ghosts L G).

(** [Inv] holds of the memory and the ghost states; [Rest] of the ghost state of a thread between calls, with the calls
    it made; [Busy] of one inside a call. *)
Context (Inv : (L -> Z) -> ghosts L G -> Prop).
Context (Rest : Z -> list (Op * R) -> G -> Prop) (Busy : Z -> Op -> list (Op * R) -> G -> Prop).

(** Thread [t] can change its ghost state so that the invariant holds and [next] follows. *)
Definition moves (P : G -> Prop) (t : Z) m γ (next : G -> Prop) : Prop :=
  exists g, P g /\ Inv m (put γ t g Up) /\ next g.

Definition asleep_ok (P : G -> Prop) (t : Z) (g : G) (l : L) (next : wait_result -> G -> Prop) : Prop :=
  forall m γ, Inv m γ -> γ !! t = Some (g, Down l) -> forall r, moves P t m γ (next r).
Definition woken_ok (P : G -> Prop) (t : Z) (g : G) (l : L) (next : wait_result -> G -> Prop) : Prop :=
  forall m γ, Inv m γ -> γ !! t = Some (g, Roused l) ->
    forall r, r = WaitOk \/ lossy = true -> moves P t m γ (next r).

(** The program keeps the invariant at each of its actions and ends with [Q]. *)
Fixpoint ok {A} (P : G -> Prop) (t : Z) (g : G) (p : prog L A) (Q : A -> G -> Prop) : Prop :=
  match p with
  | Ret a => Q a g
  | Diverge => True
  | Do a k => forall m γ spurious, Inv m γ -> γ !! t = Some (g, Up) ->
      let (m', r) := act_apply m a spurious in moves P t m' γ (fun g => ok P t g (k r) Q)
  | Wait l expected k =>
      (forall m γ r, Inv m γ -> γ !! t = Some (g, Up) -> m l <> expected \/ r <> WaitOk ->
         moves P t m γ (fun g => ok P t g (k r) Q)) /\
      (forall m γ, Inv m γ -> γ !! t = Some (g, Up) -> m l = expected -> Inv m (put γ t g (Down l))) /\
      asleep_ok P t g l (fun r g => ok P t g (k r) Q) /\ woken_ok P t g l (fun r g => ok P t g (k r) Q)
  | Wake l all k => forall m γ V, Inv m γ -> γ !! t = Some (g, Up) -> ghost_victims γ l all V ->
      moves P t m (ghost_rouse V γ) (fun g => ok P t g k Q)
  end.

Lemma moves_mono P t m γ (next next' : G -> Prop) :
  (forall g, next g -> next' g) -> moves P t m γ next -> moves P t m γ next'.
Proof. intros Hn (g & HP & HI & Hg). exists g. eauto. Qed.

Lemma ok_mono {A} P t (p : prog L A) : forall g (Q Q' : A -> G -> Prop),
  (forall a g, Q a g -> Q' a g) -> ok P t g p Q -> ok P t g p Q'.
Proof.
  induction p as [a| |a k IH|l v k IH|l all k IH]; intros g Q Q' HQ; cbn [ok]; auto.
  - intros H m γ sp HI Hg. specialize (H m γ sp HI Hg). destruct (act_apply m a sp).
    eapply moves_mono; [|exact H]. intros g'. by apply IH.
  - intros (H1 & H2 & H3 & H4). split_and!; [| done | |]; intros m γ.
    + intros r HI Hg Hr. eapply moves_mono; [|by apply H1]. intros g'. by apply IH.
    + intros HI Hg r. eapply moves_mono; [|by apply H3]. intros g'. by apply IH.
    + intros HI Hg r Hr. eapply moves_mono; [|by apply H4]. intros g'. by apply IH.
  - intros H m γ V HI Hg HV. eapply moves_mono; [|by apply H]. intros g'. by apply IH.
Qed.

Lemma ok_bind {A B} P t (p : prog L A) (f : A -> prog L B) Q : forall g,
  ok P t g p (fun a g => ok P t g (f a) Q) -> ok P t g (prog_bind p f) Q.
Proof.
  induction p as [a| |a k IH|l v k IH|l all k IH]; intros g; cbn [ok prog_bind]; auto.
  - intros H m γ sp HI Hg. specialize (H m γ sp HI Hg). destruct (act_apply m a sp).
    eapply moves_mono; [|exact H]. intros g'. by apply IH.
  - intros (H1 & H2 & H3 & H4). split_and!; [| done | |]; intros m γ.
    + intros r HI Hg Hr. eapply moves_mono; [|by apply H1]. intros g'. by apply IH.
    + intros HI Hg r. eapply moves_mono; [|by apply H3]. intros g'. by apply IH.
    + intros HI Hg r Hr. eapply moves_mono; [|by apply H4]. intros g'. by apply IH.
  - intros H m γ V HI Hg HV. eapply moves_mono; [|by apply H]. intros g'. by apply IH.
Qed.

Lemma ok_try {A B E} P t (p : prog L (result E A)) (f : A -> prog L (result E B)) Q g :
  ok P t g p (fun a g => match a with Ok a => ok P t g (f a) Q | Err e => Q (Err e) g | Panic => Q Panic g end) ->
  ok P t g (try_bind p f) Q.
Proof. intros H. apply ok_bind. eapply ok_mono; [|exact H]. intros [] ?; cbn; auto. Qed.

(** The rules for single actions. *)

Lemma moves_stay P t m γ g (next : G -> Prop) :
  γ !! t = Some (g, Up) -> Inv m γ -> P g -> next g -> moves P t m γ next.
Proof. intros Hg HI HP Hn. exists g. split_and!; try done. unfold put. by rewrite insert_id. Qed.

Lemma ok_load {A} P t g l (f : Z -> prog L A) Q :
  (forall m γ, Inv m γ -> γ !! t = Some (g, Up) -> moves P t m γ (fun g => ok P t g (f (m l)) Q)) ->
  ok P t g (let! x := load l in f x) Q.
Proof. intros H m γ sp HI Hg. by apply H. Qed.

Lemma ok_store {A} P t g l v (p : prog L A) Q :
  (forall m γ, Inv m γ -> γ !! t = Some (g, Up) -> moves P t (mem_set m l v) γ (fun g => ok P t g p Q)) ->
  ok P t g (store l v ;! p) Q.
Proof. intros H m γ sp HI Hg. by apply H. Qed.

Lemma ok_swap {A} P t g l v (f : Z -> prog L A) Q :
  (forall m γ, Inv m γ -> γ !! t = Some (g, Up) -> moves P t (mem_set m l v) γ (fun g => ok P t g (f (m l)) Q)) ->
  ok P t g (let! x := swap l v in f x) Q.
Proof. intros H m γ sp HI Hg. by apply H. Qed.

Lemma ok_fetch_add {A} P t g l d n (f : Z -> prog L A) Q :
  (forall m γ, Inv m γ -> γ !! t = Some (g, Up) ->
     moves P t (mem_set m l ((m l + d) mod n)) γ (fun g => ok P t g (f (m l)) Q)) ->
  ok P t g (let! x := fetch_add n l d in f x) Q.
Proof. intros H m γ sp HI Hg. by apply H. Qed.

Lemma ok_cas {A} P t g weak l old new (f : Z + Z -> prog L A) Q :
  (forall m γ, Inv m γ -> γ !! t = Some (g, Up) -> m l = old ->
     moves P t (mem_set m l new) γ (fun g => ok P t g (f (inl old)) Q)) ->
  (forall m γ, Inv m γ -> γ !! t = Some (g, Up) -> m l <> old \/ weak = true ->
     moves P t m γ (fun g => ok P t g (f (inr (m l))) Q)) ->
  ok P t g (let! x := compare_exchange weak l old new in f x) Q.
Proof.
  intros H1 H2 m γ sp HI Hg. cbn. destruct (Z.eqb_spec (m l) old) as [E|E]; cbn.
  - destruct (weak && sp) eqn:Ew; cbn.
    + apply H2; try done. right. by apply andb_true_iff in Ew as [-> _].
    + rewrite E. by apply H1.
  - apply H2; auto.
Qed.

Lemma ok_wake {A} P t g l all (p : prog L A) Q :
  (forall m γ V, Inv m γ -> γ !! t = Some (g, Up) -> ghost_victims γ l all V ->
     moves P t m (ghost_rouse V γ) (fun g => ok P t g p Q)) ->
  ok P t g (wake_on l all ;! p) Q.
Proof. intros H m γ V HI Hg HV. by apply H. Qed.

(** ** Soundness *)

Definition nap_of (r : run L Op R) : nap L :=
  match r with Asleep _ l _ => Down l | Woken _ l _ => Roused l | _ => Up end.

Definition thread_ok (t : Z) (g : G) (th : thread L Op R) : Prop :=
  let after op log r g := Rest t ((op, r) :: log) g in
  let log := th_log th in
  match th_run th with
  | Idle => Rest t log g
  | Running op p => Busy t op log g /\ ok (Busy t op log) t g p (after op log)
  | Asleep op l k =>
      Busy t op log g /\ asleep_ok (Busy t op log) t g l (fun r g => ok (Busy t op log) t g (k r) (after op log)) /\
      woken_ok (Busy t op log) t g l (fun r g => ok (Busy t op log) t g (k r) (after op log))
  | Woken op l k =>
      Busy t op log g /\ woken_ok (Busy t op log) t g l (fun r g => ok (Busy t op log) t g (k r) (after op log))
  end.

Definition slot_ok (t : Z) (th : option (thread L Op R)) (x : option (G * nap L)) : Prop :=
  match th, x with
  | Some th, Some (g, n) => n = nap_of (th_run th) /\ thread_ok t g th
  | None, None => True
  | _, _ => False
  end.

Definition machine_ok (s : machine L Op R) γ : Prop :=
  Inv (mc_mem s) γ /\ forall t, slot_ok t (mc_threads s !! t) (γ !! t).

Lemma thread_ghost s γ t th : machine_ok s γ -> mc_threads s !! t = Some th ->
  exists g, γ !! t = Some (g, nap_of (th_run th)) /\
    match in_call th with None => Rest t (th_log th) g | Some op => Busy t op (th_log th) g end.
Proof.
  intros [_ Hs] Ht. specialize (Hs t). rewrite Ht in Hs. cbn in Hs. destruct (γ !! t) as [[g n]|]; [|done].
  destruct Hs as [-> Hok]. exists g. split; [done |]. unfold thread_ok in Hok. unfold in_call.
  destruct (th_run th); [done | by destruct Hok..].
Qed.

Context (body_ok : forall t op fuel log g, Rest t log g -> allowed log op = true ->
  Busy t op log g /\ ok (Busy t op log) t g (body t op fuel) (fun r g => Rest t ((op, r) :: log) g)).

Lemma machine_ok_set s γ t m r log g :
  machine_ok s γ -> Inv m (put γ t g (nap_of r)) -> thread_ok t g {| th_run := r; th_log := log |} ->
  machine_ok (set_thread s t m r log) (put γ t g (nap_of r)).
Proof.
  intros [_ Hs] HI Ht. split; [done |]. intros u. cbn. unfold put. destruct (decide (u = t)) as [->|Hu].
  - by rewrite !lookup_insert_eq.
  - by rewrite !lookup_insert_ne by done.
Qed.

Lemma machine_ok_moves s γ t m op log (next : G -> Prop) p :
  machine_ok s γ -> moves (Busy t op log) t m γ next ->
  (forall g, next g -> ok (Busy t op log) t g p (fun r g => Rest t ((op, r) :: log) g)) ->
  exists γ', machine_ok (set_thread s t m (Running op p) log) γ'.
Proof. intros Hs (g & HP & HI & Hg) Hn. exists (put γ t g Up). apply machine_ok_set; cbn; auto. Qed.

Lemma rouse_lookup V (threads : gmap Z (thread L Op R)) t :
  rouse V threads !! t = (fun th => if decide (t ∈ V) then rouse_thread th else th) <$> threads !! t.
Proof. unfold rouse. rewrite map_lookup_imap. by destruct (threads !! t). Qed.

Lemma elem_of_sleepers (threads : gmap Z (thread L Op R)) l t :
  t ∈ sleepers threads l <-> exists th, threads !! t = Some th /\ nap_of (th_run th) = Down l.
Proof.
  unfold sleepers. rewrite elem_of_dom. split.
  - intros [th [H1 H2]%map_lookup_filter_Some]. exists th. split; [done |]. unfold asleep_on in H2. cbn in H2.
    destruct (th_run th); try done. cbn. by subst.
  - intros (th & H1 & H2). exists th. apply map_lookup_filter_Some. split; [done |]. unfold asleep_on. cbn.
    destruct (th_run th); try done. cbn in H2. congruence.
Qed.

Lemma victims_ghost s γ l all V : machine_ok s γ -> victims_ok (mc_threads s) l all V -> ghost_victims γ l all V.
Proof.
  intros [_ Hs] HV.
  assert (forall t, t ∈ sleepers (mc_threads s) l <-> exists g, γ !! t = Some (g, Down l)) as He.
  { intros t. rewrite elem_of_sleepers. specialize (Hs t). unfold slot_ok in Hs.
    destruct (mc_threads s !! t) as [th|], (γ !! t) as [[g n]|]; try done.
    - destruct Hs as [-> _]. split; [intros (? & [= <-] & ->); eauto | intros [? [= -> E]]; eauto].
    - split; [intros (? & ? & ?) | intros [? ?]]; done. }
  unfold victims_ok, ghost_victims in *. destruct all.
  - subst V. split; [intros t; apply He | intros t g Hg; apply He; eauto].
  - destruct HV as (Hsub & Hsz & Hem). split; [intros t Ht; by apply He, Hsub |]. split; [done |].
    intros HV t g Hg. assert (t ∈ sleepers (mc_threads s) l) by (apply He; eauto). rewrite Hem in H by done. set_solver.
Qed.

Lemma rouse_slot (V : gset Z) t th x : slot_ok t th x ->
  slot_ok t ((fun th => if decide (t ∈ V) then rouse_thread th else th) <$> th)
    ((fun x => if decide (t ∈ V) then (fst x, match snd x with Down l => Roused l | n => n end) else x) <$> x).
Proof.
  destruct th as [[r log]|], x as [[g n]|]; cbn; try done. destruct (decide _); [|done]. cbn.
  intros [-> Ht]. destruct r; cbn in *; try (split; [done |]; apply Ht). split; [done |].
  destruct Ht as (? & ? & ?). done.
Qed.

Lemma step_ok s γ t c s' : machine_ok s γ -> step body allowed lossy s t c = Some s' -> exists γ', machine_ok s' γ'.
Proof.
  intros Hs. unfold step. destruct (mc_threads s !! t) as [[r log]|] eqn:Et; [|done].
  pose proof (proj1 Hs) as HI. pose proof (proj2 Hs t) as Ht. rewrite Et in Ht. unfold slot_ok in Ht.
  destruct (γ !! t) as [[g n]|] eqn:Eg; [|done]. destruct Ht as [-> Ht]. cbn in Ht |- *.
  destruct r as [|op [a| |a k|l v k|l all k]|op l k|op l k], c; try done; cbn in Ht.
  - destruct (allowed log op) eqn:Ea; [|done]. intros [= <-]. exists (put γ t g Up).
    apply machine_ok_set; [done | | by apply body_ok]. cbn. unfold put. by rewrite insert_id.
  - intros [= <-]. exists (put γ t g Up). apply machine_ok_set; [done | | apply Ht]. cbn. unfold put. by rewrite insert_id.
  - destruct Ht as [Hb Ht]. specialize (Ht (mc_mem s) γ spurious HI Eg).
    destruct (act_apply (mc_mem s) a spurious) as [m r]. intros [= <-]. eapply machine_ok_moves; eauto.
  - destruct Ht as (Hb & H1 & H2 & H3 & H4). intros [= <-]. destruct (Z.eqb_spec (mc_mem s l) v) as [Hv|Hv].
    + exists (put γ t g (Down l)). apply (machine_ok_set s γ t _ (Asleep op l k)); cbn; auto.
    + eapply machine_ok_moves; [done | apply (H1 _ _ WaitOk HI Eg); by left | done].
  - destruct Ht as (Hb & H1 & H2 & H3 & H4). intros [= <-].
    eapply machine_ok_moves; [done | apply (H1 _ _ (WaitErr e) HI Eg); by right | done].
  - destruct Ht as [Hb Ht]. destruct (decide _) as [HV|]; [|done]. intros [= <-].
    destruct (Ht (mc_mem s) γ V HI Eg (victims_ghost _ _ _ _ _ Hs HV)) as (g' & HP & HI' & Hn).
    exists (put (ghost_rouse V γ) t g' Up). split; [done |]. intros u. cbn [mc_threads]. unfold put.
    destruct (decide (u = t)) as [->|Hu]; [by rewrite !lookup_insert_eq |]. rewrite !lookup_insert_ne by done.
    rewrite rouse_lookup, ghost_rouse_lookup. exact (rouse_slot V u _ _ (proj2 Hs u)).
  - destruct Ht as (Hb & Ht & _). intros [= <-]. eapply machine_ok_moves; [done | by apply (Ht _ _ HI Eg (WaitErr e)) | done].
  - destruct Ht as (Hb & Ht & _). intros [= <-]. eapply machine_ok_moves; [done | by apply (Ht _ _ HI Eg WaitOk) | done].
  - destruct Ht as [Hb Ht]. intros [= <-].
    eapply machine_ok_moves; [done | apply (Ht _ _ HI Eg WaitOk); by left | done].
  - destruct Ht as [Hb Ht]. destruct lossy eqn:Hl; [|done]. intros [= <-].
    eapply machine_ok_moves; [done | apply (Ht _ _ HI Eg (WaitErr e)); by right | done].
Qed.

Lemma run_schedule_ok schedule : forall s γ s', machine_ok s γ -> run_schedule body allowed lossy s schedule = Some s' ->
  exists γ', machine_ok s' γ'.
Proof.
  induction schedule as [|[t c] schedule IH]; intros s γ s' Hs; cbn; [intros [= <-]; eauto |].
  destruct (step body allowed lossy s t c) as [s1|] eqn:E; [|done]. destruct (step_ok _ _ _ _ _ Hs E) as [γ1 H1]. eauto.
Qed.

Lemma reach_ok m0 (T : gset Z) g0 s :
  Inv m0 (gset_to_gmap (g0, Up) T) -> (forall t, t ∈ T -> Rest t [] g0) ->
  reachable body allowed lossy m0 T s -> exists γ, machine_ok s γ.
Proof.
  intros HI HR [schedule Hr]. eapply run_schedule_ok; [|exact Hr]. split; [exact HI |].
  intros t. cbn. rewrite !lookup_gset_to_gmap. destruct (decide (t ∈ T)).
  - rewrite !option_guard_True by done. cbn. eauto.
  - by rewrite !option_guard_False by done.
Qed.

End Logic.
