(* ===== verification/PthreadMutex.v ===== *)
(** * Mutexes ([posix-client/src/pthread_mutex.rs])

    The code, as programs over the five atomic words of a [Mutex] ([kind] does not change); then mutual exclusion,
    ownership and recursion depth for any number of threads and any schedule, and what becomes of wake-ups.  The closures
    [wait] and [wake] are those of [newlib-runtime]: a native wait on the state word and a wake of one waiter. *)

From stdpp Require Import gmap.
From S2P Require Import Prelude Concurrent.

Module Mutex.

(** ** The code *)

Definition NORMAL : Z := 0.
Definition RECURSIVE : Z := 1.
Definition ERRORCHECK : Z := 2.
Definition DEFAULT : Z := 3.

Inductive Error : Type := Invalid | Busy | Deadlock | NotOwner | RecursionLimit.

Inductive Cell : Type := State | Owner | Depth | Initialized | Waiters.
#[export] Instance mutex_Cell_eq_dec : EqDecision Cell.
Proof. solve_decision. Defined.

Abbreviation program A := (prog Cell A).
Definition u32_range : Z := 4294967296.

Definition new : Cell -> Z := fun c => match c with Initialized => 1 | _ => 0 end.

Section Code.
Variable kind : Z.

Definition validate (thread : Z) : program (result Error unit) :=
  if thread =? 0 then Ret (Err Invalid) else
  let! initialized := load Initialized in
  if negb (initialized =? 1) || negb ((NORMAL <=? kind) && (kind <=? DEFAULT)) then Ret (Err Invalid) else Ret (Ok tt).

Definition relock (thread : Z) (trying : bool) : program (result Error bool) :=
  let! owner := load Owner in
  if negb (owner =? thread) then Ret (Ok false) else
  if kind =? RECURSIVE then
    let! depth := load Depth in
    if U32_MAX <? depth + 1 then Ret (Err RecursionLimit) else
    store Depth (depth + 1) ;! Ret (Ok true)
  else if trying then Ret (Err Busy)
  else if kind =? ERRORCHECK then Ret (Err Deadlock)
  else Ret (Ok false).

Definition acquired (thread : Z) : program unit := store Depth 1 ;! (store Owner thread ;! Ret tt).

Definition check_owner (thread : Z) : program (result Error unit) :=
  try! _ok := validate thread in
  let! owner := load Owner in
  if owner =? thread then Ret (Ok tt) else Ret (Err NotOwner).

Definition try_lock (thread : Z) : program (result Error unit) :=
  try! _ok := validate thread in
  try! again := relock thread true in
  if again then Ret (Ok tt) else
  let! won := compare_exchange false State 0 1 in
  match won with
  | inl _ => acquired thread ;! Ret (Ok tt)
  | inr _ => Ret (Err Busy)
  end.

(** The drop of [Waiter]. *)
Definition drop_waiter {A} (answer : A) : program A := fetch_add u32_range Waiters (-1) ;! Ret answer.

(** The [loop] of [lock]; [inr] is the error of the wait. *)
Fixpoint lock_loop (thread : Z) (fuel : nat) : program (result Error unit + Z) :=
  match fuel with
  | O => Diverge
  | S fuel =>
      let! state := swap State 2 in
      if state =? 0 then acquired thread ;! drop_waiter (inl (Ok tt)) else
      let! waited := wait_on State 2 in
      match waited with
      | WaitOk => lock_loop thread fuel
      | WaitErr error =>
          let! state := load State in
          if state =? 0 then wake_on State false ;! drop_waiter (inr error) else drop_waiter (inr error)
      end
  end.

Definition lock (thread : Z) (fuel : nat) : program (result Error unit + Z) :=
  let! valid := validate thread in
  match valid with
  | Err error => Ret (inl (Err error))
  | Panic => Ret (inl Panic)
  | Ok _ =>
      let! again := relock thread false in
      match again with
      | Ok true => Ret (inl (Ok tt))
      | Err error => Ret (inl (Err error))
      | Panic => Ret (inl Panic)
      | Ok false =>
          let! won := compare_exchange false State 0 1 in
          match won with
          | inl _ => acquired thread ;! Ret (inl (Ok tt))
          | inr _ => fetch_add u32_range Waiters 1 ;! lock_loop thread fuel
          end
      end
  end.

Definition unlock (thread : Z) : program (result Error unit) :=
  try! _ok := validate thread in
  let! owner := load Owner in
  if negb (owner =? thread) then Ret (Err NotOwner) else
  let! depth := load Depth in
  if 1 <? depth then store Depth (depth - 1) ;! Ret (Ok tt) else
  store Depth 0 ;!
  (store Owner 0 ;!
  (let! state := swap State 0 in
  if state =? 2 then wake_on State false ;! Ret (Ok tt) else Ret (Ok tt))).

Definition destroy : program (result Error unit) :=
  try! _ok := validate 1 in
  let! state := load State in
  if negb (state =? 0) then Ret (Err Busy) else
  let! waiters := load Waiters in
  if negb (waiters =? 0) then Ret (Err Busy) else
  store Initialized 0 ;! Ret (Ok tt).

(** The calls that a thread can make, with its own identity. *)
Inductive Op : Type := Lock | TryLock | Unlock | CheckOwner | Destroy.
#[export] Instance mutex_Op_eq_dec : EqDecision Op.
Proof. solve_decision. Defined.

Definition returning (p : program (result Error unit)) : program (result Error unit + Z) := let! r := p in Ret (inl r).

Definition call (thread : Z) (op : Op) (fuel : nat) : program (result Error unit + Z) :=
  match op with
  | Lock => lock thread fuel
  | TryLock => returning (try_lock thread)
  | Unlock => returning (unlock thread)
  | CheckOwner => returning (check_owner thread)
  | Destroy => returning destroy
  end.

End Code.

(** Any call is allowed at any time. *)
Definition any_call (log : list (Op * (result Error unit + Z))) (op : Op) : bool := true.

(** ** What the threads hold *)

Abbreviation answers := (list (Op * (result Error unit + Z))).

(** Locks taken and not given back, by the answers that a thread got. *)
Fixpoint held (log : answers) : Z :=
  match log with
  | [] => 0
  | (Lock, inl (Ok _)) :: log | (TryLock, inl (Ok _)) :: log => held log + 1
  | (Unlock, inl (Ok _)) :: log => held log - 1
  | _ :: log => held log
  end.

(** The thread is in its critical section: it holds the lock and has not begun to give it back. *)
Definition in_critical (th : thread Cell Op (result Error unit + Z)) : bool :=
  (0 <? held (th_log th)) &&
  match in_call th with
  | None => true
  | Some op => negb (bool_decide (op = Unlock))
  end.

(** ** The invariant *)

Inductive phase : Type := Out | Won | WonDepth | Held (depth : Z) | Leaving.
#[export] Instance phase_eq_dec : EqDecision phase.
Proof. solve_decision. Defined.

(** [registered]: counted in [waiters]; [duty]: has a wake-up to pass on. *)
Record ghost : Type := { ph : phase; registered : bool; duty : bool }.

Definition resting (n : Z) : ghost := {| ph := if n =? 0 then Out else Held n; registered := false; duty := false |}.

Implicit Types (m : Cell -> Z) (γ : ghosts Cell ghost) (g : ghost).

Definition phase_ok (t : Z) (p : phase) m : Prop :=
  match p with
  | Out => False
  | Won | Leaving => m Owner = 0
  | WonDepth => m Owner = 0 /\ m Depth = 1
  | Held d => m Owner = t /\ m Depth = d /\ 0 <= d <= U32_MAX
  end /\ (m State = 1 \/ m State = 2).

(** At most one thread is not [Out], and then the state word says so. *)
Definition Lk m γ : Prop := exists holder : option Z,
  (forall t g n, γ !! t = Some (g, n) -> Some t <> holder -> ph g = Out) /\
  match holder with
  | None => m State = 0 /\ m Owner = 0
  | Some t => exists g n, γ !! t = Some (g, n) /\ phase_ok t (ph g) m
  end.

Definition count_registered (g : ghost) : Z := if registered g then 1 else 0.
(** The waiter count is the number of registered threads; a thread that sleeps has not got the lock on the way. *)
Definition Wt m γ : Prop :=
  m Waiters = total count_registered γ mod u32_range /\
  forall t g l, γ !! t = Some (g, Down l) -> ph g = Out \/ exists n, ph g = Held n.

(** While a thread sleeps, the word says so or a wake-up is on its way. *)
Definition pending γ : Prop := exists t g n, γ !! t = Some (g, n) /\ (duty g = true /\ n = Up \/ n = Roused State).
Definition Wk (lossy : bool) m γ : Prop :=
  lossy = false -> forall t g, γ !! t = Some (g, Down State) -> m State = 2 \/ pending γ.

Definition Inv (lossy : bool) m γ : Prop := Lk m γ /\ Wt m γ /\ Wk lossy m γ.

Definition Rest (t : Z) (log : answers) g : Prop := t <> 0 /\ 0 <= held log /\ g = resting (held log).
Definition InCall (t : Z) (op : Op) (log : answers) g : Prop :=
  op <> Unlock -> 0 < held log -> exists n, ph g = Held n.

(** ** Its preservation *)

Lemma Lk_holder m γ t g n : Lk m γ -> γ !! t = Some (g, n) -> ph g <> Out ->
  phase_ok t (ph g) m /\
  forall m' g' n', phase_ok t (ph g') m' \/ ph g' = Out /\ m' State = 0 /\ m' Owner = 0 -> Lk m' (put γ t g' n').
Proof.
  intros (h & Hout & Hh) Ht Hp. destruct h as [u|]; [|by destruct Hp; apply (Hout t g n)].
  destruct (decide (u = t)) as [->|Hu]; [|destruct Hp; apply (Hout t g n); congruence].
  destruct Hh as (g0 & n0 & Hg0 & Hok). rewrite Ht in Hg0. injection Hg0 as <- <-. split; [done |].
  intros m' g' n' Hn. destruct Hn as [Hn|Hn].
  - exists (Some t). split.
    + intros u g1 n1 [(-> & _)|[Hu Hg]]%put_lookup Hne; [done |]. by apply (Hout u g1 n1).
    + exists g', n'. split; [|done]. unfold put. by rewrite lookup_insert_eq.
  - exists None. split; [|by apply Hn]. intros u g1 n1 [(-> & -> & _)|[Hu Hg]]%put_lookup _; [by apply Hn |].
    apply (Hout u g1 n1); [done | congruence].
Qed.

Lemma Lk_free m γ t : Lk m γ -> m State = 0 ->
  m Owner = 0 /\ forall m' g' n', phase_ok t (ph g') m' -> Lk m' (put γ t g' n').
Proof.
  intros (h & Hout & Hh) Hs. destruct h as [u|].
  { destruct Hh as (g0 & n0 & _ & Hok). destruct Hok as [_ Hok]. lia. }
  split; [by apply Hh |]. intros m' g' n' Hok. exists (Some t). split.
  - intros u g1 n1 [(-> & _)|[Hu Hg]]%put_lookup Hne; [done |]. by apply (Hout u g1 n1).
  - exists g', n'. split; [|done]. unfold put. by rewrite lookup_insert_eq.
Qed.

(** Other changes of a thread: same phase, owner and depth; the state word at most becomes 2 while held. *)
Lemma Lk_same m m' γ t g n g' n' : Lk m γ -> γ !! t = Some (g, n) -> ph g' = ph g ->
  m' Owner = m Owner -> m' Depth = m Depth -> m' State = m State \/ m State <> 0 /\ m' State = 2 -> Lk m' (put γ t g' n').
Proof.
  intros (h & Hout & Hh) Ht Hp Ho Hd Hs. exists h. split.
  - intros u g1 n1 [(-> & -> & _)|[Hu Hg]]%put_lookup Hne; [rewrite Hp; by apply (Hout t g n) | by apply (Hout u g1 n1)].
  - destruct h as [u|]; [|destruct Hh; lia]. destruct Hh as (g0 & n0 & Hg0 & Hok & Hst).
    assert (phase_ok u (ph g0) m') as Hok'.
    { split; [|lia]. by destruct (ph g0); rewrite ?Ho, ?Hd. }
    unfold put. destruct (decide (u = t)) as [->|Hu].
    + exists g', n'. rewrite lookup_insert_eq, Hp. split; [done |]. rewrite Ht in Hg0. by injection Hg0 as <- <-.
    + exists g0, n0. by rewrite lookup_insert_ne.
Qed.

Lemma Lk_owner m γ t g n : Lk m γ -> γ !! t = Some (g, n) -> t <> 0 -> m Owner = t ->
  exists d, ph g = Held d /\ m Depth = d /\ 0 <= d <= U32_MAX /\ m State <> 0.
Proof.
  intros (h & Hout & Hh) Ht H0 Ho. destruct h as [u|]; [|lia]. destruct Hh as (g0 & n0 & Hg0 & Hok & Hst).
  destruct (ph g0) eqn:Ep; try lia; try done. destruct Hok as (Hu & Hd & Hr). assert (u = t) as -> by congruence.
  rewrite Ht in Hg0. injection Hg0 as <- <-. exists depth. split_and!; try done; lia.
Qed.

Lemma Wt_put m m' γ t g n g' : Wt m γ -> γ !! t = Some (g, n) ->
  m' Waiters = (m Waiters + (count_registered g' - count_registered g)) mod u32_range -> Wt m' (put γ t g' Up).
Proof.
  intros [Hw Hs] Ht Hm. split.
  - rewrite Hm, Hw, (total_put _ _ _ _ _ _ _ Ht), Zplus_mod_idemp_l. f_equal. lia.
  - intros u g1 l [(_ & _ & [=])|[_ Hg]]%put_lookup. by apply (Hs u g1 l).
Qed.

Lemma Wt_total m m' γ t g n g' n' : Wt m γ -> γ !! t = Some (g, n) -> registered g' = registered g ->
  m' Waiters = m Waiters -> m' Waiters = total count_registered (put γ t g' n') mod u32_range.
Proof.
  intros [Hw _] Ht Hr Hm. rewrite Hm, Hw, (total_put _ _ _ _ _ _ _ Ht). unfold count_registered. rewrite Hr. f_equal. lia.
Qed.

Lemma Wt_same m m' γ t g n g' : Wt m γ -> γ !! t = Some (g, n) -> registered g' = registered g ->
  m' Waiters = m Waiters -> Wt m' (put γ t g' Up).
Proof.
  intros Hw Ht Hr Hm. split; [by eapply Wt_total |]. intros u g1 l [(_ & _ & [=])|[_ Hg]]%put_lookup.
  by apply (proj2 Hw u g1 l).
Qed.

Lemma Wt_sleep m γ t g l : Wt m γ -> γ !! t = Some (g, Up) -> ph g = Out \/ (exists n, ph g = Held n) ->
  Wt m (put γ t g (Down l)).
Proof.
  intros Hw Ht Hp. split; [by eapply Wt_total |]. intros u g1 l1 [(-> & -> & _)|[_ Hg]]%put_lookup; [done |].
  by apply (proj2 Hw u g1 l1).
Qed.

Lemma Wk_two lossy m γ : m State = 2 -> Wk lossy m γ.
Proof. intros Hm _ t g _. by left. Qed.

Lemma Wk_duty lossy m γ t g : duty g = true -> Wk lossy m (put γ t g Up).
Proof. intros Hd _ u g' _. right. exists t, g, Up. unfold put. rewrite lookup_insert_eq. auto. Qed.

Lemma Wk_keep lossy m m' γ t g n g' : Wk lossy m γ -> γ !! t = Some (g, n) -> (m State = 2 -> m' State = 2) ->
  n <> Roused State -> (duty g = true -> duty g' = true) -> Wk lossy m' (put γ t g' Up).
Proof.
  intros Hw Ht Hm Hn Hd Hl u g1 [(-> & _ & [=])|[Hu Hg]]%put_lookup.
  destruct (Hw Hl u g1 Hg) as [E|(v & gv & nv & Hv & Hp)]; [left; by apply Hm |]. right. unfold pending, put.
  destruct (decide (v = t)) as [->|Hvt].
  - exists t, g', Up. rewrite lookup_insert_eq. split; [done |]. left. split; [|done]. apply Hd. rewrite Ht in Hv.
    injection Hv as <- <-. by destruct Hp as [[? _]|?].
  - exists v, gv, nv. by rewrite lookup_insert_ne.
Qed.

Lemma Wk_rouse lossy m γ t g g' V : ghost_victims γ State false V -> γ !! t = Some (g, Up) ->
  Wk lossy m (put (ghost_rouse V γ) t g' Up).
Proof.
  intros (Hin & Hsz & Hem) Ht Hl u g1 [(-> & _ & [=])|[Hu Hg]]%put_lookup. right. rewrite ghost_rouse_lookup in Hg.
  destruct (γ !! u) as [[g2 n2]|] eqn:Eu; [|done]. cbn in Hg.
  assert (n2 = Down State) as ->.
  { destruct (decide (u ∈ V)); [|congruence]. destruct n2; try done. }
  destruct (decide (V = ∅)) as [HV|HV]; [by destruct (Hem HV u g2) |].
  apply set_choose_L in HV as [v Hv]. destruct (Hin v Hv) as [gv Ev].
  exists v, gv, (Roused State). split; [|by right]. unfold put. rewrite lookup_insert_ne by congruence.
  rewrite ghost_rouse_lookup, Ev. cbn. by rewrite decide_True.
Qed.

Lemma Lk_rouse m γ V : Lk m γ -> Lk m (ghost_rouse V γ).
Proof.
  intros (h & Hout & Hh). exists h. split.
  - intros t g n. rewrite ghost_rouse_lookup. destruct (γ !! t) as [[g0 n0]|] eqn:E; [|done]. cbn.
    intros Hg. assert (g = g0) as -> by (destruct (decide _); congruence). by apply (Hout t g0 n0).
  - destruct h as [t|]; [|done]. destruct Hh as (g & n & Hg & Hok).
    setoid_rewrite ghost_rouse_lookup. rewrite Hg. cbn. destruct (decide _); eauto.
Qed.

Lemma Wt_rouse m γ V : Wt m γ -> Wt m (ghost_rouse V γ).
Proof.
  intros [Hw Hs]. split; [by rewrite total_rouse |]. intros t g l. rewrite ghost_rouse_lookup.
  destruct (γ !! t) as [[g0 n0]|] eqn:E; [|done]. cbn. destruct (decide _); [by destruct n0 |].
  intros [= -> ->]. by apply (Hs t g l).
Qed.

(** The change of a thread that touches neither the lock nor the counter. *)
Lemma Inv_step lossy m m' γ t g n g' : Inv lossy m γ -> γ !! t = Some (g, n) ->
  ph g' = ph g -> registered g' = registered g ->
  m' Owner = m Owner -> m' Depth = m Depth -> m' Waiters = m Waiters ->
  m' State = m State \/ m State <> 0 /\ m' State = 2 -> Wk lossy m' (put γ t g' Up) -> Inv lossy m' (put γ t g' Up).
Proof.
  intros (H1 & H2 & H3) Ht Hp Hr Ho Hd Hw Hs Hk. split_and!; [by eapply Lk_same | by eapply Wt_same | done].
Qed.

(** ** The operations keep it *)

Definition with_phase (p : phase) g : ghost := {| ph := p; registered := registered g; duty := duty g |}.

Section Operations.
Context (kind : Z) (lossy : bool) (t : Z) (Ht : t <> 0) (op : Op) (log : answers).
Abbreviation P := (InCall t op log).
Abbreviation valid A := (ok (A := A) lossy (Inv lossy) P t).

Lemma InCall_same g g' : ph g' = ph g -> P g -> P g'.
Proof. unfold InCall. by intros ->. Qed.
Lemma InCall_held g g' n n' : ph g = Held n -> ph g' = Held n' -> P g -> P g'.
Proof. unfold InCall. intros _ -> _ _ _. eauto. Qed.
Lemma InCall_other g g' : (forall n, ph g <> Held n) -> P g -> P g'.
Proof. unfold InCall. intros Hn HP Ho Hh. destruct (HP Ho Hh) as [n E]. by destruct (Hn n). Qed.

Lemma mutex_validate_ok u g (Q : _ -> _ -> Prop) : P g -> Q (Ok tt) g -> Q (Err Invalid) g -> valid _ g (validate kind u) Q.
Proof.
  intros HP H1 H2. unfold validate. destruct (u =? 0); [done |]. apply ok_load. intros m γ HI Hg.
  apply (moves_stay _ _ _ _ _ g); try done. by destruct (_ || _).
Qed.

Lemma relock_ok trying g (Q : _ -> _ -> Prop) : P g ->
  (forall e, Q (Err e) g) -> Q (Ok false) g ->
  (forall n, kind = RECURSIVE -> ph g = Held n -> Q (Ok true) (with_phase (Held (n + 1)) g)) ->
  valid _ g (relock kind t trying) Q.
Proof.
  intros HP He Hf Hs. unfold relock. apply ok_load. intros m γ HI Hg. apply (moves_stay _ _ _ _ _ g); try done.
  destruct (Z.eqb_spec (m Owner) t) as [Ho|_]; [|done]. cbn [negb].
  destruct (Z.eqb_spec kind RECURSIVE) as [Hk|]; [|destruct trying; [apply He |]; destruct (kind =? ERRORCHECK); [apply He | done]].
  destruct (Lk_owner _ _ _ _ _ (proj1 HI) Hg Ht Ho) as (n & Hn & _). clear m γ HI Hg Ho.
  apply ok_load. intros m γ HI Hg. apply (moves_stay _ _ _ _ _ g); try done.
  destruct (Lk_holder _ _ _ _ _ (proj1 HI) Hg) as [Hok _]; [congruence |]. rewrite Hn in Hok.
  destruct Hok as [(_ & -> & Hr) _]. clear m γ HI Hg.
  destruct (Z.ltb_spec U32_MAX (n + 1)); [apply He |]. apply ok_store. intros m γ HI Hg.
  exists (with_phase (Held (n + 1)) g). split; [by apply (InCall_held g _ n (n + 1)) |]. split; [|by apply Hs].
  destruct (Lk_holder _ _ _ _ _ (proj1 HI) Hg) as [Hok Hnext]; [congruence |]. rewrite Hn in Hok.
  destruct Hok as [(Ho & Hd & _) Hst]. split_and!.
  - apply Hnext. left. split; [|done]. split_and!; [done | done | lia..].
  - eapply Wt_same; [apply HI | done..].
  - eapply Wk_keep; [apply HI | done..].
Qed.

Lemma acquired_ok g (Q : _ -> _ -> Prop) : P g -> ph g = Won ->
  Q tt (with_phase (Held 1) g) -> valid _ g (acquired t) Q.
Proof.
  intros HP Hp HQ. unfold acquired. apply ok_store. intros m γ HI Hg.
  exists (with_phase WonDepth g). split; [apply (InCall_other g); [congruence | done] |].
  destruct (Lk_holder _ _ _ _ _ (proj1 HI) Hg) as [Hok Hnext]; [congruence |]. rewrite Hp in Hok. destruct Hok as [Ho Hst].
  split; [split_and!|].
  { apply Hnext. left. by split. }
  { eapply Wt_same; [apply HI | done..]. }
  { eapply Wk_keep; [apply HI | done..]. }
  clear m γ HI Hg Hnext Ho Hst. apply ok_store. intros m γ HI Hg.
  exists (with_phase (Held 1) g). split; [apply (InCall_other g); [congruence | done] |].
  destruct (Lk_holder _ _ _ _ _ (proj1 HI) Hg) as [Hok Hnext]; [done |]. destruct Hok as [[Ho Hd] Hst].
  split; [split_and!|done].
  { apply Hnext. left. split; [|done]. split_and!; [done | done | lia | done]. }
  { eapply Wt_same; [apply HI | done..]. }
  { eapply Wk_keep; [apply HI | done..]. }
Qed.

Definition settled g : ghost := {| ph := ph g; registered := false; duty := false |}.

Lemma drop_waiter_ok {A} (a : A) g (Q : A -> ghost -> Prop) : P g -> registered g = true ->
  (duty g = true -> lossy = true) -> Q a (settled g) -> valid _ g (drop_waiter a) Q.
Proof.
  intros HP Hr Hd HQ. unfold drop_waiter. apply ok_fetch_add. intros m γ HI Hg. exists (settled g).
  split; [by apply (InCall_same g) |]. split; [split_and!|done].
  - by eapply Lk_same; [apply HI | exact Hg | | | |left].
  - eapply Wt_put; [apply HI | exact Hg |]. unfold count_registered. by rewrite Hr.
  - intros Hl. eapply Wk_keep; [apply HI | exact Hg | done | done | | done]. intros E. specialize (Hd E). congruence.
Qed.
(** A thread that finds the state word 0 has the lock to itself: its phase was [Out]. *)
Lemma free_out m γ g n : Lk m γ -> γ !! t = Some (g, n) -> m State = 0 -> ph g = Out.
Proof.
  intros Hl Hg Hs. destruct (decide (ph g = Out)) as [E|E]; [done |].
  destruct (Lk_holder _ _ _ _ _ Hl Hg E) as [[_ Hst] _]. lia.
Qed.

Lemma lock_loop_ok fuel (Q : _ -> _ -> Prop) : forall g, P g -> registered g = true ->
  ph g = Out \/ (exists n, ph g = Held n) ->
  (ph g = Out -> Q (inl (Ok tt)) (resting 1)) -> (forall e, Q (inr e) (settled g)) -> valid _ g (lock_loop t fuel) Q.
Proof.
  induction fuel as [|fuel IH]; intros g HP Hr Hph Hok Herr; [done |]. cbn [lock_loop]. apply ok_swap. intros m γ HI Hg.
  destruct (Z.eqb_spec (m State) 0) as [Hs|Hs].
  - pose proof (free_out _ _ _ _ (proj1 HI) Hg Hs) as Hout. destruct (Lk_free _ _ t (proj1 HI) Hs) as [Ho Hnext].
    set (g1 := {| ph := Won; registered := true; duty := false |}).
    assert (P g1) as HP1 by (apply (InCall_other g); [congruence | done]). exists g1. split; [done |].
    split; [split_and!|].
    { apply Hnext. split; [done | by right]. }
    { eapply Wt_same; [apply HI | exact Hg | done | done]. }
    { by apply Wk_two. }
    apply ok_bind, acquired_ok; [done | done |]. apply drop_waiter_ok; [|done|done|by apply Hok].
    by apply (InCall_other g1).
  - set (g1 := {| ph := ph g; registered := true; duty := false |}).
    assert (P g1) as HP1 by (by apply (InCall_same g)). exists g1. split; [done |]. split; [split_and!|].
    { eapply Lk_same; [apply HI | exact Hg | done | done | done | by right]. }
    { eapply Wt_same; [apply HI | exact Hg | done | done]. }
    { by apply Wk_two. }
    clear m γ HI Hg Hs.
    set (g2 := {| ph := ph g; registered := true; duty := true |}).
    assert (P g2) as HP2 by (by apply (InCall_same g)).
    assert (forall g', ph g' = ph g -> registered g' = true -> valid _ g' (lock_loop t fuel) Q) as Hagain.
    { intros g' Hp Hreg. apply IH; [by apply (InCall_same g) | done | by rewrite Hp | by rewrite Hp |].
      intros e. unfold settled. rewrite Hp. apply Herr. }
    assert (forall e, valid _ g1 (let! state := load State in
      if state =? 0 then wake_on State false ;! drop_waiter (inr e) else drop_waiter (inr e)) Q) as Hfail.
    { intros e. apply ok_load. intros m γ HI Hg. apply (moves_stay _ _ _ _ _ g1); try done.
      assert (valid _ g1 (drop_waiter (inr e)) Q) as Hdrop by (by apply drop_waiter_ok; [| | |apply Herr]).
      destruct (m State =? 0); [|done]. apply ok_wake. clear m γ HI Hg. intros m γ V HI Hg HV. exists g1.
      split; [done |]. split; [|done]. split_and!.
      - eapply Lk_same; [by apply Lk_rouse, HI | by apply rouse_up | done..| by left].
      - eapply Wt_same; [by apply Wt_rouse, HI | by apply rouse_up | done..].
      - by eapply Wk_rouse. }
    cbn [ok prog_bind wait_on]. split_and!.
    + intros m γ r HI Hg _. apply (moves_stay _ _ _ _ _ g1); try done. destruct r; [by apply Hagain | apply Hfail].
    + intros m γ HI Hg Hs. split_and!.
      * by eapply Lk_same; [apply HI | exact Hg | | | |left].
      * by apply Wt_sleep; [apply HI | |].
      * by apply Wk_two.
    + intros m γ HI Hg r. exists g1. split; [done |]. split; [|destruct r; [by apply Hagain | apply Hfail]].
      eapply Inv_step; [exact HI | exact Hg | done..| by left |]. by eapply Wk_keep; [apply HI | exact Hg | | |].
    + intros m γ HI Hg r [->|Hl].
      * exists g2. split; [done |]. split; [|by apply Hagain]. eapply Inv_step; [exact HI | exact Hg | done..| by left |].
        by apply Wk_duty.
      * exists g1. split; [done |]. split; [|destruct r; [by apply Hagain | apply Hfail]].
        eapply Inv_step; [exact HI | exact Hg | done..| by left |]. intros ?. congruence.
Qed.

Lemma won_ok {A} g (p : program A) (Q : A -> ghost -> Prop) m γ :
  P g -> registered g = false -> duty g = false -> Inv lossy m γ -> γ !! t = Some (g, Up) -> m State = 0 ->
  (ph g = Out -> valid _ (resting 1) p Q) ->
  moves (Inv lossy) P t (mem_set m State 1) γ (fun g => valid _ g (acquired t ;! p) Q).
Proof.
  intros HP Hr Hd HI Hg Hs HQ. pose proof (free_out _ _ _ _ (proj1 HI) Hg Hs) as Hout.
  destruct (Lk_free _ _ t (proj1 HI) Hs) as [Ho Hnext].
  set (g1 := {| ph := Won; registered := false; duty := false |}).
  assert (P g1) as HP1 by (apply (InCall_other g); [congruence | done]). exists g1. split; [done |].
  split; [split_and!|].
  - apply Hnext. split; [done | by left].
  - eapply Wt_same; [apply HI | exact Hg | done | done].
  - eapply Wk_keep; [apply HI | exact Hg | | done | congruence]. intros ?. lia.
  - apply ok_bind, acquired_ok; [done | done |]. by apply HQ.
Qed.

End Operations.

Section Calls.
Context (kind : Z) (lossy : bool).
Definition mutex_call_ok (t : Z) (op : Op) (log : answers) g (p : program (result Error unit + Z)) : Prop :=
  ok lossy (Inv lossy) (InCall t op log) t g p (fun r g => Rest t ((op, r) :: log) g).

Lemma Rest_InCall t op log g : Rest t log g -> InCall t op log g.
Proof.
  intros (_ & Hh & ->) _ Hp. exists (held log). unfold resting. cbn. by rewrite (proj2 (Z.eqb_neq _ _)) by lia.
Qed.

(** An error changes nothing. *)
Lemma Rest_err t op log g e : Rest t log g -> Rest t ((op, inl (Err e)) :: log) g.
Proof. by destruct op. Qed.
Lemma Rest_fail t op log g e : Rest t log g -> Rest t ((op, inr e) :: log) g.
Proof. by destruct op. Qed.

Lemma Rest_first t op log g : op = Lock \/ op = TryLock -> Rest t log g -> ph g = Out ->
  Rest t ((op, inl (Ok tt)) :: log) (resting 1).
Proof.
  intros Hop (Ht & Hh & ->) Ho. assert (held log = 0) as E.
  { unfold resting in Ho. cbn in Ho. destruct (Z.eqb_spec (held log) 0); done. }
  destruct Hop as [->| ->]; split_and!; cbn; rewrite ?E; done.
Qed.

Lemma Rest_again t op log g n : op = Lock \/ op = TryLock -> Rest t log g -> ph g = Held n ->
  Rest t ((op, inl (Ok tt)) :: log) (with_phase (Held (n + 1)) g).
Proof.
  intros Hop (Ht & Hh & ->) Ho. assert (n = held log) as ->.
  { unfold resting in Ho. cbn in Ho. destruct (Z.eqb_spec (held log) 0); congruence. }
  destruct Hop as [->| ->]; split_and!; cbn; try done; try lia; unfold with_phase, resting;
    by rewrite (proj2 (Z.eqb_neq (held log + 1) 0)) by lia.
Qed.

Lemma Rest_phase t log g : Rest t log g -> ph g = Out \/ (ph g = Held (held log)) /\ 0 < held log.
Proof.
  intros (_ & Hh & ->). unfold resting. cbn. destruct (Z.eqb_spec (held log) 0); [by left | right; split; [done | lia]].
Qed.

Lemma Rest_plain t log g : Rest t log g -> registered g = false /\ duty g = false /\ settled g = g.
Proof. by intros (_ & _ & ->). Qed.

Lemma call_lock_ok t fuel log g : Rest t log g -> mutex_call_ok t Lock log g (call kind t Lock fuel).
Proof.
  intros HR. pose proof (Rest_InCall t Lock log g HR) as HP. pose proof (proj1 HR) as Ht.
  destruct (Rest_plain _ _ _ HR) as (Hr & Hd & Hset). unfold mutex_call_ok. cbn [call]. unfold lock.
  apply ok_bind, mutex_validate_ok; [done | | by apply Rest_err].
  apply ok_bind, relock_ok; [done..| intros e; by apply Rest_err | | intros n _ Hn; apply Rest_again; auto].
  apply ok_cas.
  - intros m γ HI Hg Hs. apply (won_ok lossy t Lock log g); try done. intros Ho. apply (Rest_first _ _ _ g); auto.
  - intros m γ HI Hg _. apply (moves_stay _ _ _ _ _ g); try done. apply ok_fetch_add. clear m γ HI Hg.
    intros m γ HI Hg. set (g1 := {| ph := ph g; registered := true; duty := false |}).
    assert (InCall t Lock log g1) as HP1 by (by apply (InCall_same t Lock log g)).
    exists g1. split; [done |]. split; [split_and!|].
    + by eapply Lk_same; [apply HI | exact Hg | | | |left].
    + eapply Wt_put; [apply HI | exact Hg |]. unfold count_registered. by rewrite Hr.
    + eapply Wk_keep; [apply HI | exact Hg | done | done | congruence].
    + apply lock_loop_ok; [done..| by destruct (Rest_phase _ _ _ HR) as [?|[? _]]; eauto | intros Ho; apply (Rest_first _ _ _ g); auto |].
      intros e. assert (settled g1 = g) as -> by done. by apply Rest_fail.
Qed.

Lemma call_try_lock_ok t fuel log g : Rest t log g -> mutex_call_ok t TryLock log g (call kind t TryLock fuel).
Proof.
  intros HR. pose proof (Rest_InCall t TryLock log g HR) as HP. pose proof (proj1 HR) as Ht.
  destruct (Rest_plain _ _ _ HR) as (Hr & Hd & Hset). unfold mutex_call_ok. cbn [call]. unfold try_lock.
  apply ok_bind, ok_try, mutex_validate_ok; [done | | by apply Rest_err].
  apply ok_try, relock_ok; [done..| intros e; by apply Rest_err | | intros n _ Hn; apply Rest_again; auto].
  apply ok_cas.
  - intros m γ HI Hg Hs. apply (won_ok lossy t TryLock log g); try done. intros Ho. apply (Rest_first _ _ _ g); auto.
  - intros m γ HI Hg _. apply (moves_stay _ _ _ _ _ g); try done.
Qed.

Lemma call_check_ok t fuel log g : Rest t log g -> mutex_call_ok t CheckOwner log g (call kind t CheckOwner fuel).
Proof.
  intros HR. pose proof (Rest_InCall t CheckOwner log g HR) as HP. unfold mutex_call_ok. cbn [call]. unfold check_owner.
  apply ok_bind, ok_try, mutex_validate_ok; [done | | by apply Rest_err]. apply ok_load. intros m γ HI Hg.
  apply (moves_stay _ _ _ _ _ g); try done. by destruct (m Owner =? t).
Qed.

Lemma call_destroy_ok t fuel log g : Rest t log g -> mutex_call_ok t Destroy log g (call kind t Destroy fuel).
Proof.
  intros HR. pose proof (Rest_InCall t Destroy log g HR) as HP. unfold mutex_call_ok. cbn [call]. unfold destroy.
  apply ok_bind, ok_try, mutex_validate_ok; [done | | by apply Rest_err]. apply ok_load. intros m γ HI Hg.
  apply (moves_stay _ _ _ _ _ g); try done. destruct (negb _); [by apply Rest_err |]. apply ok_load. clear m γ HI Hg.
  intros m γ HI Hg. apply (moves_stay _ _ _ _ _ g); try done. destruct (negb _); [by apply Rest_err |].
  apply ok_store. clear m γ HI Hg. intros m γ HI Hg. exists g. split; [done |]. split; [|done].
  eapply Inv_step; [exact HI | exact Hg | done..| by left |]. by eapply Wk_keep; [apply HI | exact Hg | | |].
Qed.

(** Giving back the lock for good: depth, owner, state, wake. *)
Lemma release_ok t log : Rest t log (resting 1) -> held log = 1 ->
  ok lossy (Inv lossy) (InCall t Unlock log) t (resting 1)
    (store Depth 0 ;! (store Owner 0 ;! (let! state := swap State 0 in
      if state =? 2 then wake_on State false ;! Ret (Ok tt) else Ret (Ok tt))))
    (fun r g => Rest t ((Unlock, inl r) :: log) g).
Proof.
  intros HR Hh. assert (forall g, InCall t Unlock log g) as HP by (by intros g ?).
  assert (forall b, Rest t ((Unlock, inl (Ok b)) :: log) (resting 0)) as HRe.
  { intros b. destruct HR as (Ht & _ & _). split_and!; cbn; [done | lia | f_equal; lia]. }
  apply ok_store. intros m γ HI Hg. exists (with_phase (Held 0) (resting 1)). split; [done |].
  destruct (Lk_holder _ _ _ _ _ (proj1 HI) Hg) as [[(Ho & Hd & _) Hst] Hnext]; [done |]. split; [split_and!|].
  { apply Hnext. left. split; [|done]. by split_and!. }
  { by eapply Wt_same; [apply HI | exact Hg | |]. }
  { by eapply Wk_keep; [apply HI | exact Hg | | |]. }
  clear m γ HI Hg Ho Hd Hst Hnext. apply ok_store. intros m γ HI Hg. exists (with_phase Leaving (resting 1)).
  split; [done |]. destruct (Lk_holder _ _ _ _ _ (proj1 HI) Hg) as [[_ Hst] Hnext]; [done |]. split; [split_and!|].
  { apply Hnext. left. by split. }
  { by eapply Wt_same; [apply HI | exact Hg | |]. }
  { by eapply Wk_keep; [apply HI | exact Hg | | |]. }
  clear m γ HI Hg Hst Hnext. apply ok_swap. intros m γ HI Hg.
  destruct (Lk_holder _ _ _ _ _ (proj1 HI) Hg) as [[Ho Hst] Hnext]; [done |].
  destruct (Z.eqb_spec (m State) 2) as [Hs|Hs].
  - exists {| ph := Out; registered := false; duty := true |}. split; [done |]. split; [split_and!|].
    { apply Hnext. right. by split_and!. }
    { by eapply Wt_same; [apply HI | exact Hg | |]. }
    { by apply Wk_duty. }
    apply ok_wake. clear m γ HI Hg Ho Hst Hnext Hs. intros m γ V HI Hg HV. exists (resting 0). split; [done |].
    split; [split_and!|apply HRe].
    + by eapply Lk_same; [apply Lk_rouse, HI | by apply rouse_up | | | |left].
    + by eapply Wt_same; [apply Wt_rouse, HI | by apply rouse_up | |].
    + by eapply Wk_rouse.
  - exists (resting 0). split; [done |]. split; [split_and!|apply HRe].
    + apply Hnext. right. by split_and!.
    + by eapply Wt_same; [apply HI | exact Hg | |].
    + by eapply Wk_keep; [apply HI | exact Hg | | |].
Qed.

Lemma call_unlock_ok t fuel log g : Rest t log g -> mutex_call_ok t Unlock log g (call kind t Unlock fuel).
Proof.
  intros HR. pose proof HR as (Ht & Hh & Hg0). assert (forall g, InCall t Unlock log g) as HP by (by intros ? ?).
  unfold mutex_call_ok. cbn [call]. unfold unlock, returning. apply ok_bind, ok_try, mutex_validate_ok; [done | | by apply Rest_err].
  apply ok_load. intros m γ HI Hg. apply (moves_stay _ _ _ _ _ g); try done.
  destruct (Z.eqb_spec (m Owner) t) as [Ho|]; [|by apply Rest_err]. cbn [negb].
  destruct (Lk_owner _ _ _ _ _ (proj1 HI) Hg Ht Ho) as (n & Hn & _). clear m γ HI Hg Ho.
  assert (n = held log /\ held log <> 0) as [-> Hz].
  { rewrite Hg0 in Hn. unfold resting in Hn. cbn in Hn. destruct (Z.eqb_spec (held log) 0); split; congruence. }
  apply ok_load. intros m γ HI Hg. apply (moves_stay _ _ _ _ _ g); try done.
  destruct (Lk_holder _ _ _ _ _ (proj1 HI) Hg) as [Hok _]; [congruence |]. rewrite Hn in Hok.
  destruct Hok as [(_ & -> & Hr) _]. clear m γ HI Hg. destruct (Z.ltb_spec 1 (held log)).
  - apply ok_store. intros m γ HI Hg. exists (with_phase (Held (held log - 1)) g). split; [done |].
    destruct (Lk_holder _ _ _ _ _ (proj1 HI) Hg) as [Hok Hnext]; [congruence |]. rewrite Hn in Hok.
    destruct Hok as [(Ho & Hd & _) Hst]. split; [split_and!|].
    + apply Hnext. left. split; [|done]. split_and!; [done | done | lia..].
    + by eapply Wt_same; [apply HI | exact Hg | |].
    + by eapply Wk_keep; [apply HI | exact Hg | | |].
    + split_and!; [done | cbn; lia |]. cbn. subst g. unfold with_phase, resting. cbn.
      by rewrite (proj2 (Z.eqb_neq (held log - 1) 0)) by lia.
  - assert (held log = 1) as E by lia. rewrite E in Hg0. subst g. by apply release_ok.
Qed.

Lemma call_all_ok t op fuel log g : Rest t log g ->
  InCall t op log g /\ ok lossy (Inv lossy) (InCall t op log) t g (call kind t op fuel) (fun r g => Rest t ((op, r) :: log) g).
Proof.
  intros HR. split; [by apply Rest_InCall |]. destruct op;
    [by apply call_lock_ok | by apply call_try_lock_ok | by apply call_unlock_ok | by apply call_check_ok | by apply call_destroy_ok].
Qed.

Lemma mutex_start_ok (T : gset Z) : Inv lossy new (gset_to_gmap (resting 0, Up) T).
Proof.
  assert (forall t g n, gset_to_gmap (resting 0, @Up Cell) T !! t = Some (g, n) -> g = resting 0 /\ n = Up) as Hs.
  { by intros t g n [_ [= <- <-]]%lookup_gset_to_gmap_Some. }
  split_and!.
  - exists None. split; [|done]. by intros t g n [-> _]%Hs _.
  - split; [by rewrite total_start |]. by intros t g l [_ [=]]%Hs.
  - by intros _ t g [_ [=]]%Hs.
Qed.

Definition mutex_reachable (T : gset Z) (s : machine Cell Op (result Error unit + Z)) : Prop :=
  reachable (call kind) any_call lossy new T s.

Lemma mutex_reach_ok T s : 0 ∉ T -> mutex_reachable T s -> exists γ, machine_ok lossy (Inv lossy) Rest InCall s γ.
Proof.
  intros HT. apply (reach_ok (call kind) any_call lossy (Inv lossy) Rest InCall) with (g0 := resting 0).
  - intros t op fuel log g HR _. by apply call_all_ok.
  - apply mutex_start_ok.
  - intros t Ht. split_and!; [by intros -> | done | done].
Qed.

Abbreviation ok_machine := (machine_ok lossy (Inv lossy) Rest InCall).

Lemma idle_rest s γ t th : ok_machine s γ -> mc_threads s !! t = Some th -> th_run th = Idle ->
  exists g, γ !! t = Some (g, Up) /\ Rest t (th_log th) g.
Proof.
  intros Hs Ht Hi. destruct (thread_ghost _ _ _ _ _ _ _ _ Hs Ht) as (g & Hg & HR). exists g. unfold in_call in HR.
  by rewrite Hi in Hg, HR.
Qed.

Lemma critical_held s γ t th : ok_machine s γ -> mc_threads s !! t = Some th -> in_critical th = true ->
  exists g n d, γ !! t = Some (g, n) /\ ph g = Held d.
Proof.
  intros Hm Ht Hc. destruct (thread_ghost _ _ _ _ _ _ _ _ Hm Ht) as (g & Hg & Hok). exists g, (nap_of (th_run th)).
  unfold in_critical in Hc. apply andb_true_iff in Hc as [Hh Hc]. apply Z.ltb_lt in Hh.
  destruct (in_call th) as [op|].
  - apply negb_true_iff, bool_decide_eq_false in Hc. destruct (Hok Hc Hh) as [d Hd]. eauto.
  - destruct (Rest_phase _ _ _ Hok) as [E|[E _]]; [|eauto]. destruct Hok as (_ & _ & ->). unfold resting in E.
    cbn in E. rewrite (proj2 (Z.eqb_neq _ _)) in E by lia. done.
Qed.

End Calls.

(** ** The theorems *)

(** C8: Mutual exclusion, for a mutex of any kind, any number of threads, any schedule and whatever the native waits do:
    two different threads are never both in their critical sections (a lock they were granted and have not begun to
    give back).  A thread that holds the lock between calls is the owner, the depth word is the number of its locks
    not yet given back, and the state word is not 0; no thread gives back more than it took; and when every thread is
    between calls and none holds the lock, the mutex is as new: free, without an owner and without waiters. *)
Theorem mutex_mutual_exclusion kind lossy T s (HT : 0 ∉ T) (Hr : mutex_reachable kind lossy T s) :
  (forall t u th th', mc_threads s !! t = Some th -> mc_threads s !! u = Some th' ->
     in_critical th = true -> in_critical th' = true -> t = u) /\
  (forall t th, mc_threads s !! t = Some th -> th_run th = Idle ->
     0 <= held (th_log th) <= U32_MAX /\
     (0 < held (th_log th) -> mc_mem s Owner = t /\ mc_mem s Depth = held (th_log th) /\ mc_mem s State <> 0)) /\
  ((forall t th, mc_threads s !! t = Some th -> th_run th = Idle /\ held (th_log th) = 0) ->
     mc_mem s State = 0 /\ mc_mem s Owner = 0 /\ mc_mem s Waiters = 0).
Proof.
  destruct (mutex_reach_ok kind lossy T s HT Hr) as [γ Hm]. pose proof (proj1 Hm) as (Hlk & Hwt & Hwk). split_and!.
  - intros t u th th' Ht Hu Ct Cu.
    destruct (critical_held _ _ _ _ _ Hm Ht Ct) as (g & n & d & Hg & Hd).
    destruct (critical_held _ _ _ _ _ Hm Hu Cu) as (g' & n' & d' & Hg' & Hd').
    destruct (Lk_holder _ _ _ _ _ Hlk Hg) as [Hok _]; [congruence |]. rewrite Hd in Hok.
    destruct (Lk_holder _ _ _ _ _ Hlk Hg') as [Hok' _]; [congruence |]. rewrite Hd' in Hok'.
    destruct Hok as [(<- & _) _], Hok' as [(<- & _) _]. done.
  - intros t th Ht Hi. destruct (idle_rest _ _ _ _ _ Hm Ht Hi) as (g & Hg & HR).
    destruct (Rest_phase _ _ _ HR) as [E|[E Hp]].
    + assert (held (th_log th) = 0) as ->; [|done]. destruct HR as (_ & _ & ->). unfold resting in E. cbn in E.
      by destruct (Z.eqb_spec (held (th_log th)) 0).
    + destruct (Lk_holder _ _ _ _ _ Hlk Hg) as [Hok _]; [congruence |]. rewrite E in Hok.
      destruct Hok as [(Ho & Hd & Hb) Hst]. split_and!; [lia..|]. intros _. split_and!; [done | done | lia].
  - intros Hall. assert (forall t g n, γ !! t = Some (g, n) -> g = resting 0) as Hrest.
    { intros t g n Hg. pose proof (proj2 Hm t) as Hs. rewrite Hg in Hs.
      destruct (mc_threads s !! t) as [th|] eqn:Et; [|done]. destruct (Hall t th Et) as [Hi Hh].
      destruct (idle_rest _ _ _ _ _ Hm Et Hi) as (g' & Hg' & _ & _ & HR). rewrite Hh in HR. congruence. }
    destruct Hlk as ([t|] & _ & Hh).
    + destruct Hh as (g & n & Hg & Hok). rewrite (Hrest _ _ _ Hg) in Hok. by destruct Hok as [[] _].
    + destruct Hh as [-> ->]. split_and!; [done | done |]. destruct Hwt as [-> _]. rewrite total_zero; [done |].
      intros t g n Hg. by rewrite (Hrest _ _ _ Hg).
Qed.

(** No thread is running or about to run: each is between calls or asleep in a wait. *)
Definition quiet (s : machine Cell Op (result Error unit + Z)) : Prop :=
  forall t th, mc_threads s !! t = Some th -> th_run th = Idle \/ asleep_on State th.

(** C16: No wake-up is lost, when a wait that fails has not been selected by a wake: whenever threads sleep on the mutex
    and nothing else is going on, the mutex is locked and marked contended, so that its owner's [unlock] will
    wake one of them; the owner is in its critical section, or is itself asleep because it locked a non-recursive
    mutex twice.  In particular a free mutex has no sleepers. *)
Theorem mutex_no_lost_wakeup kind T s (HT : 0 ∉ T) (Hr : mutex_reachable kind false T s) (Hq : quiet s)
    (Hs : sleepers (mc_threads s) State <> ∅) :
  mc_mem s State = 2 /\
  exists t th, mc_threads s !! t = Some th /\ mc_mem s Owner = t /\ (in_critical th = true \/ asleep_on State th).
Proof.
  destruct (mutex_reach_ok kind false T s HT Hr) as [γ Hm]. pose proof (proj1 Hm) as (Hlk & Hwt & Hwk).
  assert (forall t g n, γ !! t = Some (g, n) -> exists th, mc_threads s !! t = Some th /\
    (n = Up /\ th_run th = Idle /\ Rest t (th_log th) g \/ n = Down State /\ asleep_on State th)) as Hcase.
  { intros t g n Hg. pose proof (proj2 Hm t) as Hst. rewrite Hg in Hst.
    destruct (mc_threads s !! t) as [th|] eqn:Et; [|done]. exists th. split; [done |]. destruct Hst as [-> Hok].
    unfold thread_ok in Hok. destruct (Hq t th Et) as [Hi|Ha].
    - left. by rewrite Hi in Hok |- *.
    - right. split; [|done]. unfold asleep_on in Ha. destruct (th_run th); try done. cbn. congruence. }
  assert (mc_mem s State = 2) as H2.
  { apply set_choose_L in Hs as [t Ht]. apply elem_of_sleepers in Ht as (th & Ht & Hn).
    pose proof (proj2 Hm t) as Hst. rewrite Ht in Hst. cbn in Hst. destruct (γ !! t) as [[g n]|] eqn:Eg; [|done].
    destruct Hst as [-> _]. rewrite Hn in Eg.
    destruct (Hwk eq_refl t g Eg) as [E|(u & g' & n' & Hu & Hp)]; [done | exfalso].
    destruct (Hcase u g' n' Hu) as (th' & _ & [(-> & _ & _ & _ & ->)|[-> _]]); by destruct Hp as [[? ?]|?]. }
  split; [done |]. destruct Hlk as ([t|] & Hout & Hh); [|lia]. destruct Hh as (g & n & Hg & Hok & _).
  destruct (Hcase t g n Hg) as (th & Et & Hc). exists t, th. split; [done |].
  destruct Hc as [(-> & Hi & HR)|[-> Ha]].
  - destruct (Rest_phase _ _ _ HR) as [E|[E Hp]]; rewrite E in Hok; [done |]. split; [apply Hok |]. left.
    unfold in_critical, in_call. rewrite Hi, (proj2 (Z.ltb_lt _ _)) by done. done.
  - destruct (proj2 Hwt t g State Hg) as [E|[d E]]; rewrite E in Hok; [done |]. split; [apply Hok | by right].
Qed.

(** ** Schedules *)

Definition acts (t : Z) (n : nat) : list (Z * @choice Op) := repeat (t, Act false) n.

(** An uncontended [lock], a [lock] that goes to sleep, an [unlock] up to its wake. *)
Definition takes (t : Z) : list (Z * @choice Op) := [(t, Start Lock 3)] ++ acts t 5 ++ [(t, Finish)].
Definition sleeps (t : Z) : list (Z * @choice Op) := [(t, Start Lock 3)] ++ acts t 6.
Definition gives (t : Z) : list (Z * @choice Op) := [(t, Start Unlock 0)] ++ acts t 6.

Definition run_normal (lossy : bool) (T : gset Z) (schedule : list (Z * @choice Op))
    : machine Cell Op (result Error unit + Z) :=
  outcome (call NORMAL) any_call lossy new T schedule.

Definition quietb (s : machine Cell Op (result Error unit + Z)) : bool :=
  forallb (fun x => match th_run (snd x) with Idle => true | Asleep _ State _ => true | _ => false end)
    (map_to_list (mc_threads s)).

Lemma quietb_quiet s : quietb s = true -> quiet s.
Proof.
  intros Hq t th Ht. unfold quietb in Hq. rewrite forallb_forall in Hq.
  specialize (Hq (t, th)). cbn in Hq. rewrite <- list_elem_of_In, elem_of_map_to_list in Hq. specialize (Hq Ht).
  unfold asleep_on. destruct (th_run th) as [| | ? [] ?|]; auto; done.
Qed.

(** Thread 1 holds the lock and threads 2 and 3 sleep. *)
Definition contended : list (Z * @choice Op) := takes 1 ++ sleeps 2 ++ sleeps 3.

Lemma mutex_mutual_exclusion_witness :
  mutex_reachable NORMAL true {[1; 2; 3]} (run_normal true {[1; 2; 3]} contended) /\
  in_critical <$> mc_threads (run_normal true {[1; 2; 3]} contended) !! 1 = Some true /\
  forall u th, mc_threads (run_normal true {[1; 2; 3]} contended) !! u = Some th -> in_critical th = true -> u = 1.
Proof.
  assert (mutex_reachable NORMAL true {[1; 2; 3]} (run_normal true {[1; 2; 3]} contended)) as Hr
    by (apply outcome_reachable; vm_compute; reflexivity).
  assert (in_critical <$> mc_threads (run_normal true {[1; 2; 3]} contended) !! 1 = Some true) as H1
    by (vm_compute; reflexivity).
  split_and!; [done | done |]. intros u th Hu Hc.
  apply fmap_Some in H1 as (th1 & E1 & C1). symmetry in C1.
  assert (0 ∉ ({[1; 2; 3]} : gset Z)) as H0 by by_compute.
  exact (proj1 (mutex_mutual_exclusion NORMAL true {[1; 2; 3]} _ H0 Hr) u 1 th th1 Hu E1 Hc C1).
Defined.

Lemma mutex_no_lost_wakeup_witness :
  quiet (run_normal false {[1; 2; 3]} contended) /\
  sleepers (mc_threads (run_normal false {[1; 2; 3]} contended)) State = {[2; 3]} /\
  mc_mem (run_normal false {[1; 2; 3]} contended) State = 2.
Proof.
  assert (quiet (run_normal false {[1; 2; 3]} contended)) as Hq by (apply quietb_quiet; vm_compute; reflexivity).
  assert (sleepers (mc_threads (run_normal false {[1; 2; 3]} contended)) State = {[2; 3]}) as Hs by by_compute.
  split_and!; [done | done |].
  apply (mutex_no_lost_wakeup NORMAL {[1; 2; 3]} (run_normal false {[1; 2; 3]} contended)).
  - by_compute.
  - apply outcome_reachable. vm_compute. reflexivity.
  - exact Hq.
  - rewrite Hs. by_compute.
Defined.

(** Thread 1 gives the lock back and wakes 2; thread 4 takes it; the wait of 2 fails; thread 4 gives it back. *)
Definition barged : list (Z * @choice Op) :=
  contended ++ gives 1 ++ [(1, WakeOnly {[2]}); (1, Finish)] ++ takes 4 ++
  [(2, WaitFail 60); (2, Act false); (2, Act false); (2, Finish)] ++ gives 4 ++ [(4, Finish)].

(** C38: The limit of the theorem above.  When a wait may fail although a wake selected the thread, which is the case the
    failure path of [lock] is written for, the wake-up can be lost: that path passes the wake on only when it finds
    the state word 0, but a thread that took the lock in between by the fast path has set it to 1, and gives it
    back without a wake.  Then the mutex is free, every other thread is between calls, and thread 3 still sleeps. *)
Theorem mutex_handoff_lost :
  exists s, mutex_reachable NORMAL true {[1; 2; 3; 4]} s /\ quiet s /\
    sleepers (mc_threads s) State = {[3]} /\ mc_mem s State = 0 /\ mc_mem s Owner = 0.
Proof.
  exists (run_normal true {[1; 2; 3; 4]} barged). split_and!.
  - apply outcome_reachable. vm_compute. reflexivity.
  - apply quietb_quiet. vm_compute. reflexivity.
  - by_compute.
  - vm_compute. reflexivity.
  - vm_compute. reflexivity.
Qed.

End Mutex.
