(* ===== verification/PthreadRwlock.v ===== *)
(** * Read-write locks ([posix-client/src/pthread_rwlock.rs])

    The lock is one word: the number of readers, or [WRITER], or one of the two markers of an unused and of a destroyed
    lock.  A thread may unlock only what it holds, as the module's comment requires of its callers. *)

From stdpp Require Import gmap.
From S2P Require Import Prelude Concurrent.

Module Rwlock.

(** ** The code *)

Definition INITIALIZER : Z := U32_MAX.
Definition DESTROYED : Z := U32_MAX - 1.
Definition WRITER : Z := Z.shiftl 1 31.
Definition MAX_READERS : Z := WRITER - 1.

Inductive Error : Type := Invalid | Busy (value : Z) | ReaderLimit.

Inductive Cell : Type := Word.
#[export] Instance rwlock_Cell_eq_dec : EqDecision Cell.
Proof. solve_decision. Defined.

Abbreviation program A := (prog Cell A).

Fixpoint current (fuel : nat) : program (result Error Z) :=
  match fuel with
  | O => Diverge
  | S fuel =>
      let! value := load Word in
      if value =? INITIALIZER then compare_exchange false Word INITIALIZER 0 ;! current fuel
      else if value <=? WRITER then Ret (Ok value) else Ret (Err Invalid)
  end.

Fixpoint try_read (fuel : nat) : program (result Error unit) :=
  match fuel with
  | O => Diverge
  | S fuel =>
      try! value := current fuel in
      if value =? WRITER then Ret (Err (Busy value)) else
      if value =? MAX_READERS then Ret (Err ReaderLimit) else
      let! exchanged := compare_exchange false Word value (value + 1) in
      match exchanged with inl _ => Ret (Ok tt) | inr _ => try_read fuel end
  end.

Fixpoint try_write (fuel : nat) : program (result Error unit) :=
  match fuel with
  | O => Diverge
  | S fuel =>
      try! value := current fuel in
      if negb (value =? 0) then Ret (Err (Busy value)) else
      let! exchanged := compare_exchange false Word 0 WRITER in
      match exchanged with inl _ => Ret (Ok tt) | inr _ => try_write fuel end
  end.

(** The word after a release. *)
Definition released (value : Z) : option Z :=
  if value =? WRITER then Some 0
  else if (1 <=? value) && (value <=? MAX_READERS) then Some (value - 1) else None.

Fixpoint unlock (fuel : nat) : program (result Error bool) :=
  match fuel with
  | O => Diverge
  | S fuel =>
      let! value := load Word in
      match released value with
      | None => Ret (Err Invalid)
      | Some next =>
          let! exchanged := compare_exchange false Word value next in
          match exchanged with inl _ => Ret (Ok (next =? 0)) | inr _ => unlock fuel end
      end
  end.

Fixpoint destroy (fuel : nat) : program (result Error unit) :=
  match fuel with
  | O => Diverge
  | S fuel =>
      let! value := load Word in
      if (value =? 0) || (value =? INITIALIZER) then
        let! exchanged := compare_exchange false Word value DESTROYED in
        match exchanged with inl _ => Ret (Ok tt) | inr _ => destroy fuel end
      else if (1 <=? value) && (value <=? WRITER) then Ret (Err (Busy value)) else Ret (Err Invalid)
  end.

Definition initialize : program unit := store Word 0 ;! Ret tt.

Inductive Op : Type := TryRead | TryWrite | Unlock | Destroy.
#[export] Instance rwlock_Op_eq_dec : EqDecision Op.
Proof. solve_decision. Defined.

(** The answer of [unlock] is its flag; of the others, [true]. *)
Definition answered (p : program (result Error unit)) : program (result Error bool) := try! _u := p in Ret (Ok true).

Definition call (thread : Z) (op : Op) (fuel : nat) : program (result Error bool) :=
  match op with
  | TryRead => answered (try_read fuel)
  | TryWrite => answered (try_write fuel)
  | Unlock => unlock fuel
  | Destroy => answered (destroy fuel)
  end.

(** ** What the threads hold *)

Abbreviation answers := (list (Op * result Error bool)).

Record ghost : Type := { reads : nat; writes : nat }.

(** The read and write locks that a thread took and did not give back. *)
Fixpoint holds (log : answers) : ghost :=
  match log with
  | [] => {| reads := 0; writes := 0 |}
  | (TryRead, Ok _) :: log => {| reads := S (reads (holds log)); writes := writes (holds log) |}
  | (TryWrite, Ok _) :: log => {| reads := reads (holds log); writes := S (writes (holds log)) |}
  | (Unlock, Ok _) :: log =>
      if (0 <? writes (holds log))%nat then {| reads := reads (holds log); writes := pred (writes (holds log)) |}
      else {| reads := pred (reads (holds log)); writes := writes (holds log) |}
  | _ :: log => holds log
  end.

(** Unlock only what is held. *)
Definition allowed (log : answers) (op : Op) : bool :=
  match op with Unlock => (0 <? reads (holds log) + writes (holds log))%nat | _ => true end.

(** Inside the section that the lock protects: a lock held, and no unlock begun. *)
Definition inside (th : thread Cell Op (result Error bool)) : bool := negb (bool_decide (in_call th = Some Unlock)).
Definition reading (th : thread Cell Op (result Error bool)) : bool := inside th && (0 <? reads (holds (th_log th)))%nat.
Definition writing (th : thread Cell Op (result Error bool)) : bool := inside th && (0 <? writes (holds (th_log th)))%nat.

(** ** The invariant *)

Implicit Types (m : Cell -> Z) (γ : ghosts Cell ghost) (g : ghost).

Definition h_reads g : Z := Z.of_nat (reads g).
Definition h_writes g : Z := Z.of_nat (writes g).

Definition word_ok (w R W : Z) : Prop :=
  (w = INITIALIZER \/ w = DESTROYED) /\ R = 0 /\ W = 0 \/
  w = WRITER /\ R = 0 /\ W = 1 \/
  0 <= w <= MAX_READERS /\ R = w /\ W = 0.

Definition Inv m γ : Prop := word_ok (m Word) (total h_reads γ) (total h_writes γ).

Definition Rest (t : Z) (log : answers) g : Prop := g = holds log /\ forall e, (Unlock, Err e) ∉ log.
Definition InCall (t : Z) (op : Op) (log : answers) g : Prop :=
  (forall e, (Unlock, Err e) ∉ log) /\
  (op <> Unlock -> (reads (holds log) <= reads g)%nat /\ (writes (holds log) <= writes g)%nat).

Ltac words := unfold word_ok, INITIALIZER, DESTROYED, MAX_READERS in *; change WRITER with 2147483648 in *; widths.

Lemma rwlock_h_nonneg : (forall g, 0 <= h_reads g) /\ (forall g, 0 <= h_writes g).
Proof. unfold h_reads, h_writes. split; lia. Qed.

Lemma rwlock_Inv_put m m' γ t g g' : γ !! t = Some (g, Up) ->
  word_ok (m' Word) (total h_reads γ - h_reads g + h_reads g') (total h_writes γ - h_writes g + h_writes g') ->
  Inv m' (put γ t g' Up).
Proof. intros Hg Hw. unfold Inv. by rewrite !(total_put _ _ _ _ _ _ _ Hg). Qed.

(** What one thread holds, the word shows. *)
Lemma rwlock_Inv_own m γ t g n : Inv m γ -> γ !! t = Some (g, n) ->
  Z.of_nat (reads g) <= total h_reads γ /\ Z.of_nat (writes g) <= total h_writes γ.
Proof. intros _ Hg. split; [apply (total_one h_reads γ t g n); [apply rwlock_h_nonneg | done] | apply (total_one h_writes γ t g n); [apply rwlock_h_nonneg | done]]. Qed.

Section Operations.
Context (t : Z) (P : ghost -> Prop).
Abbreviation valid A := (ok (A := A) true Inv P t).

Lemma current_ok fuel g (Q : _ -> _ -> Prop) : P g -> (forall v, v <> INITIALIZER -> v <= WRITER -> Q (Ok v) g) ->
  Q (Err Invalid) g -> valid _ g (current fuel) Q.
Proof.
  intros HP Hv He. induction fuel as [|fuel IH]; [done |]. cbn [current]. apply ok_load. intros m γ HI Hg.
  apply (moves_stay _ _ _ _ _ g); try done. destruct (Z.eqb_spec (m Word) INITIALIZER).
  - apply ok_cas; clear m γ HI Hg e; intros m γ HI Hg Hw.
    + exists g. split; [done |]. split; [|done]. apply (rwlock_Inv_put m _ γ t g); [done |]. unfold Inv in HI.
      change (mem_set m Word 0 Word) with 0. words. lia.
    + by apply (moves_stay _ _ _ _ _ g).
  - destruct (Z.leb_spec (m Word) WRITER); [by apply Hv | done].
Qed.

Lemma try_read_ok fuel g (Q : _ -> _ -> Prop) : P g ->
  let g' := {| reads := S (reads g); writes := writes g |} in
  P g' -> Q (Ok tt) g' -> (forall e, Q (Err e) g) -> valid _ g (try_read fuel) Q.
Proof.
  intros HP g' HP' Hok He. induction fuel as [|fuel IH]; [done |]. cbn [try_read].
  apply ok_try, current_ok; [done | | apply He]. intros v Hi Hv. destruct (Z.eqb_spec v WRITER); [apply He |].
  destruct (Z.eqb_spec v MAX_READERS); [apply He |]. apply ok_cas; intros m γ HI Hg Hw.
  - exists g'. split; [done |]. split; [|done]. apply (rwlock_Inv_put m _ γ t g); [done |]. unfold Inv in HI.
    change (mem_set m Word (v + 1) Word) with (v + 1). unfold h_reads, h_writes, g' in *. cbn [reads writes]. words. lia.
  - by apply (moves_stay _ _ _ _ _ g).
Qed.

Lemma try_write_ok fuel g (Q : _ -> _ -> Prop) : P g ->
  let g' := {| reads := reads g; writes := S (writes g) |} in
  P g' -> Q (Ok tt) g' -> (forall e, Q (Err e) g) -> valid _ g (try_write fuel) Q.
Proof.
  intros HP g' HP' Hok He. induction fuel as [|fuel IH]; [done |]. cbn [try_write].
  apply ok_try, current_ok; [done | | apply He]. intros v Hi Hv. destruct (Z.eqb_spec v 0) as [->|]; [|apply He].
  cbn [negb]. apply ok_cas; intros m γ HI Hg Hw.
  - exists g'. split; [done |]. split; [|done]. apply (rwlock_Inv_put m _ γ t g); [done |]. unfold Inv in HI.
    change (mem_set m Word WRITER Word) with WRITER. unfold h_reads, h_writes, g' in *. cbn [reads writes]. words. lia.
  - by apply (moves_stay _ _ _ _ _ g).
Qed.

Lemma rwlock_destroy_ok fuel g (Q : _ -> _ -> Prop) : P g -> Q (Ok tt) g -> (forall e, Q (Err e) g) -> valid _ g (destroy fuel) Q.
Proof.
  intros HP Hok He. induction fuel as [|fuel IH]; [done |]. cbn [destroy]. apply ok_load. intros m γ HI Hg.
  apply (moves_stay _ _ _ _ _ g); try done. destruct (_ || _) eqn:Hz; [|destruct (_ && _); apply He].
  apply orb_true_iff in Hz. rewrite !Z.eqb_eq in Hz. remember (m Word) as v. clear Heqv m γ HI Hg.
  apply ok_cas; intros m γ HI Hg Hw.
  - exists g. split; [done |]. split; [|done]. apply (rwlock_Inv_put m _ γ t g); [done |]. unfold Inv in HI.
    change (mem_set m Word DESTROYED Word) with DESTROYED. words. lia.
  - by apply (moves_stay _ _ _ _ _ g).
Qed.

(** A thread that holds the lock can always give it back. *)
Definition given_back g : ghost :=
  if (0 <? writes g)%nat then {| reads := reads g; writes := pred (writes g) |}
  else {| reads := pred (reads g); writes := writes g |}.

Lemma unlock_ok fuel g (Q : _ -> _ -> Prop) : P g -> (0 < reads g + writes g)%nat -> P (given_back g) ->
  (forall b, Q (Ok b) (given_back g)) -> valid _ g (unlock fuel) Q.
Proof.
  intros HP Hh HP' Hok. induction fuel as [|fuel IH]; [done |]. cbn [unlock]. apply ok_load. intros m γ HI Hg.
  apply (moves_stay _ _ _ _ _ g); try done.
  pose proof (rwlock_Inv_own _ _ _ _ _ HI Hg) as [Hr Hw]. unfold Inv in HI. remember (m Word) as v.
  assert (v = WRITER \/ 1 <= v <= MAX_READERS) as Hv by (words; lia). unfold released.
  assert (forall next, (v = WRITER /\ next = 0 \/ v <> WRITER /\ next = v - 1) ->
    valid _ g (let! exchanged := compare_exchange false Word v next in
               match exchanged with inl _ => Ret (Ok (next =? 0)) | inr _ => unlock fuel end) Q) as Hx.
  { clear Heqv HI Hr Hw m γ Hg. intros next Hn. apply ok_cas; intros m γ HI Hg Hm; [|by apply (moves_stay _ _ _ _ _ g)].
    exists (given_back g). split; [done |]. split; [|apply Hok]. apply (rwlock_Inv_put m _ γ t g); [done |].
    pose proof (rwlock_Inv_own _ _ _ _ _ HI Hg) as [Hr Hw]. unfold Inv in HI. change (mem_set m Word next Word) with next.
    unfold given_back, h_reads, h_writes in *. destruct (Nat.ltb_spec 0 (writes g)); cbn; words; lia. }
  destruct (Z.eqb_spec v WRITER); [apply Hx; auto |].
  rewrite (proj2 (Z.leb_le 1 v)), (proj2 (Z.leb_le v MAX_READERS)) by (words; lia). apply Hx; auto.
Qed.
End Operations.

Lemma answered_ok t P g p (Q : _ -> _ -> Prop) :
  ok true Inv P t g p (fun r g => match r with Ok _ => Q (Ok true) g | Err e => Q (Err e) g | Panic => Q Panic g end) ->
  ok true Inv P t g (answered p) Q.
Proof. intros H. unfold answered. by apply ok_try. Qed.

Lemma rwlock_call_ok t op fuel log g : Rest t log g -> allowed log op = true ->
  InCall t op log g /\ ok true Inv (InCall t op log) t g (call t op fuel) (fun r g => Rest t ((op, r) :: log) g).
Proof.
  intros [-> Hlog] Ha.
  assert (forall op r, (forall e, op = Unlock -> r <> Err e) -> forall e, (Unlock, Err e) ∉ (op, r) :: log) as Hcons.
  { intros o r Hr e [[= Ho He]|Hin]%elem_of_cons; [by apply (Hr e) | by apply (Hlog e)]. }
  assert (InCall t op log (holds log)) as HP by (split; auto). split; [done |]. destruct op; cbn [call].
  - apply answered_ok, try_read_ok; [done | split; [done | cbn; auto] | |]; intros; (split; [done |]); by apply Hcons.
  - apply answered_ok, try_write_ok; [done | split; [done | cbn; auto] | |]; intros; (split; [done |]); by apply Hcons.
  - unfold allowed in Ha. apply Nat.ltb_lt in Ha. apply unlock_ok; [done | done | by split |]. intros b.
    split; [done |]. by apply Hcons.
  - apply answered_ok, rwlock_destroy_ok; [done | |]; intros; (split; [done |]); by apply Hcons.
Qed.

Definition rwlock_reachable (w0 : Z) (T : gset Z) (s : machine Cell Op (result Error bool)) : Prop :=
  reachable call allowed true (fun _ => w0) T s.

Lemma rwlock_reach_ok w0 T s : w0 = 0 \/ w0 = INITIALIZER -> rwlock_reachable w0 T s ->
  exists γ, machine_ok true Inv Rest InCall s γ.
Proof.
  intros Hw. apply (reach_ok call allowed true Inv Rest InCall) with (g0 := {| reads := 0; writes := 0 |}).
  - apply rwlock_call_ok.
  - unfold Inv. rewrite !total_start by done. words. lia.
  - intros t _. split; [done |]. intros e. set_solver.
Qed.

(** Every thread's ghost state has at least what it holds inside the protected section. *)
Lemma inside_ghost s γ t th : machine_ok true Inv Rest InCall s γ -> mc_threads s !! t = Some th ->
  (forall e, (Unlock, Err e) ∉ th_log th) /\
  exists g n, γ !! t = Some (g, n) /\
    (inside th = true -> (reads (holds (th_log th)) <= reads g)%nat /\ (writes (holds (th_log th)) <= writes g)%nat).
Proof.
  intros Hm Ht. destruct (thread_ghost _ _ _ _ _ _ _ _ Hm Ht) as (g & Hg & Hc). unfold inside.
  destruct (in_call th) as [op|].
  - destruct Hc as [Hlog Hc]. split; [done |]. exists g, (nap_of (th_run th)). split; [done |]. intros Hi. apply Hc.
    apply negb_true_iff, bool_decide_eq_false in Hi. congruence.
  - destruct Hc as [-> Hlog]. split; [done |]. exists (holds (th_log th)), (nap_of (th_run th)). split; [done |]. auto.
Qed.

(** C15: Readers and writers exclude each other, for any number of threads and any schedule of threads that unlock only
    what they hold: while a thread is inside with a write lock, no other thread is inside with a read or a write
    lock, and the word says [WRITER]; while one is inside with a read lock, the word is a reader count.  Giving back a
    lock that is held never fails, and when every thread is between calls and holds nothing the word is free again (or
    the lock was destroyed, which a held lock never is). *)
Theorem rwlock_exclusion w0 T s (Hw : w0 = 0 \/ w0 = INITIALIZER) (Hr : rwlock_reachable w0 T s) :
  (forall t u th th', mc_threads s !! t = Some th -> mc_threads s !! u = Some th' -> t <> u ->
     writing th = true -> reading th' = false /\ writing th' = false) /\
  (forall t th, mc_threads s !! t = Some th ->
     (writing th = true -> mc_mem s Word = WRITER) /\ (reading th = true -> 1 <= mc_mem s Word <= MAX_READERS) /\
     forall e, (Unlock, Err e) ∉ th_log th) /\
  ((forall t th, mc_threads s !! t = Some th -> th_run th = Idle /\ holds (th_log th) = {| reads := 0; writes := 0 |}) ->
     mc_mem s Word = 0 \/ mc_mem s Word = INITIALIZER \/ mc_mem s Word = DESTROYED).
Proof.
  destruct (rwlock_reach_ok w0 T s Hw Hr) as [γ Hm]. pose proof (proj1 Hm) as HI. unfold Inv in HI. split_and!.
  - intros t u th th' Ht Hu Htu Hwr. apply andb_true_iff in Hwr as [Hi Hwr]. apply Nat.ltb_lt in Hwr.
    destruct (inside_ghost _ _ _ _ Hm Ht) as (_ & g & n & Hg & Hgi). specialize (Hgi Hi).
    destruct (inside_ghost _ _ _ _ Hm Hu) as (_ & g' & n' & Hg' & Hgi').
    pose proof (total_two h_writes γ t u g n g' n' (proj2 rwlock_h_nonneg) Htu Hg Hg') as Hw2.
    pose proof (rwlock_Inv_own _ _ _ _ _ (proj1 Hm) Hg) as [_ Hw1]. pose proof (rwlock_Inv_own _ _ _ _ _ (proj1 Hm) Hg') as [Hr1 _].
    assert (Z.of_nat (writes g) + Z.of_nat (writes g') <= total h_writes γ) as Hw3 by exact Hw2. clear Hw2.
    unfold reading, writing. destruct (inside th') eqn:Ei; [|done]. specialize (Hgi' eq_refl). cbn [andb].
    rewrite !Nat.ltb_ge. words. lia.
  - intros t th Ht. destruct (inside_ghost _ _ _ _ Hm Ht) as (Hlog & g & n & Hg & Hgi).
    pose proof (rwlock_Inv_own _ _ _ _ _ (proj1 Hm) Hg) as [Hr1 Hw1]. split_and!; [| |done].
    + intros [Hi Hx]%andb_true_iff. apply Nat.ltb_lt in Hx. specialize (Hgi Hi). words. lia.
    + intros [Hi Hx]%andb_true_iff. apply Nat.ltb_lt in Hx. specialize (Hgi Hi). words. lia.
  - intros Hall. assert (forall t g n, γ !! t = Some (g, n) -> g = {| reads := 0; writes := 0 |}) as Hz.
    { intros t g n Hg. pose proof (proj2 Hm t) as Hs. rewrite Hg in Hs.
      destruct (mc_threads s !! t) as [th|] eqn:Et; [|done]. destruct (Hall t th Et) as [Hi Hh].
      destruct (thread_ghost _ _ _ _ _ _ _ _ Hm Et) as (g1 & Hg1 & Hc). unfold in_call in Hc. rewrite Hi in Hc.
      destruct Hc as [-> _]. congruence. }
    rewrite !total_zero in HI by (intros t g n Hg; by rewrite (Hz t g n Hg)). words. lia.
Qed.

(** ** A schedule: thread 1 has the lock for writing, thread 2 asked to read and was told it is busy *)

Definition demo : list (Z * @choice Op) :=
  [(1, Start TryWrite 3)] ++ repeat (1, Act false) 4 ++ [(1, Finish); (2, Start TryRead 3); (2, Act false); (2, Finish)].
Definition demo_end : machine Cell Op (result Error bool) := outcome call allowed true (fun _ => INITIALIZER) {[1; 2]} demo.

Lemma rwlock_exclusion_witness :
  writing <$> mc_threads demo_end !! 1 = Some true /\
  th_log <$> mc_threads demo_end !! 2 = Some [(TryRead, Err (Busy WRITER))] /\
  forall th, mc_threads demo_end !! 2 = Some th -> reading th = false.
Proof.
  assert (writing <$> mc_threads demo_end !! 1 = Some true) as H1 by (vm_compute; reflexivity).
  split_and!; [done | vm_compute; reflexivity |]. intros th Hth.
  apply fmap_Some in H1 as (th1 & E1 & C1). symmetry in C1.
  assert (rwlock_reachable INITIALIZER {[1; 2]} demo_end) as Hr by (apply outcome_reachable; vm_compute; reflexivity).
  assert (1 <> 2) as Hne by done.
  exact (proj1 (proj1 (rwlock_exclusion INITIALIZER {[1; 2]} demo_end (or_intror eq_refl) Hr) 1 2 th1 th E1 Hth Hne C1)).
Defined.

End Rwlock.
