(* ===== verification/Semaphore.v ===== *)
(** * Semaphores ([posix-client/src/semaphore.rs])

    The counting state; callers wait on its word.  No operation here waits.  The field [reserved] does not change. *)

From stdpp Require Import gmap.
From S2P Require Import Prelude Concurrent.

Module Semaphore.

Definition VALUE_MAX : Z := 2147483647.

Inductive Error : Type := Invalid | Overflow.

Inductive Cell : Type := Count | Initialized.
#[export] Instance sem_Cell_eq_dec : EqDecision Cell.
Proof. solve_decision. Defined.

Abbreviation program A := (prog Cell A).

Definition new (value : Z) (shared : bool) : result Error (Cell -> Z) :=
  if VALUE_MAX <? value then Err Invalid
  else Ok (fun c => match c with Count => value | Initialized => if shared then 2 else 1 end).

Section Code.
Variable reserved : Z.

Definition validate : program (result Error unit) :=
  if negb (reserved =? 0) then Ret (Err Invalid) else
  let! initialized := load Initialized in
  if (initialized =? 1) || (initialized =? 2) then Ret (Ok tt) else Ret (Err Invalid).

Definition value : program (result Error Z) :=
  try! _u := validate in
  let! count := load Count in
  if VALUE_MAX <? count then Ret (Err Invalid) else Ret (Ok (wrap32 count)).

Fixpoint take_loop (fuel : nat) : program (result Error bool) :=
  match fuel with
  | O => Diverge
  | S fuel =>
      let! count := load Count in
      if VALUE_MAX <? count then Ret (Err Invalid) else
      if count =? 0 then Ret (Ok false) else
      let! exchanged := compare_exchange false Count count (count - 1) in
      match exchanged with inl _ => Ret (Ok true) | inr _ => take_loop fuel end
  end.
Definition try_take (fuel : nat) : program (result Error bool) := try! _u := validate in take_loop fuel.

Fixpoint post_loop (fuel : nat) : program (result Error unit) :=
  match fuel with
  | O => Diverge
  | S fuel =>
      let! count := load Count in
      if VALUE_MAX <? count then Ret (Err Invalid) else
      if count =? VALUE_MAX then Ret (Err Overflow) else
      let! exchanged := compare_exchange false Count count (count + 1) in
      match exchanged with inl _ => Ret (Ok tt) | inr _ => post_loop fuel end
  end.
Definition post (fuel : nat) : program (result Error unit) := try! _u := validate in post_loop fuel.

Definition destroy : program (result Error unit) := try! _u := validate in swap Initialized 0 ;! Ret (Ok tt).

Inductive Op : Type := Value | TryTake | Post | Destroy.
Inductive Answer : Type := IsValue (v : Z) | Took (b : bool) | Done.

Definition call (thread : Z) (op : Op) (fuel : nat) : program (result Error Answer) :=
  match op with
  | Value => try! v := value in Ret (Ok (IsValue v))
  | TryTake => try! b := try_take fuel in Ret (Ok (Took b))
  | Post => try! _u := post fuel in Ret (Ok Done)
  | Destroy => try! _u := destroy in Ret (Ok Done)
  end.

Abbreviation answers := (list (Op * result Error Answer)).
Definition any_call (log : answers) (op : Op) : bool := true.

(** Tokens posted less tokens taken, by the answers of a thread. *)
Fixpoint net (log : answers) : Z :=
  match log with
  | [] => 0
  | (TryTake, Ok (Took true)) :: log => net log - 1
  | (Post, Ok _) :: log => net log + 1
  | _ :: log => net log
  end.

Context (value0 : Z).
Implicit Types (m : Cell -> Z) (γ : ghosts Cell Z).

Definition Inv m γ : Prop := m Count = value0 + total (fun g => g) γ /\ 0 <= m Count <= VALUE_MAX.
Definition Rest (t : Z) (log : answers) (g : Z) : Prop := g = net log.
Definition InCall (t : Z) (op : Op) (log : answers) (g : Z) : Prop := True.

Lemma sem_Inv_put m m' γ t g g' : Inv m γ -> γ !! t = Some (g, Up) -> m' Count = m Count - g + g' ->
  0 <= m' Count <= VALUE_MAX -> Inv m' (put γ t g' Up).
Proof. intros [Hc _] Hg Hm Hr. split; [|done]. rewrite (total_put _ _ _ _ _ _ _ Hg). lia. Qed.

Section Operations.
Context (t : Z) (P : Z -> Prop) (HP : forall g, P g).
Abbreviation valid A := (ok (A := A) true Inv P t).

Lemma sem_validate_ok g (Q : _ -> _ -> Prop) : Q (Ok tt) g -> Q (Err Invalid) g -> valid _ g validate Q.
Proof.
  intros H1 H2. unfold validate. destruct (negb _); [done |]. apply ok_load. intros m γ HI Hg.
  apply (moves_stay _ _ _ _ _ g); try done. by destruct (_ || _).
Qed.

Lemma take_loop_ok fuel g (Q : _ -> _ -> Prop) :
  Q (Ok true) (g - 1) -> Q (Ok false) g -> valid _ g (take_loop fuel) Q.
Proof.
  intros H1 H2. induction fuel as [|fuel IH]; [done |]. cbn [take_loop]. apply ok_load. intros m γ HI Hg.
  apply (moves_stay _ _ _ _ _ g); try done. pose proof HI as [_ Hr]. remember (m Count) as c.
  destruct (Z.ltb_spec VALUE_MAX c); [lia |]. destruct (Z.eqb_spec c 0); [done |]. clear Heqc m γ HI Hg.
  apply ok_cas; intros m γ HI Hg Hc; [|by apply (moves_stay _ _ _ _ _ g)].
  exists (g - 1). split; [done |]. split; [|done]. apply (sem_Inv_put m _ γ t g); try done;
    change (mem_set m Count (c - 1) Count) with (c - 1); lia.
Qed.

Lemma post_loop_ok fuel g (Q : _ -> _ -> Prop) :
  Q (Ok tt) (g + 1) -> Q (Err Overflow) g -> valid _ g (post_loop fuel) Q.
Proof.
  intros H1 H2. induction fuel as [|fuel IH]; [done |]. cbn [post_loop]. apply ok_load. intros m γ HI Hg.
  apply (moves_stay _ _ _ _ _ g); try done. pose proof HI as [_ Hr]. remember (m Count) as c.
  destruct (Z.ltb_spec VALUE_MAX c); [lia |]. destruct (Z.eqb_spec c VALUE_MAX); [done |]. clear Heqc m γ HI Hg.
  apply ok_cas; intros m γ HI Hg Hc; [|by apply (moves_stay _ _ _ _ _ g)].
  exists (g + 1). split; [done |]. split; [|done]. apply (sem_Inv_put m _ γ t g); try done;
    change (mem_set m Count (c + 1) Count) with (c + 1); lia.
Qed.
End Operations.

Lemma sem_call_ok t op fuel log g : Rest t log g -> any_call log op = true ->
  InCall t op log g /\ ok true Inv (InCall t op log) t g (call t op fuel) (fun r g => Rest t ((op, r) :: log) g).
Proof.
  intros -> _. split; [done |]. destruct op; cbn [call].
  - apply ok_try, ok_try, sem_validate_ok; [done | | done]. apply ok_load. intros m γ HI Hg.
    apply (moves_stay _ _ _ _ _ (net log)); try done. by destruct (_ <? _).
  - apply ok_try, ok_try, sem_validate_ok; [done | | done]. by apply take_loop_ok.
  - apply ok_try, ok_try, sem_validate_ok; [done | | done]. by apply post_loop_ok.
  - apply ok_try, ok_try, sem_validate_ok; [done | | done]. apply ok_swap. intros m γ HI Hg. exists (net log).
    split; [done |]. split; [|done]. apply (sem_Inv_put m _ γ t (net log)); try done.
    + change (mem_set m Initialized 0 Count) with (m Count). lia.
    + apply HI.
Qed.

End Code.

Definition semaphore_reachable (m0 : Cell -> Z) (T : gset Z) (s : machine Cell Op (result Error Answer)) : Prop :=
  reachable (call 0) any_call true m0 T s.

(** Tokens are neither lost nor invented, for any number of threads and any schedule: a semaphore made with a value
    within the limit always has a count between 0 and [VALUE_MAX], and whenever all threads are between calls the count
    is the initial value plus the posts that were answered with success less the successful takes. *)
Theorem semaphore_conserves_tokens value0 shared m0 T s
    (Hv : 0 <= value0) (Hn : new value0 shared = Ok m0) (Hr : semaphore_reachable m0 T s) :
  0 <= mc_mem s Count <= VALUE_MAX /\
  ((forall t th, mc_threads s !! t = Some th -> th_run th = Idle) ->
   mc_mem s Count = value0 + sum_threads (fun th => net (th_log th)) (mc_threads s)).
Proof.
  unfold new in Hn. destruct (Z.ltb_spec VALUE_MAX value0) as [|Hmax]; [done |]. injection Hn as <-.
  edestruct (reach_ok (call 0) any_call true (Inv value0) Rest InCall) as [γ Hm]; [| | |exact Hr|].
  - apply sem_call_ok.
  - unfold Inv. rewrite (total_start _ 0) by done. cbn. lia.
  - done.
  - split; [apply Hm |]. intros Hidle. rewrite (proj1 (proj1 Hm)). f_equal. apply sum_threads_total. intros t.
    pose proof (proj2 Hm t) as Hs. destruct (mc_threads s !! t) as [th|] eqn:Et.
    + destruct (thread_ghost _ _ _ _ _ _ _ _ Hm Et) as (g & -> & Hg). unfold in_call in Hg.
      rewrite (Hidle t th Et) in Hg. cbn. by rewrite Hg.
    + by destruct (γ !! t) as [[g n]|].
Qed.

Definition demo : list (Z * @choice Op) :=
  [(1, Start Post 2); (1, Act false); (1, Act false); (2, Start TryTake 2); (2, Act false); (2, Act false);
   (1, Act false); (1, Finish); (2, Act false); (2, Act false); (2, Act false); (2, Finish)].
Definition demo_start : Cell -> Z := fun c => match c with Count => 5 | Initialized => 1 end.
Definition demo_end : machine Cell Op (result Error Answer) := outcome (call 0) any_call true demo_start {[1; 2]} demo.

(** Thread 2 loses its first exchange to the post of thread 1. *)
Lemma semaphore_conserves_tokens_witness :
  th_log <$> mc_threads demo_end !! 2 = Some [(TryTake, Ok (Took true))] /\ mc_mem demo_end Count = 5.
Proof.
  assert (semaphore_reachable demo_start {[1; 2]} demo_end) as Hr by (apply outcome_reachable; vm_compute; reflexivity).
  split; [vm_compute; reflexivity |].
  rewrite (proj2 (semaphore_conserves_tokens 5 false demo_start {[1; 2]} demo_end ltac:(lia) eq_refl Hr)).
  - vm_compute. reflexivity.
  - intros t th Ht. assert (Forall (fun x => th_run (snd x) = Idle) (map_to_list (mc_threads demo_end))) as Hf
      by (vm_compute; repeat constructor).
    rewrite Forall_forall in Hf. exact (Hf (t, th) (proj2 (elem_of_map_to_list _ _ _) Ht)).
Defined.

End Semaphore.
