(* ===== verification/PthreadOnce.v ===== *)
(** * One-time initialisation ([posix-client/src/pthread_once.rs])

    [claim] says whether to initialise, to wait or to go on; the thread that initialises reports with [complete] or
    [abort]. *)

From stdpp Require Import gmap.
From S2P Require Import Prelude Concurrent.

Module Once.

Definition RUNNING : Z := 2.
Definition COMPLETE : Z := 1.
Definition EINVAL : Z := 22.

Inductive Claim : Type := Initialize | Wait | Complete.

Inductive Cell : Type := State.
#[export] Instance once_Cell_eq_dec : EqDecision Cell.
Proof. solve_decision. Defined.

Abbreviation program A := (prog Cell A).

Fixpoint claim (fuel : nat) : program (result Z Claim) :=
  match fuel with
  | O => Diverge
  | S fuel =>
      let! state := load State in
      if state =? COMPLETE then Ret (Ok Complete) else
      if state =? RUNNING then Ret (Ok Wait) else
      if state =? 0 then
        let! exchanged := compare_exchange false State 0 RUNNING in
        match exchanged with inl _ => Ret (Ok Initialize) | inr _ => claim fuel end
      else Ret (Err EINVAL)
  end.

Definition complete : program unit := store State COMPLETE ;! Ret tt.
Definition abort : program unit := compare_exchange false State RUNNING 0 ;! Ret tt.

Inductive Op : Type := OpClaim | OpComplete | OpAbort.
#[export] Instance once_Op_eq_dec : EqDecision Op.
Proof. solve_decision. Defined.
Inductive Answer : Type := Claimed (r : result Z Claim) | Done.

Definition call (thread : Z) (op : Op) (fuel : nat) : program Answer :=
  match op with
  | OpClaim => let! r := claim fuel in Ret (Claimed r)
  | OpComplete => complete ;! Ret Done
  | OpAbort => abort ;! Ret Done
  end.

Abbreviation answers := (list (Op * Answer)).

(** The thread was told to initialise and has not reported. *)
Fixpoint initializing (log : answers) : bool :=
  match log with
  | [] => false
  | (OpClaim, Claimed (Ok Initialize)) :: _ => true
  | (OpClaim, _) :: log => initializing log
  | (OpComplete, _) :: _ | (OpAbort, _) :: _ => false
  end.

(** The thread knows that the initialisation is complete. *)
Definition knows (log : answers) : bool :=
  existsb (fun x => match x with (OpComplete, _) | (OpClaim, Claimed (Ok Complete)) => true | _ => false end) log.

(** Only the initialising thread reports. *)
Definition allowed (log : answers) (op : Op) : bool := match op with OpClaim => true | _ => initializing log end.

Record ghost : Type := { owns : bool; sure : bool }.
Implicit Types (m : Cell -> Z) (γ : ghosts Cell ghost) (g : ghost).

Definition h_owns g : Z := if owns g then 1 else 0.
Definition h_sure g : Z := if sure g then 1 else 0.

Definition state_ok (w O S : Z) : Prop :=
  w = 0 /\ O = 0 /\ S = 0 \/ w = RUNNING /\ O = 1 /\ S = 0 \/ w = COMPLETE /\ O = 0 /\ 0 <= S.
Definition Inv m γ : Prop := state_ok (m State) (total h_owns γ) (total h_sure γ).

Definition Rest (t : Z) (log : answers) g : Prop := g = {| owns := initializing log; sure := knows log |}.
Definition InCall (t : Z) (op : Op) (log : answers) g : Prop :=
  (knows log = true -> sure g = true) /\ (op = OpClaim -> initializing log = true -> owns g = true).

Ltac states := unfold state_ok, RUNNING, COMPLETE in *.

Lemma once_Inv_put m m' γ t g g' : γ !! t = Some (g, Up) ->
  state_ok (m' State) (total h_owns γ - h_owns g + h_owns g') (total h_sure γ - h_sure g + h_sure g') ->
  Inv m' (put γ t g' Up).
Proof. intros Hg Hw. unfold Inv. by rewrite !(total_put _ _ _ _ _ _ _ Hg). Qed.

Lemma once_h_nonneg : (forall g, 0 <= h_owns g) /\ (forall g, 0 <= h_sure g).
Proof. split; intros []; unfold h_owns, h_sure; cbn; case_match; lia. Qed.

Lemma once_Inv_own m γ t g n : Inv m γ -> γ !! t = Some (g, n) -> h_owns g <= total h_owns γ /\ h_sure g <= total h_sure γ.
Proof. intros _ Hg. split; eapply total_one; (apply once_h_nonneg || exact Hg). Qed.

Lemma h_owns_mk a b : h_owns {| owns := a; sure := b |} = if a then 1 else 0.
Proof. done. Qed.
Lemma h_sure_mk a b : h_sure {| owns := a; sure := b |} = if b then 1 else 0.
Proof. done. Qed.

Lemma claim_ok t log fuel :
  ok true Inv (InCall t OpClaim log) t {| owns := initializing log; sure := knows log |} (claim fuel)
    (fun r g => Rest t ((OpClaim, Claimed r) :: log) g).
Proof.
  assert (InCall t OpClaim log {| owns := initializing log; sure := knows log |}) as HP by done.
  induction fuel as [|fuel IH]; [done |]. cbn [claim].
  apply ok_load. intros m γ HI Hg. pose proof (once_Inv_own _ _ _ _ _ HI Hg) as [Ho Hs]. rewrite h_owns_mk in Ho.
  rewrite h_sure_mk in Hs. destruct (Z.eqb_spec (m State) COMPLETE) as [E|E].
  - exists {| owns := initializing log; sure := true |}. split; [done |]. split; [|done].
    apply (once_Inv_put m m γ t _ _ Hg). unfold Inv in HI. rewrite !h_owns_mk, !h_sure_mk. states.
    destruct (knows log); lia.
  - apply (moves_stay _ _ _ _ _ {| owns := initializing log; sure := knows log |}); try done.
    destruct (Z.eqb_spec (m State) RUNNING); [done |].
    destruct (Z.eqb_spec (m State) 0); [|done]. clear m γ HI Hg Ho Hs E n e.
    apply ok_cas; intros m γ HI Hg Hc;
      [|by apply (moves_stay _ _ _ _ _ {| owns := initializing log; sure := knows log |})].
    pose proof (once_Inv_own _ _ _ _ _ HI Hg) as [Ho Hs]. rewrite h_owns_mk in Ho. rewrite h_sure_mk in Hs.
    unfold Inv in HI. exists {| owns := true; sure := knows log |}. split; [done |]. split; [|done].
    apply (once_Inv_put m _ γ t _ _ Hg). change (mem_set m State RUNNING State) with RUNNING.
    rewrite !h_owns_mk, !h_sure_mk. states. destruct (initializing log), (knows log); lia.
Qed.

Lemma once_call_ok t op fuel log g : Rest t log g -> allowed log op = true ->
  InCall t op log g /\ ok true Inv (InCall t op log) t g (call t op fuel) (fun r g => Rest t ((op, r) :: log) g).
Proof.
  intros -> Ha. split; [done |]. destruct op; cbn [call].
  - apply ok_bind. eapply ok_mono; [|by apply claim_ok]. done.
  - cbn in Ha. apply ok_bind, ok_store. intros m γ HI Hg. exists {| owns := false; sure := true |}.
    split; [done |]. split; [|done]. pose proof (once_Inv_own _ _ _ _ _ HI Hg) as [Ho Hs]. unfold Inv in HI.
    apply (once_Inv_put m _ γ t _ _ Hg). change (mem_set m State COMPLETE State) with COMPLETE.
    rewrite !h_owns_mk, !h_sure_mk in *. rewrite Ha in *. states. destruct (knows log); lia.
  - cbn in Ha. apply ok_bind, ok_cas; intros m γ HI Hg Hc; pose proof (once_Inv_own _ _ _ _ _ HI Hg) as [Ho Hs]; unfold Inv in HI;
      rewrite h_owns_mk, Ha in Ho; rewrite h_sure_mk in Hs.
    + exists {| owns := false; sure := knows log |}. split; [done |]. split; [|done].
      apply (once_Inv_put m _ γ t _ _ Hg). change (mem_set m State 0 State) with 0.
      rewrite !h_owns_mk, !h_sure_mk, Ha. states. destruct (knows log); lia.
    + exfalso. states. destruct Hc; [lia | done].
Qed.

Definition once_reachable (T : gset Z) (s : machine Cell Op Answer) : Prop := reachable call allowed true (fun _ => 0) T s.

(** The thread is running the initialiser. *)
Definition in_initializer (th : thread Cell Op Answer) : bool :=
  initializing (th_log th) && match in_call th with None | Some OpClaim => true | _ => false end.

(** The initialiser runs once, for any number of threads and any schedule of threads that report only what they were
    told to do: two threads are never both in it, and as soon as one thread knows that it is complete (it reported
    so, or [claim] told it) the word says so, no thread is in the initialiser, and it stays that way. *)
Theorem once_initializes_once T s (Hr : once_reachable T s) :
  (forall t u th th', mc_threads s !! t = Some th -> mc_threads s !! u = Some th' ->
     in_initializer th = true -> in_initializer th' = true -> t = u) /\
  (forall t u th th', mc_threads s !! t = Some th -> mc_threads s !! u = Some th' ->
     knows (th_log th) = true -> mc_mem s State = COMPLETE /\ in_initializer th' = false).
Proof.
  edestruct (reach_ok call allowed true Inv Rest InCall) as [γ Hm]; [apply once_call_ok | | |exact Hr|].
  { unfold Inv. rewrite !(total_start _ {| owns := false; sure := false |}) by done. states. lia. }
  { done. }
  pose proof (proj1 Hm) as HI. unfold Inv in HI.
  assert (forall t th, mc_threads s !! t = Some th -> exists g n, γ !! t = Some (g, n) /\
    (knows (th_log th) = true -> sure g = true) /\ (in_initializer th = true -> owns g = true)) as Hg.
  { intros t th Ht. destruct (thread_ghost _ _ _ _ _ _ _ _ Hm Ht) as (g & Hg & Hc). exists g, (nap_of (th_run th)).
    split; [done |]. unfold in_initializer. destruct (in_call th) as [op|].
    - destruct Hc as [H1 H2]. split; [done |]. intros [E1 E2]%andb_true_iff. apply H2; [|done]. by destruct op.
    - rewrite Hc. cbn. split; [done |]. by intros [? _]%andb_true_iff. }
  split.
  - intros t u th th' Ht Hu It Iu. destruct (decide (t = u)) as [|Hne]; [done | exfalso].
    destruct (Hg t th Ht) as (g & n & Eg & _ & Og). destruct (Hg u th' Hu) as (g' & n' & Eg' & _ & Og').
    pose proof (total_two h_owns γ t u g n g' n' (proj1 once_h_nonneg) Hne Eg Eg') as H2. unfold h_owns at 1 2 in H2.
    rewrite (Og It), (Og' Iu) in H2. states. lia.
  - intros t u th th' Ht Hu Kt. destruct (Hg t th Ht) as (g & n & Eg & Sg & _). destruct (Hg u th' Hu) as (g' & n' & Eg' & _ & Og').
    pose proof (proj2 (once_Inv_own _ _ _ _ _ (proj1 Hm) Eg)) as H1. unfold h_sure at 1 in H1. rewrite (Sg Kt) in H1.
    split; [states; lia |]. destruct (in_initializer th') eqn:Ei; [exfalso | done].
    pose proof (proj1 (once_Inv_own _ _ _ _ _ (proj1 Hm) Eg')) as H2. unfold h_owns at 1 in H2. rewrite (Og' eq_refl) in H2.
    states. lia.
Qed.

Definition demo : list (Z * @choice Op) :=
  [(1, Start OpClaim 2); (1, Act false); (1, Act false); (1, Finish); (2, Start OpClaim 2); (2, Act false); (2, Finish);
   (1, Start OpComplete 0); (1, Act false); (1, Finish); (2, Start OpClaim 2); (2, Act false); (2, Finish)].
Definition demo_end : machine Cell Op Answer := outcome call allowed true (fun _ => 0) {[1; 2]} demo.

(** Thread 2 was told to wait, then that the initialisation is complete. *)
Lemma once_initializes_once_witness :
  th_log <$> mc_threads demo_end !! 2 = Some [(OpClaim, Claimed (Ok Complete)); (OpClaim, Claimed (Ok Wait))] /\
  mc_mem demo_end State = COMPLETE.
Proof.
  assert (th_log <$> mc_threads demo_end !! 2 = Some [(OpClaim, Claimed (Ok Complete)); (OpClaim, Claimed (Ok Wait))]) as H2
    by (vm_compute; reflexivity).
  split; [done |]. apply fmap_Some in H2 as (th & E & L). symmetry in L.
  assert (once_reachable {[1; 2]} demo_end) as Hr by (apply outcome_reachable; vm_compute; reflexivity).
  apply (proj2 (once_initializes_once {[1; 2]} demo_end Hr) 2 2 th th E E). rewrite L. reflexivity.
Defined.

End Once.
