(* ===== verification/PthreadSpin.v ===== *)
(** * Spin locks ([posix-client/src/pthread_spin.rs])

    One word: 0, 1 or the mark of a destroyed lock.  Unlocking without ownership is outside the contract. *)

From stdpp Require Import gmap.
From S2P Require Import Prelude Concurrent.

Module Spin.

Definition DESTROYED : Z := U32_MAX.
Inductive Error : Type := Invalid | Busy.

Inductive Cell : Type := Word.
#[export] Instance spin_Cell_eq_dec : EqDecision Cell.
Proof. solve_decision. Defined.

Abbreviation program A := (prog Cell A).

Definition initialize : program unit := store Word 0 ;! Ret tt.

Definition try_lock : program (result Error unit) :=
  let! exchanged := compare_exchange false Word 0 1 in
  match exchanged with
  | inl _ => Ret (Ok tt)
  | inr value => if value =? 1 then Ret (Err Busy) else Ret (Err Invalid)
  end.

Definition unlock : program (result Error unit) :=
  let! exchanged := compare_exchange false Word 1 0 in
  match exchanged with inl _ => Ret (Ok tt) | inr _ => Ret (Err Invalid) end.

Definition destroy : program (result Error unit) :=
  let! exchanged := compare_exchange false Word 0 DESTROYED in
  match exchanged with
  | inl _ => Ret (Ok tt)
  | inr value => if value =? 1 then Ret (Err Busy) else Ret (Err Invalid)
  end.

Inductive Op : Type := TryLock | Unlock | Destroy.
#[export] Instance spin_Op_eq_dec : EqDecision Op.
Proof. solve_decision. Defined.

Definition call (thread : Z) (op : Op) (fuel : nat) : program (result Error unit) :=
  match op with TryLock => try_lock | Unlock => unlock | Destroy => destroy end.

Abbreviation answers := (list (Op * result Error unit)).

Fixpoint holding (log : answers) : bool :=
  match log with
  | [] => false
  | (TryLock, Ok _) :: _ => true
  | (Unlock, Ok _) :: _ => false
  | _ :: log => holding log
  end.

(** Unlock only what is held. *)
Definition allowed (log : answers) (op : Op) : bool := match op with Unlock => holding log | _ => true end.

Definition h_held (g : bool) : Z := if g then 1 else 0.
Implicit Types (m : Cell -> Z) (γ : ghosts Cell bool).

Definition word_ok (w H : Z) : Prop := w = 1 /\ H = 1 \/ (w = 0 \/ w = DESTROYED) /\ H = 0.
Definition Inv m γ : Prop := word_ok (m Word) (total h_held γ).
Definition Rest (t : Z) (log : answers) (g : bool) : Prop := g = holding log.
Definition InCall (t : Z) (op : Op) (log : answers) (g : bool) : Prop := op <> Unlock -> holding log = true -> g = true.

Lemma spin_Inv_put m m' γ t g g' : γ !! t = Some (g, Up) -> word_ok (m' Word) (total h_held γ - h_held g + h_held g') ->
  Inv m' (put γ t g' Up).
Proof. intros Hg Hw. unfold Inv. by rewrite (total_put _ _ _ _ _ _ _ Hg). Qed.

Lemma spin_h_nonneg g : 0 <= h_held g.
Proof. by destruct g. Qed.

Lemma spin_call_ok t op fuel log g : Rest t log g -> allowed log op = true ->
  InCall t op log g /\ ok true Inv (InCall t op log) t g (call t op fuel) (fun r g => Rest t ((op, r) :: log) g).
Proof.
  intros -> Ha. split; [by intros _ |]. destruct op; cbn [call]; apply ok_cas; intros m γ HI Hg Hc;
    pose proof (total_one h_held γ t _ _ spin_h_nonneg Hg) as Ho; unfold Inv in HI.
  - exists true. split; [done |]. split; [|done]. apply (spin_Inv_put m _ γ t _ _ Hg).
    change (mem_set m Word 1 Word) with 1. unfold word_ok, DESTROYED in *. widths. destruct (holding log); cbn in *; lia.
  - apply (moves_stay _ _ _ _ _ (holding log)); [done | done | by intros _ |]. by destruct (_ =? _).
  - exists false. split; [by intros [] |]. split; [|done]. apply (spin_Inv_put m _ γ t _ _ Hg). cbn in Ha. rewrite Ha in *.
    change (mem_set m Word 0 Word) with 0. unfold word_ok, DESTROYED in *. widths. cbn in *; lia.
  - exfalso. cbn in Ha. rewrite Ha in Ho. unfold word_ok, DESTROYED in *. widths. cbn in Ho. destruct Hc; [lia | done].
  - exists (holding log). split; [by intros _ |]. split; [|done]. apply (spin_Inv_put m _ γ t _ _ Hg).
    change (mem_set m Word DESTROYED Word) with DESTROYED. unfold word_ok in *. lia.
  - apply (moves_stay _ _ _ _ _ (holding log)); [done | done | by intros _ |]. by destruct (_ =? _).
Qed.

(** The thread holds the lock and has not begun to give it back. *)
Definition in_critical (th : thread Cell Op (result Error unit)) : bool :=
  holding (th_log th) && negb (bool_decide (in_call th = Some Unlock)).

(** Two threads are never both in the section that a spin lock protects, when threads unlock only what they hold; and
    the lock is taken while one is. *)
Theorem spin_exclusion T s (Hr : reachable call allowed true (fun _ => 0) T s) :
  forall t u th th', mc_threads s !! t = Some th -> mc_threads s !! u = Some th' ->
    in_critical th = true -> mc_mem s Word = 1 /\ (in_critical th' = true -> t = u).
Proof.
  edestruct (reach_ok call allowed true Inv Rest InCall) as [γ Hm]; [apply spin_call_ok | | |exact Hr|].
  { unfold Inv. rewrite (total_start _ false) by done. unfold word_ok. lia. }
  { done. }
  pose proof (proj1 Hm) as HI. unfold Inv in HI.
  assert (forall t th, mc_threads s !! t = Some th -> in_critical th = true -> exists n, γ !! t = Some (true, n)) as Hc.
  { intros t th Ht [Hh Hi]%andb_true_iff. destruct (thread_ghost _ _ _ _ _ _ _ _ Hm Ht) as (g & Hg & Hc).
    exists (nap_of (th_run th)). rewrite Hg. do 2 f_equal. apply negb_true_iff, bool_decide_eq_false in Hi.
    destruct (in_call th) as [op|]; [by apply Hc; [congruence |] | by rewrite Hc]. }
  intros t u th th' Ht Hu Ct. destruct (Hc t th Ht Ct) as [n Hn].
  pose proof (total_one h_held γ t _ _ spin_h_nonneg Hn) as Ho. cbn in Ho. split; [unfold word_ok in HI; lia |].
  intros Cu. destruct (Hc u th' Hu Cu) as [n' Hn']. destruct (decide (t = u)) as [|Hne]; [done | exfalso].
  pose proof (total_two h_held γ t u _ _ _ _ spin_h_nonneg Hne Hn Hn') as H2. cbn in H2. unfold word_ok in HI. lia.
Qed.

End Spin.
