(* ===== verification/PthreadBarrier.v ===== *)
(** * Barriers ([posix-client/src/pthread_barrier.rs])

    Arrivals take consecutive tickets; [count] of them make a round.  The counters are reset only when every admitted
    ticket has left, which the theorem at the end shows to be safe for threads that keep the contract of the module:
    a thread keeps one ticket at a time and leaves with the ticket it has. *)

From stdpp Require Import gmap.
From S2P Require Import Prelude Concurrent.

Module Barrier.

(** ** The code *)

Inductive Error : Type := Invalid | Busy.

Inductive Arrival : Type := AdmittedTicket (ticket : Z) (serial wake : bool) | ResetPending (expected : Z).

Inductive Cell : Type := Initialized | Entered | Completed | Departed.
#[export] Instance barrier_Cell_eq_dec : EqDecision Cell.
Proof. solve_decision. Defined.

Abbreviation program A := (prog Cell A).
Definition u64_range : Z := 18446744073709551616.

Section Code.
Variables RESET_BOUND count : Z.

Definition new : result Error (Cell -> Z) :=
  if (count =? 0) || (RESET_BOUND <? count) then Err Invalid
  else Ok (fun c => match c with Initialized => 1 | _ => 0 end).

Definition limit : Z := RESET_BOUND - RESET_BOUND mod count.

Definition validate : program (result Error unit) :=
  if (count =? 0) || (RESET_BOUND <? count) then Ret (Err Invalid) else
  let! initialized := load Initialized in
  if negb (initialized =? 1) then Ret (Err Invalid) else Ret (Ok tt).

(** The [while] loop of the last arrival of a round; the answer is [wake]. *)
Fixpoint complete_loop (ticket before : Z) (fuel : nat) : program bool :=
  match fuel with
  | O => Diverge
  | S fuel =>
      if before <? ticket then
        let! exchanged := compare_exchange false Completed before ticket in
        match exchanged with inl _ => Ret true | inr value => complete_loop ticket value fuel end
      else Ret false
  end.

Fixpoint arrive_loop (fuel : nat) : program (result Error Arrival) :=
  match fuel with
  | O => Diverge
  | S fuel =>
      let! entered := load Entered in
      if limit <=? entered then Ret (Ok (ResetPending entered)) else
      let ticket := entered + 1 in
      let! exchanged := compare_exchange false Entered entered ticket in
      match exchanged with
      | inr _ => arrive_loop fuel
      | inl _ =>
          let serial := ticket mod count =? 0 in
          if serial then
            let! before := load Completed in
            let! wake := complete_loop ticket before fuel in
            Ret (Ok (AdmittedTicket ticket serial wake))
          else Ret (Ok (AdmittedTicket ticket serial false))
      end
  end.

Definition arrive (fuel : nat) : program (result Error Arrival) := try! _u := validate in arrive_loop fuel.

Definition passed (ticket : Z) : program (result Error bool) :=
  try! _u := validate in
  if (ticket =? 0) || (limit <? ticket) then Ret (Err Invalid) else
  let! completed := load Completed in Ret (Ok (ticket <=? completed)).

Definition leave (ticket : Z) : program (result Error bool) :=
  try! p := passed ticket in
  if negb p then Ret (Err Invalid) else
  let! departed := fetch_add u64_range Departed 1 in
  if negb (departed + 1 =? limit) then Ret (Ok false) else
  store Completed 0 ;! (store Departed 0 ;! (store Entered 0 ;! Ret (Ok true))).

Definition destroy : program (result Error unit) :=
  try! _u := validate in
  let! entered := load Entered in
  let! departed := load Departed in
  if negb (entered =? departed) then Ret (Err Busy) else store Initialized 0 ;! Ret (Ok tt).

Inductive Op : Type := Arrive | Passed (ticket : Z) | Leave (ticket : Z) | Destroy.
Inductive Answer : Type := Arrived (a : Arrival) | Flag (b : bool) | Done.

Definition call (thread : Z) (op : Op) (fuel : nat) : program (result Error Answer) :=
  match op with
  | Arrive => try! a := arrive fuel in Ret (Ok (Arrived a))
  | Passed ticket => try! b := passed ticket in Ret (Ok (Flag b))
  | Leave ticket => try! b := leave ticket in Ret (Ok (Flag b))
  | Destroy => try! _u := destroy in Ret (Ok Done)
  end.

(** ** The contract *)

Abbreviation answers := (list (Op * result Error Answer)).

(** The ticket that a thread was given and has not left with. *)
Fixpoint ticket_of (log : answers) : option Z :=
  match log with
  | [] => None
  | (Arrive, Ok (Arrived (AdmittedTicket ticket _ _))) :: _ => Some ticket
  | (Leave _, Ok _) :: _ => None
  | _ :: log => ticket_of log
  end.

Definition allowed (log : answers) (op : Op) : bool :=
  match op with
  | Arrive => bool_decide (ticket_of log = None)
  | Leave ticket => bool_decide (ticket_of log = Some ticket)
  | _ => true
  end.

(** ** The invariant *)

Inductive ghost : Type := Away | Publishing (ticket : Z) | Has (ticket : Z) | Resetting (stage : nat).
Implicit Types (m : Cell -> Z) (γ : ghosts Cell ghost) (g : ghost).

Definition held g : option Z := match g with Publishing k | Has k => Some k | _ => None end.
Definition h_held g : Z := match g with Publishing _ | Has _ => 1 | _ => 0 end.
Definition h_reset g : Z := match g with Resetting _ => 1 | _ => 0 end.

(** The last ticket of the last full round. *)
Definition full (entered : Z) : Z := count * (entered / count).

Record Counters (E C D : Z) : Prop := {
  ct_entered : 0 <= E <= limit;
  ct_completed : 0 <= C <= E;
  ct_rounds : (count | C) }.

Definition Tickets (E : Z) γ : Prop :=
  (forall t g n k, γ !! t = Some (g, n) -> held g = Some k -> 1 <= k <= E) /\
  (forall t u g n g' n' k, γ !! t = Some (g, n) -> γ !! u = Some (g', n') -> held g = Some k -> held g' = Some k -> t = u).

Definition Open (E C D : Z) γ : Prop :=
  total h_reset γ = 0 /\ D + total h_held γ = E /\ 0 <= D < limit /\
  (C = full E \/ exists t n, γ !! t = Some (Publishing (full E), n)).

Definition Closing (E C D : Z) γ : Prop :=
  total h_reset γ = 1 /\ total h_held γ = 0 /\ E = limit /\
  exists t n stage, γ !! t = Some (Resetting stage, n) /\
    match stage with
    | 0%nat => D = limit
    | 1%nat => D = limit /\ C = 0
    | _ => D = 0 /\ C = 0
    end.

Definition Inv m γ : Prop :=
  let E := m Entered in let C := m Completed in let D := m Departed in
  Counters E C D /\ Tickets E γ /\ (Open E C D γ \/ Closing E C D γ).

Definition Rest (t : Z) (log : answers) g : Prop := g = match ticket_of log with Some k => Has k | None => Away end.
Definition InCall (t : Z) (op : Op) (log : answers) g : Prop := True.

(** ** Its preservation *)

Context (Hcount : 1 <= count <= RESET_BOUND) (Hbound : RESET_BOUND < u64_range).

Lemma limit_spec : limit = count * (RESET_BOUND / count) /\ count <= limit < u64_range.
Proof.
  unfold limit, u64_range in *. pose proof (Z.div_mod RESET_BOUND count ltac:(lia)).
  pose proof (Z.mod_pos_bound RESET_BOUND count ltac:(lia)).
  assert (1 <= RESET_BOUND / count) by (apply Z.div_le_lower_bound; lia). split; [lia | nia].
Qed.

Lemma full_spec E : 0 <= E -> (count | full E) /\ 0 <= full E <= E /\ E < full E + count.
Proof.
  intros HE. split; [exists (E / count); unfold full; lia |]. unfold full.
  pose proof (Z.div_mod E count ltac:(lia)). pose proof (Z.mod_pos_bound E count ltac:(lia)).
  pose proof (Z.div_pos E count HE ltac:(lia)). nia.
Qed.

(** The only multiple of [count] above the last full round is the next round. *)
Lemma full_max E k : 0 <= E -> (count | k) -> k <= E -> k <= full E.
Proof.
  intros HE Hk Hle. destruct (full_spec E HE) as ([a Ha] & _ & Hlt). destruct Hk as [b ->]. rewrite Ha in *.
  apply Z.mul_le_mono_nonneg_r; [lia |]. assert (b < a + 1) by (apply (Z.mul_lt_mono_pos_r count); lia). lia.
Qed.

Lemma barrier_h_nonneg : (forall g, 0 <= h_held g) /\ (forall g, 0 <= h_reset g).
Proof. split; intros []; cbn; lia. Qed.

Lemma held_pos γ t g n : γ !! t = Some (g, n) -> h_held g = 1 -> 1 <= total h_held γ.
Proof. intros Hg H1. pose proof (total_one h_held γ t g n (proj1 barrier_h_nonneg) Hg). lia. Qed.

(** A thread that holds a ticket keeps the barrier open. *)
Lemma holder_open m γ t g n : Inv m γ -> γ !! t = Some (g, n) -> h_held g = 1 ->
  Open (m Entered) (m Completed) (m Departed) γ.
Proof.
  intros (_ & _ & [Ho|(_ & Hz & _)]) Hg H1; [done |]. pose proof (held_pos _ _ _ _ Hg H1). lia.
Qed.

Lemma Tickets_put E E' γ t g n g' : Tickets E γ -> γ !! t = Some (g, n) -> E <= E' ->
  (forall k, held g' = Some k -> held g = Some k \/ k = E + 1 /\ E + 1 <= E' /\ 0 <= E) -> Tickets E' (put γ t g' Up).
Proof.
  intros [H1 H2] Hg HE Hk. split.
  - intros u g1 n1 k [(-> & -> & _)|[_ Hu]]%put_lookup Hh.
    + destruct (Hk k Hh) as [Hh'|]; [|lia]. specialize (H1 _ _ _ _ Hg Hh'). lia.
    + specialize (H1 _ _ _ _ Hu Hh). lia.
  - assert (forall u g1 n1 k, u <> t -> γ !! u = Some (g1, n1) -> held g1 = Some k -> held g' = Some k -> False) as Hne.
    { intros u g1 n1 k Hut Hu Hh Hh'. destruct (Hk k Hh') as [Hg'|(-> & _)].
      - by apply Hut, (H2 u t g1 n1 g n k).
      - specialize (H1 _ _ _ _ Hu Hh). lia. }
    intros u v g1 n1 g2 n2 k [(-> & -> & _)|[Hut Hu]]%put_lookup [(-> & -> & _)|[Hvt Hv]]%put_lookup Hh Hh'; try done.
    + by destruct (Hne v g2 n2 k).
    + by destruct (Hne u g1 n1 k).
    + by apply (H2 u v g1 n1 g2 n2 k).
Qed.

(** Someone else publishes the last full round. *)
Lemma publisher_put E γ t g g' : (exists u n, γ !! u = Some (Publishing (full E), n)) -> γ !! t = Some (g, Up) ->
  (forall k, g = Publishing k -> k <> full E) -> exists u n, put γ t g' Up !! u = Some (Publishing (full E), n).
Proof.
  intros (u & n & Hu) Hg Hne. exists u, n. unfold put. rewrite lookup_insert_ne; [done |]. intros ->.
  rewrite Hg in Hu. injection Hu as -> <-. by apply (Hne (full E)).
Qed.

Lemma totals_put γ t g n g' : γ !! t = Some (g, n) ->
  total h_held (put γ t g' Up) = total h_held γ - h_held g + h_held g' /\
  total h_reset (put γ t g' Up) = total h_reset γ - h_reset g + h_reset g'.
Proof. intros Hg. split; by apply (total_put _ _ _ _ n). Qed.

Lemma full_next E : 0 <= E -> full (E + 1) = if (E + 1) mod count =? 0 then E + 1 else full E.
Proof.
  intros HE. unfold full. destruct (Z.eqb_spec ((E + 1) mod count) 0) as [Hz|Hz].
  - pose proof (Z.div_mod (E + 1) count). lia.
  - f_equal. symmetry. apply (Z.div_unique (E + 1) count (E / count) (E mod count + 1)).
    + left. pose proof (Z.mod_pos_bound E count). split; [lia |]. destruct (decide (E mod count + 1 = count)) as [He|]; [|lia].
      destruct Hz. replace (E + 1) with (count * (E / count + 1) + 0) by (pose proof (Z.div_mod E count); lia).
      rewrite Z.add_comm, Z.mul_comm, Z.mod_add, Z.mod_0_l by lia. done.
    + pose proof (Z.div_mod E count). lia.
Qed.

(** An arrival takes the next ticket. *)
Lemma Inv_enter m γ t e : Inv m γ -> γ !! t = Some (Away, Up) -> m Entered = e -> e < limit ->
  Inv (mem_set m Entered (e + 1))
    (put γ t (if (e + 1) mod count =? 0 then Publishing (e + 1) else Has (e + 1)) Up).
Proof.
  intros ([C1 C2 C3] & HT & Hoc) Hg <- He. set (E := m Entered) in *.
  destruct Hoc as [(Hr & Hd & HD & Hp)|(_ & _ & Hl & _)]; [|lia].
  set (g' := if _ =? 0 then _ else _). assert (held g' = Some (E + 1) /\ h_held g' = 1 /\ h_reset g' = 0) as (G1 & G2 & G3)
    by (unfold g'; by destruct (_ =? 0)).
  destruct (totals_put γ t Away Up g' Hg) as [T1 T2]. split_and!.
  - split; cbn; change (mem_set m Entered (E + 1) Entered) with (E + 1);
      change (mem_set m Entered (E + 1) Completed) with (m Completed); [lia | lia | done].
  - change (mem_set m Entered (E + 1) Entered) with (E + 1). apply (Tickets_put E _ γ t Away Up); [done | done | lia |].
    intros k Hk. rewrite G1 in Hk. injection Hk as <-. right. lia.
  - left. unfold Open. change (mem_set m Entered (E + 1) Entered) with (E + 1).
    change (mem_set m Entered (E + 1) Completed) with (m Completed).
    change (mem_set m Entered (E + 1) Departed) with (m Departed).
    rewrite T1, T2, G2, G3. cbn [h_held h_reset]. split_and!; try lia.
    rewrite full_next by lia. unfold g'. destruct (_ =? 0).
    + right. exists t, Up. unfold put. by rewrite lookup_insert_eq.
    + destruct Hp as [Hp|Hp]; [by left | right]. by apply publisher_put with (g := Away).
Qed.

(** The last arrival of a round has published it, or finds that it is published. *)
Lemma Inv_publish m m' γ t k : Inv m γ -> γ !! t = Some (Publishing k, Up) -> (count | k) ->
  m' Entered = m Entered -> m' Departed = m Departed ->
  m' Completed = k /\ m Completed < k \/ m' Completed = m Completed /\ k <= m Completed ->
  Inv m' (put γ t (Has k) Up).
Proof.
  intros HI Hg Hk HE HD HC. pose proof (holder_open _ _ _ _ _ HI Hg eq_refl) as (Hr & Hd & Hb & Hp).
  destruct HI as ([C1 C2 C3] & HT & _). pose proof (proj1 HT _ _ _ _ Hg eq_refl) as Hke.
  destruct (totals_put γ t _ _ (Has k) Hg) as [T1 T2]. cbn [h_held h_reset] in T1, T2.
  assert (m Completed <= m' Completed <= m Entered /\ (count | m' Completed)) as [HC2 HC3].
  { destruct HC as [[-> ?]|[-> ?]]; (split; [lia | done]). }
  unfold Inv. rewrite HE, HD. split_and!; [split; [lia | lia | done] | |left; unfold Open; rewrite T1, T2; split_and!; try lia].
  - apply (Tickets_put _ _ γ t _ _ _ HT Hg); [lia |]. intros k' [= <-]. by left.
  - destruct (full_spec (m Entered)) as (_ & Hf & _); [lia |].
    pose proof (full_max (m Entered) (m' Completed) ltac:(lia) HC3 (proj2 HC2)) as Hm1. pose proof (full_max (m Entered) k ltac:(lia) Hk ltac:(lia)) as Hm2.
    destruct (decide (m' Completed = full (m Entered))) as [|Hne]; [by left | right].
    destruct Hp as [Hp|Hp]; [lia |]. apply publisher_put with (g := Publishing k); [done | done |].
    intros ? [= <-] ->. lia.
Qed.

(** A departure; the last one begins the reset. *)
Lemma Inv_leave m γ t k : Inv m γ -> γ !! t = Some (Has k, Up) ->
  Inv (mem_set m Departed ((m Departed + 1) mod u64_range))
    (put γ t (if m Departed + 1 =? limit then Resetting 0 else Away) Up).
Proof.
  intros HI Hg. pose proof (holder_open _ _ _ _ _ HI Hg eq_refl) as (Hr & Hd & Hb & Hp).
  destruct HI as ([C1 C2 C3] & HT & _). destruct limit_spec as [_ Hl]. pose proof (held_pos _ _ _ _ Hg eq_refl) as H1.
  rewrite Z.mod_small by lia. unfold Inv.
  change (mem_set m Departed (m Departed + 1) Entered) with (m Entered).
  change (mem_set m Departed (m Departed + 1) Completed) with (m Completed).
  change (mem_set m Departed (m Departed + 1) Departed) with (m Departed + 1).
  split_and!; [by split | |].
  - apply (Tickets_put _ _ γ t _ _ _ HT Hg); [lia |]. intros k' Hk'. by destruct (_ =? _).
  - destruct (Z.eqb_spec (m Departed + 1) limit) as [E|E].
    + right. destruct (totals_put γ t _ _ (Resetting 0) Hg) as [T1 T2]. cbn in T1, T2. unfold Closing.
      rewrite T1, T2. split_and!; [lia | lia | lia |]. exists t, Up, 0%nat. unfold put. by rewrite lookup_insert_eq.
    + left. destruct (totals_put γ t _ _ Away Hg) as [T1 T2]. cbn in T1, T2. unfold Open. rewrite T1, T2.
      split_and!; try lia. destruct Hp as [Hp|Hp]; [by left | right].
      by apply publisher_put with (g := Has k).
Qed.

Lemma resetting_closing m γ t stage : Inv m γ -> γ !! t = Some (Resetting stage, Up) ->
  total h_reset γ = 1 /\ total h_held γ = 0 /\ m Entered = limit /\
  match stage with
  | 0%nat => m Departed = limit
  | 1%nat => m Departed = limit /\ m Completed = 0
  | _ => m Departed = 0 /\ m Completed = 0
  end.
Proof.
  intros (_ & _ & [(Hr & _)|(Hr & Hh & He & u & n & st & Hu & Hs)]) Hg.
  - pose proof (total_one h_reset γ t _ _ (proj2 barrier_h_nonneg) Hg) as H1. cbn in H1. lia.
  - destruct (decide (u = t)) as [->|Hne].
    + rewrite Hg in Hu. injection Hu as <- <-. done.
    + pose proof (total_two h_reset γ u t _ _ _ _ (proj2 barrier_h_nonneg) Hne Hu Hg) as H2. cbn in H2. lia.
Qed.

Lemma no_tickets E γ : total h_held γ = 0 -> Tickets E γ.
Proof.
  intros Hz. assert (forall t g n k, γ !! t = Some (g, n) -> held g = Some k -> False) as Hno.
  { intros t g n k Hg Hk. pose proof (total_one h_held γ t g n (proj1 barrier_h_nonneg) Hg) as H1. destruct g; cbn in *; try done; lia. }
  split; [intros t g n k Hg Hk; by destruct (Hno t g n k) | intros t u g n g' n' k Hg _ Hk; by destruct (Hno t g n k)].
Qed.

(** The three stores of the reset. *)
Lemma Inv_reset0 m γ t : Inv m γ -> γ !! t = Some (Resetting 0, Up) -> Inv (mem_set m Completed 0) (put γ t (Resetting 1) Up).
Proof.
  intros HI Hg. destruct (resetting_closing _ _ _ _ HI Hg) as (Hr & Hh & He & Hd). destruct HI as ([C1 C2 C3] & HT & _).
  destruct (totals_put γ t _ _ (Resetting 1) Hg) as [T1 T2]. cbn in T1, T2. unfold Inv.
  change (mem_set m Completed 0 Entered) with (m Entered). change (mem_set m Completed 0 Completed) with 0.
  change (mem_set m Completed 0 Departed) with (m Departed). split_and!.
  - split; [lia | lia | apply Z.divide_0_r].
  - apply no_tickets. lia.
  - right. unfold Closing. rewrite T1, T2. split_and!; [lia..|]. exists t, Up, 1%nat. unfold put. by rewrite lookup_insert_eq.
Qed.

Lemma Inv_reset1 m γ t : Inv m γ -> γ !! t = Some (Resetting 1, Up) -> Inv (mem_set m Departed 0) (put γ t (Resetting 2) Up).
Proof.
  intros HI Hg. destruct (resetting_closing _ _ _ _ HI Hg) as (Hr & Hh & He & Hd & Hc). destruct HI as ([C1 C2 C3] & HT & _).
  destruct (totals_put γ t _ _ (Resetting 2) Hg) as [T1 T2]. cbn in T1, T2. unfold Inv.
  change (mem_set m Departed 0 Entered) with (m Entered). change (mem_set m Departed 0 Completed) with (m Completed).
  change (mem_set m Departed 0 Departed) with 0. split_and!.
  - by split.
  - apply no_tickets. lia.
  - right. unfold Closing. rewrite T1, T2. split_and!; [lia..|]. exists t, Up, 2%nat. unfold put. by rewrite lookup_insert_eq.
Qed.

Lemma Inv_reset2 m γ t : Inv m γ -> γ !! t = Some (Resetting 2, Up) -> Inv (mem_set m Entered 0) (put γ t Away Up).
Proof.
  intros HI Hg. destruct (resetting_closing _ _ _ _ HI Hg) as (Hr & Hh & He & Hd & Hc). destruct HI as ([C1 C2 C3] & HT & _).
  destruct (totals_put γ t _ _ Away Hg) as [T1 T2]. cbn in T1, T2. destruct limit_spec as [_ Hl]. unfold Inv.
  change (mem_set m Entered 0 Entered) with 0. change (mem_set m Entered 0 Completed) with (m Completed).
  change (mem_set m Entered 0 Departed) with (m Departed). split_and!.
  - split; [lia | lia | done].
  - apply no_tickets. lia.
  - left. unfold Open. rewrite T1, T2, Hd, Hc. split_and!; [lia..|]. left. unfold full. by rewrite Z.div_0_l, Z.mul_0_r by lia.
Qed.

(** ** The operations keep it *)

Section Operations.
Context (t : Z) (P : ghost -> Prop) (HP : forall g, P g).
Abbreviation valid A := (ok (A := A) true Inv P t).

Lemma barrier_validate_ok g (Q : _ -> _ -> Prop) : Q (Ok tt) g -> Q (Err Invalid) g -> valid _ g validate Q.
Proof.
  intros H1 H2. unfold validate. destruct (_ || _); [done |]. apply ok_load. intros m γ HI Hg.
  apply (moves_stay _ _ _ _ _ g); try done. by destruct (negb _).
Qed.

(** The ghost state after the word [Completed] was seen as [v]. *)
Definition seen (k v : Z) : ghost := if v <? k then Publishing k else Has k.

Lemma Inv_seen m γ k : Inv m γ -> γ !! t = Some (Publishing k, Up) -> (count | k) ->
  Inv m (put γ t (seen k (m Completed)) Up).
Proof.
  intros HI Hg Hk. unfold seen. destruct (Z.ltb_spec (m Completed) k).
  - unfold put. by rewrite insert_id.
  - by apply (Inv_publish m m γ t k); auto.
Qed.

Lemma complete_loop_ok fuel k (Q : _ -> _ -> Prop) : (count | k) -> (forall b, Q b (Has k)) ->
  forall before, valid _ (seen k before) (complete_loop k before fuel) Q.
Proof.
  intros Hk HQ. induction fuel as [|fuel IH]; intros before; [done |]. cbn [complete_loop]. unfold seen.
  destruct (Z.ltb_spec before k); [|apply HQ]. apply ok_cas; intros m γ HI Hg Hc.
  - exists (Has k). split; [done |]. split; [|apply HQ]. apply (Inv_publish m _ γ t k HI Hg Hk); try done.
    left. split; [done | lia].
  - exists (seen k (m Completed)). split; [done |]. split; [by apply Inv_seen | apply IH].
Qed.

Lemma arrive_loop_ok fuel (Q : _ -> _ -> Prop) : (forall e, Q (Ok (ResetPending e)) Away) ->
  (forall k b w, Q (Ok (AdmittedTicket k b w)) (Has k)) -> valid _ Away (arrive_loop fuel) Q.
Proof.
  intros H1 H2. induction fuel as [|fuel IH]; [done |]. cbn [arrive_loop]. apply ok_load. intros m γ HI Hg.
  apply (moves_stay _ _ _ _ _ Away); try done. destruct (Z.leb_spec limit (m Entered)) as [|Hlt]; [apply H1 |].
  remember (m Entered) as e. clear Heqe m γ HI Hg. apply ok_cas; intros m γ HI Hg Hc; [|by apply (moves_stay _ _ _ _ _ Away)].
  eexists. split; [done |]. split; [by apply Inv_enter |]. destruct (Z.eqb_spec ((e + 1) mod count) 0) as [Hz|]; [|apply H2].
  assert (count | e + 1) as Hk by (apply Z.mod_divide; [lia | done]). clear m γ HI Hg Hc.
  apply ok_load. intros m γ HI Hg. exists (seen (e + 1) (m Completed)). split; [done |]. split; [by apply Inv_seen |].
  apply ok_bind, complete_loop_ok; [done |]. intros b. apply H2.
Qed.

Lemma passed_ok k g (Q : _ -> _ -> Prop) : (forall b, Q (Ok b) g) -> Q (Err Invalid) g -> valid _ g (passed k) Q.
Proof.
  intros H1 H2. unfold passed. apply ok_try, barrier_validate_ok; [|done]. destruct (_ || _); [done |]. apply ok_load.
  intros m γ HI Hg. apply (moves_stay _ _ _ _ _ g); try done. apply H1.
Qed.

Lemma leave_ok k (Q : _ -> _ -> Prop) : (forall b, Q (Ok b) Away) -> (forall e, Q (Err e) (Has k)) ->
  valid _ (Has k) (leave k) Q.
Proof.
  intros H1 H2. unfold leave. apply ok_try, passed_ok; [|apply H2]. intros [|]; [|apply H2]. cbn [negb].
  apply ok_fetch_add. intros m γ HI Hg. eexists. split; [done |]. split; [by apply (Inv_leave m γ t k) |].
  destruct (Z.eqb_spec (m Departed + 1) limit); cbn [negb]; [|apply H1]. clear m γ HI Hg e.
  apply ok_store. intros m γ HI Hg. exists (Resetting 1). split; [done |]. split; [by apply Inv_reset0 |]. clear m γ HI Hg.
  apply ok_store. intros m γ HI Hg. exists (Resetting 2). split; [done |]. split; [by apply Inv_reset1 |]. clear m γ HI Hg.
  apply ok_store. intros m γ HI Hg. exists Away. split; [done |]. split; [by apply Inv_reset2 | apply H1].
Qed.

Lemma barrier_destroy_ok g (Q : _ -> _ -> Prop) : Q (Ok tt) g -> (forall e, Q (Err e) g) -> valid _ g destroy Q.
Proof.
  intros H1 H2. unfold destroy. apply ok_try, barrier_validate_ok; [|apply H2]. apply ok_load. intros m γ HI Hg.
  apply (moves_stay _ _ _ _ _ g); try done. remember (m Entered) as e. clear Heqe m γ HI Hg. apply ok_load.
  intros m γ HI Hg. apply (moves_stay _ _ _ _ _ g); try done. destruct (negb _); [apply H2 |]. clear m γ HI Hg.
  apply ok_store. intros m γ HI Hg. by apply (moves_stay _ _ _ _ _ g).
Qed.
End Operations.

Lemma barrier_call_ok t op fuel log g : Rest t log g -> allowed log op = true ->
  InCall t op log g /\ ok true Inv (InCall t op log) t g (call t op fuel) (fun r g => Rest t ((op, r) :: log) g).
Proof.
  intros -> Ha. split; [done |]. destruct op as [|k|k|]; cbn [call].
  - apply bool_decide_eq_true in Ha. rewrite Ha. apply ok_try, ok_try, barrier_validate_ok; [done | |].
    + apply arrive_loop_ok; [done | |]; intros; unfold Rest; cbn; by rewrite ?Ha.
    + unfold Rest. cbn. by rewrite Ha.
  - by apply ok_try, passed_ok.
  - apply bool_decide_eq_true in Ha. rewrite Ha. apply ok_try, leave_ok; [done | done |]. intros e. unfold Rest. cbn. by rewrite Ha.
  - by apply ok_try, barrier_destroy_ok.
Qed.

Lemma barrier_start_ok m0 (T : gset Z) : new = Ok m0 -> Inv m0 (gset_to_gmap (Away, Up) T).
Proof.
  unfold new. destruct (_ || _); [done |]. intros [= <-]. destruct limit_spec as [_ Hl]. unfold Inv. cbn. split_and!.
  - split; [lia | lia | apply Z.divide_0_r].
  - apply no_tickets. by apply total_start.
  - left. unfold Open. rewrite !total_start by done. split_and!; [lia..|]. left. unfold full. by rewrite Z.div_0_l, Z.mul_0_r by lia.
Qed.

Definition barrier_reachable (m0 : Cell -> Z) (T : gset Z) (s : machine Cell Op (result Error Answer)) : Prop :=
  reachable call allowed true m0 T s.

Lemma barrier_reach_ok m0 T s : new = Ok m0 -> barrier_reachable m0 T s -> exists γ, machine_ok true Inv Rest InCall s γ.
Proof.
  intros Hn. apply (reach_ok call allowed true Inv Rest InCall) with (g0 := Away); [apply barrier_call_ok | by apply barrier_start_ok | done].
Qed.

(** The ticket of a thread between calls. *)
Definition waiting_with (s : machine Cell Op (result Error Answer)) (t k : Z) : Prop :=
  exists th, mc_threads s !! t = Some th /\ th_run th = Idle /\ ticket_of (th_log th) = Some k.

Lemma waiting_ghost s γ t k : machine_ok true Inv Rest InCall s γ -> waiting_with s t k -> γ !! t = Some (Has k, Up).
Proof.
  intros Hm (th & Ht & Hi & Hk). destruct (thread_ghost _ _ _ _ _ _ _ _ Hm Ht) as (g & Hg & Hc). unfold in_call in Hc.
  rewrite Hi in Hc, Hg. rewrite Hc, Hk in Hg. done.
Qed.

(** The last ticket of the round of ticket [k]. *)
Definition round_end (k : Z) : Z := full (k + count - 1).

(** Rounds of a barrier for [count] threads, for any number of threads that keep the contract and any schedule, across
    the resets of the counters.  The tickets that threads wait with are distinct and admitted since the last
    reset.  A ticket passes ([Completed] reaches it) only when its whole round has arrived; and when all threads
    are between calls, every full round has passed, as many tickets are outstanding as there are threads that wait
    with one, and the counters are not being reset. *)
Theorem barrier_rounds m0 T s (Hn : new = Ok m0) (Hr : barrier_reachable m0 T s) :
  (forall t k, waiting_with s t k ->
     1 <= k <= mc_mem s Entered /\ mc_mem s Entered <= limit /\
     (k <= mc_mem s Completed -> round_end k <= mc_mem s Entered) /\
     (forall u, waiting_with s u k -> u = t)) /\
  ((forall t th, mc_threads s !! t = Some th -> th_run th = Idle) ->
     mc_mem s Completed = full (mc_mem s Entered) /\
     mc_mem s Entered - mc_mem s Departed =
       sum_threads (fun th => match ticket_of (th_log th) with Some _ => 1 | None => 0 end) (mc_threads s)).
Proof.
  destruct (barrier_reach_ok m0 T s Hn Hr) as [γ Hm]. pose proof (proj1 Hm) as ([C1 C2 C3] & HT & Hoc). split.
  - intros t k Hk. pose proof (waiting_ghost _ _ _ _ Hm Hk) as Hg. pose proof (proj1 HT _ _ _ _ Hg eq_refl) as Hb.
    split_and!; try lia.
    + intros Hc. transitivity (mc_mem s Completed); [|lia]. unfold round_end, full. destruct C3 as [q Hq]. rewrite Hq in *.
      rewrite Z.mul_comm. apply Z.mul_le_mono_nonneg_r; [lia |].
      enough ((k + count - 1) / count < q + 1) by lia. apply Z.div_lt_upper_bound; lia.
    + intros u Hu. pose proof (waiting_ghost _ _ _ _ Hm Hu) as Hg'. by apply (proj2 HT u t _ _ _ _ k Hg' Hg).
  - intros Hidle. assert (forall t, γ !! t = (fun th => (match ticket_of (th_log th) with Some k => Has k | None => Away end, Up))
      <$> mc_threads s !! t) as Hγ.
    { intros t. destruct (mc_threads s !! t) as [th|] eqn:Et.
      - destruct (thread_ghost _ _ _ _ _ _ _ _ Hm Et) as (g & Hg & Hc). unfold in_call in Hc.
        rewrite (Hidle t th Et) in Hc, Hg. rewrite Hg, Hc. done.
      - pose proof (proj2 Hm t) as Hs. rewrite Et in Hs. by destruct (γ !! t) as [[g n]|]. }
    assert (forall t g n, γ !! t = Some (g, n) -> g = Away \/ exists k, g = Has k) as Hcase.
    { intros t g n Hg. rewrite Hγ in Hg. apply fmap_Some in Hg as (th & _ & [= -> _]). case_match; eauto. }
    destruct Hoc as [(_ & Hd & _ & Hp)|(_ & _ & _ & t & n & st & Hg & _)];
      [|by destruct (Hcase t _ _ Hg) as [|[? ?]]].
    split.
    + destruct Hp as [|(t & n & Hg)]; [done |]. by destruct (Hcase t _ _ Hg) as [|[? ?]].
    + rewrite <- (sum_threads_total h_held _ γ); [lia |]. intros t. rewrite Hγ, <- option_fmap_compose.
      destruct (mc_threads s !! t) as [th|]; [|done]. cbn. by destruct (ticket_of (th_log th)).
Qed.

End Code.

(** ** A schedule: two rounds of two, with a reset after each (the bound is 2) *)

Definition round_of (t u k : Z) : list (Z * @choice Op) :=
  [(t, Start Arrive 2)] ++ repeat (t, Act false) 3 ++ [(t, Finish); (u, Start Arrive 2)] ++ repeat (u, Act false) 5 ++
  [(u, Finish); (t, Start (Leave k) 0)] ++ repeat (t, Act false) 3 ++ [(t, Finish); (u, Start (Leave (k + 1)) 0)] ++
  repeat (u, Act false) 6 ++ [(u, Finish)].
Definition fresh : Cell -> Z := fun c => match c with Initialized => 1 | _ => 0 end.
Definition demo : list (Z * @choice Op) := round_of 1 2 1 ++ [(2, Start Arrive 2)] ++ repeat (2, Act false) 3 ++ [(2, Finish)].
Definition demo_end : machine Cell Op (result Error Answer) := outcome (call 2 2) allowed true fresh {[1; 2]} demo.

Lemma barrier_rounds_witness :
  new 2 2 = Ok fresh /\ waiting_with demo_end 2 1 /\ mc_mem demo_end Departed = 0 /\ mc_mem demo_end Completed = 0 /\
  forall u, waiting_with demo_end u 1 -> u = 2.
Proof.
  assert (waiting_with demo_end 2 1) as Hw.
  { eexists. split; [vm_compute; reflexivity | split; reflexivity]. }
  split_and!; [done | done | vm_compute; reflexivity | vm_compute; reflexivity |].
  assert (barrier_reachable 2 2 fresh {[1; 2]} demo_end) as Hr by (apply outcome_reachable; vm_compute; reflexivity).
  apply (proj1 (barrier_rounds 2 2 ltac:(lia) ltac:(unfold u64_range; lia) fresh {[1; 2]} demo_end eq_refl Hr) 2 1 Hw).
Defined.

End Barrier.
