(* ===== verification/PthreadCond.v ===== *)
(** * Condition variables ([posix-client/src/pthread_cond.rs])

    A spinning [gate] serialises registration and notification; [generation] counts the notifications that found a
    waiter.  A waiter registers with [begin], which tells it the generation, waits on the generation word until
    it differs ([wait_loop], the loop of the caller in [newlib-runtime]) and leaves with [end]. *)

From stdpp Require Import gmap.
From S2P Require Import Prelude Concurrent.

Module Condition.

(** ** The code *)

Inductive Error : Type := Invalid | Busy | TooManyWaiters.

Inductive Cell : Type := Generation | Gate | Waiters | Initialized.
#[export] Instance cond_Cell_eq_dec : EqDecision Cell.
Proof. solve_decision. Defined.

Abbreviation program A := (prog Cell A).
Definition u64_range : Z := 18446744073709551616.

Definition new : Cell -> Z := fun c => match c with Initialized => 1 | _ => 0 end.

Section Code.
Variable clock_id : Z.

Fixpoint lock (fuel : nat) : program unit :=
  match fuel with
  | O => Diverge
  | S fuel =>
      let! exchanged := compare_exchange true Gate 0 1 in
      match exchanged with inl _ => Ret tt | inr _ => lock fuel end
  end.

(** [let _gate = self.lock(); ..]: the guard stores 0 when the function returns. *)
Definition gated {A} (fuel : nat) (body : program A) : program A :=
  lock fuel ;! (let! answer := body in store Gate 0 ;! Ret answer).

Definition clock : program (result Error Z) :=
  let! initialized := load Initialized in
  if negb (initialized =? 1) || negb ((clock_id =? 1) || (clock_id =? 4)) then Ret (Err Invalid) else Ret (Ok clock_id).

Definition begin (fuel : nat) : program (result Error Z) :=
  gated fuel (
    try! _clock := clock in
    let! count := load Waiters in
    if U32_MAX <? count + 1 then Ret (Err TooManyWaiters) else
    store Waiters (count + 1) ;! (let! generation := load Generation in Ret (Ok generation))).

Definition notify (all : bool) (fuel : nat) : program (result Error unit) :=
  gated fuel (
    try! _clock := clock in
    let! waiters := load Waiters in
    if negb (waiters =? 0)
    then fetch_add u64_range Generation 1 ;! (wake_on Generation all ;! Ret (Ok tt))
    else Ret (Ok tt)).

(** [debug_assert!(count != 0)] and the subtraction panic on a count of 0. *)
Definition end_wait (before : Z) (canceled : bool) (fuel : nat) : program (result Error unit) :=
  gated fuel (
    let! count := load Waiters in
    if count =? 0 then Ret Panic else
    store Waiters (count - 1) ;!
    (if canceled && (1 <? count) then
       let! generation := load Generation in
       if negb (generation =? before) then wake_on Generation true ;! Ret (Ok tt) else Ret (Ok tt)
     else Ret (Ok tt))).

Definition destroy (fuel : nat) : program (result Error unit) :=
  gated fuel (
    try! _clock := clock in
    let! waiters := load Waiters in
    if negb (waiters =? 0) then Ret (Err Busy) else store Initialized 0 ;! Ret (Ok tt)).

(** The caller's wait: [inr] is the error of the native wait, a timeout included. *)
Fixpoint wait_loop (before : Z) (fuel : nat) : program (unit + Z) :=
  match fuel with
  | O => Diverge
  | S fuel =>
      let! generation := load Generation in
      if negb (generation =? before) then Ret (inl tt) else
      let! waited := wait_on Generation before in
      match waited with WaitOk => wait_loop before fuel | WaitErr e => Ret (inr e) end
  end.

Inductive Op : Type := Begin | Sleep (before : Z) | EndWait (before : Z) (canceled : bool) | Notify (all : bool) | Destroy.
Inductive Answer : Type := Began (r : result Error Z) | Waited (r : unit + Z) | Done (r : result Error unit).

Definition call (thread : Z) (op : Op) (fuel : nat) : program Answer :=
  match op with
  | Begin => let! r := begin fuel in Ret (Began r)
  | Sleep before => let! r := wait_loop before fuel in Ret (Waited r)
  | EndWait before canceled => let! r := end_wait before canceled fuel in Ret (Done r)
  | Notify all => let! r := notify all fuel in Ret (Done r)
  | Destroy => let! r := destroy fuel in Ret (Done r)
  end.

End Code.

(** ** The contract *)

Abbreviation answers := (list (Op * Answer)).

(** The generation with which a thread is registered. *)
Fixpoint registered (log : answers) : option Z :=
  match log with
  | [] => None
  | (Begin, Began (Ok b)) :: _ => Some b
  | (EndWait _ _, Done (Ok _)) :: _ => None
  | _ :: log => registered log
  end.

(** A wait is [Begin], [Sleep]s and [EndWait], all with the generation that [Begin] returned; a thread does nothing else
    meanwhile.  With [broadcasts], every notification is for all waiters. *)
Definition allowed (broadcasts : bool) (log : answers) (op : Op) : bool :=
  match op with
  | Begin | Destroy => bool_decide (registered log = None)
  | Notify all => bool_decide (registered log = None) && (negb broadcasts || all)
  | Sleep b | EndWait b _ => bool_decide (registered log = Some b)
  end.

(** ** The invariant *)

(** [gate]: holds the gate, knowing the number of waiters [known]; [counted]: counted as a waiter; [reg]: knows its
    generation; [pend]: has changed the generation and not yet woken the waiters. *)
Record ghost : Type := { gate : bool; known : option Z; counted : bool; reg : option Z; pend : bool }.
Implicit Types (m : Cell -> Z) (γ : ghosts Cell ghost) (g : ghost).

Definition resting (r : option Z) : ghost :=
  {| gate := false; known := None; counted := match r with Some _ => true | None => false end; reg := r; pend := false |}.

Definition h_gate g : Z := if gate g then 1 else 0.
Definition h_counted g : Z := if counted g then 1 else 0.
Definition h_pend g : Z := if pend g then 1 else 0.

Definition Inv (broadcasts : bool) m γ : Prop :=
  m Gate = total h_gate γ /\ total h_gate γ <= 1 /\
  m Waiters = total h_counted γ /\ m Waiters <= U32_MAX /\
  (forall t g n, γ !! t = Some (g, n) ->
     (gate g = true -> n = Up /\ forall c, known g = Some c -> m Waiters = c) /\ (pend g = true -> gate g = true)) /\
  (broadcasts = true -> total h_pend γ = 0 ->
     forall t g, γ !! t = Some (g, Down Generation) -> exists b, reg g = Some b /\ m Generation = b).

Definition no_panic (log : answers) : Prop := forall op, ((op, Done Panic) ∉ log) /\ ((op, Began Panic) ∉ log).
Definition Rest (t : Z) (log : answers) g : Prop := g = resting (registered log) /\ no_panic log.
Definition InCall (t : Z) (op : Op) (log : answers) g : Prop :=
  no_panic log /\ forall b, op = Sleep b -> g = resting (registered log).

Lemma cond_h_nonneg : (forall g, 0 <= h_gate g) /\ (forall g, 0 <= h_counted g) /\ (forall g, 0 <= h_pend g).
Proof. split_and!; intros g; unfold h_gate, h_counted, h_pend; case_match; lia. Qed.

Lemma h_gate_is g b : gate g = b -> h_gate g = if b then 1 else 0.
Proof. by intros <-. Qed.
Lemma h_pend_is g b : pend g = b -> h_pend g = if b then 1 else 0.
Proof. by intros <-. Qed.

(** A thread that holds the gate, or could take it, is the only one. *)
Lemma gate_sole br m γ t g : Inv br m γ -> γ !! t = Some (g, Up) -> gate g = true \/ m Gate = 0 ->
  total h_gate γ = h_gate g /\ forall u g1 n1, u <> t -> γ !! u = Some (g1, n1) -> gate g1 = false.
Proof.
  intros (I1 & I2 & _) Hg Hgate. destruct cond_h_nonneg as (N1 & _).
  pose proof (total_one h_gate γ t g Up N1 Hg) as H1. assert (total h_gate γ = h_gate g) as Hsole.
  { destruct Hgate as [E|E]; [rewrite (h_gate_is g true E) in *; lia | pose proof (N1 g); lia]. }
  split; [done |]. intros u g1 n1 Hu Eu. pose proof (total_two h_gate γ u t g1 n1 g Up N1 Hu Eu Hg) as H2.
  destruct (gate g1) eqn:E1; [|done]. rewrite (h_gate_is g1 true E1) in H2. lia.
Qed.

(** The change of a thread that holds the gate before or after. *)
Lemma cond_Inv_put br m m' γ t g g' : Inv br m γ -> γ !! t = Some (g, Up) -> gate g = true \/ m Gate = 0 ->
  m' Gate = h_gate g' -> m' Waiters = m Waiters - h_counted g + h_counted g' -> m' Waiters <= U32_MAX ->
  (forall c, gate g' = true -> known g' = Some c -> m' Waiters = c) -> (pend g' = true -> gate g' = true) ->
  (m' Generation = m Generation /\ pend g = false \/ pend g' = true) ->
  Inv br m' (put γ t g' Up).
Proof.
  intros HI Hg Hgate HG HW HU Hk Hp Hgen. destruct (gate_sole _ _ _ _ _ HI Hg Hgate) as [Hsole Hother].
  destruct HI as (I1 & I2 & I3 & I4 & I5 & I6). destruct cond_h_nonneg as (N1 & N2 & N3).
  unfold Inv. rewrite !(total_put _ _ _ _ _ _ _ Hg). split_and!; try lia.
  - destruct (gate g') eqn:E; rewrite (h_gate_is g' _ E); lia.
  - intros u g1 n1 [(-> & -> & ->)|[Hu Eu]]%put_lookup; [eauto |]. specialize (Hother u g1 n1 Hu Eu).
    destruct (I5 u g1 n1 Eu) as [_ Hpe]. split; [congruence | done].
  - intros Hb Hz u g1 [(_ & _ & [=])|[Hu Eu]]%put_lookup.
    pose proof (total_one h_pend γ t g Up N3 Hg). pose proof (N3 g'). destruct Hgen as [[-> Hpp]|Hpp].
    + apply (I6 Hb) with (t := u); [|done]. rewrite (h_pend_is g _ Hpp) in *. lia.
    + rewrite (h_pend_is g' _ Hpp) in *. lia.
Qed.

(** A wake under the gate, of all threads when the notifications are broadcasts. *)
Lemma cond_Inv_wake br m γ t g g' all V : Inv br m γ -> γ !! t = Some (g, Up) -> gate g = true ->
  g' = {| gate := true; known := known g; counted := counted g; reg := reg g; pend := false |} ->
  ghost_victims γ Generation all V -> (br = true -> all = true) -> Inv br m (put (ghost_rouse V γ) t g' Up).
Proof.
  intros (I1 & I2 & I3 & I4 & I5 & I6) Hg Hgate -> [_ HV] Ha. pose proof (rouse_up V γ t g Hg) as Hg'.
  assert (forall u g1 n1, ghost_rouse V γ !! u = Some (g1, n1) -> exists n, γ !! u = Some (g1, n) /\ (n = Up -> n1 = Up) /\
    (n1 = Down Generation -> n = Down Generation /\ u ∉ V)) as Hl.
  { intros u g1 n1. rewrite ghost_rouse_lookup. intros ([g2 n2] & Hu & E)%fmap_Some.
    destruct (decide (u ∈ V)); injection E as -> ->; exists n2; (split; [done |]); destruct n2; naive_solver. }
  unfold Inv. rewrite !(total_put _ _ _ _ _ _ _ Hg'), !total_rouse.
  change (h_gate {| gate := true; known := known g; counted := counted g; reg := reg g; pend := false |}) with 1.
  change (h_counted {| gate := true; known := known g; counted := counted g; reg := reg g; pend := false |}) with (h_counted g).
  rewrite (h_gate_is g _ Hgate). split_and!; try lia.
  - intros u g1 n1 [(-> & -> & ->)|[Hu Eu]]%put_lookup.
    + cbn. destruct (I5 t g Up Hg) as [Hk _]. split; [by intros _; split; [|apply Hk] | done].
    + destruct (Hl _ _ _ Eu) as (n & En & Hup & _). destruct (I5 u g1 n En) as [Hk Hp]. split; [|done].
      intros Hgt. destruct (Hk Hgt). auto.
  - intros Hb _ u g1 [(_ & _ & [=])|[Hu Eu]]%put_lookup. exfalso. rewrite (Ha Hb) in HV.
    destruct (Hl _ _ _ Eu) as (n & En & _ & Hd). destruct (Hd eq_refl) as [-> Hn]. by apply Hn, (HV u g1).
Qed.

(** Falling asleep and waking outside the gate. *)
Lemma cond_Inv_nap br m γ t g n n' : Inv br m γ -> γ !! t = Some (g, n) -> gate g = false ->
  (n' = Down Generation -> reg g = Some (m Generation)) -> Inv br m (put γ t g n').
Proof.
  intros (I1 & I2 & I3 & I4 & I5 & I6) Hg Hgate Hn. unfold Inv. rewrite !(total_put _ _ _ _ _ _ _ Hg).
  split_and!; try lia.
  - intros u g1 n1 [(-> & -> & ->)|[Hu Eu]]%put_lookup; [|by apply (I5 u)].
    destruct (I5 t g n Hg) as [_ Hp]. split; [congruence | done].
  - intros Hb Hz u g1 [(-> & -> & <-)|[Hu Eu]]%put_lookup; [exists (m Generation); auto |]. apply (I6 Hb) with (t := u); [lia | done].
Qed.

(** ** The operations keep it *)

(** Inside the gate. *)
Definition inside (k : option Z) (c p : bool) : ghost := {| gate := true; known := k; counted := c; reg := None; pend := p |}.

Section Operations.
Context (br : bool) (t clock_id : Z) (P : ghost -> Prop) (HP : forall g, P g).
Abbreviation valid A := (ok (A := A) true (Inv br) P t).

(** What is known of the count stays true: the others are outside the gate. *)
Lemma inside_known m γ k c p w : Inv br m γ -> γ !! t = Some (inside k c p, Up) -> k = Some w -> m Waiters = w.
Proof. intros (_ & _ & _ & _ & I5 & _) Hg ->. by apply (I5 t _ _ Hg). Qed.

Lemma gated_ok {A} fuel r (body : program A) (Q : A -> ghost -> Prop) :
  valid _ (inside None (counted (resting r)) false) body
    (fun a g => exists k r', g = inside k (counted (resting r')) false /\ Q a (resting r')) ->
  valid _ (resting r) (gated fuel body) Q.
Proof.
  intros Hb. unfold gated. apply ok_bind. induction fuel as [|fuel IH]; [done |]. cbn [lock]. apply ok_cas; intros m γ HI Hg Hc.
  - exists (inside None (counted (resting r)) false). split; [done |]. split.
    + pose proof HI as (_ & _ & _ & I4 & _).
      apply (cond_Inv_put br m _ γ t _ _ HI Hg); try done; [by right | change (m Waiters = m Waiters - h_counted (resting r) + h_counted (resting r)); lia | by left].
    + apply ok_bind. eapply ok_mono; [|exact Hb]. intros a g (k & r' & -> & HQ). clear m γ HI Hg Hc.
      apply (ok_store (L := Cell)). intros m γ HI Hg. exists (resting r'). split; [done |]. split; [|done].
      pose proof HI as (_ & _ & _ & I4 & _). apply (cond_Inv_put br m _ γ t _ _ HI Hg); try done; [by left | | by left].
      change (m Waiters = m Waiters - h_counted (resting r') + h_counted (resting r')). lia.
  - apply (moves_stay _ _ _ _ _ (resting r)); try done.
Qed.

Lemma clock_ok {A} g (f : Z -> program (result Error A)) (Q : _ -> _ -> Prop) :
  Q (Err Invalid) g -> valid _ g (f clock_id) Q -> valid _ g (try! _c := clock clock_id in f _c) Q.
Proof.
  intros H1 H2. apply ok_try. unfold clock. apply ok_load. intros m γ HI Hg. apply (moves_stay _ _ _ _ _ g); try done.
  by destruct (_ || _).
Qed.

Lemma count_ok {A} c (f : Z -> program A) (Q : _ -> _ -> Prop) :
  (forall w, 0 <= w <= U32_MAX -> (c = true -> 1 <= w) -> valid _ (inside (Some w) c false) (f w) Q) ->
  valid _ (inside None c false) (let! w := load Waiters in f w) Q.
Proof.
  intros Hf. apply ok_load. intros m γ HI Hg. pose proof HI as (_ & _ & I3 & I4 & _). destruct cond_h_nonneg as (_ & N2 & _).
  pose proof (total_one h_counted γ t _ _ N2 Hg) as Ho. pose proof (total_nonneg h_counted γ N2) as Hn.
  exists (inside (Some (m Waiters)) c false). split; [done |]. split.
  - apply (cond_Inv_put br m _ γ t _ _ HI Hg); try done; [by left | | | |by left].
    + pose proof (gate_sole br m γ t _ HI Hg (or_introl eq_refl)) as [Hs _]. destruct HI as (I1 & _). rewrite I1, Hs. done.
    + change (m Waiters = m Waiters - h_counted (inside None c false) + h_counted (inside None c false)). lia.
    + by intros w _ [= ->].
  - apply Hf; [lia |]. intros ->. cbn in Ho. lia.
Qed.

(** A step inside the gate that changes the count or the generation. *)
Lemma Inv_inside m m' γ w (c : bool) w' (c' p' : bool) : Inv br m γ -> γ !! t = Some (inside (Some w) c false, Up) ->
  m' Gate = m Gate -> m' Waiters = w' -> w' = w - (if c then 1 else 0) + (if c' then 1 else 0) -> w' <= U32_MAX ->
  m' Generation = m Generation \/ p' = true -> Inv br m' (put γ t (inside (Some w') c' p') Up).
Proof.
  intros HI Hg HG HW Hw HU Hgen. pose proof (inside_known _ _ _ _ _ w HI Hg eq_refl) as Hm.
  apply (cond_Inv_put br m m' γ t _ _ HI Hg); try done; [by left | | | lia | | ].
  - pose proof (gate_sole br m γ t _ HI Hg (or_introl eq_refl)) as [Hs _]. destruct HI as (I1 & _). rewrite HG, I1, Hs. done.
  - change (m' Waiters = m Waiters - (if c then 1 else 0) + (if c' then 1 else 0)). lia.
  - intros k _ [= <-]. done.
  - destruct Hgen as [|]; [by left | by right].
Qed.

Lemma begin_ok fuel (Q : _ -> _ -> Prop) : (forall b, Q (Ok b) (resting (Some b))) -> (forall e, Q (Err e) (resting None)) ->
  valid _ (resting None) (begin clock_id fuel) Q.
Proof.
  intros H1 H2. apply gated_ok, clock_ok; [by exists None, None |]. apply count_ok. intros w Hw _.
  destruct (Z.ltb_spec U32_MAX (w + 1)); [by exists (Some w), None |]. apply ok_store. intros m γ HI Hg.
  exists (inside (Some (w + 1)) true false). split; [done |]. split; [apply (Inv_inside m _ γ w false); try done; [lia | by left] |].
  clear m γ HI Hg. apply (ok_load (L := Cell)). intros m γ HI Hg. eapply moves_stay; [done | done | done |].
  exists (Some (w + 1)), (Some (m Generation)). auto.
Qed.

Lemma notify_ok all fuel (Q : _ -> _ -> Prop) : (br = true -> all = true) -> Q (Ok tt) (resting None) ->
  (forall e, Q (Err e) (resting None)) -> valid _ (resting None) (notify clock_id all fuel) Q.
Proof.
  intros Ha H1 H2. apply gated_ok, clock_ok; [by exists None, None |]. apply count_ok. intros w Hw _.
  destruct (negb _); [|by exists (Some w), None]. apply ok_fetch_add. intros m γ HI Hg.
  exists (inside (Some w) false true). split; [done |]. split.
  - pose proof (inside_known _ _ _ _ _ w HI Hg eq_refl). apply (Inv_inside m _ γ w false); try done; [lia | lia | by right].
  - clear m γ HI Hg. apply (ok_wake (L := Cell)). intros m γ V HI Hg HV. exists (inside (Some w) false false).
    split; [done |]. split; [by apply (cond_Inv_wake br m γ t _ _ all V HI Hg) |]. by exists (Some w), None.
Qed.

Lemma end_wait_ok b before canceled fuel (Q : _ -> _ -> Prop) : Q (Ok tt) (resting None) ->
  valid _ (resting (Some b)) (end_wait before canceled fuel) Q.
Proof.
  intros H1. apply gated_ok, count_ok. intros w Hw Hc. specialize (Hc eq_refl). destruct (Z.eqb_spec w 0); [lia |].
  apply ok_store. intros m γ HI Hg. exists (inside (Some (w - 1)) false false). split; [done |].
  split; [apply (Inv_inside m _ γ w true); try done; [lia | lia | by left] |]. clear m γ HI Hg.
  assert (valid _ (inside (Some (w - 1)) false false) (Ret (Ok tt) : program (result Error unit))
    (fun a g => exists k r', g = inside k (counted (resting r')) false /\ Q a (resting r'))) as Hend
    by (by exists (Some (w - 1)), None).
  destruct (_ && _); [|done]. apply (ok_load (L := Cell)). intros m γ HI Hg. eapply moves_stay; [done | done | done |].
  destruct (negb _); [|done]. clear m γ HI Hg. apply (ok_wake (L := Cell)). intros m γ V HI Hg HV.
  exists (inside (Some (w - 1)) false false). split; [done |]. split; [by apply (cond_Inv_wake br m γ t _ _ true V HI Hg) | done].
Qed.

Lemma cond_destroy_ok fuel (Q : _ -> _ -> Prop) : (forall a, a <> Panic -> Q a (resting None)) ->
  valid _ (resting None) (destroy clock_id fuel) Q.
Proof.
  intros H1. apply gated_ok, clock_ok; [exists None, None; auto |]. apply count_ok. intros w Hw _.
  destruct (negb _); [exists (Some w), None; auto |]. apply ok_store. intros m γ HI Hg. exists (inside (Some w) false false).
  split; [done |]. split; [|exists (Some w), None; auto]. pose proof (inside_known _ _ _ _ _ w HI Hg eq_refl).
  apply (Inv_inside m _ γ w false); try done; [lia | lia | by left].
Qed.

End Operations.

Lemma wait_loop_ok br t (P : ghost -> Prop) b fuel (Q : _ -> _ -> Prop) : P (resting (Some b)) -> (forall a, Q a (resting (Some b))) ->
  ok true (Inv br) P t (resting (Some b)) (wait_loop b fuel) Q.
Proof.
  intros HP HQ. induction fuel as [|fuel IH]; [done |]. cbn [wait_loop]. apply ok_load. intros m γ HI Hg.
  apply (moves_stay _ _ _ _ _ (resting (Some b))); try done. destruct (negb _); [apply HQ |]. clear m γ HI Hg.
  assert (forall r : wait_result, ok true (Inv br) P t (resting (Some b))
    (match r with WaitOk => wait_loop b fuel | WaitErr e => Ret (inr e) end) Q) as Hnext by (intros []; [done | apply HQ]).
  assert (forall m γ n r, Inv br m γ -> γ !! t = Some (resting (Some b), n) -> moves (Inv br) P t m γ (fun g =>
    ok true (Inv br) P t g (match r with WaitOk => wait_loop b fuel | WaitErr e => Ret (inr e) end) Q)) as Hup.
  { intros m γ n r HI Hg. exists (resting (Some b)). split; [done |]. split; [|done]. by apply (cond_Inv_nap br m γ t _ n). }
  cbn. split_and!; [intros m γ r HI Hg _; by apply Hup with (n := Up) | |
    intros m γ HI Hg r; by apply Hup with (n := Down Generation) | intros m γ HI Hg r _; by apply Hup with (n := Roused Generation)].
  intros m γ HI Hg Hm. apply (cond_Inv_nap br m γ t _ Up); try done. intros _. cbn. by rewrite Hm.
Qed.

Lemma no_panic_cons op a log : no_panic log -> a <> Done Panic -> a <> Began Panic -> no_panic ((op, a) :: log).
Proof. intros Hn H1 H2 op'. specialize (Hn op'). rewrite !not_elem_of_cons. naive_solver. Qed.

Lemma cond_call_ok br clock_id t op fuel log g : Rest t log g -> allowed br log op = true ->
  InCall t op log g /\ ok true (Inv br) (InCall t op log) t g (call clock_id t op fuel) (fun r g => Rest t ((op, r) :: log) g).
Proof.
  intros [-> Hn] Ha. split; [done |]. pose proof (fun a => no_panic_cons op a log Hn) as Hc.
  assert ((forall b, op <> Sleep b) -> forall g, InCall t op log g) as HP by (intros H g; split; [done | intros b E; by destruct (H b)]).
  destruct op as [|b|b canceled|all|]; cbn [call]; cbn [allowed] in Ha.
  - apply bool_decide_eq_true in Ha. rewrite Ha. apply ok_bind, begin_ok; [by apply HP | |];
      intros; (split; [cbn; by rewrite ?Ha | by apply Hc]).
  - apply bool_decide_eq_true in Ha. rewrite Ha. apply ok_bind, wait_loop_ok; [split; [done | by rewrite Ha] |].
    intros a. split; [cbn; by rewrite Ha | by apply Hc].
  - apply bool_decide_eq_true in Ha. rewrite Ha. apply ok_bind, end_wait_ok; [by apply HP |]. split; [done | by apply Hc].
  - apply andb_true_iff in Ha as [Hr Ha]. apply bool_decide_eq_true in Hr. rewrite Hr. apply ok_bind, notify_ok; [by apply HP | | |].
    + intros ->. by destruct all.
    + split; [cbn; by rewrite Hr | by apply Hc].
    + intros e. split; [cbn; by rewrite Hr | by apply Hc].
  - apply bool_decide_eq_true in Ha. rewrite Ha. apply ok_bind, cond_destroy_ok; [by apply HP |]. intros a Hpa.
    split; [cbn; by rewrite Ha | apply Hc; congruence].
Qed.

Lemma cond_start_ok br (T : gset Z) : Inv br new (gset_to_gmap (resting None, Up) T).
Proof.
  unfold Inv. rewrite !total_start by done. split_and!; try done.
  - intros t g n [_ [= <- <-]]%lookup_gset_to_gmap_Some. done.
  - intros _ _ t g [_ [=]]%lookup_gset_to_gmap_Some.
Qed.

(** Every thread is between calls or in the wait of the caller. *)
Definition quiet (s : machine Cell Op Answer) : Prop :=
  forall t th, mc_threads s !! t = Some th -> in_call th = None \/ exists b, in_call th = Some (Sleep b).

Definition is_registered (th : thread Cell Op Answer) : Z := match registered (th_log th) with Some _ => 1 | None => 0 end.


(** ** A schedule: thread 2 wakes the sleeping thread 1; thread 3 comes later and sleeps *)

Definition enter_wait (t b : Z) : list (Z * @choice Op) :=
  [(t, Start Begin 1)] ++ repeat (t, Act false) 6 ++ [(t, Finish); (t, Start (Sleep b) 2)] ++ repeat (t, Act false) 2.
Definition demo : list (Z * @choice Op) :=
  enter_wait 1 0 ++ [(2, Start (Notify true) 1)] ++ repeat (2, Act false) 4 ++ [(2, WakeOnly {[1]}); (2, Act false); (2, Finish)] ++
  enter_wait 3 1.
Definition demo_end : machine Cell Op Answer := outcome (call 1) (allowed true) true new {[1; 2; 3]} demo.

Lemma cond_quiet_dec s :
  bool_decide (map_Forall (fun _ th => match in_call th with None | Some (Sleep _) => true | _ => false end = true) (mc_threads s)) = true ->
  quiet s.
Proof.
  intros Hd%bool_decide_eq_true t th Ht. specialize (Hd t th Ht). cbn in Hd. destruct (in_call th) as [[]|]; try done; eauto.
Qed.


End Condition.
