(* ===== verification/Users.v ===== *)
(** * The account database ([user-database/src/lib.rs])

    Accounts are records of eight fields, one line of text each: three decimal numbers and five strings in
    hexadecimal.  [UserDatabase] keeps them in a vector sorted by user ID as they are added. *)

From stdpp Require Import gmap.
From Stdlib Require Import String.
From S2P Require Import Prelude Text.

(** ** The code *)

Definition FIRST_REGULAR_UID : Z := 1000.
Definition TAB : Z := 9.
Definition SLASH : Z := 47.
Definition HEADER : list Z := text "MUSRDB" ++ [TAB] ++ text "1".
Definition LOCKED_FLAG : Z := 1.
Definition KNOWN_FLAGS : Z := LOCKED_FLAG.
Definition MAX_DATABASE_BYTES : Z := 1024 * 1024.
Definition MAX_USERS : Z := 4096.
Definition MAX_NAME_BYTES : Z := 32.
Definition MAX_DISPLAY_NAME_BYTES : Z := 128.
Definition MAX_PATH_BYTES : Z := 512.
Definition MAX_PASSWORD_HASH_BYTES : Z := 512.

Record UserRecord : Type := {
  uid : Z;
  gid : Z;
  name : list Z;
  display_name : list Z;
  home : list Z;
  shell : list Z;
  password_hash : list Z;
  locked : bool }.
#[export] Instance UserRecord_eq_dec : EqDecision UserRecord.
Proof. solve_decision. Defined.

Record UserDatabase : Type := { users : list UserRecord }.

Inductive DatabaseError : Type :=
  | DatabaseTooLarge | InvalidUtf8 | InvalidHeader | InvalidRecord | InvalidNumber | InvalidHex | InvalidName | InvalidText
  | InvalidPath | InvalidFlags | InvalidRoot | DuplicateName | DuplicateUid | TooManyUsers | UidExhausted | UserNotFound
  | RootRemoval.
#[export] Instance DatabaseError_eq_dec : EqDecision DatabaseError.
Proof. solve_decision. Defined.

Definition regular (nm : list Z) (id group : Z) : UserRecord :=
  {| uid := id; gid := group; name := nm; display_name := nm; home := text "/home/" ++ nm; shell := text "/bin/msh";
     password_hash := text "!"; locked := true |}.

Definition name_byte (byte : Z) : bool :=
  is_ascii_lowercase byte || is_ascii_digit byte || (byte =? 95) || (byte =? 45).

Definition validate_name (bytes : list Z) : result DatabaseError unit :=
  if bool_decide (bytes = []) || (MAX_NAME_BYTES <? len bytes) then Err InvalidName else
  let? first := idx bytes 0 in
  if negb (is_ascii_lowercase first || (first =? 95)) then Err InvalidName else
  if negb (forallb name_byte bytes) then Err InvalidName else Ok tt.

Definition validate_text (value : list Z) (max_bytes : Z) : result DatabaseError unit :=
  if (max_bytes <? len value) || contains_control value then Err InvalidText else Ok tt.

Definition is_dots (component : list Z) : bool :=
  bool_decide (component = text ".") || bool_decide (component = text "..").

Definition validate_absolute_path (value : list Z) : result DatabaseError unit :=
  if bool_decide (value = []) || (MAX_PATH_BYTES <? len value) || negb (starts_with [SLASH] value) then Err InvalidPath else
  if existsb is_dots (split_char SLASH value) || contains_control value then Err InvalidPath else Ok tt.

Definition UserRecord_validate (self : UserRecord) : result DatabaseError unit :=
  let? _ := validate_name (name self) in
  let? _ := validate_text (display_name self) MAX_DISPLAY_NAME_BYTES in
  let? _ := validate_absolute_path (home self) in
  let? _ := validate_absolute_path (shell self) in
  let? _ := validate_text (password_hash self) MAX_PASSWORD_HASH_BYTES in
  if (uid self =? 0) && negb (bool_decide (name self = text "root")) then Err InvalidRoot else
  if bool_decide (name self = text "root") && (negb (uid self =? 0) || negb (gid self =? 0)) then Err InvalidRoot else
  Ok tt.

Definition DIGITS : list Z := text "0123456789abcdef".

(** [output] is what was written before. *)
Fixpoint encode_hex (bytes output : list Z) : result DatabaseError (list Z) :=
  match bytes with
  | [] => Ok output
  | byte :: bytes =>
      let? high := idx DIGITS (Z.to_nat (Z.shiftr byte 4)) in
      let? low := idx DIGITS (Z.to_nat (Z.land byte 15)) in
      encode_hex bytes (output ++ [high] ++ [low])
  end.

Definition decode_nibble (byte : Z) : option Z :=
  if is_ascii_digit byte then Some (byte - 48)
  else if (97 <=? byte) && (byte <=? 102) then Some (byte - 97 + 10)
  else if (65 <=? byte) && (byte <=? 70) then Some (byte - 65 + 10)
  else None.

(** The loop over [chunks_exact(2)]. *)
Fixpoint decode_pairs (bytes decoded : list Z) : result DatabaseError (list Z) :=
  match bytes with
  | a :: b :: bytes =>
      let? high := ok_or (decode_nibble a) InvalidHex in
      let? low := ok_or (decode_nibble b) InvalidHex in
      decode_pairs bytes (decoded ++ [Z.lor (Z.shiftl high 4) low])
  | _ => Ok decoded
  end.

Definition decode_hex_string (value : list Z) : result DatabaseError (list Z) :=
  if negb (Nat.modulo (List.length value) 2 =? 0)%nat then Err InvalidHex else
  let? decoded := decode_pairs value [] in
  if from_utf8 decoded then Ok decoded else Err InvalidUtf8.

(** The loop over the five strings. *)
Fixpoint encode_strings (values : list (list Z)) (output : list Z) : result DatabaseError (list Z) :=
  match values with
  | [] => Ok output
  | value :: values =>
      let? output := encode_hex value (output ++ [TAB]) in
      encode_strings values output
  end.

Definition encode_record (user : UserRecord) (output : list Z) : result DatabaseError (list Z) :=
  let flags := if locked user then LOCKED_FLAG else 0 in
  let output := output ++ to_string (uid user) ++ [TAB] ++ to_string (gid user) ++ [TAB] ++ to_string flags in
  encode_strings [name user; display_name user; home user; shell user; password_hash user] output.

Definition parse_record (line : list Z) : result DatabaseError UserRecord :=
  match split_char TAB line with
  | [f0; f1; f2; f3; f4; f5; f6; f7] =>
      let? uid := ok_or (parse_u32 f0) InvalidNumber in
      let? gid := ok_or (parse_u32 f1) InvalidNumber in
      let? flags := ok_or (parse_u32 f2) InvalidNumber in
      if negb (Z.land flags (U32_MAX - KNOWN_FLAGS) =? 0) then Err InvalidFlags else
      let? name := decode_hex_string f3 in
      let? display_name := decode_hex_string f4 in
      let? home := decode_hex_string f5 in
      let? shell := decode_hex_string f6 in
      let? password_hash := decode_hex_string f7 in
      let user := {| uid := uid; gid := gid; name := name; display_name := display_name; home := home; shell := shell;
                     password_hash := password_hash; locked := negb (Z.land flags LOCKED_FLAG =? 0) |} in
      let? _ := UserRecord_validate user in
      Ok user
  | _ => Err InvalidRecord
  end.

Definition UserRecord_parse (bytes : list Z) : result DatabaseError UserRecord :=
  if negb (from_utf8 bytes) then Err InvalidUtf8 else
  if bool_decide (bytes = []) || contains_char LF bytes || contains_char CR bytes then Err InvalidRecord else
  parse_record bytes.

Definition UserRecord_encode (self : UserRecord) : result DatabaseError (list Z) :=
  let? _ := UserRecord_validate self in
  encode_record self [].

Definition with_root : UserDatabase :=
  {| users := [{| uid := 0; gid := 0; name := text "root"; display_name := text "System Administrator";
                  home := text "/home/root"; shell := text "/bin/msh"; password_hash := text "!"; locked := true |}] |}.

(** The inner loop of [validate]. *)
Fixpoint check_previous (user : UserRecord) (previous : list UserRecord) : result DatabaseError unit :=
  match previous with
  | [] => Ok tt
  | p :: previous =>
      if bool_decide (name p = name user) then Err DuplicateName else
      if uid p =? uid user then Err DuplicateUid else check_previous user previous
  end.

Fixpoint validate_loop (previous rest : list UserRecord) (root_count : nat) : result DatabaseError nat :=
  match rest with
  | [] => Ok root_count
  | user :: rest =>
      let? _ := UserRecord_validate user in
      let root_count := if bool_decide (name user = text "root") then S root_count else root_count in
      let? _ := check_previous user previous in
      validate_loop (previous ++ [user]) rest root_count
  end.

Definition UserDatabase_validate (self : UserDatabase) : result DatabaseError unit :=
  if MAX_USERS <? Z.of_nat (List.length (users self)) then Err TooManyUsers else
  let? root_count := validate_loop [] (users self) 0 in
  if negb (root_count =? 1)%nat then Err InvalidRoot else Ok tt.

(** The loop over the lines after the header. *)
Fixpoint parse_lines (ls : list (list Z)) (users : list UserRecord) : result DatabaseError (list UserRecord) :=
  match ls with
  | [] => Ok users
  | line :: ls =>
      if bool_decide (line = []) then parse_lines ls users else
      if MAX_USERS <=? Z.of_nat (List.length users) then Err TooManyUsers else
      let? user := parse_record line in
      parse_lines ls (users ++ [user])
  end.

Definition UserDatabase_parse (bytes : list Z) : result DatabaseError UserDatabase :=
  if MAX_DATABASE_BYTES <? len bytes then Err DatabaseTooLarge else
  if negb (from_utf8 bytes) then Err InvalidUtf8 else
  match lines bytes with
  | header :: ls =>
      if negb (bool_decide (header = HEADER)) then Err InvalidHeader else
      let? users := parse_lines ls [] in
      let database := {| users := users |} in
      let? _ := UserDatabase_validate database in
      Ok database
  | [] => Err InvalidHeader
  end.

Fixpoint encode_users (us : list UserRecord) (output : list Z) : result DatabaseError (list Z) :=
  match us with
  | [] => Ok output
  | user :: us =>
      let? output := encode_record user output in
      encode_users us (output ++ [LF])
  end.

Definition UserDatabase_encode (self : UserDatabase) : result DatabaseError (list Z) :=
  let? _ := UserDatabase_validate self in
  let? output := encode_users (users self) (HEADER ++ [LF]) in
  if MAX_DATABASE_BYTES <? len output then Err DatabaseTooLarge else Ok output.

Definition find_name (self : UserDatabase) (nm : list Z) : option UserRecord :=
  List.find (fun user => bool_decide (name user = nm)) (users self).

(** [find_name_mut], with what the caller does to the record. *)
Fixpoint update_name (us : list UserRecord) (nm : list Z) (f : UserRecord -> UserRecord) : list UserRecord :=
  match us with
  | [] => []
  | user :: us => if bool_decide (name user = nm) then f user :: us else user :: update_name us nm f
  end.
Definition find_name_mut (self : UserDatabase) (nm : list Z) (f : UserRecord -> UserRecord) : UserDatabase :=
  {| users := update_name (users self) nm f |}.

Definition find_uid (self : UserDatabase) (id : Z) : option UserRecord := List.find (fun user => uid user =? id) (users self).

Fixpoint next_uid_loop (fuel : nat) (self : UserDatabase) (candidate : Z) : result DatabaseError Z :=
  match fuel with
  | O => Panic
  | S fuel =>
      match find_uid self candidate with
      | None => Ok candidate
      | Some _ =>
          let? candidate := ok_or (if candidate + 1 <=? U32_MAX then Some (candidate + 1) else None) UidExhausted in
          next_uid_loop fuel self candidate
      end
  end.
Definition next_regular_uid (self : UserDatabase) : result DatabaseError Z :=
  next_uid_loop (S (List.length (users self))) self FIRST_REGULAR_UID.

Definition UserDatabase_add (self : UserDatabase) (user : UserRecord) : UserDatabase * result DatabaseError unit :=
  match UserRecord_validate user with
  | Ok _ =>
      if MAX_USERS <=? Z.of_nat (List.length (users self)) then (self, Err TooManyUsers) else
      if bool_decide (is_Some (find_name self (name user))) then (self, Err DuplicateName) else
      if bool_decide (is_Some (find_uid self (uid user))) then (self, Err DuplicateUid) else
      let self := {| users := sort_by_key uid (users self ++ [user]) |} in
      (self, UserDatabase_validate self)
  | Err e => (self, Err e)
  | Panic => (self, Panic)
  end.

(** [position], then [Vec::remove]. *)
Definition UserDatabase_remove (self : UserDatabase) (nm : list Z) : UserDatabase * result DatabaseError UserRecord :=
  if bool_decide (nm = text "root") then (self, Err RootRemoval) else
  match list_find (fun user => name user = nm) (users self) with
  | None => (self, Err UserNotFound)
  | Some (index, user) => ({| users := delete index (users self) |}, Ok user)
  end.

(** ** Well-formed accounts *)

(** What the types guarantee: machine integers and UTF-8 strings. *)
Definition str (s : list Z) : Prop := bytes s /\ from_utf8 s = true.
Record typed (u : UserRecord) : Prop := {
  ty_uid : is_u32 (uid u);
  ty_gid : is_u32 (gid u);
  ty_strings : Forall str [name u; display_name u; home u; shell u; password_hash u] }.

Definition name_ok (s : list Z) : Prop :=
  (exists c rest, s = c :: rest /\ (is_ascii_lowercase c = true \/ c = 95)) /\
  len s <= MAX_NAME_BYTES /\ Forall (fun b => name_byte b = true) s.
Definition text_ok (max : Z) (s : list Z) : Prop := len s <= max /\ contains_control s = false.
Definition path_ok (s : list Z) : Prop :=
  (exists rest, s = SLASH :: rest) /\ text_ok MAX_PATH_BYTES s /\ Forall (fun c => is_dots c = false) (split_char SLASH s).

Record user_ok (u : UserRecord) : Prop := {
  uo_name : name_ok (name u);
  uo_display : text_ok MAX_DISPLAY_NAME_BYTES (display_name u);
  uo_home : path_ok (home u);
  uo_shell : path_ok (shell u);
  uo_hash : text_ok MAX_PASSWORD_HASH_BYTES (password_hash u);
  uo_root : uid u = 0 <-> name u = text "root";
  uo_root_group : name u = text "root" -> gid u = 0 }.

Record db_ok (us : list UserRecord) : Prop := {
  db_size : Z.of_nat (List.length us) <= MAX_USERS;
  db_users : Forall user_ok us;
  db_names : NoDup (map name us);
  db_uids : NoDup (map uid us);
  db_root : text "root" ∈ map name us }.

(** A check that answers [Ok] exactly when [P] holds and does not panic. *)
Definition decides {E} (r : result E unit) (P : Prop) : Prop :=
  (r = Ok tt /\ P) \/ (exists e, r = Err e) /\ ~ P.

Lemma decides_bind {E} (r : result E unit) P k Q : decides r P -> (P -> decides k Q) -> decides (let? _ := r in k) (P /\ Q).
Proof.
  unfold decides. intros [[-> HP]|[[e ->] HP]] Hk; [|right; split; [eauto | tauto]]. destruct (Hk HP) as [[-> HQ]|[[e ->] HQ]]; [auto |].
  right. split; [eauto | tauto].
Qed.

Lemma decides_if {E} (b : bool) (e : E) r P : (b = true -> ~ P) -> (b = false -> decides r P) -> decides (if b then Err e else r) P.
Proof. intros Hb Hr. destruct b; [right; split; [eauto | auto] | auto]. Qed.

Lemma decides_iff {E} (r : result E unit) P Q : (P <-> Q) -> decides r P -> decides r Q.
Proof. unfold decides. tauto. Qed.

Lemma decides_Ok {E} (r : result E unit) P : decides r P -> r = Ok tt <-> P.
Proof. intros [[-> HP]|[[e ->] HP]]; [done | split; [done | tauto]]. Qed.

Lemma validate_name_decides s : decides (validate_name s) (name_ok s).
Proof.
  unfold validate_name, name_ok. apply decides_if.
  { intros [E|E]%orb_true_iff; bool_cases; [subst; intros ((? & ? & [=] & _) & _) | intros (_ & Hl & _); lia]. }
  intros [E1 E2]%orb_false_iff. bool_cases. destruct s as [|c s]; [done |]. cbn [idx lookup list_lookup].
  apply decides_if.
  { intros E ((c' & rest & [= <- <-] & Hc) & _). bool_cases. destruct Hc; [congruence |]. done. }
  intros E. bool_cases. apply decides_if.
  { intros E' (_ & _ & Hf). bool_cases. rewrite <- not_true_iff_false, forallb_forall in E'. apply E'. intros b Hb%list_elem_of_In.
    rewrite Forall_forall in Hf. by apply Hf. }
  intros E'. bool_cases. left. split; [done |]. split_and!; [|done|].
  - exists c, s. split; [done |]. apply orb_true_iff in E as [|?%Z.eqb_eq]; auto.
  - apply Forall_forall. intros b Hb%list_elem_of_In. rewrite forallb_forall in E'. auto.
Qed.

Lemma validate_text_decides s max : decides (validate_text s max) (text_ok max s).
Proof.
  unfold validate_text, text_ok. apply decides_if.
  - intros [E|E]%orb_true_iff [H1 H2]; bool_cases; [lia | congruence].
  - intros [E1 E2]%orb_false_iff. bool_cases. left. auto.
Qed.

Lemma validate_path_decides s : decides (validate_absolute_path s) (path_ok s).
Proof.
  unfold validate_absolute_path, path_ok, text_ok. apply decides_if.
  { intros [[E|E]%orb_true_iff|E]%orb_true_iff ([rest Hs] & [Hl _] & _); bool_cases; [congruence | lia |].
    by apply (starts_with_false_nil _ _ E rest). }
  intros [[E1 E2]%orb_false_iff E3]%orb_false_iff. bool_cases. apply starts_with_spec in E3 as [rest Hs]. apply decides_if.
  - intros [(c & Hc & Hd)%existsb_elem|E]%orb_true_iff (_ & [_ Hc'] & Hf); [|congruence]. rewrite Forall_forall in Hf.
    rewrite (Hf c Hc) in Hd. done.
  - intros [E4 E5]%orb_false_iff. left. split_and!; try done; [by exists rest |]. apply Forall_forall. intros c Hc.
    destruct (is_dots c) eqn:E; [|done]. assert (existsb is_dots (split_char SLASH s) = true) by (apply existsb_elem; eauto). congruence.
Qed.

Lemma UserRecord_validate_decides u : decides (UserRecord_validate u) (user_ok u).
Proof.
  eapply decides_iff with (P := name_ok (name u) /\ text_ok MAX_DISPLAY_NAME_BYTES (display_name u) /\ path_ok (home u) /\
    path_ok (shell u) /\ text_ok MAX_PASSWORD_HASH_BYTES (password_hash u) /\
    (uid u = 0 <-> name u = text "root") /\ (name u = text "root" -> gid u = 0)).
  { split; [by intros (? & ? & ? & ? & ? & ? & ?) | by intros []]. }
  unfold UserRecord_validate. repeat (apply decides_bind; [auto using validate_name_decides, validate_text_decides, validate_path_decides | intros _]).
  apply decides_if.
  { intros [E1 E2]%andb_true_iff [H _]. bool_cases. by apply E2, H. }
  intros E1. apply decides_if.
  { intros [E2 E3]%andb_true_iff [H H']. bool_cases. apply orb_true_iff in E3 as [E3|E3]; bool_cases; [by apply E3, H | by apply E3, H']. }
  intros E2. left. split; [done |]. apply andb_false_iff in E1, E2. split; [split|].
  - intros E. destruct E1; bool_cases; [done | done].
  - intros E. destruct E2 as [|E2]; bool_cases; [done | done].
  - intros E. destruct E2 as [|E2]; bool_cases; [done | done].
Qed.

Lemma check_previous_decides u previous :
  decides (check_previous u previous) ((name u ∉ map name previous) /\ (uid u ∉ map uid previous)).
Proof.
  induction previous as [|p previous IH]; cbn; [left; split; [done | split; apply not_elem_of_nil] |].
  eapply decides_iff with (P := (name u <> name p /\ (name u ∉ map name previous)) /\ (uid u <> uid p /\ (uid u ∉ map uid previous)));
    [by rewrite !not_elem_of_cons |]. apply decides_if; [intros E ([H _] & _); bool_cases; congruence |]. intros E1.
  apply decides_if; [intros E (_ & [H _]); bool_cases; congruence |]. intros E2. bool_cases.
  eapply decides_iff; [|exact IH]. split; [intros [? ?]; split_and!; congruence || done | tauto].
Qed.

(** The roots among the accounts. *)
Definition roots (us : list UserRecord) : nat := List.length (List.filter (fun u => bool_decide (name u = text "root")) us).

Lemma validate_loop_spec rest : forall previous n, NoDup (map name previous) -> NoDup (map uid previous) ->
  let P := Forall user_ok rest /\ NoDup (map name (previous ++ rest)) /\ NoDup (map uid (previous ++ rest)) in
  (validate_loop previous rest n = Ok (n + roots rest)%nat /\ P) \/ (exists e, validate_loop previous rest n = Err e) /\ ~ P.
Proof.
  induction rest as [|u rest IH]; intros previous n Hn Hi P; subst P; cbn [validate_loop].
  { left. rewrite Nat.add_0_r, app_nil_r. auto. }
  destruct (UserRecord_validate_decides u) as [[-> Hu]|[[e ->] Hu]]; [|right; split; [eauto |]; by intros ([? ?]%Forall_cons & _)].
  replace (previous ++ u :: rest) with ((previous ++ [u]) ++ rest) by (by rewrite <- app_assoc).
  destruct (check_previous_decides u previous) as [[-> [Hnm Hid]]|[[e ->] Hp]].
  - specialize (IH (previous ++ [u]) (if bool_decide (name u = text "root") then S n else n)). destruct IH as [[E IH]|[E IH]].
    + rewrite map_app. apply NoDup_app. split_and!; [done | set_solver | apply NoDup_singleton].
    + rewrite map_app. apply NoDup_app. split_and!; [done | set_solver | apply NoDup_singleton].
    + left. rewrite E. split; [|naive_solver]. f_equal. unfold roots. cbn. destruct (bool_decide _); cbn; lia.
    + right. split; [done |]. intros ([_ H]%Forall_cons & ? & ?). by apply IH.
  - right. split; [eauto |]. intros (_ & H1 & H2). apply Hp. rewrite !map_app in H1, H2.
    apply NoDup_app in H1 as (H1 & _ & _). apply NoDup_app in H2 as (H2 & _ & _).
    apply NoDup_app in H1 as (_ & H1 & _). apply NoDup_app in H2 as (_ & H2 & _). split; intros H; [eapply H1 | eapply H2]; set_solver.
Qed.

Lemma roots_one us : NoDup (map name us) -> (roots us = 1%nat <-> text "root" ∈ map name us).
Proof.
  unfold roots. induction us as [|u us IH]; cbn; [intros _; split; [done | by intros ?%not_elem_of_nil] |].
  intros [Hu Hnd]%NoDup_cons. rewrite elem_of_cons. case_bool_decide as E; cbn.
  - split; [auto | intros _]. f_equal. rewrite <- E in *. clear IH. induction us as [|v us IHv]; [done |]. cbn in *.
    apply not_elem_of_cons in Hu as [Hu ?]. apply NoDup_cons in Hnd as [_ ?]. rewrite bool_decide_eq_false_2 by congruence. auto.
  - rewrite IH by done. naive_solver.
Qed.

Lemma UserDatabase_validate_decides db : decides (UserDatabase_validate db) (db_ok (users db)).
Proof.
  unfold UserDatabase_validate. apply decides_if; [intros E []; bool_cases; lia |]. intros E. bool_cases.
  destruct (validate_loop_spec (users db) [] 0 (NoDup_nil_2) (NoDup_nil_2)) as [[-> (H1 & H2 & H3)]|[[e ->] H]].
  - cbn in H2, H3. apply decides_if.
    + intros E' [_ _ _ _ Hr]. bool_cases. by apply E', roots_one.
    + intros E'. bool_cases. left. split; [done |]. split; try done. by apply roots_one.
  - right. split; [eauto |]. intros []. by apply H.
Qed.

(** ** Hexadecimal strings *)

Definition hex (byte : Z) : list Z :=
  [default 0 (DIGITS !! Z.to_nat (Z.shiftr byte 4)); default 0 (DIGITS !! Z.to_nat (Z.land byte 15))].
Definition hex_string (s : list Z) : list Z := concat (map hex s).

(** The characters of a line: printable ASCII. *)
Definition graphic (c : Z) : Prop := 32 < c < 128.

Definition hex_check (b : Z) : bool :=
  match DIGITS !! Z.to_nat (Z.shiftr b 4), DIGITS !! Z.to_nat (Z.land b 15) with
  | Some h, Some l =>
      match decode_nibble h, decode_nibble l with
      | Some x, Some y => (Z.lor (Z.shiftl x 4) y =? b) && (32 <? h) && (h <? 128) && (32 <? l) && (l <? 128)
      | _, _ => false
      end
  | _, _ => false
  end.

Lemma hex_spec b : is_u8 b -> exists h l x y,
  DIGITS !! Z.to_nat (Z.shiftr b 4) = Some h /\ DIGITS !! Z.to_nat (Z.land b 15) = Some l /\ hex b = [h; l] /\
  decode_nibble h = Some x /\ decode_nibble l = Some y /\ Z.lor (Z.shiftl x 4) y = b /\ graphic h /\ graphic l.
Proof.
  intros Hb. assert (hex_check b = true) as H by (apply bytes_by_cases; [vm_compute; reflexivity | done]).
  unfold hex_check in H. unfold hex. destruct (DIGITS !! _) as [h|]; [|done]. destruct (DIGITS !! _) as [l|]; [|done].
  destruct (decode_nibble h) as [x|] eqn:Ex; [|done]. destruct (decode_nibble l) as [y|] eqn:Ey; [|done]. bool_cases.
  exists h, l, x, y. unfold graphic. split_and!; done || lia.
Qed.

Lemma encode_hex_ok s : bytes s -> forall output, encode_hex s output = Ok (output ++ hex_string s).
Proof.
  induction 1 as [|b s Hb Hs IH]; intros output; [cbn; by rewrite app_nil_r |]. cbn [encode_hex]. unfold idx.
  destruct (hex_spec b Hb) as (h & l & x & y & -> & -> & E & _). rewrite IH. unfold hex_string. cbn [map concat].
  rewrite E, <- !app_assoc. done.
Qed.

Lemma decode_pairs_ok s : bytes s -> forall decoded, decode_pairs (hex_string s) decoded = Ok (decoded ++ s).
Proof.
  induction 1 as [|b s Hb Hs IH]; intros decoded; [cbn; by rewrite app_nil_r |]. unfold hex_string. cbn [map concat].
  destruct (hex_spec b Hb) as (h & l & x & y & _ & _ & -> & Ex & Ey & E & _). cbn. rewrite Ex, Ey. cbn [ok_or]. rewrite E.
  unfold hex_string in IH. by rewrite IH, <- app_assoc.
Qed.

Lemma hex_string_length s : List.length (hex_string s) = (2 * List.length s)%nat.
Proof. unfold hex_string. induction s; cbn; [done |]. rewrite IHs. lia. Qed.

Lemma hex_string_graphic s : bytes s -> Forall graphic (hex_string s).
Proof.
  induction 1 as [|b s Hb Hs IH]; [constructor |]. unfold hex_string. cbn [map concat].
  destruct (hex_spec b Hb) as (h & l & x & y & _ & _ & -> & _ & _ & _ & Hh & Hl).
  apply Forall_cons. split; [done |]. apply Forall_cons. by split.
Qed.

Lemma decode_hex_ok s : str s -> decode_hex_string (hex_string s) = Ok s.
Proof.
  intros [Hb Hu]. unfold decode_hex_string. rewrite hex_string_length, Nat.mul_comm, Nat.Div0.mod_mul. cbn [negb Nat.eqb].
  rewrite decode_pairs_ok by done. cbn. by rewrite Hu.
Qed.

(** ** Lines *)

Definition flags_of (u : UserRecord) : Z := if locked u then LOCKED_FLAG else 0.
Definition fields (u : UserRecord) : list (list Z) :=
  [to_string (uid u); to_string (gid u); to_string (flags_of u); hex_string (name u); hex_string (display_name u);
   hex_string (home u); hex_string (shell u); hex_string (password_hash u)].
Definition record_line (u : UserRecord) : list Z := join_char TAB (fields u).

Lemma typed_strings u : typed u ->
  str (name u) /\ str (display_name u) /\ str (home u) /\ str (shell u) /\ str (password_hash u).
Proof. intros [_ _ H]. repeat (apply Forall_cons in H as [? H]). done. Qed.

Lemma encode_strings_ok vs : Forall str vs -> forall output,
  encode_strings vs output = Ok (output ++ concat (map (fun v => TAB :: hex_string v) vs)).
Proof.
  induction 1 as [|v vs [Hv _] Hvs IH]; intros output; [cbn; by rewrite app_nil_r |]. cbn [encode_strings].
  rewrite encode_hex_ok by done. rewrite IH. cbn [map concat]. by rewrite <- !app_assoc.
Qed.

Lemma encode_record_ok u output : typed u -> encode_record u output = Ok (output ++ record_line u).
Proof.
  intros Hu. unfold encode_record. rewrite encode_strings_ok by apply Hu. f_equal. unfold record_line, fields. cbn [join_char map concat].
  rewrite <- !app_assoc, app_nil_r. done.
Qed.

Lemma digit_graphic c : is_ascii_digit c = true -> graphic c.
Proof. unfold is_ascii_digit, graphic. intros. bool_cases. lia. Qed.

Lemma flags_range u : is_u32 (flags_of u).
Proof. unfold flags_of, LOCKED_FLAG. destruct (locked u); widths; lia. Qed.

Lemma number_field z : is_u32 z -> parse_u32 (to_string z) = Some z /\ Forall graphic (to_string z) /\ to_string z <> [].
Proof.
  intros Hz. destruct (to_string_parse z U32_MAX) as (H1 & H2 & H3); [widths; lia | widths; lia |]. split_and!; [done | | done].
  eapply Forall_impl; [exact H2 |]. apply digit_graphic.
Qed.

Lemma fields_graphic u : typed u -> Forall (Forall graphic) (fields u).
Proof.
  intros Hu. destruct (typed_strings u Hu) as ([S1 _] & [S2 _] & [S3 _] & [S4 _] & [S5 _]). destruct Hu as [H1 H2 _].
  repeat (apply Forall_cons; split; [first [by apply number_field | by apply number_field, flags_range | by apply hex_string_graphic] |]).
  constructor.
Qed.

Lemma graphic_no_char s c : c <= 32 -> Forall graphic s -> no_char c s.
Proof. intros Hc Hs. eapply Forall_impl; [exact Hs |]. unfold graphic. intros b Hb. lia. Qed.

Lemma split_record_line u : typed u -> split_char TAB (record_line u) = fields u.
Proof.
  intros Hu. apply split_join; [done |]. eapply Forall_impl; [by apply fields_graphic |]. intros s. by apply graphic_no_char.
Qed.

Lemma parse_record_line u : typed u -> user_ok u -> parse_record (record_line u) = Ok u.
Proof.
  intros Hu Hok. unfold parse_record. rewrite split_record_line by done. unfold fields.
  destruct (typed_strings u Hu) as (S1 & S2 & S3 & S4 & S5).
  rewrite (proj1 (number_field _ (ty_uid _ Hu))), (proj1 (number_field _ (ty_gid _ Hu))), (proj1 (number_field _ (flags_range u))).
  cbn [ok_or]. rewrite !decode_hex_ok by done.
  replace (negb (Z.land (flags_of u) (U32_MAX - KNOWN_FLAGS) =? 0)) with false by (unfold flags_of; by destruct (locked u)).
  replace (negb (Z.land (flags_of u) LOCKED_FLAG =? 0)) with (locked u) by (unfold flags_of; by destruct (locked u)).
  destruct u. cbn in *. by rewrite (proj2 (decides_Ok _ _ (UserRecord_validate_decides _)) Hok).
Qed.

(** The characters of a line. *)
Lemma join_chars (P : Z -> Prop) sep ls : P sep -> Forall (Forall P) ls -> Forall P (join_char sep ls).
Proof.
  intros Hsep Hls. induction Hls as [|l ls Hl Hls IH]; [constructor |]. destruct ls as [|l' ls]; [done |].
  rewrite join_cons by done. apply Forall_app. split; [done | by constructor].
Qed.

Definition line_char (c : Z) : Prop := graphic c \/ c = TAB.

Lemma record_line_chars u : typed u -> Forall line_char (record_line u).
Proof.
  intros Hu. apply join_chars; [by right |]. eapply Forall_impl; [by apply fields_graphic |]. intros s Hs.
  eapply Forall_impl; [exact Hs |]. by left.
Qed.

Lemma record_line_nonempty u : typed u -> record_line u <> [].
Proof.
  intros Hu. unfold record_line, fields. rewrite join_cons by done. intros E%(f_equal (@List.length Z)). rewrite length_app in E. cbn in E. lia.
Qed.

Definition unlines (ls : list (list Z)) : list Z := concat (map (fun l => l ++ [LF]) ls).

Lemma encode_users_ok us : Forall typed us -> forall output, encode_users us output = Ok (output ++ unlines (map record_line us)).
Proof.
  unfold unlines. induction 1 as [|u us Hu Hus IH]; intros output; [cbn; by rewrite app_nil_r |]. cbn [encode_users].
  rewrite encode_record_ok by done. rewrite IH. cbn [map concat]. by rewrite <- !app_assoc.
Qed.

Definition database_text (us : list UserRecord) : list Z := unlines (HEADER :: map record_line us).

(** What [encode] answers. *)
Lemma encode_database db : Forall typed (users db) ->
  UserDatabase_encode db = Ok (database_text (users db)) /\ db_ok (users db) /\ len (database_text (users db)) <= MAX_DATABASE_BYTES \/
  (exists e, UserDatabase_encode db = Err e) /\ ~ (db_ok (users db) /\ len (database_text (users db)) <= MAX_DATABASE_BYTES).
Proof.
  intros Ht. unfold UserDatabase_encode. destruct (UserDatabase_validate_decides db) as [[-> Hok]|[[e ->] Hok]]; [|right; split; [eauto | tauto]].
  rewrite encode_users_ok by done. change ((HEADER ++ [LF]) ++ unlines (map record_line (users db))) with (database_text (users db)).
  destruct (Z.ltb_spec MAX_DATABASE_BYTES (len (database_text (users db)))); [right; split; [eauto | lia] | left; auto].
Qed.

Lemma database_chars us : Forall typed us -> Forall (Forall line_char) (HEADER :: map record_line us).
Proof.
  intros Ht. constructor.
  - repeat (apply Forall_cons; split; [first [by right | left; unfold graphic; cbn; lia] |]). constructor.
  - apply Forall_map. eapply Forall_impl; [exact Ht |]. apply record_line_chars.
Qed.

(** A text of such lines is ASCII, and splits into them. *)
Lemma text_lines ls : Forall (Forall line_char) ls -> from_utf8 (unlines ls) = true /\ lines (unlines ls) = ls.
Proof.
  intros Hls. split.
  - apply from_utf8_ascii. unfold unlines. apply Forall_concat, Forall_map. eapply Forall_impl; [exact Hls |]. intros l Hl.
    apply Forall_app. split; [|repeat constructor]. eapply Forall_impl; [exact Hl |]. intros c [[]| ->]; [lia | done].
  - apply lines_unlines. eapply Forall_impl; [exact Hls |]. intros l Hl. assert (forall c, c = LF \/ c = CR -> c ∉ l) as Hc.
    { intros c H Hin. rewrite Forall_forall in Hl. destruct (Hl c Hin) as [[]|E]; destruct H; subst; unfold LF, CR, TAB in *; lia. }
    split; [apply Forall_name_neq; auto | auto].
Qed.

Lemma parse_lines_ok us : Forall typed us -> Forall user_ok us -> forall previous,
  Z.of_nat (List.length (previous ++ us)) <= MAX_USERS -> parse_lines (map record_line us) previous = Ok (previous ++ us).
Proof.
  induction 1 as [|u us Hu Hus IH]; intros Hok previous Hl; [cbn; by rewrite app_nil_r |]. apply Forall_cons in Hok as [Hok1 Hok].
  cbn [map parse_lines]. rewrite bool_decide_eq_false_2 by (by apply record_line_nonempty). rewrite length_app in Hl. cbn in Hl.
  rewrite (proj2 (Z.leb_gt _ _)) by lia. rewrite parse_record_line by done. rewrite IH; [by rewrite <- app_assoc | done |].
  rewrite !length_app. cbn. lia.
Qed.

(** What a parsed record is. *)
Lemma decode_nibble_range b n : decode_nibble b = Some n -> 0 <= n < 16.
Proof. unfold decode_nibble, is_ascii_digit. intros. flow; lia. Qed.

Lemma nibbles_byte h l : 0 <= h < 16 -> 0 <= l < 16 -> is_u8 (Z.lor (Z.shiftl h 4) l).
Proof.
  intros Hh Hl. assert (forallb (fun h => forallb (fun l => (0 <=? Z.lor (Z.shiftl h 4) l) && (Z.lor (Z.shiftl h 4) l <? 256))
    (seqZ 0 16)) (seqZ 0 16) = true) as H by (vm_compute; reflexivity).
  rewrite forallb_forall in H. specialize (H h). rewrite <- list_elem_of_In, elem_of_seqZ, forallb_forall in H.
  specialize (H ltac:(lia) l). rewrite <- list_elem_of_In, elem_of_seqZ in H. specialize (H ltac:(lia)). bool_cases. widths. lia.
Qed.

Lemma decode_pairs_sound s : forall decoded v, bytes decoded -> decode_pairs s decoded = Ok v -> bytes v.
Proof.
  induction s as [s IH] using (induction_ltof1 _ (@List.length Z)). unfold ltof in IH. intros decoded v Hd.
  destruct s as [|a [|b s]]; cbn; [by intros [= <-] | by intros [= <-] |].
  destruct (decode_nibble a) as [h|] eqn:Eh; cbn; [|done]. destruct (decode_nibble b) as [l|] eqn:El; cbn; [|done].
  apply IH; [cbn; lia |]. apply Forall_app. split; [done |]. constructor; [|constructor].
  apply nibbles_byte; by eapply decode_nibble_range.
Qed.

Lemma decode_hex_sound s v : decode_hex_string s = Ok v -> str v.
Proof.
  unfold decode_hex_string. destruct (negb _); [done |]. destruct (decode_pairs s []) as [d| |] eqn:E; [|done|done].
  destruct (from_utf8 d) eqn:Eu; [|done]. intros [= <-]. split; [|done]. by apply (decode_pairs_sound s [] d).
Qed.

Lemma decode_pairs_no_panic s : forall decoded, decode_pairs s decoded <> Panic.
Proof.
  induction s as [s IH] using (induction_ltof1 _ (@List.length Z)). unfold ltof in IH. intros decoded.
  destruct s as [|a [|b s]]; cbn; [done | done |]. repeat (destruct (decode_nibble _); cbn; [|done]). apply IH. cbn. lia.
Qed.

Lemma decode_hex_no_panic s : decode_hex_string s <> Panic.
Proof.
  unfold decode_hex_string. destruct (negb _); [done |]. pose proof (decode_pairs_no_panic s []) as H.
  destruct (decode_pairs s []); [by destruct (from_utf8 _) | done | done].
Qed.
#[export] Hint Resolve decode_hex_no_panic : nopanic.

Lemma UserRecord_validate_no_panic u : UserRecord_validate u <> Panic.
Proof. by destruct (UserRecord_validate_decides u) as [[-> _]|[[e ->] _]]. Qed.
#[export] Hint Resolve UserRecord_validate_no_panic : nopanic.

Lemma parse_record_no_panic line : parse_record line <> Panic.
Proof.
  unfold parse_record. destruct (split_char TAB line) as [|f0 [|f1 [|f2 [|f3 [|f4 [|f5 [|f6 [|f7 [|f8 fs]]]]]]]]]; try done.
  repeat step_result.
Qed.
#[export] Hint Resolve parse_record_no_panic : nopanic.

Lemma parse_record_sound line u : parse_record line = Ok u -> typed u /\ user_ok u.
Proof.
  unfold parse_record. destruct (split_char TAB line) as [|f0 [|f1 [|f2 [|f3 [|f4 [|f5 [|f6 [|f7 [|f8 fs]]]]]]]]]; try done.
  intros H. unfold ok_or in H. flow.
  match goal with E : UserRecord_validate _ = Ok ?a |- _ => destruct a; apply (decides_Ok _ _ (UserRecord_validate_decides _)) in E end.
  split; [|done]. repeat match goal with E : decode_hex_string _ = Ok _ |- _ => apply decode_hex_sound in E end.
  repeat match goal with E : parse_u32 _ = Some _ |- _ => apply from_str_radix_range in E; [|lia | unfold U32_MAX; lia] end.
  split; cbn; [widths; lia | widths; lia |]. repeat (apply Forall_cons; split; [done |]). constructor.
Qed.

Lemma parse_lines_sound ls : forall previous us, Forall typed previous -> parse_lines ls previous = Ok us -> Forall typed us.
Proof.
  induction ls as [|line ls IH]; intros previous us Hp; cbn; [by intros [= <-] |]. case_bool_decide; [by apply IH |].
  destruct (_ <=? _); [done |]. destruct (parse_record line) as [u| |] eqn:E; [|done|done]. apply IH, Forall_app.
  split; [done |]. apply parse_record_sound in E as [? _]. by constructor.
Qed.

Lemma parse_lines_no_panic ls : forall previous, parse_lines ls previous <> Panic.
Proof.
  induction ls as [|line ls IH]; intros previous; cbn; [done |]. case_bool_decide; [apply IH |]. destruct (_ <=? _); [done |].
  pose proof (parse_record_no_panic line). destruct (parse_record line); [apply IH | done | done].
Qed.

(** A record on its own. *)
Lemma user_record_roundtrip u b : typed u -> UserRecord_encode u = Ok b -> UserRecord_parse b = Ok u.
Proof.
  intros Ht. unfold UserRecord_encode. destruct (UserRecord_validate_decides u) as [[-> Hok]|[[e ->] _]]; [|done].
  rewrite encode_record_ok by done. intros [= <-]. pose proof (record_line_chars u Ht) as Hc. unfold UserRecord_parse.
  cbn [app].
  rewrite from_utf8_ascii by (eapply Forall_impl; [exact Hc |]; intros c [[]| ->]; [lia | done]). cbn [negb].
  rewrite bool_decide_eq_false_2 by (by apply record_line_nonempty).
  assert (forall c, c = LF \/ c = CR -> contains_char c (record_line u) = false) as Hn.
  { intros c E. apply contains_char_false. intros Hin. rewrite Forall_forall in Hc. destruct (Hc c Hin) as [[]| ->]; destruct E; subst; done || (unfold LF, CR in *; lia). }
  rewrite !Hn by auto. by apply parse_record_line.
Qed.

(** ** Storing the database *)

(** C23: The account file.  Encoding succeeds exactly for a valid database whose text fits the limit, and reading the file
    gives the same database.  Reading never panics on any bytes, and what it accepts is a valid database: one root,
    no name or ID twice, every record well formed. *)
Theorem user_database_roundtrip :
  (forall db, Forall typed (users db) ->
     (forall b, UserDatabase_encode db = Ok b -> UserDatabase_parse b = Ok db) /\
     ((exists b, UserDatabase_encode db = Ok b) <->
        db_ok (users db) /\ len (database_text (users db)) <= MAX_DATABASE_BYTES)) /\
  (forall b, UserDatabase_parse b <> Panic /\
     forall db, UserDatabase_parse b = Ok db -> db_ok (users db) /\ Forall typed (users db)).
Proof.
  split.
  - intros db Ht. destruct (encode_database db Ht) as [(-> & Hok & Hl)|[[e ->] Hn]]; [|naive_solver]. split; [|naive_solver].
    intros b [= <-]. unfold UserDatabase_parse. rewrite (proj2 (Z.ltb_ge _ _)) by done.
    destruct (text_lines _ (database_chars _ Ht)) as [E1 E2]. fold (database_text (users db)) in E1, E2. rewrite E1, E2. cbn [negb]. rewrite bool_decide_eq_true_2 by done. cbn [negb].
    rewrite parse_lines_ok; [|done | apply Hok | apply Hok]. cbn [app].
    destruct db as [us]. cbv zeta. cbn [users] in *. by rewrite (proj2 (decides_Ok _ _ (UserDatabase_validate_decides {| users := us |})) Hok).
  - intros b. unfold UserDatabase_parse. destruct (_ <? _); [done |]. destruct (negb _); [done |].
    destruct (lines b) as [|h ls]; [done |]. destruct (negb _); [done |]. pose proof (parse_lines_no_panic ls []) as Hnp.
    destruct (parse_lines ls []) as [us| |] eqn:E; [|done|done].
    cbv zeta. destruct (UserDatabase_validate_decides {| users := us |}) as [[-> Hok]|[[e ->] _]]; [|done]. split; [done |].
    intros db [= <-]. split; [done |]. by apply (parse_lines_sound ls [] us).
Qed.

Definition str_check (s : list Z) : bool := forallb (fun b => (0 <=? b) && (b <? 256)) s && from_utf8 s.
Lemma str_by_check s : str_check s = true -> str s.
Proof.
  unfold str_check. intros [H1 H2]%andb_true_iff. split; [|done]. apply Forall_forall. intros b Hb%list_elem_of_In.
  rewrite forallb_forall in H1. specialize (H1 b Hb). bool_cases. widths. lia.
Qed.

Lemma root_typed : Forall typed (users with_root).
Proof. repeat constructor; try (widths; cbn; lia); by apply str_by_check. Qed.

Lemma user_database_roundtrip_witness :
  exists b, UserDatabase_encode with_root = Ok b /\ UserDatabase_parse b = Ok with_root /\ db_ok (users with_root).
Proof.
  destruct user_database_roundtrip as [H1 H2]. destruct (H1 with_root root_typed) as [Hrt _].
  eexists. split; [vm_compute; reflexivity |].
  assert (UserDatabase_parse (database_text (users with_root)) = Ok with_root) as Hp by (apply Hrt; vm_compute; reflexivity).
  split; [exact Hp |]. exact (proj1 (proj2 (H2 _) with_root Hp)).
Defined.
