(* ===== verification/Accounts.v ===== *)
(** * Accounts as a map: the operations of [user-database/src/lib.rs]

    A valid database is a finite map from user IDs to records in which names are unique; [add] and [remove] are
    insertion and deletion, and [next_regular_uid] finds the first free ID. *)

From stdpp Require Import gmap.
From Stdlib Require Import String.
From S2P Require Import Prelude Text Users.

(** ** The map *)

Definition by_uid (us : list UserRecord) : gmap Z UserRecord := list_to_map (map (fun u => (uid u, u)) us).

Lemma map_fst_uid us : map fst (map (fun u => (uid u, u)) us) = map uid us.
Proof. rewrite map_map. done. Qed.

Lemma NoDup_fst_uid us : NoDup (map uid us) -> NoDup ((map (fun u => (uid u, u)) us).*1).
Proof. intros H. change ((map (fun u => (uid u, u)) us).*1) with (map fst (map (fun u => (uid u, u)) us)). by rewrite map_fst_uid. Qed.

Lemma by_uid_lookup us id u : NoDup (map uid us) -> by_uid us !! id = Some u <-> u ∈ us /\ uid u = id.
Proof.
  intros Hnd. unfold by_uid. rewrite <- elem_of_list_to_map by (by apply NoDup_fst_uid). rewrite list_elem_of_fmap. naive_solver.
Qed.

Lemma by_uid_perm us vs : NoDup (map uid us) -> us ≡ₚ vs -> by_uid us = by_uid vs.
Proof. intros Hnd Hp. apply list_to_map_proper; [by apply NoDup_fst_uid | by rewrite Hp]. Qed.

Lemma find_uid_iff us id u : NoDup (map uid us) ->
  List.find (fun user => uid user =? id) us = Some u <-> u ∈ us /\ uid u = id.
Proof. apply find_key_Some. intros v. apply Z.eqb_eq. Qed.

Lemma find_uid_map db id : NoDup (map uid (users db)) -> find_uid db id = by_uid (users db) !! id.
Proof.
  intros Hnd. apply option_eq. intros u. rewrite by_uid_lookup by done. by apply find_uid_iff.
Qed.

Lemma find_uid_None us id : List.find (fun user => uid user =? id) us = None <-> id ∉ map uid us.
Proof. apply find_key_None. intros v. apply Z.eqb_eq. Qed.

Lemma find_name_None us nm : List.find (fun user => bool_decide (name user = nm)) us = None <-> nm ∉ map name us.
Proof. apply find_key_None. intros v. apply bool_decide_eq_true. Qed.

Lemma find_name_iff us nm u : NoDup (map name us) ->
  List.find (fun user => bool_decide (name user = nm)) us = Some u <-> u ∈ us /\ name u = nm.
Proof. apply find_key_Some. intros v. apply bool_decide_eq_true. Qed.

Lemma db_ok_perm us vs : us ≡ₚ vs -> db_ok us -> db_ok vs.
Proof.
  intros Hp [H1 H2 H3 H4 H5]. split; [by rewrite <- Hp | by rewrite <- Hp | | |].
  - by rewrite <- (Permutation_map name Hp).
  - by rewrite <- (Permutation_map uid Hp).
  - by rewrite <- (Permutation_map name Hp).
Qed.

(** ** Adding and removing *)

(** What lets an account be added. *)
Definition addable (us : list UserRecord) (u : UserRecord) : Prop :=
  user_ok u /\ Z.of_nat (List.length us) < MAX_USERS /\ (name u ∉ map name us) /\ (uid u ∉ map uid us).

Lemma db_ok_snoc us u : db_ok us -> addable us u -> db_ok (us ++ [u]).
Proof.
  intros [H1 H2 H3 H4 H5] (Hu & Hl & Hn & Hi). split.
  - rewrite length_app. cbn. lia.
  - apply Forall_app. split; [done | by apply Forall_singleton].
  - rewrite map_app. apply NoDup_app. split_and!; [done | set_solver | apply NoDup_singleton].
  - rewrite map_app. apply NoDup_app. split_and!; [done | set_solver | apply NoDup_singleton].
  - rewrite map_app. set_solver.
Qed.

Lemma UserDatabase_add_spec db u : db_ok (users db) ->
  UserDatabase_add db u = ({| users := sort_by_key uid (users db ++ [u]) |}, Ok tt) /\ addable (users db) u /\
    db_ok (sort_by_key uid (users db ++ [u])) /\
    by_uid (sort_by_key uid (users db ++ [u])) = <[uid u := u]> (by_uid (users db)) \/
  (exists e, UserDatabase_add db u = (db, Err e)) /\ ~ addable (users db) u.
Proof.
  intros Hdb. unfold UserDatabase_add, addable.
  destruct (UserRecord_validate_decides u) as [[-> Hu]|[[e ->] Hu]]; [|right; split; [eauto | tauto]].
  destruct (Z.leb_spec MAX_USERS (Z.of_nat (List.length (users db)))); [right; split; [eauto | lia] |].
  case_bool_decide as En; [right; split; [eauto |]; intros (_ & _ & Hn & _);
    apply find_name_None in Hn; unfold find_name in En; rewrite Hn in En; by destruct En |].
  apply eq_None_not_Some, find_name_None in En.
  case_bool_decide as Ei; [right; split; [eauto |]; intros (_ & _ & _ & Hi);
    apply find_uid_None in Hi; unfold find_uid in Ei; rewrite Hi in Ei; by destruct Ei |].
  apply eq_None_not_Some, find_uid_None in Ei. left. cbv zeta.
  assert (addable (users db) u) as Ha by done.
  assert (db_ok (sort_by_key uid (users db ++ [u]))) as Hok by (eapply db_ok_perm; [by rewrite sort_by_key_perm | by apply db_ok_snoc]).
  rewrite (proj2 (decides_Ok _ _ (UserDatabase_validate_decides {| users := sort_by_key uid (users db ++ [u]) |})) Hok).
  split_and!; try done. rewrite (by_uid_perm _ (u :: users db)); [done | apply Hok |].
  rewrite sort_by_key_perm. by rewrite Permutation_app_comm.
Qed.

Lemma db_ok_delete us i u : db_ok us -> us !! i = Some u -> name u <> text "root" ->
  db_ok (delete i us) /\ by_uid (delete i us) = delete (uid u) (by_uid us).
Proof.
  intros [H1 H2 H3 H4 H5] Hi Hr. pose proof (delete_Permutation us i u Hi) as Hp.
  assert (db_ok (delete i us)) as Hok.
  { rewrite Hp in H1, H2. rewrite (Permutation_map name Hp) in H3, H5. rewrite (Permutation_map uid Hp) in H4. cbn in *.
    apply Forall_cons in H2 as [_ H2]. apply NoDup_cons in H3 as [_ H3]. apply NoDup_cons in H4 as [_ H4].
    apply elem_of_cons in H5 as [H5|H5]; [congruence |]. split; try done. lia. }
  split; [done |]. rewrite (by_uid_perm us (u :: delete i us)) by done. cbn. rewrite delete_insert_id; [done |].
  apply not_elem_of_list_to_map. change (uid u ∉ map fst (map (fun u => (uid u, u)) (delete i us))). rewrite map_fst_uid.
  rewrite (Permutation_map uid Hp) in H4. by apply NoDup_cons in H4 as [? _].
Qed.

Lemma UserDatabase_remove_spec db nm : db_ok (users db) ->
  (exists db' u, UserDatabase_remove db nm = (db', Ok u) /\ name u = nm /\ nm <> text "root" /\ db_ok (users db') /\
     by_uid (users db) !! uid u = Some u /\ by_uid (users db') = delete (uid u) (by_uid (users db)) /\
     (sorted_by uid (users db) -> sorted_by uid (users db'))) \/
  (exists e, UserDatabase_remove db nm = (db, Err e) /\ (nm = text "root" \/ nm ∉ map name (users db))).
Proof.
  intros Hdb. unfold UserDatabase_remove. case_bool_decide as Er; [right; eauto |].
  destruct (list_find _ _) as [[i u]|] eqn:E.
  - apply list_find_Some in E as (Hi & Hn & _). left. exists {| users := delete i (users db) |}, u. subst nm.
    destruct (db_ok_delete _ _ _ Hdb Hi Er) as [H1 H2]. split_and!; try done.
    + apply by_uid_lookup; [apply Hdb |]. split; [by eapply list_elem_of_lookup_2 | done].
    + cbn. rewrite delete_take_drop. rewrite <- (take_drop_middle _ _ _ Hi) at 1. intros (H3 & H4 & H5)%StronglySorted_app.
      apply StronglySorted_cons in H5 as [_ H5]. apply StronglySorted_app. split_and!; [|done|done]. set_solver.
  - right. exists UserNotFound. split; [done |]. right. apply list_find_None in E. rewrite Forall_forall in E.
    intros (u & -> & Hu)%list_elem_of_fmap. by apply (E u).
Qed.

Inductive account_op : Type := Add (u : UserRecord) | Remove (nm : list Z).

Definition apply_op (db : UserDatabase) (op : account_op) : UserDatabase :=
  match op with Add u => fst (UserDatabase_add db u) | Remove nm => fst (UserDatabase_remove db nm) end.
Definition run_ops (db : UserDatabase) (ops : list account_op) : UserDatabase := fold_left apply_op ops db.

Lemma root_ok : db_ok (users with_root).
Proof. apply (decides_Ok _ _ (UserDatabase_validate_decides with_root)). vm_compute. reflexivity. Qed.

Definition accounts_ok (db : UserDatabase) : Prop := db_ok (users db) /\ sorted_by uid (users db).

Lemma apply_op_ok db op : accounts_ok db -> accounts_ok (apply_op db op).
Proof.
  intros [Hok Hs]. destruct op as [u|nm]; cbn.
  - destruct (UserDatabase_add_spec db u Hok) as [(-> & _ & H & _)|[[e ->] _]]; cbn; [|done]. split; [done |]. apply sort_by_key_sorted.
  - destruct (UserDatabase_remove_spec db nm Hok) as [(db' & u & -> & _ & _ & H & _ & _ & Hs')|(e & -> & _)]; cbn; [|done].
    split; auto.
Qed.

Lemma run_ops_ok ops : forall db, accounts_ok db -> accounts_ok (run_ops db ops).
Proof. induction ops as [|op ops IH]; intros db Hdb; [done |]. cbn. by apply IH, apply_op_ok. Qed.

(** C22: Accounts refine a finite map from user IDs to records.  After any history of additions and removals, failing ones
    included, the database is valid and sorted: one root, which cannot be removed, unique names and IDs.  [add]
    succeeds exactly if the record is valid, there is room and neither name nor ID is taken, and is then insertion;
    [remove] is deletion of the record with that name; an error leaves the database as it was; the lookups are those
    of the map. *)
Theorem accounts_refine_map ops (db := run_ops with_root ops) (m := by_uid (users db)) :
  accounts_ok db /\
  (forall id, find_uid db id = m !! id) /\
  (forall nm u, find_name db nm = Some u <-> m !! uid u = Some u /\ name u = nm) /\
  (forall u, match UserDatabase_add db u with
     | (db', Ok _) => addable (users db) u /\ by_uid (users db') = <[uid u := u]> m
     | (db', r) => r <> Panic /\ db' = db /\ ~ addable (users db) u
     end) /\
  (forall nm, match UserDatabase_remove db nm with
     | (db', Ok u) => name u = nm /\ nm <> text "root" /\ m !! uid u = Some u /\ by_uid (users db') = delete (uid u) m
     | (db', r) => r <> Panic /\ db' = db /\ (nm = text "root" \/ find_name db nm = None)
     end).
Proof.
  assert (accounts_ok db) as [Hok Hs] by (apply run_ops_ok; split; [apply root_ok | repeat constructor]). clearbody db.
  split; [done |]. split_and!.
  - intros id. apply find_uid_map, Hok.
  - intros nm u. unfold m, find_name. rewrite find_name_iff by apply Hok. rewrite by_uid_lookup by apply Hok. naive_solver.
  - intros u. destruct (UserDatabase_add_spec db u Hok) as [(-> & Ha & _ & Hm)|[[e ->] Ha]]; done.
  - intros nm. destruct (UserDatabase_remove_spec db nm Hok) as [(db' & u & -> & H)|(e & -> & Hr)]; [naive_solver |].
    split; [done |]. split; [done |]. destruct Hr; [by left | right]. by apply find_name_None.
Qed.

(** ** Changing a record *)

Lemma update_name_split us nm f :
  ((nm ∉ map name us) /\ update_name us nm f = us) \/
  (exists l u r, us = l ++ u :: r /\ name u = nm /\ update_name us nm f = l ++ f u :: r).
Proof.
  induction us as [|v us IH]; cbn; [left; split; [apply not_elem_of_nil | done] |]. case_bool_decide as E; [right; by exists [], v, us |].
  destruct IH as [[Hn ->]|(l & u & r & -> & Hu & ->)]; [left; split; [set_solver | done] | right; by exists (v :: l), u, r].
Qed.

Lemma by_uid_middle l u r : NoDup (map uid (l ++ u :: r)) -> by_uid (l ++ u :: r) = <[uid u := u]> (by_uid (l ++ r)).
Proof. intros Hnd. rewrite (by_uid_perm _ (u :: l ++ r)); [done | done |]. by rewrite Permutation_middle. Qed.

(** A caller that changes a record through [find_name_mut] into a valid one of the same name and ID keeps the database
    valid and sorted, and changes the map at that ID only. *)
Lemma find_name_mut_ok db nm f : accounts_ok db ->
  (forall u, name u = nm -> user_ok u -> user_ok (f u) /\ name (f u) = name u /\ uid (f u) = uid u) ->
  accounts_ok (find_name_mut db nm f) /\
  by_uid (users (find_name_mut db nm f)) =
    match find_name db nm with Some u => <[uid u := f u]> (by_uid (users db)) | None => by_uid (users db) end.
Proof.
  intros [[H1 H2 H3 H4 H5] H6] Hf. unfold find_name_mut, find_name, accounts_ok. cbn [users].
  destruct (update_name_split (users db) nm f) as [[Hn ->]|(l & u & r & E & Hu & ->)]; [by rewrite (proj2 (find_name_None _ _)) |].
  rewrite E in *. rewrite (proj2 (find_name_iff _ nm u H3)) by set_solver. pose proof H2 as [Hl [Hok Hr]%Forall_cons]%Forall_app.
  destruct (Hf u Hu Hok) as (F1 & F2 & F3).
  assert (map name (l ++ f u :: r) = map name (l ++ u :: r)) as En by (rewrite !map_app; cbn; by rewrite F2).
  assert (map uid (l ++ f u :: r) = map uid (l ++ u :: r)) as Ei by (rewrite !map_app; cbn; by rewrite F3).
  split_and!; [split; rewrite ?En, ?Ei; try done | |].
  - by rewrite length_app in *.
  - apply Forall_app. split; [done | by apply Forall_cons].
  - apply StronglySorted_app in H6 as (S1 & S2 & S3). apply StronglySorted_cons in S3 as [S3 S4]. apply StronglySorted_app. split_and!; [|done|].
    + intros x y Hx [->|Hy]%elem_of_cons; [rewrite F3; apply S1; [done | by left] | apply S1; [done | by right]].
    + apply StronglySorted_cons. split; [by rewrite F3 | done].
  - rewrite !by_uid_middle by (by rewrite ?Ei). by rewrite F3, insert_insert_eq.
Qed.

(** ** The next user ID *)

Lemma next_uid_loop_spec db fuel : forall c, 0 <= c -> c + Z.of_nat fuel <= U32_MAX + 1 ->
  (exists id, next_uid_loop fuel db c = Ok id /\ c <= id < c + Z.of_nat fuel /\ (id ∉ map uid (users db)) /\
     forall j, c <= j < id -> j ∈ map uid (users db)) \/
  ((forall j, c <= j < c + Z.of_nat fuel -> j ∈ map uid (users db))).
Proof.
  induction fuel as [|fuel IH]; intros c Hc Hm; [right; intros j Hj; lia |]. cbn [next_uid_loop]. unfold find_uid.
  destruct (List.find _ _) as [u|] eqn:E.
  - apply List.find_some in E as [Hu%list_elem_of_In Ec]. bool_cases.
    assert (c ∈ map uid (users db)) as Hin by (subst c; by apply list_elem_of_fmap_2).
    destruct (Z.leb_spec (c + 1) U32_MAX); cbn [ok_or].
    + destruct (IH (c + 1)) as [(id & H1 & H2 & H3 & H4)|H1]; [lia | lia | left | right].
      * exists id. split_and!; [done | lia | lia | done |]. intros j Hj. destruct (decide (j = c)) as [->|]; [done | apply H4; lia].
      * intros j Hj. destruct (decide (j = c)) as [->|]; [done | apply H1; lia].
    + right. intros j Hj. replace j with c by lia. done.
  - left. exists c. apply find_uid_None in E. split_and!; [done | lia | lia | done | lia].
Qed.

Lemma next_regular_uid_spec db : Z.of_nat (List.length (users db)) <= MAX_USERS ->
  exists id, next_regular_uid db = Ok id /\ FIRST_REGULAR_UID <= id <= FIRST_REGULAR_UID + Z.of_nat (List.length (users db)) /\
    (id ∉ map uid (users db)) /\ forall j, FIRST_REGULAR_UID <= j < id -> j ∈ map uid (users db).
Proof.
  intros Hl. unfold next_regular_uid. unfold MAX_USERS in Hl.
  destruct (next_uid_loop_spec db (S (List.length (users db))) FIRST_REGULAR_UID) as [(id & H1 & H2 & H3 & H4)|H];
    [unfold FIRST_REGULAR_UID; lia | unfold FIRST_REGULAR_UID, U32_MAX; lia | |].
  - exists id. split_and!; [done | lia | lia | done | done].
  - exfalso. assert (seqZ FIRST_REGULAR_UID (Z.of_nat (S (List.length (users db)))) ⊆+ map uid (users db)) as Hsub.
    { apply NoDup_submseteq; [apply NoDup_seqZ |]. intros j Hj%elem_of_seqZ. by apply H. }
    apply submseteq_length in Hsub. rewrite length_seqZ, length_map in Hsub. lia.
Qed.

(** ** Creating an account *)

Lemma name_byte_range b : name_byte b = true -> 45 <= b < 127 /\ b <> SLASH /\ b <> 46.
Proof.
  unfold name_byte, is_ascii_lowercase, is_ascii_digit, SLASH. intros H. repeat (apply orb_true_iff in H as [H|H]); bool_cases; lia.
Qed.

Lemma no_control s : Forall (fun b => 32 <= b < 127) s -> contains_control s = false.
Proof.
  induction 1 as [|b s Hb Hs IH]; [done |]. cbn. rewrite IH, (proj2 (Z.ltb_ge _ _)), (proj2 (Z.eqb_neq b 127)), (proj2 (Z.eqb_neq b 194)) by lia.
  done.
Qed.

Lemma regular_ok nm id group : name_ok nm -> nm <> text "root" -> id <> 0 -> user_ok (regular nm id group).
Proof.
  intros Hn Hr Hid. pose proof Hn as (_ & Hl & Hf). unfold MAX_NAME_BYTES in Hl.
  assert (Forall (fun b => 32 <= b < 127) nm) as Hp.
  { eapply Forall_impl; [exact Hf |]. intros b Hb%name_byte_range. lia. }
  assert (no_char SLASH nm) as Hs by (eapply Forall_impl; [exact Hf |]; intros b Hb%name_byte_range; cbn in *; tauto).
  split; cbn [name display_name home shell password_hash uid gid regular]; try done.
  - split; [unfold MAX_DISPLAY_NAME_BYTES; lia | by apply no_control].
  - split_and!; [by exists (text "home/" ++ nm) | split |].
    + unfold len, MAX_PATH_BYTES in *. rewrite length_app. cbn. lia.
    + apply no_control, Forall_app. split; [|done]. cbn. repeat (apply Forall_cons; split; [lia |]). constructor.
    + change (text "/home/" ++ nm) with (([] : list Z) ++ SLASH :: (text "home" ++ SLASH :: nm)).
      rewrite split_char_app by constructor. rewrite split_char_app by (cbn; repeat (apply Forall_cons; split; [done |]); constructor).
      rewrite split_char_single by done. apply Forall_cons. split; [done |]. apply Forall_cons. split; [done |]. apply Forall_singleton.
      unfold is_dots. assert (forall rest, nm <> 46 :: rest) as Hd.
      { intros rest ->. apply Forall_cons in Hf as [Hf _]. apply name_byte_range in Hf. lia. }
      rewrite !bool_decide_eq_false_2; [done | apply Hd | apply Hd].
  - vm_compute. split_and!; [by eexists | done | done | by repeat constructor].
Qed.

(** Creating an account, after any history: while there is room, [next_regular_uid] terminates with the smallest free ID
    from 1000 on, and adding a regular account of that ID under any valid name that is not taken succeeds; the
    new account is found by its name, and every other account is as before. *)
Theorem create_account ops nm (db := run_ops with_root ops)
    (Hroom : Z.of_nat (List.length (users db)) < MAX_USERS) (Hname : validate_name nm = Ok tt) (Hfree : find_name db nm = None) :
  exists id db', next_regular_uid db = Ok id /\ FIRST_REGULAR_UID <= id /\ find_uid db id = None /\
    (forall j, FIRST_REGULAR_UID <= j < id -> find_uid db j <> None) /\
    UserDatabase_add db (regular nm id id) = (db', Ok tt) /\
    find_name db' nm = Some (regular nm id id) /\
    (forall j, j <> id -> find_uid db' j = find_uid db j).
Proof.
  assert (accounts_ok db) as [Hok Hs] by (apply run_ops_ok; split; [apply root_ok | repeat constructor]). clearbody db.
  destruct (next_regular_uid_spec db) as (id & H1 & H2 & H3 & H4); [lia |].
  apply (decides_Ok _ _ (validate_name_decides nm)) in Hname. apply find_name_None in Hfree.
  assert (addable (users db) (regular nm id id)) as Ha.
  { split_and!; [|done..]. apply regular_ok; [done | | unfold FIRST_REGULAR_UID in *; lia]. intros ->. apply Hfree, Hok. }
  destruct (UserDatabase_add_spec db (regular nm id id) Hok) as [(E & _ & Hok' & Hm)|[_ Hn]]; [|done].
  exists id. eexists. split_and!; [done | lia | by apply find_uid_None | | exact E | |].
  - intros j Hj. specialize (H4 j Hj). intros Hn%find_uid_None. done.
  - unfold find_name. cbn [users]. apply find_name_iff; [apply Hok' |]. split; [|done]. rewrite sort_by_key_perm. set_solver.
  - intros j Hj. rewrite !find_uid_map by (apply Hok || apply Hok'). cbn [users]. rewrite Hm. by rewrite lookup_insert_ne.
Qed.

Definition demo_ops : list account_op :=
  [Add (regular (text "alice") 1000 1000); Add (regular (text "bob") 1002 1002); Remove (text "root"); Remove (text "bob")].

Lemma create_account_witness :
  exists db', next_regular_uid (run_ops with_root demo_ops) = Ok 1001 /\
    UserDatabase_add (run_ops with_root demo_ops) (regular (text "carol") 1001 1001) = (db', Ok tt) /\
    find_name db' (text "carol") = Some (regular (text "carol") 1001 1001).
Proof.
  destruct (create_account demo_ops (text "carol") ltac:(vm_compute; reflexivity) ltac:(vm_compute; reflexivity)
    ltac:(vm_compute; reflexivity)) as (id & db' & H1 & _ & _ & _ & H2 & H3 & _).
  assert (id = 1001) as -> by (vm_compute in H1; congruence). exists db'. auto.
Defined.
