(* ===== verification/Groups.v ===== *)
(** * The group database ([user-database/src/groups.rs])

    Groups have a line of text each: number, name and members.  A database is sorted by group ID; private groups of
    accounts are provisioned from the account database. *)

From stdpp Require Import gmap.
From Stdlib Require Import String.
From S2P Require Import Prelude Text Users Accounts.

(** ** The code *)

Definition MAX_MEMBERS : nat := 64.
Definition MAX_BYTES : Z := 1024 * 1024.
Definition MAX_GROUPS : Z := 4096.
Definition COMMA : Z := 44.
Definition GROUP_HEADER : list Z := text "MGRPDB" ++ [TAB] ++ text "1".

Record Group : Type := { grp_gid : Z; grp_name : list Z; members : list (list Z) }.
#[export] Instance Group_eq_dec : EqDecision Group.
Proof. solve_decision. Defined.

Inductive GroupError : Type := Invalid | TooLarge | Duplicate.

Record GroupDatabase : Type := { groups : list Group }.

(** [validate_name(..).map_err(|_| Error::Invalid)]. *)
Definition group_name (s : list Z) : result GroupError unit :=
  match validate_name s with Ok _ => Ok tt | Err _ => Err Invalid | Panic => Panic end.

(** The loop over the members; [previous] is [self.members[..index]]. *)
Fixpoint check_members (previous rest : list (list Z)) : result GroupError unit :=
  match rest with
  | [] => Ok tt
  | member :: rest =>
      let? _ := group_name member in
      if bool_decide (member ∈ previous) then Err Duplicate else check_members (previous ++ [member]) rest
  end.

Definition Group_validate (self : Group) : result GroupError unit :=
  let? _ := group_name (grp_name self) in
  if (MAX_MEMBERS <? List.length (members self))%nat then Err TooLarge else
  check_members [] (members self).

Definition find_gid (self : GroupDatabase) (id : Z) : option Group := List.find (fun group => grp_gid group =? id) (groups self).
Definition find_group_name (self : GroupDatabase) (nm : list Z) : option Group :=
  List.find (fun group => bool_decide (grp_name group = nm)) (groups self).

Definition GroupDatabase_add (self : GroupDatabase) (group : Group) : GroupDatabase * result GroupError unit :=
  match Group_validate group with
  | Ok _ =>
      if MAX_GROUPS <=? Z.of_nat (List.length (groups self)) then (self, Err TooLarge) else
      if bool_decide (is_Some (find_gid self (grp_gid group))) || bool_decide (is_Some (find_group_name self (grp_name group)))
      then (self, Err Duplicate) else
      ({| groups := sort_by_key grp_gid (groups self ++ [group]) |}, Ok tt)
  | Err e => (self, Err e)
  | Panic => (self, Panic)
  end.

Definition private (user : UserRecord) : Group := {| grp_gid := gid user; grp_name := name user; members := [] |}.

Definition ensure_private (self : GroupDatabase) (user : UserRecord) : GroupDatabase * result GroupError bool :=
  if negb (uid user =? gid user) || bool_decide (is_Some (find_gid self (gid user))) then (self, Ok false) else
  match GroupDatabase_add self (private user) with
  | (self, Ok _) => (self, Ok true)
  | (self, Err e) => (self, Err e)
  | (self, Panic) => (self, Panic)
  end.

Fixpoint provision_loop (us : list UserRecord) (database : GroupDatabase) : result GroupError GroupDatabase :=
  match us with
  | [] => Ok database
  | user :: us =>
      match ensure_private database user with
      | (database, Ok _) => provision_loop us database
      | (_, Err e) => Err e
      | (_, Panic) => Panic
      end
  end.
Definition provision (db : UserDatabase) : result GroupError GroupDatabase :=
  provision_loop (List.filter (fun user => uid user =? gid user) (users db)) {| groups := [] |}.

(** The loop over the members of a line. *)
Fixpoint parse_members (ms names : list (list Z)) : result GroupError (list (list Z)) :=
  match ms with
  | [] => Ok names
  | member :: ms =>
      if (List.length names =? MAX_MEMBERS)%nat then Err TooLarge else
      let? _ := group_name member in
      parse_members ms (names ++ [member])
  end.

Definition parse_group (line : list Z) : result GroupError Group :=
  match split_char TAB line with
  | id :: fs =>
      if bool_decide (id = []) || negb (forallb is_ascii_digit id) then Err Invalid else
      let? gid := ok_or (parse_u32 id) Invalid in
      match fs with
      | [nm; ms] =>
          let? names := (if bool_decide (ms = []) then Ok [] else parse_members (split_char COMMA ms) []) in
          Ok {| grp_gid := gid; grp_name := nm; members := names |}
      | _ => Err Invalid
      end
  | [] => Err Invalid
  end.

Fixpoint parse_groups (ls : list (list Z)) (database : GroupDatabase) : result GroupError GroupDatabase :=
  match ls with
  | [] => Ok database
  | line :: ls =>
      if bool_decide (line = []) then parse_groups ls database else
      let? group := parse_group line in
      match GroupDatabase_add database group with
      | (database, Ok _) => parse_groups ls database
      | (_, Err e) => Err e
      | (_, Panic) => Panic
      end
  end.

Definition GroupDatabase_parse (bytes : list Z) : result GroupError GroupDatabase :=
  if MAX_BYTES <? len bytes then Err TooLarge else
  if negb (from_utf8 bytes) then Err Invalid else
  match lines bytes with
  | header :: ls => if negb (bool_decide (header = GROUP_HEADER)) then Err Invalid else parse_groups ls {| groups := [] |}
  | [] => Err Invalid
  end.

(** [first] is [index == 0]. *)
Fixpoint encode_members (first : bool) (ms : list (list Z)) (output : list Z) : list Z :=
  match ms with
  | [] => output
  | member :: ms => encode_members false ms ((if first then output else output ++ [COMMA]) ++ member)
  end.

Fixpoint encode_groups (gs : list Group) (output : list Z) : result GroupError (list Z) :=
  match gs with
  | [] => Ok output
  | group :: gs =>
      let? _ := Group_validate group in
      let output := output ++ to_string (grp_gid group) ++ [TAB] ++ grp_name group ++ [TAB] in
      let output := encode_members true (members group) output ++ [LF] in
      if MAX_BYTES <? len output then Err TooLarge else encode_groups gs output
  end.

Definition GroupDatabase_encode (self : GroupDatabase) : result GroupError (list Z) :=
  if MAX_GROUPS <? Z.of_nat (List.length (groups self)) then Err TooLarge else
  encode_groups (groups self) (GROUP_HEADER ++ [LF]).

(** ** Well-formed groups *)

Record group_ok (g : Group) : Prop := {
  go_name : name_ok (grp_name g);
  go_count : (List.length (members g) <= MAX_MEMBERS)%nat;
  go_members : Forall name_ok (members g);
  go_distinct : NoDup (members g) }.

Record groups_ok (gs : list Group) : Prop := {
  gs_size : Z.of_nat (List.length gs) <= MAX_GROUPS;
  gs_groups : Forall group_ok gs;
  gs_gids : NoDup (map grp_gid gs);
  gs_names : NoDup (map grp_name gs);
  gs_sorted : sorted_by grp_gid gs }.

Lemma group_name_decides s : decides (group_name s) (name_ok s).
Proof.
  unfold group_name, decides. destruct (validate_name_decides s) as [[-> H]|[[e ->] H]]; [left; auto | right; split; [eauto | done]].
Qed.

Lemma check_members_decides rest : forall previous, NoDup previous ->
  decides (check_members previous rest) (Forall name_ok rest /\ NoDup (previous ++ rest)).
Proof.
  induction rest as [|m rest IH]; intros previous Hp; cbn [check_members].
  { left. rewrite app_nil_r. auto. }
  replace (previous ++ m :: rest) with ((previous ++ [m]) ++ rest) by (by rewrite <- app_assoc).
  eapply decides_iff with (P := name_ok m /\ (Forall name_ok rest /\ NoDup ((previous ++ [m]) ++ rest)));
    [rewrite Forall_cons; tauto |]. apply decides_bind; [apply group_name_decides |]. intros Hm. apply decides_if.
  - intros E [_ H]. bool_cases. apply NoDup_app in H as (H & _ & _). apply NoDup_app in H as (_ & H & _). by apply (H m); [|left].
  - intros E. bool_cases. apply IH. apply NoDup_app. split_and!; [done | set_solver | apply NoDup_singleton].
Qed.

Lemma Group_validate_decides g : decides (Group_validate g) (group_ok g).
Proof.
  eapply decides_iff with (P := name_ok (grp_name g) /\ (List.length (members g) <= MAX_MEMBERS)%nat /\
    Forall name_ok (members g) /\ NoDup (members g)); [split; [by intros (? & ? & ? & ?) | by intros []] |].
  unfold Group_validate. apply decides_bind; [apply group_name_decides |]. intros _. apply decides_if; [intros E []; bool_cases; lia |].
  intros E. bool_cases. eapply decides_iff; [|by apply check_members_decides, NoDup_nil_2]. cbn. tauto.
Qed.

(** ** Adding a group *)

Definition group_addable (gs : list Group) (g : Group) : Prop :=
  group_ok g /\ Z.of_nat (List.length gs) < MAX_GROUPS /\ (grp_gid g ∉ map grp_gid gs) /\ (grp_name g ∉ map grp_name gs).

Lemma find_gid_None gs id : List.find (fun g => grp_gid g =? id) gs = None <-> id ∉ map grp_gid gs.
Proof. apply find_key_None. intros g. apply Z.eqb_eq. Qed.

Lemma find_group_name_None gs nm : List.find (fun g => bool_decide (grp_name g = nm)) gs = None <-> nm ∉ map grp_name gs.
Proof. apply find_key_None. intros g. apply bool_decide_eq_true. Qed.

Lemma groups_ok_insert gs g : groups_ok gs -> group_addable gs g -> groups_ok (sort_by_key grp_gid (gs ++ [g])).
Proof.
  intros [H1 H2 H3 H4 H5] (Hg & Hl & Hi & Hn). assert (sort_by_key grp_gid (gs ++ [g]) ≡ₚ gs ++ [g]) as Hp by apply sort_by_key_perm.
  split; [rewrite Hp, length_app; cbn; lia | rewrite Hp; apply Forall_app; split; [done | by apply Forall_singleton] | | | apply sort_by_key_sorted].
  - rewrite (Permutation_map grp_gid Hp), map_app. apply NoDup_app. split_and!; [done | set_solver | apply NoDup_singleton].
  - rewrite (Permutation_map grp_name Hp), map_app. apply NoDup_app. split_and!; [done | set_solver | apply NoDup_singleton].
Qed.

Lemma GroupDatabase_add_spec db g :
  GroupDatabase_add db g = ({| groups := sort_by_key grp_gid (groups db ++ [g]) |}, Ok tt) /\ group_addable (groups db) g \/
  (exists e, GroupDatabase_add db g = (db, Err e)) /\ ~ group_addable (groups db) g.
Proof.
  unfold GroupDatabase_add, group_addable. destruct (Group_validate_decides g) as [[-> Hg]|[[e ->] Hg]]; [|right; split; [eauto | tauto]].
  destruct (Z.leb_spec MAX_GROUPS (Z.of_nat (List.length (groups db)))); [right; split; [eauto | lia] |].
  unfold find_gid, find_group_name. pose proof (find_gid_None (groups db) (grp_gid g)) as Hi.
  pose proof (find_group_name_None (groups db) (grp_name g)) as Hn.
  destruct (List.find (fun g0 => grp_gid g0 =? grp_gid g) (groups db));
    [rewrite bool_decide_eq_true_2 by done; right; split; [eauto |]; intros (_ & _ & H' & _); by apply Hi in H' |].
  rewrite (bool_decide_eq_false_2 (is_Some None)) by apply is_Some_None. cbn [orb].
  destruct (List.find (fun g0 => bool_decide (grp_name g0 = grp_name g)) (groups db));
    [rewrite bool_decide_eq_true_2 by done; right; split; [eauto |]; intros (_ & _ & _ & H'); by apply Hn in H' |].
  rewrite bool_decide_eq_false_2 by apply is_Some_None. left. split; [done |]. split_and!; [done | lia | by apply Hi | by apply Hn].
Qed.

(** ** Lines *)

Definition group_line (g : Group) : list Z :=
  join_char TAB [to_string (grp_gid g); grp_name g; join_char COMMA (members g)].

Lemma encode_members_ok ms : forall output,
  encode_members true ms output = output ++ join_char COMMA ms /\
  encode_members false ms output = output ++ concat (map (fun m => COMMA :: m) ms).
Proof.
  assert (forall ms output, encode_members false ms output = output ++ concat (map (fun m => COMMA :: m) ms)) as Hf.
  { clear ms. induction ms as [|m ms IH]; intros output; cbn; [by rewrite app_nil_r |]. rewrite IH. by rewrite <- !app_assoc. }
  intros output. split; [|apply Hf]. destruct ms as [|m ms]; cbn [encode_members]; [cbn; by rewrite app_nil_r |]. rewrite Hf, <- app_assoc.
  f_equal. revert m. induction ms as [|m' ms IH]; intros m; [cbn; by rewrite app_nil_r |]. rewrite join_cons by done. rewrite <- IH. done.
Qed.

Lemma encode_group_line g output :
  encode_members true (members g) (output ++ to_string (grp_gid g) ++ [TAB] ++ grp_name g ++ [TAB]) ++ [LF] =
  output ++ group_line g ++ [LF].
Proof.
  rewrite (proj1 (encode_members_ok _ _)). unfold group_line. rewrite !join_cons by done. cbn [join_char].
  repeat (rewrite <- !app_assoc; cbn [app]). done.
Qed.

Lemma name_bytes_graphic s : name_ok s -> Forall graphic s /\ no_char COMMA s /\ s <> [].
Proof.
  intros ((c & rest & -> & _) & _ & Hf). split_and!; [| | done]; (eapply Forall_impl; [exact Hf |]); intros b Hb%name_byte_range;
    unfold graphic, COMMA; lia.
Qed.

Lemma members_graphic ms : Forall name_ok ms -> Forall graphic (join_char COMMA ms).
Proof.
  intros Hm. apply join_chars; [unfold graphic, COMMA; lia |]. eapply Forall_impl; [exact Hm |]. intros s Hs. by apply name_bytes_graphic.
Qed.

Lemma parse_members_ok ms : Forall name_ok ms -> forall names, (List.length (names ++ ms) <= MAX_MEMBERS)%nat ->
  parse_members ms names = Ok (names ++ ms).
Proof.
  induction 1 as [|m ms Hm Hms IH]; intros names Hl; [cbn; by rewrite app_nil_r |]. cbn [parse_members].
  rewrite length_app in Hl. cbn in Hl. rewrite (proj2 (Nat.eqb_neq _ _)) by lia.
  rewrite (proj2 (decides_Ok _ _ (group_name_decides m)) Hm). rewrite IH; [by rewrite <- app_assoc |].
  rewrite !length_app. cbn. lia.
Qed.

Lemma group_fields g : is_u32 (grp_gid g) -> group_ok g ->
  Forall (Forall graphic) [to_string (grp_gid g); grp_name g; join_char COMMA (members g)].
Proof.
  intros Hi Hg. repeat (apply Forall_cons; split; [|]); [by apply number_field | by apply name_bytes_graphic, Hg | by apply members_graphic, Hg | constructor].
Qed.

Lemma members_text ms : Forall name_ok ms -> (List.length ms <= MAX_MEMBERS)%nat ->
  (if bool_decide (join_char COMMA ms = []) then Ok [] else parse_members (split_char COMMA (join_char COMMA ms)) []) = Ok ms.
Proof.
  intros Hm Hl. destruct ms as [|m ms]; [done |]. pose proof Hm as [Hm1 _]%Forall_cons. apply name_bytes_graphic in Hm1 as (_ & _ & Hne).
  rewrite bool_decide_eq_false_2.
  - rewrite split_join; [by apply (parse_members_ok (m :: ms)) | done |]. eapply Forall_impl; [exact Hm |]. intros s Hs. by apply name_bytes_graphic.
  - destruct ms; [done |]. rewrite join_cons by done. by destruct m.
Qed.

Lemma parse_group_line g : is_u32 (grp_gid g) -> group_ok g -> parse_group (group_line g) = Ok g.
Proof.
  intros Hi Hg. unfold parse_group, group_line. rewrite split_join;
    [|done | eapply Forall_impl; [by apply group_fields |]; intros s; by apply graphic_no_char].
  destruct (to_string_parse (grp_gid g) U32_MAX) as (H1 & H2 & H3); [widths; lia | widths; lia |].
  rewrite bool_decide_eq_false_2 by done. rewrite (proj2 (forallb_forall _ _)) by (intros c Hc%list_elem_of_In; rewrite Forall_forall in H2; auto).
  cbn [negb orb]. unfold parse_u32. rewrite H3. cbn [ok_or]. rewrite members_text by apply Hg. by destruct g.
Qed.

Definition groups_text (gs : list Group) : list Z := unlines (GROUP_HEADER :: map group_line gs).

Lemma encode_groups_ok gs : forall output, len output <= MAX_BYTES ->
  let text := output ++ unlines (map group_line gs) in
  (encode_groups gs output = Ok text /\ Forall group_ok gs /\ len text <= MAX_BYTES) \/
  (exists e, encode_groups gs output = Err e) /\ ~ (Forall group_ok gs /\ len text <= MAX_BYTES).
Proof.
  unfold unlines. induction gs as [|g gs IH]; intros output Hl; cbn [encode_groups map concat]; [left; rewrite app_nil_r; auto |].
  destruct (Group_validate_decides g) as [[-> Hg]|[[e ->] Hg]]; [|right; split; [eauto |]; by intros [[? _]%Forall_cons _]].
  cbv zeta. rewrite encode_group_line. destruct (Z.ltb_spec MAX_BYTES (len (output ++ group_line g ++ [LF]))) as [Hlt|Hle].
  - right. split; [eauto |]. intros [_ H]. unfold len in *. rewrite !length_app in *. lia.
  - destruct (IH _ Hle) as [(-> & H1 & H2)|[[e ->] H]].
    + left. rewrite !app_assoc in *. split_and!; [done | by constructor | done].
    + right. split; [eauto |]. rewrite !app_assoc in *. intros [[_ ?]%Forall_cons ?]. by apply H.
Qed.

Lemma GroupDatabase_encode_spec db : 
  (GroupDatabase_encode db = Ok (groups_text (groups db)) /\ Z.of_nat (List.length (groups db)) <= MAX_GROUPS /\
     Forall group_ok (groups db) /\ len (groups_text (groups db)) <= MAX_BYTES) \/
  (exists e, GroupDatabase_encode db = Err e) /\
    ~ (Z.of_nat (List.length (groups db)) <= MAX_GROUPS /\ Forall group_ok (groups db) /\ len (groups_text (groups db)) <= MAX_BYTES).
Proof.
  unfold GroupDatabase_encode. destruct (Z.ltb_spec MAX_GROUPS (Z.of_nat (List.length (groups db)))); [right; split; [eauto | lia] |].
  destruct (encode_groups_ok (groups db) (GROUP_HEADER ++ [LF])) as [(H1 & H2 & H3)|[[e ->] H1]]; [vm_compute; done | |].
  - left. rewrite H1. split_and!; [done | lia | done | done].
  - right. split; [eauto |]. intros (_ & H2 & H3). by apply H1.
Qed.

Lemma groups_chars gs : Forall (fun g => is_u32 (grp_gid g)) gs -> Forall group_ok gs ->
  Forall (Forall line_char) (GROUP_HEADER :: map group_line gs).
Proof.
  intros Ht Hg. constructor.
  - repeat (apply Forall_cons; split; [first [by right | left; unfold graphic; cbn; lia] |]). constructor.
  - apply Forall_map, Forall_forall. intros g Hin. rewrite Forall_forall in Ht, Hg. apply join_chars; [by right |].
    eapply Forall_impl; [apply group_fields; auto |]. intros s Hs. eapply Forall_impl; [exact Hs |]. by left.
Qed.

Lemma group_line_nonempty g : group_line g <> [].
Proof. unfold group_line. rewrite !join_cons by done. intros E%(f_equal (@List.length Z)). rewrite length_app in E. cbn in E. lia. Qed.

(** Reading the lines of a sorted database adds them in order. *)
Lemma parse_groups_ok gs : Forall (fun g => is_u32 (grp_gid g)) gs -> forall previous, groups_ok (previous ++ gs) ->
  parse_groups (map group_line gs) {| groups := previous |} = Ok {| groups := previous ++ gs |}.
Proof.
  induction 1 as [|g gs Hi Hgs IH]; intros previous Hok; [cbn; by rewrite app_nil_r |]. cbn [map parse_groups].
  rewrite bool_decide_eq_false_2 by apply group_line_nonempty. pose proof Hok as [H1 H2 H3 H4 H5].
  apply Forall_app in H2 as [_ [Hg _]%Forall_cons]. rewrite parse_group_line by done.
  rewrite !map_app in H3, H4. cbn in H3, H4. rewrite length_app in H1. cbn in H1.
  destruct (GroupDatabase_add_spec {| groups := previous |} g) as [[-> _]|[_ Hn]]; cbn [groups] in *.
  - rewrite sort_by_key_id; [|].
    + rewrite IH; [by rewrite <- app_assoc | by rewrite <- app_assoc].
    + change (g :: gs) with ([g] ++ gs) in H5. rewrite app_assoc in H5. by apply StronglySorted_app in H5 as (_ & ? & _).
  - exfalso. apply Hn. split_and!; [done | lia | |]; [apply NoDup_app in H3 as (_ & H & _) | apply NoDup_app in H4 as (_ & H & _)];
      intros Hin; by apply (H _ Hin); left.
Qed.

Lemma parse_members_no_panic ms : forall names, parse_members ms names <> Panic.
Proof.
  induction ms as [|m ms IH]; intros names; cbn; [done |]. destruct (_ =? _)%nat; [done |].
  destruct (group_name_decides m) as [[-> _]|[[e ->] _]]; [apply IH | done].
Qed.

Lemma parse_group_sound line : parse_group line <> Panic /\ forall g, parse_group line = Ok g -> is_u32 (grp_gid g).
Proof.
  unfold parse_group. destruct (split_char TAB line) as [|id fs]; [done |]. destruct (_ || _); [done |].
  destruct (parse_u32 id) as [z|] eqn:E; cbn [ok_or]; [|done]. destruct fs as [|nm [|ms [|]]]; try done.
  pose proof (parse_members_no_panic (split_char COMMA ms) []) as Hnp.
  apply from_str_radix_range in E; [|lia | unfold U32_MAX; lia].
  case_bool_decide; [split; [done |]; intros g [= <-]; cbn; widths; lia |].
  destruct (parse_members _ _); [|done|done]. split; [done |]. intros g [= <-]. cbn. widths. lia.
Qed.

Lemma parse_groups_sound ls : forall db, groups_ok (groups db) -> Forall (fun g => is_u32 (grp_gid g)) (groups db) ->
  parse_groups ls db <> Panic /\
  forall db', parse_groups ls db = Ok db' -> groups_ok (groups db') /\ Forall (fun g => is_u32 (grp_gid g)) (groups db').
Proof.
  induction ls as [|line ls IH]; intros db Hok Ht; cbn [parse_groups]; [split; [done |]; by intros db' [= <-] |].
  case_bool_decide; [by apply IH |]. destruct (parse_group_sound line) as [Hnp Hg].
  destruct (parse_group line) as [g| |]; [|done|done]. specialize (Hg g eq_refl).
  destruct (GroupDatabase_add_spec db g) as [[-> Ha]|[[e ->] _]]; [|done]. apply IH; cbn [groups].
  - by apply groups_ok_insert.
  - rewrite sort_by_key_perm. apply Forall_app. split; [done | by apply Forall_singleton].
Qed.

Lemma no_groups_ok : groups_ok [].
Proof. split; try constructor. done. Qed.

(** The group file.  Reading what was encoded gives the same database; encoding fails only for an invalid group or a
    text over the limit.  Reading never panics, and what it accepts is sorted, with no group ID, name or member
    twice and valid names throughout. *)
Theorem group_database_roundtrip :
  (forall db, groups_ok (groups db) -> Forall (fun g => is_u32 (grp_gid g)) (groups db) ->
     (forall b, GroupDatabase_encode db = Ok b -> GroupDatabase_parse b = Ok db) /\
     ((exists b, GroupDatabase_encode db = Ok b) <-> len (groups_text (groups db)) <= MAX_BYTES)) /\
  (forall b, GroupDatabase_parse b <> Panic /\
     forall db, GroupDatabase_parse b = Ok db -> groups_ok (groups db) /\ Forall (fun g => is_u32 (grp_gid g)) (groups db)).
Proof.
  split.
  - intros [gs] Hok Ht. cbn [groups] in *. pose proof Hok as [H1 H2 _ _ _].
    destruct (GroupDatabase_encode_spec {| groups := gs |}) as [(-> & _ & _ & Hl)|[[e ->] Hn]]; cbn [groups] in *; [|naive_solver].
    split; [|naive_solver]. intros b [= <-]. unfold GroupDatabase_parse. rewrite (proj2 (Z.ltb_ge _ _)) by done.
    destruct (text_lines _ (groups_chars gs Ht H2)) as [E1 E2]. fold (groups_text gs) in E1, E2. rewrite E1, E2. cbn [negb].
    rewrite bool_decide_eq_true_2 by done. cbn [negb]. by apply (parse_groups_ok gs Ht []).
  - intros b. unfold GroupDatabase_parse. destruct (_ <? _); [done |]. destruct (negb _); [done |].
    destruct (lines b) as [|h ls]; [done |]. destruct (negb _); [done |].
    by apply (parse_groups_sound ls {| groups := [] |} no_groups_ok).
Qed.

(** ** Provisioning *)

Lemma NoDup_map_filter {A B} (f : A -> B) (p : A -> bool) l : NoDup (map f l) -> NoDup (map f (List.filter p l)).
Proof.
  induction l as [|x l IH]; [done |]. cbn. intros [Hx Hl]%NoDup_cons. destruct (p x); [|auto]. cbn. apply NoDup_cons. split; [|auto].
  intros (y & E & [Hy _]%list_elem_of_In%filter_In)%list_elem_of_fmap. apply Hx. rewrite E. by apply list_elem_of_fmap_2, list_elem_of_In.
Qed.

Record privates (us : list UserRecord) : Prop := {
  pv_users : Forall (fun u => user_ok u /\ uid u = gid u) us;
  pv_uids : NoDup (map uid us);
  pv_names : NoDup (map name us);
  pv_size : Z.of_nat (List.length us) <= MAX_GROUPS }.

Lemma private_ids us : Forall (fun u => user_ok u /\ uid u = gid u) us -> map grp_gid (map private us) = map uid us.
Proof. induction 1 as [|u us [_ Hu] Hus IH]; [done |]. cbn. by rewrite IH, Hu. Qed.

Lemma private_names us : map grp_name (map private us) = map name us.
Proof. by rewrite map_map. Qed.

Lemma ensure_private_ok provisioned gs u us : gs ≡ₚ map private provisioned -> privates (provisioned ++ u :: us) -> groups_ok gs ->
  exists gs', ensure_private {| groups := gs |} u = ({| groups := gs' |}, Ok true) /\
    gs' ≡ₚ map private (provisioned ++ [u]) /\ groups_ok gs'.
Proof.
  intros Hp [H1 H2 H3 H4] Hok. apply Forall_app in H1 as [Hd [[Hu E] _]%Forall_cons]. rewrite map_app in H2, H3. cbn in H2, H3.
  apply NoDup_app in H2 as (_ & H2 & _). apply NoDup_app in H3 as (_ & H3 & _). rewrite length_app in H4. cbn in H4.
  assert (group_addable gs (private u)) as Ha.
  { split_and!.
    - split; cbn; [apply Hu | lia | constructor | apply NoDup_nil_2].
    - rewrite Hp, length_map. lia.
    - rewrite (Permutation_map grp_gid Hp), private_ids by done. cbn. rewrite <- E. intros Hin. by apply (H2 _ Hin); left.
    - rewrite (Permutation_map grp_name Hp), private_names. cbn. intros Hin. by apply (H3 _ Hin); left. }
  unfold ensure_private. rewrite E, Z.eqb_refl. cbn [negb orb].
  rewrite bool_decide_eq_false_2; [|by apply eq_None_not_Some, find_gid_None; apply Ha].
  destruct (GroupDatabase_add_spec {| groups := gs |} (private u)) as [[-> _]|[_ Hn]]; [|done]. cbn [groups].
  eexists. split; [done |]. split; [|by apply groups_ok_insert]. rewrite sort_by_key_perm, Hp, map_app. done.
Qed.

Lemma provision_loop_ok us : forall provisioned gs, gs ≡ₚ map private provisioned -> privates (provisioned ++ us) -> groups_ok gs ->
  exists g, provision_loop us {| groups := gs |} = Ok g /\ groups g ≡ₚ map private (provisioned ++ us) /\ groups_ok (groups g).
Proof.
  induction us as [|u us IH]; intros provisioned gs Hp Hpv Hok; cbn [provision_loop]; [eexists; split; [done |]; by rewrite app_nil_r |].
  destruct (ensure_private_ok provisioned gs u us Hp Hpv Hok) as (gs' & -> & Hp' & Hok').
  destruct (IH (provisioned ++ [u]) gs' Hp') as (g & H1 & H2 & H3); [by rewrite <- app_assoc | done |].
  exists g. split; [done |]. split; [by rewrite <- app_assoc in H2 | done].
Qed.

Lemma privates_of us : db_ok us -> privates (List.filter (fun u => uid u =? gid u) us).
Proof.
  intros [H1 H2 H3 H4 _]. split; [| by apply NoDup_map_filter | by apply NoDup_map_filter |].
  - apply Forall_forall. intros u [Hu E]%list_elem_of_In%filter_In. rewrite Forall_forall in H2.
    bool_cases. split; [|done]. by apply H2, list_elem_of_In.
  - pose proof (List.filter_length_le (fun u => uid u =? gid u) us). unfold MAX_USERS, MAX_GROUPS in *. lia.
Qed.

(** First-time provisioning of a valid account database always succeeds, with a valid group database: exactly the accounts
    whose group ID is their user ID get a group, with their name and no further members; afterwards no account
    needs a private group. *)
Theorem provision_private_groups db (Hvalid : UserDatabase_validate db = Ok tt) :
  exists g, provision db = Ok g /\ groups_ok (groups g) /\
    (forall id grp, find_gid g id = Some grp <->
       exists u, find_uid db id = Some u /\ gid u = id /\ grp = {| grp_gid := id; grp_name := name u; members := [] |}) /\
    (forall u, u ∈ users db -> ensure_private g u = (g, Ok false)).
Proof.
  apply (decides_Ok _ _ (UserDatabase_validate_decides db)) in Hvalid as Hok. pose proof (privates_of _ Hok) as Hpv.
  destruct (provision_loop_ok _ [] [] (Permutation_refl _) Hpv no_groups_ok) as (g & H1 & H2 & H3). cbn [app] in H2.
  assert (forall u, u ∈ List.filter (fun u => uid u =? gid u) (users db) <-> u ∈ users db /\ uid u = gid u) as Hin.
  { intros u. rewrite <- Z.eqb_eq. rewrite !list_elem_of_In. apply filter_In. }
  exists g. split_and!; [done | done | |].
  - intros id grp. unfold find_gid. rewrite (find_key_Some grp_gid); [|intros x; apply Z.eqb_eq | apply H3].
    rewrite H2, list_elem_of_fmap. unfold find_uid. setoid_rewrite find_uid_iff; [|apply Hok]. setoid_rewrite Hin. split.
    + intros [(u & -> & Hu & E) <-]. exists u. cbn. split_and!; done.
    + intros (u & [Hu <-] & E & ->). split; [|done]. exists u. unfold private. by rewrite E.
  - intros u Hu. unfold ensure_private. destruct (Z.eqb_spec (uid u) (gid u)) as [E|]; [|done]. cbn [negb orb].
    rewrite bool_decide_eq_true_2; [done |]. destruct (find_gid g (gid u)) as [x|] eqn:En; [done |]. exfalso.
    apply find_gid_None in En. apply En. rewrite (Permutation_map grp_gid H2), private_ids by apply Hpv. rewrite <- E.
    apply list_elem_of_fmap_2. by apply Hin.
Qed.

Definition demo_accounts : UserDatabase := run_ops with_root [Add (regular (text "bob") 1001 100); Add (regular (text "alice") 1000 1000)].

Lemma provision_private_groups_witness :
  exists g, provision demo_accounts = Ok g /\ find_gid g 1000 = Some {| grp_gid := 1000; grp_name := text "alice"; members := [] |} /\
    find_gid g 100 = None /\ find_gid g 1001 = None.
Proof.
  destruct (provision_private_groups demo_accounts ltac:(vm_compute; reflexivity)) as (g & H1 & _ & H2 & _). exists g.
  split; [exact H1 |]. split; [apply H2; eexists; split_and!; vm_compute; reflexivity |].
  vm_compute in H1. injection H1 as <-. split; reflexivity.
Defined.

Definition demo_groups : GroupDatabase :=
  {| groups := [{| grp_gid := 0; grp_name := text "root"; members := [] |};
                {| grp_gid := 100; grp_name := text "users"; members := [text "alice"; text "bob"] |}] |}.

Lemma group_database_roundtrip_witness :
  groups_ok (groups demo_groups) /\ exists b, GroupDatabase_encode demo_groups = Ok b /\ GroupDatabase_parse b = Ok demo_groups.
Proof.
  assert (GroupDatabase_parse (groups_text (groups demo_groups)) = Ok demo_groups) as Hp by (vm_compute; reflexivity).
  destruct (proj2 (proj2 group_database_roundtrip _) _ Hp) as [H1 H2]. split; [exact H1 |].
  eexists. split; [vm_compute; reflexivity |]. apply (proj1 group_database_roundtrip demo_groups H1 H2). vm_compute. reflexivity.
Defined.
