(* ===== verification/ElfSignature.v ===== *)
(** * Signatures of ELF images ([elf-signature/src/codec.rs], [elf-signature/src/manifest.rs])

    A signed image carries a NOTE section with a descriptor of 146 bytes: algorithms, key identifier, digest and
    signature.  The digest is of the whole file with the digest and signature fields set to zero.  SHA-256 and Ed25519 are
    third-party code: arguments of the definitions.  Offsets and sizes are [usize] of 64 bits, as [Z]. *)

From Stdlib Require Import String.
From S2P Require Import Prelude Text Fields.

(** ** Bytes *)

Inductive Error : Type := Bail (message : string).
Definition bail {A} (message : string) : result Error A := Err (Bail message).
Definition context {A} (o : option A) (message : string) : result Error A := ok_or o (Bail message).

Definition checked_add_usize (a b : Z) : option Z := if a + b <=? USIZE_MAX then Some (a + b) else None.
Definition checked_mul_usize (a b : Z) : option Z := if a * b <=? USIZE_MAX then Some (a * b) else None.
(** [a + b], a panic of the checked build if it overflows. *)
Definition add_usize (a b : Z) : result Error Z := if a + b <=? USIZE_MAX then Ok (a + b) else Panic.

(** [slice.get(a..b)] and [&slice[a..b]]. *)
Definition get (l : list Z) (a b : Z) : option (list Z) :=
  if (0 <=? a) && (a <=? b) && (b <=? len l) then Some (take (Z.to_nat (b - a)) (drop (Z.to_nat a) l)) else None.
Definition range (l : list Z) (a b : Z) : result Error (list Z) := match get l a b with Some s => Ok s | None => Panic end.
Definition byte_at (l : list Z) (i : Z) : result Error Z := match l !! Z.to_nat i with Some b => Ok b | None => Panic end.


Definition is_power_of_two (v : Z) : bool := (0 <? v) && (Z.land v (v - 1) =? 0).

(** ** The code *)

Definition ELF_MAGIC : list Z := [127] ++ text "ELF".
Definition ELF64_HEADER_LEN : Z := 64.
Definition ELF64_SECTION_HEADER_LEN : Z := 64.
Definition ELF64_PROGRAM_HEADER_LEN : Z := 56.
Definition ET_EXEC : Z := 2.
Definition ET_DYN : Z := 3.
Definition SHT_STRTAB : Z := 3.
Definition SHT_NOTE : Z := 7.
Definition PT_LOAD : Z := 1.
Definition PT_NOTE : Z := 4.
Definition SIGNATURE_SECTION : list Z := text ".note.mochios.signature".
Definition NOTE_NAME : list Z := text "mochiOS" ++ [0].
Definition NOTE_TYPE : Z := 1297303879. (* 0x4d534947 *)
Definition DESCRIPTOR_MAGIC : list Z := text "MOELFSIG".
Definition VERSION : Z := 1.
Definition KIND_ADHOC : Z := 1.
Definition KIND_ED25519 : Z := 2.
Definition DIGEST_SHA256 : Z := 1.
Definition SIGNATURE_NONE : Z := 0.
Definition SIGNATURE_ED25519 : Z := 1.
Definition FLAGS : Z := 0.
Definition DESCRIPTOR_LEN : Z := 146.
Definition KEY_ID_OFFSET : Z := 18.
Definition DIGEST_OFFSET : Z := 50.
Definition SIGNATURE_OFFSET : Z := 82.
Definition SIGNING_CONTEXT : list Z := text "mochios-elf-signature-v1" ++ [0].
Definition MAX_ELF_LEN : Z := 1024 * 1024 * 1024.

Record VerificationLimits : Type := {
  max_image_bytes : Z;
  max_section_headers : Z;
  max_program_headers : Z;
  max_note_scan_bytes : Z;
  max_name_scan_bytes : Z }.

Definition default_limits : VerificationLimits :=
  {| max_image_bytes := MAX_ELF_LEN; max_section_headers := U16_MAX; max_program_headers := U16_MAX;
     max_note_scan_bytes := MAX_ELF_LEN * 2; max_name_scan_bytes := MAX_ELF_LEN |}.

Inductive SignatureKind : Type := AdHoc | Ed25519.

Record VerifiedSignature : Type := { vs_kind : SignatureKind; vs_key_id : option (list Z); vs_digest : list Z }.
Record VerifiedImage : Type := {
  vi_bytes : list Z;
  vi_signature : VerifiedSignature;
  source_digest : list Z;
  vi_manifest : option (list Z) }.

Record SectionHeader : Type := {
  sh_name : Z;
  name_len : Z;
  section_type : Z;
  sh_offset : Z;
  sh_size : Z;
  align : Z;
  entry_size : Z;
  raw_offset : Z }.

Inductive NoteOrigin : Type := FromSection (index : nat) | FromProgramHeader (index : nat).
#[export] Instance NoteOrigin_eq_dec : EqDecision NoteOrigin.
Proof. solve_decision. Defined.
Record NoteArea : Type := { na_offset : Z; na_size : Z; origin : NoteOrigin }.
Record NoteOccurrence : Type := { descriptor_offset : Z; area : NoteArea }.

Record Elf : Type := {
  elf_bytes : list Z;
  sections : list SectionHeader;
  shstr_index : Z;
  shstr : list Z;
  program_notes : list NoteArea;
  load_segments : list (Z * Z);
  program_header_table : option (Z * Z);
  section_header_table : option (Z * Z);
  note_scan_limit : Z }.

Record SigRecord : Type := {
  kind : SignatureKind;
  digest_algorithm : Z;
  signature_algorithm : Z;
  flags : Z;
  key_id : list Z;
  digest : list Z;
  signature : list Z;
  digest_file_offset : Z;
  signature_file_offset : Z }.

Record DecodedSignature : Type := {
  ds_kind : SignatureKind;
  ds_digest_algorithm : Z;
  ds_signature_algorithm : Z;
  ds_flags : Z;
  ds_key_id : list Z;
  ds_digest : list Z;
  ds_signature : list Z }.

Definition read_le (n : Z) (b : list Z) (offset : Z) : result Error Z :=
  let? finish := context (checked_add_usize offset n) "ELF integer offset overflow" in
  let? slice := context (get b offset finish) "truncated ELF integer" in
  Ok (from_le slice).
Definition read_u16 : list Z -> Z -> result Error Z := read_le 2.
Definition read_u32 : list Z -> Z -> result Error Z := read_le 4.
Definition read_u64 : list Z -> Z -> result Error Z := read_le 8.

Definition put_le (n : nat) (b : list Z) (offset : Z) (value : Z) : result Error (list Z) :=
  copy_into b (Z.to_nat offset) (Z.to_nat offset + n) (to_le n value).
Definition put_u16 : list Z -> Z -> Z -> result Error (list Z) := put_le 2.
Definition put_u32 : list Z -> Z -> Z -> result Error (list Z) := put_le 4.
Definition put_u64 : list Z -> Z -> Z -> result Error (list Z) := put_le 8.

Definition checked_end (offset size limit : Z) : result Error Z :=
  let? finish := context (checked_add_usize offset size) "range overflow" in
  if limit <? finish then bail "exceeds ELF file" else Ok finish.

Definition checked_table (offset entry_size count limit : Z) : result Error Z :=
  let? size := context (checked_mul_usize entry_size count) "size overflow" in
  checked_end offset size limit.

(** [v & !3]. *)
Definition align4 (value : Z) : result Error Z :=
  let? v := context (checked_add_usize value 3) "alignment overflow" in
  Ok (v - v mod 4).

(** [v & !(alignment - 1)], for a power of two; [Vec::resize] with zeros. *)
Definition pad_to (output : list Z) (alignment : Z) : result Error (list Z) :=
  let? v := context (checked_add_usize (len output) (alignment - 1)) "alignment overflow" in
  let next := v - v mod alignment in
  Ok (take (Z.to_nat next) output ++ replicate (Z.to_nat next - List.length output) 0).

Definition overlaps (left right : Z * Z) : bool := (fst left <? snd right) && (fst right <? snd left).

(** *** Parsing *)

Section Code.

(** Does the allocator grant room for that many elements? *)
Context (try_reserve : Z -> bool).
Definition reserve (n : Z) (message : string) : result Error unit := if try_reserve n then Ok tt else bail message.

(** The loop over the program headers. *)
Fixpoint program_headers_loop (b : list Z) (phoff phentsize : Z) (index count : nat) (notes : list NoteArea)
    (loads : list (Z * Z)) : result Error (list NoteArea * list (Z * Z)) :=
  match count with
  | O => Ok (notes, loads)
  | S count =>
      let raw := phoff + Z.of_nat index * phentsize in
      let? kind := read_u32 b raw in
      let? offset := read_u64 b (raw + 8) in
      let? size := read_u64 b (raw + 32) in
      let? segment_end := checked_end offset size (len b) in
      let? alignment := read_u64 b (raw + 48) in
      if (1 <? alignment) && negb (is_power_of_two alignment) then bail "invalid program segment alignment" else
      let notes := if kind =? PT_NOTE
                   then notes ++ [{| na_offset := offset; na_size := size; origin := FromProgramHeader index |}] else notes in
      let? file_size := (if kind =? PT_LOAD then read_u64 b (raw + 32) else Ok 0) in
      let? memory_size := (if kind =? PT_LOAD then read_u64 b (raw + 40) else Ok 0) in
      if (kind =? PT_LOAD) && (memory_size <? file_size) then bail "ELF PT_LOAD file size exceeds memory size" else
      if kind =? PT_LOAD then
        let? virtual_address := read_u64 b (raw + 16) in
        if (1 <? alignment) && negb (virtual_address mod alignment =? offset mod alignment)
        then bail "ELF PT_LOAD offset and virtual address violate alignment" else
        let loads := if negb (size =? 0) then loads ++ [(offset, segment_end)] else loads in
        program_headers_loop b phoff phentsize (S index) count notes loads
      else program_headers_loop b phoff phentsize (S index) count notes loads
  end.

Definition parse_program_headers (b : list Z) (limits : VerificationLimits)
    : result Error (list NoteArea * list (Z * Z) * option (Z * Z)) :=
  let? phoff := read_u64 b 32 in
  let? phentsize := read_u16 b 54 in
  let? phnum := read_u16 b 56 in
  if max_program_headers limits <? phnum then bail "ELF program header limit exceeded" else
  if negb (phnum =? 0) then
    if phoff =? 0 then bail "ELF has program headers with a zero table offset" else
    if phnum =? 65535 then bail "extended program header numbering is unsupported" else
    if negb (phentsize =? ELF64_PROGRAM_HEADER_LEN) then bail "invalid ELF64 program header size" else
    let? finish := checked_table phoff phentsize phnum (len b) in
    let? _ := reserve phnum "unable to allocate program NOTE headers" in
    let? _ := reserve phnum "unable to allocate load segment headers" in
    let? (notes, loads) := program_headers_loop b phoff phentsize 0 (Z.to_nat phnum) [] [] in
    Ok (notes, loads, Some (phoff, finish))
  else
    if negb (phoff =? 0) then bail "ELF has a program header offset but no entries" else Ok ([], [], None).

(** The loop over the section headers. *)
Fixpoint section_headers_loop (b : list Z) (shoff shentsize : Z) (index count : nat) (found : list SectionHeader)
    : result Error (list SectionHeader) :=
  match count with
  | O => Ok found
  | S count =>
      let raw := shoff + Z.of_nat index * shentsize in
      let? offset := read_u64 b (raw + 24) in
      let? size := read_u64 b (raw + 32) in
      let? ty := read_u32 b (raw + 4) in
      let? _ := (if negb (ty =? 8) then checked_end offset size (len b) else Ok 0) in
      let? nm := read_u32 b raw in
      let? al := read_u64 b (raw + 48) in
      let? es := read_u64 b (raw + 56) in
      section_headers_loop b shoff shentsize (S index) count
        (found ++ [{| sh_name := nm; name_len := 0; section_type := ty; sh_offset := offset; sh_size := size; align := al;
                      entry_size := es; raw_offset := raw |}])
  end.

Definition with_name_len (s : SectionHeader) (n : Z) : SectionHeader :=
  {| sh_name := sh_name s; name_len := n; section_type := section_type s; sh_offset := sh_offset s; sh_size := sh_size s;
     align := align s; entry_size := entry_size s; raw_offset := raw_offset s |}.

(** The loop that measures the section names. *)
Fixpoint names_loop (strings : list Z) (remaining : Z) (ss : list SectionHeader) : result Error (list SectionHeader) :=
  match ss with
  | [] => Ok []
  | s :: ss =>
      let? tail := context (get strings (sh_name s) (len strings)) "section name is outside string table" in
      let? scan := range tail 0 (Z.min (len tail) remaining) in
      let? n := context (find_char (Z.eqb 0) scan) "unterminated section name or name scan limit exceeded" in
      let? rest := names_loop strings (remaining - (Z.of_nat n + 1)) ss in
      Ok (with_name_len s (Z.of_nat n) :: rest)
  end.

Fixpoint check_sections (ss : list SectionHeader) : result Error unit :=
  match ss with
  | [] => Ok tt
  | s :: ss =>
      if negb (align s =? 0) && negb (is_power_of_two (align s)) then bail "invalid section alignment" else
      if negb (section_type s =? 8) && negb (sh_size s =? 0) && (1 <? align s) && negb (sh_offset s mod align s =? 0)
      then bail "section offset violates its alignment" else
      if negb (entry_size s =? 0) && negb (sh_size s mod entry_size s =? 0) then bail "invalid section entry size" else
      check_sections ss
  end.

Definition check_header (b : list Z) (limits : VerificationLimits) : result Error unit :=
  if MAX_ELF_LEN <? len b then bail "ELF exceeds the v1 size limit" else
  if max_image_bytes limits <? len b then bail "ELF image byte limit exceeded" else
  if len b <? ELF64_HEADER_LEN then bail "invalid ELF header" else
  let? magic := range b 0 4 in
  if negb (bool_decide (magic = ELF_MAGIC)) then bail "invalid ELF header" else
  let? b4 := byte_at b 4 in let? b5 := byte_at b 5 in let? b6 := byte_at b 6 in
  if negb (b4 =? 2) || negb (b5 =? 1) || negb (b6 =? 1)
  then bail "ELF Signature v1 requires ELF64 little-endian version 1" else
  let? b7 := byte_at b 7 in let? b8 := byte_at b 8 in let? padding := range b 9 16 in
  if negb (b7 =? 0) || negb (b8 =? 0) || existsb (fun x => negb (x =? 0)) padding
  then bail "unsupported ELF ABI or non-zero identification padding" else
  let? ty := read_u16 b 16 in
  if negb ((ty =? ET_EXEC) || (ty =? ET_DYN)) then bail "ELF Signature v1 supports only ET_EXEC and ET_DYN" else
  let? version := read_u32 b 20 in
  let? ehsize := read_u16 b 52 in
  if negb (version =? 1) || negb (ehsize =? ELF64_HEADER_LEN) then bail "invalid ELF version or header size" else Ok tt.

(** From the section header table on. *)
Definition parse_sections (b : list Z) (limits : VerificationLimits)
    : result Error (list SectionHeader * Z * list Z * option (Z * Z)) :=
  let? shoff := read_u64 b 40 in
  let? shentsize := read_u16 b 58 in
  let? shnum := read_u16 b 60 in
  if max_section_headers limits <? shnum then bail "ELF section header limit exceeded" else
  let? index := read_u16 b 62 in
  if shnum =? 0 then bail "ELF Signature v1 requires a Section Header Table" else
  if shoff =? 0 then bail "ELF has sections with a zero table offset" else
  if negb (shentsize =? ELF64_SECTION_HEADER_LEN) then bail "invalid ELF64 section header size" else
  let? table_end := checked_table shoff shentsize shnum (len b) in
  if (index =? 65535) || (shnum <=? index) then bail "invalid or extended section string table index" else
  let? _ := reserve shnum "unable to allocate section headers" in
  let? found := section_headers_loop b shoff shentsize 0 (Z.to_nat shnum) [] in
  match found !! 0%nat, found !! Z.to_nat index with
  | Some null_section, Some shstr_section =>
      if negb (sh_name null_section =? 0) || negb (section_type null_section =? 0) || negb (sh_offset null_section =? 0)
         || negb (sh_size null_section =? 0)
      then bail "invalid ELF null section header" else
      if negb (section_type shstr_section =? SHT_STRTAB) then bail "section name table is not SHT_STRTAB" else
      let? finish := add_usize (sh_offset shstr_section) (sh_size shstr_section) in
      let? strings := range b (sh_offset shstr_section) finish in
      if negb (bool_decide (head strings = Some 0)) then bail "invalid section name string table" else
      let? named := names_loop strings (max_name_scan_bytes limits) found in
      Ok (named, index, strings, Some (shoff, table_end))
  | _, _ => Panic
  end.

Definition parse_elf_with_limits (b : list Z) (limits : VerificationLimits) : result Error Elf :=
  let? _ := check_header b limits in
  let? (notes, loads, ph_table) := parse_program_headers b limits in
  let? (ss, index, strings, sh_table) := parse_sections b limits in
  let elf := {| elf_bytes := b; sections := ss; shstr_index := index; shstr := strings; program_notes := notes;
                load_segments := loads; program_header_table := ph_table; section_header_table := sh_table;
                note_scan_limit := max_note_scan_bytes limits |} in
  let? _ := check_sections ss in
  Ok elf.

Definition parse_elf (b : list Z) : result Error Elf := parse_elf_with_limits b default_limits.

Definition section_name (elf : Elf) (s : SectionHeader) : result Error (list Z) :=
  let? finish := context (checked_add_usize (sh_name s) (name_len s)) "section name range overflow" in
  context (get (shstr elf) (sh_name s) finish) "section name is outside string table".

(** *** Locating the record *)

(** The body of the loop of [parse_note_area]: where the next NOTE starts, and the descriptor if this is a
    signature. *)
Definition note_at (b : list Z) (finish cursor : Z) : result Error (Z * option Z) :=
  if finish - cursor <? 12 then bail "truncated ELF NOTE header" else
  let? namesz := read_u32 b cursor in
  let? descsz := read_u32 b (cursor + 4) in
  let? note_type := read_u32 b (cursor + 8) in
  let name_offset := cursor + 12 in
  let? name_end := checked_end name_offset namesz finish in
  let? desc_offset := align4 name_end in
  if finish <? desc_offset then bail "ELF NOTE name padding exceeds NOTE area" else
  let? desc_end := checked_end desc_offset descsz finish in
  let? next := align4 desc_end in
  if finish <? next then bail "ELF NOTE padding exceeds NOTE area" else
  let? is_signature := (if note_type =? NOTE_TYPE then
                          let? nm := range b name_offset name_end in Ok (bool_decide (nm = NOTE_NAME))
                        else Ok false) in
  if is_signature : bool then
    if negb (descsz =? DESCRIPTOR_LEN) then bail "invalid mochiOS signature descriptor length" else
    let? pad1 := range b name_end desc_offset in
    let? pad2 := range b desc_end next in
    if existsb (fun x => negb (x =? 0)) pad1 || existsb (fun x => negb (x =? 0)) pad2
    then bail "non-zero mochiOS signature NOTE padding" else
    Ok (next, Some desc_offset)
  else Ok (next, None).

(** The loop of [parse_note_area]. *)
Fixpoint note_loop (fuel : nat) (b : list Z) (a : NoteArea) (finish cursor : Z) (found : list NoteOccurrence)
    : result Error (list NoteOccurrence) :=
  match fuel with
  | O => Panic
  | S fuel =>
      if negb (cursor <? finish) then Ok found else
      let? (next, desc_offset) := note_at b finish cursor in
      match desc_offset with
      | Some d =>
          if (List.length found =? 2)%nat
          then bail "ELF contains duplicate or ambiguously referenced mochiOS signature NOTEs"
          else note_loop fuel b a finish next (found ++ [{| descriptor_offset := d; area := a |}])
      | None => note_loop fuel b a finish next found
      end
  end.

(** Each NOTE takes at least 12 bytes. *)
Definition parse_note_area (b : list Z) (a : NoteArea) (found : list NoteOccurrence) : result Error (list NoteOccurrence) :=
  let? finish := checked_end (na_offset a) (na_size a) (len b) in
  note_loop (S (Z.to_nat (na_size a))) b a finish (na_offset a) found.

(** The search for the reserved section. *)
Fixpoint find_signature_section (elf : Elf) (index : nat) (ss : list SectionHeader) (seen : option nat)
    : result Error (option nat) :=
  match ss with
  | [] => Ok seen
  | s :: ss =>
      let? nm := section_name elf s in
      if bool_decide (nm = SIGNATURE_SECTION) then
        if negb (section_type s =? SHT_NOTE) then bail "reserved ELF signature section is not SHT_NOTE" else
        if bool_decide (is_Some seen) then bail "ELF contains duplicate reserved signature sections" else
        find_signature_section elf (S index) ss (Some index)
      else find_signature_section elf (S index) ss seen
  end.

Fixpoint section_note_areas (index : nat) (ss : list SectionHeader) : list NoteArea :=
  match ss with
  | [] => []
  | s :: ss =>
      if section_type s =? SHT_NOTE
      then {| na_offset := sh_offset s; na_size := sh_size s; origin := FromSection index |} :: section_note_areas (S index) ss
      else section_note_areas (S index) ss
  end.
Definition note_areas (elf : Elf) : list NoteArea := section_note_areas 0 (sections elf) ++ program_notes elf.

Fixpoint scan_areas (b : list Z) (remaining : Z) (areas : list NoteArea) (found : list NoteOccurrence)
    : result Error (list NoteOccurrence) :=
  match areas with
  | [] => Ok found
  | a :: areas =>
      if remaining <? na_size a then bail "NOTE scan limit exceeded" else
      let? found := parse_note_area b a found in
      scan_areas b (remaining - na_size a) areas found
  end.

Definition mixed_origins (a b : NoteOrigin) : bool :=
  match a, b with
  | FromSection _, FromProgramHeader _ | FromProgramHeader _, FromSection _ => true
  | _, _ => false
  end.

(** The [match] on the occurrences; [None] is the early return. *)
Definition choose_occurrence (section_index : option nat) (occurrences : list NoteOccurrence)
    : result Error (option NoteOccurrence) :=
  match occurrences with
  | [] =>
      if bool_decide (section_index = None) then Ok None
      else bail "reserved ELF signature section does not contain a signature NOTE"
  | [only] => Ok (Some only)
  | [first; second] =>
      if (descriptor_offset first =? descriptor_offset second)
         && (na_offset (area first) =? na_offset (area second))
         && (na_size (area first) =? na_size (area second))
         && mixed_origins (origin (area first)) (origin (area second))
      then Ok (Some first)
      else bail "ELF contains duplicate or ambiguously referenced mochiOS signature NOTEs"
  | _ => bail "ELF contains duplicate or ambiguously referenced mochiOS signature NOTEs"
  end.

(** The loop over the sections in [validate_signature_location]. *)
Fixpoint check_other_sections (descriptor : Z * Z) (origin : NoteOrigin) (index : nat) (ss : list SectionHeader)
    : result Error unit :=
  match ss with
  | [] => Ok tt
  | s :: ss =>
      if (section_type s =? 8) || (sh_size s =? 0) then check_other_sections descriptor origin (S index) ss else
      let? finish := add_usize (sh_offset s) (sh_size s) in
      let containing_signature_section := match origin with FromSection o => (o =? index)%nat | _ => false end in
      if negb containing_signature_section && overlaps descriptor (sh_offset s, finish)
      then bail "ELF signature descriptor overlaps another section"
      else check_other_sections descriptor origin (S index) ss
  end.

Definition table_overlaps (table : option (Z * Z)) (r : Z * Z) : bool :=
  match table with Some t => overlaps r t | None => false end.

Definition validate_signature_location (elf : Elf) (occurrence : NoteOccurrence) : result Error unit :=
  let? finish := checked_end (descriptor_offset occurrence) DESCRIPTOR_LEN (len (elf_bytes elf)) in
  let descriptor := (descriptor_offset occurrence, finish) in
  if overlaps descriptor (0, ELF64_HEADER_LEN) then bail "ELF signature descriptor overlaps the ELF header" else
  if table_overlaps (program_header_table elf) descriptor
  then bail "ELF signature descriptor overlaps the program header table" else
  if table_overlaps (section_header_table elf) descriptor
  then bail "ELF signature descriptor overlaps the section header table" else
  if existsb (overlaps descriptor) (load_segments elf) then bail "ELF signature descriptor overlaps a PT_LOAD segment" else
  check_other_sections descriptor (origin (area occurrence)) 0 (sections elf).

Definition parse_record (b : list Z) (offset : Z) : result Error SigRecord :=
  let? finish := checked_end offset DESCRIPTOR_LEN (len b) in
  let? descriptor := range b offset finish in
  let? magic := range descriptor 0 8 in
  if negb (bool_decide (magic = DESCRIPTOR_MAGIC)) then bail "invalid ELF signature descriptor magic" else
  let? version := read_u16 descriptor 8 in
  if negb (version =? VERSION) then bail "unsupported ELF signature version" else
  let? k := byte_at descriptor 10 in
  let? kind := (if k =? KIND_ADHOC then Ok AdHoc else if k =? KIND_ED25519 then Ok Ed25519
                else bail "unknown ELF signature kind") in
  let? reserved := byte_at descriptor 13 in
  if negb (reserved =? 0) then bail "non-zero ELF signature reserved field" else
  let? flags := read_u32 descriptor 14 in
  let? key_id := range descriptor KEY_ID_OFFSET (KEY_ID_OFFSET + 32) in
  let? digest := range descriptor DIGEST_OFFSET (DIGEST_OFFSET + 32) in
  let? signature := range descriptor SIGNATURE_OFFSET (SIGNATURE_OFFSET + 64) in
  let? da := byte_at descriptor 11 in
  let? sa := byte_at descriptor 12 in
  Ok {| kind := kind; digest_algorithm := da; signature_algorithm := sa; flags := flags; key_id := key_id; digest := digest;
        signature := signature; digest_file_offset := offset + DIGEST_OFFSET; signature_file_offset := offset + SIGNATURE_OFFSET |}.

Definition locate_record_in (elf : Elf) : result Error (option SigRecord) :=
  let? section_index := find_signature_section elf 0 (sections elf) None in
  let? _ := reserve 2 "unable to allocate NOTE references" in
  let? occurrences := scan_areas (elf_bytes elf) (note_scan_limit elf) (note_areas elf) [] in
  let? chosen := choose_occurrence section_index occurrences in
  match chosen with
  | None => Ok None
  | Some occurrence =>
      match section_index with
      | None => bail "mochiOS signature NOTE is outside the reserved signature section"
      | Some i =>
          match sections elf !! i with
          | None => Panic
          | Some s =>
              let? section_end := add_usize (sh_offset s) (sh_size s) in
              if (descriptor_offset occurrence <? sh_offset s) || (section_end <? descriptor_offset occurrence + DESCRIPTOR_LEN)
              then bail "mochiOS signature NOTE is outside the reserved signature section" else
              let? _ := validate_signature_location elf occurrence in
              let? record := parse_record (elf_bytes elf) (descriptor_offset occurrence) in
              Ok (Some record)
          end
      end
  end.

Definition locate_record (b : list Z) : result Error (option SigRecord) :=
  let? elf := parse_elf b in locate_record_in elf.

(** *** The embedded manifest *)

Definition MANIFEST_SECTION : list Z := text ".mochios.manifest".
Definition MAGIC : list Z := text "MOELFMAN".
Definition HEADER_LEN : Z := 16.
Definition SHT_PROGBITS : Z := 1.
Definition MAX_MANIFEST_LEN : Z := 64 * 1024.

Definition manifest_text (b : list Z) : result Error (list Z) :=
  if bool_decide (b = []) || (MAX_MANIFEST_LEN <? len b) || contains_char 0 b
  then bail "invalid embedded ELF manifest length or NUL byte" else
  if from_utf8 b then Ok b else bail "embedded ELF manifest is not UTF-8".

(** Does another section with bytes in the file overlap the range? *)
Fixpoint others_overlap (r : Z * Z) (index other : nat) (ss : list SectionHeader) : result Error bool :=
  match ss with
  | [] => Ok false
  | s :: ss =>
      if negb (other =? index)%nat && negb (section_type s =? 8) && negb (sh_size s =? 0) then
        let? finish := add_usize (sh_offset s) (sh_size s) in
        if overlaps r (sh_offset s, finish) then Ok true else others_overlap r index (S other) ss
      else others_overlap r index (S other) ss
  end.

(** The body of the loop of [locate] for the section with the reserved name. *)
Definition manifest_section (elf : Elf) (index : nat) (s : SectionHeader) : result Error (list Z) :=
  let raw := raw_offset s in
  let? shape :=
    (if negb (section_type s =? SHT_PROGBITS) || negb (align s =? 4) || negb (entry_size s =? 0) then Ok false else
     let? fl := read_u64 (elf_bytes elf) (raw + 8) in
     if negb (fl =? 0) then Ok false else
     let? address := read_u64 (elf_bytes elf) (raw + 16) in
     if negb (address =? 0) then Ok false else
     let? link := read_u64 (elf_bytes elf) (raw + 40) in
     if negb (link =? 0) then Ok false else
     Ok ((sh_offset s mod 4 =? 0) && negb (sh_size s <=? HEADER_LEN) && negb (HEADER_LEN + MAX_MANIFEST_LEN <? sh_size s))) in
  if negb shape then bail "invalid embedded ELF manifest section" else
  let? finish := add_usize (sh_offset s) (sh_size s) in
  let r := (sh_offset s, finish) in
  let? clash :=
    (if overlaps r (0, ELF64_HEADER_LEN) || table_overlaps (program_header_table elf) r
        || table_overlaps (section_header_table elf) r || existsb (overlaps r) (load_segments elf)
        || existsb (fun n => overlaps r (na_offset n, na_offset n + na_size n)) (program_notes elf)
     then Ok true else others_overlap r index 0 (sections elf)) in
  if clash : bool then bail "embedded ELF manifest overlaps another file region" else
  let? data := range (elf_bytes elf) (fst r) (snd r) in
  let? magic := range data 0 8 in
  let? v := read_u16 data 8 in
  let? encoding := read_u16 data 10 in
  let? reserved := read_u32 data 12 in
  if negb (bool_decide (magic = MAGIC)) || negb (v =? 1) || negb (encoding =? 1) || negb (reserved =? 0)
  then bail "unsupported embedded ELF manifest header" else
  let? body := range data HEADER_LEN (len data) in
  manifest_text body.

Fixpoint locate_loop (elf : Elf) (index : nat) (ss : list SectionHeader) (found : option (list Z)) : result Error (option (list Z)) :=
  match ss with
  | [] => Ok found
  | s :: ss =>
      let? nm := section_name elf s in
      if negb (bool_decide (nm = MANIFEST_SECTION)) then locate_loop elf (S index) ss found else
      if bool_decide (is_Some found) then bail "duplicate embedded ELF manifest sections" else
      let? declaration := manifest_section elf index s in
      locate_loop elf (S index) ss (Some declaration)
  end.
Definition locate (elf : Elf) : result Error (option (list Z)) := locate_loop elf 0 (sections elf) None.

(** *** Digest and signature *)

(** What is hashed: the file with the two fields set to zero. *)
Definition normalized (b : list Z) (record : SigRecord) : result Error (list Z) :=
  let? digest_end := context (checked_add_usize (digest_file_offset record) 32) "digest range overflow" in
  let? signature_end := context (checked_add_usize (signature_file_offset record) 64) "signature range overflow" in
  if (len b <? digest_end) || (len b <? signature_end) || (signature_file_offset record <? digest_end)
  then bail "invalid ELF signature value ranges" else
  let? before := range b 0 (digest_file_offset record) in
  let? between := range b digest_end (signature_file_offset record) in
  let? after := range b signature_end (len b) in
  Ok (before ++ zeros 32 ++ between ++ zeros 64 ++ after).

Definition validate_record (record : SigRecord) : result Error unit :=
  if negb (digest_algorithm record =? DIGEST_SHA256) then bail "unsupported ELF digest algorithm" else
  if negb (flags record =? 0) then bail "unsupported ELF signature flags" else
  match kind record with
  | AdHoc =>
      if (signature_algorithm record =? SIGNATURE_NONE) && bool_decide (key_id record = zeros 32)
         && bool_decide (signature record = zeros 64) then Ok tt else
      if signature_algorithm record =? SIGNATURE_NONE then bail "AdHoc signature contains key material"
      else bail "signature kind and algorithm do not match"
  | Ed25519 =>
      if signature_algorithm record =? SIGNATURE_ED25519 then Ok tt else bail "signature kind and algorithm do not match"
  end.

Definition signing_message (kind digest_algorithm signature_algorithm flags : Z) (key_id digest : list Z) : result Error (list Z) :=
  let? message := copy_into (zeros 96) 0 25 SIGNING_CONTEXT in
  let? message := copy_into message 25 28 [kind; digest_algorithm; signature_algorithm] in
  let? message := copy_into message 28 32 (to_le 4 flags) in
  let? message := copy_into message 32 64 key_id in
  copy_into message 64 96 digest.

(** SHA-256, Ed25519 keys and signatures. *)
Context (sha256 : list Z -> list Z) {VerifyingKey SigningKey : Type}.
Context (key_bytes : VerifyingKey -> list Z) (verify_strict : VerifyingKey -> list Z -> list Z -> bool).
Context (verifying_key : SigningKey -> VerifyingKey) (sign : SigningKey -> list Z -> list Z).

(** The trait [PublicKeyResolver]. *)
Definition Resolver : Type := list Z -> result Error (option VerifyingKey).

Definition SuppliedPublicKey_resolve (self : VerifyingKey) : Resolver := fun id =>
  let own := sha256 (key_bytes self) in
  Ok (if bool_decide (own = id) then Some self else None).

Definition normalized_digest (b : list Z) (record : SigRecord) : result Error (list Z) :=
  let? input := normalized b record in Ok (sha256 input).

Definition verify_parsed (elf : Elf) (resolver : option Resolver) : result Error VerifiedSignature :=
  let? located := locate_record_in elf in
  let? record := context located "ELF is not signed" in
  let? _ := validate_record record in
  let? actual := normalized_digest (elf_bytes elf) record in
  if negb (bool_decide (actual = digest record)) then bail "ELF digest mismatch" else
  match kind record with
  | AdHoc => Ok {| vs_kind := AdHoc; vs_key_id := None; vs_digest := actual |}
  | Ed25519 =>
      let? resolve := context resolver "public key is required for keyed ELF signature" in
      let? resolved := resolve (key_id record) in
      let? public_key := context resolved "ELF signing key is unresolved" in
      let actual_key_id := sha256 (key_bytes public_key) in
      if negb (bool_decide (actual_key_id = key_id record)) then bail "public key does not match ELF key_id" else
      let? message := signing_message KIND_ED25519 (digest_algorithm record) (signature_algorithm record) (flags record)
                        (key_id record) (digest record) in
      if negb (verify_strict public_key message (signature record)) then bail "invalid ELF Ed25519 signature" else
      Ok {| vs_kind := Ed25519; vs_key_id := Some (key_id record); vs_digest := actual |}
  end.

Definition verify_with_limits (b : list Z) (resolver : option Resolver) (limits : VerificationLimits)
    : result Error VerifiedSignature :=
  let? elf := parse_elf_with_limits b limits in
  let? _ := locate elf in
  verify_parsed elf resolver.

Definition verify (b : list Z) (resolver : option Resolver) : result Error VerifiedSignature :=
  verify_with_limits b resolver default_limits.

Definition verify_image (b : list Z) (resolver : option Resolver) (limits : VerificationLimits) : result Error VerifiedImage :=
  let? elf := parse_elf_with_limits b limits in
  let? manifest := locate elf in
  let? sig := verify_parsed elf resolver in
  Ok {| vi_bytes := b; vi_signature := sig; source_digest := sha256 b; vi_manifest := manifest |}.

Definition decode_record (b : list Z) : result Error SigRecord :=
  let? located := locate_record b in context located "ELF is not signed".

Definition decode (b : list Z) : result Error DecodedSignature :=
  let? record := decode_record b in
  let? _ := validate_record record in
  Ok {| ds_kind := kind record; ds_digest_algorithm := digest_algorithm record;
        ds_signature_algorithm := signature_algorithm record; ds_flags := flags record; ds_key_id := key_id record;
        ds_digest := digest record; ds_signature := signature record |}.

(** *** Signing *)

(** The section headers of the old sections. *)
Fixpoint copy_headers (b : list Z) (ss : list SectionHeader) (output : list Z) : result Error (list Z) :=
  match ss with
  | [] => Ok output
  | s :: ss =>
      let? header := range b (raw_offset s) (raw_offset s + ELF64_SECTION_HEADER_LEN) in
      copy_headers b ss (output ++ header)
  end.

Definition append_section (elf : Elf) (name : list Z) (kind : Z) (data : list Z) : result Error (list Z) :=
  let b := elf_bytes elf in
  let? new_count := context (checked_add_usize (Z.of_nat (List.length (sections elf))) 2) "section count overflow" in
  let? new_count_u16 := context (if new_count <=? U16_MAX then Some new_count else None) "ELF has too many sections" in
  let? room := context (checked_add_usize (len (shstr elf)) (len name + 2)) "section string table size overflow" in
  let? _ := reserve room "unable to allocate section string table" in
  let strings := if bool_decide (last (shstr elf) = Some 0) then shstr elf else shstr elf ++ [0] in
  let? name_index := context (if len strings <=? U32_MAX then Some (len strings) else None) "section string table is too large" in
  let strings := (strings ++ name) ++ [0] in
  let? section_headers_size := context (checked_mul_usize new_count ELF64_SECTION_HEADER_LEN) "section header table size overflow" in
  let? s1 := context (checked_add_usize (len b) (len data)) "signed ELF size overflow" in
  let? s2 := context (checked_add_usize s1 (len strings)) "signed ELF size overflow" in
  let? s3 := context (checked_add_usize s2 section_headers_size) "signed ELF size overflow" in
  let? output_capacity := context (checked_add_usize s3 16) "signed ELF size overflow" in
  if MAX_ELF_LEN <? output_capacity then bail "appended ELF exceeds the v1 size limit" else
  let? _ := reserve output_capacity "unable to allocate signed ELF" in
  let? output := pad_to b 4 in
  let data_offset := len output in
  let output := output ++ data in
  let shstr_offset := len output in
  let output := output ++ strings in
  let? output := pad_to output 8 in
  let section_table_offset := len output in
  let? output := copy_headers b (sections elf) output in
  let header := zeros 64 in
  let? header := put_u32 header 0 name_index in
  let? header := put_u32 header 4 kind in
  let? header := put_u64 header 24 data_offset in
  let? header := put_u64 header 32 (len data) in
  let? header := put_u64 header 48 4 in
  let output := output ++ header in
  match sections elf !! Z.to_nat (shstr_index elf) with
  | None => Panic
  | Some old_shstr_section =>
      let shstr_header := zeros 64 in
      let? shstr_header := put_u32 shstr_header 0 (sh_name old_shstr_section) in
      let? shstr_header := put_u32 shstr_header 4 SHT_STRTAB in
      let? shstr_header := put_u64 shstr_header 24 shstr_offset in
      let? shstr_header := put_u64 shstr_header 32 (len strings) in
      let? shstr_header := put_u64 shstr_header 48 1 in
      let output := output ++ shstr_header in
      let? output := put_u64 output 40 section_table_offset in
      let? output := put_u16 output 60 new_count_u16 in
      put_u16 output 62 (new_count_u16 - 1)
  end.

Definition empty_descriptor (kind : SignatureKind) (key_id : list Z) : result Error (list Z) :=
  let descriptor := zeros 146 in
  let? descriptor := copy_into descriptor 0 8 DESCRIPTOR_MAGIC in
  let? descriptor := copy_into descriptor 8 10 (to_le 2 VERSION) in
  let? descriptor := set_idx descriptor 10 (match kind with AdHoc => KIND_ADHOC | Ed25519 => KIND_ED25519 end) in
  let? descriptor := set_idx descriptor 11 DIGEST_SHA256 in
  let? descriptor := set_idx descriptor 12 (match kind with AdHoc => SIGNATURE_NONE | Ed25519 => SIGNATURE_ED25519 end) in
  let? descriptor := set_idx descriptor 13 0 in
  let? descriptor := copy_into descriptor 14 18 (to_le 4 FLAGS) in
  copy_into descriptor 18 50 key_id.

Definition empty_note (kind : SignatureKind) (key_id : list Z) : result Error (list Z) :=
  let? descriptor := empty_descriptor kind key_id in
  let note := to_le 4 (len NOTE_NAME) ++ to_le 4 DESCRIPTOR_LEN ++ to_le 4 NOTE_TYPE ++ NOTE_NAME ++ descriptor in
  let? size := align4 (len note) in
  Ok (take (Z.to_nat size) note ++ zeros (Z.to_nat size - List.length note)).

Definition names_reserved (elf : Elf) (s : SectionHeader) : bool :=
  match section_name elf s with Ok nm => bool_decide (nm = SIGNATURE_SECTION) | _ => false end.

Definition embed_empty_record (b : list Z) (kind : SignatureKind) (key_id : list Z) : result Error (list Z) :=
  let? elf := parse_elf b in
  let? located := locate_record_in elf in
  if bool_decide (is_Some located) then bail "ELF already contains a signature NOTE" else
  if existsb (names_reserved elf) (sections elf) then bail "ELF already contains the reserved signature section" else
  let? _ := locate elf in
  let? note := empty_note kind key_id in
  let? output := append_section elf SIGNATURE_SECTION SHT_NOTE note in
  let? reparsed := parse_elf output in
  let? found := locate_record_in reparsed in
  let? _ := context found "generated ELF signature NOTE is not discoverable" in
  Ok output.

Definition sign_adhoc (unsigned : list Z) : result Error (list Z) :=
  let? output := embed_empty_record unsigned AdHoc (zeros 32) in
  let? located := locate_record output in
  let? record := context located "ELF signature NOTE was not created" in
  let? digest := normalized_digest output record in
  copy_into output (Z.to_nat (digest_file_offset record)) (Z.to_nat (digest_file_offset record + 32)) digest.

Definition sign_ed25519 (unsigned : list Z) (key : SigningKey) : result Error (list Z) :=
  let public_key := key_bytes (verifying_key key) in
  let key_id := sha256 public_key in
  let? output := embed_empty_record unsigned Ed25519 key_id in
  let? located := locate_record output in
  let? record := context located "ELF signature NOTE was not created" in
  let? digest := normalized_digest output record in
  let? message := signing_message KIND_ED25519 DIGEST_SHA256 SIGNATURE_ED25519 FLAGS key_id digest in
  let signature := sign key message in
  let? output := copy_into output (Z.to_nat (digest_file_offset record)) (Z.to_nat (digest_file_offset record + 32)) digest in
  copy_into output (Z.to_nat (signature_file_offset record)) (Z.to_nat (signature_file_offset record + 64)) signature.

Definition embed_manifest (unsigned declaration : list Z) : result Error (list Z) :=
  let? _ := manifest_text declaration in
  let? elf := parse_elf unsigned in
  let? located := locate_record_in elf in
  if bool_decide (is_Some located) then bail "cannot embed a manifest after ELF signing" else
  let? present := locate elf in
  if bool_decide (is_Some present) then bail "ELF already contains an embedded manifest" else
  let? _ := reserve (HEADER_LEN + len declaration) "unable to allocate embedded ELF manifest" in
  let data := MAGIC ++ to_le 2 1 ++ to_le 2 1 ++ to_le 4 0 ++ declaration in
  let? output := append_section elf MANIFEST_SECTION SHT_PROGBITS data in
  let? reparsed := parse_elf output in
  let? found := locate reparsed in
  let? _ := context found "generated ELF manifest is not discoverable" in
  Ok output.

End Code.
