(* ===== verification/ElfParse.v ===== *)
(** * The ELF parser of [elf-signature]: what it reads, and that it never panics *)

From Stdlib Require Import String.
From S2P Require Import Prelude Text Fields ElfSignature.

(** Follow the control flow of a computation that answered [Ok]. *)
Ltac inv_ok H :=
  repeat (cbv zeta in H; match type of H with
  | (match ?m with Ok _ => _ | Err _ => _ | Panic => _ end) = Ok _ =>
      let x := fresh "v" in let E := fresh "E" in destruct m as [x| |] eqn:E; [|discriminate H|discriminate H]
  | (if ?c then _ else _) = Ok _ =>
      let C := fresh "C" in destruct c eqn:C; first [discriminate H | idtac]
  | (let (_, _) := ?p in _) = Ok _ => destruct p
  | bail _ = Ok _ => discriminate H
  end).

(** ** Slices *)

Lemma get_Some l a b s : get l a b = Some s <->
  0 <= a <= b /\ b <= len l /\ s = take (Z.to_nat (b - a)) (drop (Z.to_nat a) l).
Proof.
  unfold get. destruct (_ && _) eqn:E; bool_cases.
  - split; [by intros [= <-] | by intros (_ & _ & ->)].
  - split; [done |]. intros (H1 & H2 & _). rewrite !andb_false_iff in E. destruct E as [[E|E]|E]; bool_cases; lia.
Qed.

Lemma get_ok l a b : 0 <= a <= b -> b <= len l -> get l a b = Some (take (Z.to_nat (b - a)) (drop (Z.to_nat a) l)).
Proof. intros. by apply get_Some. Qed.

Lemma get_len l a b s : get l a b = Some s -> len s = b - a.
Proof. intros (H1 & H2 & ->)%get_Some. unfold len in *. rewrite length_take, length_drop. lia. Qed.

Lemma get_lookup l a b s i : get l a b = Some s -> 0 <= i < b - a -> s !! Z.to_nat i = l !! Z.to_nat (a + i).
Proof.
  intros (H1 & H2 & ->)%get_Some Hi. rewrite lookup_take_lt by lia. rewrite lookup_drop. f_equal. lia.
Qed.

Lemma get_bytes l a b s : Forall is_u8 l -> get l a b = Some s -> Forall is_u8 s.
Proof. intros Hl (_ & _ & ->)%get_Some. by apply Forall_take, Forall_drop. Qed.

Lemma range_ok l a b : 0 <= a <= b -> b <= len l -> exists s, range l a b = Ok s /\ len s = b - a.
Proof. intros H1 H2. unfold range. rewrite get_ok by done. eexists. split; [done |]. eapply get_len. by apply get_ok. Qed.

Lemma range_Ok l a b s : range l a b = Ok s <-> get l a b = Some s.
Proof. unfold range. by destruct (get l a b); split; intros H; simplify_eq. Qed.

(** The two byte strings agree from [x] to [y]. *)
Definition same (b b' : list Z) (x y : Z) : Prop := forall i, x <= i < y -> b' !! Z.to_nat i = b !! Z.to_nat i.

Lemma same_sub b b' x y x' y' : same b b' x y -> x <= x' -> y' <= y -> same b b' x' y'.
Proof. intros H ? ? i Hi. apply H. lia. Qed.

Lemma get_same b b' x y s : get b x y = Some s -> same b b' x y -> y <= len b' -> get b' x y = Some s.
Proof.
  intros Hg Hs Hl. pose proof Hg as (H1 & H2 & E)%get_Some. apply get_Some. split; [done |]. split; [done |].
  apply list_eq_same_length with (n := Z.to_nat (y - x)).
  - rewrite length_take, length_drop. unfold len in *. lia.
  - apply get_len in Hg. unfold len in Hg. lia.
  - intros i u v Hi Hu Hv. subst s. rewrite lookup_take_lt, lookup_drop in Hu, Hv by done.
    specialize (Hs (x + Z.of_nat i)). replace (Z.to_nat (x + Z.of_nat i)) with (Z.to_nat x + i)%nat in Hs by lia.
    rewrite Hs in Hv by lia. congruence.
Qed.

Lemma range_same b b' x y s : range b x y = Ok s -> same b b' x y -> y <= len b' -> range b' x y = Ok s.
Proof. rewrite !range_Ok. apply get_same. Qed.

Lemma byte_at_same b b' i v : byte_at b i = Ok v -> 0 <= i -> same b b' i (i + 1) -> byte_at b' i = Ok v.
Proof. unfold byte_at. intros H Hi Hs. by rewrite Hs by lia. Qed.

(** ** Integers *)

Lemma read_le_Ok n b x v : 0 <= n -> read_le n b x = Ok v <-> exists s, get b x (x + n) = Some s /\ v = from_le s /\ x + n <= USIZE_MAX.
Proof.
  intros Hn. unfold read_le, checked_add_usize, context, ok_or. destruct (Z.leb_spec (x + n) USIZE_MAX).
  - destruct (get b x (x + n)) as [s|]; split; [intros [= <-]; eauto | by intros (? & [= <-] & -> & _) | done | by intros (? & [=] & _)].
  - split; [done |]. intros (? & _ & _ & ?). lia.
Qed.

Lemma read_le_bound n b x v : 0 <= n -> read_le n b x = Ok v -> 0 <= x /\ x + n <= len b.
Proof. intros Hn (s & (H1 & H2 & _)%get_Some & _)%read_le_Ok; [lia | done]. Qed.

Lemma read_le_range n b x v : 0 <= n -> Forall is_u8 b -> read_le n b x = Ok v -> 0 <= v < 256 ^ n.
Proof.
  intros Hn Hb (s & Hg & -> & _)%read_le_Ok; [|done]. pose proof (get_len _ _ _ _ Hg) as Hl.
  pose proof (from_le_range s (get_bytes _ _ _ _ Hb Hg)). replace n with (len s) by lia. done.
Qed.

Lemma read_le_same n b b' x v : 0 <= n -> read_le n b x = Ok v -> same b b' x (x + n) -> x + n <= len b' -> read_le n b' x = Ok v.
Proof.
  intros Hn (s & Hg & -> & Hm)%read_le_Ok Hs Hl; [|done]. apply read_le_Ok; [done |]. exists s. split_and!; [|done|done]. by apply (get_same b).
Qed.

Lemma read_u64_same b b' x v : read_u64 b x = Ok v -> same b b' x (x + 8) -> x + 8 <= len b' -> read_u64 b' x = Ok v.
Proof. by apply read_le_same. Qed.
Lemma read_u32_same b b' x v : read_u32 b x = Ok v -> same b b' x (x + 4) -> x + 4 <= len b' -> read_u32 b' x = Ok v.
Proof. by apply read_le_same. Qed.
Lemma read_u16_same b b' x v : read_u16 b x = Ok v -> same b b' x (x + 2) -> x + 2 <= len b' -> read_u16 b' x = Ok v.
Proof. by apply read_le_same. Qed.

Lemma read_le_no_panic n b x : read_le n b x <> Panic.
Proof. unfold read_le, checked_add_usize, context, ok_or. by repeat case_match. Qed.
#[export] Hint Resolve read_le_no_panic : nopanic.
#[export] Hint Extern 1 (read_u16 _ _ <> Panic) => apply read_le_no_panic : nopanic.
#[export] Hint Extern 1 (read_u32 _ _ <> Panic) => apply read_le_no_panic : nopanic.
#[export] Hint Extern 1 (read_u64 _ _ <> Panic) => apply read_le_no_panic : nopanic.

Lemma read_u64_range b x v : Forall is_u8 b -> read_u64 b x = Ok v -> 0 <= v <= USIZE_MAX.
Proof. intros Hb H. apply read_le_range in H; [|lia | done]. change (256 ^ 8) with 18446744073709551616 in H. widths. lia. Qed.
Lemma read_u32_range b x v : Forall is_u8 b -> read_u32 b x = Ok v -> 0 <= v <= U32_MAX.
Proof. intros Hb H. apply read_le_range in H; [|lia | done]. change (256 ^ 4) with 4294967296 in H. widths. lia. Qed.
Lemma read_u16_range b x v : Forall is_u8 b -> read_u16 b x = Ok v -> 0 <= v <= U16_MAX.
Proof. intros Hb H. apply read_le_range in H; [|lia | done]. change (256 ^ 2) with 65536 in H. widths. lia. Qed.

Lemma context_no_panic {A} (o : option A) m : context o m <> Panic.
Proof. by destruct o. Qed.
#[export] Hint Resolve context_no_panic : nopanic.
Lemma bail_no_panic {A} m : @bail A m <> Panic.
Proof. done. Qed.
#[export] Hint Resolve bail_no_panic : nopanic.

Lemma context_Ok {A} (o : option A) m v : context o m = Ok v -> o = Some v.
Proof. destruct o; cbn; intros H; by simplify_eq. Qed.

Lemma checked_end_Ok x n limit e : checked_end x n limit = Ok e <-> e = x + n /\ x + n <= limit /\ x + n <= USIZE_MAX.
Proof.
  unfold checked_end, checked_add_usize, context, ok_or. destruct (Z.leb_spec (x + n) USIZE_MAX); [|naive_solver lia].
  destruct (Z.ltb_spec limit (x + n)); [naive_solver lia |]. split; [intros [= <-]; lia | by intros (-> & _ & _)].
Qed.
Lemma checked_end_no_panic x n limit : checked_end x n limit <> Panic.
Proof. unfold checked_end, checked_add_usize, context, ok_or. by repeat case_match. Qed.
#[export] Hint Resolve checked_end_no_panic : nopanic.

Lemma checked_table_Ok x n c limit e : checked_table x n c limit = Ok e <-> e = x + n * c /\ x + n * c <= limit /\ x + n * c <= USIZE_MAX /\ n * c <= USIZE_MAX.
Proof.
  unfold checked_table, checked_mul_usize, context, ok_or. destruct (Z.leb_spec (n * c) USIZE_MAX); [|naive_solver lia].
  rewrite checked_end_Ok. naive_solver.
Qed.
Lemma checked_table_no_panic x n c limit : checked_table x n c limit <> Panic.
Proof. unfold checked_table. repeat step_result. auto with nopanic. Qed.
#[export] Hint Resolve checked_table_no_panic : nopanic.

Lemma align4_Ok v w : align4 v = Ok w <-> w = v + 3 - (v + 3) mod 4 /\ v + 3 <= USIZE_MAX.
Proof.
  unfold align4, checked_add_usize, context, ok_or. destruct (Z.leb_spec (v + 3) USIZE_MAX); [|naive_solver lia].
  split; [by intros [= <-] | by intros [-> _]].
Qed.
Lemma align4_no_panic v : align4 v <> Panic.
Proof. unfold align4, checked_add_usize, context, ok_or. by repeat case_match. Qed.
#[export] Hint Resolve align4_no_panic : nopanic.

Lemma align4_bounds v w : align4 v = Ok w -> v <= w < v + 4 /\ w mod 4 = 0.
Proof. intros [-> _]%align4_Ok. divlia. Qed.

Lemma add_usize_Ok a b v : add_usize a b = Ok v <-> v = a + b /\ a + b <= USIZE_MAX.
Proof. unfold add_usize. destruct (Z.leb_spec (a + b) USIZE_MAX); [split; [by intros [= <-] | by intros [-> _]] | naive_solver lia]. Qed.

Lemma overlaps_false l r : overlaps l r = false <-> snd r <= fst l \/ snd l <= fst r.
Proof. unfold overlaps. rewrite andb_false_iff, !Z.ltb_ge. done. Qed.

(** ** Program headers *)

Definition in_file (b : list Z) (x n : Z) : Prop := 0 <= x /\ 0 <= n /\ x + n <= len b.
Definition program_note (b : list Z) (a : NoteArea) : Prop :=
  in_file b (na_offset a) (na_size a) /\ exists k, origin a = FromProgramHeader k.

Section Parse.
Context (try_reserve : Z -> bool).

Lemma reserve_no_panic n m : reserve try_reserve n m <> Panic.
Proof. unfold reserve. by destruct (try_reserve n). Qed.
Hint Resolve reserve_no_panic : nopanic.

Lemma program_headers_loop_no_panic b phoff pe count : forall index notes loads,
  program_headers_loop b phoff pe index count notes loads <> Panic.
Proof.
  induction count as [|count IH]; intros index notes loads; cbn [program_headers_loop]; [done |]. cbv zeta. repeat step_result; apply IH.
Qed.
Hint Resolve program_headers_loop_no_panic : nopanic.

Lemma parse_program_headers_no_panic b limits : parse_program_headers try_reserve b limits <> Panic.
Proof. unfold parse_program_headers. repeat step_result. Qed.
Hint Resolve parse_program_headers_no_panic : nopanic.

Lemma program_headers_loop_same b b' phoff count : 0 <= phoff -> len b <= len b' -> forall index notes loads r,
  program_headers_loop b phoff 56 index count notes loads = Ok r ->
  phoff + (Z.of_nat index + Z.of_nat count) * 56 <= len b ->
  same b b' (phoff + Z.of_nat index * 56) (phoff + (Z.of_nat index + Z.of_nat count) * 56) ->
  program_headers_loop b' phoff 56 index count notes loads = Ok r.
Proof.
  intros Hp Hl. induction count as [|count IH]; intros index notes loads r H Hb Hs; [done |].
  cbn [program_headers_loop] in *. cbv zeta in H |- *.
  assert (forall n x v, 0 <= n -> phoff + Z.of_nat index * 56 <= x -> x + n <= phoff + Z.of_nat index * 56 + 56 ->
    read_le n b x = Ok v -> read_le n b' x = Ok v) as Hr.
  { intros n x v Hn H1 H2 E. apply (read_le_same n b); [done | done | eapply same_sub; [exact Hs | lia | lia] | lia]. }
  destruct (read_u32 b _) as [ki| |] eqn:E1; [|done|done]. rewrite (Hr 4 _ ki) by (done || lia).
  destruct (read_u64 b (phoff + Z.of_nat index * 56 + 8)) as [off| |] eqn:E2; [|done|done]. rewrite (Hr 8 _ off) by (done || lia).
  destruct (read_u64 b (phoff + Z.of_nat index * 56 + 32)) as [sz| |] eqn:E3; [|done|done]. rewrite (Hr 8 _ sz) by (done || lia).
  destruct (checked_end off sz (len b)) as [se| |] eqn:E4; [|done|done].
  apply checked_end_Ok in E4 as (-> & H4 & H4'). rewrite (proj2 (checked_end_Ok _ _ _ (off + sz))) by lia.
  destruct (read_u64 b (phoff + Z.of_nat index * 56 + 48)) as [al| |] eqn:E5; [|done|done]. rewrite (Hr 8 _ al) by (done || lia).
  destruct (_ && negb (is_power_of_two al)); [done |]. destruct (ki =? PT_LOAD); cbn [andb].
  - destruct (read_u64 b (phoff + Z.of_nat index * 56 + 40)) as [ms| |] eqn:E6; [|done|done]. rewrite (Hr 8 _ ms) by (done || lia).
    destruct (ms <? sz); [done |].
    destruct (read_u64 b (phoff + Z.of_nat index * 56 + 16)) as [va| |] eqn:E7; [|done|done]. rewrite (Hr 8 _ va) by (done || lia).
    destruct ((1 <? al) && negb (va mod al =? off mod al)); [done |]. apply IH; [done | lia | eapply same_sub; [exact Hs | lia | lia]].
  - apply IH; [done | lia | eapply same_sub; [exact Hs | lia | lia]].
Qed.

Lemma program_headers_loop_in_file b phoff pe count : Forall is_u8 b -> forall index notes loads notes' loads',
  program_headers_loop b phoff pe index count notes loads = Ok (notes', loads') ->
  Forall (program_note b) notes -> Forall (program_note b) notes'.
Proof.
  intros Hb. induction count as [|count IH]; intros index notes loads notes' loads' H Hn; [by injection H as -> -> |].
  cbn [program_headers_loop] in H.
  destruct (read_u32 b _) as [ki| |] eqn:E1; [|done|done].
  destruct (read_u64 b (phoff + Z.of_nat index * pe + 8)) as [off| |] eqn:E2; [|done|done]. apply read_u64_range in E2; [|done].
  destruct (read_u64 b (phoff + Z.of_nat index * pe + 32)) as [sz| |] eqn:E3; [|done|done]. apply read_u64_range in E3 as E3'; [|done].
  destruct (checked_end off sz (len b)) as [se| |] eqn:E4; [|done|done]. apply checked_end_Ok in E4 as (-> & H4 & _).
  destruct (read_u64 b (phoff + Z.of_nat index * pe + 48)) as [al| |] eqn:E5; [|done|done].
  destruct (_ && negb (is_power_of_two al)); [done |].
  set (notes1 := if ki =? PT_NOTE then _ else _) in H.
  assert (Forall (program_note b) notes1) as Hn1.
  { unfold notes1. destruct (ki =? PT_NOTE); [|done]. apply Forall_app. split; [done |]. apply Forall_singleton. split; [cbn; unfold in_file; lia | eauto]. }
  clearbody notes1. inv_ok H; eauto.
Qed.

(** What the program headers say depends only on three fields of the ELF header and on the table. *)
Lemma parse_program_headers_same b b' limits notes loads table : Forall is_u8 b -> len b <= len b' ->
  parse_program_headers try_reserve b limits = Ok (notes, loads, table) ->
  same b b' 32 40 -> same b b' 54 58 -> (forall x y, table = Some (x, y) -> same b b' x y) ->
  parse_program_headers try_reserve b' limits = Ok (notes, loads, table) /\
  Forall (program_note b) notes /\ (forall x y, table = Some (x, y) -> 0 <= x /\ y <= len b).
Proof.
  intros Hb Hl H S1 S2 S3. unfold parse_program_headers in *.
  destruct (read_u64 b 32) as [phoff| |] eqn:E1; [|done|done].
  pose proof (read_le_bound 8 b 32 phoff ltac:(lia) E1) as B1. rewrite (read_u64_same b b' 32 phoff) by (done || lia).
  destruct (read_u16 b 54) as [pe| |] eqn:E2; [|done|done]. pose proof (read_le_bound 2 b 54 pe ltac:(lia) E2) as B2.
  destruct (read_u16 b 56) as [pn| |] eqn:E3; [|done|done]. pose proof (read_le_bound 2 b 56 pn ltac:(lia) E3) as B3.
  rewrite (read_u16_same b b' 54 pe) by (done || lia || (eapply same_sub; [exact S2 | lia | lia])).
  rewrite (read_u16_same b b' 56 pn) by (done || lia || (eapply same_sub; [exact S2 | lia | lia])).
  apply read_u64_range in E1; [|done]. apply read_u16_range in E3; [|done].
  destruct (_ <? pn); [done |]. destruct (negb (pn =? 0)); [|destruct (negb _); [done |]; by injection H as <- <- <-].
  destruct (phoff =? 0); [done |]. destruct (pn =? 65535); [done |]. destruct (negb (pe =? ELF64_PROGRAM_HEADER_LEN)) eqn:Epe; [done |].
  bool_cases. change ELF64_PROGRAM_HEADER_LEN with 56 in Epe. subst pe.
  destruct (checked_table phoff 56 pn (len b)) as [fin| |] eqn:E4; [|done|done]. apply checked_table_Ok in E4 as (-> & H1 & H2 & H3).
  rewrite (proj2 (checked_table_Ok phoff 56 pn (len b') (phoff + 56 * pn))) by lia.
  destruct (reserve try_reserve pn _) eqn:R1; [|done|done]. destruct (reserve try_reserve pn "unable to allocate load segment headers") eqn:R2; [|done|done].
  destruct (program_headers_loop b phoff 56 0 (Z.to_nat pn) [] []) as [[n1 l1]| |] eqn:E5; [|done|done].
  injection H as <- <- <-. split_and!.
  - rewrite (program_headers_loop_same b b' phoff (Z.to_nat pn)) with (r := (n1, l1)); [done | lia | lia | done | lia |].
    eapply same_sub; [apply (S3 phoff _ eq_refl) | lia | lia].
  - eapply program_headers_loop_in_file; [done | exact E5 | constructor].
  - intros x y [= <- <-]. lia.
Qed.

(** ** Section headers *)

(** The header at [raw] of the table, which says where the section's bytes are. *)
Record header_at (b : list Z) (raw : Z) (s : SectionHeader) : Prop := {
  ha_name : read_u32 b raw = Ok (sh_name s);
  ha_type : read_u32 b (raw + 4) = Ok (section_type s);
  ha_offset : read_u64 b (raw + 24) = Ok (sh_offset s);
  ha_size : read_u64 b (raw + 32) = Ok (sh_size s);
  ha_align : read_u64 b (raw + 48) = Ok (align s);
  ha_entry : read_u64 b (raw + 56) = Ok (entry_size s);
  ha_raw : raw_offset s = raw;
  ha_end : section_type s <> 8 -> sh_offset s + sh_size s <= len b /\ sh_offset s + sh_size s <= USIZE_MAX }.

Lemma header_at_same b b' raw s : header_at b raw s -> 0 <= raw -> len b <= len b' -> raw + 64 <= len b' ->
  same b b' raw (raw + 64) -> header_at b' raw s.
Proof.
  intros [] Hraw Hl Hr Hs. split; try done;
    [apply (read_u32_same b) | apply (read_u32_same b) | apply (read_u64_same b) | apply (read_u64_same b) | apply (read_u64_same b) | apply (read_u64_same b) | intros Ht; destruct (ha_end0 Ht); lia];
    done || lia || (eapply same_sub; [exact Hs | lia | lia]).
Qed.

Lemma header_at_range b raw s : Forall is_u8 b -> header_at b raw s -> 0 <= sh_name s /\ 0 <= sh_offset s /\ 0 <= sh_size s.
Proof.
  intros Hb []. apply read_u32_range in ha_name0; [|done]. apply read_u64_range in ha_offset0; [|done].
  apply read_u64_range in ha_size0; [|done]. lia.
Qed.

Lemma header_at_in_file b raw s : Forall is_u8 b -> header_at b raw s -> section_type s <> 8 -> in_file b (sh_offset s) (sh_size s).
Proof. intros Hb Hs Ht. pose proof (header_at_range b raw s Hb Hs). destruct Hs as [_ _ _ _ _ _ _ He]. specialize (He Ht). unfold in_file. lia. Qed.

Definition headers_at (b : list Z) (shoff : Z) (index : nat) (ss : list SectionHeader) : Prop :=
  forall i s, ss !! i = Some s -> header_at b (shoff + (Z.of_nat index + Z.of_nat i) * 64) s.

Lemma section_headers_loop_Ok b shoff count : forall index found r,
  section_headers_loop b shoff 64 index count found = Ok r <->
  exists ss, r = found ++ ss /\ List.length ss = count /\ headers_at b shoff index ss /\ Forall (fun s => name_len s = 0) ss.
Proof.
  induction count as [|count IH]; intros index found r; cbn [section_headers_loop].
  { split; [intros [= <-]; exists []; rewrite app_nil_r; split_and!; try done; by constructor |]. intros (ss & -> & Hl & _). apply nil_length_inv in Hl. by rewrite Hl, app_nil_r. }
  cbv zeta. split.
  - intros H. inv_ok H; apply IH in H as (ss & -> & Hl & Hh & Hn).
    all: eexists (_ :: ss); rewrite <- app_assoc; split_and!; [done | cbn; by rewrite Hl | | by constructor].
    all: intros [|i] s; cbn; [intros [= <-]; rewrite Z.add_0_r; split; cbn; try done |
      intros Hi%Hh; replace (Z.of_nat index + Z.of_nat (S i)) with (Z.of_nat (S index) + Z.of_nat i) by lia; done].
    intros Ht. match goal with E : (if negb _ then checked_end _ _ _ else _) = Ok _ |- _ =>
      rewrite (proj2 (Z.eqb_neq _ _) Ht) in E; cbn [negb] in E; apply checked_end_Ok in E end. lia.
  - intros (ss & -> & Hl & Hh & Hn). destruct ss as [|s ss]; [done |]. pose proof (Hh 0%nat s eq_refl) as [].
    rewrite Z.add_0_r in *. apply Forall_cons in Hn as [Hn0 Hn]. rewrite ha_offset0, ha_size0, ha_type0.
    assert ((if negb (section_type s =? 8) then checked_end (sh_offset s) (sh_size s) (len b) else Ok 0) =
      Ok (if negb (section_type s =? 8) then sh_offset s + sh_size s else 0)) as ->.
    { destruct (Z.eqb_spec (section_type s) 8); [done |]. cbn [negb]. apply checked_end_Ok. specialize (ha_end0 n). lia. }
    rewrite ha_name0, ha_align0, ha_entry0. apply IH. exists ss. injection Hl as Hl. split_and!; [|done| |done].
    + rewrite <- app_assoc. cbn. do 2 f_equal. destruct s. cbn in *. by subst.
    + intros i s' Hi. specialize (Hh (S i) s' Hi).
      replace (Z.of_nat index + Z.of_nat (S i)) with (Z.of_nat (S index) + Z.of_nat i) in Hh by lia. done.
Qed.

Lemma section_headers_loop_no_panic b shoff se count : forall index found, section_headers_loop b shoff se index count found <> Panic.
Proof. induction count as [|count IH]; intros index found; cbn [section_headers_loop]; [done |]. cbv zeta. repeat step_result. all: apply IH. Qed.
Hint Resolve section_headers_loop_no_panic : nopanic.

(** ** Names *)

(** The name at [x] of the string table has [n] bytes. *)
Definition name_at (strings : list Z) (x n : Z) : Prop :=
  0 <= x <= len strings /\ exists k, n = Z.of_nat k /\ find_char (Z.eqb 0) (drop (Z.to_nat x) strings) = Some k.

Lemma find_char_Some p s k : find_char p s = Some k ->
  exists c, s !! k = Some c /\ p c = true /\ Forall (fun c => p c = false) (take k s).
Proof.
  revert k. induction s as [|c s IH]; cbn; intros k; [done |]. destruct (p c) eqn:E; [intros [= <-]; by exists c |].
  destruct (find_char p s) as [j|]; cbn; [|done]. intros [= <-]. destruct (IH j eq_refl) as (d & H1 & H2 & H3).
  exists d. cbn. by repeat constructor.
Qed.

Lemma find_char_app p s t k : find_char p s = Some k -> find_char p (s ++ t) = Some k.
Proof.
  revert k. induction s as [|c s IH]; cbn; intros k; [done |]. destruct (p c); [done |]. destruct (find_char p s) as [j|]; cbn; [|done].
  intros [= <-]. by rewrite (IH j).
Qed.

Lemma find_char_take p s n k : find_char p (take n s) = Some k -> find_char p s = Some k /\ (k < n)%nat.
Proof.
  intros H. rewrite <- (take_drop n s) at 1. split; [by apply find_char_app |].
  apply find_char_Some in H as (c & Hc & _). apply lookup_lt_Some in Hc. rewrite length_take in Hc. lia.
Qed.

Lemma names_loop_Ok strings ss : forall remaining r, names_loop strings remaining ss = Ok r ->
  Forall2 (fun s s' => s' = with_name_len s (name_len s') /\ name_at strings (sh_name s) (name_len s')) ss r.
Proof.
  induction ss as [|s ss IH]; intros remaining r; cbn [names_loop]; [by intros [= <-] |]. intros H.
  destruct (context (get _ _ _) _) as [tail| |] eqn:E1; [|done|done]. apply context_Ok, get_Some in E1 as (H1 & _ & E1).
  destruct (range tail _ _) as [scan| |] eqn:E2; [|done|done]. apply range_Ok, get_Some in E2 as (_ & _ & E2).
  destruct (context (find_char _ scan) _) as [n| |] eqn:E3; [|done|done]. apply context_Ok in E3.
  destruct (names_loop _ _ ss) as [rest| |] eqn:E4; [|done|done]. injection H as <-. constructor; [|by eapply IH].
  split; [done |]. cbn [name_len with_name_len sh_name]. split; [lia |]. exists n. split; [done |].
  rewrite E2, drop_0 in E3. apply find_char_take in E3 as [E3 _]. rewrite E1 in E3. apply find_char_take in E3 as [E3 _]. done.
Qed.

Lemma names_loop_no_panic strings ss : forall remaining, 0 <= remaining -> names_loop strings remaining ss <> Panic.
Proof.
  induction ss as [|s ss IH]; intros remaining Hr; cbn [names_loop]; [done |].
  destruct (context (get _ _ _) _) as [tail| |] eqn:E1; [|done | by apply context_no_panic in E1].
  destruct (range_ok tail 0 (Z.min (len tail) remaining)) as (scan & E2 & Hl); [unfold len; lia | lia |]. rewrite E2.
  destruct (context (find_char _ scan) _) as [n| |] eqn:E3; [|done | by apply context_no_panic in E3].
  apply context_Ok, find_char_Some in E3 as (c & Hc & _). apply lookup_lt_Some in Hc.
  specialize (IH (remaining - (Z.of_nat n + 1))). destruct (names_loop _ _ ss); [done | done |]. apply IH. unfold len in Hl. lia.
Qed.

(** ** The section table *)

Definition blank_name (s : SectionHeader) : SectionHeader := with_name_len s 0.

Lemma blank_with_name s n : name_len s = 0 -> blank_name (with_name_len s n) = s.
Proof. destruct s. cbn. by intros ->. Qed.

Lemma header_at_blank b raw s : header_at b raw (blank_name s) <-> header_at b raw s.
Proof. by split; intros []; split. Qed.

(** What a section table and its names are. *)
Record sections_at (b : list Z) (shoff shnum index : Z) (ss : list SectionHeader) (strings : list Z) : Prop := {
  sa_shoff : read_u64 b 40 = Ok shoff;
  sa_entry : read_u16 b 58 = Ok 64;
  sa_shnum : read_u16 b 60 = Ok shnum;
  sa_index : read_u16 b 62 = Ok index;
  sa_table : 0 < shoff /\ shoff + 64 * shnum <= len b;
  sa_bound : index < shnum;
  sa_count : Z.of_nat (List.length ss) = shnum;
  sa_headers : headers_at b shoff 0 ss;
  sa_names : Forall (fun s => name_at strings (sh_name s) (name_len s)) ss;
  sa_strings : exists t, ss !! Z.to_nat index = Some t /\ section_type t = SHT_STRTAB /\
                 get b (sh_offset t) (sh_offset t + sh_size t) = Some strings /\ head strings = Some 0 }.

Lemma named_lookup strings found r i s : Forall2 (fun s s' => s' = with_name_len s (name_len s') /\ name_at strings (sh_name s) (name_len s')) found r ->
  r !! i = Some s -> exists t, found !! i = Some t /\ s = with_name_len t (name_len s) /\ name_at strings (sh_name t) (name_len s).
Proof. intros HF Hi. destruct (Forall2_lookup_r _ _ _ _ _ HF Hi) as (t & Ht & H1 & H2). eauto. Qed.

Lemma parse_sections_Ok b limits ss index strings table : Forall is_u8 b ->
  parse_sections try_reserve b limits = Ok (ss, index, strings, table) ->
  exists shoff shnum, table = Some (shoff, shoff + 64 * shnum) /\ 0 <= index /\ sections_at b shoff shnum index ss strings.
Proof.
  intros Hb H. unfold parse_sections in H.
  destruct (read_u64 b 40) as [shoff| |] eqn:E1; [|done|done]. destruct (read_u16 b 58) as [se| |] eqn:E2; [|done|done].
  destruct (read_u16 b 60) as [shnum| |] eqn:E3; [|done|done]. destruct (_ <? shnum); [done |].
  destruct (read_u16 b 62) as [ix| |] eqn:E4; [|done|done]. destruct (shnum =? 0) eqn:C1; [done |]. destruct (shoff =? 0) eqn:C2; [done |].
  destruct (negb (se =? ELF64_SECTION_HEADER_LEN)) eqn:C3; [done |]. bool_cases. change ELF64_SECTION_HEADER_LEN with 64 in C3. subst se.
  destruct (checked_table _ _ _ _) as [te| |] eqn:E5; [|done|done]. apply checked_table_Ok in E5 as (-> & H5 & _).
  destruct (_ || _) eqn:C4; [done |]. bool_cases. destruct (reserve _ _ _); [|done|done].
  destruct (section_headers_loop _ _ _ _ _ _) as [found| |] eqn:E6; [|done|done].
  apply section_headers_loop_Ok in E6 as (fs & Ef & Hlen & Hh & Hn). cbn [app] in Ef. subst fs.
  destruct (found !! 0%nat) as [ns|]; [|done]. destruct (found !! Z.to_nat ix) as [t|] eqn:Et; [|done].
  destruct (_ || _); [done |]. destruct (negb (section_type t =? SHT_STRTAB)) eqn:C5; [done |]. bool_cases.
  destruct (add_usize _ _) as [fin| |] eqn:E7; [|done|done]. apply add_usize_Ok in E7 as [-> _].
  destruct (range _ _ _) as [str| |] eqn:E8; [|done|done]. apply range_Ok in E8.
  destruct (negb (bool_decide (head str = Some 0))) eqn:C6; [done |]. bool_cases.
  destruct (names_loop _ _ _) as [named| |] eqn:E9; [|done|done]. apply names_loop_Ok in E9. injection H as <- <- <- <-.
  exists shoff, shnum. pose proof (read_u64_range _ _ _ Hb E1). pose proof (read_u16_range _ _ _ Hb E3). pose proof (read_u16_range _ _ _ Hb E4).
  split; [done |]. split; [lia |].
  split; try done; try lia.
  - rewrite <- (Forall2_length _ _ _ E9). lia.
  - intros i s Hi. destruct (named_lookup _ _ _ _ _ E9 Hi) as (f & Hf & -> & _). apply header_at_blank.
    assert (name_len f = 0) as E0 by (rewrite Forall_forall in Hn; by apply Hn, list_elem_of_lookup_2 with i).
    rewrite blank_with_name by done. by apply Hh.
  - apply Forall_forall. intros s (i & Hi)%list_elem_of_lookup_1. destruct (named_lookup _ _ _ _ _ E9 Hi) as (f & _ & E & ?).
    by rewrite E at 1.
  - destruct (Forall2_lookup_l _ _ _ _ _ E9 Et) as (t' & Ht' & E & _). exists t'. rewrite E. cbn. split_and!; try done. by rewrite <- E.
Qed.

Lemma parse_sections_no_panic b limits : Forall is_u8 b -> 0 <= max_name_scan_bytes limits ->
  parse_sections try_reserve b limits <> Panic.
Proof.
  intros Hb Hlim. unfold parse_sections.
  destruct (read_u64 b 40) as [shoff| |] eqn:E1; [|done | by apply read_le_no_panic in E1].
  destruct (read_u16 b 58) as [se| |] eqn:E2; [|done | by apply read_le_no_panic in E2].
  destruct (read_u16 b 60) as [shnum| |] eqn:E3; [|done | by apply read_le_no_panic in E3]. step_result.
  destruct (read_u16 b 62) as [ix| |] eqn:E4; [|done | by apply read_le_no_panic in E4].
  destruct (shnum =? 0) eqn:C1; [done |]. step_result. destruct (negb (se =? ELF64_SECTION_HEADER_LEN)) eqn:C3; [done |].
  bool_cases. change ELF64_SECTION_HEADER_LEN with 64 in *. subst se. step_result. destruct (_ || _) eqn:C4; [done |]. bool_cases. step_result.
  destruct (section_headers_loop _ _ _ _ _ _) as [found| |] eqn:E6; [|done | by apply section_headers_loop_no_panic in E6].
  apply section_headers_loop_Ok in E6 as (fs & Ef & Hlen & Hh & Hn). cbn [app] in Ef. subst fs.
  apply read_u16_range in E3; [|done]. apply read_u16_range in E4; [|done].
  destruct (lookup_lt_is_Some_2 found 0%nat) as [ns ->]; [lia |].
  destruct (lookup_lt_is_Some_2 found (Z.to_nat ix)) as [t Et]; [lia |]. rewrite Et. step_result.
  destruct (negb (section_type t =? SHT_STRTAB)) eqn:C5; [done |]. bool_cases. apply Hh in Et as Hat.
  destruct (header_at_in_file _ _ _ Hb Hat) as (T1 & T2 & T3); [rewrite C5; done |].
  rewrite (proj2 (add_usize_Ok _ _ (sh_offset t + sh_size t))) by (split; [done | apply Hat; rewrite C5; done]).
  destruct (range_ok b (sh_offset t) (sh_offset t + sh_size t)) as (str & -> & _); [lia | lia |]. step_result.
  pose proof (names_loop_no_panic str found _ Hlim). by destruct (names_loop _ _ _).
Qed.
Hint Resolve parse_sections_no_panic : nopanic.

(** ** The whole header *)

Lemma check_header_no_panic b limits : check_header b limits <> Panic.
Proof.
  unfold check_header. do 2 step_result. destruct (Z.ltb_spec (len b) ELF64_HEADER_LEN) as [|Hl]; [done |]. unfold ELF64_HEADER_LEN in Hl.
  destruct (range_ok b 0 4) as (s1 & -> & _); [lia | lia |]. step_result.
  assert (forall i, 0 <= i < 64 -> exists v, byte_at b i = Ok v) as Hat.
  { intros i Hi. unfold byte_at. destruct (lookup_lt_is_Some_2 b (Z.to_nat i)) as [v ->]; [unfold len in Hl; lia | eauto]. }
  destruct (Hat 4) as [? ->]; [lia |]. destruct (Hat 5) as [? ->]; [lia |]. destruct (Hat 6) as [? ->]; [lia |]. step_result.
  destruct (Hat 7) as [? ->]; [lia |]. destruct (Hat 8) as [? ->]; [lia |].
  destruct (range_ok b 9 16) as (s2 & -> & _); [lia | lia |]. repeat step_result.
Qed.
Hint Resolve check_header_no_panic : nopanic.

Lemma check_sections_no_panic ss : check_sections ss <> Panic.
Proof. induction ss as [|s ss IH]; cbn [check_sections]; [done |]. by repeat step_result. Qed.
Hint Resolve check_sections_no_panic : nopanic.

Lemma parse_elf_no_panic b limits : Forall is_u8 b -> 0 <= max_name_scan_bytes limits ->
  parse_elf_with_limits try_reserve b limits <> Panic.
Proof.
  intros Hb Hl. unfold parse_elf_with_limits. pose proof (parse_sections_no_panic b limits Hb Hl) as Hs. repeat step_result.
Qed.

Lemma check_header_same b b' limits : check_header b limits = Ok tt -> len b <= len b' -> len b' <= MAX_ELF_LEN ->
  len b' <= max_image_bytes limits -> same b b' 0 40 -> same b b' 52 54 -> check_header b' limits = Ok tt.
Proof.
  intros H Hl H1 H2 S1 S2. unfold check_header, read_u16, read_u32 in *. rewrite (proj2 (Z.ltb_ge _ _)) by done. rewrite (proj2 (Z.ltb_ge _ _)) by done.
  destruct (MAX_ELF_LEN <? len b); [done |]. destruct (_ <? len b); [done |].
  destruct (Z.ltb_spec (len b) ELF64_HEADER_LEN) as [|H0]; [done |]. unfold ELF64_HEADER_LEN in H0.
  rewrite (proj2 (Z.ltb_ge (len b') ELF64_HEADER_LEN)) by (unfold ELF64_HEADER_LEN; lia).
  assert (forall x y s, range b x y = Ok s -> 0 <= x -> y <= 40 -> range b' x y = Ok s) as Hr.
  { intros x y s E Hx Hy. apply (range_same b); [done | eapply same_sub; [exact S1 | lia | lia] | lia]. }
  assert (forall i v, byte_at b i = Ok v -> 0 <= i < 40 -> byte_at b' i = Ok v) as Hat.
  { intros i v E Hi. apply (byte_at_same b); [done | lia | eapply same_sub; [exact S1 | lia | lia]]. }
  assert (forall n x v, 0 <= n -> read_le n b x = Ok v -> 0 <= x -> x + n <= 40 \/ (52 <= x /\ x + n <= 54) -> read_le n b' x = Ok v) as Hrd.
  { intros n x v Hn E Hx Hr'. apply (read_le_same n b); [done | done | destruct Hr'; eapply same_sub; [exact S1 | lia | lia | exact S2 | lia | lia] | lia]. }
  destruct (range b 0 4) as [s1| |] eqn:E1; [|done|done]. rewrite (Hr _ _ _ E1) by lia.
  destruct (negb (bool_decide (s1 = ELF_MAGIC))); [done |].
  destruct (byte_at b 4) as [b4| |] eqn:E4; [|done|done]. rewrite (Hat _ _ E4) by lia.
  destruct (byte_at b 5) as [b5| |] eqn:E5; [|done|done]. rewrite (Hat _ _ E5) by lia.
  destruct (byte_at b 6) as [b6| |] eqn:E6; [|done|done]. rewrite (Hat _ _ E6) by lia.
  destruct (negb (b4 =? 2) || negb (b5 =? 1) || negb (b6 =? 1)); [done |].
  destruct (byte_at b 7) as [b7| |] eqn:E7; [|done|done]. rewrite (Hat _ _ E7) by lia.
  destruct (byte_at b 8) as [b8| |] eqn:E8; [|done|done]. rewrite (Hat _ _ E8) by lia.
  destruct (range b 9 16) as [s2| |] eqn:E9; [|done|done]. rewrite (Hr _ _ _ E9) by lia.
  destruct (negb (b7 =? 0) || negb (b8 =? 0) || existsb (fun x => negb (x =? 0)) s2); [done |].
  destruct (read_le 2 b 16) as [ty| |] eqn:F1; [|done|done]. rewrite (Hrd 2 16 ty) by (done || lia).
  destruct (negb ((ty =? ET_EXEC) || (ty =? ET_DYN))); [done |].
  destruct (read_le 4 b 20) as [ve| |] eqn:F2; [|done|done]. rewrite (Hrd 4 20 ve) by (done || lia).
  destruct (read_le 2 b 52) as [eh| |] eqn:F3; [|done|done]. by rewrite (Hrd 2 52 eh) by (done || lia).
Qed.

(** What a parsed image is. *)
Lemma parse_elf_Ok b limits elf : Forall is_u8 b -> parse_elf_with_limits try_reserve b limits = Ok elf ->
  check_header b limits = Ok tt /\
  parse_program_headers try_reserve b limits = Ok (program_notes elf, load_segments elf, program_header_table elf) /\
  parse_sections try_reserve b limits = Ok (sections elf, shstr_index elf, shstr elf, section_header_table elf) /\
  check_sections (sections elf) = Ok tt /\ elf_bytes elf = b /\ note_scan_limit elf = max_note_scan_bytes limits.
Proof.
  intros Hb H. unfold parse_elf_with_limits in H. destruct (check_header b limits) as [[]| |]; [|done|done].
  destruct (parse_program_headers _ _ _) as [[[notes loads] pt]| |]; [|done|done].
  destruct (parse_sections _ _ _) as [[[[ss ix] str] st]| |]; [|done|done].
  destruct (check_sections ss) as [[]| |] eqn:E; [|done|done]. injection H as <-. done.
Qed.

(** The same image with other bytes, which the headers do not depend on. *)
Definition with_bytes (elf : Elf) (b : list Z) : Elf :=
  {| elf_bytes := b; sections := sections elf; shstr_index := shstr_index elf; shstr := shstr elf;
     program_notes := program_notes elf; load_segments := load_segments elf; program_header_table := program_header_table elf;
     section_header_table := section_header_table elf; note_scan_limit := note_scan_limit elf |}.

Lemma parse_sections_same b b' limits ss index strings table : Forall is_u8 b -> len b' = len b ->
  parse_sections try_reserve b limits = Ok (ss, index, strings, table) -> same b b' 40 48 -> same b b' 58 64 ->
  (forall x y, table = Some (x, y) -> same b b' x y) ->
  (forall t, ss !! Z.to_nat index = Some t -> same b b' (sh_offset t) (sh_offset t + sh_size t)) ->
  parse_sections try_reserve b' limits = Ok (ss, index, strings, table).
Proof.
  intros Hb Hl H S1 S2 S3 S4. pose proof (parse_sections_Ok _ _ _ _ _ _ Hb H) as (shoff & shnum & -> & Hix & [A1 A2 A3 A4 [A5 A5'] A6 A7 A8 A9 A10]).
  unfold parse_sections in *. specialize (S3 _ _ eq_refl).
  pose proof (read_le_bound 8 b 40 _ ltac:(lia) A1) as B1. pose proof (read_le_bound 2 b 62 _ ltac:(lia) A4) as B4.
  rewrite (read_u64_same b b' 40 shoff) by (done || lia). rewrite (read_u16_same b b' 58 64) by (done || lia || (eapply same_sub; [exact S2 | lia | lia])).
  rewrite (read_u16_same b b' 60 shnum) by (done || lia || (eapply same_sub; [exact S2 | lia | lia])).
  rewrite (read_u16_same b b' 62 index) by (done || lia || (eapply same_sub; [exact S2 | lia | lia])).
  rewrite A1, A2, A3, A4 in H. rewrite Hl. destruct (_ <? shnum); [done |]. destruct (shnum =? 0); [done |]. destruct (shoff =? 0); [done |].
  destruct (negb (64 =? ELF64_SECTION_HEADER_LEN)); [done |]. destruct (checked_table _ _ _ _) as [te| |]; [|done|done].
  destruct (_ || _); [done |]. destruct (reserve _ _ _); [|done|done].
  destruct (section_headers_loop b _ _ _ _ _) as [found| |] eqn:E6; [|done|done].
  assert (section_headers_loop b' shoff 64 0 (Z.to_nat shnum) [] = Ok found) as ->.
  { apply section_headers_loop_Ok in E6 as (fs & Ef & Hlen & Hh & Hn). apply section_headers_loop_Ok. exists fs. split_and!; try done.
    intros i s Hi. specialize (Hh i s Hi). apply lookup_lt_Some in Hi. rewrite Z.add_0_l in *.
    apply (header_at_same b); [done | lia | lia | lia |]. eapply same_sub; [exact S3 | lia | lia]. }
  destruct (found !! 0%nat) as [ns|]; [|done]. destruct (found !! Z.to_nat index) as [t|] eqn:Et; [|done].
  destruct (_ || _); [done |]. destruct (negb (section_type t =? SHT_STRTAB)); [done |].
  destruct (add_usize _ _) as [fin| |] eqn:E7; [|done|done]. apply add_usize_Ok in E7 as [-> _].
  destruct (range b _ _) as [str| |] eqn:E8; [|done|done].
  assert (same b b' (sh_offset t) (sh_offset t + sh_size t)) as St.
  { destruct (negb (bool_decide (head str = Some 0))); [done |]. destruct (names_loop _ _ _) as [named| |] eqn:E9; [|done|done].
    injection H as -> _. apply names_loop_Ok in E9. destruct (Forall2_lookup_l _ _ _ _ _ E9 Et) as (t' & Ht' & E & _).
    specialize (S4 t' Ht'). rewrite E in S4. exact S4. }
  rewrite (range_same b b' _ _ str); [done | done | done |]. apply range_Ok, get_Some in E8 as (_ & ? & _). lia.
Qed.

End Parse.
