(* ===== verification/ElfLocate.v ===== *)
(** * Locating the signature and the manifest of an ELF image *)

From Stdlib Require Import String.
From S2P Require Import Prelude Text Fields ElfSignature ElfParse.

(** ** Walking over notes *)

Lemma note_at_Ok b finish cursor next o : Forall is_u8 b -> 0 <= cursor -> finish <= len b -> note_at b finish cursor = Ok (next, o) ->
  cursor + 12 <= next <= finish /\ next mod 4 = 0 /\
  (forall d, o = Some d -> cursor + 12 <= d /\ d + DESCRIPTOR_LEN <= next /\ d mod 4 = 0) /\
  forall b', len b <= len b' ->
    (match o with Some d => same b b' cursor d /\ same b b' (d + DESCRIPTOR_LEN) next | None => same b b' cursor next end) ->
    note_at b' finish cursor = Ok (next, o).
Proof.
  intros Hb Hc Hf H. unfold note_at in *. destruct (Z.ltb_spec (finish - cursor) 12); [done |].
  destruct (read_u32 b cursor) as [nsz| |] eqn:E1; [|done|done]. destruct (read_u32 b (cursor + 4)) as [dsz| |] eqn:E2; [|done|done].
  destruct (read_u32 b (cursor + 8)) as [ty| |] eqn:E3; [|done|done]. cbv zeta in H |- *.
  pose proof (read_u32_range _ _ _ Hb E1) as R1. pose proof (read_u32_range _ _ _ Hb E2) as R2.
  destruct (checked_end (cursor + 12) nsz finish) as [ne| |] eqn:E4; [|done|done]. apply checked_end_Ok in E4 as H4.
  destruct (align4 ne) as [dof| |] eqn:E5; [|done|done]. pose proof (align4_bounds _ _ E5) as [B5 M5].
  destruct (finish <? dof) eqn:L1; [done |].
  destruct (checked_end dof dsz finish) as [de| |] eqn:E6; [|done|done]. apply checked_end_Ok in E6 as H6.
  destruct (align4 de) as [nx| |] eqn:E7; [|done|done]. pose proof (align4_bounds _ _ E7) as [B7 M7].
  destruct (finish <? nx) eqn:L2; [done |].
  pose proof (proj1 (Z.ltb_ge _ _) L1). pose proof (proj1 (Z.ltb_ge _ _) L2).
  assert (forall b', len b <= len b' -> same b b' cursor (cursor + 12) ->
    read_u32 b' cursor = Ok nsz /\ read_u32 b' (cursor + 4) = Ok dsz /\ read_u32 b' (cursor + 8) = Ok ty) as Hread.
  { intros b' Hl Hs. split_and!; (eapply read_u32_same; [eassumption | eapply same_sub; [exact Hs | lia | lia] | lia]). }
  destruct (ty =? NOTE_TYPE) eqn:Ty.
  - destruct (range b (cursor + 12) ne) as [nm| |] eqn:E8; [|done|done]. destruct (bool_decide (nm = NOTE_NAME)) eqn:E9.
    + destruct (negb (dsz =? DESCRIPTOR_LEN)) eqn:C1; [done |]. apply negb_false_iff, Z.eqb_eq in C1.
      destruct (range b ne dof) as [p1| |] eqn:E10; [|done|done]. destruct (range b de nx) as [p2| |] eqn:E11; [|done|done].
      destruct (_ || _) eqn:C2; [done |]. injection H as <- <-. unfold DESCRIPTOR_LEN in *. split_and!; try lia.
      { intros d [= <-]. lia. }
      intros b' Hl [S1 S2]. destruct (Hread b' Hl) as (-> & -> & ->); [eapply same_sub; [exact S1 | lia | lia] |]. rewrite E4, E5, L1, E6, E7, L2, Ty.
      rewrite (range_same b b' _ _ nm) by (done || lia || (eapply same_sub; [exact S1 | lia | lia])). rewrite E9, C1.
      rewrite (range_same b b' _ _ p1) by (done || lia || (eapply same_sub; [exact S1 | lia | lia])).
      rewrite (range_same b b' _ _ p2) by (done || lia || (eapply same_sub; [exact S2 | lia | lia])). rewrite C2.
      done.
    + injection H as <- <-. split_and!; try lia; [done |]. intros b' Hl S1.
      destruct (Hread b' Hl) as (-> & -> & ->); [eapply same_sub; [exact S1 | lia | lia] |]. rewrite E4, E5, L1, E6, E7, L2, Ty.
      rewrite (range_same b b' _ _ nm) by (done || lia || (eapply same_sub; [exact S1 | lia | lia])). by rewrite E9.
  - injection H as <- <-. split_and!; try lia; [done |]. intros b' Hl S1.
    destruct (Hread b' Hl) as (-> & -> & ->); [eapply same_sub; [exact S1 | lia | lia] |]. by rewrite E4, E5, L1, E6, E7, L2, Ty.
Qed.

Lemma note_at_no_panic b finish cursor : Forall is_u8 b -> 0 <= cursor -> finish <= len b -> note_at b finish cursor <> Panic.
Proof.
  intros Hb Hc Hf. unfold note_at. step_result. 
  destruct (read_u32 b cursor) as [nsz| |] eqn:E1; [|done | by apply read_le_no_panic in E1].
  destruct (read_u32 b (cursor + 4)) as [dsz| |] eqn:E2; [|done | by apply read_le_no_panic in E2]. step_result.
  pose proof (read_u32_range _ _ _ Hb E1) as R1. pose proof (read_u32_range _ _ _ Hb E2) as R2.
  destruct (checked_end (cursor + 12) nsz finish) as [ne| |] eqn:E4; [|done | by apply checked_end_no_panic in E4]. apply checked_end_Ok in E4.
  destruct (align4 ne) as [dof| |] eqn:E5; [|done | by apply align4_no_panic in E5]. apply align4_bounds in E5.
  destruct (Z.ltb_spec finish dof); [done |].
  destruct (checked_end dof dsz finish) as [de| |] eqn:E6; [|done | by apply checked_end_no_panic in E6]. apply checked_end_Ok in E6.
  destruct (align4 de) as [nx| |] eqn:E7; [|done | by apply align4_no_panic in E7]. apply align4_bounds in E7.
  destruct (Z.ltb_spec finish nx); [done |].
  destruct (range_ok b (cursor + 12) ne) as (nm & E8 & _); [lia | lia |]. destruct (range_ok b ne dof) as (p1 & E9 & _); [lia | lia |].
  destruct (range_ok b de nx) as (p2 & E10 & _); [lia | lia |]. rewrite E8, E9, E10. repeat step_result.
Qed.

(** The bytes agree outside of [lo .. hi). *)
Definition outside (b b' : list Z) (lo hi : Z) : Prop :=
  len b' = len b /\ forall i, 0 <= i -> ~ (lo <= i < hi) -> b' !! Z.to_nat i = b !! Z.to_nat i.

Lemma outside_same b b' lo hi x y : outside b b' lo hi -> 0 <= x -> y <= x \/ hi <= x \/ y <= lo -> same b b' x y.
Proof. intros [_ H] Hx Hd i Hi. apply H; lia. Qed.

(** What a walk over an area finds. *)
Definition found_in (a : NoteArea) (cursor finish : Z) (o : NoteOccurrence) : Prop :=
  area o = a /\ cursor + 12 <= descriptor_offset o /\ descriptor_offset o + DESCRIPTOR_LEN <= finish.

Section Walk.
Context (b : list Z) (a : NoteArea) (finish : Z) (Hb : Forall is_u8 b) (Hf : finish <= len b).

Lemma note_loop_no_panic fuel : forall cursor found, 0 <= cursor -> finish - cursor < Z.of_nat fuel -> 0 < Z.of_nat fuel ->
  note_loop fuel b a finish cursor found <> Panic.
Proof using Hb Hf.
  induction fuel as [|fuel IH]; intros cursor found Hc Hl Hp; [lia |]. cbn [note_loop].
  destruct (Z.ltb_spec cursor finish) as [Hlt|]; [|done]. cbn [negb]. pose proof (note_at_no_panic b finish cursor Hb Hc Hf) as Hnp.
  destruct (note_at b finish cursor) as [[next o]| |] eqn:E; [|done|done].
  destruct (note_at_Ok _ _ _ _ _ Hb Hc Hf E) as (Hn & _). destruct o; [step_result |]; apply IH; lia.
Qed.

Lemma note_loop_Ok fuel : forall cursor found res, 0 <= cursor -> note_loop fuel b a finish cursor found = Ok res ->
  exists new, res = found ++ new /\ Forall (found_in a cursor finish) new.
Proof using Hb Hf.
  induction fuel as [|fuel IH]; intros cursor found res Hc H; [done |]. cbn [note_loop] in H.
  destruct (negb _); [injection H as <-; exists []; by rewrite app_nil_r |].
  destruct (note_at b finish cursor) as [[next o]| |] eqn:E; [|done|done].
  destruct (note_at_Ok _ _ _ _ _ Hb Hc Hf E) as (Hn & _ & Hd & _).
  assert (forall l, Forall (found_in a next finish) l -> Forall (found_in a cursor finish) l) as Hw.
  { intros l Hl. eapply Forall_impl; [exact Hl |]. intros x (? & ? & ?). split_and!; [done | lia | done]. }
  destruct o as [d|].
  - destruct (_ =? 2)%nat; [done |]. apply IH in H as (new & -> & Hnew); [|lia]. eexists. rewrite <- app_assoc. split; [done |].
    constructor; [|auto]. destruct (Hd d eq_refl) as (? & ? & _). split_and!; cbn; [done | lia | lia].
  - apply IH in H as (new & -> & Hnew); [|lia]. eauto.
Qed.

(** What is found does not depend on what was found before. *)
Lemma note_loop_det fuel : forall cursor found found' new new',
  note_loop fuel b a finish cursor found = Ok (found ++ new) -> note_loop fuel b a finish cursor found' = Ok (found' ++ new') ->
  0 <= cursor -> new = new'.
Proof using Hb Hf.
  induction fuel as [|fuel IH]; intros cursor found found' new new' H H' Hc; [done |]. cbn [note_loop] in H, H'.
  destruct (negb _).
  { injection H as H. injection H' as H'. rewrite <- (app_nil_r found) in H at 1. rewrite <- (app_nil_r found') in H' at 1.
    apply app_inv_head in H, H'. congruence. }
  destruct (note_at b finish cursor) as [[next o]| |] eqn:E; [|done|done].
  destruct (note_at_Ok _ _ _ _ _ Hb Hc Hf E) as (Hn & _). destruct o as [d|]; [|eapply IH; [done | done | lia]].
  destruct (_ =? 2)%nat; [done |]. destruct (List.length found' =? 2)%nat; [done |].
  destruct (note_loop_Ok fuel next _ _ ltac:(lia) H) as (n1 & E1 & _). destruct (note_loop_Ok fuel next _ _ ltac:(lia) H') as (n2 & E2 & _).
  rewrite E1 in H. rewrite E2 in H'. specialize (IH _ _ _ _ _ H H' ltac:(lia)). subst n2.
  rewrite <- app_assoc in E1, E2. apply app_inv_head in E1, E2. congruence.
Qed.

(** Bytes that no walk looks at: outside the area, or inside a descriptor that it finds. *)
Lemma note_loop_outside b' lo hi fuel : outside b b' lo hi -> lo <= hi -> forall cursor found new, 0 <= cursor ->
  note_loop fuel b a finish cursor found = Ok (found ++ new) ->
  hi <= cursor \/ finish <= lo \/ finish <= cursor \/
    (exists o, o ∈ new /\ descriptor_offset o <= lo /\ hi <= descriptor_offset o + DESCRIPTOR_LEN) ->
  note_loop fuel b' a finish cursor found = Ok (found ++ new).
Proof using Hb Hf.
  intros Ho Hlh. induction fuel as [|fuel IH]; intros cursor found new Hc H Hd; [done |]. cbn [note_loop] in *.
  destruct (Z.ltb_spec cursor finish) as [Hlt|]; cbn [negb] in *; [|done].
  destruct (note_at b finish cursor) as [[next o]| |] eqn:E; [|done|done].
  destruct (note_at_Ok _ _ _ _ _ Hb Hc Hf E) as (Hn & _ & Hdo & Hsame). pose proof (proj1 Ho) as Hlen. specialize (Hsame b' ltac:(lia)).
  assert (forall x y, 0 <= x -> y <= x \/ hi <= x \/ y <= lo -> same b b' x y) as Hs by (intros; by eapply outside_same).
  destruct o as [d|].
  - destruct (Hdo d eq_refl) as (D1 & D2 & _). unfold DESCRIPTOR_LEN in *. destruct (_ =? 2)%nat; [done |].
    destruct (note_loop_Ok fuel next _ _ ltac:(lia) H) as (n1 & E1 & Hn1). rewrite E1 in H. rewrite <- app_assoc in E1. apply app_inv_head in E1. cbn [app] in E1. subst new.
    assert (hi <= cursor \/ finish <= lo \/ (d <= lo /\ hi <= d + 146) \/
      (exists o, o ∈ n1 /\ descriptor_offset o <= lo /\ hi <= descriptor_offset o + 146)) as Hcase.
    { destruct Hd as [?|[?|[?|(o & Ho1 & Ho2)]]]; [auto | auto | lia |]. apply elem_of_cons in Ho1 as [->|Ho1]; [cbn in Ho2; tauto |].
      right. right. right. exists o. tauto. }
    assert (next <= lo \/ hi <= cursor \/ (d <= lo /\ hi <= d + 146)) as Hpos.
    { destruct Hcase as [?|[?|[?|(o & Ho1 & Ho2)]]]; [auto | lia | auto |]. rewrite Forall_forall in Hn1. destruct (Hn1 o Ho1) as (_ & ? & _). lia. }
    rewrite Hsame by (split; apply Hs; lia).
    replace (found ++ {| descriptor_offset := d; area := a |} :: n1) with ((found ++ [{| descriptor_offset := d; area := a |}]) ++ n1)
      by (by rewrite <- app_assoc).
    apply IH; [lia | done |]. destruct Hcase as [?|[?|[?|?]]]; [lia | lia | lia | by right; right; right].
  - destruct (note_loop_Ok fuel next _ _ ltac:(lia) H) as (n1 & E1 & Hn1). apply app_inv_head in E1. subst n1.
    assert (next <= lo \/ hi <= cursor) as Hpos.
    { destruct Hd as [?|[?|[?|(o & Ho1 & Ho2)]]]; [lia | lia | lia |]. rewrite Forall_forall in Hn1. destruct (Hn1 o Ho1) as (_ & ? & _). lia. }
    rewrite Hsame by (apply Hs; lia). apply IH; [lia | done |]. destruct Hd as [?|[?|[?|?]]]; [lia | lia | lia | by right; right; right].
Qed.

End Walk.

(** ** Scanning the areas *)

Definition area_ok (a : NoteArea) : Prop := 0 <= na_offset a /\ 0 <= na_size a.

(** The area does not touch [lo .. hi); it has a signature whose descriptor contains [lo .. hi). *)
Definition clear_of (lo hi : Z) (a : NoteArea) : Prop := na_size a = 0 \/ hi <= na_offset a \/ na_offset a + na_size a <= lo.
Definition carries (b : list Z) (lo hi : Z) (a : NoteArea) : Prop :=
  exists found new o, parse_note_area b a found = Ok (found ++ new) /\ o ∈ new /\
    descriptor_offset o <= lo /\ hi <= descriptor_offset o + DESCRIPTOR_LEN.

Section Scan.
Context (b : list Z) (Hb : Forall is_u8 b).

Lemma parse_note_area_no_panic a found : area_ok a -> parse_note_area b a found <> Panic.
Proof using Hb.
  intros [H1 H2]. unfold parse_note_area. destruct (checked_end _ _ _) as [e| |] eqn:E; [|done | by apply checked_end_no_panic in E].
  apply checked_end_Ok in E as (-> & ? & _). apply note_loop_no_panic; try done; lia.
Qed.

Lemma parse_note_area_Ok a found res : area_ok a -> parse_note_area b a found = Ok res ->
  na_offset a + na_size a <= len b /\ exists new, res = found ++ new /\ Forall (found_in a (na_offset a) (na_offset a + na_size a)) new.
Proof using Hb.
  intros [H1 H2] H. unfold parse_note_area in H. destruct (checked_end _ _ _) as [e| |] eqn:E; [|done|done].
  apply checked_end_Ok in E as (-> & ? & _). split; [done |]. by apply note_loop_Ok in H.
Qed.

Lemma parse_note_area_outside b' lo hi a found res : outside b b' lo hi -> lo <= hi -> area_ok a -> parse_note_area b a found = Ok res ->
  clear_of lo hi a \/ carries b lo hi a -> parse_note_area b' a found = Ok res.
Proof using Hb.
  intros Ho Hlh [H1 H2] H Hcase. destruct (parse_note_area_Ok a found res (conj H1 H2) H) as (_ & new & -> & _).
  unfold parse_note_area in *. rewrite (proj1 Ho). destruct (checked_end _ _ _) as [e| |] eqn:E; [|done|done].
  apply checked_end_Ok in E as (-> & ? & ?). apply (note_loop_outside b a _ Hb) with (lo := lo) (hi := hi); try done.
  destruct Hcase as [[?|[?|?]]|(f & n & o & Hn & Hin & Hlo)]; [lia | lia | lia |]. right. right. right. exists o. split; [|done].
  unfold parse_note_area in Hn. rewrite (proj2 (checked_end_Ok _ _ _ (na_offset a + na_size a))) in Hn by (split_and!; done || lia).
  by rewrite <- (note_loop_det b a (na_offset a + na_size a) Hb ltac:(done) _ _ _ _ _ _ Hn H H1).
Qed.

Lemma scan_areas_no_panic areas : Forall area_ok areas -> forall remaining found, scan_areas b remaining areas found <> Panic.
Proof using Hb.
  induction 1 as [|a areas Ha _ IH]; intros remaining found; cbn [scan_areas]; [done |]. step_result.
  pose proof (parse_note_area_no_panic a found Ha). destruct (parse_note_area b a found); [apply IH | done | done].
Qed.

Lemma scan_areas_Ok areas : Forall area_ok areas -> forall remaining found res, scan_areas b remaining areas found = Ok res ->
  forall o, o ∈ res -> o ∈ found \/ area o ∈ areas /\
    found_in (area o) (na_offset (area o)) (na_offset (area o) + na_size (area o)) o /\
    exists f n, parse_note_area b (area o) f = Ok (f ++ n) /\ o ∈ n.
Proof using Hb.
  induction 1 as [|a areas Ha _ IH]; intros remaining found res H o Ho; cbn [scan_areas] in H; [injection H as <-; auto |].
  destruct (_ <? _); [done |]. destruct (parse_note_area b a found) as [found'| |] eqn:E; [|done|done].
  destruct (parse_note_area_Ok a found found' Ha E) as (_ & new & -> & Hn). destruct (IH _ _ _ H o Ho) as [Hin|(H1 & H2 & H3)].
  - apply elem_of_app in Hin as [|Hin]; [auto | right]. rewrite Forall_forall in Hn. pose proof (Hn o Hin) as Hf. destruct (proj1 Hf).
    split_and!; [by left | done | eauto].
  - right. split_and!; [by right | done | done].
Qed.

Lemma scan_areas_keeps areas o : Forall area_ok areas -> forall remaining found res, scan_areas b remaining areas found = Ok res ->
  o ∈ found -> o ∈ res.
Proof using Hb.
  induction 1 as [|a areas Ha Has IH]; intros remaining found res H Ho; cbn [scan_areas] in H; [by injection H as <- |].
  destruct (_ <? _); [done |]. destruct (parse_note_area b a found) as [found'| |] eqn:E; [|done|done].
  destruct (parse_note_area_Ok a found found' Ha E) as (_ & new & -> & _). eapply IH; [exact H |]. by apply elem_of_app; left.
Qed.

Lemma scan_areas_found areas a o : Forall area_ok areas -> forall remaining found res, scan_areas b remaining areas found = Ok res ->
  a ∈ areas -> (forall f r, parse_note_area b a f = Ok r -> o ∈ r) -> o ∈ res.
Proof using Hb.
  induction 1 as [|a' areas Ha Has IH]; intros remaining found res H Hin Ho; [by apply not_elem_of_nil in Hin |]. cbn [scan_areas] in H.
  destruct (_ <? _); [done |]. destruct (parse_note_area b a' found) as [found'| |] eqn:E; [|done|done].
  apply elem_of_cons in Hin as [->|Hin]; [|by eapply IH]. apply Ho in E. by eapply scan_areas_keeps.
Qed.

Lemma scan_areas_outside b' lo hi areas : outside b b' lo hi -> lo <= hi -> Forall area_ok areas ->
  Forall (fun a => clear_of lo hi a \/ carries b lo hi a) areas -> forall remaining found res,
  scan_areas b remaining areas found = Ok res -> scan_areas b' remaining areas found = Ok res.
Proof using Hb.
  intros Ho Hlh. induction areas as [|a areas IH]; intros Hok Hc remaining found res H; [done |]. cbn [scan_areas] in *.
  apply Forall_cons in Hok as [Ha Hok]. apply Forall_cons in Hc as [Hca Hc]. destruct (_ <? _); [done |].
  destruct (parse_note_area b a found) as [found'| |] eqn:E; [|done|done].
  rewrite (parse_note_area_outside b' lo hi a found found') by done. by apply IH.
Qed.

End Scan.

Lemma section_note_areas_elem ss : forall k a, a ∈ section_note_areas k ss <->
  exists j s, ss !! j = Some s /\ section_type s = SHT_NOTE /\
    a = {| na_offset := sh_offset s; na_size := sh_size s; origin := FromSection (k + j) |}.
Proof.
  induction ss as [|s ss IH]; intros k a; cbn [section_note_areas].
  { split; [by intros ?%not_elem_of_nil | by intros (j & s & [=] & _)]. }
  assert ((exists j t, (s :: ss) !! j = Some t /\ section_type t = SHT_NOTE /\
      a = {| na_offset := sh_offset t; na_size := sh_size t; origin := FromSection (k + j) |}) <->
    (section_type s = SHT_NOTE /\ a = {| na_offset := sh_offset s; na_size := sh_size s; origin := FromSection k |}) \/
    a ∈ section_note_areas (S k) ss) as ->.
  { rewrite IH. split.
    - intros ([|j] & t & Hj & Ht & ->); [injection Hj as <-; left; by rewrite Nat.add_0_r | right; exists j, t; by rewrite Nat.add_succ_comm].
    - intros [[Ht ->]|(j & t & Hj & Ht & ->)]; [exists 0%nat, s; by rewrite Nat.add_0_r | exists (S j), t; by rewrite <- Nat.add_succ_comm]. }
  destruct (Z.eqb_spec (section_type s) SHT_NOTE); [rewrite elem_of_cons; naive_solver | naive_solver].
Qed.

(** ** The record *)

(** What the parser promises of an image. *)
Record image (b : list Z) (elf : Elf) : Prop := {
  im_u8 : Forall is_u8 b;
  im_bytes : elf_bytes elf = b;
  im_sections : forall j s, sections elf !! j = Some s ->
    0 <= sh_offset s /\ 0 <= sh_size s /\ (section_type s <> 8 -> in_file b (sh_offset s) (sh_size s) /\ sh_offset s + sh_size s <= USIZE_MAX);
  im_notes : Forall (program_note b) (program_notes elf);
  im_len : len b <= MAX_ELF_LEN }.

Lemma header_at_bounds b raw s : Forall is_u8 b -> header_at b raw s ->
  0 <= sh_offset s /\ 0 <= sh_size s /\ (section_type s <> 8 -> in_file b (sh_offset s) (sh_size s) /\ sh_offset s + sh_size s <= USIZE_MAX).
Proof.
  intros Hb Hs. pose proof (header_at_range _ _ _ Hb Hs) as (_ & H1 & H2). split_and!; [done | done |]. intros Ht.
  split; [by eapply header_at_in_file | by apply Hs].
Qed.

Lemma parse_elf_image try_reserve b limits elf : Forall is_u8 b -> parse_elf_with_limits try_reserve b limits = Ok elf -> image b elf.
Proof.
  intros Hb H. destruct (parse_elf_Ok _ _ _ _ Hb H) as (H1 & H2 & H3 & _ & H5 & _).
  destruct (parse_sections_Ok _ _ _ _ _ _ _ Hb H3) as (shoff & shnum & _ & _ & [_ _ _ _ _ _ _ Hh _ _]).
  destruct (parse_program_headers_same try_reserve b b limits _ _ _ Hb ltac:(lia) H2) as (_ & Hn & _); try done.
  split; try done.
  - intros j s Hj. specialize (Hh j s Hj). by apply header_at_bounds in Hh.
  - unfold check_header in H1. destruct (Z.ltb_spec MAX_ELF_LEN (len b)); [done | lia].
Qed.

Lemma image_areas b elf : image b elf -> Forall area_ok (note_areas elf).
Proof.
  intros Hi. apply Forall_app. split.
  - apply Forall_forall. intros a (j & s & Hj & _ & ->)%section_note_areas_elem. destruct (im_sections _ _ Hi j s Hj) as (? & ? & _). done.
  - eapply Forall_impl; [apply Hi |]. intros a [(? & ? & _) _]. done.
Qed.

Lemma choose_occurrence_Ok i occurrences o : choose_occurrence i occurrences = Ok (Some o) ->
  o ∈ occurrences /\ forall o', o' ∈ occurrences -> descriptor_offset o' = descriptor_offset o.
Proof.
  unfold choose_occurrence. destruct occurrences as [|a [|c [|]]]; [by case_bool_decide | | |done].
  - intros [= <-]. set_solver.
  - destruct (_ && _) eqn:E; [|done]. bool_cases. intros [= <-]. split; [by left |]. intros o' Ho'. set_solver.
Qed.

Lemma find_signature_section_Ok elf ss : forall index seen i, find_signature_section elf index ss seen = Ok (Some i) ->
  seen = Some i \/ exists j s, ss !! j = Some s /\ i = (index + j)%nat /\ section_type s = SHT_NOTE /\ section_name elf s = Ok SIGNATURE_SECTION.
Proof.
  induction ss as [|s ss IH]; intros index seen i H; cbn [find_signature_section] in H; [injection H as <-; auto |].
  destruct (section_name elf s) as [nm| |] eqn:E; [|done|done]. destruct (bool_decide (nm = SIGNATURE_SECTION)) eqn:En.
  - destruct (negb _) eqn:C; [done |]. bool_cases. subst nm. destruct (bool_decide (is_Some seen)); [done |].
    apply IH in H as [[= <-]|(j & t & Hj & -> & Ht)]; right; [exists 0%nat, s; by rewrite Nat.add_0_r | exists (S j), t; rewrite <- Nat.add_succ_comm; done].
  - apply IH in H as [->|(j & t & Hj & -> & Ht)]; [by left | right]. exists (S j), t. rewrite <- Nat.add_succ_comm. done.
Qed.

Lemma find_signature_section_ext elf elf' ss : shstr elf' = shstr elf -> forall index seen,
  find_signature_section elf' index ss seen = find_signature_section elf index ss seen.
Proof.
  intros E. induction ss as [|s ss IH]; intros index seen; cbn [find_signature_section]; [done |].
  replace (section_name elf' s) with (section_name elf s) by (unfold section_name; by rewrite E).
  destruct (section_name elf s); [|done|done]. by rewrite !IH.
Qed.

Lemma check_other_sections_Ok descriptor org ss : forall index, check_other_sections descriptor org index ss = Ok tt ->
  forall j s, ss !! j = Some s -> section_type s <> 8 -> sh_size s <> 0 -> org <> FromSection (index + j) ->
    overlaps descriptor (sh_offset s, sh_offset s + sh_size s) = false.
Proof.
  induction ss as [|s ss IH]; intros index H j t Hj Ht Hs Ho; [done |]. cbn [check_other_sections] in H.
  destruct ((section_type s =? 8) || (sh_size s =? 0)) eqn:C.
  - destruct j as [|j]; [injection Hj as ->; apply orb_true_iff in C as [C|C]; bool_cases; done |].
    apply (IH _ H j); try done. by rewrite Nat.add_succ_comm.
  - destruct (add_usize _ _) as [fin| |] eqn:E; [|done|done]. apply add_usize_Ok in E as [-> _]. cbv zeta in H.
    destruct (_ && _) eqn:C2; [done |]. destruct j as [|j]; [|apply (IH _ H j); try done; by rewrite Nat.add_succ_comm].
    injection Hj as ->. rewrite Nat.add_0_r in Ho. apply andb_false_iff in C2 as [C2|C2]; [|done]. bool_cases.
    destruct org as [o|]; [|done]. bool_cases. congruence.
Qed.

(** The descriptor at [d] in section [i], apart from everything else. *)
Record signature_at (b : list Z) (elf : Elf) (d : Z) (i : nat) (s : SectionHeader) : Prop := {
  si_section : sections elf !! i = Some s;
  si_type : section_type s = SHT_NOTE;
  si_name : section_name elf s = Ok SIGNATURE_SECTION;
  si_find : find_signature_section elf 0 (sections elf) None = Ok (Some i);
  si_inside : sh_offset s <= d /\ d + DESCRIPTOR_LEN <= sh_offset s + sh_size s;
  si_file : 64 <= d /\ d + DESCRIPTOR_LEN <= len b;
  si_headers : table_overlaps (program_header_table elf) (d, d + DESCRIPTOR_LEN) = false /\
               table_overlaps (section_header_table elf) (d, d + DESCRIPTOR_LEN) = false;
  si_loads : Forall (fun r => overlaps (d, d + DESCRIPTOR_LEN) r = false) (load_segments elf);
  si_others : forall j t, j <> i -> sections elf !! j = Some t -> section_type t <> 8 -> sh_size t <> 0 ->
                overlaps (d, d + DESCRIPTOR_LEN) (sh_offset t, sh_offset t + sh_size t) = false;
  si_carries : carries b d (d + DESCRIPTOR_LEN) {| na_offset := sh_offset s; na_size := sh_size s; origin := FromSection i |} }.

Lemma validate_location_Ok elf o : validate_signature_location elf o = Ok tt -> 0 <= descriptor_offset o ->
  let d := descriptor_offset o in let r := (d, d + DESCRIPTOR_LEN) in
  64 <= d /\ d + DESCRIPTOR_LEN <= len (elf_bytes elf) /\ table_overlaps (program_header_table elf) r = false /\
  table_overlaps (section_header_table elf) r = false /\ Forall (fun x => overlaps r x = false) (load_segments elf) /\
  check_other_sections r (origin (area o)) 0 (sections elf) = Ok tt.
Proof.
  unfold validate_signature_location. intros H Hd. destruct (checked_end _ _ _) as [fin| |] eqn:E; [|done|done].
  apply checked_end_Ok in E as (-> & ? & _). cbv zeta in *. destruct (overlaps _ _) eqn:C1; [done |]. destruct (table_overlaps _ _) eqn:C2; [done |].
  destruct (table_overlaps (section_header_table elf) _) eqn:C3; [done |]. destruct (existsb _ _) eqn:C4; [done |].
  apply overlaps_false in C1. cbn [fst snd] in C1. unfold ELF64_HEADER_LEN, DESCRIPTOR_LEN in *. split_and!; try done; [lia |].
  apply Forall_forall. intros x Hx. destruct (overlaps _ x) eqn:Ex; [|done].
  assert (existsb (overlaps (descriptor_offset o, descriptor_offset o + 146)) (load_segments elf) = true) by (apply existsb_elem; eauto). congruence.
Qed.

Section Locate.
Context (try_reserve : Z -> bool).

Lemma locate_record_in_Ok b elf record : image b elf -> locate_record_in try_reserve elf = Ok (Some record) ->
  exists d i s, signature_at b elf d i s /\ parse_record b d = Ok record /\
    (forall a o, a ∈ note_areas elf -> (forall f r, parse_note_area b a f = Ok r -> o ∈ r) -> descriptor_offset o = d) /\
    (forall b' lo record', outside b b' lo (d + DESCRIPTOR_LEN) -> d <= lo <= d + DESCRIPTOR_LEN ->
       Forall (clear_of lo (d + DESCRIPTOR_LEN)) (program_notes elf) ->
       parse_record b' d = Ok record' -> locate_record_in try_reserve (with_bytes elf b') = Ok (Some record')).
Proof.
  intros Him H. pose proof (image_areas _ _ Him) as Hareas. pose proof (im_bytes _ _ Him) as Eb. pose proof (im_u8 _ _ Him) as Hb.
  unfold locate_record_in in *. rewrite Eb in *.
  destruct (find_signature_section elf 0 (sections elf) None) as [si| |] eqn:E1; [|done|done].
  destruct (reserve _ _ _) as [[]| |] eqn:E2; [|done|done].
  destruct (scan_areas b (note_scan_limit elf) (note_areas elf) []) as [occ| |] eqn:E3; [|done|done].
  destruct (choose_occurrence si occ) as [[o|]| |] eqn:E4; [|done|done|done]. destruct si as [i|]; [|done].
  destruct (sections elf !! i) as [s|] eqn:Es; [|done]. destruct (add_usize _ _) as [se| |] eqn:E5; [|done|done].
  destruct ((_ <? sh_offset s) || _) eqn:E6; [done |]. pose proof E6 as [G1 G2]%orb_false_iff. apply Z.ltb_ge in G1, G2.
  destruct (validate_signature_location elf o) as [[]| |] eqn:E7; [|done|done].
  destruct (parse_record b (descriptor_offset o)) as [rc| |] eqn:E8; [|done|done]. injection H as <-.
  apply add_usize_Ok in E5 as H5. destruct H5 as [-> _].
  apply find_signature_section_Ok in E1 as H1. destruct H1 as [[=]|(j & s' & Hj & Ei & Ht & Hnm)]. cbn in Ei. subst j. rewrite Es in Hj. injection Hj as <-.
  destruct (im_sections _ _ Him i s Es) as (So & Ss & Sf).
  destruct (validate_location_Ok elf o E7 ltac:(lia)) as (V1 & V2 & V3 & V4 & V5 & V6). rewrite Eb in V2.
  destruct (choose_occurrence_Ok _ _ _ E4) as [Ho Hall].
  destruct (scan_areas_Ok b Hb _ Hareas _ _ _ E3 o Ho) as [?%not_elem_of_nil|(Ha & (_ & F1 & F2) & f & n & Hp & Hin)]; [done |].
  assert (origin (area o) = FromSection i) as Horg.
  { destruct (decide (origin (area o) = FromSection i)) as [|Hne]; [done | exfalso].
    pose proof (check_other_sections_Ok _ _ _ _ V6 i s Es) as Hov. rewrite Ht in Hov.
    specialize (Hov ltac:(done) ltac:(unfold DESCRIPTOR_LEN in *; lia) Hne). apply overlaps_false in Hov. cbn [fst snd] in Hov.
    unfold DESCRIPTOR_LEN in *. lia. }
  assert (area o = {| na_offset := sh_offset s; na_size := sh_size s; origin := FromSection i |}) as Earea.
  { apply elem_of_app in Ha as [(j & t & Hj & Htt & E)%section_note_areas_elem|Ha].
    - rewrite E in Horg. cbn in Horg. injection Horg as ->. rewrite Es in Hj. by injection Hj as <-.
    - pose proof (im_notes _ _ Him) as Hn. rewrite Forall_forall in Hn. destruct (Hn _ Ha) as [_ [k Hk]]. congruence. }
  assert (carries b (descriptor_offset o) (descriptor_offset o + DESCRIPTOR_LEN)
    {| na_offset := sh_offset s; na_size := sh_size s; origin := FromSection i |}) as Hcar.
  { rewrite <- Earea. exists f, n, o. split_and!; done || lia. }
  assert (signature_at b elf (descriptor_offset o) i s) as Hsig.
  { split; try done. intros j t Hne Hjt Ht8 Hsz. apply (check_other_sections_Ok _ _ _ _ V6 j t); try done. rewrite Horg. cbn. congruence. }
  exists (descriptor_offset o), i, s. split_and!; [done | done | |].
  - intros a o' Hin' Ho'. apply Hall. by eapply (scan_areas_found b Hb).
  - intros b' lo record' Hout Hlo Hclear Hrec. cbn [with_bytes sections elf_bytes note_scan_limit].
    rewrite (find_signature_section_ext elf (with_bytes elf b')), E1 by done.
    assert (scan_areas b' (note_scan_limit elf) (note_areas (with_bytes elf b')) [] = Ok occ) as ->.
    { apply (scan_areas_outside b Hb b' lo (descriptor_offset o + DESCRIPTOR_LEN)); [done | lia | done | | done].
      apply Forall_app. split; [|eapply Forall_impl; [exact Hclear |]; by left].
      apply Forall_forall. intros a (j & t & Hj & Htt & ->)%section_note_areas_elem. cbn [with_bytes sections] in Hj. destruct (decide (j = i)) as [->|Hne].
      - rewrite Es in Hj. injection Hj as <-. right. destruct Hcar as (f' & n' & o' & P1 & P2 & P3 & P4). exists f', n', o'. split_and!; done || lia.
      - left. unfold clear_of. cbn. destruct (decide (sh_size t = 0)); [by left | right].
        pose proof (si_others _ _ _ _ _ Hsig j t Hne Hj ltac:(by rewrite Htt) ltac:(done)) as Hov%overlaps_false. cbn in Hov. lia. }
    rewrite E4, Es, E5, E6.
    assert (validate_signature_location (with_bytes elf b') o = validate_signature_location elf o) as ->.
    { unfold validate_signature_location. cbn [elf_bytes with_bytes]. by rewrite (proj1 Hout), Eb. }
    by rewrite E7, Hrec.
Qed.

End Locate.

(** ** The fields of the record *)

Lemma get_get l a b s x y : get l a b = Some s -> 0 <= x <= y -> y <= b - a -> get s x y = get l (a + x) (a + y).
Proof.
  intros Hs Hx Hy. pose proof (get_len _ _ _ _ Hs) as Hl. pose proof Hs as (H1 & H2 & Es)%get_Some.
  rewrite (get_ok s) by lia. rewrite (get_ok l) by lia. rewrite Es. f_equal. rewrite skipn_firstn_comm, drop_drop.
  replace (Z.to_nat (a + y - (a + x))) with (Z.to_nat (y - x)) by lia. rewrite take_take. f_equal; [lia |]. f_equal. lia.
Qed.

Lemma range_get l a b s x y : get l a b = Some s -> 0 <= x <= y -> y <= b - a -> range s x y = range l (a + x) (a + y).
Proof. intros H1 H2 H3. unfold range. by rewrite (get_get l a b s x y H1 H2 H3). Qed.

Lemma byte_at_get l a b s i : get l a b = Some s -> 0 <= i < b - a -> byte_at s i = byte_at l (a + i).
Proof. intros Hs Hi. unfold byte_at. by rewrite (get_lookup _ _ _ _ _ Hs Hi). Qed.

Lemma read_le_get n l a b s x : get l a b = Some s -> 0 <= n -> 0 <= x -> x + n <= b - a -> a + x + n <= USIZE_MAX ->
  read_le n s x = read_le n l (a + x).
Proof.
  intros Hs Hn Hx Hy Hm. pose proof Hs as (H1 & H2 & _)%get_Some. unfold read_le, checked_add_usize.
  rewrite !(proj2 (Z.leb_le _ _)) by lia. cbn [context ok_or]. rewrite (get_get l a b s) by (done || lia). by rewrite Z.add_assoc.
Qed.

(** The record at [d], field by field. *)
Record record_at (b : list Z) (d : Z) (r : SigRecord) : Prop := {
  ra_magic : get b d (d + 8) = Some DESCRIPTOR_MAGIC;
  ra_version : read_u16 b (d + 8) = Ok VERSION;
  ra_kind : byte_at b (d + 10) = Ok (match kind r with AdHoc => KIND_ADHOC | Ed25519 => KIND_ED25519 end);
  ra_reserved : byte_at b (d + 13) = Ok 0;
  ra_flags : read_u32 b (d + 14) = Ok (flags r);
  ra_key : get b (d + 18) (d + 50) = Some (key_id r);
  ra_digest : get b (d + 50) (d + 82) = Some (digest r);
  ra_signature : get b (d + 82) (d + 146) = Some (signature r);
  ra_da : byte_at b (d + 11) = Ok (digest_algorithm r);
  ra_sa : byte_at b (d + 12) = Ok (signature_algorithm r);
  ra_offsets : digest_file_offset r = d + 50 /\ signature_file_offset r = d + 82 }.

Lemma parse_record_Ok b d r : 0 <= d -> len b <= MAX_ELF_LEN ->
  parse_record b d = Ok r <-> d + DESCRIPTOR_LEN <= len b /\ record_at b d r.
Proof.
  intros Hd Hlen. unfold parse_record. unfold MAX_ELF_LEN in Hlen. destruct (Z.leb_spec (d + DESCRIPTOR_LEN) (len b)) as [Hl|Hl].
  2: { split; [|lia]. intros H. destruct (checked_end _ _ _) as [e| |] eqn:E; [|done|done]. apply checked_end_Ok in E as (-> & ? & _). lia. }
  rewrite (proj2 (checked_end_Ok d DESCRIPTOR_LEN (len b) (d + DESCRIPTOR_LEN))) by (unfold DESCRIPTOR_LEN in *; widths; lia).
  unfold DESCRIPTOR_LEN in *. pose proof (get_ok b d (d + 146) ltac:(lia) Hl) as Hs. set (s := take _ _) in Hs. clearbody s.
  unfold range at 1. rewrite Hs. unfold KEY_ID_OFFSET, DIGEST_OFFSET, SIGNATURE_OFFSET, read_u16, read_u32.
  rewrite !(range_get b d (d + 146) s) by (done || lia). rewrite !(byte_at_get b d (d + 146) s) by (done || lia).
  rewrite !(read_le_get _ b d (d + 146) s) by (done || lia || (widths; lia)). rewrite Z.add_0_r. split.
  - intros H. split; [done |]. inv_ok H; bool_cases; subst; repeat match goal with E : range _ _ _ = Ok _ |- _ => apply range_Ok in E end;
      injection H as <-; split; cbn; try done; try congruence.
    repeat case_match; bool_cases; simplify_eq; congruence.
  - intros (_ & R). destruct R. unfold read_u16, read_u32, range in *. rewrite ra_magic0, ra_version0, ra_kind0, ra_reserved0, ra_flags0.
    rewrite bool_decide_eq_true_2 by done. cbn [negb]. replace (VERSION =? VERSION) with true by done. cbn [negb].
    change (18 + 32) with 50. change (50 + 32) with 82. change (82 + 64) with 146. rewrite ra_key0, ra_digest0, ra_signature0, ra_da0, ra_sa0. destruct ra_offsets0 as [O1 O2].
    destruct r as [[] ? ? ? ? ? ? ? ?]; cbn in *; by subst.
Qed.
