(* ===== verification/ElfVerify.v ===== *)
(** * Verification of signed ELF images

    No byte string makes the verifier panic, what an accepted image is, and that accepted images with the same digest are the
    same image. *)

From Stdlib Require Import String.
From S2P Require Import Prelude Text Fields ElfSignature ElfParse ElfLocate.

(** ** No panic *)

Lemma section_name_no_panic elf s : section_name elf s <> Panic.
Proof. unfold section_name. repeat step_result. auto with nopanic. Qed.
#[export] Hint Resolve section_name_no_panic reserve_no_panic : nopanic.

Lemma find_signature_section_no_panic elf ss : forall index seen, find_signature_section elf index ss seen <> Panic.
Proof. induction ss as [|s ss IH]; intros; cbn [find_signature_section]; [done |]. repeat step_result; apply IH. Qed.

Lemma choose_occurrence_no_panic i occurrences : choose_occurrence i occurrences <> Panic.
Proof. unfold choose_occurrence. by repeat case_match. Qed.
#[export] Hint Resolve find_signature_section_no_panic choose_occurrence_no_panic : nopanic.

(** Sections with bytes in the file have an end. *)
Definition ends_in_file (s : SectionHeader) : Prop := section_type s <> 8 -> sh_offset s + sh_size s <= USIZE_MAX.

Lemma image_ends b elf : image b elf -> Forall ends_in_file (sections elf).
Proof.
  intros Him. apply Forall_forall. intros s (j & Hj)%list_elem_of_lookup_1. intros Ht.
  destruct (im_sections _ _ Him j s Hj) as (_ & _ & H). by apply H.
Qed.

Lemma check_other_sections_no_panic descriptor org ss : Forall ends_in_file ss -> forall index,
  check_other_sections descriptor org index ss <> Panic.
Proof.
  induction 1 as [|s ss Hs _ IH]; intros index; cbn [check_other_sections]; [done |].
  destruct (_ || _) eqn:C; [apply IH |]. bool_cases. rewrite (proj2 (add_usize_Ok _ _ _) (conj eq_refl (Hs ltac:(done)))).
  step_result. apply IH.
Qed.

Lemma others_overlap_no_panic r index ss : Forall ends_in_file ss -> forall other, others_overlap r index other ss <> Panic.
Proof.
  induction 1 as [|s ss Hs _ IH]; intros other; cbn [others_overlap]; [done |].
  destruct (_ && _) eqn:C; [|apply IH]. bool_cases. rewrite (proj2 (add_usize_Ok _ _ _) (conj eq_refl (Hs ltac:(done)))).
  step_result. apply IH.
Qed.

Lemma validate_signature_location_no_panic b elf o : image b elf -> validate_signature_location elf o <> Panic.
Proof.
  intros Him. unfold validate_signature_location. repeat step_result. by eapply check_other_sections_no_panic, image_ends.
Qed.

Lemma byte_at_ok l i : 0 <= i < len l -> exists v, byte_at l i = Ok v.
Proof. intros Hi. unfold byte_at. destruct (lookup_lt_is_Some_2 l (Z.to_nat i)) as [v ->]; [unfold len in Hi; lia | eauto]. Qed.

Lemma sig_record_no_panic b d : 0 <= d -> parse_record b d <> Panic.
Proof.
  intros Hd. unfold parse_record. destruct (checked_end _ _ _) as [e| |] eqn:E; [|done | by apply checked_end_no_panic in E].
  apply checked_end_Ok in E as (-> & H1 & _). unfold DESCRIPTOR_LEN in *. destruct (range_ok b d (d + 146)) as (s & -> & Hl); [lia | lia |].
  destruct (range_ok s 0 8) as (s0 & -> & _); [lia | lia |]. step_result. do 2 step_result.
  destruct (byte_at_ok s 10) as [? ->]; [lia |]. destruct (byte_at_ok s 11) as [? ->]; [lia |].
  destruct (byte_at_ok s 12) as [? ->]; [lia |]. destruct (byte_at_ok s 13) as [? ->]; [lia |].
  unfold KEY_ID_OFFSET, DIGEST_OFFSET, SIGNATURE_OFFSET. destruct (range_ok s 18 (18 + 32)) as (? & -> & _); [lia | lia |].
  destruct (range_ok s 50 (50 + 32)) as (? & -> & _); [lia | lia |]. destruct (range_ok s 82 (82 + 64)) as (? & -> & _); [lia | lia |].
  repeat step_result.
Qed.
#[export] Hint Resolve sig_record_no_panic : nopanic.

Lemma locate_record_in_no_panic try_reserve b elf : image b elf -> locate_record_in try_reserve elf <> Panic.
Proof.
  intros Him. pose proof (im_u8 _ _ Him) as Hb. unfold locate_record_in. rewrite (im_bytes _ _ Him).
  pose proof (find_signature_section_no_panic elf (sections elf) 0 None).
  destruct (find_signature_section _ _ _ _) as [si| |] eqn:E1; [|done|done]. step_result.
  pose proof (scan_areas_no_panic b Hb _ (image_areas _ _ Him) (note_scan_limit elf) []).
  destruct (scan_areas _ _ _ _) as [occ| |] eqn:E3; [|done|done]. pose proof (choose_occurrence_no_panic si occ).
  destruct (choose_occurrence si occ) as [[o|]| |] eqn:E4; [|done|done|done]. destruct si as [i|]; [|done].
  apply find_signature_section_Ok in E1 as [[=]|(j & s & Hj & Ei & Ht & _)]. cbn in Ei. subst j. rewrite Hj.
  destruct (im_sections _ _ Him i s Hj) as (So & _ & Hs). rewrite (proj2 (add_usize_Ok _ _ _) (conj eq_refl (proj2 (Hs ltac:(by rewrite Ht))))).
  destruct (_ || _) eqn:C; [done |]. apply orb_false_iff in C as [C _]. apply Z.ltb_ge in C.
  pose proof (validate_signature_location_no_panic b elf o Him). destruct (validate_signature_location _ _); [|done|done].
  pose proof (sig_record_no_panic b (descriptor_offset o) ltac:(lia)). by destruct (parse_record _ _).
Qed.

Lemma manifest_section_no_panic b elf i s : image b elf -> sections elf !! i = Some s -> manifest_section elf i s <> Panic.
Proof.
  intros Him Hi. unfold manifest_section. rewrite (im_bytes _ _ Him). cbv zeta.
  destruct (im_sections _ _ Him i s Hi) as (S1 & S2 & S3). destruct (negb (section_type s =? SHT_PROGBITS)) eqn:C1; cbn [orb]; [done |].
  apply negb_false_iff, Z.eqb_eq in C1. rewrite C1 in S3. destruct (S3 ltac:(done)) as [(_ & _ & S4) S5].
  match goal with |- match ?m with _ => _ end <> _ => destruct m as [shape| |] eqn:E end; [|done|].
  2: { match type of E with ?m = _ => cut (m <> Panic); [done |] end. repeat step_result. }
  destruct shape; [|done]. cbn [negb].
  assert (HEADER_LEN < sh_size s) as Hsz.
  { inv_ok E; [done..|]. injection E as E. apply andb_true_iff in E as [E _]. apply andb_true_iff in E as [_ E]. apply negb_true_iff, Z.leb_gt in E. done. }
  rewrite (proj2 (add_usize_Ok _ _ _) (conj eq_refl S5)). cbn [fst snd].
  pose proof (others_overlap_no_panic (sh_offset s, sh_offset s + sh_size s) i (sections elf) (image_ends _ _ Him) 0) as Ho.
  step_result; [done |]. destruct (others_overlap _ _ _ _) as [[]| |]; [done | | done | done].
  unfold HEADER_LEN in *. destruct (range_ok b (sh_offset s) (sh_offset s + sh_size s)) as (data & -> & Hl); [lia | lia |].
  destruct (range_ok data 0 8) as (m & -> & _); [lia | lia |]. destruct (range_ok data 16 (len data)) as (m' & -> & _); [lia | lia |].
  repeat step_result. unfold manifest_text. repeat step_result.
Qed.

Lemma locate_loop_no_panic b elf ss : image b elf -> forall index found,
  (forall j s, ss !! j = Some s -> sections elf !! (index + j)%nat = Some s) -> locate_loop elf index ss found <> Panic.
Proof.
  intros Him. induction ss as [|s ss IH]; intros index found Hss; cbn [locate_loop]; [done |].
  assert (forall found, locate_loop elf (S index) ss found <> Panic) as Hn.
  { intros f. apply IH. intros j t Hj. rewrite Nat.add_succ_comm. by apply Hss. }
  step_result. step_result; [apply Hn |]. step_result.
  pose proof (manifest_section_no_panic b elf index s Him) as Hm. specialize (Hss 0%nat s eq_refl). rewrite Nat.add_0_r in Hss. specialize (Hm Hss).
  destruct (manifest_section _ _ _); [apply Hn | done | done].
Qed.

Lemma locate_no_panic b elf : image b elf -> locate elf <> Panic.
Proof. intros Him. eapply locate_loop_no_panic; [exact Him |]. done. Qed.

(** ** What is hashed and what is signed *)

(** The file with the digest and the signature of the descriptor at [d] set to zero. *)
Definition blank (b : list Z) (d : Z) : list Z := take (Z.to_nat (d + 50)) b ++ zeros 96 ++ drop (Z.to_nat (d + 146)) b.

Lemma blank_lookup b d i : 0 <= d -> d + DESCRIPTOR_LEN <= len b -> 0 <= i ->
  blank b d !! Z.to_nat i = if (d + 50 <=? i) && (i <? d + 146) then Some 0 else b !! Z.to_nat i.
Proof.
  unfold DESCRIPTOR_LEN, len. intros Hd Hl Hi. unfold blank. destruct (Z.leb_spec (d + 50) i); cbn [andb].
  - rewrite lookup_app_r by (rewrite length_take; lia). rewrite length_take, Nat.min_l by lia. destruct (Z.ltb_spec i (d + 146)).
    + rewrite lookup_app_l by (cbn; lia). unfold zeros. apply lookup_replicate_2. lia.
    + rewrite lookup_app_r by (cbn; lia). rewrite lookup_drop. f_equal. cbn. lia.
  - rewrite lookup_app_l by (rewrite length_take; lia). rewrite lookup_take, decide_True by lia. done.
Qed.

Lemma blank_length b d : 0 <= d -> d + DESCRIPTOR_LEN <= len b -> len (blank b d) = len b.
Proof. unfold DESCRIPTOR_LEN, len, blank. intros Hd Hl. rewrite !length_app, length_take, length_drop. cbn. lia. Qed.

(** The bytes an Ed25519 signature is over. *)
Definition signed_bytes (r : SigRecord) : list Z :=
  SIGNING_CONTEXT ++ [KIND_ED25519; DIGEST_SHA256; SIGNATURE_ED25519] ++ zeros 4 ++ key_id r ++ digest r.

Lemma normalized_blank b d r : 0 <= d -> d + DESCRIPTOR_LEN <= len b -> len b <= MAX_ELF_LEN -> record_at b d r ->
  normalized b r = Ok (blank b d).
Proof.
  unfold DESCRIPTOR_LEN, MAX_ELF_LEN. intros Hd Hl Hm Hr. destruct (ra_offsets _ _ _ Hr) as [E1 E2].
  unfold normalized, checked_add_usize, context, ok_or. rewrite E1, E2. replace (d + 50 + 32) with (d + 82) by lia.
  replace (d + 82 + 64) with (d + 146) by lia. rewrite !(proj2 (Z.leb_le _ _)) by (widths; lia). rewrite !(proj2 (Z.ltb_ge _ _)) by lia.
  cbn [orb]. unfold range. rewrite !get_ok by lia. rewrite Z.sub_0_r, drop_0, Z.sub_diag. unfold blank. cbn [Z.to_nat take app].
  rewrite (take_ge (drop (Z.to_nat (d + 146)) b)) by (rewrite length_drop; unfold len; lia).
  change (zeros 96) with (zeros 32 ++ zeros 64). by rewrite <- app_assoc.
Qed.

Lemma record_fields b d r : record_at b d r -> len (key_id r) = 32 /\ len (digest r) = 32 /\ len (signature r) = 64.
Proof. intros [_ _ _ _ _ H1%get_len H2%get_len H3%get_len _ _ _]. lia. Qed.

Lemma validate_record_Ok r : validate_record r = Ok tt <-> digest_algorithm r = DIGEST_SHA256 /\ flags r = 0 /\
  match kind r with
  | AdHoc => signature_algorithm r = SIGNATURE_NONE /\ key_id r = zeros 32 /\ signature r = zeros 64
  | Ed25519 => signature_algorithm r = SIGNATURE_ED25519
  end.
Proof.
  unfold validate_record. split.
  - intros H. repeat case_match; bool_cases; try done.
  - intros (-> & -> & H). cbn [negb Z.eqb]. destruct (kind r); [destruct H as (-> & -> & ->) | rewrite H]; [|done].
    by rewrite !bool_decide_eq_true_2.
Qed.

Lemma validate_record_no_panic r : validate_record r <> Panic.
Proof. unfold validate_record. repeat step_result. Qed.
#[export] Hint Resolve validate_record_no_panic : nopanic.

Lemma copy_into_at {E} pre mid post src a b : a = List.length pre -> b = (a + List.length mid)%nat -> List.length src = List.length mid ->
  copy_into (E := E) (pre ++ mid ++ post) a b src = Ok (pre ++ src ++ post).
Proof.
  intros -> -> Hl. unfold copy_into. rewrite (proj2 (Nat.leb_le _ _)) by lia. rewrite !length_app, (proj2 (Nat.leb_le _ _)) by lia.
  rewrite (proj2 (Nat.eqb_eq _ _)) by lia. cbn [andb]. rewrite take_app_length. rewrite <- drop_drop, drop_app_length, drop_app_length. done.
Qed.

Lemma signing_message_Ok k da sa f id dg : len id = 32 -> len dg = 32 ->
  signing_message k da sa f id dg = Ok (SIGNING_CONTEXT ++ [k; da; sa] ++ to_le 4 f ++ id ++ dg).
Proof.
  unfold len. intros H1 H2. unfold signing_message. change (zeros 96) with ([] ++ zeros 25 ++ zeros 71).
  rewrite copy_into_at by done. change ([] ++ SIGNING_CONTEXT ++ zeros 71) with (SIGNING_CONTEXT ++ zeros 3 ++ zeros 68).
  rewrite copy_into_at by done. rewrite app_assoc. change (zeros 68) with (zeros 4 ++ zeros 64).
  rewrite copy_into_at by done. rewrite app_assoc. change (zeros 64) with (zeros 32 ++ zeros 32).
  rewrite copy_into_at by (cbn; done || lia). rewrite app_assoc. replace (zeros 32) with (zeros 32 ++ []) by done.
  rewrite copy_into_at by (rewrite ?length_app; cbn; lia). rewrite app_nil_r. by rewrite <- !app_assoc.
Qed.

(** ** The verifier *)

Section Verify.
Context (try_reserve : Z -> bool) (sha256 : list Z -> list Z) {VerifyingKey : Type}.
Context (key_bytes : VerifyingKey -> list Z) (verify_strict : VerifyingKey -> list Z -> list Z -> bool).

Local Abbreviation verify_parsed := (verify_parsed try_reserve sha256 key_bytes verify_strict).
Local Abbreviation verify_image := (verify_image try_reserve sha256 key_bytes verify_strict).

(** When the record [r] of the image is one that the verifier accepts, and what it then returns. *)
Definition genuine (resolver : option Resolver) (b : list Z) (d : Z) (r : SigRecord) (sig : VerifiedSignature) : Prop :=
  validate_record r = Ok tt /\ digest r = sha256 (blank b d) /\ vs_kind sig = kind r /\ vs_digest sig = digest r /\
  match kind r with
  | AdHoc => vs_key_id sig = None
  | Ed25519 => vs_key_id sig = Some (key_id r) /\ exists resolve key, resolver = Some resolve /\
      resolve (key_id r) = Ok (Some key) /\ sha256 (key_bytes key) = key_id r /\ verify_strict key (signed_bytes r) (signature r) = true
  end.

Lemma verify_parsed_Ok b elf resolver sig : image b elf ->
  verify_parsed elf resolver = Ok sig <->
  exists d i s r, locate_record_in try_reserve elf = Ok (Some r) /\ signature_at b elf d i s /\ record_at b d r /\ genuine resolver b d r sig.
Proof.
  intros Him. unfold ElfSignature.verify_parsed.
  assert (forall r, locate_record_in try_reserve elf = Ok (Some r) -> exists d i s, signature_at b elf d i s /\ record_at b d r /\
    normalized_digest sha256 (elf_bytes elf) r = Ok (sha256 (blank b d))) as Hloc.
  { intros r Hr. destruct (locate_record_in_Ok _ _ _ _ Him Hr) as (d & i & s & Hs & Hp & _). exists d, i, s.
    destruct (si_file _ _ _ _ _ Hs) as [F1 F2]. apply parse_record_Ok in Hp as [_ Hp]; [|lia | apply Him]. split_and!; [done | done |].
    unfold normalized_digest. rewrite (im_bytes _ _ Him), (normalized_blank b d r) by (done || lia || apply Him). done. }
  split.
  - intros H. destruct (locate_record_in _ _) as [[r|]| |] eqn:E1; [|done|done|done]. cbn [context ok_or] in H.
    destruct (Hloc r eq_refl) as (d & i & s & Hs & Hp & Hn). rewrite Hn in H. exists d, i, s, r. split_and!; [done | done | done |].
    destruct (validate_record r) as [[]| |] eqn:Ev; [|done|done]. destruct (negb _) eqn:C; [done |]. bool_cases.
    destruct (kind r) eqn:K; unfold genuine; rewrite K; [by injection H as <- |].
    destruct resolver as [resolve|]; [|done]. cbn [context ok_or] in H. destruct (resolve (key_id r)) as [[key|]| |] eqn:E2; [|done|done|done].
    cbn [context ok_or] in H. destruct (negb (bool_decide _)) eqn:C2; [done |]. bool_cases.
    destruct (record_fields _ _ _ Hp) as (L1 & L2 & _). rewrite signing_message_Ok in H by done. destruct (negb (verify_strict _ _ _)) eqn:C3; [done |].
    apply negb_false_iff in C3. injection H as <-. split_and!; try done. exists resolve, key. split_and!; try done.
    apply validate_record_Ok in Ev as (Ea & Ef & Es). rewrite K in Es. by rewrite Ea, Ef, Es in C3.
  - intros (d & i & s & r & E1 & Hs & Hp & (Ev & Ed & G1 & G2 & G3)). rewrite E1. cbn [context ok_or].
    destruct (Hloc r E1) as (d' & i' & s' & _ & Hp' & ->). assert (d' = d) as -> by (destruct (ra_offsets _ _ _ Hp), (ra_offsets _ _ _ Hp'); lia).
    rewrite Ev. rewrite bool_decide_eq_true_2 by done. cbn [negb]. destruct sig as [k ki dg]. cbn [vs_kind vs_key_id vs_digest] in *. subst.
    destruct (kind r) eqn:K; [by subst; rewrite Ed |]. destruct G3 as (-> & resolve & key & -> & E2 & E3 & E4). cbn [context ok_or]. rewrite E2. cbn [context ok_or].
    rewrite bool_decide_eq_true_2 by done. cbn [negb]. destruct (record_fields _ _ _ Hp) as (L1 & L2 & _). rewrite signing_message_Ok by done.
    apply validate_record_Ok in Ev as (Ea & Ef & Es). rewrite K in Es. rewrite Ea, Ef, Es. change (to_le 4 0) with (zeros 4).
    unfold signed_bytes in E4. rewrite E4. cbn [negb]. by rewrite Ed.
Qed.

Lemma verify_parsed_no_panic b elf resolver : image b elf -> (forall resolve id, resolver = Some resolve -> resolve id <> Panic) ->
  verify_parsed elf resolver <> Panic.
Proof.
  intros Him Hres. unfold ElfSignature.verify_parsed. pose proof (locate_record_in_no_panic try_reserve b elf Him).
  destruct (locate_record_in _ _) as [[r|]| |] eqn:E1; [|done|done|done]. cbn [context ok_or]. step_result.
  destruct (locate_record_in_Ok _ _ _ _ Him E1) as (d & i & s & Hs & Hp & _). destruct (si_file _ _ _ _ _ Hs) as [F1 F2].
  apply parse_record_Ok in Hp as [_ Hp]; [|lia | apply Him]. unfold normalized_digest.
  rewrite (im_bytes _ _ Him), (normalized_blank b d r) by (done || lia || apply Him). step_result.
  destruct (kind r); [done |]. destruct resolver as [resolve|]; [|done]. cbn [context ok_or]. specialize (Hres resolve (key_id r) eq_refl).
  destruct (resolve (key_id r)) as [[key|]| |]; [|done|done|done]. cbn [context ok_or]. step_result.
  destruct (record_fields _ _ _ Hp) as (L1 & L2 & _). rewrite signing_message_Ok by done. step_result.
Qed.

Lemma verify_image_Ok b resolver limits img : Forall is_u8 b -> verify_image b resolver limits = Ok img <->
  exists elf, parse_elf_with_limits try_reserve b limits = Ok elf /\ locate elf = Ok (vi_manifest img) /\
    verify_parsed elf resolver = Ok (vi_signature img) /\ vi_bytes img = b /\ source_digest img = sha256 b.
Proof.
  intros Hb. unfold ElfSignature.verify_image. split.
  - intros H. destruct (parse_elf_with_limits _ _ _) as [elf| |]; [|done|done]. destruct (locate elf) as [m| |] eqn:E; [|done|done].
    destruct (verify_parsed elf resolver) as [sig| |] eqn:E'; [|done|done]. injection H as <-. by exists elf.
  - intros (elf & -> & -> & -> & <- & E). destruct img. cbn in *. by subst.
Qed.
End Verify.

(** ** Images that agree outside of the descriptor *)

Section Same.
Context (try_reserve : Z -> bool).

Lemma check_header_len b limits : check_header b limits = Ok tt -> len b <= MAX_ELF_LEN /\ len b <= max_image_bytes limits.
Proof.
  unfold check_header. destruct (Z.ltb_spec MAX_ELF_LEN (len b)); [done |]. destruct (Z.ltb_spec (max_image_bytes limits) (len b)); [done | lia].
Qed.

Lemma parse_elf_same b b' limits elf : Forall is_u8 b -> len b' = len b -> parse_elf_with_limits try_reserve b limits = Ok elf ->
  same b b' 0 64 -> (forall x y, program_header_table elf = Some (x, y) -> same b b' x y) ->
  (forall x y, section_header_table elf = Some (x, y) -> same b b' x y) ->
  (forall t, sections elf !! Z.to_nat (shstr_index elf) = Some t -> same b b' (sh_offset t) (sh_offset t + sh_size t)) ->
  parse_elf_with_limits try_reserve b' limits = Ok (with_bytes elf b').
Proof.
  intros Hb Hl H S0 S1 S2 S3. destruct (parse_elf_Ok _ _ _ _ Hb H) as (E1 & E2 & E3 & E4 & E5 & E6). unfold parse_elf_with_limits.
  assert (forall x y, 0 <= x -> y <= 64 -> same b b' x y) as Hsub by (intros; eapply same_sub; [exact S0 | lia | lia]).
  destruct (check_header_len _ _ E1) as [L1 L2]. rewrite (check_header_same b b') by (done || lia || (apply Hsub; lia)).
  destruct (parse_program_headers_same try_reserve b b' limits _ _ _ Hb ltac:(lia) E2) as (-> & _); [apply Hsub; lia | apply Hsub; lia | done |].
  rewrite (parse_sections_same try_reserve b b' limits _ _ _ _ Hb Hl E3) by (done || apply Hsub; lia). rewrite E4. by rewrite <- E6.
Qed.

(** Where the tables are follows from the ELF header. *)
Lemma program_table_Ok b limits notes loads table : parse_program_headers try_reserve b limits = Ok (notes, loads, table) ->
  exists phoff pn, read_u64 b 32 = Ok phoff /\ read_u16 b 56 = Ok pn /\ table = if pn =? 0 then None else Some (phoff, phoff + 56 * pn).
Proof.
  intros H. unfold parse_program_headers in H.
  destruct (read_u64 b 32) as [phoff| |]; [|done|done]. destruct (read_u16 b 54) as [pe| |]; [|done|done].
  destruct (read_u16 b 56) as [pn| |]; [|done|done]. exists phoff, pn. split_and!; [done | done |].
  destruct (_ <? pn); [done |]. destruct (pn =? 0); cbn [negb] in H; [destruct (negb _); [done |]; by injection H |].
  destruct (phoff =? 0); [done |]. destruct (pn =? 65535); [done |]. destruct (negb (pe =? ELF64_PROGRAM_HEADER_LEN)) eqn:C; [done |]. bool_cases. subst pe.
  destruct (checked_table _ _ _ _) as [te| |] eqn:E; [|done|done]. apply checked_table_Ok in E as (-> & _).
  destruct (reserve _ _ _); [|done|done]. destruct (reserve _ _ _); [|done|done]. destruct (program_headers_loop _ _ _ _ _ _ _) as [[n l]| |]; [|done|done]. by injection H.
Qed.

Lemma clear_table t d b b' x y : table_overlaps t (d, d + DESCRIPTOR_LEN) = false -> t = Some (x, y) ->
  outside b b' d (d + DESCRIPTOR_LEN) -> 0 <= x -> same b b' x y.
Proof. intros H -> Ho Hx. cbn in H. apply overlaps_false in H. cbn in H. eapply outside_same; [exact Ho | done | lia]. Qed.
End Same.
