(* ===== verification/ElfManifest.v ===== *)
(** * The manifest embedded in an ELF image *)

From Stdlib Require Import String.
From S2P Require Import Prelude Text Fields ElfSignature ElfParse ElfLocate ElfVerify.

Lemma others_overlap_false r index ss : Forall ends_in_file ss -> forall other, others_overlap r index other ss = Ok false <->
  forall j t, ss !! j = Some t -> (other + j)%nat <> index -> section_type t <> 8 -> sh_size t <> 0 ->
    overlaps r (sh_offset t, sh_offset t + sh_size t) = false.
Proof.
  induction 1 as [|t ss Ht _ IH]; intros other; cbn [others_overlap]; [split; done |].
  assert (forall Q : Prop, (Q <-> ((other <> index -> section_type t <> 8 -> sh_size t <> 0 -> overlaps r (sh_offset t, sh_offset t + sh_size t) = false) /\
    others_overlap r index (S other) ss = Ok false)) -> (Q <-> (forall j u, (t :: ss) !! j = Some u -> (other + j)%nat <> index -> section_type u <> 8 ->
      sh_size u <> 0 -> overlaps r (sh_offset u, sh_offset u + sh_size u) = false))) as Hsplit.
  { intros Q ->. rewrite IH. split.
    - intros [H1 H2] [|j] u; cbn; [intros [= <-]; rewrite Nat.add_0_r; auto |]. intros Hj. rewrite <- Nat.add_succ_comm. by apply H2.
    - intros H. split; [intros Hn; apply (H 0%nat t eq_refl); lia |]. intros j u Hj. rewrite Nat.add_succ_comm. by apply (H (S j) u Hj). }
  apply Hsplit. destruct (_ && _) eqn:C.
  - bool_cases. rewrite (proj2 (add_usize_Ok _ _ _) (conj eq_refl (Ht ltac:(done)))). destruct (overlaps _ _) eqn:Ov; [naive_solver |]. tauto.
  - split; [|tauto]. intros H. split; [|done]. intros N1 N2 N3. exfalso. revert C.
    rewrite (proj2 (Nat.eqb_neq _ _) N1), (proj2 (Z.eqb_neq _ _) N2), (proj2 (Z.eqb_neq _ _) N3). done.
Qed.

(** The section [t] with the manifest [m]: its header, its place, apart from everything else, and its bytes. *)
Record manifest_at (b : list Z) (elf : Elf) (j : nat) (t : SectionHeader) (m : list Z) : Prop := {
  ma_type : section_type t = SHT_PROGBITS;
  ma_align : align t = 4 /\ entry_size t = 0;
  ma_raw : read_u64 b (raw_offset t + 8) = Ok 0 /\ read_u64 b (raw_offset t + 16) = Ok 0 /\ read_u64 b (raw_offset t + 40) = Ok 0;
  ma_place : sh_offset t mod 4 = 0 /\ HEADER_LEN < sh_size t <= HEADER_LEN + MAX_MANIFEST_LEN;
  ma_headers : 64 <= sh_offset t /\ table_overlaps (program_header_table elf) (sh_offset t, sh_offset t + sh_size t) = false /\
               table_overlaps (section_header_table elf) (sh_offset t, sh_offset t + sh_size t) = false;
  ma_loads : existsb (overlaps (sh_offset t, sh_offset t + sh_size t)) (load_segments elf) = false;
  ma_notes : existsb (fun n => overlaps (sh_offset t, sh_offset t + sh_size t) (na_offset n, na_offset n + na_size n)) (program_notes elf) = false;
  ma_others : forall k u, sections elf !! k = Some u -> k <> j -> section_type u <> 8 -> sh_size u <> 0 ->
                overlaps (sh_offset t, sh_offset t + sh_size t) (sh_offset u, sh_offset u + sh_size u) = false;
  ma_data : exists data, get b (sh_offset t) (sh_offset t + sh_size t) = Some data /\ get data 0 8 = Some MAGIC /\
              read_u16 data 8 = Ok 1 /\ read_u16 data 10 = Ok 1 /\ read_u32 data 12 = Ok 0 /\ get data HEADER_LEN (len data) = Some m;
  ma_text : manifest_text m = Ok m }.

Lemma manifest_text_Ok x y : manifest_text x = Ok y -> y = x.
Proof. unfold manifest_text. repeat case_match; try done. by intros [= ->]. Qed.

Lemma manifest_section_Ok b elf j t m : image b elf -> sections elf !! j = Some t ->
  manifest_section elf j t = Ok m <-> manifest_at b elf j t m.
Proof.
  intros Him Hj. unfold manifest_section. rewrite (im_bytes _ _ Him). cbv zeta. pose proof (image_ends _ _ Him) as Hends.
  destruct (im_sections _ _ Him j t Hj) as (S1 & S2 & S3). split.
  - intros H. match type of H with match ?m with _ => _ end = _ => destruct m as [shape| |] eqn:E end; [|done|done].
    destruct shape; [|done]. inv_ok E; try done. injection E as E. bool_cases. assert (section_type t = SHT_PROGBITS) as Ht by done. rewrite Ht in S3. destruct (S3 ltac:(done)) as [(_ & _ & S4) S5].
    cbn [negb] in H. rewrite (proj2 (add_usize_Ok _ _ _) (conj eq_refl S5)) in H. cbn [fst snd] in H.
    match type of H with match (if ?c then _ else _) with _ => _ end = _ => destruct c eqn:C end; [done |].
    repeat (apply orb_false_iff in C as [C ?]). destruct (others_overlap _ _ _ _) as [[]| |] eqn:Eo; try done.
    rewrite (others_overlap_false _ _ _ Hends) in Eo. inv_ok H. bool_cases. apply overlaps_false in C. cbn in C.
    unfold HEADER_LEN, ELF64_HEADER_LEN in *. apply manifest_text_Ok in H as Em. subst m.
    repeat match goal with R : range _ _ _ = Ok _ |- _ => apply range_Ok in R end.
    split; try done; try lia.
    + split_and!; congruence.
    + split_and!; [lia | done | done].
    + eexists. split_and!; try done; congruence.
  - intros [A1 [A2 A3] (A4 & A5 & A6) [A7 A8] (A9 & A10 & A11) A12 A13 A14 (data & D1 & D2 & D3 & D4 & D5 & D6) A15].
    rewrite A1 in S3. destruct (S3 ltac:(done)) as [(_ & _ & S4) S5]. unfold HEADER_LEN in *.
    rewrite A1, A2, A3, A4, A5, A6. cbn [negb orb Z.eqb SHT_PROGBITS]. rewrite A7, (proj2 (Z.leb_gt _ _)), (proj2 (Z.ltb_ge _ _)) by lia.
    cbn [negb andb Z.eqb Pos.eqb]. rewrite (proj2 (add_usize_Ok _ _ _) (conj eq_refl S5)). cbn [fst snd].
    rewrite (proj2 (overlaps_false _ (0, ELF64_HEADER_LEN))) by (cbn; unfold ELF64_HEADER_LEN; lia). rewrite A10, A11, A12, A13. cbn [orb].
    rewrite (proj2 (others_overlap_false _ j _ Hends 0)) by (intros k u Hk Hn; by apply (A14 k u Hk)).
    rewrite (proj2 (range_Ok _ _ _ _) D1), (proj2 (range_Ok _ _ _ _) D2), D3, D4, D5, (proj2 (range_Ok _ _ _ _) D6).
    rewrite bool_decide_eq_true_2 by done. cbn [negb orb Z.eqb Pos.eqb]. done.
Qed.

(** What [locate] answers. *)
Definition locates (b : list Z) (elf : Elf) (m : option (list Z)) : Prop :=
  (forall j t, sections elf !! j = Some t -> exists nm, section_name elf t = Ok nm) /\
  match m with
  | None => forall j t, sections elf !! j = Some t -> section_name elf t <> Ok MANIFEST_SECTION
  | Some m => exists j t, sections elf !! j = Some t /\ manifest_at b elf j t m /\
                forall k u, sections elf !! k = Some u -> section_name elf u = Ok MANIFEST_SECTION <-> k = j
  end.

Lemma locate_loop_none elf ss : forall index found, Forall (fun t => exists nm, section_name elf t = Ok nm /\ nm <> MANIFEST_SECTION) ss ->
  locate_loop elf index ss found = Ok found.
Proof.
  induction ss as [|t ss IH]; intros index found H; [done |]. apply Forall_cons in H as [(nm & E & Hne) H]. cbn [locate_loop].
  rewrite E, bool_decide_eq_false_2 by done. by apply IH.
Qed.

Lemma locate_loop_Ok elf ss : forall index found r, locate_loop elf index ss found = Ok r ->
  r = found /\ Forall (fun t => exists nm, section_name elf t = Ok nm /\ nm <> MANIFEST_SECTION) ss \/
  found = None /\ exists pre t post m, ss = pre ++ t :: post /\ r = Some m /\ section_name elf t = Ok MANIFEST_SECTION /\
    manifest_section elf (index + List.length pre) t = Ok m /\
    Forall (fun t => exists nm, section_name elf t = Ok nm /\ nm <> MANIFEST_SECTION) (pre ++ post).
Proof.
  induction ss as [|t ss IH]; intros index found r H; cbn [locate_loop] in H; [injection H as <-; left; by split |].
  destruct (section_name elf t) as [nm| |] eqn:E; [|done|done]. destruct (negb _) eqn:C; bool_cases.
  - apply IH in H as [[-> H]|(-> & pre & u & post & m & -> & -> & H1 & H2 & H3)]; [left; split; [done |]; constructor; eauto |].
    right. split; [done |]. exists (t :: pre), u, post, m. cbn [List.length app]. rewrite Nat.add_succ_r. split_and!; try done. constructor; eauto.
  - destruct (bool_decide (is_Some found)) eqn:C2; [done |]. bool_cases. destruct (manifest_section elf index t) as [m| |] eqn:Em; [|done|done].
    apply IH in H as [[-> H]|[[=] _]]. right. destruct found; [by destruct C2 |]. split; [done |]. exists [], t, ss, m. cbn. rewrite Nat.add_0_r, E. by subst.
Qed.

Lemma locate_loop_some elf pre t post index m : section_name elf t = Ok MANIFEST_SECTION ->
  manifest_section elf (index + List.length pre) t = Ok m ->
  Forall (fun t => exists nm, section_name elf t = Ok nm /\ nm <> MANIFEST_SECTION) (pre ++ post) ->
  locate_loop elf index (pre ++ t :: post) None = Ok (Some m).
Proof.
  revert index. induction pre as [|u pre IH]; intros index E Em H; cbn [app locate_loop List.length] in *.
  - rewrite E, bool_decide_eq_true_2 by done. cbn [negb]. rewrite bool_decide_eq_false_2 by (by intros [? [=]]). rewrite Nat.add_0_r in Em. rewrite Em.
    by apply locate_loop_none.
  - apply Forall_cons in H as [(nm & Eu & Hne) H]. rewrite Eu, bool_decide_eq_false_2 by done. cbn [negb]. apply IH; [done | | done].
    by rewrite Nat.add_succ_comm.
Qed.

(** What [locate] answers: names outside the string table are refused, and there is at most one section with the name. *)
Lemma locate_Ok b elf m : image b elf -> locate elf = Ok m <-> locates b elf m.
Proof.
  intros Him. unfold locate, locates. split.
  - intros H. apply locate_loop_Ok in H as [[-> H]|(_ & pre & t & post & m' & E & -> & Et & Em & H)].
    + rewrite Forall_lookup in H. split; intros j t Hj; destruct (H j t Hj) as (nm & En & Hne); [by exists nm | congruence].
    + assert (sections elf !! List.length pre = Some t) as Hj by (rewrite E; by apply list_lookup_middle).
      rewrite Forall_lookup in H. assert (forall k u, sections elf !! k = Some u -> k <> List.length pre -> exists nm, section_name elf u = Ok nm /\ nm <> MANIFEST_SECTION) as Ho.
      { intros k u Hk Hne. rewrite E in Hk. destruct (decide (k < List.length pre)%nat).
        - rewrite lookup_app_l in Hk by done. apply (H k u). by rewrite lookup_app_l.
        - rewrite lookup_app_r in Hk by lia. apply (H (k - 1)%nat u). rewrite lookup_app_r by lia. replace (k - List.length pre)%nat with (S (k - 1 - List.length pre)) in Hk by lia. done. }
      split.
      { intros k u Hk. destruct (decide (k = List.length pre)) as [->|Hne]; [|destruct (Ho k u Hk Hne) as (nm & ? & _); by exists nm]. rewrite Hj in Hk. injection Hk as <-. by exists MANIFEST_SECTION. }
      exists (List.length pre), t. split_and!; [done | by apply manifest_section_Ok |]. intros k u Hk. split.
      * intros En. destruct (decide (k = List.length pre)) as [->|Hne]; [done |]. destruct (Ho k u Hk Hne) as (nm & ? & ?). congruence.
      * intros ->. congruence.
  - intros [Hn H]. assert (forall P, (forall k u, P !! k = Some u -> exists k', sections elf !! k' = Some u /\ section_name elf u <> Ok MANIFEST_SECTION) ->
      Forall (fun t => exists nm, section_name elf t = Ok nm /\ nm <> MANIFEST_SECTION) P) as Hall.
    { intros P HP. apply Forall_lookup. intros k u Hk. destruct (HP k u Hk) as (k' & Hk' & Hne). destruct (Hn k' u Hk') as [nm En]. exists nm. split; [done | congruence]. }
    destruct m as [m|]; [|apply locate_loop_none, Hall; eauto].
    destruct H as (j & t & Hj & Hm & Huniq). rewrite <- (take_drop_middle _ _ _ Hj). apply lookup_lt_Some in Hj as Hlt. apply locate_loop_some.
    + by apply (Huniq j t Hj).
    + rewrite length_take, Nat.min_l by lia. by apply (manifest_section_Ok b).
    + apply Hall. intros k u Hk. destruct (decide (k < j)%nat).
      * rewrite lookup_app_l, lookup_take, decide_True in Hk by (rewrite ?length_take; lia). exists k. split; [done |]. rewrite (Huniq k u Hk). lia.
      * rewrite lookup_app_r, length_take, Nat.min_l, lookup_drop in Hk by (rewrite ?length_take; lia). exists (S j + (k - j))%nat. split; [done |].
        rewrite (Huniq _ u Hk). lia.
Qed.

(** ** The manifest of an image with another descriptor *)

Lemma section_name_ext elf elf' t : shstr elf' = shstr elf -> section_name elf' t = section_name elf t.
Proof. unfold section_name. by intros ->. Qed.

Lemma read_u64_0_same b b' x : read_u64 b x = Ok 0 -> len b' = len b -> same b b' x (x + 8) -> read_u64 b' x = Ok 0.
Proof. intros H Hl Hs. pose proof (read_le_bound 8 b x 0 ltac:(lia) H). apply (read_u64_same b); [done | done | lia]. Qed.

Lemma manifest_at_same b b' elf j t m : manifest_at b elf j t m -> len b' = len b -> same b b' (raw_offset t) (raw_offset t + 64) ->
  same b b' (sh_offset t) (sh_offset t + sh_size t) -> manifest_at b' (with_bytes elf b') j t m.
Proof.
  intros [A1 A2 (A4 & A5 & A6) A7 A9 A12 A13 A14 (data & D1 & D2) A15] Hl Hr Hd. split; try done.
  - split_and!; (apply (read_u64_0_same b); [done | done | eapply same_sub; [exact Hr | lia | lia]]).
  - exists data. split; [|done]. apply (get_same b); [done | done |]. apply get_Some in D1 as (_ & ? & _). lia.
Qed.

(** Where the headers of an image are. *)
Lemma parse_elf_headers try_reserve b limits elf : Forall is_u8 b -> parse_elf_with_limits try_reserve b limits = Ok elf ->
  exists shoff shnum, section_header_table elf = Some (shoff, shoff + 64 * shnum) /\ sections_at b shoff shnum (shstr_index elf) (sections elf) (shstr elf).
Proof.
  intros Hb H. destruct (parse_elf_Ok _ _ _ _ Hb H) as (_ & _ & H3 & _).
  destruct (parse_sections_Ok _ _ _ _ _ _ _ Hb H3) as (shoff & shnum & E & _ & A). eauto.
Qed.

Lemma header_in_table b shoff shnum index ss strings j t : sections_at b shoff shnum index ss strings -> ss !! j = Some t ->
  raw_offset t = shoff + Z.of_nat j * 64 /\ 0 < shoff /\ raw_offset t + 64 <= shoff + 64 * shnum /\ shoff + 64 * shnum <= len b.
Proof.
  intros A Hj. pose proof (sa_headers _ _ _ _ _ _ A j t Hj) as Ht. apply lookup_lt_Some in Hj. pose proof (sa_count _ _ _ _ _ _ A).
  destruct (sa_table _ _ _ _ _ _ A). rewrite (ha_raw _ _ _ Ht). lia.
Qed.

(** [locate] does not look at the descriptor of the signature. *)
Lemma locate_outside try_reserve limits b b' elf d i s lo hi : Forall is_u8 b -> Forall is_u8 b' ->
  parse_elf_with_limits try_reserve b limits = Ok elf -> parse_elf_with_limits try_reserve b' limits = Ok (with_bytes elf b') ->
  signature_at b elf d i s -> outside b b' lo hi -> d <= lo -> hi <= d + DESCRIPTOR_LEN ->
  forall m, locate elf = Ok m -> locate (with_bytes elf b') = Ok m.
Proof.
  intros Hb Hb' Hp Hp' Hsig Hout Hlo Hhi m. rewrite (locate_Ok b) by (by eapply parse_elf_image). rewrite (locate_Ok b') by (by eapply parse_elf_image).
  intros [Hn H]. split; [done |]. destruct m as [m|]; [|done]. destruct H as (j & t & Hj & Hm & Hu). exists j, t. split_and!; [done | | done].
  destruct (parse_elf_headers _ _ _ _ Hb Hp) as (shoff & shnum & Etab & A). destruct (header_in_table _ _ _ _ _ _ _ _ A Hj) as (_ & ? & ? & ?).
  destruct (sa_headers _ _ _ _ _ _ A j t Hj) as [_ _ _ _ _ _ Hraw _]. assert (shoff <= raw_offset t) by lia.
  apply (manifest_at_same b); [done | apply Hout | |].
  - pose proof (proj2 (si_headers _ _ _ _ _ Hsig)) as Hov. rewrite Etab in Hov. cbn in Hov. apply overlaps_false in Hov. cbn in Hov.
    eapply outside_same; [exact Hout | lia | lia].
  - pose proof (ma_place _ _ _ _ _ Hm) as (_ & Hsz & _). unfold HEADER_LEN in Hsz. pose proof (ma_headers _ _ _ _ _ Hm) as (? & _).
    assert (j <> i) as Hji.
    { intros ->. pose proof (si_section _ _ _ _ _ Hsig) as Es. rewrite Hj in Es. injection Es as <-.
      pose proof (si_type _ _ _ _ _ Hsig) as T. by rewrite (ma_type _ _ _ _ _ Hm) in T. }
    pose proof (si_others _ _ _ _ _ Hsig j t Hji Hj ltac:(by rewrite (ma_type _ _ _ _ _ Hm)) ltac:(lia)) as Hov%overlaps_false. cbn in Hov.
    eapply outside_same; [exact Hout | lia | lia].
Qed.
