(* ===== verification/ElfTamper.v ===== *)
(** * Accepted images with the same digest are the same image *)

From Stdlib Require Import String.
From S2P Require Import Prelude Text Fields ElfSignature ElfParse ElfLocate ElfVerify ElfManifest.

(** ** A walk that reaches a signature in one image reaches it in the other *)

Lemma note_at_reaches b b' fin cursor next d next' o : Forall is_u8 b -> 0 <= cursor -> fin <= len b -> len b' = len b ->
  note_at b fin cursor = Ok (next, Some d) -> same b b' cursor d -> note_at b' fin cursor = Ok (next', o) -> o = Some d.
Proof.
  intros Hb Hc Hf Hl H Hs H'. unfold note_at in *. destruct (Z.ltb_spec (fin - cursor) 12); [done |].
  destruct (read_u32 b cursor) as [nsz| |] eqn:E1; [|done|done]. destruct (read_u32 b (cursor + 4)) as [dsz| |] eqn:E2; [|done|done].
  destruct (read_u32 b (cursor + 8)) as [ty| |] eqn:E3; [|done|done]. cbv zeta in *. pose proof (read_u32_range _ _ _ Hb E1) as R1.
  destruct (checked_end (cursor + 12) nsz fin) as [ne| |] eqn:E4; [|done|done]. apply checked_end_Ok in E4 as H4.
  destruct (align4 ne) as [dof| |] eqn:E5; [|done|done]. pose proof (align4_bounds _ _ E5) as [B5 M5]. destruct (Z.ltb_spec fin dof); [done |].
  destruct (checked_end dof dsz fin) as [de| |] eqn:E6; [|done|done]. destruct (align4 de) as [nx| |] eqn:E7; [|done|done]. destruct (fin <? nx) eqn:L2; [done |].
  destruct (ty =? NOTE_TYPE) eqn:Ty; [|done].
  destruct (range b (cursor + 12) ne) as [nm| |] eqn:E8; [|done|done]. destruct (bool_decide (nm = NOTE_NAME)) eqn:E9; [|done].
  destruct (negb _) eqn:C; [done |].
  assert (d = dof) as ->.
  { destruct (range b ne dof); [|done|done]. destruct (range b de nx); [|done|done]. destruct (_ || _); [done |]. by injection H. }
  rewrite (read_u32_same b b' cursor nsz), (read_u32_same b b' (cursor + 4) dsz), (read_u32_same b b' (cursor + 8) ty), E4, E5, E6, E7, L2, Ty in H'
    by (done || lia || (eapply same_sub; [exact Hs | lia | lia])).
  rewrite (proj2 (Z.ltb_ge fin dof)) in H' by lia.
  rewrite (range_same b b' _ _ nm), E9, C in H' by (done || lia || (eapply same_sub; [exact Hs | lia | lia])).
  destruct (range b' ne dof); [|done|done]. destruct (range b' de nx); [|done|done]. destruct (_ || _); [done |]. by injection H'.
Qed.

Section Reach.
Context (b b' : list Z) (a : NoteArea) (fin : Z) (Hb : Forall is_u8 b) (Hb' : Forall is_u8 b') (Hf : fin <= len b) (Hl : len b' = len b).

Lemma note_loop_reaches o fuel : forall cursor found new found' res', 0 <= cursor -> note_loop fuel b a fin cursor found = Ok (found ++ new) ->
  o ∈ new -> same b b' cursor (descriptor_offset o) -> note_loop fuel b' a fin cursor found' = Ok res' -> o ∈ res'.
Proof using Hb Hb' Hf Hl.
  induction fuel as [|fuel IH]; intros cursor found new found' res' Hc H Ho Hs H'; [done |]. cbn [note_loop] in H, H'.
  destruct (negb _). { injection H as H. rewrite <- (app_nil_r found) in H at 1. apply app_inv_head in H. subst new. by apply not_elem_of_nil in Ho. }
  destruct (note_at b fin cursor) as [[next o1]| |] eqn:E; [|done|done]. destruct (note_at_Ok _ _ _ _ _ Hb Hc Hf E) as (Hn & _ & Hd & Htr).
  assert (forall l r, note_loop fuel b a fin next l = Ok (l ++ r) -> o ∈ r -> note_at b' fin cursor = Ok (next, o1) /\
    forall found' res', note_loop fuel b' a fin next found' = Ok res' -> o ∈ res') as Hgo.
  { intros l r Hlr Hr. destruct (note_loop_Ok b a fin Hb Hf fuel next _ _ ltac:(lia) Hlr) as (r' & Er & Hall). apply app_inv_head in Er. subst r'.
    rewrite Forall_forall in Hall. destruct (Hall o Hr) as (_ & Hge & _). split.
    - apply Htr; [lia |]. destruct o1 as [d1|]; [destruct (Hd d1 eq_refl) as (? & ? & _); split |]; eapply same_sub; try exact Hs; unfold DESCRIPTOR_LEN in *; lia.
    - intros f r' Hr'. eapply IH; [|exact Hlr | exact Hr | eapply same_sub; [exact Hs | lia | lia] | exact Hr']. lia. }
  destruct o1 as [d1|].
  - destruct (_ =? 2)%nat; [done |]. destruct (note_loop_Ok b a fin Hb Hf fuel next _ _ ltac:(lia) H) as (r & Er & _). rewrite Er in H.
    rewrite <- app_assoc in Er. apply app_inv_head in Er. subst new. apply elem_of_app in Ho as [Ho|Ho].
    + apply list_elem_of_singleton in Ho. subst o. cbn [descriptor_offset] in Hs. destruct (note_at b' fin cursor) as [[next' o']| |] eqn:E'; [|done|done].
      pose proof (note_at_reaches b b' fin cursor next d1 next' o' Hb Hc Hf Hl E Hs E') as ->. destruct (List.length found' =? 2)%nat; [done |].
      destruct (note_at_Ok b' fin cursor next' _ Hb' Hc ltac:(lia) E') as (Hn' & _).
      destruct (note_loop_Ok b' a fin Hb' ltac:(lia) fuel next' _ _ ltac:(lia) H') as (r' & -> & _). rewrite !elem_of_app, list_elem_of_singleton. auto.
    + destruct (Hgo _ _ H Ho) as [E' Hres]. rewrite E' in H'. destruct (List.length found' =? 2)%nat; [done |]. by eapply Hres.
  - destruct (Hgo _ _ H Ho) as [E' Hres]. rewrite E' in H'. by eapply Hres.
Qed.
End Reach.

Lemma carries_reaches b b' d a : Forall is_u8 b -> Forall is_u8 b' -> len b' = len b -> area_ok a -> carries b d (d + DESCRIPTOR_LEN) a ->
  same b b' 0 d -> exists o, descriptor_offset o = d /\ forall f r, parse_note_area b' a f = Ok r -> o ∈ r.
Proof.
  intros Hb Hb' Hl Ha (f & n & o & Hp & Ho & H1 & H2) Hs. exists o. split; [lia |]. intros f' r H. unfold parse_note_area in *. rewrite Hl in H.
  destruct (checked_end _ _ _) as [e| |] eqn:E; [|done|done]. apply checked_end_Ok in E as (-> & Hle & _). destruct Ha as [Ha1 Ha2].
  eapply (note_loop_reaches b b'); [done | done | | done | | exact Hp | exact Ho | eapply same_sub; [exact Hs | |] | exact H]; lia.
Qed.

(** ** Two images with the same normalised bytes *)

(** Where the parser found the signature, and that it found no other. *)
Record signed_at (try_reserve : Z -> bool) (limits : VerificationLimits) (b : list Z) (elf : Elf) (d : Z) (i : nat) (s : SectionHeader) : Prop := {
  sg_u8 : Forall is_u8 b;
  sg_parse : parse_elf_with_limits try_reserve b limits = Ok elf;
  sg_at : signature_at b elf d i s;
  sg_only : forall a o, a ∈ note_areas elf -> (forall f r, parse_note_area b a f = Ok r -> o ∈ r) -> descriptor_offset o = d }.

Section Two.
Context (try_reserve : Z -> bool) (limits : VerificationLimits) (b b' : list Z) (elf elf' : Elf) (d d' : Z).
Context (i i' : nat) (s s' : SectionHeader).
Context (G : signed_at try_reserve limits b elf d i s) (G' : signed_at try_reserve limits b' elf' d' i' s').
Context (Hblank : blank b d = blank b' d').

Lemma two_files : 64 <= d /\ 64 <= d' /\ len b' = len b /\ d + 146 <= len b /\ d' + 146 <= len b.
Proof using G G' Hblank.
  destruct (si_file _ _ _ _ _ (sg_at _ _ _ _ _ _ _ G)) as [F1 F2]. destruct (si_file _ _ _ _ _ (sg_at _ _ _ _ _ _ _ G')) as [F1' F2'].
  pose proof (blank_length b d ltac:(lia) F2) as L1. pose proof (blank_length b' d' ltac:(lia) F2') as L2. rewrite Hblank in L1.
  unfold DESCRIPTOR_LEN in *. lia.
Qed.

Definition apart (x y : Z) : Prop := (y <= d + 50 \/ d + 146 <= x) /\ (y <= d' + 50 \/ d' + 146 <= x).

Lemma two_same x y : 0 <= x -> y <= x \/ apart x y -> same b b' x y.
Proof using G G' Hblank.
  intros Hx Hxy j Hj. destruct two_files as (? & ? & ? & ? & ?). assert (blank b d !! Z.to_nat j = blank b' d' !! Z.to_nat j) as E by (by rewrite Hblank).
  rewrite !blank_lookup in E by (unfold DESCRIPTOR_LEN; lia). destruct Hxy as [|[D1 D2]]; [lia |].
  replace ((d + 50 <=? j) && (j <? d + 146)) with false in E by (symmetry; apply andb_false_iff; rewrite Z.leb_gt, Z.ltb_ge; lia).
  replace ((d' + 50 <=? j) && (j <? d' + 146)) with false in E by (symmetry; apply andb_false_iff; rewrite Z.leb_gt, Z.ltb_ge; lia). done.
Qed.

Lemma table_clear t e : table_overlaps t (e, e + DESCRIPTOR_LEN) = false -> forall x y, t = Some (x, y) -> y <= e \/ e + 146 <= x.
Proof using. intros H x y ->. cbn in H. apply overlaps_false in H. cbn in H. unfold DESCRIPTOR_LEN in H. lia. Qed.

Lemma two_program_tables : program_header_table elf' = program_header_table elf.
Proof using G G' Hblank.
  destruct two_files as (? & ? & Hl & ? & ?). destruct (parse_elf_Ok _ _ _ _ (sg_u8 _ _ _ _ _ _ _ G) (sg_parse _ _ _ _ _ _ _ G)) as (_ & P & _).
  destruct (parse_elf_Ok _ _ _ _ (sg_u8 _ _ _ _ _ _ _ G') (sg_parse _ _ _ _ _ _ _ G')) as (_ & P' & _).
  apply program_table_Ok in P as (x & n & R1 & R2 & ->). apply program_table_Ok in P' as (x' & n' & R1' & R2' & ->).
  rewrite (read_u64_same b b' 32 x) in R1' by (done || lia || (apply two_same; unfold apart; lia)).
  rewrite (read_u16_same b b' 56 n) in R2' by (done || lia || (apply two_same; unfold apart; lia)). by simplify_eq.
Qed.

(** The section tables are at the same place and have the same headers. *)
Lemma two_sections : section_header_table elf' = section_header_table elf /\ shstr_index elf' = shstr_index elf /\
  (forall x y, section_header_table elf = Some (x, y) -> 0 <= x /\ same b b' x y) /\
  forall j t t', sections elf !! j = Some t -> sections elf' !! j = Some t' -> sh_offset t' = sh_offset t /\ sh_size t' = sh_size t.
Proof using G G' Hblank.
  destruct two_files as (? & ? & Hl & ? & ?). pose proof G as [Hb Hp Hat _]. pose proof G' as [Hb' Hp' Hat' _].
  destruct (parse_elf_Ok _ _ _ _ Hb Hp) as (_ & _ & P & _). destruct (parse_elf_Ok _ _ _ _ Hb' Hp') as (_ & _ & P' & _).
  destruct (parse_sections_Ok _ _ _ _ _ _ _ Hb P) as (x & n & Et & _ & A). destruct (parse_sections_Ok _ _ _ _ _ _ _ Hb' P') as (x' & n' & Et' & _ & A').
  assert (x' = x) as ->.
  { pose proof (sa_shoff _ _ _ _ _ _ A') as R. rewrite (read_u64_same b b' 40 x) in R by (apply A || lia || (apply two_same; unfold apart; lia)). congruence. }
  assert (n' = n) as ->.
  { pose proof (sa_shnum _ _ _ _ _ _ A') as R. rewrite (read_u16_same b b' 60 n) in R by (apply A || lia || (apply two_same; unfold apart; lia)). congruence. }
  assert (shstr_index elf' = shstr_index elf) as Ei.
  { pose proof (sa_index _ _ _ _ _ _ A') as R. rewrite (read_u16_same b b' 62 (shstr_index elf)) in R by (apply A || lia || (apply two_same; unfold apart; lia)). congruence. }
  destruct (sa_table _ _ _ _ _ _ A) as [T1 T2].
  pose proof (table_clear _ _ (proj2 (si_headers _ _ _ _ _ Hat)) _ _ Et) as C. pose proof (table_clear _ _ (proj2 (si_headers _ _ _ _ _ Hat')) _ _ Et') as C'.
  assert (same b b' x (x + 64 * n)) as Hs by (apply two_same; unfold apart; lia).
  split_and!; [congruence | done | intros ? ? E; rewrite Et in E; injection E as <- <-; split; [lia | done] |].
  intros j t t' Hj Hj'. pose proof (sa_headers _ _ _ _ _ _ A j t Hj) as Ht. pose proof (sa_headers _ _ _ _ _ _ A' j t' Hj') as Ht'.
  apply lookup_lt_Some in Hj. pose proof (sa_count _ _ _ _ _ _ A).
  apply (header_at_same b b') in Ht; [|lia | lia | lia | eapply same_sub; [exact Hs | lia | lia]]. destruct Ht, Ht'. split; congruence.
Qed.

Lemma two_parse : elf' = with_bytes elf b'.
Proof using G G' Hblank.
  destruct two_files as (? & ? & Hl & ? & ?). pose proof G as [Hb Hp Hat _]. pose proof G' as [Hb' Hp' Hat' _].
  destruct two_sections as (Et & Ei & Hs & Hss). destruct (parse_elf_Ok _ _ _ _ Hb Hp) as (_ & PP & P & _). destruct (parse_elf_Ok _ _ _ _ Hb' Hp') as (_ & _ & P' & _).
  destruct (parse_sections_Ok _ _ _ _ _ _ _ Hb P) as (x & n & _ & _ & A). destruct (parse_sections_Ok _ _ _ _ _ _ _ Hb' P') as (x' & n' & _ & _ & A').
  cut (parse_elf_with_limits try_reserve b' limits = Ok (with_bytes elf b')); [rewrite Hp'; by intros [= ->] |].
  apply (parse_elf_same try_reserve b); [done | done | done | apply two_same; unfold apart; lia | | intros; by apply Hs |].
  - intros y z Ey. destruct (parse_program_headers_same try_reserve b b limits _ _ _ Hb ltac:(lia) PP) as (_ & _ & Hpt); [done.. |].
    destruct (Hpt y z Ey) as [? ?]. apply two_same; [done |]. right.
    split; [pose proof (table_clear _ _ (proj1 (si_headers _ _ _ _ _ Hat)) _ _ Ey); lia |].
    rewrite <- two_program_tables in Ey. pose proof (table_clear _ _ (proj1 (si_headers _ _ _ _ _ Hat')) _ _ Ey). lia.
  - intros t Ht. destruct (sa_strings _ _ _ _ _ _ A) as (u & Eu & Tu & Gu & _). rewrite Ht in Eu. injection Eu as <-.
    destruct (sa_strings _ _ _ _ _ _ A') as (t' & Ht' & Tt' & _). rewrite Ei in Ht'. destruct (Hss _ _ _ Ht Ht') as [O1 O2].
    apply get_Some in Gu as (? & _). destruct (decide (sh_size t = 0)) as [|Hne]; [apply two_same; lia |]. apply two_same; [lia |]. right.
    assert (Z.to_nat (shstr_index elf) <> i) as N1.
    { intros <-. pose proof (si_section _ _ _ _ _ Hat) as E. rewrite Ht in E. injection E as <-. pose proof (si_type _ _ _ _ _ Hat) as T. by rewrite Tu in T. }
    assert (Z.to_nat (shstr_index elf) <> i') as N2.
    { intros <-. pose proof (si_section _ _ _ _ _ Hat') as E. rewrite Ht' in E. injection E as <-. pose proof (si_type _ _ _ _ _ Hat') as T. by rewrite Tt' in T. }
    pose proof (si_others _ _ _ _ _ Hat _ _ N1 Ht ltac:(by rewrite Tu) Hne) as D1%overlaps_false.
    pose proof (si_others _ _ _ _ _ Hat' _ _ N2 Ht' ltac:(by rewrite Tt') ltac:(congruence)) as D2%overlaps_false.
    cbn [fst snd] in *. unfold apart, DESCRIPTOR_LEN in *. lia.
Qed.

End Two.

Lemma section_area_in elf i s : sections elf !! i = Some s -> section_type s = SHT_NOTE ->
  {| na_offset := sh_offset s; na_size := sh_size s; origin := FromSection i |} ∈ note_areas elf.
Proof. intros Hi Ht. unfold note_areas. apply elem_of_app. left. apply section_note_areas_elem. by exists i, s. Qed.

(** The earlier of the two signatures is in both images. *)
Lemma two_first try_reserve limits b b' elf elf' d d' i i' s s' : signed_at try_reserve limits b elf d i s ->
  signed_at try_reserve limits b' elf' d' i' s' -> blank b d = blank b' d' -> d <= d' -> d' = d.
Proof.
  intros G G' Hblank Hle. pose proof (two_files _ _ _ _ _ _ _ _ _ _ _ _ G G' Hblank) as (? & ? & Hl & ? & ?).
  pose proof (two_parse _ _ _ _ _ _ _ _ _ _ _ _ G G' Hblank) as Eelf. pose proof G as [Hb Hp Hat _]. pose proof G' as [Hb' Hp' Hat' Honly].
  pose proof (parse_elf_image _ _ _ _ Hb Hp) as Him. destruct (im_sections _ _ Him i s (si_section _ _ _ _ _ Hat)) as (S1 & S2 & _).
  destruct (carries_reaches b b' d {| na_offset := sh_offset s; na_size := sh_size s; origin := FromSection i |} Hb Hb' Hl (conj S1 S2) (si_carries _ _ _ _ _ Hat)) as (o & Eo & Ho).
  { apply (two_same _ _ _ _ _ _ _ _ _ _ _ _ G G' Hblank); [lia |]. right. unfold apart. lia. }
  rewrite <- Eo. symmetry. eapply (Honly _ o); [|exact Ho]. rewrite Eelf. apply section_area_in; cbn; apply Hat.
Qed.

Lemma two_place try_reserve limits b b' elf elf' d d' i i' s s' : signed_at try_reserve limits b elf d i s ->
  signed_at try_reserve limits b' elf' d' i' s' -> blank b d = blank b' d' -> d' = d.
Proof.
  intros G G' Hblank. destruct (Z.le_ge_cases d d'); [by eapply (two_first _ _ b b') |].
  symmetry. by eapply (two_first _ _ b' b).
Qed.

Lemma record_same b b' d r r' : record_at b d r -> record_at b' d r' -> same b b' d (d + 50) -> d + 146 <= len b -> len b' = len b -> 0 <= d ->
  kind r' = kind r /\ key_id r' = key_id r /\ digest_algorithm r' = digest_algorithm r /\ signature_algorithm r' = signature_algorithm r.
Proof.
  intros R R' Hs Hl Hl' Hd. pose proof (ra_kind _ _ _ R') as K. pose proof (ra_key _ _ _ R') as I. pose proof (ra_da _ _ _ R') as D. pose proof (ra_sa _ _ _ R') as S.
  rewrite (byte_at_same b b' (d + 10) _ (ra_kind _ _ _ R)) in K by (lia || (eapply same_sub; [exact Hs | lia | lia])).
  rewrite (byte_at_same b b' (d + 11) _ (ra_da _ _ _ R)) in D by (lia || (eapply same_sub; [exact Hs | lia | lia])).
  rewrite (byte_at_same b b' (d + 12) _ (ra_sa _ _ _ R)) in S by (lia || (eapply same_sub; [exact Hs | lia | lia])).
  rewrite (get_same b b' _ _ _ (ra_key _ _ _ R)) in I by (lia || (eapply same_sub; [exact Hs | lia | lia])).
  split_and!; [|congruence..]. by destruct (kind r), (kind r').
Qed.

(** The same bytes, up to the signature. *)
Lemma two_equal b b' d r r' : record_at b d r -> record_at b' d r' -> blank b d = blank b' d -> 0 <= d -> d + DESCRIPTOR_LEN <= len b ->
  d + DESCRIPTOR_LEN <= len b' -> digest r' = digest r -> outside b b' (d + 82) (d + 146) /\ (signature r' = signature r -> b' = b).
Proof.
  unfold DESCRIPTOR_LEN. intros R R' Hbl Hd Hl Hl' Hdig.
  assert (len b' = len b) as El by (rewrite <- (blank_length b d), <- (blank_length b' d), Hbl by (unfold DESCRIPTOR_LEN; lia); done).
  assert (forall x y v, get b x y = Some v -> get b' x y = Some v -> forall j, x <= j < y -> b' !! Z.to_nat j = b !! Z.to_nat j) as Hget.
  { intros x y v E E' j Hj. pose proof (get_lookup _ _ _ _ (j - x) E ltac:(lia)) as L. pose proof (get_lookup _ _ _ _ (j - x) E' ltac:(lia)) as L'.
    replace (x + (j - x)) with j in L, L' by lia. congruence. }
  assert (forall j, 0 <= j -> ~ (d + 50 <= j < d + 146) -> b' !! Z.to_nat j = b !! Z.to_nat j) as Hout.
  { intros j Hj Hn. assert (blank b d !! Z.to_nat j = blank b' d !! Z.to_nat j) as E by (by rewrite Hbl).
    rewrite !blank_lookup in E by (unfold DESCRIPTOR_LEN; lia).
    replace ((d + 50 <=? j) && (j <? d + 146)) with false in E by (symmetry; apply andb_false_iff; rewrite Z.leb_gt, Z.ltb_ge; lia). done. }
  assert (outside b b' (d + 82) (d + 146)) as Ho.
  { split; [done |]. intros j Hj Hn. destruct (decide (d + 50 <= j < d + 82)) as [Hin|Hin]; [|apply Hout; lia].
    apply (Hget (d + 50) (d + 82) (digest r)); [apply R | rewrite <- Hdig; apply R' | done]. }
  split; [done |]. intros Hsig. apply list_eq. intros k. rewrite <- (Nat2Z.id k). destruct (decide (d + 82 <= Z.of_nat k < d + 146)) as [Hin|Hin].
  - apply (Hget (d + 82) (d + 146) (signature r)); [apply R | rewrite <- Hsig; apply R' | done].
  - by apply Ho; [lia |].
Qed.

(** ** Accepted images *)

Section Tamper.
Context (try_reserve : Z -> bool) (sha256 : list Z -> list Z) {VerifyingKey : Type}.
Context (key_bytes : VerifyingKey -> list Z) (verify_strict : VerifyingKey -> list Z -> list Z -> bool).

Lemma accepted_signed_at b elf resolver limits sig : Forall is_u8 b -> parse_elf_with_limits try_reserve b limits = Ok elf ->
  verify_parsed try_reserve sha256 key_bytes verify_strict elf resolver = Ok sig ->
  exists d i s r, signed_at try_reserve limits b elf d i s /\ record_at b d r /\ genuine sha256 key_bytes verify_strict resolver b d r sig.
Proof.
  intros Hb Hp H. pose proof (parse_elf_image _ _ _ _ Hb Hp) as Him. apply (verify_parsed_Ok _ _ _ _ b) in H as (d & i & s & r & Hl & Hs & Hr & Hg); [|done].
  destruct (locate_record_in_Ok _ _ _ _ Him Hl) as (d' & i' & s' & Hs' & Hp' & Honly & _). exists d', i', s', r.
  destruct (si_file _ _ _ _ _ Hs') as [F1 F2]. apply parse_record_Ok in Hp' as [_ Hr']; [|lia | apply Him].
  assert (d' = d) as -> by (destruct (ra_offsets _ _ _ Hr), (ra_offsets _ _ _ Hr'); lia). split_and!; [by split | done | done].
Qed.

Local Abbreviation accepts b resolver limits img := (verify_image try_reserve sha256 key_bytes verify_strict b resolver limits = Ok img).

Lemma accepted_twice b b' resolver resolver' limits img img' : Forall is_u8 b -> Forall is_u8 b' ->
  accepts b resolver limits img -> accepts b' resolver' limits img' -> vs_digest (vi_signature img') = vs_digest (vi_signature img) ->
  exists d d', (blank b d <> blank b' d' /\ sha256 (blank b d) = sha256 (blank b' d')) \/
    d' = d /\ outside b b' (d + 82) (d + 146) /\ vs_kind (vi_signature img') = vs_kind (vi_signature img) /\
    vs_key_id (vi_signature img') = vs_key_id (vi_signature img) /\ vi_manifest img' = vi_manifest img /\
    (vs_kind (vi_signature img) = AdHoc -> b' = b).
Proof.
  intros Hb Hb' H H' Hdig. apply verify_image_Ok in H as (elf & Hp & Hm & Hv & _); [|done]. apply verify_image_Ok in H' as (elf' & Hp' & Hm' & Hv' & _); [|done].
  destruct (accepted_signed_at _ _ _ _ _ Hb Hp Hv) as (d & i & s & r & G & R & (Ev & Ed & K1 & K2 & K3)).
  destruct (accepted_signed_at _ _ _ _ _ Hb' Hp' Hv') as (d' & i' & s' & r' & G' & R' & (Ev' & Ed' & K1' & K2' & K3')).
  exists d, d'. destruct (decide (blank b d = blank b' d')) as [Hbl|Hne]; [right | left; split; [done | congruence]].
  pose proof (two_place _ _ _ _ _ _ _ _ _ _ _ _ G G' Hbl) as ->. pose proof (two_parse _ _ _ _ _ _ _ _ _ _ _ _ G G' Hbl) as Eelf.
  pose proof (two_files _ _ _ _ _ _ _ _ _ _ _ _ G G' Hbl) as (? & _ & Hl & ? & _).
  destruct (two_equal b b' d r r' R R' Hbl) as [Hout Heq]; [lia | unfold DESCRIPTOR_LEN; lia.. | congruence |].
  assert (same b b' d (d + 50)) as Hsame by (eapply outside_same; [exact Hout | lia | lia]).
  destruct (record_same b b' d r r' R R' Hsame) as (Ek & Ei & Eda & Esa); [lia.. |].
  split_and!; [done | done | congruence | | |].
  - rewrite Ek in K3'. destruct (kind r); [congruence |]. destruct K3 as [-> _], K3' as [-> _]. congruence.
  - rewrite Eelf in Hm'. assert (Hb2 := Hp'). rewrite Eelf in Hp'.
    rewrite (locate_outside try_reserve limits b b' elf d i s (d + 82) (d + 146) Hb Hb' Hp Hp' (sg_at _ _ _ _ _ _ _ G) Hout ltac:(lia) ltac:(unfold DESCRIPTOR_LEN; lia) _ Hm) in Hm'. congruence.
  - intros Ek'. apply Heq. rewrite K1 in Ek'. apply validate_record_Ok in Ev as (_ & _ & V). apply validate_record_Ok in Ev' as (_ & _ & V').
    rewrite Ek in V'. rewrite Ek' in V, V'. destruct V as (_ & _ & ->), V' as (_ & _ & ->). done.
Qed.
End Tamper.
