(* ===== verification/ElfSign.v ===== *)
(** * What signing writes, and the image that it makes, parsed again *)

From Stdlib Require Import String.
From S2P Require Import Prelude Text Fields ElfSignature ElfParse ElfLocate ElfVerify ElfManifest.

(** ** Little-endian fields *)

Lemma get_middle pre mid post x y : x = len pre -> y = len pre + len mid -> get (pre ++ mid ++ post) x y = Some mid.
Proof.
  unfold len. intros -> ->. rewrite get_ok by (unfold len; rewrite ?length_app; lia). f_equal.
  rewrite Nat2Z.id, drop_app_length. rewrite take_app_le by lia. apply take_ge. lia.
Qed.

Lemma read_le_middle n pre v post x : x = len pre -> 0 <= v < 256 ^ Z.of_nat n -> x + Z.of_nat n <= USIZE_MAX ->
  read_le (Z.of_nat n) (pre ++ to_le n v ++ post) x = Ok v.
Proof.
  intros Hx Hv Hm. apply read_le_Ok; [lia |]. exists (to_le n v). split_and!; [|by rewrite from_to_le | done].
  apply get_middle; [done |]. unfold len. rewrite to_le_length. unfold len in Hx. lia.
Qed.

(** A field is written in place. *)
Lemma copy_into_Ok {E} b x y src b' : copy_into (E := E) b x y src = Ok b' ->
  Z.of_nat x <= Z.of_nat y <= len b /\ outside b b' (Z.of_nat x) (Z.of_nat y) /\ get b' (Z.of_nat x) (Z.of_nat y) = Some src.
Proof.
  intros H. unfold copy_into in H. destruct (_ && _) eqn:C; [|done]. injection H as <-. bool_cases.
  assert (Z.of_nat x <= Z.of_nat y <= len b) as Hl by (unfold len; lia).
  split; [done |]. split; [split |].
  - unfold len. rewrite !length_app, length_take, length_drop. unfold len in Hl. lia.
  - intros j Hj Hn. destruct (decide (j < Z.of_nat x)) as [|].
    + rewrite lookup_app_l by (rewrite length_take; unfold len in Hl; lia). rewrite lookup_take, decide_True by lia. done.
    + rewrite lookup_app_r by (rewrite length_take; lia). rewrite length_take, Nat.min_l by (unfold len in Hl; lia).
      rewrite lookup_app_r by lia. rewrite lookup_drop. f_equal. lia.
  - apply get_middle; unfold len in *; rewrite length_take; lia.
Qed.

Lemma put_le_Ok n b x v b' : 0 <= x -> put_le n b x v = Ok b' ->
  x + Z.of_nat n <= len b /\ outside b b' x (x + Z.of_nat n) /\ get b' x (x + Z.of_nat n) = Some (to_le n v).
Proof.
  intros Hx H. apply copy_into_Ok in H as (H1 & H2 & H3). replace (Z.of_nat (Z.to_nat x)) with x in * by lia.
  replace (Z.of_nat (Z.to_nat x + n)) with (x + Z.of_nat n) in * by lia. split_and!; [lia | done | done].
Qed.

Lemma put_read n b x v b' : 0 <= x -> put_le n b x v = Ok b' -> 0 <= v < 256 ^ Z.of_nat n -> x + Z.of_nat n <= USIZE_MAX ->
  read_le (Z.of_nat n) b' x = Ok v.
Proof.
  intros Hx H Hv Hm. apply put_le_Ok in H as (_ & _ & Hg); [|done]. apply read_le_Ok; [lia |]. exists (to_le n v). by rewrite from_to_le.
Qed.

Lemma outside_u8 b b' lo hi v : Forall is_u8 b -> outside b b' lo hi -> get b' lo hi = Some v -> Forall is_u8 v -> Forall is_u8 b'.
Proof.
  intros Hb Ho Hg Hv. apply Forall_lookup. intros k x Hk. rewrite <- (Nat2Z.id k) in Hk. destruct (decide (lo <= Z.of_nat k < hi)) as [Hin|Hin].
  - replace (Z.of_nat k) with (lo + (Z.of_nat k - lo)) in Hk by lia. rewrite <- (get_lookup _ _ _ _ _ Hg) in Hk by lia. rewrite Forall_lookup in Hv. by eapply Hv.
  - rewrite (proj2 Ho) in Hk by lia. rewrite Forall_lookup in Hb. by eapply Hb.
Qed.

(** ** Section headers *)

(** The header that [append_section] writes. *)
Definition header_bytes (name ty off size al : Z) : list Z :=
  to_le 4 name ++ to_le 4 ty ++ zeros 16 ++ to_le 8 off ++ to_le 8 size ++ zeros 8 ++ to_le 8 al ++ zeros 8.

Lemma put_header name ty off size al : (let? header := put_u32 (zeros 64) 0 name in
  let? header := put_u32 header 4 ty in let? header := put_u64 header 24 off in
  let? header := put_u64 header 32 size in put_u64 header 48 al) = Ok (header_bytes name ty off size al).
Proof.
  unfold put_u32, put_u64, put_le, header_bytes. change (zeros 64) with ([] ++ zeros 4 ++ zeros 60).
  rewrite copy_into_at by (by rewrite ?to_le_length). cbn [app]. change (zeros 60) with (zeros 4 ++ zeros 56).
  rewrite copy_into_at by (by rewrite ?to_le_length). change (zeros 56) with (zeros 16 ++ zeros 8 ++ zeros 32).
  rewrite !app_assoc. rewrite <- (app_assoc _ (zeros 8)). rewrite copy_into_at by (by rewrite ?length_app, ?to_le_length).
  change (zeros 32) with (zeros 8 ++ zeros 24). rewrite !app_assoc. rewrite <- (app_assoc _ (zeros 8) (zeros 24)).
  rewrite copy_into_at by (by rewrite ?length_app, ?to_le_length). change (zeros 24) with (zeros 8 ++ zeros 8 ++ zeros 8).
  rewrite !app_assoc. rewrite <- (app_assoc _ (zeros 8) (zeros 8)). rewrite copy_into_at by (by rewrite ?length_app, ?to_le_length). by rewrite <- !app_assoc.
Qed.

Lemma put_header_then {B} (k : list Z -> result Error B) name ty off size al : (let? header := put_u32 (zeros 64) 0 name in
  let? header := put_u32 header 4 ty in let? header := put_u64 header 24 off in
  let? header := put_u64 header 32 size in let? header := put_u64 header 48 al in k header) = k (header_bytes name ty off size al).
Proof.
  pose proof (put_header name ty off size al) as H. destruct (put_u32 _ 0 _) as [h0| |]; [|done|done]. destruct (put_u32 _ 4 _) as [h1| |]; [|done|done].
  destruct (put_u64 _ 24 _) as [h2| |]; [|done|done]. destruct (put_u64 _ 32 _) as [h3| |]; [|done|done]. by rewrite H.
Qed.

Lemma header_bytes_length name ty off size al : List.length (header_bytes name ty off size al) = 64%nat.
Proof. unfold header_bytes. by rewrite !length_app, !to_le_length. Qed.

Definition new_header (name ty off size al raw : Z) : SectionHeader :=
  {| sh_name := name; name_len := 0; section_type := ty; sh_offset := off; sh_size := size; align := al; entry_size := 0; raw_offset := raw |}.

Ltac fields := unfold len, zeros; rewrite ?length_app, ?to_le_length, ?length_replicate; lia.

Lemma header_at_bytes pre post name ty off size al : 0 <= name <= U32_MAX -> 0 <= ty <= U32_MAX -> 0 <= off <= USIZE_MAX ->
  0 <= size <= USIZE_MAX -> 0 <= al <= USIZE_MAX -> len pre + 64 <= USIZE_MAX -> off + size <= len (pre ++ header_bytes name ty off size al ++ post) ->
  off + size <= USIZE_MAX ->
  header_at (pre ++ header_bytes name ty off size al ++ post) (len pre) (new_header name ty off size al (len pre)).
Proof.
  widths. intros H1 H2 H3 H4 H5 Hm He Hu. unfold header_bytes in *.
  assert (forall n x v p q, pre ++ (to_le 4 name ++ to_le 4 ty ++ zeros 16 ++ to_le 8 off ++ to_le 8 size ++ zeros 8 ++ to_le 8 al ++ zeros 8) ++ post = p ++ to_le n v ++ q ->
    len p = len pre + x -> 0 <= v < 256 ^ Z.of_nat n -> x + Z.of_nat n <= 64 ->
    read_le (Z.of_nat n) (pre ++ (to_le 4 name ++ to_le 4 ty ++ zeros 16 ++ to_le 8 off ++ to_le 8 size ++ zeros 8 ++ to_le 8 al ++ zeros 8) ++ post) (len pre + x) = Ok v) as Hrd.
  { intros n x v p q -> Hp Hv Hx. apply read_le_middle; [done | done | widths; lia]. }
  split; cbn; try done.
  - rewrite <- (Z.add_0_r (len pre)). apply (Hrd 4%nat 0 name pre (to_le 4 ty ++ zeros 16 ++ to_le 8 off ++ to_le 8 size ++ zeros 8 ++ to_le 8 al ++ zeros 8 ++ post)); [by rewrite <- !app_assoc | lia | cbn; lia | lia].
  - apply (Hrd 4%nat 4 ty (pre ++ to_le 4 name) (zeros 16 ++ to_le 8 off ++ to_le 8 size ++ zeros 8 ++ to_le 8 al ++ zeros 8 ++ post)); [by rewrite <- !app_assoc | fields | cbn; lia | lia].
  - apply (Hrd 8%nat 24 off (pre ++ to_le 4 name ++ to_le 4 ty ++ zeros 16) (to_le 8 size ++ zeros 8 ++ to_le 8 al ++ zeros 8 ++ post)); [by rewrite <- !app_assoc | fields | cbn; lia | lia].
  - apply (Hrd 8%nat 32 size (pre ++ to_le 4 name ++ to_le 4 ty ++ zeros 16 ++ to_le 8 off) (zeros 8 ++ to_le 8 al ++ zeros 8 ++ post)); [by rewrite <- !app_assoc | fields | cbn; lia | lia].
  - apply (Hrd 8%nat 48 al (pre ++ to_le 4 name ++ to_le 4 ty ++ zeros 16 ++ to_le 8 off ++ to_le 8 size ++ zeros 8) (zeros 8 ++ post)); [by rewrite <- !app_assoc | fields | cbn; lia | lia].
  - apply (Hrd 8%nat 56 0 (pre ++ to_le 4 name ++ to_le 4 ty ++ zeros 16 ++ to_le 8 off ++ to_le 8 size ++ zeros 8 ++ to_le 8 al) post); [by rewrite <- !app_assoc | fields | cbn; lia | lia].
Qed.

(** The flags, address and link of the new header are zero. *)
Lemma header_bytes_zero pre post name ty off size al x : x = 8 \/ x = 16 \/ x = 40 -> len pre + 64 <= USIZE_MAX ->
  read_u64 (pre ++ header_bytes name ty off size al ++ post) (len pre + x) = Ok 0.
Proof.
  intros Hx Hm. unfold header_bytes, read_u64.
  assert (forall p q, pre ++ (to_le 4 name ++ to_le 4 ty ++ zeros 16 ++ to_le 8 off ++ to_le 8 size ++ zeros 8 ++ to_le 8 al ++ zeros 8) ++ post = p ++ to_le 8 0 ++ q ->
    len p = len pre + x -> read_le 8 (pre ++ (to_le 4 name ++ to_le 4 ty ++ zeros 16 ++ to_le 8 off ++ to_le 8 size ++ zeros 8 ++ to_le 8 al ++ zeros 8) ++ post) (len pre + x) = Ok 0) as Hrd.
  { intros p q -> Hp. apply (read_le_middle 8); [done | cbn; lia | widths; lia]. }
  destruct Hx as [->|[->| ->]].
  - apply (Hrd (pre ++ to_le 4 name ++ to_le 4 ty) (zeros 8 ++ to_le 8 off ++ to_le 8 size ++ zeros 8 ++ to_le 8 al ++ zeros 8 ++ post)); [|fields].
    change (zeros 16) with (to_le 8 0 ++ zeros 8). by rewrite <- !app_assoc.
  - apply (Hrd (pre ++ to_le 4 name ++ to_le 4 ty ++ zeros 8) (to_le 8 off ++ to_le 8 size ++ zeros 8 ++ to_le 8 al ++ zeros 8 ++ post)); [|fields].
    change (zeros 16) with (zeros 8 ++ to_le 8 0). by rewrite <- !app_assoc.
  - apply (Hrd (pre ++ to_le 4 name ++ to_le 4 ty ++ zeros 16 ++ to_le 8 off ++ to_le 8 size) (to_le 8 al ++ zeros 8 ++ post)); [|fields]. by rewrite <- !app_assoc.
Qed.

(** The headers of the old sections are copied. *)
Lemma copy_headers_Ok b ss : forall output r, copy_headers b ss output = Ok r ->
  exists hs, r = output ++ hs /\ len hs = 64 * Z.of_nat (List.length ss) /\ (Forall is_u8 b -> Forall is_u8 hs) /\
    forall j s, ss !! j = Some s -> exists h, get b (raw_offset s) (raw_offset s + 64) = Some h /\ get hs (64 * Z.of_nat j) (64 * Z.of_nat j + 64) = Some h.
Proof.
  induction ss as [|s ss IH]; intros output r H; cbn [copy_headers] in H; [injection H as <-; exists []; rewrite app_nil_r; done |].
  destruct (range _ _ _) as [h| |] eqn:E; [|done|done]. apply range_Ok in E. change ELF64_SECTION_HEADER_LEN with 64 in E. pose proof (get_len _ _ _ _ E) as Hlen.
  apply IH in H as (hs & -> & Hl & H8 & Hg). exists (h ++ hs). rewrite <- app_assoc.
  split_and!; [done | unfold len in *; rewrite length_app; cbn; lia | intros Hb; apply Forall_app; split; [by eapply get_bytes | by apply H8] |].
  intros [|j] t; cbn [lookup list_lookup]; [intros [= <-]; exists h; split; [done |]; apply (get_middle [] h hs); unfold len in *; cbn; lia |].
  intros Hj. destruct (Hg j t Hj) as (h' & E1 & E2). exists h'. split; [done |]. apply get_Some in E2 as (B1 & B2 & ->).
  assert (List.length h = 64%nat) as Hh by (unfold len in Hlen; lia).
  rewrite get_ok by (unfold len in *; rewrite ?length_app; lia). f_equal. rewrite drop_app_ge by lia. rewrite Hh. f_equal; [lia |]. f_equal. lia.
Qed.

(** ** The new image *)

Definition terminated (s : list Z) : list Z := if bool_decide (last s = Some 0) then s else s ++ [0].

Lemma pad_to_Ok l a r : 0 < a -> pad_to l a = Ok r -> exists p, r = l ++ p /\ Forall is_u8 p /\ len p < a /\ len r mod a = 0.
Proof.
  intros Ha H. unfold pad_to, checked_add_usize in H. destruct (_ <=? _); [|done]. cbn [context ok_or] in H. injection H as <-.
  set (v := len l + (a - 1)). assert (len l <= v - v mod a < len l + a) as Hv by (subst v; pose proof (Z.mod_pos_bound (len l + (a - 1)) a Ha); lia).
  assert ((v - v mod a) mod a = 0) as Hm by (rewrite Zminus_mod_idemp_r, Z.sub_diag; done).
  clearbody v. generalize dependent (v - v mod a). intros next Hv Hm. unfold len in *.
  exists (replicate (Z.to_nat next - List.length l) 0). rewrite take_ge by lia. split_and!; [done | | rewrite length_replicate; lia |].
  - apply Forall_replicate. unfold is_u8. widths. lia.
  - rewrite length_app, length_replicate. replace (Z.of_nat _) with next by lia. done.
Qed.

(** What [append_section] makes of an image: the file, the new section's bytes, the new string table and the new section
    table, to which the ELF header points. *)
Record appended (b : list Z) (elf : Elf) (name : list Z) (ty : Z) (data out : list Z) (doff toff : Z) : Prop := {
  ap_u8 : Forall is_u8 out;
  ap_len : len out = toff + 64 * (Z.of_nat (List.length (sections elf)) + 2) /\ len out <= MAX_ELF_LEN;
  ap_doff : len b <= doff /\ doff mod 4 = 0;
  ap_toff : doff + len data + len (terminated (shstr elf) ++ name ++ [0]) <= toff;
  ap_same : forall x y, 0 <= x -> y <= len b -> y <= 40 \/ 48 <= x /\ y <= 60 \/ 64 <= x -> same b out x y;
  ap_data : get out doff (doff + len data) = Some data;
  ap_strings : get out (doff + len data) (doff + len data + len (terminated (shstr elf) ++ name ++ [0])) = Some (terminated (shstr elf) ++ name ++ [0]);
  ap_shoff : read_u64 out 40 = Ok toff;
  ap_shnum : read_u16 out 60 = Ok (Z.of_nat (List.length (sections elf)) + 2);
  ap_index : read_u16 out 62 = Ok (Z.of_nat (List.length (sections elf)) + 1);
  ap_old : forall j s, sections elf !! j = Some s -> exists h, get b (raw_offset s) (raw_offset s + 64) = Some h /\
             get out (toff + 64 * Z.of_nat j) (toff + 64 * Z.of_nat j + 64) = Some h;
  ap_new : let raw := toff + 64 * Z.of_nat (List.length (sections elf)) in
             header_at out raw (new_header (len (terminated (shstr elf))) ty doff (len data) 4 raw) /\
             forall x, x = 8 \/ x = 16 \/ x = 40 -> read_u64 out (raw + x) = Ok 0;
  ap_str : exists t, sections elf !! Z.to_nat (shstr_index elf) = Some t /\
             let raw := toff + 64 * (Z.of_nat (List.length (sections elf)) + 1) in
             header_at out raw (new_header (sh_name t) SHT_STRTAB (doff + len data) (len (terminated (shstr elf) ++ name ++ [0])) 1 raw) }.

(** The three fields of the ELF header that change. *)
Lemma put_table_fields body toff n out : (let? o1 := put_u64 body 40 toff in let? o2 := put_u16 o1 60 (n + 2) in put_u16 o2 62 (n + 1)) = Ok out ->
  0 <= toff <= USIZE_MAX -> 0 <= n -> n + 2 <= U16_MAX ->
  len out = len body /\ (forall x y, 0 <= x -> y <= 40 \/ 48 <= x /\ y <= 60 \/ 64 <= x -> same body out x y) /\
  read_u64 out 40 = Ok toff /\ read_u16 out 60 = Ok (n + 2) /\ read_u16 out 62 = Ok (n + 1) /\ (Forall is_u8 body -> Forall is_u8 out).
Proof.
  widths. intros H Ht Hn Hm. destruct (put_u64 body 40 toff) as [o1| |] eqn:E1; [|done|done]. destruct (put_u16 o1 60 _) as [o2| |] eqn:E2; [|done|done].
  pose proof (put_read 8 body 40 toff o1 ltac:(lia) E1 ltac:(cbn; lia) ltac:(widths; lia)) as R1.
  pose proof (put_read 2 o1 60 _ o2 ltac:(lia) E2 ltac:(cbn; lia) ltac:(widths; lia)) as R2.
  pose proof (put_read 2 o2 62 _ out ltac:(lia) H ltac:(cbn; lia) ltac:(widths; lia)) as R3.
  apply (put_le_Ok 8) in E1 as (L1 & O1 & G1); [|lia]. apply (put_le_Ok 2) in E2 as (L2 & O2 & G2); [|lia]. apply (put_le_Ok 2) in H as (L3 & O3 & G3); [|lia].
  change (40 + Z.of_nat 8) with 48 in *. change (60 + Z.of_nat 2) with 62 in *. change (62 + Z.of_nat 2) with 64 in *.
  pose proof (proj1 O1) as N1. pose proof (proj1 O2) as N2. pose proof (proj1 O3) as N3.
  split_and!.
  - lia.
  - intros x y Hx Hxy j Hj. rewrite (proj2 O3), (proj2 O2), (proj2 O1) by lia. done.
  - apply (read_u64_same o2); [apply (read_u64_same o1); [exact R1 | eapply outside_same; [exact O2 | lia | lia] | lia] | eapply outside_same; [exact O3 | lia | lia] | lia].
  - apply (read_u16_same o2); [exact R2 | eapply outside_same; [exact O3 | lia | lia] | lia].
  - exact R3.
  - intros H8. eapply outside_u8; [eapply outside_u8; [eapply outside_u8; [exact H8 | exact O1 | exact G1 | apply to_le_bytes] | exact O2 | exact G2 | apply to_le_bytes] | exact O3 | exact G3 | apply to_le_bytes].
Qed.

Lemma header_bytes_u8 name ty off size al : Forall is_u8 (header_bytes name ty off size al).
Proof. unfold header_bytes. rewrite !Forall_app. split_and!; try apply to_le_bytes; apply Forall_replicate; unfold is_u8; widths; lia. Qed.

Lemma terminated_u8 s : Forall is_u8 s -> Forall is_u8 (terminated s).
Proof. intros H. unfold terminated. case_bool_decide; [done |]. apply Forall_app. split; [done |]. apply Forall_singleton. unfold is_u8. widths. lia. Qed.

Lemma get_app_l pre post x y s : get pre x y = Some s -> get (pre ++ post) x y = Some s.
Proof.
  intros H. apply get_Some in H as H0. destruct H0 as (H1 & H2 & _). apply (get_same pre); [done | | unfold len in *; rewrite length_app; lia].
  intros j Hj. apply lookup_app_l. unfold len in H2. lia.
Qed.

Lemma get_app_r pre post x y s : get post x y = Some s -> get (pre ++ post) (len pre + x) (len pre + y) = Some s.
Proof.
  intros (H1 & H2 & ->)%get_Some. unfold len in *. rewrite get_ok by (unfold len; rewrite ?length_app; lia). f_equal.
  rewrite drop_app_ge by lia. f_equal; [lia |]. f_equal. lia.
Qed.

Section Append.
Context (try_reserve : Z -> bool) (b : list Z) (elf : Elf) (name data : list Z) (ty : Z).
Context (Him : image b elf) (Hlen : 64 <= len b) (Hty : 0 <= ty <= U32_MAX) (Hname : Forall is_u8 name) (Hdata : Forall is_u8 data).
Context (Hshstr : Forall is_u8 (shstr elf)) (Hnames : forall j t, sections elf !! j = Some t -> 0 <= sh_name t <= U32_MAX).

Lemma append_section_Ok out : append_section try_reserve elf name ty data = Ok out -> exists doff toff, appended b elf name ty data out doff toff.
Proof using Him Hlen Hty Hname Hdata Hshstr Hnames.
  intros H. unfold append_section in H. rewrite (im_bytes _ _ Him) in H. cbv zeta in H. set (n := Z.of_nat (List.length (sections elf))) in *.
  fold (terminated (shstr elf)) in H. set (S := terminated (shstr elf)) in *. rewrite <- (app_assoc S name) in H. set (strings := S ++ name ++ [0]) in *.
  destruct (context (checked_add_usize n 2) _) as [c| |] eqn:E0; [|done|done]. apply context_Ok in E0. unfold checked_add_usize in E0.
  destruct (_ <=? _); [|done]. injection E0 as <-. destruct (n + 2 <=? U16_MAX) eqn:Cn; [|done]. apply Z.leb_le in Cn. cbn [context ok_or] in H.
  destruct (context (checked_add_usize (len (shstr elf)) _) _); [|done|done]. destruct (reserve _ _ _); [|done|done].
  destruct (len S <=? U32_MAX) eqn:CS; [|done]. apply Z.leb_le in CS. cbn [context ok_or] in H.
  destruct (context (checked_mul_usize _ _) _) as [hz| |] eqn:E1; [|done|done]. apply context_Ok in E1. unfold checked_mul_usize in E1. destruct (_ <=? _); [|done]. injection E1 as <-.
  repeat match type of H with match context (checked_add_usize ?x ?y) ?m with _ => _ end = _ =>
    let E := fresh "E" in destruct (context (checked_add_usize x y) m) eqn:E; [|done|done]; apply context_Ok in E; unfold checked_add_usize in E;
    destruct (_ <=? _) in E; [|done]; injection E as <- end.
  destruct (MAX_ELF_LEN <? _) eqn:Cm; [done |]. apply Z.ltb_ge in Cm. change ELF64_SECTION_HEADER_LEN with 64 in Cm. destruct (reserve _ _ _); [|done|done].
  destruct (pad_to b 4) as [P1| |] eqn:E2; [|done|done]. apply pad_to_Ok in E2 as (p1 & -> & U1 & L1 & M1); [|lia].
  destruct (pad_to _ 8) as [P2| |] eqn:E3; [|done|done]. apply pad_to_Ok in E3 as (p2 & -> & U2 & L2 & M2); [|lia].
  destruct (copy_headers _ _ _) as [P3| |] eqn:E4; [|done|done]. apply copy_headers_Ok in E4 as (hs & -> & L3 & U3 & Hhs).
  rewrite put_header_then in H. destruct (sections elf !! Z.to_nat (shstr_index elf)) as [t|] eqn:Et; [|done]. rewrite put_header_then in H.
  set (A := b ++ p1) in *. set (doff := len A) in *. set (T := ((A ++ data) ++ strings) ++ p2) in *. set (toff := len T) in *.
  assert (len (A ++ data) = doff + len data) as ED by (subst doff; unfold len; rewrite length_app; lia). rewrite ED in H.
  set (h1 := header_bytes (len S) _ _ _ _) in *. set (h2 := header_bytes (sh_name t) _ _ _ _) in *. replace (n + 2 - 1) with (n + 1) in H by lia.
  assert (len h1 = 64 /\ len h2 = 64) as [EH1 EH2] by (unfold len; subst h1 h2; by rewrite !header_bytes_length).
  assert (len b <= doff < len b + 4) as Hd by (subst doff A; unfold len in *; rewrite length_app; lia).
  assert (doff + len data + len strings <= toff < doff + len data + len strings + 8) as Ht.
  { subst toff T. unfold len in *. rewrite !length_app in *. lia. }
  set (body := ((T ++ hs) ++ h1) ++ h2) in *. assert (len body = toff + 64 * (n + 2)) as EB.
  { subst body toff. unfold len in *. rewrite !length_app. lia. }
  unfold MAX_ELF_LEN in Cm. pose proof (put_table_fields body toff n out H ltac:(unfold len in *; widths; lia) ltac:(lia) Cn) as (LO & SO & R1 & R2 & R3 & U4).
  assert (Forall is_u8 body) as U5.
  { subst body T A strings. rewrite !Forall_app. split_and!; try done; [apply Him | by apply terminated_u8 | apply Forall_singleton; unfold is_u8; widths; lia | apply U3, Him | apply header_bytes_u8..]. }
  exists doff, toff. assert (forall x y s, 64 <= x -> get body x y = Some s -> get out x y = Some s) as Hget.
  { intros x y s Hx Hg. apply (get_same body); [done | apply SO; lia |]. apply get_Some in Hg as (_ & ? & _). lia. }
  assert (body = A ++ data ++ (strings ++ p2 ++ hs ++ h1 ++ h2)) as B1 by (subst body T; by rewrite <- !app_assoc).
  assert (body = (A ++ data) ++ strings ++ (p2 ++ hs ++ h1 ++ h2)) as B2 by (subst body T; by rewrite <- !app_assoc).
  assert (body = T ++ hs ++ (h1 ++ h2)) as B3 by (subst body; by rewrite <- !app_assoc).
  assert (body = (T ++ hs) ++ h1 ++ h2) as B4 by (subst body; by rewrite <- !app_assoc).
  assert (len (T ++ hs) = toff + 64 * n) as EL1 by (unfold len in *; rewrite length_app; subst toff; unfold len; lia).
  assert (len ((T ++ hs) ++ h1) = toff + 64 * (n + 1)) as EL2 by (unfold len in *; rewrite length_app; lia).
  split.
  - by apply U4.
  - fold n. unfold MAX_ELF_LEN. unfold len in *. lia.
  - split; [lia | done].
  - fold S strings. lia.
  - intros x y Hx Hy Hc j Hj. rewrite (SO x y Hx Hc j Hj). subst body T A. rewrite <- !app_assoc. apply lookup_app_l. unfold len in Hy. lia.
  - apply Hget; [unfold len in *; lia |]. rewrite B1. by apply get_middle.
  - fold S strings. apply Hget; [unfold len in *; lia |]. rewrite B2. apply get_middle; lia.
  - done.
  - done.
  - done.
  - intros j s Hj. destruct (Hhs j s Hj) as (h & G1 & G2). exists h. split; [done |]. apply Hget; [unfold len in *; lia |]. rewrite B3.
    rewrite <- Z.add_assoc. apply get_app_r. by apply get_app_l.
  - cbv zeta. fold n. fold S. assert (toff + 64 * n + 64 <= len out) as Hfit by lia. split.
    + apply (header_at_same body); [|unfold len in *; lia | lia | lia | apply SO; unfold len in *; lia]. rewrite B4, <- EL1. subst h1.
      apply header_at_bytes; try (unfold len in *; widths; lia). rewrite <- B4, EB. unfold len in *; lia.
    + intros x Hx. apply (read_u64_same body); [|apply SO; unfold len in *; lia | unfold len in *; lia]. rewrite B4, <- EL1. subst h1.
      apply header_bytes_zero; [done | unfold len in *; widths; lia].
  - exists t. split; [done |]. cbv zeta. fold n S strings. pose proof (Hnames _ t Et) as Hnm.
    apply (header_at_same body); [|unfold len in *; lia | lia | lia | apply SO; unfold len in *; lia].
    assert (body = ((T ++ hs) ++ h1) ++ h2 ++ []) as B5 by (by rewrite app_nil_r). rewrite B5, <- EL2. subst h2.
    apply header_at_bytes; try (unfold len in *; widths; unfold SHT_STRTAB; lia). rewrite <- B5, EB. unfold len in *; lia.
Qed.
End Append.

(** ** The image that [append_section] makes, parsed again *)

(** ** Headers and names *)

(** The same header in another place of the table. *)
Record moved (s s' : SectionHeader) : Prop := {
  mv_name : sh_name s' = sh_name s;
  mv_type : section_type s' = section_type s;
  mv_offset : sh_offset s' = sh_offset s;
  mv_size : sh_size s' = sh_size s;
  mv_align : align s' = align s;
  mv_entry : entry_size s' = entry_size s }.

Lemma header_at_fun b raw s s' : header_at b raw s -> header_at b raw s' -> moved s s'.
Proof. intros [] []. split; congruence. Qed.

Definition with_raw (s : SectionHeader) (raw : Z) : SectionHeader :=
  {| sh_name := sh_name s; name_len := name_len s; section_type := section_type s; sh_offset := sh_offset s; sh_size := sh_size s;
     align := align s; entry_size := entry_size s; raw_offset := raw |}.

Lemma header_at_moved b out raw raw' s h : header_at b raw s -> get b raw (raw + 64) = Some h -> get out raw' (raw' + 64) = Some h ->
  len b <= len out -> len out <= MAX_ELF_LEN -> header_at out raw' (with_raw s raw').
Proof.
  intros [A1 A2 A3 A4 A5 A6 _ A8] G G' Hl Hm. unfold MAX_ELF_LEN in Hm. apply get_Some in G as G0. apply get_Some in G' as G0'.
  assert (forall n x v, 0 <= n -> 0 <= x -> x + n <= 64 -> read_le n b (raw + x) = Ok v -> read_le n out (raw' + x) = Ok v) as Hrd.
  { intros n x v Hn Hx Hxn E. rewrite <- (read_le_get n out raw' (raw' + 64) h) by (done || lia || (widths; lia)).
    rewrite (read_le_get n b raw (raw + 64) h) by (done || lia || (widths; lia)). done. }
  split; cbn; [| apply (Hrd 4); done || lia | apply (Hrd 8); done || lia | apply (Hrd 8); done || lia | apply (Hrd 8); done || lia | apply (Hrd 8); done || lia | done |].
  - rewrite <- (Z.add_0_r raw'). apply (Hrd 4); [lia.. |]. by rewrite Z.add_0_r.
  - intros Ht. specialize (A8 Ht). lia.
Qed.

Lemma name_at_fun strings x n n' : name_at strings x n -> name_at strings x n' -> n' = n.
Proof. intros (_ & k & -> & E) (_ & k' & -> & E'). congruence. Qed.

Lemma name_at_app s t x n : name_at s x n -> name_at (s ++ t) x n /\ x + n < len s.
Proof.
  intros (Hx & k & -> & E). unfold len in *. split.
  - split; [unfold len; rewrite length_app; lia |]. exists k. split; [done |]. rewrite drop_app_le by lia. by apply find_char_app.
  - apply find_char_Some in E as (c & Hc & _). apply lookup_lt_Some in Hc. rewrite length_drop in Hc. lia.
Qed.

Lemma terminated_app s : exists t, terminated s = s ++ t.
Proof. unfold terminated. case_bool_decide; [exists []; by rewrite app_nil_r | by exists [0]]. Qed.

Lemma find_char_end name : no_char 0 name -> find_char (Z.eqb 0) (name ++ [0]) = Some (List.length name).
Proof.
  induction name as [|c name IH]; intros H; [done |]. cbn [find_char app]. apply Forall_cons in H as [Hc H].
  rewrite (proj2 (Z.eqb_neq 0 c)) by done. by rewrite IH.
Qed.

Lemma name_at_new s name : no_char 0 name -> name_at (s ++ name ++ [0]) (len s) (len name).
Proof.
  intros H. split; [unfold len; rewrite length_app; lia |]. exists (List.length name). split; [done |].
  unfold len. rewrite Nat2Z.id, drop_app_length. by apply find_char_end.
Qed.

Lemma section_name_at elf s n : name_at (shstr elf) (sh_name s) (name_len s) -> len (shstr elf) <= USIZE_MAX ->
  section_name elf s = Ok n <-> get (shstr elf) (sh_name s) (sh_name s + name_len s) = Some n.
Proof.
  intros Hn Hl. pose proof (name_at_app _ [] _ _ Hn) as [_ Hlt]. unfold section_name, checked_add_usize. rewrite (proj2 (Z.leb_le _ _)) by lia.
  cbn [context ok_or]. destruct (get _ _ _); cbn; split; congruence.
Qed.

(** ** The sections of the new image *)

Section Reparse.
Context (try_reserve : Z -> bool) (limits : VerificationLimits) (b out : list Z) (elf elf' : Elf).
Context (name data : list Z) (ty doff toff : Z).
Context (Hb : Forall is_u8 b) (Hp : parse_elf_with_limits try_reserve b limits = Ok elf).
Context (Hap : appended b elf name ty data out doff toff) (Hp' : parse_elf_with_limits try_reserve out limits = Ok elf').
Context (Hname : no_char 0 name).

Let n : nat := List.length (sections elf).

Lemma reparse_table : section_header_table elf' = Some (toff, len out) /\ shstr_index elf' = Z.of_nat n + 1 /\
  sections_at out toff (Z.of_nat n + 2) (Z.of_nat n + 1) (sections elf') (shstr elf').
Proof using Hap Hp'.
  destruct (parse_elf_headers _ _ _ _ (ap_u8 _ _ _ _ _ _ _ _ Hap) Hp') as (shoff & shnum & Et & A).
  pose proof (ap_shoff _ _ _ _ _ _ _ _ Hap) as R1. rewrite (sa_shoff _ _ _ _ _ _ A) in R1. injection R1 as ->.
  pose proof (ap_shnum _ _ _ _ _ _ _ _ Hap) as R2. rewrite (sa_shnum _ _ _ _ _ _ A) in R2. injection R2 as ->.
  pose proof (ap_index _ _ _ _ _ _ _ _ Hap) as R3. rewrite (sa_index _ _ _ _ _ _ A) in R3. injection R3 as R3. rewrite R3 in A.
  split_and!; [|done | done]. rewrite Et. destruct (ap_len _ _ _ _ _ _ _ _ Hap) as [-> _]. done.
Qed.

Lemma reparse_length : List.length (sections elf') = (n + 2)%nat.
Proof using Hap Hp'. destruct reparse_table as (_ & _ & A). pose proof (sa_count _ _ _ _ _ _ A). lia. Qed.

Lemma reparse_header j s : sections elf' !! j = Some s -> header_at out (toff + 64 * Z.of_nat j) s.
Proof using Hap Hp'.
  destruct reparse_table as (_ & _ & A). intros Hj. pose proof (sa_headers _ _ _ _ _ _ A j s Hj) as H.
  replace (toff + (Z.of_nat 0 + Z.of_nat j) * 64) with (toff + 64 * Z.of_nat j) in H by lia. done.
Qed.

Lemma reparse_lookup j : (j < n + 2)%nat -> exists s, sections elf' !! j = Some s.
Proof using Hap Hp'. intros Hj. apply lookup_lt_is_Some_2. rewrite reparse_length. done. Qed.

(** The section with the names. *)
Lemma reparse_str : exists s' t, sections elf' !! (n + 1)%nat = Some s' /\ sections elf !! Z.to_nat (shstr_index elf) = Some t /\
  moved (new_header (sh_name t) SHT_STRTAB (doff + len data) (len (terminated (shstr elf) ++ name ++ [0])) 1 0) s'.
Proof using Hap Hp'.
  destruct (reparse_lookup (n + 1)) as [s' Hs']; [lia |]. destruct (ap_str _ _ _ _ _ _ _ _ Hap) as (t & Ht & Hh). exists s', t. split_and!; [done | done |].
  apply reparse_header in Hs'. cbv zeta in Hh. fold n in Hh. replace (Z.of_nat (n + 1)) with (Z.of_nat n + 1) in Hs' by lia.
  destruct (header_at_fun _ _ _ _ Hh Hs') as []. by split.
Qed.

Lemma reparse_strings : shstr elf' = terminated (shstr elf) ++ name ++ [0].
Proof using Hap Hp'.
  destruct reparse_str as (s' & t & Hs' & _ & [_ _ Mo Ms _ _]). destruct reparse_table as (_ & _ & A).
  destruct (sa_strings _ _ _ _ _ _ A) as (u & Hu & _ & Hg & _). replace (Z.to_nat (Z.of_nat n + 1)) with (n + 1)%nat in Hu by lia. rewrite Hs' in Hu. injection Hu as <-.
  rewrite Mo, Ms in Hg. cbn [sh_offset sh_size new_header] in Hg. rewrite (ap_strings _ _ _ _ _ _ _ _ Hap) in Hg. by injection Hg.
Qed.

Lemma reparse_name_at j s : sections elf' !! j = Some s -> name_at (shstr elf') (sh_name s) (name_len s).
Proof using Hap Hp'.
  intros Hj. destruct reparse_table as (_ & _ & A). pose proof (sa_names _ _ _ _ _ _ A) as Hn. rewrite Forall_lookup in Hn. by eapply Hn.
Qed.

Lemma shstr_length : len (shstr elf') <= USIZE_MAX /\ len (shstr elf) <= len (shstr elf').
Proof using Hap Hp'.
  destruct (ap_len _ _ _ _ _ _ _ _ Hap) as [L1 L2]. pose proof (ap_toff _ _ _ _ _ _ _ _ Hap) as L3. pose proof (ap_doff _ _ _ _ _ _ _ _ Hap) as L4.
  rewrite reparse_strings. destruct (terminated_app (shstr elf)) as [t Et]. unfold MAX_ELF_LEN in L2. split; [widths; unfold len in *; lia |].
  rewrite Et. unfold len. rewrite !length_app. lia.
Qed.

(** The names of the old string table keep their place. *)
Lemma reparse_old_name s s' : name_at (shstr elf) (sh_name s) (name_len s) -> name_at (shstr elf') (sh_name s') (name_len s') ->
  sh_name s' = sh_name s -> name_len s' = name_len s /\ section_name elf' s' = section_name elf s.
Proof using Hap Hp'.
  intros Hn Hn' E. destruct shstr_length as [B1 B2]. destruct (terminated_app (shstr elf)) as [t Et]. rewrite E in Hn'.
  assert (shstr elf' = shstr elf ++ t ++ name ++ [0]) as Es by (rewrite reparse_strings, Et; by rewrite <- app_assoc).
  rewrite Es in Hn'. pose proof (name_at_app _ (t ++ name ++ [0]) _ _ Hn) as [Hn2 Hlt]. pose proof (name_at_fun _ _ _ _ Hn2 Hn') as El. split; [done |].
  unfold section_name. rewrite E, El. destruct (checked_add_usize _ _) as [e|] eqn:Ee; [|done]. cbn [context ok_or].
  unfold checked_add_usize in Ee. destruct (_ <=? _); [|done]. injection Ee as <-. destruct Hn as (Hx & k & Ek & _).
  rewrite Es. rewrite (get_ok (shstr elf)) by lia. erewrite get_app_l; [done |]. apply get_ok; lia.
Qed.

Lemma reparse_old j s : sections elf !! j = Some s -> exists s', sections elf' !! j = Some s' /\ moved s s' /\ section_name elf' s' = section_name elf s.
Proof using Hb Hp Hap Hp'.
  intros Hj. apply lookup_lt_Some in Hj as Hlt. destruct (reparse_lookup j) as [s' Hs']; [lia |]. exists s'. split; [done |].
  destruct (parse_elf_headers _ _ _ _ Hb Hp) as (shoff & shnum & _ & A). pose proof (sa_headers _ _ _ _ _ _ A j s Hj) as Hh.
  pose proof (ha_raw _ _ _ Hh) as Hraw. rewrite <- Hraw in Hh. destruct (ap_old _ _ _ _ _ _ _ _ Hap j s Hj) as (h & G1 & G2).
  destruct (ap_len _ _ _ _ _ _ _ _ Hap) as [L1 L2]. pose proof (ap_toff _ _ _ _ _ _ _ _ Hap) as L3. destruct (ap_doff _ _ _ _ _ _ _ _ Hap) as [L4 _].
  pose proof (header_at_moved _ _ _ _ _ _ Hh G1 G2 ltac:(unfold len in *; lia) L2) as Hm. pose proof (header_at_fun _ _ _ _ Hm (reparse_header _ _ Hs')) as M.
  assert (moved s s') as M' by (destruct M; by split). split; [done |].
  pose proof (sa_names _ _ _ _ _ _ A) as Hn. rewrite Forall_lookup in Hn. apply (reparse_old_name s s' (Hn j s Hj) (reparse_name_at _ _ Hs')). apply M'.
Qed.

Lemma reparse_new : exists s', sections elf' !! n = Some s' /\ moved (new_header (len (terminated (shstr elf))) ty doff (len data) 4 0) s' /\
  section_name elf' s' = Ok name.
Proof using Hap Hp' Hname.
  destruct (reparse_lookup n) as [s' Hs']; [lia |]. exists s'. destruct (ap_new _ _ _ _ _ _ _ _ Hap) as [Hh _]. cbv zeta in Hh. fold n in Hh.
  assert (moved (new_header (len (terminated (shstr elf))) ty doff (len data) 4 0) s') as M by (destruct (header_at_fun _ _ _ _ Hh (reparse_header _ _ Hs')) as []; by split).
  split_and!; [done | done |]. pose proof (reparse_name_at _ _ Hs') as Hn. destruct shstr_length as [B1 B2]. apply section_name_at; [done | done |].
  rewrite (mv_name _ _ M) in *. cbn [sh_name new_header] in *. rewrite reparse_strings in *.
  rewrite (name_at_fun _ _ _ _ (name_at_new (terminated (shstr elf)) name Hname) Hn) in *. by apply get_middle.
Qed.

Lemma reparse_str_name s' t : sections elf' !! (n + 1)%nat = Some s' -> sections elf !! Z.to_nat (shstr_index elf) = Some t ->
  sh_name s' = sh_name t -> section_name elf' s' = section_name elf t.
Proof using Hb Hp Hap Hp'.
  intros Hs' Ht E. destruct (parse_elf_headers _ _ _ _ Hb Hp) as (shoff & shnum & _ & A). pose proof (sa_names _ _ _ _ _ _ A) as Hn. rewrite Forall_lookup in Hn.
  by apply (reparse_old_name t s' (Hn _ t Ht) (reparse_name_at _ _ Hs')).
Qed.

(** Every section is an old one, the new one, or the new string table. *)
Lemma reparse_cases j s' : sections elf' !! j = Some s' -> (exists s, sections elf !! j = Some s) \/ j = n \/ j = (n + 1)%nat.
Proof using Hap Hp'.
  intros Hj. apply lookup_lt_Some in Hj. rewrite reparse_length in Hj. destruct (decide (j < n)%nat); [left; by apply lookup_lt_is_Some_2 | lia].
Qed.

(** The program headers are not touched, unless their table overlaps the ELF header. *)
Lemma reparse_program : (forall x y, program_header_table elf = Some (x, y) -> 64 <= x) ->
  program_notes elf' = program_notes elf /\ load_segments elf' = load_segments elf /\ program_header_table elf' = program_header_table elf /\
  Forall (program_note b) (program_notes elf) /\ (forall x y, program_header_table elf = Some (x, y) -> y <= len b) /\ 64 <= len b.
Proof using Hb Hp Hap Hp'.
  intros H64. destruct (parse_elf_Ok _ _ _ _ Hb Hp) as (C & P & _). destruct (parse_elf_Ok _ _ _ _ (ap_u8 _ _ _ _ _ _ _ _ Hap) Hp') as (_ & P' & _).
  assert (64 <= len b) as Hl.
  { unfold check_header in C. destruct (MAX_ELF_LEN <? len b); [done |]. destruct (max_image_bytes limits <? len b); [done |].
    destruct (Z.ltb_spec (len b) ELF64_HEADER_LEN); [done |]. unfold ELF64_HEADER_LEN in *. lia. }
  destruct (ap_len _ _ _ _ _ _ _ _ Hap) as [L1 L2]. pose proof (ap_toff _ _ _ _ _ _ _ _ Hap) as L3. destruct (ap_doff _ _ _ _ _ _ _ _ Hap) as [L4 _].
  assert (len b <= len out) as Hle by (unfold len in *; lia).
  destruct (parse_program_headers_same try_reserve b b limits _ _ _ Hb ltac:(lia) P) as (_ & _ & Hin); [done.. |].
  destruct (parse_program_headers_same try_reserve b out limits _ _ _ Hb Hle P) as (P2 & Hn & Ht).
  - apply (ap_same _ _ _ _ _ _ _ _ Hap); lia.
  - apply (ap_same _ _ _ _ _ _ _ _ Hap); lia.
  - intros x y E. destruct (Hin x y E) as [? ?]. apply (ap_same _ _ _ _ _ _ _ _ Hap); [lia | done |]. pose proof (H64 x y E). lia.
  - rewrite P2 in P'. injection P' as <- <- <-. split_and!; try done. intros x y E. by apply (Hin x y).
Qed.
End Reparse.

(** ** The note *)

(** The descriptor without digest and signature. *)
Definition kind_byte (k : SignatureKind) : Z := match k with AdHoc => KIND_ADHOC | Ed25519 => KIND_ED25519 end.
Definition algorithm_byte (k : SignatureKind) : Z := match k with AdHoc => SIGNATURE_NONE | Ed25519 => SIGNATURE_ED25519 end.
Definition descriptor_bytes (k : SignatureKind) (id : list Z) : list Z :=
  DESCRIPTOR_MAGIC ++ [1; 0] ++ [kind_byte k] ++ [DIGEST_SHA256] ++ [algorithm_byte k] ++ [0] ++ zeros 4 ++ id ++ zeros 96.
Definition note_bytes (k : SignatureKind) (id : list Z) : list Z :=
  to_le 4 8 ++ to_le 4 DESCRIPTOR_LEN ++ to_le 4 NOTE_TYPE ++ NOTE_NAME ++ descriptor_bytes k id ++ zeros 2.

Lemma empty_descriptor_Ok k id : len id = 32 -> empty_descriptor k id = Ok (descriptor_bytes k id).
Proof.
  unfold len. intros Hid. unfold empty_descriptor, set_idx, descriptor_bytes. fold (kind_byte k) (algorithm_byte k).
  change (zeros 146) with ([] ++ zeros 8 ++ zeros 138). rewrite copy_into_at by done. cbn [app].
  change (zeros 138) with (zeros 2 ++ zeros 136). rewrite copy_into_at by done. change (to_le 2 VERSION) with [1; 0].
  change (zeros 136) with ([0] ++ zeros 135). rewrite app_assoc, copy_into_at by done.
  change (zeros 135) with ([0] ++ zeros 134). rewrite app_assoc, copy_into_at by done.
  change (zeros 134) with ([0] ++ zeros 133). rewrite app_assoc, copy_into_at by done.
  change (zeros 133) with ([0] ++ zeros 132). rewrite app_assoc, copy_into_at by done.
  change (zeros 132) with (zeros 4 ++ zeros 128). rewrite app_assoc, copy_into_at by done. change (to_le 4 FLAGS) with (zeros 4).
  change (zeros 128) with (zeros 32 ++ zeros 96). rewrite app_assoc, copy_into_at by (done || (cbn; lia)). by rewrite <- !app_assoc.
Qed.

Lemma descriptor_length k id : len id = 32 -> List.length (descriptor_bytes k id) = 146%nat.
Proof. unfold len. intros H. unfold descriptor_bytes. rewrite !length_app. cbn. lia. Qed.

Lemma note_length k id : len id = 32 -> len (note_bytes k id) = 168.
Proof. intros H. unfold note_bytes, len. rewrite !length_app, !to_le_length, descriptor_length by done. done. Qed.

Lemma empty_note_Ok k id : len id = 32 -> empty_note k id = Ok (note_bytes k id).
Proof.
  intros H. unfold empty_note. rewrite empty_descriptor_Ok by done. change (len NOTE_NAME) with 8. cbv zeta.
  set (note := to_le 4 8 ++ _). assert (List.length note = 166%nat) as Hl by (subst note; rewrite !length_app, !to_le_length, descriptor_length by done; done).
  replace (align4 (len note)) with (@Ok Error Z 168) by (unfold len; rewrite Hl; done).
  rewrite take_ge by lia. rewrite Hl. unfold note_bytes. subst note. by rewrite <- !app_assoc.
Qed.

Lemma note_u8 k id : Forall is_u8 id -> Forall is_u8 (note_bytes k id).
Proof.
  intros H. unfold note_bytes, descriptor_bytes. rewrite !Forall_app. assert (forall x, 0 <= x <= 255 -> Forall is_u8 [x]) as H1 by (intros x Hx; apply Forall_singleton; unfold is_u8; widths; lia).
  assert (forall m, Forall is_u8 (zeros m)) as Hz by (intros m; apply Forall_replicate; unfold is_u8; widths; lia).
  assert (forall l : list Z, bool_decide (Forall is_u8 l) = true -> Forall is_u8 l) as Hc by (intros l Hl; by apply bool_decide_eq_true in Hl).
  split_and!; try apply to_le_bytes; try apply Hz; try done; try (by apply Hc); apply H1;
    unfold kind_byte, algorithm_byte, KIND_ADHOC, KIND_ED25519, SIGNATURE_NONE, SIGNATURE_ED25519, DIGEST_SHA256; destruct k; lia.
Qed.
