(* ===== verification/ElfSigned.v ===== *)
(** * Signed images verify *)

From Stdlib Require Import String.
From S2P Require Import Prelude Text Fields ElfSignature ElfParse ElfLocate ElfVerify ElfManifest ElfSign.

(** ** The note that signing writes *)

Section Note.
Context (out : list Z) (doff : Z) (k : SignatureKind) (id : list Z).
Context (Hid : len id = 32) (Hnote : get out doff (doff + 168) = Some (note_bytes k id)) (Hmod : doff mod 4 = 0) (Hmax : len out <= MAX_ELF_LEN).

Lemma note_read n pre v post x : note_bytes k id = pre ++ to_le n v ++ post -> x = len pre -> x + Z.of_nat n <= 168 -> 0 <= v < 256 ^ Z.of_nat n ->
  read_le (Z.of_nat n) out (doff + x) = Ok v.
Proof using Hnote Hmax.
  intros E Hx Hle Hv. unfold MAX_ELF_LEN in Hmax. apply get_Some in Hnote as H0. rewrite <- (read_le_get _ out doff (doff + 168) (note_bytes k id)) by (done || unfold len in *; widths; lia).
  rewrite E. apply read_le_middle; [done | done | widths; lia].
Qed.

Lemma note_slice pre mid post x y : note_bytes k id = pre ++ mid ++ post -> x = len pre -> y = len pre + len mid -> get out (doff + x) (doff + y) = Some mid.
Proof using Hnote.
  intros E Hx Hy. rewrite <- (get_get out doff (doff + 168) (note_bytes k id)); [|done| |].
  - rewrite E. by apply get_middle.
  - unfold len in *. lia.
  - apply get_len in Hnote as Hl. rewrite E in Hl. unfold len in *. rewrite !length_app in Hl. lia.
Qed.

Lemma note_walk : note_at out (doff + 168) doff = Ok (doff + 168, Some (doff + 20)).
Proof using All.
  pose proof (get_Some out doff (doff + 168) (note_bytes k id)) as [H0 _]. specialize (H0 Hnote). unfold MAX_ELF_LEN in Hmax.
  unfold note_at. rewrite (proj2 (Z.ltb_ge _ _)) by lia. unfold read_u32.
  assert (read_le 4 out doff = Ok 8) as ->.
  { rewrite <- (Z.add_0_r doff). by apply (note_read 4 [] 8 (to_le 4 DESCRIPTOR_LEN ++ to_le 4 NOTE_TYPE ++ NOTE_NAME ++ descriptor_bytes k id ++ zeros 2)). }
  rewrite (note_read 4 (to_le 4 8) DESCRIPTOR_LEN (to_le 4 NOTE_TYPE ++ NOTE_NAME ++ descriptor_bytes k id ++ zeros 2)) by done.
  rewrite (note_read 4 (to_le 4 8 ++ to_le 4 DESCRIPTOR_LEN) NOTE_TYPE (NOTE_NAME ++ descriptor_bytes k id ++ zeros 2)) by done. cbv zeta.
  assert (checked_end (doff + 12) 8 (doff + 168) = Ok (doff + 20)) as -> by (apply checked_end_Ok; widths; lia).
  assert (align4 (doff + 20) = Ok (doff + 20)) as -> by (apply align4_Ok; widths; divlia).
  rewrite (proj2 (Z.ltb_ge _ _)) by lia. unfold DESCRIPTOR_LEN.
  assert (checked_end (doff + 20) 146 (doff + 168) = Ok (doff + 166)) as -> by (apply checked_end_Ok; widths; lia).
  assert (align4 (doff + 166) = Ok (doff + 168)) as -> by (apply align4_Ok; widths; divlia).
  rewrite (proj2 (Z.ltb_ge _ _)) by lia. rewrite Z.eqb_refl.
  unfold range. rewrite (note_slice (to_le 4 8 ++ to_le 4 DESCRIPTOR_LEN ++ to_le 4 NOTE_TYPE) NOTE_NAME (descriptor_bytes k id ++ zeros 2)) by done.
  rewrite bool_decide_eq_true_2 by done. cbn [negb Z.eqb Pos.eqb].
  rewrite (get_ok out (doff + 20) (doff + 20)), Z.sub_diag by lia. 
  rewrite (note_slice (to_le 4 8 ++ to_le 4 DESCRIPTOR_LEN ++ to_le 4 NOTE_TYPE ++ NOTE_NAME ++ descriptor_bytes k id) (zeros 2) []).
  - done.
  - unfold note_bytes. by rewrite app_nil_r, <- !app_assoc.
  - unfold len. rewrite !length_app, descriptor_length by done. done.
  - unfold len. rewrite !length_app, descriptor_length by done. done.
Qed.

Lemma note_carries d o : carries out d (d + DESCRIPTOR_LEN) {| na_offset := doff; na_size := 168; origin := o |} -> d = doff + 20.
Proof using All.
  pose proof (get_Some out doff (doff + 168) (note_bytes k id)) as [H0 _]. specialize (H0 Hnote). unfold MAX_ELF_LEN in Hmax.
  intros (f & new & oc & H & Hin & H1 & H2). unfold parse_note_area in H. cbn [na_offset na_size] in H.
  rewrite (proj2 (checked_end_Ok _ _ _ (doff + 168))) in H by (widths; lia). replace (S (Z.to_nat 168)) with (S (S 167)) in H by done.
  generalize dependent 167%nat. intros m H. cbn [note_loop] in H.
  rewrite (proj2 (Z.ltb_lt _ _)) in H by lia. cbn [negb] in H. rewrite note_walk in H. destruct (_ =? 2)%nat; [done |].
  rewrite Z.ltb_irrefl in H. cbn [negb] in H. injection H as H. apply app_inv_head in H. subst new. apply list_elem_of_singleton in Hin. subst oc.
  cbn [descriptor_offset] in *. lia.
Qed.

Lemma note_descriptor : get out (doff + 20) (doff + 20 + 146) = Some (descriptor_bytes k id).
Proof using Hid Hnote.
  replace (doff + 20 + 146) with (doff + 166) by lia.
  apply (note_slice (to_le 4 8 ++ to_le 4 DESCRIPTOR_LEN ++ to_le 4 NOTE_TYPE ++ NOTE_NAME) _ (zeros 2)); [unfold note_bytes; by rewrite <- !app_assoc | done |].
  unfold len. rewrite descriptor_length by done. done.
Qed.
End Note.

(** What the record of a descriptor says. *)
Lemma descriptor_record out d k id r : len id = 32 -> 0 <= d -> d + 146 <= USIZE_MAX -> get out d (d + 146) = Some (descriptor_bytes k id) -> record_at out d r ->
  kind r = k /\ digest_algorithm r = DIGEST_SHA256 /\ signature_algorithm r = algorithm_byte k /\ flags r = 0 /\ key_id r = id /\ signature r = zeros 64.
Proof.
  intros Hid Hd Hm Hg [_ _ R3 _ R5 R6 _ R8 R9 R10 _].
  assert (forall x v, 0 <= x < 146 -> byte_at (descriptor_bytes k id) x = Ok v -> byte_at out (d + x) = Ok v) as Hat.
  { intros x v Hx E. by rewrite <- (byte_at_get out d (d + 146) _ x Hg) by lia. }
  rewrite (Hat 10 (kind_byte k)) in R3 by done. rewrite (Hat 11 DIGEST_SHA256) in R9 by done. rewrite (Hat 12 (algorithm_byte k)) in R10 by done.
  unfold read_u32 in R5. rewrite <- (read_le_get 4 out d (d + 146) (descriptor_bytes k id)) in R5 by (done || lia).
  rewrite <- (get_get out d (d + 146) _ 18 50 Hg) in R6 by lia. rewrite <- (get_get out d (d + 146) _ 82 146 Hg) in R8 by lia.
  assert (read_le 4 (descriptor_bytes k id) 14 = Ok 0) as E5.
  { unfold descriptor_bytes. rewrite !app_assoc. rewrite <- (app_assoc _ id). rewrite <- (app_assoc _ (zeros 4)). change (zeros 4) with (to_le 4 0). by apply (read_le_middle 4). }
  assert (get (descriptor_bytes k id) 18 50 = Some id) as E6.
  { unfold descriptor_bytes. rewrite !app_assoc. rewrite <- (app_assoc _ id). by apply get_middle; [|rewrite Hid]. }
  assert (get (descriptor_bytes k id) 82 146 = Some (zeros 64)) as E8.
  { unfold descriptor_bytes. change (zeros 96) with (zeros 32 ++ zeros 64 ++ []). rewrite !app_assoc. rewrite <- (app_assoc _ (zeros 64)).
    unfold len in Hid. apply get_middle; unfold len; rewrite !length_app; cbn; lia. }
  rewrite E5 in R5. rewrite E6 in R6. rewrite E8 in R8. split_and!; [|congruence..]. by destruct k, (kind r).
Qed.

(** ** The manifest of an image with a new section *)

Section Manifest.
Context (try_reserve : Z -> bool) (limits : VerificationLimits) (b out : list Z) (elf elf' : Elf).
Context (name data : list Z) (ty doff toff : Z).
Context (Hb : Forall is_u8 b) (Hp : parse_elf_with_limits try_reserve b limits = Ok elf).
Context (Hap : appended b elf name ty data out doff toff) (Hp' : parse_elf_with_limits try_reserve out limits = Ok elf').
Context (Hname : no_char 0 name).

Local Abbreviation n := (List.length (sections elf)).

(** The name of a section of the new image is that of an old one, or the new one. *)
Lemma reparse_names j s' : sections elf' !! j = Some s' ->
  (exists s, sections elf !! j = Some s /\ moved s s' /\ section_name elf' s' = section_name elf s) \/
  (j = n /\ section_name elf' s' = Ok name /\ sh_offset s' = doff /\ sh_size s' = len data /\ section_type s' = ty) \/
  (j = (n + 1)%nat /\ section_type s' = SHT_STRTAB /\ sh_offset s' = doff + len data /\
    exists t, sections elf !! Z.to_nat (shstr_index elf) = Some t /\ section_type t = SHT_STRTAB /\ section_name elf' s' = section_name elf t).
Proof using Hb Hp Hap Hp' Hname.
  intros Hj. destruct (reparse_cases _ _ _ _ _ _ _ _ _ _ _ Hap Hp' j s' Hj) as [[s Hs]|[->| ->]].
  - left. exists s. destruct (reparse_old _ _ _ _ _ _ _ _ _ _ _ Hb Hp Hap Hp' j s Hs) as (u & Hu & M & E). rewrite Hj in Hu. injection Hu as <-. done.
  - right. left. destruct (reparse_new _ _ _ _ _ _ _ _ _ _ _ Hap Hp' Hname) as (u & Hu & M & E). rewrite Hj in Hu. injection Hu as <-. destruct M. done.
  - right. right. destruct (reparse_str _ _ _ _ _ _ _ _ _ _ _ Hap Hp') as (u & t & Hu & Ht & M). rewrite Hj in Hu. injection Hu as <-.
    split; [done |]. destruct M as [M1 M2 M3 _ _ _]. split_and!; [done | done |]. exists t. split; [done |].
    split; [|by eapply (reparse_str_name _ _ _ _ _ _ _ _ _ _ _ Hb Hp Hap Hp')].
    destruct (parse_elf_headers _ _ _ _ Hb Hp) as (? & ? & _ & A). destruct (sa_strings _ _ _ _ _ _ A) as (t' & Ht' & T & _). rewrite Ht in Ht'. by injection Ht' as <-.
Qed.

Lemma reparse_named j s' : sections elf' !! j = Some s' -> exists nm, section_name elf' s' = Ok nm.
Proof using Hap Hp'.
  intros Hj. pose proof (reparse_name_at _ _ _ _ _ _ _ _ _ _ _ Hap Hp' j s' Hj) as Hn. destruct (shstr_length _ _ _ _ _ _ _ _ _ _ _ Hap Hp') as [B1 B2].
  pose proof (name_at_app _ [] _ _ Hn) as [_ Hlt]. pose proof Hn as (Hx & k & Ek & _).
  eexists. apply section_name_at; [done | done |]. apply get_ok; lia.
Qed.

(** The headers and bytes of an old section. *)
Lemma reparse_manifest_at j s s' m : (forall x y, program_header_table elf = Some (x, y) -> 64 <= x) ->
  sections elf !! j = Some s -> sections elf' !! j = Some s' -> moved s s' -> manifest_at b elf j s m -> manifest_at out elf' j s' m.
Proof using Hb Hp Hap Hp' Hname.
  intros H64 Hj Hj' [_ M2 M3 M4 M5 M6] [A1 [A2 A3] (A4 & A5 & A6) [A7 A8] (A9 & A10 & A11) A12 A13 A14 (dt & D1 & D2) A15].
  destruct (reparse_program _ _ _ _ _ _ _ _ _ _ _ Hb Hp Hap Hp' H64) as (P1 & P2 & P3 & _ & _ & _).
  destruct (reparse_table _ _ _ _ _ _ _ _ _ _ _ Hap Hp') as (T1 & _ & A).
  destruct (ap_len _ _ _ _ _ _ _ _ Hap) as [L1 L2]. pose proof (ap_toff _ _ _ _ _ _ _ _ Hap) as L3. destruct (ap_doff _ _ _ _ _ _ _ _ Hap) as [L4 _].
  pose proof (get_Some b (sh_offset s) (sh_offset s + sh_size s) dt) as [G0 _]. destruct (G0 D1) as (G1 & G2 & _).
  assert (forall x, 0 <= x -> x + 8 <= 64 -> read_u64 b (raw_offset s + x) = Ok 0 -> read_u64 out (raw_offset s' + x) = Ok 0) as Hrd.
  { intros x Hx Hx8 E. destruct (ap_old _ _ _ _ _ _ _ _ Hap j s Hj) as (h & H1 & H2). pose proof (reparse_header _ _ _ _ _ _ _ _ _ _ _ Hap Hp' _ _ Hj') as Hh.
    rewrite (ha_raw _ _ _ Hh). apply get_Some in H1 as B1. apply get_Some in H2 as B2. unfold MAX_ELF_LEN in L2. unfold read_u64 in *.
    rewrite <- (read_le_get 8 out _ _ h x H2) by (lia || (widths; lia)). rewrite (read_le_get 8 b _ _ h x H1) by (lia || (widths; unfold len in *; lia)). done. }
  split; rewrite ?M2, ?M3, ?M4, ?M5, ?M6, ?P1, ?P2, ?P3, ?T1; try done.
  - split_and!; apply Hrd; done || lia.
  - split_and!; [done | done |]. cbn. apply overlaps_false. cbn. unfold len in *. lia.
  - intros k u Hk Hne Hu Hsz. destruct (reparse_names k u Hk) as [(u0 & Hu0 & [_ N2 N3 N4 _ _] & _)|[(_ & _ & -> & _)|(_ & _ & -> & _)]].
    + rewrite N3, N4. apply (A14 k u0); congruence.
    + apply overlaps_false. cbn. lia.
    + apply overlaps_false. cbn. unfold len in *. lia.
  - exists dt. split; [|done]. apply (get_same b); [done | apply (ap_same _ _ _ _ _ _ _ _ Hap); lia | unfold len in *; lia].
Qed.

Lemma reparse_locate m : (forall x y, program_header_table elf = Some (x, y) -> 64 <= x) -> name <> MANIFEST_SECTION -> locate elf = Ok m -> locate elf' = Ok m.
Proof using Hb Hp Hap Hp' Hname.
  intros H64 Hne. rewrite (locate_Ok b) by (by eapply parse_elf_image). rewrite (locate_Ok out) by (eapply parse_elf_image; [apply Hap | done]).
  intros [_ H]. split; [apply reparse_named |]. destruct m as [m|].
  - destruct H as (j & s & Hj & Hm & Hu). destruct (reparse_old _ _ _ _ _ _ _ _ _ _ _ Hb Hp Hap Hp' j s Hj) as (s' & Hj' & M & E).
    exists j, s'. split_and!; [done | by eapply reparse_manifest_at |]. intros k u Hk.
    destruct (reparse_names k u Hk) as [(u0 & Hu0 & _ & ->)|[(-> & -> & _)|(-> & _ & _ & t & Ht & Tt & ->)]].
    + by apply Hu.
    + apply lookup_lt_Some in Hj. split; [congruence | lia].
    + rewrite (Hu _ t Ht). apply lookup_lt_Some in Hj as Hlt. split; [|lia]. intros <-. rewrite Hj in Ht. injection Ht as <-.
      pose proof (ma_type _ _ _ _ _ Hm) as T. by rewrite Tt in T.
  - intros j s' Hj'. destruct (reparse_names j s' Hj') as [(u0 & Hu0 & _ & ->)|[(-> & -> & _)|(-> & _ & _ & t & Ht & Tt & ->)]]; [by eapply H | congruence | by eapply H].
Qed.

(** The new section is the manifest. *)
Lemma reparse_new_manifest m : name = MANIFEST_SECTION -> locate elf = Ok None -> locate elf' = Ok (Some m) -> get data HEADER_LEN (len data) = Some m.
Proof using Hb Hp Hap Hp' Hname.
  intros En. rewrite (locate_Ok b) by (by eapply parse_elf_image). rewrite (locate_Ok out) by (eapply parse_elf_image; [apply Hap | done]).
  intros [_ Hno] [_ (j & s' & Hj & Hm & Hu)]. pose proof (proj2 (Hu j s' Hj) eq_refl) as Es.
  destruct (reparse_names j s' Hj) as [(u0 & Hu0 & _ & E)|[(-> & _ & O1 & O2 & _)|(-> & _ & _ & t & Ht & Tt & E)]];
    [by rewrite E in Es; eapply Hno in Es | | by rewrite E in Es; eapply Hno in Es].
  destruct (ma_data _ _ _ _ _ Hm) as (dt & D1 & _ & _ & _ & _ & D2). rewrite O1, O2, (ap_data _ _ _ _ _ _ _ _ Hap) in D1. by injection D1 as <-.
Qed.

End Manifest.

(** ** Embedding the record *)

Lemma image_tables try_reserve b limits elf : Forall is_u8 b -> parse_elf_with_limits try_reserve b limits = Ok elf ->
  64 <= len b /\ Forall is_u8 (shstr elf) /\ forall j t, sections elf !! j = Some t -> 0 <= sh_name t <= U32_MAX.
Proof.
  intros Hb Hp. destruct (parse_elf_Ok _ _ _ _ Hb Hp) as (C & _). destruct (parse_elf_headers _ _ _ _ Hb Hp) as (shoff & shnum & _ & A). split_and!.
  - unfold check_header in C. destruct (MAX_ELF_LEN <? len b); [done |]. destruct (max_image_bytes limits <? len b); [done |].
    destruct (Z.ltb_spec (len b) ELF64_HEADER_LEN); [done |]. unfold ELF64_HEADER_LEN in *. lia.
  - destruct (sa_strings _ _ _ _ _ _ A) as (t & _ & _ & Hg & _). by eapply get_bytes.
  - intros j t Hj. apply (read_u32_range b (shoff + (Z.of_nat 0 + Z.of_nat j) * 64)); [done |]. by apply (sa_headers _ _ _ _ _ _ A j t Hj).
Qed.

(** The bytes of the file stay, up to the place and the size of the section table in the ELF header. *)
Definition kept (u out : list Z) : Prop :=
  forall x y, 0 <= x -> y <= len u -> y <= 40 \/ 48 <= x /\ y <= 60 \/ 64 <= x -> same u out x y.

Lemma kept_outside u out b' lo hi : kept u out -> outside out b' lo hi -> len u <= lo -> kept u b'.
Proof. intros Hk Ho Hlo x y Hx Hy Hc j Hj. rewrite (proj2 Ho) by lia. by apply (Hk x y). Qed.

(** What the signing functions start from: the record is found where it was written, in an image whose manifest is the old one. *)
Record embedded (try_reserve : Z -> bool) (u out : list Z) (k : SignatureKind) (id : list Z) (m : option (list Z)) (elf' : Elf) (d : Z) (i : nat) (s : SectionHeader) (r : SigRecord) : Prop := {
  em_u8 : Forall is_u8 out;
  em_parse : parse_elf try_reserve out = Ok elf';
  em_manifest : locate elf' = Ok m;
  em_found : locate_record_in try_reserve elf' = Ok (Some r);
  em_at : signature_at out elf' d i s;
  em_record : record_at out d r;
  em_fields : kind r = k /\ digest_algorithm r = DIGEST_SHA256 /\ signature_algorithm r = algorithm_byte k /\ flags r = 0 /\ key_id r = id /\ signature r = zeros 64;
  em_notes : Forall (clear_of d (d + DESCRIPTOR_LEN)) (program_notes elf');
  em_kept : len u <= d /\ kept u out }.

Lemma embed_empty_record_Ok try_reserve u k id out elf : Forall is_u8 u -> Forall is_u8 id -> len id = 32 -> parse_elf try_reserve u = Ok elf ->
  (forall x y, program_header_table elf = Some (x, y) -> 64 <= x) -> embed_empty_record try_reserve u k id = Ok out ->
  exists m elf' d i s r, locate elf = Ok m /\ embedded try_reserve u out k id m elf' d i s r.
Proof.
  intros Hu Hid8 Hid Hp H64 H. unfold embed_empty_record in H. rewrite Hp in H.
  destruct (locate_record_in _ elf) as [loc| |]; [|done|done]. destruct (bool_decide (is_Some loc)); [done |].
  destruct (existsb _ _) eqn:Ere; [done |]. destruct (locate elf) as [m| |] eqn:Em; [|done|done]. rewrite empty_note_Ok in H by done.
  destruct (append_section _ _ _ _ _) as [out'| |] eqn:Ea; [|done|done]. destruct (parse_elf _ out') as [elf'| |] eqn:Hp'; [|done|done].
  destruct (locate_record_in _ elf') as [[r|]| |] eqn:El; [|done|done|done]. cbn [context ok_or] in H. injection H as ->.
  pose proof (parse_elf_image _ _ _ _ Hu Hp) as Him. destruct (image_tables _ _ _ _ Hu Hp) as (L64 & S8 & Hnm).
  apply (append_section_Ok _ u) in Ea as (doff & toff & Hap); try done; [|by apply (bool_decide_eq_true_1 (Forall is_u8 SIGNATURE_SECTION)) | by apply note_u8].
  pose proof (ap_u8 _ _ _ _ _ _ _ _ Hap) as Hout. pose proof (parse_elf_image _ _ _ _ Hout Hp') as Him'.
  destruct (locate_record_in_Ok _ _ _ _ Him' El) as (d & i & s & Hat & Hr & _). destruct (si_file _ _ _ _ _ Hat) as [F1 F2].
  apply parse_record_Ok in Hr as [_ Hr]; [|lia | apply Him']. exists m, elf', d, i, s, r. split; [done |].
  assert (no_char 0 SIGNATURE_SECTION) as Hsig by (apply (bool_decide_eq_true_1 (Forall (fun c => c <> 0) SIGNATURE_SECTION)); reflexivity).
  destruct (reparse_program _ _ _ _ _ _ _ _ _ _ _ Hu Hp Hap Hp' H64) as (P1 & _ & _ & Hpn & _).
  assert (forall j t, sections elf !! j = Some t -> section_name elf t <> Ok SIGNATURE_SECTION) as Hold.
  { intros j t Hj E. apply not_true_iff_false in Ere. apply Ere. apply existsb_elem. exists t. split; [by eapply list_elem_of_lookup_2 |].
    unfold names_reserved. by rewrite E, bool_decide_eq_true_2. }
  destruct (ap_len _ _ _ _ _ _ _ _ Hap) as [L1 L2]. destruct (ap_doff _ _ _ _ _ _ _ _ Hap) as [L4 L5]. pose proof (ap_toff _ _ _ _ _ _ _ _ Hap) as L3.
  pose proof (note_length k id Hid) as HN. pose proof (ap_data _ _ _ _ _ _ _ _ Hap) as Hdata. rewrite HN in Hdata, L3.
  assert (d = doff + 20) as ->.
  { pose proof (si_name _ _ _ _ _ Hat) as Nm. destruct (reparse_names _ _ _ _ _ _ _ _ _ _ _ Hu Hp Hap Hp' Hsig i s (si_section _ _ _ _ _ Hat))
      as [(u0 & Hu0 & _ & E)|[(-> & _ & O1 & O2 & _)|(-> & _ & _ & t & Ht & Tt & E)]];
      [by rewrite E in Nm; eapply Hold in Nm | | by rewrite E in Nm; eapply Hold in Nm].
    pose proof (si_carries _ _ _ _ _ Hat) as Hc. rewrite O1, O2, HN in Hc. by eapply (note_carries out doff k id). }
  unfold MAX_ELF_LEN in L2. split; try done.
  - eapply (reparse_locate _ _ u out); try done.
  - apply (descriptor_record out (doff + 20)); try done; [lia | widths; unfold len in *; lia |]. by apply note_descriptor.
  - rewrite P1. eapply Forall_impl; [exact Hpn |]. intros a [(? & ? & ?) _]. right. right. lia.
  - split; [lia |]. exact (ap_same _ _ _ _ _ _ _ _ Hap).
Qed.

(** ** Sealing it *)

Lemma outside_join b b' b'' x y z : outside b b' x y -> outside b' b'' y z -> x <= y <= z -> outside b b'' x z.
Proof. intros [L1 H1] [L2 H2] Hle. split; [lia |]. intros j Hj Hn. rewrite H2, H1 by lia. done. Qed.

Lemma blank_outside b b' d : 0 <= d -> d + DESCRIPTOR_LEN <= len b -> outside b b' (d + 50) (d + 146) -> blank b' d = blank b d.
Proof.
  intros Hd Hl [Ho1 Ho2]. apply list_eq. intros j. rewrite <- (Nat2Z.id j). rewrite !blank_lookup by lia.
  destruct ((d + 50 <=? Z.of_nat j) && (Z.of_nat j <? d + 146)) eqn:C; [done |]. apply Ho2; [lia |]. apply andb_false_iff in C. rewrite Z.leb_gt, Z.ltb_ge in C. lia.
Qed.

Definition sealed (r : SigRecord) (dg sg : list Z) : SigRecord :=
  {| kind := kind r; digest_algorithm := digest_algorithm r; signature_algorithm := signature_algorithm r; flags := flags r; key_id := key_id r;
     digest := dg; signature := sg; digest_file_offset := digest_file_offset r; signature_file_offset := signature_file_offset r |}.

Lemma record_sealed b b' d r dg sg : record_at b d r -> 0 <= d -> d + DESCRIPTOR_LEN <= len b -> outside b b' (d + 50) (d + 146) ->
  get b' (d + 50) (d + 82) = Some dg -> get b' (d + 82) (d + 146) = Some sg -> record_at b' d (sealed r dg sg).
Proof.
  unfold DESCRIPTOR_LEN. intros [R1 R2 R3 R4 R5 R6 _ _ R9 R10 R11] Hd Hl Ho Hdg Hsg. assert (same b b' d (d + 50)) as Hs by (eapply outside_same; [exact Ho | lia | lia]).
  pose proof (proj1 Ho) as El. split; cbn [sealed kind digest_algorithm signature_algorithm flags key_id digest signature digest_file_offset signature_file_offset]; try done.
  - apply (get_same b); [done | eapply same_sub; [exact Hs | lia | lia] | lia].
  - apply (read_u16_same b); [done | eapply same_sub; [exact Hs | lia | lia] | lia].
  - apply (byte_at_same b); [done | lia | eapply same_sub; [exact Hs | lia | lia]].
  - apply (byte_at_same b); [done | lia | eapply same_sub; [exact Hs | lia | lia]].
  - apply (read_u32_same b); [done | eapply same_sub; [exact Hs | lia | lia] | lia].
  - apply (get_same b); [done | eapply same_sub; [exact Hs | lia | lia] | lia].
  - apply (byte_at_same b); [done | lia | eapply same_sub; [exact Hs | lia | lia]].
  - apply (byte_at_same b); [done | lia | eapply same_sub; [exact Hs | lia | lia]].
Qed.

(** The headers do not depend on the descriptor. *)
Lemma parse_outside try_reserve limits b b' elf d i s lo hi : Forall is_u8 b -> parse_elf_with_limits try_reserve b limits = Ok elf -> signature_at b elf d i s ->
  outside b b' lo hi -> d <= lo -> hi <= d + DESCRIPTOR_LEN -> parse_elf_with_limits try_reserve b' limits = Ok (with_bytes elf b').
Proof.
  intros Hb Hp Hat Ho Hlo Hhi. destruct (si_file _ _ _ _ _ Hat) as [F1 F2]. destruct (si_headers _ _ _ _ _ Hat) as [T1 T2].
  assert (forall x y, 0 <= x -> overlaps (d, d + DESCRIPTOR_LEN) (x, y) = false -> same b b' x y) as Hs.
  { intros x y Hx Hov%overlaps_false. cbn in Hov. eapply outside_same; [exact Ho | done | lia]. }
  destruct (parse_elf_Ok _ _ _ _ Hb Hp) as (_ & PP & _). destruct (parse_elf_headers _ _ _ _ Hb Hp) as (shoff & shnum & Et & A).
  apply (parse_elf_same try_reserve b); [done | apply Ho | done | eapply outside_same; [exact Ho | lia | lia] | | |].
  - intros x y E. destruct (parse_program_headers_same try_reserve b b limits _ _ _ Hb ltac:(lia) PP) as (_ & _ & Hpt); [done.. |].
    destruct (Hpt x y E). rewrite E in T1. by apply Hs.
  - intros x y E. rewrite E in T2. rewrite Et in E. injection E as <- <-. pose proof (sa_table _ _ _ _ _ _ A). apply Hs; [lia | done].
  - intros t Ht. destruct (sa_strings _ _ _ _ _ _ A) as (u & Eu & Tu & Gu & _). rewrite Ht in Eu. injection Eu as <-. apply get_Some in Gu as (? & _).
    destruct (decide (sh_size t = 0)) as [|Hne]; [eapply outside_same; [exact Ho | lia | lia] |]. apply Hs; [lia |]. eapply (si_others _ _ _ _ _ Hat); [|done | by rewrite Tu | done].
    intros E. rewrite E in Ht. rewrite (si_section _ _ _ _ _ Hat) in Ht. injection Ht as <-. pose proof (si_type _ _ _ _ _ Hat) as T. by rewrite Tu in T.
Qed.

Section Seal.
Context (try_reserve : Z -> bool) (sha256 : list Z -> list Z) {VerifyingKey SigningKey : Type}.
Context (key_bytes : VerifyingKey -> list Z) (verify_strict : VerifyingKey -> list Z -> list Z -> bool).
Context (verifying_key : SigningKey -> VerifyingKey) (sign : SigningKey -> list Z -> list Z).
Context (Hsha : forall x, len (sha256 x) = 32 /\ Forall is_u8 (sha256 x)).

Lemma seal_verifies u out b' k id m elf d i s r dg sg resolver sig : embedded try_reserve u out k id m elf d i s r -> Forall is_u8 b' ->
  outside out b' (d + 50) (d + 146) -> get b' (d + 50) (d + 82) = Some dg -> get b' (d + 82) (d + 146) = Some sg ->
  genuine sha256 key_bytes verify_strict resolver out d (sealed r dg sg) sig ->
  verify_image try_reserve sha256 key_bytes verify_strict b' resolver default_limits =
    Ok {| vi_bytes := b'; vi_signature := sig; source_digest := sha256 b'; vi_manifest := m |}.
Proof using.
  intros [H8 Hp Hm Hf Hat Hr _ Hn _] H8' Ho Hdg Hsg Hg. destruct (si_file _ _ _ _ _ Hat) as [F1 F2]. unfold DESCRIPTOR_LEN in *.
  pose proof (parse_outside _ _ _ _ _ _ _ _ _ _ H8 Hp Hat Ho ltac:(lia) ltac:(unfold DESCRIPTOR_LEN; lia)) as Hp'.
  pose proof (record_sealed _ _ _ _ _ _ Hr ltac:(lia) ltac:(unfold DESCRIPTOR_LEN; lia) Ho Hdg Hsg) as Hr'.
  pose proof (parse_elf_image _ _ _ _ H8 Hp) as Him. pose proof (parse_elf_image _ _ _ _ H8' Hp') as Him'.
  assert (locate_record_in try_reserve (with_bytes elf b') = Ok (Some (sealed r dg sg))) as Hl.
  { destruct (locate_record_in_Ok _ _ _ _ Him Hf) as (d0 & i0 & s0 & Hat0 & Hr0 & _ & Htr). destruct (si_file _ _ _ _ _ Hat0) as [G1 G2].
    apply parse_record_Ok in Hr0 as [_ Hr0]; [|lia | apply Him]. assert (d0 = d) as -> by (destruct (ra_offsets _ _ _ Hr), (ra_offsets _ _ _ Hr0); lia).
    apply (Htr b' (d + 50)); [done | unfold DESCRIPTOR_LEN; lia | | apply parse_record_Ok; [lia | apply Him' | split; [rewrite (proj1 Ho); done | done]]].
    eapply Forall_impl; [exact Hn |]. unfold clear_of, DESCRIPTOR_LEN. intros a Ha. lia. }
  apply verify_image_Ok; [done |]. exists (with_bytes elf b'). split_and!; try done.
  - by eapply locate_outside; [exact H8 | exact H8' | exact Hp | exact Hp' | exact Hat | exact Ho | lia | unfold DESCRIPTOR_LEN; lia |].
  - apply (verify_parsed_Ok _ _ _ _ b'); [done |]. destruct (locate_record_in_Ok _ _ _ _ Him' Hl) as (d0 & i0 & s0 & Hat0 & Hr0 & _).
    destruct (si_file _ _ _ _ _ Hat0) as [G1 G2]. apply parse_record_Ok in Hr0 as [_ Hr0]; [|lia | apply Him'].
    assert (d0 = d) as -> by (destruct (ra_offsets _ _ _ Hr'), (ra_offsets _ _ _ Hr0); lia). exists d, i0, s0, (sealed r dg sg). split_and!; [done | done | done |].
    destruct Hg as (V & E & Rest). split_and!; [done | | apply Rest..]. rewrite E. by rewrite (blank_outside out b') by (done || unfold DESCRIPTOR_LEN; lia).
Qed.

(** What both signing functions do first. *)
Lemma locate_embedded u out k id m elf d i s r : embedded try_reserve u out k id m elf d i s r ->
  locate_record try_reserve out = Ok (Some r) /\ normalized_digest sha256 out r = Ok (sha256 (blank out d)) /\
  digest_file_offset r = d + 50 /\ signature_file_offset r = d + 82 /\ 0 <= d.
Proof using.
  intros [H8 Hp _ Hf Hat Hr _ _ _]. destruct (si_file _ _ _ _ _ Hat) as [F1 F2]. pose proof (parse_elf_image _ _ _ _ H8 Hp) as Him.
  unfold locate_record, normalized_digest. rewrite Hp, (normalized_blank out d r) by (done || lia || apply Him). destruct (ra_offsets _ _ _ Hr). split_and!; done || lia.
Qed.

Lemma copy_field b x y src b' : 0 <= x -> copy_into (E := Error) b (Z.to_nat x) (Z.to_nat (x + y)) src = Ok b' -> 0 <= y ->
  outside b b' x (x + y) /\ get b' x (x + y) = Some src.
Proof using. intros Hx H Hy. apply copy_into_Ok in H as (_ & H1 & H2). rewrite !Z2Nat.id in H1, H2 by lia. done. Qed.

Lemma sign_adhoc_Ok u out elf resolver : Forall is_u8 u -> parse_elf try_reserve u = Ok elf ->
  (forall x y, program_header_table elf = Some (x, y) -> 64 <= x) -> sign_adhoc try_reserve sha256 u = Ok out ->
  exists m dg, locate elf = Ok m /\ verify_image try_reserve sha256 key_bytes verify_strict out resolver default_limits =
    Ok {| vi_bytes := out; vi_signature := {| vs_kind := AdHoc; vs_key_id := None; vs_digest := dg |}; source_digest := sha256 out; vi_manifest := m |} /\ kept u out.
Proof using Hsha.
  intros Hu Hp H64 H. unfold sign_adhoc in H. destruct (embed_empty_record _ _ _ _) as [o| |] eqn:E; [|done|done].
  destruct (embed_empty_record_Ok _ _ _ _ _ _ Hu (zeros_u8 32) eq_refl Hp H64 E) as (m & elf' & d & i & s & r & Hm & Hem).
  destruct (locate_embedded _ _ _ _ _ _ _ _ _ _ Hem) as (L1 & L2 & L3 & L4 & L5). rewrite L1 in H. cbn [context ok_or] in H. rewrite L2 in H. rewrite L3 in H.
  apply copy_field in H as (Ho & Hg); [|lia..]. replace (d + 50 + 32) with (d + 82) in * by lia.
  exists m, (sha256 (blank o d)). split; [done |]. destruct (em_fields _ _ _ _ _ _ _ _ _ _ _ Hem) as (K1 & K2 & K3 & K4 & K5 & K6).
  assert (outside o out (d + 50) (d + 146)) as Ho' by (destruct Ho as [Ho1 Ho2]; split; [done |]; intros j Hj Hn; apply Ho2; lia).
  destruct (si_file _ _ _ _ _ (em_at _ _ _ _ _ _ _ _ _ _ _ Hem)) as [F1 F2]. unfold DESCRIPTOR_LEN in F2.
  destruct (em_kept _ _ _ _ _ _ _ _ _ _ _ Hem) as [Hlu Hk]. split; [|eapply kept_outside; [exact Hk | exact Ho' | lia]].
  apply (seal_verifies u o out AdHoc (zeros 32) m elf' d i s r (sha256 (blank o d)) (zeros 64)); try done.
  - eapply outside_u8; [apply Hem | exact Ho | exact Hg | apply Hsha].
  - rewrite <- K6. apply (get_same o); [apply Hem | eapply outside_same; [exact Ho | lia | lia] | rewrite (proj1 Ho); lia].
  - unfold genuine. cbn [sealed digest kind vs_kind vs_digest vs_key_id]. rewrite K1. split_and!; try done. apply validate_record_Ok.
    cbn [sealed kind digest_algorithm signature_algorithm flags key_id signature]. rewrite K1, K2, K3, K4, K5. done.
Qed.

Lemma sign_ed25519_Ok u key out elf resolve : Forall is_u8 u -> parse_elf try_reserve u = Ok elf ->
  (forall x y, program_header_table elf = Some (x, y) -> 64 <= x) ->
  (forall message, Forall is_u8 (sign key message) /\ verify_strict (verifying_key key) message (sign key message) = true) ->
  resolve (sha256 (key_bytes (verifying_key key))) = Ok (Some (verifying_key key)) ->
  sign_ed25519 try_reserve sha256 key_bytes verifying_key sign u key = Ok out ->
  exists m dg, locate elf = Ok m /\ verify_image try_reserve sha256 key_bytes verify_strict out (Some resolve) default_limits =
    Ok {| vi_bytes := out; vi_signature := {| vs_kind := Ed25519; vs_key_id := Some (sha256 (key_bytes (verifying_key key))); vs_digest := dg |};
          source_digest := sha256 out; vi_manifest := m |} /\ kept u out.
Proof using Hsha.
  intros Hu Hp H64 Hsign Hres H. unfold sign_ed25519 in H. cbv zeta in H. set (id := sha256 (key_bytes (verifying_key key))) in *. destruct (Hsha (key_bytes (verifying_key key))) as [Hid Hid8]. fold id in Hid, Hid8.
  destruct (embed_empty_record _ _ _ _) as [o| |] eqn:E; [|done|done].
  destruct (embed_empty_record_Ok _ _ _ _ _ _ Hu Hid8 Hid Hp H64 E) as (m & elf' & d & i & s & r & Hm & Hem).
  destruct (locate_embedded _ _ _ _ _ _ _ _ _ _ Hem) as (L1 & L2 & L3 & L4 & L5). rewrite L1 in H. cbn [context ok_or] in H. rewrite L2, L3, L4 in H.
  rewrite signing_message_Ok in H by (done || apply Hsha). change (to_le 4 FLAGS) with (zeros 4) in H. set (dg := sha256 (blank o d)) in *. set (msg := SIGNING_CONTEXT ++ _) in H.
  destruct (copy_into o _ _ _) as [o1| |] eqn:E1; [|done|done]. apply copy_field in E1 as (Ho1 & Hg1); [|lia..]. apply copy_field in H as (Ho2 & Hg2); [|lia..].
  replace (d + 50 + 32) with (d + 82) in * by lia. replace (d + 82 + 64) with (d + 146) in * by lia.
  exists m, dg. split; [done |]. destruct (em_fields _ _ _ _ _ _ _ _ _ _ _ Hem) as (K1 & K2 & K3 & K4 & K5 & K6). destruct (Hsign msg) as [Hs8 Hsv].
  pose proof (outside_join _ _ _ _ _ _ Ho1 Ho2 ltac:(lia)) as Ho. destruct (si_file _ _ _ _ _ (em_at _ _ _ _ _ _ _ _ _ _ _ Hem)) as [F1 F2]. unfold DESCRIPTOR_LEN in F2.
  destruct (em_kept _ _ _ _ _ _ _ _ _ _ _ Hem) as [Hlu Hk]. split; [|eapply kept_outside; [exact Hk | exact Ho | lia]].
  apply (seal_verifies u o out Ed25519 id m elf' d i s r dg (sign key msg)); try done.
  - eapply outside_u8; [eapply outside_u8; [apply Hem | exact Ho1 | exact Hg1 | apply Hsha] | exact Ho2 | exact Hg2 | exact Hs8].
  - apply (get_same o1); [done | eapply outside_same; [exact Ho2 | lia | lia] | rewrite (proj1 Ho2), (proj1 Ho1); lia].
  - unfold genuine. cbn [sealed digest kind vs_kind vs_digest vs_key_id key_id signature]. rewrite K1, K5. split_and!; try done.
    + apply validate_record_Ok. cbn [sealed kind digest_algorithm signature_algorithm flags key_id signature]. rewrite K1, K2, K3, K4. done.
    + exists resolve, (verifying_key key). split_and!; try done. unfold signed_bytes. cbn [sealed key_id digest]. rewrite K5. exact Hsv.
Qed.
End Seal.

(** ** Embedding a manifest *)

Lemma manifest_data_body declaration : let data := MAGIC ++ to_le 2 1 ++ to_le 2 1 ++ to_le 4 0 ++ declaration in
  get data HEADER_LEN (len data) = Some declaration.
Proof.
  cbv zeta. rewrite !app_assoc. rewrite <- (app_nil_r declaration) at 1. apply get_middle; [done |].
  unfold len. rewrite length_app. cbn. lia.
Qed.

Lemma embed_manifest_Ok try_reserve u declaration out : Forall is_u8 u -> Forall is_u8 declaration -> embed_manifest try_reserve u declaration = Ok out ->
  (exists elf, parse_elf try_reserve out = Ok elf /\ locate elf = Ok (Some declaration)) /\ kept u out.
Proof.
  intros Hu Hd8 H. unfold embed_manifest in H. destruct (manifest_text declaration); [|done|done]. destruct (parse_elf _ u) as [elf| |] eqn:Hp; [|done|done].
  destruct (locate_record_in _ elf) as [loc| |]; [|done|done]. destruct (bool_decide (is_Some loc)); [done |].
  destruct (locate elf) as [present| |] eqn:El; [|done|done]. destruct (bool_decide (is_Some present)) eqn:Cp; [done |]. bool_cases.
  destruct present; [by destruct Cp |]. destruct (reserve _ _ _); [|done|done]. cbv zeta in H.
  destruct (append_section _ _ _ _ _) as [o| |] eqn:Ea; [|done|done]. destruct (parse_elf _ o) as [elf'| |] eqn:Hp'; [|done|done].
  destruct (locate elf') as [[m|]| |] eqn:El'; [|done|done|done]. cbn [context ok_or] in H. injection H as ->.
  pose proof (parse_elf_image _ _ _ _ Hu Hp) as Him. destruct (image_tables _ _ _ _ Hu Hp) as (L64 & S8 & Hnm).
  apply (append_section_Ok _ u) in Ea as (doff & toff & Hap); try done; [| by apply (bool_decide_eq_true_1 (Forall is_u8 MANIFEST_SECTION)) |].
  2: { rewrite !Forall_app. split_and!; try apply to_le_bytes; [|done]. by apply (bool_decide_eq_true_1 (Forall is_u8 MAGIC)). }
  split; [|exact (ap_same _ _ _ _ _ _ _ _ Hap)]. exists elf'. split; [done |]. rewrite El'. do 2 f_equal.
  assert (no_char 0 MANIFEST_SECTION) as Hnc by (apply (bool_decide_eq_true_1 (Forall (fun c => c <> 0) MANIFEST_SECTION)); reflexivity).
  pose proof (reparse_new_manifest _ _ _ _ _ _ _ _ _ _ _ Hu Hp Hap Hp' Hnc m eq_refl El El') as Hg.
  pose proof (manifest_data_body declaration) as Hb. cbv zeta in Hb. rewrite Hb in Hg. by injection Hg.
Qed.
