(* ===== verification/ElfContract.v ===== *)
(** * The contract of the ELF signature library

    What a caller may rely on: the verifier returns on every byte string, what it accepts is genuine, two accepted images
    with one digest are one image, and what the signing functions return is accepted. *)

From Stdlib Require Import String.
From S2P Require Import Prelude Text Fields ElfSignature ElfParse ElfLocate ElfVerify ElfManifest ElfTamper ElfSign ElfSigned.

Module ElfSignatures.

(** The program header table does not lie in the ELF header. *)
Definition table_apart (elf : Elf) : Prop := forall x y, program_header_table elf = Some (x, y) -> 64 <= x.

(** The hash has 32 bytes; a resolver answers; the image declares a manifest. *)
Definition hash32 (sha256 : list Z -> list Z) : Prop := forall x, len (sha256 x) = 32 /\ Forall is_u8 (sha256 x).
Definition answers {VerifyingKey} (resolver : option (@Resolver VerifyingKey)) : Prop := forall resolve id, resolver = Some resolve -> resolve id <> Panic.
Definition declares (try_reserve : Z -> bool) (b declaration : list Z) : Prop :=
  exists elf, parse_elf try_reserve b = Ok elf /\ locate elf = Ok (Some declaration).

(** The signature note at [d] is the only one of the image. *)
Definition only_note (b : list Z) (elf : Elf) (d : Z) : Prop :=
  forall a o, a ∈ note_areas elf -> (forall f found, parse_note_area b a f = Ok found -> o ∈ found) -> descriptor_offset o = d.

(** The results agree, and so do the files outside of the signature at [d]. *)
Definition one_image (b b' : list Z) (img img' : VerifiedImage) (d : Z) : Prop :=
  outside b b' (d + 82) (d + 146) /\ vs_kind (vi_signature img') = vs_kind (vi_signature img) /\
  vs_key_id (vi_signature img') = vs_key_id (vi_signature img) /\ vi_manifest img' = vi_manifest img /\
  (vs_kind (vi_signature img) = AdHoc -> b' = b).

Section Contract.
Context (try_reserve : Z -> bool) (sha256 : list Z -> list Z) {VerifyingKey SigningKey : Type}.
Context (key_bytes : VerifyingKey -> list Z) (verify_strict : VerifyingKey -> list Z -> list Z -> bool).
Context (verifying_key : SigningKey -> VerifyingKey) (sign : SigningKey -> list Z -> list Z).
Local Abbreviation verify_image := (verify_image try_reserve sha256 key_bytes verify_strict).

(** C25: no byte string, however it is cut or forged, and no refused allocation makes [verify_image] panic: every offset
    it reads is in the file and no sum of offsets overflows. *)
Theorem verify_image_no_panic b resolver limits : Forall is_u8 b -> 0 <= max_name_scan_bytes limits ->
  answers resolver -> verify_image b resolver limits <> Panic.
Proof using.
  intros Hb Hlim Hres. unfold ElfSignature.verify_image. pose proof (parse_elf_no_panic try_reserve b limits Hb Hlim).
  destruct (parse_elf_with_limits _ _ _) as [elf| |] eqn:Hp; [|done|done]. pose proof (parse_elf_image _ _ _ _ Hb Hp) as Him.
  pose proof (locate_no_panic b elf Him). destruct (locate elf); [|done|done].
  pose proof (verify_parsed_no_panic try_reserve sha256 key_bytes verify_strict b elf resolver Him Hres). by destruct (verify_parsed _ _ _ _ _ _).
Qed.

(** C10: [verify_image] accepts an image only when the one signature note of the file lies in the reserved section, apart
    from the headers, the tables, the loaded segments and the other sections; its digest is the hash of the file with the
    digest and signature fields blanked; an Ed25519 record has the identifier of the key that the resolver returned and a
    valid signature of the record; the manifest is the one the file embeds. *)
Theorem verified_image_genuine b resolver limits img : Forall is_u8 b -> verify_image b resolver limits = Ok img ->
  exists elf d i s r, parse_elf_with_limits try_reserve b limits = Ok elf /\ locates b elf (vi_manifest img) /\ signature_at b elf d i s /\
    only_note b elf d /\ record_at b d r /\ genuine sha256 key_bytes verify_strict resolver b d r (vi_signature img) /\ vi_bytes img = b /\ source_digest img = sha256 b.
Proof using.
  intros Hb H. apply verify_image_Ok in H as (elf & Hp & Hm & Hv & E1 & E2); [|done]. pose proof (parse_elf_image _ _ _ _ Hb Hp) as Him.
  destruct (accepted_signed_at _ _ _ _ _ _ _ _ _ Hb Hp Hv) as (d & i & s & r & [_ _ Hat Honly] & Hr & Hg). exists elf, d, i, s, r. split_and!; try done.
  by apply locate_Ok.
Qed.

(** C9: two accepted images with the same digest are the same file, but for the 64 bytes of an Ed25519 signature, and
    have the same kind, key and manifest; otherwise they are a collision of the hash. *)
Theorem accepted_images_agree b b' resolver resolver' limits img img' : Forall is_u8 b -> Forall is_u8 b' ->
  verify_image b resolver limits = Ok img -> verify_image b' resolver' limits = Ok img' ->
  vs_digest (vi_signature img') = vs_digest (vi_signature img) ->
  exists d d', (blank b d <> blank b' d' /\ sha256 (blank b d) = sha256 (blank b' d')) \/
    d' = d /\ one_image b b' img img' d.
Proof using. apply accepted_twice. Qed.

(** C2: an image that [sign_ed25519] returns is accepted by whoever resolves the key, under the key's identifier and with
    the manifest of the unsigned image; and signing changed no byte of the program but the place and size of the section
    table.  The program header table must not lie in the ELF header, whose fields signing rewrites. *)
Theorem sign_ed25519_verifies u key out elf resolve : hash32 sha256 -> Forall is_u8 u ->
  parse_elf try_reserve u = Ok elf -> table_apart elf ->
  (forall message, Forall is_u8 (sign key message) /\ verify_strict (verifying_key key) message (sign key message) = true) ->
  resolve (sha256 (key_bytes (verifying_key key))) = Ok (Some (verifying_key key)) ->
  sign_ed25519 try_reserve sha256 key_bytes verifying_key sign u key = Ok out ->
  exists m dg, locate elf = Ok m /\ verify_image out (Some resolve) default_limits =
    Ok {| vi_bytes := out; vi_signature := {| vs_kind := Ed25519; vs_key_id := Some (sha256 (key_bytes (verifying_key key))); vs_digest := dg |};
          source_digest := sha256 out; vi_manifest := m |} /\ kept u out.
Proof using. intros Hsha. by apply sign_ed25519_Ok. Qed.

(** an image that [sign_adhoc] returns is accepted without a key, with the manifest of the unsigned image. *)
Theorem sign_adhoc_verifies u out elf resolver : hash32 sha256 -> Forall is_u8 u ->
  parse_elf try_reserve u = Ok elf -> table_apart elf ->
  sign_adhoc try_reserve sha256 u = Ok out ->
  exists m dg, locate elf = Ok m /\ verify_image out resolver default_limits =
    Ok {| vi_bytes := out; vi_signature := {| vs_kind := AdHoc; vs_key_id := None; vs_digest := dg |}; source_digest := sha256 out; vi_manifest := m |} /\
    kept u out.
Proof using. intros Hsha. by apply sign_adhoc_Ok. Qed.

End Contract.

(** the manifest that [embed_manifest] puts into an image is the one that [locate] finds there, and the bytes of the
    program stay. *)
Theorem embed_manifest_locates try_reserve u declaration out : Forall is_u8 u -> Forall is_u8 declaration ->
  embed_manifest try_reserve u declaration = Ok out ->
  declares try_reserve out declaration /\ kept u out.
Proof. apply embed_manifest_Ok. Qed.

(** ** A small image *)

Definition sample_strings : list Z := [0] ++ text ".shstrtab" ++ [0].
Definition sample_elf : list Z :=
  ELF_MAGIC ++ [2; 1; 1] ++ zeros 9 ++ to_le 2 3 ++ to_le 2 62 ++ to_le 4 1 ++ to_le 8 0 ++ to_le 8 64 ++ to_le 8 136 ++ to_le 4 0 ++ to_le 2 64 ++
    to_le 2 56 ++ to_le 2 1 ++ to_le 2 64 ++ to_le 2 2 ++ to_le 2 1 ++
  (to_le 4 1 ++ to_le 4 5 ++ to_le 8 0 ++ to_le 8 0 ++ to_le 8 0 ++ to_le 8 64 ++ to_le 8 64 ++ to_le 8 1) ++
  sample_strings ++ zeros 5 ++
  zeros 64 ++ (to_le 4 1 ++ to_le 4 3 ++ zeros 16 ++ to_le 8 120 ++ to_le 8 11 ++ zeros 8 ++ to_le 8 1 ++ zeros 8).
Definition sample_parsed : Elf := Eval vm_compute in match parse_elf (fun _ => true) sample_elf with Ok e => e | _ => {| elf_bytes := []; sections := []; shstr_index := 0; shstr := []; program_notes := []; load_segments := []; program_header_table := None; section_header_table := None; note_scan_limit := 0 |} end.

(** A toy hash and a toy signature scheme. *)
Definition toy_hash (l : list Z) : list Z := to_le 32 (fold_left (fun a b => (a * 257 + b) mod 340282366920938463463374607431768211507) l 1).
Definition toy_key (_ : unit) : list Z := text "public key of the tests".
Definition toy_sign (_ : unit) (m : list Z) : list Z := toy_hash m ++ toy_hash m.
Definition toy_verify (_ : unit) (m s : list Z) : bool := bool_decide (s = toy_sign tt m).
Definition toy_resolve (_ : list Z) : result Error (option unit) := Ok (Some tt).

Definition sample_signed : list Z := Eval vm_compute in
  match sign_ed25519 (fun _ => true) toy_hash toy_key (fun _ => tt) toy_sign sample_elf tt with Ok b => b | _ => [] end.
Definition sample_adhoc : list Z := Eval vm_compute in match sign_adhoc (fun _ => true) toy_hash sample_elf with Ok b => b | _ => [] end.
Definition sample_declared : list Z := Eval vm_compute in match embed_manifest (fun _ => true) sample_elf (text "name = demo") with Ok b => b | _ => [] end.

Lemma toy_hash_ok x : len (toy_hash x) = 32 /\ Forall is_u8 (toy_hash x).
Proof. unfold toy_hash, len. rewrite to_le_length. split; [done | apply to_le_bytes]. Qed.

Lemma all_u8 l : forallb (fun z => (0 <=? z) && (z <? 256)) l = true -> Forall is_u8 l.
Proof.
  intros H. apply Forall_forall. intros x Hx. rewrite forallb_forall in H. specialize (H x ltac:(by apply list_elem_of_In)).
  apply andb_true_iff in H as [H1%Z.leb_le H2%Z.ltb_lt]. done.
Qed.

Lemma sample_table : table_apart sample_parsed.
Proof. intros x y. vm_compute. intros [= <- <-]. done. Qed.

(** Why the program header table must not lie in the ELF header: here it starts at byte 62, on the index of the string
    table, which reads as the type of its only entry.  Signing rewrites the index, and the loaded segment is gone. *)
Definition overlapping_elf : list Z :=
  ELF_MAGIC ++ [2; 1; 1] ++ zeros 9 ++ to_le 2 3 ++ to_le 2 62 ++ to_le 4 1 ++ to_le 8 0 ++ to_le 8 62 ++ to_le 8 136 ++ to_le 4 0 ++ to_le 2 64 ++
    to_le 2 56 ++ to_le 2 1 ++ to_le 2 64 ++ to_le 2 2 ++ to_le 2 1 ++
  (zeros 2 ++ to_le 4 5 ++ to_le 8 0 ++ to_le 8 0 ++ to_le 8 0 ++ to_le 8 64 ++ to_le 8 64 ++ to_le 8 1) ++ zeros 2 ++
  sample_strings ++ zeros 5 ++
  zeros 64 ++ (to_le 4 1 ++ to_le 4 3 ++ zeros 16 ++ to_le 8 120 ++ to_le 8 11 ++ zeros 8 ++ to_le 8 1 ++ zeros 8).
Definition segments (b : list Z) : option (list (Z * Z)) := match parse_elf (fun _ => true) b with Ok e => Some (load_segments e) | _ => None end.


(** The accepted images of the witnesses. *)
Local Abbreviation run b resolver := (verify_image (fun _ => true) toy_hash toy_key toy_verify b resolver default_limits).
Definition accepted (b : list Z) (resolver : option Resolver) : VerifiedImage :=
  match run b resolver with Ok img => img | _ => {| vi_bytes := []; vi_signature := {| vs_kind := AdHoc; vs_key_id := None; vs_digest := [] |}; source_digest := []; vi_manifest := None |} end.

Lemma verify_image_no_panic_witness : run (take 200 sample_signed) (Some toy_resolve) <> Panic.
Proof. apply verify_image_no_panic; [apply all_u8; vm_compute; reflexivity | vm_compute; discriminate | intros resolve id [= <-]; discriminate]. Defined.

Lemma verified_image_genuine_witness : exists elf d i s r, parse_elf_with_limits (fun _ => true) sample_signed default_limits = Ok elf /\
  signature_at sample_signed elf d i s /\ record_at sample_signed d r /\
  genuine toy_hash toy_key toy_verify (Some toy_resolve) sample_signed d r (vi_signature (accepted sample_signed (Some toy_resolve))).
Proof.
  destruct (verified_image_genuine (fun _ => true) toy_hash toy_key toy_verify sample_signed (Some toy_resolve) default_limits (accepted sample_signed (Some toy_resolve)))
    as (elf & d & i & s & r & H1 & _ & H2 & _ & H3 & H4 & _); [apply all_u8; vm_compute; reflexivity | vm_compute; reflexivity |].
  exists elf, d, i, s, r. split; [exact H1 |]. split; [exact H2 |]. split; [exact H3 | exact H4].
Defined.

(** Another signature of the same image, which a lax scheme also accepts. *)
Definition sample_resigned : list Z := <[384%nat := 7]> sample_signed.
Definition lax (b : list Z) : VerifiedImage :=
  match verify_image (fun _ => true) toy_hash toy_key (fun _ _ _ => true) b (Some toy_resolve) default_limits with Ok img => img | _ => accepted [] None end.

Lemma accepted_images_agree_witness : sample_resigned <> sample_signed /\ exists d d',
  (blank sample_signed d <> blank sample_resigned d' /\ toy_hash (blank sample_signed d) = toy_hash (blank sample_resigned d')) \/
  d' = d /\ outside sample_signed sample_resigned (d + 82) (d + 146).
Proof.
  split; [vm_compute; discriminate |].
  destruct (accepted_images_agree (fun _ => true) toy_hash toy_key (fun _ _ _ => true) sample_signed sample_resigned (Some toy_resolve) (Some toy_resolve) default_limits
    (lax sample_signed) (lax sample_resigned)) as (d & d' & [H|(H1 & (H2 & _))]);
    [apply all_u8; vm_compute; reflexivity | apply all_u8; vm_compute; reflexivity | vm_compute; reflexivity | vm_compute; reflexivity | vm_compute; reflexivity | |];
    exists d, d'; [left; exact H | right; split; [exact H1 | exact H2]].
Defined.

Lemma sign_ed25519_verifies_witness : exists m dg, locate sample_parsed = Ok m /\ run sample_signed (Some toy_resolve) =
  Ok {| vi_bytes := sample_signed; vi_signature := {| vs_kind := Ed25519; vs_key_id := Some (toy_hash (toy_key tt)); vs_digest := dg |};
        source_digest := toy_hash sample_signed; vi_manifest := m |} /\ kept sample_elf sample_signed.
Proof.
  apply (sign_ed25519_verifies (fun _ => true) toy_hash toy_key toy_verify (fun _ => tt) toy_sign sample_elf tt sample_signed sample_parsed toy_resolve).
  - exact toy_hash_ok.
  - apply all_u8. vm_compute. reflexivity.
  - vm_compute. reflexivity.
  - exact sample_table.
  - intros message. split; [apply Forall_app; split; apply toy_hash_ok |]. unfold toy_verify. by rewrite bool_decide_eq_true_2.
  - reflexivity.
  - vm_compute. reflexivity.
Defined.

Lemma sign_adhoc_verifies_witness : exists m dg, locate sample_parsed = Ok m /\ run sample_adhoc None =
  Ok {| vi_bytes := sample_adhoc; vi_signature := {| vs_kind := AdHoc; vs_key_id := None; vs_digest := dg |}; source_digest := toy_hash sample_adhoc; vi_manifest := m |} /\
  kept sample_elf sample_adhoc.
Proof.
  apply (sign_adhoc_verifies (fun _ => true) toy_hash toy_key toy_verify sample_elf sample_adhoc sample_parsed None).
  - exact toy_hash_ok.
  - apply all_u8. vm_compute. reflexivity.
  - vm_compute. reflexivity.
  - exact sample_table.
  - vm_compute. reflexivity.
Defined.

Lemma embed_manifest_locates_witness : declares (fun _ => true) sample_declared (text "name = demo") /\
  kept sample_elf sample_declared.
Proof.
  apply (embed_manifest_locates (fun _ => true) sample_elf (text "name = demo") sample_declared);
    [apply all_u8; vm_compute; reflexivity | apply all_u8; vm_compute; reflexivity | vm_compute; reflexivity].
Defined.

End ElfSignatures.
