(* ===== verification/CertDatabase.v ===== *)
(** * The state record of the certificate database ([certificate-database/src/lib.rs])

    A record of 392 bytes: which of two slots holds the current trust and revocation snapshots, what is known of them, and a
    checksum.  SHA-256 is third-party code: an argument. *)

From S2P Require Import Prelude Text Fields.

(** ** The code *)

Definition MAGIC : Z := 1229672515. (* 0x494b5043 *)
Definition FORMAT_VERSION : Z := 1.
Definition MAX_ETAG_BYTES : nat := 128.
Definition CHECKSUM_LEN : nat := 32.
Definition STATE_LEN : nat := 392.
Definition CHECKSUM_OFFSET : nat := STATE_LEN - CHECKSUM_LEN.
Definition TRUST_ETAG_OFFSET : nat := 104.
Definition REVOCATION_ETAG_OFFSET : nat := TRUST_ETAG_OFFSET + MAX_ETAG_BYTES.

Inductive Slot : Type := SlotA | SlotB.
#[export] Instance Slot_eq_dec : EqDecision Slot.
Proof. solve_decision. Defined.

Inductive EtagError : Type := TooLong | Invalid.
Inductive EncodeError : Type := BufferTooSmall (required actual : Z) | EncodeInvalidEtag.
Inductive DecodeError : Type :=
  | InvalidLength (expected actual : Z)
  | InvalidMagic (magic : Z)
  | UnsupportedVersion (version : Z)
  | InvalidEncodedLength (length : Z)
  | InvalidSlot (value : Z)
  | NonZeroReserved
  | InvalidEtagLength (length : Z)
  | DecodeInvalidEtag
  | ChecksumMismatch.

Definition inactive (self : Slot) : Slot := match self with SlotA => SlotB | SlotB => SlotA end.
Definition slot_as_u8 (self : Slot) : Z := match self with SlotA => 0 | SlotB => 1 end.
Definition Slot_decode (value : Z) : result DecodeError Slot :=
  if value =? 0 then Ok SlotA else if value =? 1 then Ok SlotB else Err (InvalidSlot value).

Record Etag : Type := { et_bytes : list Z; et_len : Z }.
#[export] Instance Etag_eq_dec : EqDecision Etag.
Proof. solve_decision. Defined.
Definition Etag_none : Etag := {| et_bytes := zeros MAX_ETAG_BYTES; et_len := 0 |}.
Definition Etag_is_none (self : Etag) : bool := et_len self =? 0.

Definition WEAK_QUOTE : list Z := [87; 47; 34]. (* W, slash, quotation mark *)
Definition QUOTE : list Z := [34].

Definition etag_byte (b : Z) : bool := (b =? 33) || ((35 <=? b) && (b <=? 126)).
Definition valid_etag {E} (b : list Z) : result E bool :=
  if starts_with WEAK_QUOTE b && ends_with QUOTE b then let? opaque := slice b 3 (length b - 1) in Ok (forallb etag_byte opaque) else
  if starts_with QUOTE b && ends_with QUOTE b then let? opaque := slice b 1 (length b - 1) in Ok (forallb etag_byte opaque) else
  Ok false.

Definition Etag_parse (value : list Z) : result EtagError Etag :=
  if (MAX_ETAG_BYTES <? length value)%nat then Err TooLong else
  let? refused := (if bool_decide (value = []) then Ok false else let? v := valid_etag value in Ok (negb v)) in
  if refused : bool then Err Invalid else
  let? b := copy_into (et_bytes Etag_none) 0 (length value) value in
  Ok {| et_bytes := b; et_len := Z.of_nat (length value) |}.

Definition Etag_as_str {E} (self : Etag) : result E (list Z) :=
  let? s := slice (et_bytes self) 0 (Z.to_nat (et_len self)) in Ok (if from_utf8 s then s else []).

Definition valid_stored_etag {E} (etag : Etag) : result E bool :=
  let n := Z.to_nat (et_len etag) in
  if (MAX_ETAG_BYTES <? n)%nat then Ok false else
  let? rest := slice (et_bytes etag) n (length (et_bytes etag)) in
  if negb (forallb (Z.eqb 0) rest) then Ok false else
  if (n =? 0)%nat then Ok true else
  let? used := slice (et_bytes etag) 0 n in valid_etag used.

Record SnapshotMetadata : Type := {
  snapshot_version : Z;
  generated_at : Z;
  expires_at : Z;
  last_checked_at : Z;
  etag : Etag }.
#[export] Instance SnapshotMetadata_eq_dec : EqDecision SnapshotMetadata.
Proof. solve_decision. Defined.
Definition SnapshotMetadata_default : SnapshotMetadata :=
  {| snapshot_version := 0; generated_at := 0; expires_at := 0; last_checked_at := 0; etag := Etag_none |}.

Record DatabaseState : Type := {
  generation : Z;
  active_trust_slot : Slot;
  active_revocation_slot : Slot;
  trust : SnapshotMetadata;
  revocations : SnapshotMetadata }.
Definition DatabaseState_default : DatabaseState :=
  {| generation := 0; active_trust_slot := SlotA; active_revocation_slot := SlotA; trust := SnapshotMetadata_default;
     revocations := SnapshotMetadata_default |}.

Definition write_le {E} (n : nat) (output : list Z) (offset : nat) (value : Z) : result E (list Z) :=
  copy_into output offset (offset + n) (to_le n value).
Definition write_u16 {E} : list Z -> nat -> Z -> result E (list Z) := write_le 2.
Definition write_u32 {E} : list Z -> nat -> Z -> result E (list Z) := write_le 4.
Definition write_u64 {E} : list Z -> nat -> Z -> result E (list Z) := write_le 8.
Definition read_le {E} (n : nat) (input : list Z) (offset : nat) : result E Z :=
  let? s := slice input offset (offset + n) in Ok (from_le s).
Definition read_u16 {E} : list Z -> nat -> result E Z := read_le 2.
Definition read_u32 {E} : list Z -> nat -> result E Z := read_le 4.
Definition read_u64 {E} : list Z -> nat -> result E Z := read_le 8.

Definition encode_metadata {E} (output : list Z) (values_offset length_offset etag_offset : nat) (m : SnapshotMetadata) : result E (list Z) :=
  let? output := write_u64 output values_offset (snapshot_version m) in
  let? output := write_u64 output (values_offset + 8) (generated_at m) in
  let? output := write_u64 output (values_offset + 16) (expires_at m) in
  let? output := write_u64 output (values_offset + 24) (last_checked_at m) in
  let? output := write_u16 output length_offset (et_len (etag m)) in
  let n := Z.to_nat (et_len (etag m)) in
  let? used := slice (et_bytes (etag m)) 0 n in
  copy_into output etag_offset (etag_offset + n) used.

Definition decode_metadata (input : list Z) (values_offset length_offset etag_offset : nat) : result DecodeError SnapshotMetadata :=
  let? n := read_u16 input length_offset in
  if Z.of_nat MAX_ETAG_BYTES <? n then Err (InvalidEtagLength n) else
  let n := Z.to_nat n in
  let? etag_bytes := slice input etag_offset (etag_offset + MAX_ETAG_BYTES) in
  let? rest := slice etag_bytes n (length etag_bytes) in
  if negb (forallb (Z.eqb 0) rest) then Err NonZeroReserved else
  let? etag_text := slice etag_bytes 0 n in
  if negb (from_utf8 etag_text) then Err DecodeInvalidEtag else
  match Etag_parse etag_text with
  | Ok e =>
      let? v := read_u64 input values_offset in
      let? g := read_u64 input (values_offset + 8) in
      let? x := read_u64 input (values_offset + 16) in
      let? c := read_u64 input (values_offset + 24) in
      Ok {| snapshot_version := v; generated_at := g; expires_at := x; last_checked_at := c; etag := e |}
  | Err _ => Err DecodeInvalidEtag
  | Panic => Panic
  end.

Section Codec.
Context (sha256 : list Z -> list Z).

(** The first [STATE_LEN] bytes of [output] are written. *)
Definition DatabaseState_encode (self : DatabaseState) (output : list Z) : result EncodeError (list Z * Z) :=
  if (length output <? STATE_LEN)%nat then Err (BufferTooSmall (Z.of_nat STATE_LEN) (len output)) else
  let? t := valid_stored_etag (etag (trust self)) in
  let? ok := (if t then valid_stored_etag (etag (revocations self)) else Ok false) in
  if negb ok then Err EncodeInvalidEtag else
  let b := zeros STATE_LEN in
  let? b := write_u32 b 0 MAGIC in
  let? b := write_u16 b 4 FORMAT_VERSION in
  let? b := write_u16 b 6 (Z.of_nat STATE_LEN) in
  let? b := write_u64 b 8 (generation self) in
  let? b := set_idx b 16 (slot_as_u8 (active_trust_slot self)) in
  let? b := set_idx b 17 (slot_as_u8 (active_revocation_slot self)) in
  let? b := encode_metadata b 24 56 TRUST_ETAG_OFFSET (trust self) in
  let? b := encode_metadata b 64 96 REVOCATION_ETAG_OFFSET (revocations self) in
  let? head := slice b 0 CHECKSUM_OFFSET in
  let? b := copy_into b CHECKSUM_OFFSET STATE_LEN (sha256 head) in
  Ok (b ++ drop STATE_LEN output, Z.of_nat STATE_LEN).

(** Are there bytes other than zero? *)
Definition any_nonzero (input : list Z) (a b : nat) : result DecodeError bool :=
  let? s := slice input a b in Ok (negb (forallb (Z.eqb 0) s)).

Definition DatabaseState_decode (input : list Z) : result DecodeError DatabaseState :=
  if negb (length input =? STATE_LEN)%nat then Err (InvalidLength (Z.of_nat STATE_LEN) (len input)) else
  let? magic := read_u32 input 0 in
  if negb (magic =? MAGIC) then Err (InvalidMagic magic) else
  let? version := read_u16 input 4 in
  if negb (version =? FORMAT_VERSION) then Err (UnsupportedVersion version) else
  let? encoded_length := read_u16 input 6 in
  if negb (encoded_length =? Z.of_nat STATE_LEN) then Err (InvalidEncodedLength encoded_length) else
  let? r1 := any_nonzero input 18 24 in
  let? r2 := any_nonzero input 58 64 in
  let? r3 := any_nonzero input 98 104 in
  if r1 || r2 || r3 then Err NonZeroReserved else
  let? g := read_u64 input 8 in
  let? b16 := idx input 16 in
  let? s1 := Slot_decode b16 in
  let? b17 := idx input 17 in
  let? s2 := Slot_decode b17 in
  let? t := decode_metadata input 24 56 TRUST_ETAG_OFFSET in
  let? r := decode_metadata input 64 96 REVOCATION_ETAG_OFFSET in
  let? head := slice input 0 CHECKSUM_OFFSET in
  let? stored := slice input CHECKSUM_OFFSET STATE_LEN in
  if negb (bool_decide (stored = sha256 head)) then Err ChecksumMismatch else
  Ok {| generation := g; active_trust_slot := s1; active_revocation_slot := s2; trust := t; revocations := r |}.

End Codec.
