(* ===== verification/CertCodec.v ===== *)
(** * The codec of the certificate database's state record: what it accepts, the round trip, and where it panics *)

From S2P Require Import Prelude Text Fields CertDatabase.

(** ** Entity tags *)

Definition opaque (o : list Z) : Prop := Forall (fun b => etag_byte b = true) o.
Definition valid_tag (l : list Z) : Prop := exists w o, l = w ++ o ++ QUOTE /\ (w = QUOTE \/ w = WEAK_QUOTE) /\ opaque o.
(** The two texts on which the slice is out of order. *)
Definition lone_quote (l : list Z) : Prop := l = QUOTE \/ l = WEAK_QUOTE.

Lemma etag_byte_range b : etag_byte b = true -> 33 <= b <= 126 /\ b <> 34.
Proof. unfold etag_byte. rewrite orb_true_iff, andb_true_iff, Z.eqb_eq, !Z.leb_le. lia. Qed.

Lemma opaque_forallb o : forallb etag_byte o = true <-> opaque o.
Proof. unfold opaque. rewrite forallb_forall, Forall_forall. split; intros H x Hx; apply H; by apply list_elem_of_In. Qed.

Lemma lone_not_valid l : lone_quote l -> ~ valid_tag l.
Proof.
  intros Hl (w & o & -> & [->| ->] & _); destruct Hl as [H|H]; try done; apply (f_equal (@List.length Z)) in H; rewrite !length_app in H; cbn in H; lia.
Qed.

(** A text between the prefix [w] and a closing quotation mark. *)
Lemma quoted_cases w l : starts_with w l && ends_with QUOTE l = true -> l = w \/ exists o, l = w ++ o ++ QUOTE.
Proof.
  intros [H1 H2]%andb_true_iff. apply starts_with_spec in H1 as [t ->]. apply ends_with_spec in H2 as [t' E].
  destruct (decide (t = [])) as [->|Hne]; [left; by rewrite app_nil_r |]. right.
  destruct (exists_last Hne) as (o & c & Et). rewrite Et, app_assoc in E. apply app_inj_tail in E as [_ ->]. exists o. by rewrite Et.
Qed.

Lemma quoted_body {E} w o : slice (E := E) (w ++ o ++ QUOTE) (List.length w) (List.length (w ++ o ++ QUOTE) - 1) = Ok o.
Proof. apply slice_middle; [done |]. rewrite !length_app. cbn. lia. Qed.

Lemma starts_ends w o : starts_with w (w ++ o ++ QUOTE) && ends_with QUOTE (w ++ o ++ QUOTE) = true.
Proof. apply andb_true_iff. split; [apply starts_with_spec; by eexists | apply ends_with_spec; exists (w ++ o); by rewrite app_assoc]. Qed.

(** The validity test: the answer, and the panic on a quotation mark that is both the first and the last. *)
Lemma valid_etag_cases {E} l : (lone_quote l /\ valid_etag (E := E) l = Panic) \/
  (~ lone_quote l /\ exists v, valid_etag (E := E) l = Ok v /\ (v = true <-> valid_tag l)).
Proof.
  unfold valid_etag. destruct (starts_with WEAK_QUOTE l && ends_with QUOTE l) eqn:C1.
  { apply quoted_cases in C1 as [->|[o ->]]; [left; by split; [right |] |]. right.
    assert (~ lone_quote (WEAK_QUOTE ++ o ++ QUOTE)) as Hn.
    { intros [H|H]; apply (f_equal (@List.length Z)) in H; rewrite !length_app in H; cbn in H; lia. }
    split; [done |]. change 3%nat with (List.length WEAK_QUOTE). rewrite quoted_body. eexists. split; [done |]. rewrite opaque_forallb. split.
    - intros Ho. exists WEAK_QUOTE, o. auto.
    - intros (w & o' & E' & [->| ->] & Ho); [by cbn in E' | by apply app_inv_head, app_inv_tail in E' as ->]. }
  destruct (starts_with QUOTE l && ends_with QUOTE l) eqn:C2.
  { apply quoted_cases in C2 as [->|[o ->]]; [left; by split; [left |] |]. right.
    split; [intros [H|H]; [apply (f_equal (@List.length Z)) in H; rewrite !length_app in H; cbn in H; lia | by cbn in H] |].
    change 1%nat with (List.length QUOTE) at 1. rewrite quoted_body. eexists. split; [done |]. rewrite opaque_forallb. split.
    - intros Ho. exists QUOTE, o. auto.
    - intros (w & o' & E' & [->| ->] & Ho); [by apply app_inv_head, app_inv_tail in E' as -> | by cbn in E']. }
  right. split; [intros [->| ->]; [by cbn in C2 | by cbn in C1] |]. exists false. split; [done |]. split; [done |].
  intros (w & o & -> & [->| ->] & _); [rewrite starts_ends in C2 | rewrite starts_ends in C1]; done.
Qed.

(** ** Stored tags *)

Definition mk_etag (l : list Z) : Etag := {| et_bytes := l ++ zeros (MAX_ETAG_BYTES - List.length l); et_len := Z.of_nat (List.length l) |}.
Definition tag_ok (l : list Z) : Prop := (List.length l <= MAX_ETAG_BYTES)%nat /\ (l = [] \/ valid_tag l).

Lemma Etag_parse_Ok l e : Etag_parse l = Ok e <-> tag_ok l /\ e = mk_etag l.
Proof.
  unfold Etag_parse, tag_ok. destruct (Nat.ltb_spec MAX_ETAG_BYTES (List.length l)) as [Hl|Hl]; [split; [done | intros [[? _] _]; lia] |].
  assert ((let? b := copy_into (et_bytes Etag_none) 0 (List.length l) l in Ok {| et_bytes := b; et_len := Z.of_nat (List.length l) |}) = Ok (E := EtagError) (mk_etag l)) as Hc.
  { cbn [Etag_none et_bytes]. rewrite copy_into_head by (unfold zeros; rewrite length_replicate; done). unfold zeros. by rewrite drop_replicate. }
  destruct (decide (l = [])) as [->|Hne].
  { rewrite bool_decide_eq_true_2 by done. rewrite Hc. split; [intros [= <-]; auto | by intros [_ ->]]. }
  rewrite bool_decide_eq_false_2 by done. destruct (valid_etag_cases (E := EtagError) l) as [[Hq ->]|(Hq & v & -> & Hv)].
  { split; [done |]. intros [[_ [?|Hv]] _]; [done |]. by apply (lone_not_valid l) in Hq. }
  rewrite Hc. destruct v; cbn [negb].
  - split; [intros [= <-]; split; [|done]; split; [done |]; right; by apply Hv | by intros [_ ->]].
  - split; [done |]. intros [[_ [?|Ht]] _]; [done |]. by apply Hv in Ht.
Qed.

Lemma Etag_parse_panics l : Etag_parse l = Panic <-> lone_quote l.
Proof.
  unfold Etag_parse. split.
  - destruct (Nat.ltb_spec MAX_ETAG_BYTES (List.length l)) as [Hl|Hl]; [done |].
    rewrite copy_into_head by (cbn; unfold MAX_ETAG_BYTES in *; lia). destruct (bool_decide (l = [])); [done |].
    destruct (valid_etag_cases (E := EtagError) l) as [[Hq ->]|(Hq & [] & -> & Hv)]; done.
  - by intros [->| ->].
Qed.

Lemma valid_stored_Ok {E} l : tag_ok l -> valid_stored_etag (E := E) (mk_etag l) = Ok true.
Proof.
  intros [Hl Hv]. unfold valid_stored_etag, mk_etag. cbn [et_len et_bytes]. rewrite Nat2Z.id.
  rewrite (proj2 (Nat.ltb_ge _ _)) by done. rewrite slice_in by (rewrite length_app; lia). rewrite drop_app_length, take_ge by (rewrite length_app; lia).
  rewrite (proj2 (all_zero _)) by (unfold zeros; by rewrite length_replicate). cbn [negb]. destruct Hv as [->|Hv]; [done |].
  destruct (Nat.eqb_spec (List.length l) 0); [done |]. rewrite slice_prefix.
  destruct (valid_etag_cases (E := E) l) as [[Hq _]|(_ & v & -> & Hiff)]; [by apply lone_not_valid in Hq |]. by apply Hiff in Hv as ->.
Qed.

(** ** The record *)

Definition meta_ok (m : SnapshotMetadata) : Prop :=
  is_u64 (snapshot_version m) /\ is_u64 (generated_at m) /\ is_u64 (expires_at m) /\ is_u64 (last_checked_at m) /\
  exists l, tag_ok l /\ etag m = mk_etag l.
Definition state_ok (s : DatabaseState) : Prop := is_u64 (generation s) /\ meta_ok (trust s) /\ meta_ok (revocations s).

Definition STATE_FIELDS : list nat := [4; 2; 2; 8; 1; 1; 6; 8; 8; 8; 8; 2; 6; 8; 8; 8; 8; 2; 6; 128; 128; 32]%nat.

Section Wire.
Context (sha256 : list Z -> list Z).

(** The fields of the encoding, without the checksum. *)
Definition head_fields (s : DatabaseState) : list (list Z) :=
  [to_le 4 MAGIC; to_le 2 FORMAT_VERSION; to_le 2 (Z.of_nat STATE_LEN); to_le 8 (generation s);
   [slot_as_u8 (active_trust_slot s)]; [slot_as_u8 (active_revocation_slot s)]; zeros 6;
   to_le 8 (snapshot_version (trust s)); to_le 8 (generated_at (trust s)); to_le 8 (expires_at (trust s)); to_le 8 (last_checked_at (trust s));
   to_le 2 (et_len (etag (trust s))); zeros 6;
   to_le 8 (snapshot_version (revocations s)); to_le 8 (generated_at (revocations s)); to_le 8 (expires_at (revocations s));
   to_le 8 (last_checked_at (revocations s)); to_le 2 (et_len (etag (revocations s))); zeros 6;
   et_bytes (etag (trust s)); et_bytes (etag (revocations s))].
Definition wire (s : DatabaseState) : list Z := concat (head_fields s ++ [sha256 (concat (head_fields s))]).

Context (Hsha : forall x, List.length (sha256 x) = CHECKSUM_LEN).

Lemma mk_etag_length l : tag_ok l -> List.length (et_bytes (mk_etag l)) = 128%nat.
Proof using. intros [Hl _]. cbn [mk_etag et_bytes]. unfold zeros. rewrite length_app, length_replicate. unfold MAX_ETAG_BYTES in *. lia. Qed.

Lemma wire_layout s : state_ok s -> layout STATE_FIELDS (head_fields s ++ [sha256 (concat (head_fields s))]).
Proof using Hsha.
  intros (_ & (_ & _ & _ & _ & l1 & H1 & E1) & (_ & _ & _ & _ & l2 & H2 & E2)). unfold layout, STATE_FIELDS, head_fields.
  cbn [app fmap list_fmap]. rewrite !to_le_length, Hsha, E1, E2, !mk_etag_length by done. done.
Qed.

Lemma valid_tag_ascii l : tag_ok l -> from_utf8 l = true.
Proof using.
  intros [_ [->|(w & o & -> & Hw & Ho)]]; [done |]. apply from_utf8_ascii. rewrite !Forall_app. split_and!.
  - destruct Hw as [->| ->]; repeat constructor; lia.
  - eapply Forall_impl; [exact Ho |]. intros b Hb%etag_byte_range. lia.
  - repeat constructor; lia.
Qed.

Section Metadata.
Context (ps : list (list Z)) (Hps : layout STATE_FIELDS ps) (H8 : Forall (Forall is_u8) ps).
Context (k e : nat) (pv pg px pc pl pe : list Z).
Context (Hv : ps !! k = Some pv) (Hg : ps !! (k + 1)%nat = Some pg) (Hx : ps !! (k + 2)%nat = Some px) (Hc : ps !! (k + 3)%nat = Some pc).
Context (Hl : ps !! (k + 4)%nat = Some pl) (He : ps !! e = Some pe).
Context (Hns : take 5 (drop k STATE_FIELDS) = [8; 8; 8; 8; 2]%nat) (Hne : STATE_FIELDS !! e = Some 128%nat).

Lemma field_u8 j p : ps !! j = Some p -> Forall is_u8 p.
Proof using H8. intros Hj. rewrite Forall_lookup in H8. by eapply H8. Qed.

Lemma values_length j n : (j < 5)%nat -> [8; 8; 8; 8; 2]%nat !! j = Some n -> STATE_FIELDS !! (k + j)%nat = Some n.
Proof using Hns. intros Hj H. rewrite <- Hns in H. rewrite lookup_take, decide_True, lookup_drop in H by done. done. Qed.

Lemma read_field {E} n j p a : ps !! j = Some p -> STATE_FIELDS !! j = Some n -> a = offset STATE_FIELDS j ->
  CertDatabase.read_le (E := E) n (concat ps) a = Ok (from_le p).
Proof using Hps.
  intros Hj Hn ->. unfold CertDatabase.read_le. rewrite (slice_field STATE_FIELDS ps Hps j p); [done | done | done |].
  symmetry. by apply offset_S.
Qed.

Lemma values_offsets : offset STATE_FIELDS (k + 1) = (offset STATE_FIELDS k + 8)%nat /\ offset STATE_FIELDS (k + 2) = (offset STATE_FIELDS k + 16)%nat /\
  offset STATE_FIELDS (k + 3) = (offset STATE_FIELDS k + 24)%nat.
Proof using Hns.
  pose proof (offset_S STATE_FIELDS _ _ (values_length 0 8 ltac:(lia) eq_refl)) as O1. pose proof (offset_S STATE_FIELDS _ _ (values_length 1 8 ltac:(lia) eq_refl)) as O2.
  pose proof (offset_S STATE_FIELDS _ _ (values_length 2 8 ltac:(lia) eq_refl)) as O3. rewrite Nat.add_0_r in O1.
  replace (S k) with (k + 1)%nat in O1 by lia. replace (S (k + 1)) with (k + 2)%nat in O2 by lia. replace (S (k + 2)) with (k + 3)%nat in O3 by lia. lia.
Qed.

Local Abbreviation decoded := (decode_metadata (concat ps) (offset STATE_FIELDS k) (offset STATE_FIELDS (k + 4)) (offset STATE_FIELDS e)).

(** The decoder on the fields. *)
Lemma decode_metadata_fields : decoded =
  (let n := from_le pl in
   if 128 <? n then Err (InvalidEtagLength n) else
   let t := take (Z.to_nat n) pe in
   if negb (forallb (Z.eqb 0) (drop (Z.to_nat n) pe)) then Err NonZeroReserved else
   if negb (from_utf8 t) then Err DecodeInvalidEtag else
   match Etag_parse t with
   | Ok tag => Ok {| snapshot_version := from_le pv; generated_at := from_le pg; expires_at := from_le px; last_checked_at := from_le pc; etag := tag |}
   | Err _ => Err DecodeInvalidEtag
   | Panic => Panic
   end).
Proof using Hps H8 Hv Hg Hx Hc Hl He Hns Hne.
  unfold decode_metadata, CertDatabase.read_u16, CertDatabase.read_u64. destruct values_offsets as (O1 & O2 & O3). rewrite <- O1, <- O2, <- O3.
  rewrite (read_field 2 (k + 4) pl (offset STATE_FIELDS (k + 4))) by (done || (apply (values_length 4); [lia | done])). rewrite (read_field 8 (k + 1) pg (offset STATE_FIELDS (k + 1))) by (done || (apply (values_length 1); [lia | done])).
  rewrite (read_field 8 (k + 2) px (offset STATE_FIELDS (k + 2))) by (done || (apply (values_length 2); [lia | done])). rewrite (read_field 8 (k + 3) pc (offset STATE_FIELDS (k + 3))) by (done || (apply (values_length 3); [lia | done])).
  pose proof (values_length 0 8 ltac:(lia) eq_refl) as N0. rewrite Nat.add_0_r in N0. rewrite (read_field 8 k pv (offset STATE_FIELDS k)) by done.
  change (Z.of_nat MAX_ETAG_BYTES) with 128. cbv zeta. destruct (Z.ltb_spec 128 (from_le pl)) as [|Hle]; [done |].
  rewrite (slice_field STATE_FIELDS ps Hps e pe) by (done || (symmetry; by apply offset_S)).
  pose proof (field_length _ _ Hps _ _ He) as Hlen. rewrite Hne in Hlen. injection Hlen as Hlen.
  assert (0 <= from_le pl) as Hpos by (apply from_le_range, (field_u8 _ _ Hl)).
  rewrite slice_in by lia. rewrite take_ge by (rewrite length_drop; lia). rewrite slice_in by lia. by rewrite Nat.sub_0_r, drop_0.
Qed.

Lemma decode_metadata_Ok m : decoded = Ok m <-> meta_ok m /\ pv = to_le 8 (snapshot_version m) /\ pg = to_le 8 (generated_at m) /\
  px = to_le 8 (expires_at m) /\ pc = to_le 8 (last_checked_at m) /\ pl = to_le 2 (et_len (etag m)) /\ pe = et_bytes (etag m).
Proof using Hps H8 Hv Hg Hx Hc Hl He Hns Hne.
  rewrite decode_metadata_fields. cbv zeta.
  assert (forall j n p, (j < 5)%nat -> [8; 8; 8; 8; 2]%nat !! j = Some n -> ps !! (k + j)%nat = Some p -> p = to_le n (from_le p) /\ 0 <= from_le p < 256 ^ Z.of_nat n) as Hfield.
  { intros j n p Hj Hn Hp. pose proof (field_length _ _ Hps _ _ Hp) as L. rewrite (values_length j n Hj Hn) in L. injection L as ->.
    pose proof (field_u8 _ _ Hp) as U. split; [by rewrite to_from_le | by apply from_le_range]. }
  assert (ps !! (k + 0)%nat = Some pv) as Hv0 by (by rewrite Nat.add_0_r).
  destruct (Hfield 0%nat 8%nat pv ltac:(lia) eq_refl Hv0) as [Tv Rv]. destruct (Hfield 1%nat 8%nat pg ltac:(lia) eq_refl Hg) as [Tg Rg].
  destruct (Hfield 2%nat 8%nat px ltac:(lia) eq_refl Hx) as [Tx Rx]. destruct (Hfield 3%nat 8%nat pc ltac:(lia) eq_refl Hc) as [Tc Rc].
  destruct (Hfield 4%nat 2%nat pl ltac:(lia) eq_refl Hl) as [Tl Rl]. change (256 ^ Z.of_nat 8) with 18446744073709551616 in *.
  pose proof (field_length _ _ Hps _ _ He) as Hlen. rewrite Hne in Hlen. injection Hlen as Hlen. split.
  - intros H. destruct (Z.ltb_spec 128 (from_le pl)) as [|Hle]; [done |]. destruct (negb (forallb _ _)) eqn:Cz; [done |]. apply negb_false_iff, all_zero in Cz.
    destruct (negb (from_utf8 _)); [done |]. destruct (Etag_parse _) as [tag| |] eqn:Ep; [|done|done]. apply Etag_parse_Ok in Ep as [Ht ->].
    injection H as <-. cbn [snapshot_version generated_at expires_at last_checked_at etag].
    assert (List.length (take (Z.to_nat (from_le pl)) pe) = Z.to_nat (from_le pl)) as Lt by (rewrite length_take; lia). split_and!; try done.
    + split_and!; cbn; widths; try lia. by exists (take (Z.to_nat (from_le pl)) pe).
    + cbn [mk_etag et_len]. rewrite Lt, Z2Nat.id by lia. done.
    + cbn [mk_etag et_bytes]. rewrite Lt. rewrite <- (take_drop (Z.to_nat (from_le pl)) pe) at 1. rewrite Cz, length_drop. do 2 f_equal. unfold MAX_ETAG_BYTES. lia.
  - intros ((V1 & V2 & V3 & V4 & l & Hok & El) & E1 & E2 & E3 & E4 & E5 & E6). rewrite El in E5, E6. cbn [mk_etag et_len et_bytes] in E5, E6.
    pose proof Hok as [Hll _]. unfold MAX_ETAG_BYTES in Hll. assert (from_le pl = Z.of_nat (List.length l)) as -> by (rewrite E5, from_to_le; [done | cbn; lia]).
    rewrite (proj2 (Z.ltb_ge _ _)) by lia. rewrite Nat2Z.id, E6, drop_app_length, take_app_length.
    rewrite (proj2 (all_zero _)) by (unfold zeros; by rewrite length_replicate). cbn [negb]. rewrite valid_tag_ascii by done. cbn [negb].
    rewrite (proj2 (Etag_parse_Ok l (mk_etag l))) by done. widths. rewrite E1, E2, E3, E4, !from_to_le by (cbn; lia). destruct m. cbn in *. by rewrite El.
Qed.

Lemma decode_metadata_panics : decoded = Panic -> lone_quote (take (Z.to_nat (from_le pl)) pe).
Proof using Hps H8 Hv Hg Hx Hc Hl He Hns Hne.
  rewrite decode_metadata_fields. cbv zeta. destruct (_ <? _); [done |]. destruct (negb _); [done |]. destruct (negb _); [done |].
  destruct (Etag_parse _) eqn:E; [done | done |]. intros _. by apply Etag_parse_panics.
Qed.
End Metadata.

(** ** Decoding *)

Lemma any_nonzero_field ps k p a b : layout STATE_FIELDS ps -> ps !! k = Some p -> a = offset STATE_FIELDS k -> b = offset STATE_FIELDS (S k) ->
  any_nonzero (concat ps) a b = Ok (negb (forallb (Z.eqb 0) p)).
Proof using. intros H Hp -> ->. unfold any_nonzero. by rewrite (slice_field STATE_FIELDS ps H k p). Qed.

Lemma Slot_decode_Ok v s : Slot_decode v = Ok s <-> v = slot_as_u8 s.
Proof using.
  unfold Slot_decode. destruct (Z.eqb_spec v 0) as [->|]; [destruct s; cbn; naive_solver lia |]. destruct (Z.eqb_spec v 1) as [->|]; destruct s; cbn; naive_solver lia.
Qed.

Section Fields22.
Context (p0 p1 p2 p3 p4 p5 p6 p7 p8 p9 p10 p11 p12 p13 p14 p15 p16 p17 p18 p19 p20 p21 : list Z).
Local Abbreviation ps := [p0; p1; p2; p3; p4; p5; p6; p7; p8; p9; p10; p11; p12; p13; p14; p15; p16; p17; p18; p19; p20; p21].
Context (Hps : layout STATE_FIELDS ps) (H8 : Forall (Forall is_u8) ps).
Local Abbreviation trust_meta := (decode_metadata (concat ps) (offset STATE_FIELDS 7) (offset STATE_FIELDS 11) (offset STATE_FIELDS 19)).
Local Abbreviation revocation_meta := (decode_metadata (concat ps) (offset STATE_FIELDS 13) (offset STATE_FIELDS 17) (offset STATE_FIELDS 20)).

Lemma decode_fields v4 v5 : p4 = [v4] -> p5 = [v5] -> DatabaseState_decode sha256 (concat ps) =
  if negb (from_le p0 =? MAGIC) then Err (InvalidMagic (from_le p0)) else
  if negb (from_le p1 =? FORMAT_VERSION) then Err (UnsupportedVersion (from_le p1)) else
  if negb (from_le p2 =? 392) then Err (InvalidEncodedLength (from_le p2)) else
  if negb (forallb (Z.eqb 0) p6) || negb (forallb (Z.eqb 0) p12) || negb (forallb (Z.eqb 0) p18) then Err NonZeroReserved else
  let? s1 := Slot_decode v4 in
  let? s2 := Slot_decode v5 in
  let? t := trust_meta in
  let? r := revocation_meta in
  if negb (bool_decide (p21 = sha256 (concat (take 21 ps)))) then Err ChecksumMismatch else
  Ok {| generation := from_le p3; active_trust_slot := s1; active_revocation_slot := s2; trust := t; revocations := r |}.
Proof using Hps.
  intros E4 E5. unfold DatabaseState_decode, CertDatabase.read_u32, CertDatabase.read_u16, CertDatabase.read_u64.
  rewrite (layout_length _ _ Hps). change (sum_list STATE_FIELDS =? STATE_LEN)%nat with true. cbn [negb].
  rewrite (read_field ps Hps 4 0 p0) by done. rewrite (read_field ps Hps 2 1 p1) by done. rewrite (read_field ps Hps 2 2 p2) by done.
  rewrite (any_nonzero_field ps 6 p6) by done. rewrite (any_nonzero_field ps 12 p12) by done. rewrite (any_nonzero_field ps 18 p18) by done.
  rewrite (read_field ps Hps 8 3 p3) by done. rewrite (idx_field STATE_FIELDS ps Hps 4 v4) by (done || by rewrite E4).
  rewrite (idx_field STATE_FIELDS ps Hps 5 v5) by (done || by rewrite E5). rewrite (slice_fields STATE_FIELDS ps Hps 21) by done.
  rewrite (slice_field STATE_FIELDS ps Hps 21 p21) by done. done.
Qed.
End Fields22.

Lemma state_fields input : List.length input = STATE_LEN -> exists p0 p1 p2 p3 v4 v5 p6 p7 p8 p9 p10 p11 p12 p13 p14 p15 p16 p17 p18 p19 p20 p21,
  let ps := [p0; p1; p2; p3; [v4]; [v5]; p6; p7; p8; p9; p10; p11; p12; p13; p14; p15; p16; p17; p18; p19; p20; p21] in
  input = concat ps /\ layout STATE_FIELDS ps.
Proof using.
  intros Hl. destruct (layout_exists STATE_FIELDS input Hl) as (ps & -> & Hps). pose proof Hps as E. unfold layout, STATE_FIELDS in E.
  do 22 (destruct ps as [|? ps]; [done |]). destruct ps; [|done]. cbn in E. injection E as _ _ _ _ L4 L5 _.
  destruct l3 as [|v4 [|]]; try done. destruct l4 as [|v5 [|]]; try done. do 22 eexists. split; [reflexivity | exact Hps].
Qed.

Lemma decode_exact input s : Forall is_u8 input -> DatabaseState_decode sha256 input = Ok s <-> state_ok s /\ input = wire s.
Proof using Hsha.
  intros H8. destruct (decide (List.length input = STATE_LEN)) as [Hl|Hl].
  2: { split; [unfold DatabaseState_decode; rewrite (proj2 (Nat.eqb_neq _ _) Hl); done |]. intros [Hok ->]. exfalso. apply Hl.
       unfold wire. by rewrite (layout_length _ _ (wire_layout s Hok)). }
  destruct (state_fields input Hl) as (p0 & p1 & p2 & p3 & v4 & v5 & p6 & p7 & p8 & p9 & p10 & p11 & p12 & p13 & p14 & p15 & p16 & p17 & p18 & p19 & p20 & p21 & -> & Hps).
  cbv zeta in Hps. set (ps := [p0; p1; p2; p3; [v4]; [v5]; p6; p7; p8; p9; p10; p11; p12; p13; p14; p15; p16; p17; p18; p19; p20; p21]) in *.
  apply concat_bytes in H8. pose proof (decode_fields _ _ _ _ _ _ _ _ _ _ _ _ _ _ _ _ _ _ _ _ _ _ Hps v4 v5 eq_refl eq_refl) as Hd. fold ps in Hd. rewrite Hd. clear Hd.
  assert (forall j n p v, ps !! j = Some p -> STATE_FIELDS !! j = Some n -> 0 <= v < 256 ^ Z.of_nat n -> from_le p = v <-> p = to_le n v) as Hle.
  { intros j n p v Hj Hn Hv. pose proof (field_length _ _ Hps _ _ Hj) as L. rewrite Hn in L. injection L as ->. apply from_le_inj; [|done]. by eapply field_u8. }
  assert (forall j n p, ps !! j = Some p -> STATE_FIELDS !! j = Some n -> forallb (Z.eqb 0) p = true <-> p = zeros n) as Hz.
  { intros j n p Hj Hn. pose proof (field_length _ _ Hps _ _ Hj) as L. rewrite Hn in L. injection L as ->. apply all_zero. }
  split.
  - intros H. destruct (from_le p0 =? MAGIC) eqn:C0; [|done]. destruct (from_le p1 =? FORMAT_VERSION) eqn:C1; [|done]. destruct (from_le p2 =? 392) eqn:C2; [|done]. cbn [negb] in H.
    destruct (_ || _) eqn:C3; [done |]. apply orb_false_iff in C3 as [[Z6 Z12]%orb_false_iff Z18]. apply negb_false_iff in Z6, Z12, Z18.
    apply Z.eqb_eq in C0, C1, C2. destruct (Slot_decode v4) as [s1| |] eqn:S1; [|done|done]. destruct (Slot_decode v5) as [s2| |] eqn:S2; [|done|done].
    apply Slot_decode_Ok in S1, S2. destruct (decode_metadata _ (offset _ 7) _ _) as [t| |] eqn:T; [|done|done]. destruct (decode_metadata _ (offset _ 13) _ _) as [r| |] eqn:R; [|done|done].
    destruct (negb _) eqn:C4; [done |]. bool_cases. injection H as <-.
    apply (decode_metadata_Ok ps Hps H8 7 19 p7 p8 p9 p10 p11 p19) in T as (Tok & T1 & T2 & T3 & T4 & T5 & T6); [|done..].
    apply (decode_metadata_Ok ps Hps H8 13 20 p13 p14 p15 p16 p17 p20) in R as (Rok & R1 & R2 & R3 & R4 & R5 & R6); [|done..].
    assert (0 <= from_le p3 < 256 ^ len p3) as G by (apply from_le_range; by eapply (field_u8 ps H8 3)).
    pose proof (field_length _ _ Hps 3 p3 eq_refl) as L3. injection L3 as L3. unfold len in G. rewrite <- L3 in G. change (256 ^ Z.of_nat 8) with 18446744073709551616 in G.
    split; [split; [cbn; widths; lia | done] |]. unfold wire. f_equal. unfold head_fields. cbn [generation active_trust_slot active_revocation_slot trust revocations app].
    assert (take 21 ps = [p0; p1; p2; p3; [v4]; [v5]; p6; p7; p8; p9; p10; p11; p12; p13; p14; p15; p16; p17; p18; p19; p20]) as Etake by done. rewrite Etake in C4.
    apply (Hle 0%nat 4%nat p0) in C0; [|done | done | done]. apply (Hle 1%nat 2%nat p1) in C1; [|done..]. apply (Hle 2%nat 2%nat p2) in C2; [|done..].
    apply (Hz 6%nat 6%nat p6) in Z6; [|done..]. apply (Hz 12%nat 6%nat p12) in Z12; [|done..]. apply (Hz 18%nat 6%nat p18) in Z18; [|done..].
    assert (p3 = to_le 8 (from_le p3)) as E3 by (apply (Hle 3%nat 8%nat p3); done).
    unfold ps. rewrite C4. rewrite <- S1, <- S2, <- T1, <- T2, <- T3, <- T4, <- T5, <- T6, <- R1, <- R2, <- R3, <- R4, <- R5, <- R6, <- E3.
    change (to_le 2 (Z.of_nat STATE_LEN)) with (to_le 2 392). by rewrite C0, C1, C2, Z6, Z12, Z18.
  - intros [Hok E]. unfold wire in E. apply (layout_inj STATE_FIELDS) in E; [|done | by apply wire_layout].
    unfold ps, head_fields in E. cbn [app] in E. injection E as C0 C1 C2 C3 S1 S2 Z6 T1 T2 T3 T4 T5 Z12 R1 R2 R3 R4 R5 Z18 T6 R6 E21. pose proof Hok as (G & Tok & Rok).
    rewrite (proj2 (Hle 0%nat 4%nat p0 MAGIC eq_refl eq_refl ltac:(done)) C0), (proj2 (Hle 1%nat 2%nat p1 FORMAT_VERSION eq_refl eq_refl ltac:(done)) C1), (proj2 (Hle 2%nat 2%nat p2 392 eq_refl eq_refl ltac:(done)) C2).
    rewrite (proj2 (Hz 6%nat 6%nat p6 eq_refl eq_refl) Z6), (proj2 (Hz 12%nat 6%nat p12 eq_refl eq_refl) Z12), (proj2 (Hz 18%nat 6%nat p18 eq_refl eq_refl) Z18).
    cbn [negb orb Z.eqb]. rewrite !Z.eqb_refl. cbn [negb]. rewrite (proj2 (Slot_decode_Ok _ _) S1), (proj2 (Slot_decode_Ok _ _) S2).
    pose proof (proj2 (decode_metadata_Ok ps Hps H8 7 19 p7 p8 p9 p10 p11 p19 eq_refl eq_refl eq_refl eq_refl eq_refl eq_refl eq_refl eq_refl (trust s))) as HT. change (7 + 4)%nat with 11%nat in HT. rewrite HT by done.
    pose proof (proj2 (decode_metadata_Ok ps Hps H8 13 20 p13 p14 p15 p16 p17 p20 eq_refl eq_refl eq_refl eq_refl eq_refl eq_refl eq_refl eq_refl (revocations s))) as HR. change (13 + 4)%nat with 17%nat in HR. rewrite HR by done.
    rewrite bool_decide_eq_true_2.
    + cbn [negb]. rewrite (proj2 (Hle 3%nat 8%nat p3 (generation s) eq_refl eq_refl ltac:(widths; cbn; lia)) C3). by destruct s.
    + rewrite E21. do 2 f_equal. unfold ps. cbn [take firstn]. rewrite C0, C1, C2, C3, S1, S2, Z6, T1, T2, T3, T4, T5, Z12, R1, R2, R3, R4, R5, Z18, T6, R6. reflexivity.
Qed.

(** ** Encoding *)

Lemma write_field {E} ps n j p a v : layout STATE_FIELDS ps -> ps !! j = Some p -> STATE_FIELDS !! j = Some n -> a = offset STATE_FIELDS j ->
  write_le (E := E) n (concat ps) a v = Ok (concat (<[j := to_le n v]> ps)) /\ layout STATE_FIELDS (<[j := to_le n v]> ps).
Proof using.
  intros Hps Hj Hn Ha. pose proof (field_length _ _ Hps _ _ Hj) as L. rewrite Hn in L. injection L as L.
  unfold write_le. split; [apply (copy_field_into STATE_FIELDS ps Hps j p); rewrite ?to_le_length; done | apply (layout_insert _ _ Hps j p); rewrite ?to_le_length; done].
Qed.

Lemma encode_metadata_fields {E} ps k e m l pv pg px pc pl : layout STATE_FIELDS ps -> etag m = mk_etag l -> tag_ok l ->
  ps !! k = Some pv -> ps !! (k + 1)%nat = Some pg -> ps !! (k + 2)%nat = Some px -> ps !! (k + 3)%nat = Some pc -> ps !! (k + 4)%nat = Some pl ->
  ps !! e = Some (zeros 128) -> take 5 (drop k STATE_FIELDS) = [8; 8; 8; 8; 2]%nat -> (k + 4 < e)%nat ->
  let qs := <[e := et_bytes (etag m)]> (<[(k + 4)%nat := to_le 2 (et_len (etag m))]> (<[(k + 3)%nat := to_le 8 (last_checked_at m)]>
    (<[(k + 2)%nat := to_le 8 (expires_at m)]> (<[(k + 1)%nat := to_le 8 (generated_at m)]> (<[k := to_le 8 (snapshot_version m)]> ps))))) in
  encode_metadata (E := E) (concat ps) (offset STATE_FIELDS k) (offset STATE_FIELDS (k + 4)) (offset STATE_FIELDS e) m = Ok (concat qs) /\ layout STATE_FIELDS qs.
Proof using.
  intros Hps El Hl Hv Hg Hx Hc Hpl He Hns Hke qs. unfold encode_metadata, write_u64, write_u16.
  destruct (values_offsets k Hns) as (O1 & O2 & O3). rewrite <- O1, <- O2, <- O3.
  pose proof (values_length k Hns 0 8 ltac:(lia) eq_refl) as N0. rewrite Nat.add_0_r in N0.
  destruct (write_field (E := E) ps 8 k pv (offset STATE_FIELDS k) (snapshot_version m) Hps Hv N0 eq_refl) as [-> L1].
  match type of L1 with layout _ ?q => destruct (write_field (E := E) q 8 (k + 1) pg (offset STATE_FIELDS (k + 1)) (generated_at m) L1) as [-> L2];
    [by rewrite list_lookup_insert_ne by lia | by apply (values_length k Hns 1); [lia |] | done |] end.
  match type of L2 with layout _ ?q => destruct (write_field (E := E) q 8 (k + 2) px (offset STATE_FIELDS (k + 2)) (expires_at m) L2) as [-> L3];
    [by rewrite !list_lookup_insert_ne by lia | by apply (values_length k Hns 2); [lia |] | done |] end.
  match type of L3 with layout _ ?q => destruct (write_field (E := E) q 8 (k + 3) pc (offset STATE_FIELDS (k + 3)) (last_checked_at m) L3) as [-> L4];
    [by rewrite !list_lookup_insert_ne by lia | by apply (values_length k Hns 3); [lia |] | done |] end.
  match type of L4 with layout _ ?q => destruct (write_field (E := E) q 2 (k + 4) pl (offset STATE_FIELDS (k + 4)) (et_len (etag m)) L4) as [-> L5];
    [by rewrite !list_lookup_insert_ne by lia | by apply (values_length k Hns 4); [lia |] | done |] end.
  pose proof Hl as [Hll _]. unfold MAX_ETAG_BYTES in Hll.
  assert (slice (E := E) (et_bytes (etag m)) 0 (Z.to_nat (et_len (etag m))) = Ok l) as -> by (rewrite El; cbn [mk_etag et_bytes et_len]; rewrite Nat2Z.id; apply slice_prefix).
  assert (l ++ drop (List.length l) (zeros 128) = et_bytes (etag m)) as Epad by (rewrite El; unfold zeros; by rewrite drop_replicate).
  match type of L5 with layout _ ?q => assert (q !! e = Some (zeros 128)) as He' by (by rewrite !list_lookup_insert_ne by lia);
    rewrite (copy_prefix_into STATE_FIELDS q L5 e (zeros 128)) by (done || (rewrite El; cbn [mk_etag et_len]; lia)) end.
  rewrite Epad. split; [done |]. subst qs. eapply layout_insert; [done | exact He' |]. rewrite El. by rewrite mk_etag_length.
Qed.

Lemma encode_Ok s output : state_ok s -> (STATE_LEN <= List.length output)%nat ->
  DatabaseState_encode sha256 s output = Ok (wire s ++ drop STATE_LEN output, Z.of_nat STATE_LEN).
Proof using Hsha.
  intros Hok Hl. pose proof Hok as (_ & (_ & _ & _ & _ & l1 & H1 & E1) & (_ & _ & _ & _ & l2 & H2 & E2)).
  unfold DatabaseState_encode. rewrite (proj2 (Nat.ltb_ge _ _)) by done. rewrite E1, valid_stored_Ok, E2, valid_stored_Ok by done. cbn [negb].
  destruct (zeros_concat STATE_FIELDS) as [Ez L0]. change (zeros STATE_LEN) with (zeros (sum_list STATE_FIELDS)). rewrite Ez. clear Ez. unfold write_u32, write_u16, write_u64.
  destruct (write_field (E := EncodeError) _ 4 0 _ 0 MAGIC L0 eq_refl eq_refl eq_refl) as [-> L1].
  destruct (write_field (E := EncodeError) _ 2 1 _ 4 FORMAT_VERSION L1 eq_refl eq_refl eq_refl) as [-> L2].
  destruct (write_field (E := EncodeError) _ 2 2 _ 6 (Z.of_nat STATE_LEN) L2 eq_refl eq_refl eq_refl) as [-> L3].
  destruct (write_field (E := EncodeError) _ 8 3 _ 8 (generation s) L3 eq_refl eq_refl eq_refl) as [-> L4]. unfold set_idx.
  rewrite (copy_field_into STATE_FIELDS _ L4 4 (zeros 1)) by done. pose proof (layout_insert _ _ L4 4 (zeros 1) [slot_as_u8 (active_trust_slot s)] eq_refl eq_refl) as L5.
  rewrite (copy_field_into STATE_FIELDS _ L5 5 (zeros 1)) by done. pose proof (layout_insert _ _ L5 5 (zeros 1) [slot_as_u8 (active_revocation_slot s)] eq_refl eq_refl) as L6.
  destruct (encode_metadata_fields (E := EncodeError) _ 7 19 (trust s) l1 _ _ _ _ _ L6 E1 H1 eq_refl eq_refl eq_refl eq_refl eq_refl eq_refl eq_refl ltac:(lia)) as [M1 L7].
  change (encode_metadata (E := EncodeError) ?b 24 56 TRUST_ETAG_OFFSET ?m) with (encode_metadata (E := EncodeError) b (offset STATE_FIELDS 7) (offset STATE_FIELDS (7 + 4)) (offset STATE_FIELDS 19) m).
  rewrite M1. clear M1.
  destruct (encode_metadata_fields (E := EncodeError) _ 13 20 (revocations s) l2 _ _ _ _ _ L7 E2 H2 eq_refl eq_refl eq_refl eq_refl eq_refl eq_refl eq_refl ltac:(lia)) as [M2 L8].
  change (encode_metadata (E := EncodeError) ?b 64 96 REVOCATION_ETAG_OFFSET ?m) with (encode_metadata (E := EncodeError) b (offset STATE_FIELDS 13) (offset STATE_FIELDS (13 + 4)) (offset STATE_FIELDS 20) m).
  rewrite M2. clear M2. rewrite (slice_fields STATE_FIELDS _ L8 21) by done.
  rewrite (copy_field_into STATE_FIELDS _ L8 21 (zeros 32)) by (done || by rewrite Hsha). reflexivity.
Qed.

(** The tag texts in a record. *)
Definition stored_tag (input : list Z) (length_offset etag_offset : nat) : list Z :=
  take (Z.to_nat (from_le (take 2 (drop length_offset input)))) (take MAX_ETAG_BYTES (drop etag_offset input)).

Lemma take_drop_field ps k p a n : layout STATE_FIELDS ps -> ps !! k = Some p -> a = offset STATE_FIELDS k -> n = List.length p -> take n (drop a (concat ps)) = p.
Proof using.
  intros H Hk -> ->. rewrite (concat_split _ _ _ Hk), <- (concat_take_length _ _ k H). rewrite drop_app_length. apply take_app_length.
Qed.

Lemma decode_panics_only input : Forall is_u8 input -> DatabaseState_decode sha256 input = Panic ->
  lone_quote (stored_tag input 56 TRUST_ETAG_OFFSET) \/ lone_quote (stored_tag input 96 REVOCATION_ETAG_OFFSET).
Proof using.
  intros H8 H. destruct (decide (List.length input = STATE_LEN)) as [Hl|Hl].
  2: { unfold DatabaseState_decode in H. by rewrite (proj2 (Nat.eqb_neq _ _) Hl) in H. }
  destruct (state_fields input Hl) as (p0 & p1 & p2 & p3 & v4 & v5 & p6 & p7 & p8 & p9 & p10 & p11 & p12 & p13 & p14 & p15 & p16 & p17 & p18 & p19 & p20 & p21 & -> & Hps).
  cbv zeta in Hps. set (ps := [p0; p1; p2; p3; [v4]; [v5]; p6; p7; p8; p9; p10; p11; p12; p13; p14; p15; p16; p17; p18; p19; p20; p21]) in *.
  apply concat_bytes in H8. pose proof (decode_fields _ _ _ _ _ _ _ _ _ _ _ _ _ _ _ _ _ _ _ _ _ _ Hps v4 v5 eq_refl eq_refl) as Hd. fold ps in Hd. rewrite Hd in H. clear Hd.
  assert (forall j n p, ps !! j = Some p -> STATE_FIELDS !! j = Some n -> n = List.length p) as Hlen.
  { intros j n p Hj Hn. pose proof (field_length _ _ Hps _ _ Hj) as L. rewrite Hn in L. by injection L. }
  destruct (negb _); [done |]. destruct (negb _); [done |]. destruct (negb _); [done |]. destruct (_ || _); [done |].
  assert (forall v, Slot_decode v <> Panic) as HS by (intros v; unfold Slot_decode; by repeat case_match).
  destruct (Slot_decode v4) eqn:S1; [|done | by apply HS in S1]. destruct (Slot_decode v5) eqn:S2; [|done | by apply HS in S2].
  unfold stored_tag. destruct (decode_metadata _ (offset _ 7) _ _) eqn:T; [|done|].
  2: { left. rewrite (take_drop_field ps 11 p11 56 2), (take_drop_field ps 19 p19 TRUST_ETAG_OFFSET MAX_ETAG_BYTES) by (done || (by apply (Hlen 11%nat)) || (by apply (Hlen 19%nat))).
       by apply (decode_metadata_panics ps Hps H8 7 19 p7 p8 p9 p10 p11 p19). }
  destruct (decode_metadata _ (offset _ 13) _ _) eqn:R; [by destruct (negb _) in H | done |].
  right. rewrite (take_drop_field ps 17 p17 96 2), (take_drop_field ps 20 p20 REVOCATION_ETAG_OFFSET MAX_ETAG_BYTES) by (done || (by apply (Hlen 17%nat)) || (by apply (Hlen 20%nat))).
  by apply (decode_metadata_panics ps Hps H8 13 20 p13 p14 p15 p16 p17 p20).
Qed.

(** C26: the codec of the state record is exact: encoding a well-formed state succeeds with its canonical 392 bytes and leaves
    the rest of the buffer, and a byte string decodes to a state exactly when it is that state's canonical encoding. *)
Theorem state_codec_exact input s : Forall is_u8 input ->
  (DatabaseState_decode sha256 input = Ok s <-> state_ok s /\ input = wire s) /\
  (state_ok s -> (STATE_LEN <= List.length input)%nat -> DatabaseState_encode sha256 s input = Ok (wire s ++ drop STATE_LEN input, Z.of_nat STATE_LEN)).
Proof using Hsha. intros H8. split; [by apply decode_exact | apply encode_Ok]. Qed.

End Wire.

(** ** The panic *)

Definition quote_state (sha256 : list Z -> list Z) : list Z :=
  wire sha256 {| generation := 1; active_trust_slot := SlotA; active_revocation_slot := SlotA;
    trust := {| snapshot_version := 1; generated_at := 0; expires_at := 0; last_checked_at := 0; etag := mk_etag QUOTE |}; revocations := SnapshotMetadata_default |}.

(** C28: [Etag::parse] panics exactly on a lone quotation mark, plain or weak; decoding a state record panics only on a record
    with such a tag, and does so whatever its checksum is. *)
Theorem etag_lone_quote_panics : (forall l, Etag_parse l = Panic <-> lone_quote l) /\
  (forall sha256 input, Forall is_u8 input -> DatabaseState_decode sha256 input = Panic ->
     lone_quote (stored_tag input 56 TRUST_ETAG_OFFSET) \/ lone_quote (stored_tag input 96 REVOCATION_ETAG_OFFSET)) /\
  (forall sha256, DatabaseState_decode sha256 (quote_state (fun _ => zeros 32)) = Panic).
Proof.
  split; [apply Etag_parse_panics |]. split; [apply decode_panics_only |]. intros sha256. unfold DatabaseState_decode. vm_compute. reflexivity.
Qed.

(** A state with a weak tag, written and read back. *)
Definition sample_state : DatabaseState :=
  {| generation := 7; active_trust_slot := SlotB; active_revocation_slot := SlotA;
     trust := {| snapshot_version := 4; generated_at := 100; expires_at := 200; last_checked_at := 150; etag := mk_etag [87; 47; 34; 97; 34] |};
     revocations := SnapshotMetadata_default |}.

Lemma sample_state_ok : state_ok sample_state.
Proof.
  split; [cbn; widths; lia |]. split; (split_and!; [cbn; widths; lia.. |]).
  - exists [87; 47; 34; 97; 34]. split; [split; [unfold MAX_ETAG_BYTES; cbn; lia |] | done]. right. exists WEAK_QUOTE, [97]. split_and!; [done | by right | by repeat constructor].
  - exists []. split; [split; [unfold MAX_ETAG_BYTES; cbn; lia | by left] | done].
Qed.

Lemma state_codec_exact_witness : let b := wire (fun _ => zeros 32) sample_state in
  DatabaseState_decode (fun _ => zeros 32) b = Ok sample_state /\ DatabaseState_encode (fun _ => zeros 32) sample_state b = Ok (b ++ [], 392).
Proof.
  pose proof (state_codec_exact (fun _ => zeros 32) (fun _ => eq_refl) (wire (fun _ => zeros 32) sample_state) sample_state) as H.
  destruct H as [H1 H2]; [apply (bool_decide_eq_true_1 (Forall is_u8 _)); vm_compute; reflexivity |].
  split; [apply H1; split; [exact sample_state_ok | reflexivity] | exact (H2 sample_state_ok ltac:(vm_compute; lia))].
Defined.
