(* ===== verification/CertStorage.v ===== *)
(** * The two-slot storage of the certificate database ([certificate-database/src/storage.rs])

    Each kind of snapshot has two slots; the state record says which is current.  A new snapshot is written to the other
    slot, read back, and only then does the state record switch over. *)

From Stdlib Require Import String.
From S2P Require Import Prelude Text Fields CertDatabase.

(** ** The code *)

Definition DATABASE_DIRECTORY : string := "/var/lib/certificate".
Definition STATE_PATH : string := "/var/lib/certificate/state.bin".
Definition TRUST_A_PATH : string := "/var/lib/certificate/trust-a.json".
Definition TRUST_B_PATH : string := "/var/lib/certificate/trust-b.json".
Definition REVOCATIONS_A_PATH : string := "/var/lib/certificate/revocations-a.json".
Definition REVOCATIONS_B_PATH : string := "/var/lib/certificate/revocations-b.json".

Inductive SnapshotKind : Type := Trust | Revocations.
#[export] Instance SnapshotKind_eq_dec : EqDecision SnapshotKind.
Proof. solve_decision. Defined.

Record ValidatedSnapshot : Type := { vs_version : Z; vs_generated_at : Z; vs_expires_at : Z }.
#[export] Instance ValidatedSnapshot_eq_dec : EqDecision ValidatedSnapshot.
Proof. solve_decision. Defined.

Inductive StorageError : Type :=
  | Backend
  | InvalidSnapshot
  | SnapshotRollback
  | WriteBackMismatch
  | StateEncoding
  | GenerationOverflow.

(** The traits of the caller. *)
Class StorageBackend (B : Type) : Type := {
  read : B -> string -> result StorageError (option (list Z)) * B;
  write_sync : B -> string -> list Z -> result StorageError unit * B }.

Class SnapshotValidator (V : Type) : Type := {
  validate : V -> SnapshotKind -> list Z -> result StorageError ValidatedSnapshot * V;
  activate : V -> SnapshotKind -> list Z -> result StorageError unit * V }.

Record LoadedDatabase : Type := {
  ld_state : DatabaseState;
  ld_trust : option (list Z);
  ld_revocations : option (list Z);
  recovered : bool }.

Record Candidate : Type := { cd_slot : Slot; cd_metadata : ValidatedSnapshot; cd_bytes : list Z }.

Definition metadata_matches (stored : SnapshotMetadata) (validated : ValidatedSnapshot) : bool :=
  (snapshot_version stored =? vs_version validated) && (generated_at stored =? vs_generated_at validated)
  && (expires_at stored =? vs_expires_at validated).

Definition active_slot (state : DatabaseState) (kind : SnapshotKind) : Slot :=
  match kind with Trust => active_trust_slot state | Revocations => active_revocation_slot state end.
Definition metadata (state : DatabaseState) (kind : SnapshotKind) : SnapshotMetadata :=
  match kind with Trust => trust state | Revocations => revocations state end.

(** Assignments through [active_slot_mut] and [metadata_mut]. *)
Definition set_active_slot (state : DatabaseState) (kind : SnapshotKind) (slot : Slot) : DatabaseState :=
  match kind with
  | Trust => {| generation := generation state; active_trust_slot := slot; active_revocation_slot := active_revocation_slot state;
                trust := trust state; revocations := revocations state |}
  | Revocations => {| generation := generation state; active_trust_slot := active_trust_slot state; active_revocation_slot := slot;
                      trust := trust state; revocations := revocations state |}
  end.
Definition set_metadata (state : DatabaseState) (kind : SnapshotKind) (m : SnapshotMetadata) : DatabaseState :=
  match kind with
  | Trust => {| generation := generation state; active_trust_slot := active_trust_slot state;
                active_revocation_slot := active_revocation_slot state; trust := m; revocations := revocations state |}
  | Revocations => {| generation := generation state; active_trust_slot := active_trust_slot state;
                      active_revocation_slot := active_revocation_slot state; trust := trust state; revocations := m |}
  end.
Definition set_generation (state : DatabaseState) (g : Z) : DatabaseState :=
  {| generation := g; active_trust_slot := active_trust_slot state; active_revocation_slot := active_revocation_slot state;
     trust := trust state; revocations := revocations state |}.

Definition slot_path (kind : SnapshotKind) (slot : Slot) : string :=
  match kind, slot with
  | Trust, SlotA => TRUST_A_PATH
  | Trust, SlotB => TRUST_B_PATH
  | Revocations, SlotA => REVOCATIONS_A_PATH
  | Revocations, SlotB => REVOCATIONS_B_PATH
  end.

Definition newest (first second : option Candidate) : option Candidate :=
  match first, second with
  | Some f, Some s =>
      let fm := cd_metadata f in let sm := cd_metadata s in
      if (vs_version fm <? vs_version sm) || ((vs_version fm =? vs_version sm) && (vs_generated_at fm <? vs_generated_at sm))
      then Some s else Some f
  | Some c, None | None, Some c => Some c
  | None, None => None
  end.

Definition apply_loaded (state : DatabaseState) (kind : SnapshotKind) (candidate : option Candidate) : DatabaseState * bool :=
  let old_slot := active_slot state kind in
  let old_metadata := metadata state kind in
  let '(slot, next_metadata) :=
    match candidate with
    | Some c =>
        let v := cd_metadata c in
        let m := {| snapshot_version := vs_version v; generated_at := vs_generated_at v; expires_at := vs_expires_at v;
                    last_checked_at := 0; etag := Etag_none |} in
        let m := if metadata_matches old_metadata v
                 then {| snapshot_version := snapshot_version m; generated_at := generated_at m; expires_at := expires_at m;
                         last_checked_at := last_checked_at old_metadata; etag := etag old_metadata |}
                 else m in
        (cd_slot c, m)
    | None => (SlotA, SnapshotMetadata_default)
    end in
  (set_metadata (set_active_slot state kind slot) kind next_metadata,
   negb (bool_decide (old_slot = slot)) || negb (bool_decide (old_metadata = next_metadata))).

Definition checked_generation (state : DatabaseState) : result StorageError Z :=
  if generation state + 1 <=? U64_MAX then Ok (generation state + 1) else Err GenerationOverflow.

Section Storage.
Context (sha256 : list Z -> list Z) {B V : Type} `{StorageBackend B} `{SnapshotValidator V}.

(** Computations with a backend and a validator. *)
Definition M (A : Type) : Type := B * V -> result StorageError A * (B * V).
Definition ret {A} (a : A) : M A := fun s => (Ok a, s).
Definition lift {A} (r : result StorageError A) : M A := fun s => (r, s).
Definition bind {A C} (m : M A) (k : A -> M C) : M C := fun s =>
  match m s with (Ok a, s) => k a s | (Err e, s) => (Err e, s) | (Panic, s) => (Panic, s) end.
Local Notation "'let*' x := m 'in' k" := (bind m (fun x => k)) (at level 10, x name, m at level 100, k at level 200).

Definition backend_read (path : string) : M (option (list Z)) := fun s => let '(r, b) := read (fst s) path in (r, (b, snd s)).
Definition backend_write (path : string) (bytes : list Z) : M unit := fun s => let '(r, b) := write_sync (fst s) path bytes in (r, (b, snd s)).
Definition validator_validate (kind : SnapshotKind) (bytes : list Z) : M ValidatedSnapshot := fun s =>
  let '(r, v) := validate (snd s) kind bytes in (r, (fst s, v)).
Definition validator_activate (kind : SnapshotKind) (bytes : list Z) : M unit := fun s =>
  let '(r, v) := activate (snd s) kind bytes in (r, (fst s, v)).

Definition write_state (state : DatabaseState) : M unit :=
  let* encoded := lift (match DatabaseState_encode sha256 state (zeros STATE_LEN) with
                        | Ok (b, _) => Ok b | Err _ => Err StateEncoding | Panic => Panic end) in
  backend_write STATE_PATH encoded.

Definition load_candidate (kind : SnapshotKind) (slot : Slot) : M (option Candidate) :=
  let* found := backend_read (slot_path kind slot) in
  match found with
  | None => ret None
  | Some bytes => fun s =>
      match validator_validate kind bytes s with
      | (Ok m, s) => (Ok (Some {| cd_slot := slot; cd_metadata := m; cd_bytes := bytes |}), s)
      | (Err _, s) => (Ok None, s)
      | (Panic, s) => (Panic, s)
      end
  end.

Definition current (state : option DatabaseState) (kind : SnapshotKind) (candidate : option Candidate) : bool :=
  match state, candidate with Some st, Some c => metadata_matches (metadata st kind) (cd_metadata c) | _, _ => false end.

Definition load_kind (kind : SnapshotKind) (state : option DatabaseState) : M (option Candidate) :=
  let first := match state with Some st => active_slot st kind | None => SlotA end in
  let* first_candidate := load_candidate kind first in
  if current state kind first_candidate then ret first_candidate else
  let* second_candidate := load_candidate kind (inactive first) in
  ret (newest first_candidate second_candidate).

Definition activate_candidate (kind : SnapshotKind) (c : option Candidate) : M unit :=
  match c with Some c => validator_activate kind (cd_bytes c) | None => ret tt end.

Definition load_database_inner (repair_state : bool) : M LoadedDatabase :=
  let* found := backend_read STATE_PATH in
  let* stored_state := lift (match found with
                             | Some bytes => match DatabaseState_decode sha256 bytes with
                                             | Ok s => Ok (Some s) | Err _ => Ok None | Panic => Panic end
                             | None => Ok None
                             end) in
  let state := default DatabaseState_default stored_state in
  let* trust := load_kind Trust stored_state in
  let* _ := activate_candidate Trust trust in
  let* revocations := load_kind Revocations stored_state in
  let* _ := activate_candidate Revocations revocations in
  let recovered := bool_decide (stored_state = None) in
  let '(state, changed_trust) := apply_loaded state Trust trust in
  let '(state, changed_revocations) := apply_loaded state Revocations revocations in
  let recovered := recovered || changed_trust || changed_revocations in
  let* state := (if recovered && repair_state then
                   let* g := lift (checked_generation state) in
                   let state := set_generation state g in
                   let* _ := write_state state in ret state
                 else ret state) in
  ret {| ld_state := state; ld_trust := cd_bytes <$> trust; ld_revocations := cd_bytes <$> revocations; recovered := recovered |}.

Definition load_database : M LoadedDatabase := load_database_inner true.
Definition load_database_read_only : M LoadedDatabase := load_database_inner false.

(** The new state is assigned to [*state] when the result is [Ok]. *)
Definition persist_snapshot (state : DatabaseState) (kind : SnapshotKind) (bytes : list Z) (tag : Etag) (last_checked : Z) : M (Slot * DatabaseState) :=
  let* validated := validator_validate kind bytes in
  let version := snapshot_version (metadata state kind) in
  if negb (version =? 0) && (vs_version validated <=? version) then lift (Err SnapshotRollback) else
  let target := inactive (active_slot state kind) in
  let path := slot_path kind target in
  let* _ := backend_write path bytes in
  let* found := backend_read path in
  let* written := lift (ok_or found WriteBackMismatch) in
  if negb (bool_decide (written = bytes)) then lift (Err WriteBackMismatch) else
  let* written_metadata := validator_validate kind written in
  if negb (bool_decide (written_metadata = validated)) then lift (Err WriteBackMismatch) else
  let* next_generation := lift (checked_generation state) in
  let next := set_generation state next_generation in
  let next := set_active_slot next kind target in
  let next := set_metadata next kind
    {| snapshot_version := vs_version validated; generated_at := vs_generated_at validated; expires_at := vs_expires_at validated;
       last_checked_at := last_checked; etag := tag |} in
  let* _ := write_state next in
  ret (target, next).

Definition mark_checked (state : DatabaseState) (kind : SnapshotKind) (last_checked : Z) : M DatabaseState :=
  if snapshot_version (metadata state kind) =? 0 then lift (Err InvalidSnapshot) else
  let* g := lift (checked_generation state) in
  let next := set_generation state g in
  let m := metadata next kind in
  let next := set_metadata next kind
    {| snapshot_version := snapshot_version m; generated_at := generated_at m; expires_at := expires_at m; last_checked_at := last_checked; etag := etag m |} in
  let* _ := write_state next in
  ret next.

End Storage.
