(* ===== verification/CertCrash.v ===== *)
(** * The certificate database never goes back to an older snapshot

    What the storage asks of a disk and of a validator, as interfaces; a weakest precondition for its computations; and the
    invariant that torn writes, failing reads and restarts preserve. *)

From Stdlib Require Import String.
From S2P Require Import Prelude Text Fields CertDatabase CertCodec CertStorage.

(** ** The interfaces *)

(** A disk: a read changes no file and answers with the contents or an error; a write touches one file, and one that fails
    leaves the old contents or a prefix of the new ones. *)
Class DiskLaws (B : Type) `{StorageBackend B} : Type := {
  file : B -> string -> option (list Z);
  read_keeps b p q : file (snd (read b p)) q = file b q;
  read_answer b p : match fst (read b p) with Ok found => found = file b p | Err _ => True | Panic => False end;
  write_others b p x q : q <> p -> file (snd (write_sync b p x)) q = file b q;
  write_answer b p x : let after := file (snd (write_sync b p x)) p in
    match fst (write_sync b p x) with
    | Ok _ => after = Some x
    | Err _ => after = file b p \/ exists n, after = Some (take n x)
    | Panic => False
    end }.

(** A validator: it answers with 64-bit fields; on a stable kind the verdict is a function of the bytes, and no proper prefix
    of a valid snapshot is valid. *)
Class ValidatorLaws (V : Type) `{SnapshotValidator V} : Type := {
  stable : SnapshotKind -> Prop;
  judge : SnapshotKind -> list Z -> result StorageError ValidatedSnapshot;
  validate_answer v k b : match fst (validate v k b) with
    | Ok m => is_u64 (vs_version m) /\ is_u64 (vs_generated_at m) /\ is_u64 (vs_expires_at m) | Err _ => True | Panic => False end;
  validate_stable v k b : stable k -> fst (validate v k b) = judge k b;
  judge_prefix k b m m' n : stable k -> judge k b = Ok m -> judge k (take n b) = Ok m' -> take n b = b;
  activate_answer v k b : fst (activate v k b) <> Panic }.

(** ** Operations in sequence *)

Inductive op : Type :=
  | OpLoad (repair_state : bool)
  | OpPersist (kind : SnapshotKind) (bytes tag : list Z) (last_checked_at : Z)
  | OpMark (kind : SnapshotKind) (last_checked_at : Z)
  | OpRestart.

(** The arguments have the types of the code: a tag that [Etag::parse] accepts and a 64-bit time. *)
Definition op_ok (o : op) : Prop :=
  match o with
  | OpPersist _ _ tag t => tag_ok tag /\ is_u64 t
  | OpMark _ t => is_u64 t
  | _ => True
  end.

Inductive outcome : Type :=
  | Loaded (ld : LoadedDatabase)
  | Persisted (kind : SnapshotKind) (state : DatabaseState)
  | Marked
  | Restarted
  | Refused
  | Panicked.

Definition snapshot_of (ld : LoadedDatabase) (k : SnapshotKind) : option (list Z) :=
  match k with Trust => ld_trust ld | Revocations => ld_revocations ld end.

(** The version of a snapshot the caller was given, or was told to be stored. *)
Definition delivered (o : outcome) (k : SnapshotKind) : option Z :=
  match o with
  | Loaded ld => if bool_decide (snapshot_of ld k = None) then None else Some (snapshot_version (metadata (ld_state ld) k))
  | Persisted kind st => if bool_decide (kind = k) then Some (snapshot_version (metadata st k)) else None
  | _ => None
  end.

Section System.
Context (sha256 : list Z -> list Z) {B V : Type} `{StorageBackend B} `{SnapshotValidator V}.

(** The disk, the validator and the state the running process holds, if it has loaded one. *)
Record system : Type := { sy_disk : B; sy_validator : V; sy_state : option DatabaseState }.

Definition answer {A} (y : system) (r : result StorageError A * (B * V)) (k : A -> outcome * option DatabaseState) : outcome * system :=
  let '(r, (b, v)) := r in
  let '(o, st) := match r with Ok a => k a | Err _ => (Refused, sy_state y) | Panic => (Panicked, None) end in
  (o, {| sy_disk := b; sy_validator := v; sy_state := st |}).

Definition perform (y : system) (o : op) : outcome * system :=
  let s := (sy_disk y, sy_validator y) in
  match o, sy_state y with
  | OpLoad repair, _ => answer y (load_database_inner sha256 repair s) (fun ld => (Loaded ld, Some (ld_state ld)))
  | OpPersist k b tag t, Some st =>
      answer y (persist_snapshot sha256 st k b (mk_etag tag) t s) (fun r => (Persisted k (snd r), Some (snd r)))
  | OpMark k t, Some st => answer y (mark_checked sha256 st k t s) (fun st' => (Marked, Some st'))
  | OpRestart, _ => (Restarted, {| sy_disk := sy_disk y; sy_validator := sy_validator y; sy_state := None |})
  | _, None => (Refused, y)
  end.

Fixpoint perform_all (y : system) (os : list op) : list outcome * system :=
  match os with
  | [] => ([], y)
  | o :: os => let '(r, y) := perform y o in let '(rs, y) := perform_all y os in (r :: rs, y)
  end.

End System.
Arguments system : clear implicits.

(** ** Weakest preconditions *)

Section Logic.
Context {B V : Type} `{StorageBackend B} `{SnapshotValidator V}.

Definition wp {A} (m : M (B := B) (V := V) A) (Q : A -> B * V -> Prop) (E : B * V -> Prop) (s : B * V) : Prop :=
  match m s with (Ok a, s') => Q a s' | (Err _, s') => E s' | (Panic, _) => False end.

Lemma wp_bind {A C} (m : M A) (k : A -> M C) Q E s : wp m (fun a s' => wp (k a) Q E s') E s -> wp (bind m k) Q E s.
Proof. unfold wp, bind. destruct (m s) as [[a|e|] s']; done. Qed.

Lemma wp_ret {A} (a : A) Q E s : Q a s -> wp (ret a) Q E s.
Proof. done. Qed.

Lemma wp_mono {A} (m : M A) (Q Q' : A -> B * V -> Prop) (E E' : B * V -> Prop) s : wp m Q E s -> (forall a s', Q a s' -> Q' a s') -> (forall s', E s' -> E' s') -> wp m Q' E' s.
Proof. unfold wp. destruct (m s) as [[a|e|] s']; naive_solver. Qed.

Lemma wp_lift {A} (r : result StorageError A) Q E s : match r with Ok a => Q a s | Err _ => E s | Panic => False end -> wp (lift r) Q E s.
Proof. unfold wp, lift. by destruct r. Qed.

Context `{!DiskLaws B} `{!ValidatorLaws V}.

(** What the files are, over a state of the computation. *)
Definition view (s : B * V) : string -> option (list Z) := file (fst s).
Definition same_files (s s' : B * V) : Prop := forall p, view s' p = view s p.

Lemma wp_read p Q E s : (forall s', same_files s s' -> Q (view s p) s') -> (forall s', same_files s s' -> E s') -> wp (backend_read p) Q E s.
Proof.
  intros HQ HE. unfold wp, backend_read. pose proof (read_answer (fst s) p) as Ha. pose proof (read_keeps (fst s) p) as Hk.
  destruct (read (fst s) p) as [[found|e|] b]; cbn in *; [subst found; by apply HQ | by apply HE | done].
Qed.

(** A write as a relation on files. *)
Definition written (p : string) (x : list Z) (s s' : B * V) : Prop := (forall q, q <> p -> view s' q = view s q) /\ view s' p = Some x.
Definition torn (p : string) (x : list Z) (s s' : B * V) : Prop :=
  (forall q, q <> p -> view s' q = view s q) /\ (view s' p = view s p \/ exists n, view s' p = Some (take n x)).

Lemma wp_write p x Q E s : (forall s', written p x s s' -> Q tt s') -> (forall s', torn p x s s' -> E s') -> wp (backend_write p x) Q E s.
Proof.
  intros HQ HE. unfold wp, backend_write. pose proof (write_answer (fst s) p x) as Ha. pose proof (write_others (fst s) p x) as Hk.
  destruct (write_sync (fst s) p x) as [[[]|e|] b]; cbn in *; [by apply HQ | by apply HE | done].
Qed.

Lemma written_torn p x s s' : written p x s s' -> torn p x s s'.
Proof. intros [Ho Hp]. split; [done |]. right. exists (List.length x). by rewrite firstn_all. Qed.

Definition vs_ok (m : ValidatedSnapshot) : Prop := is_u64 (vs_version m) /\ is_u64 (vs_generated_at m) /\ is_u64 (vs_expires_at m).

Lemma wp_validate k b Q E s :
  (forall m s', same_files s s' -> vs_ok m -> (stable k -> judge k b = Ok m) -> Q m s') -> (forall s', same_files s s' -> E s') -> wp (validator_validate k b) Q E s.
Proof.
  intros HQ HE. unfold wp, validator_validate. pose proof (validate_answer (snd s) k b) as Ha. pose proof (validate_stable (snd s) k b) as Hs.
  destruct (validate (snd s) k b) as [[m|e|] v]; cbn in *; [apply HQ; [done | done | intros Hk; by rewrite <- Hs] | by apply HE | done].
Qed.

Lemma wp_activate k b Q E s : (forall s', same_files s s' -> Q tt s') -> (forall s', same_files s s' -> E s') -> wp (validator_activate k b) Q E s.
Proof.
  intros HQ HE. unfold wp, validator_activate. pose proof (activate_answer (snd s) k b) as Ha.
  destruct (activate (snd s) k b) as [[[]|e|] v]; cbn in *; [by apply HQ | by apply HE | done].
Qed.

(** ** Which snapshot a load finds *)

Definition cand (fs : string -> option (list Z)) (k : SnapshotKind) (slot : Slot) : option Candidate :=
  match fs (slot_path k slot) with
  | Some b => match judge k b with Ok m => Some {| cd_slot := slot; cd_metadata := m; cd_bytes := b |} | _ => None end
  | None => None
  end.

Definition pick (fs : string -> option (list Z)) (k : SnapshotKind) (state : option DatabaseState) : option Candidate :=
  let first := match state with Some st => active_slot st k | None => SlotA end in
  if current state k (cand fs k first) then cand fs k first else newest (cand fs k first) (cand fs k (inactive first)).

Lemma cand_ext fs fs' k slot : fs' (slot_path k slot) = fs (slot_path k slot) -> cand fs' k slot = cand fs k slot.
Proof. unfold cand. by intros ->. Qed.

Lemma pick_ext fs fs' k st : (forall slot, fs' (slot_path k slot) = fs (slot_path k slot)) -> pick fs' k st = pick fs k st.
Proof. intros Hf. unfold pick. by rewrite !(cand_ext fs fs') by apply Hf. Qed.

Definition cand_ok (k : SnapshotKind) (slots : Slot -> Prop) (oc : option Candidate) : Prop :=
  match oc with Some c => vs_ok (cd_metadata c) /\ slots (cd_slot c) | None => True end.

Lemma same_files_trans s1 s2 s3 : same_files s1 s2 -> same_files s2 s3 -> same_files s1 s3.
Proof. intros H1 H2 p. by rewrite H2, H1. Qed.

Lemma wp_load_candidate k slot Q E s :
  (forall oc s', same_files s s' -> cand_ok k (eq slot) oc -> (stable k -> oc = cand (view s) k slot) -> Q oc s') -> (forall s', same_files s s' -> E s') ->
  wp (load_candidate k slot) Q E s.
Proof.
  intros HQ HE. unfold load_candidate. apply wp_bind, wp_read; [| done]. intros s' Hs'. unfold cand in HQ.
  destruct (view s (slot_path k slot)) as [b|]; [| by apply HQ]. unfold wp, validator_validate.
  pose proof (validate_answer (snd s') k b) as Ha. pose proof (validate_stable (snd s') k b) as Hj.
  destruct (validate (snd s') k b) as [[m|e|] v]; cbn in *; [| | done]; (apply HQ; [exact Hs' | done | intros Hk; by rewrite <- Hj]).
Qed.

Lemma newest_ok k slots a b : cand_ok k slots a -> cand_ok k slots b -> cand_ok k slots (newest a b).
Proof. destruct a as [a|], b as [b|]; cbn; [case_match | | |]; done. Qed.

Lemma cand_ok_mono k (P P' : Slot -> Prop) oc : cand_ok k P oc -> (forall x, P x -> P' x) -> cand_ok k P' oc.
Proof. destruct oc; cbn; naive_solver. Qed.

Lemma wp_load_kind k st Q E s :
  (forall oc s', same_files s s' -> cand_ok k (fun _ => True) oc -> (stable k -> oc = pick (view s) k st) -> Q oc s') -> (forall s', same_files s s' -> E s') ->
  wp (load_kind k st) Q E s.
Proof.
  intros HQ HE. unfold load_kind. set (first := match st with Some st => active_slot st k | None => SlotA end).
  apply wp_bind, wp_load_candidate; [| done]. intros c1 s1 H1 O1 E1. destruct (current st k c1) eqn:Hc.
  { apply wp_ret, HQ; [done | by eapply cand_ok_mono |]. intros Hk. unfold pick. fold first. by rewrite <- E1, Hc. }
  apply wp_bind, wp_load_candidate; [| intros s' Hs'; apply HE; by eapply same_files_trans]. intros c2 s2 H2 O2 E2.
  apply wp_ret, HQ; [by eapply same_files_trans | apply newest_ok; by eapply cand_ok_mono |]. intros Hk. unfold pick. fold first.
  rewrite <- E1, Hc, E2 by done. f_equal. apply cand_ext. apply H1.
Qed.

(** ** A floor on versions *)

Definition at_least (f : Z) (oc : option Candidate) : Prop := match oc with Some c => f <= vs_version (cd_metadata c) | None => False end.

Lemma newest_at_least f a b : at_least f a \/ at_least f b -> at_least f (newest a b).
Proof.
  destruct a as [a|], b as [b|]; cbn; try naive_solver. case_match eqn:C; cbn; bool_cases; lia.
Qed.

Lemma newest_cases a b : newest a b = a \/ newest a b = b.
Proof. destruct a as [a|], b as [b|]; cbn; [case_match | | |]; auto. Qed.

Lemma pick_cases fs k st : exists slot, pick fs k st = cand fs k slot.
Proof. unfold pick. case_match; [by eexists |]. destruct (newest_cases (cand fs k (match st with Some st => active_slot st k | None => SlotA end)) (cand fs k (inactive (match st with Some st => active_slot st k | None => SlotA end)))) as [->| ->]; by eexists. Qed.

(** The two slots are the only ones. *)
Lemma newest_slot_at_least f fs k first slot : at_least f (cand fs k slot) -> at_least f (newest (cand fs k first) (cand fs k (inactive first))).
Proof. intros Hf. apply newest_at_least. destruct first, slot; auto. Qed.

(** A state record that names a slot with the right metadata, or no state record at all, finds what the slots hold. *)
Lemma pick_named f fs k st : at_least f (cand fs k (active_slot st k)) -> current (Some st) k (cand fs k (active_slot st k)) = true -> at_least f (pick fs k (Some st)).
Proof. unfold pick. intros Hf ->. done. Qed.

Lemma pick_none f fs k st : at_least f (pick fs k st) -> at_least f (pick fs k None).
Proof. destruct (pick_cases fs k st) as [slot ->]. intros Hf. unfold pick. cbn [current]. by eapply newest_slot_at_least. Qed.

(** The slot beside one that reaches the floor may be rewritten by anything that reaches it too, or be destroyed. *)
Lemma pick_overwrite f fs fs' k st slot : at_least f (pick fs k st) -> at_least f (cand fs k slot) ->
  fs' (slot_path k slot) = fs (slot_path k slot) ->
  cand fs' k (inactive slot) = cand fs k (inactive slot) \/ cand fs' k (inactive slot) = None \/ at_least f (cand fs' k (inactive slot)) ->
  at_least f (pick fs' k st).
Proof.
  intros Hp Hs Hsame Hnew. pose proof (cand_ext fs fs' k slot Hsame) as Hc.
  destruct Hnew as [Heq|Hnew]; [assert (forall x, cand fs' k x = cand fs k x) as Hall by (intros []; destruct slot; done); unfold pick in *; by rewrite !Hall |].
  unfold pick in *. set (first := match st with Some st => active_slot st k | None => SlotA end) in *.
  destruct (decide (first = slot)) as [->|Hne].
  - rewrite Hc. destruct (current st k (cand fs k slot)) eqn:C; [done |]. rewrite <- Hc. apply (newest_slot_at_least f fs' k slot slot). by rewrite Hc.
  - assert (first = inactive slot) as -> by (destruct first, slot; done).
    destruct (current st k (cand fs' k (inactive slot))) eqn:C.
    + destruct Hnew as [Hnone|Hnew]; [| done]. rewrite Hnone in C. by destruct st.
    + apply (newest_slot_at_least f fs' k (inactive slot) slot). by rewrite Hc.
Qed.

End Logic.

(** ** State records *)

Lemma set_active_slot_same st k x : active_slot (set_active_slot st k x) k = x.
Proof. by destruct k. Qed.
Lemma metadata_set_active_slot st k x k' : metadata (set_active_slot st k x) k' = metadata st k'.
Proof. by destruct k, k'. Qed.
Lemma set_metadata_same st k m : metadata (set_metadata st k m) k = m.
Proof. by destruct k. Qed.
Lemma active_set_metadata st k m k' : active_slot (set_metadata st k m) k' = active_slot st k'.
Proof. by destruct k, k'. Qed.
Lemma set_other st k k' x m : k' <> k ->
  active_slot (set_metadata (set_active_slot st k x) k m) k' = active_slot st k' /\ metadata (set_metadata (set_active_slot st k x) k m) k' = metadata st k'.
Proof. by destruct k, k'. Qed.
Lemma active_set_generation st g k : active_slot (set_generation st g) k = active_slot st k.
Proof. by destruct k. Qed.
Lemma metadata_set_generation st g k : metadata (set_generation st g) k = metadata st k.
Proof. by destruct k. Qed.
Lemma set_metadata_other st k k' m : k' <> k -> metadata (set_metadata st k m) k' = metadata st k'.
Proof. by destruct k, k'. Qed.

Lemma state_ok_meta st k : state_ok st -> meta_ok (metadata st k).
Proof. intros (_ & H1 & H2). by destruct k. Qed.
Lemma state_ok_set st k x m : state_ok st -> meta_ok m -> state_ok (set_metadata (set_active_slot st k x) k m).
Proof. intros (H0 & H1 & H2) Hm. by destruct k. Qed.
Lemma state_ok_set_metadata st k m : state_ok st -> meta_ok m -> state_ok (set_metadata st k m).
Proof. intros (H0 & H1 & H2) Hm. by destruct k. Qed.
Lemma state_ok_generation st g : state_ok st -> checked_generation st = Ok g -> state_ok (set_generation st g).
Proof.
  intros (H0 & H1 & H2). unfold checked_generation. destruct (Z.leb_spec (generation st + 1) U64_MAX); [| done]. intros [= <-]. split_and!; [| done..].
  cbn. widths. lia.
Qed.

Lemma checked_generation_no_panic st : checked_generation st <> Panic.
Proof. unfold checked_generation. by destruct (_ <=? _). Qed.

Lemma tag_ok_nil : tag_ok [].
Proof. split; [cbn; lia | by left]. Qed.

Lemma meta_ok_default : meta_ok SnapshotMetadata_default.
Proof. split_and!; [cbn; widths; lia.. |]. exists []. split; [apply tag_ok_nil | done]. Qed.
Lemma state_ok_default : state_ok DatabaseState_default.
Proof. split; [cbn; widths; lia | split; apply meta_ok_default]. Qed.

Lemma apply_loaded_state st k oc : exists m, fst (apply_loaded st k oc) = set_metadata (set_active_slot st k (match oc with Some c => cd_slot c | None => SlotA end)) k m /\
  (state_ok st -> cand_ok k (fun _ => True) oc -> meta_ok m) /\
  match oc with Some c => metadata_matches m (cd_metadata c) = true | None => m = SnapshotMetadata_default end.
Proof.
  unfold apply_loaded. destruct oc as [c|]; [| exists SnapshotMetadata_default; split_and!; [done | by intros; apply meta_ok_default | done]].
  eexists. split; [reflexivity |]. split.
  - intros Hst [(H1 & H2 & H3) _]. destruct (state_ok_meta st k Hst) as (_ & _ & _ & M1 & M2). destruct (metadata_matches (metadata st k) (cd_metadata c)); cbn;
      (split_and!; cbn; [done.. | by (done || (widths; lia)) |]); [done | exists []; split; [apply tag_ok_nil | done]].
  - destruct (metadata_matches (metadata st k) (cd_metadata c)); unfold metadata_matches; cbn; by rewrite !Z.eqb_refl.
Qed.

(** ** The invariant *)

Section Invariant.
Context (sha256 : list Z -> list Z) (Hsha : forall x, List.length (sha256 x) = CHECKSUM_LEN) (Hsha8 : forall x, Forall is_u8 (sha256 x)).
Context {B V : Type} `{StorageBackend B} `{SnapshotValidator V} `{!DiskLaws B} `{!ValidatorLaws V}.
Implicit Types (s : B * V) (fs : string -> option (list Z)).

(** The state record on the disk, when it can be read. *)
Definition stored fs : option DatabaseState :=
  match fs STATE_PATH with Some b => match DatabaseState_decode sha256 b with Ok st => Some st | _ => None end | None => None end.
(** A state file holds bytes whose decoding does not panic. *)
Definition disk_ok fs : Prop := forall b, fs STATE_PATH = Some b -> Forall is_u8 b /\ DatabaseState_decode sha256 b <> Panic.

Lemma stored_state_ok fs st : disk_ok fs -> stored fs = Some st -> state_ok st.
Proof using Hsha.
  unfold stored. intros Hd. destruct (fs STATE_PATH) as [b|] eqn:Hb; [| done]. destruct (Hd b Hb) as [H8 _]. case_match eqn:D; [| done | done].
  intros [= <-]. by apply (decode_exact sha256 Hsha b) in D as [? _].
Qed.

Lemma wire_u8 st : state_ok st -> Forall is_u8 (wire sha256 st).
Proof using Hsha8.
  intros (_ & (_ & _ & _ & _ & l1 & T1 & E1) & (_ & _ & _ & _ & l2 & T2 & E2)). unfold wire, head_fields. rewrite E1, E2.
  assert (forall l, tag_ok l -> Forall is_u8 (et_bytes (mk_etag l))) as Ht.
  { intros l [_ Hl]. cbn. apply Forall_app. split; [| apply zeros_u8]. destruct Hl as [->|(w & o & -> & Hw & Ho)]; [done |].
    rewrite !Forall_app. split_and!; [destruct Hw as [->| ->]; repeat constructor; widths; lia | | repeat constructor; widths; lia].
    eapply Forall_impl; [exact Ho |]. intros b [Hb _]%etag_byte_range. widths. lia. }
  apply concat_bytes. apply Forall_app. split; [| by repeat constructor].
  assert (forall x, is_u8 (slot_as_u8 x)) as Hslot by (intros []; cbn; widths; lia).
  rewrite !Forall_cons. split_and!; solve [apply to_le_bytes | apply zeros_u8 | by apply Ht | apply Hslot | done].
Qed.

Lemma wire_length st : state_ok st -> List.length (wire sha256 st) = STATE_LEN.
Proof using Hsha. intros Hst. unfold wire. by rewrite (layout_length _ _ (wire_layout sha256 Hsha st Hst)). Qed.

(** A prefix of a record is the record or too short. *)
Lemma decode_prefix st n : state_ok st -> let b := take n (wire sha256 st) in
  Forall is_u8 b /\ (DatabaseState_decode sha256 b = Ok st \/ exists e, DatabaseState_decode sha256 b = Err e).
Proof using Hsha Hsha8.
  intros Hst b. assert (Forall is_u8 b) as H8 by (apply Forall_take; by apply wire_u8). split; [done |].
  destruct (decide (List.length b = STATE_LEN)) as [Hl|Hl].
  - left. apply (decode_exact sha256 Hsha b st H8). split; [done |]. unfold b in *. apply take_ge. rewrite length_take, wire_length in Hl by done. rewrite wire_length by done. lia.
  - right. unfold DatabaseState_decode. rewrite (proj2 (Nat.eqb_neq _ _) Hl). by eexists.
Qed.

(** The state file after a write of [st], complete or torn; the slots are as before. *)
Definition same_slots s s' : Prop := forall k slot, view s' (slot_path k slot) = view s (slot_path k slot).
Definition state_torn (st : DatabaseState) s s' : Prop :=
  same_slots s s' /\ disk_ok (view s') /\ (stored (view s') = stored (view s) \/ stored (view s') = None \/ stored (view s') = Some st).

Lemma slot_not_state k slot : slot_path k slot <> STATE_PATH.
Proof using. by destruct k, slot. Qed.

Lemma wp_write_state st Q E s : state_ok st -> disk_ok (view s) ->
  (forall s', state_torn st s s' -> stored (view s') = Some st -> Q tt s') -> (forall s', state_torn st s s' -> E s') -> wp (write_state sha256 st) Q E s.
Proof using Hsha Hsha8.
  intros Hst Hd HQ HE. unfold write_state.
  assert (forall s', torn STATE_PATH (wire sha256 st) s s' -> state_torn st s s') as Ht.
  { intros s' [Ho Hp]. split; [intros k slot; apply Ho, slot_not_state |]. unfold disk_ok, stored. destruct Hp as [Hp|[n Hp]]; rewrite Hp; [split; [done | by left] |].
    destruct (decode_prefix st n Hst) as [H8 [D|[e D]]]; (split; [intros b [= <-]; by rewrite D | rewrite D; auto]). }
  apply wp_bind, wp_lift. rewrite encode_Ok by done || (unfold zeros; by rewrite length_replicate). rewrite drop_ge, app_nil_r by (unfold zeros; by rewrite length_replicate).
  apply wp_write; [| intros s' Hs'; by apply HE, Ht]. intros s' Hs'. apply HQ; [by apply Ht, written_torn |]. unfold stored. rewrite (proj2 Hs').
  by rewrite (proj2 (decode_exact sha256 Hsha (wire sha256 st) st (wire_u8 st Hst))).
Qed.

(** The disk finds a snapshot of kind [k] and a version of at least [f]; a state names one. *)
Definition finds (k : SnapshotKind) (f : Z) fs : Prop := at_least f (pick fs k (stored fs)).
Definition named (k : SnapshotKind) (f : Z) fs (st : DatabaseState) : Prop :=
  at_least f (cand fs k (active_slot st k)) /\ current (Some st) k (cand fs k (active_slot st k)) = true.

Lemma finds_state_torn st k f s s' : state_torn st s s' -> finds k f (view s) -> named k f (view s) st -> finds k f (view s').
Proof using.
  intros (Hs & _ & Hst) Hf [N1 N2]. unfold finds in *. rewrite (pick_ext (view s)) by apply Hs.
  destruct Hst as [->|[->| ->]]; [done | by eapply pick_none | by apply pick_named].
Qed.

Lemma named_same_slots st k f s s' : same_slots s s' -> named k f (view s) st -> named k f (view s') st.
Proof using. intros Hs. unfold named. by rewrite (cand_ext (view s) (view s') k) by apply Hs. Qed.

Lemma same_files_slots s s' : same_files s s' -> same_slots s s'.
Proof using. intros Hs k slot. apply Hs. Qed.

Lemma same_files_stored s s' : same_files s s' -> stored (view s') = stored (view s) /\ (disk_ok (view s) -> disk_ok (view s')).
Proof using. intros Hs. unfold stored, disk_ok. by rewrite (Hs STATE_PATH). Qed.

Lemma pick_slot fs k st c : pick fs k st = Some c -> cand fs k (cd_slot c) = Some c.
Proof using.
  destruct (pick_cases fs k st) as [slot ->]. unfold cand. destruct (fs _) eqn:F; [| done]. destruct (judge k _) eqn:J; [| done..].
  intros [= <-]. cbn. by rewrite F, J.
Qed.

(** What a load says of a kind: the bytes found, and a state that names them. *)
Definition describes (st : DatabaseState) (k : SnapshotKind) (oc : option Candidate) : Prop :=
  match oc with Some c => active_slot st k = cd_slot c /\ metadata_matches (metadata st k) (cd_metadata c) = true | None => True end.
Definition tells (k : SnapshotKind) fs (ld : LoadedDatabase) : Prop :=
  snapshot_of ld k = cd_bytes <$> pick fs k (stored fs) /\ describes (ld_state ld) k (pick fs k (stored fs)).

Lemma describes_named st k f fs : describes st k (pick fs k (stored fs)) -> finds k f fs -> named k f fs st.
Proof using.
  unfold finds, named. destruct (pick fs k (stored fs)) as [c|] eqn:P; [| done]. intros [Ha Hm] Hf. rewrite Ha, (pick_slot _ _ _ _ P). done.
Qed.

Lemma describes_apply_loaded st t r :
  let st' := fst (apply_loaded (fst (apply_loaded st Trust t)) Revocations r) in
  describes st' Trust t /\ describes st' Revocations r /\
  (state_ok st -> cand_ok Trust (fun _ => True) t -> cand_ok Revocations (fun _ => True) r -> state_ok st').
Proof using.
  intros st'. unfold st'. destruct (apply_loaded_state st Trust t) as (m1 & E1 & O1 & D1). rewrite E1.
  destruct (apply_loaded_state (set_metadata (set_active_slot st Trust (match t with Some c => cd_slot c | None => SlotA end)) Trust m1) Revocations r) as (m2 & E2 & O2 & D2). rewrite E2.
  split; [by destruct t |]. split; [by destruct r |]. intros Hst Ht Hr. pose proof (O1 Hst Ht) as M1.
  assert (state_ok (set_metadata (set_active_slot st Trust (match t with Some c => cd_slot c | None => SlotA end)) Trust m1)) as Hst1 by (by apply state_ok_set).
  apply state_ok_set; [done | by apply O2].
Qed.

Lemma wp_activate_candidate k oc Q E s : (forall s', same_files s s' -> Q tt s') -> (forall s', same_files s s' -> E s') -> wp (activate_candidate k oc) Q E s.
Proof using DiskLaws0 ValidatorLaws0. intros HQ HE. destruct oc; [by apply wp_activate | by apply wp_ret, HQ]. Qed.

(** What every operation leaves of the disk. *)
Definition sound_disk s s' : Prop := disk_ok (view s') /\ forall k f, stable k -> finds k f (view s) -> finds k f (view s').

Lemma sound_same_files s s' : disk_ok (view s) -> same_files s s' -> sound_disk s s'.
Proof using.
  intros Hd Hs. destruct (same_files_stored s s' Hs) as [E Hd']. split; [by apply Hd' |]. intros k f _. unfold finds. rewrite E, (pick_ext (view s) (view s')); [done |].
  intros slot. apply Hs.
Qed.

(** Writing a state that names what the disk finds. *)
Lemma describes_same st st' k oc : active_slot st' k = active_slot st k -> metadata st' k = metadata st k -> describes st k oc -> describes st' k oc.
Proof using. unfold describes. by intros -> ->. Qed.

Lemma wp_write_described st Q E s : state_ok st -> disk_ok (view s) -> (forall k, stable k -> describes st k (pick (view s) k (stored (view s)))) ->
  (forall s', same_slots s s' -> sound_disk s s' -> Q tt s') -> (forall s', same_slots s s' -> sound_disk s s' -> E s') -> wp (write_state sha256 st) Q E s.
Proof using Hsha Hsha8.
  intros Hst Hd Hdesc HQ HE. assert (forall s', state_torn st s s' -> same_slots s s' /\ sound_disk s s') as Ht.
  { intros s' Hs'. split; [apply Hs' |]. split; [apply Hs' |]. intros k f Hk Hf. eapply finds_state_torn; [done | done |]. apply describes_named; [by apply Hdesc | done]. }
  apply wp_write_state; [done | done | intros s' Hs' _; apply HQ; by apply Ht | intros s' Hs'; apply HE; by apply Ht].
Qed.

Lemma sound_trans_same s s1 s2 : same_files s s1 -> same_slots s1 s2 /\ sound_disk s1 s2 -> same_slots s s2 /\ sound_disk s s2.
Proof using.
  intros Hs [Hsl [Hd Hf]]. split; [intros k slot; rewrite Hsl; apply Hs |]. split; [done |]. intros k f Hk Hfinds. apply Hf; [done |].
  unfold finds. rewrite (proj1 (same_files_stored s s1 Hs)), (pick_ext (view s)); [done | intros; apply Hs].
Qed.

Lemma wp_repair repair st s s1 : same_files s s1 -> disk_ok (view s) -> state_ok st -> (forall k, stable k -> describes st k (pick (view s) k (stored (view s)))) ->
  wp (if repair : bool then bind (lift (checked_generation st)) (fun g => bind (write_state sha256 (set_generation st g)) (fun _ => ret (set_generation st g))) else ret st)
     (fun st' s' => (same_slots s s' /\ sound_disk s s') /\ state_ok st' /\ forall k, active_slot st' k = active_slot st k /\ metadata st' k = metadata st k)
     (fun s' => same_slots s s' /\ sound_disk s s') s1.
Proof using Hsha Hsha8.
  intros Hs Hd Hst Hdesc. destruct (same_files_stored s s1 Hs) as [Es Hd1].
  assert (same_slots s s1 /\ sound_disk s s1) as Hnow by (split; [by apply same_files_slots | by apply sound_same_files]).
  destruct repair; [| by apply wp_ret]. apply wp_bind, wp_lift. destruct (checked_generation st) as [g| |] eqn:G; [| done | by apply checked_generation_no_panic in G].
  assert (state_ok (set_generation st g)) as Hst' by (by apply state_ok_generation).
  apply wp_bind, wp_write_described; [done | by apply Hd1 | | | intros s' H1 H2; by eapply sound_trans_same].
  { intros k Hk. rewrite Es, (pick_ext (view s)) by (intros; apply Hs). eapply describes_same; [apply active_set_generation | apply metadata_set_generation | by apply Hdesc]. }
  intros s' H1 H2. apply wp_ret. split; [by eapply sound_trans_same |]. split; [done |]. intros k. by rewrite active_set_generation, metadata_set_generation.
Qed.

Lemma wp_load r s : disk_ok (view s) ->
  wp (load_database_inner sha256 r)
     (fun ld s' => same_slots s s' /\ sound_disk s s' /\ state_ok (ld_state ld) /\ forall k, stable k -> tells k (view s) ld)
     (fun s' => same_slots s s' /\ sound_disk s s') s.
Proof using Hsha Hsha8.
  intros Hd. assert (forall s', same_files s s' -> same_slots s s' /\ sound_disk s s') as HE by (intros s' Hs'; split; [by apply same_files_slots | by apply sound_same_files]).
  unfold load_database_inner. apply wp_bind, wp_read; [| done]. intros s0 H0s. apply wp_bind, wp_lift.
  assert (match view s STATE_PATH with
          | Some bytes => match DatabaseState_decode sha256 bytes with Ok s => Ok (Some s) | Err _ => Ok None | Panic => Panic end
          | None => Ok None end = Ok (E := StorageError) (stored (view s))) as ->.
  { unfold stored. destruct (view s STATE_PATH) eqn:Hb; [| done]. destruct (Hd _ Hb) as [_ Hp]. by destruct (DatabaseState_decode sha256 _). }
  apply wp_bind, wp_load_kind; [| intros s' Hs'; apply HE; by eapply same_files_trans]. intros t s1 H1 O1 E1.
  assert (same_files s s1) as F1 by (by eapply same_files_trans). rewrite (pick_ext (view s) (view s0)) in E1 by (intros; apply H0s).
  apply wp_bind, wp_activate_candidate; [| intros s' Hs'; apply HE; by eapply same_files_trans]. intros s2 H2.
  assert (same_files s s2) as F2 by (by eapply same_files_trans).
  apply wp_bind, wp_load_kind; [| intros s' Hs'; apply HE; by eapply same_files_trans]. intros v s3 H3 O3 E3.
  assert (same_files s s3) as F3 by (by eapply same_files_trans). rewrite (pick_ext (view s) (view s2)) in E3 by (intros; apply F2).
  apply wp_bind, wp_activate_candidate; [| intros s' Hs'; apply HE; by eapply same_files_trans]. intros s4 H4.
  assert (same_files s s4) as F4 by (by eapply same_files_trans). 
  assert (state_ok (default DatabaseState_default (stored (view s)))) as Hst0.
  { destruct (stored (view s)) eqn:S; [by eapply stored_state_ok | apply state_ok_default]. }
  pose proof (describes_apply_loaded (default DatabaseState_default (stored (view s))) t v) as (D1 & D2 & Hst). specialize (Hst Hst0 O1 O3).
  assert (forall k, stable k -> describes (fst (apply_loaded (fst (apply_loaded (default DatabaseState_default (stored (view s))) Trust t)) Revocations v)) k
            (pick (view s) k (stored (view s)))) as D by (intros [] Hk; [rewrite <- (E1 Hk) | rewrite <- (E3 Hk)]; done).
  destruct (apply_loaded (default DatabaseState_default _) Trust t) as [st1 c1]. cbn [fst] in *. destruct (apply_loaded st1 Revocations v) as [st2 c2]. cbn [fst] in *.
  eapply wp_bind, wp_mono; [by apply (wp_repair _ st2 s s4) | | done]. cbn beta. intros st3 s5 ([Hsl Hso] & Hst3 & Hsame). apply wp_ret. split_and!; [done | done | done |].
  intros k Hk. split; [by destruct k; cbn; rewrite ?E1, ?E3 |]. destruct (Hsame k) as [Ha Hm]. eapply describes_same; [done | done | by apply D].
Qed.

(** What the disk finds and the state in memory names. *)
Definition holds (k : SnapshotKind) (f : Z) fs (st : DatabaseState) : Prop := finds k f fs /\ named k f fs st.

Lemma named_version k f fs st : named k f fs st -> f <= snapshot_version (metadata st k).
Proof using.
  intros [Ha Hc]. destruct (cand fs k (active_slot st k)) as [c|]; [| done]. cbn in *. unfold metadata_matches in Hc. bool_cases. cbn in Ha. lia.
Qed.

(** Writing a newer snapshot to the slot not in use. *)
Lemma slot_path_inj k slot k' slot' : slot_path k slot = slot_path k' slot' -> k = k' /\ slot = slot'.
Proof using. by destruct k, slot, k', slot'. Qed.

Lemma same_holds k f s s' st : same_files s s' -> holds k f (view s) st -> holds k f (view s') st.
Proof using.
  intros Hs [Hf Hn]. split; [| by eapply named_same_slots; [apply same_files_slots |]]. unfold finds in *.
  by rewrite (proj1 (same_files_stored s s' Hs)), (pick_ext (view s) (view s')) by (intros; apply Hs).
Qed.

Lemma slot_torn_holds st k b m s s' : torn (slot_path k (inactive (active_slot st k))) b s s' -> (stable k -> judge k b = Ok m) -> 0 <= vs_version m ->
  snapshot_version (metadata st k) = 0 \/ snapshot_version (metadata st k) < vs_version m ->
  forall k' f, stable k' -> holds k' f (view s) st -> holds k' f (view s') st.
Proof using.
  intros [Ho Hp] Hj Hm Hguard k' f Hk' [Hf Hn]. set (a := active_slot st k) in *.
  assert (stored (view s') = stored (view s)) as Es by (unfold stored; rewrite Ho; [done | symmetry; apply slot_not_state]).
  unfold holds, finds, named in *. rewrite Es. destruct (decide (k' = k)) as [->|Hne].
  2: { assert (forall slot, view s' (slot_path k' slot) = view s (slot_path k' slot)) as Hsame by (intros slot; apply Ho; by intros [? _]%slot_path_inj).
       rewrite (pick_ext (view s)), (cand_ext (view s)) by apply Hsame. done. }
  fold a in Hn |- *. assert (view s' (slot_path k a) = view s (slot_path k a)) as Ha by (apply Ho; intros [_ E]%slot_path_inj; by destruct a).
  rewrite (cand_ext (view s) (view s')) by done. split; [| done]. eapply pick_overwrite; [done | exact (proj1 Hn) | done |].
  pose proof (named_version k f (view s) st Hn) as Hv. unfold cand at 1 3 4. destruct Hp as [->|[n ->]]; [by left |]. right. destruct (judge k (take n b)) as [m'| |] eqn:J; [| by left..].
  right. pose proof (judge_prefix k b m m' n Hk' (Hj Hk') J) as E. rewrite E, (Hj Hk') in J. injection J as <-. cbn. lia.
Qed.

(** The state record that switches over to it. *)
Definition switched (st : DatabaseState) (k : SnapshotKind) (g : Z) (m : ValidatedSnapshot) (tag : Etag) (t : Z) : DatabaseState :=
  set_metadata (set_active_slot (set_generation st g) k (inactive (active_slot st k))) k
    {| snapshot_version := vs_version m; generated_at := vs_generated_at m; expires_at := vs_expires_at m; last_checked_at := t; etag := tag |}.

Lemma switched_ok st k g m tag t : state_ok st -> checked_generation st = Ok g -> vs_ok m -> tag_ok tag -> is_u64 t -> state_ok (switched st k g m (mk_etag tag) t).
Proof using. intros Hst Hg (H1 & H2 & H3) Ht Hu. apply state_ok_set; [by apply state_ok_generation |]. split_and!; cbn; [done.. |]. by exists tag. Qed.

Lemma switched_named st k g m tag t b fs : fs (slot_path k (inactive (active_slot st k))) = Some b -> (stable k -> judge k b = Ok m) ->
  (stable k -> named k (vs_version m) fs (switched st k g m tag t)) /\
  (snapshot_version (metadata st k) = 0 \/ snapshot_version (metadata st k) < vs_version m -> 0 <= vs_version m ->
   forall k' f, stable k' -> named k' f fs st -> named k' f fs (switched st k g m tag t)).
Proof using.
  intros Hb Hj. assert (stable k -> cand fs k (inactive (active_slot st k)) = Some {| cd_slot := inactive (active_slot st k); cd_metadata := m; cd_bytes := b |}) as Hc.
  { intros Hk. unfold cand. by rewrite Hb, Hj. }
  assert (stable k -> forall f, f <= vs_version m -> named k f fs (switched st k g m tag t)) as Hnew.
  { intros Hk f Hf. unfold named, switched. rewrite active_set_metadata, set_active_slot_same, Hc by done. split; [done |]. cbn [current]. rewrite set_metadata_same.
    unfold metadata_matches. cbn. by rewrite !Z.eqb_refl. }
  split; [intros Hk; by apply Hnew |]. intros Hguard Hm k' f Hk' Hn. destruct (decide (k' = k)) as [->|Hne].
  - apply Hnew; [done |]. pose proof (named_version _ _ _ _ Hn). lia.
  - unfold named, switched in *. cbn [current] in *. destruct (set_other (set_generation st g) k k' (inactive (active_slot st k))
      {| snapshot_version := vs_version m; generated_at := vs_generated_at m; expires_at := vs_expires_at m; last_checked_at := t; etag := tag |} Hne) as [-> Em].
    rewrite active_set_generation. destruct (cand fs k' (active_slot st k')); [| done]. by rewrite Em, metadata_set_generation.
Qed.

(** An operation that starts from [st] in memory leaves [st'] there. *)
Definition moves s (st : DatabaseState) s' (st' : DatabaseState) : Prop :=
  disk_ok (view s') /\ state_ok st' /\ forall k f, stable k -> holds k f (view s) st -> holds k f (view s') st'.

Lemma moves_same s s1 st : disk_ok (view s) -> state_ok st -> same_files s s1 -> moves s st s1 st.
Proof using.
  intros Hd Hst Hs. split; [by apply (same_files_stored s s1 Hs) |]. split; [done |]. intros k f _. by apply same_holds.
Qed.

Lemma moves_trans s1 st1 s2 st2 s3 st3 : moves s1 st1 s2 st2 -> moves s2 st2 s3 st3 -> moves s1 st1 s3 st3.
Proof using. intros (_ & _ & H1) (Hd & Hst & H2). split_and!; [done | done |]. intros k f Hk Hf. by apply H2, H1. Qed.

Lemma wp_write_moves st st' Q E s : state_ok st -> state_ok st' -> disk_ok (view s) -> (forall k f, stable k -> named k f (view s) st -> named k f (view s) st') ->
  (forall s', state_torn st' s s' -> moves s st s' st' -> stored (view s') = Some st' -> Q tt s') -> (forall s', moves s st s' st -> E s') -> wp (write_state sha256 st') Q E s.
Proof using Hsha Hsha8.
  intros Hst Hst' Hd Hn HQ HE. assert (forall s', state_torn st' s s' -> moves s st s' st /\ moves s st s' st') as Ht.
  { intros s' Hs'. pose proof Hs' as (Hsl & Hd' & _). split; (split_and!; [done | done |]); intros k f Hk [Hf Hnm];
      (split; [apply (finds_state_torn st' k f s s' Hs' Hf); by apply Hn | eapply named_same_slots; [done | by auto]]). }
  apply wp_write_state; [done | done | |]; [intros s' Hs' Hw; apply HQ; [done | by apply Ht | done] | intros s' Hs'; apply HE; by apply Ht].
Qed.

Lemma wp_persist st k b tag t s : disk_ok (view s) -> state_ok st -> tag_ok tag -> is_u64 t ->
  wp (persist_snapshot sha256 st k b (mk_etag tag) t)
     (fun r s' => moves s st s' (snd r) /\ (stable k -> holds k (snapshot_version (metadata (snd r) k)) (view s') (snd r)))
     (fun s' => moves s st s' st) s.
Proof using Hsha Hsha8.
  intros Hd Hst Htag Ht. unfold persist_snapshot. apply wp_bind, wp_validate; [| by intros; apply moves_same]. intros m s1 H1 Hm Hj.
  pose proof (moves_same s s1 st Hd Hst H1) as M1. destruct (negb _ && _) eqn:Guard; [by apply wp_lift |].
  assert (snapshot_version (metadata st k) = 0 \/ snapshot_version (metadata st k) < vs_version m) as G by (destruct (Z.eqb_spec (snapshot_version (metadata st k)) 0); cbn in Guard; bool_cases; lia).
  assert (0 <= vs_version m) as Hm0 by (destruct Hm as [Hm _]; widths; lia). set (target := inactive (active_slot st k)).
  assert (forall s2, torn (slot_path k target) b s1 s2 -> moves s st s2 st) as Htorn.
  { intros s2 H2. eapply moves_trans; [exact M1 |]. split_and!; [| done | by eapply slot_torn_holds]. unfold disk_ok. rewrite (proj1 H2) by (symmetry; apply slot_not_state). apply M1. }
  apply wp_bind, wp_write; [| by auto]. intros s2 H2. pose proof (Htorn s2 (written_torn _ _ _ _ H2)) as M2.
  assert (forall s', same_files s2 s' -> moves s st s' st) as Hlater by (intros s' Hs'; eapply moves_trans; [exact M2 |]; apply moves_same; [apply M2 | done | done]).
  apply wp_bind, wp_read; [| by auto]. intros s3 H3. rewrite (proj2 H2). apply wp_bind, wp_lift. cbn [ok_or]. rewrite bool_decide_true by done. cbn [negb].
  apply wp_bind, wp_validate; [| intros s' Hs'; apply Hlater; by eapply same_files_trans]. intros m' s4 H4 _ _.
  assert (same_files s2 s4) as F4 by (by eapply same_files_trans). case_bool_decide as Em; cbn [negb]; [subst m' | apply wp_lift; by auto].
  apply wp_bind, wp_lift. destruct (checked_generation st) as [g| |] eqn:Hg; [| by auto | by apply checked_generation_no_panic in Hg].
  change (set_metadata _ _ _) with (switched st k g m (mk_etag tag) t).
  assert (view s4 (slot_path k target) = Some b) as Hb by (rewrite (F4 (slot_path k target)); apply H2).
  destruct (switched_named st k g m (mk_etag tag) t b (view s4) Hb Hj) as [N1 N2]. pose proof (switched_ok st k g m tag t Hst Hg Hm Htag Ht) as Hok. pose proof (Hlater s4 F4) as M4.
  apply wp_bind, (wp_write_moves st); [done | done | apply M4 | by apply N2 | | intros s5 H5; by eapply moves_trans].
  intros s5 T5 H5 W5. apply wp_ret. cbn [snd]. split; [by eapply moves_trans |]. intros Hk. unfold switched at 1. rewrite set_metadata_same. cbn [snapshot_version].
  pose proof (named_same_slots _ k _ s4 s5 (proj1 T5) (N1 Hk)) as N5. split; [| done]. unfold finds. rewrite W5. by apply pick_named; apply N5.
Qed.

Lemma wp_mark st k t s : disk_ok (view s) -> state_ok st -> is_u64 t ->
  wp (mark_checked sha256 st k t) (fun st' s' => moves s st s' st') (fun s' => moves s st s' st) s.
Proof using Hsha Hsha8.
  intros Hd Hst Ht. pose proof (moves_same s s st Hd Hst (fun _ => eq_refl)) as M0. unfold mark_checked. destruct (_ =? 0); [by apply wp_lift |].
  apply wp_bind, wp_lift. destruct (checked_generation st) as [g| |] eqn:Hg; [| done | by apply checked_generation_no_panic in Hg].
  set (st' := set_metadata (set_generation st g) k _). assert (state_ok st') as Hst'.
  { apply state_ok_set_metadata; [by apply state_ok_generation |]. rewrite metadata_set_generation. destruct (state_ok_meta st k Hst) as (? & ? & ? & ? & ?). by split_and!. }
  apply wp_bind, (wp_write_moves st); [done | done | done | | intros s' _ Hs' _; by apply wp_ret | done].
  intros k' f Hk'. unfold named, st'. rewrite active_set_metadata, active_set_generation. destruct (cand _ k' _) as [c|]; [| done]. cbn [current at_least].
  destruct (decide (k' = k)) as [->|Hne]; [rewrite set_metadata_same | rewrite set_metadata_other by done]; rewrite metadata_set_generation; done.
Qed.

(** ** Sequences of operations *)

Local Abbreviation files y := (file (sy_disk y)).

Definition healthy (y : system B V) : Prop := disk_ok (files y) /\ forall st, sy_state y = Some st -> state_ok st.
Definition floor (k : SnapshotKind) (f : Z) (y : system B V) : Prop := finds k f (files y) /\ forall st, sy_state y = Some st -> named k f (files y) st.

(** A load that gives a snapshot of version at least [f], valid and as the state says. *)
Definition gives (k : SnapshotKind) (f : Z) (r : outcome) : Prop :=
  forall ld, r = Loaded ld -> exists b m, snapshot_of ld k = Some b /\ judge k b = Ok m /\ metadata_matches (metadata (ld_state ld) k) m = true /\ f <= vs_version m.

Definition step_ok (y : system B V) (r : outcome) (y' : system B V) : Prop :=
  r <> Panicked /\ healthy y' /\ forall k, stable k ->
    (forall f, floor k f y -> floor k f y' /\ gives k f r) /\ (forall v, delivered r k = Some v -> floor k v y').

Lemma tells_gives k f fs ld : tells k fs ld -> finds k f fs -> gives k f (Loaded ld).
Proof using.
  intros [Hs Hd] Hf ld' [= <-]. unfold finds in Hf. destruct (pick fs k (stored fs)) as [c|] eqn:P; [| done]. exists (cd_bytes c), (cd_metadata c).
  split_and!; [done | | apply Hd | done]. apply pick_slot in P. unfold cand in P. destruct (fs _); [| done]. destruct (judge k _) eqn:J; [| done..]. by injection P as <-.
Qed.

Lemma tells_delivers k v fs ld : tells k fs ld -> delivered (Loaded ld) k = Some v -> finds k v fs.
Proof using.
  intros [Hs Hd]. unfold finds. cbn. rewrite Hs. destruct (pick fs k (stored fs)) as [c|] eqn:P; [| done]. intros [= <-]. cbn.
  destruct Hd as [_ Hm]. unfold metadata_matches in Hm. bool_cases. lia.
Qed.

Lemma load_step r y : healthy y -> let res := perform sha256 y (OpLoad r) in step_ok y (fst res) (snd res).
Proof using Hsha Hsha8.
  intros [Hd Hm]. cbn. pose proof (wp_load r (sy_disk y, sy_validator y) Hd) as W. unfold wp in W. destruct (load_database_inner sha256 r _) as [[ld|e|] [b v]]; [| | done].
  - destruct W as (Hsl & [Hd' Hf] & Hst & Ht). split; [done |]. split; [split; [done | by intros st [= <-]] |]. intros k Hk. specialize (Ht k Hk).
    assert (forall f, finds k f (files y) -> floor k f {| sy_disk := b; sy_validator := v; sy_state := Some (ld_state ld) |}) as Hfl.
    { intros f Hfy. split; [by apply Hf |]. intros st [= <-]. eapply (named_same_slots _ k f _ (b, v)); [exact Hsl |]. apply describes_named; [apply Ht | done]. }
    split; [intros f [Hfy _]; split; [by apply Hfl | by eapply tells_gives] | intros w Hw; by eapply Hfl, tells_delivers].
  - destruct W as [Hsl [Hd' Hf]]. split; [done |]. split; [done |]. intros k Hk. split; [| done]. intros f [Hfy Hn]. split; [| done].
    split; [by apply Hf |]. intros st Hst. eapply (named_same_slots _ k f _ (b, v)); [exact Hsl | by apply Hn].
Qed.

(** An operation on the state in memory. *)
Lemma moves_step y st b v st' r : sy_state y = Some st -> moves (sy_disk y, sy_validator y) st (b, v) st' -> r <> Panicked -> (forall ld, r <> Loaded ld) ->
  (forall k w, stable k -> delivered r k = Some w -> holds k w (file b) st') -> step_ok y r {| sy_disk := b; sy_validator := v; sy_state := Some st' |}.
Proof using.
  intros Hy (Hd & Hst & Hm) Hp Hl Hdel. split; [done |]. split; [split; [done | by intros ? [= <-]] |]. intros k Hk. split.
  - intros f [Hf Hn]. split; [| intros ld E; by apply Hl in E]. destruct (Hm k f Hk (conj Hf (Hn st Hy))) as [Hf' Hn']. split; [done | by intros ? [= <-]].
  - intros w Hw. destruct (Hdel k w Hk Hw) as [Hf' Hn']. split; [done | by intros ? [= <-]].
Qed.

Lemma idle_step y r : healthy y -> r <> Panicked -> (forall ld, r <> Loaded ld) -> (forall k, delivered r k = None) ->
  forall mem, mem = sy_state y \/ mem = None -> step_ok y r {| sy_disk := sy_disk y; sy_validator := sy_validator y; sy_state := mem |}.
Proof using.
  intros [Hd Hst] Hp Hl Hdel mem Hmem. split; [done |]. split; [split; [done |]; intros st E; cbn in E; destruct Hmem as [->| ->]; [by apply Hst | done] |]. intros k Hk. split; [| by rewrite Hdel].
  intros f [Hf Hn]. split; [| intros ld E; by apply Hl in E]. split; [done |]. intros st E. cbn in E. destruct Hmem as [->| ->]; [by apply Hn | done].
Qed.

Lemma perform_step y o : healthy y -> op_ok o -> let res := perform sha256 y o in step_ok y (fst res) (snd res).
Proof using Hsha Hsha8.
  intros Hy Ho. destruct o as [r|k b tag t|k t|]; [by apply load_step | | | by apply idle_step; auto]; cbn; destruct (sy_state y) as [st|] eqn:E.
  2, 4: destruct y; cbn in *; by apply (idle_step {| sy_disk := _; sy_validator := _; sy_state := _ |}); auto.
  - destruct Hy as [Hd Hst], Ho as [Ht Hu]. pose proof (wp_persist st k b tag t (sy_disk y, sy_validator y) Hd (Hst st E) Ht Hu) as W. unfold wp in W.
    destruct (persist_snapshot sha256 st k b _ t _) as [[[slot st']|e|] [d v]]; [| | done]; unfold answer; cbn [fst snd]; rewrite ?E.
    + destruct W as [M N]. eapply moves_step; [done | done | done | done |]. intros k' w Hk'. cbn. case_bool_decide as Ek; [subst k' | done]. intros [= <-]. by apply N.
    + by eapply moves_step.
  - destruct Hy as [Hd Hst]. pose proof (wp_mark st k t (sy_disk y, sy_validator y) Hd (Hst st E) Ho) as W. unfold wp in W.
    destruct (mark_checked sha256 st k t _) as [[st'|e|] [d v]]; [| | done]; unfold answer; cbn [fst snd]; rewrite ?E; by eapply moves_step.
Qed.

Lemma perform_all_floor k f os y : stable k -> healthy y -> Forall op_ok os -> floor k f y -> Forall (gives k f) (fst (perform_all sha256 y os)).
Proof using Hsha Hsha8.
  intros Hk. revert y. induction os as [|o os IH]; intros y Hy Hos Hf; [constructor |]. apply Forall_cons in Hos as [Ho Hos].
  destruct (perform_step y o Hy Ho) as (_ & Hy' & Hs). destruct (Hs k Hk) as [Hfl _]. destruct (Hfl f Hf) as [Hf' Hg]. cbn in *. destruct (perform sha256 y o) as [r y'].
  specialize (IH y' Hy' Hos Hf'). cbn in *. destruct (perform_all sha256 y' os) as [rs y'']. by constructor.
Qed.

Lemma perform_all_no_rollback k os y i j ri v rj : stable k -> healthy y -> Forall op_ok os -> (i < j)%nat ->
  fst (perform_all sha256 y os) !! i = Some ri -> delivered ri k = Some v -> fst (perform_all sha256 y os) !! j = Some rj -> gives k v rj.
Proof using Hsha Hsha8.
  intros Hk. revert y i j. induction os as [|o os IH]; intros y i j Hy Hos Hij Hi Hv Hj; [done |]. apply Forall_cons in Hos as [Ho Hos].
  destruct (perform_step y o Hy Ho) as (_ & Hy' & Hs). destruct (Hs k Hk) as [_ Hdel]. cbn in *. destruct (perform sha256 y o) as [r y']. cbn in *.
  pose proof (perform_all_floor k v os y' Hk Hy' Hos) as Hfl. specialize (IH y'). destruct (perform_all sha256 y' os) as [rs y'']. cbn in *.
  destruct j as [|j]; [lia |]. destruct i as [|i]; cbn in *; [| by apply (IH i j); [.. | lia | | |]]. injection Hi as ->. specialize (Hfl (Hdel v Hv)).
  rewrite Forall_lookup in Hfl. by eapply Hfl.
Qed.

Lemma perform_all_no_panic os y : healthy y -> Forall op_ok os -> Forall (fun r => r <> Panicked) (fst (perform_all sha256 y os)).
Proof using Hsha Hsha8 DiskLaws0 ValidatorLaws0.
  revert y. induction os as [|o os IH]; intros y Hy Hos; [constructor |]. apply Forall_cons in Hos as [Ho Hos].
  destruct (perform_step y o Hy Ho) as (Hp & Hy' & _). cbn in *. destruct (perform sha256 y o) as [r y'].
  specialize (IH y' Hy' Hos). cbn in *. destruct (perform_all sha256 y' os) as [rs y'']. by constructor.
Qed.

End Invariant.
