(* ===== verification/CertFile.v ===== *)
(** * The file backend of the certificate database ([certificate-database/src/std_file.rs])

    The backend over the part of [std::fs] that it uses, where any call may fail and a write that fails keeps a prefix.  It
    meets the laws of a disk, so the database on it never goes back to an older snapshot; and once calls stop failing a load
    recovers it. *)

From Stdlib Require Import String Ascii.
From stdpp Require Import gmap strings.
From S2P Require Import Prelude Text Fields CertDatabase CertCodec CertStorage CertCrash.

(** ** Files *)

Inductive ErrorKind : Type := NotFound | AlreadyExists | OtherKind.
#[export] Instance ErrorKind_eq_dec : EqDecision ErrorKind.
Proof. solve_decision. Defined.

(** What becomes of a call; a failing write or sync leaves that many bytes of the new contents. *)
Inductive verdict : Type := Works | Fails (kept : nat).

Record Os : Type := { os_files : gmap string (list Z); os_faults : list verdict; os_mkdir : string -> option ErrorKind }.

Definition next_verdict (os : Os) : verdict * Os :=
  match os_faults os with
  | [] => (Works, os)
  | v :: rest => (v, {| os_files := os_files os; os_faults := rest; os_mkdir := os_mkdir os |})
  end.
Definition set_file (os : Os) (p : string) (b : list Z) : Os :=
  {| os_files := <[p := b]> (os_files os); os_faults := os_faults os; os_mkdir := os_mkdir os |}.

(** [File::open]; a handle is the contents. *)
Definition File_open (os : Os) (p : string) : result ErrorKind (list Z) * Os :=
  let '(v, os) := next_verdict os in
  match v with
  | Works => (ok_or (os_files os !! p) NotFound, os)
  | Fails _ => (Err OtherKind, os)
  end.
(** [take(limit).read_to_end]. *)
Fixpoint take_upto (limit : Z) (l : list Z) : list Z :=
  match l with [] => [] | x :: r => if 0 <? limit then x :: take_upto (limit - 1) r else [] end.
Definition read_to_end (os : Os) (limit : Z) (handle : list Z) : result ErrorKind (list Z) * Os :=
  let '(v, os) := next_verdict os in
  match v with Works => (Ok (take_upto limit handle), os) | Fails _ => (Err OtherKind, os) end.
(** [OpenOptions::new().write(true).create(true).truncate(true).open]. *)
Definition open_truncate (os : Os) (p : string) : result ErrorKind unit * Os :=
  let '(v, os) := next_verdict os in
  match v with Works => (Ok tt, set_file os p []) | Fails _ => (Err OtherKind, os) end.
Definition write_all (os : Os) (p : string) (b : list Z) : result ErrorKind unit * Os :=
  let '(v, os) := next_verdict os in
  match v with Works => (Ok tt, set_file os p b) | Fails n => (Err OtherKind, set_file os p (take n b)) end.
(** What is not synchronised may be lost from the end. *)
Definition sync_all (os : Os) (p : string) (b : list Z) : result ErrorKind unit * Os :=
  let '(v, os) := next_verdict os in
  match v with Works => (Ok tt, os) | Fails n => (Err OtherKind, set_file os p (take n b)) end.
Definition create_dir_all (os : Os) (p : string) : result ErrorKind unit :=
  match os_mkdir os p with None => Ok tt | Some e => Err e end.

(** [Path::join] with a relative path, [str::strip_prefix] and [str::trim_start_matches] of a slash. *)
Definition SLASH : ascii := "/"%char.
Definition join (root rel : string) : string :=
  match String.get (String.length root - 1) root with
  | None => rel
  | Some c => if bool_decide (c = SLASH) then root +:+ rel else root +:+ String SLASH rel
  end.
Definition strip_slash (p : string) : option string :=
  match p with String c r => if bool_decide (c = SLASH) then Some r else None | EmptyString => None end.
Fixpoint trim_slashes (p : string) : string :=
  match p with String c r => if bool_decide (c = SLASH) then trim_slashes r else p | EmptyString => EmptyString end.

(** ** The code *)

Definition MAX_SNAPSHOT_FILE_BYTES : Z := 4 * 1024 * 1024.

Record FileBackend : Type := { root : string }.

Definition resolve_directory (self : FileBackend) : string := join (root self) (trim_slashes DATABASE_DIRECTORY).

Definition for_root_read_only (r : string) : FileBackend := {| root := r |}.
Definition for_root (os : Os) (r : string) : result StorageError FileBackend :=
  let backend := {| root := r |} in
  match create_dir_all os (resolve_directory backend) with
  | Ok _ => Ok backend
  | Err e => if bool_decide (e = AlreadyExists) then Ok backend else Err Backend
  | Panic => Panic
  end.
Definition FileBackend_system (os : Os) : result StorageError FileBackend := for_root os "/".
Definition system_read_only : FileBackend := for_root_read_only "/".

Definition snapshot_path (path : string) : bool :=
  bool_decide (path = TRUST_A_PATH) || bool_decide (path = TRUST_B_PATH) || bool_decide (path = REVOCATIONS_A_PATH) || bool_decide (path = REVOCATIONS_B_PATH).

Definition resolve (self : FileBackend) (path : string) : result StorageError string :=
  if negb (bool_decide (path = STATE_PATH) || snapshot_path path) then Err Backend else
  let? relative := ok_or (strip_slash path) Backend in
  Ok (join (root self) relative).

Definition limit (path : string) : result StorageError Z :=
  if bool_decide (path = STATE_PATH) then Ok (Z.of_nat STATE_LEN) else
  if snapshot_path path then Ok MAX_SNAPSHOT_FILE_BYTES else Err Backend.

(** A backend and the system it runs on. *)
Record Disk : Type := { backend : FileBackend; os : Os }.
Definition on_os (d : Disk) (o : Os) : Disk := {| backend := backend d; os := o |}.

Definition file_read (d : Disk) (path : string) : result StorageError (option (list Z)) * Disk :=
  match limit path with Err e => (Err e, d) | Panic => (Panic, d) | Ok limit =>
  match resolve (backend d) path with Err e => (Err e, d) | Panic => (Panic, d) | Ok resolved =>
  match File_open (os d) resolved with
  | (Err e, o) => ((if bool_decide (e = NotFound) then Ok None else Err Backend), on_os d o)
  | (Panic, o) => (Panic, on_os d o)
  | (Ok handle, o) =>
      let read_limit := saturating_add64 limit 1 in
      match read_to_end o read_limit handle with
      | (Err _, o) => (Err Backend, on_os d o)
      | (Panic, o) => (Panic, on_os d o)
      | (Ok bytes, o) => ((if limit <? len bytes then Err InvalidSnapshot else Ok (Some bytes)), on_os d o)
      end
  end end end.

Definition file_write_sync (d : Disk) (path : string) (bytes : list Z) : result StorageError unit * Disk :=
  match limit path with Err e => (Err e, d) | Panic => (Panic, d) | Ok limit =>
  if (limit <? len bytes) || (bool_decide (path = STATE_PATH) && negb (len bytes =? Z.of_nat STATE_LEN)) then (Err InvalidSnapshot, d) else
  match resolve (backend d) path with Err e => (Err e, d) | Panic => (Panic, d) | Ok resolved =>
  match open_truncate (os d) resolved with
  | (Err _, o) => (Err Backend, on_os d o)
  | (Panic, o) => (Panic, on_os d o)
  | (Ok _, o) =>
      match write_all o resolved bytes with
      | (Err _, o) => (Err Backend, on_os d o)
      | (Panic, o) => (Panic, on_os d o)
      | (Ok _, o) =>
          match sync_all o resolved bytes with
          | (Err _, o) => (Err Backend, on_os d o)
          | (Panic, o) => (Panic, on_os d o)
          | (Ok _, o) => (Ok tt, on_os d o)
          end
      end
  end end end.

#[export] Instance FileBackend_storage : StorageBackend Disk := { read := file_read; write_sync := file_write_sync }.

(** ** The laws of a disk *)

Definition contents (d : Disk) (p : string) : option (list Z) :=
  match resolve (backend d) p with Ok r => os_files (os d) !! r | _ => None end.

Lemma join_inj root r1 r2 : join root r1 = join root r2 -> r1 = r2.
Proof.
  unfold join. destruct (String.get _ root) as [c|]; [| done]. case_bool_decide; intros E; apply (inj _) in E; [done | by injection E].
Qed.

Lemma resolve_Ok f p r : resolve f p = Ok r -> exists rel, p = String SLASH rel /\ r = join (root f) rel.
Proof.
  unfold resolve. destruct (negb _); [done |]. destruct p as [|c rel]; [done |]. cbn. case_bool_decide as E; [subst c | done]. intros [= <-]. by exists rel.
Qed.

Lemma resolve_inj f p q r : resolve f p = Ok r -> resolve f q = Ok r -> p = q.
Proof. intros (x & -> & ->)%resolve_Ok (y & -> & E)%resolve_Ok. by apply join_inj in E as ->. Qed.

Lemma resolve_no_panic f p : resolve f p <> Panic.
Proof. unfold resolve. destruct (negb _); [done |]. by destruct (strip_slash p). Qed.

Lemma limit_no_panic p : limit p <> Panic.
Proof. unfold limit. by repeat case_match. Qed.

Lemma take_upto_take n l : take_upto n l = take (Z.to_nat n) l.
Proof.
  revert n. induction l as [|x l IH]; intros n; [by rewrite take_nil |]. cbn. destruct (Z.ltb_spec 0 n); [| by replace (Z.to_nat n) with 0%nat by lia].
  rewrite IH. replace (Z.to_nat n) with (S (Z.to_nat (n - 1))) by lia. done.
Qed.

Lemma limit_range p l : limit p = Ok l -> 0 <= l < U64_MAX.
Proof. unfold limit. destruct (bool_decide _); [intros [= <-]; done |]. destruct (snapshot_path p); [intros [= <-] | done]. unfold MAX_SNAPSHOT_FILE_BYTES. widths. lia. Qed.

Lemma read_whole l b : 0 <= l < U64_MAX -> (len (take_upto (saturating_add64 l 1) b) <= l <-> len b <= l) /\ (len b <= l -> take_upto (saturating_add64 l 1) b = b).
Proof.
  intros Hl. unfold saturating_add64, len. rewrite Z.min_l, take_upto_take, length_take by lia. split; [lia |]. intros Hb. apply take_ge. lia.
Qed.

Lemma next_verdict_files o : os_files (snd (next_verdict o)) = os_files o.
Proof. unfold next_verdict. by destruct (os_faults o). Qed.

Lemma file_read_spec d p :
  (forall q, contents (snd (file_read d p)) q = contents d q) /\ match fst (file_read d p) with Ok found => found = contents d p | Err _ => True | Panic => False end.
Proof.
  unfold contents, file_read. destruct (limit p) as [l| |] eqn:L; [| done | by apply limit_no_panic in L]. destruct (resolve (backend d) p) as [r| |] eqn:R; [| done | by apply resolve_no_panic in R].
  unfold File_open. pose proof (next_verdict_files (os d)) as F1. destruct (next_verdict (os d)) as [[|n] o1]; cbn [snd] in *; [| by cbn; rewrite ?F1].
  rewrite F1. destruct (os_files (os d) !! r) as [h|]; cbn [ok_or]; [| cbn; by rewrite F1].
  unfold read_to_end. pose proof (next_verdict_files o1) as F2. destruct (next_verdict o1) as [[|n] o2]; cbn [snd] in *; (split; [cbn; by rewrite F2, F1 |]); [| done]. cbn.
  destruct (Z.ltb_spec l (len (take_upto (saturating_add64 l 1) h))) as [|Hl]; [done |]. destruct (read_whole l h (limit_range p l L)) as [E1 E2]. by rewrite E2 by (by apply E1).
Qed.

(** A call that changes at most one file, by leaving a prefix. *)
Lemma set_file_other d r o p q b : resolve (backend d) p = Ok r -> q <> p -> os_files o = <[r := b]> (os_files (os d)) -> contents (on_os d o) q = contents d q.
Proof.
  intros R Hq F. unfold contents. cbn. destruct (resolve (backend d) q) as [r'| |] eqn:R'; [| done..]. rewrite F. apply lookup_insert_ne. intros ->. by apply Hq, (resolve_inj (backend d) q p r').
Qed.

Lemma file_write_spec d p x :
  match fst (file_write_sync d p x) with
  | Ok _ => exists o r, snd (file_write_sync d p x) = on_os d o /\ resolve (backend d) p = Ok r /\ os_files o = <[r := x]> (os_files (os d))
  | Err _ => exists o, snd (file_write_sync d p x) = on_os d o /\ (os_files o = os_files (os d) \/ exists r n, resolve (backend d) p = Ok r /\ os_files o = <[r := take n x]> (os_files (os d)))
  | Panic => False
  end.
Proof.
  assert (exists o, d = on_os d o /\ os_files o = os_files (os d)) as Hsame by (exists (os d); by destruct d).
  assert (exists o, d = on_os d o /\ (os_files o = os_files (os d) \/ exists r n, resolve (backend d) p = Ok r /\ os_files o = <[r := take n x]> (os_files (os d)))) as Hnone by (destruct Hsame as (o & ? & ?); exists o; auto).
  unfold file_write_sync. destruct (limit p) as [l| |] eqn:L; [| done | by apply limit_no_panic in L]. destruct (_ || _); [done |].
  destruct (resolve (backend d) p) as [r| |] eqn:R; [| done | by apply resolve_no_panic in R].
  unfold open_truncate. pose proof (next_verdict_files (os d)) as F1. destruct (next_verdict (os d)) as [[|n] o1]; cbn [snd] in *; [| exists o1; auto].
  unfold write_all. pose proof (next_verdict_files (set_file o1 r [])) as F2. destruct (next_verdict (set_file o1 r [])) as [[|n] o2]; cbn [snd] in *.
  2: { cbn. eexists. split; [reflexivity |]. right. exists r, n. split; [done |]. cbn. rewrite F2. cbn. by rewrite insert_insert_eq, F1. }
  unfold sync_all. pose proof (next_verdict_files (set_file o2 r x)) as F3. destruct (next_verdict (set_file o2 r x)) as [[|n] o3]; cbn [snd fst] in *; [exists o3, r | eexists];
    (split; [reflexivity |]).
  - split; [done |]. rewrite F3. cbn. rewrite F2. cbn. by rewrite insert_insert_eq, F1.
  - right. exists r, n. split; [done |]. cbn. rewrite F3. cbn. rewrite F2. cbn. by rewrite !insert_insert_eq, F1.
Qed.

Lemma file_write_others d p x q : q <> p -> contents (snd (file_write_sync d p x)) q = contents d q.
Proof.
  intros Hq. pose proof (file_write_spec d p x) as Hs. destruct (file_write_sync d p x) as [[[]|e|] d']; cbn [fst snd] in *; [| | done].
  - destruct Hs as (o & r & -> & R & F). by eapply set_file_other.
  - destruct Hs as (o & -> & [F|(r & n & R & F)]); [unfold contents; cbn; by rewrite F | by eapply set_file_other].
Qed.

Lemma file_write_answer d p x : let after := contents (snd (file_write_sync d p x)) p in
  match fst (file_write_sync d p x) with Ok _ => after = Some x | Err _ => after = contents d p \/ exists n, after = Some (take n x) | Panic => False end.
Proof.
  pose proof (file_write_spec d p x) as Hs. destruct (file_write_sync d p x) as [[[]|e|] d']; cbn [fst snd] in *; [| | done]; unfold contents.
  - destruct Hs as (o & r & -> & R & F). cbn. by rewrite R, F, lookup_insert_eq.
  - destruct Hs as (o & -> & [F|(r & n & R & F)]); cbn; [left; by rewrite F | right; exists n; by rewrite R, F, lookup_insert_eq].
Qed.

#[export] Instance FileBackend_disk : DiskLaws Disk := {
  file := contents;
  read_keeps d p := proj1 (file_read_spec d p);
  read_answer d p := proj2 (file_read_spec d p);
  write_others := file_write_others;
  write_answer := file_write_answer }.

(** ** A load on a disk that works *)

(** No fault is left, and no file is longer than the backend reads. *)
Definition reliable (d : Disk) : Prop := os_faults (os d) = [] /\ forall p l b, limit p = Ok l -> contents d p = Some b -> len b <= l.
Definition known (p : string) : Prop := exists l, limit p = Ok l.

Lemma known_state : known STATE_PATH.
Proof. by eexists. Qed.
Lemma known_slot k slot : known (slot_path k slot).
Proof. destruct k, slot; by eexists. Qed.

Lemma known_resolve f p l : limit p = Ok l -> exists r, resolve f p = Ok r.
Proof.
  unfold limit, resolve. destruct (bool_decide (p = STATE_PATH)) eqn:E; [case_bool_decide; [subst | done]; by eexists |]. destruct (snapshot_path p) eqn:S; [intros _; cbn | done].
  unfold snapshot_path in S. rewrite !orb_true_iff, !bool_decide_eq_true in S. destruct S as [[[->| ->]| ->]| ->]; by eexists.
Qed.

Lemma reliable_read d p : reliable d -> known p -> file_read d p = (Ok (contents d p), d).
Proof.
  intros [Hf Hl] [l L]. destruct (known_resolve (backend d) p l L) as [r R]. specialize (Hl p l). unfold file_read, contents in *. rewrite L, R in *.
  unfold File_open, read_to_end, next_verdict. rewrite Hf. destruct (os_files (os d) !! r) as [h|] eqn:Fh; cbn [ok_or]; rewrite ?Hf; [| by destruct d].
  destruct (read_whole l h (limit_range p l L)) as [_ E]. rewrite E by (by apply Hl). destruct (Z.ltb_spec l (len h)) as [Hlt|]; [specialize (Hl h eq_refl eq_refl); lia |]. by destruct d.
Qed.

Lemma reliable_write d p b l : reliable d -> limit p = Ok l -> len b <= l -> (p = STATE_PATH -> len b = Z.of_nat STATE_LEN) ->
  exists d', file_write_sync d p b = (Ok tt, d') /\ reliable d'.
Proof.
  intros [Hf Hl] L Hb Hs. pose proof (file_write_spec d p b) as Hw. pose proof (file_write_answer d p b) as Ha. pose proof (file_write_others d p b) as Ho.
  assert (fst (file_write_sync d p b) = Ok tt /\ os_faults (os (snd (file_write_sync d p b))) = []) as [E Ef].
  { destruct (known_resolve (backend d) p l L) as [r R]. unfold file_write_sync. rewrite L, (proj2 (Z.ltb_ge _ _) Hb). cbn [orb].
    assert (bool_decide (p = STATE_PATH) && negb (len b =? Z.of_nat STATE_LEN) = false) as -> by (case_bool_decide as C; [rewrite Hs by done; by rewrite Z.eqb_refl | done]).
    rewrite R. unfold open_truncate, write_all, sync_all, next_verdict, set_file. rewrite Hf. cbn [os_faults]. by rewrite Hf. }
  destruct (file_write_sync d p b) as [r d']. cbn [fst snd] in *. subst r. exists d'. split; [done |]. split; [done |]. intros q l' b' L' Hq.
  destruct (decide (q = p)) as [->|Hne]; [rewrite Ha in Hq; injection Hq as <-; rewrite L in L'; by injection L' as <- | rewrite Ho in Hq by done; by eapply Hl].
Qed.

(** What a load settles on is what the next load finds settled. *)
Definition settled (st : DatabaseState) (k : SnapshotKind) (oc : option Candidate) : Prop :=
  match oc with
  | Some c => active_slot st k = cd_slot c /\ metadata_matches (metadata st k) (cd_metadata c) = true
  | None => active_slot st k = SlotA /\ metadata st k = SnapshotMetadata_default
  end.

Lemma settled_describes st k oc : settled st k oc -> describes st k oc.
Proof. by destruct oc. Qed.

Lemma apply_loaded_settled st k oc : settled st k oc -> apply_loaded st k oc = (st, false).
Proof.
  unfold apply_loaded. destruct oc as [c|]; intros [Ha Hm].
  - rewrite Hm, Ha. cbn [snapshot_version generated_at expires_at]. unfold metadata_matches in Hm. bool_cases.
    assert ({| snapshot_version := vs_version (cd_metadata c); generated_at := vs_generated_at (cd_metadata c); expires_at := vs_expires_at (cd_metadata c);
              last_checked_at := last_checked_at (metadata st k); etag := etag (metadata st k) |} = metadata st k) as -> by (destruct (metadata st k); cbn in *; congruence).
    rewrite !bool_decide_true by done. rewrite <- Ha. by destruct st, k.
  - rewrite Ha, Hm. rewrite !bool_decide_true by done. rewrite <- Hm, <- Ha. by destruct st, k.
Qed.

Lemma settle_settled st t r : let st' := fst (apply_loaded (fst (apply_loaded st Trust t)) Revocations r) in settled st' Trust t /\ settled st' Revocations r.
Proof.
  intros st'. unfold st'. destruct (apply_loaded_state st Trust t) as (m1 & E1 & _ & D1). rewrite E1.
  destruct (apply_loaded_state (set_metadata (set_active_slot st Trust (match t with Some c => cd_slot c | None => SlotA end)) Trust m1) Revocations r) as (m2 & E2 & _ & D2). rewrite E2.
  by split; [destruct t | destruct r].
Qed.

Lemma settled_generation st g k oc : settled st k oc -> settled (set_generation st g) k oc.
Proof. destruct oc; cbn; by rewrite active_set_generation, metadata_set_generation. Qed.

Section Recovery.
Context (sha256 : list Z -> list Z) (Hsha : forall x, List.length (sha256 x) = CHECKSUM_LEN) (Hsha8 : forall x, Forall is_u8 (sha256 x)).
Context {V : Type} `{SnapshotValidator V} `{!ValidatorLaws V} (Hstable : forall k, stable k) (Hactivate : forall v k b, fst (activate v k b) = Ok tt).
Implicit Types (d : Disk) (v : V).

Lemma run_read d v p : reliable d -> known p -> backend_read p (d, v) = (Ok (contents d p), (d, v)).
Proof using. intros Hd Hp. unfold backend_read. cbn [fst snd]. change (read d p) with (file_read d p). by rewrite reliable_read. Qed.

Lemma run_candidate d v k slot : reliable d -> exists v', load_candidate k slot (d, v) = (Ok (cand (contents d) k slot), (d, v')).
Proof using Hstable.
  intros Hd. unfold load_candidate, bind. rewrite run_read by (done || apply known_slot). unfold cand. destruct (contents d (slot_path k slot)) as [b|]; [| by exists v].
  unfold validator_validate. cbn [fst snd]. pose proof (validate_answer v k b) as Ha. pose proof (validate_stable v k b (Hstable k)) as Hj.
  destruct (validate v k b) as [[m|e|] v']; cbn in *; [| | done]; rewrite <- Hj; by eexists.
Qed.

Lemma run_kind d v k st : reliable d -> exists v', load_kind k st (d, v) = (Ok (pick (contents d) k st), (d, v')).
Proof using Hstable.
  intros Hd. unfold load_kind, bind, pick. set (first := match st with Some st => active_slot st k | None => SlotA end).
  destruct (run_candidate d v k first Hd) as [v1 E1]. rewrite E1. destruct (current _ _ _); [by eexists |].
  destruct (run_candidate d v1 k (inactive first) Hd) as [v2 E2]. rewrite E2. by eexists.
Qed.

Lemma run_activate d v k oc : exists v', activate_candidate k oc (d, v) = (Ok tt, (d, v')).
Proof using Hactivate.
  destruct oc as [c|]; [| by exists v]. cbn. unfold validator_activate. cbn [fst snd]. pose proof (Hactivate v k (cd_bytes c)) as Ha. destruct (activate _ _ _) as [r v']. cbn in Ha. subst r. by exists v'.
Qed.

(** The state a load settles on. *)
Definition settle (fs : string -> option (list Z)) : DatabaseState * bool :=
  let st0 := stored sha256 fs in
  let '(st1, c1) := apply_loaded (default DatabaseState_default st0) Trust (pick fs Trust st0) in
  let '(st2, c2) := apply_loaded st1 Revocations (pick fs Revocations st0) in
  (st2, bool_decide (st0 = None) || c1 || c2).

Definition loaded (fs : string -> option (list Z)) (st : DatabaseState) (r : bool) : LoadedDatabase :=
  {| ld_state := st; ld_trust := cd_bytes <$> pick fs Trust (stored sha256 fs); ld_revocations := cd_bytes <$> pick fs Revocations (stored sha256 fs); recovered := r |}.

Lemma run_load d v repair : reliable d -> disk_ok sha256 (contents d) -> exists v',
  load_database_inner sha256 repair (d, v) =
  (let '(st, r) := settle (contents d) in
   bind (if r && repair then bind (lift (checked_generation st)) (fun g => bind (write_state sha256 (set_generation st g)) (fun _ => ret (set_generation st g))) else ret st)
        (fun st' => ret (loaded (contents d) st' r))) (d, v').
Proof using Hstable Hactivate.
  intros Hd Hok. unfold load_database_inner. unfold bind at 1. rewrite run_read by (done || apply known_state). unfold bind at 1, lift at 1.
  assert (match contents d STATE_PATH with
          | Some bytes => match DatabaseState_decode sha256 bytes with Ok s => Ok (Some s) | Err _ => Ok None | Panic => Panic end
          | None => Ok None end = Ok (E := StorageError) (stored sha256 (contents d))) as ->.
  { unfold stored. destruct (contents d STATE_PATH) eqn:Hb; [| done]. destruct (Hok _ Hb) as [_ Hp]. by destruct (DatabaseState_decode sha256 _). }
  unfold bind at 1. destruct (run_kind d v Trust (stored sha256 (contents d)) Hd) as [v1 ->].
  unfold bind at 1. destruct (run_activate d v1 Trust (pick (contents d) Trust (stored sha256 (contents d)))) as [v2 ->].
  unfold bind at 1. destruct (run_kind d v2 Revocations (stored sha256 (contents d)) Hd) as [v3 ->].
  unfold bind at 1. destruct (run_activate d v3 Revocations (pick (contents d) Revocations (stored sha256 (contents d)))) as [v4 ->].
  exists v4. unfold settle. destruct (apply_loaded _ Trust _) as [st1 c1]. by destruct (apply_loaded st1 _ _) as [st2 c2].
Qed.

(** A disk whose state record is settled needs no repair. *)
Lemma run_settled d v st repair : reliable d -> disk_ok sha256 (contents d) -> stored sha256 (contents d) = Some st ->
  (forall k, settled st k (pick (contents d) k (Some st))) -> exists v', load_database_inner sha256 repair (d, v) = (Ok (loaded (contents d) st false), (d, v')).
Proof using Hstable Hactivate.
  intros Hd Hok Hst Hset. destruct (run_load d v repair Hd Hok) as [v' ->]. exists v'. unfold settle. rewrite Hst. cbn [default]. unfold default, id.
  rewrite (apply_loaded_settled st Trust) by apply Hset. rewrite (apply_loaded_settled st Revocations) by apply Hset. done.
Qed.

Lemma settled_pick fs k st st0 : settled st k (pick fs k st0) -> pick fs k (Some st) = pick fs k st0.
Proof using.
  destruct (pick fs k st0) as [c|] eqn:P; intros [Ha Hm].
  - unfold pick. rewrite Ha, (pick_slot _ _ _ _ P). cbn [current]. by rewrite Hm.
  - assert (forall slot, cand fs k slot = None) as Hn.
    { unfold pick in P. set (first := match st0 with Some st => active_slot st k | None => SlotA end) in P.
      destruct (current _ _ _) eqn:C; [rewrite P in C; by destruct st0 |]. intros slot.
      destruct (cand fs k first) as [a|] eqn:A, (cand fs k (inactive first)) as [b|] eqn:B; cbn in P; [by destruct (_ || _) in P | done | done |]. by destruct slot, first. }
    unfold pick. by rewrite !Hn.
Qed.

Lemma settle_pick fs : let st := fst (settle fs) in forall k, settled st k (pick fs k (stored sha256 fs)).
Proof using.
  unfold settle. pose proof (settle_settled (default DatabaseState_default (stored sha256 fs)) (pick fs Trust (stored sha256 fs)) (pick fs Revocations (stored sha256 fs))) as [S1 S2].
  destruct (apply_loaded _ Trust _) as [st1 c1]. cbn [fst] in *. destruct (apply_loaded st1 _ _) as [st2 c2]. cbn in *. by intros [].
Qed.

Lemma settle_state_ok v fs : disk_ok sha256 fs -> state_ok (fst (settle fs)).
Proof using Hsha Hstable.
  intros Hd. assert (forall k st, cand_ok k (fun _ => True) (pick fs k st)) as Hc.
  { intros k st. destruct (pick_cases fs k st) as [slot ->]. unfold cand. destruct (fs _) as [b|]; [| done]. pose proof (validate_answer v k b) as Ha. rewrite (validate_stable v k b (Hstable k)) in Ha. by destruct (judge k b). }
  assert (state_ok (default DatabaseState_default (stored sha256 fs))) as Hst0.
  { destruct (stored sha256 fs) eqn:S; [by eapply (stored_state_ok sha256) | apply state_ok_default]. }
  pose proof (describes_apply_loaded (default DatabaseState_default (stored sha256 fs)) (pick fs Trust (stored sha256 fs)) (pick fs Revocations (stored sha256 fs))) as (_ & _ & Hst).
  specialize (Hst Hst0 (Hc _ _) (Hc _ _)). unfold settle. destruct (apply_loaded _ Trust _) as [st1 c1]. cbn [fst] in *. by destruct (apply_loaded st1 _ _).
Qed.

Lemma apply_loaded_unchanged st k oc : snd (apply_loaded st k oc) = false -> fst (apply_loaded st k oc) = st.
Proof using.
  unfold apply_loaded. destruct oc as [c|]; cbn [fst snd]; intros [E1%negb_false_iff E2%negb_false_iff]%orb_false_iff; apply bool_decide_eq_true in E1, E2;
    rewrite <- E1, <- E2; by destruct st, k.
Qed.

Lemma apply_loaded_generation st k oc : generation (fst (apply_loaded st k oc)) = generation st.
Proof using. destruct (apply_loaded_state st k oc) as (m & -> & _). by destruct k. Qed.

Lemma settle_facts fs : generation (fst (settle fs)) = generation (default DatabaseState_default (stored sha256 fs)) /\
  (snd (settle fs) = false -> stored sha256 fs = Some (fst (settle fs))).
Proof using.
  unfold settle. set (st0 := default DatabaseState_default (stored sha256 fs)).
  pose proof (apply_loaded_generation st0 Trust (pick fs Trust (stored sha256 fs))) as G1. pose proof (apply_loaded_unchanged st0 Trust (pick fs Trust (stored sha256 fs))) as U1.
  destruct (apply_loaded st0 Trust _) as [st1 c1]. cbn [fst snd] in *.
  pose proof (apply_loaded_generation st1 Revocations (pick fs Revocations (stored sha256 fs))) as G2. pose proof (apply_loaded_unchanged st1 Revocations (pick fs Revocations (stored sha256 fs))) as U2.
  destruct (apply_loaded st1 _ _) as [st2 c2]. cbn [fst snd] in *. split; [by rewrite G2 |]. intros [[Hn ->]%orb_false_iff ->]%orb_false_iff. rewrite U2, U1 by done.
  apply bool_decide_eq_false in Hn. unfold st0. by destruct (stored sha256 fs).
Qed.

(** Writing the state record, on a disk that works. *)
Lemma run_write_state d v st : reliable d -> disk_ok sha256 (contents d) -> state_ok st -> exists d', write_state sha256 st (d, v) = (Ok tt, (d', v)) /\ reliable d' /\
  (forall k slot, contents d' (slot_path k slot) = contents d (slot_path k slot)) /\ disk_ok sha256 (contents d') /\ stored sha256 (contents d') = Some st.
Proof using Hsha Hsha8.
  intros Hd Hok Hst. destruct (reliable_write d STATE_PATH (wire sha256 st) (Z.of_nat STATE_LEN) Hd eq_refl) as (d' & Hw & Hd');
    [unfold len; by rewrite wire_length | intros _; unfold len; by rewrite wire_length |].
  exists d'. assert (write_state sha256 st (d, v) = (Ok tt, (d', v))) as Hrun.
  { unfold write_state, bind, lift. rewrite encode_Ok by done || (unfold zeros; by rewrite length_replicate). rewrite drop_ge, app_nil_r by (unfold zeros; by rewrite length_replicate).
    unfold backend_write. cbn [fst snd]. change (write_sync d) with (file_write_sync d). by rewrite Hw. }
  pose proof (wp_write_state sha256 Hsha Hsha8 st (fun _ s' => state_torn sha256 st (d, v) s' /\ stored sha256 (view s') = Some st) (fun _ => True) (d, v) Hst Hok) as W.
  unfold wp in W. rewrite Hrun in W. destruct W as [(Hsl & Hd2 & _) Hs]; [by intros; split | done |]. by split_and!.
Qed.


End Recovery.

(** C4: on the file backend, over any sequence of loads, updates, checks and restarts and any failures of the calls it makes,
    including writes that stop half-way, no operation panics; and once a caller has been given a snapshot, or told that it is
    stored, every later successful load gives a valid snapshot of that version or a newer one.  This holds of each kind whose
    validity depends on the bytes alone and is lost by truncation. *)
Theorem snapshots_never_roll_back (sha256 : list Z -> list Z) {V : Type} `{SnapshotValidator V} `{!ValidatorLaws V} (d : Disk) (v : V) (ops : list op) :
  (forall x, List.length (sha256 x) = CHECKSUM_LEN /\ Forall is_u8 (sha256 x)) -> disk_ok sha256 (contents d) -> Forall op_ok ops ->
  let rs := fst (perform_all sha256 {| sy_disk := d; sy_validator := v; sy_state := None |} ops) in
  Forall (fun r => r <> Panicked) rs /\
  forall k i j r version ld, stable k -> (i < j)%nat -> rs !! i = Some r -> delivered r k = Some version -> rs !! j = Some (Loaded ld) ->
    exists b m, snapshot_of ld k = Some b /\ judge k b = Ok m /\ metadata_matches (metadata (ld_state ld) k) m = true /\ version <= vs_version m.
Proof.
  intros Hsha Hd Hops rs. assert (healthy sha256 {| sy_disk := d; sy_validator := v; sy_state := None |}) as Hy by done.
  split; [apply (perform_all_no_panic sha256 (fun x => proj1 (Hsha x)) (fun x => proj2 (Hsha x)) _ _ Hy Hops) |]. intros k i j r version ld Hk Hij Hi Hv Hj.
  eapply (perform_all_no_rollback sha256 (fun x => proj1 (Hsha x)) (fun x => proj2 (Hsha x))); [exact Hk | exact Hy | exact Hops | exact Hij | exact Hi | exact Hv | exact Hj | done].
Qed.

(** ** A validator, and a disk that tears a write *)

(** Snapshots of one byte, their version. *)
Definition byte_judge (b : list Z) : result StorageError ValidatedSnapshot :=
  match b with
  | [x] => if (0 <=? x) && (x <? 256) then Ok {| vs_version := x; vs_generated_at := 0; vs_expires_at := 0 |} else Err InvalidSnapshot
  | _ => Err InvalidSnapshot
  end.
#[export] Instance byte_validator : SnapshotValidator unit := { validate v _ b := (byte_judge b, v); activate v _ _ := (Ok tt, v) }.

Lemma byte_answer (v : unit) (k : SnapshotKind) b : match fst (validate v k b) with
  | Ok m => is_u64 (vs_version m) /\ is_u64 (vs_generated_at m) /\ is_u64 (vs_expires_at m) | Err _ => True | Panic => False end.
Proof. cbn. unfold byte_judge. destruct b as [|x [|]]; [done | | done]. destruct (_ && _) eqn:C; [| done]. bool_cases. cbn. widths. lia. Qed.

Lemma byte_prefix (k : SnapshotKind) b m m' n : True -> byte_judge b = Ok m -> byte_judge (take n b) = Ok m' -> take n b = b.
Proof. intros _. destruct b as [|x [|y b]]; [done | | done]. by destruct n as [|[|n]]. Qed.

#[export] Instance byte_laws : ValidatorLaws unit := {
  stable _ := True; judge _ := byte_judge; validate_answer := byte_answer; validate_stable _ _ _ _ := eq_refl; judge_prefix := byte_prefix;
  activate_answer _ _ _ := ltac:(done) }.

(** The twenty-third call, the write of the second state record, stops after a hundred bytes. *)
Definition tearing_disk : Disk :=
  {| backend := for_root_read_only "/"; os := {| os_files := ∅; os_faults := repeat Works 22 ++ [Fails 100]; os_mkdir := fun _ => None |} |}.
Definition tearing_ops : list op := [OpLoad true; OpPersist Trust [5] [] 10; OpPersist Trust [6] [] 20; OpRestart; OpLoad true].
Definition no_sha (x : list Z) : list Z := zeros 32.

Lemma no_sha_ok x : List.length (no_sha x) = CHECKSUM_LEN /\ Forall is_u8 (no_sha x).
Proof. split; [done | apply zeros_u8]. Qed.

Lemma snapshots_never_roll_back_witness :
  let rs := fst (perform_all no_sha {| sy_disk := tearing_disk; sy_validator := tt; sy_state := None |} tearing_ops) in
  rs !! 2%nat = Some Refused /\ exists ld b m, rs !! 4%nat = Some (Loaded ld) /\ snapshot_of ld Trust = Some b /\ byte_judge b = Ok m /\ 5 <= vs_version m.
Proof.
  intros rs. split; [vm_compute; reflexivity |].
  destruct (snapshots_never_roll_back no_sha tearing_disk tt tearing_ops no_sha_ok) as [_ Hs].
  { intros b Hb. vm_compute in Hb. discriminate. }
  { repeat constructor; widths; try lia; cbn; lia. }
  assert (exists r, rs !! 1%nat = Some r /\ delivered r Trust = Some 5) as (r & Hr & Hd) by (eexists; split; vm_compute; reflexivity).
  assert (exists ld, rs !! 4%nat = Some (Loaded ld)) as [ld Hl] by (eexists; vm_compute; reflexivity).
  destruct (Hs Trust 1%nat 4%nat r 5 ld I ltac:(lia) Hr Hd Hl) as (b & m & Hb & Hm & _ & Hv). exists ld, b, m. auto.
Defined.

(** A state record cut short, beside two valid snapshots. *)
Definition cut_disk : Disk :=
  {| backend := for_root_read_only "/";
     os := {| os_files := {[ STATE_PATH := [67; 80; 75]; TRUST_A_PATH := [5]; TRUST_B_PATH := [6] ]}; os_faults := []; os_mkdir := fun _ => None |} |}.

Lemma cut_disk_reliable : reliable cut_disk.
Proof.
  split; [done |]. intros p l b Hl Hb. assert (Z.of_nat STATE_LEN <= l) as Hmin.
  { unfold limit in Hl. destruct (bool_decide _); [by injection Hl as <- |]. destruct (snapshot_path p); [injection Hl as <-; done | done]. }
  assert (map_Forall (fun _ b => len b <= 3) (os_files (os cut_disk))) as Hall by (apply (bool_decide_unpack _); vm_compute; exact I).
  unfold contents in Hb. destruct (resolve _ p); [| done..]. apply Hall in Hb. unfold STATE_LEN in Hmin. lia.
Qed.

