(* ===== verification/LaunchImage.v ===== *)
(** * Executable images for mapping and launching ([Image] of [posix-client/src/elf_launch.rs])

    The parser of ELF64 images whose loadable segments are installed in memory, by the process itself or through a launch
    container.  It checks what the later steps rely on; nothing is relocated here. *)

From S2P Require Import Prelude Text Fields.

(** ** The code *)

Definition PAGE : Z := 4096.
Definition USER_MIN : Z := 4194304. (* 0x400000 *)
Definition USER_END : Z := 140737488355328. (* 0x8000_0000_0000 *)
Definition LOAD : Z := 1.
Definition PHDR : Z := 6.
Definition STACK : Z := 1685382481. (* 0x6474e551 *)

Inductive Error : Type := Invalid | Unsupported | TooLarge | ShortOutput.

Definition add (a b : Z) : result Error Z := if a + b <=? U64_MAX then Ok (a + b) else Err TooLarge.
Definition align (a b : Z) : result Error Z := let? s := add a (b - 1) in Ok (Z.land s (Z.lnot (b - 1))).
Definition extent (b : list Z) (at_ n : Z) : result Error (nat * nat) :=
  let? e := add at_ n in
  if len b <? e then Err Invalid else Ok (Z.to_nat at_, Z.to_nat e).

Definition read (n : nat) (b : list Z) (at_ : nat) : result Error Z := let? s := slice b at_ (at_ + n) in Ok (from_le s).
Definition word : list Z -> nat -> result Error Z := read 8.

(** [Option::is_some]. *)
Definition some {A} (o : option A) : bool := match o with Some _ => true | None => false end.

Record Segment : Type := { kind : Z; flags : Z; sg_offset : Z; address : Z; file : Z; memory : Z; alignment : Z }.

Record Image : Type := {
  bytes_of : list Z;
  phoff : nat;
  count : nat;
  fixed : bool;
  entry : Z;
  im_alignment : Z;
  minimum : Z;
  maximum : Z;
  loads : Z }.

Definition segment (self : Image) (i : nat) : result Error Segment :=
  let? b := slice (bytes_of self) (phoff self + i * 56) (phoff self + (i + 1) * 56) in
  let? kind := read 4 b 0 in
  let? flags := read 4 b 4 in
  let? offset := word b 8 in
  let? address := word b 16 in
  let? file := word b 32 in
  let? memory := word b 40 in
  let? alignment := word b 48 in
  Ok {| kind := kind; flags := flags; sg_offset := offset; address := address; file := file; memory := memory; alignment := alignment |}.

Definition image_bytes (self : Image) (s : Segment) : result Error (list Z) :=
  if sg_offset s + file s <=? U64_MAX then slice (bytes_of self) (Z.to_nat (sg_offset s)) (Z.to_nat (sg_offset s + file s)) else Panic.

Definition mapping_range (self : Image) (bias : Z) : result Error (Z * Z) :=
  if (fixed self && negb (bias =? 0)) || negb (bias mod im_alignment self =? 0) then Err Invalid else
  let? start := add bias (minimum self) in
  let? end_ := add bias (maximum self) in
  if (start <? USER_MIN) || (USER_END <? end_) then Err Invalid else Ok (start, end_).

(** The loop of [interpreter], from segment [i] with [n] to go. *)
Fixpoint interpreter_loop (self : Image) (n i : nat) (path : option (list Z)) : result Error (option (list Z)) :=
  match n with
  | O => Ok path
  | S n =>
      let? s := segment self i in
      let? path := (if kind s =? 3 then
          if some path || negb ((2 <=? file s) && (file s <=? 4096)) then Err Invalid else
          let? (a, e) := extent (bytes_of self) (sg_offset s) (file s) in
          let? text := slice (bytes_of self) a e in
          let? body := slice text 0 (List.length text - 1) in
          if negb (bool_decide (last text = Some 0)) || existsb (Z.eqb 0) body then Err Invalid else Ok (Some body)
        else Ok path) in
      interpreter_loop self n (i + 1) path
  end.
Definition image_interpreter (self : Image) : result Error (option (list Z)) := interpreter_loop self (count self) 0 None.

(** The address of the program headers, when a loadable readable segment holds them. *)
Fixpoint header_loop (self : Image) (bias : Z) (n i : nat) : result Error (option Z) :=
  let length := Z.of_nat (count self) * 56 in
  match n with
  | O => Ok None
  | S n =>
      let? s := segment self i in
      if (kind s =? LOAD) && negb (Z.land (flags s) 4 =? 0) && (sg_offset s <=? Z.of_nat (phoff self)) then
        match checked_add64 (Z.of_nat (phoff self)) length, checked_add64 (sg_offset s) (file s) with
        | Some a, Some b =>
            if a <=? b then Ok (match checked_add64 bias (address s) with Some x => checked_add64 x (Z.of_nat (phoff self) - sg_offset s) | None => None end)
            else header_loop self bias n (i + 1)
        | _, _ => Ok None
        end
      else header_loop self bias n (i + 1)
  end.
Definition header_address (self : Image) (bias : Z) : result Error (option Z) := header_loop self bias (count self) 0.

Definition place (self : Image) (desired : Z) : result Error (Z * Z) :=
  let? bias := (if fixed self then Ok 0 else align desired (im_alignment self)) in
  let? end_ := add bias (maximum self) in
  let? start := add bias (minimum self) in
  if (start <? USER_MIN) || (USER_END <? end_) then Err Invalid else Ok (bias, end_).

Definition is_power_of_two (v : Z) : bool := (0 <? v) && (Z.land v (v - 1) =? 0).
Definition page_down (a : Z) : Z := Z.land a (Z.lnot (PAGE - 1)).

(** The variables of the loop over program headers. *)
Record Scan : Type := { sc_image : Image; executable : bool; phdr : option Segment; stack : bool }.

Definition with_loads (im : Image) (al mi ma lo : Z) : Image :=
  {| bytes_of := bytes_of im; phoff := phoff im; count := count im; fixed := fixed im; entry := entry im;
     im_alignment := al; minimum := mi; maximum := ma; loads := lo |}.

(** The comparison with the earlier segments, [j] of them done and [n] to go. *)
Fixpoint overlap_loop (im : Image) (low high : Z) (n j : nat) : result Error unit :=
  match n with
  | O => Ok tt
  | S n =>
      let? other := segment im j in
      let? hit := (if (kind other =? LOAD) && negb (memory other =? 0) then
                     let? e := add (address other) (memory other) in
                     let? e := align e PAGE in
                     Ok ((low <? e) && (page_down (address other) <? high))
                   else Ok false) in
      if hit : bool then Err Invalid else overlap_loop im low high n (j + 1)
  end.

Definition scan_load (st : Scan) (i : nat) (s : Segment) : result Error Scan :=
  let im := sc_image st in
  let? _ := extent (bytes_of im) (sg_offset s) (file s) in
  if (memory s <? file s) || negb (Z.land (flags s) (Z.lnot 7) =? 0) || (Z.land (flags s) 3 =? 3)
     || ((1 <? alignment s) && (negb (is_power_of_two (alignment s)) || negb (address s mod alignment s =? sg_offset s mod alignment s)))
  then Err Invalid else
  let? end_ := add (address s) (memory s) in
  if USER_END <? end_ then Err Invalid else
  let im := with_loads im (Z.max (im_alignment im) (alignment s)) (minimum im) (maximum im) (loads im) in
  if memory s =? 0 then Ok {| sc_image := im; executable := executable st; phdr := phdr st; stack := stack st |} else
  let low := page_down (address s) in
  let? high := align end_ PAGE in
  let? _ := overlap_loop im low high i 0 in
  let im := with_loads im (im_alignment im) (Z.min (minimum im) low) (Z.max (maximum im) high) (loads im + 1) in
  Ok {| sc_image := im;
        executable := executable st || (negb (Z.land (flags s) 1 =? 0) && (address s <=? entry im) && (entry im <? end_));
        phdr := phdr st; stack := stack st |}.

Definition scan_step (st : Scan) (i : nat) : result Error Scan :=
  let? s := segment (sc_image st) i in
  if (kind s =? STACK) && (stack st || negb (Z.land (flags s) 1 =? 0)) then Err Unsupported else
  let st := {| sc_image := sc_image st; executable := executable st; phdr := phdr st; stack := stack st || (kind s =? STACK) |} in
  if (kind s =? PHDR) && some (phdr st) then Err Invalid else
  let st := {| sc_image := sc_image st; executable := executable st; phdr := (if kind s =? PHDR then Some s else phdr st); stack := stack st |} in
  if negb (kind s =? LOAD) then Ok st else scan_load st i s.

Fixpoint scan_loop (st : Scan) (n i : nat) : result Error Scan :=
  match n with
  | O => Ok st
  | S n => let? st := scan_step st i in scan_loop st n (i + 1)
  end.

Definition ELF_MAGIC : list Z := [127; 69; 76; 70; 2; 1; 1].

(** The first condition of [parse_impl]; the tests stop at the first that fails. *)
Definition bad_header (b : list Z) : result Error bool :=
  if (List.length b <? 64)%nat then Ok true else
  let? ident := slice b 0 7 in
  if negb (bool_decide (ident = ELF_MAGIC)) then Ok true else
  let? ty := read 2 b 16 in
  if negb ((ty =? 2) || (ty =? 3)) then Ok true else
  let? machine := read 2 b 18 in
  if negb (machine =? 62) then Ok true else
  let? version := slice b 20 24 in
  if negb (bool_decide (version = to_le 4 1)) then Ok true else
  let? ehsize := slice b 52 54 in
  if negb (bool_decide (ehsize = to_le 2 64)) then Ok true else
  let? phentsize := slice b 54 56 in
  Ok (negb (bool_decide (phentsize = to_le 2 56))).

(** The check of [PT_PHDR] after the loop. *)
Definition check_phdr (im : Image) (p : Segment) : result Error unit :=
  if negb (file p =? Z.of_nat (count im) * 56) || (memory p <? file p) || negb (sg_offset p =? Z.of_nat (phoff im)) then Err Invalid else
  let? a := header_address im 0 in
  if negb (bool_decide (a = Some (address p))) then Err Invalid else Ok tt.

Definition parse_impl (b : list Z) (require_entry : bool) : result Error Image :=
  let? bad := bad_header b in
  if bad : bool then Err Invalid else
  let? n := read 2 b 56 in
  if (n =? 0) || (n =? U16_MAX) then Err Invalid else
  let? table := word b 32 in
  let? (start, _) := extent b table (n * 56) in
  let? ty := slice b 16 18 in
  let? e := word b 24 in
  let im := {| bytes_of := b; phoff := start; count := Z.to_nat n; fixed := bool_decide (ty = to_le 2 2); entry := e;
               im_alignment := PAGE; minimum := U64_MAX; maximum := 0; loads := 0 |} in
  let? st := scan_loop {| sc_image := im; executable := false; phdr := None; stack := false |} (Z.to_nat n) 0 in
  let im := sc_image st in
  if (require_entry && negb (executable st)) || (loads im =? 0) || (fixed im && (minimum im <? USER_MIN)) then Err Invalid else
  let? _ := (match phdr st with Some p => check_phdr im p | None => Ok tt end) in
  let? _ := image_interpreter im in
  Ok im.

Definition Image_parse (b : list Z) : result Error Image := parse_impl b true.
Definition parse_mapping (b : list Z) : result Error Image := parse_impl b false.
