(* ===== verification/LaunchParse.v ===== *)
(** * What the image parser accepts

    Pure counterparts of the reads and roundings of [LaunchImage], the conditions of one turn of its loop, and the
    invariant of the loop. *)

From S2P Require Import Prelude Text Fields LaunchImage.

(** ** Rounding *)

Definition down (a : Z) : Z := a / 4096 * 4096.
Definition up (a : Z) : Z := (a + 4095) / 4096 * 4096.

Lemma land_lnot_ones a k : 0 <= k -> Z.land a (Z.lnot (2 ^ k - 1)) = a / 2 ^ k * 2 ^ k.
Proof.
  intros Hk. replace (2 ^ k - 1) with (Z.ones k) by (rewrite Z.ones_equiv; lia). rewrite <- Z.ldiff_land, Z.ldiff_ones_r, Z.shiftl_mul_pow2, Z.shiftr_div_pow2 by done. done.
Qed.

Lemma page_down_eq a : page_down a = down a.
Proof. apply (land_lnot_ones a 12). done. Qed.

Lemma add_Ok a b c : add a b = Ok c <-> c = a + b /\ a + b <= U64_MAX.
Proof. unfold add. destruct (Z.leb_spec (a + b) U64_MAX); naive_solver lia. Qed.

Lemma add_no_panic a b : add a b <> Panic.
Proof. unfold add. by destruct (_ <=? _). Qed.

Lemma align_pow2 a k : 0 <= k -> a + (2 ^ k - 1) <= U64_MAX -> align a (2 ^ k) = Ok ((a + (2 ^ k - 1)) / 2 ^ k * 2 ^ k).
Proof. intros Hk Ha. unfold align. rewrite (proj2 (add_Ok _ _ _) (conj eq_refl Ha)). by rewrite land_lnot_ones. Qed.

Lemma align_no_panic a b : align a b <> Panic.
Proof. unfold align. pose proof (add_no_panic a (b - 1)). by destruct (add a (b - 1)). Qed.

Lemma align_page a : a + 4095 <= U64_MAX -> align a PAGE = Ok (up a).
Proof. intros Ha. apply (align_pow2 a 12); [done | exact Ha]. Qed.

#[export] Hint Resolve add_no_panic align_no_panic : nopanic.

Lemma down_le a : down a <= a < down a + 4096.
Proof. unfold down. divlia. Qed.
Lemma up_ge a : up a - 4096 < a <= up a.
Proof. unfold up. divlia. Qed.
Lemma down_page a : down a mod 4096 = 0.
Proof. unfold down. by rewrite Z_mod_mult. Qed.
Lemma up_page a : up a mod 4096 = 0.
Proof. unfold up. by rewrite Z_mod_mult. Qed.

Lemma power_of_two_spec v : is_power_of_two v = true -> v = 2 ^ Z.log2 v.
Proof.
  unfold is_power_of_two. intros [Hv%Z.ltb_lt Hl%Z.eqb_eq]%andb_true_iff. destruct (Z.log2_spec v Hv) as [Hlo Hhi].
  destruct (Z.eq_dec v (2 ^ Z.log2 v)) as [|Hne]; [done |]. exfalso.
  assert (Z.testbit (Z.land v (v - 1)) (Z.log2 v) = true) as Hb.
  { rewrite Z.land_spec, Z.bit_log2 by done. cbn. assert (Z.log2 (v - 1) = Z.log2 v) as <- by (apply Z.log2_unique; [apply Z.log2_nonneg | lia]). apply Z.bit_log2. pose proof (Z.pow_pos_nonneg 2 (Z.log2 v)). pose proof (Z.log2_nonneg v). lia. }
  rewrite Hl in Hb. by rewrite Z.bits_0 in Hb.
Qed.

(** ** Reading *)

Definition take_le (n : nat) (h : list Z) (at_ : nat) : Z := from_le (take n (drop at_ h)).

Lemma read_in n b at_ : (at_ + n <= List.length b)%nat -> read n b at_ = Ok (take_le n b at_).
Proof. intros Hl. unfold read, take_le. rewrite slice_in by lia. do 4 f_equal. lia. Qed.

Lemma extent_Ok b a n r : 0 <= a -> 0 <= n -> extent b a n = Ok r <-> a + n <= len b /\ a + n <= U64_MAX /\ r = (Z.to_nat a, Z.to_nat (a + n)).
Proof.
  intros Ha Hn. unfold extent, add. destruct (Z.leb_spec (a + n) U64_MAX); [| naive_solver lia]. destruct (Z.ltb_spec (len b) (a + n)); naive_solver lia.
Qed.

Lemma extent_no_panic b a n : extent b a n <> Panic.
Proof. unfold extent. pose proof (add_no_panic a n). destruct (add a n); [by destruct (_ <? _) | done | done]. Qed.
#[export] Hint Resolve extent_no_panic : nopanic.

(** A program header. *)
Definition seg_of (h : list Z) : Segment :=
  {| kind := take_le 4 h 0; flags := take_le 4 h 4; sg_offset := take_le 8 h 8; address := take_le 8 h 16; file := take_le 8 h 32;
     memory := take_le 8 h 40; alignment := take_le 8 h 48 |}.
Definition header_of (b : list Z) (p i : nat) : list Z := take 56 (drop (p + i * 56) b).
Definition seg (im : Image) (i : nat) : Segment := seg_of (header_of (bytes_of im) (phoff im) i).

Definition table_ok (im : Image) : Prop := (phoff im + count im * 56 <= List.length (bytes_of im))%nat /\ Forall is_u8 (bytes_of im) /\ len (bytes_of im) <= ISIZE_MAX.

Lemma segment_Ok im i : table_ok im -> (i < count im)%nat -> segment im i = Ok (seg im i).
Proof.
  intros (Ht & _ & _) Hi. unfold segment. rewrite slice_in by lia. replace (phoff im + (i + 1) * 56 - (phoff im + i * 56))%nat with 56%nat by lia.
  fold (header_of (bytes_of im) (phoff im) i). assert (List.length (header_of (bytes_of im) (phoff im) i) = 56%nat) as Hl by (unfold header_of; rewrite length_take, length_drop; lia).
  unfold word. rewrite !read_in by lia. done.
Qed.

Lemma take_le_range n h at_ : Forall is_u8 h -> 0 <= take_le n h at_ < 256 ^ Z.of_nat n.
Proof.
  intros H8. unfold take_le. pose proof (from_le_range (take n (drop at_ h)) ltac:(by apply Forall_take, Forall_drop)) as Hr.
  assert (256 ^ len (take n (drop at_ h)) <= 256 ^ Z.of_nat n); [| lia]. apply Z.pow_le_mono_r; [done |]. unfold len. rewrite length_take. lia.
Qed.

Definition seg_ok (s : Segment) : Prop :=
  is_u32 (kind s) /\ is_u32 (flags s) /\ is_u64 (sg_offset s) /\ is_u64 (address s) /\ is_u64 (file s) /\ is_u64 (memory s) /\ is_u64 (alignment s).

Lemma seg_of_ok h : Forall is_u8 h -> seg_ok (seg_of h).
Proof.
  intros H8. unfold seg_ok, seg_of. cbn [kind flags sg_offset address file memory alignment]. split_and!;
  match goal with |- is_u32 (take_le 4 _ ?a) => apply (take_le_range 4 h a H8) | |- is_u64 (take_le 8 _ ?a) => apply (take_le_range 8 h a H8) end.
Qed.

Lemma seg_wf im i : table_ok im -> seg_ok (seg im i).
Proof. intros (_ & H8 & _). apply seg_of_ok. by apply Forall_take, Forall_drop. Qed.

(** ** One turn of the loop *)

Definition seg_end (s : Segment) : Z := address s + memory s.
(** A segment that takes up memory, and the pages it takes. *)
Definition loaded (s : Segment) : bool := (kind s =? LOAD) && negb (memory s =? 0).
Definition low (s : Segment) : Z := down (address s).
Definition high (s : Segment) : Z := up (seg_end s).
Definition apart (s t : Segment) : Prop := high t <= low s \/ high s <= low t.

Definition load_ok (b : list Z) (s : Segment) : Prop :=
  sg_offset s + file s <= len b /\ file s <= memory s /\ flags s < 8 /\ Z.land (flags s) 3 <> 3 /\
  (1 < alignment s -> is_power_of_two (alignment s) = true /\ address s mod alignment s = sg_offset s mod alignment s) /\ seg_end s <= USER_END.

Lemma overlap_loop_Ok im s n : table_ok im -> forall j, (j + n <= count im)%nat -> seg_ok s ->
  (forall k, (j <= k < j + n)%nat -> loaded (seg im k) = true -> seg_end (seg im k) <= USER_END) ->
  match overlap_loop im (low s) (high s) n j with
  | Ok _ => forall k, (j <= k < j + n)%nat -> loaded (seg im k) = true -> apart s (seg im k)
  | Err _ => exists k, (j <= k < j + n)%nat /\ loaded (seg im k) = true /\ ~ apart s (seg im k)
  | Panic => False
  end.
Proof.
  intros Ht. induction n as [|n IH]; intros j Hj Hs Hend; cbn [overlap_loop]; [intros k Hk; lia |].
  rewrite segment_Ok by (done || lia). fold (loaded (seg im j)). specialize (IH (j + 1)%nat ltac:(lia) Hs).
  assert (match overlap_loop im (low s) (high s) n (j + 1) with
          | Ok _ => forall k, (j + 1 <= k < j + S n)%nat -> loaded (seg im k) = true -> apart s (seg im k)
          | Err _ => exists k, (j + 1 <= k < j + S n)%nat /\ loaded (seg im k) = true /\ ~ apart s (seg im k)
          | Panic => False end) as IH'.
  { replace (j + S n)%nat with (j + 1 + n)%nat by lia. apply IH. intros k Hk. apply Hend. lia. }
  clear IH. destruct (loaded (seg im j)) eqn:L.
  - assert (seg_end (seg im j) <= USER_END) as He by (apply Hend; [lia | done]). unfold seg_end in He. unfold USER_END in He.
    rewrite (proj2 (add_Ok _ _ _)) by (split; [reflexivity | widths; lia]). cbn iota. rewrite align_page by (widths; lia). cbn iota. rewrite page_down_eq.
    change (up (address (seg im j) + memory (seg im j))) with (high (seg im j)). change (down (address (seg im j))) with (low (seg im j)).
    destruct (Z.ltb_spec (low s) (high (seg im j))); cbn [andb]; [destruct (Z.ltb_spec (low (seg im j)) (high s)) |].
    + exists j. split; [lia |]. split; [done |]. unfold apart. lia.
    + destruct (overlap_loop im _ _ n (j + 1)) as [[]|e|]; [| destruct IH' as (k & Hk & H'); exists k; split; [lia | done] | done].
      intros k Hk Hl. destruct (decide (k = j)) as [->|]; [right; lia | apply IH'; [lia | done]].
    + destruct (overlap_loop im _ _ n (j + 1)) as [[]|e|]; [| destruct IH' as (k & Hk & H'); exists k; split; [lia | done] | done].
      intros k Hk Hl. destruct (decide (k = j)) as [->|]; [left; lia | apply IH'; [lia | done]].
  - destruct (overlap_loop im _ _ n (j + 1)) as [[]|e|]; [| destruct IH' as (k & Hk & H'); exists k; split; [lia | done] | done].
    intros k Hk Hl. destruct (decide (k = j)) as [->|]; [congruence | apply IH'; [lia | done]].
Qed.

(** The state after a turn that is not refused. *)
Definition covers_entry (im : Image) (s : Segment) : bool := negb (Z.land (flags s) 1 =? 0) && (address s <=? entry im) && (entry im <? seg_end s).
Definition next_image (im : Image) (s : Segment) : Image :=
  if kind s =? LOAD then
    if loaded s then with_loads im (Z.max (im_alignment im) (alignment s)) (Z.min (minimum im) (low s)) (Z.max (maximum im) (high s)) (loads im + 1)
    else with_loads im (Z.max (im_alignment im) (alignment s)) (minimum im) (maximum im) (loads im)
  else im.
Definition next_scan (st : Scan) (s : Segment) : Scan :=
  {| sc_image := next_image (sc_image st) s; executable := executable st || (loaded s && covers_entry (sc_image st) s);
     phdr := if kind s =? PHDR then Some s else phdr st; stack := stack st || (kind s =? STACK) |}.
Definition turn_ok (st : Scan) (i : nat) (s : Segment) : Prop :=
  (kind s = STACK -> stack st = false /\ Z.land (flags s) 1 = 0) /\ (kind s = PHDR -> phdr st = None) /\
  (kind s = LOAD -> load_ok (bytes_of (sc_image st)) s) /\
  (loaded s = true -> forall j, (j < i)%nat -> loaded (seg (sc_image st) j) = true -> apart s (seg (sc_image st) j)).

Lemma small_flags f : 0 <= f -> (Z.land f (Z.lnot 7) =? 0) = true <-> f < 8.
Proof. intros Hf. rewrite Z.eqb_eq. change (Z.lnot 7) with (Z.lnot (2 ^ 3 - 1)). rewrite land_lnot_ones by done. change (2 ^ 3) with 8. divlia. Qed.

Lemma next_image_same im s : bytes_of (next_image im s) = bytes_of im /\ phoff (next_image im s) = phoff im /\ count (next_image im s) = count im /\
  fixed (next_image im s) = fixed im /\ entry (next_image im s) = entry im.
Proof. unfold next_image. by repeat case_match. Qed.

Lemma scan_load_spec st i s : table_ok (sc_image st) -> (i <= count (sc_image st))%nat -> seg_ok s -> kind s = LOAD ->
  (forall k, (k < i)%nat -> loaded (seg (sc_image st) k) = true -> seg_end (seg (sc_image st) k) <= USER_END) ->
  match scan_load st i s with
  | Ok st' => load_ok (bytes_of (sc_image st)) s /\ (loaded s = true -> forall j, (j < i)%nat -> loaded (seg (sc_image st) j) = true -> apart s (seg (sc_image st) j)) /\
      st' = {| sc_image := next_image (sc_image st) s; executable := executable st || (loaded s && covers_entry (sc_image st) s); phdr := phdr st; stack := stack st |}
  | Err _ => ~ (load_ok (bytes_of (sc_image st)) s /\ (loaded s = true -> forall j, (j < i)%nat -> loaded (seg (sc_image st) j) = true -> apart s (seg (sc_image st) j)))
  | Panic => False
  end.
Proof.
  intros Ht Hi Hs Hk Hend. pose proof Hs as (_ & Hf & Ho & Ha & Hfi & Hm & Hal). assert (len (bytes_of (sc_image st)) <= ISIZE_MAX) as Hlen by apply Ht. unfold scan_load, load_ok.
  destruct (extent _ _ _) as [r|e|] eqn:X; [| | by apply extent_no_panic in X].
  2: { intros [(H1 & _) _]. assert (exists r, extent (bytes_of (sc_image st)) (sg_offset s) (file s) = Ok r) as [r Hr].
       { eexists. apply extent_Ok; [widths; lia | widths; lia |]. split; [done |]. split; [widths; lia | reflexivity]. } congruence. }
  apply extent_Ok in X as (X1 & _ & _); [| widths; lia | widths; lia].
  destruct (Z.ltb_spec (memory s) (file s)) as [|M]; cbn [orb]; [intros [(_ & ? & _) _]; lia |].
  destruct (Z.land (flags s) (Z.lnot 7) =? 0) eqn:F7; cbn [negb orb].
  2: { intros [(_ & _ & H3 & _) _]. apply small_flags in H3; [congruence | widths; lia]. }
  apply small_flags in F7; [| widths; lia]. destruct (Z.eqb_spec (Z.land (flags s) 3) 3) as [|F3]; cbn [orb]; [intros [(_ & _ & _ & ? & _) _]; done |].
  destruct ((1 <? alignment s) && _) eqn:A; cbn [orb].
  { intros [(_ & _ & _ & _ & H5 & _) _]. apply andb_true_iff in A as [A1%Z.ltb_lt A2]. destruct (H5 A1) as [P E]. rewrite P, E, Z.eqb_refl in A2. done. }
  assert (1 < alignment s -> is_power_of_two (alignment s) = true /\ address s mod alignment s = sg_offset s mod alignment s) as HA.
  { intros Hgt. rewrite (proj2 (Z.ltb_lt _ _) Hgt) in A. cbn [andb] in A. bool_cases. done. }
  clear A. unfold add. fold (seg_end s). destruct (Z.leb_spec (seg_end s) U64_MAX) as [E64|E64]; [| intros [(_ & _ & _ & _ & _ & H6) _]; unfold USER_END in H6; widths; lia].
  destruct (Z.ltb_spec USER_END (seg_end s)) as [|EU]; [intros [(_ & _ & _ & _ & _ & H6) _]; lia |].
  assert (load_ok (bytes_of (sc_image st)) s) as Hload by (by split_and!).
  assert (loaded s = negb (memory s =? 0)) as EL by (unfold loaded; by rewrite Hk). unfold next_image. rewrite !EL, Hk. change (LOAD =? LOAD) with true. cbn iota. destruct (Z.eqb_spec (memory s) 0) as [M0|M0]; cbn [negb].
  - split; [done |]. split; [done |]. by rewrite andb_false_l, orb_false_r.
  - rewrite align_page by (unfold USER_END in EU; widths; lia). cbn iota. rewrite page_down_eq. change (down (address s)) with (low s). change (up (seg_end s)) with (high s).
    set (im' := with_loads (sc_image st) _ _ _ _). pose proof (overlap_loop_Ok im' s i Ht 0%nat Hi Hs) as Hov.
    destruct (overlap_loop im' (low s) (high s) i 0) as [[]|e|]; [| | apply Hov; intros k Hk'; apply Hend; lia].
    + split; [done |]. split; [| done]. intros _ j Hj Hl. apply (Hov (fun k Hk' => Hend k ltac:(lia)) j); [lia | exact Hl].
    + destruct Hov as (k & Hk' & Hl & Hna); [intros k Hk'; apply Hend; lia |]. intros [_ Hap]. apply Hna, (Hap eq_refl k); [lia | exact Hl].
Qed.

Lemma scan_step_spec st i : table_ok (sc_image st) -> (i < count (sc_image st))%nat ->
  (forall k, (k < i)%nat -> loaded (seg (sc_image st) k) = true -> seg_end (seg (sc_image st) k) <= USER_END) ->
  match scan_step st i with
  | Ok st' => turn_ok st i (seg (sc_image st) i) /\ st' = next_scan st (seg (sc_image st) i)
  | Err _ => ~ turn_ok st i (seg (sc_image st) i)
  | Panic => False
  end.
Proof.
  intros Ht Hi Hend. unfold scan_step. rewrite segment_Ok by done. pose proof (seg_wf (sc_image st) i Ht) as Hs. set (s := seg (sc_image st) i) in *. unfold turn_ok, next_scan.
  destruct (Z.eqb_spec (kind s) STACK) as [K|K]; cbn [andb].
  { assert (kind s <> PHDR /\ kind s <> LOAD /\ loaded s = false) as (K1 & K2 & K3) by (rewrite K; unfold loaded; by rewrite K).
    destruct (stack st); cbn [orb]; [intros [H _]; by destruct (H K) |]. destruct (Z.eqb_spec (Z.land (flags s) 1) 0) as [F|F]; cbn [negb]; [| intros [H _]; by destruct (H K)].
    unfold next_image. rewrite (proj2 (Z.eqb_neq _ _) K1), (proj2 (Z.eqb_neq _ _) K2), K3. cbn. split; [by split_and! |]. by rewrite orb_false_r. }
  rewrite orb_false_r. destruct (Z.eqb_spec (kind s) PHDR) as [P|P]; cbn [andb].
  { assert (kind s <> LOAD /\ loaded s = false) as (K2 & K3) by (rewrite P; unfold loaded; by rewrite P).
    cbn [phdr]. destruct (phdr st) as [p|]; cbn [some]; [intros (_ & H & _); by specialize (H P) |].
    unfold next_image. rewrite (proj2 (Z.eqb_neq _ _) K2), K3. cbn. split; [by split_and! |]. by rewrite orb_false_r. }
  destruct (Z.eqb_spec (kind s) LOAD) as [L|L]; cbn [negb].
  - pose proof (scan_load_spec {| sc_image := sc_image st; executable := executable st; phdr := phdr st; stack := stack st |} i s Ht (Nat.lt_le_incl _ _ Hi) Hs L Hend) as Hl.
    destruct (scan_load _ i s) as [st'|e|]; [| | done]; cbn [sc_image executable phdr stack] in Hl.
    + destruct Hl as (H1 & H2 & ->). done.
    + intros (_ & _ & H1 & H2). apply Hl. split; [by apply H1 | done].
  - assert (loaded s = false) as K3 by (unfold loaded; by rewrite (proj2 (Z.eqb_neq _ _) L)).
    unfold next_image. rewrite (proj2 (Z.eqb_neq _ _) L), K3. split; [by split_and! |]. by rewrite orb_false_r.
Qed.

(** ** The loop *)

Definition segs (im : Image) (n : nat) : list Segment := seg im <$> seq 0 n.
Definition scan_start (im : Image) : Scan := {| sc_image := im; executable := false; phdr := None; stack := false |}.
Definition scan_at (im : Image) (n : nat) : Scan := foldl next_scan (scan_start im) (segs im n).

Lemma segs_S im n : segs im (S n) = segs im n ++ [seg im n].
Proof. unfold segs. by rewrite seq_S, fmap_app. Qed.

Lemma scan_at_S im n : scan_at im (S n) = next_scan (scan_at im n) (seg im n).
Proof. unfold scan_at. by rewrite segs_S, foldl_app. Qed.

Definition same_source (im im' : Image) : Prop :=
  bytes_of im' = bytes_of im /\ phoff im' = phoff im /\ count im' = count im /\ fixed im' = fixed im /\ entry im' = entry im.

Lemma scan_at_source im n : same_source im (sc_image (scan_at im n)).
Proof.
  induction n as [|n (H1 & H2 & H3 & H4 & H5)]; [done |]. rewrite scan_at_S. unfold next_scan. cbn [sc_image].
  destruct (next_image_same (sc_image (scan_at im n)) (seg im n)) as (E1 & E2 & E3 & E4 & E5). unfold same_source. by rewrite E1, E2, E3, E4, E5.
Qed.

Lemma same_source_seg im im' i : same_source im im' -> seg im' i = seg im i.
Proof. intros (H1 & H2 & _). unfold seg. by rewrite H1, H2. Qed.

Lemma same_source_table im im' : same_source im im' -> table_ok im -> table_ok im'.
Proof. intros (H1 & H2 & H3 & _) (T1 & T2 & T3). unfold table_ok. by rewrite H1, H2, H3. Qed.

(** What the loop demands of a whole table. *)
Definition table_accepted (im : Image) (n : nat) : Prop := forall k, (k < n)%nat -> turn_ok (scan_at im k) k (seg im k).

Lemma accepted_end im n k : table_accepted im n -> (k < n)%nat -> loaded (seg im k) = true -> seg_end (seg im k) <= USER_END.
Proof. intros Ha Hk Hl. destruct (Ha k Hk) as (_ & _ & H & _). unfold loaded in Hl. bool_cases. by apply H. Qed.

Lemma scan_loop_from im n : table_ok im -> forall i, (i + n <= count im)%nat -> table_accepted im i ->
  match scan_loop (scan_at im i) n i with
  | Ok st => table_accepted im (i + n) /\ st = scan_at im (i + n)
  | Err _ => ~ table_accepted im (i + n)
  | Panic => False
  end.
Proof.
  intros Ht. induction n as [|n IH]; intros i Hi Ha; cbn [scan_loop]; [by rewrite Nat.add_0_r |].
  pose proof (scan_at_source im i) as Hsrc. pose proof (scan_step_spec (scan_at im i) i) as Hs. rewrite (same_source_seg _ _ i Hsrc) in Hs.
  assert (i < count (sc_image (scan_at im i)))%nat as Hi' by (destruct Hsrc as (_ & _ & -> & _); lia).
  specialize (Hs (same_source_table _ _ Hsrc Ht) Hi'). destruct (scan_step (scan_at im i) i) as [st|e|].
  - destruct Hs as [Hturn ->]; [intros k Hk; rewrite (same_source_seg _ _ k Hsrc); by apply (accepted_end im i) |]. rewrite <- scan_at_S.
    replace (i + 1)%nat with (S i) by lia. specialize (IH (S i)). replace (S i + n)%nat with (i + S n)%nat in IH by lia. apply IH; [done |].
    intros k Hk. destruct (decide (k = i)) as [->|]; [done | apply Ha; lia].
  - intros Hall. apply Hs; [intros k Hk; rewrite (same_source_seg _ _ k Hsrc); by apply (accepted_end im i) |]. apply Hall. lia.
  - apply Hs. intros k Hk. rewrite (same_source_seg _ _ k Hsrc). by apply (accepted_end im i).
Qed.

Lemma scan_loop_spec im : table_ok im -> match scan_loop (scan_start im) (count im) 0 with
  | Ok st => table_accepted im (count im) /\ st = scan_at im (count im)
  | Err _ => ~ table_accepted im (count im)
  | Panic => False
  end.
Proof. intros Ht. apply (scan_loop_from im (count im) Ht 0%nat); [lia |]. intros k Hk. lia. Qed.

(** ** The whole parser *)

Definition image0 (b : list Z) : Image :=
  {| bytes_of := b; phoff := Z.to_nat (take_le 8 b 32); count := Z.to_nat (take_le 2 b 56); fixed := bool_decide (take 2 (drop 16 b) = to_le 2 2); entry := take_le 8 b 24;
     im_alignment := PAGE; minimum := U64_MAX; maximum := 0; loads := 0 |}.

Definition header_fine (b : list Z) : Prop :=
  (64 <= List.length b)%nat /\ take 7 b = ELF_MAGIC /\ (take_le 2 b 16 = 2 \/ take_le 2 b 16 = 3) /\ take_le 2 b 18 = 62 /\ take 4 (drop 20 b) = to_le 4 1 /\
  take 2 (drop 52 b) = to_le 2 64 /\ take 2 (drop 54 b) = to_le 2 56 /\ take_le 2 b 56 <> 0 /\ take_le 2 b 56 <> U16_MAX /\
  take_le 8 b 32 + take_le 2 b 56 * 56 <= len b.

Lemma bad_header_spec b : exists r, bad_header b = Ok r /\ (r = false <->
  (64 <= List.length b)%nat /\ take 7 b = ELF_MAGIC /\ (take_le 2 b 16 = 2 \/ take_le 2 b 16 = 3) /\ take_le 2 b 18 = 62 /\ take 4 (drop 20 b) = to_le 4 1 /\
  take 2 (drop 52 b) = to_le 2 64 /\ take 2 (drop 54 b) = to_le 2 56).
Proof.
  unfold bad_header. destruct (Nat.ltb_spec (List.length b) 64) as [|Hl]; [exists true; split; [done |]; split; [done | intros [? _]; lia] |].
  rewrite slice_in by lia. cbn [drop]. change (7 - 0)%nat with 7%nat. case_bool_decide as E1; cbn [negb]; [| exists true; split; [done |]; naive_solver].
  rewrite read_in by lia. destruct ((take_le 2 b 16 =? 2) || (take_le 2 b 16 =? 3)) eqn:E2; cbn [negb].
  2: { exists true. split; [done |]. bool_cases. naive_solver. }
  apply orb_true_iff in E2. rewrite !Z.eqb_eq in E2. rewrite read_in by lia. destruct (Z.eqb_spec (take_le 2 b 18) 62) as [E3|]; cbn [negb]; [| exists true; split; [done |]; naive_solver].
  rewrite slice_in by lia. change (24 - 20)%nat with 4%nat. case_bool_decide as E4; cbn [negb]; [| exists true; split; [done |]; naive_solver].
  rewrite slice_in by lia. change (54 - 52)%nat with 2%nat. case_bool_decide as E5; cbn [negb]; [| exists true; split; [done |]; naive_solver].
  rewrite slice_in by lia. change (56 - 54)%nat with 2%nat. eexists. split; [reflexivity |]. case_bool_decide as E6; cbn [negb]; naive_solver.
Qed.

Lemma header_loop_no_panic im bias n : table_ok im -> forall i, (i + n <= count im)%nat -> exists a, header_loop im bias n i = Ok a.
Proof.
  intros Ht. induction n as [|n IH]; intros i Hi; cbn [header_loop]; [by eexists |]. rewrite segment_Ok by (done || lia).
  destruct (_ && _); [| apply IH; lia]. destruct (checked_add64 _ _); [| by eexists]. destruct (checked_add64 _ (file _)); [| by eexists]. destruct (_ <=? _); [by eexists | apply IH; lia].
Qed.

Lemma interpreter_no_panic im n : table_ok im -> forall i path, (i + n <= count im)%nat -> interpreter_loop im n i path <> Panic.
Proof.
  intros Ht. induction n as [|n IH]; intros i path Hi; cbn [interpreter_loop]; [done |]. rewrite segment_Ok by (done || lia).
  pose proof (seg_wf im i Ht) as (_ & _ & Ho & _ & Hf & _). generalize dependent (seg im i). intros s Ho Hf.
  destruct (kind _ =? 3); [| apply IH; lia]. destruct (some path || _) eqn:G; [done |]. apply orb_false_iff in G as [_ G%negb_false_iff].
  destruct (extent _ _ _) as [[a e]|x|] eqn:X; [| done | by apply extent_no_panic in X].
  apply extent_Ok in X as (X1 & _ & [= -> ->]); [| widths; lia | widths; lia]. apply andb_true_iff in G as [G1%Z.leb_le G2%Z.leb_le].
  assert (len (bytes_of im) <= ISIZE_MAX) as Hlen by apply Ht. unfold len in *. rewrite slice_in by (widths; lia). rewrite slice_in by (rewrite ?length_take, ?length_drop; widths; lia).
  destruct (_ || _); [done |]. apply IH. lia.
Qed.

Lemma check_phdr_no_panic im p : table_ok im -> check_phdr im p <> Panic.
Proof.
  intros Ht. unfold check_phdr. destruct (_ || _); [done |]. destruct (header_loop_no_panic im 0 (count im) Ht 0 ltac:(lia)) as [a Ha]. unfold header_address. rewrite Ha.
  by destruct (negb _).
Qed.

(** The image that the parser builds from an accepted table, and the checks that follow the loop. *)
Definition final (b : list Z) : Scan := scan_at (image0 b) (count (image0 b)).
Definition after_ok (require_entry : bool) (st : Scan) : Prop :=
  (require_entry = true -> executable st = true) /\ loads (sc_image st) <> 0 /\ (fixed (sc_image st) = true -> USER_MIN <= minimum (sc_image st)) /\
  (forall p, phdr st = Some p -> check_phdr (sc_image st) p = Ok tt) /\ exists path, image_interpreter (sc_image st) = Ok path.

Lemma image0_table b : Forall is_u8 b -> len b <= ISIZE_MAX -> header_fine b -> table_ok (image0 b).
Proof.
  intros H8 Hl (H64 & _ & _ & _ & _ & _ & _ & _ & _ & Ht). unfold table_ok, image0. cbn [phoff count bytes_of].
  pose proof (take_le_range 2 b 56 H8). pose proof (take_le_range 8 b 32 H8). unfold len in *. split; [lia | done].
Qed.

Definition accepted (b : list Z) (require_entry : bool) : Prop :=
  header_fine b /\ table_accepted (image0 b) (count (image0 b)) /\ after_ok require_entry (final b).

Lemma after_checks_spec r st : table_ok (sc_image st) ->
  match (if (r && negb (executable st)) || (loads (sc_image st) =? 0) || (fixed (sc_image st) && (minimum (sc_image st) <? USER_MIN)) then Err Invalid else
         let? _ := (match phdr st with Some p => check_phdr (sc_image st) p | None => Ok tt end) in
         let? _ := image_interpreter (sc_image st) in
         Ok (sc_image st)) with
  | Ok im => after_ok r st /\ im = sc_image st
  | Err _ => ~ after_ok r st
  | Panic => False
  end.
Proof.
  intros Ht. unfold after_ok. destruct (r && negb (executable st) || _ || _) eqn:G.
  { intros (A1 & A2 & A3 & _). apply not_false_iff_true in G. apply G. rewrite !orb_false_iff, !andb_false_iff, negb_false_iff, Z.eqb_neq, Z.ltb_ge.
    split_and!; [destruct r; [right; by apply A1 | by left] | done |]. destruct (fixed _); [right; by apply A3 | by left]. }
  rewrite !orb_false_iff, !andb_false_iff, negb_false_iff, Z.eqb_neq, Z.ltb_ge in G. destruct G as [[G1 G2] G3].
  pose proof (interpreter_no_panic (sc_image st) _ Ht 0%nat None (Nat.le_refl _)) as Hip. fold (image_interpreter (sc_image st)) in Hip.
  assert (match phdr st with Some p => check_phdr (sc_image st) p | None => Ok tt end <> Panic) as Hcp by (destruct (phdr st); [by apply check_phdr_no_panic | done]).
  destruct (match phdr st with Some p => _ | None => _ end) as [[]|x|] eqn:P; [| | done].
  - destruct (image_interpreter _) as [path|x|]; [| by intros (_ & _ & _ & _ & path & ?) | done]. split; [| done].
    split_and!; [by destruct r, G1 | done | by destruct (fixed _), G3 | by intros p Hp; rewrite Hp in P | by eexists].
  - intros (_ & _ & _ & A4 & _). destruct (phdr st) as [p|]; [| done]. specialize (A4 p eq_refl). congruence.
Qed.

Lemma parse_impl_spec b r : Forall is_u8 b -> len b <= ISIZE_MAX ->
  match parse_impl b r with Ok im => accepted b r /\ im = sc_image (final b) | Err _ => ~ accepted b r | Panic => False end.
Proof.
  intros H8 Hl. pose proof (take_le_range 2 b 56 H8) as R1. pose proof (take_le_range 8 b 32 H8) as R2. unfold parse_impl, accepted.
  destruct (bad_header_spec b) as (bad & -> & Hbad). destruct bad.
  { intros ((? & ? & ? & ? & ? & ? & ? & _) & _). assert (true = false) by (apply Hbad; by split_and!). done. }
  destruct (proj1 Hbad eq_refl) as (H64 & B1 & B2 & B3 & B4 & B5 & B6). clear Hbad. rewrite read_in by lia.
  destruct (Z.eqb_spec (take_le 2 b 56) 0) as [|N0]; cbn [orb]; [by intros ((_ & _ & _ & _ & _ & _ & _ & ? & _) & _) |].
  destruct (Z.eqb_spec (take_le 2 b 56) U16_MAX) as [|N1]; [by intros ((_ & _ & _ & _ & _ & _ & _ & _ & ? & _) & _) |].
  unfold word. rewrite read_in by lia. destruct (extent b _ _) as [[start e]|x|] eqn:X; [| | by apply extent_no_panic in X].
  2: { intros ((_ & _ & _ & _ & _ & _ & _ & _ & _ & Hfit) & _).
       assert (extent b (take_le 8 b 32) (take_le 2 b 56 * 56) = Ok (Z.to_nat (take_le 8 b 32), Z.to_nat (take_le 8 b 32 + take_le 2 b 56 * 56))); [| congruence].
       apply extent_Ok; [lia | lia |]. split; [done |]. split; [widths; lia | done]. }
  apply extent_Ok in X as (X1 & X2 & [= -> ->]); [| lia | lia]. assert (header_fine b) as Hfine by (by split_and!).
  rewrite slice_in by lia. change (18 - 16)%nat with 2%nat. rewrite read_in by lia. fold (image0 b). fold (scan_start (image0 b)).
  pose proof (image0_table b H8 Hl Hfine) as Ht. pose proof (scan_loop_spec (image0 b) Ht) as Hs. change (Z.to_nat (take_le 2 b 56)) with (count (image0 b)).
  destruct (scan_loop _ (count (image0 b)) 0) as [st|x|]; [| by intros (_ & ? & _) | done]. destruct Hs as [Hacc ->]. fold (final b).
  pose proof (after_checks_spec r (final b) (same_source_table _ _ (scan_at_source (image0 b) (count (image0 b))) Ht)) as Hf. cbv zeta.
  match goal with |- match ?e with Ok _ => _ | Err _ => _ | Panic => _ end => destruct e as [im|x|] end; [by destruct Hf | by intros (_ & _ & ?) | done].
Qed.

(** ** What is known of a parsed image *)

Definition lds (im : Image) (n : nat) : list Segment := List.filter loaded (segs im n).

Lemma lds_S im n : lds im (S n) = lds im n ++ (if loaded (seg im n) then [seg im n] else []).
Proof. unfold lds. rewrite segs_S, List.filter_app. cbn. by destruct (loaded (seg im n)). Qed.

Lemma lds_elem im n s : In s (lds im n) <-> exists k, (k < n)%nat /\ s = seg im k /\ loaded s = true.
Proof.
  unfold lds. rewrite List.filter_In. unfold segs. rewrite <- list_elem_of_In, list_elem_of_fmap. split.
  - intros [(k & -> & Hk) Hl]. apply elem_of_seq in Hk. exists k. split; [lia | done].
  - intros (k & Hk & -> & Hl). split; [| done]. exists k. split; [done |]. apply elem_of_seq. lia.
Qed.

(** The bounds that the loop maintains. *)
Record bounds_ok (im0 : Image) (n : nat) (st : Scan) : Prop := {
  bd_in s : In s (lds im0 n) -> minimum (sc_image st) <= low s /\ high s <= maximum (sc_image st);
  bd_loads : loads (sc_image st) = Z.of_nat (List.length (lds im0 n));
  bd_none : lds im0 n = [] -> minimum (sc_image st) = U64_MAX /\ maximum (sc_image st) = 0;
  bd_min : lds im0 n <> [] -> exists s, In s (lds im0 n) /\ minimum (sc_image st) = low s;
  bd_max : lds im0 n <> [] -> exists s, In s (lds im0 n) /\ maximum (sc_image st) = high s;
  bd_align : exists e, 12 <= e /\ im_alignment (sc_image st) = 2 ^ e;
  bd_exec : executable st = existsb (covers_entry im0) (lds im0 n) }.

Lemma load_range b s : seg_ok s -> load_ok b s -> 0 <= low s /\ low s < high s + 1 /\ high s <= USER_END /\ (0 < memory s -> low s < high s).
Proof.
  intros (_ & _ & _ & Ha & _ & Hm & _) (_ & _ & _ & _ & _ & He). unfold low, high, seg_end, down, up, USER_END in *. widths. Z.div_mod_to_equations. lia.
Qed.

Lemma alignment_pow2 b s e : seg_ok s -> load_ok b s -> 12 <= e -> exists e', 12 <= e' /\ Z.max (2 ^ e) (alignment s) = 2 ^ e'.
Proof.
  intros (_ & _ & _ & _ & _ & _ & Hal) (_ & _ & _ & _ & Hp & _) He. pose proof (Z.pow_le_mono_r 2 12 e ltac:(lia) He) as H12. change (2 ^ 12) with 4096 in H12.
  destruct (Z.le_gt_cases (alignment s) (2 ^ e)) as [Hle|Hgt]; [exists e; split; [done | lia] |].
  destruct (Hp ltac:(lia)) as [Hpow _]. apply power_of_two_spec in Hpow. exists (Z.log2 (alignment s)). split; [| lia].
  apply Z.log2_le_pow2; [lia |]. change (2 ^ 12) with 4096. lia.
Qed.

Lemma covers_entry_source im im' s : same_source im im' -> covers_entry im' s = covers_entry im s.
Proof. intros (_ & _ & _ & _ & E). unfold covers_entry. by rewrite E. Qed.

Lemma bounds_scan b n : table_ok (image0 b) -> table_accepted (image0 b) n -> (n <= count (image0 b))%nat -> bounds_ok (image0 b) n (scan_at (image0 b) n).
Proof.
  intros Ht. set (im0 := image0 b) in *. induction n as [|n IH]; intros Hacc Hn; [split; cbn; try done; exists 12; done |].
  destruct IH as [H1 H2 H0 H3 H4 (e & He & H5) H6]; [intros k Hk; apply Hacc; lia | lia |]. destruct (Hacc n (Nat.lt_succ_diag_r n)) as (_ & _ & Hload & _).
  pose proof (seg_wf im0 n Ht) as Hs. pose proof (covers_entry_source _ _ (seg im0 n) (scan_at_source im0 n)) as Hce. rewrite scan_at_S. unfold next_scan, next_image.
  destruct (scan_at_source im0 n) as (Hb & _). rewrite Hb in Hload. change (bytes_of im0) with b in Hload. set (s := seg im0 n) in *. set (st := scan_at im0 n) in *.
  destruct (loaded s) eqn:L.
  - assert (kind s = LOAD) as K by (unfold loaded in L; by bool_cases). rewrite K. change (LOAD =? LOAD) with true. cbn iota. specialize (Hload K). pose proof (load_range b s Hs Hload) as Hrange.
    split; cbn [sc_image executable minimum maximum loads im_alignment with_loads].
    + intros t Ht'. rewrite lds_S in Ht'. fold s in Ht'. rewrite L in Ht'. apply in_app_or in Ht' as [Ht'|[<-|[]]]; [specialize (H1 t Ht') |]; lia.
    + rewrite lds_S. fold s. rewrite L, length_app. cbn. lia.
    + rewrite lds_S. fold s. rewrite L. intros E. by destruct (lds im0 n).
    + intros _. rewrite lds_S. fold s. rewrite L. destruct (decide (lds im0 n = [])) as [E|E].
      * exists s. split; [apply in_or_app; right; by left |]. destruct (H0 E) as [-> _]. unfold USER_END in Hrange. widths. lia.
      * destruct (H3 E) as (t & Ht1 & Ht2). destruct (Z.le_gt_cases (low t) (low s)); [exists t | exists s]; (split; [apply in_or_app | lia]); [by left | right; by left].
    + intros _. rewrite lds_S. fold s. rewrite L. destruct (decide (lds im0 n = [])) as [E|E].
      * exists s. split; [apply in_or_app; right; by left |]. destruct (H0 E) as [_ ->]. lia.
      * destruct (H4 E) as (t & Ht1 & Ht2). destruct (Z.le_gt_cases (high s) (high t)); [exists t | exists s]; (split; [apply in_or_app | lia]); [by left | right; by left].
    + rewrite H5. by apply (alignment_pow2 b).
    + rewrite lds_S. fold s. rewrite L, existsb_app, H6. cbn. by rewrite Hce, orb_false_r.
  - assert (lds im0 (S n) = lds im0 n) as El by (rewrite lds_S; fold s; by rewrite L, app_nil_r).
    destruct (Z.eqb_spec (kind s) LOAD) as [K|K]; (split; rewrite ?El; cbn [sc_image executable minimum maximum loads im_alignment with_loads andb]; try done; try (by rewrite orb_false_r)).
    + rewrite H5. apply (alignment_pow2 b); [done | by apply Hload | done].
    + by exists e.
Qed.

(** What later code may rely on. *)
Record image_ok (im : Image) : Prop := {
  io_table : table_ok im;
  io_load i : (i < count im)%nat -> loaded (seg im i) = true -> load_ok (bytes_of im) (seg im i);
  io_apart i j : (i < j < count im)%nat -> loaded (seg im i) = true -> loaded (seg im j) = true -> apart (seg im j) (seg im i);
  io_in s : In s (lds im (count im)) -> minimum im <= low s /\ high s <= maximum im;
  io_loads : loads im = Z.of_nat (List.length (lds im (count im))) /\ lds im (count im) <> [];
  io_min : exists s, In s (lds im (count im)) /\ minimum im = low s;
  io_max : exists s, In s (lds im (count im)) /\ maximum im = high s;
  io_align : exists e, 12 <= e /\ im_alignment im = 2 ^ e }.

Lemma same_source_lds im im' n : same_source im im' -> lds im' n = lds im n.
Proof.
  intros Hs. unfold lds, segs. f_equal. apply list_fmap_ext. intros i k _. by apply same_source_seg.
Qed.

Lemma accepted_image_ok b r : Forall is_u8 b -> len b <= ISIZE_MAX -> accepted b r -> image_ok (sc_image (final b)).
Proof.
  intros H8 Hl (Hfine & Hacc & (_ & Hloads & _)). pose proof (image0_table b H8 Hl Hfine) as Ht. pose proof (bounds_scan b _ Ht Hacc (Nat.le_refl _)) as Hbd.
  fold (final b) in Hbd. pose proof (scan_at_source (image0 b) (count (image0 b))) as Hsrc. fold (final b) in Hsrc. set (im := sc_image (final b)) in *.
  destruct Hsrc as (S1 & S2 & S3 & S4 & S5). assert (same_source (image0 b) im) as Hsrc by (by split_and!).
  pose proof (same_source_lds _ _ (count im) Hsrc) as El. rewrite S3 in El. destruct Hbd as [B1 B2 B0 B3 B4 B5 _]. rewrite <- El in B1, B2, B0, B3, B4. fold im in B1, B2, B0, B3, B4, B5.
  rewrite <- S3 in B1, B2, B0, B3, B4. assert (lds im (count im) <> []) as Hne by (intros E; rewrite E in B2; done).
  split; [by eapply same_source_table | | | done | done | by apply B3 | by apply B4 | done].
  - intros i Hi Hld. rewrite (same_source_seg _ _ i Hsrc) in *. rewrite S3 in Hi. destruct (Hacc i Hi) as (_ & _ & H & _). destruct (scan_at_source (image0 b) i) as (Eb & _). rewrite Eb in H.
    rewrite S1. apply H. unfold loaded in Hld. by bool_cases.
  - intros i j Hij Hi Hj. rewrite !(same_source_seg _ _ _ Hsrc) in *. rewrite S3 in Hij. destruct (Hacc j ltac:(lia)) as (_ & _ & _ & H). specialize (H Hj i ltac:(lia)).
    rewrite (same_source_seg _ _ i (scan_at_source (image0 b) j)) in H. by apply H.
Qed.

Lemma accepted_entry b : accepted b true -> Forall is_u8 b -> len b <= ISIZE_MAX ->
  exists s, In s (lds (sc_image (final b)) (count (sc_image (final b)))) /\ covers_entry (sc_image (final b)) s = true.
Proof.
  intros (Hfine & Hacc & (Hx & _)) H8 Hl. pose proof (image0_table b H8 Hl Hfine) as Ht. pose proof (bounds_scan b _ Ht Hacc (Nat.le_refl _)) as Hbd. fold (final b) in Hbd.
  pose proof (scan_at_source (image0 b) (count (image0 b))) as Hsrc. fold (final b) in Hsrc. destruct Hbd as [_ _ _ _ _ _ B6]. rewrite (Hx eq_refl) in B6. symmetry in B6.
  apply existsb_exists in B6 as (s & Hin & Hc). exists s. rewrite (covers_entry_source _ _ s Hsrc). split; [| done]. rewrite (same_source_lds _ _ _ Hsrc). destruct Hsrc as (_ & _ & -> & _). done.
Qed.

Lemma mod_pow2_page b e : 12 <= e -> b mod 2 ^ e = 0 -> b mod 4096 = 0.
Proof.
  intros He Hb. apply Z.mod_divide in Hb; [| pose proof (Z.pow_pos_nonneg 2 e); lia]. apply Z.mod_divide; [done |]. etransitivity; [| exact Hb]. exists (2 ^ (e - 12)).
  change 4096 with (2 ^ 12). rewrite <- Z.pow_add_r by lia. f_equal. lia.
Qed.

Lemma image_range im : image_ok im -> 0 <= minimum im /\ minimum im < maximum im /\ maximum im <= USER_END.
Proof.
  intros Him. destruct (io_min _ Him) as (s & Hs & ->). destruct (io_max _ Him) as (t & Ht & Em). pose proof (io_in _ Him s Hs) as [_ Hh]. rewrite Em in *.
  assert (forall u, In u (lds im (count im)) -> 0 <= low u /\ low u < high u /\ high u <= USER_END) as Hall.
  { intros u (k & Hk & -> & Hl)%lds_elem. pose proof (seg_wf im k (io_table _ Him)) as Hw. pose proof (load_range _ _ Hw (io_load _ Him k Hk Hl)) as (R1 & _ & R3 & R4).
    split_and!; [done | | done]. apply R4. unfold loaded in Hl. destruct Hw as (_ & _ & _ & _ & _ & Hm & _). bool_cases. widths. lia. }
  pose proof (Hall s Hs). pose proof (Hall t Ht). lia.
Qed.
