(* ===== verification/ImageMapping.v ===== *)
(** * Installing an image in memory ([posix-client/src/elf_mapping.rs])

    A transaction: reserve the range, fill the pages of each segment, then give them their permissions.  Whatever fails, the
    whole reservation is given back, or kept by an owner who can try again. *)

From S2P Require Import Prelude Text Fields LaunchImage.

(** ** The code *)

Record Range : Type := { rg_address : Z; rg_length : Z }.
Record Plan : Type := { pl_image : Image; pl_bias : Z; pl_range : Range }.

Definition Plan_new (b : list Z) (bias : Z) : result LaunchImage.Error Plan :=
  let? image := parse_mapping b in
  let? path := image_interpreter image in
  if some path then Err Unsupported else
  let? (start, end_) := mapping_range image bias in
  let? length := sub64 end_ start in
  Ok {| pl_image := image; pl_bias := bias; pl_range := {| rg_address := start; rg_length := length |} |}.

(** The virtual memory of the caller; [critical] runs its argument. *)
Class Backend (B E : Type) : Type := {
  be_reserve : B -> Range -> result E unit * B;
  be_populate : B -> Range -> result E unit * B;
  be_write : B -> Z -> list Z -> result E unit * B;
  be_protect : B -> Range -> Z -> result E unit * B;
  be_release : B -> Range -> result E unit * B }.

Inductive Phase : Type := PhEmpty | PhStaging | PhStaged | PhSealing | PhSealed | PhFailed | PhClosed.
#[export] Instance Phase_eq_dec : EqDecision Phase.
Proof. solve_decision. Defined.

Inductive MapError (E : Type) : Type := State | Native (e : E) | Cleanup (operation release : E).
Arguments State {E}.
Arguments Native {E} e.
Arguments Cleanup {E} operation release.

Record Installation (B : Type) : Type := { in_backend : option B; in_plan : option Plan; in_retained : bool; in_phase : Phase }.
Arguments in_backend {B} i.
Arguments in_plan {B} i.
Arguments in_retained {B} i.
Arguments in_phase {B} i.

Record Mapping (B : Type) : Type := { mp_backend : B; mp_range : option Range; mp_ready : bool }.
Arguments mp_backend {B} m.
Arguments mp_range {B} m.
Arguments mp_ready {B} m.

Section Code.
Context {B E : Type} `{Backend B E}.

Definition Installation_new (b : B) : Installation B := {| in_backend := Some b; in_plan := None; in_retained := false; in_phase := PhEmpty |}.

Definition set_phase (self : Installation B) (p : Phase) : Installation B :=
  {| in_backend := in_backend self; in_plan := in_plan self; in_retained := in_retained self; in_phase := p |}.
Definition set_plan (self : Installation B) (p : Plan) : Installation B :=
  {| in_backend := in_backend self; in_plan := Some p; in_retained := in_retained self; in_phase := in_phase self |}.
Definition set_retained (self : Installation B) (r : bool) : Installation B :=
  {| in_backend := in_backend self; in_plan := in_plan self; in_retained := r; in_phase := in_phase self |}.

(** [self.backend()] and a call on it. *)
Definition call (self : Installation B) (f : B -> result E unit * B) : result E unit * Installation B :=
  match in_backend self with
  | None => (Panic, self)
  | Some b => let '(r, b) := f b in (r, {| in_backend := Some b; in_plan := in_plan self; in_retained := in_retained self; in_phase := in_phase self |})
  end.

Definition Installation_retained (self : Installation B) : result (MapError E) (option Range) :=
  if in_retained self then match in_plan self with Some p => Ok (Some (pl_range p)) | None => Panic end else Ok None.

(** [self.backend().release(range)?; self.retained = false]. *)
Definition give_back (self : Installation B) (range : Range) : result E unit * Installation B :=
  match call self (fun b => be_release b range) with
  | (Ok _, self) => (Ok tt, set_retained self false)
  | r => r
  end.

(** [return Err(self.abort(operation))]. *)
Definition abort (self : Installation B) (operation : E) : result (MapError E) unit * Installation B :=
  let self := set_phase self PhFailed in
  if in_retained self then
    match in_plan self with
    | None => (Panic, self)
    | Some p =>
        match give_back self (pl_range p) with
        | (Ok _, self) => (Err (Native operation), self)
        | (Err release, self) => (Err (Cleanup operation release), self)
        | (Panic, self) => (Panic, self)
        end
    end
  else (Err (Native operation), self).

(** The pages of a segment at its place, and where it begins. *)
Definition segment_range (plan : Plan) (s : Segment) : result (MapError E) (Z * Range) :=
  let? address := add64 (pl_bias plan) (address s) in
  let start := Z.land address (Z.lnot (PAGE - 1)) in
  let? e := add64 address (memory s) in
  let? e := add64 e (PAGE - 1) in
  let end_ := Z.land e (Z.lnot (PAGE - 1)) in
  let? length := sub64 end_ start in
  Ok (address, {| rg_address := start; rg_length := length |}).

Fixpoint stage_loop (self : Installation B) (plan : Plan) (n i : nat) : result (MapError E) unit * Installation B :=
  match n with
  | O => (Ok tt, self)
  | S n =>
      match segment (pl_image plan) i with
      | Ok s =>
          if negb (kind s =? 1) || (memory s =? 0) then stage_loop self plan n (i + 1) else
          match segment_range plan s with
          | Ok (address, range) =>
              match call self (fun b => be_populate b range) with
              | (Ok _, self) =>
                  if negb (file s =? 0) then
                    match image_bytes (pl_image plan) s with
                    | Ok bytes =>
                        match call self (fun b => be_write b address bytes) with
                        | (Ok _, self) => stage_loop self plan n (i + 1)
                        | (Err e, self) => abort self e
                        | (Panic, self) => (Panic, self)
                        end
                    | _ => (Panic, self)
                    end
                  else stage_loop self plan n (i + 1)
              | (Err e, self) => abort self e
              | (Panic, self) => (Panic, self)
              end
          | _ => (Panic, self)
          end
      | _ => (Panic, self)
      end
  end.

Definition stage (self : Installation B) (plan : Plan) : result (MapError E) unit * Installation B :=
  if negb (bool_decide (in_phase self = PhEmpty)) then (Err State, self) else
  let self := set_plan (set_phase self PhStaging) plan in
  match call self (fun b => be_reserve b (pl_range plan)) with
  | (Ok _, self) =>
      match stage_loop (set_retained self true) plan (count (pl_image plan)) 0 with
      | (Ok _, self) => (Ok tt, set_phase self PhStaged)
      | r => r
      end
  | (Err e, self) => abort self e
  | (Panic, self) => (Panic, self)
  end.

Definition access_of (f : Z) : Z := Z.lor (Z.lor (Z.shiftr (Z.land f 4) 2) (Z.land f 2)) (Z.shiftl (Z.land f 1) 2).

Fixpoint seal_loop (self : Installation B) (plan : Plan) (n i : nat) : result (MapError E) unit * Installation B :=
  match n with
  | O => (Ok tt, self)
  | S n =>
      match segment (pl_image plan) i with
      | Ok s =>
          if negb (kind s =? 1) || (memory s =? 0) then seal_loop self plan n (i + 1) else
          match segment_range plan s with
          | Ok (_, range) =>
              match call self (fun b => be_protect b range (access_of (flags s))) with
              | (Ok _, self) => seal_loop self plan n (i + 1)
              | (Err e, self) => abort self e
              | (Panic, self) => (Panic, self)
              end
          | _ => (Panic, self)
          end
      | _ => (Panic, self)
      end
  end.

Definition seal (self : Installation B) : result (MapError E) unit * Installation B :=
  if negb (bool_decide (in_phase self = PhStaged)) then (Err State, self) else
  let self := set_phase self PhSealing in
  match in_plan self with
  | None => (Panic, self)
  | Some plan =>
      match seal_loop self plan (count (pl_image plan)) 0 with
      | (Ok _, self) => (Ok tt, set_phase self PhSealed)
      | r => r
      end
  end.

(** Taking the backend out of the installation; the mapping is what [publish] is given. *)
Definition hand_over (self : Installation B) (ready : bool) : result (MapError E) (Mapping B) * Installation B :=
  match in_backend self, in_plan self with
  | Some b, Some p =>
      (Ok {| mp_backend := b; mp_range := Some (pl_range p); mp_ready := ready |},
       {| in_backend := None; in_plan := in_plan self; in_retained := false; in_phase := PhClosed |})
  | _, _ => (Panic, self)
  end.

Definition commit (self : Installation B) : result (MapError E) (Mapping B) * Installation B :=
  if negb (bool_decide (in_phase self = PhSealed)) then (Err State, self) else hand_over self true.
Definition retain_failed (self : Installation B) : result (MapError E) (Mapping B) * Installation B :=
  if negb (bool_decide (in_phase self = PhFailed)) || negb (in_retained self) then (Err State, self) else hand_over self false.

Definition Installation_release (self : Installation B) : result E unit * Installation B :=
  if in_retained self then
    let self := set_phase self PhFailed in
    match in_plan self with
    | None => (Panic, self)
    | Some p => match give_back self (pl_range p) with (Ok _, self) => (Ok tt, set_phase self PhClosed) | r => r end
    end
  else (Ok tt, set_phase self PhClosed).

(** [MEMORY_ACCESS_READ] and [MEMORY_ACCESS_EXECUTE] belong to the kernel interface: arguments. *)
Definition Mapping_relro (access_read access_execute : Z) (self : Mapping B) (range : Range) (executable : bool) : result (MapError E) unit * Mapping B :=
  match mp_range self with
  | None => (Err State, self)
  | Some owned =>
      if negb (mp_ready self) || (rg_length range =? 0) || negb (rg_address range mod PAGE =? 0) || negb (rg_length range mod PAGE =? 0)
         || (rg_address range <? rg_address owned)
         || match checked_add64 (rg_address range) (rg_length range) with
            | None => true
            | Some e => match checked_add64 (rg_address owned) (rg_length owned) with None => true | Some limit => limit <? e end
            end
      then (Err State, self) else
      let '(r, b) := be_protect (mp_backend self) range (Z.lor access_read (if executable then access_execute else 0)) in
      match r with
      | Ok _ => (Ok tt, {| mp_backend := b; mp_range := mp_range self; mp_ready := true |})
      | Err e => (Err (Native e), {| mp_backend := b; mp_range := mp_range self; mp_ready := false |})
      | Panic => (Panic, {| mp_backend := b; mp_range := mp_range self; mp_ready := false |})
      end
  end.

Definition Mapping_release (self : Mapping B) : result E unit * Mapping B :=
  match mp_range self with
  | None => (Ok tt, {| mp_backend := mp_backend self; mp_range := None; mp_ready := false |})
  | Some range =>
      let '(r, b) := be_release (mp_backend self) range in
      match r with
      | Ok _ => (Ok tt, {| mp_backend := b; mp_range := None; mp_ready := false |})
      | Err e => (Err e, {| mp_backend := b; mp_range := Some range; mp_ready := false |})
      | Panic => (Panic, {| mp_backend := b; mp_range := Some range; mp_ready := false |})
      end
  end.

End Code.
