(* ===== verification/MappingSafe.v ===== *)
(** * Memory during and after an installation

    What the virtual memory promises, as an interface; the memory that staging and sealing build; and, over any history of
    operations, what an owner holds and that nothing is leaked, overwritten, or both writable and executable. *)

From S2P Require Import Prelude Text Fields LaunchImage LaunchParse ImageMapping.

(** ** The interface *)

(** A byte of memory: free, or with its access bits and its value.  The bits are those that [seal] computes. *)
Definition cell : Type := option (Z * Z).
Definition writable (a : Z) : bool := Z.testbit a 1.
Definition executable (a : Z) : bool := Z.testbit a 2.
Definition in_range (r : Range) (x : Z) : Prop := rg_address r <= x < rg_address r + rg_length r.
#[export] Instance in_range_dec r x : Decision (in_range r x).
Proof. unfold in_range. apply _. Defined.

(** Reserving is atomic; populating makes fresh zero pages that are not executable; everything but reserving may fail half-way. *)
Class VmLaws (B E : Type) `{Backend B E} : Type := {
  vm : B -> Z -> cell;
  fresh : Z;
  fresh_bits : executable fresh = false;
  reserve_law b r : match be_reserve (E := E) b r with
    | (Ok _, b') => (forall x, in_range r x -> vm b x = None) /\ forall x, vm b' x = if decide (in_range r x) then Some (0, 0) else vm b x
    | (Err _, b') => forall x, vm b' x = vm b x
    | (Panic, _) => False end;
  populate_law b r : (forall x, in_range r x -> vm b x <> None) -> match be_populate (E := E) b r with
    | (Ok _, b') => forall x, vm b' x = if decide (in_range r x) then Some (fresh, 0) else vm b x
    | (Err _, b') => forall x, vm b' x = vm b x \/ in_range r x /\ vm b' x = Some (fresh, 0)
    | (Panic, _) => False end;
  write_law b a l : let r := {| rg_address := a; rg_length := len l |} in (forall x, in_range r x -> exists v, vm b x = Some (fresh, v)) ->
    match be_write (E := E) b a l with
    | (Ok _, b') => forall x, vm b' x = if decide (in_range r x) then (fun v => (fresh, v)) <$> l !! Z.to_nat (x - a) else vm b x
    | (Err _, b') => forall x, vm b' x = vm b x \/ in_range r x /\ exists v, vm b' x = Some (fresh, v)
    | (Panic, _) => False end;
  protect_law b r acc : (forall x, in_range r x -> vm b x <> None) -> writable acc && executable acc = false ->
    match be_protect (E := E) b r acc with
    | (Ok _, b') => forall x, vm b' x = if decide (in_range r x) then (fun c => (acc, snd c)) <$> vm b x else vm b x
    | (Err _, b') => forall x, vm b' x = vm b x \/ in_range r x /\ vm b' x = (fun c => (acc, snd c)) <$> vm b x
    | (Panic, _) => False end;
  release_law b r : match be_release (E := E) b r with
    | (Ok _, b') => forall x, vm b' x = if decide (in_range r x) then None else vm b x
    | (Err _, b') => forall x, vm b' x = vm b x \/ in_range r x /\ vm b' x = None
    | (Panic, _) => False end }.

(** ** Plans *)

Definition seg_range (p : Plan) (s : Segment) : Range := {| rg_address := pl_bias p + low s; rg_length := high s - low s |}.
Definition plan_ok (p : Plan) : Prop :=
  image_ok (pl_image p) /\ 0 <= pl_bias p /\ pl_bias p mod 4096 = 0 /\ rg_address (pl_range p) = pl_bias p + minimum (pl_image p) /\
  rg_length (pl_range p) = maximum (pl_image p) - minimum (pl_image p) /\ pl_bias p + maximum (pl_image p) <= USER_END.

(** The loadable segments of a plan. *)
Definition parts (p : Plan) : list Segment := lds (pl_image p) (count (pl_image p)).

Lemma part_facts p s : plan_ok p -> In s (parts p) -> seg_ok s /\ load_ok (bytes_of (pl_image p)) s /\ loaded s = true /\ minimum (pl_image p) <= low s /\
  low s < high s /\ high s <= maximum (pl_image p) /\ high s <= USER_END /\ 0 <= low s.
Proof.
  intros (Him & _) Hin. destruct (io_in _ Him s Hin) as [H1 H2]. apply lds_elem in Hin as (k & Hk & -> & Hl). pose proof (seg_wf (pl_image p) k (io_table _ Him)) as Hs.
  pose proof (io_load _ Him k Hk Hl) as Hload. pose proof (load_range _ _ Hs Hload) as (R1 & R2 & R3 & R4). split_and!; try done. apply R4. unfold loaded in Hl. destruct Hs as (_ & _ & _ & _ & _ & Hm & _). bool_cases. widths. lia.
Qed.

Lemma part_range p s x : plan_ok p -> In s (parts p) -> in_range (seg_range p s) x -> in_range (pl_range p) x.
Proof. intros Hp Hin. pose proof (part_facts p s Hp Hin) as (_ & _ & _ & ? & ? & ? & _). destruct Hp as (_ & _ & _ & E1 & E2 & _). unfold in_range, seg_range. rewrite E1, E2. cbn. lia. Qed.

Lemma parts_apart p s t x : plan_ok p -> In s (parts p) -> In t (parts p) -> in_range (seg_range p s) x -> in_range (seg_range p t) x -> s = t.
Proof.
  intros (Him & _) (i & Hi & -> & Li)%lds_elem (j & Hj & -> & Lj)%lds_elem. unfold in_range, seg_range. cbn. intros H1 H2.
  destruct (Nat.lt_trichotomy i j) as [Hij|[->|Hij]]; [| done |]; exfalso.
  - destruct (io_apart _ Him i j (conj Hij Hj) Li Lj); lia.
  - destruct (io_apart _ Him j i (conj Hij Hi) Lj Li); lia.
Qed.

Lemma segment_range_Ok {E} p s : plan_ok p -> In s (parts p) -> segment_range (E := E) p s = Ok (pl_bias p + address s, seg_range p s).
Proof.
  intros Hp Hin. pose proof (part_facts p s Hp Hin) as ((_ & _ & _ & Ha & _ & Hm & _) & (_ & _ & _ & _ & _ & He) & _ & ? & Hlh & Hmax & _). destruct Hp as (_ & Hb0 & Hb & _ & _ & Hend).
  pose proof (up_ge (seg_end s)) as Hu. fold (high s) in Hu. unfold segment_range, add64, sub64. unfold seg_end, USER_END in *.
  rewrite (proj2 (Z.leb_le _ _)) by (widths; lia). cbn iota. rewrite (proj2 (Z.leb_le (pl_bias p + address s + memory s) _)) by (widths; lia). cbn iota.
  change (PAGE - 1) with (2 ^ 12 - 1). rewrite (proj2 (Z.leb_le _ U64_MAX)) by (change (2 ^ 12) with 4096; widths; lia). cbn iota. rewrite !land_lnot_ones by done. change (2 ^ 12) with 4096.
  assert ((pl_bias p + address s) / 4096 * 4096 = pl_bias p + low s) as -> by (unfold low, down; divlia).
  assert ((pl_bias p + address s + memory s + (4096 - 1)) / 4096 * 4096 = pl_bias p + high s) as -> by (unfold high, up, seg_end; divlia).
  rewrite (proj2 (Z.leb_le _ _)) by lia. unfold seg_range. do 3 f_equal. lia.
Qed.

Lemma Plan_new_spec b bias : Forall is_u8 b -> len b <= ISIZE_MAX -> 0 <= bias -> match Plan_new b bias with
  | Ok p => plan_ok p /\ parse_mapping b = Ok (pl_image p) /\ pl_bias p = bias
  | Err _ => True
  | Panic => False
  end.
Proof.
  intros H8 Hl Hb. unfold Plan_new. pose proof (parse_impl_spec b false H8 Hl) as Hs. fold (parse_mapping b) in Hs. destruct (parse_mapping b) as [im|e|]; [| done | done].
  destruct Hs as [Hacc Eim]. pose proof (accepted_image_ok b false H8 Hl Hacc) as Him. rewrite <- Eim in Him. pose proof (image_range im Him) as (R1 & R2 & R3).
  pose proof (interpreter_no_panic im _ (io_table _ Him) 0%nat None (Nat.le_refl _)) as Hip. fold (image_interpreter im) in Hip. destruct (image_interpreter im) as [[path|]|e|]; [done | | done | done].
  cbn [some]. unfold mapping_range. destruct ((_ && _) || _) eqn:G; [done |]. bool_cases. destruct (io_align _ Him) as (e & He & Ea). rewrite Ea in *.
  unfold add. destruct (Z.leb_spec (bias + minimum im) U64_MAX); [| done]. destruct (Z.leb_spec (bias + maximum im) U64_MAX); [| done].
  destruct (_ || _) eqn:G2; [done |]. bool_cases. unfold sub64. rewrite (proj2 (Z.leb_le _ _)) by lia. cbn. split; [| done].
  split_and!; [done | done | by apply (mod_pow2_page bias e) | done | cbn; lia | done].
Qed.

(** ** Memory in the course of an installation *)

Definition image_byte (p : Plan) (s : Segment) (x : Z) : Z :=
  let o := x - (pl_bias p + address s) in
  if (0 <=? o) && (o <? file s) then default 0 (bytes_of (pl_image p) !! Z.to_nat (sg_offset s + o)) else 0.

(** The range of a plan was free; the rest of memory is untouched. *)
Definition vacant (p : Plan) (v0 : Z -> cell) : Prop := forall x, in_range (pl_range p) x -> v0 x = None.
Definition untouched (p : Plan) (v0 v : Z -> cell) : Prop := forall x, ~ in_range (pl_range p) x -> v x = v0 x.

(** Segments for which [acc] has an access are filled and have it; the rest of the range is reserved. *)
Definition shape (p : Plan) (v0 v : Z -> cell) (acc : Segment -> option Z) : Prop :=
  untouched p v0 v /\
  (forall s x, In s (parts p) -> in_range (seg_range p s) x -> v x = Some (match acc s with Some a => (a, image_byte p s x) | None => (0, 0) end)) /\
  (forall x, in_range (pl_range p) x -> (forall s, In s (parts p) -> ~ in_range (seg_range p s) x) -> v x = Some (0, 0)).

Definition no_wx (c : cell) : Prop := forall a w, c = Some (a, w) -> writable a && executable a = false.
(** An installation that failed: anything in the range, but nothing writable and executable. *)
Definition garbled (p : Plan) (v0 v : Z -> cell) : Prop := untouched p v0 v /\ forall x, in_range (pl_range p) x -> no_wx (v x).

Lemma in_part_dec p x : (exists s, In s (parts p) /\ in_range (seg_range p s) x) \/ forall s, In s (parts p) -> ~ in_range (seg_range p s) x.
Proof.
  induction (parts p) as [|s l IH]; [right; intros s [] |]. destruct (decide (in_range (seg_range p s) x)); [left; exists s; split; [by left | done] |].
  destruct IH as [(t & Ht & Hx)|Hn]; [left; exists t; split; [by right | done] | right; intros t [<-|Ht]; [done | by apply Hn]].
Qed.

Lemma shape_owned p v0 v acc x : plan_ok p -> shape p v0 v acc -> in_range (pl_range p) x -> v x <> None.
Proof.
  intros Hp (_ & H1 & H2) Hx. destruct (in_part_dec p x) as [(s & Hs & Hxs)|Hn]; [rewrite (H1 s x Hs Hxs); by destruct (acc s) | by rewrite (H2 x Hx Hn)].
Qed.

Definition acc_safe (p : Plan) (acc : Segment -> option Z) : Prop := forall s a, In s (parts p) -> acc s = Some a -> writable a && executable a = false.

Lemma shape_garbled p v0 v acc : plan_ok p -> acc_safe p acc -> shape p v0 v acc -> garbled p v0 v.
Proof.
  intros Hp Hacc (Hu & H1 & H2). split; [done |]. intros x Hx.
  destruct (in_part_dec p x) as [(s & Hs & Hxs)|Hn]; [| rewrite (H2 x Hx Hn); by intros a w [= <- <-]]. rewrite (H1 s x Hs Hxs). intros a w E.
  specialize (Hacc s). destruct (acc s) as [a'|]; injection E as <- <-; [by apply Hacc | done].
Qed.

#[export] Instance Segment_eq_dec : EqDecision Segment.
Proof. solve_decision. Defined.

(** The access of the first [i] segments is [f], of the others [g]. *)
Definition acc_upto (p : Plan) (f g : Segment -> option Z) (i : nat) (s : Segment) : option Z := if decide (s ∈ lds (pl_image p) i) then f s else g s.

Lemma part_new p i : plan_ok p -> (i < count (pl_image p))%nat -> loaded (seg (pl_image p) i) = true -> In (seg (pl_image p) i) (parts p) /\ seg (pl_image p) i ∉ lds (pl_image p) i.
Proof.
  intros Hp Hi Hl. assert (In (seg (pl_image p) i) (parts p)) as Hin by (apply lds_elem; by exists i). split; [done |]. intros (k & Hk & E & _)%list_elem_of_In%lds_elem.
  pose proof (part_facts p _ Hp Hin) as (_ & _ & _ & _ & Hlh & _). destruct Hp as (Him & _). assert (loaded (seg (pl_image p) k) = true) as Hlk by (by rewrite <- E).
  pose proof (io_apart _ Him k i (conj Hk Hi) Hlk Hl) as Hap. rewrite <- E in Hap. unfold apart in Hap. lia.
Qed.

Lemma acc_upto_S p f g i s : plan_ok p -> (i < count (pl_image p))%nat -> loaded (seg (pl_image p) i) = true ->
  acc_upto p f g (S i) s = if decide (s = seg (pl_image p) i) then f s else acc_upto p f g i s.
Proof.
  intros Hp Hi Hl. unfold acc_upto. rewrite lds_S, Hl. destruct (decide (s = seg (pl_image p) i)) as [->|Hne].
  - rewrite decide_True; [done | set_solver].
  - destruct (decide (s ∈ lds (pl_image p) i)); [rewrite decide_True by set_solver | rewrite decide_False by set_solver]; done.
Qed.

Lemma acc_upto_skip p f g i s : loaded (seg (pl_image p) i) = false -> acc_upto p f g (S i) s = acc_upto p f g i s.
Proof. intros Hl. unfold acc_upto. by rewrite lds_S, Hl, app_nil_r. Qed.

Lemma acc_upto_all p f g s : In s (parts p) -> acc_upto p f g (count (pl_image p)) s = f s.
Proof. intros Hs. unfold acc_upto. rewrite decide_True; [done |]. by apply list_elem_of_In. Qed.

Lemma shape_ext p v0 v acc acc' : (forall s, In s (parts p) -> acc' s = acc s) -> shape p v0 v acc -> shape p v0 v acc'.
Proof. intros He (Hu & H1 & H2). split_and!; [done | | done]. intros s x Hs Hx. rewrite He by done. by apply H1. Qed.

(** One more segment gets its final cells; the others keep theirs. *)
Lemma shape_step p v0 v v' acc acc' t : plan_ok p -> In t (parts p) -> shape p v0 v acc -> (forall s, s <> t -> acc' s = acc s) -> (exists a, acc' t = Some a /\
    forall x, in_range (seg_range p t) x -> v' x = Some (a, image_byte p t x)) -> (forall x, ~ in_range (seg_range p t) x -> v' x = v x) -> shape p v0 v' acc'.
Proof.
  intros Hp Ht (Hu & H1 & H2) Hacc (a & Ea & Hnew) Hold. split_and!.
  - intros x Hx. rewrite Hold; [by apply Hu |]. intros Hxt. by apply Hx, (part_range p t).
  - intros s x Hs Hx. destruct (decide (s = t)) as [->|Hne]; [rewrite Ea; by apply Hnew |]. rewrite Hacc by done. rewrite Hold; [by apply H1 |].
    intros Hxt. apply Hne. by apply (parts_apart p s t x).
  - intros x Hx Hn. rewrite Hold by (by apply Hn). by apply H2.
Qed.

Lemma access_of_safe f : 0 <= f < 8 -> Z.land f 3 <> 3 -> writable (access_of f) && executable (access_of f) = false.
Proof.
  intros Hf H3. assert (f = 0 \/ f = 1 \/ f = 2 \/ f = 3 \/ f = 4 \/ f = 5 \/ f = 6 \/ f = 7) as Hc by lia.
  repeat (destruct Hc as [->|Hc]; [done |]). by subst f.
Qed.

(** What a segment is granted: reading (1) for [PF_R], writing (2) for [PF_W], executing (4) for [PF_X]. *)
Definition granted (f : Z) : Z := (if Z.testbit f 2 then 1 else 0) + (if Z.testbit f 1 then 2 else 0) + (if Z.testbit f 0 then 4 else 0).

Lemma access_granted f : 0 <= f < 8 -> access_of f = granted f.
Proof. intros Hf. assert (f = 0 \/ f = 1 \/ f = 2 \/ f = 3 \/ f = 4 \/ f = 5 \/ f = 6 \/ f = 7) as Hc by lia. repeat destruct Hc as [->|Hc]; by subst. Qed.

Lemma granted_shape p v0 v : plan_ok p -> shape p v0 v (fun s => Some (access_of (flags s))) -> shape p v0 v (fun s => Some (granted (flags s))).
Proof.
  intros Hp (Hu & Hs & Hr). split_and!; [done | | done]. intros s x Hin Hx. rewrite (Hs s x Hin Hx), access_granted; [done |].
  destruct (part_facts p s Hp Hin) as ((_ & Hf & _) & (_ & _ & H8 & _) & _). widths; lia.
Qed.

Lemma part_access p s : plan_ok p -> In s (parts p) -> writable (access_of (flags s)) && executable (access_of (flags s)) = false.
Proof. intros Hp Hs. destruct (part_facts p s Hp Hs) as ((_ & Hf & _) & (_ & _ & H8 & H3 & _) & _). apply access_of_safe; [widths; lia | done]. Qed.

Lemma part_bytes p s : plan_ok p -> In s (parts p) -> exists l, image_bytes (pl_image p) s = Ok l /\ len l = file s /\
  (forall x, in_range {| rg_address := pl_bias p + address s; rg_length := len l |} x -> in_range (seg_range p s) x) /\
  forall x, image_byte p s x = if decide (in_range {| rg_address := pl_bias p + address s; rg_length := len l |} x) then default 0 (l !! Z.to_nat (x - (pl_bias p + address s))) else 0.
Proof.
  intros Hp Hs. destruct (part_facts p s Hp Hs) as ((_ & _ & Ho & Ha & Hf & Hm & _) & (Hfit & Hfm & _) & _). pose proof (io_table _ (proj1 Hp)) as (_ & _ & Hlen).
  exists (take (Z.to_nat (file s)) (drop (Z.to_nat (sg_offset s)) (bytes_of (pl_image p)))). unfold len in *. rewrite length_take, length_drop.
  assert (Z.of_nat (Z.to_nat (file s) `min` (List.length (bytes_of (pl_image p)) - Z.to_nat (sg_offset s))) = file s) as -> by (widths; lia). split_and!.
  - unfold image_bytes. rewrite (proj2 (Z.leb_le _ _)) by (widths; lia). rewrite slice_in by (widths; lia). do 2 f_equal. widths. lia.
  - done.
  - intros x. unfold in_range, seg_range, low, high, down, up, seg_end. cbn [rg_address rg_length]. widths. Z.div_mod_to_equations. lia.
  - intros x. unfold image_byte, in_range. cbn [rg_address rg_length]. destruct (decide (pl_bias p + address s <= x < pl_bias p + address s + file s)) as [Hx|Hx].
    + rewrite (proj2 (Z.leb_le _ _)), (proj2 (Z.ltb_lt _ _)) by lia. cbn [andb]. rewrite lookup_take, decide_True, lookup_drop by lia. do 2 f_equal. widths. lia.
    + destruct (Z.leb_spec 0 (x - (pl_bias p + address s))); [| done]. rewrite (proj2 (Z.ltb_ge _ _)) by lia. done.
Qed.

(** ** The operations *)

Section Operations.
Context {B E : Type} `{Backend B E} `{!VmLaws B E}.
Implicit Types (self : Installation B) (b : B) (p : Plan).

Definition whole v0 b : Prop := forall x, vm b x = v0 x.
(** After an error in the middle: given back, or kept. *)
Definition failed p v0 self : Prop :=
  in_phase self = PhFailed /\ in_plan self = Some p /\ exists b, in_backend self = Some b /\ if in_retained self then garbled p v0 (vm b) else whole v0 b.

(** A state that holds the reservation of [p] with backend [b]. *)
Definition holding p b ph : Installation B := {| in_backend := Some b; in_plan := Some p; in_retained := true; in_phase := ph |}.

Lemma release_cases p v0 b : vacant p v0 -> garbled p v0 (vm b) ->
  match be_release b (pl_range p) with (Ok _, b') => whole v0 b' | (Err _, b') => garbled p v0 (vm b') | (Panic, _) => False end.
Proof using All.
  intros Hv [Hu Hw]. pose proof (release_law b (pl_range p)) as Hl. destruct (be_release b (pl_range p)) as [[[]|e|] b']; [| | done].
  - intros x. rewrite Hl. destruct (decide (in_range (pl_range p) x)) as [Hx|Hx]; [by rewrite Hv | by apply Hu].
  - split; [intros x Hx; destruct (Hl x) as [->|[? _]]; [by apply Hu | done] |]. intros x Hx. destruct (Hl x) as [->|[_ ->]]; [by apply Hw | done].
Qed.

Lemma abort_spec p v0 b ph e : vacant p v0 -> garbled p v0 (vm b) -> exists er self, abort (holding p b ph) e = (Err er, self) /\ failed p v0 self.
Proof using All.
  intros Hv Hg. unfold abort, give_back, call. cbn. pose proof (release_cases p v0 b Hv Hg) as Hr. destruct (be_release b (pl_range p)) as [[[]|e'|] b']; [| | done]; cbn;
    do 2 eexists; (split; [reflexivity |]); by (split_and!; [.. | exists b']).
Qed.

(** The state at hand is one that holds the reservation. *)
Ltac aborts p v0 b ph e Hv :=
  let self := fresh "self" in let Hf := fresh "Hf" in let E := fresh "E" in
  match goal with |- context [abort ?s e] => change s with (holding p b ph) end;
  destruct (abort_spec p v0 b ph e Hv) as (? & self & E & Hf); [| rewrite E; exact Hf].

Lemma segment_loaded p i : plan_ok p -> (i < count (pl_image p))%nat ->
  segment (pl_image p) i = Ok (seg (pl_image p) i) /\ negb (kind (seg (pl_image p) i) =? 1) || (memory (seg (pl_image p) i) =? 0) = negb (loaded (seg (pl_image p) i)).
Proof using. intros Hp Hi. split; [apply segment_Ok; [apply Hp | done] |]. unfold loaded. change LOAD with 1. by rewrite negb_andb, negb_involutive. Qed.

(** A partial change within a range that the plan holds. *)
Lemma garbled_partial p v0 v v' r : (forall x, in_range r x -> in_range (pl_range p) x) -> garbled p v0 v -> (forall x, v' x = v x \/ in_range r x /\ no_wx (v' x)) -> garbled p v0 v'.
Proof using.
  intros Hr [Hu Hw] Hc. split.
  - intros x Hx. destruct (Hc x) as [->|[Hin _]]; [by apply Hu | by apply Hr in Hin].
  - intros x Hx. destruct (Hc x) as [->|[_ ?]]; [by apply Hw | done].
Qed.

Definition staged p : nat -> Segment -> option Z := acc_upto p (fun _ => Some fresh) (fun _ => None).
Definition sealed p : nat -> Segment -> option Z := acc_upto p (fun s => Some (access_of (flags s))) (fun _ => Some fresh).

Lemma staged_safe p i : acc_safe p (staged p i).
Proof using. intros s a _. unfold staged, acc_upto. destruct (decide _); [intros [= <-] | done]. by rewrite fresh_bits, andb_false_r. Qed.
Lemma sealed_safe p i : plan_ok p -> acc_safe p (sealed p i).
Proof using. intros Hp s a Hs. unfold sealed, acc_upto. destruct (decide _); intros [= <-]; [by apply (part_access p s) | by rewrite fresh_bits, andb_false_r]. Qed.

Lemma stage_loop_spec p v0 n : plan_ok p -> vacant p v0 -> forall i b, (i + n = count (pl_image p))%nat -> shape p v0 (vm b) (staged p i) ->
  match stage_loop (holding p b PhStaging) p n i with
  | (Ok _, self) => exists b', self = holding p b' PhStaging /\ shape p v0 (vm b') (staged p (count (pl_image p)))
  | (Err _, self) => failed p v0 self
  | (Panic, _) => False
  end.
Proof using All.
  intros Hp Hv. induction n as [|n IH]; intros i b Hi Hsh; cbn [stage_loop].
  { exists b. split; [done |]. by replace (count (pl_image p)) with i by lia. }
  destruct (segment_loaded p i Hp ltac:(lia)) as [-> ->]. replace (i + 1)%nat with (S i) by lia. destruct (loaded (seg (pl_image p) i)) eqn:L; cbn [negb].
  2: { apply IH; [lia |]. eapply shape_ext; [| exact Hsh]. intros s _. by apply acc_upto_skip. }
  destruct (part_new p i Hp ltac:(lia) L) as [Hin _]. assert (forall s, staged p (S i) s = if decide (s = seg (pl_image p) i) then Some fresh else staged p i s) as Eacc
    by (intros s; unfold staged; by rewrite acc_upto_S by (done || lia)).
  set (s := seg (pl_image p) i) in *. rewrite segment_range_Ok by done. unfold call. cbn [in_backend holding].
  pose proof (populate_law b (seg_range p s)) as Hpop. pose proof (shape_garbled p v0 (vm b) _ Hp (staged_safe p i) Hsh) as Hg.
  assert (forall x, in_range (seg_range p s) x -> in_range (pl_range p) x) as Hsub by (intros x; by apply part_range).
  specialize (Hpop (fun x Hx => shape_owned p v0 (vm b) _ x Hp Hsh (Hsub x Hx))). destruct (be_populate b (seg_range p s)) as [[[]|e|] b1]; [| | done].
  2: { aborts p v0 b1 PhStaging e Hv. apply (garbled_partial p v0 (vm b) (vm b1) (seg_range p s)); [done | done |]. intros x. destruct (Hpop x) as [?|[? ->]]; [by left | right].
       split; [done |]. intros a w [= <- <-]. by rewrite fresh_bits, andb_false_r. }
  assert (garbled p v0 (vm b1)) as Hg1.
  { apply (garbled_partial p v0 (vm b) (vm b1) (seg_range p s)); [done | done |]. intros x. rewrite Hpop. destruct (decide _); [right | by left]. split; [done |].
    intros a w [= <- <-]. by rewrite fresh_bits, andb_false_r. }
  destruct (part_bytes p s Hp Hin) as (l & El & Hl & Hlsub & Hbyte).
  assert (forall b2, (forall x, vm b2 x = if decide (in_range {| rg_address := pl_bias p + address s; rg_length := len l |} x)
            then (fun v => (fresh, v)) <$> l !! Z.to_nat (x - (pl_bias p + address s)) else vm b1 x) -> shape p v0 (vm b2) (staged p (S i))) as Hdone.
  { intros b2 Hw. apply (shape_step p v0 (vm b) (vm b2) (staged p i) (staged p (S i)) s); [done | done | done | intros t Ht; by rewrite Eacc, decide_False | |].
    - exists fresh. split; [by rewrite Eacc, decide_True |]. intros x Hx. rewrite Hw, Hbyte. destruct (decide (in_range {| rg_address := _; rg_length := _ |} x)) as [Hxl|Hxl].
      + destruct (l !! Z.to_nat (x - (pl_bias p + address s))) eqn:Hlk; [done |]. apply lookup_ge_None in Hlk. unfold in_range, len in Hxl. cbn [rg_address rg_length] in Hxl. lia.
      + by rewrite Hpop, decide_True.
    - intros x Hx. rewrite Hw, decide_False by (intros Hxl; by apply Hx, Hlsub). by rewrite Hpop, decide_False. }
  destruct (Z.eqb_spec (file s) 0) as [F0|F0]; cbn [negb].
  { apply IH; [lia |]. apply Hdone. intros x. rewrite decide_False; [done |]. unfold in_range. cbn. lia. }
  rewrite El. cbn [in_backend]. pose proof (write_law b1 (pl_bias p + address s) l) as Hwl. cbn zeta in Hwl.
  assert (forall x, in_range {| rg_address := pl_bias p + address s; rg_length := len l |} x -> exists v, vm b1 x = Some (fresh, v)) as Hpre by (intros x Hx; exists 0; by rewrite Hpop, decide_True by (by apply Hlsub)).
  specialize (Hwl Hpre). destruct (be_write b1 (pl_bias p + address s) l) as [[[]|e|] b2]; [| | done].
  - apply IH; [lia | by apply Hdone].
  - aborts p v0 b2 PhStaging e Hv. apply (garbled_partial p v0 (vm b1) (vm b2) (seg_range p s)); [done | done |]. intros x. destruct (Hwl x) as [?|[Hx [v ->]]]; [by left | right].
    split; [by apply Hlsub |]. intros a w [= <- <-]. by rewrite fresh_bits, andb_false_r.
Qed.

Lemma seal_loop_spec p v0 n : plan_ok p -> vacant p v0 -> forall i b, (i + n = count (pl_image p))%nat -> shape p v0 (vm b) (sealed p i) ->
  match seal_loop (holding p b PhSealing) p n i with
  | (Ok _, self) => exists b', self = holding p b' PhSealing /\ shape p v0 (vm b') (sealed p (count (pl_image p)))
  | (Err _, self) => failed p v0 self
  | (Panic, _) => False
  end.
Proof using All.
  intros Hp Hv. induction n as [|n IH]; intros i b Hi Hsh; cbn [seal_loop].
  { exists b. split; [done |]. by replace (count (pl_image p)) with i by lia. }
  destruct (segment_loaded p i Hp ltac:(lia)) as [-> ->]. replace (i + 1)%nat with (S i) by lia. destruct (loaded (seg (pl_image p) i)) eqn:L; cbn [negb].
  2: { apply IH; [lia |]. eapply shape_ext; [| exact Hsh]. intros s _. by apply acc_upto_skip. }
  destruct (part_new p i Hp ltac:(lia) L) as [Hin Hnew]. set (s := seg (pl_image p) i) in *. rewrite segment_range_Ok by done. unfold call. cbn [in_backend holding].
  assert (forall x, in_range (seg_range p s) x -> in_range (pl_range p) x) as Hsub by (intros x; by apply part_range).
  pose proof (part_access p s Hp Hin) as Hacc. pose proof (protect_law b (seg_range p s) (access_of (flags s)) (fun x Hx => shape_owned p v0 (vm b) _ x Hp Hsh (Hsub x Hx)) Hacc) as Hpr.
  pose proof (shape_garbled p v0 (vm b) _ Hp (sealed_safe p i Hp) Hsh) as Hg. destruct (be_protect b (seg_range p s) (access_of (flags s))) as [[[]|e|] b1]; [| | done].
  - apply IH; [lia |]. apply (shape_step p v0 (vm b) (vm b1) (sealed p i) (sealed p (S i)) s); [done | done | done | | |].
    + intros t Ht. unfold sealed. rewrite acc_upto_S by (done || lia). fold s. by rewrite decide_False.
    + exists (access_of (flags s)). split; [unfold sealed; rewrite acc_upto_S by (done || lia); fold s; by rewrite decide_True |]. intros x Hx. rewrite Hpr, decide_True by done.
      rewrite (proj1 (proj2 Hsh) s x Hin Hx). unfold sealed, acc_upto. by rewrite decide_False.
    + intros x Hx. by rewrite Hpr, decide_False.
  - aborts p v0 b1 PhSealing e Hv. apply (garbled_partial p v0 (vm b) (vm b1) (seg_range p s)); [done | done |]. intros x. destruct (Hpr x) as [?|[Hx ->]]; [by left | right]. split; [done |].
    intros a w. destruct (vm b x) as [[a' w']|]; [intros [= <- <-] | done]. done.
Qed.

(** ** An owner over any history *)

(** Every byte of the image is in place; no part of the range is lost. *)
Definition filled p (v : Z -> cell) : Prop :=
  (forall s x, In s (parts p) -> in_range (seg_range p s) x -> exists a, v x = Some (a, image_byte p s x)) /\ forall x, in_range (pl_range p) x -> v x <> None.

(** What an installation holds; [v0] is the memory before. *)
Definition inst_inv v0 self b : Prop :=
  match in_phase self with
  | PhEmpty | PhClosed => in_retained self = false /\ whole v0 b
  | PhStaged => exists p, self = holding p b PhStaged /\ plan_ok p /\ vacant p v0 /\ shape p v0 (vm b) (fun _ => Some fresh)
  | PhSealed => exists p, self = holding p b PhSealed /\ plan_ok p /\ vacant p v0 /\ shape p v0 (vm b) (fun s => Some (access_of (flags s)))
  | PhFailed => exists p, in_plan self = Some p /\ plan_ok p /\ if in_retained self then vacant p v0 /\ garbled p v0 (vm b) else whole v0 b
  | _ => False
  end.

Definition mapping_inv v0 p (m : Mapping B) : Prop :=
  match mp_range m with
  | None => mp_ready m = false /\ whole v0 (mp_backend m)
  | Some r => r = pl_range p /\ vacant p v0 /\ garbled p v0 (vm (mp_backend m)) /\ (mp_ready m = true -> filled p (vm (mp_backend m)))
  end.

Lemma shape_filled p v0 v acc : plan_ok p -> (forall s, In s (parts p) -> acc s <> None) -> shape p v0 v acc -> filled p v.
Proof using.
  intros Hp Hacc Hsh. split; [| intros x; by apply (shape_owned p v0 v acc)]. intros s x Hs Hx. rewrite (proj1 (proj2 Hsh) s x Hs Hx). specialize (Hacc s Hs). destruct (acc s) as [a|]; [by exists a | done].
Qed.

Lemma stage_spec v0 self b p : in_backend self = Some b -> inst_inv v0 self b -> plan_ok p ->
  match stage self p with (Panic, _) => False | (_, self') => exists b', in_backend self' = Some b' /\ inst_inv v0 self' b' end.
Proof using All.
  intros Hb Hi Hp. unfold stage. destruct (bool_decide_reflect (in_phase self = PhEmpty)) as [He|]; cbn [negb]; [| by exists b]. unfold inst_inv in Hi. rewrite He in Hi. destruct Hi as [Hr Hw].
  unfold call. cbn [in_backend set_plan set_phase]. rewrite Hb. pose proof (reserve_law b (pl_range p)) as Hl. destruct (be_reserve b (pl_range p)) as [[[]|e|] b1]; [| | done].
  - destruct Hl as [Hfree Hl]. assert (vacant p v0) as Hv by (intros x Hx; rewrite <- Hw; by apply Hfree). unfold set_retained. cbn [in_backend in_plan in_phase].
    change {| in_backend := Some b1; in_plan := Some p; in_retained := true; in_phase := PhStaging |} with (holding p b1 PhStaging).
    pose proof (stage_loop_spec p v0 (count (pl_image p)) Hp Hv 0%nat b1 eq_refl) as Hs. assert (shape p v0 (vm b1) (staged p 0)) as H0.
    { split_and!; [intros x Hx; rewrite Hl, decide_False by done; apply Hw | intros s x Hin Hx; rewrite Hl, decide_True by (by apply (part_range p s)); done | intros x Hx _; by rewrite Hl, decide_True]. }
    specialize (Hs H0). destruct (stage_loop _ p _ 0) as [[[]|er|] self1]; [| | done].
    + destruct Hs as (b2 & -> & Hs). exists b2. split; [done |]. cbn. exists p. split_and!; [done | done | done |]. eapply shape_ext; [| exact Hs]. intros s Hin. unfold staged. by rewrite acc_upto_all.
    + destruct Hs as (H1 & H2 & b2 & H3 & H4). exists b2. split; [done |]. unfold inst_inv. rewrite H1. exists p. split_and!; [done | done |]. by destruct (in_retained self1).
  - unfold abort. cbn. rewrite Hr. exists b1. split; [done |]. cbn. exists p. split_and!; [done | done |]. intros x. by rewrite Hl.
Qed.

Lemma seal_spec v0 self b : in_backend self = Some b -> inst_inv v0 self b ->
  match seal (E := E) self with (Panic, _) => False | (_, self') => exists b', in_backend self' = Some b' /\ inst_inv v0 self' b' end.
Proof using All.
  intros Hb Hi. unfold seal. destruct (bool_decide_reflect (in_phase self = PhStaged)) as [He|]; cbn [negb]; [| by exists b]. unfold inst_inv in Hi. rewrite He in Hi. destruct Hi as (p & -> & Hp & Hv & Hsh).
  cbn [in_plan set_phase holding]. change {| in_backend := _; in_plan := _; in_retained := _; in_phase := PhSealing |} with (holding p b PhSealing).
  pose proof (seal_loop_spec p v0 (count (pl_image p)) Hp Hv 0%nat b eq_refl) as Hs. assert (shape p v0 (vm b) (sealed p 0)) as H0 by (eapply shape_ext; [| exact Hsh]; done). specialize (Hs H0).
  destruct (seal_loop _ p _ 0) as [[[]|er|] self1]; [| | done].
  - destruct Hs as (b2 & -> & Hs). exists b2. split; [done |]. cbn. exists p. split_and!; [done | done | done |]. eapply shape_ext; [| exact Hs]. intros s Hin. unfold sealed. by rewrite acc_upto_all.
  - destruct Hs as (H1 & H2 & b2 & H3 & H4). exists b2. split; [done |]. unfold inst_inv. rewrite H1. exists p. split_and!; [done | done |]. by destruct (in_retained self1).
Qed.


(** What is retained when nothing can go wrong with the plan. *)
Lemma inst_garbled v0 self b : inst_inv v0 self b -> in_retained self = true -> exists p, in_plan self = Some p /\ plan_ok p /\ vacant p v0 /\ garbled p v0 (vm b).
Proof using All.
  unfold inst_inv. destruct (in_phase self) eqn:Eph; intros Hi Hr; try (destruct Hi; congruence); try done.
  - destruct Hi as (p & -> & Hp & Hv & Hsh). exists p. split_and!; [done | done | done |]. eapply shape_garbled; [done | | done]. intros s a _ [= <-]. by rewrite fresh_bits, andb_false_r.
  - destruct Hi as (p & -> & Hp & Hv & Hsh). exists p. split_and!; [done | done | done |]. eapply shape_garbled; [done | | done]. intros s a Hs [= <-]. by apply (part_access p).
  - destruct Hi as (p & Hpl & Hp & Hi). rewrite Hr in Hi. destruct Hi as [Hv Hg]. by exists p.
Qed.

Lemma release_spec v0 self b : in_backend self = Some b -> inst_inv v0 self b ->
  match Installation_release self with (Panic, _) => False | (_, self') => exists b', in_backend self' = Some b' /\ inst_inv v0 self' b' end.
Proof using All.
  intros Hb Hi. unfold Installation_release. destruct (in_retained self) eqn:Hr.
  - destruct (inst_garbled v0 self b Hi Hr) as (p & Hpl & Hp & Hv & Hg). cbn [in_plan set_phase]. rewrite Hpl. unfold give_back, call. cbn [in_backend set_phase]. rewrite Hb.
    pose proof (release_cases p v0 b Hv Hg) as Hc. destruct (be_release b (pl_range p)) as [[[]|e|] b1]; [| | done]; exists b1; (split; [done |]); [done |]. cbn. exists p. rewrite Hr. by split_and!.
  - exists b. split; [done |]. unfold inst_inv in *. cbn. split; [done |]. destruct (in_phase self); try (by destruct Hi); try done.
    + destruct Hi as (p & -> & _). done.
    + destruct Hi as (p & -> & _). done.
    + destruct Hi as (p & _ & _ & Hi). by rewrite Hr in Hi.
Qed.

Lemma hand_over_spec v0 self b p ready : in_backend self = Some b -> in_plan self = Some p -> vacant p v0 -> garbled p v0 (vm b) -> (ready = true -> filled p (vm b)) ->
  exists m self', hand_over (E := E) self ready = (Ok m, self') /\ in_backend self' = None /\ in_plan self' = Some p /\ in_phase self' = PhClosed /\ in_retained self' = false /\ mapping_inv v0 p m.
Proof using All. intros Hb Hpl Hv Hg Hf. unfold hand_over. rewrite Hb, Hpl. by do 2 eexists. Qed.

Definition handed_over self : Prop := in_backend self = None /\ in_phase self = PhClosed /\ in_retained self = false.

Lemma commit_spec v0 self b : in_backend self = Some b -> inst_inv v0 self b -> match commit (E := E) self with
  | (Ok m, self') => handed_over self' /\ exists p, in_plan self' = Some p /\ plan_ok p /\ mapping_inv v0 p m
  | (Err _, self') => self' = self
  | (Panic, _) => False end.
Proof using All.
  intros Hb Hi. unfold commit. destruct (bool_decide_reflect (in_phase self = PhSealed)) as [He|]; cbn [negb]; [| done]. pose proof Hi as Hi'. unfold inst_inv in Hi. rewrite He in Hi.
  destruct Hi as (p & -> & Hp & Hv & Hsh). destruct (inst_garbled v0 _ b Hi' eq_refl) as (p' & [= <-] & _ & _ & Hg).
  destruct (hand_over_spec v0 (holding p b PhSealed) b p true eq_refl eq_refl Hv Hg (fun _ => shape_filled p v0 (vm b) (fun s => Some (access_of (flags s))) Hp ltac:(done) Hsh)) as (m & self' & -> & H1 & H2 & H3 & H4 & H5).
  split; [done |]. by exists p.
Qed.

Lemma retain_failed_spec v0 self b : in_backend self = Some b -> inst_inv v0 self b -> match retain_failed (E := E) self with
  | (Ok m, self') => handed_over self' /\ exists p, in_plan self' = Some p /\ plan_ok p /\ mapping_inv v0 p m
  | (Err _, self') => self' = self
  | (Panic, _) => False end.
Proof using All.
  intros Hb Hi. unfold retain_failed. destruct (negb (bool_decide (in_phase self = PhFailed)) || negb (in_retained self)) eqn:G; [done |].
  apply orb_false_iff in G as [_ Hr%negb_false_iff]. destruct (inst_garbled v0 self b Hi Hr) as (p & Hpl & Hp & Hv & Hg).
  destruct (hand_over_spec v0 self b p false Hb Hpl Hv Hg ltac:(done)) as (m & self' & -> & H1 & H2 & H3 & H4 & H5). split; [done |]. by exists p.
Qed.

(** ** The mapping *)

Lemma unmap_spec v0 p m : mapping_inv v0 p m -> match Mapping_release m with (Panic, _) => False | (_, m') => mapping_inv v0 p m' end.
Proof using All.
  unfold mapping_inv, Mapping_release. destruct (mp_range m) as [r|]; [| by intros [_ ?]]. intros (-> & Hv & Hg & _). pose proof (release_cases p v0 (mp_backend m) Hv Hg) as Hc.
  destruct (be_release (mp_backend m) (pl_range p)) as [[[]|e|] b1]; [| | done]; done.
Qed.

Lemma relro_spec v0 p m ar ax r x : plan_ok p -> writable ar = false -> writable ax = false -> mapping_inv v0 p m ->
  match Mapping_relro ar ax m r x with (Panic, _) => False | (_, m') => mapping_inv v0 p m' end.
Proof using All.
  intros Hp Har Hax Hm. unfold Mapping_relro. destruct (mp_range m) as [owned|] eqn:Er; [| done]. destruct (_ || _) eqn:G; [done |]. unfold mapping_inv in Hm. rewrite Er in Hm. destruct Hm as (-> & Hv & Hg & Hf).
  apply orb_false_iff in G as [G G6]. do 4 (apply orb_false_iff in G as [G ?]). apply negb_false_iff in G. specialize (Hf G). bool_cases.
  assert (forall y, in_range r y -> in_range (pl_range p) y) as Hsub.
  { unfold checked_add64 in G6. destruct (_ <=? U64_MAX); [| done]. destruct (_ <=? U64_MAX); [| done]. bool_cases. unfold in_range. lia. }
  set (acc := Z.lor ar (if x then ax else 0)). assert (writable acc = false) as Hacc by (unfold acc, writable in *; rewrite Z.lor_spec, Har; destruct x; [done | by rewrite Z.bits_0]).
  pose proof (protect_law (mp_backend m) r acc (fun y Hy => proj2 Hf y (Hsub y Hy)) ltac:(by rewrite Hacc)) as Hl. destruct (be_protect (mp_backend m) r acc) as [[[]|e|] b1]; [| | done]; unfold mapping_inv; cbn [mp_range mp_backend mp_ready]; rewrite ?Er.
  - split_and!; [done | done | |].
    + apply (garbled_partial p v0 (vm (mp_backend m)) (vm b1) r Hsub Hg). intros y. rewrite Hl. destruct (decide (in_range r y)); [right | by left]. split; [done |]. intros a w. destruct (vm (mp_backend m) y); [intros [= <- <-] | done]. by rewrite Hacc.
    + intros _. destruct Hf as [Hf1 Hf2]. split.
      * intros s y Hs Hy. destruct (Hf1 s y Hs Hy) as [a Ha]. rewrite Hl. destruct (decide (in_range r y)); [| by exists a]. exists acc. by rewrite Ha.
      * intros y Hy. rewrite Hl. destruct (decide (in_range r y)); [| by apply Hf2]. specialize (Hf2 y Hy). by destruct (vm (mp_backend m) y).
  - split_and!; [done | done | | done]. apply (garbled_partial p v0 (vm (mp_backend m)) (vm b1) r Hsub Hg). intros y. destruct (Hl y) as [?|[Hy ->]]; [by left | right]. split; [done |].
    intros a w. destruct (vm (mp_backend m) y); [intros [= <- <-] | done]. by rewrite Hacc.
Qed.

End Operations.
