(* ===== verification/MappingHistory.v ===== *)
(** * Installing images: any history of operations

    The owner of an installation and of the mapping it publishes, over any sequence of calls and failures; and a concrete
    memory that meets the interface. *)

From S2P Require Import Prelude Text Fields LaunchImage LaunchParse ImageMapping MappingSafe.

Inductive map_op : Type :=
  | MStage (p : Plan)
  | MSeal
  | MCommit
  | MRetainFailed
  | MRelease
  | MRelro (r : Range) (executable : bool)
  | MUnmap.

(** The plans are those that [Plan::new] makes of a byte string. *)
Definition map_op_ok (o : map_op) : Prop :=
  match o with
  | MStage p => exists b bias, Forall is_u8 b /\ len b <= ISIZE_MAX /\ 0 <= bias /\ Plan_new b bias = Ok p
  | _ => True
  end.

Inductive reply : Type := Done | Refused | Crashed.
Definition reply_of {E A} (r : result E A) : reply := match r with Ok _ => Done | Err _ => Refused | Panic => Crashed end.

Section History.
Context {B E : Type} `{Backend B E} (access_read access_execute : Z).

Record owner : Type := { ow_inst : Installation B; ow_map : option (Mapping B) }.

Definition on_inst {E' A} (y : owner) (r : result E' A * Installation B) : reply * owner := (reply_of (fst r), {| ow_inst := snd r; ow_map := ow_map y |}).
Definition published {E'} (y : owner) (r : result E' (Mapping B) * Installation B) : reply * owner :=
  (reply_of (fst r), {| ow_inst := snd r; ow_map := match fst r with Ok m => Some m | _ => ow_map y end |}).
Definition on_map {E' A} (y : owner) (r : result E' A * Mapping B) : reply * owner := (reply_of (fst r), {| ow_inst := ow_inst y; ow_map := Some (snd r) |}).

Definition operate (y : owner) (o : map_op) : reply * owner :=
  match o, ow_map y with
  | MStage p, _ => on_inst y (stage (ow_inst y) p)
  | MSeal, _ => on_inst y (seal (E := E) (ow_inst y))
  | MCommit, _ => published y (commit (E := E) (ow_inst y))
  | MRetainFailed, _ => published y (retain_failed (E := E) (ow_inst y))
  | MRelease, _ => on_inst y (Installation_release (ow_inst y))
  | MRelro r x, Some m => on_map y (Mapping_relro access_read access_execute m r x)
  | MUnmap, Some m => on_map y (Mapping_release m)
  | _, None => (Refused, y)
  end.

Fixpoint operate_all (y : owner) (os : list map_op) : list reply * owner :=
  match os with
  | [] => ([], y)
  | o :: os => let '(r, y) := operate y o in let '(rs, y) := operate_all y os in (r :: rs, y)
  end.

(** The backend is in one place; what is owned of its memory. *)
Definition memory_of (y : owner) : option B := match ow_map y with Some m => Some (mp_backend m) | None => in_backend (ow_inst y) end.
Definition owned (y : owner) : option Range :=
  match ow_map y with
  | Some m => mp_range m
  | None => if in_retained (ow_inst y) then pl_range <$> in_plan (ow_inst y) else None
  end.

Context `{!VmLaws B E}.

Definition owner_inv (v0 : Z -> cell) (y : owner) : Prop :=
  match ow_map y with
  | None => exists b, in_backend (ow_inst y) = Some b /\ inst_inv v0 (ow_inst y) b
  | Some m => handed_over (ow_inst y) /\ exists p, in_plan (ow_inst y) = Some p /\ plan_ok p /\ mapping_inv v0 p m
  end.

(** An installation that has handed over refuses everything and touches nothing. *)
Lemma handed_over_inert (self : Installation B) p : handed_over self ->
  stage self p = (Err State, self) /\ seal (E := E) self = (Err State, self) /\ commit (E := E) self = (Err State, self) /\ retain_failed (E := E) self = (Err State, self) /\
  Installation_release (E := E) self = (Ok tt, self).
Proof using. destruct self as [b q r ph]. intros (E1 & E2 & E3). cbn in *. by subst. Qed.

Lemma operate_inv v0 y o : map_op_ok o -> writable access_read = false -> writable access_execute = false -> owner_inv v0 y ->
  fst (operate y o) <> Crashed /\ owner_inv v0 (snd (operate y o)).
Proof using All.
  intros Ho Hr Hx Hy. destruct y as [self [m|]].
  - destruct Hy as (Hh & p & Hpl & Hp & Hm). cbn [ow_inst ow_map] in *.
    destruct o as [q| | | | |r x|]; cbn [operate ow_map ow_inst]; try (destruct (handed_over_inert self p Hh) as (E1 & E2 & E3 & E4 & E5); rewrite ?E2, ?E3, ?E4, ?E5; split; [done |]; by split; [| exists p]).
    + destruct (handed_over_inert self q Hh) as (-> & _). split; [done |]. by split; [| exists p].
    + pose proof (relro_spec v0 p m access_read access_execute r x Hp Hr Hx Hm) as Hs. destruct (Mapping_relro _ _ m r x) as [[[]|e|] m']; [| | done]; (split; [done |]; by split; [| exists p]).
    + pose proof (unmap_spec v0 p m Hm) as Hs. destruct (Mapping_release m) as [[[]|e|] m']; [| | done]; (split; [done |]; by split; [| exists p]).
  - destruct Hy as (b & Hb & Hi). cbn [ow_inst ow_map] in *. destruct o as [q| | | | |r x|]; cbn [operate ow_map ow_inst].
    + assert (plan_ok q) as Hq by (destruct Ho as (l & bias & H8 & Hl & H0 & E1); pose proof (Plan_new_spec l bias H8 Hl H0) as Hs; rewrite E1 in Hs; apply Hs).
      pose proof (stage_spec v0 self b q Hb Hi Hq) as Hs. destruct (stage self q) as [[[]|e|] s']; [| | done]; by split.
    + pose proof (seal_spec v0 self b Hb Hi) as Hs. destruct (seal self) as [[[]|e|] s']; [| | done]; by split.
    + pose proof (commit_spec v0 self b Hb Hi) as Hs. destruct (commit self) as [[m|e|] s']; [by split | | done]. subst s'. split; [done |]. by exists b.
    + pose proof (retain_failed_spec v0 self b Hb Hi) as Hs. destruct (retain_failed self) as [[m|e|] s']; [by split | | done]. subst s'. split; [done |]. by exists b.
    + pose proof (release_spec v0 self b Hb Hi) as Hs. destruct (Installation_release self) as [[[]|e|] s']; [| | done]; by split.
    + split; [done |]. by exists b.
    + split; [done |]. by exists b.
Qed.

Lemma operate_all_inv v0 os y : Forall map_op_ok os -> writable access_read = false -> writable access_execute = false -> owner_inv v0 y ->
  Forall (fun r => r <> Crashed) (fst (operate_all y os)) /\ owner_inv v0 (snd (operate_all y os)).
Proof using All.
  intros Hos Hr Hx. revert y. induction Hos as [|o os Ho _ IH]; intros y Hy; [done |]. destruct (operate_inv v0 y o Ho Hr Hx Hy) as [Hc Hy']. cbn. destruct (operate y o) as [r y'].
  destruct (IH y' Hy') as [Hcs Hy'']. cbn in *. destruct (operate_all y' os) as [rs y'']. by split; [constructor |].
Qed.

(** C5: whatever the sequence of operations on an installation and the mapping it publishes, and whichever of the calls on
    memory fail or stop half-way: nothing panics; memory outside the reserved range is untouched and the range was free
    before; when nothing is owned any more all memory is as before; no byte of the range is ever writable and executable; a
    sealed installation has exactly the bytes of the image, the zeros behind them and the permissions of the segments; and a
    mapping that is ready still has these bytes. *)
Theorem installations_safe (b0 : B) (os : list map_op) : Forall map_op_ok os -> writable access_read = false -> writable access_execute = false ->
  let '(rs, y) := operate_all {| ow_inst := Installation_new b0; ow_map := None |} os in
  Forall (fun r => r <> Crashed) rs /\ exists b, memory_of y = Some b /\
  (owned y = None -> forall x, vm b x = vm b0 x) /\
  (forall r, owned y = Some r -> forall x, (~ in_range r x -> vm b x = vm b0 x) /\ (in_range r x -> vm b0 x = None /\ no_wx (vm b x))) /\
  (forall p, ow_map y = None -> in_phase (ow_inst y) = PhSealed -> in_plan (ow_inst y) = Some p -> shape p (vm b0) (vm b) (fun s => Some (granted (flags s)))) /\
  (forall p m, ow_map y = Some m -> mp_ready m = true -> in_plan (ow_inst y) = Some p -> filled p (vm b)).
Proof using All.
  intros Hos Hr Hx. destruct (operate_all_inv (vm b0) os {| ow_inst := Installation_new b0; ow_map := None |} Hos Hr Hx) as [Hc Hy]; [by exists b0 |].
  destruct (operate_all _ os) as [rs y]. cbn [fst snd] in *. split; [done |]. unfold memory_of, owned. unfold owner_inv in Hy. destruct (ow_map y) as [m|].
  - destruct Hy as (_ & p & Hpl & Hp & Hm). exists (mp_backend m). split; [done |]. unfold mapping_inv in Hm. destruct (mp_range m) as [r|].
    + destruct Hm as (-> & Hv & [Hu Hw] & Hf). split_and!; [done | | done | intros p' m' [= <-] Hrd Hp'; rewrite Hpl in Hp'; injection Hp' as <-; by apply Hf].
      intros r [= <-] x. split; [apply Hu | intros Hin; split; [by apply Hv | by apply Hw]].
    + destruct Hm as [Hnr Hw]. split_and!; [done | done | done | intros p' m' [= <-] Hrd; congruence].
  - destruct Hy as (b & Hb & Hi). exists b. split; [done |]. split_and!.
    + intros Ho. destruct (in_retained (ow_inst y)) eqn:Hrt.
      * destruct (inst_garbled _ _ b Hi Hrt) as (p & Hpl & _). by rewrite Hpl in Ho.
      * unfold inst_inv in Hi. destruct (in_phase (ow_inst y)); try (by destruct Hi); [destruct Hi as (p & E1 & _); by rewrite E1 in Hrt.. |]. destruct Hi as (p & _ & _ & Hi). by rewrite Hrt in Hi.
    + intros r Ho x. destruct (in_retained (ow_inst y)) eqn:Hrt; [| done]. destruct (inst_garbled _ _ b Hi Hrt) as (p & Hpl & _ & Hv & Hu & Hw). rewrite Hpl in Ho. injection Ho as <-.
      split; [apply Hu | intros Hin; split; [by apply Hv | by apply Hw]].
    + intros p _ Hph Hpl. unfold inst_inv in Hi. rewrite Hph in Hi. destruct Hi as (p' & E1 & Hok & _ & Hsh). rewrite E1 in Hpl. injection Hpl as <-. by apply granted_shape.
    + done.
Qed.

End History.

(** ** A memory that meets the interface *)

(** Memory as a function, and what becomes of the next calls: a call that breaks acts on the first bytes only. *)
Inductive fate : Type := Fine | Broken (bytes : Z).
Record Ram : Type := { ram : Z -> cell; fates : list fate }.

Definition ram_op (b : Ram) (r : Range) (f : Z -> cell) : result unit unit * Ram :=
  match fates b with
  | Broken n :: rest => (Err tt, {| ram := fun x => if decide (in_range r x /\ x < rg_address r + n) then f x else ram b x; fates := rest |})
  | _ => (Ok tt, {| ram := fun x => if decide (in_range r x) then f x else ram b x; fates := tail (fates b) |})
  end.
Definition ram_free (b : Ram) (r : Range) : bool := forallb (fun x => match ram b x with None => true | Some _ => false end) (seqZ (rg_address r) (rg_length r)).
Definition ram_reserve (b : Ram) (r : Range) : result unit unit * Ram :=
  match fates b with
  | Broken _ :: rest => (Err tt, {| ram := ram b; fates := rest |})
  | _ => if ram_free b r then ram_op b r (fun _ => Some (0, 0)) else (Err tt, b)
  end.

#[export] Instance Ram_backend : Backend Ram unit := {
  be_reserve := ram_reserve;
  be_populate b r := ram_op b r (fun _ => Some (3, 0));
  be_write b a l := ram_op b {| rg_address := a; rg_length := len l |} (fun x => (fun v => (3, v)) <$> l !! Z.to_nat (x - a));
  be_protect b r acc := ram_op b r (fun x => (fun c => (acc, snd c)) <$> ram b x);
  be_release b r := ram_op b r (fun _ => None) }.

Lemma ram_op_law b r f : match ram_op b r f with
  | (Ok _, b') => forall x, ram b' x = if decide (in_range r x) then f x else ram b x
  | (Err _, b') => forall x, ram b' x = ram b x \/ in_range r x /\ ram b' x = f x
  | (Panic, _) => False end.
Proof. unfold ram_op. destruct (fates b) as [|[|n] rest]; cbn; [done | done |]. intros x. destruct (decide _) as [[? _]|]; [by right | by left]. Qed.

Lemma ram_reserve_law b r : match ram_reserve b r with
  | (Ok _, b') => (forall x, in_range r x -> ram b x = None) /\ forall x, ram b' x = if decide (in_range r x) then Some (0, 0) else ram b x
  | (Err _, b') => forall x, ram b' x = ram b x
  | (Panic, _) => False end.
Proof.
  assert (ram_free b r = true -> forall x, in_range r x -> ram b x = None) as Hfree.
  { intros Hf x Hx. unfold ram_free in Hf. rewrite forallb_forall in Hf. specialize (Hf x). destruct (ram b x); [| done]. assert (false = true); [| done]. apply Hf, list_elem_of_In, elem_of_seqZ, Hx. }
  unfold ram_reserve. destruct (fates b) as [|[|n] rest] eqn:F; [| | done]; (destruct (ram_free b r); [| done]); unfold ram_op; rewrite F; (split; [by apply Hfree | done]).
Qed.

Lemma ram_write_law b a l : let r := {| rg_address := a; rg_length := len l |} in (forall x, in_range r x -> exists v, ram b x = Some (3, v)) ->
  match be_write (E := unit) b a l with
  | (Ok _, b') => forall x, ram b' x = if decide (in_range r x) then (fun v => (3, v)) <$> l !! Z.to_nat (x - a) else ram b x
  | (Err _, b') => forall x, ram b' x = ram b x \/ in_range r x /\ exists v, ram b' x = Some (3, v)
  | (Panic, _) => False end.
Proof.
  intros r _. cbn [be_write Ram_backend]. pose proof (ram_op_law b r (fun x => (fun v => (3, v)) <$> l !! Z.to_nat (x - a))) as Hl. fold r. destruct (ram_op b r _) as [[[]|e|] b']; [done | | done].
  intros x. destruct (Hl x) as [?|[Hx ->]]; [by left | right]. split; [done |]. destruct (l !! Z.to_nat (x - a)) as [v|] eqn:Lk; [by exists v |].
  apply lookup_ge_None in Lk. unfold in_range, r, len in Hx. cbn [rg_address rg_length] in Hx. lia.
Qed.

#[export] Instance Ram_laws : VmLaws Ram unit := {
  vm := ram; fresh := 3; fresh_bits := eq_refl;
  reserve_law := ram_reserve_law;
  populate_law b r _ := ram_op_law b r (fun _ => Some (3, 0));
  write_law := ram_write_law;
  protect_law b r acc _ _ := ram_op_law b r (fun x => (fun c => (acc, snd c)) <$> ram b x);
  release_law b r := ram_op_law b r (fun _ => None) }.

(** An image of one segment, loaded at its fixed address with zeros behind it. *)
Definition sample_image : list Z :=
  [127; 69; 76; 70; 2; 1; 1] ++ zeros 9 ++ to_le 2 2 ++ to_le 2 62 ++ to_le 4 1 ++ to_le 8 4194424 ++ to_le 8 64 ++ zeros 12 ++ to_le 2 64 ++ to_le 2 56 ++ to_le 2 1 ++ zeros 6 ++
  to_le 4 1 ++ to_le 4 5 ++ to_le 8 0 ++ to_le 8 4194304 ++ to_le 8 0 ++ to_le 8 124 ++ to_le 8 200 ++ to_le 8 4096 ++ [1; 2; 3; 4].
Definition sample_plan : Plan :=
  match Plan_new sample_image 0 with
  | Ok p => p
  | _ => {| pl_image := image0 []; pl_bias := 0; pl_range := {| rg_address := 0; rg_length := 0 |} |}
  end.
(** The first attempt to give the memory back breaks after ten bytes. *)
Definition sample_ram : Ram := {| ram := fun _ => None; fates := [Fine; Fine; Fine; Fine; Broken 10; Fine] |}.

Lemma sample_plan_ok : Plan_new sample_image 0 = Ok sample_plan.
Proof. vm_compute. reflexivity. Qed.

Lemma installations_safe_witness :
  let '(rs, y) := operate_all 1 4 {| ow_inst := Installation_new sample_ram; ow_map := None |} [MStage sample_plan; MSeal; MCommit; MUnmap; MUnmap] in
  rs = [Done; Done; Done; Refused; Done] /\ exists b, memory_of y = Some b /\ forall x, ram b x = None.
Proof.
  pose proof (installations_safe (B := Ram) (E := unit) 1 4 sample_ram [MStage sample_plan; MSeal; MCommit; MUnmap; MUnmap]) as Hs.
  assert (Forall map_op_ok [MStage sample_plan; MSeal; MCommit; MUnmap; MUnmap]) as Hops.
  { repeat constructor. exists sample_image, 0. split_and!; [by_compute | vm_compute; discriminate | done | exact sample_plan_ok]. }
  specialize (Hs Hops eq_refl eq_refl).
  assert (fst (operate_all 1 4 {| ow_inst := Installation_new sample_ram; ow_map := None |} [MStage sample_plan; MSeal; MCommit; MUnmap; MUnmap]) = [Done; Done; Done; Refused; Done]) as E1 by (vm_compute; reflexivity).
  assert (owned (snd (operate_all 1 4 {| ow_inst := Installation_new sample_ram; ow_map := None |} [MStage sample_plan; MSeal; MCommit; MUnmap; MUnmap])) = None) as E2 by (vm_compute; reflexivity).
  destruct (operate_all 1 4 _ _) as [rs y]. cbn [fst snd] in *. split; [done |]. destruct Hs as (_ & b & Hb & Hw & _). exists b. split; [done |]. intros x. by rewrite (Hw E2).
Defined.
