(* ===== verification/LaunchContainer.v ===== *)
(** * Launch containers ([Launch] of [posix-client/src/elf_launch.rs])

    A program that names an interpreter is launched through a container: one fixed image that holds the segments of the program
    and of the interpreter at their final places, and starts the interpreter. *)

From S2P Require Import Prelude Text Fields LaunchImage.

(** ** The code *)

(** The slice of [copy_from_slice] from [at_], as long as the source. *)
Definition put (b : list Z) (at_ : nat) (src : list Z) : result Error (list Z) := copy_into b at_ (at_ + List.length src) src.

Fixpoint put_words (b : list Z) (at_ : nat) (vs : list Z) : result Error (list Z) :=
  match vs with [] => Ok b | v :: vs => let? b := put b at_ (to_le 8 v) in put_words b (at_ + 8) vs end.

Definition Segment_write (self : Segment) (b : list Z) (at_ : nat) : result Error (list Z) :=
  let? b := put b at_ (to_le 4 (kind self)) in
  let? b := put b (at_ + 4) (to_le 4 (flags self)) in
  put_words b (at_ + 8) [sg_offset self; address self; 0; file self; memory self; alignment self].

(** [interpreter], for callers that have no image yet. *)
Fixpoint any_interp (table : list Z) (n : nat) : result Error bool :=
  match n with
  | O => Ok false
  | S n => let? k := read 4 table 0 in if k =? 3 then Ok true else any_interp (drop 56 table) n
  end.
Definition interpreter (b : list Z) : result Error (option (list Z)) :=
  let? bad := (if (List.length b <? 64)%nat then Ok true else let? ident := slice b 0 7 in Ok (negb (bool_decide (ident = ELF_MAGIC)))) in
  if bad : bool then Err Invalid else
  let? phoff := word b 32 in
  let? count := read 2 b 56 in
  let? phentsize := slice b 54 56 in
  if negb (bool_decide (phentsize = to_le 2 56)) || (count =? 0) then Err Invalid else
  let? (a, e) := extent b phoff (count * 56) in
  let? table := slice b a e in
  let? found := any_interp table (Z.to_nat count) in
  if found : bool then let? image := Image_parse b in image_interpreter image else Ok None.

Record Launch : Type := {
  main : Image;
  loader : Image;
  main_bias : Z;
  loader_bias : Z;
  metadata_address : Z;
  metadata_length : Z;
  header_count : Z;
  root_headers_offset : nat;
  la_length : Z }.

(** The comparison of the segments of the two images. *)
Fixpoint clash_inner (main_bias loader_bias : Z) (a : Segment) (loader : Image) (n j : nat) : result Error unit :=
  match n with
  | O => Ok tt
  | S n =>
      let? b := segment loader j in
      let? hit := (if (kind b =? LOAD) && negb (memory b =? 0) then
          let? alo := add main_bias (address a) in
          let? blo := add loader_bias (address b) in
          let? bhi := add blo (memory b) in
          let? bhi := align bhi PAGE in
          if page_down alo <? bhi then
            let? ahi := add alo (memory a) in
            let? ahi := align ahi PAGE in
            Ok (page_down blo <? ahi)
          else Ok false
        else Ok false) in
      if hit : bool then Err Invalid else clash_inner main_bias loader_bias a loader n (j + 1)
  end.
Fixpoint clash_outer (main_bias loader_bias : Z) (main loader : Image) (n i : nat) : result Error unit :=
  match n with
  | O => Ok tt
  | S n =>
      let? a := segment main i in
      let? _ := (if negb (kind a =? LOAD) || (memory a =? 0) then Ok tt else clash_inner main_bias loader_bias a loader (count loader) 0) in
      clash_outer main_bias loader_bias main loader n (i + 1)
  end.

(** [each_load]: the loadable segments of one image at their places, with a state of the closure. *)
Fixpoint each_segment {S} (image : Image) (bias : Z) (emit : S -> Image -> Segment -> result Error S) (n i : nat) (st : S) : result Error S :=
  match n with
  | O => Ok st
  | Datatypes.S n =>
      let? s := segment image i in
      let? st := (if (kind s =? LOAD) && negb (memory s =? 0) then
          let? a := add (address s) bias in
          emit st image {| kind := kind s; flags := flags s; sg_offset := sg_offset s; address := a; file := file s; memory := memory s; alignment := alignment s |}
        else Ok st) in
      each_segment image bias emit n (i + 1) st
  end.
Definition each_load {S} (self : Launch) (emit : S -> Image -> Segment -> result Error S) (st : S) : result Error S :=
  let? st := each_segment (main self) (main_bias self) emit (count (main self)) 0 st in
  each_segment (loader self) (loader_bias self) emit (count (loader self)) 0 st.

Definition next_cursor (cursor : Z) (s : Segment) : result Error Z :=
  let? c := align cursor PAGE in
  add c (Z.land (address s) (PAGE - 1)).
Definition measure (cursor : Z) (_ : Image) (s : Segment) : result Error Z :=
  let? c := next_cursor cursor s in add c (file s).

Definition Launch_new (main loader : Image) (random : list Z) : result Error Launch :=
  let? mi := image_interpreter main in
  let? bad := (if negb (some mi) then Ok true else let? li := image_interpreter loader in Ok (some li)) in
  if bad : bool then Err Unsupported else
  let? r0 := slice random 0 8 in
  let? (main_bias, main_end) := place main (536870912 + Z.land (from_le r0) 16383 * PAGE) in
  let? r1 := slice random 8 16 in
  let? (loader_bias, loader_end) := place loader (Z.max (1073741824 + Z.land (from_le r1) 16383 * PAGE) main_end) in
  let? _ := clash_outer main_bias loader_bias main loader (count main) 0 in
  let n := loads main + loads loader + 3 in
  if negb (n <? U16_MAX) then Err TooLarge else
  let root := (64 + Z.to_nat n * 56)%nat in
  let? ha := header_address main main_bias in
  let copy := (if negb (some ha) then count main * 56 else 0)%nat in
  let? metadata_length := align (Z.of_nat (root + copy)) PAGE in
  let metadata_address := Z.max main_end loader_end in
  let? e := add metadata_address metadata_length in
  if USER_END <? e then Err Invalid else
  let launch := {| main := main; loader := loader; main_bias := main_bias; loader_bias := loader_bias; metadata_address := metadata_address;
                   metadata_length := metadata_length; header_count := n; root_headers_offset := root; la_length := 0 |} in
  let? cursor := each_load launch measure metadata_length in
  Ok {| main := main; loader := loader; main_bias := main_bias; loader_bias := loader_bias; metadata_address := metadata_address;
        metadata_length := metadata_length; header_count := n; root_headers_offset := root; la_length := cursor |}.

Record Executable : Type := {
  ex_entry : Z;
  program_headers : Z;
  program_header_size : Z;
  program_header_count : Z;
  interpreter_base : Z;
  load_bias : Z }.

Definition Launch_executable (self : Launch) : result Error Executable :=
  let? e := add64 (main_bias self) (entry (main self)) in
  let? ha := header_address (main self) (main_bias self) in
  let? d := add64 (metadata_address self) (Z.of_nat (root_headers_offset self)) in
  Ok {| ex_entry := e; program_headers := default d ha; program_header_size := 56; program_header_count := Z.of_nat (count (main self));
        interpreter_base := loader_bias self; load_bias := main_bias self |}.

(** The state of the closure in [write]: the buffer, the cursor and the place of the next header. *)
Definition emit_load (st : list Z * Z * nat) (image : Image) (s : Segment) : result Error (list Z * Z * nat) :=
  let '(output, cursor, header) := st in
  let? cursor := next_cursor cursor s in
  let? (a, e) := extent (bytes_of image) (sg_offset s) (file s) in
  let? source := slice (bytes_of image) a e in
  let? output := put output (Z.to_nat cursor) source in
  let? output := Segment_write {| kind := kind s; flags := flags s; sg_offset := cursor; address := address s; file := file s; memory := memory s; alignment := PAGE |} output header in
  let? cursor := add cursor (file s) in
  Ok (output, cursor, (header + 56)%nat).

(** The headers before the segments. *)
Definition write_head (self : Launch) (output : list Z) : result Error (list Z) :=
  let? h := slice (bytes_of (main self)) 0 64 in
  let? output := copy_into output 0 64 h in
  let? output := copy_into output 16 18 (to_le 2 2) in
  let? e := add64 (loader_bias self) (entry (loader self)) in
  let? output := copy_into output 24 32 (to_le 8 e) in
  let? output := copy_into output 32 40 (to_le 8 64) in
  let? output := fill output 40 48 0 in
  let? output := copy_into output 56 58 (to_le 2 (header_count self)) in
  let? output := fill output 58 64 0 in
  let? output := Segment_write {| kind := LOAD; flags := 4; sg_offset := 0; address := metadata_address self; file := metadata_length self; memory := metadata_length self; alignment := PAGE |} output 64 in
  let? a := add64 (metadata_address self) 64 in
  let? output := Segment_write {| kind := PHDR; flags := 4; sg_offset := 64; address := a; file := header_count self * 56; memory := header_count self * 56; alignment := 8 |} output 120 in
  Segment_write {| kind := STACK; flags := 6; sg_offset := 0; address := 0; file := 0; memory := 0; alignment := 16 |} output 176.

Definition Launch_write (self : Launch) (output : list Z) : result Error (list Z * Z) :=
  if len output <? la_length self then Err ShortOutput else
  let? output := fill output 0 (Z.to_nat (la_length self)) 0 in
  let? output := write_head self output in
  let? ha := header_address (main self) (main_bias self) in
  let? output := (if negb (some ha) then
      let length := (count (main self) * 56)%nat in
      let? source := slice (bytes_of (main self)) (phoff (main self)) (phoff (main self) + length) in
      copy_into output (root_headers_offset self) (root_headers_offset self + length) source
    else Ok output) in
  let? (st, _) := each_load self emit_load (output, metadata_length self, 232%nat) in
  Ok (fst st, la_length self).
