(* ===== verification/LaunchLayout.v ===== *)
(** * What a launch container holds

    Where the segments lie in a container, the facts that [Launch::new] establishes, and the container that [write] produces. *)

From S2P Require Import Prelude Text Fields LaunchImage LaunchParse LaunchContainer.

(** ** Filling a buffer of zeros from the front *)

Lemma zeros_length n : List.length (zeros n) = n.
Proof. apply length_replicate. Qed.

Lemma put_zeros (A C src : list Z) n : (List.length src <= n)%nat ->
  put (A ++ zeros n ++ C) (List.length A) src = Ok (A ++ src ++ zeros (n - List.length src) ++ C).
Proof.
  intros Hn. unfold put. rewrite copy_into_in by (rewrite ?length_app; unfold zeros; rewrite ?length_replicate; lia). f_equal.
  rewrite take_app_length. f_equal. f_equal. rewrite <- drop_drop, drop_app_length, drop_app_le by (unfold zeros; rewrite length_replicate; lia). f_equal. unfold zeros. apply drop_replicate.
Qed.

Definition seg_bytes (s : Segment) : list Z :=
  to_le 4 (kind s) ++ to_le 4 (flags s) ++ to_le 8 (sg_offset s) ++ to_le 8 (address s) ++ to_le 8 0 ++ to_le 8 (file s) ++ to_le 8 (memory s) ++ to_le 8 (alignment s).

Lemma seg_bytes_length s : List.length (seg_bytes s) = 56%nat.
Proof. unfold seg_bytes. by rewrite !length_app, !to_le_length. Qed.

Lemma put_words_zeros vs : forall (A C : list Z) n, (8 * List.length vs <= n)%nat ->
  put_words (A ++ zeros n ++ C) (List.length A) vs = Ok (A ++ concat (to_le 8 <$> vs) ++ zeros (n - 8 * List.length vs) ++ C).
Proof.
  induction vs as [|v vs IH]; intros A C n Hn; cbn [put_words concat fmap list_fmap List.length] in *; [by rewrite Nat.sub_0_r |].
  rewrite put_zeros by (rewrite to_le_length; lia). rewrite to_le_length, (app_assoc A). specialize (IH (A ++ to_le 8 v) C (n - 8)%nat). rewrite length_app, to_le_length in IH. rewrite IH by lia.
  replace (n - 8 - 8 * List.length vs)%nat with (n - 8 * Datatypes.S (List.length vs))%nat by lia. by rewrite <- !app_assoc.
Qed.

Lemma Segment_write_zeros (A C : list Z) n s : (56 <= n)%nat -> Segment_write s (A ++ zeros n ++ C) (List.length A) = Ok (A ++ seg_bytes s ++ zeros (n - 56) ++ C).
Proof.
  intros Hn. unfold Segment_write. rewrite put_zeros by (rewrite to_le_length; lia). rewrite to_le_length, (app_assoc A).
  pose proof (put_zeros (A ++ to_le 4 (kind s)) C (to_le 4 (flags s)) (n - 4)) as H2. rewrite length_app, !to_le_length in H2. rewrite H2 by lia. rewrite (app_assoc (A ++ to_le 4 (kind s))).
  pose proof (put_words_zeros [sg_offset s; address s; 0; file s; memory s; alignment s] ((A ++ to_le 4 (kind s)) ++ to_le 4 (flags s)) C (n - 4 - 4)) as H3.
  rewrite !length_app, !to_le_length, <- Nat.add_assoc in H3. change (4 + 4)%nat with 8%nat in H3. rewrite H3 by (cbn; lia). cbn [concat fmap list_fmap List.length]. unfold seg_bytes.
  replace (n - 4 - 4 - 8 * 6)%nat with (n - 56)%nat by lia. by rewrite app_nil_r, <- !app_assoc.
Qed.

(** A header that is read back. *)
Lemma take_drop_middle_le n v (A C : list Z) at_ : at_ = List.length A -> 0 <= v < 256 ^ Z.of_nat n -> take_le n (A ++ to_le n v ++ C) at_ = v.
Proof. intros -> Hv. unfold take_le. rewrite drop_app_length, take_app_le by (by rewrite to_le_length). rewrite take_ge by (by rewrite to_le_length). by apply from_to_le. Qed.

Lemma seg_of_bytes s : seg_ok s -> seg_of (seg_bytes s) = s.
Proof.
  intros (H1 & H2 & H3 & H4 & H5 & H6 & H7). unfold seg_of, seg_bytes. destruct s as [k f o a fi m al]. cbn [kind flags sg_offset address file memory alignment] in *. f_equal.
  - by apply (take_drop_middle_le 4 k []).
  - by apply (take_drop_middle_le 4 f (to_le 4 k)).
  - rewrite app_assoc. by apply (take_drop_middle_le 8 o (to_le 4 k ++ to_le 4 f)).
  - rewrite 2 app_assoc. by apply (take_drop_middle_le 8 a _).
  - rewrite 4 app_assoc. by apply (take_drop_middle_le 8 fi _).
  - rewrite 5 app_assoc. by apply (take_drop_middle_le 8 m _).
  - rewrite <- (app_nil_r (to_le 8 al)), 6 app_assoc. by apply (take_drop_middle_le 8 al _).
Qed.

(** ** The segments, one after another *)

Fixpoint foldE {S A} (f : S -> A -> result Error S) (l : list A) (st : S) : result Error S :=
  match l with [] => Ok st | a :: l => let? st := f st a in foldE f l st end.

Lemma foldE_app {S A} (f : S -> A -> result Error S) l1 l2 st : foldE f (l1 ++ l2) st = let? st := foldE f l1 st in foldE f l2 st.
Proof. revert st. induction l1 as [|a l1 IH]; intros st; cbn; [done |]. destruct (f st a); [apply IH | done | done]. Qed.

(** A segment moved by the bias. *)
Definition shift (bias : Z) (s : Segment) : Segment :=
  {| kind := kind s; flags := flags s; sg_offset := sg_offset s; address := address s + bias; file := file s; memory := memory s; alignment := alignment s |}.
Definition placed (im : Image) (bias : Z) : list (Image * Segment) := (fun s => (im, shift bias s)) <$> lds im (count im).

Lemma each_segment_fold {S} im bias (emit : S -> Image -> Segment -> result Error S) : table_ok im -> (forall k, (k < count im)%nat -> loaded (seg im k) = true -> address (seg im k) + bias <= U64_MAX) ->
  forall n i st, (i + n = count im)%nat -> each_segment im bias emit n i st = foldE (fun st x => emit st (fst x) (snd x)) ((fun s => (im, shift bias s)) <$> List.filter loaded (seg im <$> seq i n)) st.
Proof.
  intros Ht Ha. induction n as [|n IH]; intros i st Hi; cbn [each_segment]; [done |]. rewrite segment_Ok by (done || lia). fold (loaded (seg im i)). cbn [seq fmap list_fmap List.filter].
  replace (i + 1)%nat with (Datatypes.S i) by lia. destruct (loaded (seg im i)) eqn:L; [| by rewrite IH by lia]. rewrite (proj2 (add_Ok _ _ _)) by (split; [reflexivity |]; apply Ha; [lia | done]).
  cbn [fmap list_fmap foldE fst snd]. fold (shift bias (seg im i)). destruct (emit st im _); [apply IH; lia | done | done].
Qed.

Lemma each_segment_placed {S} im bias (emit : S -> Image -> Segment -> result Error S) st : table_ok im -> (forall s, In s (lds im (count im)) -> address s + bias <= U64_MAX) ->
  each_segment im bias emit (count im) 0 st = foldE (fun st x => emit st (fst x) (snd x)) (placed im bias) st.
Proof. intros Ht Ha. apply each_segment_fold; [done | | done]. intros k Hk Hl. apply Ha, lds_elem. by exists k. Qed.

(** Where a segment begins in the file when the file ends at [c] so far. *)
Definition start_of (c : Z) (s : Segment) : Z := up c + address s mod 4096.

Fixpoint fits (c : Z) (l : list (Image * Segment)) : Prop :=
  match l with
  | [] => True
  | (_, s) :: l => c + 4095 <= U64_MAX /\ start_of c s + file s <= U64_MAX /\ fits (start_of c s + file s) l
  end.
Fixpoint end_of (c : Z) (l : list (Image * Segment)) : Z := match l with [] => c | (_, s) :: l => end_of (start_of c s + file s) l end.

Lemma land_page a : Z.land a (PAGE - 1) = a mod 4096.
Proof. change (PAGE - 1) with (Z.ones 12). by rewrite Z.land_ones. Qed.

Lemma next_cursor_Ok c s r : 0 <= file s -> 0 <= c -> next_cursor c s = Ok r -> c + 4095 <= U64_MAX /\ r = start_of c s /\ start_of c s <= U64_MAX.
Proof.
  intros Hf Hc. unfold next_cursor. destruct (Z.le_gt_cases (c + 4095) U64_MAX) as [H|H].
  - rewrite align_page by done. rewrite land_page. by intros [-> ?]%add_Ok.
  - unfold align. destruct (add c (PAGE - 1)) as [x|e|] eqn:E; [apply add_Ok in E as [_ E]; unfold PAGE in E; lia | done | done].
Qed.

Lemma next_cursor_fits c s : c + 4095 <= U64_MAX -> start_of c s <= U64_MAX -> next_cursor c s = Ok (start_of c s).
Proof. intros H1 H2. unfold next_cursor. rewrite align_page, land_page by done. by apply add_Ok. Qed.

Lemma start_of_ge c s : c <= start_of c s.
Proof. unfold start_of. pose proof (up_ge c). pose proof (Z.mod_pos_bound (address s) 4096). lia. Qed.

Lemma measure_fits l : forall c r, 0 <= c -> Forall (fun x => 0 <= file (snd x)) l -> foldE (fun st x => measure st (fst x) (snd x)) l c = Ok r -> fits c l /\ r = end_of c l.
Proof.
  induction l as [|[im s] l IH]; intros c r Hc Hl; cbn [foldE fits end_of fst snd]; [intros [= <-]; done |]. apply Forall_cons in Hl as [Hs Hl]. cbn [snd] in Hs. unfold measure at 1.
  destruct (next_cursor c s) as [a|e|] eqn:N; [| done | done]. apply next_cursor_Ok in N as (H1 & -> & H2); [| done | done].
  destruct (add (start_of c s) (file s)) as [c'|e|] eqn:A; [| done | done]. apply add_Ok in A as [-> H3]. intros Hr. apply IH in Hr as [Hf ->]; [done | pose proof (start_of_ge c s); lia | done].
Qed.

Lemma end_of_ge l : forall c, Forall (fun x => 0 <= file (snd x)) l -> c <= end_of c l.
Proof. induction l as [|[im s] l IH]; intros c Hl; cbn [end_of]; [done |]. apply Forall_cons in Hl as [Hs Hl]. cbn in Hs. specialize (IH (start_of c s + file s) Hl). pose proof (start_of_ge c s). lia. Qed.

(** What a segment carries from its file. *)
Definition content (im : Image) (s : Segment) : list Z := take (Z.to_nat (file s)) (drop (Z.to_nat (sg_offset s)) (bytes_of im)).
Definition item_ok (x : Image * Segment) : Prop :=
  0 <= sg_offset (snd x) /\ 0 <= file (snd x) /\ sg_offset (snd x) + file (snd x) <= len (bytes_of (fst x)) /\ len (bytes_of (fst x)) <= ISIZE_MAX.

Definition settle (c : Z) (s : Segment) : Segment :=
  {| kind := kind s; flags := flags s; sg_offset := start_of c s; address := address s; file := file s; memory := memory s; alignment := PAGE |}.
Fixpoint file_segs (c : Z) (l : list (Image * Segment)) : list Segment :=
  match l with [] => [] | (_, s) :: l => settle c s :: file_segs (start_of c s + file s) l end.
Fixpoint file_data (c : Z) (l : list (Image * Segment)) : list Z :=
  match l with [] => [] | (im, s) :: l => zeros (Z.to_nat (start_of c s - c)) ++ content im s ++ file_data (start_of c s + file s) l end.

Lemma content_length im s : item_ok (im, s) -> List.length (content im s) = Z.to_nat (file s).
Proof. intros (H1 & H2 & H3 & _). cbn in *. unfold content, len in *. rewrite length_take, length_drop. lia. Qed.

Lemma items_file l : Forall item_ok l -> Forall (fun x => 0 <= file (snd x)) l.
Proof. intros H. eapply Forall_impl; [exact H |]. by intros x (_ & ? & _). Qed.

Lemma file_data_length l : forall c, Forall item_ok l -> Z.of_nat (List.length (file_data c l)) = end_of c l - c.
Proof.
  induction l as [|[im s] l IH]; intros c Hl; cbn [file_data end_of]; [cbn; lia |]. apply Forall_cons in Hl as [Hs Hl]. rewrite !length_app, (content_length im s Hs), !Nat2Z.inj_add, IH by done.
  unfold zeros. rewrite length_replicate. pose proof (start_of_ge c s). destruct Hs as (_ & Hf & _). cbn in Hf. lia.
Qed.

Lemma put_data (X C src : list Z) n k : (k + List.length src <= n)%nat ->
  put (X ++ zeros n ++ C) (List.length X + k) src = Ok (X ++ zeros k ++ src ++ zeros (n - k - List.length src) ++ C).
Proof.
  intros Hn. replace (zeros n) with (zeros k ++ zeros (n - k)) by (unfold zeros; rewrite <- replicate_add; f_equal; lia). rewrite <- app_assoc, (app_assoc X).
  pose proof (put_zeros (X ++ zeros k) C src (n - k)) as Hp. rewrite length_app, zeros_length in Hp. rewrite Hp by lia. by rewrite <- !app_assoc.
Qed.

(** One segment is written: its header after the headers [H], its bytes after the data [D]. *)
Lemma emit_load_step im s (H M D R : list Z) h d c : item_ok (im, s) -> 0 <= c -> c + 4095 <= U64_MAX -> start_of c s + file s <= U64_MAX -> (56 <= h)%nat ->
  (Z.to_nat (start_of c s + file s - c) <= d)%nat -> List.length (H ++ zeros h ++ M ++ D) = Z.to_nat c ->
  emit_load (H ++ zeros h ++ M ++ D ++ zeros d ++ R, c, List.length H) im s =
  Ok (H ++ seg_bytes (settle c s) ++ zeros (h - 56) ++ M ++ D ++ zeros (Z.to_nat (start_of c s - c)) ++ content im s ++ zeros (d - Z.to_nat (start_of c s + file s - c)) ++ R,
      start_of c s + file s, (List.length H + 56)%nat).
Proof.
  intros Hit Hc Hc1 Hc2 Hh Hd Hl. pose proof (start_of_ge c s) as Hge. pose proof Hit as (H1 & H2 & H3 & H4). cbn [fst snd] in *. unfold emit_load.
  rewrite next_cursor_fits by lia. rewrite (proj2 (extent_Ok (bytes_of im) (sg_offset s) (file s) (Z.to_nat (sg_offset s), Z.to_nat (sg_offset s + file s)) H1 H2)) by (split; [done |]; split; [widths; lia | reflexivity]).
  rewrite slice_in by (unfold len in *; lia). replace (Z.to_nat (sg_offset s + file s) - Z.to_nat (sg_offset s))%nat with (Z.to_nat (file s)) by lia. fold (content im s).
  pose proof (put_data (H ++ zeros h ++ M ++ D) R (content im s) d (Z.to_nat (start_of c s - c))) as Hp. rewrite Hl, (content_length im s Hit) in Hp.
  replace (Z.to_nat c + Z.to_nat (start_of c s - c))%nat with (Z.to_nat (start_of c s)) in Hp by lia. rewrite <- !app_assoc in Hp. rewrite Hp by lia. clear Hp.
  replace (d - Z.to_nat (start_of c s - c) - Z.to_nat (file s))%nat with (d - Z.to_nat (start_of c s + file s - c))%nat by lia. fold (settle c s). rewrite Segment_write_zeros by done.
  by rewrite (proj2 (add_Ok _ _ _)) by (split; [reflexivity | done]).
Qed.

Lemma emit_loads l : forall (H M D R : list Z) h d c, Forall item_ok l -> 0 <= c -> fits c l -> (56 * List.length l <= h)%nat -> (List.length (file_data c l) <= d)%nat ->
  List.length (H ++ zeros h ++ M ++ D) = Z.to_nat c ->
  foldE (fun st x => emit_load st (fst x) (snd x)) l (H ++ zeros h ++ M ++ D ++ zeros d ++ R, c, List.length H) =
  Ok (H ++ concat (seg_bytes <$> file_segs c l) ++ zeros (h - 56 * List.length l) ++ M ++ D ++ file_data c l ++ zeros (d - List.length (file_data c l)) ++ R,
      end_of c l, (List.length H + 56 * List.length l)%nat).
Proof.
  induction l as [|[im s] l IH]; intros H M D R h d c Hl Hc Hfit Hh Hd Hlen.
  { cbn. by rewrite !Nat.sub_0_r, Nat.add_0_r. }
  apply Forall_cons in Hl as [Hs Hl]. destruct Hfit as (F1 & F2 & F3). pose proof (start_of_ge c s) as Hge. cbn [foldE fst snd]. pose proof (file_data_length l (start_of c s + file s) Hl) as Hdl.
  pose proof (end_of_ge l (start_of c s + file s) (items_file l Hl)) as Hel. pose proof (content_length im s Hs) as Hcl. pose proof Hs as (_ & Hf & _). cbn [snd] in Hf.
  assert (List.length (file_data c ((im, s) :: l)) = (Z.to_nat (start_of c s + file s - c) + List.length (file_data (start_of c s + file s) l))%nat) as Edl.
  { cbn [file_data]. rewrite !length_app, Hcl. unfold zeros. rewrite length_replicate. lia. }
  rewrite Edl in *. cbn [List.length] in *. rewrite emit_load_step by (done || lia).
  specialize (IH (H ++ seg_bytes (settle c s)) M (D ++ zeros (Z.to_nat (start_of c s - c)) ++ content im s) R (h - 56)%nat (d - Z.to_nat (start_of c s + file s - c))%nat (start_of c s + file s) Hl).
  rewrite <- !app_assoc in IH. rewrite !length_app, seg_bytes_length in IH. rewrite IH; [| lia | done | lia | lia |].
  2: { rewrite !length_app, !zeros_length in Hlen. rewrite ?length_app, ?Hcl, ?zeros_length. lia. }
  cbn [file_segs file_data end_of concat fmap list_fmap]. rewrite <- !app_assoc.
  replace (h - 56 - 56 * List.length l)%nat with (h - 56 * Datatypes.S (List.length l))%nat by lia.
  replace (d - Z.to_nat (start_of c s + file s - c) - List.length (file_data (start_of c s + file s) l))%nat
    with (d - (Z.to_nat (start_of c s + file s - c) + List.length (file_data (start_of c s + file s) l)))%nat by lia.
  by replace (List.length H + 56 + 56 * List.length l)%nat with (List.length H + 56 * Datatypes.S (List.length l))%nat by lia.
Qed.

(** ** The headers *)

Definition HEAD_FIELDS : list nat := [16; 2; 6; 8; 8; 8; 8; 2; 6]%nat.
(** The ELF header: the program's, with another type, entry and table. *)
Definition head64 (la : Launch) : list Z :=
  let b := bytes_of (main la) in
  concat [take 16 b; to_le 2 2; take 6 (drop 18 b); to_le 8 (loader_bias la + entry (loader la)); to_le 8 64; zeros 8; take 8 (drop 48 b); to_le 2 (header_count la); zeros 6].

Definition meta_seg (la : Launch) : Segment :=
  {| kind := LOAD; flags := 4; sg_offset := 0; address := metadata_address la; file := metadata_length la; memory := metadata_length la; alignment := PAGE |}.
Definition phdr_seg (la : Launch) : Segment :=
  {| kind := PHDR; flags := 4; sg_offset := 64; address := metadata_address la + 64; file := header_count la * 56; memory := header_count la * 56; alignment := 8 |}.
Definition stack_seg : Segment := {| kind := STACK; flags := 6; sg_offset := 0; address := 0; file := 0; memory := 0; alignment := 16 |}.

Lemma head64_length la : (64 <= List.length (bytes_of (main la)))%nat -> List.length (head64 la) = 64%nat.
Proof. intros Hl. unfold head64. cbn [concat]. rewrite !length_app, !to_le_length, !zeros_length, !length_take, !length_drop. cbn [List.length]. lia. Qed.

Lemma patch_head (k : list Z -> result Error (list Z)) (p0 p1 p2 p3 p4 p5 p6 p7 p8 T e n : list Z) : layout HEAD_FIELDS [p0; p1; p2; p3; p4; p5; p6; p7; p8] -> List.length e = 8%nat -> List.length n = 2%nat ->
  (let? o := copy_into (concat [p0; p1; p2; p3; p4; p5; p6; p7; p8; T]) 16 18 (to_le 2 2) in
   let? o := copy_into o 24 32 e in
   let? o := copy_into o 32 40 (to_le 8 64) in
   let? o := fill o 40 48 0 in
   let? o := copy_into o 56 58 n in
   let? o := fill o 58 64 0 in
   k o) = k (concat [p0; to_le 2 2; p2; e; to_le 8 64; zeros 8; p6; n; zeros 6; T]).
Proof.
  intros Hl He Hn. set (ns := HEAD_FIELDS ++ [List.length T]). unfold layout in Hl. cbn in Hl. injection Hl as L0 L1 L2 L3 L4 L5 L6 L7 L8.
  assert (forall a b c d f g h, List.length a = 2%nat -> List.length b = 8%nat -> List.length c = 8%nat -> List.length d = 8%nat -> List.length f = 2%nat -> List.length g = 6%nat -> h = T ->
    layout ns [p0; a; p2; b; c; d; p6; f; g; h]) as Hlay by (intros a b c d f g h Ha Hb Hc Hd Hf Hg ->; unfold layout, ns, HEAD_FIELDS; cbn; by rewrite L0, L2, L6, Ha, Hb, Hc, Hd, Hf, Hg).
  unfold fill. change (replicate (48 - 40) 0) with (zeros 8). change (replicate (64 - 58) 0) with (zeros 6).
  rewrite (copy_field_into ns _ (Hlay p1 p3 p4 p5 p7 p8 T L1 L3 L4 L5 L7 L8 eq_refl) 1 p1) by done. cbn [list_insert insert].
  rewrite (copy_field_into ns _ (Hlay (to_le 2 2) p3 p4 p5 p7 p8 T eq_refl L3 L4 L5 L7 L8 eq_refl) 3 p3) by (done || (rewrite ?He; done)).
  rewrite (copy_field_into ns _ (Hlay (to_le 2 2) e p4 p5 p7 p8 T eq_refl He L4 L5 L7 L8 eq_refl) 4 p4) by (done || (cbn; lia)).
  rewrite (copy_field_into ns _ (Hlay (to_le 2 2) e (to_le 8 64) p5 p7 p8 T eq_refl He eq_refl L5 L7 L8 eq_refl) 5 p5) by (done || (cbn; lia)).
  rewrite (copy_field_into ns _ (Hlay (to_le 2 2) e (to_le 8 64) (zeros 8) p7 p8 T eq_refl He eq_refl eq_refl L7 L8 eq_refl) 7 p7) by (done || (rewrite ?Hn; done)).
  by rewrite (copy_field_into ns _ (Hlay (to_le 2 2) e (to_le 8 64) (zeros 8) n p8 T eq_refl He eq_refl eq_refl Hn L8 eq_refl) 8 p8) by (done || (cbn; lia)).
Qed.

Lemma write_head_Ok la (R : list Z) L : (64 <= List.length (bytes_of (main la)))%nat -> loader_bias la + entry (loader la) <= U64_MAX -> metadata_address la + 64 <= U64_MAX -> (232 <= L)%nat ->
  write_head la (zeros L ++ R) = Ok (head64 la ++ seg_bytes (meta_seg la) ++ seg_bytes (phdr_seg la) ++ seg_bytes stack_seg ++ zeros (L - 232) ++ R).
Proof.
  intros H64 He Ha HL. unfold write_head. rewrite slice_in by lia. change (64 - 0)%nat with 64%nat. rewrite drop_0.
  set (b := bytes_of (main la)) in *. pose proof (put_zeros [] R (take 64 b) L) as Hp. unfold put in Hp. rewrite length_take, Nat.min_l in Hp by lia. cbn [app List.length Nat.add] in Hp. rewrite Hp by lia. clear Hp.
  unfold add64. rewrite (proj2 (Z.leb_le _ _) He), (proj2 (Z.leb_le _ _) Ha). cbv beta iota.
  assert (take 64 b ++ zeros (L - 64) ++ R = concat [take 16 b; take 2 (drop 16 b); take 6 (drop 18 b); take 8 (drop 24 b); take 8 (drop 32 b); take 8 (drop 40 b); take 8 (drop 48 b); take 2 (drop 56 b); take 6 (drop 58 b); zeros (L - 64) ++ R]) as ->.
  { cbn [concat]. rewrite app_nil_r, !app_assoc. f_equal. f_equal. rewrite !take_take_drop. done. }
  rewrite patch_head; [| | apply to_le_length | apply to_le_length]; [| unfold layout, HEAD_FIELDS; cbn [fmap list_fmap]; rewrite !length_take, !length_drop; repeat f_equal; lia].
  assert (forall T, concat [take 16 b; to_le 2 2; take 6 (drop 18 b); to_le 8 (loader_bias la + entry (loader la)); to_le 8 64; zeros 8; take 8 (drop 48 b); to_le 2 (header_count la); zeros 6; T] = head64 la ++ T) as Eh.
  { intros T. unfold head64. cbn [concat]. fold b. rewrite !app_nil_r, <- !app_assoc. done. }
  rewrite Eh. clear Eh. pose proof (head64_length la H64) as Hl. pose proof (Segment_write_zeros (head64 la) R (L - 64) (meta_seg la)) as H1. rewrite Hl in H1. fold (meta_seg la). rewrite H1 by lia. clear H1.
  pose proof (Segment_write_zeros (head64 la ++ seg_bytes (meta_seg la)) R (L - 64 - 56) (phdr_seg la)) as H2. rewrite length_app, Hl, seg_bytes_length, <- app_assoc in H2. change (64 + 56)%nat with 120%nat in H2.
  fold (phdr_seg la). rewrite H2 by lia. clear H2.
  pose proof (Segment_write_zeros ((head64 la ++ seg_bytes (meta_seg la)) ++ seg_bytes (phdr_seg la)) R (L - 64 - 56 - 56) stack_seg) as H3. rewrite !length_app, Hl, !seg_bytes_length, <- !app_assoc in H3. change (64 + 56 + 56)%nat with 176%nat in H3.
  rewrite <- ?app_assoc. fold stack_seg. rewrite H3 by lia. by replace (L - 64 - 56 - 56 - 56)%nat with (L - 232)%nat by lia.
Qed.

(** ** What [write] writes *)

(** ** Making a launch *)

(** An image that [Image::parse] returned. *)
Definition parsed (im : Image) : Prop := Forall is_u8 (bytes_of im) /\ len (bytes_of im) <= ISIZE_MAX /\ Image_parse (bytes_of im) = Ok im.

Lemma parsed_facts im : parsed im -> image_ok im /\ header_fine (bytes_of im) /\ exists s, In s (lds im (count im)) /\ covers_entry im s = true.
Proof.
  intros (H8 & Hl & Hp). pose proof (parse_impl_spec (bytes_of im) true H8 Hl) as Hs. fold (Image_parse (bytes_of im)) in Hs. rewrite Hp in Hs. destruct Hs as [Hacc E].
  split_and!; [rewrite E; by apply (accepted_image_ok _ true) | apply Hacc |]. rewrite E. by apply accepted_entry.
Qed.

Lemma lds_facts im s : image_ok im -> In s (lds im (count im)) -> seg_ok s /\ load_ok (bytes_of im) s /\ loaded s = true /\ minimum im <= low s /\ low s < high s /\ high s <= maximum im /\ 0 < memory s.
Proof.
  intros Him Hin. destruct (io_in _ Him s Hin) as [H1 H2]. apply lds_elem in Hin as (k & Hk & -> & Hl). pose proof (seg_wf im k (io_table _ Him)) as Hs.
  pose proof (io_load _ Him k Hk Hl) as Hload. assert (0 < memory (seg im k)) as Hm by (unfold loaded in Hl; destruct Hs as (_ & _ & _ & _ & _ & Hm & _); bool_cases; widths; lia).
  pose proof (load_range _ _ Hs Hload) as (R1 & R2 & R3 & R4). split_and!; try done. by apply R4.
Qed.

Lemma place_spec im d : image_ok im -> 0 <= d -> match place im d with
  | Ok (bias, e) => 0 <= bias /\ bias mod 4096 = 0 /\ e = bias + maximum im /\ e <= USER_END /\ USER_MIN <= bias + minimum im
  | Err _ => True
  | Panic => False
  end.
Proof.
  intros Him Hd. unfold place. destruct (io_align _ Him) as (k & Hk & Ek). pose proof (image_range im Him) as (R1 & R2 & R3).
  assert (match (if fixed im then Ok 0 else align d (im_alignment im)) with Ok bias => 0 <= bias /\ bias mod 4096 = 0 | Err _ => True | Panic => False end) as Hb.
  { destruct (fixed im); [done |]. rewrite Ek. destruct (align d (2 ^ k)) as [bias|e|] eqn:A; [| done | by apply align_no_panic in A]. unfold align in A. destruct (add d (2 ^ k - 1)) as [x|e|] eqn:X; [| done | done].
    apply add_Ok in X as [-> _]. rewrite land_lnot_ones in A by lia. injection A as <-. assert (0 < 2 ^ k) by (apply Z.pow_pos_nonneg; lia). split.
    - apply Z.mul_nonneg_nonneg; [| lia]. apply Z.div_pos; lia.
    - apply (mod_pow2_page _ k Hk). by rewrite Z_mod_mult. }
  destruct (if fixed im then Ok 0 else _) as [bias|e|]; [| done | done]. destruct Hb as [Hb0 Hb1]. unfold add. destruct (Z.leb_spec (bias + maximum im) U64_MAX); [| done].
  destruct (Z.leb_spec (bias + minimum im) U64_MAX); [| done]. destruct (_ || _) eqn:G; [done |]. bool_cases. done.
Qed.

(** Segments of one image that has a place. *)
Definition place_ok (im : Image) (bias : Z) : Prop := image_ok im /\ 0 <= bias /\ bias mod 4096 = 0 /\ bias + maximum im <= USER_END /\ USER_MIN <= bias + minimum im.

Lemma shift_facts im bias s : place_ok im bias -> In s (lds im (count im)) ->
  low (shift bias s) = bias + low s /\ high (shift bias s) = bias + high s /\ seg_end (shift bias s) = bias + seg_end s /\ seg_end (shift bias s) <= USER_END /\ 0 <= address s.
Proof.
  intros (Him & H0 & H1 & H2 & H3) Hin. destruct (lds_facts im s Him Hin) as ((_ & _ & _ & Ha & _ & Hm & _) & _ & _ & L1 & L2 & L3 & _). pose proof (up_ge (seg_end s)) as Hu. fold (high s) in Hu.
  assert (low (shift bias s) = bias + low s) as -> by (unfold low, down, shift; cbn [address]; divlia).
  assert (high (shift bias s) = bias + high s) as -> by (unfold high, up, seg_end, shift; cbn [address memory]; divlia).
  assert (seg_end (shift bias s) = bias + seg_end s) as -> by (unfold seg_end, shift; cbn [address memory]; lia). widths. split_and!; try done; lia.
Qed.

Lemma shift_address im bias s : place_ok im bias -> In s (lds im (count im)) -> 0 <= address s + bias < USER_END /\ 0 <= bias + address s < USER_END.
Proof.
  intros Hp Hin. destruct (shift_facts im bias s Hp Hin) as (_ & _ & E & He & Ha). destruct (lds_facts im s (proj1 Hp) Hin) as (_ & _ & _ & _ & _ & _ & Hm). destruct Hp as (_ & H0 & _). rewrite E in He. unfold seg_end in He. lia.
Qed.

(** ** The comparison of the two images *)

Lemma clash_inner_spec mb lb a main_im loader_im : place_ok main_im mb -> place_ok loader_im lb -> In a (lds main_im (count main_im)) -> forall n j, (j + n = count loader_im)%nat ->
  match clash_inner mb lb a loader_im n j with
  | Ok _ => forall k, (j <= k < count loader_im)%nat -> loaded (seg loader_im k) = true -> apart (shift mb a) (shift lb (seg loader_im k))
  | Err _ => True
  | Panic => False
  end.
Proof.
  intros Hm Hl Ha. pose proof (shift_facts _ _ _ Hm Ha) as (A1 & A2 & A3 & A4 & A5). pose proof (shift_address _ _ _ Hm Ha) as (_ & A6).
  induction n as [|n IH]; intros j Hj; cbn [clash_inner]; [intros k Hk; lia |]. rewrite segment_Ok by (apply Hl || lia). fold (loaded (seg loader_im j)). specialize (IH (j + 1)%nat ltac:(lia)).
  destruct (loaded (seg loader_im j)) eqn:L.
  - assert (In (seg loader_im j) (lds loader_im (count loader_im))) as Hb by (apply lds_elem; exists j; split; [lia | done]).
    pose proof (shift_facts _ _ _ Hl Hb) as (B1 & B2 & B3 & B4 & B5). pose proof (shift_address _ _ _ Hl Hb) as (_ & B6). set (b := seg loader_im j) in *. unfold seg_end, USER_END in *. cbn [address memory shift] in *.
    rewrite (proj2 (add_Ok mb _ _)) by (split; [reflexivity | widths; lia]). cbn iota. rewrite (proj2 (add_Ok lb _ _)) by (split; [reflexivity | widths; lia]). cbn iota.
    rewrite (proj2 (add_Ok (lb + address b) _ _)) by (split; [reflexivity | widths; lia]). cbn iota. rewrite align_page by (widths; lia). cbn iota.
    rewrite page_down_eq. assert (down (mb + address a) = low (shift mb a)) as -> by (unfold low, shift; cbn [address]; f_equal; lia).
    assert (up (lb + address b + memory b) = high (shift lb b)) as -> by (unfold high, seg_end, shift; cbn [address memory]; f_equal; lia).
    destruct (Z.ltb_spec (low (shift mb a)) (high (shift lb b))).
    + rewrite (proj2 (add_Ok (mb + address a) _ _)) by (split; [reflexivity | widths; lia]). cbn iota. rewrite align_page by (widths; lia). cbn iota.
      rewrite page_down_eq. assert (down (lb + address b) = low (shift lb b)) as -> by (unfold low, shift; cbn [address]; f_equal; lia).
      assert (up (mb + address a + memory a) = high (shift mb a)) as -> by (unfold high, seg_end, shift; cbn [address memory]; f_equal; lia).
      destruct (Z.ltb_spec (low (shift lb b)) (high (shift mb a))); [done |]. destruct (clash_inner _ _ _ _ n (j + 1)) as [[]|e|]; [| done | done].
      intros k Hk Hlk. destruct (decide (k = j)) as [->|]; [right; done | apply IH; [lia | done]].
    + destruct (clash_inner _ _ _ _ n (j + 1)) as [[]|e|]; [| done | done]. intros k Hk Hlk. destruct (decide (k = j)) as [->|]; [left; done | apply IH; [lia | done]].
  - destruct (clash_inner _ _ _ _ n (j + 1)) as [[]|e|]; [| done | done]. intros k Hk Hlk. destruct (decide (k = j)) as [->|]; [congruence | apply IH; [lia | done]].
Qed.

Lemma clash_outer_spec mb lb main_im loader_im : place_ok main_im mb -> place_ok loader_im lb -> forall n i, (i + n = count main_im)%nat ->
  match clash_outer mb lb main_im loader_im n i with
  | Ok _ => forall k, (i <= k < count main_im)%nat -> loaded (seg main_im k) = true -> forall t, In t (lds loader_im (count loader_im)) -> apart (shift mb (seg main_im k)) (shift lb t)
  | Err _ => True
  | Panic => False
  end.
Proof.
  intros Hm Hl. induction n as [|n IH]; intros i Hi; cbn [clash_outer]; [intros k Hk; lia |]. rewrite segment_Ok by (apply Hm || lia). specialize (IH (i + 1)%nat ltac:(lia)).
  assert (negb (kind (seg main_im i) =? LOAD) || (memory (seg main_im i) =? 0) = negb (loaded (seg main_im i))) as -> by (unfold loaded; by rewrite negb_andb, negb_involutive).
  destruct (loaded (seg main_im i)) eqn:L; cbn [negb].
  - assert (In (seg main_im i) (lds main_im (count main_im))) as Hin by (apply lds_elem; exists i; split; [lia | done]).
    pose proof (clash_inner_spec mb lb _ main_im loader_im Hm Hl Hin (count loader_im) 0%nat eq_refl) as Hc. destruct (clash_inner _ _ _ _ _ 0) as [[]|e|]; [| done | done].
    destruct (clash_outer _ _ _ _ n (i + 1)) as [[]|e|]; [| done | done]. intros k Hk Hlk t Ht. destruct (decide (k = i)) as [->|]; [| apply IH; [lia | done | done]].
    apply lds_elem in Ht as (q & Hq & -> & Hlq). apply Hc; [lia | done].
  - destruct (clash_outer _ _ _ _ n (i + 1)) as [[]|e|]; [| done | done]. intros k Hk Hlk t Ht. destruct (decide (k = i)) as [->|]; [congruence | apply IH; [lia | done | done]].
Qed.

(** ** The facts of a launch *)

Definition items (la : Launch) : list (Image * Segment) := placed (main la) (main_bias la) ++ placed (loader la) (loader_bias la).

Lemma placed_ok im bias : place_ok im bias -> Forall item_ok (placed im bias).
Proof.
  intros Hp. unfold placed. rewrite Forall_fmap. apply Forall_forall. intros s Hs%list_elem_of_In. destruct (lds_facts im s (proj1 Hp) Hs) as ((_ & _ & Ho & _ & Hf & _) & (Hfit & _) & _).
  pose proof (io_table _ (proj1 Hp)) as (_ & _ & Hlen). unfold item_ok. cbn. widths. split_and!; [lia | lia | done | done].
Qed.

Definition copied (la : Launch) : nat := match header_address (main la) (main_bias la) with Ok (Some _) => 0%nat | _ => (count (main la) * 56)%nat end.

Record launch_ok (la : Launch) : Prop := {
  lo_main : place_ok (main la) (main_bias la);
  lo_loader : place_ok (loader la) (loader_bias la);
  lo_apart s t : In s (lds (main la) (count (main la))) -> In t (lds (loader la) (count (loader la))) -> apart (shift (main_bias la) s) (shift (loader_bias la) t);
  lo_count : header_count la = loads (main la) + loads (loader la) + 3 /\ header_count la < U16_MAX;
  lo_root : root_headers_offset la = (64 + Z.to_nat (header_count la) * 56)%nat;
  lo_length : metadata_length la = up (Z.of_nat (root_headers_offset la + copied la));
  lo_address : metadata_address la = Z.max (main_bias la + maximum (main la)) (loader_bias la + maximum (loader la));
  lo_end : metadata_address la + metadata_length la <= USER_END;
  lo_fits : fits (metadata_length la) (items la);
  lo_total : la_length la = end_of (metadata_length la) (items la) }.

Lemma each_load_fold {S} la (emit : S -> Image -> Segment -> result Error S) st : place_ok (main la) (main_bias la) -> place_ok (loader la) (loader_bias la) ->
  each_load la emit st = foldE (fun st x => emit st (fst x) (snd x)) (items la) st.
Proof.
  intros Hm Hl. assert (forall im bias s, place_ok im bias -> In s (lds im (count im)) -> address s + bias <= U64_MAX) as Ha.
  { intros im bias s Hp Hs. pose proof (shift_address im bias s Hp Hs) as [H _]. unfold USER_END in H. widths. lia. }
  unfold each_load, items. rewrite foldE_app, each_segment_placed by (apply Hm || by intros; eapply Ha). destruct (foldE _ (placed (main la) _) st); [| done | done].
  apply each_segment_placed; [apply Hl | by intros; eapply Ha].
Qed.

Lemma measure_no_panic l : forall c, foldE (fun st x => measure st (fst x) (snd x)) l c <> Panic.
Proof.
  induction l as [|[im s] l IH]; intros c; cbn [foldE fst snd]; [done |]. unfold measure, next_cursor at 1. pose proof (align_no_panic c PAGE). destruct (align c PAGE) as [x|x|]; [| done | done].
  pose proof (add_no_panic x (Z.land (address s) (PAGE - 1))). destruct (add x _) as [y|y|]; [| done | done]. pose proof (add_no_panic y (file s)). destruct (add y _); [apply IH | done | done].
Qed.

Lemma align_page_Ok a r : align a PAGE = Ok r -> r = up a.
Proof. unfold align. destruct (add a (PAGE - 1)) as [x|x|] eqn:X; [| done | done]. apply add_Ok in X as [-> _]. intros [= <-]. apply (land_lnot_ones (a + (PAGE - 1)) 12). done. Qed.

Lemma Launch_new_spec main_im loader_im random : parsed main_im -> parsed loader_im -> arr 16 random ->
  match Launch_new main_im loader_im random with
  | Ok la => launch_ok la /\ main la = main_im /\ loader la = loader_im /\ exists path, image_interpreter main_im = Ok (Some path)
  | Err _ => True
  | Panic => False
  end.
Proof.
  intros Hpm Hpl [Hr Hr8]. destruct (parsed_facts _ Hpm) as (Him & _ & _). destruct (parsed_facts _ Hpl) as (Hil & _ & _). unfold Launch_new.
  pose proof (interpreter_no_panic main_im _ (io_table _ Him) 0%nat None (Nat.le_refl _)) as Hm. pose proof (interpreter_no_panic loader_im _ (io_table _ Hil) 0%nat None (Nat.le_refl _)) as Hl.
  fold (image_interpreter main_im) in Hm. fold (image_interpreter loader_im) in Hl. destruct (image_interpreter main_im) as [[path|]|e|]; [| done | done | done]. cbn [some negb].
  destruct (image_interpreter loader_im) as [[path'|]|e|]; [done | | done | done]. cbn [some]. rewrite !slice_in by lia. cbn iota.
  set (d := 536870912 + _). assert (0 <= d) as Hd by (unfold d, PAGE; assert (0 <= Z.land (from_le (take (8 - 0) (drop 0 random))) 16383) by (apply Z.land_nonneg; by right); lia).
  pose proof (place_spec main_im d Him Hd) as P1. destruct (place main_im d) as [[mb me]|e|]; [| done | done]. destruct P1 as (M0 & M1 & -> & M2 & M3).
  set (d2 := Z.max (1073741824 + _) _). pose proof (image_range main_im Him) as (R1 & R2 & _). assert (0 <= d2) as Hd2 by (unfold d2; lia).
  pose proof (place_spec loader_im d2 Hil Hd2) as P2. destruct (place loader_im d2) as [[lb le]|e|]; [| done | done]. destruct P2 as (L0 & L1 & -> & L2 & L3).
  assert (place_ok main_im mb) as HM by (by split_and!). assert (place_ok loader_im lb) as HL by (by split_and!).
  pose proof (clash_outer_spec mb lb main_im loader_im HM HL (count main_im) 0%nat eq_refl) as Hc. destruct (clash_outer _ _ _ _ _ 0) as [[]|e|]; [| done | done].
  set (n := loads main_im + loads loader_im + 3). destruct (Z.ltb_spec n U16_MAX) as [Hn|]; cbn [negb]; [| done].
  destruct (header_loop_no_panic main_im mb (count main_im) (io_table _ Him) 0%nat ltac:(lia)) as [ha Hha]. fold (header_address main_im mb) in Hha. rewrite Hha.
  set (copy := if negb (some ha) then _ else _). destruct (align _ PAGE) as [ml|e|] eqn:A; [| done | by apply align_no_panic in A].
  destruct (add _ ml) as [e|e|] eqn:X; [| done | by apply add_no_panic in X]. apply add_Ok in X as [-> _]. destruct (Z.ltb_spec USER_END (Z.max (mb + maximum main_im) (lb + maximum loader_im) + ml)) as [|He]; [done |].
  set (la0 := {| main := main_im |}). rewrite each_load_fold by done.
  pose proof (measure_no_panic (items la0) ml) as Hnp. destruct (foldE _ (items la0) ml) as [cur|e|] eqn:F; [| done | done]. apply align_page_Ok in A.
  apply measure_fits in F as [Hfits ->]; [| rewrite A; pose proof (up_ge (Z.of_nat (64 + Z.to_nat n * 56 + copy))); lia | apply items_file; apply Forall_app; split; by apply placed_ok].
  split; [| split_and!; [reflexivity | reflexivity | by exists path]]. split; cbn [main loader main_bias loader_bias header_count root_headers_offset metadata_length metadata_address la_length].
  - exact HM.
  - exact HL.
  - intros s t (k & Hk & -> & Hlk)%lds_elem Ht. apply Hc; [lia | done | done].
  - split; [reflexivity | exact Hn].
  - reflexivity.
  - rewrite A. unfold copied. cbn [main main_bias]. rewrite Hha. unfold copy. destruct ha; reflexivity.
  - reflexivity.
  - exact He.
  - exact Hfits.
  - reflexivity.
Qed.

(** ** The container *)

Definition mid (la : Launch) : list Z :=
  match header_address (main la) (main_bias la) with Ok (Some _) => [] | _ => take (count (main la) * 56) (drop (phoff (main la)) (bytes_of (main la))) end
  ++ zeros (Z.to_nat (metadata_length la) - (root_headers_offset la + copied la)).
Definition hs (la : Launch) : list Segment := [meta_seg la; phdr_seg la; stack_seg] ++ file_segs (metadata_length la) (items la).
Definition container (la : Launch) : list Z := head64 la ++ concat (seg_bytes <$> hs la) ++ mid la ++ file_data (metadata_length la) (items la).

Lemma items_length la : launch_ok la -> Z.of_nat (List.length (items la)) = header_count la - 3.
Proof.
  intros Hla. unfold items, placed. rewrite length_app, !length_fmap. destruct (lo_count _ Hla) as [-> _]. destruct (io_loads _ (proj1 (lo_main _ Hla))) as [-> _]. destruct (io_loads _ (proj1 (lo_loader _ Hla))) as [-> _]. lia.
Qed.

Lemma file_segs_length l : forall c, List.length (file_segs c l) = List.length l.
Proof. induction l as [|[im s] l IH]; intros c; cbn; [done |]. by rewrite IH. Qed.

Lemma seg_bytes_concat (l : list Segment) : List.length (concat (seg_bytes <$> l)) = (56 * List.length l)%nat.
Proof. induction l as [|s l IH]; cbn [fmap list_fmap concat List.length]; [done |]. rewrite length_app, seg_bytes_length, IH. lia. Qed.

Lemma items_ok la : launch_ok la -> Forall item_ok (items la).
Proof. intros Hla. apply Forall_app. split; apply placed_ok; apply Hla. Qed.

Lemma copied_length la : launch_ok la -> (root_headers_offset la + copied la <= Z.to_nat (metadata_length la))%nat /\ 0 <= metadata_length la /\ metadata_length la mod 4096 = 0.
Proof. intros Hla. rewrite (lo_length _ Hla). pose proof (up_ge (Z.of_nat (root_headers_offset la + copied la))). split; [lia |]. split; [lia | apply up_page]. Qed.

Lemma mid_length la : launch_ok la -> List.length (mid la) = (Z.to_nat (metadata_length la) - root_headers_offset la)%nat.
Proof.
  intros Hla. destruct (copied_length la Hla) as (Hc & _). unfold mid, copied in *. rewrite length_app, zeros_length. pose proof (io_table _ (proj1 (lo_main _ Hla))) as (Ht & _).
  destruct (header_address _ _) as [[a|]|e|]; rewrite ?length_take, ?length_drop; cbn [List.length]; lia.
Qed.

(** The copy of the program's own headers. *)
Lemma write_mid la (A C : list Z) h d : launch_ok la -> (List.length A + h = root_headers_offset la)%nat -> (Z.to_nat (metadata_length la) - root_headers_offset la = d)%nat ->
  (let? ha := header_address (main la) (main_bias la) in
   if negb (some ha) then
     let? source := slice (bytes_of (main la)) (phoff (main la)) (phoff (main la) + count (main la) * 56) in
     copy_into (A ++ zeros h ++ zeros d ++ C) (root_headers_offset la) (root_headers_offset la + count (main la) * 56) source
   else Ok (A ++ zeros h ++ zeros d ++ C)) = Ok (A ++ zeros h ++ mid la ++ C).
Proof.
  intros Hla Hroot Hd. destruct (copied_length la Hla) as (Hc & _). pose proof (io_table _ (proj1 (lo_main _ Hla))) as Htab. pose proof (proj1 Htab) as Ht.
  destruct (header_loop_no_panic (main la) (main_bias la) (count (main la)) Htab 0%nat ltac:(lia)) as [ha Hha]. fold (header_address (main la) (main_bias la)) in Hha.
  unfold mid, copied in *. rewrite Hha in *. destruct ha as [a|]; cbn [some negb].
  - rewrite Nat.add_0_r. cbn [app]. by rewrite Hd.
  - rewrite slice_in by lia. replace (phoff (main la) + count (main la) * 56 - phoff (main la))%nat with (count (main la) * 56)%nat by lia.
    set (src := take (count (main la) * 56) (drop (phoff (main la)) (bytes_of (main la)))). assert (List.length src = (count (main la) * 56)%nat) as Hsrc by (unfold src; rewrite length_take, length_drop; lia).
    pose proof (put_zeros (A ++ zeros h) C src d) as Hp. rewrite length_app, zeros_length, Hsrc, Hroot, <- !app_assoc in Hp. unfold put in Hp. rewrite Hsrc in Hp. rewrite Hp by lia.
    replace (Z.to_nat (metadata_length la) - (root_headers_offset la + count (main la) * 56))%nat with (d - count (main la) * 56)%nat by lia. by rewrite <- !app_assoc.
Qed.

Lemma container_length la : launch_ok la -> (64 <= List.length (bytes_of (main la)))%nat -> len (container la) = la_length la.
Proof.
  intros Hla H64. destruct (copied_length la Hla) as (Hc & H0 & _). pose proof (items_length la Hla) as Hi. unfold len, container, hs. rewrite !length_app, head64_length, mid_length, seg_bytes_concat by done.
  rewrite length_app, file_segs_length. cbn [List.length]. pose proof (file_data_length (items la) (metadata_length la) (items_ok la Hla)) as Hd. rewrite <- (lo_total _ Hla) in Hd. rewrite (lo_root _ Hla) in *. lia.
Qed.

(** What the caller must know to write: the entry of the loader does not overflow. *)
Lemma Launch_write_Ok la output : launch_ok la -> (64 <= List.length (bytes_of (main la)))%nat -> loader_bias la + entry (loader la) <= U64_MAX -> la_length la <= len output ->
  Launch_write la output = Ok (container la ++ drop (Z.to_nat (la_length la)) output, la_length la).
Proof.
  intros Hla H64 He Hout. destruct (copied_length la Hla) as (Hc & H0 & Hpage). pose proof (items_length la Hla) as Hi. pose proof (file_data_length (items la) (metadata_length la) (items_ok la Hla)) as Hdl.
  rewrite <- (lo_total _ Hla) in Hdl. unfold Launch_write. rewrite (proj2 (Z.ltb_ge _ _)) by done. set (R := drop (Z.to_nat (la_length la)) output).
  assert (fill (E := Error) output 0 (Z.to_nat (la_length la)) 0 = Ok (zeros (Z.to_nat (la_length la)) ++ R)) as ->.
  { unfold fill. rewrite copy_into_in by (rewrite ?length_replicate; unfold len in *; lia). rewrite Nat.sub_0_r. done. }
  pose proof (lo_root _ Hla) as Hroot. pose proof (lo_end _ Hla) as Hend. rewrite write_head_Ok; [| done | done | unfold USER_END in Hend; widths; lia | lia].
  set (A := head64 la ++ seg_bytes (meta_seg la) ++ seg_bytes (phdr_seg la) ++ seg_bytes stack_seg).
  assert (List.length A = 232%nat) as HA by (unfold A; rewrite !length_app, head64_length, !seg_bytes_length by done; done).
  set (h := (56 * List.length (items la))%nat). set (d := (Z.to_nat (metadata_length la) - root_headers_offset la)%nat). set (t := List.length (file_data (metadata_length la) (items la))) in *.
  assert (head64 la ++ seg_bytes (meta_seg la) ++ seg_bytes (phdr_seg la) ++ seg_bytes stack_seg ++ zeros (Z.to_nat (la_length la) - 232) ++ R = A ++ zeros h ++ zeros d ++ zeros t ++ R) as ->.
  { unfold A. rewrite <- !app_assoc. do 4 f_equal. replace (Z.to_nat (la_length la) - 232)%nat with (h + (d + t))%nat by (unfold h, d; lia). unfold zeros. rewrite !replicate_add. by rewrite <- !app_assoc. }
  pose proof (write_mid la A (zeros t ++ R) h d Hla ltac:(rewrite HA; unfold h; lia) eq_refl) as Hmid. destruct (header_address (main la) (main_bias la)) as [ha|e|]; [| done | done]. cbv zeta. rewrite Hmid.
  rewrite each_load_fold by apply Hla. rewrite <- HA. pose proof (emit_loads (items la) A (mid la) [] R h t (metadata_length la) (items_ok la Hla) H0 (lo_fits _ Hla) (Nat.le_refl _) (Nat.le_refl _)) as Hem. cbn [app] in Hem.
  rewrite Hem by (rewrite !length_app, zeros_length, mid_length, HA by done; cbn [List.length]; unfold h; lia). cbn [fst]. do 2 f_equal. unfold container, A, hs. fold t. rewrite !Nat.sub_diag. change (zeros 0) with (@nil Z).
  rewrite fmap_app, concat_app. cbn [app fmap list_fmap concat]. rewrite app_nil_r, <- !app_assoc. done.
Qed.
