(* ===== verification/LaunchAccept.v ===== *)
(** * The parser accepts a launch container

    The container read back: its header, its segments and what they carry; the segments keep clear of each other. *)

From S2P Require Import Prelude Text Fields LaunchImage LaunchParse LaunchContainer LaunchLayout.

(** ** Pairwise disjoint segments *)

Definition pairwise : list Segment -> Prop := StronglySorted apart.

Lemma apart_sym s t : apart s t -> apart t s.
Proof. unfold apart. lia. Qed.

Lemma pairwise_app l1 l2 : pairwise (l1 ++ l2) <-> pairwise l1 /\ pairwise l2 /\ Forall (fun s => Forall (apart s) l2) l1.
Proof.
  unfold pairwise. induction l1 as [|s l1 IH]; cbn; [naive_solver constructor |]. split.
  - intros [H1 H2]%StronglySorted_inv. apply IH in H1 as (H3 & H4 & H5). apply Forall_app in H2 as [H6 H7]. split_and!; [by constructor | done | by constructor].
  - intros ([H1 H2]%StronglySorted_inv & H3 & [H4 H5]%Forall_cons). constructor; [apply IH; done | by apply Forall_app].
Qed.

Lemma pairwise_lookup l i j s t : pairwise l -> (i < j)%nat -> l !! i = Some s -> l !! j = Some t -> apart s t.
Proof.
  unfold pairwise. revert i j. induction l as [|x l IH]; intros i j Hp Hij Hi Hj; [done |]. apply StronglySorted_inv in Hp as [Hp Hx]. destruct j as [|j]; [lia |]. destruct i as [|i]; cbn in *.
  - injection Hi as ->. rewrite Forall_lookup in Hx. by eapply Hx.
  - eapply (IH i j); [done | lia | done | done].
Qed.

Lemma pairwise_fmap (f : Segment -> Segment) l : (forall s t, s ∈ l -> t ∈ l -> apart s t -> apart (f s) (f t)) -> pairwise l -> pairwise (f <$> l).
Proof.
  unfold pairwise. induction l as [|x l IH]; intros Hf Hp; [constructor |]. apply StronglySorted_inv in Hp as [Hp Hx]. cbn. constructor.
  - apply IH; [| done]. intros s t Hs Ht. apply Hf; by right.
  - apply Forall_fmap. rewrite Forall_forall in *. intros t Ht. cbn. apply Hf; [by left | by right | by apply Hx].
Qed.

Lemma lds_pairwise im : image_ok im -> pairwise (lds im (count im)).
Proof.
  intros Him. assert (forall n, (n <= count im)%nat -> pairwise (lds im n)) as H; [| by apply H]. induction n as [|n IH]; intros Hn; [constructor |]. rewrite lds_S. destruct (loaded (seg im n)) eqn:L; [| rewrite app_nil_r; apply IH; lia].
  apply pairwise_app. split_and!; [apply IH; lia | repeat constructor |]. apply Forall_forall. intros s (k & Hk & -> & Hl)%list_elem_of_In%lds_elem. constructor; [| done]. apply apart_sym, (io_apart _ Him k n); [lia | done | done].
Qed.

Lemma shift_apart im bias s t : place_ok im bias -> In s (lds im (count im)) -> In t (lds im (count im)) -> apart s t -> apart (shift bias s) (shift bias t).
Proof. intros Hp Hs Ht. destruct (shift_facts im bias s Hp Hs) as (E1 & E2 & _). destruct (shift_facts im bias t Hp Ht) as (E3 & E4 & _). unfold apart. rewrite E1, E2, E3, E4. lia. Qed.

Lemma placed_snd im bias : snd <$> placed im bias = shift bias <$> lds im (count im).
Proof. unfold placed. by rewrite <- list_fmap_compose. Qed.

Lemma items_pairwise la : launch_ok la -> pairwise (snd <$> items la).
Proof.
  intros Hla. assert (forall im bias, place_ok im bias -> pairwise (shift bias <$> lds im (count im))) as Hone.
  { intros im bias Hp. apply pairwise_fmap; [| by apply lds_pairwise, Hp]. intros s t Hs%list_elem_of_In Ht%list_elem_of_In. by apply (shift_apart im). }
  unfold items. rewrite fmap_app, !placed_snd. apply pairwise_app. split_and!; [apply Hone, Hla | apply Hone, Hla |].
  apply Forall_fmap, Forall_forall. intros s Hs%list_elem_of_In. cbn. apply Forall_fmap, Forall_forall. intros t Ht%list_elem_of_In. by apply (lo_apart _ Hla).
Qed.

(** ** The segments of the file *)

(** A segment of the container and what it was made of. *)
Definition carries (b : list Z) (s : Segment) (x : Image * Segment) : Prop :=
  kind s = kind (snd x) /\ flags s = flags (snd x) /\ address s = address (snd x) /\ file s = file (snd x) /\ memory s = memory (snd x) /\ alignment s = PAGE /\
  sg_offset s mod 4096 = address s mod 4096 /\ 0 <= sg_offset s /\ sg_offset s + file s <= len b /\
  take (Z.to_nat (file s)) (drop (Z.to_nat (sg_offset s)) b) = content (fst x) (snd x).

Lemma file_segs_carry l : forall c (P : list Z), Forall item_ok l -> 0 <= c -> List.length P = Z.to_nat c -> Forall2 (carries (P ++ file_data c l)) (file_segs c l) l.
Proof.
  induction l as [|[im s] l IH]; intros c P Hl Hc HP; cbn [file_segs file_data]; [constructor |]. apply Forall_cons in Hl as [Hs Hl]. pose proof (start_of_ge c s) as Hge. pose proof (content_length im s Hs) as Hcl.
  pose proof Hs as (_ & Hf & _). cbn [snd] in Hf. constructor.
  - unfold carries, settle. cbn [kind flags address file memory alignment sg_offset fst snd]. unfold len. rewrite !length_app, zeros_length, Hcl. split_and!; try done; try lia.
    + unfold start_of. pose proof (up_page c). divlia.
    + rewrite (app_assoc P). rewrite drop_app_length' by (rewrite length_app, zeros_length; lia). rewrite take_app_length' by done. done.
  - specialize (IH (start_of c s + file s) (P ++ zeros (Z.to_nat (start_of c s - c)) ++ content im s) Hl ltac:(lia)). rewrite <- !app_assoc in IH. apply IH. rewrite !length_app, zeros_length, Hcl. lia.
Qed.

Lemma carries_pages b s x : carries b s x -> low s = low (snd x) /\ high s = high (snd x).
Proof. intros (_ & _ & A & _ & M & _). unfold low, high, seg_end. by rewrite A, M. Qed.

Lemma carries_pairwise b l1 l2 : Forall2 (carries b) l1 l2 -> pairwise (snd <$> l2) -> pairwise l1.
Proof.
  unfold pairwise. induction 1 as [|s x l1 l2 Hsx Hc IH]; intros Hp; [constructor |]. cbn in Hp. apply StronglySorted_inv in Hp as [Hp Hx]. constructor; [by apply IH |]. clear IH Hp.
  destruct (carries_pages _ _ _ Hsx) as [E1 E2]. induction Hc as [|t y l1 l2 Hty Hc IH]; [constructor |]. cbn in Hx. apply Forall_cons in Hx as [Hxy Hx]. constructor; [| by apply IH].
  destruct (carries_pages _ _ _ Hty) as [E3 E4]. unfold apart in *. by rewrite E1, E2, E3, E4.
Qed.

Lemma file_segs_fit l : forall c, Forall item_ok l -> 0 <= c -> fits c l -> Forall (fun s => is_u64 (sg_offset s)) (file_segs c l).
Proof.
  induction l as [|[im s] l IH]; intros c Hl Hc Hfit; cbn [file_segs]; [constructor |]. apply Forall_cons in Hl as [(_ & Hf & _) Hl]. cbn in Hf. destruct Hfit as (F1 & F2 & F3). pose proof (start_of_ge c s). constructor; [cbn; widths; lia |]. apply IH; [done | lia | done].
Qed.

(** Reading a header of the table. *)
Lemma header_of_table (H T : list Z) (l : list Segment) i s : List.length H = 64%nat -> l !! i = Some s -> header_of (H ++ concat (seg_bytes <$> l) ++ T) 64 i = seg_bytes s.
Proof.
  intros HH Hs. unfold header_of. rewrite <- (take_drop_middle l i s Hs), fmap_app, concat_app. cbn [fmap list_fmap concat]. rewrite <- !app_assoc, (app_assoc H).
  rewrite drop_app_length'. 2: { rewrite length_app, HH, seg_bytes_concat, length_take. apply lookup_lt_Some in Hs. lia. }
  by rewrite take_app_length' by (by rewrite seg_bytes_length).
Qed.

(** ** The header of the container *)

Lemma inner_field (A b T : list Z) k m o n : List.length A = k -> (k + m <= List.length b)%nat -> (k <= o)%nat -> (o + n <= k + m)%nat -> take n (drop o (A ++ take m (drop k b) ++ T)) = take n (drop o b).
Proof.
  intros HA Hb Ho Hn. replace o with (List.length A + (o - k))%nat at 1 by lia. rewrite <- drop_drop, drop_app_length. rewrite drop_app_le by (rewrite length_take, length_drop; lia).
  rewrite take_app_le by (rewrite length_drop, length_take, length_drop; lia). rewrite skipn_firstn_comm, drop_drop, take_take. f_equal; [lia | f_equal; lia].
Qed.

Section Container.
Context (la : Launch) (Hla : launch_ok la) (Hm : parsed (main la)) (Hl : parsed (loader la)) (Hlen : la_length la <= ISIZE_MAX).
Local Abbreviation C := (container la).

Lemma main_header : header_fine (bytes_of (main la)).
Proof using Hm. by apply parsed_facts. Qed.

Lemma loader_entry : exists s, In s (lds (loader la) (count (loader la))) /\ covers_entry (loader la) s = true.
Proof using Hl. by apply parsed_facts. Qed.

Lemma loader_entry_range : 0 <= loader_bias la + entry (loader la) < USER_END.
Proof using Hla Hl.
  destruct loader_entry as (s & Hs & Hc). destruct (shift_facts _ _ s (lo_loader _ Hla) Hs) as (_ & _ & E & He & Ha). unfold covers_entry in Hc. bool_cases. destruct (lo_loader _ Hla) as (_ & Hb0 & _). lia.
Qed.

Lemma container_len : len C = la_length la.
Proof using Hla Hm. apply container_length; [done | apply main_header]. Qed.

Lemma container_u8 : Forall is_u8 C.
Proof using Hla Hm Hl.
  assert (forall im s, Forall is_u8 (bytes_of im) -> Forall is_u8 (content im s)) as Hc by (intros im s H8; by apply Forall_take, Forall_drop).
  assert (forall s, Forall is_u8 (seg_bytes s)) as Hs by (intros s; unfold seg_bytes; rewrite !Forall_app; split_and!; apply to_le_bytes).
  assert (forall l c, Forall (fun x => Forall is_u8 (bytes_of (fst x))) l -> Forall is_u8 (file_data c l)) as Hd.
  { induction l as [|[im s] l IH]; intros c H8; cbn; [done |]. apply Forall_cons in H8 as [H1 H2]. rewrite !Forall_app. split_and!; [apply zeros_u8 | by apply Hc | by apply IH]. }
  pose proof (proj1 Hm) as M8. unfold container. rewrite !Forall_app. split_and!.
  - unfold head64. apply concat_bytes. rewrite !Forall_cons. split_and!; try apply to_le_bytes; try apply zeros_u8; try (by apply Forall_take); try (by apply Forall_take, Forall_drop); constructor.
  - apply concat_bytes, Forall_fmap, Forall_forall. intros s _. apply Hs.
  - unfold mid. apply Forall_app. split; [| apply zeros_u8]. destruct (header_address _ _) as [[a|]|e|]; try done; by apply Forall_take, Forall_drop.
  - apply Hd. unfold items, placed. apply Forall_app. split; apply Forall_fmap, Forall_forall; intros s _; cbn; [done | apply Hl].
Qed.

Local Abbreviation T := (concat (seg_bytes <$> hs la) ++ mid la ++ file_data (metadata_length la) (items la)).

Lemma head_split : let b := bytes_of (main la) in
  C = take 16 b ++ to_le 2 2 ++ take 6 (drop 18 b) ++ to_le 8 (loader_bias la + entry (loader la)) ++ to_le 8 64 ++ zeros 8 ++ take 8 (drop 48 b) ++ to_le 2 (header_count la) ++ zeros 6 ++ T.
Proof using. unfold container, head64. cbn [concat]. rewrite app_nil_r. by rewrite <- !app_assoc. Qed.

Lemma count_range : 4 <= header_count la < U16_MAX.
Proof using Hla.
  destruct (lo_count _ Hla) as [E1 E2]. split; [| done]. destruct (io_loads _ (proj1 (lo_main _ Hla))) as [E3 Hne]. destruct (io_loads _ (proj1 (lo_loader _ Hla))) as [E4 Hne'].
  rewrite E1, E3, E4. destruct (lds (loader la) _); [done |]. destruct (lds (main la) _); [done |]. cbn [List.length]. lia.
Qed.

Lemma head_numbers : take_le 2 C 16 = 2 /\ take_le 8 C 24 = loader_bias la + entry (loader la) /\ take_le 8 C 32 = 64 /\ take_le 2 C 56 = header_count la /\ take 2 (drop 16 C) = to_le 2 2.
Proof using Hla Hm Hl.
  pose proof main_header as (H64 & _). pose proof loader_entry_range as He. pose proof count_range as Hn. unfold USER_END in He. rewrite head_split. set (b := bytes_of (main la)) in *.
  assert (List.length (take 16 b) = 16%nat) as L0 by (rewrite length_take; lia). assert (List.length (take 6 (drop 18 b)) = 6%nat) as L1 by (rewrite length_take, length_drop; lia).
  assert (List.length (take 8 (drop 48 b)) = 8%nat) as L2 by (rewrite length_take, length_drop; lia). split_and!.
  - apply (take_drop_middle_le 2 2 (take 16 b)); [by rewrite L0 | done].
  - rewrite 2 app_assoc. apply (take_drop_middle_le 8 _ _); [by rewrite !length_app, L0, L1 | lia].
  - rewrite 3 app_assoc. apply (take_drop_middle_le 8 64 _); [by rewrite !length_app, L0, L1 | done].
  - rewrite 6 app_assoc. apply (take_drop_middle_le 2 _ _); [by rewrite !length_app, L0, L1, L2 | widths; lia].
  - rewrite drop_app_length' by done. by rewrite take_app_length' by done.
Qed.

Lemma container_header : header_fine C.
Proof using Hla Hm Hl Hlen.
  pose proof main_header as (H64 & B1 & _ & B3 & B4 & B5 & B6 & _). pose proof head_numbers as (N1 & N2 & N3 & N4 & _). pose proof count_range as Hn. pose proof container_len as HC.
  assert ((64 <= List.length C)%nat /\ 64 + header_count la * 56 <= len C) as [HC64 Hfit].
  { rewrite HC, (lo_total _ Hla). destruct (copied_length la Hla) as (Hc & Hml & _). pose proof (end_of_ge (items la) (metadata_length la) (items_file _ (items_ok la Hla))) as Hend. rewrite (lo_root _ Hla) in Hc.
    unfold len in HC. rewrite (lo_total _ Hla) in HC. lia. }
  set (b := bytes_of (main la)) in *. assert (List.length (take 16 b) = 16%nat) as L0 by (rewrite length_take; lia). assert (List.length (take 6 (drop 18 b)) = 6%nat) as L1 by (rewrite length_take, length_drop; lia).
  unfold header_fine. rewrite N1, N3, N4. split_and!; try done; try (by left); try lia.
  - rewrite head_split. fold b. rewrite take_app_le, take_take by lia. done.
  - unfold take_le. rewrite head_split. fold b. rewrite (app_assoc (take 16 b)). rewrite inner_field by (rewrite ?length_app, ?L0; cbn; lia). exact B3.
  - rewrite head_split. fold b. rewrite (app_assoc (take 16 b)). rewrite inner_field by (rewrite ?length_app, ?L0; cbn; lia). exact B4.
  - rewrite head_split. fold b. rewrite 5 app_assoc. rewrite inner_field by (rewrite ?length_app, ?L0, ?L1; cbn; lia). exact B5.
  - rewrite head_split. fold b. rewrite 5 app_assoc. rewrite inner_field by (rewrite ?length_app, ?L0, ?L1; cbn; lia). exact B6.
Qed.

(** ** Its table *)

Local Abbreviation im0 := (image0 C).
Local Abbreviation fs := (file_segs (metadata_length la) (items la)).

Lemma image0_fields : bytes_of im0 = C /\ phoff im0 = 64%nat /\ Z.of_nat (count im0) = header_count la /\ fixed im0 = true /\ entry im0 = loader_bias la + entry (loader la).
Proof using Hla Hm Hl.
  pose proof head_numbers as (N1 & N2 & N3 & N4 & N5). pose proof count_range as Hn. unfold image0. cbn [bytes_of phoff count fixed entry]. rewrite N2, N3, N4, N5. split_and!; try done; lia.
Qed.

Lemma hs_length : List.length (hs la) = count im0.
Proof using Hla Hm Hl.
  destruct image0_fields as (_ & _ & E & _). pose proof (items_length la Hla). pose proof count_range. unfold hs. rewrite length_app, file_segs_length. cbn [List.length]. lia.
Qed.

(** The segments that carry the items. *)
Lemma carried : Forall2 (carries C) fs (items la).
Proof using Hla Hm.
  pose proof main_header as (H64 & _). destruct (copied_length la Hla) as (Hc & Hml & _). pose proof (items_length la Hla) as Hi. pose proof count_range as Hn.
  unfold container. rewrite (app_assoc (concat _)), (app_assoc (head64 la)). apply file_segs_carry; [by apply items_ok | done |].
  rewrite !length_app, head64_length, seg_bytes_concat, mid_length by done. unfold hs. rewrite length_app, file_segs_length, (lo_root _ Hla) in *. cbn [List.length]. lia.
Qed.

Lemma item_facts x : x ∈ items la -> exists im bias s, place_ok im bias /\ In s (lds im (count im)) /\ x = (im, shift bias s) /\ bias + maximum im <= metadata_address la.
Proof using Hla.
  pose proof (lo_address _ Hla) as Ea. unfold items, placed. rewrite elem_of_app, !list_elem_of_fmap. intros [(s & -> & Hs%list_elem_of_In)|(s & -> & Hs%list_elem_of_In)].
  - exists (main la), (main_bias la), s. split_and!; [apply Hla | done | done | lia].
  - exists (loader la), (loader_bias la), s. split_and!; [apply Hla | done | done | lia].
Qed.

(** A carried segment is fit for the parser. *)
Record fit (s : Segment) : Prop := {
  ft_ok : seg_ok s;
  ft_load : load_ok C s;
  ft_loaded : loaded s = true;
  ft_kind : kind s = LOAD;
  ft_above : USER_MIN <= low s;
  ft_below : high s <= metadata_address la }.

Lemma carried_fit s : s ∈ fs -> fit s.
Proof using Hla Hm.
  intros [i Hi]%list_elem_of_lookup. destruct (Forall2_lookup_l _ _ _ _ _ carried Hi) as (x & Hx & (K & F & A & Fi & M & Al & Mod & O0 & O1 & _)). pose proof (list_elem_of_lookup_2 _ _ _ Hx) as Hin.
  destruct (item_facts x Hin) as (im & bias & t & Hp & Ht & -> & Hmax). cbn [snd fst] in *. destruct (lds_facts im t (proj1 Hp) Ht) as ((K1 & K2 & _ & _ & K3 & K4 & _) & (_ & Q1 & Q2 & Q3 & _) & Q5 & R1 & R2 & R3 & R4).
  destruct (shift_facts im bias t Hp Ht) as (S1 & S2 & S3 & S4 & S5). pose proof (shift_address im bias t Hp Ht) as [S6 _].
  destruct (copied_length la Hla) as (_ & Hml & _). pose proof (file_segs_fit (items la) _ (items_ok la Hla) Hml (lo_fits _ Hla)) as Hfit. rewrite Forall_lookup in Hfit. specialize (Hfit i s Hi). cbn beta in Hfit.
  assert (low s = low (shift bias t)) as El by (unfold low; by rewrite A). assert (seg_end s = seg_end (shift bias t)) as Ee by (unfold seg_end; by rewrite A, M).
  assert (high s = high (shift bias t)) as Eh by (unfold high; by rewrite Ee). assert (loaded s = true) as Hld by (unfold loaded in *; rewrite K, M; exact Q5).
  assert (kind s = LOAD) as Hk by (unfold loaded in Hld; by bool_cases). cbn [kind flags address file memory shift] in *. destruct Hp as (_ & P0 & _ & _ & P3). split; [| | done | done | lia | lia].
  - unfold seg_ok. rewrite K, F, A, Fi, M, Al. unfold USER_END in S6. split_and!; try done; widths; unfold PAGE; lia.
  - unfold load_ok. rewrite F, Fi, M, Al, Ee, A, <- Fi. split_and!; try done; try lia. intros _. split; [done |]. rewrite A in Mod. unfold PAGE. lia.
Qed.

Lemma fs_pairwise : pairwise fs.
Proof using Hla Hm. eapply carries_pairwise; [exact carried | by apply items_pairwise]. Qed.

Lemma meta_fit : seg_ok (meta_seg la) /\ load_ok C (meta_seg la) /\ loaded (meta_seg la) = true /\ low (meta_seg la) = metadata_address la /\ USER_MIN <= metadata_address la /\ seg_ok (phdr_seg la).
Proof using Hla Hm.
  destruct (copied_length la Hla) as (Hc & Hml & Hpage). pose proof (lo_end _ Hla) as Hend. pose proof (lo_address _ Hla) as Ea. pose proof count_range as Hn. pose proof container_len as HC. pose proof (lo_root _ Hla) as Hr.
  destruct (lo_main _ Hla) as (Him & M0 & M1 & M2 & M3). destruct (lo_loader _ Hla) as (Hil & L0 & L1 & L2 & L3). pose proof (image_range _ Him) as (R1 & R2 & _). pose proof (image_range _ Hil) as (R4 & R5 & _).
  pose proof (end_of_ge (items la) (metadata_length la) (items_file _ (items_ok la Hla))) as Hge. rewrite <- (lo_total _ Hla) in Hge. unfold USER_END, USER_MIN in *.
  assert (metadata_address la mod 4096 = 0) as Hpa.
  { assert (forall im, image_ok im -> maximum im mod 4096 = 0) as Hmx by (intros im Hi; destruct (io_max _ Hi) as (s & _ & ->); apply up_page). pose proof (Hmx _ Him). pose proof (Hmx _ Hil). rewrite Ea. Z.div_mod_to_equations. lia. }
  split_and!; unfold seg_ok, load_ok, loaded, low, down, seg_end, meta_seg, phdr_seg; cbn [kind flags sg_offset address file memory alignment]; try (split_and!); unfold LOAD, PHDR, PAGE, USER_END; widths; try lia; try done.
  divlia.
Qed.


Lemma seg_hs i s : hs la !! i = Some s -> seg im0 i = s.
Proof using Hla Hm Hl.
  intros Hs. destruct image0_fields as (E1 & E2 & _). unfold seg. rewrite E1, E2. unfold container. rewrite (header_of_table (head64 la) (mid la ++ file_data (metadata_length la) (items la)) (hs la) i s); [| apply head64_length, main_header | done].
  apply seg_of_bytes. unfold hs in Hs. destruct meta_fit as (M1 & _ & _ & _ & _ & M2). destruct i as [|[|[|i]]]; cbn in Hs; [by injection Hs as <- | by injection Hs as <- | injection Hs as <-; by vm_compute |].
  apply (ft_ok s), carried_fit. by eapply list_elem_of_lookup_2.
Qed.

Lemma hs_seg i : (i < count im0)%nat -> hs la !! i = Some (seg im0 i).
Proof using Hla Hm Hl. intros Hi. rewrite <- hs_length in Hi. apply lookup_lt_is_Some in Hi as [s Hs]. by rewrite (seg_hs i s Hs). Qed.

Lemma segs_hs : segs im0 (count im0) = hs la.
Proof using Hla Hm Hl.
  apply list_eq. intros i. unfold segs. rewrite list_lookup_fmap. destruct (decide (i < count im0)%nat) as [Hi|Hi].
  - rewrite lookup_seq_lt by done. by rewrite (hs_seg i Hi).
  - rewrite lookup_seq_ge by lia. symmetry. apply lookup_ge_None. rewrite hs_length. lia.
Qed.

Lemma lds_hs : lds im0 (count im0) = meta_seg la :: fs.
Proof using Hla Hm Hl.
  unfold lds. rewrite segs_hs. unfold hs. cbn [app List.filter]. destruct meta_fit as (_ & _ & -> & _). change (loaded (phdr_seg la)) with false. change (loaded stack_seg) with false. f_equal.
  assert (forall l, Forall (fun s => loaded s = true) l -> List.filter loaded l = l) as Hf by (induction 1 as [|s l Hs _ IH]; cbn; [done |]; by rewrite Hs, IH). apply Hf, Forall_forall. intros s Hs. by apply ft_loaded, carried_fit.
Qed.

(** The states of the scan at the headers that are not loadable. *)
Lemma scan_start3 : stack (scan_at im0 2) = false /\ phdr (scan_at im0 1) = None.
Proof using Hla Hm Hl.
  rewrite !scan_at_S. rewrite (seg_hs 0 (meta_seg la)), (seg_hs 1 (phdr_seg la)) by done. done.
Qed.

Lemma scan_phdr n : (2 <= n <= count im0)%nat -> phdr (scan_at im0 n) = Some (phdr_seg la).
Proof using Hla Hm Hl.
  induction n as [|n IH]; intros Hn; [lia |]. rewrite scan_at_S. unfold next_scan. cbn [phdr]. destruct n as [|[|n]]; [lia | by rewrite (seg_hs 1 (phdr_seg la)) by done |].
  rewrite IH by lia. assert (kind (seg im0 (Datatypes.S (Datatypes.S n))) <> PHDR) as Hk; [| by rewrite (proj2 (Z.eqb_neq _ _) Hk)].
  pose proof (hs_seg (Datatypes.S (Datatypes.S n)) ltac:(lia)) as Hs. remember (seg im0 _) as s eqn:Es. clear Es. unfold hs in Hs. destruct n as [|n]; cbn in Hs; [assert (stack_seg = s) as Es by congruence; by rewrite <- Es |].
  apply list_elem_of_lookup_2 in Hs. by rewrite (ft_kind s (carried_fit s Hs)).
Qed.

Lemma container_table : table_accepted im0 (count im0).
Proof using Hla Hm Hl.
  intros k Hk. pose proof (hs_seg k Hk) as Hs. destruct (scan_at_source im0 k) as (Eb & _). destruct image0_fields as (E1 & _). pose proof (scan_at_source im0 k) as Hsrc. unfold turn_ok. rewrite Eb, E1. clear Eb.
  destruct meta_fit as (M1 & M2 & M3 & M4 & _). pose proof scan_start3 as [S2 S1]. remember (seg im0 k) as s eqn:Es. clear Es. unfold hs in Hs. destruct k as [|[|[|k]]]; cbn in Hs.
  - assert (meta_seg la = s) as <- by congruence. split_and!; try done. intros _ j Hj. lia.
  - assert (phdr_seg la = s) as <- by congruence. by split_and!.
  - assert (stack_seg = s) as <- by congruence. by split_and!.
  - pose proof (carried_fit s (list_elem_of_lookup_2 _ _ _ Hs)) as Hf. rewrite (ft_kind s Hf). split_and!; [done | done | intros _; apply Hf |]. intros _ j Hj Hlj. rewrite (same_source_seg _ _ j Hsrc) in *.
    pose proof (hs_seg j ltac:(lia)) as Hsj. destruct j as [|[|[|j]]].
    + rewrite (seg_hs 0 (meta_seg la)) by done. right. rewrite M4. by apply ft_below.
    + by rewrite (seg_hs 1 (phdr_seg la)) in Hlj by done.
    + by rewrite (seg_hs 2 stack_seg) in Hlj by done.
    + apply apart_sym. apply (pairwise_lookup fs j k); [apply fs_pairwise | lia | done | done].
Qed.

(** ** The checks after the loop *)

Lemma final_image : let im := sc_image (final C) in same_source im0 im /\ table_ok im /\ lds im (count im) = meta_seg la :: fs.
Proof using Hla Hm Hl Hlen.
  intros im. pose proof (scan_at_source im0 (count im0)) as Hsrc. fold (final C) in Hsrc. fold im in Hsrc. split; [done |]. split.
  - eapply same_source_table; [done |]. apply image0_table; [apply container_u8 | rewrite container_len; done | apply container_header].
  - rewrite (same_source_lds _ _ _ Hsrc). destruct Hsrc as (_ & _ & -> & _). apply lds_hs.
Qed.

Lemma final_header : header_address (sc_image (final C)) 0 = Ok (Some (metadata_address la + 64)).
Proof using Hla Hm Hl Hlen.
  destruct final_image as (Hsrc & Ht & _). pose proof Hsrc as (_ & E2 & E3 & _). destruct image0_fields as (_ & F2 & F3 & _). pose proof count_range as Hn. unfold header_address.
  assert (exists n, count (sc_image (final C)) = Datatypes.S n) as [n En] by (exists (count im0 - 1)%nat; rewrite E3; lia). rewrite En. cbn [header_loop]. rewrite segment_Ok by (done || lia).
  rewrite (same_source_seg _ _ 0 Hsrc), (seg_hs 0 (meta_seg la)) by done. cbn [kind flags sg_offset file address meta_seg]. rewrite E2, F2, E3, F3.
  change (LOAD =? LOAD) with true. change (negb (Z.land 4 4 =? 0)) with true. change (0 <=? Z.of_nat 64) with true. cbn [andb]. unfold checked_add64.
  destruct (copied_length la Hla) as (Hc & Hml & _). pose proof (lo_end _ Hla) as Hend. pose proof (lo_root _ Hla) as Hr. unfold USER_END in Hend. destruct meta_fit as (_ & _ & _ & _ & Hmin & _). unfold USER_MIN in Hmin.
  change (Z.of_nat 64) with 64. rewrite (proj2 (Z.leb_le (64 + header_count la * 56) U64_MAX)) by (widths; lia). rewrite (proj2 (Z.leb_le (0 + metadata_length la) U64_MAX)) by (widths; lia).
  rewrite (proj2 (Z.leb_le (64 + header_count la * 56) (0 + metadata_length la))) by lia. rewrite (proj2 (Z.leb_le (0 + metadata_address la) U64_MAX)) by (widths; lia).
  rewrite (proj2 (Z.leb_le (0 + metadata_address la + (64 - 0)) U64_MAX)) by (widths; lia). do 2 f_equal.
Qed.

Lemma no_interp_loop im n : table_ok im -> (forall k, (k < count im)%nat -> kind (seg im k) <> 3) -> forall i path, (i + n <= count im)%nat -> interpreter_loop im n i path = Ok path.
Proof using.
  intros Ht Hk. induction n as [|n IH]; intros i path Hi; cbn [interpreter_loop]; [done |]. rewrite segment_Ok by (done || lia). rewrite (proj2 (Z.eqb_neq _ _)) by (apply Hk; lia). apply IH. lia.
Qed.

Lemma final_no_interp : image_interpreter (sc_image (final C)) = Ok None.
Proof using Hla Hm Hl Hlen.
  destruct final_image as (Hsrc & Ht & _). apply no_interp_loop; [done | | done]. intros k Hk. rewrite (same_source_seg _ _ k Hsrc). destruct Hsrc as (_ & _ & E3 & _). rewrite E3 in Hk. pose proof (hs_seg k Hk) as Hs.
  remember (seg im0 k) as s eqn:Es. clear Es. unfold hs in Hs. destruct k as [|[|[|k]]]; cbn in Hs; [by assert (meta_seg la = s) as <- by congruence | by assert (phdr_seg la = s) as <- by congruence | by assert (stack_seg = s) as <- by congruence |].
  apply list_elem_of_lookup_2 in Hs. by rewrite (ft_kind s (carried_fit s Hs)).
Qed.

Lemma entry_carried : exists s, s ∈ fs /\ covers_entry im0 s = true.
Proof using Hla Hm Hl.
  destruct loader_entry as (t & Ht & Hc). assert ((loader la, shift (loader_bias la) t) ∈ items la) as [i Hi]%list_elem_of_lookup by (unfold items, placed; apply elem_of_app; right; apply list_elem_of_fmap; exists t; split; [done | by apply list_elem_of_In]).
  destruct (Forall2_lookup_r _ _ _ _ _ carried Hi) as (s & Hs & (_ & F & A & _ & M & _)). exists s. split; [by eapply list_elem_of_lookup_2 |]. cbn [snd] in *. destruct image0_fields as (_ & _ & _ & _ & E).
  unfold covers_entry, seg_end in *. rewrite E, F, A, M. cbn [flags address memory shift]. bool_cases. rewrite !andb_true_iff, negb_true_iff, Z.eqb_neq, Z.leb_le, Z.ltb_lt. split_and!; [done | lia | lia].
Qed.

Lemma container_accepted : accepted C true.
Proof using Hla Hm Hl Hlen.
  split; [apply container_header |]. split; [apply container_table |]. assert (table_ok im0) as Ht by (apply image0_table; [apply container_u8 | by rewrite container_len | apply container_header]).
  destruct (bounds_scan C (count im0) Ht container_table (Nat.le_refl _)) as [B1 B2 _ B3 _ _ B6]. fold (final C) in *. rewrite lds_hs in *. destruct image0_fields as (E1 & E2 & E3 & E4 & E5).
  destruct final_image as (Hsrc & _). pose proof Hsrc as (S1 & S2 & S3 & S4 & S5). pose proof count_range as Hn. split_and!.
  - intros _. rewrite B6. apply existsb_exists. destruct entry_carried as (s & Hs & Hc). exists s. split; [right; by apply list_elem_of_In | done].
  - rewrite B2. cbn [List.length]. lia.
  - intros _. destruct (B3 ltac:(done)) as (s & Hs & ->). destruct meta_fit as (_ & _ & _ & M4 & M5 & _). destruct Hs as [<-|Hs]; [by rewrite M4 |]. by apply ft_above, carried_fit, list_elem_of_In.
  - intros p Hp. unfold final in Hp. rewrite scan_phdr in Hp by lia. injection Hp as <-. unfold check_phdr. rewrite final_header, S2, S3, E2, E3. cbn [file memory sg_offset address phdr_seg].
    rewrite Z.eqb_refl, Z.ltb_irrefl. by rewrite bool_decide_true.
  - exists None. apply final_no_interp.
Qed.

End Container.

Lemma executable_Ok la : launch_ok la -> parsed (main la) -> exists ha, Launch_executable la =
  Ok {| ex_entry := main_bias la + entry (main la); program_headers := default (metadata_address la + Z.of_nat (root_headers_offset la)) ha; program_header_size := 56;
        program_header_count := Z.of_nat (count (main la)); interpreter_base := loader_bias la; load_bias := main_bias la |}.
Proof.
  intros Hla Hm. destruct (parsed_facts _ Hm) as (Him & _ & s & Hs & Hc). destruct (shift_facts _ _ s (lo_main _ Hla) Hs) as (_ & _ & E & He & Ha). unfold covers_entry in Hc. bool_cases.
  destruct (copied_length la Hla) as (Hcp & Hml & _). pose proof (lo_end _ Hla) as Hend. unfold USER_END in *. unfold Launch_executable, add64. rewrite (proj2 (Z.leb_le _ _)) by (widths; lia).
  destruct (header_loop_no_panic (main la) (main_bias la) (count (main la)) (io_table _ Him) 0%nat ltac:(lia)) as [ha Hha]. unfold header_address. rewrite Hha. rewrite (proj2 (Z.leb_le _ _)) by (widths; lia). by exists ha.
Qed.

(** C6: [Launch::new] and [write] do not panic, and the container they make of a program and its interpreter is faithful: it fills
    exactly the announced length of the buffer; the image parser accepts it as a fixed image without an interpreter, whose
    entry is the interpreter's at its place; and its loadable segments are one readable segment of headers and then, in
    order, every loadable segment of the program and of the interpreter, at its address plus the bias, with its permissions,
    its sizes and its bytes. *)
Theorem launch_container_faithful main_im loader_im random output : parsed main_im -> parsed loader_im -> arr 16 random -> len output <= ISIZE_MAX ->
  match Launch_new main_im loader_im random with
  | Panic => False
  | Err _ => True
  | Ok la => la_length la <= len output -> exists out im s0 ss,
      Launch_write la output = Ok (out ++ drop (Z.to_nat (la_length la)) output, la_length la) /\ len out = la_length la /\
      Image_parse out = Ok im /\ fixed im = true /\ image_interpreter im = Ok None /\ entry im = loader_bias la + entry loader_im /\
      lds im (count im) = s0 :: ss /\ flags s0 = 4 /\ Forall2 (carries out) ss (placed main_im (main_bias la) ++ placed loader_im (loader_bias la)) /\
      exists ex, Launch_executable la = Ok ex /\ ex_entry ex = main_bias la + entry main_im
  end.
Proof.
  intros Hm Hl Hr Hout. pose proof (Launch_new_spec main_im loader_im random Hm Hl Hr) as Hs. destruct (Launch_new main_im loader_im random) as [la|e|]; [| done | done]. destruct Hs as (Hla & <- & <- & _). intros Hfit.
  assert (la_length la <= ISIZE_MAX) as Hlen by lia. pose proof (loader_entry_range la Hla Hl) as He. unfold USER_END in He. destruct (final_image la Hla Hm Hl Hlen) as (Hsrc & _ & El). destruct Hsrc as (_ & _ & _ & S4 & S5).
  destruct (image0_fields la Hla Hm Hl) as (_ & _ & _ & E4 & E5). destruct (executable_Ok la Hla Hm) as [ha Hex].
  exists (container la), (sc_image (final (container la))), (meta_seg la), (file_segs (metadata_length la) (items la)). split_and!.
  - apply Launch_write_Ok; [done | apply (main_header la Hm) | widths; lia | done].
  - by apply container_len.
  - pose proof (parse_impl_spec (container la) true (container_u8 la Hla Hm Hl) ltac:(by rewrite container_len)) as Hp. pose proof (container_accepted la Hla Hm Hl Hlen) as Hacc. fold (Image_parse (container la)) in Hp.
    destruct (Image_parse (container la)) as [im|e|]; [by destruct Hp as [_ ->] | done | done].
  - by rewrite S4.
  - by apply final_no_interp.
  - by rewrite S5.
  - done.
  - done.
  - by apply carried.
  - eexists. split; [exact Hex | done].
Qed.

(** A program with an interpreter, and the interpreter. *)
Definition sample_header (ty entry_ count_ : Z) : list Z :=
  [127; 69; 76; 70; 2; 1; 1] ++ zeros 9 ++ to_le 2 ty ++ to_le 2 62 ++ to_le 4 1 ++ to_le 8 entry_ ++ to_le 8 64 ++ zeros 12 ++ to_le 2 64 ++ to_le 2 56 ++ to_le 2 count_ ++ zeros 6.
Definition sample_main : list Z :=
  sample_header 3 8 2 ++ seg_bytes {| kind := 3; flags := 4; sg_offset := 176; address := 176; file := 4; memory := 4; alignment := 1 |} ++
  seg_bytes {| kind := 1; flags := 5; sg_offset := 0; address := 0; file := 180; memory := 300; alignment := 4096 |} ++ [47; 108; 100; 0].
Definition sample_loader : list Z := sample_header 3 4 1 ++ seg_bytes {| kind := 1; flags := 5; sg_offset := 0; address := 0; file := 120; memory := 5000; alignment := 4096 |}.
Definition image_of (b : list Z) : Image := match Image_parse b with Ok im => im | _ => image0 [] end.

Lemma sample_parsed : parsed (image_of sample_main) /\ parsed (image_of sample_loader).
Proof. split; (split; [by_compute |]; split; [vm_compute; discriminate | vm_compute; reflexivity]). Qed.

Lemma launch_container_faithful_witness : exists la out im, Launch_new (image_of sample_main) (image_of sample_loader) (zeros 16) = Ok la /\
  Launch_write la (zeros 9000) = Ok (out ++ drop (Z.to_nat (la_length la)) (zeros 9000), la_length la) /\ Image_parse out = Ok im /\ entry im = 1073741828.
Proof.
  destruct sample_parsed as [H1 H2]. pose proof (launch_container_faithful (image_of sample_main) (image_of sample_loader) (zeros 16) (zeros 9000) H1 H2) as Hf.
  assert (match Launch_new (image_of sample_main) (image_of sample_loader) (zeros 16) with Ok la => (la_length la <=? 9000) && (loader_bias la =? 1073741824) | _ => false end = true) as E by (vm_compute; reflexivity).
  assert (entry (image_of sample_loader) = 4) as E4 by (vm_compute; reflexivity). destruct (Launch_new _ _ _) as [la|e|]; [| discriminate | discriminate]. apply andb_true_iff in E as [E1%Z.leb_le E2%Z.eqb_eq].
  assert (len (zeros 9000) = 9000) as E3 by (unfold len; rewrite zeros_length; reflexivity).
  destruct Hf as (out & im & s0 & ss & F1 & F2 & F3 & F4 & F5 & F6 & _); [split; [reflexivity | apply zeros_u8] | rewrite E3; vm_compute; discriminate | rewrite E3; exact E1 |].
  exists la, out, im. split; [reflexivity |]. split; [exact F1 |]. split; [exact F3 |]. rewrite F6, E2, E4. reflexivity.
Defined.
