(* ===== verification/ProcessImage.v ===== *)
(** * The start-up image of a process ([posix-client/src/process_image.rs], [Layout] of [startup_metadata.rs])

    The stack on which a program starts: argument and environment vectors, the auxiliary vector, the strings, and the
    metadata of the loader, as bytes with a list of relocations.  The kernel places the bytes, adds addresses
    at the relocations and does not know what they mean. *)

From Stdlib Require Import String.
From S2P Require Import Prelude Text Fields LaunchImage LaunchContainer.

(** ** The interface of the kernel

    [mnu_abi::process_image]: the kinds of relocation that the code uses, and the record. *)

Inductive RelocationKind : Type := StackAddress | ElfProgramHeaders | ElfProgramHeaderSize | ElfProgramHeaderCount | PageSize | ElfEntry.
Record Relocation : Type := { re_offset : Z; re_kind : RelocationKind }.

(** ** The code *)

Definition AT_NULL : Z := 0.
Definition AT_PHDR : Z := 3.
Definition AT_PHENT : Z := 4.
Definition AT_PHNUM : Z := 5.
Definition AT_PAGESZ : Z := 6.
Definition AT_BASE : Z := 7.
Definition AT_FLAGS : Z := 8.
Definition AT_ENTRY : Z := 9.
Definition AT_UID : Z := 11.
Definition AT_EUID : Z := 12.
Definition AT_GID : Z := 13.
Definition AT_EGID : Z := 14.
Definition AT_HWCAP : Z := 16.
Definition AT_CLKTCK : Z := 17.
Definition AT_SECURE : Z := 23.
Definition AT_RANDOM : Z := 25.
Definition AT_EXECFN : Z := 31.
Definition AUXILIARY_VECTOR_ENTRIES : Z := 18.
Definition AT_IMAGE_LOAD_BIAS : Z := 1828716548. (* 0x6d00_0004 *)
Definition AT_LIFECYCLE_IMAGE : Z := 1828716549.
Definition AT_TLS_IMAGE : Z := 1828716550.
Definition AT_INDIRECT_IMAGE : Z := 1828716551.
Definition CLOCK_TICKS_PER_SECOND : Z := 1000.

(** [C] is the error of the kernel's codec. *)
Inductive EncodeError (C : Type) : Type := EmptyArgumentVector | InvalidText | ImageTooLarge | Codec (e : C).
Arguments EmptyArgumentVector {C}.
Arguments InvalidText {C}.
Arguments ImageTooLarge {C}.
Arguments Codec {C} e.

Record Identity : Type := { real_uid : Z; effective_uid : Z; real_gid : Z; effective_gid : Z }.
Definition Identity_default : Identity := {| real_uid := 0; effective_uid := 0; real_gid := 0; effective_gid := 0 |}.
Definition is_secure (self : Identity) : bool := negb (real_uid self =? effective_uid self) || negb (real_gid self =? effective_gid self).

Definition LOADER_CONTROLS : list (list Z) := [text "LD_LIBRARY_PATH"; text "LD_PRELOAD"; text "LD_AUDIT"].
Definition allows_environment (self : Identity) (entry : list Z) : bool :=
  negb (is_secure self) ||
  negb (existsb (fun name => match strip_prefix name entry with Some tail => starts_with [61] tail | None => false end) LOADER_CONTROLS).

Record Process : Type := {
  image : option Executable;
  identity : Identity;
  lifecycle : list Z;
  tls : list Z;
  indirect : list Z }.

(** [checked_add] and [& !(a - 1)]. *)
Definition round_up (n a : Z) : option Z := match checked_add64 n (a - 1) with Some v => Some (Z.land v (Z.lnot (a - 1))) | None => None end.
Definition checked_sum (l : list Z) : option Z := foldl (fun acc x => match acc with Some a => checked_add64 a x | None => None end) (Some 0) l.
Definition is_empty {A} (l : list A) : bool := match l with [] => true | _ => false end.

(** *** Where mapped metadata lies *)

Definition MAX_BYTES : Z := 16 * 1024 * 1024.

Record Layout : Type := { base : Z; ly_length : Z; spans : list (Z * Z) }.

Section Code.
Context {C : Type}.
Local Abbreviation res A := (result (EncodeError C) A).

Fixpoint spans_loop (cursor : Z) (parts : list (list Z)) : res (Z * list (Z * Z)) :=
  match parts with
  | [] => Ok (cursor, [])
  | bytes :: rest =>
      if is_empty bytes then let? (c, s) := spans_loop cursor rest in Ok (c, (0, 0) :: s) else
      let? at_ := ok_or (round_up cursor 8) ImageTooLarge in
      let? cursor := ok_or (checked_add64 at_ (len bytes)) ImageTooLarge in
      let? (c, s) := spans_loop cursor rest in
      Ok (c, (at_, len bytes) :: s)
  end.

Definition Layout_new (base : Z) (process : Process) : res Layout :=
  if (base <? 4194304) || negb (base mod PAGE =? 0) then Err InvalidText else
  let? (cursor, spans) := spans_loop 0 [lifecycle process; tls process; indirect process] in
  let? length := ok_or (round_up cursor PAGE) ImageTooLarge in
  if (length =? 0) || (MAX_BYTES <? length) then Err ImageTooLarge else
  let? e := ok_or (checked_add64 base length) ImageTooLarge in
  if 140737488355328 <? e then Err ImageTooLarge else
  Ok {| base := base; ly_length := length; spans := spans |}.

Definition Layout_address (self : Layout) (index : nat) : res (option Z) :=
  match spans self !! index with
  | Some (at_, n) => if n =? 0 then Ok None else let? a := add64 (base self) at_ in Ok (Some a)
  | None => Ok None
  end.

Definition Layout_matches (self : Layout) (process : Process) : bool :=
  forallb (fun x => len (fst x) =? snd (snd x)) (zip [lifecycle process; tls process; indirect process] (spans self)).

(** *** The encoder *)

(** The local variables that the writing steps share. *)
Record Writer : Type := {
  stack : list Z;
  relocations : list Relocation;
  relocation_count : nat;
  cursor : Z;
  text_cursor : Z }.

Definition with_stack (w : Writer) (s : list Z) (c t : Z) : Writer :=
  {| stack := s; relocations := relocations w; relocation_count := relocation_count w; cursor := c; text_cursor := t |}.

Definition text_step (acc : res Z) (value : list Z) : res Z :=
  let? total := acc in
  if contains_char 0 value then Err InvalidText else
  ok_or (match checked_add64 total (len value) with Some size => checked_add64 size 1 | None => None end) ImageTooLarge.
Definition checked_text_size (values : list (list Z)) : res Z := foldl text_step (Ok 0) values.

(** [stack.get_mut(a..e).ok_or(..)?.copy_from_slice(src)]. *)
Definition put_range (s : list Z) (a e : Z) (src : list Z) : res (list Z) :=
  if (a <=? e) && (e <=? len s) then copy_into s (Z.to_nat a) (Z.to_nat e) src else Err ImageTooLarge.

Definition put_word (w : Writer) (value : Z) : res (Z * Writer) :=
  let offset := cursor w in
  let? e := ok_or (checked_add64 offset 8) ImageTooLarge in
  let? s := put_range (stack w) offset e (to_le 8 value) in
  let w := with_stack w s e (text_cursor w) in
  if offset <=? U32_MAX then Ok (offset, w) else Err ImageTooLarge.

Definition push_relocation (w : Writer) (offset : Z) (kind : RelocationKind) : res Writer :=
  match relocations w !! relocation_count w with
  | None => Err ImageTooLarge
  | Some _ => Ok {| stack := stack w; relocations := <[relocation_count w := {| re_offset := offset; re_kind := kind |}]> (relocations w);
                    relocation_count := S (relocation_count w); cursor := cursor w; text_cursor := text_cursor w |}
  end.

Definition put_relocated_word (w : Writer) (value : Z) (kind : RelocationKind) : res Writer :=
  let? (offset, w) := put_word w value in
  push_relocation w offset kind.

Definition copy_text (w : Writer) (value : list Z) : res (Z * Writer) :=
  let offset := text_cursor w in
  let? e := ok_or (match checked_add64 offset (len value) with Some e => checked_add64 e 1 | None => None end) ImageTooLarge in
  let? s := put_range (stack w) offset e (value ++ [0]) in
  Ok (offset, with_stack w s (cursor w) e).

Definition reserved_key (key : Z) : bool :=
  (key <=? AT_EXECFN) || (key =? AT_IMAGE_LOAD_BIAS) || (key =? AT_LIFECYCLE_IMAGE) || (key =? AT_TLS_IMAGE) || (key =? AT_INDIRECT_IMAGE).

Fixpoint check_auxiliary (before auxiliary : list (Z * Z)) : res unit :=
  match auxiliary with
  | [] => Ok tt
  | (key, value) :: rest =>
      if reserved_key key || existsb (fun other => fst other =? key) before then Err InvalidText
      else check_auxiliary (before ++ [(key, value)]) rest
  end.

Fixpoint measure_environment (identity : Identity) (envp : list (list Z)) (count bytes : Z) : res (Z * Z) :=
  match envp with
  | [] => Ok (count, bytes)
  | entry :: rest =>
      if contains_char 0 entry then Err InvalidText else
      if allows_environment identity entry then
        let? bytes := ok_or (match checked_add64 bytes (len entry) with Some b => checked_add64 b 1 | None => None end) ImageTooLarge in
        measure_environment identity rest (count + 1) bytes
      else measure_environment identity rest count bytes
  end.

Record Sizes : Type := { pointer_bytes : Z; lifecycle_offset : Z; tls_offset : Z; indirect_offset : Z; stack_length : Z }.

Definition some_part (l : list Z) : Z := if is_empty l then 0 else 1.
Definition part_end (mapped : bool) (part : list Z) (before offset : Z) : res Z :=
  if is_empty part || mapped then Ok before else ok_or (checked_add64 offset (len part)) ImageTooLarge.

(** The lengths of the parts, one after the other. *)
Definition measure_stack (argv envp : list (list Z)) (execfn random : list Z) (auxiliary : list (Z * Z)) (process : Process) (mapped : bool) : res Sizes :=
  let? argument_bytes := checked_text_size argv in
  let? (environment_count, environment_bytes) := measure_environment (identity process) envp 0 0 in
  let? pointer_words := ok_or (match checked_sum [1; Z.of_nat (List.length argv); 1; environment_count; 1] with
      | None => None
      | Some value =>
          match checked_sum [Z.of_nat (List.length auxiliary); AUXILIARY_VECTOR_ENTRIES; some_part (lifecycle process); some_part (tls process); some_part (indirect process)] with
          | None => None
          | Some count => match checked_mul64 count 2 with None => None | Some count => checked_add64 value count end
          end
      end) ImageTooLarge in
  let? pointer_bytes := ok_or (checked_mul64 pointer_words 8) ImageTooLarge in
  let? unaligned_length := ok_or (checked_sum [pointer_bytes; argument_bytes; environment_bytes; len random; len execfn; 1]) ImageTooLarge in
  let? lifecycle_offset := ok_or (round_up unaligned_length 8) ImageTooLarge in
  let? lifecycle_end := part_end mapped (lifecycle process) unaligned_length lifecycle_offset in
  let? tls_offset := ok_or (round_up lifecycle_end 8) ImageTooLarge in
  let? tls_end := part_end mapped (tls process) lifecycle_end tls_offset in
  let? indirect_offset := ok_or (round_up tls_end 8) ImageTooLarge in
  let? payload_length := part_end mapped (indirect process) tls_end indirect_offset in
  let? stack_length := ok_or (round_up payload_length 16) ImageTooLarge in
  Ok {| pointer_bytes := pointer_bytes; lifecycle_offset := lifecycle_offset; tls_offset := tls_offset; indirect_offset := indirect_offset; stack_length := stack_length |}.

Fixpoint put_texts (w : Writer) (texts : list (list Z)) : res Writer :=
  match texts with
  | [] => Ok w
  | t :: texts =>
      let? (offset, w) := copy_text w t in
      let? w := put_relocated_word w offset StackAddress in
      put_texts w texts
  end.

(** [stack[offset..offset + part.len()].copy_from_slice(part)], when the part is there and not mapped. *)
Definition put_part (w : Writer) (mapped : bool) (part : list Z) (offset : Z) : res Writer :=
  if is_empty part || mapped then Ok w else
  let? s := copy_into (stack w) (Z.to_nat offset) (Z.to_nat (offset + len part)) part in
  Ok (with_stack w s (cursor w) (text_cursor w)).

(** An entry for a part of the metadata. *)
Definition part_entry (mapped : option Layout) (index : nat) (key : Z) (part : list Z) (offset : Z) : res (list (Z * Z * option RelocationKind)) :=
  let? address := (match mapped with Some m => Layout_address m index | None => Ok None end) in
  Ok (if is_empty part then [] else [(key, default offset address, match mapped with Some _ => None | None => Some StackAddress end)]).

Definition base_entries (identity : Identity) (random_offset execfn_offset : Z) : list (Z * Z * option RelocationKind) :=
  [(AT_PHDR, 0, Some ElfProgramHeaders);
   (AT_PHENT, 0, Some ElfProgramHeaderSize);
   (AT_PHNUM, 0, Some ElfProgramHeaderCount);
   (AT_PAGESZ, 0, Some PageSize);
   (AT_BASE, 0, None);
   (AT_FLAGS, 0, None);
   (AT_ENTRY, 0, Some ElfEntry);
   (AT_UID, real_uid identity, None);
   (AT_EUID, effective_uid identity, None);
   (AT_GID, real_gid identity, None);
   (AT_EGID, effective_gid identity, None);
   (AT_HWCAP, 0, None);
   (AT_CLKTCK, CLOCK_TICKS_PER_SECOND, None);
   (AT_SECURE, if is_secure identity then 1 else 0, None);
   (AT_RANDOM, random_offset, Some StackAddress);
   (AT_EXECFN, execfn_offset, Some StackAddress);
   (AT_IMAGE_LOAD_BIAS, 0, None);
   (AT_NULL, 0, None)].

(** What the selected image says about a key. *)
Definition image_value (image : Executable) (key : Z) : option Z :=
  if key =? AT_PHDR then Some (program_headers image) else
  if key =? AT_PHENT then Some (program_header_size image) else
  if key =? AT_PHNUM then Some (program_header_count image) else
  if key =? AT_ENTRY then Some (ex_entry image) else
  if key =? AT_BASE then Some (interpreter_base image) else
  if key =? AT_IMAGE_LOAD_BIAS then Some (load_bias image) else None.

Definition override (image : option Executable) (x : Z * Z * option RelocationKind) : Z * Z * option RelocationKind :=
  let '(key, value, relocation) := x in
  match (match image with Some i => image_value i key | None => None end) with
  | Some value => (key, value, None)
  | None => (key, value, relocation)
  end.

Fixpoint put_auxiliary (w : Writer) (image : option Executable) (entries : list (Z * Z * option RelocationKind)) : res Writer :=
  match entries with
  | [] => Ok w
  | x :: entries =>
      let '(key, value, relocation) := override image x in
      let? (_, w) := put_word w key in
      let? w := (match relocation with
        | Some kind => put_relocated_word w value kind
        | None => let? (_, w) := put_word w value in Ok w
        end) in
      put_auxiliary w image entries
  end.

Context (MAX_STACK_BYTES : Z) (MAX_RELOCATIONS : nat).

Definition empty_writer (pointer_bytes : Z) : Writer :=
  {| stack := zeros (Z.to_nat MAX_STACK_BYTES); relocations := replicate MAX_RELOCATIONS {| re_offset := 0; re_kind := StackAddress |};
     relocation_count := 0; cursor := 0; text_cursor := pointer_bytes |}.

(** [encode_process] up to the call of the kernel's codec: the stack and its relocations. *)
Definition initial_stack (argv envp : list (list Z)) (execfn random : list Z) (auxiliary : list (Z * Z)) (process : Process) (mapped : option Layout) : res (list Z * list Relocation) :=
  let? _ := check_auxiliary [] auxiliary in
  if is_empty argv then Err EmptyArgumentVector else
  if contains_char 0 execfn then Err InvalidText else
  let is_mapped := match mapped with Some _ => true | None => false end in
  let? z := measure_stack argv envp execfn random auxiliary process is_mapped in
  if MAX_STACK_BYTES <? stack_length z then Err ImageTooLarge else
  let? (_, w) := put_word (empty_writer (pointer_bytes z)) (Z.of_nat (List.length argv)) in
  let? w := put_texts w argv in
  let? (_, w) := put_word w 0 in
  let? w := put_texts w (List.filter (allows_environment (identity process)) envp) in
  let? (_, w) := put_word w 0 in
  let random_offset := text_cursor w in
  let? s := copy_into (stack w) (Z.to_nat random_offset) (Z.to_nat (random_offset + len random)) random in
  let w := with_stack w s (cursor w) (random_offset + len random) in
  let? (execfn_offset, w) := copy_text w execfn in
  let? w := put_part w is_mapped (lifecycle process) (lifecycle_offset z) in
  let? w := put_part w is_mapped (tls process) (tls_offset z) in
  let? w := put_part w is_mapped (indirect process) (indirect_offset z) in
  let? e0 := part_entry mapped 0 AT_LIFECYCLE_IMAGE (lifecycle process) (lifecycle_offset z) in
  let? e1 := part_entry mapped 1 AT_TLS_IMAGE (tls process) (tls_offset z) in
  let? e2 := part_entry mapped 2 AT_INDIRECT_IMAGE (indirect process) (indirect_offset z) in
  let entries := List.filter (fun x => negb (fst (fst x) =? AT_NULL)) (base_entries (identity process) random_offset execfn_offset)
                 ++ e0 ++ e1 ++ e2 ++ map (fun x => (fst x, snd x, None)) auxiliary ++ [(AT_NULL, 0, None)] in
  let? w := put_auxiliary w (image process) entries in
  if negb (cursor w =? pointer_bytes z) || (stack_length z <? text_cursor w) then Err ImageTooLarge else
  let? s := slice (stack w) 0 (Z.to_nat (stack_length z)) in
  if (relocation_count w <=? List.length (relocations w))%nat then Ok (s, take (relocation_count w) (relocations w)) else Panic.

(** [process_image::encode] of the kernel interface. *)
Context (abi_encode : Z -> list Z -> list Relocation -> list Z -> result C (list Z * Z)).

Definition encode_process (argv envp : list (list Z)) (execfn random : list Z) (auxiliary : list (Z * Z)) (process : Process) (mapped : option Layout) (output : list Z) : res (list Z * Z) :=
  let? (s, r) := initial_stack argv envp execfn random auxiliary process mapped in
  match abi_encode 0 s r output with Ok x => Ok x | Err e => Err (Codec e) | Panic => Panic end.

Definition encode_initial_stack_for_process (argv envp : list (list Z)) (execfn random : list Z) (auxiliary : list (Z * Z)) (process : Process) (output : list Z) : res (list Z * Z) :=
  encode_process argv envp execfn random auxiliary process None output.

Definition encode_initial_stack_with_metadata (argv envp : list (list Z)) (execfn random : list Z) (auxiliary : list (Z * Z)) (process : Process) (mapped : Layout) (output : list Z) : res (list Z * Z) :=
  if negb (Layout_matches mapped process) then Err InvalidText else
  encode_process argv envp execfn random auxiliary process (Some mapped) output.

Definition encode_initial_stack_for_image (argv envp : list (list Z)) (execfn random : list Z) (auxiliary : list (Z * Z)) (image : option Executable) (output : list Z) : res (list Z * Z) :=
  encode_initial_stack_for_process argv envp execfn random auxiliary
    {| image := image; identity := Identity_default; lifecycle := []; tls := []; indirect := [] |} output.

Definition encode_initial_stack_with_aux (argv envp : list (list Z)) (execfn random : list Z) (auxiliary : list (Z * Z)) (output : list Z) : res (list Z * Z) :=
  encode_initial_stack_for_image argv envp execfn random auxiliary None output.

Definition encode_initial_stack (argv envp : list (list Z)) (execfn random output : list Z) : res (list Z * Z) :=
  encode_initial_stack_with_aux argv envp execfn random [] output.

End Code.
