(* ===== verification/StartupStack.v ===== *)
(** * The stack of a new process

    What the writing steps put on the stack; the sizes that [measure_stack] computes, and the words, texts and relocations
    that [initial_stack] returns. *)

From S2P Require Import Prelude Text Fields LaunchParse LaunchContainer LaunchLayout ProcessImage.

(** ** Words with relocations *)

Local Abbreviation entry_word := (Z * option RelocationKind)%type.

Definition words (vs : list Z) : list Z := concat (map (to_le 8) vs).

Fixpoint rels (i : Z) (es : list entry_word) : list Relocation :=
  match es with
  | [] => []
  | (_, Some k) :: es => {| re_offset := 8 * i; re_kind := k |} :: rels (i + 1) es
  | (_, None) :: es => rels (i + 1) es
  end.

Definition texts (l : list (list Z)) : list Z := concat (map (fun t => t ++ [0]) l).
Fixpoint pointers (at_ : Z) (l : list (list Z)) : list entry_word :=
  match l with [] => [] | t :: l => (at_, Some StackAddress) :: pointers (at_ + len t + 1) l end.

Lemma words_length vs : List.length (words vs) = (8 * List.length vs)%nat.
Proof. unfold words. induction vs as [|v vs IH]; [done |]. cbn [map concat]. rewrite length_app, to_le_length, IH. cbn. lia. Qed.
Lemma words_app vs us : words (vs ++ us) = words vs ++ words us.
Proof. unfold words. by rewrite map_app, concat_app. Qed.
Lemma words_one v : words [v] = to_le 8 v.
Proof. unfold words. cbn [map concat]. by rewrite app_nil_r. Qed.
Lemma rels_app es fs : forall i, rels i (es ++ fs) = rels i es ++ rels (i + Z.of_nat (List.length es)) fs.
Proof.
  induction es as [|[v [k|]] es IH]; intros i; cbn [rels app List.length].
  - by rewrite Z.add_0_r.
  - rewrite IH. cbn. do 3 f_equal. lia.
  - rewrite IH. do 2 f_equal. lia.
Qed.
Lemma rels_none i es v : rels i (es ++ [(v, None)]) = rels i es.
Proof. by rewrite rels_app, app_nil_r. Qed.
Lemma texts_app l m : texts (l ++ m) = texts l ++ texts m.
Proof. unfold texts. by rewrite map_app, concat_app. Qed.
Lemma texts_cons t l : texts (t :: l) = t ++ [0] ++ texts l.
Proof. unfold texts. cbn. by rewrite <- app_assoc. Qed.
Lemma pointers_length l : forall a, List.length (pointers a l) = List.length l.
Proof. induction l as [|t l IH]; intros a; cbn; [done |]. by rewrite IH. Qed.
Lemma pointers_rels l : forall a i, List.length (rels i (pointers a l)) = List.length l.
Proof. induction l as [|t l IH]; intros a i; cbn; [done |]. by rewrite IH. Qed.

Lemma len_app (l m : list Z) : len (l ++ m) = len l + len m.
Proof. unfold len. rewrite length_app. lia. Qed.
Lemma len_nonneg (l : list Z) : 0 <= len l.
Proof. unfold len. lia. Qed.
Lemma len_zeros n : len (zeros n) = Z.of_nat n.
Proof. unfold len. by rewrite zeros_length. Qed.
Lemma len_words vs : len (words vs) = 8 * Z.of_nat (List.length vs).
Proof. unfold len. rewrite words_length. lia. Qed.

(** ** The writer *)

Section Writer.
Context {C : Type} (MAX_STACK_BYTES : Z) (MAX_RELOCATIONS : nat).
(** Offsets in a stack are 32-bit numbers. *)
Context (stack_limit : 0 <= MAX_STACK_BYTES <= U32_MAX).
Local Abbreviation res A := (result (EncodeError C) A).
Local Abbreviation M := MAX_STACK_BYTES.

(** [total] relocations are wanted: the only failure is that there is no room for them. *)
Definition yields {A} (total : nat) (r : res A) (Q : A -> Prop) : Prop :=
  match r with Ok a => Q a | Err e => e = ImageTooLarge /\ (MAX_RELOCATIONS < total)%nat | Panic => False end.

Lemma yields_bind {A B} n (r : res A) (k : A -> res B) Q : yields n r (fun a => yields n (k a) Q) -> yields n (let? a := r in k a) Q.
Proof. by destruct r. Qed.
Lemma yields_mono {A} n (r : res A) (Q R : A -> Prop) : yields n r Q -> (forall a, Q a -> R a) -> yields n r R.
Proof. destruct r; cbn; auto. Qed.

(** [es] are the words written so far, [T] what lies behind the [p] bytes for words; the next text goes to [t]. *)
Definition frame (p : Z) (es : list entry_word) (T : list Z) : list Z :=
  words (map fst es) ++ zeros (Z.to_nat (p - 8 * Z.of_nat (List.length es))) ++ T ++ zeros (Z.to_nat (M - p - len T)).

Record wrote (p : Z) (es : list entry_word) (T : list Z) (t : Z) (w : Writer) : Prop := {
  wrote_stack : stack w = frame p es T;
  wrote_cursor : cursor w = 8 * Z.of_nat (List.length es);
  wrote_text : text_cursor w = t;
  wrote_rels : take (relocation_count w) (relocations w) = rels 0 es;
  wrote_count : relocation_count w = List.length (rels 0 es);
  wrote_room : List.length (relocations w) = MAX_RELOCATIONS;
  wrote_words : 8 * Z.of_nat (List.length es) <= p;
  wrote_fits : p + len T <= M }.

Lemma copy_zeros {E} (A R src : list Z) n a e : a = len A -> e = a + len src -> (List.length src <= n)%nat ->
  copy_into (E := E) (A ++ zeros n ++ R) (Z.to_nat a) (Z.to_nat e) src = Ok (A ++ src ++ zeros (n - List.length src) ++ R).
Proof.
  intros -> -> Hn. unfold copy_into, len. rewrite !length_app, zeros_length.
  rewrite (proj2 (Nat.leb_le _ _)) by lia. rewrite (proj2 (Nat.leb_le _ _)) by lia. rewrite (proj2 (Nat.eqb_eq _ _)) by lia. cbn [andb]. f_equal.
  rewrite Nat2Z.id, take_app_length. f_equal. f_equal. replace (Z.to_nat _) with (List.length A + List.length src)%nat by lia.
  rewrite <- drop_drop, drop_app_length, drop_app_le by (rewrite zeros_length; lia). unfold zeros. by rewrite drop_replicate.
Qed.

Lemma frame_length p es T : 8 * Z.of_nat (List.length es) <= p -> p + len T <= M -> len (frame p es T) = M.
Proof. intros H1 H2. unfold frame. rewrite !len_app, !len_zeros, len_words, length_map. pose proof (len_nonneg T). lia. Qed.

(** A word goes to the next place among the words. *)
Lemma put_word_wrote p es T t w v : wrote p es T t w -> 8 * Z.of_nat (List.length es) + 8 <= p ->
  exists w', put_word (C := C) w v = Ok (8 * Z.of_nat (List.length es), w') /\ wrote p (es ++ [(v, None)]) T t w'.
Proof using stack_limit.
  intros [Hs Hc Ht Hr Hn Hm H8 Hp] Hroom. pose proof (len_nonneg T) as HT. unfold put_word. rewrite Hc. unfold checked_add64.
  rewrite (proj2 (Z.leb_le _ _)) by (widths; lia). cbn [ok_or]. unfold put_range. rewrite Hs, frame_length by done.
  rewrite (proj2 (Z.leb_le _ _)) by lia. rewrite (proj2 (Z.leb_le _ _)) by lia. cbn [andb]. unfold frame at 1.
  rewrite copy_zeros; [| by rewrite len_words, length_map | unfold len; rewrite to_le_length; lia | rewrite to_le_length; lia].
  cbv zeta beta. rewrite (proj2 (Z.leb_le _ _)) by (widths; lia). eexists. split; [done |].
  constructor; unfold with_stack; cbn [stack cursor text_cursor relocations relocation_count]; [| rewrite length_app; cbn; lia | done | by rewrite rels_none | by rewrite rels_none | done | rewrite length_app; cbn; lia | done].
  unfold frame. rewrite map_app, words_app, <- app_assoc, length_app. cbn [List.length map fst]. rewrite words_one, to_le_length. do 4 f_equal. lia.
Qed.

(** A word with a relocation. *)
Lemma put_relocated_wrote p es T t w v k n : wrote p es T t w -> 8 * Z.of_nat (List.length es) + 8 <= p -> (List.length (rels 0 es) < n)%nat ->
  yields n (put_relocated_word (C := C) w v k) (wrote p (es ++ [(v, Some k)]) T t).
Proof using stack_limit.
  intros Hw Hroom Hn. destruct (put_word_wrote p es T t w v Hw Hroom) as (w' & E & [Hs Hc Ht Hr Hcn Hm H8 Hp]).
  rewrite rels_none in Hr, Hcn. unfold put_relocated_word. rewrite E. unfold push_relocation.
  destruct (relocations w' !! relocation_count w') as [x|] eqn:El; [| split; [done |]; apply lookup_ge_None in El; lia].
  cbn. rewrite !length_app in *. assert (forall T', frame p (es ++ [(v, Some k)]) T' = frame p (es ++ [(v, None)]) T') as Ef by (intros T'; unfold frame; by rewrite !map_app, !length_app).
  constructor; cbn; rewrite ?length_app, ?Ef, ?length_insert; cbn; try done; try (cbn in *; lia).
  - rewrite rels_app. cbn. apply lookup_lt_Some in El as Hlt. erewrite take_S_r by (by apply list_lookup_insert_eq). rewrite take_insert_ge, Hr by lia. rewrite Z.add_0_l. done.
  - rewrite rels_app, length_app, Hcn. cbn. lia.
Qed.

(** A text goes behind the texts. *)
Lemma copy_text_wrote p es T w t : wrote p es T (p + len T) w -> p + len T + len t + 1 <= M ->
  exists w', copy_text (C := C) w t = Ok (p + len T, w') /\ wrote p es (T ++ t ++ [0]) (p + len (T ++ t ++ [0])) w'.
Proof using stack_limit.
  intros [Hs Hc Ht Hr Hn Hm H8 Hp] Hroom. pose proof (len_nonneg T) as HT. pose proof (len_nonneg t) as Hl. unfold copy_text. rewrite Ht. unfold checked_add64.
  rewrite (proj2 (Z.leb_le _ _)) by (widths; lia). rewrite (proj2 (Z.leb_le _ _)) by (widths; lia). cbn [ok_or]. unfold put_range. rewrite Hs, frame_length by done.
  rewrite (proj2 (Z.leb_le _ _)) by lia. rewrite (proj2 (Z.leb_le _ _)) by lia. cbn [andb]. replace (frame p es T) with ((words (map fst es) ++ zeros (Z.to_nat (p - 8 * Z.of_nat (List.length es))) ++ T) ++ zeros (Z.to_nat (M - p - len T)) ++ []) by (unfold frame; by rewrite app_nil_r, <- !app_assoc).
  assert (List.length (t ++ [0]) = Z.to_nat (len t + 1)) as El by (rewrite length_app; unfold len; cbn; lia).
  rewrite copy_zeros; [| rewrite !len_app, len_zeros, len_words, length_map; lia | rewrite len_app; unfold len; cbn; lia | lia].
  cbv zeta beta. eexists. split; [done |]. assert (len (T ++ t ++ [0]) = len T + len t + 1) as EL by (rewrite !len_app; unfold len; cbn; lia).
  constructor; unfold with_stack; cbn [stack cursor text_cursor relocations relocation_count]; rewrite ?EL; try done; try lia. unfold frame. rewrite EL, El, <- !app_assoc, app_nil_r. do 6 f_equal. lia.
Qed.

Lemma put_texts_wrote l n : forall p es T w, wrote p es T (p + len T) w -> 8 * Z.of_nat (List.length es) + 8 * Z.of_nat (List.length l) <= p -> p + len T + len (texts l) <= M ->
  (List.length (rels 0 es) + List.length l <= n)%nat -> yields n (put_texts (C := C) w l) (wrote p (es ++ pointers (p + len T) l) (T ++ texts l) (p + len (T ++ texts l))).
Proof using stack_limit.
  induction l as [|t l IH]; intros p es T w Hw H1 H2 H3; cbn [put_texts pointers]; [cbn; by rewrite !app_nil_r |]. rewrite texts_cons, !len_app in H2. change (len [0]) with 1 in H2. cbn [List.length] in *.
  pose proof (len_nonneg (texts l)) as Hl. destruct (copy_text_wrote p es T w t Hw) as (w1 & -> & Hw1); [lia |].
  apply yields_bind. apply (yields_mono _ _ _ _ (put_relocated_wrote p es _ _ w1 (p + len T) StackAddress n Hw1 ltac:(lia) ltac:(lia))).
  intros w2 Hw2. assert (len (T ++ t ++ [0]) = len T + len t + 1) as EL by (rewrite !len_app; change (len [0]) with 1; lia).
  specialize (IH p _ _ w2 Hw2). rewrite !length_app, rels_app, length_app in IH. cbn [List.length rels] in IH.
  replace (p + len (T ++ t ++ [0])) with (p + len T + len t + 1) in IH by lia. rewrite texts_cons. rewrite <- !app_assoc in IH. apply IH; lia.
Qed.

(** The auxiliary vector. *)
Definition aux_words (image : option Executable) (x : Z * Z * option RelocationKind) : list entry_word :=
  let '(key, value, relocation) := override image x in [(key, None); (value, relocation)].

Lemma put_auxiliary_wrote image l n : forall p es T t w, wrote p es T t w -> 8 * Z.of_nat (List.length es) + 16 * Z.of_nat (List.length l) <= p ->
  (List.length (rels 0 (es ++ concat (map (aux_words image) l))) <= n)%nat -> yields n (put_auxiliary (C := C) w image l) (wrote p (es ++ concat (map (aux_words image) l)) T t).
Proof using stack_limit.
  induction l as [|x l IH]; intros p es T t w Hw H1 H2; cbn [put_auxiliary map concat]; [cbn; by rewrite app_nil_r |]. cbn [map concat List.length] in *. unfold aux_words in H2 at 1. unfold aux_words at 1.
  destruct (override image x) as [[key value] r]. destruct (put_word_wrote p es T t w key Hw) as (w1 & -> & Hw1); [lia |]. rewrite app_assoc in H2 |- *.
  apply yields_bind. assert (yields n (match r with Some kind => put_relocated_word w1 value kind | None => let? (_, w) := put_word w1 value in Ok w end) (wrote p (es ++ [(key, None); (value, r)]) T t)) as Hs.
  { destruct r as [k|].
    - replace (es ++ [(key, None); (value, Some k)]) with ((es ++ [(key, None)]) ++ [(value, Some k)]) in H2 |- * by (by rewrite <- app_assoc).
      rewrite rels_app, length_app in H2. rewrite rels_app, length_app in H2. apply put_relocated_wrote; [done | rewrite length_app; cbn; lia |]. cbn in H2. lia.
    - destruct (put_word_wrote p _ T t w1 value Hw1) as (w2 & -> & Hw2); [rewrite length_app; cbn; lia |]. cbn. by rewrite <- app_assoc in Hw2. }
  apply (yields_mono _ _ _ _ Hs). intros w2 Hw2. apply IH; [done | rewrite length_app; cbn; lia | done].
Qed.

(** Bytes behind the texts, at an offset of their own. *)
Lemma copy_part_wrote p es T t w part o : wrote p es T t w -> p + len T <= o -> o + len part <= M -> forall t',
  exists s, copy_into (E := EncodeError C) (stack w) (Z.to_nat o) (Z.to_nat (o + len part)) part = Ok s /\
    wrote p es (T ++ zeros (Z.to_nat (o - p - len T)) ++ part) t' (with_stack w s (cursor w) t').
Proof using stack_limit.
  intros [Hs Hc Ht Hr Hn Hm H8 Hp] Ho Hroom t'. pose proof (len_nonneg T) as HT. pose proof (len_nonneg part) as Hl.
  set (g := Z.to_nat (o - p - len T)). assert (frame p es T = (words (map fst es) ++ zeros (Z.to_nat (p - 8 * Z.of_nat (List.length es))) ++ T ++ zeros g) ++ zeros (Z.to_nat (M - o)) ++ []) as Ef.
  { unfold frame. rewrite app_nil_r, <- !app_assoc. do 3 f_equal. unfold zeros. rewrite <- replicate_add. f_equal. lia. }
  rewrite Hs, Ef. rewrite copy_zeros; [| rewrite !len_app, !len_zeros, len_words, length_map; lia | done | unfold len in *; lia].
  eexists. split; [done |]. assert (len (T ++ zeros g ++ part) = o - p + len part) as EL by (rewrite !len_app, len_zeros; lia).
  constructor; unfold with_stack; cbn [stack cursor text_cursor relocations relocation_count]; rewrite ?EL; try done; try lia.
  unfold frame. rewrite EL, <- !app_assoc, app_nil_r. do 6 f_equal. unfold len. lia.
Qed.

(** The part that [put_part] adds. *)
Definition part_bytes (mapped : bool) (part : list Z) (p o : Z) (T : list Z) : list Z := if is_empty part || mapped then [] else zeros (Z.to_nat (o - p - len T)) ++ part.

Lemma put_part_wrote p es T t w mapped part o : wrote p es T t w -> (is_empty part || mapped = false -> p + len T <= o /\ o + len part <= M) ->
  exists w', put_part (C := C) w mapped part o = Ok w' /\ wrote p es (T ++ part_bytes mapped part p o T) t w'.
Proof using stack_limit.
  intros Hw Ho. unfold put_part, part_bytes. destruct (is_empty part || mapped); [exists w; by rewrite app_nil_r |]. destruct Ho as [Ho1 Ho2]; [done |].
  destruct (copy_part_wrote p es T t w part o Hw Ho1 Ho2 (text_cursor w)) as (s & -> & Hs). eexists. split; [done |]. by rewrite (wrote_text _ _ _ _ _ Hw) in Hs |- *.
Qed.

End Writer.

(** ** The stack that is built *)

(** ** Rounding and sums *)

Definition rup (a n : Z) : Z := (n + (a - 1)) / a * a.

Lemma rup_ge a n : 0 < a -> n <= rup a n < n + a.
Proof. intros Ha. unfold rup. pose proof (Z.mod_pos_bound (n + (a - 1)) a Ha). pose proof (Z.div_mod (n + (a - 1)) a ltac:(lia)). lia. Qed.
Lemma rup_multiple a n : 0 < a -> rup a n mod a = 0.
Proof. intros Ha. unfold rup. apply Z.mod_mul. lia. Qed.

Lemma round_up_Some k n : 0 <= k -> round_up n (2 ^ k) = if n + (2 ^ k - 1) <=? U64_MAX then Some (rup (2 ^ k) n) else None.
Proof. intros Hk. unfold round_up, checked_add64, rup. destruct (n + (2 ^ k - 1) <=? U64_MAX); [| done]. by rewrite land_lnot_ones. Qed.

Definition zsum (l : list Z) : Z := foldr Z.add 0 l.

Lemma zsum_nonneg l : Forall (Z.le 0) l -> 0 <= zsum l.
Proof. unfold zsum. induction 1; cbn; lia. Qed.

Lemma checked_sum_spec l : Forall (Z.le 0) l -> checked_sum l = if zsum l <=? U64_MAX then Some (zsum l) else None.
Proof.
  intros Hl. unfold checked_sum. assert (forall a, 0 <= a <= U64_MAX -> foldl (fun acc x => match acc with Some a => checked_add64 a x | None => None end) (Some a) l =
    if a + zsum l <=? U64_MAX then Some (a + zsum l) else None) as H; [| rewrite (H 0); [done | widths; lia]].
  assert (foldl (fun acc x => match acc with Some a => checked_add64 a x | None => None end) None l = None) as Hn by (clear; induction l; cbn; done).
  revert Hn. induction Hl as [|x l Hx Hl IH]; intros Hn a Ha; cbn [foldl zsum foldr] in *.
  - rewrite Z.add_0_r. by rewrite (proj2 (Z.leb_le _ _)) by lia.
  - fold (zsum l). pose proof (zsum_nonneg l Hl). unfold checked_add64 at 2. destruct (a + x <=? U64_MAX) eqn:E; bool_cases.
    + rewrite (IH Hn) by lia. by rewrite Z.add_assoc.
    + rewrite Hn. by rewrite (proj2 (Z.leb_gt _ _)) by lia.
Qed.

(** ** Sizes *)

Section Build.
Context {C : Type}.
Local Abbreviation res A := (result (EncodeError C) A).
Context (argv envp : list (list Z)) (execfn random : list Z) (auxiliary : list (Z * Z)) (process : Process) (mapped : bool).

Definition environment : list (list Z) := List.filter (allows_environment (identity process)) envp.
Definition texts_ok : Prop := Forall (fun t => contains_char 0 t = false) argv /\ Forall (fun t => contains_char 0 t = false) envp.

Definition aux_count : Z := Z.of_nat (List.length auxiliary) + 18 + some_part (lifecycle process) + some_part (tls process) + some_part (indirect process).
Definition words_size : Z := 8 * (3 + Z.of_nat (List.length argv) + Z.of_nat (List.length environment) + 2 * aux_count).
Definition plain_size : Z := words_size + len (texts argv) + len (texts environment) + len random + len execfn + 1.
Definition behind (part : list Z) (before : Z) : Z := if is_empty part || mapped then before else rup 8 before + len part.
Definition lifecycle_at : Z := rup 8 plain_size.
Definition lifecycle_to : Z := behind (lifecycle process) plain_size.
Definition tls_at : Z := rup 8 lifecycle_to.
Definition tls_to : Z := behind (tls process) lifecycle_to.
Definition indirect_at : Z := rup 8 tls_to.
Definition indirect_to : Z := behind (indirect process) tls_to.
Definition stack_size : Z := rup 16 indirect_to.

(** A step of the computation: it fails for a text with a zero byte, or when the stack would not fit the address space. *)
Definition sized {A} (r : res A) (Q : A -> Prop) : Prop :=
  match r with Ok a => Q a | Err InvalidText => ~ texts_ok | Err ImageTooLarge => U64_MAX < stack_size | _ => False end.

Lemma sized_bind {A B} (r : res A) (k : A -> res B) Q : sized r (fun a => sized (k a) Q) -> sized (let? a := r in k a) Q.
Proof. by destruct r. Qed.
Lemma sized_add a b Q : a + b <= stack_size -> (a + b <= U64_MAX -> Q (a + b)) -> sized (ok_or (checked_add64 a b) ImageTooLarge) Q.
Proof. intros Hs HQ. unfold checked_add64. destruct (a + b <=? U64_MAX) eqn:E; bool_cases; cbn; [auto | lia]. Qed.
Lemma sized_round k n Q : 0 <= k -> (U64_MAX + 1) mod 2 ^ k = 0 -> rup (2 ^ k) n <= stack_size -> Q (rup (2 ^ k) n) -> sized (ok_or (round_up n (2 ^ k)) ImageTooLarge) Q.
Proof.
  intros Hk Hm Hs HQ. rewrite round_up_Some by done. destruct (n + (2 ^ k - 1) <=? U64_MAX) eqn:E; bool_cases; cbn; [auto |].
  assert (0 < 2 ^ k) as Hp by lia. enough (U64_MAX + 1 <= rup (2 ^ k) n) by lia. unfold rup. apply Z.div_exact in Hm; [| lia]. rewrite Hm, Z.mul_comm. apply Z.mul_le_mono_nonneg_r; [lia |]. apply Z.div_le_mono; lia.
Qed.
Lemma sized_sum l Q : Forall (Z.le 0) l -> zsum l <= stack_size -> (zsum l <= U64_MAX -> Q (zsum l)) -> sized (ok_or (checked_sum l) ImageTooLarge) Q.
Proof. intros Hl Hs HQ. rewrite checked_sum_spec by done. destruct (zsum l <=? U64_MAX) eqn:E; bool_cases; cbn; [auto | lia]. Qed.

Lemma some_part_range (l : list Z) : 0 <= some_part l <= 1.
Proof. unfold some_part. destruct (is_empty l); lia. Qed.
Lemma aux_count_nonneg : 18 <= aux_count.
Proof. unfold aux_count. pose proof (some_part_range (lifecycle process)). pose proof (some_part_range (tls process)). pose proof (some_part_range (indirect process)). lia. Qed.
Lemma behind_ge part before : before <= behind part before.
Proof. unfold behind. pose proof (rup_ge 8 before ltac:(lia)). pose proof (len_nonneg part). destruct (is_empty part || mapped); lia. Qed.
Lemma rup_behind part before : rup 8 before <= rup 8 (behind part before).
Proof. unfold rup. apply Z.mul_le_mono_nonneg_r; [lia |]. apply Z.div_le_mono; [lia |]. pose proof (behind_ge part before). lia. Qed.

Lemma sizes_order : 0 < words_size /\ words_size <= plain_size /\ plain_size <= lifecycle_at /\ plain_size <= lifecycle_to /\ lifecycle_to <= tls_at /\ lifecycle_to <= tls_to /\ tls_to <= indirect_at /\ tls_to <= indirect_to /\ indirect_to <= stack_size.
Proof.
  pose proof aux_count_nonneg. assert (plain_size = words_size + len (texts argv) + len (texts environment) + len random + len execfn + 1) as Ep by done. unfold words_size in *. unfold lifecycle_at, lifecycle_to, tls_at, tls_to, indirect_at, indirect_to, stack_size.
  pose proof (len_nonneg (texts argv)). pose proof (len_nonneg (texts environment)). pose proof (len_nonneg random). pose proof (len_nonneg execfn).
  split_and!; try lia; try apply behind_ge; apply rup_ge; lia.
Qed.

Lemma rup_8_16 n : rup 8 n <= rup 16 n.
Proof. unfold rup. divlia. Qed.
Lemma at_bounds : lifecycle_at <= stack_size /\ tls_at <= stack_size /\ indirect_at <= stack_size.
Proof.
  pose proof (rup_behind (lifecycle process) plain_size) as H1. pose proof (rup_behind (tls process) lifecycle_to) as H2. pose proof (rup_behind (indirect process) tls_to) as H3. pose proof (rup_8_16 indirect_to) as H4.
  fold lifecycle_to in H1. fold lifecycle_at tls_at in H1. fold tls_to tls_at indirect_at in H2. fold indirect_to indirect_at in H3. fold stack_size in H4. lia.
Qed.

Lemma part_end_sized part before Q : behind part before <= stack_size -> Q (behind part before) -> sized (part_end mapped part before (rup 8 before)) Q.
Proof. unfold part_end, behind. intros Hs HQ. destruct (is_empty part || mapped); [done |]. by apply sized_add. Qed.

Lemma text_step_Err l (e : EncodeError C) : foldl text_step (Err e) l = Err e.
Proof. by induction l. Qed.

Lemma text_size_sized l : forall Q a, incl l argv -> 0 <= a -> a + len (texts l) <= stack_size -> (Forall (fun t => contains_char 0 t = false) l -> Q (a + len (texts l))) ->
  sized (foldl text_step (Ok a) l) Q.
Proof.
  induction l as [|t l IH]; intros Q a Hi H0 Hs HQ; cbn [foldl]; [cbn in *; rewrite Z.add_0_r in HQ; by apply HQ |].
  rewrite texts_cons, !len_app in Hs, HQ. change (len [0]) with 1 in *. pose proof (len_nonneg t). pose proof (len_nonneg (texts l)). unfold text_step at 2.
  destruct (contains_char 0 t) eqn:E; [rewrite text_step_Err; cbn; intros [Ha _]; rewrite Forall_forall in Ha; specialize (Ha t (proj2 (list_elem_of_In _ _) (Hi t (or_introl eq_refl)))); congruence |].
  unfold checked_add64. destruct (a + len t <=? U64_MAX) eqn:E1; bool_cases; [destruct (a + len t + 1 <=? U64_MAX) eqn:E2; bool_cases |]; cbn [ok_or]; [| rewrite text_step_Err; cbn; lia | rewrite text_step_Err; cbn; lia].
  apply IH; [intros x Hx; apply Hi; by right | lia | lia |]. intros Hl. replace (a + len t + 1 + len (texts l)) with (a + (len t + (1 + len (texts l)))) by lia. apply HQ. by constructor.
Qed.

Lemma environment_sized l n b Q : incl l envp -> 0 <= b -> b + len (texts (List.filter (allows_environment (identity process)) l)) <= stack_size ->
  (Forall (fun t => contains_char 0 t = false) l -> Q (n + Z.of_nat (List.length (List.filter (allows_environment (identity process)) l)), b + len (texts (List.filter (allows_environment (identity process)) l)))) ->
  sized (measure_environment (identity process) l n b) Q.
Proof.
  revert n b Q. induction l as [|t l IH]; intros n b Q Hi Hb Hs HQ; cbn [measure_environment List.filter] in *.
  - cbn in *. rewrite !Z.add_0_r in HQ. by apply HQ.
  - destruct (contains_char 0 t) eqn:E; [cbn; intros [_ Ha]; rewrite Forall_forall in Ha; specialize (Ha t (proj2 (list_elem_of_In _ _) (Hi t (or_introl eq_refl)))); congruence |].
    assert (incl l envp) as Hi' by (intros x Hx; apply Hi; by right). destruct (allows_environment (identity process) t).
    + rewrite texts_cons, !len_app in Hs, HQ. change (len [0]) with 1 in *. cbn [List.length] in HQ. set (f := List.filter _ l) in *. pose proof (len_nonneg t). pose proof (len_nonneg (texts f)).
      unfold checked_add64. destruct (b + len t <=? U64_MAX) eqn:E1; bool_cases; [destruct (b + len t + 1 <=? U64_MAX) eqn:E2; bool_cases |]; cbn [ok_or]; [| cbn; lia | cbn; lia].
      apply IH; [done | lia | lia |]. intros Hl. replace (n + 1 + Z.of_nat (List.length f)) with (n + Z.of_nat (S (List.length f))) by lia. replace (b + len t + 1 + len (texts f)) with (b + (len t + (1 + len (texts f)))) by lia. apply HQ. by constructor.
    + apply IH; [done | lia | lia |]. intros Hl. apply HQ. by constructor.
Qed.

Lemma measure_stack_sized : sized (measure_stack argv envp execfn random auxiliary process mapped)
  (fun z => z = {| pointer_bytes := words_size; lifecycle_offset := lifecycle_at; tls_offset := tls_at; indirect_offset := indirect_at; stack_length := stack_size |} /\ texts_ok).
Proof.
  destruct sizes_order as (O1 & O2 & O3 & O4 & O5 & O6 & O7 & O8 & O9). destruct at_bounds as (A1 & A2 & A3). pose proof aux_count_nonneg as Hac.
  pose proof (len_nonneg (texts argv)). pose proof (len_nonneg (texts environment)). pose proof (len_nonneg random). pose proof (len_nonneg execfn).
  pose proof (some_part_range (lifecycle process)). pose proof (some_part_range (tls process)). pose proof (some_part_range (indirect process)).
  assert (plain_size = words_size + len (texts argv) + len (texts environment) + len random + len execfn + 1) as Ep by done.
  unfold measure_stack. apply sized_bind. unfold checked_text_size. apply text_size_sized; [apply incl_refl | lia | lia |]. rewrite Z.add_0_l. intros Ha.
  apply sized_bind, environment_sized; [apply incl_refl | lia | fold environment; lia |]. fold environment. intros He. cbn beta iota.
  apply sized_bind. rewrite checked_sum_spec by (repeat constructor; lia). cbn [zsum foldr]. rewrite !Z.add_0_l.
  assert (words_size = 8 * (3 + Z.of_nat (List.length argv) + Z.of_nat (List.length environment) + 2 * aux_count)) as Ew by done.
  destruct (_ <=? U64_MAX) eqn:E1; bool_cases; [| cbn; lia]. rewrite checked_sum_spec by (repeat constructor; unfold AUXILIARY_VECTOR_ENTRIES; lia). cbn [zsum foldr].
  set (c := Z.of_nat (List.length auxiliary) + _). assert (c = aux_count) as -> by (subst c; unfold aux_count, AUXILIARY_VECTOR_ENTRIES; lia).
  destruct (aux_count <=? U64_MAX) eqn:E2; bool_cases; [| cbn; lia]. unfold checked_mul64. destruct (aux_count * 2 <=? U64_MAX) eqn:E3; bool_cases; [| cbn; lia].
  apply sized_add; [lia |]. intros _. apply sized_bind. set (q := _ + aux_count * 2). assert (q * 8 = words_size) as -> by (subst q; lia). destruct (words_size <=? U64_MAX) eqn:E4; bool_cases; [| cbn; lia]. cbn [ok_or sized].
  apply sized_bind, sized_sum; [repeat constructor; lia | cbn; lia |]. intros _. cbn [zsum foldr]. set (u := words_size + _). assert (u = plain_size) as -> by (subst u; lia).
  apply sized_bind, (sized_round 3); [lia | done | exact A1 |]. change (rup (2 ^ 3) plain_size) with lifecycle_at.
  apply sized_bind, part_end_sized; [fold lifecycle_to; lia |]. fold lifecycle_to.
  apply sized_bind, (sized_round 3); [lia | done | exact A2 |]. change (rup (2 ^ 3) lifecycle_to) with tls_at.
  apply sized_bind, part_end_sized; [fold tls_to; lia |]. fold tls_to.
  apply sized_bind, (sized_round 3); [lia | done | exact A3 |]. change (rup (2 ^ 3) tls_to) with indirect_at.
  apply sized_bind, part_end_sized; [fold indirect_to; lia |]. fold indirect_to.
  apply sized_bind, (sized_round 4); [lia | done | done |]. cbn. split; [done |]. by split.
Qed.

End Build.

(** ** Checks *)

Definition aux_ok (auxiliary : list (Z * Z)) : Prop := Forall (fun x => reserved_key (fst x) = false) auxiliary /\ NoDup (map fst auxiliary).

Lemma existsb_key (k : Z) l : existsb (fun other : Z * Z => fst other =? k) l = bool_decide (k ∈ map fst l).
Proof.
  apply eq_true_iff_eq. rewrite bool_decide_eq_true, existsb_exists, list_elem_of_In, in_map_iff. split; intros (x & H1 & H2).
  - exists x. split; [lia | done].
  - exists x. split; [done | lia].
Qed.

Lemma check_auxiliary_spec {C} aux : forall before, check_auxiliary (C := C) before aux = Ok tt /\ (NoDup (map fst before) -> aux_ok aux /\ NoDup (map fst (before ++ aux)))
  \/ check_auxiliary (C := C) before aux = Err InvalidText /\ ~ (aux_ok aux /\ NoDup (map fst (before ++ aux))).
Proof.
  induction aux as [|[k v] aux IH]; intros before; cbn [check_auxiliary].
  - left. split; [done |]. rewrite app_nil_r. intros Hb. split; [split; constructor | done].
  - rewrite existsb_key. destruct (reserved_key k) eqn:E; cbn [orb]; [right; split; [done |]; intros [[Ha _] _]; apply Forall_cons in Ha as [Ha _]; cbn in Ha; congruence |].
    case_bool_decide as Hk; [right; split; [done |]; intros [_ Hn]; rewrite map_app in Hn; apply NoDup_app in Hn as (_ & Hn & _); apply (Hn k Hk); left |].
    destruct (IH (before ++ [(k, v)])) as [[-> H]|[-> H]]; rewrite <- app_assoc in H; cbn [app] in H.
    + left. split; [done |]. intros Hb. destruct H as [[H1 H2] H3]; [rewrite map_app; apply NoDup_app; split_and!; [done | intros x Hx; cbn; rewrite list_elem_of_singleton; congruence | apply NoDup_singleton] |].
      split; [| done]. rewrite map_app in H3. apply NoDup_app in H3 as (_ & _ & H3). split; [by constructor | done].
    + right. split; [done |]. intros [[H1 H2] H3]. apply H. apply Forall_cons in H1 as [_ H1]. cbn in H2. apply NoDup_cons in H2 as [_ H2]. done.
Qed.

Lemma check_auxiliary_Ok {C} aux : match check_auxiliary (C := C) [] aux with Ok _ => aux_ok aux | Err e => e = InvalidText /\ ~ aux_ok aux | Panic => False end.
Proof.
  destruct (check_auxiliary_spec (C := C) aux []) as [[-> H]|[-> H]]; [by apply H; constructor |]. split; [done |]. intros Ha. apply H. split; [done | apply Ha].
Qed.

(** ** The whole stack *)

Section Stack.
Context {C : Type} (MAX_STACK_BYTES : Z) (MAX_RELOCATIONS : nat) (stack_limit : 0 <= MAX_STACK_BYTES <= U32_MAX).
Context (argv envp : list (list Z)) (execfn random : list Z) (auxiliary : list (Z * Z)) (process : Process) (mapped : option Layout).
Local Abbreviation is_mapped := (match mapped with Some _ => true | None => false end).
Local Abbreviation p := (words_size argv envp auxiliary process).
Local Abbreviation env := (environment envp process).
Local Abbreviation at0 := (lifecycle_at argv envp execfn random auxiliary process).
Local Abbreviation at1 := (tls_at argv envp execfn random auxiliary process is_mapped).
Local Abbreviation at2 := (indirect_at argv envp execfn random auxiliary process is_mapped).
Local Abbreviation size := (stack_size argv envp execfn random auxiliary process is_mapped).

Definition inputs_ok : Prop := argv <> [] /\ aux_ok auxiliary /\ contains_char 0 execfn = false /\ texts_ok argv envp.

Definition random_at : Z := p + len (texts argv ++ texts env).
Definition execfn_at : Z := p + len ((texts argv ++ texts env) ++ random).
Definition plain_bytes : list Z := ((texts argv ++ texts env) ++ random) ++ execfn ++ [0].
Definition bytes1 : list Z := plain_bytes ++ part_bytes is_mapped (lifecycle process) p at0 plain_bytes.
Definition bytes2 : list Z := bytes1 ++ part_bytes is_mapped (tls process) p at1 bytes1.
Definition bytes3 : list Z := bytes2 ++ part_bytes is_mapped (indirect process) p at2 bytes2.

(** The address of mapped metadata. *)
Definition mapped_address (i : nat) : option Z :=
  match mapped with
  | Some m => match spans m !! i with Some (a, n) => if n =? 0 then None else Some (base m + a) | None => None end
  | None => None
  end.
Definition part_entries (i : nat) (key : Z) (part : list Z) (offset : Z) : list (Z * Z * option RelocationKind) :=
  if is_empty part then [] else [(key, default offset (mapped_address i), match mapped with Some _ => None | None => Some StackAddress end)].
Definition all_entries : list (Z * Z * option RelocationKind) :=
  List.filter (fun x => negb (fst (fst x) =? AT_NULL)) (base_entries (identity process) random_at execfn_at)
  ++ part_entries 0 AT_LIFECYCLE_IMAGE (lifecycle process) at0 ++ part_entries 1 AT_TLS_IMAGE (tls process) at1 ++ part_entries 2 AT_INDIRECT_IMAGE (indirect process) at2
  ++ map (fun x => (fst x, snd x, None)) auxiliary ++ [(AT_NULL, 0, None)].
Definition all_words : list (Z * option RelocationKind) :=
  [(Z.of_nat (List.length argv), None)] ++ pointers p argv ++ [(0, None)] ++ pointers (p + len (texts argv)) env ++ [(0, None)]
  ++ concat (map (aux_words (image process)) all_entries).

Definition layout_safe : Prop := forall m i a n, mapped = Some m -> spans m !! i = Some (a, n) -> n <> 0 -> base m + a <= U64_MAX.

Lemma part_entry_Ok i key part offset : layout_safe -> part_entry (C := C) mapped i key part offset = Ok (part_entries i key part offset).
Proof.
  intros Hl. unfold part_entry, part_entries, mapped_address. destruct mapped as [m|] eqn:Em; [| done]. unfold Layout_address. destruct (spans m !! i) as [[a n]|] eqn:Es; [| done].
  destruct (n =? 0) eqn:En; bool_cases; [done |]. unfold add64. rewrite (proj2 (Z.leb_le _ _)); [done |]. by apply (Hl m i a n).
Qed.

Lemma part_entries_length i key part offset : Z.of_nat (List.length (part_entries i key part offset)) = some_part part.
Proof. unfold part_entries, some_part. by destruct (is_empty part). Qed.
Lemma entries_length : Z.of_nat (List.length all_entries) = aux_count auxiliary process.
Proof. unfold all_entries, aux_count. rewrite !length_app, length_map, !Nat2Z.inj_add, !part_entries_length. cbn. lia. Qed.
Lemma aux_words_length l : List.length (concat (map (aux_words (image process)) l)) = (2 * List.length l)%nat.
Proof. induction l as [|x l IH]; [done |]. cbn [map concat]. rewrite length_app, IH. unfold aux_words. destruct (override _ x) as [[? ?] ?]. cbn. lia. Qed.
Lemma all_words_length : 8 * Z.of_nat (List.length all_words) = p.
Proof. unfold all_words, words_size. rewrite !length_app, !pointers_length, aux_words_length. pose proof entries_length. cbn [List.length]. lia. Qed.

Lemma plain_length : p + len plain_bytes = plain_size argv envp execfn random auxiliary process.
Proof. unfold plain_bytes, plain_size. rewrite !len_app. change (len [0]) with 1. lia. Qed.

Lemma part_bytes_length part o T before : p + len T = before -> o = rup 8 before -> p + len (T ++ part_bytes is_mapped part p o T) = behind is_mapped part before.
Proof.
  intros Hb ->. unfold part_bytes, behind. rewrite len_app. destruct (is_empty part || is_mapped); [unfold len at 2; cbn; lia |].
  rewrite len_app, len_zeros. pose proof (rup_ge 8 before ltac:(lia)). lia.
Qed.
Lemma bytes1_length : p + len bytes1 = lifecycle_to argv envp execfn random auxiliary process is_mapped.
Proof. apply part_bytes_length; [apply plain_length | done]. Qed.
Lemma bytes2_length : p + len bytes2 = tls_to argv envp execfn random auxiliary process is_mapped.
Proof. apply part_bytes_length; [apply bytes1_length | done]. Qed.
Lemma bytes3_length : p + len bytes3 = indirect_to argv envp execfn random auxiliary process is_mapped.
Proof. apply part_bytes_length; [apply bytes2_length | done]. Qed.

Local Abbreviation total := (List.length (rels 0 all_words)).
Local Abbreviation M := MAX_STACK_BYTES.
Local Abbreviation holds := (wrote M MAX_RELOCATIONS p).

Lemma empty_wrote : p <= M -> holds [] [] p (empty_writer M MAX_RELOCATIONS p).
Proof.
  intros Hp. pose proof (sizes_order argv envp execfn random auxiliary process is_mapped) as (Hpos & _). unfold empty_writer.
  constructor; cbn [stack cursor text_cursor relocations relocation_count rels List.length map]; try done; try lia; [| by rewrite length_replicate | unfold len; cbn; lia].
  unfold frame. cbn. unfold zeros. rewrite <- replicate_add. f_equal. unfold len. cbn. lia.
Qed.

(** A prefix of the words needs no more relocations than all of them. *)
Lemma rels_prefix es fs : (List.length (rels 0 es) <= List.length (rels 0 (es ++ fs)))%nat.
Proof. rewrite rels_app, length_app. lia. Qed.

Definition words1 : list (Z * option RelocationKind) := [(Z.of_nat (List.length argv), None)] ++ pointers p argv.
Definition words2 : list (Z * option RelocationKind) := words1 ++ [(0, None)] ++ pointers (p + len (texts argv)) env ++ [(0, None)].
Lemma all_words_eq : all_words = words2 ++ concat (map (aux_words (image process)) all_entries).
Proof. unfold all_words, words2, words1. by rewrite <- !app_assoc. Qed.
Lemma words2_length : 8 * Z.of_nat (List.length words2) + 16 * Z.of_nat (List.length all_entries) = p.
Proof. pose proof all_words_length as H. rewrite all_words_eq, length_app, aux_words_length in H. lia. Qed.
Lemma words2_rels : (List.length argv + List.length env <= List.length (rels 0 words2))%nat.
Proof. unfold words2, words1. rewrite !rels_app, !length_app, !pointers_rels. lia. Qed.

(** The vectors of arguments and environment, with their texts. *)
Lemma vectors_written (k : Writer -> result (EncodeError C) (list Z * list Relocation)) R : p + len (texts argv) + len (texts env) <= M ->
  (forall w, holds words2 (texts argv ++ texts env) random_at w -> yields MAX_RELOCATIONS total (k w) R) ->
  yields MAX_RELOCATIONS total (let? (_, w) := put_word (empty_writer M MAX_RELOCATIONS p) (Z.of_nat (List.length argv)) in
    let? w := put_texts w argv in let? (_, w) := put_word w 0 in let? w := put_texts w env in let? (_, w) := put_word w 0 in k w) R.
Proof using stack_limit.
  intros Hfit Hk. pose proof (len_nonneg (texts argv)) as L1. pose proof (len_nonneg (texts env)) as L2. pose proof words2_length as Hw2. unfold words2 in Hw2. rewrite !length_app, pointers_length in Hw2. unfold words1 in Hw2. rewrite length_app, pointers_length in Hw2. cbn [List.length] in Hw2.
  pose proof words2_rels as Hr2. assert (List.length (rels 0 words2) <= total)%nat as Ht by (rewrite all_words_eq; apply rels_prefix).
  destruct (put_word_wrote (C := C) M MAX_RELOCATIONS stack_limit p [] [] p _ (Z.of_nat (List.length argv)) (empty_wrote ltac:(lia))) as (w1 & -> & H1); [cbn; lia |]. cbn [app] in H1.
  apply yields_bind. apply (yields_mono _ _ _ _ _ (put_texts_wrote (C := C) M MAX_RELOCATIONS stack_limit argv total p _ [] w1 ltac:(by rewrite Z.add_0_r) ltac:(cbn [List.length]; lia) ltac:(change (len []) with 0; lia) ltac:(cbn [rels List.length Nat.add]; lia))).
  intros w2 H2. change (len []) with 0 in H2. rewrite Z.add_0_r in H2. change ([] ++ texts argv) with (texts argv) in H2. fold words1 in H2.
  destruct (put_word_wrote (C := C) M MAX_RELOCATIONS stack_limit p _ _ _ w2 0 H2) as (w3 & -> & H3); [unfold words1; rewrite length_app, pointers_length; cbn; lia |].
  apply yields_bind. apply (yields_mono _ _ _ _ _ (put_texts_wrote (C := C) M MAX_RELOCATIONS stack_limit env total p _ _ w3 H3 ltac:(unfold words1; rewrite !length_app, pointers_length; cbn; lia) ltac:(lia) ltac:(rewrite rels_none; unfold words1; rewrite rels_app, length_app, pointers_rels; cbn [rels List.length Nat.add]; lia))).
  intros w4 H4. destruct (put_word_wrote (C := C) M MAX_RELOCATIONS stack_limit p _ _ _ w4 0 H4) as (w5 & -> & H5); [unfold words1; rewrite !length_app, !pointers_length; cbn; lia |].
  apply Hk. unfold words2, random_at. by rewrite <- !app_assoc in H5.
Qed.

(** The random bytes, the name of the executable and the metadata. *)
Lemma tail_written (k : Z -> Writer -> result (EncodeError C) (list Z * list Relocation)) w R : holds words2 (texts argv ++ texts env) random_at w -> size <= M ->
  (forall w', holds words2 bytes3 (p + len plain_bytes) w' -> yields MAX_RELOCATIONS total (k execfn_at w') R) ->
  yields MAX_RELOCATIONS total (
    let? s := copy_into (stack w) (Z.to_nat random_at) (Z.to_nat (random_at + len random)) random in
    let w := with_stack w s (cursor w) (random_at + len random) in
    let? (execfn_offset, w) := copy_text w execfn in
    let? w := put_part w is_mapped (lifecycle process) at0 in
    let? w := put_part w is_mapped (tls process) at1 in
    let? w := put_part w is_mapped (indirect process) at2 in k execfn_offset w) R.
Proof using stack_limit.
  intros Hw Hsz Hk. destruct (sizes_order argv envp execfn random auxiliary process is_mapped) as (O1 & O2 & O3 & O4 & O5 & O6 & O7 & O8 & O9).
  pose proof plain_length as Lp. unfold plain_bytes in Lp. rewrite len_app, (len_app execfn) in Lp. change (len [0]) with 1 in Lp. pose proof (len_nonneg execfn) as Le. pose proof (len_nonneg random) as Lr.
  assert (p + len (texts argv ++ texts env) + len random = execfn_at) as Ex by (unfold execfn_at; rewrite (len_app _ random); lia).
  destruct (copy_part_wrote (C := C) M MAX_RELOCATIONS stack_limit p words2 _ _ w random random_at Hw ltac:(unfold random_at; lia) ltac:(unfold random_at, execfn_at in *; lia) (random_at + len random)) as (s & -> & Hs).
  replace (zeros (Z.to_nat (random_at - p - len (texts argv ++ texts env)))) with (@nil Z) in Hs by (unfold random_at; by replace (p + _ - p - _) with 0 by lia). cbn [app] in Hs.
  replace (random_at + len random) with (p + len ((texts argv ++ texts env) ++ random)) in Hs |- * by (unfold random_at; rewrite (len_app _ random); lia). cbv zeta.
  destruct (copy_text_wrote (C := C) M MAX_RELOCATIONS stack_limit p words2 _ _ execfn Hs) as (w1 & -> & H1); [lia |]. fold execfn_at. fold plain_bytes in H1.
  pose proof bytes1_length as B1. pose proof bytes2_length as B2. pose proof bytes3_length as B3. pose proof plain_length as B0.
  assert (forall part before, is_empty part || is_mapped = false -> behind is_mapped part before = rup 8 before + len part) as Hb by (intros part before E; unfold behind; by rewrite E).
  destruct (put_part_wrote (C := C) M MAX_RELOCATIONS stack_limit p words2 _ _ w1 is_mapped (lifecycle process) at0 H1) as (w2 & -> & H2); [intros E; specialize (Hb _ (plain_size argv envp execfn random auxiliary process) E); fold at0 in Hb; unfold lifecycle_to in *; split; lia |]. fold bytes1 in H2.
  destruct (put_part_wrote (C := C) M MAX_RELOCATIONS stack_limit p words2 _ _ w2 is_mapped (tls process) at1 H2) as (w3 & -> & H3); [intros E; specialize (Hb _ (lifecycle_to argv envp execfn random auxiliary process is_mapped) E); unfold tls_to in *; fold at1 in Hb; split; lia |]. fold bytes2 in H3.
  destruct (put_part_wrote (C := C) M MAX_RELOCATIONS stack_limit p words2 _ _ w3 is_mapped (indirect process) at2 H3) as (w4 & -> & H4); [intros E; specialize (Hb _ (tls_to argv envp execfn random auxiliary process is_mapped) E); unfold indirect_to in *; fold at2 in Hb; split; lia |]. fold bytes3 in H4.
  by apply Hk.
Qed.

(** Everything that [initial_stack] does: the reasons for which it fails, and what it returns. *)
Lemma initial_stack_spec : layout_safe -> match initial_stack (C := C) M MAX_RELOCATIONS argv envp execfn random auxiliary process mapped with
  | Ok (s, r) => inputs_ok /\ size <= M /\ s = words (map fst all_words) ++ bytes3 ++ zeros (Z.to_nat (size - p - len bytes3)) /\ r = rels 0 all_words
  | Err EmptyArgumentVector => argv = []
  | Err InvalidText => ~ inputs_ok
  | Err ImageTooLarge => M < size \/ (MAX_RELOCATIONS < total)%nat
  | _ => False
  end.
Proof using stack_limit.
  intros Hl. unfold initial_stack. pose proof (check_auxiliary_Ok (C := C) auxiliary) as Ha. destruct (check_auxiliary [] auxiliary) as [[]|e|]; [| destruct Ha as [-> Ha]; intros (_ & Ha' & _); done | done].
  destruct (is_empty argv) eqn:Eargv; [by destruct argv |]. assert (argv <> []) as Hargv by (by destruct argv). destruct (contains_char 0 execfn) eqn:Ee; [intros (_ & _ & He & _); congruence |].
  pose proof (measure_stack_sized (C := C) argv envp execfn random auxiliary process is_mapped) as Hz. destruct (measure_stack _ _ _ _ _ _ _) as [z|[| | |]|]; cbn [sized] in Hz; [| done | intros (_ & _ & _ & Ht); done | left; widths; lia | done | done].
  destruct Hz as [-> Ht]. cbn [stack_length pointer_bytes lifecycle_offset tls_offset indirect_offset]. destruct (M <? size) eqn:Es; bool_cases; [by left |].
  destruct (sizes_order argv envp execfn random auxiliary process is_mapped) as (O1 & O2 & O3 & O4 & O5 & O6 & O7 & O8 & O9). fold env.
  match goal with |- match ?r with _ => _ end => enough (yields MAX_RELOCATIONS total r (fun x => x = (words (map fst all_words) ++ bytes3 ++ zeros (Z.to_nat (size - p - len bytes3)), rels 0 all_words))) as Hy end.
  { destruct (put_word _ _) as [[? ?]|?|] eqn:Ep; [| by cbn in Hy; destruct Hy as [-> Hy]; right | done]. match type of Hy with yields _ _ ?r _ => destruct r as [[s r']|e|] end; [| cbn in Hy; destruct Hy as [-> Hy]; by right | done]. injection Hy as -> ->. done. }
  apply vectors_written; [unfold plain_size in *; pose proof (len_nonneg random); pose proof (len_nonneg execfn); lia |]. intros w Hw. cbv zeta. rewrite (wrote_text _ _ _ _ _ _ _ Hw).
  apply (tail_written (fun o w => let? e0 := part_entry mapped 0 AT_LIFECYCLE_IMAGE (lifecycle process) at0 in let? e1 := part_entry mapped 1 AT_TLS_IMAGE (tls process) at1 in let? e2 := part_entry mapped 2 AT_INDIRECT_IMAGE (indirect process) at2 in _)); [done | done |].
  intros w' Hw'. cbv beta. rewrite !part_entry_Ok by done. fold all_entries. pose proof words2_length as H2.
  apply yields_bind. apply (yields_mono _ _ _ _ _ (put_auxiliary_wrote (C := C) M MAX_RELOCATIONS stack_limit (image process) all_entries total p words2 _ _ w' Hw' ltac:(lia) ltac:(by rewrite <- all_words_eq))).
  rewrite <- all_words_eq. intros w2 [Hs Hc Htx Hr Hn Hm H8 Hp]. pose proof all_words_length as Hal. rewrite Hc, Hal, Z.eqb_refl, Htx, plain_length. cbn [negb orb]. rewrite (proj2 (Z.ltb_ge _ _)) by lia.
  pose proof bytes3_length as B3. pose proof (len_nonneg bytes3) as L3. rewrite Hs. unfold frame. rewrite Hal, Z.sub_diag.
  set (st := words (map fst all_words) ++ bytes3 ++ zeros (Z.to_nat (size - p - len bytes3))).
  assert (List.length st = Z.to_nat size) as Ls by (subst st; rewrite !length_app, zeros_length, words_length, length_map; unfold len in *; lia).
  replace (words (map fst all_words) ++ zeros (Z.to_nat 0) ++ bytes3 ++ zeros (Z.to_nat (M - p - len bytes3))) with (st ++ zeros (Z.to_nat (M - size))).
  2:{ subst st. rewrite <- !app_assoc. change (zeros (Z.to_nat 0)) with (@nil Z). cbn [app]. do 2 f_equal. unfold zeros. rewrite <- replicate_add. f_equal. lia. }
  rewrite <- Ls, slice_prefix. rewrite (proj2 (Nat.leb_le _ _)); [cbn; by rewrite Hr |]. rewrite <- (take_drop (relocation_count w2) (relocations w2)), length_app, Hr. lia.
Qed.

End Stack.
