(* ===== verification/StartupRead.v ===== *)
(** * What a program finds on its stack

    The kernel's part, the addition of addresses at the relocations, and a reader that walks the vectors as the start-up code
    of a C program does. *)

From S2P Require Import Prelude Text Fields LaunchParse LaunchContainer LaunchLayout ProcessImage StartupStack.

(** ** Loading and reading *)

Definition bytes_at (mem : list Z) (a n : Z) : list Z := take (Z.to_nat n) (drop (Z.to_nat a) mem).
Definition word_at (mem : list Z) (a : Z) : Z := from_le (bytes_at mem a 8).
(** The text up to the first zero byte. *)
Definition cstring (mem : list Z) (a : Z) : list Z := before_first 0 (drop (Z.to_nat a) mem).

(** What the kernel knows when it places the stack. *)
Record Kernel : Type := { stack_base : Z; elf_headers : Z; elf_header_size : Z; elf_header_count : Z; page_size : Z; elf_entry : Z }.
Definition amount (k : Kernel) (kind : RelocationKind) : Z :=
  match kind with
  | StackAddress => stack_base k
  | ElfProgramHeaders => elf_headers k
  | ElfProgramHeaderSize => elf_header_size k
  | ElfProgramHeaderCount => elf_header_count k
  | PageSize => page_size k
  | ElfEntry => elf_entry k
  end.
Definition relocate (k : Kernel) (mem : list Z) (r : Relocation) : list Z :=
  take (Z.to_nat (re_offset r)) mem ++ to_le 8 (word_at mem (re_offset r) + amount k (re_kind r)) ++ drop (Z.to_nat (re_offset r + 8)) mem.
Definition load (k : Kernel) (stack : list Z) (rs : list Relocation) : list Z := foldl (relocate k) stack rs.

(** A vector of pointers to texts, up to the null pointer; also where it ends. *)
Fixpoint strings_at (fuel : nat) (b : Z) (mem : list Z) (a : Z) : option (list (list Z) * Z) :=
  match fuel with
  | O => None
  | S fuel =>
      let q := word_at mem a in
      if q =? 0 then Some ([], a + 8) else
      match strings_at fuel b mem (a + 8) with Some (l, e) => Some (cstring mem (q - b) :: l, e) | None => None end
  end.
Fixpoint auxv_at (fuel : nat) (mem : list Z) (a : Z) : option (list (Z * Z)) :=
  match fuel with
  | O => None
  | S fuel =>
      if word_at mem a =? AT_NULL then Some [] else
      match auxv_at fuel mem (a + 16) with Some l => Some ((word_at mem a, word_at mem (a + 8)) :: l) | None => None end
  end.

Record Started : Type := { argc : Z; arguments : list (list Z); variables : list (list Z); auxv : list (Z * Z) }.
Definition start (b : Z) (mem : list Z) : option Started :=
  let fuel := List.length mem in
  match strings_at fuel b mem 8 with
  | None => None
  | Some (args, e) =>
      match strings_at fuel b mem e with
      | None => None
      | Some (vars, e) => match auxv_at fuel mem e with Some aux => Some {| argc := word_at mem 0; arguments := args; variables := vars; auxv := aux |} | None => None end
      end
  end.

(** ** Words *)

Lemma bytes_at_middle (A l R : list Z) a n : a = len A -> n = len l -> bytes_at (A ++ l ++ R) a n = l.
Proof. intros -> ->. unfold bytes_at, len. by rewrite !Nat2Z.id, drop_app_length, take_app_length. Qed.

Lemma word_at_words vs v (R : list Z) a : a = 8 * Z.of_nat (List.length vs) -> is_u64 v -> word_at (words vs ++ to_le 8 v ++ R) a = v.
Proof. intros -> Hv. unfold word_at. rewrite bytes_at_middle; [apply from_to_le; exact Hv | by rewrite len_words | unfold len; by rewrite to_le_length]. Qed.

Lemma words_cons v vs : words (v :: vs) = to_le 8 v ++ words vs.
Proof. done. Qed.

Section Load.
Context (k : Kernel).

Definition settled (e : Z * option RelocationKind) : Z := match e with (v, Some kind) => v + amount k kind | (v, None) => v end.

Lemma load_words es (R : list Z) : Forall is_u64 (map fst es) -> forall vs,
  load k (words vs ++ words (map fst es) ++ R) (rels (Z.of_nat (List.length vs)) es) = words vs ++ words (map settled es) ++ R.
Proof.
  induction es as [|[v r] es IH]; intros Hes vs; [done |]. cbn [map fst] in *. apply Forall_cons in Hes as [Hv Hes]. rewrite !words_cons, <- !app_assoc.
  assert (forall x, words vs ++ to_le 8 x ++ words (map fst es) ++ R = words (vs ++ [x]) ++ words (map fst es) ++ R) as Ha by (intros x; by rewrite words_app, words_one, <- app_assoc).
  assert (forall x, words vs ++ to_le 8 x ++ words (map settled es) ++ R = words (vs ++ [x]) ++ words (map settled es) ++ R) as Hb by (intros x; by rewrite words_app, words_one, <- app_assoc).
  assert (forall x, Z.of_nat (List.length vs) + 1 = Z.of_nat (List.length (vs ++ [x : Z]))) as Hc by (intros x; rewrite length_app; cbn; lia).
  destruct r as [kind|]; cbn [rels settled].
  - unfold load. cbn [foldl]. unfold relocate at 2. cbn [re_offset re_kind]. rewrite word_at_words by done.
    replace (Z.to_nat (8 * Z.of_nat (List.length vs))) with (List.length (words vs)) by (rewrite words_length; lia). rewrite take_app_length.
    replace (Z.to_nat (8 * Z.of_nat (List.length vs) + 8)) with (List.length (words vs) + List.length (to_le 8 v))%nat by (rewrite words_length, to_le_length; lia).
    rewrite <- drop_drop, drop_app_length, drop_app_length. rewrite Ha, Hb, (Hc (v + amount k kind)). by apply IH.
  - rewrite Ha, Hb, (Hc v). by apply IH.
Qed.

Lemma strings_read b (mem : list Z) qs : Forall (fun q => is_u64 q /\ q <> 0) qs -> forall vs R fuel, mem = words vs ++ words qs ++ to_le 8 0 ++ R -> (List.length qs < fuel)%nat ->
  strings_at fuel b mem (8 * Z.of_nat (List.length vs)) = Some (map (fun q => cstring mem (q - b)) qs, 8 * Z.of_nat (List.length vs + List.length qs + 1)).
Proof.
  induction 1 as [|q qs [Hq Hq0] Hqs IH]; intros vs R fuel Hm Hf; (destruct fuel as [|fuel]; [cbn in Hf; lia |]); cbn [strings_at map List.length].
  - rewrite Hm at 1. change (words []) with (@nil Z). cbn [app]. rewrite word_at_words by (done || (widths; lia)). cbn. do 2 f_equal. lia.
  - assert (word_at mem (8 * Z.of_nat (List.length vs)) = q) as -> by (rewrite Hm, words_cons, <- app_assoc; by apply word_at_words). rewrite (proj2 (Z.eqb_neq _ _)) by done.
    replace (8 * Z.of_nat (List.length vs) + 8) with (8 * Z.of_nat (List.length (vs ++ [q]))) by (rewrite length_app; cbn; lia).
    rewrite (IH (vs ++ [q]) R fuel); [| rewrite Hm, words_app, words_one, words_cons, <- !app_assoc; done | cbn in Hf; lia]. do 2 f_equal. rewrite length_app. cbn. lia.
Qed.

Definition pair_words (kv : Z * Z) : list Z := [fst kv; snd kv].

Lemma auxv_read (mem : list Z) kvs : Forall (fun kv => is_u64 (fst kv) /\ fst kv <> AT_NULL /\ is_u64 (snd kv)) kvs -> forall vs R fuel,
  mem = words vs ++ words (concat (map pair_words kvs)) ++ to_le 8 AT_NULL ++ R -> (List.length kvs < fuel)%nat -> auxv_at fuel mem (8 * Z.of_nat (List.length vs)) = Some kvs.
Proof.
  induction 1 as [|[key v] kvs (Hk & Hk0 & Hv) Hkvs IH]; intros vs R fuel Hm Hf; (destruct fuel as [|fuel]; [cbn in Hf; lia |]); cbn [auxv_at map concat List.length fst snd] in *.
  - rewrite Hm at 1. change (words []) with (@nil Z). cbn [app]. rewrite word_at_words by (done || (unfold AT_NULL; widths; lia)). done.
  - unfold pair_words in Hm at 1. cbn [fst snd app] in Hm. rewrite !words_cons, <- !app_assoc in Hm.
    assert (word_at mem (8 * Z.of_nat (List.length vs)) = key) as -> by (rewrite Hm; by apply word_at_words). rewrite (proj2 (Z.eqb_neq _ _)) by done.
    assert (word_at mem (8 * Z.of_nat (List.length vs) + 8) = v) as ->.
    { rewrite Hm. rewrite <- (words_one key), app_assoc, <- words_app. apply word_at_words; [rewrite length_app; cbn; lia | done]. }
    replace (8 * Z.of_nat (List.length vs) + 16) with (8 * Z.of_nat (List.length (vs ++ [key; v]))) by (rewrite length_app; cbn; lia).
    rewrite (IH (vs ++ [key; v]) R fuel); [done | rewrite Hm, words_app, !words_cons, <- !app_assoc; done | lia].
Qed.

(** The pointers lead back to the texts. *)
Lemma before_first_app t (R : list Z) : contains_char 0 t = false -> before_first 0 (t ++ 0 :: R) = t.
Proof.
  unfold before_first, contains_char. intros H. enough (split_once 0 (t ++ 0 :: R) = Some (t, R)) as -> by done. revert H.
  induction t as [|c t IH]; intros H; cbn [existsb app split_once] in *; [done |]. apply orb_false_iff in H as [H1 H2]. rewrite Z.eqb_sym, H1, IH by done. done.
Qed.

Lemma pointers_read (mem : list Z) l : Forall (fun t => contains_char 0 t = false) l -> forall A R, mem = A ++ texts l ++ R ->
  map (fun q => cstring mem (q - stack_base k)) (map settled (pointers (len A) l)) = l.
Proof.
  induction 1 as [|t l Ht Hl IH]; intros A R Hm; [done |]. cbn [pointers map settled amount]. f_equal.
  - unfold cstring. replace (len A + stack_base k - stack_base k) with (len A) by lia. rewrite Hm, texts_cons. unfold len. rewrite Nat2Z.id, drop_app_length, <- !app_assoc. by apply before_first_app.
  - rewrite texts_cons in Hm. replace (len A + len t + 1) with (len (A ++ t ++ [0])) by (rewrite !len_app; change (len [0]) with 1; lia). apply (IH _ R). by rewrite Hm, <- !app_assoc.
Qed.

End Load.

(** ** The auxiliary vector *)

Section Auxv.
Context (k : Kernel) (process : Process) (auxiliary : list (Z * Z)).

(** What the selected image says, else what the kernel says about the container. *)
Definition pick (f : Executable -> Z) (d : Z) : Z := match image process with Some i => f i | None => d end.
Definition flag (b : bool) : Z := if b then 1 else 0.
Definition given {A} (part : list Z) (x : A) : list A := if is_empty part then [] else [x].

(** The vector for random bytes at [ra], the name at [ea] and the metadata at [a0], [a1], [a2]. *)
Definition expected_auxv (ra ea a0 a1 a2 : Z) : list (Z * Z) :=
  [(AT_PHDR, pick program_headers (elf_headers k)); (AT_PHENT, pick program_header_size (elf_header_size k)); (AT_PHNUM, pick program_header_count (elf_header_count k));
   (AT_PAGESZ, page_size k); (AT_BASE, pick interpreter_base 0); (AT_FLAGS, 0); (AT_ENTRY, pick ex_entry (elf_entry k));
   (AT_UID, real_uid (identity process)); (AT_EUID, effective_uid (identity process)); (AT_GID, real_gid (identity process)); (AT_EGID, effective_gid (identity process));
   (AT_HWCAP, 0); (AT_CLKTCK, CLOCK_TICKS_PER_SECOND); (AT_SECURE, flag (is_secure (identity process))); (AT_RANDOM, ra); (AT_EXECFN, ea); (AT_IMAGE_LOAD_BIAS, pick load_bias 0)]
  ++ given (lifecycle process) (AT_LIFECYCLE_IMAGE, a0) ++ given (tls process) (AT_TLS_IMAGE, a1) ++ given (indirect process) (AT_INDIRECT_IMAGE, a2) ++ auxiliary.

Definition entry_value (x : Z * Z * option RelocationKind) : Z * Z := let '(key, value, r) := override (image process) x in (key, settled k (value, r)).

Lemma settled_aux l : map (settled k) (concat (map (aux_words (image process)) l)) = concat (map pair_words (map entry_value l)).
Proof.
  induction l as [|x l IH]; [done |]. cbn [map concat]. rewrite map_app, IH. f_equal. unfold aux_words, entry_value. by destruct (override (image process) x) as [[key v] r].
Qed.

Lemma image_value_other i key : reserved_key key = false -> image_value i key = None.
Proof.
  unfold reserved_key, image_value. intros H. bool_cases. unfold AT_EXECFN, AT_PHDR, AT_PHENT, AT_PHNUM, AT_ENTRY, AT_BASE in *.
  repeat (rewrite (proj2 (Z.eqb_neq _ _)) by lia). done.
Qed.

Definition settled_address (mapped : option Layout) (i : nat) (offset : Z) : Z := match mapped with Some _ => default offset (mapped_address mapped i) | None => stack_base k + offset end.

Lemma part_values mapped i key part offset : key = AT_LIFECYCLE_IMAGE \/ key = AT_TLS_IMAGE \/ key = AT_INDIRECT_IMAGE ->
  map entry_value (part_entries mapped i key part offset) = given part (key, settled_address mapped i offset).
Proof.
  intros Hk. unfold part_entries, given. destruct (is_empty part); [done |]. cbn [map]. f_equal. unfold entry_value, override.
  assert (match image process with Some i0 => image_value i0 key | None => None end = None) as -> by (destruct (image process); [| done]; by destruct Hk as [->|[->| ->]]).
  destruct mapped; cbn [settled settled_address mapped_address default amount]; f_equal. lia.
Qed.

Lemma auxiliary_values : Forall (fun x => reserved_key (fst x) = false) auxiliary -> map entry_value (map (fun x => (fst x, snd x, None)) auxiliary) = auxiliary.
Proof.
  induction 1 as [|[key v] l Hk _ IH]; [done |]. cbn [map fst snd] in *. rewrite IH. f_equal. unfold entry_value, override.
  by assert (match image process with Some i => image_value i key | None => None end = None) as -> by (destruct (image process); [by apply image_value_other | done]).
Qed.

Lemma base_values ro eo : map entry_value (List.filter (fun x => negb (fst (fst x) =? AT_NULL)) (base_entries (identity process) ro eo)) =
  take 17 (expected_auxv (stack_base k + ro) (stack_base k + eo) 0 0 0).
Proof.
  unfold expected_auxv, base_entries, pick, entry_value, override, flag. destruct (image process) as [i|]; cbn; rewrite ?Z.add_0_l, (Z.add_comm ro), (Z.add_comm eo); done.
Qed.

Lemma expected_split ra ea a0 a1 a2 : expected_auxv ra ea a0 a1 a2 = take 17 (expected_auxv ra ea 0 0 0)
  ++ given (lifecycle process) (AT_LIFECYCLE_IMAGE, a0) ++ given (tls process) (AT_TLS_IMAGE, a1) ++ given (indirect process) (AT_INDIRECT_IMAGE, a2) ++ auxiliary.
Proof. done. Qed.

End Auxv.

(** ** From the stack to the program *)

Definition executable_typed (i : Executable) : Prop :=
  is_u64 (ex_entry i) /\ is_u64 (program_headers i) /\ is_u64 (program_header_size i) /\ is_u64 (program_header_count i) /\ is_u64 (interpreter_base i) /\ is_u64 (load_bias i).
Definition identity_typed (i : Identity) : Prop := is_u32 (real_uid i) /\ is_u32 (effective_uid i) /\ is_u32 (real_gid i) /\ is_u32 (effective_gid i).
Definition process_typed (process : Process) : Prop := identity_typed (identity process) /\ forall i, image process = Some i -> executable_typed i.
Definition aux_typed (auxiliary : list (Z * Z)) : Prop := Forall (fun x => is_u64 (fst x) /\ is_u64 (snd x)) auxiliary.
Definition kernel_ok (k : Kernel) (size : Z) : Prop :=
  0 <= stack_base k /\ stack_base k + size <= U64_MAX /\ is_u64 (elf_headers k) /\ is_u64 (elf_header_size k) /\ is_u64 (elf_header_count k) /\ is_u64 (page_size k) /\ is_u64 (elf_entry k).

Lemma given_Forall {A} (P : A -> Prop) part x : (part <> [] -> P x) -> Forall P (given part x).
Proof. unfold given. destruct part; cbn; [constructor |]. intros H. constructor; [by apply H | constructor]. Qed.

Lemma Forall_filter_weaken {A} (P : A -> Prop) f l : Forall P l -> Forall P (List.filter f l).
Proof. induction 1 as [|x l Hx _ IH]; cbn; [constructor |]. destruct (f x); [by constructor | done]. Qed.

Section Start.
Context {C : Type} (MAX_STACK_BYTES : Z) (MAX_RELOCATIONS : nat) (stack_limit : 0 <= MAX_STACK_BYTES <= U32_MAX).
Context (k : Kernel) (argv envp : list (list Z)) (execfn random : list Z) (auxiliary : list (Z * Z)) (process : Process) (mapped : option Layout).
Local Abbreviation is_mapped := (match mapped with Some _ => true | None => false end).
Local Abbreviation p := (words_size argv envp auxiliary process).
Local Abbreviation env := (environment envp process).
Local Abbreviation at0 := (lifecycle_at argv envp execfn random auxiliary process).
Local Abbreviation at1 := (tls_at argv envp execfn random auxiliary process is_mapped).
Local Abbreviation at2 := (indirect_at argv envp execfn random auxiliary process is_mapped).
Local Abbreviation size := (stack_size argv envp execfn random auxiliary process is_mapped).
Local Abbreviation entries := (all_entries argv envp execfn random auxiliary process mapped).
Local Abbreviation all := (all_words argv envp execfn random auxiliary process mapped).
Local Abbreviation tail3 := (bytes3 argv envp execfn random auxiliary process mapped).
Local Abbreviation ra := (stack_base k + random_at argv envp auxiliary process).
Local Abbreviation ea := (stack_base k + execfn_at argv envp random auxiliary process).
Local Abbreviation a0 := (settled_address k mapped 0 at0).
Local Abbreviation a1 := (settled_address k mapped 1 at1).
Local Abbreviation a2 := (settled_address k mapped 2 at2).
Local Abbreviation expected := (expected_auxv k process auxiliary ra ea a0 a1 a2).

Lemma entries_values : aux_ok auxiliary -> map (entry_value k process) entries = expected ++ [(AT_NULL, 0)].
Proof.
  intros [Ha _]. unfold all_entries. rewrite !map_app, (base_values k process auxiliary), !part_values by auto. rewrite auxiliary_values by done.
  rewrite (expected_split k process auxiliary ra ea a0 a1 a2), <- !app_assoc. do 5 f_equal. unfold entry_value, override. by destruct (image process).
Qed.

Context (Hproc : process_typed process) (Haux : aux_typed auxiliary) (Hk : kernel_ok k size) (Hlay : layout_safe mapped) (Hsize : size <= MAX_STACK_BYTES).
Context (Hspan : forall m i a n, mapped = Some m -> spans m !! i = Some (a, n) -> n <> 0 -> 0 <= base m + a).

Lemma offsets_range : 0 <= p /\ p + len (texts argv) + len (texts env) <= size /\ 0 <= random_at argv envp auxiliary process <= size /\ 0 <= execfn_at argv envp random auxiliary process <= size /\ 0 <= at0 <= size /\ 0 <= at1 <= size /\ 0 <= at2 <= size.
Proof using stack_limit.
  destruct (sizes_order argv envp execfn random auxiliary process is_mapped) as (O1 & O2 & O3 & O4 & O5 & O6 & O7 & O8 & O9). destruct (at_bounds argv envp execfn random auxiliary process is_mapped) as (A1 & A2 & A3).
  pose proof (plain_length argv envp execfn random auxiliary process) as Lp. unfold plain_bytes in Lp. rewrite !len_app in Lp. change (len [0]) with 1 in Lp. unfold random_at, execfn_at. rewrite !len_app.
  pose proof (len_nonneg (texts argv)). pose proof (len_nonneg (texts env)). pose proof (len_nonneg random). pose proof (len_nonneg execfn). lia.
Qed.

Lemma address_typed i o : 0 <= o <= size -> is_u64 (settled_address k mapped i o).
Proof using stack_limit Hk Hlay Hsize Hspan.
  intros Ho. destruct Hk as (K1 & K2 & _). unfold settled_address, mapped_address. destruct mapped as [m|] eqn:Em; [| widths; lia]. destruct (spans m !! i) as [[a n]|] eqn:Es; [| cbn; widths; lia].
  destruct (n =? 0) eqn:En; bool_cases; cbn; [widths; lia |]. pose proof (Hlay m i a n eq_refl Es En). pose proof (Hspan m i a n eq_refl Es En). widths; lia.
Qed.

Lemma expected_typed : aux_ok auxiliary -> Forall (fun kv => is_u64 (fst kv) /\ fst kv <> AT_NULL /\ is_u64 (snd kv)) expected.
Proof using stack_limit Hproc Haux Hk Hlay Hsize Hspan.
  intros [Hres _]. destruct Hproc as [(I1 & I2 & I3 & I4) Him]. destruct offsets_range as (_ & _ & R1 & R2 & R3 & R4 & R5). pose proof Hk as (K1 & K2 & K3 & K4 & K5 & K6 & K7).
  assert (forall f d, (forall i, executable_typed i -> is_u64 (f i)) -> is_u64 d -> is_u64 (pick process f d)) as Hpick by (intros f d Hf Hd; unfold pick; destruct (image process) as [i|]; [by apply Hf, Him | done]).
  assert (is_u64 0) as H0 by (widths; lia).
  assert (forall key v, (0 <? key) && (key <=? U64_MAX) = true -> is_u64 v -> is_u64 (fst (key, v)) /\ fst (key, v) <> AT_NULL /\ is_u64 (snd (key, v))) as Hkey.
  { intros key v Hkv Hv. bool_cases. cbn [fst snd]. unfold AT_NULL, is_u64, U64_MAX in *. lia. }
  unfold expected_auxv. repeat apply Forall_app_2.
  - repeat (apply Forall_cons; split; [apply Hkey; [reflexivity |] |]); try apply Forall_nil; try done; try (apply Hpick; [unfold executable_typed; tauto | done]); try (unfold is_u64, is_u32, U64_MAX in *; lia).
    unfold flag, is_u64. destruct (is_secure _); lia.
  - apply given_Forall. intros _. apply Hkey; [reflexivity | by apply address_typed].
  - apply given_Forall. intros _. apply Hkey; [reflexivity | by apply address_typed].
  - apply given_Forall. intros _. apply Hkey; [reflexivity | by apply address_typed].
  - unfold aux_typed in Haux. rewrite Forall_forall in Hres, Haux |- *. intros [key v] Hin. specialize (Hres _ Hin). specialize (Haux _ Hin). cbn in *. split_and!; try tauto. intros ->. done.
Qed.

(** The words before relocation. *)
Lemma override_typed x : is_u64 (fst (fst x)) -> is_u64 (snd (fst x)) -> Forall is_u64 (map fst (aux_words (image process) x)).
Proof using All.
  destruct x as [[key v] r]. cbn [fst snd]. intros Hkey Hv. assert (forall v', is_u64 v' -> Forall is_u64 [key; v']) as H2 by (intros v' H'; apply Forall_cons; split; [done |]; apply Forall_cons; split; [done | apply Forall_nil_2]).
  unfold aux_words, override. destruct Hproc as [_ Him]. destruct (image process) as [i|]; [| by apply H2].
  destruct (image_value i key) as [v'|] eqn:E; [| by apply H2]. apply H2. specialize (Him i eq_refl). unfold image_value in E. destruct Him as (? & ? & ? & ? & ? & ?).
  repeat (case_match; [by simplify_eq |]). done.
Qed.

Lemma entries_typed : aux_ok auxiliary -> Forall (fun x => is_u64 (fst (fst x)) /\ is_u64 (snd (fst x))) entries.
Proof using stack_limit Hproc Haux Hk Hlay Hsize Hspan.
  intros _. destruct Hproc as [(I1 & I2 & I3 & I4) _]. destruct offsets_range as (_ & _ & R1 & R2 & R3 & R4 & R5). destruct Hk as (K1 & K2 & _).
  assert (forall key v (r : option RelocationKind), (0 <=? key) && (key <=? U64_MAX) = true -> is_u64 v -> is_u64 (fst (fst (key, v, r))) /\ is_u64 (snd (fst (key, v, r)))) as Hkey.
  { intros key v r Hkv Hv. bool_cases. cbn [fst snd]. unfold is_u64, U64_MAX in *. lia. }
  assert (forall i o, 0 <= o <= size -> is_u64 (default o (mapped_address mapped i))) as Hmap.
  { intros i o Ho. pose proof (address_typed i o Ho) as Ha. unfold settled_address in Ha. destruct mapped; [exact Ha | cbn; unfold is_u64, U64_MAX in *; lia]. }
  assert (forall i key part o, (0 <=? key) && (key <=? U64_MAX) = true -> 0 <= o <= size -> Forall (fun x => is_u64 (fst (fst x)) /\ is_u64 (snd (fst x))) (part_entries mapped i key part o)) as Hpart.
  { intros i key part o Hkv Ho. unfold part_entries. destruct (is_empty part); [apply Forall_nil_2 |]. apply Forall_cons. split; [| apply Forall_nil_2]. apply Hkey; [done | by apply Hmap]. }
  unfold all_entries. repeat apply Forall_app_2; try (apply Hpart; [reflexivity | done]).
  - apply Forall_filter_weaken. repeat (apply Forall_cons; split; [apply Hkey; [reflexivity |] |]); try apply Forall_nil; try done; try (unfold is_u64, is_u32, U64_MAX in *; lia). unfold is_u64. destruct (is_secure _); lia.
  - apply Forall_fmap. unfold aux_typed in Haux. eapply Forall_impl; [exact Haux |]. done.
  - apply Forall_cons. split; [| apply Forall_nil_2]. apply Hkey; [reflexivity | unfold is_u64; lia].
Qed.

Lemma pointers_typed l b : 0 <= b -> forall a, 0 < a -> b + a + len (texts l) <= U64_MAX ->
  Forall is_u64 (map fst (pointers a l)) /\ (stack_base k = b -> Forall (fun q => is_u64 q /\ q <> 0) (map (settled k) (pointers a l))).
Proof.
  intros Hb. induction l as [|t l IH]; intros a Ha Hl; [split; [apply Forall_nil_2 | intros _; apply Forall_nil_2] |]. rewrite texts_cons, !len_app in Hl. change (len [0]) with 1 in Hl. cbn [pointers map fst settled amount].
  pose proof (len_nonneg t). pose proof (len_nonneg (texts l)). destruct (IH (a + len t + 1)) as [H1 H2]; [lia | lia |]. unfold is_u64, U64_MAX in *.
  split; [apply Forall_cons; split; [lia | done] | intros E; apply Forall_cons; split; [lia | by apply H2]].
Qed.

Local Abbreviation st := (words (map fst all) ++ tail3 ++ zeros (Z.to_nat (size - p - len tail3))).
Local Abbreviation mem := (load k st (rels 0 all)).

Lemma count_typed : is_u64 (Z.of_nat (List.length argv)).
Proof using stack_limit Hk.
  destruct Hk as (K1 & K2 & _). destruct (sizes_order argv envp execfn random auxiliary process is_mapped) as (O1 & O2 & O3 & O4 & O5 & O6 & O7 & O8 & O9).
  assert (Z.of_nat (List.length argv) <= p) as Hn by (unfold words_size; pose proof (aux_count_nonneg auxiliary process); lia). unfold is_u64, U64_MAX in *. lia.
Qed.

Lemma mem_eq : aux_ok auxiliary -> mem = words (map (settled k) all) ++ tail3 ++ zeros (Z.to_nat (size - p - len tail3)).
Proof using All.
  intros Ha. apply (load_words k all _) with (vs := []). pose proof Hk as (K1 & K2 & _). destruct offsets_range as (R0 & R00 & _). pose proof (len_nonneg (texts argv)). pose proof (len_nonneg (texts env)).
  destruct (sizes_order argv envp execfn random auxiliary process is_mapped) as (O1 & _).
  assert (Forall is_u64 [0]) as Hz0 by (apply Forall_cons; split; [unfold is_u64; lia | apply Forall_nil_2]).
  unfold all_words. rewrite !map_app. repeat apply Forall_app_2; try exact Hz0.
  - apply Forall_cons. split; [apply count_typed | apply Forall_nil_2].
  - apply (pointers_typed argv (stack_base k)); lia.
  - apply (pointers_typed env (stack_base k)); lia.
  - pose proof (entries_typed Ha) as He. revert He. generalize entries. induction 1 as [|x l [H1 H2] _ IH]; [apply Forall_nil_2 |]. cbn [map concat]. rewrite map_app. apply Forall_app_2; [by apply override_typed | done].
Qed.

Lemma settled_all : aux_ok auxiliary -> map (settled k) all = [Z.of_nat (List.length argv)] ++ map (settled k) (pointers p argv) ++ [0]
  ++ map (settled k) (pointers (p + len (texts argv)) env) ++ [0] ++ concat (map pair_words expected) ++ [AT_NULL; 0].
Proof. intros Ha. unfold all_words. rewrite !map_app, settled_aux, entries_values by done. rewrite map_app, concat_app. done. Qed.

Lemma words_settled_len : len (words (map (settled k) all)) = p.
Proof. rewrite len_words, length_map. apply all_words_length. Qed.

(** The program finds what it was given. *)
Lemma stack_starts : aux_ok auxiliary -> texts_ok argv envp ->
  start (stack_base k) mem = Some {| argc := Z.of_nat (List.length argv); arguments := argv; variables := env; auxv := expected |}.
Proof using All.
  intros Ha [Ht1 Ht2]. rewrite (mem_eq Ha). set (R := tail3 ++ zeros _). set (W := words (map (settled k) all)). assert (len W = p) as LW by apply words_settled_len.
  pose proof Hk as (K1 & K2 & _). destruct offsets_range as (R0 & R00 & _). pose proof (len_nonneg (texts argv)). pose proof (len_nonneg (texts env)). destruct (sizes_order argv envp execfn random auxiliary process is_mapped) as (O1 & _).
  destruct (pointers_typed argv (stack_base k) K1 p) as [_ P1]; [done | lia |]. destruct (pointers_typed env (stack_base k) K1 (p + len (texts argv))) as [_ P2]; [lia | lia |].
  specialize (P1 eq_refl). specialize (P2 eq_refl). assert (Forall (fun t => contains_char 0 t = false) env) as Ht2' by (by apply Forall_filter_weaken).
  assert (exists R', R = texts argv ++ texts env ++ R') as [R' ER] by (eexists; unfold R, bytes3, bytes2, bytes1, plain_bytes; rewrite <- !app_assoc; reflexivity).
  set (m := W ++ R). assert (m = words [Z.of_nat (List.length argv)] ++ words (map (settled k) (pointers p argv)) ++ to_le 8 0 ++ words (map (settled k) (pointers (p + len (texts argv)) env)) ++ to_le 8 0 ++ words (concat (map pair_words expected)) ++ to_le 8 AT_NULL ++ to_le 8 0 ++ R) as Em.
  { unfold m, W. rewrite (settled_all Ha), !words_app, !words_one, words_cons, words_one, <- !app_assoc. done. }
  assert (List.length m = List.length W + List.length R)%nat as Lm by (unfold m; by rewrite length_app).
  assert (List.length W = 8 * (4 + List.length argv + List.length env + 2 * List.length expected + 1))%nat as LW'.
  { unfold W. rewrite (settled_all Ha), words_length, !length_app, !length_map, !pointers_length. assert (List.length (concat (map pair_words expected)) = 2 * List.length expected)%nat as -> by (generalize expected; clear; intros l; induction l as [|[? ?] l IH]; [done |]; cbn in *; lia). cbn [List.length]. lia. }
  pose proof (strings_read (stack_base k) m _ P1 _ _ (List.length m) Em ltac:(rewrite length_map, pointers_length; lia)) as S1.
  unfold start. change (8 * Z.of_nat (List.length [Z.of_nat (List.length argv)])) with 8 in S1. rewrite S1.
  set (v2 := [Z.of_nat (List.length argv)] ++ map (settled k) (pointers p argv) ++ [0]).
  replace (8 * Z.of_nat (List.length [Z.of_nat (List.length argv)] + List.length (map (settled k) (pointers p argv)) + 1)) with (8 * Z.of_nat (List.length v2)) by (unfold v2; rewrite !length_app; cbn; lia).
  assert (m = words v2 ++ words (map (settled k) (pointers (p + len (texts argv)) env)) ++ to_le 8 0 ++ words (concat (map pair_words expected)) ++ to_le 8 AT_NULL ++ to_le 8 0 ++ R) as Em2 by (rewrite Em; unfold v2; by rewrite !words_app, !words_one, <- !app_assoc).
  rewrite (strings_read (stack_base k) m _ P2 _ _ (List.length m) Em2) by (rewrite length_map, pointers_length; lia).
  set (v3 := v2 ++ map (settled k) (pointers (p + len (texts argv)) env) ++ [0]).
  replace (8 * Z.of_nat (List.length v2 + List.length (map (settled k) (pointers (p + len (texts argv)) env)) + 1)) with (8 * Z.of_nat (List.length v3)) by (unfold v3; rewrite !length_app; cbn; lia).
  assert (m = words v3 ++ words (concat (map pair_words expected)) ++ to_le 8 AT_NULL ++ to_le 8 0 ++ R) as Em3 by (rewrite Em2; unfold v3; by rewrite !words_app, !words_one, <- !app_assoc).
  rewrite (auxv_read m expected (expected_typed Ha) _ _ (List.length m) Em3) by lia.
  do 2 f_equal.
  - rewrite Em, words_one. apply (word_at_words []); [done | apply count_typed].
  - rewrite <- LW. apply (pointers_read k m argv Ht1 W (texts env ++ R')). unfold m. by rewrite ER.
  - replace (p + len (texts argv)) with (len (W ++ texts argv)) by (rewrite len_app, LW; done). apply (pointers_read k m env Ht2' _ R'). unfold m. by rewrite ER, <- !app_assoc.
Qed.

Lemma part_at part before o T R : part <> [] -> mapped = None -> p + len T = before -> o = rup 8 before ->
  bytes_at (words (map (settled k) all) ++ (T ++ part_bytes is_mapped part p o T) ++ R) o (len part) = part.
Proof.
  intros Hp Hm Hb ->. assert (is_mapped = false) as Em by (by rewrite Hm). unfold part_bytes. rewrite Em. destruct part as [|x part]; [done |]. cbn [is_empty orb]. pose proof (rup_ge 8 before ltac:(lia)).
  rewrite <- !app_assoc, !(app_assoc (words _)), (app_assoc _ (zeros _)). apply bytes_at_middle; [| done]. rewrite !len_app, len_zeros, words_settled_len. lia.
Qed.

(** The bytes that the auxiliary vector points to. *)
Lemma stack_contents : aux_ok auxiliary -> contains_char 0 execfn = false ->
  bytes_at mem (ra - stack_base k) (len random) = random /\ cstring mem (ea - stack_base k) = execfn /\
  (mapped = None -> (lifecycle process <> [] -> (a0 - stack_base k) mod 8 = 0 /\ bytes_at mem (a0 - stack_base k) (len (lifecycle process)) = lifecycle process) /\
                    (tls process <> [] -> (a1 - stack_base k) mod 8 = 0 /\ bytes_at mem (a1 - stack_base k) (len (tls process)) = tls process) /\
                    (indirect process <> [] -> (a2 - stack_base k) mod 8 = 0 /\ bytes_at mem (a2 - stack_base k) (len (indirect process)) = indirect process)).
Proof using All.
  intros Ha He. rewrite (mem_eq Ha). rewrite !Z.add_simpl_l. assert (forall i o, mapped = None -> settled_address k mapped i o - stack_base k = o) as Hs by (intros i o ->; cbn; lia).
  split_and!.
  - unfold bytes3, bytes2, bytes1, plain_bytes. rewrite <- !app_assoc, !(app_assoc (words _)), (app_assoc _ (texts env)). apply bytes_at_middle; [| done]. unfold random_at. rewrite !len_app, words_settled_len. lia.
  - unfold bytes3, bytes2, bytes1, plain_bytes, cstring, execfn_at. replace (Z.to_nat _) with (List.length (((words (map (settled k) all) ++ texts argv) ++ texts env) ++ random)).
    2:{ pose proof words_settled_len as L. unfold len in L. unfold len. rewrite !length_app. lia. }
    rewrite <- !(app_assoc (texts argv)), <- !(app_assoc (texts env)), <- !(app_assoc random). rewrite (app_assoc (words _)), (app_assoc _ (texts env)), (app_assoc _ random), drop_app_length, <- !app_assoc. by apply before_first_app.
  - intros Hm. rewrite !Hs by done. split_and!; intros Hp; (split; [apply rup_multiple; lia |]).
    + assert (exists R, tail3 ++ zeros (Z.to_nat (size - p - len tail3)) = bytes1 argv envp execfn random auxiliary process mapped ++ R) as [R ->] by (eexists; unfold bytes3 at 1, bytes2 at 1; rewrite <- !app_assoc; reflexivity).
      unfold bytes1. by apply part_at with (before := plain_size argv envp execfn random auxiliary process); [| | apply plain_length |].
    + assert (exists R, tail3 ++ zeros (Z.to_nat (size - p - len tail3)) = bytes2 argv envp execfn random auxiliary process mapped ++ R) as [R ->] by (eexists; unfold bytes3 at 1; rewrite <- !app_assoc; reflexivity).
      unfold bytes2. by apply part_at with (before := lifecycle_to argv envp execfn random auxiliary process is_mapped); [| | apply bytes1_length |].
    + unfold bytes3 at 1. by apply part_at with (before := tls_to argv envp execfn random auxiliary process is_mapped); [| | apply bytes2_length |].
Qed.

End Start.
