(* ===== verification/StartupMetadata.v ===== *)
(** * Metadata outside the stack ([Owner] of [posix-client/src/startup_metadata.rs])

    When the metadata of the loader does not fit the stack, it goes to a memory object that the kernel maps into
    the new process.  The owner creates the object, fills it and keeps a read-only reference. *)

From S2P Require Import Prelude Text Fields LaunchImage LaunchContainer LaunchLayout ProcessImage StartupStack StartupRead.

(** ** The code *)

Definition E2BIG : Z := 7.
Definition EINVAL : Z := 22.
Definition EIO : Z := 5.

(** The calls of [image_preparation::Backend] that are made here, on the state of the system. *)
Class ImageStore (W : Type) : Type := {
  create_image : W -> Z -> result Z Z * W;
  write_at : W -> Z -> list Z -> Z -> result Z Z * W;
  readonly_metadata : W -> Z -> result Z Z * W;
  close_image : W -> Z -> W }.

(** [InitialMapping] of the kernel interface. *)
Record InitialMapping : Type := { im_address : Z; im_length : Z; im_access : Z; im_options : Z; backing_handle : Z; backing_offset : Z }.

Record Owner : Type := { handle : Z; layout : option Layout; ready : bool }.
Definition Owner_default : Owner := {| handle := 0; layout := None; ready := false |}.
Definition with_handle (o : Owner) (h : Z) : Owner := {| handle := h; layout := layout o; ready := ready o |}.

Definition encoding {C} (error : EncodeError C) : Z :=
  match error with
  | ImageTooLarge | EmptyArgumentVector => E2BIG
  | InvalidText => EINVAL
  | Codec _ => EIO
  end.

Section Code.
Context {C W : Type} `{ImageStore W}.
(** Constants and functions of the kernel interface. *)
Context (MAX_STACK_BYTES : Z) (MAX_RELOCATIONS : nat) (abi_encode : Z -> list Z -> list Relocation -> list Z -> result C (list Z * Z)).
Context (MAX_DATA_LEN access_read map_shared : Z).

Definition Owner_drop (self : Owner) (w : W) : W := if handle self =? 0 then w else close_image w (handle self).

Definition Layout_mapping (self : Layout) (h : Z) : InitialMapping :=
  {| im_address := base self; im_length := ly_length self; im_access := access_read; im_options := map_shared; backing_handle := h; backing_offset := 0 |}.
Definition Owner_mapping (self : Owner) : result Z (option InitialMapping) :=
  if ready self then match layout self with Some l => Ok (Some (Layout_mapping l (handle self))) | None => Panic end else Ok None.

(** The loop that writes one part; each round writes at least one byte. *)
Fixpoint write_loop (fuel : nat) (w : W) (h : Z) (bytes : list Z) (offset written : Z) : result Z unit * W :=
  match fuel with
  | O => (Panic, w)
  | S fuel =>
      if negb (written <? len bytes) then (Ok tt, w) else
      let e := Z.min (len bytes) (saturating_add64 written MAX_DATA_LEN) in
      match slice bytes (Z.to_nat written) (Z.to_nat e) with
      | Ok chunk =>
          match write_at w h chunk (offset + written) with
          | (Ok n, w) => if (n =? 0) || (e - written <? n) then (Err EIO, w) else write_loop fuel w h bytes offset (written + n)
          | (Err e, w) => (Err e, w)
          | (Panic, w) => (Panic, w)
          end
      | Err e => (Err e, w)
      | Panic => (Panic, w)
      end
  end.

Fixpoint write_parts (w : W) (h : Z) (parts : list (list Z * (Z * Z))) : result Z unit * W :=
  match parts with
  | [] => (Ok tt, w)
  | (bytes, (offset, _)) :: parts =>
      match write_loop (S (List.length bytes)) w h bytes offset 0 with
      | (Ok _, w) => write_parts w h parts
      | r => r
      end
  end.

(** The reference for the mapping replaces the one for writing. *)
Definition publish (self : Owner) (w : W) : result Z unit * Owner * W :=
  match readonly_metadata w (handle self) with
  | (Ok reader, w) =>
      if (reader =? 0) || (reader =? handle self) then (Err EIO, self, w)
      else (Ok tt, {| handle := reader; layout := layout self; ready := true |}, close_image w (handle self))
  | (Err e, w) => (Err e, self, w)
  | (Panic, w) => (Panic, self, w)
  end.

(** From the layout on: create, fill, publish. *)
Definition fill_object (self : Owner) (w : W) (process : Process) (l : Layout) : result Z unit * Owner * W :=
  match create_image w (ly_length l) with
  | (Ok h, w) =>
      let self := with_handle self h in
      if h =? 0 then (Err EIO, self, w) else
      match write_parts w h (zip [lifecycle process; tls process; indirect process] (spans l)) with
      | (Ok _, w) => publish self w
      | (Err e, w) => (Err e, self, w)
      | (Panic, w) => (Panic, self, w)
      end
  | (Err e, w) => (Err e, self, w)
  | (Panic, w) => (Panic, self, w)
  end.

Definition map_err {A} (r : result (EncodeError C) A) : result Z A := match r with Ok x => Ok x | Err e => Err (encoding e) | Panic => Panic end.

Definition Owner_encode (self : Owner) (w : W) (argv envp : list (list Z)) (execfn random : list Z) (auxiliary : list (Z * Z)) (process : Process) (output : list Z) :
    result Z (list Z * Z) * Owner * W :=
  if negb (handle self =? 0) || ready self then (Err EINVAL, self, w) else
  match encode_initial_stack_for_process MAX_STACK_BYTES MAX_RELOCATIONS abi_encode argv envp execfn random auxiliary process output with
  | Ok x => (Ok x, self, w)
  | Err ImageTooLarge =>
      let prepared := (let? r := slice random 8 (List.length random) in
        let base := 52776558133248 + Z.land (from_le r) 65535 * MAX_BYTES in
        let? l := map_err (Layout_new base process) in
        let? x := map_err (encode_initial_stack_with_metadata MAX_STACK_BYTES MAX_RELOCATIONS abi_encode argv envp execfn random auxiliary process l output) in
        Ok (l, x)) in
      match prepared with
      | Ok (l, x) =>
          let self := {| handle := handle self; layout := Some l; ready := ready self |} in
          match fill_object self w process l with
          | (Ok _, self, w) => (Ok x, self, w)
          | (Err e, self, w) => (Err e, self, w)
          | (Panic, self, w) => (Panic, self, w)
          end
      | Err e => (Err e, self, w)
      | Panic => (Panic, self, w)
      end
  | Err e => (Err (encoding e), self, w)
  | Panic => (Panic, self, w)
  end.

(** [wire::attach_mappings] of the kernel interface; its error becomes [EIO]. *)
Context (MAX_MAPPINGS : Z) (attach_mappings : list Z -> Z -> list InitialMapping -> option (list Z * Z)).

Definition attach (self : Owner) (output : list Z) (length : Z) (existing : list InitialMapping) : result Z (list Z * Z) :=
  let? extra := Owner_mapping self in
  let records := existing ++ match extra with Some m => [m] | None => [] end in
  if MAX_MAPPINGS <? Z.of_nat (List.length records) then Err E2BIG else ok_or (attach_mappings output length records) EIO.

End Code.
