(* ===== verification/StartupOwner.v ===== *)
(** * Start-up images with mapped metadata

    What [Owner::encode] leaves behind, on any system whose memory objects behave: the stack and the object together give the
    program what it was started with, and no reference is lost whatever fails. *)

From Stdlib Require Import String.
From S2P Require Import Prelude Text Fields LaunchImage LaunchContainer LaunchLayout ProcessImage StartupStack StartupRead StartupMetadata.

(** ** Layouts *)

(** The parts lie one after the other from [c] on, at multiples of eight, and end at [e]. *)
Fixpoint spans_ok (c : Z) (parts : list (list Z)) (ss : list (Z * Z)) (e : Z) : Prop :=
  match parts, ss with
  | [], [] => c = e
  | part :: parts, (a, n) :: ss => if is_empty part then a = 0 /\ n = 0 /\ spans_ok c parts ss e else c <= a /\ a mod 8 = 0 /\ n = len part /\ spans_ok (a + n) parts ss e
  | _, _ => False
  end.

Lemma round_up_ge k n v : 0 <= k -> round_up n (2 ^ k) = Some v -> n <= v /\ v mod 2 ^ k = 0.
Proof. intros Hk. rewrite round_up_Some by done. destruct (_ <=? _); [| done]. intros [= <-]. split; [apply rup_ge; lia | apply rup_multiple; lia]. Qed.

Lemma spans_loop_ok {C} parts : forall c e ss, spans_loop (C := C) c parts = Ok (e, ss) -> spans_ok c parts ss e.
Proof.
  induction parts as [|part parts IH]; intros c e ss; cbn [spans_loop spans_ok]; [intros [= <- <-]; done |]. destruct (is_empty part) eqn:Ep.
  - destruct (spans_loop c parts) as [[c' s]|?|] eqn:E; [| done | done]. intros [= <- <-]. split_and!; [done | done |]. by apply IH.
  - destruct (round_up c 8) as [a|] eqn:Ea; [| done]. cbn [ok_or]. destruct (checked_add64 a (len part)) as [c1|] eqn:Ec; [| done]. cbn [ok_or]. destruct (spans_loop c1 parts) as [[c' s]|?|] eqn:E; [| done | done].
    intros [= <- <-]. apply (round_up_ge 3) in Ea as [H1 H2]; [| lia]. unfold checked_add64 in Ec. destruct (_ <=? _); [| done]. injection Ec as <-. split_and!; [done | done | done |]. by apply IH.
Qed.

Lemma spans_ok_le parts : forall c ss e, spans_ok c parts ss e -> c <= e.
Proof.
  induction parts as [|part parts IH]; intros c [|[a n] ss] e; cbn [spans_ok]; try done; [lia |]. destruct (is_empty part); [intros (_ & _ & H); by apply IH in H |].
  intros (H1 & _ & -> & H). apply IH in H. pose proof (len_nonneg part). lia.
Qed.

(** A span of a part that is there lies in the object. *)
Lemma spans_ok_lookup parts : forall c ss e i a n, 0 <= c -> spans_ok c parts ss e -> ss !! i = Some (a, n) -> n <> 0 -> 0 <= a /\ a + n <= e /\ 0 < n.
Proof.
  induction parts as [|part parts IH]; intros c [|[a' n'] ss] e i a n Hc; cbn [spans_ok]; try done. destruct (is_empty part) eqn:Ep.
  - intros (-> & -> & H) Hi Hn. destruct i as [|i]; [cbn in Hi; by simplify_eq |]. by apply (IH c ss e i).
  - intros (H1 & _ & -> & H) Hi Hn. pose proof (len_nonneg part). destruct i as [|i]; [cbn in Hi; injection Hi as <- <-; apply spans_ok_le in H; lia |]. apply (IH (a' + len part) ss e i); [lia | done | done | done].
Qed.

Local Abbreviation parts process := [lifecycle process; tls process; indirect process].

(** A layout that [Layout::new] made. *)
Definition layout_ok (m : Layout) (process : Process) : Prop :=
  4194304 <= base m /\ base m + ly_length m <= 140737488355328 /\ exists e, spans_ok 0 (parts process) (spans m) e /\ e <= ly_length m.

Lemma Layout_new_ok {C} b process m : Layout_new (C := C) b process = Ok m -> layout_ok m process /\ base m = b.
Proof.
  unfold Layout_new. destruct (_ || _) eqn:E; [done |]. bool_cases. destruct (spans_loop 0 _) as [[c ss]|?|] eqn:Es; [| done | done]. destruct (round_up c PAGE) as [n|] eqn:En; [| done]. cbn [ok_or].
  destruct (_ || _) eqn:E1; [done |]. bool_cases. unfold checked_add64. destruct (_ <=? _) eqn:E2; [| done]. cbn [ok_or]. destruct (_ <? _) eqn:E3; [done |]. bool_cases. intros [= <-]. split; [| done].
  split_and!; cbn [base ly_length spans]; [lia | lia |]. exists c. split; [by apply (spans_loop_ok (C := C)) |]. apply (round_up_ge 12) in En as [? _]; lia.
Qed.

Lemma Layout_new_no_panic {C} b process : Layout_new (C := C) b process <> Panic.
Proof.
  assert (forall l c, spans_loop (C := C) c l <> Panic) as Hs.
  { induction l as [|x l IH]; intros c; cbn [spans_loop]; [done |]. destruct (is_empty x); [specialize (IH c); by destruct (spans_loop c l) as [[? ?]|?|] |]. destruct (round_up c 8) as [a|]; [| done]. cbn [ok_or].
    destruct (checked_add64 a (len x)) as [d|]; [| done]. cbn [ok_or]. specialize (IH d). by destruct (spans_loop d l) as [[? ?]|?|]. }
  unfold Layout_new. destruct (_ || _); [done |]. specialize (Hs (parts process) 0). destruct (spans_loop 0 (parts process)) as [[c ss]|?|]; [| done | done]. destruct (round_up c PAGE) as [n|]; [| done]. cbn [ok_or].
  destruct (_ || _); [done |]. destruct (checked_add64 b n); [| done]. cbn [ok_or]. by destruct (_ <? _).
Qed.

Lemma layout_ok_safe m process : layout_ok m process -> layout_safe (Some m) /\ forall m' i a n, Some m = Some m' -> spans m' !! i = Some (a, n) -> n <> 0 -> 0 <= base m' + a.
Proof.
  intros (H1 & H2 & e & Hs & He). split.
  - intros m' i a n [= <-] Hi Hn. destruct (spans_ok_lookup _ _ _ _ _ _ _ ltac:(done) Hs Hi Hn). widths; lia.
  - intros m' i a n [= <-] Hi Hn. destruct (spans_ok_lookup _ _ _ _ _ _ _ ltac:(done) Hs Hi Hn). lia.
Qed.

Lemma layout_ok_matches m process : layout_ok m process -> Layout_matches m process = true.
Proof.
  intros (_ & _ & e & Hs & _). unfold Layout_matches. revert Hs. generalize (parts process) as l. generalize 0 as c. generalize (spans m) as ss.
  intros ss c l. revert c ss. induction l as [|part l IH]; intros c [|[a n] ss]; cbn [spans_ok]; try done. destruct part as [|x part]; cbn [is_empty].
  - intros (-> & -> & H). cbn. by apply (IH c).
  - intros (_ & _ & -> & H). cbn [zip zip_with forallb fst snd]. rewrite Z.eqb_refl. by apply (IH (a + len (x :: part))).
Qed.

(** ** Memory objects *)

(** What the system promises about its objects: a fresh reference is new, a write that reports [n] bytes has written a prefix
    of [n] bytes and a failed one may have written anything, a read-only reference is to the same object, and
    other references are not affected. *)
Class StoreLaws (W : Type) `{ImageStore W} : Type := {
  objects : W -> Z -> option (list Z);
  create_law w n : match create_image w n with
    | (Ok h, w') => if h =? 0 then forall x, objects w' x = objects w x else objects w h = None /\ objects w' h = Some (zeros (Z.to_nat n)) /\ forall x, x <> h -> objects w' x = objects w x
    | (Err _, w') => forall x, objects w' x = objects w x
    | (Panic, _) => False
    end;
  write_law w h l o c : objects w h = Some c -> match write_at w h l o with
    | (Ok n, w') => 0 <= n /\ (forall x, x <> h -> objects w' x = objects w x) /\ (n <= len l -> 0 <= o -> o + len l <= len c -> objects w' h = Some (take (Z.to_nat o) c ++ take (Z.to_nat n) l ++ drop (Z.to_nat (o + n)) c))
    | (Err _, w') => forall x, x <> h -> objects w' x = objects w x
    | (Panic, _) => False
    end;
  readonly_law w h : match readonly_metadata w h with
    | (Ok r, w') => if (r =? 0) || (r =? h) then forall x, objects w' x = objects w x else objects w r = None /\ objects w' r = objects w h /\ forall x, x <> r -> objects w' x = objects w x
    | (Err _, w') => forall x, objects w' x = objects w x
    | (Panic, _) => False
    end;
  close_law w h : objects (close_image w h) h = None /\ forall x, x <> h -> objects (close_image w h) x = objects w x }.

Section Fill.
Context {W : Type} `{StoreLaws W} (MAX_DATA_LEN : Z) (data_len : 0 <= MAX_DATA_LEN).

(** The other references are as before. *)
Definition only (h : Z) (w w' : W) : Prop := forall x, x <> h -> objects w' x = objects w x.

Lemma only_trans h w1 w2 w3 : only h w1 w2 -> only h w2 w3 -> only h w1 w3.
Proof. intros H1 H2 x Hx. by rewrite H2, H1. Qed.

(** A piece goes behind what is written already. *)
Lemma splice_piece (A bytes R : list Z) written n e : 0 <= written -> 0 <= n -> written + n <= e -> e <= len bytes ->
  let c := A ++ take (Z.to_nat written) bytes ++ zeros (Z.to_nat (len bytes - written)) ++ R in
  take (Z.to_nat (len A + written)) c ++ take (Z.to_nat n) (take (Z.to_nat e - Z.to_nat written) (drop (Z.to_nat written) bytes)) ++ drop (Z.to_nat (len A + written + n)) c =
  A ++ take (Z.to_nat (written + n)) bytes ++ zeros (Z.to_nat (len bytes - (written + n))) ++ R.
Proof.
  intros H1 H2 H3 H4. cbv zeta. set (x := Z.to_nat written) in *. set (y := Z.to_nat n) in *. assert (x + y <= List.length bytes)%nat as Hxy by (unfold len in H4; lia).
  replace (Z.to_nat (len A + written)) with (List.length (A ++ take x bytes)) by (rewrite length_app, length_take; unfold len; lia).
  replace (Z.to_nat (len A + written + n)) with (List.length (A ++ take x bytes) + y)%nat by (rewrite length_app, length_take; unfold len; lia).
  rewrite !(app_assoc A), take_app_length, <- drop_drop, drop_app_length. rewrite drop_app_le by (rewrite zeros_length; unfold len in *; lia).
  rewrite take_take, Nat.min_l by lia. replace (Z.to_nat (written + n)) with (x + y)%nat by lia. rewrite <- !app_assoc. f_equal. rewrite <- take_take_drop, <- app_assoc. do 3 f_equal.
  unfold zeros. rewrite drop_replicate. f_equal. lia.
Qed.

(** One part is written behind [A], in pieces. *)
Lemma write_loop_spec bytes A R h : len bytes <= U64_MAX -> forall fuel w written, 0 <= written <= len bytes -> (Z.to_nat (len bytes - written) < fuel)%nat ->
  objects w h = Some (A ++ take (Z.to_nat written) bytes ++ zeros (Z.to_nat (len bytes - written)) ++ R) ->
  match write_loop MAX_DATA_LEN fuel w h bytes (len A) written with
  | (Ok _, w') => objects w' h = Some (A ++ bytes ++ R) /\ only h w w'
  | (Err _, w') => only h w w'
  | (Panic, _) => False
  end.
Proof using All.
  intros Hmax. induction fuel as [|fuel IH]; intros w written Hwr Hf Hobj; [lia |]. cbn [write_loop]. pose proof (len_nonneg A) as LA. destruct (written <? len bytes) eqn:E; cbn [negb]; bool_cases.
  2:{ split; [| done]. rewrite Hobj. assert (written = len bytes) as -> by lia. rewrite Z.sub_diag. cbn. rewrite take_ge by (unfold len; lia). done. }
  set (e := Z.min _ _). assert (written <= e <= len bytes) as He by (unfold e, saturating_add64; lia).
  unfold slice, get_range. rewrite (proj2 (Nat.leb_le _ _)) by lia. rewrite (proj2 (Nat.leb_le _ _)) by (unfold len in *; lia). cbn [andb]. set (chunk := take _ _).
  assert (len chunk = e - written) as Hch by (unfold chunk, len in *; rewrite length_take, length_drop; lia).
  pose proof (write_law w h chunk (len A + written) _ Hobj) as Hw. destruct (write_at w h chunk (len A + written)) as [[n|er|] w1]; [| exact Hw | done].
  destruct Hw as (Hn & Ho & Hw). destruct ((n =? 0) || (e - written <? n)) eqn:En; [exact Ho |]. bool_cases.
  assert (len (take (Z.to_nat written) bytes) = written) as Ht by (unfold len in *; rewrite length_take; lia).
  specialize (Hw ltac:(lia) ltac:(lia)). rewrite !len_app, len_zeros, Ht in Hw. pose proof (len_nonneg R). specialize (Hw ltac:(lia)).
  unfold chunk in Hw. rewrite (splice_piece A bytes R written n e) in Hw by lia. specialize (IH w1 (written + n) ltac:(lia) ltac:(lia) Hw).
  destruct (write_loop _ _ w1 _ _ _ _) as [[u|er|] w2]; [destruct IH as [IH1 IH2]; split; [done | by apply (only_trans h w w1)] | by apply (only_trans h w w1) | done].
Qed.

(** All parts, at their places behind [D]; the object was empty from there on. *)
Lemma write_parts_spec h L parts : forall ss e D w, spans_ok (len D) parts ss e -> e <= L -> L <= U64_MAX -> objects w h = Some (D ++ zeros (Z.to_nat (L - len D))) ->
  match write_parts MAX_DATA_LEN w h (zip parts ss) with
  | (Ok _, w') => only h w w' /\ exists X, objects w' h = Some (D ++ X) /\ len (D ++ X) = L /\
      forall i part a n, parts !! i = Some part -> part <> [] -> ss !! i = Some (a, n) -> len D <= a /\ bytes_at (D ++ X) a (len part) = part
  | (Err _, w') => only h w w'
  | (Panic, _) => False
  end.
Proof using All.
  induction parts as [|part parts IH]; intros [|[a n] ss] e D w Hs He HL Hobj; cbn [spans_ok zip zip_with write_parts] in *; try done.
  - split; [done |]. exists (zeros (Z.to_nat (L - len D))). split_and!; [done | rewrite len_app, len_zeros; lia | intros i ? ? ? Hi; done].
  - pose proof (len_nonneg D) as LD. destruct part as [|x0 part0].
    + cbn [is_empty] in Hs. destruct Hs as (-> & -> & Hs). cbn [List.length write_loop]. change (len []) with 0. cbn [Z.ltb Z.compare negb].
      specialize (IH ss e D w Hs He HL Hobj). destruct (write_parts _ w h (zip parts ss)) as [[u|er|] w']; [| done | done]. destruct IH as (Ho & X & H1 & H2 & H3). split; [done |]. exists X. split_and!; [done | done |].
      intros [|i] part a n Hi Hp; [cbn in Hi; congruence |]. by apply H3.
    + set (part := x0 :: part0) in *. change (is_empty part) with false in Hs. cbv iota in Hs. destruct Hs as (Ha & _ & -> & Hs). pose proof (spans_ok_le _ _ _ _ Hs) as Hle. pose proof (len_nonneg part) as Lp.
      set (A := D ++ zeros (Z.to_nat (a - len D))). assert (len A = a) as HA by (unfold A; rewrite len_app, len_zeros; lia).
      pose proof (write_loop_spec part A (zeros (Z.to_nat (L - (a + len part)))) h ltac:(lia) (S (List.length part)) w 0 ltac:(lia) ltac:(unfold len; lia)) as Hwl. rewrite HA, Z.sub_0_r in Hwl. cbn [Z.to_nat take app] in Hwl.
      assert (D ++ zeros (Z.to_nat (L - len D)) = A ++ zeros (Z.to_nat (len part)) ++ zeros (Z.to_nat (L - (a + len part)))) as Ez by (unfold A; rewrite <- app_assoc; f_equal; unfold zeros; rewrite <- !replicate_add; f_equal; lia).
      rewrite Ez in Hobj. change (S (List.length part)) with (List.length (0 :: part)) in *. specialize (Hwl Hobj). destruct (write_loop _ _ w h part a 0) as [[u|er|] w1]; [| done | done]. destruct Hwl as [Hw1 Ho1].
      assert (len (A ++ part) = a + len part) as HAp by (rewrite len_app; lia). rewrite <- HAp in Hs. specialize (IH ss e (A ++ part) w1 Hs He HL). rewrite HAp, <- app_assoc in IH. specialize (IH Hw1).
      destruct (write_parts _ w1 h (zip parts ss)) as [[u'|er|] w2]; [| by apply (only_trans h w w1) | done]. destruct IH as (Ho2 & X & H1 & H2 & H3). split; [by apply (only_trans h w w1) |].
      exists (zeros (Z.to_nat (a - len D)) ++ part ++ X). assert (D ++ zeros (Z.to_nat (a - len D)) ++ part ++ X = (A ++ part) ++ X) as Ex by (unfold A; by rewrite <- !app_assoc). rewrite Ex. split_and!; [done | done |].
      intros [|i] part' a' n' Hi Hp Hss; cbn in Hi, Hss.
      * injection Hi as <-. injection Hss as <- <-. split; [done |]. rewrite <- app_assoc. by apply bytes_at_middle.
      * destruct (H3 i part' a' n' Hi Hp Hss) as [? ?]. split; [lia | done].
Qed.

Definition kept (o : Owner) (w w' : W) : Prop := forall x, objects (Owner_drop o w') x = objects w x.

(** A reference that was new, and closed again. *)
Lemma drop_fresh o (w w1 w2 : W) : handle o <> 0 -> objects w (handle o) = None -> only (handle o) w w1 -> only (handle o) w1 w2 -> kept o w w2.
Proof.
  intros Hz Hn H1' H2' x. unfold Owner_drop. rewrite (proj2 (Z.eqb_neq _ _)) by done. destruct (close_law w2 (handle o)) as [Hc Ho].
  destruct (decide (x = handle o)) as [->|Hx]; [by rewrite Hc, Hn |]. by rewrite Ho, H2', H1'.
Qed.

Lemma publish_spec o (w w1 : W) c : handle o <> 0 -> objects w (handle o) = None -> only (handle o) w w1 -> objects w1 (handle o) = Some c ->
  match publish o w1 with
  | (Ok _, o', w') => ready o' = true /\ layout o' = layout o /\ handle o' <> 0 /\ objects w' (handle o') = Some c /\ kept o' w w'
  | (Err _, o', w') => kept o' w w'
  | (Panic, _, _) => False
  end.
Proof.
  intros Hz Hn Ho Hc. unfold publish. pose proof (readonly_law w1 (handle o)) as Hr. destruct (readonly_metadata w1 (handle o)) as [[r|e|] w2]; [| apply (drop_fresh o w w1 w2); [done | done | done | intros x _; apply Hr] | done].
  destruct ((r =? 0) || (r =? handle o)) eqn:E; [apply (drop_fresh o w w1 w2); [done | done | done | intros x _; apply Hr] |]. bool_cases. destruct Hr as (R1 & R2 & R3).
  destruct (close_law w2 (handle o)) as [C1 C2]. cbn [ready layout handle]. split_and!; [done | done | done | by rewrite C2, R2 by congruence |].
  intros x. unfold Owner_drop. cbn [handle]. rewrite (proj2 (Z.eqb_neq _ _)) by done. destruct (close_law (close_image w2 (handle o)) r) as [D1 D2].
  destruct (decide (x = r)) as [->|Hx]; [rewrite D1, <- R1; by apply Ho |]. rewrite D2 by done. destruct (decide (x = handle o)) as [->|Hy]; [by rewrite C1, Hn |]. rewrite C2, R3 by done. by apply Ho.
Qed.

Lemma fill_object_spec o (w : W) process l : layout_ok l process -> handle o = 0 ->
  match fill_object MAX_DATA_LEN o w process l with
  | (Ok _, o', w') => ready o' = true /\ layout o' = layout o /\ handle o' <> 0 /\ kept o' w w' /\ exists c, objects w' (handle o') = Some c /\ len c = ly_length l /\
      forall i part a n, parts process !! i = Some part -> part <> [] -> spans l !! i = Some (a, n) -> 0 <= a /\ bytes_at c a (len part) = part
  | (Err _, o', w') => kept o' w w'
  | (Panic, _, _) => False
  end.
Proof using All.
  intros (Hb1 & Hb2 & e & Hs & He) Ho. pose proof (spans_ok_le _ _ _ _ Hs) as H0e. unfold fill_object. pose proof (create_law w (ly_length l)) as Hc. destruct (create_image w (ly_length l)) as [[h|er|] w1]; [| intros x; unfold Owner_drop; rewrite Ho; apply Hc | done].
  destruct (h =? 0) eqn:E; bool_cases; [subst h; intros x; unfold Owner_drop; cbn; apply Hc |]. destruct Hc as (C1 & C2 & C3).
  pose proof (write_parts_spec h (ly_length l) (parts process) (spans l) e [] w1 Hs He ltac:(widths; lia)) as Hw. change (len []) with 0 in Hw. rewrite Z.sub_0_r in Hw. specialize (Hw C2).
  destruct (write_parts _ w1 h _) as [[u|er|] w2]; [| apply (drop_fresh (with_handle o h) w w1 w2); done | done]. destruct Hw as (Ho2 & X & X1 & X2 & X3). cbn [app] in *.
  pose proof (publish_spec (with_handle o h) w w2 X E C1 ltac:(by apply (only_trans h w w1)) X1) as Hp. destruct (publish (with_handle o h) w2) as [[[u'|er|] o'] w3]; [| done | done].
  destruct Hp as (P1 & P2 & P3 & P4 & P5). split_and!; [done | done | done | done |]. exists X. done.
Qed.
End Fill.

(** ** What the new program is given *)

(** The bytes [l] at address [a], on the stack or in the mapping at [b] with contents [c]. *)
Definition finds (k : Kernel) (mem : list Z) (mapping : option (Z * list Z)) (a : Z) (l : list Z) : Prop :=
  (stack_base k <= a /\ bytes_at mem (a - stack_base k) (len l) = l) \/ exists b c, mapping = Some (b, c) /\ b <= a /\ bytes_at c (a - b) (len l) = l.

Definition given_to (k : Kernel) (st : list Z) (rs : list Relocation) (mapping : option (Z * list Z)) (argv envp : list (list Z)) (execfn random : list Z) (auxiliary : list (Z * Z)) (process : Process) : Prop :=
  let mem := load k st rs in
  exists ra ea a0 a1 a2,
    start (stack_base k) mem = Some {| argc := Z.of_nat (List.length argv); arguments := argv; variables := environment envp process; auxv := expected_auxv k process auxiliary ra ea a0 a1 a2 |} /\
    finds k mem None ra random /\ cstring mem (ea - stack_base k) = execfn /\
    (lifecycle process <> [] -> finds k mem mapping a0 (lifecycle process)) /\ (tls process <> [] -> finds k mem mapping a1 (tls process)) /\ (indirect process <> [] -> finds k mem mapping a2 (indirect process)).

(** The contents of a mapping fit the layout. *)
Definition carries (mapped : option Layout) (process : Process) (mapping : option (Z * list Z)) : Prop :=
  match mapped with
  | None => True
  | Some m => layout_ok m process /\ exists c, mapping = Some (base m, c) /\
      forall i part a n, parts process !! i = Some part -> part <> [] -> spans m !! i = Some (a, n) -> 0 <= a /\ bytes_at c a (len part) = part
  end.

Section Given.
Context {C : Type} (MAX_STACK_BYTES : Z) (MAX_RELOCATIONS : nat) (stack_limit : 0 <= MAX_STACK_BYTES <= U32_MAX).
Context (argv envp : list (list Z)) (execfn random : list Z) (auxiliary : list (Z * Z)) (process : Process).
Context (Hproc : process_typed process) (Haux : aux_typed auxiliary).

Lemma mapped_finds m i part o k mem c : layout_ok m process -> parts process !! i = Some part -> part <> [] ->
  (forall i part a n, parts process !! i = Some part -> part <> [] -> spans m !! i = Some (a, n) -> 0 <= a /\ bytes_at c a (len part) = part) ->
  finds k mem (Some (base m, c)) (settled_address k (Some m) i o) part.
Proof.
  intros (_ & _ & e & Hs & _) Hi Hp Hc. right. exists (base m), c. split; [done |]. cbn [settled_address mapped_address].
  assert (exists a, spans m !! i = Some (a, len part)) as [a Ha].
  { revert Hs Hi. generalize (parts process) as l. generalize 0 as x. generalize (spans m) as ss. clear - Hp. intros ss x l. revert x ss i. induction l as [|q l IH]; intros x [|[a n] ss] i Hs Hi; cbn [spans_ok] in Hs; try done.
    destruct i as [|i]; cbn in Hi |- *; [injection Hi as ->; destruct part as [|y part']; [done |]; cbn [is_empty] in Hs; destruct Hs as (_ & _ & -> & _); by exists a |].
    destruct (is_empty q); [destruct Hs as (_ & _ & Hs); by apply (IH x) | destruct Hs as (_ & _ & _ & Hs); by apply (IH (a + n))]. }
  rewrite Ha. assert (len part <> 0) as Hn by (destruct part; [done | unfold len; cbn; lia]). rewrite (proj2 (Z.eqb_neq _ _)) by done. change (default o (Some (base m + a))) with (base m + a).
  destruct (Hc i part a _ Hi Hp Ha) as [H1 H2]. split; [lia |]. by replace (base m + a - base m) with a by lia.
Qed.

Lemma initial_stack_given mapped : (forall m, mapped = Some m -> layout_ok m process) ->
  match initial_stack (C := C) MAX_STACK_BYTES MAX_RELOCATIONS argv envp execfn random auxiliary process mapped with
  | Ok (st, rs) => inputs_ok argv envp execfn auxiliary /\ len st mod 16 = 0 /\ forall mapping, carries mapped process mapping -> forall k, kernel_ok k (len st) -> given_to k st rs mapping argv envp execfn random auxiliary process
  | Err _ => True
  | Panic => False
  end.
Proof using All.
  intros Hlok. assert (layout_safe mapped /\ forall m i a n, mapped = Some m -> spans m !! i = Some (a, n) -> n <> 0 -> 0 <= base m + a) as [Hsafe Hpos].
  { destruct mapped as [m|]; [apply layout_ok_safe with (process := process); by apply Hlok |]. split; intros m i a n E; discriminate E. }
  pose proof (initial_stack_spec (C := C) MAX_STACK_BYTES MAX_RELOCATIONS stack_limit argv envp execfn random auxiliary process mapped Hsafe) as Hs.
  destruct (initial_stack _ _ _ _ _ _ _ _ _) as [[st rs]|e|]; [| done | done]. destruct Hs as (Hin & Hsz & -> & ->). set (size := stack_size argv envp execfn random auxiliary process _) in *. set (st := words _ ++ _).
  assert (len st = size) as Lst.
  { pose proof (bytes3_length argv envp execfn random auxiliary process mapped) as B3. destruct (sizes_order argv envp execfn random auxiliary process (match mapped with Some _ => true | None => false end)) as (_ & _ & _ & _ & _ & _ & _ & _ & O9). fold size in O9.
    unfold st. rewrite !len_app, len_zeros, len_words, length_map, (all_words_length argv envp execfn random auxiliary process mapped). lia. }
  rewrite Lst. split_and!; [done | unfold size, stack_size; apply rup_multiple; lia |]. intros mapping Hcar k Hk. destruct Hin as (Hne & Ha & He & Ht).
  pose proof (stack_starts (C := C) MAX_STACK_BYTES MAX_RELOCATIONS stack_limit k argv envp execfn random auxiliary process mapped Hproc Haux Hk Hsafe Hsz Hpos Ha Ht) as H1.
  destruct (stack_contents (C := C) MAX_STACK_BYTES MAX_RELOCATIONS stack_limit k argv envp execfn random auxiliary process mapped Hproc Haux Hk Hsafe Hsz Hpos Ha He) as (H2 & H3 & H4).
  destruct (offsets_range MAX_STACK_BYTES stack_limit argv envp execfn random auxiliary process mapped) as (_ & _ & R1 & _ & R3 & R4 & R5).
  unfold given_to. do 5 eexists. split; [exact H1 |]. split; [left; split; [lia | exact H2] |]. split; [exact H3 |].
  destruct mapped as [m|].
  - destruct Hcar as (Hok & c & -> & Hc). split_and!; intros Hp; [by apply (mapped_finds m 0) | by apply (mapped_finds m 1) | by apply (mapped_finds m 2)].
  - destruct (H4 eq_refl) as (P0 & P1 & P2). split_and!; intros Hp; left; (split; [cbn; lia |]); [by apply P0 | by apply P1 | by apply P2].
Qed.

End Given.

(** ** The owner *)

Section Owner.
Context {C W : Type} `{StoreLaws W}.
Context (MAX_STACK_BYTES : Z) (MAX_RELOCATIONS : nat) (abi_encode : Z -> list Z -> list Relocation -> list Z -> result C (list Z * Z)).
Context (MAX_DATA_LEN access_read map_shared : Z).

(** What the owner asks the kernel to map, with its contents. *)
Definition mapping_of (o : Owner) (w : W) (mapping : option (Z * list Z)) : Prop :=
  match Owner_mapping access_read map_shared o with
  | Ok None => mapping = None
  | Ok (Some im) => exists c, mapping = Some (im_address im, c) /\ objects w (backing_handle im) = Some c /\ len c = im_length im
  | _ => False
  end.

(** C7: the start-up image of a process.  Whatever the sizes of the arguments, the environment and the loader's metadata, and
    whichever call on memory objects fails or writes less than it was asked to, [Owner::encode] does not panic, and once the
    owner is dropped every reference is as it was.  If it succeeds, the kernel's codec was given a stack, a multiple of 16 bytes long,
    that is right wherever the kernel puts it: a program that walks it from there finds the number of arguments, the
    arguments, the allowed environment, and the auxiliary vector with the values of the selected image, the identity and
    the caller's entries; the random bytes and the name of the executable are where the vector says, and so is each part of
    the metadata, on the stack or in the object that the owner asks the kernel to map. *)
Theorem startup_image_delivered argv envp execfn random auxiliary process output (w : W) :
  0 <= MAX_STACK_BYTES <= U32_MAX -> 0 <= MAX_DATA_LEN -> (forall st rs, abi_encode 0 st rs output <> Panic) -> process_typed process -> aux_typed auxiliary -> arr 16 random ->
  let '(r, o, w') := Owner_encode MAX_STACK_BYTES MAX_RELOCATIONS abi_encode MAX_DATA_LEN Owner_default w argv envp execfn random auxiliary process output in
  r <> Panic /\ (forall x, objects (Owner_drop o w') x = objects w x) /\
  forall x, r = Ok x -> inputs_ok argv envp execfn auxiliary /\ exists st rs mapping, abi_encode 0 st rs output = Ok x /\ len st mod 16 = 0 /\ mapping_of o w' mapping /\
    forall k, kernel_ok k (len st) -> given_to k st rs mapping argv envp execfn random auxiliary process.
Proof.
  intros Hmax Hdata Hcodec Hproc Haux [Hr Hru]. unfold Owner_encode. cbn [handle ready Owner_default Z.eqb negb orb]. unfold encode_initial_stack_for_process, encode_process.
  pose proof (initial_stack_given (C := C) MAX_STACK_BYTES MAX_RELOCATIONS Hmax argv envp execfn random auxiliary process Hproc Haux None ltac:(done)) as Hi.
  destruct (initial_stack _ _ _ _ _ _ _ _ None) as [[st rs]|e|]; [| | done].
  { pose proof (Hcodec st rs) as Hp. destruct (abi_encode 0 st rs output) as [x|e|] eqn:Ec; [| by split_and! | done]. split_and!; [done | done |]. intros x' [= <-]. destruct Hi as (H1 & H2 & H3). split; [done |]. exists st, rs, None. split_and!; [done | done | done |]. by apply H3. }
  destruct e as [| | |e]; try (by split_and!). clear Hi.
  assert (exists r8, slice (E := Z) random 8 (List.length random) = Ok r8) as [r8 ->] by (rewrite Hr; unfold slice, get_range; rewrite Hr; eexists; reflexivity).
  cbv zeta. set (b := 52776558133248 + _). pose proof (Layout_new_no_panic (C := C) b process) as Hnp. destruct (Layout_new b process) as [l|e|] eqn:El; cbn [map_err]; [| by split_and! | done]. clear Hnp.
  destruct (Layout_new_ok _ _ _ El) as [Hok _]. unfold encode_initial_stack_with_metadata, encode_process. rewrite layout_ok_matches by done. cbn [negb].
  pose proof (initial_stack_given (C := C) MAX_STACK_BYTES MAX_RELOCATIONS Hmax argv envp execfn random auxiliary process Hproc Haux (Some l) ltac:(by intros m [= <-])) as Hi.
  destruct (initial_stack _ _ _ _ _ _ _ _ (Some l)) as [[st rs]|e|]; [| by split_and! | done]. pose proof (Hcodec st rs) as Hp. destruct (abi_encode 0 st rs output) as [x|e|] eqn:Ec; cbn [map_err]; [| by split_and! | done].
  pose proof (fill_object_spec MAX_DATA_LEN Hdata {| handle := 0; layout := Some l; ready := false |} w process l Hok eq_refl) as Hf. cbn [Owner_default handle ready] in *.
  destruct (fill_object _ _ w process l) as [[[u|e|] o'] w']; [| by split_and! | done]. destruct Hf as (F1 & F2 & F3 & F4 & c & F5 & F6 & F7). split_and!; [done | exact F4 |]. intros x' [= <-]. destruct Hi as (H1 & H2 & H3). split; [done |].
  exists st, rs, (Some (base l, c)). split_and!; [done | done | |].
  - unfold mapping_of, Owner_mapping. rewrite F1, F2. cbn. by exists c.
  - apply H3. cbn. split; [done |]. by exists c.
Qed.
End Owner.

(** ** A system that meets the interface *)

(** Numbered objects; a write moves at most [limit] bytes. *)
Record Heap : Type := { heap : Z -> option (list Z); next : Z; limit : nat }.
Definition heap_objects (w : Heap) (h : Z) : option (list Z) := if (0 <? h) && (h <? next w) then heap w h else None.
Definition heap_put (w : Heap) (h : Z) (c : option (list Z)) (n : Z) : Heap := {| heap := fun x => if x =? h then c else heap w x; next := n; limit := limit w |}.
Definition heap_fresh (w : Heap) : Z := Z.max 1 (next w).

#[export] Instance Heap_store : ImageStore Heap := {
  create_image w n := (Ok (heap_fresh w), heap_put w (heap_fresh w) (Some (zeros (Z.to_nat n))) (heap_fresh w + 1));
  write_at w h l o :=
    match heap_objects w h with
    | None => (Err EIO, w)
    | Some c => let m := Nat.min (limit w) (List.length l) in
        (Ok (Z.of_nat m), heap_put w h (Some (take (Z.to_nat o) c ++ take m l ++ drop (Z.to_nat (o + Z.of_nat m)) c)) (next w))
    end;
  readonly_metadata w h := (Ok (heap_fresh w), heap_put w (heap_fresh w) (heap_objects w h) (heap_fresh w + 1));
  close_image w h := heap_put w h None (next w) }.

Lemma heap_put_new w c : heap_objects w (heap_fresh w) = None /\ heap_objects (heap_put w (heap_fresh w) c (heap_fresh w + 1)) (heap_fresh w) = c /\
  forall x, x <> heap_fresh w -> heap_objects (heap_put w (heap_fresh w) c (heap_fresh w + 1)) x = heap_objects w x.
Proof.
  unfold heap_objects, heap_put, heap_fresh. cbn. split_and!.
  - by rewrite (proj2 (Z.ltb_ge _ (next w))), andb_false_r by lia.
  - rewrite !(proj2 (Z.ltb_lt _ _)) by lia. by rewrite Z.eqb_refl.
  - intros x Hx. rewrite (proj2 (Z.eqb_neq _ _)) by done. destruct (0 <? x) eqn:E; cbn; [| done]. bool_cases. destruct (x <? next w) eqn:E1; bool_cases; [by rewrite (proj2 (Z.ltb_lt _ _)) by lia | by rewrite (proj2 (Z.ltb_ge _ _)) by lia].
Qed.
Lemma heap_put_old w h c : heap_objects (heap_put w h c (next w)) h = (if (0 <? h) && (h <? next w) then c else None) /\ forall x, x <> h -> heap_objects (heap_put w h c (next w)) x = heap_objects w x.
Proof. unfold heap_objects, heap_put. cbn. rewrite Z.eqb_refl. split; [done |]. intros x Hx. by rewrite (proj2 (Z.eqb_neq _ _)). Qed.

#[export] Instance Heap_laws : StoreLaws Heap.
Proof.
  refine {| objects := heap_objects |}.
  - intros w n. cbn. rewrite (proj2 (Z.eqb_neq _ _)) by (unfold heap_fresh; lia). apply heap_put_new.
  - intros w h l o c Hc. cbn. rewrite Hc. destruct (heap_put_old w h (Some (take (Z.to_nat o) c ++ take (Nat.min (limit w) (List.length l)) l ++ drop (Z.to_nat (o + Z.of_nat (Nat.min (limit w) (List.length l)))) c))) as [H1 H2].
    split_and!; [lia | exact H2 |]. intros _ _ _. rewrite H1, Nat2Z.id. unfold heap_objects in Hc. by destruct ((0 <? h) && (h <? next w)).
  - intros w h. cbn. destruct (heap_put_new w (heap_objects w h)) as (H1 & H2 & H3). destruct ((heap_fresh w =? 0) || (heap_fresh w =? h)) eqn:E; [| by split_and!]. apply orb_true_iff in E as [E|E]; bool_cases; [unfold heap_fresh in E; lia |]. subst h.
    intros x. destruct (decide (x = heap_fresh w)) as [->|Hx]; [by rewrite H2 | by apply H3].
  - intros w h. cbn. destruct (heap_put_old w h None) as [H1 H2]. split; [| exact H2]. rewrite H1. by destruct (_ && _).
Defined.

Definition sample_process : Process := {| image := None; identity := Identity_default; lifecycle := replicate 100 7; tls := []; indirect := [1; 2; 3] |}.
Definition empty_heap : Heap := {| heap := fun _ => None; next := 1; limit := 40 |}.

Lemma startup_image_delivered_witness :
  let '(r, o, w') := Owner_encode 416 16 (fun _ st _ _ => Ok (st, len st) : result unit _) 64 Owner_default empty_heap [text "sh"; text "-c"] [text "A=1"] (text "/sh") (zeros 16) [(99, 1)] sample_process [] in
  ready o = true /\ exists st rs mapping, mapping_of 1 2 o w' mapping /\ forall k, kernel_ok k (len st) -> given_to k st rs mapping [text "sh"; text "-c"] [text "A=1"] (text "/sh") (zeros 16) [(99, 1)] sample_process.
Proof.
  pose proof (startup_image_delivered 416 16 (fun _ st _ _ => Ok (st, len st) : result unit _) 64 1 2 [text "sh"; text "-c"] [text "A=1"] (text "/sh") (zeros 16) [(99, 1)] sample_process [] empty_heap
    ltac:(split; vm_compute; congruence) ltac:(vm_compute; congruence) ltac:(intros; discriminate) ltac:(split; [vm_compute; repeat split; congruence | intros i E; discriminate E]) ltac:(repeat constructor; vm_compute; congruence) ltac:(split; [reflexivity | apply zeros_u8])) as T.
  set (run := Owner_encode _ _ _ _ _ _ _ _ _ _ _ _ _) in *. assert (ready (snd (fst run)) = true) as H1 by (vm_compute; reflexivity). assert (match fst (fst run) with Ok _ => true | _ => false end = true) as H2 by (vm_compute; reflexivity).
  destruct run as [[r o] w']. cbn [fst snd] in *. destruct T as (_ & _ & T). destruct r as [x| |]; [| discriminate | discriminate]. destruct (T x eq_refl) as (_ & st & rs & mapping & _ & _ & Hm & Hk).
  split; [done |]. by exists st, rs, mapping.
Defined.
