(* ===== verification/NetWire.v ===== *)
(** * The network service's protocol: opcodes, headers, fields, and what a codec promises ([net-device-protocol/lib.rs])

    Every message begins with the same header of 24 bytes and goes on with little-endian fields at fixed offsets.  This file
    holds the header, the readers and writers of fields, and the lemmas that tell what they do to a message which is
    a list of fields ([pack]).  [Codec] is a message format: its encoder and decoder, the values that they are for, and the
    bytes that stand for a value; [exact] is the promise.  The lemmas and tactics at the end reduce both directions of a codec to the
    list of its fields. *)

From S2P Require Import Prelude Text Fields.

(** ** Definitions *)

Definition MAGIC : Z := 1413828173. (* 0x5445_4e4d *)
Definition VERSION : Z := 1.
Definition HEADER_LEN : Z := 24.

Inductive Opcode : Type :=
  | OpGetInterfaceInfo | OpTransmitFrame | OpReceiveFrame | OpGetStatistics | OpInterfaceInfo | OpTransmitComplete | OpFrameReceived 
  | OpStatistics | OpPing | OpGetStackStatistics | OpResolveIpv4 | OpGetSecurityStatistics | OpTcpConnect | OpTcpSend | OpTcpReceive 
  | OpTcpClose | OpTlsConnect | OpTlsSend | OpTlsReceive | OpTlsClose | OpHttpRequest | OpHttpRead | OpHttpClose | OpPingResult 
  | OpStackStatistics | OpResolveIpv4Result | OpSecurityStatistics | OpTcpConnectResult | OpTcpSendResult | OpTcpReceiveResult 
  | OpTcpCloseResult | OpTlsConnectResult | OpTlsSendResult | OpTlsReceiveResult | OpTlsCloseResult | OpHttpRequestResult | OpHttpReadResult 
  | OpHttpCloseResult.

Definition Opcode_wire_value (self : Opcode) : Z :=
  match self with
  | OpGetInterfaceInfo => 1
  | OpTransmitFrame => 2
  | OpReceiveFrame => 3
  | OpGetStatistics => 4
  | OpInterfaceInfo => 32769
  | OpTransmitComplete => 32770
  | OpFrameReceived => 32771
  | OpStatistics => 32772
  | OpPing => 257
  | OpGetStackStatistics => 258
  | OpResolveIpv4 => 259
  | OpGetSecurityStatistics => 260
  | OpTcpConnect => 272
  | OpTcpSend => 273
  | OpTcpReceive => 274
  | OpTcpClose => 275
  | OpTlsConnect => 288
  | OpTlsSend => 289
  | OpTlsReceive => 290
  | OpTlsClose => 291
  | OpHttpRequest => 304
  | OpHttpRead => 305
  | OpHttpClose => 306
  | OpPingResult => 33025
  | OpStackStatistics => 33026
  | OpResolveIpv4Result => 33027
  | OpSecurityStatistics => 33028
  | OpTcpConnectResult => 33040
  | OpTcpSendResult => 33041
  | OpTcpReceiveResult => 33042
  | OpTcpCloseResult => 33043
  | OpTlsConnectResult => 33056
  | OpTlsSendResult => 33057
  | OpTlsReceiveResult => 33058
  | OpTlsCloseResult => 33059
  | OpHttpRequestResult => 33072
  | OpHttpReadResult => 33073
  | OpHttpCloseResult => 33074
  end.

Definition Opcode_from_wire (value : Z) : option Opcode :=
  if value =? 1 then Some OpGetInterfaceInfo else
  if value =? 2 then Some OpTransmitFrame else
  if value =? 3 then Some OpReceiveFrame else
  if value =? 4 then Some OpGetStatistics else
  if value =? 32769 then Some OpInterfaceInfo else
  if value =? 32770 then Some OpTransmitComplete else
  if value =? 32771 then Some OpFrameReceived else
  if value =? 32772 then Some OpStatistics else
  if value =? 257 then Some OpPing else
  if value =? 258 then Some OpGetStackStatistics else
  if value =? 259 then Some OpResolveIpv4 else
  if value =? 260 then Some OpGetSecurityStatistics else
  if value =? 272 then Some OpTcpConnect else
  if value =? 273 then Some OpTcpSend else
  if value =? 274 then Some OpTcpReceive else
  if value =? 275 then Some OpTcpClose else
  if value =? 288 then Some OpTlsConnect else
  if value =? 289 then Some OpTlsSend else
  if value =? 290 then Some OpTlsReceive else
  if value =? 291 then Some OpTlsClose else
  if value =? 304 then Some OpHttpRequest else
  if value =? 305 then Some OpHttpRead else
  if value =? 306 then Some OpHttpClose else
  if value =? 33025 then Some OpPingResult else
  if value =? 33026 then Some OpStackStatistics else
  if value =? 33027 then Some OpResolveIpv4Result else
  if value =? 33028 then Some OpSecurityStatistics else
  if value =? 33040 then Some OpTcpConnectResult else
  if value =? 33041 then Some OpTcpSendResult else
  if value =? 33042 then Some OpTcpReceiveResult else
  if value =? 33043 then Some OpTcpCloseResult else
  if value =? 33056 then Some OpTlsConnectResult else
  if value =? 33057 then Some OpTlsSendResult else
  if value =? 33058 then Some OpTlsReceiveResult else
  if value =? 33059 then Some OpTlsCloseResult else
  if value =? 33072 then Some OpHttpRequestResult else
  if value =? 33073 then Some OpHttpReadResult else
  if value =? 33074 then Some OpHttpCloseResult else
  None.

Inductive WireError : Type :=
  | BufferTooSmall (required actual : Z) | InvalidLength (declared actual : Z) | InvalidMagic (magic : Z) | UnsupportedVersion (version : Z)
  | UnknownOpcode (value : Z) | UnknownTlsFailure (value : Z) | UnknownHttpFailure (value : Z) | UnknownHttpMethod (value : Z)
  | UnknownHttpStream (value : Z) | UnexpectedOpcode (expected actual : Opcode) | NonZeroReserved (value : Z) | FrameTooLarge (length : Z)
  | HostnameTooLarge (length : Z) | DataTooLarge (length : Z) | InvalidText.

Abbreviation res A := (result WireError A).

#[export] Instance Opcode_eq_dec : EqDecision Opcode.
Proof. solve_decision. Defined.

Record Header : Type := { opcode : Opcode; request_id : Z; hd_length : Z }.

(** [value as u16], [value as u32] of a length. *)
Definition as_u16 (z : Z) : Z := z mod 65536.
Definition as_u32 (z : Z) : Z := z mod 4294967296.

(** Reading at an offset: an index out of range is a panic. *)
Definition load (n : nat) (b : list Z) (o : nat) : res Z := let? s := slice b o (o + n) in Ok (from_le s).
Definition read_u16 (b : list Z) (o : nat) : res Z := load 2 b o.
Definition read_u32 (b : list Z) (o : nat) : res Z := load 4 b o.
Definition read_u64 (b : list Z) (o : nat) : res Z := load 8 b o.
Definition to_i32 (v : Z) : Z := if v <? 2147483648 then v else v - 4294967296.
Definition read_i32 (b : list Z) (o : nat) : res Z := let? v := load 4 b o in Ok (to_i32 v).

Definition store (n : nat) (b : list Z) (o : nat) (v : Z) : res (list Z) := copy_into b o (o + n) (to_le n v).
Definition write_u16 (b : list Z) (o : nat) (v : Z) : res (list Z) := store 2 b o v.
Definition write_u32 (b : list Z) (o : nat) (v : Z) : res (list Z) := store 4 b o v.
Definition write_u64 (b : list Z) (o : nat) (v : Z) : res (list Z) := store 8 b o v.
Definition write_i32 (b : list Z) (o : nat) (v : Z) : res (list Z) := store 4 b o (as_u32 v).

(** [u32::from(flag)]. *)
Definition flag_value (b : bool) : Z := if b then 1 else 0.
(** [iter().any(|byte| *byte != 0)]. *)
Definition any_nonzero (s : list Z) : bool := existsb (fun byte => negb (byte =? 0)) s.

Definition Header_decode (b : list Z) : res Header :=
  if len b <? HEADER_LEN then Err (InvalidLength HEADER_LEN (len b)) else
  let? magic := read_u32 b 0 in
  if negb (magic =? MAGIC) then Err (InvalidMagic magic) else
  let? version := read_u16 b 4 in
  if negb (version =? VERSION) then Err (UnsupportedVersion version) else
  let? raw_opcode := read_u16 b 6 in
  let? opcode := ok_or (Opcode_from_wire raw_opcode) (UnknownOpcode raw_opcode) in
  let? length := read_u32 b 8 in
  if negb (length =? len b) || (length <? HEADER_LEN) then Err (InvalidLength length (len b)) else
  let? reserved := read_u32 b 12 in
  if negb (reserved =? 0) then Err (NonZeroReserved reserved) else
  let? request_id := read_u64 b 16 in
  Ok {| opcode := opcode; request_id := request_id; hd_length := length |}.

Definition expect_opcode (actual expected : Opcode) : res unit :=
  if bool_decide (actual = expected) then Ok tt else Err (UnexpectedOpcode expected actual).

Definition write_header (opcode : Opcode) (request_id length : Z) (out : list Z) : res (list Z) :=
  if len out <? length then Err (BufferTooSmall length (len out)) else
  if U32_MAX <? length then Err (BufferTooSmall length (len out)) else
  let? out := write_u32 out 0 MAGIC in
  let? out := write_u16 out 4 VERSION in
  let? out := write_u16 out 6 (Opcode_wire_value opcode) in
  let? out := write_u32 out 8 length in
  let? out := write_u32 out 12 0 in
  write_u64 out 16 request_id.

(** ** Lists of fields *)

(** A field: its width in bytes and its value. *)
Abbreviation field := (nat * Z)%type.
Abbreviation u8 v := (1%nat, v).
Abbreviation u16 v := (2%nat, v).
Abbreviation u32 v := (4%nat, v).
Abbreviation u64 v := (8%nat, v).
Abbreviation array n a := (n%nat, from_le a).
Definition pack (fs : list field) : list Z := concat (map (fun f => to_le (fst f) (snd f)) fs).
Definition size (fs : list field) : nat := sum_list (map fst fs).
Definition fits (f : field) : Prop := 0 <= snd f < 256 ^ Z.of_nat (fst f).

(** The value of the field of width [n] at offset [o]. *)
Fixpoint field_at (fs : list field) (o n : nat) : option Z :=
  match fs with
  | [] => None
  | (m, v) :: fs => if (o =? 0)%nat then (if (m =? n)%nat then Some v else None) else if (m <=? o)%nat then field_at fs (o - m) n else None
  end.

Lemma pack_length fs : List.length (pack fs) = size fs.
Proof. unfold pack, size. induction fs as [|[n v] fs IH]; [done |]. cbn. by rewrite length_app, to_le_length, IH. Qed.
Lemma size_app fs gs : size (fs ++ gs) = (size fs + size gs)%nat.
Proof. unfold size. by rewrite map_app, sum_list_with_app. Qed.
Lemma pack_app fs gs : pack (fs ++ gs) = pack fs ++ pack gs.
Proof. unfold pack. by rewrite map_app, concat_app. Qed.
Lemma pack_bytes fs : bytes (pack fs).
Proof. unfold pack. induction fs as [|[n v] fs IH]; cbn; [constructor |]. apply Forall_app. split; [apply to_le_bytes | exact IH]. Qed.
Lemma pack_cons n v fs : pack ((n, v) :: fs) = to_le n v ++ pack fs.
Proof. done. Qed.

Lemma slice_pack {E} fs rest : forall o n v, field_at fs o n = Some v -> slice (E := E) (pack fs ++ rest) o (o + n) = Ok (to_le n v).
Proof.
  induction fs as [|[m w] fs IH]; intros o n v Hf; cbn [field_at] in Hf; [done |]. rewrite pack_cons, <- app_assoc. destruct (Nat.eqb_spec o 0) as [->|Ho].
  - destruct (Nat.eqb_spec m n) as [->|]; [| done]. injection Hf as ->. apply (slice_middle []); [done |]. by rewrite to_le_length.
  - destruct (Nat.leb_spec m o) as [Hm|]; [| done]. specialize (IH _ _ _ Hf). revert IH. unfold slice, get_range. rewrite !length_app, to_le_length.
    replace (o + n <=? m + (List.length (pack fs) + List.length rest))%nat with (o - m + n <=? List.length (pack fs) + List.length rest)%nat by (destruct (Nat.leb_spec (o - m + n) (List.length (pack fs) + List.length rest)), (Nat.leb_spec (o + n) (m + (List.length (pack fs) + List.length rest))); first [reflexivity | lia]).
    rewrite !(proj2 (Nat.leb_le _ (_ + n))) by lia. cbn [andb]. rewrite (drop_app_ge (to_le m w)) by (rewrite to_le_length; lia). rewrite to_le_length.
    by replace (o + n - o)%nat with (o - m + n - (o - m))%nat by lia.
Qed.

Lemma field_at_fits fs : forall o n v, Forall fits fs -> field_at fs o n = Some v -> fits (n, v).
Proof.
  induction fs as [|[m w] fs IH]; intros o n v Hok Hf; cbn [field_at] in Hf; [done |]. apply Forall_cons in Hok as [Hw Hok].
  destruct (o =? 0)%nat; [| destruct (m <=? o)%nat; [by eapply IH | done]]. destruct (Nat.eqb_spec m n) as [->|]; [| done]. by injection Hf as ->.
Qed.

Lemma load_pack fs rest o n v : Forall fits fs -> field_at fs o n = Some v -> load n (pack fs ++ rest) o = Ok v.
Proof. intros Hok Hf. unfold load. rewrite (slice_pack _ _ _ _ _ Hf). f_equal. apply from_to_le. by apply (field_at_fits _ _ _ _ Hok) in Hf. Qed.

(** The readers on a message that is given as an equation. *)
Lemma load_of b fs rest o n v : b = pack fs ++ rest -> Forall fits fs -> field_at fs o n = Some v -> load n b o = Ok v.
Proof. intros ->. apply load_pack. Qed.
Lemma slice_of {E} b fs rest o e n v : b = pack fs ++ rest -> e = (o + n)%nat -> field_at fs o n = Some v -> slice (E := E) b o e = Ok (to_le n v).
Proof. intros -> ->. apply slice_pack. Qed.
Ltac reads E Hok :=
  unfold read_u16, read_u32, read_u64, read_i32;
  repeat match goal with |- context [load ?n ?b ?o] => rewrite (load_of b _ _ o n _ E Hok eq_refl) end.

Lemma tail_pack {E} fs rest o : o = size fs -> slice (E := E) (pack fs ++ rest) o (List.length (pack fs ++ rest)) = Ok rest.
Proof. intros ->. rewrite <- (app_nil_r rest) at 1. apply slice_middle; [by rewrite pack_length |]. by rewrite length_app, pack_length. Qed.

(** Writing what comes next into a buffer whose first bytes are written. *)
Lemma copy_next {E} pre out src a b : a = List.length pre -> b = (a + List.length src)%nat -> (b <= List.length out)%nat ->
  copy_into (E := E) (pre ++ drop a out) a b src = Ok ((pre ++ src) ++ drop b out).
Proof.
  intros -> -> Hb. rewrite copy_into_in by (rewrite ?length_app, ?length_drop; lia). rewrite take_app_length, <- app_assoc. do 3 f_equal.
  by rewrite <- drop_drop, drop_app_length, drop_drop.
Qed.

Lemma store_pack fs out o n v : size fs = o -> (o + n <= List.length out)%nat ->
  store n (pack fs ++ drop o out) o v = Ok (pack (fs ++ [(n, v)]) ++ drop (o + n) out).
Proof. intros <- Hl. unfold store. rewrite copy_next by (rewrite ?pack_length, ?to_le_length; lia). rewrite pack_app, pack_cons. change (pack []) with (@nil Z). by rewrite app_nil_r. Qed.

(** Any bytes are fields of the wanted widths, and what follows. *)
Lemma unpack ns : forall b, bytes b -> (sum_list ns <= List.length b)%nat ->
  exists fs rest, b = pack fs ++ rest /\ map fst fs = ns /\ Forall fits fs /\ bytes rest.
Proof.
  induction ns as [|n ns IH]; intros b Hb Hl; cbn in Hl; [by exists [], b |].
  destruct (IH (drop n b)) as (fs & rest & E & H1 & H2 & H3); [by apply Forall_drop | rewrite length_drop; lia |].
  exists ((n, from_le (take n b)) :: fs), rest. assert (List.length (take n b) = n) as Hn by (rewrite length_take; lia). assert (bytes (take n b)) as Ht by (by apply Forall_take). split_and!.
  - rewrite pack_cons, <- app_assoc, <- E. rewrite <- Hn at 1. by rewrite to_from_le, take_drop.
  - cbn. by f_equal.
  - constructor; [| done]. unfold fits. cbn [fst snd]. pose proof (from_le_range _ Ht) as Hr. unfold len in Hr. by rewrite Hn in Hr.
  - done.
Qed.

Lemma fits_2 v : fits (2%nat, v) <-> is_u16 v.
Proof. reflexivity. Qed.
Lemma fits_4 v : fits (4%nat, v) <-> is_u32 v.
Proof. reflexivity. Qed.
Lemma fits_8 v : fits (8%nat, v) <-> is_u64 v.
Proof. reflexivity. Qed.

(** ** The header *)

Definition head (op : Opcode) (id length : Z) : list field :=
  [u32 MAGIC; u16 VERSION; u16 (Opcode_wire_value op); u32 length; u32 0; u64 id].

Lemma Opcode_from_wire_value op : Opcode_from_wire (Opcode_wire_value op) = Some op.
Proof. by destruct op. Qed.
Lemma Opcode_from_wire_Some v op : Opcode_from_wire v = Some op -> v = Opcode_wire_value op.
Proof. unfold Opcode_from_wire. intros H. repeat match type of H with (if _ =? ?c then _ else _) = _ => destruct (Z.eqb_spec v c) as [->|_]; [by injection H as <- |] end. done. Qed.
Lemma Opcode_wire_value_u16 op : is_u16 (Opcode_wire_value op).
Proof. unfold is_u16. destruct op; cbn; lia. Qed.

Lemma head_fits op id l : is_u64 id -> is_u32 l -> Forall fits (head op id l).
Proof.
  intros H1 H2. unfold head. repeat (apply Forall_cons; split); [apply fits_4; unfold is_u32, MAGIC; lia | apply fits_2; unfold is_u16, VERSION; lia | apply fits_2, Opcode_wire_value_u16 | by apply fits_4 | apply fits_4; unfold is_u32; lia | by apply fits_8 | constructor].
Qed.

Ltac explode_fields fs Hns Hok :=
  repeat (destruct fs as [|[? ?] fs]; [discriminate Hns |]; cbn [map fst] in Hns; injection Hns as -> Hns);
  destruct fs; [| discriminate Hns]; clear Hns; rewrite ?Forall_cons, ?fits_2, ?fits_4, ?fits_8, Forall_nil in Hok; destruct_and? Hok.

(** What a message with a header is. *)
Definition headed (op : Opcode) (id : Z) (b rest : list Z) : Prop :=
  is_u64 id /\ is_u32 (len b) /\ bytes rest /\ b = pack (head op id (len b)) ++ rest.

Lemma Header_decode_ok op id b rest : headed op id b rest -> Header_decode b = Ok {| opcode := op; request_id := id; hd_length := len b |}.
Proof.
  intros (H1 & H2 & _ & E). set (l := len b) in *. assert (HEADER_LEN <= l) as Hl by (unfold l, len; rewrite E, length_app, pack_length; cbn; unfold HEADER_LEN; lia).
  unfold Header_decode. fold l. rewrite (proj2 (Z.ltb_ge _ _)) by done. pose proof (head_fits op id l H1 H2) as Hok. reads E Hok.
  rewrite !Z.eqb_refl, Opcode_from_wire_value. cbn [negb ok_or orb]. by rewrite (proj2 (Z.ltb_ge _ _)).
Qed.

Lemma Header_decode_inv b : bytes b -> Header_decode b <> Panic /\
  forall h, Header_decode b = Ok h -> hd_length h = len b /\ exists rest, headed (opcode h) (request_id h) b rest.
Proof.
  intros Hb. unfold Header_decode. destruct (Z.ltb_spec (len b) HEADER_LEN) as [|Hl]; [done |].
  destruct (unpack [4; 2; 2; 4; 4; 8]%nat b Hb) as (fs & rest & E & Hns & Hok & Hrest); [unfold len, HEADER_LEN in Hl; cbn; lia |].
  pose proof Hok as Hok'. explode_fields fs Hns Hok'.
  remember (len b) as l eqn:Hlb. reads E Hok.
  destruct (Z.eqb_spec z MAGIC) as [->|]; cbn [negb]; [| done]. destruct (Z.eqb_spec z0 VERSION) as [->|]; cbn [negb]; [| done].
  destruct (Opcode_from_wire z1) as [op|] eqn:Eop; cbn [ok_or]; [| done]. apply Opcode_from_wire_Some in Eop as ->.
  destruct (Z.eqb_spec z2 l) as [->|]; cbn [negb orb]; [| done]. destruct (l <? HEADER_LEN); [done |].
  destruct (Z.eqb_spec z3 0) as [->|]; cbn [negb]; [| done]. split; [done |]. intros h [= <-]. cbn [opcode request_id hd_length]. split; [done |]. exists rest. unfold headed. by rewrite <- Hlb.
Qed.

(** How each decoder begins. *)
Definition opening {A} (expected : Opcode) (b : list Z) (k : Header -> res A) : res A :=
  let? header := Header_decode b in let? _ := expect_opcode (opcode header) expected in k header.

Lemma opening_ok {A} op id b rest (k : Header -> res A) : headed op id b rest -> opening op b k = k {| opcode := op; request_id := id; hd_length := len b |}.
Proof. intros H. unfold opening. rewrite (Header_decode_ok _ _ _ _ H). cbn [opcode]. unfold expect_opcode. by rewrite bool_decide_eq_true_2. Qed.

(** A decoder is sound if it is so on messages with a header for its opcode. *)
Lemma opening_flawed {A} op b (k : Header -> res A) (P : Prop) (Q : A -> Prop) : bytes b ->
  (forall id rest, headed op id b rest -> let r := k {| opcode := op; request_id := id; hd_length := len b |} in (r = Panic -> P) /\ forall x, r = Ok x -> Q x) ->
  (opening op b k = Panic -> P) /\ forall x, opening op b k = Ok x -> Q x.
Proof.
  intros Hb Hk. unfold opening. destruct (Header_decode_inv b Hb) as [Hp Hi]. destruct (Header_decode b) as [[o i l]|e|]; [| done | done].
  destruct (Hi _ eq_refl) as [E [rest Hh]]. cbn in *. subst l. unfold expect_opcode. destruct (decide (o = op)) as [->|Hne]; [| by rewrite bool_decide_eq_false_2].
  rewrite bool_decide_eq_true_2 by done. by apply Hk with rest.
Qed.
Lemma opening_sound {A} op b (k : Header -> res A) (Q : A -> Prop) : bytes b ->
  (forall id rest, headed op id b rest -> let r := k {| opcode := op; request_id := id; hd_length := len b |} in r <> Panic /\ forall x, r = Ok x -> Q x) ->
  opening op b k <> Panic /\ forall x, opening op b k = Ok x -> Q x.
Proof. apply opening_flawed. Qed.

(** A message with a header is one with more fields. *)
Lemma headed_fields op id b rest ns : headed op id b rest -> (sum_list ns <= List.length rest)%nat ->
  exists fs tail, b = pack (head op id (len b) ++ fs) ++ tail /\ map fst fs = ns /\ Forall fits fs /\ bytes tail /\ Forall fits (head op id (len b) ++ fs) /\ len b = HEADER_LEN + Z.of_nat (sum_list ns) + len tail.
Proof.
  intros (H1 & H2 & H3 & E) Hn. destruct (unpack ns rest H3 Hn) as (fs & tail & -> & Hns & Hok & Ht). exists fs, tail. rewrite pack_app, <- app_assoc. split_and!; [done | done | done | done | apply Forall_app; split; [by apply head_fits | done] |].
  apply (f_equal (@List.length Z)) in E. rewrite !length_app, !pack_length in E. unfold size at 2 in E. rewrite Hns in E. cbn in E. unfold len, HEADER_LEN. lia.
Qed.

Lemma headed_pack op id fs tail l : is_u64 id -> is_u32 l -> bytes tail -> l = HEADER_LEN + Z.of_nat (size fs) + len tail ->
  headed op id (pack (head op id l ++ fs) ++ tail) (pack fs ++ tail).
Proof.
  intros H1 H2 H3 Hl. assert (len (pack (head op id l ++ fs) ++ tail) = l) as El.
  { unfold len. rewrite pack_app, !length_app, !pack_length. cbn. unfold HEADER_LEN, len in Hl. lia. }
  unfold headed. rewrite El. split_and!; [done | done | apply Forall_app; split; [apply pack_bytes | done] | by rewrite pack_app, <- app_assoc].
Qed.

(** Writing a header: it is refused when the buffer is too short. *)
Lemma write_header_ok op id l out : HEADER_LEN <= l -> is_u32 l ->
  write_header op id l out = if len out <? l then Err (BufferTooSmall l (len out)) else Ok (pack (head op id l) ++ drop 24 out).
Proof.
  intros Hl Hu. unfold write_header. destruct (Z.ltb_spec (len out) l) as [|Ho]; [done |]. rewrite (proj2 (Z.ltb_ge _ _)) by (unfold is_u32, U32_MAX in *; lia).
  unfold write_u32, write_u16, write_u64. unfold len, HEADER_LEN in *. change out with (pack [] ++ drop 0 out) at 1.
  do 6 (rewrite store_pack by (first [reflexivity | cbn; lia]); cbn [app]). done.
Qed.

(** ** The promise *)

Record Codec : Type := {
  value : Type;
  error : Type;
  encode : value -> list Z -> result error (list Z * Z);
  decode : list Z -> result error value;
  typed : value -> Prop; (* the machine types *)
  valid : value -> Prop; (* the limits of the format *)
  wire : value -> list Z; (* the bytes that the encoder writes *)
  means : list Z -> value -> Prop; (* the bytes that the decoder takes for a value *)
  flaw : value -> Prop; (* the values on which the code panics *)
  short : Z -> Z -> error (* a buffer that is too short, from the needed length and the one it has *) }.

(** A message is written as a whole in front of what the buffer held, or not at all. *)
Definition put {E} (short : Z -> Z -> E) (w out : list Z) : result E (list Z * Z) :=
  if len out <? len w then Err (short (len w) (len out)) else Ok (w ++ drop (List.length w) out, len w).

Record exact (c : Codec) : Prop := {
  encode_valid : forall x out, typed c x -> valid c x -> encode c x out = put (short c) (wire c x) out;
  encode_invalid : forall x out, typed c x -> ~ valid c x -> (exists e, encode c x out = Err e) \/ flaw c x /\ encode c x out = Panic;
  decode_valid : forall x, typed c x -> valid c x -> decode c (wire c x) = Ok x;
  decode_sound : forall b x, bytes b -> decode c b = Ok x -> typed c x /\ valid c x /\ means c b x;
  decode_total : forall b, bytes b -> decode c b = Panic -> exists x, flaw c x /\ means c b x }.

(** ** Messages *)

Definition message (op : Opcode) (id : Z) (fs : list field) (tail : list Z) : list Z :=
  pack (head op id (HEADER_LEN + Z.of_nat (size fs) + len tail) ++ fs) ++ tail.

Lemma message_len op id fs tail : len (message op id fs tail) = HEADER_LEN + Z.of_nat (size fs) + len tail.
Proof. unfold len, message. rewrite pack_app, !length_app, !pack_length. cbn. unfold HEADER_LEN. lia. Qed.

Lemma message_intro op id fs tail b : b = pack (head op id (len b) ++ fs) ++ tail -> len b = HEADER_LEN + Z.of_nat (size fs) + len tail -> b = message op id fs tail.
Proof. intros E Hl. rewrite E. unfold message. by rewrite <- Hl. Qed.

Lemma message_facts op id fs tail : is_u64 id -> Forall fits fs -> bytes tail -> is_u32 (HEADER_LEN + Z.of_nat (size fs) + len tail) ->
  exists b, message op id fs tail = b /\ headed op id b (pack fs ++ tail) /\ b = pack (head op id (len b) ++ fs) ++ tail /\
    len b = HEADER_LEN + Z.of_nat (size fs) + len tail /\ Forall fits (head op id (len b) ++ fs).
Proof.
  intros H1 H2 H3 H4. pose proof (message_len op id fs tail) as Hl. exists (message op id fs tail). rewrite !Hl. split_and!; [done | by apply headed_pack | done | done |].
  apply Forall_app. split; [by apply head_fits | done].
Qed.

(** Behind a header there are the fields that a decoder reads, if there are enough bytes. *)
Lemma headed_message op id b rest ns : headed op id b rest -> HEADER_LEN + Z.of_nat (sum_list ns) <= len b ->
  exists fs tail, b = pack (head op id (len b) ++ fs) ++ tail /\ b = message op id fs tail /\ map fst fs = ns /\ Forall fits fs /\ bytes tail /\
    Forall fits (head op id (len b) ++ fs) /\ len b = HEADER_LEN + Z.of_nat (sum_list ns) + len tail.
Proof.
  intros Hh Hn. destruct (headed_fields op id b rest ns Hh) as (fs & tail & E & H1 & H2 & H3 & H4 & H5).
  { destruct Hh as (_ & _ & _ & E). apply (f_equal (@List.length Z)) in E. rewrite length_app, pack_length in E. cbn in E. unfold len, HEADER_LEN in Hn. lia. }
  exists fs, tail. split_and!; try done. apply message_intro; [done |]. by rewrite H5, <- H1.
Qed.

(** The encoder: what remains to show is that the writes behind the header put the fields there. *)
Lemma encoded op id fs tail out l (k : list Z -> res (list Z * Z)) :
  l = HEADER_LEN + Z.of_nat (size fs) + len tail -> is_u32 l ->
  (l <= len out -> k (pack (head op id l) ++ drop 24 out) = Ok (message op id fs tail ++ drop (Z.to_nat l) out, l)) ->
  (let? out := write_header op id l out in k out) = put BufferTooSmall (message op id fs tail) out.
Proof.
  intros Hl Hu Hk. rewrite write_header_ok by (done || (unfold len, HEADER_LEN in *; lia)). unfold put. rewrite message_len, <- Hl.
  destruct (Z.ltb_spec (len out) l); [done |]. rewrite Hk by done. do 4 f_equal. pose proof (message_len op id fs tail) as H1. unfold len in *. lia.
Qed.

Lemma tail_of {E} b fs tail o : b = pack fs ++ tail -> o = size fs -> slice (E := E) b o (List.length b) = Ok tail.
Proof. intros -> ->. by apply tail_pack. Qed.

(** ** Fields in other clothes *)

Definition is_i32 (z : Z) : Prop := -2147483648 <= z < 2147483648.

Lemma as_u32_i32 z : is_i32 z -> to_i32 (as_u32 z) = z.
Proof. unfold is_i32, to_i32, as_u32. intros H. destruct (Z.ltb_spec (z mod 4294967296) 2147483648); Z.div_mod_to_equations; lia. Qed.
Lemma to_i32_u32 z : is_u32 z -> as_u32 (to_i32 z) = z.
Proof. unfold is_u32, to_i32, as_u32. intros H. destruct (Z.ltb_spec z 2147483648); Z.div_mod_to_equations; lia. Qed.
Lemma to_i32_range z : is_u32 z -> is_i32 (to_i32 z).
Proof. unfold is_u32, is_i32, to_i32. destruct (Z.ltb_spec z 2147483648); lia. Qed.
Lemma as_u32_range z : is_u32 (as_u32 z).
Proof. unfold is_u32, as_u32. Z.div_mod_to_equations. lia. Qed.
Lemma as_u32_small z : is_u32 z -> as_u32 z = z.
Proof. apply Z.mod_small. Qed.
Lemma as_u16_small z : is_u16 z -> as_u16 z = z.
Proof. apply Z.mod_small. Qed.

Lemma copy_store n out o e a : arr n a -> e = (o + n)%nat -> copy_into out o e a = store n out o (from_le a).
Proof. intros [Hl Hb] ->. unfold store. by rewrite <- Hl, to_from_le. Qed.
Lemma set_store out o v : is_u8 v -> set_idx out o v = store 1 out o v.
Proof. intros H. unfold set_idx, store. cbn. rewrite Z.mod_small by done. by rewrite Nat.add_1_r. Qed.
Lemma fill_store out o n e : e = (o + n)%nat -> fill out o e 0 = store n out o 0.
Proof. intros ->. unfold fill, store. rewrite Nat.add_sub'. f_equal. clear. induction n as [|n IH]; [done |]. cbn. by rewrite IH. Qed.
Lemma idx_load b o : idx b o = load 1 b o.
Proof.
  unfold idx, load, slice, get_range. rewrite Nat.add_1_r. destruct (b !! o) as [x|] eqn:E.
  - apply lookup_lt_Some in E as Hl. rewrite (proj2 (Nat.leb_le _ _)), (proj2 (Nat.leb_le (S o) _)) by lia. cbn [andb]. replace (S o - o)%nat with 1%nat by lia.
    rewrite (drop_S _ _ _ E). change (take 1 (x :: drop (S o) b)) with [x]. cbn [from_le]. f_equal. lia.
  - apply lookup_ge_None in E. by rewrite (proj2 (Nat.leb_gt (S o) _)), andb_false_r by lia.
Qed.
Lemma arr_fits n a : arr n a -> fits (n, from_le a).
Proof. intros [<- Hb]. by apply from_le_range. Qed.
Lemma arr_to_le n v : arr n (to_le n v).
Proof. split; [apply to_le_length | apply to_le_bytes]. Qed.
Lemma to_le_arr n a : arr n a -> to_le n (from_le a) = a.
Proof. intros [<- Hb]. by apply to_from_le. Qed.
Lemma fits_1 v : fits (1%nat, v) <-> is_u8 v.
Proof. reflexivity. Qed.
Lemma any_to_le n v : fits (n, v) -> existsb (fun byte => negb (byte =? 0)) (to_le n v) = negb (v =? 0).
Proof.
  intros H. destruct (Z.eqb_spec v 0) as [->|Hv]; cbn [negb].
  - clear. induction n as [|n IH]; [done |]. change (to_le (S n) 0) with (0 :: to_le n 0). cbn [existsb]. by rewrite IH.
  - apply existsb_elem. destruct (decide (Forall (eq 0) (to_le n v))) as [Hz|Hz].
    + exfalso. apply Hv. apply (from_to_le n v) in H. rewrite <- H. clear -Hz. induction Hz as [|b l <- _ IH]; cbn; lia.
    + apply (not_Forall_Exists _) in Hz. apply Exists_exists in Hz as (x & Hx & Hne). exists x. split; [done |]. apply negb_true_iff, Z.eqb_neq. by intros ->.
Qed.


(** Texts one after the other behind the fields. *)
Lemma slice_nth {E} b fs ts k t o e : b = pack fs ++ concat ts -> ts !! k = Some t -> o = (size fs + List.length (concat (take k ts)))%nat -> e = (o + List.length t)%nat ->
  slice (E := E) b o e = Ok t.
Proof. intros -> Ht -> ->. rewrite (concat_split _ _ _ Ht), app_assoc. apply slice_middle; [by rewrite length_app, pack_length | done]. Qed.

Lemma cut (ns : list Z) : forall l, Forall (fun n => 0 <= n) ns -> foldr Z.add 0 ns = len l -> exists ts, l = concat ts /\ map len ts = ns.
Proof.
  induction ns as [|n ns IH]; intros l Hn Hl; cbn in Hl; [exists []; split; [| done]; by destruct l |]. apply Forall_cons in Hn as [Hn Hns].
  assert (0 <= foldr Z.add 0 ns) by (clear -Hns; induction Hns; cbn; lia).
  destruct (IH (drop (Z.to_nat n) l) Hns) as (ts & E & Hts); [unfold len in *; rewrite length_drop; lia |]. exists (take (Z.to_nat n) l :: ts). cbn. rewrite <- E, take_drop. split; [done |].
  f_equal; [| done]. unfold len in *. rewrite length_take. lia.
Qed.

Lemma len_pos (s : list Z) : 0 <= len s.
Proof. unfold len. lia. Qed.

Lemma saturating_small a b : 0 <= a <= 4096 -> is_u32 b -> saturating_add64 a b = a + b.
Proof. unfold is_u32, saturating_add64, U64_MAX. lia. Qed.
Lemma ok_eq {E A} (a b : A) : Ok (E := E) a = Ok b -> a = b.
Proof. by intros [= ->]. Qed.
Lemma len_nil (s : list Z) : len s = 0 -> s = [].
Proof. destruct s; [done |]. unfold len. cbn. lia. Qed.

Lemma flag_value_eqb b : (flag_value b =? 1) = b.
Proof. by destruct b. Qed.
Lemma flag_value_nonzero b : negb (flag_value b =? 0) = b.
Proof. by destruct b. Qed.
Lemma eqb_flag_value z : 0 <= z <= 1 -> flag_value (z =? 1) = z.
Proof. intros H. assert (z = 0 \/ z = 1) as [->| ->] by lia; done. Qed.
Lemma flag_value_range b : 0 <= flag_value b <= 1.
Proof. destruct b; cbn; lia. Qed.

(** ** Codecs without flaws *)

Definition simple {E A} (short : Z -> Z -> E) (enc : A -> list Z -> result E (list Z * Z)) (dec : list Z -> result E A) (typed valid : A -> Prop) (wire : A -> list Z) : Codec :=
  {| value := A; error := E; short := short; encode := enc; decode := dec; typed := typed; valid := valid; wire := wire; means b x := b = wire x; flaw _ := False |}.
Abbreviation plain := (simple BufferTooSmall).

Lemma simple_exact {E A} short enc dec typed valid wire :
  (forall x out, typed x -> (valid x -> enc x out = put short (wire x) out) /\ (~ valid x -> exists e, enc x out = Err e)) ->
  (forall x, typed x -> valid x -> dec (wire x) = Ok x) ->
  (forall b, bytes b -> dec b <> Panic /\ forall x, dec b = Ok x -> typed x /\ valid x /\ b = wire x) ->
  exact (@simple E A short enc dec typed valid wire).
Proof.
  intros H1 H2 H3. split; cbn; [intros x out Ht; by apply H1 | intros x out Ht Hv; left; by apply H1 | done | intros b x Hb; by apply H3 |].
  intros b Hb Ep. by destruct (H3 b Hb).
Qed.

(** ** Tactics *)

(** Lengths are not negative; limits are numbers.  The files of messages extend [limits] with theirs. *)
Ltac lens := repeat match goal with
  | H : context [flag_value ?f] |- _ => lazymatch goal with _ : 0 <= flag_value f <= 1 |- _ => fail | _ => pose proof (flag_value_range f) end
  | |- context [flag_value ?f] => lazymatch goal with _ : 0 <= flag_value f <= 1 |- _ => fail | _ => pose proof (flag_value_range f) end
  | H : context [len ?s] |- _ => lazymatch goal with _ : 0 <= len s |- _ => fail | _ => pose proof (len_pos s) end
  | |- context [len ?s] => lazymatch goal with _ : 0 <= len s |- _ => fail | _ => pose proof (len_pos s) end
  end.
Ltac constants := idtac.
Ltac limits := unfold HEADER_LEN, is_u8, is_u16, is_u32, is_u64, is_i32 in *; change (len []) with 0 in *; constants.
Ltac by_limits := lens; limits; cbn in *; lia.

(** The tests of the code that the facts at hand decide. *)
Ltac tests := repeat (match goal with |- context [if ?c then _ else _] =>
  let H := fresh "Hc" in destruct c eqn:H; try (exfalso; bool_cases; by_limits); [] end; cbn [ok_or negb orb]).

(** The tests of a decoder on an unknown message: failures need no proof. *)
Ltac cases := repeat (match goal with |- context [if ?c then _ else _] => let H := fresh "Hc" in destruct c eqn:H; try done; bool_cases end; cbn [ok_or]); try done.

(** A field fits because of the type of its value. *)
Ltac fitting := first [assumption | by apply arr_fits | apply fits_1; by_limits | apply fits_2; by_limits | apply fits_4; first [apply as_u32_range | by_limits] | apply fits_8; by_limits].
Ltac fittings := repeat (apply Forall_cons; split); [fitting .. | constructor].

(** Rewriting with the fields of a message. *)
Ltac fetch E Hok :=
  unfold read_u16, read_u32, read_u64, read_i32; rewrite ?idx_load;
  repeat match goal with
  | |- context [load ?n ?b ?o] => rewrite (load_of b _ _ o n _ E Hok eq_refl)
  | |- context [slice ?b ?o (List.length ?b)] => rewrite (tail_of b _ _ o E eq_refl)
  | |- context [slice ?b ?o ?e] => let n := eval compute in (e - o)%nat in rewrite (slice_of b _ _ o e n _ E eq_refl eq_refl)
  end; unfold any_nonzero; repeat match goal with |- context [existsb _ (to_le ?n ?v)] => rewrite (any_to_le n v) by fitting end;
  cbv zeta; rewrite ?saturating_small by by_limits.

(** The writes behind a header. *)
Ltac stores :=
  let Hl := fresh "Hl" in intros Hl; unfold write_u16, write_u32, write_u64, write_i32, message, head, len, HEADER_LEN, size in *; constants; cbn [map fst sum_list_with sum_list app List.length] in *;
  repeat (first
    [ rewrite store_pack by (first [reflexivity | lia])
    | match goal with H : arr ?n ?a |- context [copy_into ?out ?o ?e ?a] => rewrite (copy_store n out o e a H) by reflexivity end
    | match goal with |- context [fill ?out ?o ?e 0] => let n := eval compute in (e - o)%nat in rewrite (fill_store out o n e eq_refl) end
    | rewrite set_store by (unfold is_u8; first [done | lia])
    | rewrite copy_next by (rewrite ?length_app, ?pack_length; cbn; lia) ]; cbn [app Nat.add]).

(** An encoder writes these fields and this tail. *)
Ltac lengths := repeat match goal with
  | |- context [as_u32 (len ?d)] => rewrite (as_u32_small (len d)) by by_limits
  | |- context [as_u16 (len ?d)] => rewrite (as_u16_small (len d)) by by_limits
  end.
Ltac encodes fs tail :=
  unfold checked_add64, U64_MAX; split; intros Hv;
  [ tests; lengths; apply (encoded _ _ fs tail); [by_limits | by_limits | stores; rewrite <- ?app_assoc; try reflexivity]
  | first [by destruct Hv | tests; by eexists | idtac] ].

(** A decoder reads a known message. *)
Ltac decodes op id fs tail :=
  let b := fresh "b" in let Eb := fresh "Eb" in let Hh := fresh "Hh" in let E := fresh "E" in let Hl := fresh "Hl" in let Hok := fresh "Hok" in
  destruct (message_facts op id fs tail) as (b & Eb & Hh & E & Hl & Hok);
  [ done | first [assumption | fittings] | first [done | constructor] | by_limits |];
  rewrite Eb; clear Eb; cbn [size map fst sum_list_with sum_list] in Hl;
  etransitivity; [apply (opening_ok _ _ _ _ _ Hh) |]; cbn [request_id hd_length]; tests; fetch E Hok; tests.

(** A decoder on unknown bytes: the length test comes first, then the fields are there. *)
Ltac opened ns :=
  let b := fresh "b" in let Hb := fresh "Hb" in intros b Hb; first [apply opening_sound | apply opening_flawed]; [done |];
  let id := fresh "id" in let rest := fresh "rest" in let Hh := fresh "Hh" in intros id rest Hh; cbn [request_id hd_length];
  match goal with |- context [if ?c then _ else _] => destruct c eqn:?; [done |] end; bool_cases;
  let fs := fresh "fs" in let tail := fresh "tail" in let E := fresh "E" in let Hns := fresh "Hns" in let Hok := fresh "Hok" in let Hall := fresh "Hall" in
  destruct (headed_message _ _ _ _ ns Hh) as (fs & tail & E & Em & Hns & Hok & Htail & Hall & Hlen); [by_limits |];
  explode_fields fs Hns Hok; fetch E Hall; clear E; cbn [sum_list_with sum_list] in Hlen; destruct Hh as [Hid _].

(** Nothing follows the fields. *)
Ltac no_tail tail Hlen := assert (tail = []) as -> by (apply len_nil; by_limits).

(** What a decoder returned. *)
Ltac returns := split; [done |]; let x := fresh "x" in let H := fresh "H" in intros x H; apply ok_eq in H; subst x; cbv beta iota.

(** Two messages whose fields agree. *)
Ltac same_message := repeat first [reflexivity | rewrite to_i32_u32 by done | rewrite from_to_le by done | rewrite eqb_flag_value by by_limits | progress f_equal]; by_limits.
Ltac typing := repeat match goal with |- _ /\ _ => split end; first [done | apply arr_to_le | by apply to_i32_range | by_limits].
Ltac values := rewrite ?to_le_arr, ?as_u32_i32, ?flag_value_eqb, ?flag_value_nonzero by done; try reflexivity.

