(* ===== verification/NetMessages.v ===== *)
(** * The network service's protocol: devices, name resolution and TCP ([net-device-protocol/lib.rs])

    The encoders and decoders of the messages that travel in the clear.  An encoder returns the buffer and the number of bytes
    that it wrote. *)

From S2P Require Import Prelude Text Fields NetWire.

(** ** Definitions *)

Definition MAX_FRAME_LEN : Z := 1514.
Definition INTERFACE_INFO_LEN : Z := 64.
Definition DRIVER_NAME_LEN : nat := 12.
Definition STATISTICS_LEN : Z := 88.
Definition STATUS_LEN : Z := 32.
Definition PING_REQUEST_LEN : Z := 32.
Definition PING_RESULT_LEN : Z := 40.
Definition RESOLVE_RESULT_LEN : Z := 40.
Definition TCP_CONNECT_RESULT_LEN : Z := 48.
Definition TCP_IO_RESULT_LEN : Z := 40.
Definition TCP_RECEIVE_REQUEST_LEN : Z := 40.
Definition TCP_CLOSE_REQUEST_LEN : Z := 40.
Definition STACK_STATISTICS_LEN : Z := 288.
Definition SECURITY_STATISTICS_LEN : Z := 152.
Definition MAX_HOSTNAME_LEN : Z := 253.
Definition MAX_TCP_IO_LEN : Z := 4096.

Record InterfaceInfo : Type := {
  interface_id : Z; mac : list Z; link_up : bool; mtu : Z; driver_id : Z; device_id : Z; driver_name : list Z }.

Record DeviceStatistics : Type := {
  dv_rx_packets : Z; dv_rx_bytes : Z; dv_rx_dropped : Z; dv_rx_errors : Z; dv_tx_packets : Z; dv_tx_bytes : Z; dv_tx_dropped : Z;
  dv_tx_errors : Z }.

Record StackStatistics : Type := {
  st_rx_packets : Z; st_rx_bytes : Z; st_rx_dropped : Z; st_rx_errors : Z; st_tx_packets : Z; st_tx_bytes : Z; st_tx_dropped : Z;
  st_tx_errors : Z; st_arp_requests : Z; st_arp_cache_hits : Z; st_arp_cache_misses : Z; st_ipv4_checksum_errors : Z; st_icmp_echo_requests
  : Z; st_icmp_echo_replies : Z; st_dhcp_attempts : Z; st_dhcp_successes : Z; st_dhcp_failures : Z; st_dns_queries : Z; st_dns_cache_hits :
  Z; st_dns_cache_misses : Z; st_dns_timeouts : Z; st_dns_failures : Z; st_tcp_connections_attempted : Z; st_tcp_connections_established :
  Z; st_tcp_connections_failed : Z; st_tcp_segments_sent : Z; st_tcp_segments_received : Z; st_tcp_retransmissions : Z;
  st_tcp_checksum_errors : Z; st_tcp_resets : Z; st_tcp_timeouts : Z; st_tcp_receive_drops : Z; st_tcp_send_drops : Z }.

Record SecurityStatistics : Type := {
  sv_tls_connections_attempted : Z; sv_tls_connections_established : Z; sv_tls_connections_failed : Z; sv_tls_handshake_failures : Z;
  sv_tls_certificate_failures : Z; sv_tls_hostname_failures : Z; sv_tls_records_sent : Z; sv_tls_records_received : Z;
  sv_tls_decrypt_failures : Z; sv_http_requests : Z; sv_http_responses : Z; sv_http_failures : Z; sv_http_redirects : Z;
  sv_http_header_errors : Z; sv_http_body_limit_errors : Z; sv_http_chunk_errors : Z }.

Definition encode_empty (opcode : Opcode) (request_id : Z) (out : list Z) : res (list Z * Z) :=
  let? out := write_header opcode request_id HEADER_LEN out in
  Ok (out, HEADER_LEN).
Definition decode_empty (expected : Opcode) (b : list Z) : res Z :=
  let? header := Header_decode b in
  let? _ := expect_opcode (opcode header) expected in
  if negb (hd_length header =? HEADER_LEN) then Err (InvalidLength HEADER_LEN (hd_length header)) else
  Ok (request_id header).

Definition encode_frame (opcode : Opcode) (request_id : Z) (frame out : list Z) : res (list Z * Z) :=
  if MAX_FRAME_LEN <? len frame then Err (FrameTooLarge (len frame)) else
  let? length := ok_or (match checked_add64 HEADER_LEN 4 with Some n => checked_add64 n (len frame) | None => None end) (FrameTooLarge (len frame)) in
  let? out := write_header opcode request_id length out in
  let? out := write_u32 out 24 (as_u32 (len frame)) in
  let? out := copy_into out 28 (Z.to_nat length) frame in
  Ok (out, length).
Definition decode_frame (expected : Opcode) (b : list Z) : res (Z * list Z) :=
  let? header := Header_decode b in
  let? _ := expect_opcode (opcode header) expected in
  if len b <? HEADER_LEN + 4 then Err (InvalidLength (HEADER_LEN + 4) (len b)) else
  let? frame_len := read_u32 b 24 in
  if MAX_FRAME_LEN <? frame_len then Err (FrameTooLarge frame_len) else
  let expected_len := HEADER_LEN + 4 + frame_len in
  if negb (len b =? expected_len) then Err (InvalidLength expected_len (len b)) else
  let? frame := slice b 28 (List.length b) in
  Ok (request_id header, frame).

Definition encode_status (opcode : Opcode) (request_id status : Z) (out : list Z) : res (list Z * Z) :=
  let? out := write_header opcode request_id STATUS_LEN out in
  let? out := write_i32 out 24 status in
  let? out := write_u32 out 28 0 in
  Ok (out, STATUS_LEN).
Definition decode_status (expected : Opcode) (b : list Z) : res (Z * Z) :=
  let? header := Header_decode b in
  let? _ := expect_opcode (opcode header) expected in
  if negb (len b =? STATUS_LEN) then Err (InvalidLength STATUS_LEN (len b)) else
  let? reserved := read_u32 b 28 in
  if negb (reserved =? 0) then Err (NonZeroReserved reserved) else
  let? status := read_i32 b 24 in
  Ok (request_id header, status).

Definition encode_interface_info (request_id : Z) (info : InterfaceInfo) (out : list Z) : res (list Z * Z) :=
  let? out := write_header OpInterfaceInfo request_id INTERFACE_INFO_LEN out in
  let? out := write_u64 out 24 (interface_id info) in
  let? out := copy_into out 32 38 (mac info) in
  let? out := set_idx out 38 (flag_value (link_up info)) in
  let? out := set_idx out 39 0 in
  let? out := write_u16 out 40 (mtu info) in
  let? out := write_u16 out 42 0 in
  let? out := write_u32 out 44 (driver_id info) in
  let? out := write_u32 out 48 (device_id info) in
  let? out := copy_into out 52 64 (driver_name info) in
  Ok (out, INTERFACE_INFO_LEN).
Definition decode_interface_info (b : list Z) : res (Z * InterfaceInfo) :=
  let? header := Header_decode b in
  let? _ := expect_opcode (opcode header) OpInterfaceInfo in
  if negb (len b =? INTERFACE_INFO_LEN) then Err (InvalidLength INTERFACE_INFO_LEN (len b)) else
  let? padding := idx b 39 in
  let? reserved := (if negb (padding =? 0) then Ok true else let? r := read_u16 b 42 in Ok (negb (r =? 0))) in
  if reserved then Err (NonZeroReserved 1) else
  let? interface_id := read_u64 b 24 in
  let? mac := slice b 32 38 in
  let? up := idx b 38 in
  let? mtu := read_u16 b 40 in
  let? driver_id := read_u32 b 44 in
  let? device_id := read_u32 b 48 in
  let? name := slice b 52 64 in
  let? driver_name := ok_or (try_into_array DRIVER_NAME_LEN name) (InvalidLength INTERFACE_INFO_LEN (len b)) in
  Ok (request_id header,
      {| interface_id := interface_id; mac := mac; link_up := negb (up =? 0); mtu := mtu; driver_id := driver_id; device_id := device_id; driver_name := driver_name |}).

(** The loop that writes numbers behind the header. *)
Fixpoint write_words (out : list Z) (index : nat) (values : list Z) : res (list Z) :=
  match values with
  | [] => Ok out
  | value :: values =>
      let? out := write_u64 out (24 + index * 8) value in
      write_words out (S index) values
  end.

Definition device_values (stats : DeviceStatistics) : list Z :=
  [dv_rx_packets stats; dv_rx_bytes stats; dv_rx_dropped stats; dv_rx_errors stats; dv_tx_packets stats; dv_tx_bytes stats; dv_tx_dropped
   stats; dv_tx_errors stats].
Definition encode_statistics (opcode : Opcode) (request_id : Z) (stats : DeviceStatistics) (out : list Z) : res (list Z * Z) :=
  let? out := write_header opcode request_id STATISTICS_LEN out in
  let? out := write_words out 0 (device_values stats) in
  Ok (out, STATISTICS_LEN).
Definition decode_statistics (expected : Opcode) (b : list Z) : res (Z * DeviceStatistics) :=
  let? header := Header_decode b in
  let? _ := expect_opcode (opcode header) expected in
  if negb (len b =? STATISTICS_LEN) then Err (InvalidLength STATISTICS_LEN (len b)) else
  let? rx_packets := read_u64 b 24 in
  let? rx_bytes := read_u64 b 32 in
  let? rx_dropped := read_u64 b 40 in
  let? rx_errors := read_u64 b 48 in
  let? tx_packets := read_u64 b 56 in
  let? tx_bytes := read_u64 b 64 in
  let? tx_dropped := read_u64 b 72 in
  let? tx_errors := read_u64 b 80 in
  Ok (request_id header,
      {| dv_rx_packets := rx_packets; dv_rx_bytes := rx_bytes; dv_rx_dropped := rx_dropped; dv_rx_errors := rx_errors; dv_tx_packets :=
   tx_packets; dv_tx_bytes := tx_bytes; dv_tx_dropped := tx_dropped; dv_tx_errors := tx_errors |}).

Definition encode_ping (request_id : Z) (address out : list Z) : res (list Z * Z) :=
  let? out := write_header OpPing request_id PING_REQUEST_LEN out in
  let? out := copy_into out 24 28 address in
  let? out := fill out 28 32 0 in
  Ok (out, PING_REQUEST_LEN).
Definition decode_ping (b : list Z) : res (Z * list Z) :=
  let? header := Header_decode b in
  let? _ := expect_opcode (opcode header) OpPing in
  if negb (len b =? PING_REQUEST_LEN) then Err (InvalidLength PING_REQUEST_LEN (len b)) else
  let? reserved := slice b 28 32 in
  if any_nonzero reserved then Err (NonZeroReserved 1) else
  let? address := slice b 24 28 in
  Ok (request_id header, address).

Definition encode_ping_result (request_id status rtt_ms : Z) (out : list Z) : res (list Z * Z) :=
  let? out := write_header OpPingResult request_id PING_RESULT_LEN out in
  let? out := write_i32 out 24 status in
  let? out := write_u32 out 28 0 in
  let? out := write_u64 out 32 rtt_ms in
  Ok (out, PING_RESULT_LEN).
Definition decode_ping_result (b : list Z) : res (Z * Z * Z) :=
  let? header := Header_decode b in
  let? _ := expect_opcode (opcode header) OpPingResult in
  if negb (len b =? PING_RESULT_LEN) then Err (InvalidLength PING_RESULT_LEN (len b)) else
  let? reserved := read_u32 b 28 in
  if negb (reserved =? 0) then Err (NonZeroReserved reserved) else
  let? status := read_i32 b 24 in
  let? rtt_ms := read_u64 b 32 in
  Ok (request_id header, status, rtt_ms).

Definition encode_resolve_ipv4 (request_id : Z) (hostname : list Z) (timeout_ms : Z) (out : list Z) : res (list Z * Z) :=
  let hostname_length := len hostname in
  if (hostname_length =? 0) || (MAX_HOSTNAME_LEN <? hostname_length) then Err (HostnameTooLarge hostname_length) else
  let? length := ok_or (checked_add64 32 hostname_length) (HostnameTooLarge hostname_length) in
  let? out := write_header OpResolveIpv4 request_id length out in
  let? out := write_u32 out 24 timeout_ms in
  let? out := write_u16 out 28 (as_u16 hostname_length) in
  let? out := write_u16 out 30 0 in
  let? out := copy_into out 32 (Z.to_nat length) hostname in
  Ok (out, length).
Definition decode_resolve_ipv4 (b : list Z) : res (Z * Z * list Z) :=
  let? header := Header_decode b in
  let? _ := expect_opcode (opcode header) OpResolveIpv4 in
  let? bad := (if len b <? 32 then Ok true else let? r := read_u16 b 30 in Ok (negb (r =? 0))) in
  if bad then Err (InvalidLength 32 (len b)) else
  let? hostname_length := read_u16 b 28 in
  if (hostname_length =? 0) || (MAX_HOSTNAME_LEN <? hostname_length) then Err (HostnameTooLarge hostname_length) else
  if negb (32 + hostname_length =? len b) then Err (InvalidLength (32 + hostname_length) (len b)) else
  let? hostname := slice b 32 (List.length b) in
  if negb (from_utf8 hostname) then Err InvalidText else
  let? timeout_ms := read_u32 b 24 in
  Ok (request_id header, timeout_ms, hostname).

Definition encode_resolve_ipv4_result (request_id status : Z) (address : list Z) (from_cache : bool) (out : list Z) : res (list Z * Z) :=
  let? out := write_header OpResolveIpv4Result request_id RESOLVE_RESULT_LEN out in
  let? out := write_i32 out 24 status in
  let? out := write_u32 out 28 (flag_value from_cache) in
  let? out := copy_into out 32 36 address in
  let? out := fill out 36 40 0 in
  Ok (out, RESOLVE_RESULT_LEN).
Definition decode_resolve_ipv4_result (b : list Z) : res (Z * Z * list Z * bool) :=
  let? header := Header_decode b in
  let? _ := expect_opcode (opcode header) OpResolveIpv4Result in
  let? bad := (if negb (len b =? RESOLVE_RESULT_LEN) then Ok true else let? s := slice b 36 40 in Ok (any_nonzero s)) in
  if bad then Err (InvalidLength RESOLVE_RESULT_LEN (len b)) else
  let? flags := read_u32 b 28 in
  if 1 <? flags then Err (NonZeroReserved flags) else
  let? status := read_i32 b 24 in
  let? address := slice b 32 36 in
  Ok (request_id header, status, address, flags =? 1).

Definition encode_tcp_connect (request_id : Z) (host : list Z) (port timeout_ms : Z) (out : list Z) : res (list Z * Z) :=
  let host_length := len host in
  if (host_length =? 0) || (MAX_HOSTNAME_LEN <? host_length) then Err (HostnameTooLarge host_length) else
  let? length := ok_or (checked_add64 32 host_length) (HostnameTooLarge host_length) in
  let? out := write_header OpTcpConnect request_id length out in
  let? out := write_u32 out 24 timeout_ms in
  let? out := write_u16 out 28 port in
  let? out := write_u16 out 30 (as_u16 host_length) in
  let? out := copy_into out 32 (Z.to_nat length) host in
  Ok (out, length).
Definition decode_tcp_connect (b : list Z) : res (Z * Z * Z * list Z) :=
  let? header := Header_decode b in
  let? _ := expect_opcode (opcode header) OpTcpConnect in
  if len b <? 32 then Err (InvalidLength 32 (len b)) else
  let? host_length := read_u16 b 30 in
  if (host_length =? 0) || (MAX_HOSTNAME_LEN <? host_length) then Err (HostnameTooLarge host_length) else
  if negb (len b =? 32 + host_length) then Err (InvalidLength (32 + host_length) (len b)) else
  let? host := slice b 32 (List.length b) in
  if negb (from_utf8 host) then Err InvalidText else
  let? timeout_ms := read_u32 b 24 in
  let? port := read_u16 b 28 in
  Ok (request_id header, timeout_ms, port, host).

Definition encode_tcp_connect_result (request_id status handle : Z) (address : list Z) (port : Z) (out : list Z) : res (list Z * Z) :=
  let? out := write_header OpTcpConnectResult request_id TCP_CONNECT_RESULT_LEN out in
  let? out := write_i32 out 24 status in
  let? out := write_u32 out 28 0 in
  let? out := write_u64 out 32 handle in
  let? out := copy_into out 40 44 address in
  let? out := write_u16 out 44 port in
  let? out := write_u16 out 46 0 in
  Ok (out, TCP_CONNECT_RESULT_LEN).
Definition decode_tcp_connect_result (b : list Z) : res (Z * Z * Z * list Z * Z) :=
  let? header := Header_decode b in
  let? _ := expect_opcode (opcode header) OpTcpConnectResult in
  let? bad := (if negb (len b =? TCP_CONNECT_RESULT_LEN) then Ok true else
    let? r := read_u32 b 28 in
    if negb (r =? 0) then Ok true else let? r := read_u16 b 46 in Ok (negb (r =? 0))) in
  if bad then Err (InvalidLength TCP_CONNECT_RESULT_LEN (len b)) else
  let? status := read_i32 b 24 in
  let? handle := read_u64 b 32 in
  let? address := slice b 40 44 in
  let? port := read_u16 b 44 in
  Ok (request_id header, status, handle, address, port).

Definition encode_tcp_send (request_id handle timeout_ms : Z) (data out : list Z) : res (list Z * Z) :=
  if MAX_TCP_IO_LEN <? len data then Err (DataTooLarge (len data)) else
  let? length := ok_or (checked_add64 40 (len data)) (DataTooLarge (len data)) in
  let? out := write_header OpTcpSend request_id length out in
  let? out := write_u64 out 24 handle in
  let? out := write_u32 out 32 timeout_ms in
  let? out := write_u32 out 36 (as_u32 (len data)) in
  let? out := copy_into out 40 (Z.to_nat length) data in
  Ok (out, length).
Definition decode_tcp_send (b : list Z) : res (Z * Z * Z * list Z) :=
  let? header := Header_decode b in
  let? _ := expect_opcode (opcode header) OpTcpSend in
  if len b <? 40 then Err (InvalidLength 40 (len b)) else
  let? data_length := read_u32 b 36 in
  if MAX_TCP_IO_LEN <? data_length then Err (DataTooLarge data_length) else
  if negb (len b =? 40 + data_length) then Err (InvalidLength (40 + data_length) (len b)) else
  let? handle := read_u64 b 24 in
  let? timeout_ms := read_u32 b 32 in
  let? data := slice b 40 (List.length b) in
  Ok (request_id header, handle, timeout_ms, data).

Definition encode_tcp_io_result (opcode : Opcode) (request_id status transferred : Z) (out : list Z) : res (list Z * Z) :=
  if negb (bool_decide (opcode = OpTcpSendResult \/ opcode = OpTcpCloseResult)) then Err (UnexpectedOpcode OpTcpSendResult opcode) else
  let? out := write_header opcode request_id TCP_IO_RESULT_LEN out in
  let? out := write_i32 out 24 status in
  let? out := write_u32 out 28 0 in
  let? out := write_u32 out 32 transferred in
  let? out := write_u32 out 36 0 in
  Ok (out, TCP_IO_RESULT_LEN).
Definition decode_tcp_io_result (expected : Opcode) (b : list Z) : res (Z * Z * Z) :=
  let? header := Header_decode b in
  let? _ := expect_opcode (opcode header) expected in
  let? bad := (if negb (len b =? TCP_IO_RESULT_LEN) then Ok true else
    let? r := read_u32 b 28 in
    if negb (r =? 0) then Ok true else let? r := read_u32 b 36 in Ok (negb (r =? 0))) in
  if bad then Err (InvalidLength TCP_IO_RESULT_LEN (len b)) else
  let? status := read_i32 b 24 in
  let? transferred := read_u32 b 32 in
  Ok (request_id header, status, transferred).

Definition encode_tcp_receive (request_id handle timeout_ms maximum_length : Z) (out : list Z) : res (list Z * Z) :=
  if MAX_TCP_IO_LEN <? maximum_length then Err (DataTooLarge maximum_length) else
  let? out := write_header OpTcpReceive request_id TCP_RECEIVE_REQUEST_LEN out in
  let? out := write_u64 out 24 handle in
  let? out := write_u32 out 32 timeout_ms in
  let? out := write_u32 out 36 maximum_length in
  Ok (out, TCP_RECEIVE_REQUEST_LEN).
Definition decode_tcp_receive (b : list Z) : res (Z * Z * Z * Z) :=
  let? header := Header_decode b in
  let? _ := expect_opcode (opcode header) OpTcpReceive in
  if negb (len b =? TCP_RECEIVE_REQUEST_LEN) then Err (InvalidLength TCP_RECEIVE_REQUEST_LEN (len b)) else
  let? maximum := read_u32 b 36 in
  if MAX_TCP_IO_LEN <? maximum then Err (DataTooLarge maximum) else
  let? handle := read_u64 b 24 in
  let? timeout_ms := read_u32 b 32 in
  Ok (request_id header, handle, timeout_ms, maximum).

Definition encode_tcp_receive_result (request_id status : Z) (closed : bool) (data out : list Z) : res (list Z * Z) :=
  if MAX_TCP_IO_LEN <? len data then Err (DataTooLarge (len data)) else
  let? length := ok_or (checked_add64 40 (len data)) (DataTooLarge (len data)) in
  let? out := write_header OpTcpReceiveResult request_id length out in
  let? out := write_i32 out 24 status in
  let? out := write_u32 out 28 (flag_value closed) in
  let? out := write_u32 out 32 (as_u32 (len data)) in
  let? out := write_u32 out 36 0 in
  let? out := copy_into out 40 (Z.to_nat length) data in
  Ok (out, length).
Definition decode_tcp_receive_result (b : list Z) : res (Z * Z * bool * list Z) :=
  let? header := Header_decode b in
  let? _ := expect_opcode (opcode header) OpTcpReceiveResult in
  let? bad := (if len b <? 40 then Ok true else let? r := read_u32 b 36 in Ok (negb (r =? 0))) in
  if bad then Err (InvalidLength 40 (len b)) else
  let? flags := read_u32 b 28 in
  if 1 <? flags then Err (NonZeroReserved flags) else
  let? data_length := read_u32 b 32 in
  if (MAX_TCP_IO_LEN <? data_length) || negb (len b =? 40 + data_length) then Err (InvalidLength (40 + data_length) (len b)) else
  let? status := read_i32 b 24 in
  let? data := slice b 40 (List.length b) in
  Ok (request_id header, status, flags =? 1, data).

Definition encode_tcp_close (request_id handle timeout_ms : Z) (out : list Z) : res (list Z * Z) :=
  let? out := write_header OpTcpClose request_id TCP_CLOSE_REQUEST_LEN out in
  let? out := write_u64 out 24 handle in
  let? out := write_u32 out 32 timeout_ms in
  let? out := write_u32 out 36 0 in
  Ok (out, TCP_CLOSE_REQUEST_LEN).
Definition decode_tcp_close (b : list Z) : res (Z * Z * Z) :=
  let? header := Header_decode b in
  let? _ := expect_opcode (opcode header) OpTcpClose in
  let? bad := (if negb (len b =? TCP_CLOSE_REQUEST_LEN) then Ok true else let? r := read_u32 b 36 in Ok (negb (r =? 0))) in
  if bad then Err (InvalidLength TCP_CLOSE_REQUEST_LEN (len b)) else
  let? handle := read_u64 b 24 in
  let? timeout_ms := read_u32 b 32 in
  Ok (request_id header, handle, timeout_ms).

Definition stack_values (stats : StackStatistics) : list Z :=
  [st_rx_packets stats; st_rx_bytes stats; st_rx_dropped stats; st_rx_errors stats; st_tx_packets stats; st_tx_bytes stats; st_tx_dropped
   stats; st_tx_errors stats; st_arp_requests stats; st_arp_cache_hits stats; st_arp_cache_misses stats; st_ipv4_checksum_errors stats;
   st_icmp_echo_requests stats; st_icmp_echo_replies stats; st_dhcp_attempts stats; st_dhcp_successes stats; st_dhcp_failures stats;
   st_dns_queries stats; st_dns_cache_hits stats; st_dns_cache_misses stats; st_dns_timeouts stats; st_dns_failures stats;
   st_tcp_connections_attempted stats; st_tcp_connections_established stats; st_tcp_connections_failed stats; st_tcp_segments_sent stats;
   st_tcp_segments_received stats; st_tcp_retransmissions stats; st_tcp_checksum_errors stats; st_tcp_resets stats; st_tcp_timeouts stats;
   st_tcp_receive_drops stats; st_tcp_send_drops stats].
Definition encode_stack_statistics (request_id : Z) (stats : StackStatistics) (out : list Z) : res (list Z * Z) :=
  let? out := write_header OpStackStatistics request_id STACK_STATISTICS_LEN out in
  let? out := write_words out 0 (stack_values stats) in
  Ok (out, STACK_STATISTICS_LEN).
Definition decode_stack_statistics (b : list Z) : res (Z * StackStatistics) :=
  let? header := Header_decode b in
  let? _ := expect_opcode (opcode header) OpStackStatistics in
  if negb (len b =? STACK_STATISTICS_LEN) then Err (InvalidLength STACK_STATISTICS_LEN (len b)) else
  let? rx_packets := read_u64 b 24 in
  let? rx_bytes := read_u64 b 32 in
  let? rx_dropped := read_u64 b 40 in
  let? rx_errors := read_u64 b 48 in
  let? tx_packets := read_u64 b 56 in
  let? tx_bytes := read_u64 b 64 in
  let? tx_dropped := read_u64 b 72 in
  let? tx_errors := read_u64 b 80 in
  let? arp_requests := read_u64 b 88 in
  let? arp_cache_hits := read_u64 b 96 in
  let? arp_cache_misses := read_u64 b 104 in
  let? ipv4_checksum_errors := read_u64 b 112 in
  let? icmp_echo_requests := read_u64 b 120 in
  let? icmp_echo_replies := read_u64 b 128 in
  let? dhcp_attempts := read_u64 b 136 in
  let? dhcp_successes := read_u64 b 144 in
  let? dhcp_failures := read_u64 b 152 in
  let? dns_queries := read_u64 b 160 in
  let? dns_cache_hits := read_u64 b 168 in
  let? dns_cache_misses := read_u64 b 176 in
  let? dns_timeouts := read_u64 b 184 in
  let? dns_failures := read_u64 b 192 in
  let? tcp_connections_attempted := read_u64 b 200 in
  let? tcp_connections_established := read_u64 b 208 in
  let? tcp_connections_failed := read_u64 b 216 in
  let? tcp_segments_sent := read_u64 b 224 in
  let? tcp_segments_received := read_u64 b 232 in
  let? tcp_retransmissions := read_u64 b 240 in
  let? tcp_checksum_errors := read_u64 b 248 in
  let? tcp_resets := read_u64 b 256 in
  let? tcp_timeouts := read_u64 b 264 in
  let? tcp_receive_drops := read_u64 b 272 in
  let? tcp_send_drops := read_u64 b 280 in
  Ok (request_id header,
      {| st_rx_packets := rx_packets; st_rx_bytes := rx_bytes; st_rx_dropped := rx_dropped; st_rx_errors := rx_errors; st_tx_packets :=
   tx_packets; st_tx_bytes := tx_bytes; st_tx_dropped := tx_dropped; st_tx_errors := tx_errors; st_arp_requests := arp_requests;
   st_arp_cache_hits := arp_cache_hits; st_arp_cache_misses := arp_cache_misses; st_ipv4_checksum_errors := ipv4_checksum_errors;
   st_icmp_echo_requests := icmp_echo_requests; st_icmp_echo_replies := icmp_echo_replies; st_dhcp_attempts := dhcp_attempts;
   st_dhcp_successes := dhcp_successes; st_dhcp_failures := dhcp_failures; st_dns_queries := dns_queries; st_dns_cache_hits :=
   dns_cache_hits; st_dns_cache_misses := dns_cache_misses; st_dns_timeouts := dns_timeouts; st_dns_failures := dns_failures;
   st_tcp_connections_attempted := tcp_connections_attempted; st_tcp_connections_established := tcp_connections_established;
   st_tcp_connections_failed := tcp_connections_failed; st_tcp_segments_sent := tcp_segments_sent; st_tcp_segments_received :=
   tcp_segments_received; st_tcp_retransmissions := tcp_retransmissions; st_tcp_checksum_errors := tcp_checksum_errors; st_tcp_resets :=
   tcp_resets; st_tcp_timeouts := tcp_timeouts; st_tcp_receive_drops := tcp_receive_drops; st_tcp_send_drops := tcp_send_drops |}).

Definition security_values (stats : SecurityStatistics) : list Z :=
  [sv_tls_connections_attempted stats; sv_tls_connections_established stats; sv_tls_connections_failed stats; sv_tls_handshake_failures
   stats; sv_tls_certificate_failures stats; sv_tls_hostname_failures stats; sv_tls_records_sent stats; sv_tls_records_received stats;
   sv_tls_decrypt_failures stats; sv_http_requests stats; sv_http_responses stats; sv_http_failures stats; sv_http_redirects stats;
   sv_http_header_errors stats; sv_http_body_limit_errors stats; sv_http_chunk_errors stats].
Definition encode_security_statistics (request_id : Z) (stats : SecurityStatistics) (out : list Z) : res (list Z * Z) :=
  let? out := write_header OpSecurityStatistics request_id SECURITY_STATISTICS_LEN out in
  let? out := write_words out 0 (security_values stats) in
  Ok (out, SECURITY_STATISTICS_LEN).
Definition decode_security_statistics (b : list Z) : res (Z * SecurityStatistics) :=
  let? header := Header_decode b in
  let? _ := expect_opcode (opcode header) OpSecurityStatistics in
  if negb (len b =? SECURITY_STATISTICS_LEN) then Err (InvalidLength SECURITY_STATISTICS_LEN (len b)) else
  let? tls_connections_attempted := read_u64 b 24 in
  let? tls_connections_established := read_u64 b 32 in
  let? tls_connections_failed := read_u64 b 40 in
  let? tls_handshake_failures := read_u64 b 48 in
  let? tls_certificate_failures := read_u64 b 56 in
  let? tls_hostname_failures := read_u64 b 64 in
  let? tls_records_sent := read_u64 b 72 in
  let? tls_records_received := read_u64 b 80 in
  let? tls_decrypt_failures := read_u64 b 88 in
  let? http_requests := read_u64 b 96 in
  let? http_responses := read_u64 b 104 in
  let? http_failures := read_u64 b 112 in
  let? http_redirects := read_u64 b 120 in
  let? http_header_errors := read_u64 b 128 in
  let? http_body_limit_errors := read_u64 b 136 in
  let? http_chunk_errors := read_u64 b 144 in
  Ok (request_id header,
      {| sv_tls_connections_attempted := tls_connections_attempted; sv_tls_connections_established := tls_connections_established;
   sv_tls_connections_failed := tls_connections_failed; sv_tls_handshake_failures := tls_handshake_failures; sv_tls_certificate_failures
   := tls_certificate_failures; sv_tls_hostname_failures := tls_hostname_failures; sv_tls_records_sent := tls_records_sent;
   sv_tls_records_received := tls_records_received; sv_tls_decrypt_failures := tls_decrypt_failures; sv_http_requests := http_requests;
   sv_http_responses := http_responses; sv_http_failures := http_failures; sv_http_redirects := http_redirects; sv_http_header_errors :=
   http_header_errors; sv_http_body_limit_errors := http_body_limit_errors; sv_http_chunk_errors := http_chunk_errors |}).
