(* ===== verification/NetPlain.v ===== *)
(** * The network service's protocol: devices, name resolution and TCP, correctness

    One codec for each message of [NetMessages], with its format as a list of fields. *)

From S2P Require Import Prelude Text Fields NetWire NetMessages.

Ltac constants ::= unfold MAX_TCP_IO_LEN, MAX_FRAME_LEN, MAX_HOSTNAME_LEN, STATUS_LEN, INTERFACE_INFO_LEN, STATISTICS_LEN, PING_REQUEST_LEN, PING_RESULT_LEN,
  RESOLVE_RESULT_LEN, TCP_CONNECT_RESULT_LEN, TCP_IO_RESULT_LEN, TCP_RECEIVE_REQUEST_LEN, TCP_CLOSE_REQUEST_LEN, STACK_STATISTICS_LEN, SECURITY_STATISTICS_LEN in *.

Definition tcp_send_codec : Codec := plain
  (fun '(id, handle, timeout, data) => encode_tcp_send id handle timeout data) decode_tcp_send
  (fun '(id, handle, timeout, data) => is_u64 id /\ is_u64 handle /\ is_u32 timeout /\ bytes data)
  (fun '(id, handle, timeout, data) => len data <= MAX_TCP_IO_LEN)
  (fun '(id, handle, timeout, data) => message OpTcpSend id [u64 handle; u32 timeout; u32 (len data)] data).
Lemma tcp_send_exact : exact tcp_send_codec.
Proof.
  apply simple_exact.
  - intros [[[id h] t] d] out (H1 & H2 & H3 & H4). unfold encode_tcp_send. encodes [u64 h; u32 t; u32 (len d)] d.
  - intros [[[id h] t] d] (H1 & H2 & H3 & H4) Hv. unfold decode_tcp_send. decodes OpTcpSend id [u64 h; u32 t; u32 (len d)] d. done.
  - opened [8; 4; 4]%nat. cases. returns. split_and!; try done; [by_limits |]. rewrite Em. same_message.
Qed.

Definition empty_codec (op : Opcode) : Codec := plain
  (encode_empty op) (decode_empty op) is_u64 (fun _ => True)
  (fun id => message op id [] []).
Lemma empty_exact op : exact (empty_codec op).
Proof.
  apply simple_exact.
  - intros id out H1. unfold encode_empty. encodes (@nil field) (@nil Z).
  - intros id H1 Hv. unfold decode_empty. decodes op id (@nil field) (@nil Z). done.
  - intros b Hb. apply opening_sound; [done |]. intros id rest Hh. cbn [request_id hd_length]. cases. returns.
    destruct (headed_message _ _ _ _ [] Hh) as (fs & tail & E & Em & Hns & Hok & Htail & Hall & Hlen); [by_limits |]. destruct fs; [| done]. no_tail tail Hlen. by destruct Hh.
Qed.

Definition frame_codec (op : Opcode) : Codec := plain
  (fun '(id, frame) => encode_frame op id frame) (decode_frame op)
  (fun '(id, frame) => is_u64 id /\ bytes frame)
  (fun '(id, frame) => len frame <= MAX_FRAME_LEN)
  (fun '(id, frame) => message op id [u32 (len frame)] frame).
Lemma frame_exact op : exact (frame_codec op).
Proof.
  apply simple_exact.
  - intros [id d] out (H1 & H2). unfold encode_frame. encodes [u32 (len d)] d.
  - intros [id d] (H1 & H2) Hv. unfold decode_frame. decodes op id [u32 (len d)] d. done.
  - opened [4]%nat. cases. returns. split; [typing |]. split; [by_limits |]. rewrite Em. same_message.
Qed.

Definition status_codec (op : Opcode) : Codec := plain
  (fun '(id, status) => encode_status op id status) (decode_status op)
  (fun '(id, status) => is_u64 id /\ is_i32 status) (fun _ => True)
  (fun '(id, status) => message op id [u32 (as_u32 status); u32 0] []).
Lemma status_exact op : exact (status_codec op).
Proof.
  apply simple_exact.
  - intros [id s] out (H1 & H2). unfold encode_status. encodes [u32 (as_u32 s); u32 0] (@nil Z).
  - intros [id s] (H1 & H2) Hv. unfold decode_status. decodes op id [u32 (as_u32 s); u32 0] (@nil Z). values.
  - opened [4; 4]%nat. cases. returns. split; [typing |]. split; [done |]. no_tail tail Hlen. rewrite Em. same_message.
Qed.

Definition ping_codec : Codec := plain
  (fun '(id, address) => encode_ping id address) decode_ping
  (fun '(id, address) => is_u64 id /\ arr 4 address) (fun _ => True)
  (fun '(id, address) => message OpPing id [array 4 address; u32 0] []).
Lemma ping_exact : exact ping_codec.
Proof.
  apply simple_exact.
  - intros [id a] out (H1 & H2). unfold encode_ping. encodes [array 4 a; u32 0] (@nil Z).
  - intros [id a] (H1 & H2) Hv. unfold decode_ping. decodes OpPing id [array 4 a; u32 0] (@nil Z). values.
  - opened [4; 4]%nat. cases. returns. split; [typing |]. split; [done |]. no_tail tail Hlen. rewrite Em. same_message.
Qed.

Definition ping_result_codec : Codec := plain
  (fun '(id, status, rtt) => encode_ping_result id status rtt) decode_ping_result
  (fun '(id, status, rtt) => is_u64 id /\ is_i32 status /\ is_u64 rtt) (fun _ => True)
  (fun '(id, status, rtt) => message OpPingResult id [u32 (as_u32 status); u32 0; u64 rtt] []).
Lemma ping_result_exact : exact ping_result_codec.
Proof.
  apply simple_exact.
  - intros [[id s] t] out (H1 & H2 & H3). unfold encode_ping_result. encodes [u32 (as_u32 s); u32 0; u64 t] (@nil Z).
  - intros [[id s] t] (H1 & H2 & H3) Hv. unfold decode_ping_result. decodes OpPingResult id [u32 (as_u32 s); u32 0; u64 t] (@nil Z). values.
  - opened [4; 4; 8]%nat. cases. returns. split; [typing |]. split; [done |]. no_tail tail Hlen. rewrite Em. same_message.
Qed.

Definition resolve_codec : Codec := plain
  (fun '(id, timeout, host) => encode_resolve_ipv4 id host timeout) decode_resolve_ipv4
  (fun '(id, timeout, host) => is_u64 id /\ is_u32 timeout /\ bytes host /\ from_utf8 host = true)
  (fun '(id, timeout, host) => 0 < len host <= MAX_HOSTNAME_LEN)
  (fun '(id, timeout, host) => message OpResolveIpv4 id [u32 timeout; u16 (len host); u16 0] host).
Lemma resolve_exact : exact resolve_codec.
Proof.
  apply simple_exact.
  - intros [[id t] h] out (H1 & H2 & H3 & H4). unfold encode_resolve_ipv4. encodes [u32 t; u16 (len h); u16 0] h.
  - intros [[id t] h] (H1 & H2 & H3 & H4) Hv. unfold decode_resolve_ipv4. decodes OpResolveIpv4 id [u32 t; u16 (len h); u16 0] h. by rewrite H4.
  - opened [4; 2; 2]%nat. cases. returns. split; [typing |]. split; [by_limits |]. rewrite Em. same_message.
Qed.

Definition resolve_result_codec : Codec := plain
  (fun '(id, status, address, cached) => encode_resolve_ipv4_result id status address cached) decode_resolve_ipv4_result
  (fun '(id, status, address, cached) => is_u64 id /\ is_i32 status /\ arr 4 address) (fun _ => True)
  (fun '(id, status, address, cached) => message OpResolveIpv4Result id [u32 (as_u32 status); u32 (flag_value cached); array 4 address; u32 0] []).
Lemma resolve_result_exact : exact resolve_result_codec.
Proof.
  apply simple_exact.
  - intros [[[id s] a] c] out (H1 & H2 & H3). unfold encode_resolve_ipv4_result. encodes [u32 (as_u32 s); u32 (flag_value c); array 4 a; u32 0] (@nil Z).
  - intros [[[id s] a] c] (H1 & H2 & H3) Hv. unfold decode_resolve_ipv4_result. decodes OpResolveIpv4Result id [u32 (as_u32 s); u32 (flag_value c); array 4 a; u32 0] (@nil Z). values.
  - opened [4; 4; 4; 4]%nat. cases. returns. split; [typing |]. split; [done |]. no_tail tail Hlen. rewrite Em. same_message.
Qed.

Definition tcp_connect_codec : Codec := plain
  (fun '(id, timeout, port, host) => encode_tcp_connect id host port timeout) decode_tcp_connect
  (fun '(id, timeout, port, host) => is_u64 id /\ is_u32 timeout /\ is_u16 port /\ bytes host /\ from_utf8 host = true)
  (fun '(id, timeout, port, host) => 0 < len host <= MAX_HOSTNAME_LEN)
  (fun '(id, timeout, port, host) => message OpTcpConnect id [u32 timeout; u16 port; u16 (len host)] host).
Lemma tcp_connect_exact : exact tcp_connect_codec.
Proof.
  apply simple_exact.
  - intros [[[id t] p] h] out (H1 & H2 & H3 & H4 & H5). unfold encode_tcp_connect. encodes [u32 t; u16 p; u16 (len h)] h.
  - intros [[[id t] p] h] (H1 & H2 & H3 & H4 & H5) Hv. unfold decode_tcp_connect. decodes OpTcpConnect id [u32 t; u16 p; u16 (len h)] h. by rewrite H5.
  - opened [4; 2; 2]%nat. cases. returns. split; [typing |]. split; [by_limits |]. rewrite Em. same_message.
Qed.

Definition tcp_connect_result_codec : Codec := plain
  (fun '(id, status, handle, address, port) => encode_tcp_connect_result id status handle address port) decode_tcp_connect_result
  (fun '(id, status, handle, address, port) => is_u64 id /\ is_i32 status /\ is_u64 handle /\ arr 4 address /\ is_u16 port) (fun _ => True)
  (fun '(id, status, handle, address, port) => message OpTcpConnectResult id [u32 (as_u32 status); u32 0; u64 handle; array 4 address; u16 port; u16 0] []).
Lemma tcp_connect_result_exact : exact tcp_connect_result_codec.
Proof.
  apply simple_exact.
  - intros [[[[id s] h] a] p] out (H1 & H2 & H3 & H4 & H5). unfold encode_tcp_connect_result. encodes [u32 (as_u32 s); u32 0; u64 h; array 4 a; u16 p; u16 0] (@nil Z).
  - intros [[[[id s] h] a] p] (H1 & H2 & H3 & H4 & H5) Hv. unfold decode_tcp_connect_result. decodes OpTcpConnectResult id [u32 (as_u32 s); u32 0; u64 h; array 4 a; u16 p; u16 0] (@nil Z). values.
  - opened [4; 4; 8; 4; 2; 2]%nat. cases. returns. split; [typing |]. split; [done |]. no_tail tail Hlen. rewrite Em. same_message.
Qed.

(** The transferred bytes of a send or a close. *)
Definition tcp_io_codec (op : Opcode) : Codec := plain
  (fun '(id, status, transferred) => encode_tcp_io_result op id status transferred) (decode_tcp_io_result op)
  (fun '(id, status, transferred) => is_u64 id /\ is_i32 status /\ is_u32 transferred) (fun _ => True)
  (fun '(id, status, transferred) => message op id [u32 (as_u32 status); u32 0; u32 transferred; u32 0] []).
Lemma tcp_io_exact op : op = OpTcpSendResult \/ op = OpTcpCloseResult -> exact (tcp_io_codec op).
Proof.
  intros Hop. apply simple_exact.
  - intros [[id s] t] out (H1 & H2 & H3). unfold encode_tcp_io_result. rewrite bool_decide_eq_true_2 by done. cbn [negb]. encodes [u32 (as_u32 s); u32 0; u32 t; u32 0] (@nil Z).
  - intros [[id s] t] (H1 & H2 & H3) Hv. unfold decode_tcp_io_result. decodes op id [u32 (as_u32 s); u32 0; u32 t; u32 0] (@nil Z). values.
  - opened [4; 4; 4; 4]%nat. cases. returns. split; [typing |]. split; [done |]. no_tail tail Hlen. rewrite Em. same_message.
Qed.

Definition tcp_receive_codec : Codec := plain
  (fun '(id, handle, timeout, maximum) => encode_tcp_receive id handle timeout maximum) decode_tcp_receive
  (fun '(id, handle, timeout, maximum) => is_u64 id /\ is_u64 handle /\ is_u32 timeout /\ is_u32 maximum)
  (fun '(id, handle, timeout, maximum) => maximum <= MAX_TCP_IO_LEN)
  (fun '(id, handle, timeout, maximum) => message OpTcpReceive id [u64 handle; u32 timeout; u32 maximum] []).
Lemma tcp_receive_exact : exact tcp_receive_codec.
Proof.
  apply simple_exact.
  - intros [[[id h] t] m] out (H1 & H2 & H3 & H4). unfold encode_tcp_receive. encodes [u64 h; u32 t; u32 m] (@nil Z).
  - intros [[[id h] t] m] (H1 & H2 & H3 & H4) Hv. unfold decode_tcp_receive. decodes OpTcpReceive id [u64 h; u32 t; u32 m] (@nil Z). done.
  - opened [8; 4; 4]%nat. cases. returns. split; [typing |]. split; [done |]. no_tail tail Hlen. rewrite Em. same_message.
Qed.

Definition tcp_receive_result_codec : Codec := plain
  (fun '(id, status, closed, data) => encode_tcp_receive_result id status closed data) decode_tcp_receive_result
  (fun '(id, status, closed, data) => is_u64 id /\ is_i32 status /\ bytes data)
  (fun '(id, status, closed, data) => len data <= MAX_TCP_IO_LEN)
  (fun '(id, status, closed, data) => message OpTcpReceiveResult id [u32 (as_u32 status); u32 (flag_value closed); u32 (len data); u32 0] data).
Lemma tcp_receive_result_exact : exact tcp_receive_result_codec.
Proof.
  apply simple_exact.
  - intros [[[id s] c] d] out (H1 & H2 & H3). unfold encode_tcp_receive_result. encodes [u32 (as_u32 s); u32 (flag_value c); u32 (len d); u32 0] d.
  - intros [[[id s] c] d] (H1 & H2 & H3) Hv. unfold decode_tcp_receive_result. decodes OpTcpReceiveResult id [u32 (as_u32 s); u32 (flag_value c); u32 (len d); u32 0] d. values.
  - opened [4; 4; 4; 4]%nat. cases. returns. split; [typing |]. split; [by_limits |]. rewrite Em. same_message.
Qed.

Definition tcp_close_codec : Codec := plain
  (fun '(id, handle, timeout) => encode_tcp_close id handle timeout) decode_tcp_close
  (fun '(id, handle, timeout) => is_u64 id /\ is_u64 handle /\ is_u32 timeout) (fun _ => True)
  (fun '(id, handle, timeout) => message OpTcpClose id [u64 handle; u32 timeout; u32 0] []).
Lemma tcp_close_exact : exact tcp_close_codec.
Proof.
  apply simple_exact.
  - intros [[id h] t] out (H1 & H2 & H3). unfold encode_tcp_close. encodes [u64 h; u32 t; u32 0] (@nil Z).
  - intros [[id h] t] (H1 & H2 & H3) Hv. unfold decode_tcp_close. decodes OpTcpClose id [u64 h; u32 t; u32 0] (@nil Z). done.
  - opened [8; 4; 4]%nat. cases. returns. split; [typing |]. split; [done |]. no_tail tail Hlen. rewrite Em. same_message.
Qed.

(** The link state is a byte: the encoder writes 0 or 1, the decoder takes every other value for 1. *)
Definition interface_fields (up : Z) (info : InterfaceInfo) : list field :=
  [u64 (interface_id info); array 6 (mac info); u8 up; u8 0; u16 (mtu info); u16 0; u32 (driver_id info); u32 (device_id info); array 12 (driver_name info)].
Definition interface_typed (info : InterfaceInfo) : Prop :=
  is_u64 (interface_id info) /\ arr 6 (mac info) /\ is_u16 (mtu info) /\ is_u32 (driver_id info) /\ is_u32 (device_id info) /\ arr 12 (driver_name info).
Definition interface_info_codec : Codec := {|
  value := Z * InterfaceInfo;
  error := WireError;
  short := BufferTooSmall;
  encode := fun '(id, info) => encode_interface_info id info;
  decode := decode_interface_info;
  typed := fun '(id, info) => is_u64 id /\ interface_typed info;
  valid := fun _ => True;
  wire := fun '(id, info) => message OpInterfaceInfo id (interface_fields (flag_value (link_up info)) info) [];
  means := fun b '(id, info) => exists up, is_u8 up /\ link_up info = negb (up =? 0) /\ b = message OpInterfaceInfo id (interface_fields up info) [];
  flaw := fun _ => False |}.
Lemma interface_info_exact : exact interface_info_codec.
Proof.
  assert (forall b, bytes b -> decode_interface_info b <> Panic /\ forall x, decode_interface_info b = Ok x ->
    typed interface_info_codec x /\ valid interface_info_codec x /\ means interface_info_codec b x) as Hd.
  { opened [8; 6; 1; 1; 2; 2; 4; 4; 12]%nat. cases. returns. split; [unfold typed, interface_info_codec, interface_typed; cbn [mac interface_id mtu driver_id device_id driver_name]; typing |]. split; [done |].
    no_tail tail Hlen. exists z1. rewrite Em. split_and!; [done | done |]. unfold interface_fields; cbn [mac interface_id mtu driver_id device_id driver_name]. same_message. }
  split; cbn [encode decode typed valid wire flaw].
  - intros [id i] out (H1 & H2 & H3 & H4 & H5 & H6 & H7) _. unfold encode_interface_info. apply (encoded _ _ (interface_fields (flag_value (link_up i)) i) []); [done | done |].
    unfold interface_fields. pose proof (flag_value_range (link_up i)). stores. done.
  - intros [id i] out _ Hv. by destruct Hv.
  - intros [id i] (H1 & H2 & H3 & H4 & H5 & H6 & H7) _. cbn [decode wire interface_info_codec]. unfold decode_interface_info.
    decodes OpInterfaceInfo id (interface_fields (flag_value (link_up i)) i) (@nil Z). unfold try_into_array. rewrite to_le_length. values. by destruct i.
  - intros b x Hb. by apply Hd.
  - intros b Hb E. by destruct (Hd b Hb).
Qed.

(** ** Statistics: numbers behind the header *)

Definition words (vs : list Z) : list field := map (fun v => u64 v) vs.

Lemma words_fit vs : Forall is_u64 vs -> Forall fits (words vs).
Proof. intros H. unfold words. apply Forall_map. eapply Forall_impl; [exact H |]. intros v Hv. by apply fits_8. Qed.
Lemma words_size vs : size (words vs) = (8 * List.length vs)%nat.
Proof. unfold size, words. induction vs as [|v vs IH]; [done |]. cbn in *. rewrite IH. lia. Qed.

Lemma write_words_pack vs : forall fs out i, size fs = (24 + i * 8)%nat -> (24 + i * 8 + 8 * List.length vs <= List.length out)%nat ->
  write_words (pack fs ++ drop (24 + i * 8) out) i vs = Ok (pack (fs ++ words vs) ++ drop (24 + i * 8 + 8 * List.length vs) out).
Proof.
  induction vs as [|v vs IH]; intros fs out i Hs Hl; cbn [write_words words map List.length] in *; [by rewrite app_nil_r, Nat.add_0_r |].
  unfold write_u64. rewrite store_pack by lia. replace (24 + i * 8 + 8)%nat with (24 + S i * 8)%nat by lia. rewrite IH; [| rewrite size_app; change (size [u64 v]) with 8%nat; lia | lia].
  rewrite <- app_assoc. by replace (24 + i * 8 + 8 * S (List.length vs))%nat with (24 + S i * 8 + 8 * List.length vs)%nat by lia.
Qed.

Lemma write_values op id vs out l : l = HEADER_LEN + Z.of_nat (8 * List.length vs) -> l <= len out ->
  (let? out := write_words (pack (head op id l) ++ drop 24 out) 0 vs in Ok (out, l)) = Ok (message op id (words vs) [] ++ drop (Z.to_nat l) out, l).
Proof.
  intros -> Hl. unfold len, HEADER_LEN in Hl. rewrite (write_words_pack vs _ out 0) by (done || lia). unfold message. rewrite words_size, app_nil_r.
  change (len []) with 0. rewrite Z.add_0_r. do 4 f_equal. unfold HEADER_LEN. lia.
Qed.

Definition statistics_codec (op : Opcode) : Codec := plain
  (fun '(id, stats) => encode_statistics op id stats) (decode_statistics op)
  (fun '(id, stats) => is_u64 id /\ Forall is_u64 (device_values stats)) (fun _ => True)
  (fun '(id, stats) => message op id (words (device_values stats)) []).
Lemma statistics_exact op : exact (statistics_codec op).
Proof.
  apply simple_exact.
  - intros [id s] out (H1 & H2). unfold encode_statistics. encodes (words (device_values s)) (@nil Z). by apply write_values.
  - intros [id s] (H1 & H2) Hv. apply words_fit in H2. unfold decode_statistics. decodes op id (words (device_values s)) (@nil Z). by destruct s.
  - opened (replicate 8 8%nat). cases. returns. split; [split; [done |]; repeat (apply Forall_cons; split); done |]. split; [done |]. no_tail tail Hlen. done.
Qed.

Definition stack_statistics_codec : Codec := plain
  (fun '(id, stats) => encode_stack_statistics id stats) decode_stack_statistics
  (fun '(id, stats) => is_u64 id /\ Forall is_u64 (stack_values stats)) (fun _ => True)
  (fun '(id, stats) => message OpStackStatistics id (words (stack_values stats)) []).
Lemma stack_statistics_exact : exact (stack_statistics_codec).
Proof.
  apply simple_exact.
  - intros [id s] out (H1 & H2). unfold encode_stack_statistics. encodes (words (stack_values s)) (@nil Z). by apply write_values.
  - intros [id s] (H1 & H2) Hv. apply words_fit in H2. unfold decode_stack_statistics. decodes OpStackStatistics id (words (stack_values s)) (@nil Z). by destruct s.
  - opened (replicate 33 8%nat). cases. returns. split; [split; [done |]; repeat (apply Forall_cons; split); done |]. split; [done |]. no_tail tail Hlen. done.
Qed.

Definition security_statistics_codec : Codec := plain
  (fun '(id, stats) => encode_security_statistics id stats) decode_security_statistics
  (fun '(id, stats) => is_u64 id /\ Forall is_u64 (security_values stats)) (fun _ => True)
  (fun '(id, stats) => message OpSecurityStatistics id (words (security_values stats)) []).
Lemma security_statistics_exact : exact (security_statistics_codec).
Proof.
  apply simple_exact.
  - intros [id s] out (H1 & H2). unfold encode_security_statistics. encodes (words (security_values s)) (@nil Z). by apply write_values.
  - intros [id s] (H1 & H2) Hv. apply words_fit in H2. unfold decode_security_statistics. decodes OpSecurityStatistics id (words (security_values s)) (@nil Z). by destruct s.
  - opened (replicate 16 8%nat). cases. returns. split; [split; [done |]; repeat (apply Forall_cons; split); done |]. split; [done |]. no_tail tail Hlen. done.
Qed.
