(* ===== verification/NetTls.v ===== *)
(** * The network service's protocol: TLS connections ([net-device-protocol/tls.rs])

    The messages of encrypted connections, and a codec for each of them. *)

From S2P Require Import Prelude Text Fields NetWire NetMessages.

(** ** Definitions *)

Definition TLS_CONNECT_BASE_LEN : Z := 40.
Definition TLS_CONNECT_RESULT_BASE_LEN : Z := 80.
Definition TLS_IO_REQUEST_BASE_LEN : Z := 40.
Definition TLS_IO_RESULT_LEN : Z := 48.
Definition TLS_RECEIVE_REQUEST_LEN : Z := 40.
Definition TLS_RECEIVE_RESULT_BASE_LEN : Z := 48.
Definition TLS_CLOSE_REQUEST_LEN : Z := 40.
Definition MAX_CERTIFICATE_NAME_LEN : Z := 512.

Inductive TlsFailure : Type :=
  | Tls_None | Tls_InvalidServerName | Tls_InvalidConfiguration | Tls_RandomUnavailable | Tls_TimeUnavailable | Tls_CertificateInvalid
  | Tls_HostnameMismatch | Tls_CertificateChainTooDeep | Tls_CertificateTooLarge | Tls_CertificateChainTooLarge | Tls_AuthenticationFailed
  | Tls_BufferLimit | Tls_Protocol | Tls_PeerAlert | Tls_InvalidState | Tls_Timeout | Tls_ConnectionLimit | Tls_Transport | Tls_PermissionDenied.

Definition TlsFailure_wire_value (self : TlsFailure) : Z :=
  match self with
  | Tls_None => 0
  | Tls_InvalidServerName => 1
  | Tls_InvalidConfiguration => 2
  | Tls_RandomUnavailable => 3
  | Tls_TimeUnavailable => 4
  | Tls_CertificateInvalid => 5
  | Tls_HostnameMismatch => 6
  | Tls_CertificateChainTooDeep => 7
  | Tls_CertificateTooLarge => 8
  | Tls_CertificateChainTooLarge => 9
  | Tls_AuthenticationFailed => 10
  | Tls_BufferLimit => 11
  | Tls_Protocol => 12
  | Tls_PeerAlert => 13
  | Tls_InvalidState => 14
  | Tls_Timeout => 15
  | Tls_ConnectionLimit => 16
  | Tls_Transport => 17
  | Tls_PermissionDenied => 18
  end.

Definition TlsFailure_from_wire (value : Z) : option TlsFailure :=
  if value =? 0 then Some Tls_None else
  if value =? 1 then Some Tls_InvalidServerName else
  if value =? 2 then Some Tls_InvalidConfiguration else
  if value =? 3 then Some Tls_RandomUnavailable else
  if value =? 4 then Some Tls_TimeUnavailable else
  if value =? 5 then Some Tls_CertificateInvalid else
  if value =? 6 then Some Tls_HostnameMismatch else
  if value =? 7 then Some Tls_CertificateChainTooDeep else
  if value =? 8 then Some Tls_CertificateTooLarge else
  if value =? 9 then Some Tls_CertificateChainTooLarge else
  if value =? 10 then Some Tls_AuthenticationFailed else
  if value =? 11 then Some Tls_BufferLimit else
  if value =? 12 then Some Tls_Protocol else
  if value =? 13 then Some Tls_PeerAlert else
  if value =? 14 then Some Tls_InvalidState else
  if value =? 15 then Some Tls_Timeout else
  if value =? 16 then Some Tls_ConnectionLimit else
  if value =? 17 then Some Tls_Transport else
  if value =? 18 then Some Tls_PermissionDenied else
  None.

Record TlsConnectResult : Type := {
  tr_request_id : Z;
  tr_status : Z;
  tr_failure : TlsFailure;
  tr_handle : Z;
  tr_address : list Z;
  tr_port : Z;
  tr_protocol_version : Z;
  tr_cipher_suite : Z;
  tr_hostname : list Z;
  tr_certificate_subject : list Z;
  tr_certificate_issuer : list Z;
  tr_certificate_not_before : Z;
  tr_certificate_not_after : Z }.

Definition validate_hostname (hostname : list Z) : res unit :=
  if bool_decide (hostname = []) || (MAX_HOSTNAME_LEN <? len hostname) then Err (HostnameTooLarge (len hostname)) else
  if existsb (fun byte => (byte =? 0) || negb (byte <? 128)) hostname then Err InvalidText else Ok tt.
Definition validate_certificate_name (value : list Z) : res unit :=
  if MAX_CERTIFICATE_NAME_LEN <? len value then Err (DataTooLarge (len value)) else
  if existsb (fun byte => (byte =? 0) || is_ascii_control byte) value then Err InvalidText else Ok tt.
Definition decode_text (value : list Z) : res (list Z) := if from_utf8 value then Ok value else Err InvalidText.

Definition encode_tls_connect (request_id : Z) (hostname : list Z) (port timeout_ms : Z) (out : list Z) : res (list Z * Z) :=
  let? _ := validate_hostname hostname in
  let? length := ok_or (checked_add64 TLS_CONNECT_BASE_LEN (len hostname)) (HostnameTooLarge (len hostname)) in
  let? out := write_header OpTlsConnect request_id length out in
  let? out := write_u32 out 24 timeout_ms in
  let? out := write_u16 out 28 port in
  let? out := write_u16 out 30 0 in
  let? out := write_u16 out 32 (as_u16 (len hostname)) in
  let? out := write_u16 out 34 0 in
  let? out := write_u32 out 36 0 in
  let? out := copy_into out 40 (Z.to_nat length) hostname in
  Ok (out, length).
Definition decode_tls_connect (b : list Z) : res (Z * Z * Z * list Z) :=
  let? header := Header_decode b in
  let? _ := expect_opcode (opcode header) OpTlsConnect in
  if len b <? TLS_CONNECT_BASE_LEN then Err (InvalidLength TLS_CONNECT_BASE_LEN (len b)) else
  let? flags := read_u16 b 30 in
  let? reserved16 := read_u16 b 34 in
  let? reserved32 := read_u32 b 36 in
  if negb (flags =? 0) || negb (reserved16 =? 0) || negb (reserved32 =? 0) then Err (NonZeroReserved (Z.lor (Z.lor flags reserved16) reserved32)) else
  let? hostname_len := read_u16 b 32 in
  let expected := saturating_add64 TLS_CONNECT_BASE_LEN hostname_len in
  if negb (len b =? expected) then Err (InvalidLength expected (len b)) else
  let? hostname := slice b 40 (List.length b) in
  if negb (from_utf8 hostname) then Err InvalidText else
  let? _ := validate_hostname hostname in
  let? timeout_ms := read_u32 b 24 in
  let? port := read_u16 b 28 in
  Ok (request_id header, timeout_ms, port, hostname).

(** The loop that writes the texts one after the other. *)
Fixpoint write_texts (out : list Z) (offset : Z) (values : list (list Z)) : res (list Z) :=
  match values with
  | [] => Ok out
  | value :: values =>
      let e := offset + len value in
      let? out := copy_into out (Z.to_nat offset) (Z.to_nat e) value in
      write_texts out e values
  end.

Definition encode_tls_connect_result (request_id status : Z) (failure : TlsFailure) (handle : Z) (address : list Z) (port protocol_version cipher_suite : Z)
    (hostname certificate_subject certificate_issuer : list Z) (certificate_not_before certificate_not_after : Z) (out : list Z) : res (list Z * Z) :=
  let? _ := (if negb (bool_decide (hostname = [])) then validate_hostname hostname else Ok tt) in
  let? _ := validate_certificate_name certificate_subject in
  let? _ := validate_certificate_name certificate_issuer in
  let? strings_len := ok_or (match checked_add64 (len hostname) (len certificate_subject) with Some l => checked_add64 l (len certificate_issuer) | None => None end) (DataTooLarge USIZE_MAX) in
  let? length := ok_or (checked_add64 TLS_CONNECT_RESULT_BASE_LEN strings_len) (DataTooLarge strings_len) in
  let? out := write_header OpTlsConnectResult request_id length out in
  let? out := write_i32 out 24 status in
  let? out := write_u16 out 28 (TlsFailure_wire_value failure) in
  let? out := write_u16 out 30 0 in
  let? out := write_u64 out 32 handle in
  let? out := copy_into out 40 44 address in
  let? out := write_u16 out 44 port in
  let? out := write_u16 out 46 protocol_version in
  let? out := write_u16 out 48 cipher_suite in
  let? out := write_u16 out 50 (as_u16 (len hostname)) in
  let? out := write_u16 out 52 (as_u16 (len certificate_subject)) in
  let? out := write_u16 out 54 (as_u16 (len certificate_issuer)) in
  let? out := write_u64 out 56 0 in
  let? out := write_u64 out 64 certificate_not_before in
  let? out := write_u64 out 72 certificate_not_after in
  let? out := write_texts out TLS_CONNECT_RESULT_BASE_LEN [hostname; certificate_subject; certificate_issuer] in
  Ok (out, length).
Definition decode_tls_connect_result (b : list Z) : res TlsConnectResult :=
  let? header := Header_decode b in
  let? _ := expect_opcode (opcode header) OpTlsConnectResult in
  if len b <? TLS_CONNECT_RESULT_BASE_LEN then Err (InvalidLength TLS_CONNECT_RESULT_BASE_LEN (len b)) else
  let? reserved16 := read_u16 b 30 in
  let? reserved64 := read_u64 b 56 in
  if negb (reserved16 =? 0) || negb (reserved64 =? 0) then Err (NonZeroReserved (Z.lor reserved16 (flag_value (negb (reserved64 =? 0))))) else
  let? failure_raw := read_u16 b 28 in
  let? failure := ok_or (TlsFailure_from_wire failure_raw) (UnknownTlsFailure failure_raw) in
  let? hostname_len := read_u16 b 50 in
  let? subject_len := read_u16 b 52 in
  let? issuer_len := read_u16 b 54 in
  if (MAX_HOSTNAME_LEN <? hostname_len) || (MAX_CERTIFICATE_NAME_LEN <? subject_len) || (MAX_CERTIFICATE_NAME_LEN <? issuer_len)
  then Err (DataTooLarge (Z.max (Z.max hostname_len subject_len) issuer_len)) else
  let? strings_len := ok_or (match checked_add64 hostname_len subject_len with Some l => checked_add64 l issuer_len | None => None end) (DataTooLarge USIZE_MAX) in
  let? expected := ok_or (checked_add64 TLS_CONNECT_RESULT_BASE_LEN strings_len) (DataTooLarge strings_len) in
  if negb (len b =? expected) then Err (InvalidLength expected (len b)) else
  let subject_start := TLS_CONNECT_RESULT_BASE_LEN + hostname_len in
  let issuer_start := subject_start + subject_len in
  let? text := slice b 80 (Z.to_nat subject_start) in
  let? hostname := decode_text text in
  let? text := slice b (Z.to_nat subject_start) (Z.to_nat issuer_start) in
  let? certificate_subject := decode_text text in
  let? text := slice b (Z.to_nat issuer_start) (List.length b) in
  let? certificate_issuer := decode_text text in
  let? _ := (if negb (bool_decide (hostname = [])) then validate_hostname hostname else Ok tt) in
  let? _ := validate_certificate_name certificate_subject in
  let? _ := validate_certificate_name certificate_issuer in
  let? status := read_i32 b 24 in
  let? handle := read_u64 b 32 in
  let? address := slice b 40 44 in
  let? port := read_u16 b 44 in
  let? protocol_version := read_u16 b 46 in
  let? cipher_suite := read_u16 b 48 in
  let? certificate_not_before := read_u64 b 64 in
  let? certificate_not_after := read_u64 b 72 in
  Ok {| tr_request_id := request_id header; tr_status := status; tr_failure := failure; tr_handle := handle; tr_address := address; tr_port := port;
        tr_protocol_version := protocol_version; tr_cipher_suite := cipher_suite; tr_hostname := hostname; tr_certificate_subject := certificate_subject;
        tr_certificate_issuer := certificate_issuer; tr_certificate_not_before := certificate_not_before; tr_certificate_not_after := certificate_not_after |}.

Definition encode_tls_send (request_id handle timeout_ms : Z) (data out : list Z) : res (list Z * Z) :=
  if MAX_TCP_IO_LEN <? len data then Err (DataTooLarge (len data)) else
  let? length := ok_or (checked_add64 TLS_IO_REQUEST_BASE_LEN (len data)) (DataTooLarge (len data)) in
  let? out := write_header OpTlsSend request_id length out in
  let? out := write_u64 out 24 handle in
  let? out := write_u32 out 32 timeout_ms in
  let? out := write_u32 out 36 (as_u32 (len data)) in
  let? out := copy_into out 40 (Z.to_nat length) data in
  Ok (out, length).
Definition decode_tls_data_request (expected : Opcode) (b : list Z) : res (Z * Z * Z * list Z) :=
  let? header := Header_decode b in
  let? _ := expect_opcode (opcode header) expected in
  if len b <? TLS_IO_REQUEST_BASE_LEN then Err (InvalidLength TLS_IO_REQUEST_BASE_LEN (len b)) else
  let? data_len := read_u32 b 36 in
  if MAX_TCP_IO_LEN <? data_len then Err (DataTooLarge data_len) else
  let expected_len := saturating_add64 TLS_IO_REQUEST_BASE_LEN data_len in
  if negb (len b =? expected_len) then Err (InvalidLength expected_len (len b)) else
  let? handle := read_u64 b 24 in
  let? timeout_ms := read_u32 b 32 in
  let? data := slice b 40 (List.length b) in
  Ok (request_id header, handle, timeout_ms, data).
Definition decode_tls_send (b : list Z) : res (Z * Z * Z * list Z) := decode_tls_data_request OpTlsSend b.

Definition encode_tls_receive (request_id handle timeout_ms maximum_length : Z) (out : list Z) : res (list Z * Z) :=
  if MAX_TCP_IO_LEN <? maximum_length then Err (DataTooLarge maximum_length) else
  let? out := write_header OpTlsReceive request_id TLS_RECEIVE_REQUEST_LEN out in
  let? out := write_u64 out 24 handle in
  let? out := write_u32 out 32 timeout_ms in
  let? out := write_u32 out 36 maximum_length in
  Ok (out, TLS_RECEIVE_REQUEST_LEN).
Definition decode_tls_receive (b : list Z) : res (Z * Z * Z * Z) :=
  let? header := Header_decode b in
  let? _ := expect_opcode (opcode header) OpTlsReceive in
  if negb (len b =? TLS_RECEIVE_REQUEST_LEN) then Err (InvalidLength TLS_RECEIVE_REQUEST_LEN (len b)) else
  let? maximum := read_u32 b 36 in
  if MAX_TCP_IO_LEN <? maximum then Err (DataTooLarge maximum) else
  let? handle := read_u64 b 24 in
  let? timeout_ms := read_u32 b 32 in
  Ok (request_id header, handle, timeout_ms, maximum).

Definition encode_tls_close (request_id handle timeout_ms : Z) (out : list Z) : res (list Z * Z) :=
  let? out := write_header OpTlsClose request_id TLS_CLOSE_REQUEST_LEN out in
  let? out := write_u64 out 24 handle in
  let? out := write_u32 out 32 timeout_ms in
  let? out := write_u32 out 36 0 in
  Ok (out, TLS_CLOSE_REQUEST_LEN).
Definition decode_tls_close (b : list Z) : res (Z * Z * Z) :=
  let? header := Header_decode b in
  let? _ := expect_opcode (opcode header) OpTlsClose in
  if negb (len b =? TLS_CLOSE_REQUEST_LEN) then Err (InvalidLength TLS_CLOSE_REQUEST_LEN (len b)) else
  let? reserved := read_u32 b 36 in
  if negb (reserved =? 0) then Err (NonZeroReserved reserved) else
  let? handle := read_u64 b 24 in
  let? timeout_ms := read_u32 b 32 in
  Ok (request_id header, handle, timeout_ms).

Definition encode_tls_io_result (opcode : Opcode) (request_id status : Z) (failure : TlsFailure) (handle transferred : Z) (out : list Z) : res (list Z * Z) :=
  if negb (bool_decide (opcode = OpTlsSendResult \/ opcode = OpTlsCloseResult)) then Err (UnexpectedOpcode OpTlsSendResult opcode) else
  let? out := write_header opcode request_id TLS_IO_RESULT_LEN out in
  let? out := write_i32 out 24 status in
  let? out := write_u16 out 28 (TlsFailure_wire_value failure) in
  let? out := write_u16 out 30 0 in
  let? out := write_u32 out 32 transferred in
  let? out := write_u32 out 36 0 in
  let? out := write_u64 out 40 handle in
  Ok (out, TLS_IO_RESULT_LEN).
Definition decode_tls_io_result (expected : Opcode) (b : list Z) : res (Z * Z * TlsFailure * Z * Z) :=
  let? header := Header_decode b in
  let? _ := expect_opcode (opcode header) expected in
  if negb (len b =? TLS_IO_RESULT_LEN) then Err (InvalidLength TLS_IO_RESULT_LEN (len b)) else
  let? reserved16 := read_u16 b 30 in
  let? reserved32 := read_u32 b 36 in
  if negb (reserved16 =? 0) || negb (reserved32 =? 0) then Err (NonZeroReserved (Z.lor reserved16 reserved32)) else
  let? failure_raw := read_u16 b 28 in
  let? failure := ok_or (TlsFailure_from_wire failure_raw) (UnknownTlsFailure failure_raw) in
  let? status := read_i32 b 24 in
  let? handle := read_u64 b 40 in
  let? transferred := read_u32 b 32 in
  Ok (request_id header, status, failure, handle, transferred).

Definition encode_tls_receive_result (request_id status : Z) (failure : TlsFailure) (handle : Z) (closed : bool) (data out : list Z) : res (list Z * Z) :=
  if MAX_TCP_IO_LEN <? len data then Err (DataTooLarge (len data)) else
  let? length := ok_or (checked_add64 TLS_RECEIVE_RESULT_BASE_LEN (len data)) (DataTooLarge (len data)) in
  let? out := write_header OpTlsReceiveResult request_id length out in
  let? out := write_i32 out 24 status in
  let? out := write_u16 out 28 (TlsFailure_wire_value failure) in
  let? out := write_u16 out 30 (flag_value closed) in
  let? out := write_u32 out 32 (as_u32 (len data)) in
  let? out := write_u32 out 36 0 in
  let? out := write_u64 out 40 handle in
  let? out := copy_into out 48 (Z.to_nat length) data in
  Ok (out, length).
Definition decode_tls_receive_result (b : list Z) : res (Z * Z * TlsFailure * Z * bool * list Z) :=
  let? header := Header_decode b in
  let? _ := expect_opcode (opcode header) OpTlsReceiveResult in
  if len b <? TLS_RECEIVE_RESULT_BASE_LEN then Err (InvalidLength TLS_RECEIVE_RESULT_BASE_LEN (len b)) else
  let? flags := read_u16 b 30 in
  let? reserved := read_u32 b 36 in
  if (1 <? flags) || negb (reserved =? 0) then Err (NonZeroReserved (Z.lor flags reserved)) else
  let? data_len := read_u32 b 32 in
  let expected := saturating_add64 TLS_RECEIVE_RESULT_BASE_LEN data_len in
  if (MAX_TCP_IO_LEN <? data_len) || negb (len b =? expected) then Err (InvalidLength expected (len b)) else
  let? failure_raw := read_u16 b 28 in
  let? failure := ok_or (TlsFailure_from_wire failure_raw) (UnknownTlsFailure failure_raw) in
  let? status := read_i32 b 24 in
  let? handle := read_u64 b 40 in
  let? data := slice b 48 (List.length b) in
  Ok (request_id header, status, failure, handle, flags =? 1, data).

(** ** Codecs *)

Ltac constants ::= unfold MAX_TCP_IO_LEN, MAX_HOSTNAME_LEN, MAX_CERTIFICATE_NAME_LEN, TLS_CONNECT_BASE_LEN, TLS_CONNECT_RESULT_BASE_LEN, TLS_IO_REQUEST_BASE_LEN, TLS_IO_RESULT_LEN,
  TLS_RECEIVE_REQUEST_LEN, TLS_RECEIVE_RESULT_BASE_LEN, TLS_CLOSE_REQUEST_LEN in *.

Lemma TlsFailure_from_wire_value f : TlsFailure_from_wire (TlsFailure_wire_value f) = Some f.
Proof. by destruct f. Qed.
Lemma TlsFailure_from_wire_Some v f : TlsFailure_from_wire v = Some f -> v = TlsFailure_wire_value f.
Proof. unfold TlsFailure_from_wire. intros H. repeat match type of H with (if _ =? ?c then _ else _) = _ => destruct (Z.eqb_spec v c) as [->|_]; [by injection H as <- |] end. done. Qed.
Lemma TlsFailure_range f : 0 <= TlsFailure_wire_value f < 65536.
Proof. destruct f; cbn; lia. Qed.

(** Host names and certificate names. *)
Definition host_ok (h : list Z) : Prop := 0 < len h <= MAX_HOSTNAME_LEN /\ Forall (fun byte => byte <> 0 /\ byte < 128) h.
Definition name_ok (s : list Z) : Prop := len s <= MAX_CERTIFICATE_NAME_LEN /\ Forall (fun byte => is_ascii_control byte = false) s.

Lemma validate_hostname_spec h : host_ok h /\ validate_hostname h = Ok tt \/ ~ host_ok h /\ exists e, validate_hostname h = Err e.
Proof.
  unfold validate_hostname, host_ok. destruct (decide (h = [])) as [->|Hne]; [right; split; [intros [[H _] _]; by cbn in H | by eexists] |]. rewrite bool_decide_eq_false_2 by done. cbn [orb].
  assert (0 < len h) as Hp by (destruct h; [done |]; unfold len; cbn; lia). destruct (Z.ltb_spec MAX_HOSTNAME_LEN (len h)); [right; split; [lia | by eexists] |].
  destruct (existsb _ h) eqn:E.
  - right. split; [| by eexists]. intros [_ H1]. apply existsb_elem in E as (x & Hx & E). rewrite Forall_forall in H1. destruct (H1 x Hx). apply orb_true_iff in E as [E|E]; bool_cases; lia.
  - left. split; [| done]. split; [lia |]. apply Forall_forall. intros x Hx. rewrite existsb_none in E. specialize (E x Hx). apply orb_false_iff in E as [E1 E2]. by bool_cases.
Qed.
Lemma validate_certificate_name_spec s : name_ok s /\ validate_certificate_name s = Ok tt \/ ~ name_ok s /\ exists e, validate_certificate_name s = Err e.
Proof.
  unfold validate_certificate_name, name_ok. destruct (Z.ltb_spec MAX_CERTIFICATE_NAME_LEN (len s)); [right; split; [lia | by eexists] |].
  destruct (existsb _ s) eqn:E.
  - right. split; [| by eexists]. intros [_ H1]. apply existsb_elem in E as (x & Hx & E). rewrite Forall_forall in H1. specialize (H1 x Hx). rewrite H1, orb_false_r in E. bool_cases. by subst x.
  - left. split; [| done]. split; [lia |]. apply Forall_forall. intros x Hx. rewrite existsb_none in E. specialize (E x Hx). by apply orb_false_iff in E as [_ E].
Qed.
Lemma host_ok_utf8 h : host_ok h -> from_utf8 h = true.
Proof. intros [_ H]. apply from_utf8_ascii. eapply Forall_impl; [exact H |]. by intros x [_ ?]. Qed.

Definition tls_connect_codec : Codec := plain
  (fun '(id, timeout, port, host) => encode_tls_connect id host port timeout) decode_tls_connect
  (fun '(id, timeout, port, host) => is_u64 id /\ is_u32 timeout /\ is_u16 port /\ bytes host)
  (fun '(id, timeout, port, host) => host_ok host)
  (fun '(id, timeout, port, host) => message OpTlsConnect id [u32 timeout; u16 port; u16 0; u16 (len host); u16 0; u32 0] host).
Lemma tls_connect_exact : exact tls_connect_codec.
Proof.
  apply simple_exact.
  - intros [[[id t] p] h] out (H1 & H2 & H3 & H4). unfold encode_tls_connect. destruct (validate_hostname_spec h) as [[Hh ->]|[Hh [e ->]]]; [| split; [done | by eexists]].
    pose proof (proj1 Hh). encodes [u32 t; u16 p; u16 0; u16 (len h); u16 0; u32 0] h.
  - intros [[[id t] p] h] (H1 & H2 & H3 & H4) Hv. pose proof (proj1 Hv). unfold decode_tls_connect. decodes OpTlsConnect id [u32 t; u16 p; u16 0; u16 (len h); u16 0; u32 0] h.
    rewrite host_ok_utf8 by done. cbn [negb]. destruct (validate_hostname_spec h) as [[_ ->]|[Hn _]]; done.
  - opened [4; 2; 2; 2; 2; 4]%nat. cases. destruct (validate_hostname_spec tail) as [[Hh ->]|[Hn [e ->]]]; [| done]. returns.
    repeat match goal with H : _ || _ = false |- _ => apply orb_false_iff in H as [? ?] end. bool_cases. split; [typing |]. split; [done |]. rewrite Em. same_message.
Qed.

Definition tls_send_codec : Codec := plain
  (fun '(id, handle, timeout, data) => encode_tls_send id handle timeout data) decode_tls_send
  (fun '(id, handle, timeout, data) => is_u64 id /\ is_u64 handle /\ is_u32 timeout /\ bytes data)
  (fun '(id, handle, timeout, data) => len data <= MAX_TCP_IO_LEN)
  (fun '(id, handle, timeout, data) => message OpTlsSend id [u64 handle; u32 timeout; u32 (len data)] data).
Lemma tls_send_exact : exact tls_send_codec.
Proof.
  apply simple_exact.
  - intros [[[id h] t] d] out (H1 & H2 & H3 & H4). unfold encode_tls_send. encodes [u64 h; u32 t; u32 (len d)] d.
  - intros [[[id h] t] d] (H1 & H2 & H3 & H4) Hv. unfold decode_tls_send, decode_tls_data_request. decodes OpTlsSend id [u64 h; u32 t; u32 (len d)] d. done.
  - unfold decode_tls_send, decode_tls_data_request. opened [8; 4; 4]%nat. cases. returns. split; [typing |]. split; [by_limits |]. rewrite Em. same_message.
Qed.

Definition tls_receive_codec : Codec := plain
  (fun '(id, handle, timeout, maximum) => encode_tls_receive id handle timeout maximum) decode_tls_receive
  (fun '(id, handle, timeout, maximum) => is_u64 id /\ is_u64 handle /\ is_u32 timeout /\ is_u32 maximum)
  (fun '(id, handle, timeout, maximum) => maximum <= MAX_TCP_IO_LEN)
  (fun '(id, handle, timeout, maximum) => message OpTlsReceive id [u64 handle; u32 timeout; u32 maximum] []).
Lemma tls_receive_exact : exact tls_receive_codec.
Proof.
  apply simple_exact.
  - intros [[[id h] t] m] out (H1 & H2 & H3 & H4). unfold encode_tls_receive. encodes [u64 h; u32 t; u32 m] (@nil Z).
  - intros [[[id h] t] m] (H1 & H2 & H3 & H4) Hv. unfold decode_tls_receive. decodes OpTlsReceive id [u64 h; u32 t; u32 m] (@nil Z). done.
  - opened [8; 4; 4]%nat. cases. returns. split; [typing |]. split; [done |]. no_tail tail Hlen. rewrite Em. same_message.
Qed.

Definition tls_close_codec : Codec := plain
  (fun '(id, handle, timeout) => encode_tls_close id handle timeout) decode_tls_close
  (fun '(id, handle, timeout) => is_u64 id /\ is_u64 handle /\ is_u32 timeout) (fun _ => True)
  (fun '(id, handle, timeout) => message OpTlsClose id [u64 handle; u32 timeout; u32 0] []).
Lemma tls_close_exact : exact tls_close_codec.
Proof.
  apply simple_exact.
  - intros [[id h] t] out (H1 & H2 & H3). unfold encode_tls_close. encodes [u64 h; u32 t; u32 0] (@nil Z).
  - intros [[id h] t] (H1 & H2 & H3) Hv. unfold decode_tls_close. decodes OpTlsClose id [u64 h; u32 t; u32 0] (@nil Z). done.
  - opened [8; 4; 4]%nat. cases. returns. split; [typing |]. split; [done |]. no_tail tail Hlen. rewrite Em. same_message.
Qed.

Definition tls_io_codec (op : Opcode) : Codec := plain
  (fun '(id, status, failure, handle, transferred) => encode_tls_io_result op id status failure handle transferred) (decode_tls_io_result op)
  (fun '(id, status, failure, handle, transferred) => is_u64 id /\ is_i32 status /\ is_u64 handle /\ is_u32 transferred) (fun _ => True)
  (fun '(id, status, failure, handle, transferred) => message op id [u32 (as_u32 status); u16 (TlsFailure_wire_value failure); u16 0; u32 transferred; u32 0; u64 handle] []).
Lemma tls_io_exact op : op = OpTlsSendResult \/ op = OpTlsCloseResult -> exact (tls_io_codec op).
Proof.
  intros Hop. apply simple_exact.
  - intros [[[[id s] f] h] t] out (H1 & H2 & H3 & H4). unfold encode_tls_io_result. rewrite bool_decide_eq_true_2 by done. cbn [negb]. encodes [u32 (as_u32 s); u16 (TlsFailure_wire_value f); u16 0; u32 t; u32 0; u64 h] (@nil Z).
  - intros [[[[id s] f] h] t] (H1 & H2 & H3 & H4) Hv. pose proof (TlsFailure_range f). unfold decode_tls_io_result.
    decodes op id [u32 (as_u32 s); u16 (TlsFailure_wire_value f); u16 0; u32 t; u32 0; u64 h] (@nil Z). rewrite TlsFailure_from_wire_value. cbn [ok_or]. values.
  - opened [4; 2; 2; 4; 4; 8]%nat. cases. destruct (TlsFailure_from_wire _) as [f|] eqn:Ef; [| done]. apply TlsFailure_from_wire_Some in Ef as ->. cbn [ok_or]. returns.
    repeat match goal with H : _ || _ = false |- _ => apply orb_false_iff in H as [? ?] end. bool_cases. split; [typing |]. split; [done |]. no_tail tail Hlen. rewrite Em. same_message.
Qed.

Definition tls_receive_result_codec : Codec := plain
  (fun '(id, status, failure, handle, closed, data) => encode_tls_receive_result id status failure handle closed data) decode_tls_receive_result
  (fun '(id, status, failure, handle, closed, data) => is_u64 id /\ is_i32 status /\ is_u64 handle /\ bytes data)
  (fun '(id, status, failure, handle, closed, data) => len data <= MAX_TCP_IO_LEN)
  (fun '(id, status, failure, handle, closed, data) =>
     message OpTlsReceiveResult id [u32 (as_u32 status); u16 (TlsFailure_wire_value failure); u16 (flag_value closed); u32 (len data); u32 0; u64 handle] data).
Lemma tls_receive_result_exact : exact tls_receive_result_codec.
Proof.
  apply simple_exact.
  - intros [[[[[id s] f] h] c] d] out (H1 & H2 & H3 & H4). unfold encode_tls_receive_result. encodes [u32 (as_u32 s); u16 (TlsFailure_wire_value f); u16 (flag_value c); u32 (len d); u32 0; u64 h] d.
  - intros [[[[[id s] f] h] c] d] (H1 & H2 & H3 & H4) Hv. pose proof (TlsFailure_range f). unfold decode_tls_receive_result.
    decodes OpTlsReceiveResult id [u32 (as_u32 s); u16 (TlsFailure_wire_value f); u16 (flag_value c); u32 (len d); u32 0; u64 h] d. rewrite TlsFailure_from_wire_value. cbn [ok_or]. values.
  - opened [4; 2; 2; 4; 4; 8]%nat. cases. destruct (TlsFailure_from_wire _) as [f|] eqn:Ef; [| done]. apply TlsFailure_from_wire_Some in Ef as ->. cbn [ok_or]. returns.
    repeat match goal with H : _ || _ = false |- _ => apply orb_false_iff in H as [? ?] end. bool_cases. split; [typing |]. split; [by_limits |]. rewrite Em. same_message.
Qed.

(** The result of a connection attempt ends in three texts. *)
Definition tls_result_fields (x : TlsConnectResult) : list field :=
  [u32 (as_u32 (tr_status x)); u16 (TlsFailure_wire_value (tr_failure x)); u16 0; u64 (tr_handle x); array 4 (tr_address x); u16 (tr_port x); u16 (tr_protocol_version x);
   u16 (tr_cipher_suite x); u16 (len (tr_hostname x)); u16 (len (tr_certificate_subject x)); u16 (len (tr_certificate_issuer x)); u64 0;
   u64 (tr_certificate_not_before x); u64 (tr_certificate_not_after x)].
Definition tls_result_texts (x : TlsConnectResult) : list Z := tr_hostname x ++ tr_certificate_subject x ++ tr_certificate_issuer x.
Definition tls_result_codec : Codec := plain
  (fun x => encode_tls_connect_result (tr_request_id x) (tr_status x) (tr_failure x) (tr_handle x) (tr_address x) (tr_port x) (tr_protocol_version x) (tr_cipher_suite x)
     (tr_hostname x) (tr_certificate_subject x) (tr_certificate_issuer x) (tr_certificate_not_before x) (tr_certificate_not_after x)) decode_tls_connect_result
  (fun x => is_u64 (tr_request_id x) /\ is_i32 (tr_status x) /\ is_u64 (tr_handle x) /\ arr 4 (tr_address x) /\ is_u16 (tr_port x) /\ is_u16 (tr_protocol_version x) /\
     is_u16 (tr_cipher_suite x) /\ is_u64 (tr_certificate_not_before x) /\ is_u64 (tr_certificate_not_after x) /\
     bytes (tr_hostname x) /\ bytes (tr_certificate_subject x) /\ bytes (tr_certificate_issuer x) /\
     from_utf8 (tr_certificate_subject x) = true /\ from_utf8 (tr_certificate_issuer x) = true)
  (fun x => (tr_hostname x = [] \/ host_ok (tr_hostname x)) /\ name_ok (tr_certificate_subject x) /\ name_ok (tr_certificate_issuer x))
  (fun x => message OpTlsConnectResult (tr_request_id x) (tls_result_fields x) (tls_result_texts x)).

Definition validate_optional (h : list Z) : res unit := if negb (bool_decide (h = [])) then validate_hostname h else Ok tt.
Lemma validate_optional_spec h : (h = [] \/ host_ok h) /\ validate_optional h = Ok tt \/ ~ (h = [] \/ host_ok h) /\ exists e, validate_optional h = Err e.
Proof.
  unfold validate_optional. destruct (decide (h = [])) as [->|Hne]; [left; by split; [left |] |]. rewrite bool_decide_eq_false_2 by done. cbn [negb].
  destruct (validate_hostname_spec h) as [[H ->]|[H He]]; [left; by split; [right |] | right; split; [by intros [?|?] | done]].
Qed.
Lemma optional_len h : h = [] \/ host_ok h -> len h <= MAX_HOSTNAME_LEN.
Proof. by intros [->|[[_ H] _]]. Qed.
Lemma optional_utf8 h : h = [] \/ host_ok h -> from_utf8 h = true.
Proof. intros [->|H]; [done | by apply host_ok_utf8]. Qed.

Lemma tls_result_exact : exact tls_result_codec.
Proof.
  apply simple_exact.
  - intros x out (H1 & H2 & H3 & H4 & H5 & H6 & H7 & H8 & H9 & _). unfold encode_tls_connect_result. fold (validate_optional (tr_hostname x)).
    destruct (validate_optional_spec (tr_hostname x)) as [[Hh ->]|[Hh [e ->]]]; [| split; [by intros [? _] | by eexists]].
    destruct (validate_certificate_name_spec (tr_certificate_subject x)) as [[Hs ->]|[Hs [e ->]]]; [| split; [by intros (_ & ? & _) | by eexists]].
    destruct (validate_certificate_name_spec (tr_certificate_issuer x)) as [[Hi ->]|[Hi [e ->]]]; [| split; [by intros (_ & _ & ?) | by eexists]].
    pose proof (optional_len _ Hh). pose proof (proj1 Hs). pose proof (proj1 Hi). cbn [write_texts]. split; [intros _ | intros Hv; by destruct Hv].
    unfold checked_add64, U64_MAX. tests. lengths. apply (encoded _ _ (tls_result_fields x) (tls_result_texts x)); unfold tls_result_fields, tls_result_texts.
    + unfold len in *. rewrite !length_app. by_limits.
    + by_limits.
    + stores. rewrite <- !app_assoc, ?length_app. repeat first [reflexivity | lia | progress f_equal].
  - intros x (H1 & H2 & H3 & H4 & H5 & H6 & H7 & H8 & H9 & H10 & H11 & H12 & H13 & H14) (Hh & Hs & Hi). pose proof (optional_len _ Hh). pose proof (proj1 Hs). pose proof (proj1 Hi).
    pose proof (TlsFailure_range (tr_failure x)). assert (bytes (tls_result_texts x)) by (unfold tls_result_texts; by repeat (apply Forall_app; split)).
    assert (len (tls_result_texts x) = len (tr_hostname x) + len (tr_certificate_subject x) + len (tr_certificate_issuer x)) as Ht by (unfold tls_result_texts, len; rewrite !length_app; lia).
    unfold decode_tls_connect_result. decodes OpTlsConnectResult (tr_request_id x) (tls_result_fields x) (tls_result_texts x).
    rewrite TlsFailure_from_wire_value. unfold checked_add64, U64_MAX. cbn [ok_or]. tests.
    assert (size (head OpTlsConnectResult (tr_request_id x) (len b) ++ tls_result_fields x) = 80%nat) as Hz by reflexivity.
    assert (b = pack (head OpTlsConnectResult (tr_request_id x) (len b) ++ tls_result_fields x) ++ concat [tr_hostname x; tr_certificate_subject x; tr_certificate_issuer x]) as Ec by (rewrite E at 1; unfold tls_result_texts; cbn [concat]; by rewrite app_nil_r).
    rewrite (slice_nth b _ _ 0 (tr_hostname x) _ _ Ec eq_refl), (slice_nth b _ _ 1 (tr_certificate_subject x) _ _ Ec eq_refl), (slice_nth b _ _ 2 (tr_certificate_issuer x) _ _ Ec eq_refl) by
      (cbn [take concat]; rewrite ?Hz, ?length_app, ?Nat.add_0_r; unfold len, TLS_CONNECT_RESULT_BASE_LEN, HEADER_LEN in *; cbn [List.length]; lia).
    unfold decode_text. rewrite optional_utf8, H13, H14 by done. fold (validate_optional (tr_hostname x)).
    destruct (validate_optional_spec (tr_hostname x)) as [[_ ->]|[Hn _]]; [| done]. destruct (validate_certificate_name_spec (tr_certificate_subject x)) as [[_ ->]|[Hn _]]; [| done].
    destruct (validate_certificate_name_spec (tr_certificate_issuer x)) as [[_ ->]|[Hn _]]; [| done]. values. by destruct x.
  - opened [4; 2; 2; 8; 4; 2; 2; 2; 2; 2; 2; 8; 8; 8]%nat.
    destruct (negb (z1 =? 0) || negb (z10 =? 0)) eqn:Hr; [done |]. apply orb_false_iff in Hr as [Hr1 Hr2]. bool_cases.
    destruct (TlsFailure_from_wire z0) as [f|] eqn:Ef; [| done]. apply TlsFailure_from_wire_Some in Ef. cbn [ok_or].
    destruct ((MAX_HOSTNAME_LEN <? z7) || (MAX_CERTIFICATE_NAME_LEN <? z8) || (MAX_CERTIFICATE_NAME_LEN <? z9)) eqn:Hm; [done |]. apply orb_false_iff in Hm as [Hm Hm3]. apply orb_false_iff in Hm as [Hm1 Hm2]. bool_cases.
    unfold checked_add64, U64_MAX. tests. destruct (negb (len b =? TLS_CONNECT_RESULT_BASE_LEN + (z7 + z8 + z9))) eqn:Hl; [done |]. bool_cases.
    destruct (cut [z7; z8; z9] tail) as (ts & -> & Hts); [repeat (apply Forall_cons; split); [by_limits .. | constructor] | by_limits |].
    destruct ts as [|t1 [|t2 [|t3 [|]]]]; try discriminate Hts. cbn [map] in Hts. injection Hts as Ht1 Ht2 Ht3. apply concat_bytes in Htail. rewrite !Forall_cons in Htail. destruct Htail as (Hb1 & Hb2 & Hb3 & _).
    pose proof Em as E. unfold message in E. match type of E with _ = pack ?l ++ _ => assert (size l = 80%nat) as Hz by reflexivity end.
    rewrite (slice_nth b _ _ 0 t1 _ _ E eq_refl), (slice_nth b _ _ 1 t2 _ _ E eq_refl), (slice_nth b _ _ 2 t3 _ _ E eq_refl) by
      (rewrite ?Hz; cbn [take concat]; rewrite ?length_app; cbn [concat] in *; unfold len, TLS_CONNECT_RESULT_BASE_LEN, HEADER_LEN in *; rewrite ?length_app in *; cbn [List.length] in *; lia). clear E Hz.
    unfold decode_text. destruct (from_utf8 t1) eqn:Hu1; [| done]. destruct (from_utf8 t2) eqn:Hu2; [| done]. destruct (from_utf8 t3) eqn:Hu3; [| done]. fold (validate_optional t1).
    destruct (validate_optional_spec t1) as [[Ho ->]|[_ [e ->]]]; [| done]. destruct (validate_certificate_name_spec t2) as [[Hn2 ->]|[_ [e ->]]]; [| done].
    destruct (validate_certificate_name_spec t3) as [[Hn3 ->]|[_ [e ->]]]; [| done]. returns. cbn [tr_request_id tr_status tr_handle tr_address tr_port tr_protocol_version tr_cipher_suite tr_hostname tr_certificate_subject tr_certificate_issuer tr_certificate_not_before tr_certificate_not_after].
    split; [typing |]. split; [done |]. rewrite Em. unfold tls_result_fields, tls_result_texts.
    cbn [tr_failure tr_status tr_handle tr_address tr_port tr_protocol_version tr_cipher_suite tr_hostname tr_certificate_subject tr_certificate_issuer tr_certificate_not_before tr_certificate_not_after].
    rewrite Ht1, Ht2. rewrite Ht3. subst z0 z1 z10. cbn [concat]. rewrite app_nil_r. same_message.
Qed.
