(* ===== verification/NetHttp.v ===== *)
(** * The network service's protocol: HTTP requests ([net-device-protocol/http.rs])

    The messages by which a client has the service send a request and reads the answer, and a codec for each of them. *)

From Stdlib Require Import String.
From S2P Require Import Prelude Text Fields CertDatabase CertCodec NetWire NetMessages.

(** ** Definitions *)

Definition HTTP_REQUEST_BASE_LEN : Z := 48.
Definition HTTP_REQUEST_RESULT_BASE_LEN : Z := 56.
Definition HTTP_READ_REQUEST_LEN : Z := 40.
Definition HTTP_READ_RESULT_BASE_LEN : Z := 48.
Definition HTTP_CLOSE_REQUEST_LEN : Z := 40.
Definition MAX_HTTP_URL_LEN : Z := 2048.
Definition MAX_HTTP_CONTENT_TYPE_LEN : Z := 256.
Definition MAX_HTTP_ETAG_LEN : Z := 128.
Definition MAX_HTTP_RANGE_LEN : Z := 64.
Definition MAX_HTTP_IPC_DATA_LEN : Z := 4096.

Inductive HttpMethod : Type := Method_Get | Method_Post.
Definition HttpMethod_wire_value (self : HttpMethod) : Z :=
  match self with
  | Method_Get => 1
  | Method_Post => 2
  end.
Definition HttpMethod_from_wire (value : Z) : option HttpMethod :=
  if value =? 1 then Some Method_Get else
  if value =? 2 then Some Method_Post else
  None.

Inductive HttpStream : Type := Stream_Headers | Stream_Body.
Definition HttpStream_wire_value (self : HttpStream) : Z :=
  match self with
  | Stream_Headers => 1
  | Stream_Body => 2
  end.
Definition HttpStream_from_wire (value : Z) : option HttpStream :=
  if value =? 1 then Some Stream_Headers else
  if value =? 2 then Some Stream_Body else
  None.

Inductive HttpFailure : Type :=
  | Http_None | Http_InvalidUrl | Http_InvalidRequest | Http_HeaderLimit | Http_BodyLimit | Http_InvalidResponse | Http_ChunkError
  | Http_RedirectRejected | Http_Tls | Http_Timeout | Http_ConnectionLimit | Http_InvalidState | Http_PermissionDenied.
Definition HttpFailure_wire_value (self : HttpFailure) : Z :=
  match self with
  | Http_None => 0
  | Http_InvalidUrl => 1
  | Http_InvalidRequest => 2
  | Http_HeaderLimit => 3
  | Http_BodyLimit => 4
  | Http_InvalidResponse => 5
  | Http_ChunkError => 6
  | Http_RedirectRejected => 7
  | Http_Tls => 8
  | Http_Timeout => 9
  | Http_ConnectionLimit => 10
  | Http_InvalidState => 11
  | Http_PermissionDenied => 12
  end.
Definition HttpFailure_from_wire (value : Z) : option HttpFailure :=
  if value =? 0 then Some Http_None else
  if value =? 1 then Some Http_InvalidUrl else
  if value =? 2 then Some Http_InvalidRequest else
  if value =? 3 then Some Http_HeaderLimit else
  if value =? 4 then Some Http_BodyLimit else
  if value =? 5 then Some Http_InvalidResponse else
  if value =? 6 then Some Http_ChunkError else
  if value =? 7 then Some Http_RedirectRejected else
  if value =? 8 then Some Http_Tls else
  if value =? 9 then Some Http_Timeout else
  if value =? 10 then Some Http_ConnectionLimit else
  if value =? 11 then Some Http_InvalidState else
  if value =? 12 then Some Http_PermissionDenied else
  None.

Record HttpRequest : Type := {
  rq_request_id : Z;
  rq_method : HttpMethod;
  rq_timeout_ms : Z;
  rq_url : list Z;
  rq_content_type : list Z;
  rq_if_none_match : list Z;
  rq_range : list Z;
  rq_body : list Z }.

Record HttpRequestResult : Type := {
  rr_request_id : Z;
  rr_status : Z;
  rr_failure : HttpFailure;
  rr_status_code : Z;
  rr_handle : Z;
  rr_body_length : Z;
  rr_headers_length : Z;
  rr_content_type : list Z }.

Definition validate_text (s : list Z) (maximum : Z) : res unit :=
  if maximum <? len s then Err (DataTooLarge (len s)) else
  if existsb is_ascii_control s then Err InvalidText else Ok tt.

Definition validate_etag (etag : list Z) : res unit :=
  if MAX_HTTP_ETAG_LEN <? len etag then Err (DataTooLarge (len etag)) else
  if bool_decide (etag = []) then Ok tt else
  let? opaque := (if starts_with [87; 47; 34] etag && ends_with [34] etag then slice etag 3 (List.length etag - 1)
    else if starts_with [34] etag && ends_with [34] etag then slice etag 1 (List.length etag - 1)
    else Err InvalidText) in
  if forallb (fun byte => (byte =? 33) || ((35 <=? byte) && (byte <=? 126))) opaque then Ok tt else Err InvalidText.

Definition RANGE_UNIT : list Z := text "bytes=".
Definition validate_range (value : list Z) : res unit :=
  let rest := drop 6 value in
  if (MAX_HTTP_RANGE_LEN <? len value)
     || (negb (bool_decide (value = []))
         && (negb (starts_with RANGE_UNIT value) || bool_decide (rest = []) || existsb (fun byte => negb (is_ascii_digit byte) && negb (byte =? 45)) rest
             || negb (List.length (List.filter (fun byte => (byte =? 45)%Z) rest) =? 1)%nat))
  then Err InvalidText else Ok tt.

Definition encode_http_request_with_range (request_id : Z) (method : HttpMethod) (timeout_ms : Z) (url content_type if_none_match range body out : list Z) : res (list Z * Z) :=
  let? _ := validate_text url MAX_HTTP_URL_LEN in
  let? _ := validate_text content_type MAX_HTTP_CONTENT_TYPE_LEN in
  let? _ := validate_etag if_none_match in
  let? _ := validate_range range in
  if MAX_HTTP_IPC_DATA_LEN <? len body then Err (DataTooLarge (len body)) else
  let? payload := ok_or (foldl (fun acc n => match acc with Some v => checked_add64 v n | None => None end) (Some (len url))
    [len content_type; len if_none_match; len range; len body]) (DataTooLarge USIZE_MAX) in
  let? length := ok_or (checked_add64 HTTP_REQUEST_BASE_LEN payload) (DataTooLarge payload) in
  let? out := write_header OpHttpRequest request_id length out in
  let? out := write_u16 out 24 (HttpMethod_wire_value method) in
  let? out := write_u16 out 26 0 in
  let? out := write_u32 out 28 timeout_ms in
  let? out := write_u16 out 32 (as_u16 (len url)) in
  let? out := write_u16 out 34 (as_u16 (len content_type)) in
  let? out := write_u32 out 36 (as_u32 (len body)) in
  let? out := write_u16 out 40 (as_u16 (len if_none_match)) in
  let? out := write_u16 out 42 (as_u16 (len range)) in
  let? out := write_u32 out 44 0 in
  let url_end := HTTP_REQUEST_BASE_LEN + len url in
  let content_type_end := url_end + len content_type in
  let etag_end := content_type_end + len if_none_match in
  let range_end := etag_end + len range in
  let? out := copy_into out 48 (Z.to_nat url_end) url in
  let? out := copy_into out (Z.to_nat url_end) (Z.to_nat content_type_end) content_type in
  let? out := copy_into out (Z.to_nat content_type_end) (Z.to_nat etag_end) if_none_match in
  let? out := copy_into out (Z.to_nat etag_end) (Z.to_nat range_end) range in
  let? out := copy_into out (Z.to_nat range_end) (Z.to_nat length) body in
  Ok (out, length).
Definition encode_http_request (request_id : Z) (method : HttpMethod) (timeout_ms : Z) (url content_type if_none_match body out : list Z) : res (list Z * Z) :=
  encode_http_request_with_range request_id method timeout_ms url content_type if_none_match [] body out.

Definition check_utf8 (s : list Z) : res (list Z) := if from_utf8 s then Ok s else Err InvalidText.
Definition decode_http_request (b : list Z) : res HttpRequest :=
  let? header := Header_decode b in
  let? _ := expect_opcode (opcode header) OpHttpRequest in
  let? bad := (if len b <? HTTP_REQUEST_BASE_LEN then Ok true else
    let? r := read_u16 b 26 in
    if negb (r =? 0) then Ok true else let? r := read_u32 b 44 in Ok (negb (r =? 0))) in
  if bad then Err (InvalidLength HTTP_REQUEST_BASE_LEN (len b)) else
  let? method_raw := read_u16 b 24 in
  let? method := ok_or (HttpMethod_from_wire method_raw) (UnknownHttpMethod method_raw) in
  let? url_length := read_u16 b 32 in
  let? content_type_length := read_u16 b 34 in
  let? body_length := read_u32 b 36 in
  let? etag_length := read_u16 b 40 in
  let? range_length := read_u16 b 42 in
  if (MAX_HTTP_URL_LEN <? url_length) || (MAX_HTTP_CONTENT_TYPE_LEN <? content_type_length) || (MAX_HTTP_ETAG_LEN <? etag_length)
     || (MAX_HTTP_RANGE_LEN <? range_length) || (MAX_HTTP_IPC_DATA_LEN <? body_length) then Err (DataTooLarge body_length) else
  let? expected := ok_or (foldl (fun acc n => match acc with Some v => checked_add64 v n | None => None end) (Some HTTP_REQUEST_BASE_LEN)
    [url_length; content_type_length; etag_length; range_length; body_length]) (DataTooLarge USIZE_MAX) in
  if negb (len b =? expected) then Err (InvalidLength expected (len b)) else
  let url_end := HTTP_REQUEST_BASE_LEN + url_length in
  let content_type_end := url_end + content_type_length in
  let etag_end := content_type_end + etag_length in
  let range_end := etag_end + range_length in
  let? s := slice b 48 (Z.to_nat url_end) in
  let? url := check_utf8 s in
  let? s := slice b (Z.to_nat url_end) (Z.to_nat content_type_end) in
  let? content_type := check_utf8 s in
  let? s := slice b (Z.to_nat content_type_end) (Z.to_nat etag_end) in
  let? if_none_match := check_utf8 s in
  let? s := slice b (Z.to_nat etag_end) (Z.to_nat range_end) in
  let? range := check_utf8 s in
  let? _ := validate_text url MAX_HTTP_URL_LEN in
  let? _ := validate_text content_type MAX_HTTP_CONTENT_TYPE_LEN in
  let? _ := validate_etag if_none_match in
  let? _ := validate_range range in
  let? timeout_ms := read_u32 b 28 in
  let? body := slice b (Z.to_nat range_end) (List.length b) in
  Ok {| rq_request_id := request_id header; rq_method := method; rq_timeout_ms := timeout_ms; rq_url := url; rq_content_type := content_type;
        rq_if_none_match := if_none_match; rq_range := range; rq_body := body |}.

Definition encode_http_request_result (request_id status : Z) (failure : HttpFailure) (status_code handle body_length headers_length : Z) (content_type out : list Z) : res (list Z * Z) :=
  let? _ := validate_text content_type MAX_HTTP_CONTENT_TYPE_LEN in
  let length := HTTP_REQUEST_RESULT_BASE_LEN + len content_type in
  let? out := write_header OpHttpRequestResult request_id length out in
  let? out := write_i32 out 24 status in
  let? out := write_u16 out 28 (HttpFailure_wire_value failure) in
  let? out := write_u16 out 30 status_code in
  let? out := write_u64 out 32 handle in
  let? out := write_u32 out 40 body_length in
  let? out := write_u32 out 44 headers_length in
  let? out := write_u16 out 48 (as_u16 (len content_type)) in
  let? out := write_u16 out 50 0 in
  let? out := write_u32 out 52 0 in
  let? out := copy_into out 56 (Z.to_nat length) content_type in
  Ok (out, length).
Definition decode_http_request_result (b : list Z) : res HttpRequestResult :=
  let? header := Header_decode b in
  let? _ := expect_opcode (opcode header) OpHttpRequestResult in
  let? bad := (if len b <? HTTP_REQUEST_RESULT_BASE_LEN then Ok true else
    let? r := read_u16 b 50 in
    if negb (r =? 0) then Ok true else let? r := read_u32 b 52 in Ok (negb (r =? 0))) in
  if bad then Err (InvalidLength HTTP_REQUEST_RESULT_BASE_LEN (len b)) else
  let? failure_raw := read_u16 b 28 in
  let? failure := ok_or (HttpFailure_from_wire failure_raw) (UnknownHttpFailure failure_raw) in
  let? text_length := read_u16 b 48 in
  if negb (len b =? HTTP_REQUEST_RESULT_BASE_LEN + text_length) then Err (InvalidLength (HTTP_REQUEST_RESULT_BASE_LEN + text_length) (len b)) else
  let? s := slice b 56 (List.length b) in
  let? content_type := check_utf8 s in
  let? _ := validate_text content_type MAX_HTTP_CONTENT_TYPE_LEN in
  let? status := read_i32 b 24 in
  let? status_code := read_u16 b 30 in
  let? handle := read_u64 b 32 in
  let? body_length := read_u32 b 40 in
  let? headers_length := read_u32 b 44 in
  Ok {| rr_request_id := request_id header; rr_status := status; rr_failure := failure; rr_status_code := status_code; rr_handle := handle;
        rr_body_length := body_length; rr_headers_length := headers_length; rr_content_type := content_type |}.

Definition encode_http_read (request_id handle maximum : Z) (stream : HttpStream) (out : list Z) : res (list Z * Z) :=
  if MAX_HTTP_IPC_DATA_LEN <? maximum then Err (DataTooLarge maximum) else
  let? out := write_header OpHttpRead request_id HTTP_READ_REQUEST_LEN out in
  let? out := write_u64 out 24 handle in
  let? out := write_u32 out 32 maximum in
  let? out := write_u16 out 36 (HttpStream_wire_value stream) in
  let? out := write_u16 out 38 0 in
  Ok (out, HTTP_READ_REQUEST_LEN).
Definition decode_http_read (b : list Z) : res (Z * Z * Z * HttpStream) :=
  let? header := Header_decode b in
  let? _ := expect_opcode (opcode header) OpHttpRead in
  let? bad := (if negb (len b =? HTTP_READ_REQUEST_LEN) then Ok true else let? r := read_u16 b 38 in Ok (negb (r =? 0))) in
  if bad then Err (InvalidLength HTTP_READ_REQUEST_LEN (len b)) else
  let? maximum := read_u32 b 32 in
  if MAX_HTTP_IPC_DATA_LEN <? maximum then Err (DataTooLarge maximum) else
  let? stream_raw := read_u16 b 36 in
  let? stream := ok_or (HttpStream_from_wire stream_raw) (UnknownHttpStream stream_raw) in
  let? handle := read_u64 b 24 in
  Ok (request_id header, handle, maximum, stream).

Definition encode_http_read_result (request_id : Z) (opcode : Opcode) (status : Z) (failure : HttpFailure) (handle : Z) (complete : bool) (data out : list Z) : res (list Z * Z) :=
  if negb (bool_decide (opcode = OpHttpReadResult \/ opcode = OpHttpCloseResult)) then Err (UnexpectedOpcode OpHttpReadResult opcode) else
  if MAX_HTTP_IPC_DATA_LEN <? len data then Err (DataTooLarge (len data)) else
  let length := HTTP_READ_RESULT_BASE_LEN + len data in
  let? out := write_header opcode request_id length out in
  let? out := write_i32 out 24 status in
  let? out := write_u16 out 28 (HttpFailure_wire_value failure) in
  let? out := write_u16 out 30 (flag_value complete) in
  let? out := write_u64 out 32 handle in
  let? out := write_u32 out 40 (as_u32 (len data)) in
  let? out := write_u32 out 44 0 in
  let? out := copy_into out 48 (Z.to_nat length) data in
  Ok (out, length).
Definition decode_http_read_result (expected : Opcode) (b : list Z) : res (Z * Z * HttpFailure * Z * bool * list Z) :=
  let? header := Header_decode b in
  let? _ := expect_opcode (opcode header) expected in
  let? bad := (if len b <? HTTP_READ_RESULT_BASE_LEN then Ok true else
    let? r := read_u32 b 44 in
    if negb (r =? 0) then Ok true else let? r := read_u16 b 30 in Ok (1 <? r)) in
  if bad then Err (InvalidLength HTTP_READ_RESULT_BASE_LEN (len b)) else
  let? failure_raw := read_u16 b 28 in
  let? failure := ok_or (HttpFailure_from_wire failure_raw) (UnknownHttpFailure failure_raw) in
  let? data_length := read_u32 b 40 in
  if (MAX_HTTP_IPC_DATA_LEN <? data_length) || negb (len b =? HTTP_READ_RESULT_BASE_LEN + data_length)
  then Err (InvalidLength (HTTP_READ_RESULT_BASE_LEN + data_length) (len b)) else
  let? status := read_i32 b 24 in
  let? handle := read_u64 b 32 in
  let? complete := read_u16 b 30 in
  let? data := slice b 48 (List.length b) in
  Ok (request_id header, status, failure, handle, complete =? 1, data).

Definition encode_http_close (request_id handle : Z) (out : list Z) : res (list Z * Z) :=
  let? out := write_header OpHttpClose request_id HTTP_CLOSE_REQUEST_LEN out in
  let? out := write_u64 out 24 handle in
  let? out := write_u64 out 32 0 in
  Ok (out, HTTP_CLOSE_REQUEST_LEN).
Definition decode_http_close (b : list Z) : res (Z * Z) :=
  let? header := Header_decode b in
  let? _ := expect_opcode (opcode header) OpHttpClose in
  let? bad := (if negb (len b =? HTTP_CLOSE_REQUEST_LEN) then Ok true else let? r := read_u64 b 32 in Ok (negb (r =? 0))) in
  if bad then Err (InvalidLength HTTP_CLOSE_REQUEST_LEN (len b)) else
  let? handle := read_u64 b 24 in
  Ok (request_id header, handle).

(** ** Codecs *)

Ltac constants ::= unfold MAX_HTTP_URL_LEN, MAX_HTTP_CONTENT_TYPE_LEN, MAX_HTTP_ETAG_LEN, MAX_HTTP_RANGE_LEN, MAX_HTTP_IPC_DATA_LEN, HTTP_REQUEST_BASE_LEN, HTTP_REQUEST_RESULT_BASE_LEN,
  HTTP_READ_REQUEST_LEN, HTTP_READ_RESULT_BASE_LEN, HTTP_CLOSE_REQUEST_LEN in *.

Lemma HttpFailure_from_wire_value f : HttpFailure_from_wire (HttpFailure_wire_value f) = Some f.
Proof. by destruct f. Qed.
Lemma HttpFailure_from_wire_Some v f : HttpFailure_from_wire v = Some f -> v = HttpFailure_wire_value f.
Proof. unfold HttpFailure_from_wire. intros H. repeat match type of H with (if _ =? ?c then _ else _) = _ => destruct (Z.eqb_spec v c) as [->|_]; [by injection H as <- |] end. done. Qed.
Lemma HttpFailure_range f : 0 <= HttpFailure_wire_value f < 65536.
Proof. destruct f; cbn; lia. Qed.
Lemma HttpStream_from_wire_Some v f : HttpStream_from_wire v = Some f -> v = HttpStream_wire_value f.
Proof. unfold HttpStream_from_wire. intros H. repeat match type of H with (if _ =? ?c then _ else _) = _ => destruct (Z.eqb_spec v c) as [->|_]; [by injection H as <- |] end. done. Qed.
Lemma HttpMethod_from_wire_Some v f : HttpMethod_from_wire v = Some f -> v = HttpMethod_wire_value f.
Proof. unfold HttpMethod_from_wire. intros H. repeat match type of H with (if _ =? ?c then _ else _) = _ => destruct (Z.eqb_spec v c) as [->|_]; [by injection H as <- |] end. done. Qed.

(** Texts and tags. *)
Definition text_ok (maximum : Z) (s : list Z) : Prop := len s <= maximum /\ Forall (fun byte => is_ascii_control byte = false) s.
Lemma validate_text_spec maximum s : text_ok maximum s /\ validate_text s maximum = Ok tt \/ ~ text_ok maximum s /\ exists e, validate_text s maximum = Err e.
Proof.
  unfold validate_text, text_ok. destruct (Z.ltb_spec maximum (len s)); [right; split; [lia | by eexists] |].
  destruct (existsb _ s) eqn:E.
  - right. split; [| by eexists]. intros [_ H1]. apply existsb_elem in E as (x & Hx & E). rewrite Forall_forall in H1. specialize (H1 x Hx). congruence.
  - left. split; [| done]. split; [lia |]. apply Forall_forall. intros x Hx. rewrite existsb_none in E. by apply E.
Qed.

(** The tag is tested in the way of the certificate database. *)
Lemma validate_etag_valid etag : len etag <= MAX_HTTP_ETAG_LEN -> etag <> [] -> validate_etag etag = let? valid := valid_etag etag in if valid then Ok tt else Err InvalidText.
Proof.
  intros Hl Hne. unfold validate_etag, valid_etag. rewrite (proj2 (Z.ltb_ge _ _)), bool_decide_eq_false_2 by done. unfold WEAK_QUOTE, QUOTE.
  destruct (_ && _); [by destruct (slice _ _ _) |]. destruct (_ && _); [by destruct (slice _ _ _) | done].
Qed.
Definition etag_ok (etag : list Z) : Prop := len etag <= MAX_HTTP_ETAG_LEN /\ (etag = [] \/ valid_tag etag).
Lemma validate_etag_spec etag :
  etag_ok etag /\ validate_etag etag = Ok tt \/ lone_quote etag /\ validate_etag etag = Panic \/ ~ etag_ok etag /\ ~ lone_quote etag /\ exists e, validate_etag etag = Err e.
Proof.
  destruct (decide (len etag <= MAX_HTTP_ETAG_LEN)) as [Hl|Hl].
  2: { right. right. split; [by intros [? _] |]. split; [intros [->| ->]; by apply Hl |]. unfold validate_etag. rewrite (proj2 (Z.ltb_lt _ _)) by lia. by eexists. }
  destruct (decide (etag = [])) as [->|Hne]; [left; split; [split; [done | by left] | done] |]. rewrite validate_etag_valid by done. unfold etag_ok.
  destruct (valid_etag_cases (E := WireError) etag) as [[Hq ->]|(Hq & v & -> & Hv)]; [by right; left |]. destruct v.
  - left. split; [| done]. split; [done |]. right. by apply Hv.
  - right. right. split; [| by split; [| eexists]]. intros [_ [?|Ht]]; [done |]. by apply Hv in Ht.
Qed.

(** A range is empty, or the unit and two numbers around a hyphen, either of which may be missing. *)
Definition range_ok (range : list Z) : Prop :=
  len range <= MAX_HTTP_RANGE_LEN /\ (range = [] \/ exists first last, range = RANGE_UNIT ++ first ++ 45 :: last /\ Forall (fun b => is_ascii_digit b = true) (first ++ last)).
Lemma filter_one {A} (f : A -> bool) (l : list A) : List.length (List.filter f l) = 1%nat -> exists a x b, l = a ++ x :: b /\ f x = true /\ Forall (fun y => f y = false) (a ++ b).
Proof.
  induction l as [|y l IH]; cbn; [done |]. destruct (f y) eqn:Ey; cbn; intros H.
  - exists [], y, l. split_and!; [done | done |]. cbn. apply Forall_forall. intros z Hz. destruct (f z) eqn:Ez; [| done].
    injection H as H. apply nil_length_inv in H. assert (z ∈ List.filter f l) as Hf by (by apply elem_of_retain). rewrite H in Hf. by apply elem_of_nil in Hf.
  - destruct (IH H) as (a & x & b & -> & H1 & H2). exists (y :: a), x, b. split_and!; [done | done |]. cbn. by constructor.
Qed.
Lemma filter_none {A} (f : A -> bool) (l : list A) : Forall (fun y => f y = false) l -> List.filter f l = [].
Proof. induction 1 as [|x l Hx _ IH]; [done |]. cbn. by rewrite Hx. Qed.

Lemma validate_range_spec range : range_ok range /\ validate_range range = Ok tt \/ ~ range_ok range /\ exists e, validate_range range = Err e.
Proof.
  unfold validate_range, range_ok. destruct (Z.ltb_spec MAX_HTTP_RANGE_LEN (len range)); cbn [orb]; [right; split; [lia | by eexists] |].
  destruct (decide (range = [])) as [->|Hne]; [left; split; [split; [done | by left] | done] |]. rewrite (bool_decide_eq_false_2 (range = [])) by done. cbn [negb andb].
  destruct (starts_with RANGE_UNIT range) eqn:Es; cbn [negb orb].
  2: { right. split; [| by eexists]. intros [_ [?|(a & b & E & _)]]; [done |]. eapply starts_with_false_nil; [exact Es | exact E]. }
  apply starts_with_spec in Es as [rest ->]. change 6%nat with (List.length RANGE_UNIT). rewrite drop_app_length.
  destruct (decide (rest = [])) as [->|Hr]; [rewrite bool_decide_eq_true_2 by done; right; split; [| by eexists]; intros [_ [?|(a & b & E & _)]]; [done |]; apply app_inv_head in E; by destruct a |].
  rewrite (bool_decide_eq_false_2 (rest = [])) by done. cbn [orb]. destruct (existsb _ rest) eqn:Ee; cbn [orb].
  { right. split; [| by eexists]. intros [_ [?|(a & b & E & Hd)]]; [done |]. apply app_inv_head in E as ->. apply existsb_elem in Ee as (x & Hx & Ee). apply andb_true_iff in Ee as [E1 E2].
    rewrite Forall_forall in Hd. assert (x = 45 \/ is_ascii_digit x = true) as [->|Hx'] by (rewrite elem_of_app, elem_of_cons in Hx; destruct Hx as [?|[?|?]]; [right; apply Hd, elem_of_app; by left | by left | right; apply Hd, elem_of_app; by right]); [done |].
    by rewrite Hx' in E1. }
  rewrite existsb_none in Ee. destruct (Nat.eqb_spec (List.length (List.filter (fun byte => (byte =? 45)%Z) rest)) 1) as [Ec|Ec]; cbn [negb].
  - left. split; [| done]. split; [done |]. right. apply filter_one in Ec as (a & x & b & -> & Hx & Hn). bool_cases. subst x. exists a, b. split; [done |]. rewrite Forall_forall in *.
    intros y Hy. specialize (Hn y Hy). specialize (Ee y). rewrite Hn, andb_true_r in Ee. destruct (is_ascii_digit y); [done |]. cbn in Ee. symmetry. apply Ee. apply elem_of_app. apply elem_of_app in Hy as [?|?]; [by left | right; by apply elem_of_cons; right].
  - right. split; [| by eexists]. intros [_ [?|(a & b & E & Hd)]]; [done |]. apply app_inv_head in E as ->. apply Ec.
    assert (forall l, Forall (fun y => is_ascii_digit y = true) l -> Forall (fun y => (y =? 45) = false) l) as Hdig.
    { intros l Hl. eapply Forall_impl; [exact Hl |]. intros y Hy. apply Z.eqb_neq. intros ->. by cbn in Hy. }
    apply Forall_app in Hd as [Ha Hb]. rewrite List.filter_app. cbn. by rewrite !filter_none by (by apply Hdig).
Qed.

Definition http_result_fields (x : HttpRequestResult) : list field :=
  [u32 (as_u32 (rr_status x)); u16 (HttpFailure_wire_value (rr_failure x)); u16 (rr_status_code x); u64 (rr_handle x); u32 (rr_body_length x); u32 (rr_headers_length x);
   u16 (len (rr_content_type x)); u16 0; u32 0].
Definition http_result_codec : Codec := plain
  (fun x => encode_http_request_result (rr_request_id x) (rr_status x) (rr_failure x) (rr_status_code x) (rr_handle x) (rr_body_length x) (rr_headers_length x) (rr_content_type x))
  decode_http_request_result
  (fun x => is_u64 (rr_request_id x) /\ is_i32 (rr_status x) /\ is_u16 (rr_status_code x) /\ is_u64 (rr_handle x) /\ is_u32 (rr_body_length x) /\ is_u32 (rr_headers_length x) /\
     bytes (rr_content_type x) /\ from_utf8 (rr_content_type x) = true)
  (fun x => text_ok MAX_HTTP_CONTENT_TYPE_LEN (rr_content_type x))
  (fun x => message OpHttpRequestResult (rr_request_id x) (http_result_fields x) (rr_content_type x)).
Lemma http_result_exact : exact http_result_codec.
Proof.
  apply simple_exact.
  - intros x out (H1 & H2 & H3 & H4 & H5 & H6 & H7 & H8). unfold encode_http_request_result. destruct (validate_text_spec MAX_HTTP_CONTENT_TYPE_LEN (rr_content_type x)) as [[Ht ->]|[Ht [e ->]]]; [| split; [done | by eexists]].
    pose proof (proj1 Ht). cbv zeta. encodes (http_result_fields x) (rr_content_type x).
  - intros x (H1 & H2 & H3 & H4 & H5 & H6 & H7 & H8) Hv. pose proof (proj1 Hv). pose proof (HttpFailure_range (rr_failure x)). unfold decode_http_request_result.
    decodes OpHttpRequestResult (rr_request_id x) (http_result_fields x) (rr_content_type x). rewrite HttpFailure_from_wire_value. unfold check_utf8. cbn [ok_or]. rewrite H8. tests.
    destruct (validate_text_spec MAX_HTTP_CONTENT_TYPE_LEN (rr_content_type x)) as [[_ ->]|[Hn _]]; [| done]. values. by destruct x.
  - opened [4; 2; 2; 8; 4; 4; 2; 2; 4]%nat. unfold check_utf8. destruct (HttpFailure_from_wire _) as [f|] eqn:Ef; [| cases]. apply HttpFailure_from_wire_Some in Ef as ->. cbn [ok_or]. cases.
    destruct (validate_text_spec MAX_HTTP_CONTENT_TYPE_LEN tail) as [[Ht ->]|[_ [e ->]]]; [| done]. returns. unfold http_result_fields.
    cbn [rr_request_id rr_status rr_failure rr_status_code rr_handle rr_body_length rr_headers_length rr_content_type]. split; [typing |]. split; [done |]. rewrite Em. same_message.
Qed.

Definition http_read_codec : Codec := plain
  (fun '(id, handle, maximum, stream) => encode_http_read id handle maximum stream) decode_http_read
  (fun '(id, handle, maximum, stream) => is_u64 id /\ is_u64 handle /\ is_u32 maximum)
  (fun '(id, handle, maximum, stream) => maximum <= MAX_HTTP_IPC_DATA_LEN)
  (fun '(id, handle, maximum, stream) => message OpHttpRead id [u64 handle; u32 maximum; u16 (HttpStream_wire_value stream); u16 0] []).
Lemma http_read_exact : exact http_read_codec.
Proof.
  apply simple_exact.
  - intros [[[id h] m] s] out (H1 & H2 & H3). unfold encode_http_read. encodes [u64 h; u32 m; u16 (HttpStream_wire_value s); u16 0] (@nil Z).
  - intros [[[id h] m] s] (H1 & H2 & H3) Hv. assert (0 <= HttpStream_wire_value s < 65536) by (destruct s; cbn; lia). unfold decode_http_read. decodes OpHttpRead id [u64 h; u32 m; u16 (HttpStream_wire_value s); u16 0] (@nil Z). by destruct s.
  - opened [8; 4; 2; 2]%nat. cases. destruct (HttpStream_from_wire _) as [s|] eqn:Es; [| done]. apply HttpStream_from_wire_Some in Es as ->. cbn [ok_or]. returns.
    split; [typing |]. split; [by_limits |]. no_tail tail Hlen. rewrite Em. same_message.
Qed.

Definition http_io_codec (op : Opcode) : Codec := plain
  (fun '(id, status, failure, handle, complete, data) => encode_http_read_result id op status failure handle complete data) (decode_http_read_result op)
  (fun '(id, status, failure, handle, complete, data) => is_u64 id /\ is_i32 status /\ is_u64 handle /\ bytes data)
  (fun '(id, status, failure, handle, complete, data) => len data <= MAX_HTTP_IPC_DATA_LEN)
  (fun '(id, status, failure, handle, complete, data) =>
     message op id [u32 (as_u32 status); u16 (HttpFailure_wire_value failure); u16 (flag_value complete); u64 handle; u32 (len data); u32 0] data).
Lemma http_io_exact op : op = OpHttpReadResult \/ op = OpHttpCloseResult -> exact (http_io_codec op).
Proof.
  intros Hop. apply simple_exact.
  - intros [[[[[id s] f] h] c] d] out (H1 & H2 & H3 & H4). unfold encode_http_read_result. rewrite bool_decide_eq_true_2 by done. cbn [negb]. cbv zeta.
    encodes [u32 (as_u32 s); u16 (HttpFailure_wire_value f); u16 (flag_value c); u64 h; u32 (len d); u32 0] d.
  - intros [[[[[id s] f] h] c] d] (H1 & H2 & H3 & H4) Hv. pose proof (HttpFailure_range f). unfold decode_http_read_result.
    decodes op id [u32 (as_u32 s); u16 (HttpFailure_wire_value f); u16 (flag_value c); u64 h; u32 (len d); u32 0] d. rewrite HttpFailure_from_wire_value. cbn [ok_or]. tests. values.
  - opened [4; 2; 2; 8; 4; 4]%nat. destruct (HttpFailure_from_wire _) as [f|] eqn:Ef; [| cases]. apply HttpFailure_from_wire_Some in Ef as ->. cbn [ok_or]. cases. returns.
    split; [typing |]. split; [by_limits |]. rewrite Em. same_message.
Qed.

Definition http_close_codec : Codec := plain
  (fun '(id, handle) => encode_http_close id handle) decode_http_close
  (fun '(id, handle) => is_u64 id /\ is_u64 handle) (fun _ => True)
  (fun '(id, handle) => message OpHttpClose id [u64 handle; u64 0] []).
Lemma http_close_exact : exact http_close_codec.
Proof.
  apply simple_exact.
  - intros [id h] out (H1 & H2). unfold encode_http_close. encodes [u64 h; u64 0] (@nil Z).
  - intros [id h] (H1 & H2) Hv. unfold decode_http_close. decodes OpHttpClose id [u64 h; u64 0] (@nil Z). done.
  - opened [8; 8]%nat. cases. returns. split; [typing |]. split; [done |]. no_tail tail Hlen. rewrite Em. same_message.
Qed.

(** A request ends in four texts and the body.  The lone quotation mark, plain or weak, is the tag on which the code panics. *)
Definition http_request_fields (x : HttpRequest) : list field :=
  [u16 (HttpMethod_wire_value (rq_method x)); u16 0; u32 (rq_timeout_ms x); u16 (len (rq_url x)); u16 (len (rq_content_type x)); u32 (len (rq_body x));
   u16 (len (rq_if_none_match x)); u16 (len (rq_range x)); u32 0].
Definition http_request_texts (x : HttpRequest) : list (list Z) := [rq_url x; rq_content_type x; rq_if_none_match x; rq_range x; rq_body x].
Definition http_request_wire (x : HttpRequest) : list Z := message OpHttpRequest (rq_request_id x) (http_request_fields x) (concat (http_request_texts x)).
Definition http_request_typed (x : HttpRequest) : Prop :=
  is_u64 (rq_request_id x) /\ is_u32 (rq_timeout_ms x) /\ Forall bytes (http_request_texts x) /\
  from_utf8 (rq_url x) = true /\ from_utf8 (rq_content_type x) = true /\ from_utf8 (rq_if_none_match x) = true /\ from_utf8 (rq_range x) = true.
Definition http_request_valid (x : HttpRequest) : Prop :=
  text_ok MAX_HTTP_URL_LEN (rq_url x) /\ text_ok MAX_HTTP_CONTENT_TYPE_LEN (rq_content_type x) /\ etag_ok (rq_if_none_match x) /\ range_ok (rq_range x) /\ len (rq_body x) <= MAX_HTTP_IPC_DATA_LEN.
Definition http_request_codec : Codec := {|
  value := HttpRequest;
  error := WireError;
  short := BufferTooSmall;
  encode x := encode_http_request_with_range (rq_request_id x) (rq_method x) (rq_timeout_ms x) (rq_url x) (rq_content_type x) (rq_if_none_match x) (rq_range x) (rq_body x);
  decode := decode_http_request;
  typed := http_request_typed;
  valid := http_request_valid;
  wire := http_request_wire;
  means b x := b = http_request_wire x;
  flaw x := lone_quote (rq_if_none_match x) |}.

Lemma texts_len x : len (concat (http_request_texts x)) = len (rq_url x) + len (rq_content_type x) + len (rq_if_none_match x) + len (rq_range x) + len (rq_body x).
Proof. unfold http_request_texts, len. cbn [concat]. rewrite app_nil_r, !length_app. lia. Qed.

Lemma http_request_encode x out : http_request_typed x -> http_request_valid x ->
  encode http_request_codec x out = put BufferTooSmall (http_request_wire x) out.
Proof.
  intros (H1 & H2 & _) (Hu & Hc & He & Hr & Hb). cbn [encode http_request_codec]. unfold encode_http_request_with_range.
  destruct (validate_text_spec MAX_HTTP_URL_LEN (rq_url x)) as [[_ ->]|[Hn _]]; [| done]. destruct (validate_text_spec MAX_HTTP_CONTENT_TYPE_LEN (rq_content_type x)) as [[_ ->]|[Hn _]]; [| done].
  destruct (validate_etag_spec (rq_if_none_match x)) as [[_ ->]|[[Hq _]|[Hn _]]]; [| | done].
  2: { destruct He as [_ [E|E]]; [rewrite E in Hq; by destruct Hq | by apply lone_not_valid in Hq]. }
  destruct (validate_range_spec (rq_range x)) as [[_ ->]|[Hn _]]; [| done].
  pose proof (proj1 Hu). pose proof (proj1 Hc). pose proof (proj1 He). pose proof (proj1 Hr). cbn [foldl]. unfold checked_add64, U64_MAX. tests. cbv zeta. lengths.
  apply (encoded _ _ (http_request_fields x) (concat (http_request_texts x))); [rewrite texts_len; by_limits | by_limits |].
  unfold http_request_fields, http_request_texts. cbn [concat]. rewrite app_nil_r. stores. rewrite <- !app_assoc, ?length_app. repeat first [reflexivity | lia | progress f_equal].
Qed.

Lemma http_request_refused x out : ~ http_request_valid x ->
  (exists e, encode http_request_codec x out = Err e) \/ flaw http_request_codec x /\ encode http_request_codec x out = Panic.
Proof.
  intros Hv. cbn [encode flaw http_request_codec]. unfold encode_http_request_with_range.
  destruct (validate_text_spec MAX_HTTP_URL_LEN (rq_url x)) as [[Hu ->]|[_ [e ->]]]; [| left; by eexists].
  destruct (validate_text_spec MAX_HTTP_CONTENT_TYPE_LEN (rq_content_type x)) as [[Hc ->]|[_ [e ->]]]; [| left; by eexists].
  destruct (validate_etag_spec (rq_if_none_match x)) as [[He ->]|[[Hq ->]|(_ & _ & e & ->)]]; [| by right | left; by eexists].
  destruct (validate_range_spec (rq_range x)) as [[Hr ->]|[_ [e ->]]]; [| left; by eexists].
  destruct (Z.ltb_spec MAX_HTTP_IPC_DATA_LEN (len (rq_body x))); [left; by eexists |]. by destruct Hv.
Qed.

(** What a decoder makes of the texts of a request. *)
Definition settle (x : HttpRequest) : res HttpRequest :=
  let? _ := check_utf8 (rq_url x) in let? _ := check_utf8 (rq_content_type x) in let? _ := check_utf8 (rq_if_none_match x) in let? _ := check_utf8 (rq_range x) in
  let? _ := validate_text (rq_url x) MAX_HTTP_URL_LEN in let? _ := validate_text (rq_content_type x) MAX_HTTP_CONTENT_TYPE_LEN in
  let? _ := validate_etag (rq_if_none_match x) in let? _ := validate_range (rq_range x) in Ok x.

(** What the fixed part of a request says: machine integers, and lengths within the limits. *)
Definition shaped (x : HttpRequest) : Prop :=
  is_u64 (rq_request_id x) /\ is_u32 (rq_timeout_ms x) /\ Forall bytes (http_request_texts x) /\ len (rq_url x) <= MAX_HTTP_URL_LEN /\ len (rq_content_type x) <= MAX_HTTP_CONTENT_TYPE_LEN /\
  len (rq_if_none_match x) <= MAX_HTTP_ETAG_LEN /\ len (rq_range x) <= MAX_HTTP_RANGE_LEN /\ len (rq_body x) <= MAX_HTTP_IPC_DATA_LEN.

Lemma decode_request_wire x : shaped x -> decode_http_request (http_request_wire x) = settle x.
Proof.
  intros (H1 & H2 & H3 & L1 & L2 & L3 & L4 & L5). pose proof (texts_len x) as Ht. assert (0 <= HttpMethod_wire_value (rq_method x) < 65536) by (destruct (rq_method x); cbn; lia).
  assert (bytes (concat (http_request_texts x))) by (by apply concat_bytes). unfold http_request_wire, decode_http_request.
  decodes OpHttpRequest (rq_request_id x) (http_request_fields x) (concat (http_request_texts x)).
  assert (HttpMethod_from_wire (HttpMethod_wire_value (rq_method x)) = Some (rq_method x)) as -> by (by destruct (rq_method x)). cbn [ok_or foldl]. unfold checked_add64, U64_MAX. tests.
  assert (size (head OpHttpRequest (rq_request_id x) (len b) ++ http_request_fields x) = 48%nat) as Hz by reflexivity.
  rewrite (slice_nth b _ _ 0 (rq_url x) _ _ E eq_refl), (slice_nth b _ _ 1 (rq_content_type x) _ _ E eq_refl), (slice_nth b _ _ 2 (rq_if_none_match x) _ _ E eq_refl),
    (slice_nth b _ _ 3 (rq_range x) _ _ E eq_refl), (slice_nth b _ _ 4 (rq_body x) _ _ E eq_refl) by
    (unfold http_request_texts; cbn [take concat]; rewrite ?Hz, ?length_app, ?Nat.add_0_r; rewrite ?Ht in *; unfold len, HTTP_REQUEST_BASE_LEN, HEADER_LEN in *; cbn [List.length] in *; lia).
  unfold settle, check_utf8. repeat (destruct (from_utf8 _); [| done]). repeat (destruct (_ : res unit); try done). by destruct x.
Qed.

Lemma decode_request_shape b : bytes b -> (exists e, decode_http_request b = Err e) \/ exists x, shaped x /\ b = http_request_wire x.
Proof.
  set (P := exists x, shaped x /\ b = http_request_wire x). intros Hb. enough ((decode_http_request b = Panic -> P) /\ forall y : HttpRequest, decode_http_request b = Ok y -> P) as [H1 H2].
  { destruct (decode_http_request b) as [y|e|]; [right; by apply (H2 y) | left; by eexists | right; by apply H1]. }
  subst P. revert b Hb. opened [2; 2; 4; 2; 2; 4; 2; 2; 4]%nat.
  destruct (HttpMethod_from_wire _) as [m|] eqn:Em'; [| cases]. apply HttpMethod_from_wire_Some in Em' as ->. cbn [ok_or].
  destruct (negb (z0 =? 0)) eqn:R1; [done |]. destruct (negb (z7 =? 0)) eqn:R2; [done |]. bool_cases. subst z0 z7.
  destruct (_ || (MAX_HTTP_IPC_DATA_LEN <? z4)) eqn:Hm; [done |]. repeat match goal with H : _ || _ = false |- _ => apply orb_false_iff in H as [? ?] end. bool_cases.
  cbn [foldl]. unfold checked_add64, U64_MAX. tests. destruct (negb (len b =? HTTP_REQUEST_BASE_LEN + z2 + z3 + z5 + z6 + z4)) eqn:Hl; [done |]. bool_cases.
  destruct (cut [z2; z3; z5; z6; z4] tail) as (ts & -> & Hts); [repeat (apply Forall_cons; split); [by_limits .. | constructor] | by_limits |].
  destruct ts as [|t1 [|t2 [|t3 [|t4 [|t5 [|]]]]]]; try discriminate Hts. cbn [map] in Hts. injection Hts as Ht1 Ht2 Ht3 Ht4 Ht5. apply concat_bytes in Htail.
  assert (exists x, shaped x /\ b = http_request_wire x) as HP; [| by split].
  exists {| rq_request_id := id; rq_method := m; rq_timeout_ms := z1; rq_url := t1; rq_content_type := t2; rq_if_none_match := t3; rq_range := t4; rq_body := t5 |}.
  unfold shaped, http_request_wire, http_request_texts, http_request_fields. cbn [rq_request_id rq_method rq_timeout_ms rq_url rq_content_type rq_if_none_match rq_range rq_body].
  rewrite Ht1, Ht2, Ht3, Ht4, Ht5. by split_and!.
Qed.

Lemma settle_cases x : shaped x ->
  (settle x = Ok x /\ http_request_typed x /\ http_request_valid x) \/ (exists e, settle x = Err e) \/ (settle x = Panic /\ lone_quote (rq_if_none_match x)).
Proof.
  intros (H1 & H2 & H3 & L1 & L2 & L3 & L4 & L5). unfold settle, check_utf8.
  destruct (from_utf8 (rq_url x)) eqn:U1; [| right; left; by eexists]. destruct (from_utf8 (rq_content_type x)) eqn:U2; [| right; left; by eexists].
  destruct (from_utf8 (rq_if_none_match x)) eqn:U3; [| right; left; by eexists]. destruct (from_utf8 (rq_range x)) eqn:U4; [| right; left; by eexists].
  destruct (validate_text_spec MAX_HTTP_URL_LEN (rq_url x)) as [[Hu ->]|[_ [e ->]]]; [| right; left; by eexists].
  destruct (validate_text_spec MAX_HTTP_CONTENT_TYPE_LEN (rq_content_type x)) as [[Hc ->]|[_ [e ->]]]; [| right; left; by eexists].
  destruct (validate_etag_spec (rq_if_none_match x)) as [[He ->]|[[Hq ->]|(_ & _ & e & ->)]]; [| by right; right | right; left; by eexists].
  destruct (validate_range_spec (rq_range x)) as [[Hr ->]|[_ [e ->]]]; [| right; left; by eexists]. left. split; [done |]. split; [by split_and! | done].
Qed.

Lemma http_request_exact : exact http_request_codec.
Proof.
  split.
  - apply http_request_encode.
  - intros x out _. apply http_request_refused.
  - intros x (H1 & H2 & H3 & U1 & U2 & U3 & U4) (Hu & Hc & He & Hr & Hb). assert (shaped x) as Hs by (split_and!; first [done | apply Hu | apply Hc | apply He | apply Hr]). cbn [decode wire http_request_codec].
    rewrite decode_request_wire by done. destruct (settle_cases x Hs) as [[-> _]|[[e E]|[_ Hq]]]; [done | |].
    + revert E. unfold settle, check_utf8. rewrite U1, U2, U3, U4. destruct (validate_text_spec MAX_HTTP_URL_LEN (rq_url x)) as [[_ ->]|[Hn _]]; [| done].
      destruct (validate_text_spec MAX_HTTP_CONTENT_TYPE_LEN (rq_content_type x)) as [[_ ->]|[Hn _]]; [| done]. destruct (validate_etag_spec (rq_if_none_match x)) as [[_ ->]|[[_ ->]|[Hn _]]]; [| done | done].
      by destruct (validate_range_spec (rq_range x)) as [[_ ->]|[Hn _]].
    + destruct He as [_ [E|E]]; [rewrite E in Hq; by destruct Hq | by apply lone_not_valid in Hq].
  - intros b x Hb. cbn [decode typed valid means http_request_codec]. intros E. destruct (decode_request_shape b Hb) as [[e E']|(y & Hs & ->)]; [by rewrite E' in E |].
    rewrite decode_request_wire in E by done. destruct (settle_cases y Hs) as [(E' & Ht & Hv)|[[e E']|[E' _]]]; rewrite E' in E; [| done | done]. by apply ok_eq in E as <-.
  - intros b Hb. cbn [decode flaw means http_request_codec]. intros E. destruct (decode_request_shape b Hb) as [[e E']|(y & Hs & ->)]; [by rewrite E' in E |].
    rewrite decode_request_wire in E by done. destruct (settle_cases y Hs) as [(E' & _)|[[e E']|[_ Hq]]]; [by rewrite E' in E | by rewrite E' in E |]. by exists y.
Qed.

(** The flaw is there: a tag that is a lone quotation mark, in a request that is fine otherwise, stops the decoder. *)
Lemma http_request_flaw x : shaped x -> from_utf8 (rq_url x) = true -> from_utf8 (rq_content_type x) = true -> from_utf8 (rq_range x) = true ->
  text_ok MAX_HTTP_URL_LEN (rq_url x) -> text_ok MAX_HTTP_CONTENT_TYPE_LEN (rq_content_type x) -> lone_quote (rq_if_none_match x) -> decode_http_request (http_request_wire x) = Panic.
Proof.
  intros Hs U1 U2 U4 Hu Hc Hq. rewrite decode_request_wire by done. unfold settle, check_utf8. rewrite U1, U2, U4. assert (from_utf8 (rq_if_none_match x) = true) as -> by (by destruct Hq as [-> | ->]).
  destruct (validate_text_spec MAX_HTTP_URL_LEN (rq_url x)) as [[_ ->]|[Hn _]]; [| done]. destruct (validate_text_spec MAX_HTTP_CONTENT_TYPE_LEN (rq_content_type x)) as [[_ ->]|[Hn _]]; [| done].
  by destruct Hq as [-> | ->].
Qed.
