(* ===== verification/NetProtocol.v ===== *)
(** * The network service's protocol as a whole

    Every message of the protocol with its opcode and its codec, and what holds for all of them. *)

From S2P Require Import Prelude Text Fields NetWire NetMessages NetPlain NetTls NetHttp.

(** The formats.  The first four serve several opcodes. *)
Inductive Format : Type :=
  | Empty (op : Opcode) | Frame (op : Opcode) | Status (op : Opcode) | Statistics (op : Opcode)
  | DeviceInfo | Ping | PingResult | ResolveIpv4 | ResolveIpv4Result | StackStatistics | SecurityStatistics
  | TcpConnect | TcpConnectResult | TcpSend | TcpSendResult | TcpReceive | TcpReceiveResult | TcpClose | TcpCloseResult
  | TlsConnect | TlsConnectResult | TlsSend | TlsSendResult | TlsReceive | TlsReceiveResult | TlsClose | TlsCloseResult
  | HttpRequest | HttpRequestResult | HttpRead | HttpReadResult | HttpClose | HttpCloseResult.

Definition opcode_of (f : Format) : Opcode :=
  match f with
  | Empty op | Frame op | Status op | Statistics op => op
  | DeviceInfo => OpInterfaceInfo | Ping => OpPing | PingResult => OpPingResult
  | ResolveIpv4 => OpResolveIpv4 | ResolveIpv4Result => OpResolveIpv4Result | StackStatistics => OpStackStatistics | SecurityStatistics => OpSecurityStatistics
  | TcpConnect => OpTcpConnect | TcpConnectResult => OpTcpConnectResult | TcpSend => OpTcpSend | TcpSendResult => OpTcpSendResult
  | TcpReceive => OpTcpReceive | TcpReceiveResult => OpTcpReceiveResult | TcpClose => OpTcpClose | TcpCloseResult => OpTcpCloseResult
  | TlsConnect => OpTlsConnect | TlsConnectResult => OpTlsConnectResult | TlsSend => OpTlsSend | TlsSendResult => OpTlsSendResult
  | TlsReceive => OpTlsReceive | TlsReceiveResult => OpTlsReceiveResult | TlsClose => OpTlsClose | TlsCloseResult => OpTlsCloseResult
  | HttpRequest => OpHttpRequest | HttpRequestResult => OpHttpRequestResult | HttpRead => OpHttpRead | HttpReadResult => OpHttpReadResult
  | HttpClose => OpHttpClose | HttpCloseResult => OpHttpCloseResult
  end.

Definition codec_of (f : Format) : Codec :=
  match f with
  | Empty op => empty_codec op | Frame op => frame_codec op | Status op => status_codec op | Statistics op => statistics_codec op
  | DeviceInfo => interface_info_codec | Ping => ping_codec | PingResult => ping_result_codec
  | ResolveIpv4 => resolve_codec | ResolveIpv4Result => resolve_result_codec | StackStatistics => stack_statistics_codec | SecurityStatistics => security_statistics_codec
  | TcpConnect => tcp_connect_codec | TcpConnectResult => tcp_connect_result_codec | TcpSend => tcp_send_codec | TcpSendResult => tcp_io_codec OpTcpSendResult
  | TcpReceive => tcp_receive_codec | TcpReceiveResult => tcp_receive_result_codec | TcpClose => tcp_close_codec | TcpCloseResult => tcp_io_codec OpTcpCloseResult
  | TlsConnect => tls_connect_codec | TlsConnectResult => tls_result_codec | TlsSend => tls_send_codec | TlsSendResult => tls_io_codec OpTlsSendResult
  | TlsReceive => tls_receive_codec | TlsReceiveResult => tls_receive_result_codec | TlsClose => tls_close_codec | TlsCloseResult => tls_io_codec OpTlsCloseResult
  | HttpRequest => http_request_codec | HttpRequestResult => http_result_codec | HttpRead => http_read_codec | HttpReadResult => http_io_codec OpHttpReadResult
  | HttpClose => http_close_codec | HttpCloseResult => http_io_codec OpHttpCloseResult
  end.

Lemma format_exact f : exact (codec_of f).
Proof.
  destruct f; cbn [codec_of]; first [apply empty_exact | apply frame_exact | apply status_exact | apply statistics_exact | apply interface_info_exact | apply ping_exact | apply ping_result_exact
    | apply resolve_exact | apply resolve_result_exact | apply stack_statistics_exact | apply security_statistics_exact | apply tcp_connect_exact | apply tcp_connect_result_exact | apply tcp_send_exact
    | apply tcp_io_exact; auto | apply tcp_receive_exact | apply tcp_receive_result_exact | apply tcp_close_exact | apply tls_connect_exact | apply tls_result_exact | apply tls_send_exact
    | apply tls_io_exact; auto | apply tls_receive_exact | apply tls_receive_result_exact | apply tls_close_exact | apply http_request_exact | apply http_result_exact | apply http_read_exact
    | apply http_io_exact; auto | apply http_close_exact].
Qed.

Lemma put_Ok {E} (short : Z -> Z -> E) w out out' n : put short w out = Ok (out', n) -> w ++ drop (List.length w) out = out' /\ n = Z.of_nat (List.length w).
Proof. unfold put. destruct (len out <? len w); [done |]. by intros [= <- <-]. Qed.

Lemma opening_opcode {A} op b (k : Header -> res A) x : opening op b k = Ok x -> exists h, Header_decode b = Ok h /\ opcode h = op.
Proof.
  unfold opening. destruct (Header_decode b) as [h|e|]; [| done | done]. unfold expect_opcode. intros H. exists h. split; [done |]. destruct (decide (opcode h = op)) as [E|E]; [done |].
  by rewrite bool_decide_eq_false_2 in H.
Qed.
Lemma format_opcode f b x : decode (codec_of f) b = Ok x -> exists h, Header_decode b = Ok h /\ opcode h = opcode_of f.
Proof. destruct f; intros H; exact (opening_opcode _ b _ x H). Qed.

(** C3: the messages of the network service.  For each of the formats: encoding a value that its types and limits allow fills the front
    of a buffer that is long enough with the bytes of the format and nothing else, a buffer that is too short is refused with the
    needed length, and other values are refused; the decoder gives back what was encoded, takes only bytes that stand for an
    allowed value, and panics on no bytes; no bytes are a message for two opcodes.  The bytes that stand for a value are the encoded ones
    only, but for the description of an interface, where every byte but zero says that the link is up.  The code of the HTTP
    request panics, in both directions, on an entity tag that is a lone quotation mark. *)
Theorem net_messages_exact f :
  (forall x out, typed (codec_of f) x ->
     (valid (codec_of f) x -> encode (codec_of f) x out = put (short (codec_of f)) (wire (codec_of f) x) out /\
        forall out' n, encode (codec_of f) x out = Ok (out', n) -> decode (codec_of f) (take (Z.to_nat n) out') = Ok x /\ drop (Z.to_nat n) out' = drop (Z.to_nat n) out) /\
     (~ valid (codec_of f) x -> (exists e, encode (codec_of f) x out = Err e) \/ flaw (codec_of f) x /\ encode (codec_of f) x out = Panic)) /\
  (forall b, bytes b ->
     (forall x, decode (codec_of f) b = Ok x -> typed (codec_of f) x /\ valid (codec_of f) x /\ means (codec_of f) b x) /\
     (decode (codec_of f) b = Panic -> exists x, flaw (codec_of f) x /\ means (codec_of f) b x)) /\
  (forall g b x y, decode (codec_of f) b = Ok x -> decode (codec_of g) b = Ok y -> opcode_of f = opcode_of g) /\
  (f <> DeviceInfo -> forall b x, means (codec_of f) b x -> b = wire (codec_of f) x) /\
  (f <> HttpRequest -> forall x, ~ flaw (codec_of f) x).
Proof.
  destruct (format_exact f) as [He Hi Hd Hs Ht]. split_and!.
  - intros x out Hx. split; [| by apply Hi]. intros Hv. rewrite (He x out Hx Hv). split; [done |]. intros out' n [<- ->]%put_Ok. split; [rewrite Nat2Z.id, take_app_length; by apply Hd | by rewrite Nat2Z.id, drop_app_length].
  - intros b Hb. split; [intros x; by apply Hs | by apply Ht].
  - intros g b x y Hx Hy. apply format_opcode in Hx as (h & E1 & <-). apply format_opcode in Hy as (h' & E2 & <-). congruence.
  - intros Hne b x H. destruct f; first [exact H | by destruct Hne].
  - intros Hne x H. destruct f; first [exact H | by destruct Hne].
Qed.

(** Sending three bytes over a connection, in a buffer that is longer than the message. *)
Lemma net_messages_exact_witness : exists out n,
  encode_tcp_send 7 9 1000 [1; 2; 3] (replicate 64 255) = Ok (out, n) /\ n = 43 /\ decode_tcp_send (take (Z.to_nat n) out) = Ok (7, 9, 1000, [1; 2; 3]) /\ drop 43 out = replicate 21 255.
Proof.
  destruct (net_messages_exact TcpSend) as [H _]. destruct (H (7, 9, 1000, [1; 2; 3]) (replicate 64 255)) as [[_ Hr] _].
  - cbn. unfold is_u64, is_u32. split_and!; try lia. repeat constructor; unfold is_u8; lia.
  - vm_compute. discriminate.
  - destruct (encode_tcp_send 7 9 1000 [1; 2; 3] (replicate 64 255)) as [[out n] | e |] eqn:E; [| vm_compute in E; discriminate ..].
    destruct (Hr out n E) as [H1 H2]. assert (n = 43) as -> by (vm_compute in E; injection E; congruence).
    exists out, 43. split_and!; [reflexivity | reflexivity | exact H1 | etransitivity; [exact H2 | reflexivity]].
Defined.
