(* ===== verification/Stack.v ===== *)
(** * The stacked codecs

    A frame is built by encoding a transport packet, the IPv4 packet around it and the Ethernet frame around that, each
    into a buffer of its own, and is taken apart in the opposite order.  The link and network layers are
    used through [Framing], the transports through [Transport]; the instances discharge the laws. *)

From S2P Require Import Prelude Packet Ethernet Ipv4 Icmp Udp TcpSegment.

(** A codec whose checksum may cover the two network addresses. *)
Class Transport {T : Type}
    (encode : T -> list Z -> list Z -> list Z -> result PacketError (nat * list Z))
    (decode : list Z -> list Z -> list Z -> result PacketError T) := {
  tr_ok : T -> Prop;
  tr_wire : list Z -> list Z -> T -> list Z;
  tr_bytes : forall s d t, arr 4 s -> arr 4 d -> tr_ok t -> bytes (tr_wire s d t);
  tr_encode : forall s d t out, arr 4 s -> arr 4 d -> tr_ok t -> (length (tr_wire s d t) <= length out)%nat ->
    encode t s d out = Ok (length (tr_wire s d t), tr_wire s d t ++ drop (length (tr_wire s d t)) out);
  tr_decode : forall s d t, arr 4 s -> arr 4 d -> tr_ok t -> decode s d (tr_wire s d t) = Ok t;
}.

Section Frames.
Context {T : Type} {encode : T -> list Z -> list Z -> list Z -> result PacketError (nat * list Z)}
  {decode : list Z -> list Z -> list Z -> result PacketError T} `{TR : !Transport encode decode}.

(** Encode through three buffers; the used part of each is the payload of the next. *)
Definition send_frame (eth : EthernetHeader) (ip : Ipv4Header) (t : T) (b1 b2 b3 : list Z) : result PacketError (list Z) :=
  let? (n1, b1) := encode t (ip_source ip) (ip_destination ip) b1 in
  let? (n2, b2) := Ipv4Header_encode ip (take n1 b1) b2 in
  let? (n3, b3) := EthernetHeader_encode eth (take n2 b2) b3 in
  Ok (take n3 b3).

Definition receive_frame (frame : list Z) : result PacketError (EthernetHeader * Ipv4Header * T) :=
  let? (eth, packet) := EthernetHeader_decode frame in
  let? (ip, payload) := Ipv4Header_decode packet in
  let? t := decode (ip_source ip) (ip_destination ip) payload in
  Ok (eth, ip, t).

Lemma take_written (w rest : list Z) : take (length w) (w ++ rest) = w.
Proof. apply take_app_length. Qed.

Lemma frame_roundtrip eth ip t b1 b2 b3 (w := tr_wire (ip_source ip) (ip_destination ip) t) :
  tr_ok t -> fr_ok ip w -> fr_ok eth (fr_wire ip w) -> arr 4 (ip_source ip) -> arr 4 (ip_destination ip) ->
  (length w <= length b1)%nat -> (20 + length w <= length b2)%nat -> (34 + length w <= length b3)%nat ->
  exists frame, send_frame eth ip t b1 b2 b3 = Ok frame /\ length frame = (34 + length w)%nat /\
    receive_frame frame = Ok (eth, ip, t).
Proof.
  intros Ht Hip Heth Hs Hd H1 H2 H3. unfold send_frame, receive_frame.
  rewrite tr_encode by done. fold w. rewrite take_written.
  pose proof (fr_length ip w Hip) as Hl1. pose proof (fr_length eth (fr_wire ip w) Heth) as Hl2.
  rewrite (fr_encode ip w b2 Hip) by lia. rewrite <- Hl1, take_written.
  rewrite (fr_encode eth (fr_wire ip w) b3 Heth) by lia. rewrite <- Hl2, take_written.
  eexists. split; [done |]. split; [lia |].
  rewrite (fr_decode eth _ Heth), (fr_decode ip _ Hip). unfold w. by rewrite tr_decode.
Qed.
End Frames.

Arguments send_frame {T} encode eth ip t b1 b2 b3.
Arguments receive_frame {T} decode frame.

(** ** The three transports *)

Definition echo_encode (p : EchoPacket) (s d out : list Z) : result PacketError (nat * list Z) := EchoPacket_encode p out.
Definition echo_decode (s d b : list Z) : result PacketError EchoPacket := EchoPacket_decode b.

#[export] Program Instance echo_transport : Transport echo_encode echo_decode := {|
  tr_ok p := echo_wf p /\ echo_small p;
  tr_wire _ _ p := echo_wire p;
|}.
Next Obligation. intros s d p _ _ [? _]. by apply echo_wire_bytes. Qed.
Next Obligation.
  intros s d p out _ _ [_ Hs] Hl. rewrite echo_wire_length in *. unfold echo_small in Hs. apply echo_encode_wire; widths; lia.
Qed.
Next Obligation. intros s d p _ _ [? ?]. by apply echo_decode_wire. Qed.

#[export] Program Instance udp_transport : Transport UdpDatagram_encode UdpDatagram_decode := {|
  tr_ok d := dg_wf d /\ is_u16 (Z.of_nat (udp_len d));
  tr_wire := udp_wire;
|}.
Next Obligation. intros s d p Hs Hd [(? & ? & ?) ?]. unfold udp_wire, udp_pre. solve_bytes. Qed.
Next Obligation. intros s d p out Hs Hd [? ?] Hl. rewrite udp_wire_length in *. by apply udp_encode_wire. Qed.
Next Obligation.
  intros s d p Hs Hd [? ?]. rewrite <- (app_nil_r (udp_wire s d p)). by apply udp_decode_wire.
Qed.

#[export] Program Instance tcp_transport : Transport TcpSegment_encode TcpSegment_decode := {|
  tr_ok := sg_encodable;
  tr_wire := tcp_wire;
|}.
Next Obligation.
  intros s d p Hs Hd Hok. destruct (tcp_parts_bytes p Hok). unfold tcp_wire. solve_bytes.
Qed.
Next Obligation. intros s d p out Hs Hd Hok Hl. rewrite tcp_wire_length in *. by apply tcp_encode_wire. Qed.
Next Obligation. intros s d p Hs Hd Hok. by apply tcp_decode_wire. Qed.

(** ** Claims *)

(** Headers that can carry a transport packet of [n] bytes. *)
Definition carries (eth : EthernetHeader) (ip : Ipv4Header) (n : nat) : Prop :=
  eth_wf eth /\ unicast_mac (eth_source eth) /\ ip_wf ip /\ ip_ttl ip <> 0 /\ is_u16 (20 + Z.of_nat n).

Lemma carries_frame eth ip w :
  carries eth ip (length w) -> bytes w ->
  fr_ok ip w /\ fr_ok eth (fr_wire ip w) /\ arr 4 (ip_source ip) /\ arr 4 (ip_destination ip).
Proof.
  intros (He & Hu & Hi & Ht & Hn) Hb.
  assert (fr_ok ip w) as Hip by (cbn [fr_ok ip_framing]; by split_and!).
  split; [exact Hip |]. split; [|split; apply Hi]. cbn [fr_ok eth_framing].
  split_and!; [done | done | by apply fr_bytes |]. rewrite (fr_length ip w Hip). widths. lia.
Qed.

(** C36: Whatever is sent comes out again: an ICMP echo, a UDP datagram or a TCP segment that fits one packet,
    encoded through IPv4 into an Ethernet frame in any buffers that are large enough, is decoded from that
    frame, with both headers unchanged and all checksums verified. *)
Theorem stack_roundtrip eth ip (echo : EchoPacket) (dg : UdpDatagram) (sg : TcpSegment) b1 b2 b3
    (Hecho : echo_wf echo /\ carries eth ip (8 + length (echo_payload echo)))
    (Hdg : dg_wf dg /\ carries eth ip (udp_len dg))
    (Hsg : sg_encodable sg /\ carries eth ip (tcp_len sg))
    (Hb : (65535 <= Z.of_nat (length b1) /\ 65535 <= Z.of_nat (length b2) /\ 65549 <= Z.of_nat (length b3))) :
  (exists frame, send_frame echo_encode eth ip echo b1 b2 b3 = Ok frame /\
     receive_frame echo_decode frame = Ok (eth, ip, echo)) /\
  (exists frame, send_frame UdpDatagram_encode eth ip dg b1 b2 b3 = Ok frame /\
     receive_frame UdpDatagram_decode frame = Ok (eth, ip, dg)) /\
  (exists frame, send_frame TcpSegment_encode eth ip sg b1 b2 b3 = Ok frame /\
     receive_frame TcpSegment_decode frame = Ok (eth, ip, sg)).
Proof.
  destruct Hecho as [Hwf Hce], Hdg as [Hdw Hcd], Hsg as [Hse Hct].
  assert (arr 4 (ip_source ip) /\ arr 4 (ip_destination ip)) as [Hs Hd] by (destruct Hce as (_ & _ & Hi & _); by split; apply Hi).
  pose proof Hce as (_ & _ & _ & _ & Hn1). pose proof Hcd as (_ & _ & _ & _ & Hn2). pose proof Hct as (_ & _ & _ & _ & Hn3).
  split_and!.
  - assert (tr_ok (Transport := echo_transport) echo) as Hok by (split; [done |]; unfold echo_small; widths; lia).
    destruct (carries_frame eth ip (echo_wire echo)) as (H1 & H2 & _); [by rewrite echo_wire_length | by apply echo_wire_bytes |].
    destruct (frame_roundtrip (TR := echo_transport) eth ip echo b1 b2 b3) as (f & ? & _ & ?); try done;
      cbn [tr_wire echo_transport]; rewrite ?echo_wire_length; widths; try lia. eauto.
  - assert (tr_ok (Transport := udp_transport) dg) as Hok by (split; [done |]; widths; lia).
    destruct (carries_frame eth ip (udp_wire (ip_source ip) (ip_destination ip) dg)) as (H1 & H2 & _);
      [by rewrite udp_wire_length | by apply (tr_bytes (Transport := udp_transport)) |].
    destruct (frame_roundtrip (TR := udp_transport) eth ip dg b1 b2 b3) as (f & ? & _ & ?); try done;
      cbn [tr_wire udp_transport]; rewrite ?udp_wire_length; widths; try lia. eauto.
  - destruct (carries_frame eth ip (tcp_wire (ip_source ip) (ip_destination ip) sg)) as (H1 & H2 & _);
      [by rewrite tcp_wire_length | by apply (tr_bytes (Transport := tcp_transport)) |].
    destruct (frame_roundtrip (TR := tcp_transport) eth ip sg b1 b2 b3) as (f & ? & _ & ?); try done;
      cbn [tr_wire tcp_transport]; rewrite ?tcp_wire_length; widths; try lia. eauto.
Qed.

Definition demo_eth : EthernetHeader :=
  {| eth_destination := [82; 84; 0; 18; 53; 2]; eth_source := [82; 84; 0; 18; 52; 86]; eth_ethertype := 2048 |}.
Definition demo_ip : Ipv4Header :=
  {| ip_source := [10; 0; 2; 15]; ip_destination := [10; 0; 2; 2]; ip_protocol := 17; ip_ttl := 64; ip_identification := 7 |}.

Lemma demo_carries n : Z.of_nat n <= 1000 -> carries demo_eth demo_ip n.
Proof.
  intros Hn. unfold carries. split; [|split; [|split; [|split]]].
  - split_and!; [split; [reflexivity | cbn; solve_bytes].. | cbn; widths; lia].
  - split_and!; [done | done | by exists 82].
  - split_and!; [split; [reflexivity | cbn; solve_bytes] | split; [reflexivity | cbn; solve_bytes] | cbn; widths; lia..].
  - done.
  - widths. lia.
Qed.

Definition demo_echo : EchoPacket :=
  {| echo_reply := false; echo_identifier := 1; echo_sequence := 2; echo_payload := [104; 105] |}.
Definition stack_datagram : UdpDatagram :=
  {| dg_source_port := 40000; dg_destination_port := 53; dg_payload := [1; 2; 3] |}.
Definition buffer : list Z := replicate (Z.to_nat 65549) 0.

Lemma stack_roundtrip_witness :
  (exists frame, send_frame echo_encode demo_eth demo_ip demo_echo buffer buffer buffer = Ok frame /\
     receive_frame echo_decode frame = Ok (demo_eth, demo_ip, demo_echo)) /\
  (exists frame, send_frame UdpDatagram_encode demo_eth demo_ip stack_datagram buffer buffer buffer = Ok frame /\
     receive_frame UdpDatagram_decode frame = Ok (demo_eth, demo_ip, stack_datagram)) /\
  (exists frame, send_frame TcpSegment_encode demo_eth demo_ip demo_segment buffer buffer buffer = Ok frame /\
     receive_frame TcpSegment_decode frame = Ok (demo_eth, demo_ip, demo_segment)).
Proof.
  apply (stack_roundtrip demo_eth demo_ip demo_echo stack_datagram demo_segment buffer buffer buffer).
  - split; [unfold echo_wf; cbn; split_and!; first [widths; lia | solve_bytes] | apply demo_carries; cbn; lia].
  - split; [unfold dg_wf; cbn; split_and!; first [widths; lia | solve_bytes] | apply demo_carries; cbn; lia].
  - split; [exact demo_segment_ok | apply demo_carries; cbn; lia].
  - unfold buffer. rewrite length_replicate. lia.
Defined.
